(* ===== verification/_CoqProject ===== *)
-Q . S2P
Prelude.v
Trace.v
Text.v
Crc.v
CrcUnit.v
FrameBytes.v
Wire.v
Frame.v
Group.v
Build.v
Mac.v
Security.v
SecureDriver.v
Stage.v
Table.v
Regions.v
Export.v
Descriptor.v
Persist.v
Dispatch.v
Chain.v
Ring.v
Deadline.v
Trim.v
Clock.v
Framer.v
Decode.v
Tx.v
UartTx.v
ServoBus.v
Spine.v
HostFramer.v
HostShape.v
HostEngine.v
HostContract.v
HostTiming.v
Link.v
LinkContract.v
EdgeUnwrap.v
ClientSession.v
Client.v
ClientContract.v
Capture.v
Instrument.v
HostLoop.v
Usb.v
Mgmt.v
Cli.v
Discovery.v
Sensors.v
Led.v
Motor.v
MainLoop.v
CtlMath.v
CtlServo.v
Registry.v
Shadow.v
FieldStore.v
Kernel.v
