(* ===== verification/Prelude.v ===== *)
(** * A verification of the OpenServoCore bus stack

    The program is the servo firmware of open-servo-core-secure, the adapter
    firmware that bridges its bus to USB, the libraries they share
    (src/firmware/lib), the PC client (src/client) and the operator's tool
    (src/tools/osc): a half-duplex wire protocol with a CRC and an optional
    message-authentication plane, a control table of registers generated from
    annotated structs, and the machinery between the wire and the table.  Both
    control stacks of the previous generation (src/firmware-old) are included.
    This library translates that code into executable definitions and proves
    what makes it correct.

    ** The parts and how they interact

    The client encodes records and sends them over USB to the adapter, whose
    link server turns them into exchanges of its bus engine.  The engine
    encodes a request with the builders of osc-protocol and seals it with the
    CRC.  On the servo a DMA engine fills a ring; the framer carves frames out
    of it; the decoder turns a frame view into a request; the dispatcher runs
    the request against the control table, staging effects and a reply before
    the CRC verdict is known and committing or reverting them after it; the
    chain decides when a staged reply may leave, and the transmitter streams
    it.  The clock tracker trims the oscillator from break spacing, and the
    session verifier of osc-security judges trailers.  The config store keeps
    two flash images of the persistent regions.  The main loops of both chips
    poll these parts and serve the LED, the sensors and the motor; a compare
    timer gives them their deadlines and a UART with a DMA channel the wire.
    The tool reads the exported description of the table and runs its commands
    over the client.

    In the previous generation one control interrupt runs the loop.  The first
    stack is a servo core with an application shell; the second a kernel under
    an executor, which shares a table of registers with the host and a persist
    service that keeps fields of it in flash.

    ** Which file models what (paths under src/firmware, unless given in full)

    - [Prelude]: machine integers, slices, error results, shared lemmas,
      tactics and the hint databases [osc] and [osc_rw].
    - [Trace]: the monad of the composites (state, a trace of port calls,
      panic) and its total postcondition [runs].
    - [Text]: strings and the number texts of the standard library.
    - [Crc]: lib/osc-protocol/src/crc.rs; [CrcUnit]: the CRC coprocessor of
      servo-ch32/src/providers/crc.rs.
    - [FrameBytes]: lib/osc-protocol/src/bytes.rs, the two-segment view.
    - [Wire]: wire.rs, models.rs and table.rs of lib/osc-protocol/src.
    - [Frame]: frame.rs and reply.rs; [Group]: group.rs; [Build]: build.rs.
    - [Mac]: lib/osc-security/src/mac.rs (HalfSipHash-2-4).
    - [Security]: keys, policy, replay, trailer, stream, session and se.rs of
      lib/osc-security/src.  The secure element is the class
      [SecureElement]; the code that implements it is a parameter.
    - [SecureDriver]: lib/drivers/src/se, the single-wire encoding and the
      ECC204 commands.
    - [Stage]: lib/control-table/src/stage.rs and the crate's errors.
    - [Table]: rules.rs and map.rs of lib/control-table/src, over the class
      [RegisterMap] (the trait's constants).
    - [Regions]: what the derives of lib/control-table-derive/src generate,
      as functions, applied to the structs of lib/core/src/regions; the
      instance of [RegisterMap] is the firmware's own table.
    - [Export]: the field descriptors of lib/control-table/src/descriptor.rs
      as the derives emit them, and lib/table-export/src/main.rs;
      [Descriptor]: src/tools/osc/src/descriptor.rs.
    - [Persist]: lib/core/src/persist.rs and the A/B flash store of
      servo-ch32/src/providers/config_store.rs.
    - [Dispatch]: lib/core/src/services/bus (dispatcher and session), with
      traits/services.rs, shared.rs and regions/hooks.rs.
    - [Chain], [Ring], [Trim], [Clock], [Framer], [Decode], [Tx]: the modules
      of lib/drivers/src/bus with the same names ([Ring] is mod.rs and the
      tick comparison of traits/bus.rs).
    - [Deadline]: the deadline providers of both chips with hal/systick and
      hal/pfic; [UartTx]: their transmitters (providers/tx_wire.rs,
      usart_baud.rs, hal/usart and hal/dma).
    - [ServoBus]: lib/drivers/src/bus/servo_bus.rs and servo_bus/, the
      composite that wires the transport to the dispatcher; [Spine] its
      theorems.
    - [HostFramer], [HostShape], [HostEngine]: framer.rs, shape.rs, and mod.rs
      with wireop.rs and traits.rs of lib/host/src/engine; [HostContract] and
      [HostTiming] the engine's theorems.
    - [Link]: record.rs and server.rs of lib/host/src/link; [LinkContract] its
      theorems.
    - [EdgeUnwrap], [ClientSession], [Client], [Mgmt]: src/client/src (wire.rs;
      session.rs; client, wire, common, cyclic and pipe.rs; mgmt.rs);
      [ClientContract] and [Discovery] their theorems.
    - [Cli]: src/tools/osc/src/main.rs, every command over [Client].
    - [Capture]: host-ch32/src/providers/edges.rs; [Instrument] joins it with
      the link server and the client.
    - [HostLoop]: host-ch32/src/runtime/run.rs; [Usb]: runtime/usb.rs.
    - [Sensors], [Motor], [MainLoop]: control/sensors, control/motor.rs with
      hal/timer/v3.rs, and runtime/run.rs of servo-ch32/src; [Led]:
      lib/drivers/src/led.rs.
    - [CtlMath], [CtlServo]: the control arithmetic and the servo core of
      src/firmware-old (open-servo-math, open-servo-control and
      open-servo-core).
    - [Registry]: open-servo-registry and the derive of
      open-servo-macros/src/regmap.rs; [Shadow]: the shared table as the class
      [Shadow] with its laws; [FieldStore]: open-servo-services/src/persist.rs;
      [Kernel]: open-servo-kernel, the types of open-servo-kernel-api and
      open-servo-hw/src/v2, the codec of open-servo-registry/src/facade.rs and
      open-servo-runtime/src/executor.rs (all under src/firmware-old).

    A definition keeps the source's name; a method [f] of a type [T] is
    [T_f].  A struct is a record, an enum an inductive type, a trait a class.
    Bytes and machine words are [Z] with their wrap written out; lengths and
    offsets into slices are [nat].  Code that mutates takes and returns its
    state.  A panic is [None]; a [Result] is [result].  Assertions that only
    exist in debug builds are absent.  The calls the code makes on a hardware
    port or on the reply port are returned as a trace of events, in order.

    ** What the theorems show

    - The servo's spine: nothing a frame asks for survives unless its CRC and
      its message-plane verdict pass, whichever way the frame was routed (C1);
      dispatching ahead of the verdict and replying early leave what waiting
      would, the digest of overheard frames apart (C11); reply routing ends
      (C31).
    - The adapter: every request of the client is answered once (C2); the
      engine refines a three-phase machine and keeps the drive discipline of
      the wire (C5); its plan for an instruction is what servos do with it
      (C22); a silent bus is noticed on time (C27); its loop loses no byte in
      either direction (C16), and the USB device delivers each packet once
      (C17).
    - The client: a submitted command ends with its own statuses and terminal
      (C6); discovery finds every servo of a bus with a bounded number of
      disturbances (C8); the edges it composes are the transitions captured,
      outside breaks (C15).
    - The operator's tool: a set writes one register and nothing else (C18), a
      dump prints every register's value (C19), printed values are read back
      as the same bytes (C21), and the register file keeps the access, bounds
      and variants of the exported description (C28).
    - Authentication: what a pass means and the lockout as an invariant (C3,
      C23).
    - Persistence and dispatch: a power cut never loses the last completed
      save (C4), and an acknowledged save is what the next boot loads, from
      any store a boot can find (C26); a frame that fails its CRC leaves no
      effect (C7); the invariant of every servo state reachable from power-on
      (C24); committed writes (C25).
    - Wire format: every burst of at most sixteen bits is detected (C12), and
      the coprocessor computes that checksum (C29); requests read back as the
      request the servo dispatches (C20).
    - Register file: the optimised validator is the plain specification
      (C13).
    - Transport: the characters of a reply on the line, cycle by cycle (C9); a
      deadline is never lost, whatever passes between two register accesses
      (C10); recovery of the framer from any noise (C14), the reply chain
      (C30), convergence of the clock controller (C32).
    - The servo's main loop declares a rescue only for a held-low bus (C33);
      sampled currents and positions are the exact ones up to rounding (C34).
    - The kernel of the previous generation: torque off stops the motor within
      a medium period (C35), and over every run the motor is driven only while
      torque is on and the driver is well, within the limit (C36); a save that
      reports success survives a reboot (C37).
    - The servo core of the previous generation: the motor is driven only
      under a permit, whatever is called in whatever order, and the fault that
      withholds it is the first since the last release (C38); within the caps
      of every mode and state (C39); a bad position sensor is tolerated for
      exactly the configured readings (C40).

    Further theorems without a number: agreement of a fleet on one commit tag,
    held writes, staging as a transaction, the streaming hash, the replay
    window's reach, the replies of READ, requests read back as they were
    built, the framer on a clean backlog, the bytes handed to the wire, the
    pipe cut at any place, the exact windows, the layout of the generated
    table and the descriptor file as its export, the descriptors USB serves,
    the capture ring as a queue, the bridge states of the motor, the LED
    patterns, the secure-element commands, the ring walker, the PID step as
    the unbounded law, recovery of the compliance limiter, the yield window,
    the gain text, the thermal model, the thermistor table, and the bitmap
    test for writes to persistent registers against a search of the fields.

    ** Fuel and bounds

    Iterators over payloads run with the payload length as fuel: each step
    consumes at least a byte. [ppm_loop] runs the source's fixed number of
    turns. [hunt] runs with the source's own budget per wake, and [drive],
    which wakes the framer as it asks, with a fuel its theorem shows to be
    enough. [drain] needs one completion per arm and one for the release.
    [crc_poll] and [feed_spin] are the source's spin budgets. [route_chain]
    turns at most 258 times. The host's walk takes a step per ring byte; a
    poll and a pump are given the ring length and the bytes that can still
    arrive, and their theorems show that to be enough; [on_pipe] takes two
    turns per byte. The client's receive loops take a turn per record the pipe
    delivers; the discovery walk has the cost of its stack as fuel, with the
    nodes each disturbance can add. [pwm_dividers_loop] searches at most 367
    prescalers, which covers every frequency the type admits. [dec_digits]
    prints ten digits, all an [i32] has, and [dec_loop] of [Text] twenty, all
    sixty-four bits have. [dump_chunks] takes a chunk per turn and [hex_pairs]
    a pair. [spin_tc] is the source's spin on the transmitter, and [until_irq]
    waits for an interrupt a theorem shows to come. In each case a theorem
    states the produced result, not only its shape if there is one.

    ** Assumptions about code and hardware outside the repository

    They are class laws or hypotheses, each with an instance or a witness: the
    CRC peripheral accumulates what it is fed and keeps its snapshot
    ([CrcEngineLaws]); the SPI unit shifts the halfwords it is fed and no
    drain outlasts the spin budget ([unhurried]); flash reads back arbitrary
    bytes after an interrupted program ([got] in [Persist]); the adapter's
    ring has a fixed power-of-two length, its cursor only moves forward and a
    bounded number of bytes arrives during one call ([HostLaws]); a pipe
    delivers the records it was sent ([delivers]); an enumeration exchange is
    answered by what the servos of its subtree superimpose, but for a bounded
    number of disturbances ([EnumBus]); the secure element answers the framed
    command ([EccPort]); a DMA channel fills its ring in order ([dma_at]); the
    USB controller holds a transfer until its flag is cleared and acknowledges
    by its response and toggle registers ([usb_step]); the counter of a timer
    moves by any number of ticks between two accesses, and a UART shifts a
    character per its divisor while a DMA channel refills it ([sk_run],
    [uart_cycle]); the tool's files and its device are arguments ([Fs]); a
    controller of the previous generation keeps the promise of its trait
    ([ControlLaws]); the shared table reads back what was written and marks
    what the host writes ([ShadowLaws]), the flash map fetches what it stored
    ([FlashMapLaws]), and the hash of field names, any function, does not
    collide on the persistent ones where a theorem says so ([NameHash]).

    ** What is not modelled, and the plan

    Register set-up at start-up, interrupt priorities, pins and the clock tree
    of the chip crates are writes of constants; logging, argument parsing and
    the opening of devices are I/O.  Attribute parsing of the derives is
    compile-time text handling.  The integration simulator, the mocks and the
    fake backends are test harnesses.  The transports and the blocking facade
    of the client wrap the modelled client in I/O.  Of the previous generation
    the debug shell, the Dynamixel and RPC front ends, the node-graph traits
    and the board crates are left out.  Next in order would be the snapshot
    copy of the CRC unit, the RPC service and the debug shell's commands. *)

From Stdlib Require Export ZArith Lia Bool.
From stdpp Require Export base numbers list option.

#[export] Set Default Proof Using "Type".

(** ** Scope and hint databases *)

Declare Scope osc_scope.
Delimit Scope osc_scope with osc.
Open Scope Z_scope.

(** [osc] holds the resolution lemmas of the whole development (well-formed
    bytes, invariants of the components); [osc_rw] its rewrite rules. *)
Create HintDb osc.
Create Rewrite HintDb osc_rw.

(** ** Machine integers

    A [w]-bit unsigned integer is a [Z] in [0 .. 2^w - 1]; every operation
    that can leave the range writes its wrap-around or its saturation out. *)

Abbreviation is_u8 x := (0 <= x < 256).
Abbreviation is_u16 x := (0 <= x < 65536).
Abbreviation is_u32 x := (0 <= x < 4294967296).

Definition u8 (x : Z) : Z := x mod 256.
Definition u16 (x : Z) : Z := x mod 65536.
Definition u32 (x : Z) : Z := x mod 4294967296.

(** Two's complement reading of a [w]-bit pattern ([as i8], [as i16], [as i32]). *)
Definition sext (w x : Z) : Z :=
  let m := x mod 2 ^ w in if m <? 2 ^ (w - 1) then m else m - 2 ^ w.
Definition i8 (x : Z) : Z := sext 8 x.
Definition i16 (x : Z) : Z := sext 16 x.
Definition i32 (x : Z) : Z := sext 32 x.

Definition saturating_add8 (a b : Z) : Z := Z.min 255 (a + b).
Definition saturating_add16 (a b : Z) : Z := Z.min 65535 (a + b).
Definition saturating_add32 (a b : Z) : Z := Z.min 4294967295 (a + b).
Definition saturating_sub (a b : Z) : Z := Z.max 0 (a - b).

(** [u32::rotate_left]. *)
Definition rotl32 (x r : Z) : Z :=
  u32 (Z.lor (Z.shiftl x r) (Z.shiftr x (32 - r))).

(** Little-endian encodings ([u16::to_le_bytes], [u32::from_le_bytes], ...). *)
Definition to_le16 (x : Z) : list Z := [x mod 256; (x / 256) mod 256].
Definition from_le16 (a b : Z) : Z := a + 256 * b.
Definition to_le32 (x : Z) : list Z :=
  [x mod 256; (x / 256) mod 256; (x / 65536) mod 256; (x / 16777216) mod 256].
Definition from_le32 (a b c d : Z) : Z :=
  a + 256 * b + 65536 * c + 16777216 * d.

(** A byte string: every element is a [u8]. *)
Abbreviation bytes_ok := (Forall (fun b : Z => 0 <= b < 256)).

(** ** Slices, with the source's out-of-range behaviour

    [get_range l a b] is Rust's [l.get(a..b)]; the panicking form [l[a..b]] is
    modelled by the same function with [None] read as a panic. *)
Definition get_range {A} (l : list A) (a b : nat) : option (list A) :=
  if ((a <=? b) && (b <=? length l))%nat then Some (take (b - a) (drop a l)) else None.

(** [dst[at .. at+len(src)].copy_from_slice(src)]: in-range splice. *)
Definition splice {A} (at_ : nat) (src dst : list A) : list A :=
  take at_ dst ++ src ++ drop (at_ + length src) dst.

(** [slice::get(i)] for a [usize] index kept as [Z] (ring indices). *)
Definition zget (l : list Z) (i : Z) : option Z := if i <? 0 then None else l !! Z.to_nat i.

(** ** Fallible code

    [Result<A, E>] of the source, with its [?] operator. *)
Inductive result (A E : Type) : Type :=
| Ok (a : A)
| Err (e : E).
Arguments Ok {A E} a.
Arguments Err {A E} e.

Definition result_bind {A B E} (r : result A E) (k : A -> result B E) : result B E :=
  match r with Ok a => k a | Err e => Err e end.
Notation "'let?' x := c 'in' k" := (result_bind c (fun x => k))
  (at level 10, x pattern, c at level 200, k at level 200) : osc_scope.
Open Scope osc_scope.

Definition is_ok {A E} (r : result A E) : bool := match r with Ok _ => true | Err _ => false end.

(** ** Tactics *)

(** Case analysis on the outermost scrutinee of a goal or hypothesis. *)
Ltac case_goal :=
  match goal with
  | |- context [match ?x with _ => _ end] =>
      lazymatch x with
      | context [match _ with _ => _ end] => fail
      | _ => destruct x eqn:?
      end
  end.
Ltac case_hyp H :=
  match type of H with
  | context [match ?x with _ => _ end] =>
      lazymatch x with
      | context [match _ with _ => _ end] => fail
      | _ => destruct x eqn:?
      end
  end.

(** Turn boolean comparisons into arithmetic facts. *)
Ltac zbool :=
  repeat match goal with
  | H : (_ && _) = true |- _ => apply andb_true_iff in H; destruct H
  | H : (_ || _) = false |- _ => apply orb_false_iff in H; destruct H
  | H : negb _ = true |- _ => apply negb_true_iff in H
  | H : negb _ = false |- _ => apply negb_false_iff in H
  | H : (_ =? _) = true |- _ => apply Z.eqb_eq in H
  | H : (_ =? _) = false |- _ => apply Z.eqb_neq in H
  | H : (_ <? _) = true |- _ => apply Z.ltb_lt in H
  | H : (_ <? _) = false |- _ => apply Z.ltb_ge in H
  | H : (_ <=? _) = true |- _ => apply Z.leb_le in H
  | H : (_ <=? _) = false |- _ => apply Z.leb_gt in H
  | H : Nat.eqb _ _ = true |- _ => apply Nat.eqb_eq in H
  | H : Nat.eqb _ _ = false |- _ => apply Nat.eqb_neq in H
  | H : Nat.ltb _ _ = true |- _ => apply Nat.ltb_lt in H
  | H : Nat.ltb _ _ = false |- _ => apply Nat.ltb_ge in H
  | H : Nat.leb _ _ = true |- _ => apply Nat.leb_le in H
  | H : Nat.leb _ _ = false |- _ => apply Nat.leb_gt in H
  end.

(** Arithmetic with division and modulus by constants. *)
Ltac zmod := Z.div_mod_to_equations; lia.

(** ** Integer lemmas *)

Lemma u8_range x : is_u8 (u8 x).
Proof. unfold u8. zmod. Qed.
Lemma u16_range x : is_u16 (u16 x).
Proof. unfold u16. zmod. Qed.
Lemma u32_range x : is_u32 (u32 x).
Proof. unfold u32. zmod. Qed.
Lemma u8_id x : is_u8 x -> u8 x = x.
Proof. unfold u8. zmod. Qed.
Lemma u16_id x : is_u16 x -> u16 x = x.
Proof. unfold u16. zmod. Qed.
Lemma u32_id x : is_u32 x -> u32 x = x.
Proof. unfold u32. zmod. Qed.

Lemma sext_small w x : 0 < w -> - 2 ^ (w - 1) <= x < 2 ^ (w - 1) -> sext w x = x.
Proof.
  intros Hw Hx. unfold sext. replace (2 ^ w) with (2 * 2 ^ (w - 1)) by (rewrite <- Z.pow_succ_r by lia; f_equal; lia).
  set (m := 2 ^ (w - 1)) in *. destruct (Z.lt_ge_cases x 0).
  - rewrite <- (Z.mod_unique_pos x (2 * m) (-1) (x + 2 * m)) by lia.
    rewrite (proj2 (Z.ltb_ge _ _)) by lia. lia.
  - rewrite Z.mod_small by lia. by rewrite (proj2 (Z.ltb_lt _ _)) by lia.
Qed.
Lemma i8_small x : -128 <= x < 128 -> i8 x = x.
Proof. by apply (sext_small 8). Qed.
Lemma i32_small x : -2147483648 <= x < 2147483648 -> i32 x = x.
Proof. by apply (sext_small 32). Qed.
(** A difference of wrapping counters is the wrapped difference. *)
Lemma u32_sub a b : u32 (u32 a - u32 b) = u32 (a - b).
Proof. unfold u32. symmetry. apply Zminus_mod. Qed.

#[export] Hint Resolve u8_range u16_range u32_range : osc.
#[export] Hint Rewrite u8_id u16_id u32_id using (lia || assumption) : osc_rw.

Lemma from_to_le16 x : is_u16 x -> from_le16 (x mod 256) ((x / 256) mod 256) = x.
Proof. unfold from_le16. zmod. Qed.
Lemma from_to_le32 x : is_u32 x ->
  from_le32 (x mod 256) ((x / 256) mod 256) ((x / 65536) mod 256) ((x / 16777216) mod 256) = x.
Proof. unfold from_le32. zmod. Qed.
Lemma to_from_le16 a b : is_u8 a -> is_u8 b -> to_le16 (from_le16 a b) = [a; b].
Proof. unfold to_le16, from_le16. intros. repeat f_equal; zmod. Qed.
Lemma to_le16_ok x : bytes_ok (to_le16 x).
Proof. unfold to_le16. repeat constructor; zmod. Qed.
Lemma to_le32_ok x : bytes_ok (to_le32 x).
Proof. unfold to_le32. repeat constructor; zmod. Qed.
Lemma from_le16_range a b : is_u8 a -> is_u8 b -> is_u16 (from_le16 a b).
Proof. unfold from_le16. lia. Qed.
Lemma from_le32_range a b c d :
  is_u8 a -> is_u8 b -> is_u8 c -> is_u8 d -> is_u32 (from_le32 a b c d).
Proof. unfold from_le32. lia. Qed.
#[export] Hint Resolve to_le16_ok to_le32_ok from_le16_range from_le32_range : osc.

(** Bitwise operations stay inside a width. *)
Lemma bits_small w x : 0 <= w -> 0 <= x ->
  (x < 2 ^ w <-> forall i, w <= i -> Z.testbit x i = false).
Proof.
  intros Hw Hx. split.
  - intros Hlt i Hi. destruct (Z.eq_dec x 0) as [->|]; [apply Z.bits_0|].
    apply Z.bits_above_log2; [lia|].
    apply Z.log2_lt_pow2; [lia|]. eapply Z.lt_le_trans; [exact Hlt|].
    apply Z.pow_le_mono_r; lia.
  - intros Hb. destruct (Z.lt_ge_cases x (2 ^ w)) as [|Hge]; [done|exfalso].
    pose proof (Z.pow_pos_nonneg 2 w ltac:(lia) Hw).
    assert (w <= Z.log2 x) by (apply Z.log2_le_pow2; lia).
    specialize (Hb (Z.log2 x) ltac:(lia)). rewrite Z.bit_log2 in Hb by lia. done.
Qed.

Lemma bits_high w x i : 0 <= w -> 0 <= x < 2 ^ w -> w <= i -> Z.testbit x i = false.
Proof. intros Hw Hx Hi. apply (proj1 (bits_small w x Hw ltac:(lia))); lia. Qed.

Lemma lxor_range w x y :
  0 <= w -> 0 <= x < 2 ^ w -> 0 <= y < 2 ^ w -> 0 <= Z.lxor x y < 2 ^ w.
Proof.
  intros Hw Hx Hy. assert (0 <= Z.lxor x y) by (apply Z.lxor_nonneg; lia).
  split; [done|]. apply bits_small; [done..|]. intros i Hi. rewrite Z.lxor_spec.
  by rewrite (bits_high w x), (bits_high w y).
Qed.

Lemma lor_range w x y :
  0 <= w -> 0 <= x < 2 ^ w -> 0 <= y < 2 ^ w -> 0 <= Z.lor x y < 2 ^ w.
Proof.
  intros Hw Hx Hy. assert (0 <= Z.lor x y) by (apply Z.lor_nonneg; lia).
  split; [done|]. apply bits_small; [done..|]. intros i Hi. rewrite Z.lor_spec.
  by rewrite (bits_high w x), (bits_high w y).
Qed.

Lemma land_range_r x m : 0 <= m -> 0 <= Z.land x m <= m.
Proof.
  intros Hm. assert (0 <= Z.land x m) by (apply Z.land_nonneg; lia). split; [done|].
  apply Z.ldiff_le; [done|]. apply Z.bits_inj'. intros i Hi.
  rewrite Z.ldiff_spec, Z.land_spec, Z.bits_0.
  destruct (Z.testbit x i), (Z.testbit m i); done.
Qed.

(** Disjoint bits add. *)
Lemma lor_shiftl_add w x y :
  0 <= w -> 0 <= x < 2 ^ w -> Z.lor x (Z.shiftl y w) = x + y * 2 ^ w.
Proof.
  intros Hw Hx. rewrite <- Z.shiftl_mul_pow2 by done. symmetry.
  apply Z.add_nocarry_lor. apply Z.bits_inj'. intros i Hi.
  rewrite Z.land_spec, Z.bits_0. destruct (Z.lt_ge_cases i w).
  - rewrite Z.shiftl_spec_low by done. apply andb_false_r.
  - rewrite (bits_high w x) by lia. done.
Qed.

Lemma lxor_shiftl_add w x y :
  0 <= w -> 0 <= x < 2 ^ w -> Z.lxor x (Z.shiftl y w) = x + y * 2 ^ w.
Proof.
  intros Hw Hx. rewrite <- lor_shiftl_add by done. apply Z.bits_inj'. intros i Hi.
  rewrite Z.lxor_spec, Z.lor_spec. destruct (Z.lt_ge_cases i w).
  - rewrite Z.shiftl_spec_low by done. by destruct (Z.testbit x i).
  - rewrite (bits_high w x) by lia.
    by destruct (Z.testbit _ i).
Qed.

(** ** List lemmas *)

Lemma get_range_Some {A} (l : list A) a b r :
  get_range l a b = Some r <-> (a <= b <= length l)%nat /\ r = take (b - a) (drop a l).
Proof.
  unfold get_range. destruct (_ && _) eqn:E; zbool; split.
  - intros [= <-]. split; [lia|done].
  - by intros [_ ->].
  - done.
  - intros [? _]. apply andb_false_iff in E as [E|E]; zbool; lia.
Qed.

Lemma get_range_ok {A} (l : list A) a b :
  (a <= b <= length l)%nat -> get_range l a b = Some (take (b - a) (drop a l)).
Proof. intros. by apply get_range_Some. Qed.

Lemma get_range_length {A} (l r : list A) a b :
  get_range l a b = Some r -> length r = (b - a)%nat.
Proof. intros [? ->]%get_range_Some. rewrite length_take, length_drop. lia. Qed.

Lemma length_splice {A} at_ (src dst : list A) :
  (at_ + length src <= length dst)%nat -> length (splice at_ src dst) = length dst.
Proof. intros. unfold splice. rewrite !length_app, length_take, length_drop. lia. Qed.

Lemma splice_lookup {A} at_ (src dst : list A) (i : nat) :
  (at_ + length src <= length dst)%nat ->
  splice at_ src dst !! i =
    if ((at_ <=? i) && (i <? at_ + length src))%nat then src !! (i - at_)%nat else dst !! i.
Proof.
  intros Hb. unfold splice. destruct (at_ <=? i)%nat eqn:E1; zbool; simpl.
  - rewrite lookup_app_r by (rewrite length_take; lia). rewrite length_take.
    replace (i - at_ `min` length dst)%nat with (i - at_)%nat by lia.
    destruct (i <? at_ + length src)%nat eqn:E2; zbool.
    + by rewrite lookup_app_l by lia.
    + rewrite lookup_app_r, lookup_drop by lia. f_equal. lia.
  - rewrite lookup_app_l by (rewrite length_take; lia). by rewrite lookup_take_lt by lia.
Qed.

Lemma splice_nil {A} at_ (dst : list A) : splice at_ [] dst = dst.
Proof. unfold splice. simpl. rewrite Nat.add_0_r. apply take_drop. Qed.

Lemma splice_app {A} at_ (s1 s2 dst : list A) :
  (at_ + length s1 + length s2 <= length dst)%nat ->
  splice (at_ + length s1) s2 (splice at_ s1 dst) = splice at_ (s1 ++ s2) dst.
Proof.
  intros Hb. apply list_eq. intros i.
  rewrite !splice_lookup by (rewrite ?length_splice, ?length_app; lia).
  rewrite !length_app. repeat case_goal; zbool; try lia; try done.
  all: try (rewrite lookup_app_r by lia; f_equal; lia).
  all: try (rewrite lookup_app_l by lia; done).
  all: repeat match goal with H : (_ && _) = false |- _ =>
         apply andb_false_iff in H as [H|H]; zbool end; try lia.
Qed.

Lemma splice_mid {A} n (a x c s : list A) :
  n = length a -> length s = length x -> splice n s (a ++ x ++ c) = a ++ s ++ c.
Proof.
  intros -> E. unfold splice. rewrite take_app_length, E. do 2 f_equal.
  by rewrite drop_app_add, drop_app_length.
Qed.

Lemma get_range_mid {A} i j (a x c : list A) :
  i = length a -> j = (i + length x)%nat -> get_range (a ++ x ++ c) i j = Some x.
Proof.
  intros -> ->. rewrite get_range_ok by (rewrite !length_app; lia).
  rewrite drop_app_length. replace (_ - _)%nat with (length x) by lia. by rewrite take_app_length.
Qed.

Lemma get_range_front {A} j (x c : list A) :
  j = length x -> get_range (x ++ c) 0 j = Some x.
Proof. intros ->. by apply (get_range_mid 0 (length x) []). Qed.

(** Writing through a window is writing into the underlying slice. *)
Lemma splice_window {A} (l w s : list A) a b k :
  get_range l a b = Some w -> (k + length s <= length w)%nat ->
  splice a (splice k s w) l = splice (a + k) s l.
Proof.
  intros [? ->]%get_range_Some Hs. rewrite length_take, length_drop in Hs.
  apply list_eq. intros i.
  rewrite !splice_lookup; rewrite ?length_splice; rewrite ?length_take, ?length_drop; try lia.
  destruct (Nat.leb a i) eqn:E1, (Nat.ltb i (a + (b - a) `min` (length l - a))) eqn:E2;
    zbool; simpl;
    destruct (Nat.leb (a + k) i) eqn:E3, (Nat.ltb i (a + k + length s)) eqn:E4; zbool; simpl;
    destruct (Nat.leb k (i - a)) eqn:E5, (Nat.ltb (i - a) (k + length s)) eqn:E6; zbool; simpl;
    try lia; try done; try (f_equal; lia);
    rewrite lookup_take_lt, lookup_drop by lia; f_equal; lia.
Qed.

(** Cut a list at given lengths. *)
Lemma list_cut {A} (l : list A) n :
  (n <= length l)%nat -> exists x c, l = x ++ c /\ length x = n.
Proof.
  intros. exists (take n l), (drop n l). rewrite take_drop, length_take. split; [done|lia].
Qed.

Lemma bytes_ok_cons b l : bytes_ok (b :: l) <-> is_u8 b /\ bytes_ok l.
Proof. split; [by inversion 1|]. intros []. by constructor. Qed.
Lemma bytes_ok_app l1 l2 : bytes_ok (l1 ++ l2) <-> bytes_ok l1 /\ bytes_ok l2.
Proof. apply Forall_app. Qed.
Lemma bytes_ok_take n l : bytes_ok l -> bytes_ok (take n l).
Proof. apply Forall_take. Qed.
Lemma bytes_ok_drop n l : bytes_ok l -> bytes_ok (drop n l).
Proof. apply Forall_drop. Qed.
Lemma bytes_ok_lookup l i b : bytes_ok l -> l !! i = Some b -> is_u8 b.
Proof. intros H E. by apply (Forall_lookup_1 _ _ _ _ H E). Qed.
Lemma bytes_ok_splice at_ s d : bytes_ok s -> bytes_ok d -> bytes_ok (splice at_ s d).
Proof. intros. unfold splice. rewrite !bytes_ok_app. auto using bytes_ok_take, bytes_ok_drop. Qed.
#[export] Hint Resolve bytes_ok_take bytes_ok_drop bytes_ok_splice : osc.
