(* ===== verification/Trace.v ===== *)
(** * State, trace and panic

    The monad the event-driven composites run in: a computation takes the
    composite's state, and returns a value, the next state and the trace of the
    calls it made on its ports, or [None] when the code would panic.  [runs] is
    the total postcondition of a computation: it returns, and its value, state
    and trace satisfy the predicate. *)

From S2P Require Import Prelude.

Section monad.
Context {S Ev : Type}.

Definition TM (A : Type) : Type := S -> option (A * S * list Ev).
Definition bret {A} (a : A) : TM A := fun b => Some (a, b, []).
Definition bbind {A A'} (m : TM A) (k : A -> TM A') : TM A' := fun b =>
  match m b with
  | None => None
  | Some (a, b1, e1) =>
      match k a b1 with None => None | Some (a', b2, e2) => Some (a', b2, e1 ++ e2) end
  end.
Definition bget {A} (f : S -> A) : TM A := fun b => Some (f b, b, []).
Definition bmod (f : S -> S) : TM unit := fun b => Some (tt, f b, []).
Definition bout (e : Ev) : TM unit := fun b => Some (tt, b, [e]).
Definition blift {A} (o : option A) : TM A := fun b =>
  match o with Some a => Some (a, b, []) | None => None end.

Definition runs {A} (m : TM A) (b : S) (Q : A -> S -> list Ev -> Prop) : Prop :=
  match m b with Some (a, b', ev) => Q a b' ev | None => False end.

Lemma runs_mono {A} (m : TM A) b (P Q : A -> S -> list Ev -> Prop) :
  runs m b P -> (forall a b' ev, P a b' ev -> Q a b' ev) -> runs m b Q.
Proof. unfold runs. destruct (m b) as [[[a b'] ev]|]; eauto. Qed.

Lemma runs_bind {A A'} (m : TM A) (k : A -> TM A') b Q :
  runs m b (fun a b1 e1 => runs (k a) b1 (fun a' b2 e2 => Q a' b2 (e1 ++ e2))) ->
  runs (bbind m k) b Q.
Proof.
  unfold runs, bbind. destruct (m b) as [[[a b1] e1]|]; [|done].
  by destruct (k a b1) as [[[a' b2] e2]|].
Qed.

Lemma runs_bind_quiet {A A'} (m : TM A) (k : A -> TM A') b a b1 Q :
  m b = Some (a, b1, []) -> runs (k a) b1 Q -> runs (bbind m k) b Q.
Proof.
  intros E1 HQ. apply runs_bind. unfold runs at 1. rewrite E1.
  eapply runs_mono; [exact HQ|]. done.
Qed.

Lemma runs_eq {A} (m : TM A) b a b' ev Q : m b = Some (a, b', ev) -> Q a b' ev -> runs m b Q.
Proof. unfold runs. by intros ->. Qed.

Lemma runs_conj {A} (m : TM A) b (P Q : A -> S -> list Ev -> Prop) :
  runs m b P -> runs m b Q -> runs m b (fun a b' ev => P a b' ev /\ Q a b' ev).
Proof. unfold runs. by destruct (m b) as [[[a b'] ev]|]. Qed.

Lemma runs_elim {A} (m : TM A) b Q : runs m b Q -> exists x b' ev, m b = Some (x, b', ev) /\ Q x b' ev.
Proof. unfold runs. destruct (m b) as [[[x b'] ev]|]; [|done]. by exists x, b', ev. Qed.

Lemma bbind_quiet {A A'} (m : TM A) (k : A -> TM A') b a b1 : m b = Some (a, b1, []) -> bbind m k b = k a b1.
Proof. intros Em. unfold bbind. rewrite Em. by destruct (k a b1) as [[[a' b2] e2]|]. Qed.

Lemma bbind_ext {A A'} (m : TM A) (k k' : A -> TM A') b :
  (forall a b1 e1, m b = Some (a, b1, e1) -> k a b1 = k' a b1) -> bbind m k b = bbind m k' b.
Proof. intros Hk. unfold bbind. destruct (m b) as [[[a b1] e1]|]; [|done]. by rewrite (Hk a b1 e1). Qed.

Lemma bbind_assoc {A1 A2 A3} (m : TM A1) (k : A1 -> TM A2) (h : A2 -> TM A3) b Q :
  runs (bbind (bbind m k) h) b Q <-> runs (bbind m (fun x => bbind (k x) h)) b Q.
Proof.
  unfold runs, bbind. destruct (m b) as [[[x b1] e1]|]; [|done]. destruct (k x b1) as [[[y b2] e2]|]; [|done].
  destruct (h y b2) as [[[z b3] e3]|]; [|done]. by rewrite app_assoc.
Qed.

(** Symbolic execution, one primitive at a time. *)
Lemma runs_ret {A} (a : A) b (Q : A -> S -> list Ev -> Prop) : Q a b [] -> runs (bret a) b Q.
Proof. done. Qed.
Lemma runs_bind_ret {A A'} (a : A) (k : A -> TM A') b Q : runs (k a) b Q -> runs (bbind (bret a) k) b Q.
Proof. by apply runs_bind_quiet. Qed.
Lemma runs_bind_get {A A'} (f : S -> A) (k : A -> TM A') b Q : runs (k (f b)) b Q -> runs (bbind (bget f) k) b Q.
Proof. by apply runs_bind_quiet. Qed.
Lemma runs_bind_mod {A'} (f : S -> S) (k : unit -> TM A') b Q : runs (k tt) (f b) Q -> runs (bbind (bmod f) k) b Q.
Proof. by apply runs_bind_quiet. Qed.
Lemma runs_bind_lift {A A'} (o : option A) (k : A -> TM A') b x Q :
  o = Some x -> runs (k x) b Q -> runs (bbind (blift o) k) b Q.
Proof. intros ->. by apply runs_bind_quiet. Qed.
Lemma runs_bind_out {A'} e (k : unit -> TM A') b Q :
  runs (k tt) b (fun a b' ev => Q a b' (e :: ev)) -> runs (bbind (bout e) k) b Q.
Proof. intros Hk. apply runs_bind. exact Hk. Qed.
Lemma runs_bind_assoc {A1 A2 A3} (m : TM A1) (k : A1 -> TM A2) (h : A2 -> TM A3) b Q :
  runs (bbind m (fun x => bbind (k x) h)) b Q -> runs (bbind (bbind m k) h) b Q.
Proof. apply bbind_assoc. Qed.
Lemma runs_mod (f : S -> S) b (Q : unit -> S -> list Ev -> Prop) : Q tt (f b) [] -> runs (bmod f) b Q.
Proof. done. Qed.
Lemma runs_out e b (Q : unit -> S -> list Ev -> Prop) : Q tt b [e] -> runs (bout e) b Q.
Proof. done. Qed.
End monad.
Arguments TM : clear implicits.

(** One step of the primitive at the head of the computation. *)
Ltac trace_step :=
  lazymatch goal with
  | |- runs (bbind (bbind _ _) _) _ _ => apply runs_bind_assoc
  | |- runs (bbind (bret _) _) _ _ => apply runs_bind_ret
  | |- runs (bbind (bget _) _) _ _ => apply runs_bind_get
  | |- runs (bbind (bmod _) _) _ _ => apply runs_bind_mod
  | |- runs (bbind (bout _) _) _ _ => apply runs_bind_out
  | |- runs (bret _) _ _ => apply runs_ret
  | |- runs (bmod _) _ _ => apply runs_mod
  | |- runs (bout _) _ _ => apply runs_out
  end; cbv beta.

Declare Scope trace_scope.
Delimit Scope trace_scope with trace.
Notation "'do' x <- m ; k" := (bbind m (fun x => k))
  (at level 10, x pattern, m at level 100, k at level 200) : trace_scope.
Notation "m ;; k" := (bbind m (fun _ => k)) (at level 100, k at level 200, right associativity) : trace_scope.
