(* ===== verification/Text.v ===== *)
(** * Strings and number text

    What the operator's tool uses of the language's strings: a [str] is its list
    of code points, lengths and slices count UTF-8 bytes, and a slice that cuts
    a code point is a panic ([None]).  [from_str_radix] is the standard
    library's integer parser with its sign rules and its overflow checks in
    their order; [dec] and [hex2] are the formatters the tool prints with. *)

From Stdlib Require Import String Ascii.
From S2P Require Import Prelude.
Open Scope string_scope.
Open Scope list_scope.
Open Scope Z_scope.

Abbreviation rstr := (list Z).

(** A literal of the source. *)
Fixpoint lit (s : string) : rstr :=
  match s with EmptyString => [] | String c s' => Z.of_nat (nat_of_ascii c) :: lit s' end.

(** ** Bytes of a string *)

Definition len_utf8 (c : Z) : nat :=
  if c <? 128 then 1 else if c <? 2048 then 2 else if c <? 65536 then 3 else 4.
Definition str_len (s : rstr) : nat := list_sum (len_utf8 <$> s).

(** [(&s[..n], &s[n..])]. *)
Fixpoint str_split (n : nat) (s : rstr) : option (rstr * rstr) :=
  match n, s with
  | O, _ => Some ([], s)
  | _, [] => None
  | _, c :: s' =>
      if Nat.ltb n (len_utf8 c) then None
      else r ← str_split (n - len_utf8 c) s'; Some (c :: r.1, r.2)
  end.

Fixpoint strip_prefix (p s : rstr) : option rstr :=
  match p, s with
  | [], _ => Some s
  | _, [] => None
  | a :: p', b :: s' => if a =? b then strip_prefix p' s' else None
  end.

(** Everything before and after the first [c]. *)
Fixpoint split_once (c : Z) (s : rstr) : option (rstr * rstr) :=
  match s with
  | [] => None
  | a :: s' => if a =? c then Some ([], s') else r ← split_once c s'; Some (a :: r.1, r.2)
  end.

(** [haystack.contains(needle)]. *)
Fixpoint str_contains (haystack needle : rstr) : bool :=
  bool_decide (is_Some (strip_prefix needle haystack)) ||
  match haystack with [] => false | _ :: h => str_contains h needle end.

(** The Unicode [White_Space] property. *)
Definition is_whitespace (c : Z) : bool :=
  ((9 <=? c) && (c <=? 13)) || (c =? 32) || (c =? 133) || (c =? 160) || (c =? 5760) ||
  ((8192 <=? c) && (c <=? 8202)) || (c =? 8232) || (c =? 8233) || (c =? 8239) || (c =? 8287) || (c =? 12288).

Definition ascii_lower (c : Z) : Z := if (65 <=? c) && (c <=? 90) then c + 32 else c.
Definition to_ascii_lowercase (s : rstr) : rstr := ascii_lower <$> s.
Definition eq_ignore_ascii_case (a b : rstr) : bool :=
  bool_decide (to_ascii_lowercase a = to_ascii_lowercase b).

(** ** Parsing integers *)

Inductive IntErrorKind := IeEmpty | IeInvalidDigit | IePosOverflow | IeNegOverflow.

Definition to_digit (radix c : Z) : option Z :=
  let d := if (48 <=? c) && (c <=? 57) then c - 48
           else if (97 <=? c) && (c <=? 122) then c - 87
           else if (65 <=? c) && (c <=? 90) then c - 55 else radix in
  if d <? radix then Some d else None.

(** An integer type: is it signed, and its range. *)
Record IntTy := mkIntTy { it_signed : bool; it_min : Z; it_max : Z }.
Definition ty_u8 := mkIntTy false 0 255.
Definition ty_u16 := mkIntTy false 0 65535.
Definition ty_u32 := mkIntTy false 0 4294967295.
Definition ty_u64 := mkIntTy false 0 18446744073709551615.
Definition ty_i64 := mkIntTy true (-9223372036854775808) 9223372036854775807.
Definition fits (t : IntTy) (v : Z) : bool := (it_min t <=? v) && (v <=? it_max t).

Fixpoint digits_loop (t : IntTy) (neg : bool) (radix acc : Z) (s : rstr) : result Z IntErrorKind :=
  match s with
  | [] => Ok acc
  | c :: s' =>
      let over := if neg then IeNegOverflow else IePosOverflow in
      match to_digit radix c with
      | None => Err IeInvalidDigit
      | Some x =>
          if negb (fits t (acc * radix)) then Err over
          else
            let v := if neg then acc * radix - x else acc * radix + x in
            if negb (fits t v) then Err over else digits_loop t neg radix v s'
      end
  end.

Definition PLUS : Z := 43.
Definition MINUS : Z := 45.
Definition from_str_radix (t : IntTy) (radix : Z) (s : rstr) : result Z IntErrorKind :=
  match s with
  | [] => Err IeEmpty
  | c :: s' =>
      if ((c =? PLUS) || (c =? MINUS)) && bool_decide (s' = []) then Err IeInvalidDigit
      else if c =? PLUS then digits_loop t false radix 0 s'
      else if (c =? MINUS) && it_signed t then digits_loop t true radix 0 s'
      else digits_loop t false radix 0 s
  end.

(** ** Printing *)

Definition DEC_FUEL : nat := 20.
Fixpoint dec_loop (n : nat) (v : Z) : rstr :=
  match n with
  | O => []
  | S n' => (if v <? 10 then [] else dec_loop n' (v / 10)) ++ [48 + v mod 10]
  end.
(** [to_string] of an unsigned and of a signed integer of at most 64 bits. *)
Definition dec (v : Z) : rstr := dec_loop DEC_FUEL v.
Definition sdec (v : Z) : rstr := if v <? 0 then MINUS :: dec (- v) else dec v.
Definition hex_char (d : Z) : Z := if d <? 10 then 48 + d else 87 + d.
(** [{b:02x}]. *)
Definition hex2 (b : Z) : rstr := [hex_char (b / 16); hex_char (b mod 16)].
Fixpoint join (sep : rstr) (parts : list rstr) : rstr :=
  match parts with [] => [] | [p] => p | p :: parts' => p ++ sep ++ join sep parts' end.

(** [sort] of strings: by code points, which is the order of their UTF-8 bytes. *)
Fixpoint text_leb (a b : rstr) : bool :=
  match a, b with
  | [], _ => true
  | _ :: _, [] => false
  | x :: a', y :: b' => (x <? y) || ((x =? y) && text_leb a' b')
  end.
Fixpoint insert_text (s : rstr) (l : list rstr) : list rstr :=
  match l with [] => [s] | t :: l' => if text_leb s t then s :: l else t :: insert_text s l' end.
Definition sort_text (l : list rstr) : list rstr := foldr insert_text [] l.

(** ** Decimal text reads back *)

Lemma to_digit_dec d : 0 <= d < 10 -> to_digit 10 (48 + d) = Some d.
Proof.
  intros H. unfold to_digit. repeat (case_goal; zbool); try lia. f_equal. lia.
Qed.

Lemma to_digit_hex d : 0 <= d < 16 -> to_digit 16 (hex_char d) = Some d.
Proof.
  intros H. unfold to_digit, hex_char. repeat (case_goal; zbool); try lia; f_equal; lia.
Qed.

Definition sgn_of (neg : bool) (v : Z) : Z := if neg then - v else v.

Lemma fits_between t neg v w : fits t 0 = true -> fits t (sgn_of neg v) = true -> 0 <= w <= v ->
  fits t (sgn_of neg w) = true.
Proof.
  unfold fits, sgn_of. rewrite !andb_true_iff, !Z.leb_le. destruct neg; lia.
Qed.

Lemma digits_loop_dec t neg n : forall v rest, 0 <= v < 10 ^ Z.of_nat n -> (0 < n)%nat ->
  fits t 0 = true -> fits t (sgn_of neg v) = true ->
  digits_loop t neg 10 0 (dec_loop n v ++ rest) = digits_loop t neg 10 (sgn_of neg v) rest.
Proof.
  induction n as [|n IH]; intros v rest Hv Hn H0 Hf; [lia|]. cbn [dec_loop].
  assert (Hd : 0 <= v mod 10 < 10) by (apply Z.mod_pos_bound; lia).
  assert (Hdm := Z.div_mod v 10 ltac:(lia)).
  assert (Hlast : forall acc, acc = sgn_of neg (v / 10) -> digits_loop t neg 10 acc ([48 + v mod 10] ++ rest)
    = digits_loop t neg 10 (sgn_of neg v) rest).
  { intros acc ->. cbn [app digits_loop]. rewrite to_digit_dec by done.
    assert (sgn_of neg (v / 10) * 10 = sgn_of neg (v / 10 * 10)) as -> by (unfold sgn_of; destruct neg; lia).
    rewrite (fits_between t neg v) by (try done; lia). cbn [negb].
    assert ((if neg then sgn_of neg (v / 10 * 10) - v mod 10 else sgn_of neg (v / 10 * 10) + v mod 10)
      = sgn_of neg v) as -> by (unfold sgn_of; destruct neg; lia).
    by rewrite Hf. }
  destruct (v <? 10) eqn:E; zbool.
  - apply Hlast. unfold sgn_of. rewrite Z.div_small by lia. by destruct neg.
  - rewrite <- app_assoc, IH; [by apply Hlast| | |done|].
    + rewrite Nat2Z.inj_succ, Z.pow_succ_r in Hv by lia. split; [apply Z.div_pos; lia|].
      apply Z.div_lt_upper_bound; lia.
    + destruct n; [simpl in Hv; lia|lia].
    + apply (fits_between t neg v); try done. split; [apply Z.div_pos; lia|].
      apply Z.div_le_upper_bound; lia.
Qed.

Definition is_digit (c : Z) : Prop := 48 <= c <= 57.
Lemma dec_loop_digits n v : Forall is_digit (dec_loop n v).
Proof.
  revert v. induction n as [|n IH]; intros v; simpl; [done|].
  apply Forall_app. split; [by destruct (v <? 10)|]. constructor; [|done].
  unfold is_digit. assert (H := Z.mod_pos_bound v 10). lia.
Qed.
Lemma dec_loop_ne n v : (0 < n)%nat -> dec_loop n v <> [].
Proof. destruct n; [lia|]. simpl. intros _ H. by apply app_eq_nil in H as [_ ?]. Qed.
Lemma dec_digits v : Forall is_digit (dec v).
Proof. apply dec_loop_digits. Qed.
Lemma dec_ne v : dec v <> [].
Proof. apply dec_loop_ne. unfold DEC_FUEL. lia. Qed.

Lemma dec_head v : exists c s, dec v = c :: s /\ is_digit c.
Proof.
  assert (H := dec_digits v). assert (H2 := dec_ne v). destruct (dec v) as [|c s]; [done|].
  apply Forall_cons_1 in H as [? _]. eauto.
Qed.

Lemma pow10_u64 v : 0 <= v <= 18446744073709551615 -> v < 10 ^ Z.of_nat DEC_FUEL.
Proof. intros H. change (10 ^ Z.of_nat DEC_FUEL) with 100000000000000000000. lia. Qed.

Lemma from_str_dec t v : it_max t <= 18446744073709551615 -> fits t 0 = true -> 0 <= v -> fits t v = true ->
  from_str_radix t 10 (dec v) = Ok v.
Proof.
  intros Hm H0 Hv Hf. assert (Hb : v <= it_max t) by (apply andb_true_iff in Hf as [_ ?]; lia).
  assert (digits_loop t false 10 0 (dec v) = Ok v) as Hl.
  { rewrite <- (app_nil_r (dec v)). unfold dec. rewrite digits_loop_dec; [done| |unfold DEC_FUEL; lia|done|done].
    split; [done|]. apply pow10_u64. lia. }
  destruct (dec_head v) as (c & s & E & Hc). rewrite E in *. unfold from_str_radix, is_digit, PLUS, MINUS in *.
  assert ((c =? 43) = false) as -> by lia. assert ((c =? 45) = false) as -> by lia. done.
Qed.

Lemma from_str_sdec v : -9223372036854775808 <= v <= 9223372036854775807 ->
  from_str_radix ty_i64 10 (sdec v) = Ok v.
Proof.
  intros Hv. unfold sdec. destruct (v <? 0) eqn:E; zbool.
  - unfold from_str_radix. destruct (bool_decide (dec (- v) = [])) eqn:E2.
    { apply bool_decide_eq_true in E2. by apply dec_ne in E2. }
    cbn [Z.eqb PLUS MINUS Pos.eqb orb andb it_signed ty_i64].
    rewrite <- (app_nil_r (dec (- v))). unfold dec.
    rewrite digits_loop_dec; [unfold sgn_of; simpl; f_equal; lia| |unfold DEC_FUEL; lia|done|].
    + split; [lia|]. apply pow10_u64. lia.
    + unfold fits, sgn_of. cbn. rewrite andb_true_iff, !Z.leb_le. lia.
  - apply from_str_dec; [simpl; lia|done|lia|]. unfold fits. cbn. rewrite andb_true_iff, !Z.leb_le. lia.
Qed.

Lemma dec_no_prefix v p c : ~ is_digit c -> (length p <= 1)%nat -> strip_prefix (p ++ [c]) (dec v) = None.
Proof.
  intros Hc Hp. assert (H := dec_digits v).
  assert (forall s, Forall is_digit s -> strip_prefix [c] s = None) as Hone.
  { intros s Hs. destruct s as [|d s]; [done|]. apply Forall_cons_1 in Hs as [Hd _]. simpl.
    destruct (c =? d) eqn:E; [|done]. zbool. by subst. }
  destruct p as [|a [|]]; [by apply Hone| |simpl in Hp; lia]. simpl.
  destruct (dec v) as [|d s]; [done|]. apply Forall_cons_1 in H as [_ H]. destruct (a =? d); [|done]. by apply Hone.
Qed.

Lemma sdec_no_0x v : strip_prefix (lit "0x") (sdec v) = None.
Proof.
  unfold sdec. destruct (v <? 0); [done|]. change (lit "0x") with ([48] ++ [120]).
  apply dec_no_prefix; [unfold is_digit; lia|simpl; lia].
Qed.
Lemma sdec_no_neg_0x v : strip_prefix (lit "-0x") (sdec v) = None.
Proof.
  unfold sdec. destruct (v <? 0).
  - change (strip_prefix (lit "-0x") (MINUS :: dec (- v))) with (strip_prefix ([48] ++ [120]) (dec (- v))).
    apply dec_no_prefix; [unfold is_digit; lia|simpl; lia].
  - destruct (dec_head v) as (c & s & -> & Hc). change (lit "-0x") with [45; 48; 120]. cbn [strip_prefix].
    unfold is_digit in Hc. by assert ((45 =? c) = false) as -> by lia.
Qed.
