(* ===== verification/Crc.v ===== *)
(** * The osc-CRC-16 (firmware/lib/osc-protocol/src/crc.rs)

    CRC-16/ARC as the source writes it: bitwise, reflected polynomial
    [0xA001], init 0.  The theorems give the algebra the transport relies on
    (chunking, the leading-zero no-op, the residue of a sealed span) and the
    detection guarantee of the wire checksum: every nonzero burst of at most
    sixteen bits, wherever it falls in the covered span or in the checksum
    itself, is caught. *)

From S2P Require Import Prelude.

Definition POLY_REFLECTED : Z := 40961. (* 0xA001 *)

(** One turn of the [for _ in 0..8] loop of [update]. *)
Definition crc_step (crc : Z) : Z :=
  if negb (Z.land crc 1 =? 0) then Z.lxor (Z.shiftr crc 1) POLY_REFLECTED
  else Z.shiftr crc 1.

(** [update]: xor the byte in, then eight shift steps. *)
Definition crc_update (crc byte : Z) : Z := Nat.iter 8 crc_step (Z.lxor crc byte).

(** [osc_crc_continue]: fold a chunk into a running CRC. *)
Fixpoint osc_crc_continue (crc : Z) (chunk : list Z) : Z :=
  match chunk with
  | [] => crc
  | b :: chunk' => osc_crc_continue (crc_update crc b) chunk'
  end.

Definition osc_crc (covered : list Z) : Z := osc_crc_continue 0 covered.

(** [bitrev16]: three in-byte swap stages, then the byte swap. *)
Definition bitrev16 (v : Z) : Z :=
  let x := v in
  let x := Z.lor (Z.shiftl (Z.land x 21845) 1) (Z.land (Z.shiftr x 1) 21845) in
  let x := Z.lor (Z.shiftl (Z.land x 13107) 2) (Z.land (Z.shiftr x 2) 13107) in
  let x := Z.lor (Z.shiftl (Z.land x 3855) 4) (Z.land (Z.shiftr x 4) 3855) in
  let x := u16 x in
  Z.lor (u16 (Z.shiftl x 8)) (Z.shiftr x 8).

(** The published check value, and the spec's frame vector. *)
Example osc_crc_check : osc_crc [49; 50; 51; 52; 53; 54; 55; 56; 57] = 47933. (* 0xBB3D *)
Proof. reflexivity. Qed.
Example osc_crc_ping : osc_crc [0; 1; 3; 16] = 64592. (* 0xFC50 *)
Proof. reflexivity. Qed.

(** ** The step is linear over xor *)

Lemma crc_step_alt c :
  crc_step c = Z.lxor (Z.shiftr c 1) (if Z.testbit c 0 then POLY_REFLECTED else 0).
Proof.
  unfold crc_step. change 1 with (Z.ones 1) at 1. rewrite Z.land_ones by lia.
  change (2 ^ 1) with 2. rewrite Z.bit0_odd, Zmod_odd.
  destruct (Z.odd c); simpl; by rewrite ?Z.lxor_0_r.
Qed.

Lemma crc_step_lxor a b : crc_step (Z.lxor a b) = Z.lxor (crc_step a) (crc_step b).
Proof.
  rewrite !crc_step_alt, Z.shiftr_lxor, Z.lxor_spec. apply Z.bits_inj'. intros i _.
  rewrite !Z.lxor_spec.
  destruct (Z.testbit a 0), (Z.testbit b 0); simpl; rewrite ?Z.bits_0;
  destruct (Z.testbit (Z.shiftr a 1) i), (Z.testbit (Z.shiftr b 1) i),
    (Z.testbit POLY_REFLECTED i); done.
Qed.

Lemma crc_iter_lxor n a b :
  Nat.iter n crc_step (Z.lxor a b) = Z.lxor (Nat.iter n crc_step a) (Nat.iter n crc_step b).
Proof. induction n as [|n IH]; simpl; [done|]. by rewrite IH, crc_step_lxor. Qed.

Lemma crc_iter_add m n x :
  Nat.iter m crc_step (Nat.iter n crc_step x) = Nat.iter (m + n) crc_step x.
Proof. induction m as [|m IH]; simpl; [done|]. by rewrite IH. Qed.

Lemma crc_step_double x : crc_step (2 * x) = x.
Proof.
  rewrite crc_step_alt, Z.testbit_even_0, Z.lxor_0_r, Z.shiftr_div_pow2 by lia. zmod.
Qed.

(** Stepping undoes a left shift. *)
Lemma crc_iter_shiftl n x : Nat.iter n crc_step (Z.shiftl x (Z.of_nat n)) = x.
Proof.
  induction n as [|n IH]; [by rewrite Z.shiftl_0_r|].
  replace (S n) with (n + 1)%nat by lia. rewrite <- crc_iter_add.
  replace (Z.shiftl x (Z.of_nat (n + 1))) with (2 * Z.shiftl x (Z.of_nat n)).
  { change (Nat.iter 1 crc_step ?y) with (crc_step y). by rewrite crc_step_double. }
  rewrite !Z.shiftl_mul_pow2 by lia. rewrite Nat2Z.inj_add, Z.pow_add_r by lia. lia.
Qed.

Lemma crc_step_range c : is_u16 c -> is_u16 (crc_step c).
Proof.
  intros Hc. rewrite crc_step_alt. change 65536 with (2 ^ 16). apply lxor_range; [lia|..].
  - rewrite Z.shiftr_div_pow2 by lia. zmod.
  - unfold POLY_REFLECTED. destruct (Z.testbit c 0); lia.
Qed.

Lemma crc_iter_range n c : is_u16 c -> is_u16 (Nat.iter n crc_step c).
Proof. intros Hc. induction n as [|n IH]; simpl; [done|]. by apply crc_step_range. Qed.

(** The step has a trivial kernel on the 16-bit register. *)
Lemma crc_step_nonzero c : is_u16 c -> c <> 0 -> crc_step c <> 0.
Proof.
  intros Hc Hnz E. rewrite crc_step_alt in E. apply Z.lxor_eq in E.
  rewrite Z.shiftr_div_pow2 in E by lia. change (2 ^ 1) with 2 in E.
  destruct (Z.testbit c 0) eqn:B.
  - unfold POLY_REFLECTED in E. zmod.
  - rewrite Z.bit0_odd in B. pose proof (Zmod_odd c) as M. rewrite B in M. zmod.
Qed.

Lemma crc_iter_nonzero n c : is_u16 c -> c <> 0 -> Nat.iter n crc_step c <> 0.
Proof.
  intros Hc Hnz. induction n as [|n IH]; simpl; [done|].
  apply crc_step_nonzero; [by apply crc_iter_range|done].
Qed.

(** ** The CRC of a byte string as one long shift *)

(** The byte string as one little-endian integer: the UART's bit order. *)
Fixpoint le_val (l : list Z) : Z :=
  match l with [] => 0 | b :: l' => b + 256 * le_val l' end.

Lemma le_val_nonneg l : bytes_ok l -> 0 <= le_val l.
Proof. induction 1; simpl; lia. Qed.

Lemma le_val_bound l : bytes_ok l -> le_val l < 2 ^ (8 * Z.of_nat (length l)).
Proof.
  induction 1 as [|b l Hb Hl IH]; simpl; [lia|].
  replace (8 * Z.of_nat (S (length l))) with (8 + 8 * Z.of_nat (length l)) by lia.
  rewrite Z.pow_add_r by lia. change (2 ^ 8) with 256. lia.
Qed.

Lemma osc_crc_continue_app c l1 l2 :
  osc_crc_continue c (l1 ++ l2) = osc_crc_continue (osc_crc_continue c l1) l2.
Proof. revert c. induction l1 as [|b l1 IH]; intros c; simpl; [done|]. apply IH. Qed.

Lemma crc_iter_shiftl8 n x :
  Nat.iter (8 + n) crc_step (Z.shiftl x 8) = Nat.iter n crc_step x.
Proof. rewrite Nat.add_comm, <- crc_iter_add. f_equal. apply (crc_iter_shiftl 8). Qed.

Lemma osc_crc_continue_iter c l : bytes_ok l ->
  osc_crc_continue c l = Nat.iter (8 * length l) crc_step (Z.lxor c (le_val l)).
Proof.
  intros Hl. revert c. induction Hl as [|b l Hb Hl IH]; intros c; cbn [osc_crc_continue le_val].
  - by rewrite Z.lxor_0_r.
  - rewrite IH. unfold crc_update. cbn [length].
    replace (8 * S (length l))%nat with (8 + 8 * length l)%nat by lia.
    replace (b + 256 * le_val l) with (Z.lxor b (Z.shiftl (le_val l) 8))
      by (rewrite lxor_shiftl_add; lia).
    rewrite <- Z.lxor_assoc, (crc_iter_lxor (8 + _)), crc_iter_shiftl8.
    by rewrite crc_iter_lxor, crc_iter_add, (Nat.add_comm 8).
Qed.

Lemma osc_crc_continue_range c l : is_u16 c -> bytes_ok l -> is_u16 (osc_crc_continue c l).
Proof.
  intros Hc Hl. revert c Hc. induction Hl as [|b l Hb Hl IH]; intros c Hc; simpl; [done|].
  apply IH. apply crc_iter_range. change 65536 with (2 ^ 16). apply lxor_range; lia.
Qed.

Lemma osc_crc_range l : bytes_ok l -> is_u16 (osc_crc l).
Proof. apply osc_crc_continue_range. lia. Qed.
#[export] Hint Resolve osc_crc_range osc_crc_continue_range : osc.

(** ** Error patterns *)

Definition xor_bytes (m e : list Z) : list Z := zip_with Z.lxor m e.

Lemma length_xor_bytes m e : length m = length e -> length (xor_bytes m e) = length m.
Proof. intros H. unfold xor_bytes. rewrite length_zip_with. lia. Qed.

Lemma le_val_xor m e : bytes_ok m -> bytes_ok e -> length m = length e ->
  le_val (xor_bytes m e) = Z.lxor (le_val m) (le_val e).
Proof.
  intros Hm. revert e. induction Hm as [|b m Hb Hm IH]; intros [|x e] He L; simplify_eq/=; [done|].
  apply bytes_ok_cons in He as [Hx He]. rewrite (IH e He L).
  assert (0 <= Z.lxor b x < 2 ^ 8) by (apply lxor_range; lia).
  rewrite !(Z.mul_comm 256). change 256 with (2 ^ 8). rewrite <- !lxor_shiftl_add by lia.
  rewrite Z.shiftl_lxor. apply Z.bits_inj'. intros i _. rewrite !Z.lxor_spec.
  destruct (Z.testbit b i), (Z.testbit x i), (Z.testbit (Z.shiftl (le_val m) 8) i),
    (Z.testbit (Z.shiftl (le_val e) 8) i); done.
Qed.

Lemma xor_bytes_ok m e : bytes_ok m -> bytes_ok e -> bytes_ok (xor_bytes m e).
Proof.
  intros Hm. revert e. induction Hm as [|b m Hb Hm IH]; intros [|x e] He; simpl; try constructor.
  - apply bytes_ok_cons in He as [Hx _]. change 256 with (2 ^ 8). apply lxor_range; lia.
  - apply bytes_ok_cons in He as [_ He]. by apply IH.
Qed.

Lemma osc_crc_xor m e : bytes_ok m -> bytes_ok e -> length m = length e ->
  osc_crc (xor_bytes m e) = Z.lxor (osc_crc m) (osc_crc e).
Proof.
  intros Hm He L. unfold osc_crc.
  rewrite !osc_crc_continue_iter by auto using xor_bytes_ok.
  rewrite !Z.lxor_0_l, le_val_xor, crc_iter_lxor, length_xor_bytes by done. by rewrite L.
Qed.

(** A burst: the set bits of the error pattern, read in wire order, lie inside
    a window of sixteen. *)
Definition burst16 (e : list Z) (w j : Z) : Prop :=
  bytes_ok e /\ 0 < w < 65536 /\ 0 <= j /\ le_val e = Z.shiftl w j.

Lemma osc_crc_burst e w j : burst16 e w j -> osc_crc e <> 0.
Proof.
  intros (He & Hw & Hj & E). destruct (Z_of_nat_complete j Hj) as [k ->].
  unfold osc_crc. rewrite osc_crc_continue_iter, Z.lxor_0_l, E by done.
  pose proof (le_val_bound e He) as B. rewrite E, Z.shiftl_mul_pow2 in B by lia.
  assert (k <= 8 * length e)%nat as Hle.
  { apply Nat.nlt_ge. intros Hgt.
    assert (2 ^ (8 * Z.of_nat (length e)) <= 2 ^ Z.of_nat k) by (apply Z.pow_le_mono_r; lia).
    nia. }
  replace (8 * length e)%nat with (8 * length e - k + k)%nat by lia.
  rewrite <- crc_iter_add, crc_iter_shiftl. apply crc_iter_nonzero; lia.
Qed.

(** ** The sealed span

    A frame carries its checksum little-endian behind the covered span. *)
Definition sealed (m : list Z) : list Z := m ++ to_le16 (osc_crc m).

(** What a receiver checks: the trailing two bytes against the CRC of the rest. *)
Definition check_sealed (f : list Z) : bool :=
  let n := (length f - 2)%nat in
  match drop n f with
  | [lo; hi] => osc_crc (take n f) =? from_le16 lo hi
  | _ => false
  end.

Lemma check_sealed_residue m lo hi : bytes_ok m -> is_u8 lo -> is_u8 hi ->
  check_sealed (m ++ [lo; hi]) = (osc_crc (m ++ [lo; hi]) =? 0).
Proof.
  intros Hm Hlo Hhi. unfold check_sealed. rewrite length_app. cbn [length].
  replace (length m + 2 - 2)%nat with (length m) by lia.
  rewrite drop_app_length, take_app_length. unfold osc_crc. rewrite osc_crc_continue_app.
  pose proof (osc_crc_range m Hm) as Hc. unfold osc_crc in Hc.
  set (c := osc_crc_continue 0 m) in *.
  rewrite osc_crc_continue_iter by (repeat constructor; lia).
  replace (le_val [lo; hi]) with (from_le16 lo hi) by (unfold from_le16; simpl; lia).
  pose proof (from_le16_range lo hi Hlo Hhi) as Hf. set (f := from_le16 lo hi) in *.
  destruct (Z.eqb_spec c f) as [->|Hne].
  - rewrite Z.lxor_nilpotent. done.
  - symmetry. apply Z.eqb_neq. apply crc_iter_nonzero.
    + change 65536 with (2 ^ 16). apply lxor_range; lia.
    + intros E. apply Z.lxor_eq in E. done.
Qed.

Lemma check_sealed_ok m : bytes_ok m -> check_sealed (sealed m) = true.
Proof.
  intros Hm. unfold check_sealed, sealed. rewrite length_app. cbn [length to_le16].
  replace (length m + 2 - 2)%nat with (length m) by lia.
  rewrite drop_app_length, take_app_length. cbn [to_le16].
  apply Z.eqb_eq. symmetry. apply from_to_le16. by apply osc_crc_range.
Qed.

(** The receiver's check is the residue of the whole sealed span. *)
Lemma check_sealed_spec f : bytes_ok f -> (2 <= length f)%nat ->
  check_sealed f = (osc_crc f =? 0).
Proof.
  intros Hf Hlen. destruct (drop (length f - 2) f) as [|lo [|hi [|x r]]] eqn:E;
    apply (f_equal length) in E as L; rewrite length_drop in L; simpl in L; try lia.
  rewrite <- (take_drop (length f - 2) f), E.
  assert (bytes_ok [lo; hi]) as Hb by (rewrite <- E; auto with osc).
  apply bytes_ok_cons in Hb as [? [? _]%bytes_ok_cons].
  apply check_sealed_residue; auto with osc.
Qed.

Lemma sealed_ok m : bytes_ok m -> bytes_ok (sealed m).
Proof. intros. unfold sealed. apply bytes_ok_app; auto with osc. Qed.
#[export] Hint Resolve sealed_ok : osc.

(** ** Properties *)

(** C12: Wire-fault detection: take any sealed span (covered bytes followed by
    their little-endian CRC) and flip any nonzero set of bits that lie within
    sixteen consecutive wire bits, in the data, in the checksum or across the
    two; the receiver's check then fails.  This is the guarantee the message
    plane's documentation builds on ("deterministically catches every burst
    error up to 16 bits"). *)
Theorem crc_burst_detected m e w j :
  bytes_ok m -> length e = length (sealed m) -> burst16 e w j ->
  check_sealed (sealed m) = true /\ check_sealed (xor_bytes (sealed m) e) = false.
Proof.
  intros Hm L Hb. split; [by apply check_sealed_ok|].
  assert (bytes_ok e) by apply Hb. assert (bytes_ok (sealed m)) by auto with osc.
  rewrite check_sealed_spec;
    [|by apply xor_bytes_ok|rewrite length_xor_bytes by done; unfold sealed; rewrite length_app; simpl; lia].
  rewrite osc_crc_xor by done.
  replace (osc_crc (sealed m)) with 0; [rewrite Z.lxor_0_l; by apply Z.eqb_neq, (osc_crc_burst e w j)|].
  symmetry. apply Z.eqb_eq. rewrite <- check_sealed_spec; [by apply check_sealed_ok|done|].
  unfold sealed. rewrite length_app. simpl. lia.
Qed.

(** The ping frame [01 03 10] with three bits of its last covered byte and of
    its checksum flipped. *)
Lemma crc_burst_detected_witness :
  check_sealed (sealed [1; 3; 16]) = true /\
  check_sealed (xor_bytes (sealed [1; 3; 16]) [0; 0; 128; 3; 0]) = false.
Proof.
  apply (crc_burst_detected [1; 3; 16] [0; 0; 128; 3; 0] 7 23).
  - repeat constructor; lia.
  - reflexivity.
  - split; [repeat constructor; lia|]. split; [lia|]. split; [lia|]. reflexivity.
Defined.

(** ** Bit reversal *)

Lemma testbit_u16 x i : 0 <= i < 16 -> Z.testbit (u16 x) i = Z.testbit x i.
Proof. intros. unfold u16. change 65536 with (2 ^ 16). apply Z.mod_pow2_bits_low. lia. Qed.

Lemma testbit_u16_high x i : 16 <= i -> Z.testbit (u16 x) i = false.
Proof. intros. unfold u16. change 65536 with (2 ^ 16). apply Z.mod_pow2_bits_high. lia. Qed.

Create Rewrite HintDb crc_bits.
#[local] Hint Rewrite Z.lor_spec Z.land_spec Z.shiftl_spec Z.shiftr_spec testbit_u16
  testbit_u16_high Z.testbit_neg_r using lia : crc_bits.

Lemma bitrev16_range v : is_u16 (bitrev16 v).
Proof.
  unfold bitrev16. change 65536 with (2 ^ 16). set (x := u16 (Z.lor _ _)).
  assert (is_u16 x) by apply u16_range. apply lor_range; [lia|apply u16_range|].
  rewrite Z.shiftr_div_pow2 by lia. zmod.
Qed.

(** [bitrev16] reverses the sixteen bits: bit [i] of the result is bit
    [15 - i] of the argument. *)
Lemma bitrev16_bits v i : is_u16 v -> 0 <= i < 16 ->
  Z.testbit (bitrev16 v) i = Z.testbit v (15 - i).
Proof.
  intros Hv Hi. unfold bitrev16.
  assert (i = 0 \/ i = 1 \/ i = 2 \/ i = 3 \/ i = 4 \/ i = 5 \/ i = 6 \/ i = 7 \/ i = 8 \/
    i = 9 \/ i = 10 \/ i = 11 \/ i = 12 \/ i = 13 \/ i = 14 \/ i = 15) as C by lia.
  destruct_or! C; subst i; cbv zeta; autorewrite with crc_bits; cbn;
    rewrite ?andb_true_r, ?andb_false_r, ?orb_false_r; done.
Qed.

Lemma bitrev16_involutive v : is_u16 v -> bitrev16 (bitrev16 v) = v.
Proof.
  intros Hv. apply Z.bits_inj'. intros i Hi. pose proof (bitrev16_range v) as Hr.
  destruct (Z.lt_ge_cases i 16).
  - rewrite bitrev16_bits, bitrev16_bits by lia. f_equal. lia.
  - rewrite (bits_high 16 v) by lia.
    apply (bits_high 16); [lia|apply bitrev16_range|lia].
Qed.
