(* ===== verification/CrcUnit.v ===== *)
(** * The CRC coprocessor of the servo (servo-ch32/src/providers/crc.rs)

    The provider feeds spans by DMA through the SPI peripheral's CRC unit: a 16-bit
    shift register with the polynomial 0x8005, clocked with the low bit of each
    little-endian halfword first.  [lfsr] is that register.  The transfer runs on its
    own: how many halfwords it moves before each look of the code at it is a
    schedule, part of the state.

    The theorem: as long as no reset and no new feed cuts a transfer short, a result
    is the osc-CRC-16 of everything fed since the reset, the checksum that the rest of
    the protocol computes in software with the reflected polynomial. *)

From S2P Require Import Prelude Crc.

Definition OSC_CRC_POLY : Z := 32773. (* 0x8005 *)
Definition FEED_DRAIN_SPIN : nat := Z.to_nat 4096.

(** ** The peripheral *)

(** One bit into the register, high end out. *)
Definition lfsr (acc : Z) (b : bool) : Z :=
  Z.lxor (u16 (Z.shiftl acc 1)) (if xorb (Z.testbit acc 15) b then OSC_CRC_POLY else 0).
(** A halfword, low bit first. *)
Definition shift_halfword (acc hw : Z) : Z := fold_left (fun a i => lfsr a (Z.testbit hw (Z.of_nat i))) (seq 0 16) acc.
Definition shift_all (acc : Z) (hws : list Z) : Z := fold_left shift_halfword hws acc.

(** [sp_acc] is TCRCR, [sp_todo] what the channel still has to move, [sp_sched] how
    much it moves before each coming look. *)
Record SpiUnit := mkSpi { sp_acc : Z; sp_todo : list Z; sp_sched : list nat }.

(** The code looks: DMA emptied and the shifter idle. *)
Definition Crc_drained (u : SpiUnit) : bool * SpiUnit :=
  let n := match sp_sched u with n :: _ => n | [] => 0%nat end in
  let todo := drop n (sp_todo u) in
  (match todo with [] => true | _ => false end,
   mkSpi (shift_all (sp_acc u) (take n (sp_todo u))) todo (tail (sp_sched u))).

(** ** The provider *)

(** The halfwords of a span as the channel reads them. *)
Fixpoint halfwords (l : list Z) : list Z :=
  match l with b0 :: b1 :: l' => from_le16 b0 b1 :: halfwords l' | _ => [] end.
Definition Crc_arm (span : list Z) (u : SpiUnit) : SpiUnit :=
  mkSpi (sp_acc u) (take (Z.to_nat (u16 (Z.of_nat (length span / 2)))) (halfwords span)) (sp_sched u).

Fixpoint feed_spin (budget : nat) (u : SpiUnit) : SpiUnit :=
  let '(d, u) := Crc_drained u in
  match d, budget with
  | true, _ | _, O => u
  | false, S budget' => feed_spin budget' u
  end.
Definition Crc_feed (span : list Z) (u : SpiUnit) : SpiUnit := Crc_arm span (feed_spin FEED_DRAIN_SPIN u).
Definition Crc_reset (u : SpiUnit) : SpiUnit := mkSpi 0 (sp_todo u) (sp_sched u).

Definition unreverse (txcrc : Z) : Z :=
  let x := txcrc in
  let x := Z.lor (Z.shiftl (Z.land x 21845) 1) (Z.land (Z.shiftr x 1) 21845) in
  let x := Z.lor (Z.shiftl (Z.land x 13107) 2) (Z.land (Z.shiftr x 2) 13107) in
  let x := Z.lor (Z.shiftl (Z.land x 3855) 4) (Z.land (Z.shiftr x 4) 3855) in
  let x := u16 x in
  Z.lor (u16 (Z.shiftl x 8)) (Z.shiftr x 8).
Definition Crc_result (u : SpiUnit) : option Z * SpiUnit :=
  let '(d, u) := Crc_drained u in
  if d then (Some (unreverse (sp_acc u)), u) else (None, u).

(** ** Runs *)

Inductive CrcOp := CrReset | CrFeed (span : list Z) | CrResult.

Fixpoint crc_run (ops : list CrcOp) (u : SpiUnit) : list (option Z) :=
  match ops with
  | [] => []
  | CrReset :: ops' => crc_run ops' (Crc_reset u)
  | CrFeed span :: ops' => crc_run ops' (Crc_feed span u)
  | CrResult :: ops' => let '(r, u) := Crc_result u in r :: crc_run ops' u
  end.
(** What had been fed at each result. *)
Fixpoint crc_fed (ops : list CrcOp) (fed : list Z) : list (list Z) :=
  match ops with
  | [] => []
  | CrReset :: ops' => crc_fed ops' []
  | CrFeed span :: ops' => crc_fed ops' (fed ++ span)
  | CrResult :: ops' => fed :: crc_fed ops' fed
  end.

(** Spans are even-sized and the transfer has ended when the channel is re-pointed or
    the register cleared. *)
Fixpoint unhurried (ops : list CrcOp) (u : SpiUnit) : Prop :=
  match ops with
  | [] => True
  | CrReset :: ops' => sp_todo u = [] /\ unhurried ops' (Crc_reset u)
  | CrFeed span :: ops' =>
      bytes_ok span /\ Nat.even (length span) = true /\ Z.of_nat (length span) < 131072 /\
      sp_todo (feed_spin FEED_DRAIN_SPIN u) = [] /\ unhurried ops' (Crc_feed span u)
  | CrResult :: ops' => unhurried ops' (snd (Crc_result u))
  end.

(** ** The register is the reflected CRC, mirrored *)

Lemma lfsr_range acc b : is_u16 (lfsr acc b).
Proof. unfold lfsr. apply (lxor_range 16); [lia|apply u16_range|]. unfold OSC_CRC_POLY. destruct (xorb _ _); lia. Qed.

Lemma lfsr_mirror acc b : is_u16 acc -> bitrev16 (lfsr acc b) = crc_step (Z.lxor (bitrev16 acc) (Z.b2z b)).
Proof.
  intros Ha. pose proof (lfsr_range acc b) as Hl. pose proof (bitrev16_range acc) as Hr. rewrite crc_step_alt.
  assert (Z.testbit (Z.lxor (bitrev16 acc) (Z.b2z b)) 0 = xorb (Z.testbit acc 15) b) as ->.
  { rewrite Z.lxor_spec, bitrev16_bits by lia. by destruct b. }
  apply Z.bits_inj'. intros i Hi. destruct (Z.ltb_spec i 16).
  - rewrite bitrev16_bits by lia. unfold lfsr. rewrite !Z.lxor_spec, Z.shiftr_spec, Z.lxor_spec by lia.
    assert (Z.testbit (Z.b2z b) (i + 1) = false) as -> by (destruct b; [apply (bits_high 1); cbn; lia|apply Z.bits_0]).
    rewrite xorb_false_r. f_equal.
    + unfold u16. change 65536 with (2 ^ 16). rewrite Z.mod_pow2_bits_low, Z.shiftl_spec by lia. destruct (Z.eq_dec i 15) as [->|].
      * rewrite Z.testbit_neg_r by lia. symmetry. apply (bits_high 16); lia.
      * rewrite bitrev16_bits by lia. f_equal. lia.
    + destruct (xorb _ _); [|by rewrite !Z.bits_0]. assert (forall k, (k < 16)%nat -> Z.testbit OSC_CRC_POLY (15 - Z.of_nat k) = Z.testbit POLY_REFLECTED (Z.of_nat k)) as Hp.
      { do 16 (destruct k as [|k]; [done|]). lia. }
      specialize (Hp (Z.to_nat i) ltac:(lia)). by rewrite Z2Nat.id in Hp by lia.
  - rewrite (bits_high 16) by (try apply bitrev16_range; lia). symmetry. rewrite Z.lxor_spec, Z.shiftr_spec by lia.
    rewrite (bits_high 16 (Z.lxor _ _)); [|lia| |lia].
    + rewrite xorb_false_l. destruct (xorb (Z.testbit acc 15) b); [|apply Z.bits_0]. apply (bits_high 16); unfold POLY_REFLECTED; lia.
    + apply (lxor_range 16); [lia|exact Hr|destruct b; cbn; lia].
Qed.

(** Bits one at a time are the bits xored in at once. *)
Lemma bits_at_once n : forall w s r,
  fold_left (fun a i => crc_step (Z.lxor a (Z.b2z (Z.testbit w (Z.of_nat i))))) (seq s n) r =
  Nat.iter n crc_step (Z.lxor r ((w / 2 ^ Z.of_nat s) mod 2 ^ Z.of_nat n)).
Proof.
  induction n as [|n IH]; intros w s r; cbn [seq fold_left].
  - by rewrite Z.mod_1_r, Z.lxor_0_r.
  - rewrite IH, Nat.iter_succ_r. f_equal. set (q := w / 2 ^ Z.of_nat s).
    replace (w / 2 ^ Z.of_nat (S s)) with (q / 2)
      by (unfold q; rewrite Z.div_div by lia; f_equal; rewrite Nat2Z.inj_succ, Z.pow_succ_r by lia; lia).
    replace (2 ^ Z.of_nat (S n)) with (2 * 2 ^ Z.of_nat n) by (rewrite Nat2Z.inj_succ, Z.pow_succ_r by lia; lia).
    rewrite Z.rem_mul_r by lia.
    replace (q mod 2) with (Z.b2z (Z.testbit w (Z.of_nat s))) by (unfold q; by rewrite Z.testbit_spec' by lia).
    set (b := Z.testbit w (Z.of_nat s)). set (q' := (q / 2) mod 2 ^ Z.of_nat n).
    replace (Z.b2z b + 2 * q') with (Z.lxor (Z.b2z b) (2 * q')).
    + by rewrite <- Z.lxor_assoc, (crc_step_lxor _ (2 * q')), crc_step_double.
    + rewrite Z.add_comm, Z.add_nocarry_lxor; [apply Z.lxor_comm|]. apply Z.bits_inj'. intros i Hi. rewrite Z.land_spec, Z.bits_0.
      destruct (Z.eq_dec i 0) as [->|]; [by rewrite Z.testbit_even_0|]. rewrite (bits_high 1 (Z.b2z b)) by (destruct b; cbn; lia). apply andb_false_r.
Qed.

Lemma crc_halfword r b0 b1 : is_u8 b0 -> is_u8 b1 -> Nat.iter 16 crc_step (Z.lxor r (from_le16 b0 b1)) = crc_update (crc_update r b0) b1.
Proof.
  intros H0 H1. replace (from_le16 b0 b1) with (Z.lxor b0 (Z.shiftl b1 8)).
  - unfold crc_update. rewrite <- Z.lxor_assoc. change 16%nat with (8 + 8)%nat. rewrite <- crc_iter_add.
    pose proof (crc_iter_shiftl 8 b1) as Hs. change (Z.of_nat 8) with 8 in Hs. by rewrite (crc_iter_lxor 8 (Z.lxor r b0)), Hs.
  - unfold from_le16. rewrite (lxor_shiftl_add 8) by lia. lia.
Qed.

Lemma shift_halfword_mirror acc b0 b1 : is_u16 acc -> is_u8 b0 -> is_u8 b1 ->
  is_u16 (shift_halfword acc (from_le16 b0 b1)) /\
  bitrev16 (shift_halfword acc (from_le16 b0 b1)) = crc_update (crc_update (bitrev16 acc) b0) b1.
Proof.
  intros Ha H0 H1. rewrite <- (crc_halfword _ b0 b1 H0 H1). pose proof (from_le16_range b0 b1 H0 H1) as Hh.
  assert (forall l a, is_u16 a -> is_u16 (fold_left (fun a i => lfsr a (Z.testbit (from_le16 b0 b1) (Z.of_nat i))) l a) /\
    bitrev16 (fold_left (fun a i => lfsr a (Z.testbit (from_le16 b0 b1) (Z.of_nat i))) l a) =
    fold_left (fun a i => crc_step (Z.lxor a (Z.b2z (Z.testbit (from_le16 b0 b1) (Z.of_nat i))))) l (bitrev16 a)) as Hf.
  { induction l as [|i l IH]; intros a Hr; [done|]. cbn [fold_left]. rewrite <- lfsr_mirror by done. apply IH, lfsr_range. }
  destruct (Hf (seq 0 16) acc Ha) as [Hr He]. split; [exact Hr|]. unfold shift_halfword. rewrite He, bits_at_once.
  change (2 ^ Z.of_nat 0) with 1. rewrite Z.div_1_r, Z.mod_small; [done|exact Hh].
Qed.

Lemma shift_all_cons acc b0 b1 l : shift_all acc (halfwords (b0 :: b1 :: l)) = shift_all (shift_halfword acc (from_le16 b0 b1)) (halfwords l).
Proof. reflexivity. Qed.
Lemma crc_cons2 c b0 b1 l : osc_crc_continue c (b0 :: b1 :: l) = osc_crc_continue (crc_update (crc_update c b0) b1) l.
Proof. reflexivity. Qed.

Lemma shift_all_mirror l acc : is_u16 acc -> bytes_ok l -> Nat.even (length l) = true ->
  is_u16 (shift_all acc (halfwords l)) /\ bitrev16 (shift_all acc (halfwords l)) = osc_crc_continue (bitrev16 acc) l.
Proof.
  intros Ha Hl He. apply Nat.even_spec in He as (n & He). revert l acc Ha Hl He.
  induction n as [|n IH]; intros [|b0 [|b1 l]] acc Ha Hl He; cbn [length] in He; [split; [exact Ha|reflexivity]|exfalso; lia..|].
  apply bytes_ok_cons in Hl as [H0 Hl]. apply bytes_ok_cons in Hl as [H1 Hl].
  destruct (shift_halfword_mirror acc b0 b1 Ha H0 H1) as [Hr Hm]. rewrite shift_all_cons, crc_cons2, <- Hm.
  apply IH; [exact Hr|exact Hl|lia].
Qed.
Lemma length_halfwords l : length (halfwords l) = (length l / 2)%nat.
Proof.
  remember (length l) as n eqn:E. revert l E. induction n as [n IH] using lt_wf_ind. intros [|b0 [|b1 l]] ->; [done|done|].
  cbn [halfwords length]. rewrite (IH (length l)) by (cbn; lia || done). change (S (S (length l))) with (2 + length l)%nat.
  replace (2 + length l)%nat with (length l + 1 * 2)%nat by lia. rewrite Nat.div_add by lia. lia.
Qed.
Lemma shift_all_app acc a b : shift_all acc (a ++ b) = shift_all (shift_all acc a) b.
Proof. apply fold_left_app. Qed.

(** ** The provider keeps the sum *)

(** Once the channel has moved what is left, the register holds the mirrored CRC of
    [fed]. *)
Definition spi_sum (fed : list Z) (u : SpiUnit) : Prop :=
  is_u16 (shift_all (sp_acc u) (sp_todo u)) /\ bitrev16 (shift_all (sp_acc u) (sp_todo u)) = osc_crc fed.

Lemma drained_sum fed u : spi_sum fed u -> spi_sum fed (Crc_drained u).2 /\
  ((Crc_drained u).1 = true <-> sp_todo (Crc_drained u).2 = []).
Proof.
  unfold Crc_drained, spi_sum. cbn [fst snd sp_acc sp_todo]. rewrite <- shift_all_app, take_drop. intros H. split; [done|].
  by destruct (drop _ _).
Qed.
Lemma spin_sum fed n : forall u, spi_sum fed u -> spi_sum fed (feed_spin n u).
Proof.
  induction n as [|n IH]; intros u H; cbn [feed_spin]; destruct (drained_sum fed u H) as [H' _]; destruct (Crc_drained u) as [[] u']; try done.
  by apply IH.
Qed.
(** A channel that moves at least one halfword between looks is drained in time. *)
Lemma spin_drains n : forall u, (length (sp_todo u) <= S n)%nat -> (S n <= length (sp_sched u))%nat -> Forall (fun k => (0 < k)%nat) (sp_sched u) ->
  sp_todo (feed_spin n u) = [].
Proof.
  induction n as [|n IH]; intros u Hl Hs Hk; cbn [feed_spin]; unfold Crc_drained; (destruct (sp_sched u) as [|k ks]; [cbn in Hs; lia|]);
    apply Forall_cons_1 in Hk as [Hk Hks]; destruct (drop k (sp_todo u)) as [|x todo] eqn:Ed; try done.
  - apply (f_equal length) in Ed. rewrite length_drop in Ed. cbn in Ed. lia.
  - apply IH; cbn [sp_todo sp_sched tail]; [|cbn in Hs; lia|done]. apply (f_equal length) in Ed. rewrite length_drop in Ed. lia.
Qed.

Lemma feed_sum fed span u : spi_sum fed u -> bytes_ok span -> Nat.even (length span) = true -> Z.of_nat (length span) < 131072 ->
  sp_todo (feed_spin FEED_DRAIN_SPIN u) = [] -> spi_sum (fed ++ span) (Crc_feed span u).
Proof.
  intros H Hb He Hl Ht. pose proof (spin_sum fed FEED_DRAIN_SPIN u H) as [Hr Hs]. rewrite Ht in Hr, Hs. unfold Crc_feed, Crc_arm, spi_sum.
  cbn [sp_acc sp_todo]. unfold u16. rewrite Z.mod_small by (pose proof (Nat.div_mod_eq (length span) 2); lia).
  rewrite Nat2Z.id, take_ge by (rewrite length_halfwords; lia).
  destruct (shift_all_mirror span (sp_acc (feed_spin FEED_DRAIN_SPIN u)) Hr Hb He) as [H1 H2]. split; [done|]. rewrite H2.
  change (shift_all ?a []) with a in Hs. rewrite Hs. unfold osc_crc. by rewrite osc_crc_continue_app.
Qed.

Lemma run_sums ops : forall fed u, spi_sum fed u -> unhurried ops u ->
  Forall2 (fun r f => match r with Some v => v = osc_crc f | None => True end) (crc_run ops u) (crc_fed ops fed).
Proof.
  induction ops as [|[|span|] ops IH]; intros fed u H Hu; cbn [crc_run crc_fed unhurried] in *; [constructor|..].
  - destruct Hu as [Ht Hu]. apply IH; [|done]. unfold spi_sum, Crc_reset. cbn [sp_acc sp_todo]. rewrite Ht. by split.
  - destruct Hu as (Hb & He & Hl & Ht & Hu). apply IH; [by apply feed_sum|done].
  - unfold Crc_result in *. destruct (drained_sum fed u H) as [H' Hd]. destruct (Crc_drained u) as [d u']. cbn [fst snd] in *.
    destruct d; constructor; try done; [|by apply IH|by apply IH]. destruct H' as [_ H']. by rewrite (proj1 Hd eq_refl) in H'.
Qed.

(** C29: the coprocessor computes the protocol's checksum.  For every run of resets,
    feeds of even-sized spans and results that does not cut a transfer short, with
    any progress of the transfer between the calls, every result that is available is
    the osc-CRC-16 of everything fed since the last reset, in the software
    definition: the mirrored shift register, clocked low bit first, is the reflected
    algorithm. *)
Theorem crc_unit_exact (ops : list CrcOp) (sched : list nat) :
  unhurried ops (mkSpi 0 [] sched) ->
  Forall2 (fun r f => match r with Some v => v = osc_crc f | None => True end) (crc_run ops (mkSpi 0 [] sched)) (crc_fed ops []).
Proof. intros Hu. apply run_sums; [by split|done]. Qed.

(** The bring-up vector, in two feeds with a result too early in between. *)
Definition crc_demo : list CrcOp := [CrReset; CrFeed [49; 50; 51; 52]; CrResult; CrFeed [53; 54; 55; 56]; CrResult; CrResult].
Definition crc_demo_sched : list nat := [0; 1; 1; 1; 1; 5]%nat.
Lemma crc_unit_exact_witness : unhurried crc_demo (mkSpi 0 [] crc_demo_sched) /\
  Forall2 (fun r f => match r with Some v => v = osc_crc f | None => True end) (crc_run crc_demo (mkSpi 0 [] crc_demo_sched)) (crc_fed crc_demo []).
Proof.
  assert (unhurried crc_demo (mkSpi 0 [] crc_demo_sched)) as Hu.
  { unfold crc_demo. cbn [unhurried length]. repeat split; try reflexivity; try lia; try (apply list_eq_dec); repeat (apply Forall_cons_2; [lia|]); apply Forall_nil_2. }
  split; [exact Hu|exact (crc_unit_exact crc_demo crc_demo_sched Hu)].
Defined.
Example crc_demo_results : crc_run crc_demo (mkSpi 0 [] crc_demo_sched) = [None; None; Some 15517].
Proof. vm_compute. reflexivity. Qed.
