(* ===== verification/FrameBytes.v ===== *)
(** * Two-segment frame views (firmware/lib/osc-protocol/src/bytes.rs)

    A frame read in place from the RX ring is up to two contiguous segments.
    [FrameBytes] is that pair; its meaning is the concatenation.  Every
    accessor is shown to be a function of the concatenation alone, and the
    accessors are [Proper] for the induced equivalence, so the parsers built on
    them cannot see where the ring seam fell. *)

From S2P Require Import Prelude.

Record FrameBytes := FB { fb_head : list Z; fb_tail : list Z }.

Definition FrameBytes_new (head tail : list Z) : FrameBytes := FB head tail.

Definition FrameBytes_len (f : FrameBytes) : nat := length (fb_head f) + length (fb_tail f).

Definition FrameBytes_is_empty (f : FrameBytes) : bool :=
  Nat.eqb (length (fb_head f)) 0 && Nat.eqb (length (fb_tail f)) 0.

Definition FrameBytes_u8_at (f : FrameBytes) (i : nat) : option Z :=
  let hlen := length (fb_head f) in
  if Nat.ltb i hlen then fb_head f !! i else fb_tail f !! (i - hlen)%nat.

Definition FrameBytes_u16_le_at (f : FrameBytes) (i : nat) : option Z :=
  a ← FrameBytes_u8_at f i; b ← FrameBytes_u8_at f (i + 1)%nat; Some (from_le16 a b).

Definition FrameBytes_sub (f : FrameBytes) (start len : nat) : option FrameBytes :=
  let end_ := (start + len)%nat in
  if Nat.ltb (FrameBytes_len f) end_ then None
  else
    let hlen := length (fb_head f) in
    if Nat.leb hlen start then
      let s := (start - hlen)%nat in
      r ← get_range (fb_tail f) s (s + len); Some (FrameBytes_new r [])
    else if Nat.leb end_ hlen then
      r ← get_range (fb_head f) start end_; Some (FrameBytes_new r [])
    else
      h ← get_range (fb_head f) start hlen;
      t ← get_range (fb_tail f) 0 (end_ - hlen);
      Some (FrameBytes_new h t).

Definition FrameBytes_segments (f : FrameBytes) : list Z * list Z := (fb_head f, fb_tail f).

(** [copy_into]: the destination after the call, and whether it reported
    success.  [split_at_mut_checked] fails when the head does not fit; the head
    is copied before the tail's room is checked. *)
Definition FrameBytes_copy_into (f : FrameBytes) (dst : list Z) : option unit * list Z :=
  let hlen := length (fb_head f) in
  if Nat.ltb (length dst) hlen then (None, dst)
  else
    let dst := splice 0 (fb_head f) dst in
    if Nat.ltb (length dst - hlen) (length (fb_tail f)) then (None, dst)
    else (Some tt, splice hlen (fb_tail f) dst).

Definition FrameBytes_bytes (f : FrameBytes) : list Z := fb_head f ++ fb_tail f.

Definition FrameBytes_from (bytes : list Z) : FrameBytes := FrameBytes_new bytes [].

(** [PartialEq]: same length and same bytes in order. *)
Definition FrameBytes_eq (f g : FrameBytes) : bool :=
  Nat.eqb (FrameBytes_len f) (FrameBytes_len g) &&
  bool_decide (FrameBytes_bytes f = FrameBytes_bytes g).

(** ** The denotation and its equivalence *)

#[export] Instance FrameBytes_equiv : Equiv FrameBytes :=
  fun f g => FrameBytes_bytes f = FrameBytes_bytes g.

#[export] Instance FrameBytes_equivalence : Equivalence (≡@{FrameBytes}).
Proof.
  split.
  - by intros f.
  - intros f g H. by symmetry.
  - intros f g h H1 H2. by etransitivity.
Qed.

Lemma FrameBytes_len_spec f : FrameBytes_len f = length (FrameBytes_bytes f).
Proof. unfold FrameBytes_len, FrameBytes_bytes. by rewrite length_app. Qed.

Lemma FrameBytes_is_empty_spec f :
  FrameBytes_is_empty f = Nat.eqb (length (FrameBytes_bytes f)) 0.
Proof.
  unfold FrameBytes_is_empty, FrameBytes_bytes. rewrite length_app.
  destruct (fb_head f), (fb_tail f); done.
Qed.

Lemma FrameBytes_u8_at_spec f i : FrameBytes_u8_at f i = FrameBytes_bytes f !! i.
Proof.
  unfold FrameBytes_u8_at, FrameBytes_bytes. destruct (Nat.ltb _ _) eqn:E; zbool.
  - by rewrite lookup_app_l.
  - by rewrite lookup_app_r.
Qed.

Definition u16_le_at (l : list Z) (i : nat) : option Z :=
  a ← l !! i; b ← l !! (i + 1)%nat; Some (from_le16 a b).

Lemma FrameBytes_u16_le_at_spec f i : FrameBytes_u16_le_at f i = u16_le_at (FrameBytes_bytes f) i.
Proof. unfold FrameBytes_u16_le_at, u16_le_at. by rewrite !FrameBytes_u8_at_spec. Qed.

Lemma FrameBytes_sub_spec f start len :
  FrameBytes_bytes <$> FrameBytes_sub f start len =
    get_range (FrameBytes_bytes f) start (start + len).
Proof.
  unfold FrameBytes_sub. rewrite FrameBytes_len_spec. unfold get_range at 5.
  destruct (Nat.ltb _ _) eqn:E1; zbool; simpl.
  { destruct (Nat.leb (start + len) _) eqn:E; zbool; [lia|]. by rewrite andb_false_r. }
  unfold FrameBytes_bytes in *. rewrite length_app in *.
  replace ((start <=? start + len) && (start + len <=? length (fb_head f) + length (fb_tail f)))%nat
    with true by (symmetry; apply andb_true_iff; rewrite !Nat.leb_le; lia).
  replace (start + len - start)%nat with len by lia.
  destruct (Nat.leb _ _) eqn:E2; zbool; [|destruct (Nat.leb _ _) eqn:E3; zbool].
  - rewrite get_range_ok by lia. simpl.
    rewrite app_nil_r, drop_app_ge by lia. f_equal. f_equal. lia.
  - rewrite get_range_ok by lia. simpl.
    rewrite app_nil_r, drop_app_le by lia. rewrite take_app_le by (rewrite length_drop; lia).
    f_equal. f_equal. lia.
  - rewrite !get_range_ok by lia. simpl.
    rewrite drop_app_le by lia. rewrite take_app. f_equal.
    rewrite !length_drop, drop_0. f_equal.
    + rewrite !take_ge; [done|rewrite length_drop; lia..].
    + f_equal. lia.
Qed.

Lemma FrameBytes_sub_Some f start len g :
  FrameBytes_sub f start len = Some g ->
  (start + len <= FrameBytes_len f)%nat /\
  FrameBytes_bytes g = take len (drop start (FrameBytes_bytes f)).
Proof.
  intros H. pose proof (FrameBytes_sub_spec f start len) as S. rewrite H in S. simpl in S.
  symmetry in S. apply get_range_Some in S as [? ->]. rewrite FrameBytes_len_spec.
  split; [lia|]. f_equal. lia.
Qed.

Lemma FrameBytes_sub_is_Some f start len :
  (start + len <= FrameBytes_len f)%nat -> is_Some (FrameBytes_sub f start len).
Proof.
  intros H. pose proof (FrameBytes_sub_spec f start len) as S. rewrite FrameBytes_len_spec in H.
  rewrite get_range_ok in S by lia.
  destruct (FrameBytes_sub f start len); [by eexists|done].
Qed.

(** Enough room: the whole view lands at the front of the destination. *)
Lemma FrameBytes_copy_into_fits f dst : (FrameBytes_len f <= length dst)%nat ->
  FrameBytes_copy_into f dst = (Some tt, FrameBytes_bytes f ++ drop (FrameBytes_len f) dst).
Proof.
  unfold FrameBytes_len. intros H. unfold FrameBytes_copy_into.
  destruct (Nat.ltb (length dst) _) eqn:E; zbool; [lia|].
  rewrite length_splice by (simpl; lia).
  destruct (Nat.ltb (length dst - _) _) eqn:E2; zbool; [lia|]. f_equal.
  pose proof (splice_app 0 (fb_head f) (fb_tail f) dst ltac:(simpl; lia)) as S. simpl in S.
  rewrite S. unfold splice, FrameBytes_bytes. simpl. by rewrite length_app, <- app_assoc.
Qed.

(** No room: [None], but the head is already in the destination when it fits. *)
Lemma FrameBytes_copy_into_short f dst : (length dst < FrameBytes_len f)%nat ->
  FrameBytes_copy_into f dst =
    (None, if Nat.ltb (length dst) (length (fb_head f)) then dst
           else fb_head f ++ drop (length (fb_head f)) dst).
Proof.
  unfold FrameBytes_len. intros H. unfold FrameBytes_copy_into.
  destruct (Nat.ltb (length dst) _) eqn:E; zbool; [done|].
  rewrite length_splice by (simpl; lia).
  destruct (Nat.ltb (length dst - _) _) eqn:E2; zbool; [|lia]. done.
Qed.

Lemma FrameBytes_eq_spec f g : FrameBytes_eq f g = true <-> f ≡ g.
Proof.
  unfold FrameBytes_eq, equiv, FrameBytes_equiv. rewrite andb_true_iff, bool_decide_eq_true.
  rewrite Nat.eqb_eq, !FrameBytes_len_spec. split; [by intros []|]. intros H. by rewrite H.
Qed.

(** ** [Proper] accessors: nothing downstream can observe the seam *)

#[export] Instance FrameBytes_bytes_proper : Proper ((≡) ==> (=)) FrameBytes_bytes.
Proof. by intros f g H. Qed.
#[export] Instance FrameBytes_len_proper : Proper ((≡) ==> (=)) FrameBytes_len.
Proof. intros f g H. rewrite !FrameBytes_len_spec. by rewrite H. Qed.
#[export] Instance FrameBytes_is_empty_proper : Proper ((≡) ==> (=)) FrameBytes_is_empty.
Proof. intros f g H. rewrite !FrameBytes_is_empty_spec. by rewrite H. Qed.
#[export] Instance FrameBytes_u8_at_proper : Proper ((≡) ==> (=) ==> (=)) FrameBytes_u8_at.
Proof. intros f g H i ? <-. rewrite !FrameBytes_u8_at_spec. by rewrite H. Qed.
#[export] Instance FrameBytes_u16_le_at_proper : Proper ((≡) ==> (=) ==> (=)) FrameBytes_u16_le_at.
Proof. intros f g H i ? <-. rewrite !FrameBytes_u16_le_at_spec. by rewrite H. Qed.
#[export] Instance FrameBytes_sub_proper : Proper ((≡) ==> (=) ==> (=) ==> (≡)) FrameBytes_sub.
Proof.
  intros f g H s ? <- n ? <-. pose proof (FrameBytes_sub_spec f s n) as S1.
  pose proof (FrameBytes_sub_spec g s n) as S2. rewrite H, <- S2 in S1.
  destruct (FrameBytes_sub f s n), (FrameBytes_sub g s n); try done; constructor.
  by simplify_eq/=.
Qed.

(** Rewrite the scalar accessors along [H : f ≡ g], also under binders. *)
Ltac fb_rewrite H :=
  rewrite ?(FrameBytes_bytes_proper _ _ H), ?(FrameBytes_len_proper _ _ H), ?(FrameBytes_is_empty_proper _ _ H),
    ?(fun i => FrameBytes_u8_at_proper _ _ H i i eq_refl),
    ?(fun i => FrameBytes_u16_le_at_proper _ _ H i i eq_refl).

(** Run the same sub-view on both sides of [H : f ≡ g]. *)
Ltac fb_sub H s n :=
  let P := fresh "P" in
  pose proof (FrameBytes_sub_proper _ _ H s s eq_refl n n eq_refl) as P;
  inversion P; clear P; subst; simpl; try done.

(** A window depends on the segment lengths and on the bytes up to its end. *)
Lemma get_range_drop_take {A} (l : list A) a b :
  (a <= b <= length l)%nat -> get_range l a b = Some (drop a (take b l)).
Proof. intros Hb. rewrite get_range_ok by done. by rewrite skipn_firstn_comm. Qed.

Lemma FrameBytes_sub_ext f g s n :
  length (fb_head f) = length (fb_head g) -> length (fb_tail f) = length (fb_tail g) ->
  take (s + n) (FrameBytes_bytes f) = take (s + n) (FrameBytes_bytes g) ->
  FrameBytes_sub f s n = FrameBytes_sub g s n.
Proof.
  intros Hh Ht Hb. unfold FrameBytes_sub, FrameBytes_len. rewrite <- Hh, <- Ht.
  destruct (Nat.ltb _ _) eqn:El; [done|]. zbool. unfold FrameBytes_bytes in Hb.
  destruct (Nat.leb_spec (s + n) (length (fb_head f))) as [Hc|Hc].
  - rewrite !take_app_le in Hb by lia.
    destruct (Nat.leb_spec (length (fb_head f)) s).
    + assert (n = 0)%nat as -> by lia. rewrite !get_range_ok by lia. by rewrite !Nat.add_0_r, !Nat.sub_diag.
    + rewrite !get_range_drop_take by lia. by rewrite Hb.
  - rewrite !take_app_ge in Hb by lia. apply app_inj_1 in Hb as [Eh Et]; [|done]. rewrite <- Hh in Et.
    destruct (Nat.leb_spec (length (fb_head f)) s).
    + rewrite !get_range_drop_take by lia. replace (s - length (fb_head f) + n)%nat with (s + n - length (fb_head f))%nat by lia.
      by rewrite Et.
    + rewrite <- Eh, !get_range_drop_take by lia. by rewrite Et.
Qed.
