(* ===== verification/Wire.v ===== *)
(** * Wire primitives (firmware/lib/osc-protocol/src/wire.rs, models.rs, table.rs)

    The frame ID, the packed INST byte with its two layouts, the closed code
    sets, and the frame span arithmetic.  [Id] and [Inst] are transparent
    newtypes over a byte, so both are plain [Z] here; validity comes from the
    typed accessors, exactly as in the source. *)

From S2P Require Import Prelude.

(** ** Frame ID *)

Definition Id := Z.
Definition Id_BROADCAST : Id := 254. (* 0xFE *)

Definition Id_is_broadcast (i : Id) : bool := i =? 254.
Definition Id_is_unicast (i : Id) : bool := (1 <=? i) && (i <=? 249).
Definition Id_is_valid (i : Id) : bool := Id_is_unicast i || Id_is_broadcast i.
Definition Id_addresses (self other : Id) : bool := Id_is_broadcast self || (self =? other).
Definition Id_try_unicast (b : Z) : option Id :=
  if (1 <=? b) && (b <=? 249) then Some b else None.

(** ** Operational baud *)

Inductive BaudRate := B500000 | B1000000 | B2000000 | B3000000.
#[export] Instance BaudRate_eq_dec : EqDecision BaudRate.
Proof. solve_decision. Defined.

Definition BaudRate_RESCUE : BaudRate := B500000.
Definition BaudRate_as_idx (b : BaudRate) : Z :=
  match b with B500000 => 0 | B1000000 => 1 | B2000000 => 2 | B3000000 => 3 end.
Definition BaudRate_as_hz (b : BaudRate) : Z :=
  match b with
  | B500000 => 500000 | B1000000 => 1000000 | B2000000 => 2000000 | B3000000 => 3000000
  end.
Definition BaudRate_from_idx (idx : Z) : option BaudRate :=
  match idx with
  | 0 => Some B500000 | 1 => Some B1000000 | 2 => Some B2000000 | 3 => Some B3000000
  | _ => None
  end.

(** ** Instruction opcode, INST bits [6:4] *)

Inductive Opcode :=
  OpPing | OpRead | OpWrite | OpCommit | OpGread | OpGwrite | OpMgmt.
#[export] Instance Opcode_eq_dec : EqDecision Opcode.
Proof. solve_decision. Defined.

Definition Opcode_as_u8 (o : Opcode) : Z :=
  match o with
  | OpPing => 1 | OpRead => 2 | OpWrite => 3 | OpCommit => 4 | OpGread => 5 | OpGwrite => 6
  | OpMgmt => 7
  end.
Definition Opcode_from_bits (b : Z) : option Opcode :=
  match b with
  | 1 => Some OpPing | 2 => Some OpRead | 3 => Some OpWrite | 4 => Some OpCommit
  | 5 => Some OpGread | 6 => Some OpGwrite | 7 => Some OpMgmt
  | _ => None
  end.

(** ** Status result code, INST bits [6:2] *)

Inductive ResultCode :=
  RcOk | RcInstruction | RcRange | RcAccess | RcValidation | RcBusy | RcLimit
| RcPredecessorSilent | RcHardware | RcUnauthenticated | RcSecurityLockout.
#[export] Instance ResultCode_eq_dec : EqDecision ResultCode.
Proof. solve_decision. Defined.

Definition ResultCode_as_u8 (r : ResultCode) : Z :=
  match r with
  | RcOk => 0 | RcInstruction => 1 | RcRange => 2 | RcAccess => 3 | RcValidation => 4
  | RcBusy => 5 | RcLimit => 6 | RcPredecessorSilent => 7 | RcHardware => 8
  | RcUnauthenticated => 9 | RcSecurityLockout => 10
  end.
Definition ResultCode_from_bits (b : Z) : option ResultCode :=
  match b with
  | 0 => Some RcOk | 1 => Some RcInstruction | 2 => Some RcRange | 3 => Some RcAccess
  | 4 => Some RcValidation | 5 => Some RcBusy | 6 => Some RcLimit
  | 7 => Some RcPredecessorSilent | 8 => Some RcHardware | 9 => Some RcUnauthenticated
  | 10 => Some RcSecurityLockout
  | _ => None
  end.

(** ** MGMT sub-op *)

Inductive MgmtOp :=
  MoEnum | MoAssign | MoSave | MoReboot | MoFactory | MoCal
| MoSecInit | MoSecKey | MoSecAttest | MoSecRekey.
#[export] Instance MgmtOp_eq_dec : EqDecision MgmtOp.
Proof. solve_decision. Defined.

Definition MgmtOp_as_u8 (m : MgmtOp) : Z :=
  match m with
  | MoEnum => 1 | MoAssign => 2 | MoSave => 3 | MoReboot => 4 | MoFactory => 5 | MoCal => 6
  | MoSecInit => 7 | MoSecKey => 8 | MoSecAttest => 9 | MoSecRekey => 10
  end.
Definition MgmtOp_from_byte (b : Z) : option MgmtOp :=
  match b with
  | 1 => Some MoEnum | 2 => Some MoAssign | 3 => Some MoSave | 4 => Some MoReboot
  | 5 => Some MoFactory | 6 => Some MoCal | 7 => Some MoSecInit | 8 => Some MoSecKey
  | 9 => Some MoSecAttest | 10 => Some MoSecRekey
  | _ => None
  end.
Definition MgmtOp_needs_quiet_window (m : MgmtOp) : bool :=
  match m with MoSecInit | MoSecKey | MoSecAttest | MoSecRekey => true | _ => false end.

(** ** The packed INST byte *)

Definition Inst := Z.
Definition FLAG_HOLD : Z := 1.
Definition FLAG_PROFILE : Z := FLAG_HOLD.
Definition FLAG_AUTH : Z := 2.
Definition FLAG_NOREPLY : Z := 4.
Definition FLAG_PER_TARGET : Z := 8.
Definition STATUS_BIT : Z := 128.
Definition ALERT_BIT : Z := 1.

Definition Inst_instruction (op : Opcode) (flags : Z) : Inst :=
  Z.lor (u8 (Z.shiftl (Opcode_as_u8 op) 4)) (Z.land flags 15).
Definition Inst_status (result : ResultCode) (alert : bool) : Inst :=
  let b := Z.lor STATUS_BIT (u8 (Z.shiftl (ResultCode_as_u8 result) 2)) in
  if alert then Z.lor b ALERT_BIT else b.
Definition Inst_status_authenticated (result : ResultCode) (alert : bool) : Inst :=
  Z.lor (Inst_status result alert) FLAG_AUTH.

Definition flag_set (b m : Z) : bool := negb (Z.land b m =? 0).

Definition Inst_is_status (i : Inst) : bool := flag_set i STATUS_BIT.
Definition Inst_opcode (i : Inst) : option Opcode :=
  if Inst_is_status i then None else Opcode_from_bits (Z.land (Z.shiftr i 4) 7).
Definition Inst_hold (i : Inst) : bool := flag_set i FLAG_HOLD.
Definition Inst_profile (i : Inst) : bool := Inst_hold i.
Definition Inst_authenticated (i : Inst) : bool := flag_set i FLAG_AUTH.
Definition Inst_noreply (i : Inst) : bool := flag_set i FLAG_NOREPLY.
Definition Inst_per_target (i : Inst) : bool := flag_set i FLAG_PER_TARGET.
Definition Inst_result (i : Inst) : option ResultCode :=
  if negb (Inst_is_status i) then None
  else ResultCode_from_bits (Z.land (Z.shiftr i 2) 31).
Definition Inst_alert (i : Inst) : bool := flag_set i ALERT_BIT.

(** ** Frame constants and span arithmetic *)

Definition MAX_PAYLOAD : Z := 252.
Definition DEFAULT_RESPONSE_DEADLINE_US : Z := 60.
Definition STARVE_HORIZON_BYTE_TIMES : Z := 64.
Definition RESCUE_PULSE_MIN_US : Z := 300.
Definition UID_LEN : nat := 16.
Definition ENUM_REPLY_SLOTS : Z := 16.
Definition ALIGN_BYTE : Z := 0.

(** [len_for] and [payload_len] are byte arithmetic: they wrap out of range. *)
Definition len_for (p : Z) : Z := u8 (3 + p).
Definition payload_len (len : Z) : Z := u8 (len - 3).
Definition footprint (len : Z) : Z := 3 + len.
Definition covered_len (len : Z) : Z := 1 + len.

(** ** Model numbers (models.rs) *)

Definition CLASS_SERVO : Z := 1.
Definition model_number (class model : Z) : Z := Z.lor (Z.shiftl class 8) model.
Definition model_class (n : Z) : Z := u8 (Z.shiftr n 8).
Definition MODEL_UNASSIGNED : Z := 0.
Definition MODEL_OSC_SERVO : Z := model_number CLASS_SERVO 1.

(** ** The common register block (table.rs) *)

Definition CONFIG_COMMON_START : Z := 0.
Definition CONFIG_COMMON_END : Z := 32.
Definition MODEL_NUMBER : Z := 0.
Definition BAUD_RATE_IDX : Z := 17.
Definition TELEMETRY_COMMON_START : Z := 512.
Definition TELEMETRY_COMMON_END : Z := 544.
Definition FAULT_FLAGS : Z := 512.
Definition TRIM_STEPS : Z := 514.
Definition CRC_FAIL_COUNT : Z := 516.
Definition STATUS_FLAG_CONFIG_DIRTY : Z := 1.
Definition PROFILE_START : Z := 640.
Definition PROFILE_END : Z := 704.
Definition PROFILE_SLOTS : Z := 4.
Definition PROFILE_SPANS_PER_SLOT : Z := 8.

Definition profile_span_word (addr count : Z) : Z :=
  Z.lor (u16 (Z.shiftl addr 6)) (Z.land count 63).
Definition profile_span_split (word : Z) : Z * Z := (Z.shiftr word 6, u8 (Z.land word 63)).
Definition profile_slot_addr (slot : Z) : Z :=
  u16 (PROFILE_START + slot * (PROFILE_SPANS_PER_SLOT * 2)).

(** ** Lemmas *)

Lemma Opcode_roundtrip o : Opcode_from_bits (Opcode_as_u8 o) = Some o.
Proof. by destruct o. Qed.
Lemma ResultCode_roundtrip r : ResultCode_from_bits (ResultCode_as_u8 r) = Some r.
Proof. by destruct r. Qed.
Lemma MgmtOp_roundtrip m : MgmtOp_from_byte (MgmtOp_as_u8 m) = Some m.
Proof. by destruct m. Qed.
Lemma BaudRate_roundtrip b : BaudRate_from_idx (BaudRate_as_idx b) = Some b.
Proof. by destruct b. Qed.

Ltac z_cases b :=
  destruct b as [|b|b]; try done; repeat (destruct b as [b|b|]; try done).

Lemma MgmtOp_from_byte_inv b m : MgmtOp_from_byte b = Some m -> MgmtOp_as_u8 m = b.
Proof. unfold MgmtOp_from_byte. intros H. repeat case_hyp H; by simplify_eq. Qed.
Lemma Opcode_from_bits_inv b o : Opcode_from_bits b = Some o -> Opcode_as_u8 o = b.
Proof. unfold Opcode_from_bits. intros H. repeat case_hyp H; by simplify_eq. Qed.

(** A one-bit mask test is a [testbit]. *)
Lemma flag_set_testbit b k : 0 <= k -> flag_set b (2 ^ k) = Z.testbit b k.
Proof.
  intros Hk. unfold flag_set. destruct (Z.testbit b k) eqn:E.
  - apply negb_true_iff, Z.eqb_neq. intros H. apply (f_equal (fun z => Z.testbit z k)) in H.
    by rewrite Z.land_spec, E, Z.pow2_bits_true, Z.bits_0 in H by done.
  - apply negb_false_iff, Z.eqb_eq. apply Z.bits_inj'. intros i Hi.
    rewrite Z.land_spec, Z.bits_0. destruct (Z.eq_dec i k) as [->|].
    + by rewrite E.
    + by rewrite Z.pow2_bits_false, andb_false_r by lia.
Qed.

Lemma Inst_is_status_spec i : Inst_is_status i = Z.testbit i 7.
Proof. by apply (flag_set_testbit i 7). Qed.

(** The instruction layout, as arithmetic. *)
Lemma Inst_instruction_eq op flags :
  Inst_instruction op flags = Opcode_as_u8 op * 16 + flags mod 16.
Proof.
  unfold Inst_instruction. change 15 with (Z.ones 4). rewrite Z.land_ones by lia.
  rewrite u8_id by (rewrite Z.shiftl_mul_pow2 by lia; destruct op; simpl; lia).
  rewrite Z.lor_comm, lor_shiftl_add by zmod. change (2 ^ 4) with 16. lia.
Qed.

Lemma testbit_mod16 x k : 0 <= k < 4 -> Z.testbit x k = Z.testbit (x mod 16) k.
Proof. intros. symmetry. apply (Z.mod_pow2_bits_low x 4). lia. Qed.

Lemma Inst_instruction_fields op flags (i := Inst_instruction op flags) :
  is_u8 i /\ Inst_is_status i = false /\ Inst_opcode i = Some op /\
  Inst_hold i = Z.testbit flags 0 /\ Inst_authenticated i = Z.testbit flags 1 /\
  Inst_noreply i = Z.testbit flags 2 /\ Inst_per_target i = Z.testbit flags 3.
Proof.
  subst i. rewrite Inst_instruction_eq, !(testbit_mod16 flags) by lia.
  pose proof (Z.mod_pos_bound flags 16 ltac:(lia)) as B.
  destruct (flags mod 16) as [|p|p]; [by destruct op| |lia].
  assert (p <= 15)%positive by lia. clear B.
  do 4 (destruct p as [p|p|]; try lia; try (by destruct op)).
Qed.

Lemma Inst_status_fields r a :
  Inst_is_status (Inst_status r a) = true /\ Inst_opcode (Inst_status r a) = None /\
  Inst_result (Inst_status r a) = Some r /\ Inst_alert (Inst_status r a) = a /\
  Inst_authenticated (Inst_status r a) = false /\
  Inst_result (Inst_status_authenticated r a) = Some r /\
  Inst_alert (Inst_status_authenticated r a) = a /\
  Inst_authenticated (Inst_status_authenticated r a) = true.
Proof. by destruct r, a. Qed.

(** Any INST byte whose opcode decodes is an instruction frame, and its opcode
    field is what the constructor writes. *)
Lemma Inst_opcode_status i o : Inst_opcode i = Some o -> Inst_is_status i = false.
Proof. unfold Inst_opcode. by destruct (Inst_is_status i). Qed.

Lemma payload_len_for p : 0 <= p <= MAX_PAYLOAD -> payload_len (len_for p) = p.
Proof. unfold payload_len, len_for, MAX_PAYLOAD, u8. zmod. Qed.

Lemma len_for_val p : 0 <= p <= MAX_PAYLOAD -> len_for p = 3 + p.
Proof. unfold len_for, MAX_PAYLOAD, u8. zmod. Qed.

Lemma profile_span_roundtrip addr count :
  0 <= addr < 1024 -> 0 <= count < 64 ->
  profile_span_split (profile_span_word addr count) = (addr, count).
Proof.
  intros Ha Hc. unfold profile_span_split, profile_span_word.
  change 63 with (Z.ones 6). rewrite !Z.land_ones by lia. change (2 ^ 6) with 64.
  rewrite (Z.mod_small count) by lia.
  rewrite u16_id by (rewrite Z.shiftl_mul_pow2; lia).
  rewrite Z.lor_comm, lor_shiftl_add by lia. change (2 ^ 6) with 64.
  rewrite Z.shiftr_div_pow2 by lia. unfold u8. change (2 ^ 6) with 64. f_equal; zmod.
Qed.

Lemma model_class_number c m : is_u8 c -> is_u8 m -> model_class (model_number c m) = c.
Proof.
  intros. unfold model_class, model_number.
  rewrite Z.lor_comm, lor_shiftl_add, Z.shiftr_div_pow2 by lia. unfold u8.
  change (2 ^ 8) with 256. zmod.
Qed.

(** ** Properties *)

(** The INST byte round-trips through both layouts: an instruction byte
    gives back its opcode and its four flags and is never read as a status; a
    status byte gives back its result code, alert bit and authentication mark
    and never has an opcode. *)
Theorem inst_roundtrip :
  (forall op flags, let i := Inst_instruction op flags in
    is_u8 i /\ Inst_is_status i = false /\ Inst_opcode i = Some op /\
    Inst_hold i = Z.testbit flags 0 /\ Inst_authenticated i = Z.testbit flags 1 /\
    Inst_noreply i = Z.testbit flags 2 /\ Inst_per_target i = Z.testbit flags 3) /\
  (forall r a,
    Inst_is_status (Inst_status r a) = true /\ Inst_opcode (Inst_status r a) = None /\
    Inst_result (Inst_status r a) = Some r /\ Inst_alert (Inst_status r a) = a /\
    Inst_authenticated (Inst_status r a) = false /\
    Inst_result (Inst_status_authenticated r a) = Some r /\
    Inst_alert (Inst_status_authenticated r a) = a /\
    Inst_authenticated (Inst_status_authenticated r a) = true).
Proof. split; [apply Inst_instruction_fields|apply Inst_status_fields]. Qed.
