(* ===== verification/Frame.v ===== *)
(** * Frame layout (firmware/lib/osc-protocol/src/frame.rs, reply.rs)

    The header view, the zero-copy payload parsers over two-segment views, and
    the TX frame buffer both ends encode into. *)

From S2P Require Import Prelude Crc FrameBytes Wire.

(** ** Header *)

Inductive FrameError := ShortLen | BadId | BadOpcode.
#[export] Instance FrameError_eq_dec : EqDecision FrameError.
Proof. solve_decision. Defined.

Record Header := mkHeader { h_brk : Z; h_id : Id; h_len : Z; h_inst : Inst }.

Definition Header_SIZE : nat := 4.
Definition Header_from_bytes (b0 b1 b2 b3 : Z) : Header := mkHeader b0 b1 b2 b3.

Definition Header_validate (h : Header) : result unit FrameError :=
  if h_len h <? 3 then Err ShortLen
  else if negb (Id_is_valid (h_id h)) then Err BadId
  else if negb (Inst_is_status (h_inst h)) &&
          match Inst_opcode (h_inst h) with None => true | Some _ => false end
  then Err BadOpcode
  else Ok tt.

Definition Header_frame_end (h : Header) : Z := footprint (h_len h).
Definition Header_covered_len (h : Header) : Z := covered_len (h_len h).
Definition Header_payload_len (h : Header) : Z := payload_len (h_len h).

(** ** Payload parsers *)

Record ReadReq := mkReadReq { rr_addr : Z; rr_count : Z }.

Definition ReadReq_parse (payload : FrameBytes) : option ReadReq :=
  if negb (Nat.eqb (FrameBytes_len payload) 4) then None
  else
    addr ← FrameBytes_u16_le_at payload 0;
    count ← FrameBytes_u16_le_at payload 2;
    Some (mkReadReq addr count).

Record ProfileReq := mkProfileReq { pr_slot : Z }.

Definition ProfileReq_parse (payload : FrameBytes) : option ProfileReq :=
  if negb (Nat.eqb (FrameBytes_len payload) 1) then None
  else slot ← FrameBytes_u8_at payload 0; Some (mkProfileReq slot).

Record WriteReq := mkWriteReq { wr_addr : Z; wr_data : FrameBytes }.

(** [usize::checked_sub]. *)
Definition checked_sub (a b : nat) : option nat := if Nat.ltb a b then None else Some (a - b)%nat.

Definition WriteReq_parse (payload : FrameBytes) : option WriteReq :=
  addr ← FrameBytes_u16_le_at payload 0;
  n ← checked_sub (FrameBytes_len payload) 2;
  data ← FrameBytes_sub payload 2 n;
  Some (mkWriteReq addr data).

Record MgmtReq := mkMgmtReq { mr_op : MgmtOp; mr_args : FrameBytes }.

Definition MgmtReq_parse (payload : FrameBytes) : option MgmtReq :=
  b ← FrameBytes_u8_at payload 0;
  op ← MgmtOp_from_byte b;
  n ← checked_sub (FrameBytes_len payload) 1;
  args ← FrameBytes_sub payload 1 n;
  Some (mkMgmtReq op args).

Record EnumReq := mkEnumReq { er_prefix_len : Z; er_prefix : list Z }.

Definition MAX_PREFIX_BITS : Z := 128.

(** [u8::div_ceil(8)]. *)
Definition div_ceil8 (x : Z) : nat := Z.to_nat ((x + 7) / 8).

Definition EnumReq_parse (args : FrameBytes) : option EnumReq :=
  prefix_len ← FrameBytes_u8_at args 0;
  if MAX_PREFIX_BITS <? prefix_len then None
  else
    let n := div_ceil8 prefix_len in
    if negb (Nat.eqb (FrameBytes_len args) (1 + n)) then None
    else
      let prefix := replicate UID_LEN 0 in
      s ← FrameBytes_sub args 1 n;
      match FrameBytes_copy_into s (take n prefix) with
      | (Some _, front) => Some (mkEnumReq prefix_len (front ++ drop n prefix))
      | (None, _) => None
      end.

(** [uid_prefix_matches]; [None] is the slice panic. *)
Definition uid_prefix_matches (uid : list Z) (prefix_len : Z) (prefix : list Z) : option bool :=
  let full := Z.to_nat (prefix_len / 8) in
  let rem := prefix_len mod 8 in
  u ← get_range uid 0 full;
  p ← get_range prefix 0 full;
  if negb (bool_decide (u = p)) then Some false
  else if rem =? 0 then Some true
  else
    ub ← uid !! full;
    pb ← prefix !! full;
    Some (Z.land (Z.lxor ub pb) (Z.shiftl 1 rem - 1) =? 0).

Record AssignReq := mkAssignReq { ar_uid : list Z; ar_new_id : Z }.

Definition AssignReq_parse (args : FrameBytes) : option AssignReq :=
  if negb (Nat.eqb (FrameBytes_len args) (UID_LEN + 1)) then None
  else
    s ← FrameBytes_sub args 0 UID_LEN;
    match FrameBytes_copy_into s (replicate UID_LEN 0) with
    | (Some _, uid) => new_id ← FrameBytes_u8_at args UID_LEN; Some (mkAssignReq uid new_id)
    | (None, _) => None
    end.

Record CalReq := mkCalReq { cr_gap_us : Z; cr_gaps : Z }.

Definition CalReq_parse (args : FrameBytes) : option CalReq :=
  if negb (Nat.eqb (FrameBytes_len args) 3) then None
  else
    gap_us ← FrameBytes_u16_le_at args 0;
    gaps ← FrameBytes_u8_at args 2;
    if (gap_us =? 0) || (gaps =? 0) then None else Some (mkCalReq gap_us gaps).

(** ** The TX frame buffer (reply.rs)

    [FrameBuf N] is its [N]-byte array.  Slicing outside the array is a panic,
    [None] here. *)

Definition FrameBuf := list Z.

Definition FrameBuf_new (N : nat) : FrameBuf := replicate N 0.

Definition FrameBuf_start (b : FrameBuf) (id : Id) (inst : Inst) : FrameBuf :=
  <[3%nat := inst]> (<[2%nat := 0]> (<[1%nat := id]> (<[0%nat := ALIGN_BYTE]> b))).

(** [payload_mut]: the window [4 .. N-2], through which the caller's update [f] goes. *)
Definition FrameBuf_payload_mut (b : FrameBuf) (f : list Z -> list Z) : option FrameBuf :=
  p ← get_range b 4 (length b - 2);
  Some (splice 4 (f p) b).

Definition FrameBuf_finish (b : FrameBuf) (p : Z) : FrameBuf := <[2%nat := len_for p]> b.

Definition FrameBuf_covered (b : FrameBuf) : option (list Z) :=
  len ← b !! 2%nat; get_range b 0 (Z.to_nat (covered_len len)).

Definition FrameBuf_set_crc (b : FrameBuf) (crc : Z) : option FrameBuf :=
  len ← b !! 2%nat;
  let end_ := Z.to_nat (covered_len len) in
  _ ← get_range b end_ (end_ + 2);
  Some (splice end_ (to_le16 crc) b).

Definition FrameBuf_frame (b : FrameBuf) : option (list Z) :=
  len ← b !! 2%nat; get_range b 0 (Z.to_nat (footprint len)).

Definition FrameBuf_seal (b : FrameBuf) : option (FrameBuf * list Z) :=
  cov ← FrameBuf_covered b;
  b' ← FrameBuf_set_crc b (osc_crc cov);
  f ← FrameBuf_frame b';
  Some (b', f).

(** The source's own vectors: a ping, and a write with an odd payload. *)
Example ping_vector :
  snd <$> FrameBuf_seal (FrameBuf_finish (FrameBuf_start (FrameBuf_new 16) 1
    (Inst_instruction OpPing 0)) 0) = Some [0; 1; 3; 16; 80; 252].
Proof. reflexivity. Qed.
Example write_odd_payload_vector :
  (b ← FrameBuf_payload_mut (FrameBuf_start (FrameBuf_new 16) 2 (Inst_instruction OpWrite 0))
         (splice 0 [0; 1; 170]);
   snd <$> FrameBuf_seal (FrameBuf_finish b 3)) = Some [0; 2; 6; 48; 0; 1; 170; 7; 13].
Proof. reflexivity. Qed.

(** ** The parsers as functions of the byte string *)

Lemma checked_sub_Some a b n : checked_sub a b = Some n <-> (b <= a)%nat /\ n = (a - b)%nat.
Proof.
  unfold checked_sub. destruct (Nat.ltb a b) eqn:E; zbool.
  - split; [done|]. intros [? _]. lia.
  - split; [by intros [= <-]|]. by intros [_ ->].
Qed.

#[export] Instance ReadReq_parse_proper : Proper ((≡) ==> (=)) ReadReq_parse.
Proof. intros f g H. unfold ReadReq_parse. by fb_rewrite H. Qed.
#[export] Instance ProfileReq_parse_proper : Proper ((≡) ==> (=)) ProfileReq_parse.
Proof. intros f g H. unfold ProfileReq_parse. by fb_rewrite H. Qed.
#[export] Instance CalReq_parse_proper : Proper ((≡) ==> (=)) CalReq_parse.
Proof. intros f g H. unfold CalReq_parse. by fb_rewrite H. Qed.

(** A sub-view taken whole from offset [k] is the dropped byte string. *)
Lemma FrameBytes_sub_rest f k n :
  checked_sub (FrameBytes_len f) k = Some n ->
  exists g, FrameBytes_sub f k n = Some g /\ FrameBytes_bytes g = drop k (FrameBytes_bytes f).
Proof.
  intros [Hk ->]%checked_sub_Some.
  destruct (FrameBytes_sub_is_Some f k (FrameBytes_len f - k) ltac:(lia)) as [g Hg].
  exists g. split; [done|]. apply FrameBytes_sub_Some in Hg as [_ ->].
  apply take_ge. rewrite length_drop, FrameBytes_len_spec. lia.
Qed.

Lemma WriteReq_parse_spec f :
  match FrameBytes_bytes f with
  | a :: b :: rest => exists g, WriteReq_parse f = Some (mkWriteReq (from_le16 a b) g) /\
                                FrameBytes_bytes g = rest
  | _ => WriteReq_parse f = None
  end.
Proof.
  unfold WriteReq_parse. rewrite FrameBytes_u16_le_at_spec. unfold u16_le_at.
  destruct (FrameBytes_bytes f) as [|a [|b rest]] eqn:E; simpl; try done.
  assert (checked_sub (FrameBytes_len f) 2 = Some (length rest)) as C.
  { apply checked_sub_Some. rewrite FrameBytes_len_spec, E. simpl. lia. }
  rewrite C. simpl. destruct (FrameBytes_sub_rest _ _ _ C) as (g & -> & Hg). simpl.
  exists g. split; [done|]. by rewrite Hg, E.
Qed.

Lemma MgmtReq_parse_spec f :
  match FrameBytes_bytes f with
  | b :: rest =>
      match MgmtOp_from_byte b with
      | Some op => exists g, MgmtReq_parse f = Some (mkMgmtReq op g) /\ FrameBytes_bytes g = rest
      | None => MgmtReq_parse f = None
      end
  | [] => MgmtReq_parse f = None
  end.
Proof.
  unfold MgmtReq_parse. rewrite FrameBytes_u8_at_spec.
  destruct (FrameBytes_bytes f) as [|b rest] eqn:E; simpl; [done|].
  destruct (MgmtOp_from_byte b) as [op|]; simpl; [|done].
  assert (checked_sub (FrameBytes_len f) 1 = Some (length rest)) as C.
  { apply checked_sub_Some. rewrite FrameBytes_len_spec, E. simpl. lia. }
  rewrite C. simpl. destruct (FrameBytes_sub_rest _ _ _ C) as (g & -> & Hg). simpl.
  exists g. split; [done|]. by rewrite Hg, E.
Qed.

Lemma div_ceil8_le x : x <= 128 -> (div_ceil8 x <= UID_LEN)%nat.
Proof. intros. unfold div_ceil8, UID_LEN. zmod. Qed.

Lemma EnumReq_parse_spec f :
  EnumReq_parse f =
    match FrameBytes_bytes f with
    | pl :: rest =>
        if (pl <=? MAX_PREFIX_BITS) && Nat.eqb (length rest) (div_ceil8 pl)
        then Some (mkEnumReq pl (rest ++ replicate (UID_LEN - length rest) 0)) else None
    | [] => None
    end.
Proof.
  unfold EnumReq_parse. rewrite FrameBytes_u8_at_spec, FrameBytes_len_spec.
  destruct (FrameBytes_bytes f) as [|pl rest] eqn:E; simpl; [done|]. unfold MAX_PREFIX_BITS.
  rewrite Z.leb_antisym. destruct (128 <? pl) eqn:Hpl; simpl; [done|]. zbool.
  pose proof (div_ceil8_le pl Hpl) as Hn. destruct (Nat.eqb (length rest) (div_ceil8 pl)) eqn:L; zbool; simpl; [|done].
  assert (1 + div_ceil8 pl <= FrameBytes_len f)%nat as Hl
    by (rewrite FrameBytes_len_spec, E; simpl; lia).
  destruct (FrameBytes_sub_is_Some f 1 (div_ceil8 pl) Hl) as [g Hg]. rewrite Hg. simpl.
  apply FrameBytes_sub_Some in Hg as [_ Hg]. rewrite E in Hg. simpl in Hg.
  rewrite drop_0, take_ge in Hg by lia.
  assert (FrameBytes_len g = div_ceil8 pl) as Lg by (rewrite FrameBytes_len_spec, Hg; done).
  change [0; 0; 0; 0; 0; 0; 0; 0; 0; 0; 0; 0; 0; 0; 0; 0] with (replicate UID_LEN 0).
  rewrite FrameBytes_copy_into_fits by (rewrite length_take, length_replicate; lia).
  rewrite Hg, Lg, L, take_replicate, drop_replicate, drop_replicate.
  replace (div_ceil8 pl `min` UID_LEN - div_ceil8 pl)%nat with 0%nat by lia. simpl.
  by rewrite app_nil_r.
Qed.

Lemma AssignReq_parse_spec f :
  AssignReq_parse f =
    if Nat.eqb (length (FrameBytes_bytes f)) 17
    then new_id ← FrameBytes_bytes f !! 16%nat;
         Some (mkAssignReq (take 16 (FrameBytes_bytes f)) new_id)
    else None.
Proof.
  unfold AssignReq_parse. rewrite FrameBytes_u8_at_spec, FrameBytes_len_spec. simpl.
  destruct (Nat.eqb _ _) eqn:L; zbool; simpl; [|done].
  assert (0 + UID_LEN <= FrameBytes_len f)%nat as Hl
    by (rewrite FrameBytes_len_spec, L; unfold UID_LEN; lia).
  destruct (FrameBytes_sub_is_Some f 0 UID_LEN Hl) as [g Hg]. rewrite Hg. simpl.
  apply FrameBytes_sub_Some in Hg as [_ Hg]. rewrite drop_0 in Hg.
  assert (FrameBytes_len g = 16%nat) as Lg
    by (rewrite FrameBytes_len_spec, Hg, length_take, L; done).
  rewrite FrameBytes_copy_into_fits by (rewrite Lg; done). rewrite Lg, Hg. simpl.
  by rewrite app_nil_r.
Qed.

#[export] Instance EnumReq_parse_proper : Proper ((≡) ==> (=)) EnumReq_parse.
Proof. intros f g H. rewrite !EnumReq_parse_spec. by fb_rewrite H. Qed.
#[export] Instance AssignReq_parse_proper : Proper ((≡) ==> (=)) AssignReq_parse.
Proof. intros f g H. rewrite !AssignReq_parse_spec. by fb_rewrite H. Qed.

(** ** UID prefix matching *)

(** Bit [k] of a UID, LSB-first: [uid[k/8] >> (k%8) & 1]. *)
Definition uid_bit (uid : list Z) (k : nat) : bool :=
  Z.testbit (default 0 (uid !! (k / 8)%nat)) (Z.of_nat (k mod 8)).

Lemma testbit_low_mask x y r : 0 <= r ->
  (Z.land (Z.lxor x y) (Z.shiftl 1 r - 1) =? 0) = true <->
  forall i, 0 <= i < r -> Z.testbit x i = Z.testbit y i.
Proof.
  intros Hr. rewrite Z.eqb_eq, Z.shiftl_1_l. replace (2 ^ r - 1) with (Z.ones r)
    by (rewrite Z.ones_equiv; lia). split.
  - intros H i Hi. apply (f_equal (fun z => Z.testbit z i)) in H.
    rewrite Z.land_spec, Z.lxor_spec, Z.ones_spec_low, Z.bits_0, andb_true_r in H by lia.
    by apply xorb_eq.
  - intros H. apply Z.bits_inj'. intros i Hi. rewrite Z.land_spec, Z.lxor_spec, Z.bits_0.
    destruct (Z.lt_ge_cases i r).
    + rewrite H by lia. by rewrite xorb_nilpotent.
    + by rewrite Z.ones_spec_high, andb_false_r by lia.
Qed.

Lemma bytes_bits_eq u p : is_u8 u -> is_u8 p ->
  (forall i, 0 <= i < 8 -> Z.testbit u i = Z.testbit p i) -> u = p.
Proof.
  intros Hu Hp H. apply Z.bits_inj'. intros i Hi. destruct (Z.lt_ge_cases i 8); [by apply H|].
  by rewrite (bits_high 8 u), (bits_high 8 p) by lia.
Qed.

Lemma uid_bit_byte uid j i b : uid !! j = Some b -> (i < 8)%nat ->
  uid_bit uid (8 * j + i) = Z.testbit b (Z.of_nat i).
Proof.
  intros Hb Hi. unfold uid_bit.
  rewrite <- (Nat.div_unique (8 * j + i) 8 j i), <- (Nat.mod_unique (8 * j + i) 8 j i) by lia. by rewrite Hb.
Qed.

(** Agreement on whole leading bytes is agreement on their bits. *)
Lemma take_eq_bits n u p : bytes_ok u -> bytes_ok p -> (n <= length u)%nat -> (n <= length p)%nat ->
  take n u = take n p <-> forall k, (k < 8 * n)%nat -> uid_bit u k = uid_bit p k.
Proof.
  intros Hu Hp Lu Lp. split.
  - intros E k Hk. unfold uid_bit. f_equal.
    assert (k / 8 < n)%nat as Hq by (apply Nat.Div0.div_lt_upper_bound; lia).
    by rewrite <- (lookup_take_lt u n), E, lookup_take_lt.
  - intros H. apply list_eq. intros j. destruct (Nat.lt_ge_cases j n) as [Hj|Hj].
    2: { by rewrite !lookup_take_ge. }
    rewrite !lookup_take_lt by done.
    destruct (lookup_lt_is_Some_2 u j ltac:(lia)) as [bu Eu].
    destruct (lookup_lt_is_Some_2 p j ltac:(lia)) as [bp Ep]. rewrite Eu, Ep. f_equal.
    apply bytes_bits_eq; [by apply (bytes_ok_lookup u j)|by apply (bytes_ok_lookup p j)|]. intros i Hi.
    specialize (H (8 * j + Z.to_nat i)%nat ltac:(lia)).
    erewrite !uid_bit_byte in H by (done || lia). by rewrite Z2Nat.id in H by lia.
Qed.

Lemma uid_prefix_matches_spec uid pl prefix :
  bytes_ok uid -> bytes_ok prefix -> length uid = UID_LEN -> length prefix = UID_LEN ->
  0 <= pl <= MAX_PREFIX_BITS ->
  exists b, uid_prefix_matches uid pl prefix = Some b /\
    (b = true <-> forall k, (k < Z.to_nat pl)%nat -> uid_bit uid k = uid_bit prefix k).
Proof.
  unfold MAX_PREFIX_BITS, UID_LEN. intros Hu Hp Lu Lp Hpl. unfold uid_prefix_matches.
  assert (pl = 8 * (pl / 8) + pl mod 8) as Epl by zmod.
  assert (0 <= pl / 8 <= 16) by zmod. assert (0 <= pl mod 8 < 8) by zmod.
  set (q := Z.to_nat (pl / 8)) in *.
  assert (Z.to_nat pl = 8 * q + Z.to_nat (pl mod 8))%nat as En by lia.
  rewrite !get_range_ok by lia. simpl. rewrite !Nat.sub_0_r, !drop_0.
  pose proof (take_eq_bits q uid prefix Hu Hp ltac:(lia) ltac:(lia)) as T.
  case_bool_decide as D; simpl.
  2: { exists false. split; [done|]. split; [done|]. intros H'. exfalso. apply D, T.
       intros k Hk. apply H'. lia. }
  destruct (Z.eqb_spec (pl mod 8) 0) as [R|R].
  { exists true. split; [done|]. split; [|done]. intros _ k Hk. apply T; [done|lia]. }
  destruct (lookup_lt_is_Some_2 uid q ltac:(lia)) as [ub Eu].
  destruct (lookup_lt_is_Some_2 prefix q ltac:(lia)) as [pb Ep]. rewrite Eu, Ep. simpl.
  eexists. split; [done|]. rewrite testbit_low_mask by lia. split.
  - intros Hb k Hk. destruct (Nat.lt_ge_cases k (8 * q)) as [|Hge]; [by apply T|].
    replace k with (8 * q + (k - 8 * q))%nat by lia.
    erewrite !uid_bit_byte by (done || lia). apply Hb. lia.
  - intros Hk i Hi. specialize (Hk (8 * q + Z.to_nat i)%nat ltac:(lia)).
    erewrite !uid_bit_byte in Hk by (done || lia). by rewrite Z2Nat.id in Hk by lia.
Qed.

(** ** The frame buffer *)

(** A leading zero byte is a CRC no-op (init = 0). *)
Lemma osc_crc_leading_zero l : osc_crc (0 :: l) = osc_crc l.
Proof. reflexivity. Qed.

Lemma FrameBuf_start_eq b0 b1 b2 b3 rest id inst :
  FrameBuf_start (b0 :: b1 :: b2 :: b3 :: rest) id inst = 0 :: id :: 0 :: inst :: rest.
Proof. reflexivity. Qed.

(** The frame a builder lays down, in a buffer with any prior contents. *)
Definition build_frame (b : FrameBuf) (id : Id) (inst : Inst) (pay : list Z) :
    option (FrameBuf * list Z) :=
  b1 ← FrameBuf_payload_mut (FrameBuf_start b id inst) (splice 0 pay);
  FrameBuf_seal (FrameBuf_finish b1 (Z.of_nat (length pay))).

Lemma build_frame_eq b id inst pay (L := 3 + Z.of_nat (length pay)) :
  (length pay <= 252)%nat -> (length pay + 6 <= length b)%nat ->
  build_frame b id inst pay =
    Some ((0 :: sealed (id :: L :: inst :: pay)) ++ drop (length pay + 6) b,
          0 :: sealed (id :: L :: inst :: pay)).
Proof.
  intros Hmax Hb. unfold build_frame, sealed.
  destruct b as [|b0 [|b1 [|b2 [|b3 rest]]]]; simpl in Hb; try lia.
  destruct (list_cut rest (length pay) ltac:(lia)) as (r1 & rest' & -> & L1).
  destruct rest' as [|c0 [|c1 r2]]; rewrite length_app in Hb; simpl in Hb; try lia.
  rewrite FrameBuf_start_eq. unfold FrameBuf_payload_mut.
  destruct (get_range _ 4 _) as [w|] eqn:W;
    [|rewrite get_range_ok in W; [done|simpl; rewrite length_app; simpl; lia]].
  cbn [mbind option_bind]. pose proof (get_range_length _ _ _ _ W) as Lw.
  rewrite (splice_window _ w pay 4 _ 0 W)
    by (rewrite Lw; simpl; rewrite length_app; simpl; lia).
  change (0 :: id :: 0 :: inst :: r1 ++ c0 :: c1 :: r2)
    with ([0; id; 0; inst] ++ r1 ++ c0 :: c1 :: r2).
  rewrite splice_mid by (simpl; lia). unfold FrameBuf_finish.
  rewrite len_for_val by (unfold MAX_PAYLOAD; lia). fold L. cbn [app insert list_insert].
  unfold FrameBuf_seal, FrameBuf_covered, FrameBuf_set_crc, FrameBuf_frame.
  set (cov := [0; id; L; inst] ++ pay). set (n := Z.to_nat (covered_len L)).
  assert (n = length cov) as Hn by (subst n cov L; unfold covered_len; rewrite length_app; simpl; lia).
  change (0 :: id :: L :: inst :: pay ++ c0 :: c1 :: r2)
    with (cov ++ [c0; c1] ++ r2). change ((cov ++ [c0; c1] ++ r2) !! 2%nat) with (Some L).
  cbn [mbind option_bind]. fold n.
  rewrite get_range_front by done. cbn [mbind option_bind].
  rewrite get_range_mid by done. cbn [mbind option_bind].
  rewrite splice_mid by done. change (osc_crc cov) with (osc_crc (id :: L :: inst :: pay)).
  set (crc := to_le16 _). change ((cov ++ crc ++ r2) !! 2%nat) with (Some L).
  cbn [mbind option_bind]. rewrite app_assoc.
  rewrite get_range_front by (rewrite length_app, <- Hn; subst n; unfold footprint, covered_len;
    simpl; lia).
  cbn [mbind option_bind]. f_equal. f_equal. subst cov. cbn [app]. do 4 f_equal.
  rewrite <- !app_assoc. do 2 f_equal.
  replace (length pay + 6)%nat with (4 + (length r1 + 2))%nat by lia. cbn [drop Nat.add].
  by rewrite drop_app_add.
Qed.

(** The payload window of a complete frame, whatever seam it was read across. *)
Lemma frame_payload_view f id inst pay (L := 3 + Z.of_nat (length pay)) crc :
  (length pay <= 252)%nat ->
  FrameBytes_bytes f = 0 :: id :: L :: inst :: pay ++ crc ->
  exists g, FrameBytes_sub f Header_SIZE (Z.to_nat (payload_len L)) = Some g /\
            FrameBytes_bytes g = pay.
Proof.
  intros Hmax E. assert (payload_len L = Z.of_nat (length pay)) as ->
    by (subst L; unfold payload_len, u8; zmod). rewrite Nat2Z.id.
  destruct (FrameBytes_sub_is_Some f Header_SIZE (length pay)) as [g Hg].
  { rewrite FrameBytes_len_spec, E. simpl. rewrite length_app. lia. }
  exists g. split; [done|]. apply FrameBytes_sub_Some in Hg as [_ ->]. rewrite E. simpl.
  by rewrite drop_0, take_app_length.
Qed.

(** ** Properties *)

(** Frame round trip: whatever the buffer held before, laying down ID,
    INST and a payload of at most 252 bytes and sealing yields a frame whose
    wire bytes (offset 1 on) pass the receiver's CRC check, whose header gives
    back the ID, the length and the INST byte and validates, whose length is
    the header's own footprint, and whose payload window, read across any ring
    seam, is the payload. *)
Theorem frame_roundtrip b id inst pay :
  bytes_ok pay -> (length pay <= 252)%nat -> (length pay + 6 <= length b)%nat ->
  is_u8 inst -> Id_is_valid id = true ->
  (Inst_is_status inst = true \/ is_Some (Inst_opcode inst)) ->
  exists b' len crc,
    build_frame b id inst pay = Some (b', 0 :: id :: len :: inst :: pay ++ crc) /\
    check_sealed (id :: len :: inst :: pay ++ crc) = true /\
    Header_validate (Header_from_bytes 0 id len inst) = Ok tt /\
    Z.of_nat (length (0 :: id :: len :: inst :: pay ++ crc)) = footprint len /\
    forall f, FrameBytes_bytes f = 0 :: id :: len :: inst :: pay ++ crc ->
      exists g, FrameBytes_sub f Header_SIZE
                  (Z.to_nat (Header_payload_len (Header_from_bytes 0 id len inst))) = Some g /\
                FrameBytes_bytes g = pay.
Proof.
  intros Hp Hmax Hb Hinst Hid Hop.
  eexists _, (3 + Z.of_nat (length pay)), _. split; [by apply build_frame_eq|].
  assert (bytes_ok (id :: 3 + Z.of_nat (length pay) :: inst :: pay)).
  { unfold Id_is_valid, Id_is_unicast, Id_is_broadcast in Hid.
    apply orb_true_iff in Hid as [?|?]; zbool; repeat constructor; try lia; done. }
  split; [by apply (check_sealed_ok (id :: _ :: inst :: pay))|]. split; [|split].
  - unfold Header_validate, Header_from_bytes; simpl. rewrite (proj2 (Z.ltb_ge _ _)) by lia.
    rewrite Hid. simpl. destruct Hop as [->|[o Ho]]; [done|]. rewrite Ho. by rewrite andb_false_r.
  - unfold footprint. simpl. rewrite length_app. simpl. lia.
  - intros f Hf. by eapply frame_payload_view.
Qed.

(** The source's write vector, sealed into a dirty 16-byte buffer. *)
Lemma frame_roundtrip_witness :
  exists b' len crc,
    build_frame (replicate 16 255) 5 48 [128; 1; 44; 1] =
      Some (b', 0 :: 5 :: len :: 48 :: [128; 1; 44; 1] ++ crc) /\
    check_sealed (5 :: len :: 48 :: [128; 1; 44; 1] ++ crc) = true /\
    Header_validate (Header_from_bytes 0 5 len 48) = Ok tt /\
    Z.of_nat (length (0 :: 5 :: len :: 48 :: [128; 1; 44; 1] ++ crc)) = footprint len /\
    forall f, FrameBytes_bytes f = 0 :: 5 :: len :: 48 :: [128; 1; 44; 1] ++ crc ->
      exists g, FrameBytes_sub f Header_SIZE
                  (Z.to_nat (Header_payload_len (Header_from_bytes 0 5 len 48))) = Some g /\
                FrameBytes_bytes g = [128; 1; 44; 1].
Proof.
  apply (frame_roundtrip (replicate 16 255) 5 48 [128; 1; 44; 1]).
  - repeat constructor; lia.
  - simpl; lia.
  - simpl; lia.
  - lia.
  - reflexivity.
  - right. exists OpWrite. reflexivity.
Defined.
