(* ===== verification/Group.v ===== *)
(** * Group instruction payloads (firmware/lib/osc-protocol/src/group.rs)

    GREAD and GWRITE in their uniform, per-target and profile forms.  [parse]
    validates the geometry; the iterators then walk known-well-formed bytes.
    An iterator is its [next] function; [iter_all] runs it to exhaustion, with
    the remaining length as fuel (every step consumes at least one byte). *)

From S2P Require Import Prelude FrameBytes Wire Frame.

(** ** Iterators *)

Fixpoint iter_run {S A} (next : S -> option (A * S)) (fuel : nat) (st : S) : list A :=
  match fuel with
  | O => []
  | Datatypes.S fuel' =>
      match next st with
      | Some (x, st') => x :: iter_run next fuel' st'
      | None => []
      end
  end.

(** [Iterator::find] and [.enumerate().find(..)]: first match, with its index. *)
Fixpoint find_first {A} (p : A -> bool) (i : nat) (l : list A) : option (nat * A) :=
  match l with
  | [] => None
  | x :: l' => if p x then Some (i, x) else find_first p (S i) l'
  end.

(** ** Entries *)

Record GreadTarget := mkGreadTarget { gt_id : Id; gt_addr : Z; gt_count : Z }.
Record GwriteTarget := mkGwriteTarget { gw_id : Id; gw_addr : Z; gw_data : FrameBytes }.
Record GreadProfileTarget := mkGreadProfileTarget { gp_id : Id; gp_slot : Z }.

(** ** Uniform GREAD: addr(2) count(2) id-list *)

Record GreadUniform := mkGreadUniform { gu_addr : Z; gu_count : Z; gu_ids : FrameBytes }.

Definition GreadUniform_parse (payload : FrameBytes) : option GreadUniform :=
  addr ← FrameBytes_u16_le_at payload 0;
  count ← FrameBytes_u16_le_at payload 2;
  n ← checked_sub (FrameBytes_len payload) 4;
  ids ← FrameBytes_sub payload 4 n;
  if FrameBytes_is_empty ids then None else Some (mkGreadUniform addr count ids).

Definition position (b : Z) (l : list Z) : option Z :=
  p ← find_first (fun x => x =? b) 0 l; Some (u8 (Z.of_nat p.1)).

Definition GreadUniform_slot_of (g : GreadUniform) (id : Id) : option Z :=
  position id (FrameBytes_bytes (gu_ids g)).

(** ** Per-target GREAD: [id(1) addr(2) count(2)]x *)

Definition GreadPerTarget_parse (payload : FrameBytes) : option FrameBytes :=
  if FrameBytes_is_empty payload || negb (Nat.eqb (FrameBytes_len payload mod 5) 0) then None
  else Some payload.

Definition GreadPerTargetIter_next (rest : FrameBytes) : option (GreadTarget * FrameBytes) :=
  if Nat.ltb (FrameBytes_len rest) 5 then None
  else
    id ← FrameBytes_u8_at rest 0;
    addr ← FrameBytes_u16_le_at rest 1;
    count ← FrameBytes_u16_le_at rest 3;
    rest' ← FrameBytes_sub rest 5 (FrameBytes_len rest - 5);
    Some (mkGreadTarget id addr count, rest').

Definition GreadPerTarget_iter (entries : FrameBytes) : list GreadTarget :=
  iter_run GreadPerTargetIter_next (FrameBytes_len entries) entries.

Definition GreadPerTarget_find (entries : FrameBytes) (id : Id) : option (Z * GreadTarget) :=
  p ← find_first (fun t => gt_id t =? id) 0 (GreadPerTarget_iter entries);
  Some (u8 (Z.of_nat p.1), p.2).

(** ** Uniform GREAD+PROFILE: slot(1) id-list *)

Record GreadProfileUniform := mkGreadProfileUniform { gpu_slot : Z; gpu_ids : FrameBytes }.

Definition GreadProfileUniform_parse (payload : FrameBytes) : option GreadProfileUniform :=
  slot ← FrameBytes_u8_at payload 0;
  n ← checked_sub (FrameBytes_len payload) 1;
  ids ← FrameBytes_sub payload 1 n;
  if FrameBytes_is_empty ids then None else Some (mkGreadProfileUniform slot ids).

Definition GreadProfileUniform_slot_of (g : GreadProfileUniform) (id : Id) : option Z :=
  position id (FrameBytes_bytes (gpu_ids g)).

(** ** Per-target GREAD+PROFILE: [id(1) slot(1)]x *)

Definition GreadProfilePerTarget_parse (payload : FrameBytes) : option FrameBytes :=
  if FrameBytes_is_empty payload || negb (Nat.eqb (FrameBytes_len payload mod 2) 0) then None
  else Some payload.

Definition GreadProfilePerTargetIter_next (rest : FrameBytes) :
    option (GreadProfileTarget * FrameBytes) :=
  if Nat.ltb (FrameBytes_len rest) 2 then None
  else
    id ← FrameBytes_u8_at rest 0;
    slot ← FrameBytes_u8_at rest 1;
    rest' ← FrameBytes_sub rest 2 (FrameBytes_len rest - 2);
    Some (mkGreadProfileTarget id slot, rest').

Definition GreadProfilePerTarget_iter (entries : FrameBytes) : list GreadProfileTarget :=
  iter_run GreadProfilePerTargetIter_next (FrameBytes_len entries) entries.

Definition GreadProfilePerTarget_find (entries : FrameBytes) (id : Id) :
    option (Z * GreadProfileTarget) :=
  p ← find_first (fun t => gp_id t =? id) 0 (GreadProfilePerTarget_iter entries);
  Some (u8 (Z.of_nat p.1), p.2).

(** ** Uniform GWRITE: addr(2) count(1) [id(1) data(count)]x *)

Record GwriteUniform := mkGwriteUniform { gwu_addr : Z; gwu_count : Z; gwu_entries : FrameBytes }.

(** [while rem >= stride { rem -= stride }]; the stride is at least 2, so
    [rem] iterations suffice. *)
Fixpoint strip_stride (fuel rem stride : nat) : nat :=
  match fuel with
  | O => rem
  | S fuel' => if Nat.leb stride rem then strip_stride fuel' (rem - stride) stride else rem
  end.

Definition GwriteUniform_parse (payload : FrameBytes) : option GwriteUniform :=
  addr ← FrameBytes_u16_le_at payload 0;
  count ← FrameBytes_u8_at payload 2;
  if count =? 0 then None
  else
    n ← checked_sub (FrameBytes_len payload) 3;
    entries ← FrameBytes_sub payload 3 n;
    let stride := (1 + Z.to_nat count)%nat in
    let rem := FrameBytes_len entries in
    if Nat.eqb rem 0 then None
    else if negb (Nat.eqb (strip_stride rem rem stride) 0) then None
    else Some (mkGwriteUniform addr count entries).

Definition GwriteUniformIter_next (stride : nat) (rest : FrameBytes) :
    option ((Id * FrameBytes) * FrameBytes) :=
  if Nat.ltb (FrameBytes_len rest) stride then None
  else
    id ← FrameBytes_u8_at rest 0;
    data ← FrameBytes_sub rest 1 (stride - 1);
    rest' ← FrameBytes_sub rest stride (FrameBytes_len rest - stride);
    Some ((id, data), rest').

Definition GwriteUniform_iter (g : GwriteUniform) : list (Id * FrameBytes) :=
  iter_run (GwriteUniformIter_next (1 + Z.to_nat (gwu_count g)))
    (FrameBytes_len (gwu_entries g)) (gwu_entries g).

Definition GwriteUniform_find (g : GwriteUniform) (id : Id) : option FrameBytes :=
  p ← find_first (fun e => e.1 =? id) 0 (GwriteUniform_iter g); Some p.2.2.

(** ** Per-target GWRITE: [id(1) addr(2) count(1) data(count)]x *)

(** The validating walk of [parse]: each turn drops a whole entry. *)
Fixpoint GwritePerTarget_walk (fuel : nat) (rest : FrameBytes) : option unit :=
  if FrameBytes_is_empty rest then Some tt
  else
    match fuel with
    | O => None
    | S fuel' =>
        c ← FrameBytes_u8_at rest 3;
        let skip := (4 + Z.to_nat c)%nat in
        n ← checked_sub (FrameBytes_len rest) skip;
        rest' ← FrameBytes_sub rest skip n;
        GwritePerTarget_walk fuel' rest'
    end.

Definition GwritePerTarget_parse (payload : FrameBytes) : option FrameBytes :=
  if FrameBytes_is_empty payload then None
  else _ ← GwritePerTarget_walk (FrameBytes_len payload) payload; Some payload.

Definition GwritePerTargetIter_next (rest : FrameBytes) : option (GwriteTarget * FrameBytes) :=
  if Nat.ltb (FrameBytes_len rest) 4 then None
  else
    id ← FrameBytes_u8_at rest 0;
    addr ← FrameBytes_u16_le_at rest 1;
    c ← FrameBytes_u8_at rest 3;
    let count := Z.to_nat c in
    data ← FrameBytes_sub rest 4 count;
    rest' ← FrameBytes_sub rest (4 + count) (FrameBytes_len rest - (4 + count));
    Some (mkGwriteTarget id addr data, rest').

Definition GwritePerTarget_iter (entries : FrameBytes) : list GwriteTarget :=
  iter_run GwritePerTargetIter_next (FrameBytes_len entries) entries.

Definition GwritePerTarget_find (entries : FrameBytes) (id : Id) : option GwriteTarget :=
  p ← find_first (fun t => gw_id t =? id) 0 (GwritePerTarget_iter entries); Some p.2.

(** ** Lemmas: iterators *)

Lemma iter_run_encoded {A B} (next : FrameBytes -> option (A * FrameBytes))
    (den : A -> B) (enc : B -> list Z) (P : B -> Prop) :
  (forall f x rest, P x -> FrameBytes_bytes f = enc x ++ rest ->
     exists a g, next f = Some (a, g) /\ den a = x /\ FrameBytes_bytes g = rest) ->
  (forall x, (0 < length (enc x))%nat) ->
  (forall f, FrameBytes_bytes f = [] -> next f = None) ->
  forall xs f n, Forall P xs -> FrameBytes_bytes f = concat (enc <$> xs) ->
    (FrameBytes_len f <= n)%nat -> den <$> iter_run next n f = xs.
Proof.
  intros Hnext Hpos Hnil xs f n HP. revert f n.
  induction HP as [|x xs Hx HP IH]; intros f n E Hn.
  - destruct n; simpl; [done|]. by rewrite Hnil.
  - simpl in E. rewrite FrameBytes_len_spec, E, length_app in Hn. specialize (Hpos x).
    destruct n as [|n]; [lia|]. simpl.
    destruct (Hnext f x _ Hx E) as (a & g & -> & Ha & Hg). simpl. rewrite Ha. f_equal.
    apply IH; [done|]. rewrite FrameBytes_len_spec, Hg. lia.
Qed.

Lemma iter_run_rel {S A} (R : relation S) (RA : relation A) next :
  (forall s s', R s s' -> option_Forall2 (prod_relation RA R) (next s) (next s')) ->
  forall n s s', R s s' -> Forall2 RA (iter_run next n s) (iter_run next n s').
Proof.
  intros Hn n. induction n as [|n IH]; intros s s' HR; simpl; [done|].
  destruct (Hn s s' HR) as [[x t] [x' t'] [Hx Ht]|]; constructor; [done|]. by apply IH.
Qed.

Lemma find_first_fmap {A B} (den : A -> B) p l i :
  find_first p i (den <$> l) = (fun q => (q.1, den q.2)) <$> find_first (fun a => p (den a)) i l.
Proof. revert i. induction l as [|x l IH]; intros i; simpl; [done|]. destruct (p (den x)); [done|]. apply IH. Qed.

Lemma find_first_rel {A} (RA : relation A) p l l' i :
  (forall x y, RA x y -> p x = p y) -> Forall2 RA l l' ->
  option_Forall2 (prod_relation (=) RA) (find_first p i l) (find_first p i l').
Proof.
  intros Hp H. revert i. induction H as [|x y l l' Hxy H IH]; intros i; simpl; [constructor|].
  rewrite (Hp x y Hxy). destruct (p y); [by constructor|]. apply IH.
Qed.

(** What [find_first] returns: the first index whose element satisfies [p]. *)
Lemma find_first_Some {A} (p : A -> bool) l i j x :
  find_first p i l = Some (j, x) ->
  (i <= j)%nat /\ l !! (j - i)%nat = Some x /\ p x = true /\
  forall k y, (k < j - i)%nat -> l !! k = Some y -> p y = false.
Proof.
  revert i. induction l as [|y l IH]; intros i H; simpl in H; [done|].
  destruct (p y) eqn:Py.
  - simplify_eq. rewrite Nat.sub_diag. split; [lia|]. split; [done|]. split; [done|]. lia.
  - apply IH in H as (Hle & Hl & Hp & Hb).
    replace (j - i)%nat with (S (j - S i)) by lia. split; [lia|]. split; [done|]. split; [done|].
    intros [|k] z Hk Hz; simpl in Hz; [congruence|]. apply (Hb k); [lia|done].
Qed.

Lemma strip_stride_mod fuel rem stride :
  (0 < stride)%nat -> (rem <= fuel)%nat -> strip_stride fuel rem stride = (rem mod stride)%nat.
Proof.
  intros Hs. revert rem. induction fuel as [|fuel IH]; intros rem Hf; simpl.
  - assert (rem = 0%nat) as -> by lia. by rewrite Nat.mod_small.
  - destruct (Nat.leb stride rem) eqn:E; zbool.
    + rewrite IH by lia. rewrite <- (Nat.Div0.mod_add (rem - stride) 1 stride). f_equal. lia.
    + by rewrite Nat.mod_small.
Qed.

(** ** Encodings of the entries *)

Definition enc_gread (t : GreadTarget) : list Z :=
  gt_id t :: to_le16 (gt_addr t) ++ to_le16 (gt_count t).
Definition enc_gread_profile (t : GreadProfileTarget) : list Z := [gp_id t; gp_slot t].
Definition enc_gwrite_uniform (e : Id * list Z) : list Z := e.1 :: e.2.
Definition enc_gwrite (e : Id * Z * list Z) : list Z :=
  e.1.1 :: to_le16 e.1.2 ++ Z.of_nat (length e.2) :: e.2.

Definition den_uniform (e : Id * FrameBytes) : Id * list Z := (e.1, FrameBytes_bytes e.2).
Definition den_gwrite (t : GwriteTarget) : Id * Z * list Z :=
  (gw_id t, gw_addr t, FrameBytes_bytes (gw_data t)).

Lemma FrameBytes_sub_cut f (a x c : list Z) k n :
  FrameBytes_bytes f = a ++ x ++ c -> k = length a -> n = length x ->
  exists g, FrameBytes_sub f k n = Some g /\ FrameBytes_bytes g = x.
Proof.
  intros E -> ->. destruct (FrameBytes_sub_is_Some f (length a) (length x)) as [g Hg].
  { rewrite FrameBytes_len_spec, E, !length_app. lia. }
  exists g. split; [done|]. apply FrameBytes_sub_Some in Hg as [_ ->].
  by rewrite E, drop_app_length, take_app_length.
Qed.

Lemma FrameBytes_sub_tail f (a x : list Z) k n :
  FrameBytes_bytes f = a ++ x -> k = length a -> n = (FrameBytes_len f - k)%nat ->
  exists g, FrameBytes_sub f k n = Some g /\ FrameBytes_bytes g = x.
Proof.
  intros E -> ->. apply (FrameBytes_sub_cut f a x []); [by rewrite app_nil_r|done|].
  rewrite FrameBytes_len_spec, E, length_app. lia.
Qed.

(** An entry's head and tail views, resolved together. *)
Ltac next_entry f E hd rest k :=
  assert (Nat.ltb (FrameBytes_len f) k = false) as ->
    by (apply Nat.ltb_ge; rewrite FrameBytes_len_spec, E; simpl; rewrite ?length_app; simpl; lia);
  let g := fresh "g" in let Hg := fresh "Hg" in
  destruct (FrameBytes_sub_tail f hd rest k (FrameBytes_len f - k) E) as (g & -> & Hg);
    [simpl; rewrite ?length_app; simpl; lia|done|];
  rewrite ?FrameBytes_u8_at_spec, ?FrameBytes_u16_le_at_spec, ?E; simpl.

Definition gread_ok (t : GreadTarget) : Prop := is_u16 (gt_addr t) /\ is_u16 (gt_count t).

Lemma GreadPerTarget_iter_enc ts f :
  Forall gread_ok ts -> FrameBytes_bytes f = concat (enc_gread <$> ts) ->
  GreadPerTarget_iter f = ts.
Proof.
  intros Hts E. unfold GreadPerTarget_iter.
  rewrite <- (list_fmap_id (iter_run _ _ _)).
  apply (iter_run_encoded _ id enc_gread gread_ok); [|intros []; simpl; lia|by intros g Hg; unfold GreadPerTargetIter_next; rewrite FrameBytes_len_spec, Hg|done..].
  clear. intros f [id addr count] rest [Ha Hc] E. unfold GreadPerTargetIter_next.
  next_entry f E (enc_gread (mkGreadTarget id addr count)) rest 5%nat.
  eexists _, _. simpl in *. by rewrite !from_to_le16.
Qed.

Lemma GreadProfilePerTarget_iter_enc ts f :
  FrameBytes_bytes f = concat (enc_gread_profile <$> ts) ->
  GreadProfilePerTarget_iter f = ts.
Proof.
  intros E. unfold GreadProfilePerTarget_iter.
  rewrite <- (list_fmap_id (iter_run _ _ _)).
  apply (iter_run_encoded _ id enc_gread_profile (fun _ => True));
    [|intros []; simpl; lia|by intros g Hg; unfold GreadProfilePerTargetIter_next;
       rewrite FrameBytes_len_spec, Hg|by apply Forall_true|done..].
  clear. intros f [id slot] rest _ E. unfold GreadProfilePerTargetIter_next.
  next_entry f E (enc_gread_profile (mkGreadProfileTarget id slot)) rest 2%nat.
  by eexists _, _.
Qed.

Lemma GwriteUniform_iter_enc g es :
  0 < gwu_count g ->
  Forall (fun e : Id * list Z => Z.of_nat (length e.2) = gwu_count g) es ->
  FrameBytes_bytes (gwu_entries g) = concat (enc_gwrite_uniform <$> es) ->
  den_uniform <$> GwriteUniform_iter g = es.
Proof.
  intros Hc Hes E. unfold GwriteUniform_iter.
  apply (iter_run_encoded _ den_uniform enc_gwrite_uniform
           (fun e => Z.of_nat (length e.2) = gwu_count g));
    [|intros []; simpl; lia|by intros f Hf; unfold GwriteUniformIter_next;
       rewrite FrameBytes_len_spec, Hf|done..].
  clear E Hes. intros f [id data] rest Hl E. simpl in Hl. unfold GwriteUniformIter_next.
  assert (1 + Z.to_nat (gwu_count g) = S (length data))%nat as -> by lia.
  next_entry f E (enc_gwrite_uniform (id, data)) rest (S (length data)).
  destruct (FrameBytes_sub_cut f [id] data rest 1 (S (length data) - 1) E) as (d & Hd & Ed);
    [done|lia|]. simpl in Hd. rewrite Nat.sub_0_r in *. rewrite Hd. simpl.
  eexists _, _. split; [done|]. unfold den_uniform. simpl. by rewrite Ed.
Qed.

Definition gwrite_ok (e : Id * Z * list Z) : Prop := is_u16 e.1.2 /\ (length e.2 < 256)%nat.

Lemma GwritePerTarget_iter_enc es f :
  Forall gwrite_ok es -> FrameBytes_bytes f = concat (enc_gwrite <$> es) ->
  den_gwrite <$> GwritePerTarget_iter f = es.
Proof.
  intros Hes E. unfold GwritePerTarget_iter.
  apply (iter_run_encoded _ den_gwrite enc_gwrite gwrite_ok);
    [|intros [[]]; simpl; lia|by intros g Hg; unfold GwritePerTargetIter_next;
       rewrite FrameBytes_len_spec, Hg|done..].
  clear. intros f [[id addr] data] rest [Ha Hl] E. unfold GwritePerTargetIter_next. simpl in *.
  assert (Nat.ltb (FrameBytes_len f) 4 = false) as ->
    by (apply Nat.ltb_ge; rewrite FrameBytes_len_spec, E; simpl; lia).
  rewrite !FrameBytes_u8_at_spec, FrameBytes_u16_le_at_spec, E. simpl. rewrite Nat2Z.id.
  destruct (FrameBytes_sub_cut f [id; addr mod 256; (addr / 256) mod 256; Z.of_nat (length data)]
    data rest 4 (length data) E eq_refl eq_refl) as (d & -> & Hd). simpl.
  destruct (FrameBytes_sub_tail f (enc_gwrite (id, addr, data)) rest (4 + length data)
    (FrameBytes_len f - (4 + length data)) E eq_refl eq_refl) as (g & Hg & Eg). simpl in Hg.
  rewrite Hg. simpl. eexists _, _. split; [done|]. unfold den_gwrite; simpl.
  by rewrite from_to_le16, Hd.
Qed.

Lemma GwritePerTarget_walk_enc es f n :
  Forall gwrite_ok es -> FrameBytes_bytes f = concat (enc_gwrite <$> es) ->
  (FrameBytes_len f <= n)%nat -> GwritePerTarget_walk n f = Some tt.
Proof.
  intros Hes. revert f n. induction Hes as [|[[id addr] data] es [Ha Hl] Hes IH]; intros f n E Hn.
  { destruct n; simpl; by rewrite FrameBytes_is_empty_spec, E. }
  simpl in Ha, Hl. rewrite fmap_cons, concat_cons in E.
  rewrite FrameBytes_len_spec, E, length_app in Hn. simpl in Hn.
  destruct n as [|n]; [lia|]. simpl. rewrite FrameBytes_is_empty_spec, FrameBytes_u8_at_spec, E.
  simpl. rewrite Nat2Z.id.
  assert (checked_sub (FrameBytes_len f) (4 + length data) =
    Some (FrameBytes_len f - (4 + length data))%nat) as C.
  { apply checked_sub_Some. rewrite FrameBytes_len_spec, E, length_app. simpl. lia. }
  simpl in C. rewrite C. simpl.
  destruct (FrameBytes_sub_tail f (enc_gwrite (id, addr, data)) _ (4 + length data)
    (FrameBytes_len f - (4 + length data)) E eq_refl eq_refl) as (g & Hg & Eg). simpl in Hg.
  rewrite Hg. simpl. apply IH; [done|]. rewrite FrameBytes_len_spec, Eg. lia.
Qed.
