(* ===== verification/Build.v ===== *)
(** * Payload builders (firmware/lib/osc-protocol/src/build.rs)

    The encode mirror of the parsers.  A builder takes the caller's buffer and
    either refuses ([None], buffer untouched) or returns the payload length and
    the written buffer.  The theorems state the module's own contract: a built
    payload always round-trips through its parser, whatever seam the receiver
    reads it across. *)

From S2P Require Import Prelude FrameBytes Wire Frame Group.

Definition build_cap (dst : list Z) : nat := Nat.min (length dst) (Z.to_nat MAX_PAYLOAD).

Definition build_read (dst : list Z) (addr count : Z) : option (nat * list Z) :=
  if Nat.ltb (build_cap dst) 4 then None
  else Some (4%nat, splice 2 (to_le16 count) (splice 0 (to_le16 addr) dst)).

Definition build_read_profile (dst : list Z) (slot : Z) : option (nat * list Z) :=
  if Nat.ltb (build_cap dst) 1 then None else Some (1%nat, splice 0 [slot] dst).

Definition build_write (dst : list Z) (addr : Z) (data : list Z) : option (nat * list Z) :=
  let total := (2 + length data)%nat in
  if Nat.ltb (build_cap dst) total then None
  else Some (total, splice 2 data (splice 0 (to_le16 addr) dst)).

Definition build_gread_uniform (dst : list Z) (addr count : Z) (ids : list Id) :
    option (nat * list Z) :=
  let total := (4 + length ids)%nat in
  if Nat.eqb (length ids) 0 || Nat.ltb (build_cap dst) total then None
  else
    '(_, dst) ← build_read dst addr count;
    Some (total, splice 4 ids dst).

(** The [as_chunks_mut().zip(targets)] loop: one entry per chunk. *)
Fixpoint write_chunks {A} (enc : A -> list Z) (at_ : nat) (ts : list A) (dst : list Z) : list Z :=
  match ts with
  | [] => dst
  | t :: ts' => write_chunks enc (at_ + length (enc t)) ts' (splice at_ (enc t) dst)
  end.

Definition build_gread_per_target (dst : list Z) (ts : list GreadTarget) : option (nat * list Z) :=
  let total := (5 * length ts)%nat in
  if Nat.eqb (length ts) 0 || Nat.ltb (build_cap dst) total then None
  else Some (total, write_chunks enc_gread 0 ts dst).

Definition build_gread_profile_uniform (dst : list Z) (slot : Z) (ids : list Id) :
    option (nat * list Z) :=
  let total := (1 + length ids)%nat in
  if Nat.eqb (length ids) 0 || Nat.ltb (build_cap dst) total then None
  else Some (total, splice 1 ids (splice 0 [slot] dst)).

Definition build_gread_profile_per_target (dst : list Z) (ts : list GreadProfileTarget) :
    option (nat * list Z) :=
  let total := (2 * length ts)%nat in
  if Nat.eqb (length ts) 0 || Nat.ltb (build_cap dst) total then None
  else Some (total, write_chunks enc_gread_profile 0 ts dst).

(** ** Incremental GWRITE builders *)

Record BGwriteUniform := mkBGU { bgu_dst : list Z; bgu_len : nat; bgu_count : Z }.

Definition BGwriteUniform_new (dst : list Z) (addr count : Z) : option BGwriteUniform :=
  if (count =? 0) || Nat.ltb (build_cap dst) 3 then None
  else Some (mkBGU (splice 2 [count] (splice 0 (to_le16 addr) dst)) 3 count).

Definition BGwriteUniform_push (b : BGwriteUniform) (id : Id) (data : list Z) :
    option BGwriteUniform :=
  if negb (Z.of_nat (length data) =? bgu_count b) then None
  else
    let end_ := (bgu_len b + 1 + length data)%nat in
    if Nat.ltb (build_cap (bgu_dst b)) end_ then None
    else Some (mkBGU (splice (bgu_len b + 1) data (splice (bgu_len b) [id] (bgu_dst b)))
                 end_ (bgu_count b)).

Definition BGwriteUniform_finish (b : BGwriteUniform) : option nat :=
  if Nat.ltb 3 (bgu_len b) then Some (bgu_len b) else None.

Record BGwritePerTarget := mkBGP { bgp_dst : list Z; bgp_len : nat }.

Definition BGwritePerTarget_new (dst : list Z) : BGwritePerTarget := mkBGP dst 0.

Definition BGwritePerTarget_push (b : BGwritePerTarget) (id : Id) (addr : Z) (data : list Z) :
    option BGwritePerTarget :=
  if Nat.ltb 255 (length data) then None
  else
    let end_ := (bgp_len b + 4 + length data)%nat in
    if Nat.ltb (build_cap (bgp_dst b)) end_ then None
    else Some (mkBGP (splice (bgp_len b) (enc_gwrite (id, addr, data)) (bgp_dst b)) end_).

Definition BGwritePerTarget_finish (b : BGwritePerTarget) : option nat :=
  if Nat.ltb 0 (bgp_len b) then Some (bgp_len b) else None.

(** ** MGMT builders *)

Definition build_mgmt (dst : list Z) (op : MgmtOp) : option (nat * list Z) :=
  if Nat.ltb (build_cap dst) 1 then None else Some (1%nat, splice 0 [MgmtOp_as_u8 op] dst).

(** [prefix] is a 16-byte array; [&prefix[..n]] is in range since [n <= 16]. *)
Definition build_mgmt_enum (dst : list Z) (prefix_len : Z) (prefix : list Z) :
    option (nat * list Z) :=
  if 128 <? prefix_len then None
  else
    let n := div_ceil8 prefix_len in
    let total := (2 + n)%nat in
    if Nat.ltb (build_cap dst) total then None
    else Some (total, splice 2 (take n prefix)
                        (splice 1 [prefix_len] (splice 0 [MgmtOp_as_u8 MoEnum] dst))).

Definition build_mgmt_assign (dst : list Z) (uid : list Z) (new_id : Z) : option (nat * list Z) :=
  let total := (2 + UID_LEN)%nat in
  if Nat.ltb (build_cap dst) total then None
  else Some (total, splice (1 + UID_LEN) [new_id] (splice 1 uid
                      (splice 0 [MgmtOp_as_u8 MoAssign] dst))).

Definition build_mgmt_cal (dst : list Z) (gap_us gaps : Z) : option (nat * list Z) :=
  if (gap_us =? 0) || (gaps =? 0) || Nat.ltb (build_cap dst) 4 then None
  else Some (4%nat, splice 3 [gaps] (splice 1 (to_le16 gap_us)
                      (splice 0 [MgmtOp_as_u8 MoCal] dst))).

(** ** Lemmas *)

(** The payload a builder reports: the first [n] bytes of the buffer. *)
Definition built (r : nat * list Z) : list Z := take r.1 r.2.

Lemma take_splice (n : nat) (s dst : list Z) :
  n = length s -> (length s <= length dst)%nat -> take n (splice 0 s dst) = s.
Proof. intros -> H. unfold splice. simpl. apply take_app_length. Qed.

Lemma splice_cat (a : nat) (s1 s2 dst : list Z) :
  a = length s1 -> (length s1 + length s2 <= length dst)%nat ->
  splice a s2 (splice 0 s1 dst) = splice 0 (s1 ++ s2) dst.
Proof. intros -> H. by apply (splice_app 0). Qed.

Lemma build_cap_le dst n : (n <= build_cap dst)%nat -> (n <= length dst)%nat /\ (n <= 252)%nat.
Proof. unfold build_cap, MAX_PAYLOAD. lia. Qed.

Lemma write_chunks_eq {A} (enc : A -> list Z) at_ ts dst :
  (at_ + length (concat (enc <$> ts)) <= length dst)%nat ->
  write_chunks enc at_ ts dst = splice at_ (concat (enc <$> ts)) dst.
Proof.
  revert at_ dst. induction ts as [|t ts IH]; intros at_ dst H.
  { symmetry. apply splice_nil. }
  rewrite fmap_cons, concat_cons in *. cbn [write_chunks].
  rewrite length_app in H. rewrite IH by (rewrite length_splice by lia; lia).
  apply splice_app. lia.
Qed.

Lemma concat_fmap_length {A} (enc : A -> list Z) k ts :
  (forall t, length (enc t) = k) -> length (concat (enc <$> ts)) = (k * length ts)%nat.
Proof. intros H. induction ts as [|t ts IH]; [simpl; lia|].
  rewrite fmap_cons, concat_cons, length_app, H, IH. simpl. lia. Qed.

(** Open a builder's result: its gate, then the payload as one byte string. *)
Ltac built_open :=
  let H := fresh "H" in
  intros H; repeat case_hyp H; simplify_eq; zbool;
  repeat match goal with H : (_ <= build_cap _)%nat |- _ => apply build_cap_le in H as [? ?] end;
  unfold built; cbn [fst snd]; unfold Id in *.

Ltac built_done :=
  repeat (rewrite splice_cat by (simpl; rewrite ?length_app; simpl; lia));
  rewrite take_splice by (simpl; rewrite ?length_app; simpl; lia);
  rewrite <- ?app_assoc; try done.

Lemma build_read_built dst addr count r :
  build_read dst addr count = Some r -> built r = to_le16 addr ++ to_le16 count.
Proof. unfold build_read. built_open. built_done. Qed.


Lemma build_read_profile_built dst slot r :
  build_read_profile dst slot = Some r -> built r = [slot].
Proof. unfold build_read_profile. built_open. built_done. Qed.

Lemma build_write_built dst addr data r :
  build_write dst addr data = Some r -> built r = to_le16 addr ++ data.
Proof. unfold build_write. built_open. built_done. Qed.

Lemma build_gread_uniform_built dst addr count ids r :
  build_gread_uniform dst addr count ids = Some r ->
  built r = to_le16 addr ++ to_le16 count ++ ids /\ ids <> [].
Proof.
  unfold build_gread_uniform. intros H. case_hyp H; [done|]. unfold build_read in H.
  case_hyp H; cbn [mbind option_bind] in H; [done|]. revert H. built_open.
  split; [built_done|by destruct ids].
Qed.

Lemma build_gread_per_target_built dst ts r :
  build_gread_per_target dst ts = Some r ->
  built r = concat (enc_gread <$> ts) /\ ts <> [].
Proof.
  unfold build_gread_per_target. built_open.
  pose proof (concat_fmap_length enc_gread 5 ts ltac:(by intros [])) as L.
  rewrite write_chunks_eq by lia. split; [by rewrite take_splice by lia|by destruct ts].
Qed.

Lemma build_gread_profile_uniform_built dst slot ids r :
  build_gread_profile_uniform dst slot ids = Some r -> built r = slot :: ids /\ ids <> [].
Proof.
  unfold build_gread_profile_uniform. built_open. split; [built_done|by destruct ids].
Qed.

Lemma build_gread_profile_per_target_built dst ts r :
  build_gread_profile_per_target dst ts = Some r ->
  built r = concat (enc_gread_profile <$> ts) /\ ts <> [].
Proof.
  unfold build_gread_profile_per_target. built_open.
  pose proof (concat_fmap_length enc_gread_profile 2 ts ltac:(by intros [])) as L.
  rewrite write_chunks_eq by lia. split; [by rewrite take_splice by lia|by destruct ts].
Qed.

Lemma build_mgmt_built dst op r : build_mgmt dst op = Some r -> built r = [MgmtOp_as_u8 op].
Proof. unfold build_mgmt. built_open. built_done. Qed.

Lemma build_mgmt_enum_built dst pl prefix r :
  length prefix = UID_LEN -> build_mgmt_enum dst pl prefix = Some r ->
  built r = MgmtOp_as_u8 MoEnum :: pl :: take (div_ceil8 pl) prefix /\ pl <= 128.
Proof.
  unfold build_mgmt_enum. intros L. built_open.
  pose proof (div_ceil8_le pl ltac:(lia)). split; [|lia].
  assert (length (take (div_ceil8 pl) prefix) = div_ceil8 pl) as E by (rewrite length_take; lia).
  repeat (rewrite splice_cat by (simpl; rewrite ?length_app, ?E; simpl; lia)).
  by rewrite take_splice by (simpl; rewrite ?E; simpl; lia).
Qed.

Lemma build_mgmt_assign_built dst uid new_id r :
  length uid = UID_LEN -> build_mgmt_assign dst uid new_id = Some r ->
  built r = MgmtOp_as_u8 MoAssign :: uid ++ [new_id].
Proof. unfold build_mgmt_assign, UID_LEN. intros L. built_open. built_done. Qed.

Lemma build_mgmt_cal_built dst gap gaps r :
  build_mgmt_cal dst gap gaps = Some r ->
  built r = MgmtOp_as_u8 MoCal :: to_le16 gap ++ [gaps] /\ gap <> 0 /\ gaps <> 0.
Proof. unfold build_mgmt_cal. built_open. split; [built_done|done]. Qed.

(** ** One-shot requests: build, then parse

    [WireRequest] names what a one-shot builder was asked to encode, [build_request]
    dispatches to the builder and [reads_back] says what the receiver's parser
    must then return. *)

Inductive WireRequest :=
| RqRead (addr count : Z)
| RqReadProfile (slot : Z)
| RqWrite (addr : Z) (data : list Z)
| RqGreadUniform (addr count : Z) (ids : list Id)
| RqGreadPerTarget (ts : list GreadTarget)
| RqGreadProfileUniform (slot : Z) (ids : list Id)
| RqGreadProfilePerTarget (ts : list GreadProfileTarget)
| RqMgmt (op : MgmtOp)
| RqEnum (prefix_len : Z) (prefix : list Z)
| RqAssign (uid : list Z) (new_id : Z)
| RqCal (gap_us gaps : Z).

Definition build_request (dst : list Z) (r : WireRequest) : option (nat * list Z) :=
  match r with
  | RqRead addr count => build_read dst addr count
  | RqReadProfile slot => build_read_profile dst slot
  | RqWrite addr data => build_write dst addr data
  | RqGreadUniform addr count ids => build_gread_uniform dst addr count ids
  | RqGreadPerTarget ts => build_gread_per_target dst ts
  | RqGreadProfileUniform slot ids => build_gread_profile_uniform dst slot ids
  | RqGreadProfilePerTarget ts => build_gread_profile_per_target dst ts
  | RqMgmt op => build_mgmt dst op
  | RqEnum pl prefix => build_mgmt_enum dst pl prefix
  | RqAssign uid new_id => build_mgmt_assign dst uid new_id
  | RqCal gap gaps => build_mgmt_cal dst gap gaps
  end.

(** The Rust argument types: widths and array lengths. *)
Definition request_typed (r : WireRequest) : Prop :=
  match r with
  | RqRead addr count | RqGreadUniform addr count _ => is_u16 addr /\ is_u16 count
  | RqWrite addr _ => is_u16 addr
  | RqGreadPerTarget ts => Forall gread_ok ts
  | RqEnum _ prefix => length prefix = UID_LEN
  | RqAssign uid _ => length uid = UID_LEN
  | RqCal gap _ => is_u16 gap
  | _ => True
  end.

(** The MGMT sub-op and its argument view, as the responder splits them. *)
Definition mgmt_args (f : FrameBytes) (op : MgmtOp) (P : FrameBytes -> Prop) : Prop :=
  exists args, MgmtReq_parse f = Some (mkMgmtReq op args) /\ P args.

Definition reads_back (r : WireRequest) (f : FrameBytes) : Prop :=
  match r with
  | RqRead addr count => ReadReq_parse f = Some (mkReadReq addr count)
  | RqReadProfile slot => ProfileReq_parse f = Some (mkProfileReq slot)
  | RqWrite addr data =>
      exists d, WriteReq_parse f = Some (mkWriteReq addr d) /\ FrameBytes_bytes d = data
  | RqGreadUniform addr count ids =>
      exists v, GreadUniform_parse f = Some (mkGreadUniform addr count v) /\ FrameBytes_bytes v = ids
  | RqGreadPerTarget ts => GreadPerTarget_parse f = Some f /\ GreadPerTarget_iter f = ts
  | RqGreadProfileUniform slot ids =>
      exists v, GreadProfileUniform_parse f = Some (mkGreadProfileUniform slot v) /\
                FrameBytes_bytes v = ids
  | RqGreadProfilePerTarget ts =>
      GreadProfilePerTarget_parse f = Some f /\ GreadProfilePerTarget_iter f = ts
  | RqMgmt op => mgmt_args f op (fun a => FrameBytes_bytes a = [])
  | RqEnum pl prefix =>
      mgmt_args f MoEnum (fun a => EnumReq_parse a =
        Some (mkEnumReq pl (take (div_ceil8 pl) prefix ++ replicate (UID_LEN - div_ceil8 pl) 0)))
  | RqAssign uid new_id =>
      mgmt_args f MoAssign (fun a => AssignReq_parse a = Some (mkAssignReq uid new_id))
  | RqCal gap gaps => mgmt_args f MoCal (fun a => CalReq_parse a = Some (mkCalReq gap gaps))
  end.

Lemma mgmt_args_intro f op rest (P : FrameBytes -> Prop) :
  FrameBytes_bytes f = MgmtOp_as_u8 op :: rest ->
  (forall a, FrameBytes_bytes a = rest -> P a) -> mgmt_args f op P.
Proof.
  intros E HP. pose proof (MgmtReq_parse_spec f) as S. rewrite E, MgmtOp_roundtrip in S.
  destruct S as (g & Hg & Eg). exists g. split; [done|]. by apply HP.
Qed.

Lemma gread_entries_parse f ts : ts <> [] -> FrameBytes_bytes f = concat (enc_gread <$> ts) ->
  GreadPerTarget_parse f = Some f.
Proof.
  intros Hne E. unfold GreadPerTarget_parse. rewrite FrameBytes_is_empty_spec, FrameBytes_len_spec, E.
  rewrite (concat_fmap_length enc_gread 5) by (by intros []).
  rewrite Nat.mul_comm, Nat.Div0.mod_mul. by destruct ts as [|[]].
Qed.

Lemma gread_profile_entries_parse f ts :
  ts <> [] -> FrameBytes_bytes f = concat (enc_gread_profile <$> ts) ->
  GreadProfilePerTarget_parse f = Some f.
Proof.
  intros Hne E. unfold GreadProfilePerTarget_parse.
  rewrite FrameBytes_is_empty_spec, FrameBytes_len_spec, E.
  rewrite (concat_fmap_length enc_gread_profile 2) by (by intros []).
  rewrite Nat.mul_comm, Nat.Div0.mod_mul. by destruct ts as [|[]].
Qed.

Lemma GreadUniform_parse_enc f addr count ids :
  is_u16 addr -> is_u16 count -> ids <> [] ->
  FrameBytes_bytes f = to_le16 addr ++ to_le16 count ++ ids ->
  exists v, GreadUniform_parse f = Some (mkGreadUniform addr count v) /\ FrameBytes_bytes v = ids.
Proof.
  intros Ha Hc Hne E. unfold GreadUniform_parse.
  rewrite !FrameBytes_u16_le_at_spec, E. simpl. rewrite !from_to_le16 by done.
  assert (checked_sub (FrameBytes_len f) 4 = Some (length ids)) as C.
  { apply checked_sub_Some. rewrite FrameBytes_len_spec, E. simpl. lia. }
  rewrite C. simpl. destruct (FrameBytes_sub_rest _ _ _ C) as (g & -> & Eg). simpl.
  rewrite E in Eg. simpl in Eg. rewrite drop_0 in Eg.
  rewrite FrameBytes_is_empty_spec, Eg. destruct ids; [done|]. by exists g.
Qed.

Lemma GreadProfileUniform_parse_enc f slot ids :
  ids <> [] -> FrameBytes_bytes f = slot :: ids ->
  exists v, GreadProfileUniform_parse f = Some (mkGreadProfileUniform slot v) /\
            FrameBytes_bytes v = ids.
Proof.
  intros Hne E. unfold GreadProfileUniform_parse. rewrite FrameBytes_u8_at_spec, E. simpl.
  assert (checked_sub (FrameBytes_len f) 1 = Some (length ids)) as C.
  { apply checked_sub_Some. rewrite FrameBytes_len_spec, E. simpl. lia. }
  rewrite C. simpl. destruct (FrameBytes_sub_rest _ _ _ C) as (g & -> & Eg). simpl.
  rewrite E in Eg. simpl in Eg. rewrite drop_0 in Eg.
  rewrite FrameBytes_is_empty_spec, Eg. destruct ids; [done|]. by exists g.
Qed.

Lemma enum_args_parse a pl prefix :
  pl <= 128 -> length prefix = UID_LEN -> FrameBytes_bytes a = pl :: take (div_ceil8 pl) prefix ->
  EnumReq_parse a =
    Some (mkEnumReq pl (take (div_ceil8 pl) prefix ++ replicate (UID_LEN - div_ceil8 pl) 0)).
Proof.
  intros Hp L E. rewrite EnumReq_parse_spec, E. pose proof (div_ceil8_le pl Hp).
  rewrite length_take, L. replace (div_ceil8 pl `min` UID_LEN)%nat with (div_ceil8 pl) by lia.
  unfold MAX_PREFIX_BITS. rewrite Nat.eqb_refl. by rewrite (proj2 (Z.leb_le pl 128) Hp).
Qed.

Lemma assign_args_parse a uid new_id :
  length uid = UID_LEN -> FrameBytes_bytes a = uid ++ [new_id] ->
  AssignReq_parse a = Some (mkAssignReq uid new_id).
Proof.
  unfold UID_LEN. intros L E. rewrite AssignReq_parse_spec, E, length_app, L. simpl.
  rewrite lookup_app_r, L by lia. simpl. by rewrite <- L, take_app_length.
Qed.

Lemma cal_args_parse a gap gaps :
  is_u16 gap -> gap <> 0 -> gaps <> 0 -> FrameBytes_bytes a = to_le16 gap ++ [gaps] ->
  CalReq_parse a = Some (mkCalReq gap gaps).
Proof.
  intros Hg H1 H2 E. unfold CalReq_parse.
  rewrite FrameBytes_len_spec, FrameBytes_u16_le_at_spec, FrameBytes_u8_at_spec, E.
  simpl. rewrite from_to_le16 by done. by rewrite (proj2 (Z.eqb_neq _ _) H1), (proj2 (Z.eqb_neq _ _) H2).
Qed.

Lemma request_reads_back dst r n buf f :
  request_typed r -> build_request dst r = Some (n, buf) ->
  FrameBytes_bytes f = take n buf -> reads_back r f.
Proof.
  intros T B E. change (take n buf) with (built (n, buf)) in E.
  destruct r; simpl in *.
  - apply build_read_built in B; rewrite B in E. destruct T. unfold ReadReq_parse.
    rewrite FrameBytes_len_spec, !FrameBytes_u16_le_at_spec, E. simpl. by rewrite !from_to_le16.
  - apply build_read_profile_built in B; rewrite B in E. unfold ProfileReq_parse.
    by rewrite FrameBytes_len_spec, FrameBytes_u8_at_spec, E.
  - apply build_write_built in B; rewrite B in E. pose proof (WriteReq_parse_spec f) as S.
    rewrite E in S. simpl in S. by rewrite from_to_le16 in S.
  - apply build_gread_uniform_built in B as [B ?]; rewrite B in E. destruct T. by apply GreadUniform_parse_enc.
  - apply build_gread_per_target_built in B as [B ?]; rewrite B in E.
    split; [by eapply gread_entries_parse|by apply GreadPerTarget_iter_enc].
  - apply build_gread_profile_uniform_built in B as [B ?]; rewrite B in E. by apply GreadProfileUniform_parse_enc.
  - apply build_gread_profile_per_target_built in B as [B ?]; rewrite B in E.
    split; [by eapply gread_profile_entries_parse|by apply GreadProfilePerTarget_iter_enc].
  - apply build_mgmt_built in B; rewrite B in E. by eapply mgmt_args_intro.
  - apply build_mgmt_enum_built in B as [B ?]; [|done]; rewrite B in E.
    eapply mgmt_args_intro; [done|]. intros a. by apply enum_args_parse.
  - apply build_mgmt_assign_built in B; [|done]; rewrite B in E.
    eapply mgmt_args_intro; [done|]. intros a. by apply assign_args_parse.
  - apply build_mgmt_cal_built in B as (B & ? & ?); rewrite B in E.
    eapply mgmt_args_intro; [done|]. intros a. by apply cal_args_parse.
Qed.

(** Every one-shot payload builder round-trips: what it reports as built,
    received across any head/tail seam of the ring, is parsed back by the
    responder's parser to exactly the request that was encoded. *)
Theorem request_roundtrip dst r n buf f :
  request_typed r -> build_request dst r = Some (n, buf) ->
  FrameBytes_bytes f = take n buf -> reads_back r f.
Proof. apply request_reads_back. Qed.

Lemma request_roundtrip_witness :
  reads_back (RqEnum 3 (5 :: replicate 15 0)) (FB [1; 3] [5]) /\
  reads_back (RqGreadPerTarget [mkGreadTarget 10 512 4]) (FB [10; 0; 2] [4; 0]).
Proof.
  split.
  - by apply (request_roundtrip (replicate 8 0) _ 3 [1; 3; 5; 0; 0; 0; 0; 0]).
  - apply (request_roundtrip (replicate 8 0) _ 5 [10; 0; 2; 4; 0; 0; 0; 0]); [|done..].
    simpl. repeat constructor; simpl; lia.
Defined.

(** ** Incremental GWRITE sessions

    The caller pushes entries one by one; a refused push leaves the builder as
    it was and the session goes on.  [accepted] is what got in. *)

Fixpoint per_target_session (b : BGwritePerTarget) (es : list (Id * Z * list Z)) :
    BGwritePerTarget * list (Id * Z * list Z) :=
  match es with
  | [] => (b, [])
  | e :: es' =>
      match BGwritePerTarget_push b e.1.1 e.1.2 e.2 with
      | Some b' => let '(b'', acc) := per_target_session b' es' in (b'', e :: acc)
      | None => per_target_session b es'
      end
  end.

Fixpoint uniform_session (b : BGwriteUniform) (es : list (Id * list Z)) :
    BGwriteUniform * list (Id * list Z) :=
  match es with
  | [] => (b, [])
  | e :: es' =>
      match BGwriteUniform_push b e.1 e.2 with
      | Some b' => let '(b'', acc) := uniform_session b' es' in (b'', e :: acc)
      | None => uniform_session b es'
      end
  end.

Lemma Forall_sublist {A} (P : A -> Prop) l1 l2 : sublist l1 l2 -> Forall P l2 -> Forall P l1.
Proof.
  intros S. induction S as [|x l1 l2 S IH|x l1 l2 S IH]; intros H; inversion H; subst; auto.
Qed.

(** Appending [s] right after the first [n] bytes. *)
Lemma take_splice_append (n : nat) (s dst : list Z) :
  (n + length s <= length dst)%nat -> take (n + length s) (splice n s dst) = take n dst ++ s.
Proof.
  intros H. unfold splice. rewrite app_assoc.
  assert (length (take n dst ++ s) = n + length s)%nat as <-
    by (rewrite length_app, length_take; lia).
  apply take_app_length.
Qed.

(** Two adjacent splices at any offset. *)
Lemma splice_adjacent (n : nat) x (s dst : list Z) :
  (n + 1 + length s <= length dst)%nat ->
  splice (n + 1) s (splice n [x] dst) = splice n (x :: s) dst.
Proof. intros H. by apply (splice_app n [x] s dst). Qed.

Definition bgp_inv (b : BGwritePerTarget) : Prop :=
  (bgp_len b <= length (bgp_dst b))%nat /\ (bgp_len b <= 252)%nat.

Lemma BGwritePerTarget_push_inv b e b' :
  BGwritePerTarget_push b e.1.1 e.1.2 e.2 = Some b' ->
  bgp_inv b' /\ (length e.2 < 256)%nat /\ (0 < bgp_len b')%nat /\
  take (bgp_len b') (bgp_dst b') = take (bgp_len b) (bgp_dst b) ++ enc_gwrite e.
Proof.
  unfold BGwritePerTarget_push, bgp_inv. intros H. repeat case_hyp H; simplify_eq/=. zbool.
  apply build_cap_le in Heqb1 as [? ?]. destruct e as [[id addr] data]; simpl in *.
  rewrite length_splice by (simpl; lia). repeat split; try lia.
  replace (bgp_len b + 4 + length data)%nat
    with (bgp_len b + length (enc_gwrite (id, addr, data)))%nat by (simpl; lia).
  apply take_splice_append. simpl. lia.
Qed.

Lemma per_target_session_inv es : forall b b' acc,
  per_target_session b es = (b', acc) ->
  take (bgp_len b') (bgp_dst b') = take (bgp_len b) (bgp_dst b) ++ concat (enc_gwrite <$> acc) /\
  sublist acc es /\ Forall (fun e => length e.2 < 256)%nat acc /\
  (acc = [] -> b' = b).
Proof.
  induction es as [|e es IH]; intros b b' acc H; simpl in H.
  { simplify_eq. simpl. rewrite app_nil_r. done. }
  destruct (BGwritePerTarget_push _ _ _ _) as [b1|] eqn:P.
  - destruct (per_target_session b1 es) as [b2 acc2] eqn:S. simplify_eq.
    apply BGwritePerTarget_push_inv in P as (_ & ? & ? & E).
    apply IH in S as (-> & ? & ? & _). rewrite E, <- app_assoc. split; [done|].
    split; [by constructor|]. split; [by constructor|]. done.
  - apply IH in H as (-> & ? & ? & ?). repeat split; try done. by constructor.
Qed.

Lemma per_target_parse_enc f es : es <> [] -> Forall gwrite_ok es ->
  FrameBytes_bytes f = concat (enc_gwrite <$> es) -> GwritePerTarget_parse f = Some f.
Proof.
  intros Hne Hes E. unfold GwritePerTarget_parse. rewrite FrameBytes_is_empty_spec, E.
  destruct es as [|[[]] es]; [done|]. simpl.
  by rewrite (GwritePerTarget_walk_enc _ _ _ Hes E).
Qed.

(** A per-target GWRITE session (any attempted pushes, refusals included)
    that finishes reports a payload the receiver parses, across any seam, to
    exactly the accepted entries in push order; it finishes iff some push was
    accepted. *)
Theorem gwrite_per_target_roundtrip dst es b acc :
  Forall (fun e : Id * Z * list Z => is_u16 e.1.2) es ->
  per_target_session (BGwritePerTarget_new dst) es = (b, acc) ->
  match BGwritePerTarget_finish b with
  | Some n => acc <> [] /\ forall f, FrameBytes_bytes f = take n (bgp_dst b) ->
      GwritePerTarget_parse f = Some f /\ den_gwrite <$> GwritePerTarget_iter f = acc
  | None => acc = []
  end.
Proof.
  intros Hes H. apply per_target_session_inv in H as (E & Hsub & Hlen & Hnil). simpl in E.
  assert (Forall gwrite_ok acc) as Hok.
  { apply List.Forall_and; [by eapply Forall_sublist|done]. }
  unfold BGwritePerTarget_finish. destruct (Nat.ltb 0 (bgp_len b)) eqn:L; zbool.
  - assert (acc <> []) as Hne. { intros ->. rewrite Hnil in L by done. simpl in L. lia. }
    split; [done|]. intros f Ef. rewrite E in Ef.
    split; [by eapply per_target_parse_enc|by apply GwritePerTarget_iter_enc].
  - assert (bgp_len b = 0)%nat as Z0 by lia. rewrite Z0 in E. simpl in E.
    destruct acc as [|[[]] acc]; done.
Qed.

Lemma gwrite_per_target_roundtrip_witness :
  let b := (per_target_session (BGwritePerTarget_new (replicate 12 0))
              [(3, 0, [170]); (9, 1, replicate 20 7); (4, 256, [1; 2])]).1 in
  den_gwrite <$> GwritePerTarget_iter (FB (take 6 (bgp_dst b)) (take 5 (drop 6 (bgp_dst b)))) =
    [(3, 0, [170]); (4, 256, [1; 2])].
Proof.
  refine (proj2 (proj2 (gwrite_per_target_roundtrip (replicate 12 0)
    [(3, 0, [170]); (9, 1, replicate 20 7); (4, 256, [1; 2])] _ _ _ eq_refl) _ _)).
  - repeat constructor; simpl; lia.
  - reflexivity.
Defined.

(** *** Uniform *)

Lemma BGwriteUniform_push_inv b e b' :
  BGwriteUniform_push b e.1 e.2 = Some b' ->
  Z.of_nat (length e.2) = bgu_count b /\ bgu_count b' = bgu_count b /\ (bgu_len b < bgu_len b')%nat /\
  take (bgu_len b') (bgu_dst b') = take (bgu_len b) (bgu_dst b) ++ enc_gwrite_uniform e.
Proof.
  unfold BGwriteUniform_push. intros H. repeat case_hyp H; simplify_eq/=. zbool.
  apply build_cap_le in Heqb1 as [? ?]. destruct e as [id data]; simpl in *.
  rewrite splice_adjacent by lia. repeat split; try lia.
  replace (bgu_len b + 1 + length data)%nat
    with (bgu_len b + length (enc_gwrite_uniform (id, data)))%nat by (simpl; lia).
  apply take_splice_append. simpl. lia.
Qed.

Lemma uniform_session_inv es : forall b b' acc,
  uniform_session b es = (b', acc) ->
  take (bgu_len b') (bgu_dst b') =
    take (bgu_len b) (bgu_dst b) ++ concat (enc_gwrite_uniform <$> acc) /\
  Forall (fun e => Z.of_nat (length e.2) = bgu_count b) acc /\
  (acc = [] -> b' = b) /\ (acc <> [] -> (bgu_len b < bgu_len b')%nat) /\
  (bgu_len b <= bgu_len b')%nat.
Proof.
  induction es as [|e es IH]; intros b b' acc H; simpl in H.
  { simplify_eq. simpl. rewrite app_nil_r. done. }
  destruct (BGwriteUniform_push _ _ _) as [b1|] eqn:P; [|by eapply IH].
  destruct (uniform_session b1 es) as [b2 acc2] eqn:S. simplify_eq.
  apply BGwriteUniform_push_inv in P as (? & C & ? & E).
  apply IH in S as (-> & Hc & _ & _ & ?). rewrite C in Hc. rewrite E, <- app_assoc.
  repeat split; try done; try lia. by constructor.
Qed.

Lemma GwriteUniform_parse_enc f addr count es :
  is_u16 addr -> 0 < count -> es <> [] ->
  Forall (fun e : Id * list Z => Z.of_nat (length e.2) = count) es ->
  FrameBytes_bytes f = to_le16 addr ++ [count] ++ concat (enc_gwrite_uniform <$> es) ->
  exists v, GwriteUniform_parse f = Some (mkGwriteUniform addr count v) /\
            FrameBytes_bytes v = concat (enc_gwrite_uniform <$> es).
Proof.
  intros Ha Hc Hne Hes E. unfold GwriteUniform_parse.
  rewrite FrameBytes_u16_le_at_spec, FrameBytes_u8_at_spec, E. simpl. rewrite from_to_le16 by done.
  rewrite (proj2 (Z.eqb_neq count 0)) by lia.
  set (enc := concat (enc_gwrite_uniform <$> es)) in *.
  assert (checked_sub (FrameBytes_len f) 3 = Some (length enc)) as C.
  { apply checked_sub_Some. rewrite FrameBytes_len_spec, E. simpl. lia. }
  rewrite C. simpl. destruct (FrameBytes_sub_rest _ _ _ C) as (g & -> & Eg). simpl.
  rewrite E in Eg. simpl in Eg. rewrite drop_0 in Eg. rewrite FrameBytes_len_spec, Eg.
  assert (length enc = S (Z.to_nat count) * length es)%nat as L.
  { subst enc. clear -Hes. induction Hes as [|[id d] es Hl _ IH]; [simpl; lia|].
    rewrite fmap_cons, concat_cons, length_app, IH. simpl in *. lia. }
  rewrite strip_stride_mod by lia. change (1 + Z.to_nat count)%nat with (S (Z.to_nat count)).
  assert (length enc mod S (Z.to_nat count) = 0)%nat as ->
    by (rewrite L, Nat.mul_comm; apply Nat.Div0.mod_mul).
  destruct (Nat.eqb (length enc) 0) eqn:Z0; [|by exists g].
  zbool. destruct es; [done|]. rewrite Z0 in L. simpl in L. lia.
Qed.

(** A uniform GWRITE session finishes iff some push was accepted (each
    accepted entry being exactly [count] bytes), and the receiver then parses
    the address, the count and exactly the accepted entries, across any seam. *)
Theorem gwrite_uniform_roundtrip dst addr count es b0 b acc :
  is_u16 addr -> is_u8 count ->
  BGwriteUniform_new dst addr count = Some b0 ->
  uniform_session b0 es = (b, acc) ->
  match BGwriteUniform_finish b with
  | Some n => acc <> [] /\ forall f, FrameBytes_bytes f = take n (bgu_dst b) ->
      exists v, GwriteUniform_parse f = Some (mkGwriteUniform addr count v) /\
                den_uniform <$> GwriteUniform_iter (mkGwriteUniform addr count v) = acc
  | None => acc = []
  end.
Proof.
  intros Ha Hc N H. unfold BGwriteUniform_new in N. repeat case_hyp N; simplify_eq. zbool.
  apply build_cap_le in H1 as [? ?].
  apply uniform_session_inv in H as (E & Hes & Hnil & Hpos & Hle). cbn [bgu_len bgu_dst bgu_count] in *.
  rewrite splice_cat in E by (simpl; lia). rewrite take_splice in E by (simpl; lia).
  unfold BGwriteUniform_finish. destruct (Nat.ltb 3 (bgu_len b)) eqn:L; zbool.
  - assert (acc <> []) as Hne. { intros ->. rewrite Hnil in L by done. simpl in L. lia. }
    split; [done|]. intros f Ef. rewrite E, <- app_assoc in Ef.
    destruct (GwriteUniform_parse_enc f addr count acc) as (v & -> & Ev); try done; [lia|].
    exists v. split; [done|]. apply GwriteUniform_iter_enc; [simpl; lia|done..].
  - destruct acc; [done|]. specialize (Hpos ltac:(done)). lia.
Qed.

Lemma gwrite_uniform_roundtrip_witness :
  exists v, GwriteUniform_parse (FB [128; 1; 2; 1; 7] [8; 2; 9; 10]) =
              Some (mkGwriteUniform 384 2 v) /\
            den_uniform <$> GwriteUniform_iter (mkGwriteUniform 384 2 v) = [(1, [7; 8]); (2, [9; 10])].
Proof.
  refine (proj2 (gwrite_uniform_roundtrip (replicate 10 0) 384 2
    [(1, [7; 8]); (5, [1]); (2, [9; 10])] _ _ _ _ _ eq_refl eq_refl) _ _).
  - lia.
  - lia.
  - reflexivity.
Defined.
