(* ===== verification/Mac.v ===== *)
(** * HalfSipHash-2-4 (firmware/lib/osc-security/src/mac.rs)

    The streaming hasher as written (partial-word buffer, whole words, final
    block), a reference one-shot definition (pad to words, fold), and the
    theorem that any chunking of a message finalises to the reference tag. *)

From S2P Require Import Prelude.

Definition C_ROUNDS : nat := 2.
Definition D_ROUNDS : nat := 4.
Definition INIT_V2 : Z := 1819895653. (* 0x6c79_6765 *)
Definition INIT_V3 : Z := 1952801890. (* 0x7465_6462 *)
Definition FINAL_XOR : Z := 255.

(** ** Keys and tags *)

Record MacKey := mkMacKey { k0 : Z; k1 : Z }.

#[export] Instance MacKey_eq_dec : EqDecision MacKey.
Proof. solve_decision. Defined.

Definition le32_at (l : list Z) (i : nat) : Z :=
  from_le32 (l !!! i) (l !!! (i + 1)%nat) (l !!! (i + 2)%nat) (l !!! (i + 3)%nat).

(** [k] is an 8-byte array. *)
Definition MacKey_from_bytes (k : list Z) : MacKey := mkMacKey (le32_at k 0) (le32_at k 4).
Definition MacKey_ZERO : MacKey := mkMacKey 0 0.
Definition MacKey_is_zero (k : MacKey) : bool := (k0 k =? 0) && (k1 k =? 0).

Definition Tag_to_bytes (t : Z) : list Z := to_le32 t.
Definition Tag_from_bytes (b : list Z) : Z := le32_at b 0.

(** [(d | d.wrapping_neg()) >> 31 == 0]. *)
Definition Tag_ct_eq (a b : Z) : bool :=
  let d := Z.lxor a b in
  let collapsed := Z.shiftr (Z.lor d (u32 (- d))) 31 in
  collapsed =? 0.

(** ** The hasher *)

Record SipState := mkSip { v0 : Z; v1 : Z; v2 : Z; v3 : Z }.

Record HalfSipHasher := mkHasher {
  hs_v : SipState;
  hs_tail : list Z;      (* 4 bytes *)
  hs_tail_len : nat;
  hs_total : Z;          (* u32 *)
}.

Definition sip_init (key : MacKey) : SipState :=
  mkSip (k0 key) (k1 key) (Z.lxor INIT_V2 (k0 key)) (Z.lxor INIT_V3 (k1 key)).

Definition HalfSipHasher_new (key : MacKey) : HalfSipHasher :=
  mkHasher (sip_init key) [0; 0; 0; 0] 0 0.

Definition HalfSipHasher_round (s : SipState) : SipState :=
  let '(mkSip v0 v1 v2 v3) := s in
  let v0 := u32 (v0 + v1) in
  let v1 := rotl32 v1 5 in
  let v1 := Z.lxor v1 v0 in
  let v0 := rotl32 v0 16 in
  let v2 := u32 (v2 + v3) in
  let v3 := rotl32 v3 8 in
  let v3 := Z.lxor v3 v2 in
  let v0 := u32 (v0 + v3) in
  let v3 := rotl32 v3 7 in
  let v3 := Z.lxor v3 v0 in
  let v2 := u32 (v2 + v1) in
  let v1 := rotl32 v1 13 in
  let v1 := Z.lxor v1 v2 in
  let v2 := rotl32 v2 16 in
  mkSip v0 v1 v2 v3.

Fixpoint rounds (n : nat) (s : SipState) : SipState :=
  match n with O => s | S n' => rounds n' (HalfSipHasher_round s) end.

Definition HalfSipHasher_absorb_word (s : SipState) (m : Z) : SipState :=
  let s := rounds C_ROUNDS (mkSip (v0 s) (v1 s) (v2 s) (Z.lxor (v3 s) m)) in
  mkSip (Z.lxor (v0 s) m) (v1 s) (v2 s) (v3 s).

(** [rest.chunks_exact(4)]: absorb the whole words, keep the remainder. *)
Fixpoint absorb_chunks (s : SipState) (rest : list Z) : SipState * list Z :=
  match rest with
  | a :: b :: c :: d :: rest' =>
      absorb_chunks (HalfSipHasher_absorb_word s (from_le32 a b c d)) rest'
  | _ => (s, rest)
  end.

(** The whole-words-then-remainder half of [update]. *)
Definition update_words (h : HalfSipHasher) (rest : list Z) : HalfSipHasher :=
  let '(s, rem) := absorb_chunks (hs_v h) rest in
  if Nat.eqb (length rem) 0 then mkHasher s (hs_tail h) (hs_tail_len h) (hs_total h)
  else mkHasher s (splice 0 rem (hs_tail h)) (length rem) (hs_total h).

Definition HalfSipHasher_update (h : HalfSipHasher) (data : list Z) : HalfSipHasher :=
  let h := mkHasher (hs_v h) (hs_tail h) (hs_tail_len h)
             (u32 (hs_total h + u32 (Z.of_nat (length data)))) in
  if negb (Nat.eqb (hs_tail_len h) 0) then
    let want := (4 - hs_tail_len h)%nat in
    let n := Nat.min want (length data) in
    let tail := splice (hs_tail_len h) (take n data) (hs_tail h) in
    let tail_len := (hs_tail_len h + n)%nat in
    let rest := drop n data in
    if Nat.ltb tail_len 4 then mkHasher (hs_v h) tail tail_len (hs_total h)
    else
      let s := HalfSipHasher_absorb_word (hs_v h) (le32_at tail 0) in
      update_words (mkHasher s tail 0 (hs_total h)) rest
  else update_words h data.

Fixpoint or_bytes (b : Z) (i : Z) (bytes : list Z) : Z :=
  match bytes with
  | [] => b
  | x :: bytes' => or_bytes (Z.lor b (Z.shiftl x (8 * i))) (i + 1) bytes'
  end.

Definition HalfSipHasher_finish (h : HalfSipHasher) : Z :=
  let b := or_bytes (Z.shiftl (Z.land (hs_total h) 255) 24) 0 (take (hs_tail_len h) (hs_tail h)) in
  let s := hs_v h in
  let s := rounds C_ROUNDS (mkSip (v0 s) (v1 s) (v2 s) (Z.lxor (v3 s) b)) in
  let s := mkSip (Z.lxor (v0 s) b) (v1 s) (Z.lxor (v2 s) FINAL_XOR) (v3 s) in
  let s := rounds D_ROUNDS s in
  Z.lxor (v1 s) (v3 s).

Definition HalfSipHasher_absorbed (h : HalfSipHasher) : Z := hs_total h.

Definition mac (key : MacKey) (msg : list Z) : Z :=
  HalfSipHasher_finish (HalfSipHasher_update (HalfSipHasher_new key) msg).

(** The module's own [vectors_hsip32] (key [0..8], message [0..len)), as u32. *)
Example reference_vectors :
  let key := MacKey_from_bytes [0; 1; 2; 3; 4; 5; 6; 7] in
  (fun n => Tag_to_bytes (mac key (take n [0; 1; 2; 3; 4; 5; 6; 7]))) <$> [0; 1; 2; 3; 4; 5; 6; 7]%nat =
  [[169; 53; 159; 91]; [39; 71; 90; 184]; [250; 98; 166; 3]; [138; 254; 231; 4];
   [42; 110; 70; 137]; [197; 250; 182; 105]; [88; 99; 252; 35]; [139; 207; 99; 197]].
Proof. vm_compute. reflexivity. Qed.

(** ** The reference: pad to words, fold, finalise

    The published construction: the message, zero-padded, its length byte in
    the top position of the last word. *)

Fixpoint words4 (l : list Z) : list Z :=
  match l with
  | a :: b :: c :: d :: l' => from_le32 a b c d :: words4 l'
  | _ => []
  end.

Definition sip_pad (msg : list Z) : list Z :=
  msg ++ replicate (3 - length msg mod 4) 0 ++ [Z.of_nat (length msg) mod 256].

Definition halfsip24 (key : MacKey) (msg : list Z) : Z :=
  let s := fold_left HalfSipHasher_absorb_word (words4 (sip_pad msg)) (sip_init key) in
  let s := rounds D_ROUNDS (mkSip (v0 s) (v1 s) (Z.lxor (v2 s) FINAL_XOR) (v3 s)) in
  Z.lxor (v1 s) (v3 s).

(** ** Lemmas *)

Fixpoint rem4 (l : list Z) : list Z :=
  match l with
  | _ :: _ :: _ :: _ :: l' => rem4 l'
  | _ => l
  end.

(** Induction four bytes at a time. *)
Lemma list_ind4 (P : list Z -> Prop) :
  (forall l, (length l < 4)%nat -> P l) ->
  (forall a b c d l, P l -> P (a :: b :: c :: d :: l)) -> forall l, P l.
Proof.
  intros Hs Hc l. remember (length l) as n eqn:En. revert l En.
  induction (lt_wf n) as [n _ IH]. intros l ->.
  destruct l as [|a [|b [|c [|d l]]]]; try (apply Hs; simpl; lia).
  apply Hc. apply (IH (length l)); simpl; lia.
Qed.

Lemma short4 l : (length l < 4)%nat -> words4 l = [] /\ rem4 l = l.
Proof. destruct l as [|? [|? [|? [|? ?]]]]; simpl; intros; try done; lia. Qed.

Lemma absorb_chunks_eq l : forall s,
  absorb_chunks s l = (fold_left HalfSipHasher_absorb_word (words4 l) s, rem4 l).
Proof.
  induction l as [l Hl|a b c d l IH] using list_ind4; intros s.
  - destruct l as [|? [|? [|? [|? ?]]]]; simpl in *; try done; lia.
  - simpl. apply IH.
Qed.

Lemma words4_app l m : words4 (l ++ m) = words4 l ++ words4 (rem4 l ++ m).
Proof.
  induction l as [l Hl|a b c d l IH] using list_ind4.
  - by destruct (short4 l Hl) as [-> ->].
  - simpl. by rewrite IH.
Qed.

Lemma rem4_app l m : rem4 (l ++ m) = rem4 (rem4 l ++ m).
Proof.
  induction l as [l Hl|a b c d l IH] using list_ind4.
  - by destruct (short4 l Hl) as [_ ->].
  - simpl. by rewrite IH.
Qed.

Lemma rem4_length l : length (rem4 l) = (length l mod 4)%nat.
Proof.
  induction l as [l Hl|a b c d l IH] using list_ind4.
  - destruct (short4 l Hl) as [_ ->]. by rewrite Nat.mod_small.
  - cbn [rem4 length]. rewrite IH. replace (S (S (S (S (length l))))) with (length l + 1 * 4)%nat by lia.
    by rewrite Nat.Div0.mod_add.
Qed.

(** ** Representation: what a hasher holds after absorbing [msg] *)

Record absorbed (key : MacKey) (msg : list Z) (h : HalfSipHasher) : Prop := {
  ab_state : hs_v h = fold_left HalfSipHasher_absorb_word (words4 msg) (sip_init key);
  ab_tail : take (hs_tail_len h) (hs_tail h) = rem4 msg;
  ab_tail_len : hs_tail_len h = length (rem4 msg);
  ab_tail_size : length (hs_tail h) = 4%nat;
  ab_total : hs_total h = u32 (Z.of_nat (length msg));
}.

Lemma rem4_lt l : (length (rem4 l) < 4)%nat.
Proof. rewrite rem4_length. by apply Nat.mod_upper_bound. Qed.

Lemma absorbed_new key : absorbed key [] (HalfSipHasher_new key).
Proof. by constructor. Qed.

(** Absorbing whole words on top of a word boundary. *)
Lemma update_words_absorbed key m rest h :
  rem4 m = [] -> hs_tail_len h = 0%nat -> length (hs_tail h) = 4%nat ->
  hs_v h = fold_left HalfSipHasher_absorb_word (words4 m) (sip_init key) ->
  hs_total h = u32 (Z.of_nat (length (m ++ rest))) ->
  absorbed key (m ++ rest) (update_words h rest).
Proof.
  intros Hm Htl Hsz Hv Ht. unfold update_words. rewrite absorb_chunks_eq.
  pose proof (rem4_lt rest) as Hlt.
  assert (rem4 (m ++ rest) = rem4 rest) as Er by (by rewrite rem4_app, Hm).
  assert (fold_left HalfSipHasher_absorb_word (words4 rest) (hs_v h) =
          fold_left HalfSipHasher_absorb_word (words4 (m ++ rest)) (sip_init key)) as Ev
    by (by rewrite words4_app, Hm, fold_left_app, <- Hv).
  destruct (Nat.eqb (length (rem4 rest)) 0) eqn:E; zbool; constructor; simpl; rewrite ?Er; try done.
  - rewrite Htl. by destruct (rem4 rest).
  - lia.
  - unfold splice. simpl. apply take_app_length.
  - rewrite length_splice; simpl; lia.
Qed.

(** Four bytes are one word. *)
Lemma words4_cons4 t r : length t = 4%nat ->
  words4 (t ++ r) = le32_at t 0 :: words4 r /\ rem4 (t ++ r) = rem4 r.
Proof. destruct t as [|? [|? [|? [|? [|? ?]]]]]; simpl; intros; try done; lia. Qed.

Lemma u32_add_len t a b : t = u32 (Z.of_nat a) ->
  u32 (t + u32 (Z.of_nat b)) = u32 (Z.of_nat (a + b)).
Proof. intros ->. unfold u32. rewrite <- Zplus_mod. f_equal. lia. Qed.

Lemma HalfSipHasher_update_absorbed key msg h data :
  absorbed key msg h -> absorbed key (msg ++ data) (HalfSipHasher_update h data).
Proof.
  intros [Hv Ht Htl Hsz Htot]. unfold HalfSipHasher_update. cbn [hs_tail_len hs_v hs_tail hs_total].
  pose proof (rem4_lt msg) as Hlt. rewrite (u32_add_len _ _ _ Htot), <- length_app.
  destruct (Nat.eqb (hs_tail_len h) 0) eqn:E0; zbool; cbn [negb].
  { apply update_words_absorbed; try done. apply nil_length_inv. lia. }
  set (n := Nat.min (4 - hs_tail_len h) (length data)).
  assert (length (take n data) = n) as Ln by (rewrite length_take; lia).
  set (tail := splice (hs_tail_len h) (take n data) (hs_tail h)).
  assert (length tail = 4%nat) as Lt by (subst tail; rewrite length_splice; lia).
  assert (take (hs_tail_len h + n) tail = rem4 msg ++ take n data) as Et.
  { subst tail. unfold splice. rewrite Ht, app_assoc.
    replace (hs_tail_len h + n)%nat with (length (rem4 msg ++ take n data))
      by (rewrite length_app; lia). apply take_app_length. }
  destruct (Nat.ltb (hs_tail_len h + n) 4) eqn:E4; zbool.
  - assert (take n data = data) as Ed by (apply take_ge; lia). rewrite Ed in *.
    destruct (short4 (rem4 msg ++ data)) as [Ew Er]; [rewrite length_app; lia|].
    constructor; cbn [hs_v hs_tail hs_tail_len hs_total]; try done.
    + by rewrite words4_app, Ew, app_nil_r.
    + by rewrite Et, rem4_app, Er.
    + rewrite rem4_app, Er, length_app. lia.
  - rewrite take_ge in Et by lia.
    rewrite <- (take_drop n data) at 1. rewrite app_assoc.
    destruct (words4_cons4 tail [] Lt) as [Ew Er]. rewrite app_nil_r in Ew, Er.
    apply update_words_absorbed; cbn [hs_v hs_tail hs_tail_len hs_total]; try done.
    + by rewrite rem4_app, <- Et, Er.
    + rewrite words4_app, <- Et, Ew, fold_left_app, <- Hv. done.
    + by rewrite <- app_assoc, take_drop.
Qed.

(** ** The final block *)

Lemma le32_lor a b c d : is_u8 a -> is_u8 b -> is_u8 c ->
  Z.lor (Z.lor (Z.lor (Z.shiftl d 24) a) (Z.shiftl b 8)) (Z.shiftl c 16) = from_le32 a b c d.
Proof.
  intros Ha Hb Hc.
  transitivity (Z.lor a (Z.shiftl (Z.lor b (Z.shiftl (Z.lor c (Z.shiftl d 8)) 8)) 8)).
  { rewrite !Z.shiftl_lor, !Z.shiftl_shiftl by lia. simpl (8 + 8). simpl (_ + 8).
    apply Z.bits_inj'. intros i Hi. rewrite !Z.lor_spec.
    destruct (Z.testbit (Z.shiftl d _) i), (Z.testbit a i), (Z.testbit (Z.shiftl b 8) i);
      by destruct (Z.testbit (Z.shiftl c _) i). }
  rewrite (lor_shiftl_add 8 c), (lor_shiftl_add 8 b), (lor_shiftl_add 8 a) by (simpl; lia).
  unfold from_le32. lia.
Qed.

Lemma or_bytes_pad rem len : bytes_ok rem -> (length rem < 4)%nat ->
  words4 (rem ++ replicate (3 - length rem) 0 ++ [len]) = [or_bytes (Z.shiftl len 24) 0 rem].
Proof.
  intros Hok Hl. destruct rem as [|a [|b [|c [|? ?]]]]; simpl in *; try lia;
    rewrite ?bytes_ok_cons in Hok; f_equal.
  - rewrite <- le32_lor by lia. by rewrite !Z.shiftl_0_l, !Z.lor_0_r.
  - rewrite <- le32_lor by lia. by rewrite !Z.shiftl_0_l, !Z.lor_0_r, Z.shiftl_0_r.
  - rewrite <- le32_lor by lia. by rewrite !Z.shiftl_0_l, !Z.lor_0_r, Z.shiftl_0_r.
  - rewrite <- le32_lor by lia. by rewrite Z.shiftl_0_r.
Qed.

Lemma rem4_ok l : bytes_ok l -> bytes_ok (rem4 l).
Proof.
  induction l as [l Hl|a b c d l IH] using list_ind4.
  - by destruct (short4 l Hl) as [_ ->].
  - rewrite !bytes_ok_cons. simpl. tauto.
Qed.

(** The final block is absorbed like any other word, whatever the round function. *)
Section final_block.
Context (R : nat -> SipState -> SipState).
Definition absorb_with (s : SipState) (m : Z) : SipState :=
  let s := R C_ROUNDS (mkSip (v0 s) (v1 s) (v2 s) (Z.lxor (v3 s) m)) in
  mkSip (Z.lxor (v0 s) m) (v1 s) (v2 s) (v3 s).
Definition close_with (s : SipState) : Z :=
  let s := R D_ROUNDS (mkSip (v0 s) (v1 s) (Z.lxor (v2 s) FINAL_XOR) (v3 s)) in Z.lxor (v1 s) (v3 s).
Definition finish_with (s : SipState) (b : Z) : Z :=
  let s := R C_ROUNDS (mkSip (v0 s) (v1 s) (v2 s) (Z.lxor (v3 s) b)) in
  let s := mkSip (Z.lxor (v0 s) b) (v1 s) (Z.lxor (v2 s) FINAL_XOR) (v3 s) in
  let s := R D_ROUNDS s in
  Z.lxor (v1 s) (v3 s).
Lemma finish_with_word s b : finish_with s b = close_with (absorb_with s b).
Proof. reflexivity. Qed.
End final_block.

(** Unfold the hasher's own functions before the arithmetic they call. *)
#[local] Strategy expand [HalfSipHasher_finish halfsip24 HalfSipHasher_absorb_word finish_with close_with absorb_with].

Lemma HalfSipHasher_finish_word h :
  HalfSipHasher_finish h = close_with rounds (HalfSipHasher_absorb_word (hs_v h)
    (or_bytes (Z.shiftl (Z.land (hs_total h) 255) 24) 0 (take (hs_tail_len h) (hs_tail h)))).
Proof. exact (finish_with_word rounds (hs_v h) _). Qed.

Lemma halfsip24_word key msg :
  halfsip24 key msg = close_with rounds (fold_left HalfSipHasher_absorb_word (words4 (sip_pad msg)) (sip_init key)).
Proof. reflexivity. Qed.

Lemma HalfSipHasher_finish_absorbed key msg h :
  bytes_ok msg -> absorbed key msg h -> HalfSipHasher_finish h = halfsip24 key msg.
Proof.
  intros Hok [Hv Ht Htl Hsz Htot]. rewrite HalfSipHasher_finish_word, halfsip24_word. unfold sip_pad.
  rewrite words4_app, fold_left_app, <- Hv, <- rem4_length.
  rewrite or_bytes_pad by (try apply rem4_ok; try apply rem4_lt; done). rewrite Ht, Htot.
  assert (Z.land (u32 (Z.of_nat (length msg))) 255 = Z.of_nat (length msg) mod 256) as ->.
  { change 255 with (Z.ones 8). rewrite Z.land_ones by lia. unfold u32. zmod. }
  reflexivity.
Qed.

Lemma update_all_absorbed key chunks : forall msg h,
  absorbed key msg h ->
  absorbed key (msg ++ concat chunks) (fold_left HalfSipHasher_update chunks h).
Proof.
  induction chunks as [|c chunks IH]; intros msg h H; simpl.
  - by rewrite app_nil_r.
  - rewrite app_assoc. by apply IH, HalfSipHasher_update_absorbed.
Qed.

(** The streaming hasher computes HalfSipHash-2-4: feeding a message in
    any chunking whatsoever and finalising gives the reference tag of the
    concatenation (in particular the one-shot [mac], and a span split at the
    ring seam, agree with it). *)
Theorem halfsip_chunking key chunks :
  bytes_ok (concat chunks) ->
  HalfSipHasher_finish (fold_left HalfSipHasher_update chunks (HalfSipHasher_new key)) =
    halfsip24 key (concat chunks) /\
  mac key (concat chunks) = halfsip24 key (concat chunks).
Proof.
  intros Hok. split.
  - apply HalfSipHasher_finish_absorbed; [done|]. apply (update_all_absorbed key chunks []), absorbed_new.
  - unfold mac. apply HalfSipHasher_finish_absorbed; [done|].
    apply (HalfSipHasher_update_absorbed key []), absorbed_new.
Qed.

Lemma halfsip_chunking_witness :
  HalfSipHasher_finish (fold_left HalfSipHasher_update [[0]; []; [1; 2; 3; 4; 5]]
    (HalfSipHasher_new (MacKey_from_bytes [0; 1; 2; 3; 4; 5; 6; 7]))) = 603743064.
Proof.
  refine (eq_trans (proj1 (halfsip_chunking (MacKey_from_bytes [0; 1; 2; 3; 4; 5; 6; 7])
    [[0]; []; [1; 2; 3; 4; 5]] _)) _).
  - simpl. rewrite !bytes_ok_cons. repeat split; try lia. constructor.
  - vm_compute. reflexivity.
Defined.

(** ** Tag comparison *)

Lemma Tag_ct_eq_spec a b : is_u32 a -> is_u32 b -> Tag_ct_eq a b = bool_decide (a = b).
Proof.
  intros Ha Hb. unfold Tag_ct_eq.
  pose proof (lxor_range 32 a b ltac:(lia) Ha Hb) as Hd. set (d := Z.lxor a b) in *.
  simpl in Hd. assert (d = 0 <-> a = b) as Hz by (unfold d; apply Z.lxor_eq_0_iff).
  rewrite Z.shiftr_lor. rewrite !Z.shiftr_div_pow2 by lia. change (2 ^ 31) with 2147483648.
  case_bool_decide as E.
  - apply Hz in E. rewrite E. done.
  - apply Z.eqb_neq. rewrite Z.lor_eq_0_iff.
    assert (d <> 0) as Hn by tauto. unfold u32. intros [H1 H2].
    assert (d < 2147483648) by zmod. zmod.
Qed.

Lemma Tag_roundtrip t : is_u32 t -> Tag_from_bytes (Tag_to_bytes t) = t.
Proof. intros. unfold Tag_from_bytes, Tag_to_bytes, le32_at. simpl. by apply from_to_le32. Qed.

Lemma Tag_from_bytes_ok b : length b = 4%nat -> bytes_ok b ->
  is_u32 (Tag_from_bytes b) /\ Tag_to_bytes (Tag_from_bytes b) = b.
Proof.
  intros L H. destruct b as [|x [|y [|z [|w [|? ?]]]]]; simpl in L; try lia.
  rewrite !bytes_ok_cons in H. change (Tag_from_bytes _) with (from_le32 x y z w).
  split; [apply from_le32_range; tauto|].
  unfold Tag_to_bytes, to_le32, from_le32. repeat f_equal; zmod.
Qed.

(** Every emitted tag is a [u32], whatever state the rounds start from. *)
Lemma HalfSipHasher_round_range s (r := HalfSipHasher_round s) :
  is_u32 (v0 r) /\ is_u32 (v1 r) /\ is_u32 (v2 r) /\ is_u32 (v3 r).
Proof.
  subst r. destruct s as [a b c d]. unfold HalfSipHasher_round, rotl32. cbn [v0 v1 v2 v3].
  repeat split; first [apply u32_range | apply (lxor_range 32); [lia|apply u32_range..]].
Qed.

Lemma rounds_range n s (r := rounds (S n) s) : is_u32 (v1 r) /\ is_u32 (v3 r).
Proof.
  subst r. revert s. induction n as [|n IH]; intros s.
  - destruct (HalfSipHasher_round_range s) as (_ & ? & _ & ?). by split.
  - apply IH.
Qed.

Lemma HalfSipHasher_finish_range h : is_u32 (HalfSipHasher_finish h).
Proof.
  unfold HalfSipHasher_finish. cbv zeta. apply (lxor_range 32); [lia|apply (rounds_range 3)..].
Qed.
Lemma halfsip24_range key msg : is_u32 (halfsip24 key msg).
Proof. unfold halfsip24. cbv zeta. apply (lxor_range 32); [lia|apply (rounds_range 3)..]. Qed.
#[export] Hint Resolve HalfSipHasher_finish_range halfsip24_range : osc.
