(* ===== verification/Security.v ===== *)
(** * The message plane (firmware/lib/osc-security/src)

    keys.rs, policy.rs, replay.rs, trailer.rs, stream.rs, session.rs and the
    refusing secure element of se.rs.  [SecurityContext] is the record of
    session.rs; [SecurityContext_verify] is its [verify], verdict and
    bookkeeping together.  The theorems: what a [Pass] means, what a rejected
    frame may change, the replay window's exact reach, the lockout as an
    invariant of arbitrary operation sequences, and agreement of the fleet on
    one COMMIT tag however each servo's ring split the frames. *)

From S2P Require Import Prelude Wire Mac.

(** ** Keys (keys.rs) *)

Definition label_UNICAST : list Z := [79; 83; 67; 49; 85].  (* "OSC1U" *)
Definition label_WRAP : list Z := [79; 83; 67; 49; 87].     (* "OSC1W" *)
Definition label_WRAP_TAG : list Z := [79; 83; 67; 49; 84]. (* "OSC1T" *)
Definition NONCE_LEN : nat := 16.
Definition WRAP_LEN : nat := 16.
Definition HMAC_LEN : nat := 32.

(** [Epoch] is a [u16]. *)
Definition Epoch_next (e : Z) : Z := u16 (e + 1).
Definition Epoch_to_le_bytes (e : Z) : list Z := to_le16 e.

Record SessionKeys := mkKeys { sk_unicast : MacKey; sk_group : MacKey; sk_epoch : Z }.
Definition SessionKeys_UNSET : SessionKeys := mkKeys MacKey_ZERO MacKey_ZERO 0.
Definition SessionKeys_is_ready (k : SessionKeys) : bool :=
  negb (MacKey_is_zero (sk_unicast k)) && negb (MacKey_is_zero (sk_group k)).
Definition SessionKeys_for_frame (k : SessionKeys) (broadcast : bool) : MacKey :=
  if broadcast then sk_group k else sk_unicast k.

(** The buffers are filled by range copies into a zeroed array. *)
Definition unicast_kdf_message (epoch : Z) (host_nonce servo_nonce : list Z) : list Z :=
  splice (7 + NONCE_LEN) servo_nonce (splice 7 host_nonce
    (splice 5 (Epoch_to_le_bytes epoch) (splice 0 label_UNICAST (replicate (5 + 2 + NONCE_LEN * 2) 0)))).
Definition wrap_kdf_message (epoch : Z) (host_nonce : list Z) : list Z :=
  splice 7 host_nonce
    (splice 5 (Epoch_to_le_bytes epoch) (splice 0 label_WRAP (replicate (5 + 2 + NONCE_LEN) 0))).
Definition wrap_tag_message (epoch : Z) (wrapped : list Z) : list Z :=
  splice 7 wrapped
    (splice 5 (Epoch_to_le_bytes epoch) (splice 0 label_WRAP_TAG (replicate (5 + 2 + WRAP_LEN) 0))).

Definition key_from_hmac (h : list Z) : MacKey := MacKey_from_bytes (take 8 h).
Definition unwrap_group_key (wrapped pad : list Z) : MacKey :=
  MacKey_from_bytes (zip_with Z.lxor (take 8 wrapped) (take 8 pad)).

(** ** Policy (policy.rs) *)

Definition DEFAULT_LOCKOUT : Z := 3.

Record Policy := mkPolicy {
  require_auth : bool;
  require_auth_on_reads : bool;
  tag_replies : bool;
  lockout_after : Z;
}.
Definition Policy_FLIGHT : Policy := mkPolicy true false true DEFAULT_LOCKOUT.
Definition Policy_OPEN : Policy := mkPolicy false false false DEFAULT_LOCKOUT.
Definition Policy_default : Policy := Policy_FLIGHT.

Definition Policy_effect_bearing (inst : Inst) : bool :=
  match Inst_opcode inst with
  | Some (OpCommit | OpMgmt) => true
  | Some (OpWrite | OpGwrite) => negb (Inst_hold inst)
  | Some (OpPing | OpRead | OpGread) => false
  | None => false
  end.

Definition Policy_folds_into_stream (inst : Inst) : bool :=
  if Inst_is_status inst then false
  else match Inst_opcode inst with Some (OpWrite | OpGwrite) => true | _ => false end.

Definition Policy_requires_tag (p : Policy) (inst : Inst) : bool :=
  if negb (require_auth p) then false
  else if Policy_effect_bearing inst then true
  else require_auth_on_reads p.

Inductive AuthVerdict := AvPass | AvMissing | AvBadTag | AvReplay | AvNoSession | AvLockedOut.
#[export] Instance AuthVerdict_eq_dec : EqDecision AuthVerdict.
Proof. solve_decision. Defined.

Definition AuthVerdict_is_pass (v : AuthVerdict) : bool :=
  match v with AvPass => true | _ => false end.
Definition AuthVerdict_is_attack_evidence (v : AuthVerdict) : bool :=
  match v with AvBadTag | AvReplay => true | _ => false end.

(** ** Replay window (replay.rs) *)

Definition FORWARD_WINDOW : Z := 127.
Inductive SeqReject := SrReplay.

Record ReplayWindow := mkReplay { rw_last : Z; rw_primed : bool }.
Definition ReplayWindow_new : ReplayWindow := mkReplay 0 false.
Definition ReplayWindow_restart (_ : ReplayWindow) : ReplayWindow := ReplayWindow_new.

Definition ReplayWindow_check (w : ReplayWindow) (seq : Z) : result unit SeqReject :=
  if negb (rw_primed w) then Ok tt
  else
    let ahead := u8 (seq - rw_last w) in
    if ahead =? 0 then Err SrReplay
    else if ahead <=? FORWARD_WINDOW then Ok tt
    else Err SrReplay.

Definition ReplayWindow_commit (_ : ReplayWindow) (seq : Z) : ReplayWindow := mkReplay seq true.

Definition ReplayWindow_accept (w : ReplayWindow) (seq : Z) : result unit SeqReject * ReplayWindow :=
  match ReplayWindow_check w seq with
  | Ok _ => (Ok tt, ReplayWindow_commit w seq)
  | Err e => (Err e, w)
  end.

(** ** AUTH trailer (trailer.rs) *)

Definition TRAILER_LEN : nat := 5.
Definition SEQ_LEN : nat := 1.
Definition TAG_LEN : nat := 4.

Record Trailer := mkTrailer { tr_seq : Z; tr_tag : Z; tr_tagged_prefix : list Z }.

(** The indexing below the length guard is in range. *)
Definition Trailer_split (covered : list Z) : option Trailer :=
  if Nat.ltb (length covered) (3 + TRAILER_LEN) then None
  else
    let cut := (length covered - TAG_LEN)%nat in
    let tag := Tag_from_bytes (drop cut covered) in
    seq ← covered !! (cut - SEQ_LEN)%nat;
    Some (mkTrailer seq tag (take cut covered)).

Definition Trailer_strip (payload_len : Z) : Z := saturating_sub payload_len (Z.of_nat TRAILER_LEN).

(** ** Stream digest (stream.rs) *)

Definition DOMAIN_STREAM : Z := 3.

Record StreamDigest := mkStream { sd_hasher : HalfSipHasher; sd_key : MacKey; sd_frames : Z }.

Definition StreamDigest_new (key : MacKey) : StreamDigest :=
  mkStream (HalfSipHasher_update (HalfSipHasher_new key) [DOMAIN_STREAM]) key 0.
Definition StreamDigest_reset (_ : StreamDigest) (key : MacKey) : StreamDigest := StreamDigest_new key.
Definition StreamDigest_fold_frame (s : StreamDigest) (seg_a seg_b : list Z) : StreamDigest :=
  mkStream (HalfSipHasher_update (HalfSipHasher_update (sd_hasher s) seg_a) seg_b)
    (sd_key s) (saturating_add16 (sd_frames s) 1).
Definition StreamDigest_bytes (s : StreamDigest) : Z := HalfSipHasher_absorbed (sd_hasher s).
Definition StreamDigest_digest (s : StreamDigest) : Z := HalfSipHasher_finish (sd_hasher s).

(** ** The session (session.rs) *)

Definition DOMAIN_FRAME : Z := 1.
Definition DOMAIN_COMMIT : Z := 2.

Inductive SecurityState := Unsecured | Establishing | Secured | LockedOut.
#[export] Instance SecurityState_eq_dec : EqDecision SecurityState.
Proof. solve_decision. Defined.

Record SecurityContext := mkCtx {
  sc_state : SecurityState;
  sc_keys : SessionKeys;
  sc_stream : StreamDigest;
  sc_replay : ReplayWindow;
  sc_policy : Policy;
  sc_consecutive_fails : Z;
  sc_auth_fail_count : Z;
  sc_replay_drop_count : Z;
}.

Definition SecurityContext_new (policy : Policy) : SecurityContext :=
  mkCtx Unsecured SessionKeys_UNSET (StreamDigest_new MacKey_ZERO) ReplayWindow_new policy 0 0 0.

Definition SecurityContext_set_policy (c : SecurityContext) (p : Policy) : SecurityContext :=
  mkCtx (sc_state c) (sc_keys c) (sc_stream c) (sc_replay c) p (sc_consecutive_fails c)
    (sc_auth_fail_count c) (sc_replay_drop_count c).

(** The readiness check is a [debug_assert!]: absent from the shipped build. *)
Definition SecurityContext_install (c : SecurityContext) (keys : SessionKeys) : SecurityContext :=
  mkCtx Secured keys (StreamDigest_reset (sc_stream c) (sk_group keys))
    (ReplayWindow_restart (sc_replay c)) (sc_policy c) 0 (sc_auth_fail_count c)
    (sc_replay_drop_count c).

Definition SecurityContext_clear (c : SecurityContext) : SecurityContext :=
  mkCtx Unsecured SessionKeys_UNSET (StreamDigest_reset (sc_stream c) MacKey_ZERO)
    (ReplayWindow_restart (sc_replay c)) (sc_policy c) (sc_consecutive_fails c)
    (sc_auth_fail_count c) (sc_replay_drop_count c).

Definition set_stream (c : SecurityContext) (s : StreamDigest) : SecurityContext :=
  mkCtx (sc_state c) (sc_keys c) s (sc_replay c) (sc_policy c) (sc_consecutive_fails c)
    (sc_auth_fail_count c) (sc_replay_drop_count c).

Definition SecurityContext_fold (c : SecurityContext) (inst : Inst) (seg_a seg_b : list Z) :
    SecurityContext :=
  if negb (bool_decide (sc_state c = Secured)) || negb (Policy_folds_into_stream inst) then c
  else set_stream c (StreamDigest_fold_frame (sc_stream c) seg_a seg_b).

Definition SecurityContext_rollback_stream (c : SecurityContext) : SecurityContext :=
  if bool_decide (sc_state c = Secured)
  then set_stream c (StreamDigest_reset (sc_stream c) (sk_group (sc_keys c))) else c.

Definition SecurityContext_close_cycle (c : SecurityContext) : SecurityContext :=
  if bool_decide (sc_state c = Secured)
  then set_stream c (StreamDigest_reset (sc_stream c) (sk_group (sc_keys c))) else c.

Definition SecurityContext_frame_tag (c : SecurityContext) (key : MacKey) (seq : Z)
    (prefix : list Z) : Z :=
  let h := HalfSipHasher_new key in
  let h := HalfSipHasher_update h [DOMAIN_FRAME] in
  let h := HalfSipHasher_update h (Epoch_to_le_bytes (sk_epoch (sc_keys c))) in
  let h := HalfSipHasher_update h [seq] in
  let h := HalfSipHasher_update h prefix in
  HalfSipHasher_finish h.

Definition SecurityContext_commit_tag (c : SecurityContext) (key : MacKey) (seq : Z)
    (prefix : list Z) : Z :=
  let h := HalfSipHasher_new key in
  let h := HalfSipHasher_update h [DOMAIN_COMMIT] in
  let h := HalfSipHasher_update h (Epoch_to_le_bytes (sk_epoch (sc_keys c))) in
  let h := HalfSipHasher_update h [seq] in
  let h := HalfSipHasher_update h (Tag_to_bytes (StreamDigest_digest (sc_stream c))) in
  let h := HalfSipHasher_update h prefix in
  HalfSipHasher_finish h.

Definition expected_tag (c : SecurityContext) (inst : Inst) (broadcast : bool) (seq : Z)
    (prefix : list Z) : Z :=
  let key := SessionKeys_for_frame (sc_keys c) broadcast in
  match Inst_opcode inst with
  | Some OpCommit => SecurityContext_commit_tag c key seq prefix
  | _ => SecurityContext_frame_tag c key seq prefix
  end.

Definition set_replay (c : SecurityContext) (w : ReplayWindow) : SecurityContext :=
  mkCtx (sc_state c) (sc_keys c) (sc_stream c) w (sc_policy c) (sc_consecutive_fails c)
    (sc_auth_fail_count c) (sc_replay_drop_count c).

Definition SecurityContext_evaluate (c : SecurityContext) (inst : Inst) (broadcast : bool)
    (covered : list Z) : AuthVerdict * SecurityContext :=
  if bool_decide (sc_state c = LockedOut) then
    (if Policy_requires_tag (sc_policy c) inst then AvLockedOut else AvPass, c)
  else if negb (Inst_authenticated inst) then
    (if Policy_requires_tag (sc_policy c) inst then AvMissing else AvPass, c)
  else if negb (bool_decide (sc_state c = Secured)) || negb (SessionKeys_is_ready (sc_keys c)) then
    (AvNoSession, c)
  else
    match Trailer_split covered with
    | None => (AvBadTag, c)
    | Some t =>
        if negb (is_ok (ReplayWindow_check (sc_replay c) (tr_seq t))) then (AvReplay, c)
        else
          let expected := expected_tag c inst broadcast (tr_seq t) (tr_tagged_prefix t) in
          if negb (Tag_ct_eq expected (tr_tag t)) then (AvBadTag, c)
          else (AvPass, set_replay c (ReplayWindow_commit (sc_replay c) (tr_seq t)))
    end.

Definition SecurityContext_record (c : SecurityContext) (v : AuthVerdict) : SecurityContext :=
  match v with
  | AvPass =>
      mkCtx (sc_state c) (sc_keys c) (sc_stream c) (sc_replay c) (sc_policy c) 0
        (sc_auth_fail_count c) (sc_replay_drop_count c)
  | _ =>
      let fails := saturating_add32 (sc_auth_fail_count c) 1 in
      let drops := if bool_decide (v = AvReplay) then saturating_add32 (sc_replay_drop_count c) 1
                   else sc_replay_drop_count c in
      if AuthVerdict_is_attack_evidence v then
        let cons := saturating_add8 (sc_consecutive_fails c) 1 in
        let st := if (lockout_after (sc_policy c) <=? cons) && bool_decide (sc_state c = Secured)
                  then LockedOut else sc_state c in
        mkCtx st (sc_keys c) (sc_stream c) (sc_replay c) (sc_policy c) cons fails drops
      else
        mkCtx (sc_state c) (sc_keys c) (sc_stream c) (sc_replay c) (sc_policy c)
          (sc_consecutive_fails c) fails drops
  end.

Definition SecurityContext_verify (c : SecurityContext) (inst : Inst) (broadcast : bool)
    (covered : list Z) : AuthVerdict * SecurityContext :=
  let '(v, c') := SecurityContext_evaluate c inst broadcast covered in
  (v, SecurityContext_record c' v).

Definition SecurityContext_tags_replies (c : SecurityContext) : bool :=
  tag_replies (sc_policy c) && bool_decide (sc_state c = Secured).

(** ** The secure-element interface (se.rs) *)

Inductive SeError :=
  SeNotPresent | SeBadResponse | SeRejected | SeTimeout | SeUnprovisioned | SeCounterExhausted
| SeUnavailable.
Definition SERIAL_LEN : nat := 9.
Definition SIGNATURE_LEN : nat := 64.

(** Each operation returns its result with the element's next state. *)
Class SecureElement (S : Type) := {
  se_hmac : S -> list Z -> result (list Z) SeError * S;
  se_random : S -> nat -> result (list Z) SeError * S;
  se_sign : S -> list Z -> result (list Z) SeError * S;
  se_serial : S -> result (list Z) SeError * S;
  se_counter_increment : S -> result Z SeError * S;
}.

Inductive AbsentSe := mkAbsentSe.
#[export] Instance AbsentSe_SecureElement : SecureElement AbsentSe := {
  se_hmac s _ := (Err SeNotPresent, s);
  se_random s _ := (Err SeNotPresent, s);
  se_sign s _ := (Err SeNotPresent, s);
  se_serial s := (Err SeNotPresent, s);
  se_counter_increment s := (Err SeNotPresent, s);
}.

(** ** Reference tags

    [stream_digest_of] and [session_tag] are the tags as the host computes
    them: functions of the session keys and of the list of spans folded since
    the last reset, with no hasher state. *)

Definition stream_digest_of (k : SessionKeys) (frames : list (list Z)) : Z :=
  halfsip24 (sk_group k) (DOMAIN_STREAM :: concat frames).

Definition session_tag (k : SessionKeys) (frames : list (list Z)) (inst : Inst) (broadcast : bool)
    (seq : Z) (prefix : list Z) : Z :=
  let key := SessionKeys_for_frame k broadcast in
  let ep := Epoch_to_le_bytes (sk_epoch k) in
  match Inst_opcode inst with
  | Some OpCommit =>
      halfsip24 key (DOMAIN_COMMIT :: ep ++ [seq] ++ Tag_to_bytes (stream_digest_of k frames) ++ prefix)
  | _ => halfsip24 key (DOMAIN_FRAME :: ep ++ [seq] ++ prefix)
  end.

(** The context's stream has absorbed exactly [frames] since its last reset. *)
Definition stream_rep (c : SecurityContext) (frames : list (list Z)) : Prop :=
  absorbed (sk_group (sc_keys c)) (DOMAIN_STREAM :: concat frames) (sd_hasher (sc_stream c)) /\
  bytes_ok (concat frames).

Lemma stream_new_absorbed key : absorbed key [DOMAIN_STREAM] (sd_hasher (StreamDigest_new key)).
Proof. apply (HalfSipHasher_update_absorbed key []), absorbed_new. Qed.

Lemma stream_rep_digest c frames : stream_rep c frames ->
  StreamDigest_digest (sc_stream c) = stream_digest_of (sc_keys c) frames.
Proof.
  intros [H Hok]. apply HalfSipHasher_finish_absorbed; [|done].
  apply bytes_ok_cons. split; [unfold DOMAIN_STREAM; lia|done].
Qed.

(** Chaining [update]s from a fresh hasher is the reference on the whole. *)
Lemma updates_ref key (chunks : list (list Z)) h :
  bytes_ok (concat chunks) ->
  h = fold_left HalfSipHasher_update chunks (HalfSipHasher_new key) ->
  HalfSipHasher_finish h = halfsip24 key (concat chunks).
Proof.
  intros Hok ->. apply HalfSipHasher_finish_absorbed; [done|].
  apply (update_all_absorbed key chunks []), absorbed_new.
Qed.

Lemma expected_tag_ref c frames inst bc seq prefix :
  stream_rep c frames -> is_u8 seq -> bytes_ok prefix ->
  expected_tag c inst bc seq prefix = session_tag (sc_keys c) frames inst bc seq prefix.
Proof.
  intros Hs Hseq Hp. set (key := SessionKeys_for_frame (sc_keys c) bc).
  set (ep := Epoch_to_le_bytes (sk_epoch (sc_keys c))).
  assert (bytes_ok ep) as Hep by apply to_le16_ok.
  assert (SecurityContext_frame_tag c key seq prefix =
    halfsip24 key (DOMAIN_FRAME :: ep ++ [seq] ++ prefix)) as Ef.
  { assert (concat [[DOMAIN_FRAME]; ep; [seq]; prefix] = DOMAIN_FRAME :: ep ++ [seq] ++ prefix) as Ec
      by (simpl; by rewrite app_nil_r).
    rewrite <- Ec. apply updates_ref; [|done]. rewrite Ec, bytes_ok_cons, !bytes_ok_app, bytes_ok_cons.
    unfold DOMAIN_FRAME. repeat split; try done; lia. }
  assert (SecurityContext_commit_tag c key seq prefix =
    halfsip24 key (DOMAIN_COMMIT :: ep ++ [seq] ++
      Tag_to_bytes (stream_digest_of (sc_keys c) frames) ++ prefix)) as Ec.
  { unfold SecurityContext_commit_tag. cbv zeta. rewrite (stream_rep_digest c frames Hs).
    set (dg := Tag_to_bytes _).
    assert (concat [[DOMAIN_COMMIT]; ep; [seq]; dg; prefix] =
      DOMAIN_COMMIT :: ep ++ [seq] ++ dg ++ prefix) as Ec by (simpl; by rewrite app_nil_r).
    rewrite <- Ec. apply updates_ref; [|done].
    rewrite Ec, bytes_ok_cons, !bytes_ok_app, bytes_ok_cons.
    unfold DOMAIN_COMMIT. repeat split; try done; try lia. apply to_le32_ok. }
  unfold expected_tag, session_tag. fold key ep. destruct (Inst_opcode inst) as [[]|]; done.
Qed.

Lemma session_tag_range k frames inst bc seq prefix : is_u32 (session_tag k frames inst bc seq prefix).
Proof. unfold session_tag. destruct (Inst_opcode inst) as [[]|]; apply halfsip24_range. Qed.

(** ** The stream through every operation *)

Lemma stream_rep_reset c : stream_rep (set_stream c (StreamDigest_reset (sc_stream c) (sk_group (sc_keys c)))) [].
Proof. split; [apply stream_new_absorbed|constructor]. Qed.

Lemma stream_rep_install c keys : stream_rep (SecurityContext_install c keys) [].
Proof. split; [apply stream_new_absorbed|constructor]. Qed.

Lemma concat_snoc {A} (l : list (list A)) x : concat (l ++ [x]) = concat l ++ x.
Proof. rewrite concat_app. simpl. by rewrite app_nil_r. Qed.

Lemma stream_rep_fold c frames inst a b :
  stream_rep c frames -> sc_state c = Secured -> bytes_ok a -> bytes_ok b ->
  stream_rep (SecurityContext_fold c inst a b)
    (if Policy_folds_into_stream inst then frames ++ [a ++ b] else frames).
Proof.
  intros [H Hok] Hst Ha Hb. unfold SecurityContext_fold. rewrite Hst. simpl.
  destruct (Policy_folds_into_stream inst); simpl; [|done].
  split; simpl.
  - rewrite concat_snoc, app_assoc.
    apply (HalfSipHasher_update_absorbed _ (DOMAIN_STREAM :: concat frames ++ a)).
    apply (HalfSipHasher_update_absorbed _ (DOMAIN_STREAM :: concat frames)), H.
  - rewrite concat_snoc, !bytes_ok_app. done.
Qed.

(** ** Trailers *)

Lemma Trailer_split_app body seq t4 :
  (3 <= length body)%nat -> length t4 = 4%nat ->
  Trailer_split (body ++ [seq] ++ t4) = Some (mkTrailer seq (Tag_from_bytes t4) (body ++ [seq])).
Proof.
  intros Hb Ht. unfold Trailer_split, TRAILER_LEN, TAG_LEN, SEQ_LEN.
  assert (length (body ++ [seq]) = S (length body)) as Ls by (rewrite length_app; simpl; lia).
  rewrite app_assoc.
  assert (length ((body ++ [seq]) ++ t4) = length (body ++ [seq]) + 4)%nat as L by (rewrite length_app; lia).
  rewrite L. destruct (Nat.ltb _ _) eqn:E; zbool; [lia|].
  replace (length (body ++ [seq]) + 4 - 4)%nat with (length (body ++ [seq])) by lia.
  rewrite drop_app_length, take_app_length, lookup_app_l by lia.
  rewrite lookup_app_r, Ls by lia.
  by replace (S (length body) - 1 - length body)%nat with 0%nat by lia.
Qed.

Lemma Trailer_split_inv covered t : Trailer_split covered = Some t ->
  exists body t4, covered = body ++ [tr_seq t] ++ t4 /\ (3 <= length body)%nat /\ length t4 = 4%nat /\
    tr_tag t = Tag_from_bytes t4 /\ tr_tagged_prefix t = body ++ [tr_seq t].
Proof.
  unfold Trailer_split, TRAILER_LEN, TAG_LEN, SEQ_LEN. intros H.
  destruct (Nat.ltb _ _) eqn:E; zbool; [done|].
  set (cut := (length covered - 4)%nat) in *.
  destruct (covered !! (cut - 1)%nat) as [seq|] eqn:Es; simpl in H; [|done]. simplify_eq/=.
  assert (take cut covered = take (cut - 1) covered ++ [seq]) as Et.
  { replace cut with (S (cut - 1)) at 1 by lia. by apply take_S_r. }
  exists (take (cut - 1) covered), (drop cut covered). repeat split; try done.
  - change (seq :: drop cut covered) with ([seq] ++ drop cut covered).
    rewrite app_assoc, <- Et. by rewrite take_drop.
  - rewrite length_take. lia.
  - rewrite length_drop. lia.
Qed.

(** ** What a Pass means *)

Lemma Tag_to_bytes_length t : length (Tag_to_bytes t) = 4%nat.
Proof. done. Qed.

#[local] Opaque expected_tag Tag_ct_eq session_tag Tag_to_bytes halfsip24 HalfSipHasher_update HalfSipHasher_finish.

Definition seq_acceptable (w : ReplayWindow) (seq : Z) : Prop :=
  rw_primed w = true -> 1 <= u8 (seq - rw_last w) <= 127.

Lemma ReplayWindow_check_spec w seq :
  is_ok (ReplayWindow_check w seq) = true <-> seq_acceptable w seq.
Proof.
  unfold ReplayWindow_check, seq_acceptable, FORWARD_WINDOW.
  destruct (rw_primed w); simpl; [|done]. pose proof (u8_range (seq - rw_last w)).
  destruct (_ =? 0) eqn:E0; [|destruct (_ <=? 127) eqn:E1]; zbool; simpl;
    split; intros Hs; try done; intros; try specialize (Hs eq_refl); lia.
Qed.

(** The frame [covered] is the host's own: a body, its sequence byte, and the
    tag the host computes for it from the session keys and the stream. *)
Definition authentic (c : SecurityContext) (frames : list (list Z)) (inst : Inst) (bc : bool)
    (covered : list Z) (seq : Z) : Prop :=
  exists body, (3 <= length body)%nat /\
    covered = body ++ [seq] ++
      Tag_to_bytes (session_tag (sc_keys c) frames inst bc seq (body ++ [seq])) /\
    seq_acceptable (sc_replay c) seq.

Lemma evaluate_tagged c frames inst bc covered :
  stream_rep c frames -> bytes_ok covered -> sc_state c = Secured ->
  SessionKeys_is_ready (sc_keys c) = true -> Inst_authenticated inst = true ->
  match SecurityContext_evaluate c inst bc covered with
  | (AvPass, c') => exists seq, authentic c frames inst bc covered seq /\
                                c' = set_replay c (mkReplay seq true)
  | (v, c') => c' = c /\ AuthVerdict_is_attack_evidence v = true /\
               forall seq, ~ authentic c frames inst bc covered seq
  end.
Proof.
  intros Hs Hok Hst Hk Ha. unfold SecurityContext_evaluate. rewrite Hst, Hk, Ha. simpl.
  destruct (Trailer_split covered) as [t|] eqn:Et; simpl.
  2: { split; [done|]. split; [done|]. intros seq (body & Hb & -> & _). rewrite Trailer_split_app in Et by (exact Hb || apply Tag_to_bytes_length).
    discriminate. }
  apply Trailer_split_inv in Et as (body & t4 & -> & Hb & H4 & Htag & Hpre).
  rewrite !bytes_ok_app, bytes_ok_cons in Hok. destruct Hok as (Hbo & [Hseq _] & Ht4).
  assert (forall seq, authentic c frames inst bc (body ++ [tr_seq t] ++ t4) seq -> seq = tr_seq t /\
    t4 = Tag_to_bytes (session_tag (sc_keys c) frames inst bc seq (body ++ [seq])) /\
    seq_acceptable (sc_replay c) seq) as Huniq.
  { intros seq (body' & Hb' & E & Hw).
    apply app_inj_2 in E as [<- E]; [by simplify_eq/=|]. simpl. by rewrite H4. }
  destruct (is_ok _) eqn:Ew; simpl.
  2: { repeat split. intros seq (-> & _ & Hw)%Huniq. apply ReplayWindow_check_spec in Hw. congruence. }
  apply ReplayWindow_check_spec in Ew.
  assert (bytes_ok (body ++ [tr_seq t])) as Hpo
    by (rewrite bytes_ok_app, bytes_ok_cons; repeat split; try done; lia).
  rewrite Hpre, (expected_tag_ref c frames) by done.
  pose proof (session_tag_range (sc_keys c) frames inst bc (tr_seq t) (body ++ [tr_seq t])) as Hr.
  destruct (Tag_from_bytes_ok t4 H4 Ht4) as [Hr' Hrt]. rewrite <- Htag in Hr', Hrt.
  rewrite Tag_ct_eq_spec by done. case_bool_decide as Eq; simpl.
  - exists (tr_seq t). split; [|done]. exists body. split; [done|]. split; [by rewrite Eq, Hrt|done].
  - repeat split. intros seq (-> & E4 & _)%Huniq. apply Eq.
    rewrite Htag, E4, Tag_roundtrip by done. done.
Qed.

Lemma record_fields c v :
  sc_keys (SecurityContext_record c v) = sc_keys c /\
  sc_stream (SecurityContext_record c v) = sc_stream c /\
  sc_replay (SecurityContext_record c v) = sc_replay c /\
  sc_policy (SecurityContext_record c v) = sc_policy c.
Proof. destruct v; unfold SecurityContext_record; simpl; repeat case_goal; done. Qed.

(** C3: soundness and completeness of the message-plane verdict.  For an
    instruction the policy says must be tagged, [verify] passes exactly when a
    session is live (state Secured, both keys non-zero), the frame carries the
    AUTH flag, and the covered span is a body, a sequence byte inside the
    replay window, and the HalfSipHash tag the host computes for that span,
    epoch, sequence and (for COMMIT) the digest of exactly the frames folded
    since the last reset; the window then stands at that sequence. *)
Theorem verify_pass_iff c frames inst bc covered :
  stream_rep c frames -> bytes_ok covered -> Policy_requires_tag (sc_policy c) inst = true ->
  let '(v, c') := SecurityContext_verify c inst bc covered in
  (v = AvPass <->
     sc_state c = Secured /\ SessionKeys_is_ready (sc_keys c) = true /\
     Inst_authenticated inst = true /\ exists seq, authentic c frames inst bc covered seq) /\
  (v = AvPass -> exists seq, authentic c frames inst bc covered seq /\
                             sc_replay c' = mkReplay seq true).
Proof.
  intros Hs Hok Hreq. unfold SecurityContext_verify.
  destruct (decide (sc_state c = Secured /\ SessionKeys_is_ready (sc_keys c) = true /\
    Inst_authenticated inst = true)) as [(Hst & Hk & Ha)|Hno].
  - pose proof (evaluate_tagged c frames inst bc covered Hs Hok Hst Hk Ha) as He.
    destruct (SecurityContext_evaluate c inst bc covered) as [[] c'].
    { destruct He as (seq & Hau & ->). split; [split; eauto|]. intros _. exists seq. done. }
    all: destruct He as (_ & _ & Hn); split; [|done]; split; [done|];
      intros (_ & _ & _ & seq & Hau); by apply Hn in Hau.
  - assert (forall v c', SecurityContext_evaluate c inst bc covered = (v, c') -> v <> AvPass) as Hv.
    { unfold SecurityContext_evaluate. rewrite Hreq. intros v c' E.
      case_bool_decide; simpl in E; [by simplify_eq|].
      destruct (Inst_authenticated inst); simpl in E; [|by simplify_eq].
      case_bool_decide; simpl in E; [|by simplify_eq].
      destruct (SessionKeys_is_ready (sc_keys c)); simpl in E; [tauto|by simplify_eq]. }
    destruct (SecurityContext_evaluate c inst bc covered) as [v c']. specialize (Hv v c' eq_refl).
    split; [|done]. split; [done|]. intros (? & ? & ? & _). tauto.
Qed.

Definition demo_keys : SessionKeys :=
  mkKeys (MacKey_from_bytes [1; 2; 3; 4; 5; 6; 7; 8]) (MacKey_from_bytes [9; 10; 11; 12; 13; 14; 15; 16]) 7.
Definition demo_ctx : SecurityContext :=
  SecurityContext_install (SecurityContext_new Policy_FLIGHT) demo_keys.
Definition demo_write : Inst := Inst_instruction OpWrite FLAG_AUTH.

Lemma verify_pass_iff_witness :
  let covered := [5; 9; demo_write; 170; 1] ++
    Tag_to_bytes (session_tag demo_keys [] demo_write false 1 [5; 9; demo_write; 170; 1]) in
  (SecurityContext_verify demo_ctx demo_write false covered).1 = AvPass.
Proof.
  intros covered.
  pose proof (verify_pass_iff demo_ctx [] demo_write false covered) as H.
  destruct (SecurityContext_verify _ _ _ _) as [v c'] eqn:E. apply H.
  - apply stream_rep_install.
  - subst covered. rewrite bytes_ok_app. split; [|apply to_le32_ok].
    rewrite !bytes_ok_cons. vm_compute. repeat split; try congruence. constructor.
  - reflexivity.
  - split; [reflexivity|]. split; [reflexivity|]. split; [reflexivity|].
    exists 1, [5; 9; demo_write; 170]. split; [simpl; lia|]. split; [reflexivity|]. intros [=].
Defined.

(** ** What a refused frame may change *)

Lemma evaluate_reject c inst bc covered v c' :
  SecurityContext_evaluate c inst bc covered = (v, c') -> v <> AvPass -> c' = c.
Proof.
  unfold SecurityContext_evaluate. intros E Hv. repeat case_hyp E; simplify_eq; done.
Qed.

(** A frame that does not pass leaves the session keys, the stream digest,
    the replay window and the policy exactly as they were: a forged, replayed
    or truncated frame cannot burn a sequence number or desynchronise the
    honest stream.  The state can only move from Secured to LockedOut, and only
    on a bad tag or a replay. *)
Theorem verify_reject_frame c inst bc covered v c' :
  SecurityContext_verify c inst bc covered = (v, c') -> v <> AvPass ->
  sc_keys c' = sc_keys c /\ sc_stream c' = sc_stream c /\ sc_replay c' = sc_replay c /\
  sc_policy c' = sc_policy c /\
  (sc_state c' = sc_state c \/
   (sc_state c = Secured /\ sc_state c' = LockedOut /\ (v = AvBadTag \/ v = AvReplay))).
Proof.
  unfold SecurityContext_verify. destruct (SecurityContext_evaluate _ _ _ _) as [v0 c0] eqn:E.
  intros [= <- <-] Hv. apply evaluate_reject in E as ->; [|done].
  destruct (record_fields c v0) as (-> & -> & -> & ->). repeat split.
  destruct v0; unfold SecurityContext_record; simpl; try done; try (by left);
    repeat case_goal; zbool; simpl; try (by left); right;
    repeat match goal with H : bool_decide _ = true |- _ => apply bool_decide_eq_true in H end; eauto.
Qed.

Lemma verify_reject_frame_witness :
  sc_replay (SecurityContext_verify demo_ctx demo_write false [5; 9; demo_write; 170; 1; 0; 0; 0; 0]).2 =
  ReplayWindow_new.
Proof.
  refine (proj1 (proj2 (proj2 (verify_reject_frame demo_ctx demo_write false
    [5; 9; demo_write; 170; 1; 0; 0; 0; 0] AvBadTag _ _ _)))).
  - vm_compute. reflexivity.
  - discriminate.
Defined.

(** ** The replay window's exact reach *)

(** A run of accepted sequence bytes; [None] as soon as one is refused. *)
Fixpoint accept_all (w : ReplayWindow) (seqs : list Z) : option ReplayWindow :=
  match seqs with
  | [] => Some w
  | s :: seqs' =>
      match ReplayWindow_accept w s with
      | (Ok _, w') => accept_all w' seqs'
      | (Err _, _) => None
      end
  end.

(** The forward distance the window travels along an accepted run. *)
Fixpoint travel (last : Z) (seqs : list Z) : Z :=
  match seqs with [] => 0 | s :: seqs' => u8 (s - last) + travel s seqs' end.

Lemma accept_all_last seqs : forall last w',
  is_u8 last -> bytes_ok seqs ->
  accept_all (mkReplay last true) seqs = Some w' ->
  rw_primed w' = true /\ is_u8 (rw_last w') /\ u8 (rw_last w' - last) = u8 (travel last seqs) /\
  0 <= travel last seqs.
Proof.
  induction seqs as [|s seqs IH]; intros last w' Hl Hok H; simpl in H.
  { simplify_eq. simpl. rewrite Z.sub_diag. done. }
  apply bytes_ok_cons in Hok as [Hs Hok]. unfold ReplayWindow_accept in H.
  destruct (ReplayWindow_check _ s); [|done].
  apply IH in H as (? & ? & E & ?); try done. pose proof (u8_range (s - last)).
  split; [done|]. split; [done|]. cbn [travel]. split; [|lia]. unfold u8 in *. zmod.
Qed.

(** Replay protection is exact within one epoch.  After [seq] has been
    accepted and the window has since been moved forward by further accepted
    frames over a total distance below 256, a captured copy of [seq] is refused
    if and only if that distance is at most 128. *)
Theorem replay_reach w seq w1 seqs w2 :
  is_u8 seq -> bytes_ok seqs ->
  ReplayWindow_accept w seq = (Ok tt, w1) -> accept_all w1 seqs = Some w2 ->
  travel seq seqs < 256 ->
  (ReplayWindow_check w2 seq = Err SrReplay <-> travel seq seqs <= 128).
Proof.
  intros Hs Hok Ha Hall Ht. unfold ReplayWindow_accept in Ha.
  destruct (ReplayWindow_check w seq); [|done]. simplify_eq.
  apply accept_all_last in Hall as (Hp & Hl & Hu & H0); try done.
  unfold ReplayWindow_check, FORWARD_WINDOW. rewrite Hp. simpl. unfold u8 in *.
  repeat case_goal; zbool; split; intros; try done; zmod.
Qed.

Lemma replay_reach_witness : ReplayWindow_check (mkReplay 63 true) 10 = Err SrReplay.
Proof.
  apply (replay_reach ReplayWindow_new 10 (mkReplay 10 true) [11; 40; 63] (mkReplay 63 true));
    [lia|repeat constructor; lia|reflexivity|reflexivity|reflexivity|discriminate].
Defined.

(** The window wraps: 129 frames on, the captured byte is fresh again, and
    the tag does not depend on anything else that moved. *)
Remark replay_wraps_within_epoch :
  (w ← accept_all ReplayWindow_new [10; 110; 210]; Some (ReplayWindow_check w 10)) = Some (Ok tt) /\
  travel 10 [110; 210] = 200.
Proof. split; reflexivity. Qed.

(** ** Lockout *)

Inductive SecOp :=
| SoFold (inst : Inst) (seg_a seg_b : list Z)
| SoVerify (inst : Inst) (broadcast : bool) (covered : list Z)
| SoRollback
| SoCloseCycle
| SoSetPolicy (p : Policy)
| SoInstall (k : SessionKeys)
| SoClear.

Definition sec_step (c : SecurityContext) (op : SecOp) : SecurityContext :=
  match op with
  | SoFold inst a b => SecurityContext_fold c inst a b
  | SoVerify inst bc cov => (SecurityContext_verify c inst bc cov).2
  | SoRollback => SecurityContext_rollback_stream c
  | SoCloseCycle => SecurityContext_close_cycle c
  | SoSetPolicy p => SecurityContext_set_policy c p
  | SoInstall k => SecurityContext_install c k
  | SoClear => SecurityContext_clear c
  end.

(** Operations that neither re-key, nor tear the session down, nor drop the
    authentication requirement. *)
Definition keeps_lockout (op : SecOp) : bool :=
  match op with
  | SoInstall _ | SoClear => false
  | SoSetPolicy p => require_auth p
  | _ => true
  end.

Definition locked (c : SecurityContext) : Prop :=
  sc_state c = LockedOut /\ require_auth (sc_policy c) = true.

Lemma locked_verify c inst bc covered :
  locked c ->
  locked (SecurityContext_verify c inst bc covered).2 /\
  (Policy_effect_bearing inst = true ->
   (SecurityContext_verify c inst bc covered).1 = AvLockedOut).
Proof.
  intros [Hst Hp]. unfold SecurityContext_verify, SecurityContext_evaluate. rewrite Hst. simpl.
  unfold locked, Policy_requires_tag. rewrite Hp. simpl.
  destruct (Policy_effect_bearing inst), (require_auth_on_reads (sc_policy c)); simpl; by rewrite Hst.
Qed.

Lemma locked_step c op : locked c -> keeps_lockout op = true -> locked (sec_step c op).
Proof.
  intros Hl Hk. pose proof Hl as [Hst Hp]. destruct op; simpl in *; try done.
  - unfold SecurityContext_fold. by rewrite Hst.
  - by apply locked_verify.
  - unfold SecurityContext_rollback_stream. by rewrite Hst.
  - unfold SecurityContext_close_cycle. by rewrite Hst.
Qed.

(** C23: lockout holds.  Once locked out with authentication required, no
    sequence of folds, verifications, stream resets and policy changes that
    keep the requirement leaves LockedOut, and after any such sequence every
    effect-bearing frame, tagged or not, is refused with LockedOut. *)
Theorem lockout_persists c ops :
  sc_state c = LockedOut -> require_auth (sc_policy c) = true ->
  forallb keeps_lockout ops = true ->
  let c' := fold_left sec_step ops c in
  sc_state c' = LockedOut /\
  forall inst bc covered, Policy_effect_bearing inst = true ->
    (SecurityContext_verify c' inst bc covered).1 = AvLockedOut.
Proof.
  intros Hst Hp Hops. assert (locked (fold_left sec_step ops c)) as Hl.
  { assert (locked c) as Hl by done. clear Hst Hp. revert c Hl Hops.
    induction ops as [|op ops IH]; intros c Hl Hops; simpl in *; [done|].
    apply andb_true_iff in Hops as [? ?]. apply IH; [by apply locked_step|done]. }
  split; [apply Hl|]. intros. by apply locked_verify.
Qed.

(** [n] verifications in a row, with the verdicts they returned. *)
Fixpoint verify_all (c : SecurityContext) (fs : list (Inst * bool * list Z)) :
    list AuthVerdict * SecurityContext :=
  match fs with
  | [] => ([], c)
  | (inst, bc, cov) :: fs' =>
      let '(v, c1) := SecurityContext_verify c inst bc cov in
      let '(vs, c2) := verify_all c1 fs' in (v :: vs, c2)
  end.

Lemma verify_attack c inst bc cov v c' :
  SecurityContext_verify c inst bc cov = (v, c') ->
  AuthVerdict_is_attack_evidence v = true -> sc_state c = Secured ->
  sc_policy c' = sc_policy c /\
  sc_consecutive_fails c' = saturating_add8 (sc_consecutive_fails c) 1 /\
  sc_state c' = if lockout_after (sc_policy c) <=? saturating_add8 (sc_consecutive_fails c) 1
                then LockedOut else Secured.
Proof.
  unfold SecurityContext_verify. destruct (SecurityContext_evaluate _ _ _ _) as [v0 c0] eqn:E.
  intros [= <- <-] Hv Hst. apply evaluate_reject in E as ->; [|by destruct v0].
  destruct v0; try done; unfold SecurityContext_record; rewrite Hst; simpl;
    rewrite andb_true_r; repeat case_goal; done.
Qed.

(** The lockout trips exactly on the configured failure.  From a live
    session with no failure on record, [k] consecutive verifications that all
    end in a bad tag or a replay leave the servo LockedOut if and only if [k]
    has reached [lockout_after]. *)
Theorem lockout_trips c fs vs c' :
  sc_state c = Secured -> sc_consecutive_fails c = 0 -> 1 <= lockout_after (sc_policy c) <= 255 ->
  verify_all c fs = (vs, c') -> forallb AuthVerdict_is_attack_evidence vs = true ->
  (sc_state c' = LockedOut <-> lockout_after (sc_policy c) <= Z.of_nat (length fs)).
Proof.
  intros Hst Hf Hn. remember (lockout_after (sc_policy c)) as n eqn:En.
  assert (0 <= sc_consecutive_fails c < n) as Hlt by lia.
  replace (Z.of_nat (length fs)) with (sc_consecutive_fails c + Z.of_nat (length fs)) by lia.
  clear Hf. revert c vs Hst En Hlt. induction fs as [|[[inst bc] cov] fs IH]; intros c vs Hst En Hlt Hv Ha.
  { simpl in Hv. simplify_eq/=. rewrite Hst. split; [done|lia]. }
  simpl in Hv. destruct (SecurityContext_verify c inst bc cov) as [v c1] eqn:E.
  destruct (verify_all c1 fs) as [vs1 c2] eqn:E1. simplify_eq. simpl in Ha.
  apply andb_true_iff in Ha as [Hav Ha].
  destruct (verify_attack _ _ _ _ _ _ E Hav Hst) as (Hp & Hc & Hs).
  unfold saturating_add8 in *. rewrite Z.min_r in Hc, Hs by lia.
  destruct (_ <=? _) eqn:El in Hs; zbool.
  - destruct fs as [|[[i b] cv] fs].
    + simpl in E1. simplify_eq. simpl. split; [lia|done].
    + exfalso. simpl in E1. unfold SecurityContext_verify, SecurityContext_evaluate in E1.
      rewrite Hs in E1. simpl in E1.
      destruct (Policy_requires_tag _ _); destruct (verify_all _ fs); simplify_eq/=; done.
  - rewrite (IH c1 vs1 Hs); [simpl; lia|by rewrite Hp|lia|done|done].
Qed.

Definition bad_frame : Inst * bool * list Z := (demo_write, false, [5; 9; demo_write; 170; 1; 0; 0; 0; 0]).

Lemma lockout_trips_witness :
  sc_state (verify_all demo_ctx [bad_frame; bad_frame; bad_frame]).2 = LockedOut.
Proof.
  refine (proj2 (lockout_trips demo_ctx [bad_frame; bad_frame; bad_frame]
    [AvBadTag; AvBadTag; AvBadTag] _ _ _ _ _ _) _); try reflexivity; vm_compute; try split; congruence.
Defined.

Definition demo_locked : SecurityContext := (verify_all demo_ctx [bad_frame; bad_frame; bad_frame]).2.

Lemma lockout_persists_witness :
  (SecurityContext_verify (fold_left sec_step [SoVerify 16 false [5; 3; 16]; SoCloseCycle] demo_locked)
     demo_write false [5; 9; demo_write; 170; 1; 0; 0; 0; 0]).1 = AvLockedOut.
Proof.
  refine (proj2 (lockout_persists demo_locked [SoVerify 16 false [5; 3; 16]; SoCloseCycle] _ _ _)
    demo_write false _ _); vm_compute; reflexivity.
Defined.

(** An unauthenticated PING resets the failure count, so a forger that
    interleaves pings never reaches the lockout. *)
Remark lockout_evaded_by_pings :
  let ping := (Inst_instruction OpPing 0, false, [5; 3; 16]) in
  let round := [bad_frame; bad_frame; ping] in
  sc_state (verify_all demo_ctx (round ++ round ++ round)).2 = Secured /\
  sc_auth_fail_count (verify_all demo_ctx (round ++ round ++ round)).2 = 6.
Proof. vm_compute. done. Qed.

(** Loosening the policy of a locked-out servo lets effect frames through. *)
Remark lockout_loosened :
  (SecurityContext_verify (SecurityContext_set_policy demo_locked Policy_OPEN)
     (Inst_instruction OpWrite 0) false [5; 5; 48; 0; 0]).1 = AvPass.
Proof. vm_compute. done. Qed.

(** ** One COMMIT tag for the whole fleet *)

(** The covered-span folds of one cycle, each as its two ring segments. *)
Definition fold_segments (c : SecurityContext) (fs : list (Inst * list Z * list Z)) : SecurityContext :=
  fold_left (fun c f => SecurityContext_fold c f.1.1 f.1.2 f.2) fs c.

(** What the cycle put on the wire: the spans of the folding instructions. *)
Fixpoint wire_frames (fs : list (Inst * list Z * list Z)) : list (list Z) :=
  match fs with
  | [] => []
  | (inst, a, b) :: fs' =>
      if Policy_folds_into_stream inst then (a ++ b) :: wire_frames fs' else wire_frames fs'
  end.

Definition segments_ok (fs : list (Inst * list Z * list Z)) : Prop :=
  Forall (fun f => bytes_ok f.1.2 /\ bytes_ok f.2) fs.

Lemma fold_fields c inst a b (c' := SecurityContext_fold c inst a b) :
  sc_state c' = sc_state c /\ sc_keys c' = sc_keys c /\ sc_replay c' = sc_replay c /\
  sc_policy c' = sc_policy c.
Proof. subst c'. unfold SecurityContext_fold. case_goal; done. Qed.

Lemma fold_segments_rep fs : forall c frames,
  segments_ok fs -> stream_rep c frames -> sc_state c = Secured ->
  stream_rep (fold_segments c fs) (frames ++ wire_frames fs) /\
  sc_state (fold_segments c fs) = Secured /\ sc_keys (fold_segments c fs) = sc_keys c /\
  sc_replay (fold_segments c fs) = sc_replay c /\ sc_policy (fold_segments c fs) = sc_policy c.
Proof.
  induction fs as [|[[inst a] b] fs IH]; intros c frames Hok Hs Hst.
  { cbn. by rewrite app_nil_r. }
  inversion Hok as [|? ? [Ha Hb] Hok']; subst. cbn [fold_segments fold_left wire_frames fst snd].
  destruct (fold_fields c inst a b) as (E1 & E2 & E3 & E4).
  pose proof (stream_rep_fold c frames inst a b Hs Hst Ha Hb) as Hs'.
  destruct (IH (SecurityContext_fold c inst a b) _ Hok' Hs' ltac:(by rewrite E1))
    as (R & S1 & S2 & S3 & S4).
  split; [|split_and!; congruence || (etransitivity; eauto)].
  destruct (Policy_folds_into_stream inst); [|done]. by rewrite <- app_assoc in R.
Qed.

(** The fleet agrees.  Two servos that installed the same session under
    the same policy and observed the same folding frames in the same order,
    each through its own ring splits (and whatever other traffic), return the
    same verdict on every frame, the broadcast COMMIT above all. *)
Theorem fleet_agreement c1 c2 keys fs1 fs2 inst bc covered :
  sc_policy c1 = sc_policy c2 -> segments_ok fs1 -> segments_ok fs2 -> bytes_ok covered ->
  wire_frames fs1 = wire_frames fs2 ->
  (SecurityContext_verify (fold_segments (SecurityContext_install c1 keys) fs1) inst bc covered).1 =
  (SecurityContext_verify (fold_segments (SecurityContext_install c2 keys) fs2) inst bc covered).1.
Proof.
  intros Hp H1 H2 Hok Hw.
  destruct (fold_segments_rep fs1 _ [] H1 (stream_rep_install c1 keys) eq_refl) as (R1 & S1 & K1 & W1 & P1).
  destruct (fold_segments_rep fs2 _ [] H2 (stream_rep_install c2 keys) eq_refl) as (R2 & S2 & K2 & W2 & P2).
  simpl in *. set (d1 := fold_segments _ fs1) in *. set (d2 := fold_segments _ fs2) in *.
  unfold SecurityContext_verify.
  assert ((SecurityContext_evaluate d1 inst bc covered).1 =
          (SecurityContext_evaluate d2 inst bc covered).1) as E.
  { unfold SecurityContext_evaluate. rewrite S1, S2, K1, K2, W1, W2, P1, P2, Hp. simpl.
    destruct (negb (Inst_authenticated inst)); [done|]. destruct (negb (SessionKeys_is_ready keys)); [done|].
    destruct (Trailer_split covered) as [t|] eqn:Et; [|done].
    apply Trailer_split_inv in Et as (body & t4 & -> & _ & _ & _ & ->).
    rewrite app_assoc, bytes_ok_app in Hok. destruct Hok as [Hpre _].
    pose proof Hpre as Hseq. rewrite bytes_ok_app, bytes_ok_cons in Hseq.
    rewrite (expected_tag_ref d1 _ _ _ _ _ R1), (expected_tag_ref d2 _ _ _ _ _ R2) by tauto.
    rewrite K1, K2, Hw. repeat case_goal; done. }
  destruct (SecurityContext_evaluate d1 _ _ _), (SecurityContext_evaluate d2 _ _ _). done.
Qed.

Lemma fleet_agreement_witness :
  let held := Inst_instruction OpGwrite FLAG_HOLD in
  let commit := Inst_instruction OpCommit FLAG_AUTH in
  let cov := [254; 8; commit; 1; 0; 0; 0; 0] in
  (SecurityContext_verify (fold_segments demo_ctx [(held, [254; 7], [held; 0; 1; 44])]) commit true cov).1 =
  (SecurityContext_verify (fold_segments demo_ctx [(17, [5; 3; 17], []); (held, [254; 7; held; 0], [1; 44])])
     commit true cov).1.
Proof.
  intros held commit cov.
  apply (fleet_agreement (SecurityContext_new Policy_FLIGHT) (SecurityContext_new Policy_FLIGHT) demo_keys);
    try reflexivity; repeat constructor; simpl; vm_compute; congruence.
Defined.
