(* ===== verification/SecureDriver.v ===== *)
(** * The ECC204 driver (lib/drivers/src/se)

    swi.rs: the single-wire encoding, one UART character per data bit.
    ecc204.rs: the command layer over the traits [SwiUart] and [Framing], whose
    implementations are not in the repository and are classes here.  An operation
    returns [None] where the code would panic.

    The theorems: a byte survives the wire with its documented jitter; over a port
    that carries commands to a device ([EccPort]), every call of the secure-element
    interface answers what the device answered, and the serial is asked once. *)

From S2P Require Import Prelude Security.
From stdpp Require Import sets.
Local Open Scope Z_scope.

(** ** swi.rs *)

Definition SWI_BAUD : Z := 230400.
Definition BIT_ONE : Z := 127.
Definition BIT_ZERO : Z := 125.
Definition CHARS_PER_BIT : Z := 1.
Definition CHARS_PER_BYTE : nat := 8.
Definition EFFECTIVE_BPS : Z := SWI_BAUD / 10.

Class SwiUart (U : Type) := {
  uart_set_baud : Z -> U -> result unit unit * U;
  uart_write : list Z -> U -> result unit unit * U;
  (** The bytes received into a buffer of the given length. *)
  uart_read : nat -> Z -> U -> result (list Z) unit * U;
}.

Definition swi_encode_byte (b : Z) : list Z :=
  map (fun i => if Z.land (Z.shiftr b (Z.of_nat i)) 1 =? 0 then BIT_ZERO else BIT_ONE) (seq 0 CHARS_PER_BYTE).
Definition swi_decode_byte (chars : list Z) : Z :=
  fold_left (fun b x => if Z.lxor x.2 BIT_ONE <? 2 then Z.lor b (u8 (Z.shiftl 1 (Z.of_nat x.1))) else b)
    (imap pair chars) 0.

Definition transfer_time_us (n : Z) : Z := u32 (u32 (u32 (u32 n * Z.of_nat CHARS_PER_BYTE) * 10) * 1000000) / SWI_BAUD.

(** ** ecc204.rs *)

Definition OP_NONCE : Z := 22.
Definition OP_COUNTER : Z := 36.
Definition OP_INFO : Z := 48.
Definition OP_SIGN : Z := 65.
Definition OP_SHA : Z := 71.
Definition ECC204_HMAC_START : Z := 3.
Definition ECC204_HMAC_END : Z := 2.
Definition EXEC_COUNTER : Z := 20.
Definition EXEC_INFO : Z := 20.
Definition EXEC_NONCE : Z := 20.
Definition EXEC_SHA : Z := 80.
Definition EXEC_SIGN : Z := 500.
Definition COUNTER_MAX : Z := 10000.
Definition UNAVAILABLE : SeError := SeUnavailable.
Definition CMD_CAP : nat := 96.

Class Framing (U F : Type) := {
  (** The encoded command, for a buffer of the given length. *)
  fr_encode : F -> Z -> Z -> Z -> list Z -> nat -> result (list Z) SeError;
  fr_decode : F -> list Z -> result (list Z) SeError;
  fr_wake : F -> U -> result unit SeError * U;
}.

Section ecc204.
Context {U F : Type} {HU : SwiUart U} {HF : Framing U F}.

Record Ecc204 := mkEcc { ec_uart : U; ec_framing : F; ec_serial : option (list Z) }.
Definition Ecc204_new (u : U) (f : F) : Ecc204 := mkEcc u f None.
Definition set_uart (u : U) (e : Ecc204) : Ecc204 := mkEcc u (ec_framing e) (ec_serial e).

Definition SM (A : Type) : Type := Ecc204 -> option (result A SeError * Ecc204).
Definition sbind {A B} (m : SM A) (k : A -> SM B) : SM B := fun e =>
  match m e with
  | None => None
  | Some (Err x, e1) => Some (Err x, e1)
  | Some (Ok a, e1) => k a e1
  end.
Definition sret {A} (r : result A SeError) : SM A := fun e => Some (r, e).
Definition on_uart {A E} (f : U -> result A E * U) (err : E -> SeError) : SM A := fun e =>
  let '(r, u) := f (ec_uart e) in
  Some (match r with Ok a => Ok a | Err x => Err (err x) end, set_uart u e).
(** A slice end past a buffer of [CMD_CAP] bytes. *)
Definition within_cap (l : list Z) : SM unit := fun e => if Nat.ltb CMD_CAP (length l) then None else Some (Ok tt, e).

Definition Ecc204_exchange (opcode mode param2 : Z) (data : list Z) (exec_ms : Z) (out_len : nat) : SM (list Z) :=
  sbind (fun e => Some (fr_encode (ec_framing e) opcode mode param2 data CMD_CAP, e)) (fun cmd =>
  sbind (fun e => on_uart (fr_wake (ec_framing e)) id e) (fun _ =>
  sbind (within_cap cmd) (fun _ =>
  sbind (on_uart (uart_write cmd) (fun _ => SeBadResponse)) (fun _ =>
  let timeout_us := Z.min 4294967295 (exec_ms * 1500) in
  sbind (on_uart (uart_read CMD_CAP timeout_us) (fun _ => SeTimeout)) (fun raw =>
  sbind (within_cap raw) (fun _ =>
  sbind (fun e => Some (fr_decode (ec_framing e) raw, e)) (fun payload =>
  if Nat.ltb out_len (length payload) then sret (Err SeBadResponse) else sret (Ok payload)))))))).

Definition Ecc204_hmac (msg : list Z) : SM (list Z) :=
  sbind (Ecc204_exchange OP_SHA ECC204_HMAC_START 0 [] EXEC_SHA 32) (fun _ =>
  sbind (Ecc204_exchange OP_SHA ECC204_HMAC_END (u16 (Z.of_nat (length msg))) msg EXEC_SHA 32) (fun out =>
  if Nat.eqb (length out) 32 then sret (Ok out) else sret (Err SeBadResponse))).
Definition Ecc204_random (n : nat) : SM (list Z) :=
  sbind (Ecc204_exchange OP_NONCE 0 0 [] EXEC_NONCE 32) (fun buf =>
  if Nat.ltb (length buf) n then sret (Err SeBadResponse) else sret (Ok (take n buf))).
Definition Ecc204_sign (digest : list Z) : SM (list Z) :=
  sbind (Ecc204_exchange OP_SIGN 0 0 digest EXEC_SIGN SIGNATURE_LEN) (fun out =>
  if Nat.eqb (length out) SIGNATURE_LEN then sret (Ok out) else sret (Err SeBadResponse)).
Definition Ecc204_serial : SM (list Z) := fun e =>
  match ec_serial e with
  | Some s => Some (Ok s, e)
  | None =>
      sbind (Ecc204_exchange OP_INFO 0 0 [] EXEC_INFO 32) (fun buf =>
      if Nat.ltb (length buf) SERIAL_LEN then sret (Err SeBadResponse)
      else fun e => Some (Ok (take SERIAL_LEN buf), mkEcc (ec_uart e) (ec_framing e) (Some (take SERIAL_LEN buf)))) e
  end.
Definition Ecc204_counter_increment : SM Z :=
  sbind (Ecc204_exchange OP_COUNTER 1 0 [] EXEC_COUNTER 4) (fun buf =>
  match buf with
  | a :: b :: c :: d :: _ =>
      let v := from_le32 a b c d in
      if COUNTER_MAX <=? v then sret (Err SeCounterExhausted) else sret (Ok v)
  | _ => sret (Err SeBadResponse)
  end).
End ecc204.
Arguments Ecc204 : clear implicits.

(** ** The wire *)

(** A received character stands for the bit that was sent: a one within the
    documented tolerance, a zero outside it. *)
Definition heard (sent got : Z) : Prop := (Z.lxor got BIT_ONE <? 2) = (sent =? BIT_ONE).

(** Every property of a byte can be decided by running through the bytes. *)
Lemma byte_cases (p : Z -> bool) : forallb p (map Z.of_nat (seq 0 256)) = true -> forall b, is_u8 b -> p b = true.
Proof.
  intros Hp b Hb. rewrite forallb_forall in Hp. apply Hp. apply in_map_iff. exists (Z.to_nat b).
  split; [lia|]. apply in_seq. lia.
Qed.

(** A byte survives the single-wire encoding.  Eight characters go out, least
    significant bit first, and whatever the device's own clock makes of them within
    the documented band (a one may read as 0x7F or 0x7E), the byte that was sent is
    the byte that is decoded. *)
Theorem swi_roundtrip (b : Z) (chars : list Z) : is_u8 b -> Forall2 heard (swi_encode_byte b) chars ->
  swi_decode_byte chars = b.
Proof.
  intros Hb Hc. unfold swi_encode_byte in Hc. cbn [seq map] in Hc. unfold heard in Hc.
  do 8 (apply Forall2_cons_inv_l in Hc as (? & ? & ? & Hc & ->)). apply Forall2_nil_inv_l in Hc as ->.
  unfold swi_decode_byte. cbn [imap fold_left fst snd compose]. repeat match goal with H : (_ <? 2) = _ |- _ => rewrite H; clear H end.
  apply Z.eqb_eq. revert b Hb. refine (byte_cases _ _). vm_compute. reflexivity.
Qed.

(** Exact up to 53 bytes; the product leaves 32 bits from 54 bytes on. *)
Lemma transfer_time_exact n : 0 <= n <= 53 -> transfer_time_us n = n * 80000000 / 230400.
Proof.
  intros Hn. unfold transfer_time_us, CHARS_PER_BYTE, SWI_BAUD. rewrite (u32_id n) by lia.
  rewrite (u32_id (n * _)), (u32_id (n * _ * 10)), u32_id by lia. f_equal. lia.
Qed.
Example transfer_time_wraps : transfer_time_us 64 = 3580 /\ 64 * 80000000 / 230400 = 22222.
Proof. by vm_compute. Qed.

(** ** The driver over a device

    A device answers a command from its state; the port between the driver and the
    device carries commands there and answers back, provided the driver waits for as
    long as the device takes. *)

Record EccCmd := mkCmd { cm_op : Z; cm_mode : Z; cm_param2 : Z; cm_data : list Z }.
Class EccDevice (D : Type) := {
  dev_answer : D -> EccCmd -> result (list Z) SeError;
  dev_next : D -> EccCmd -> D;
  dev_time_us : D -> EccCmd -> Z;
}.
Class EccPort (U F D : Type) {HU : SwiUart U} {HF : Framing U F} {HD : EccDevice D} := {
  ep_fits : EccCmd -> Prop;
  ep_packet : F -> EccCmd -> list Z;
  ep_idle : F -> D -> U -> Prop;
  ep_awake : F -> D -> U -> Prop;
  ep_busy : F -> D -> EccCmd -> U -> Prop;
  ep_encode : forall f c, ep_fits c ->
    fr_encode (U := U) f (cm_op c) (cm_mode c) (cm_param2 c) (cm_data c) CMD_CAP = Ok (ep_packet f c) /\
    (length (ep_packet f c) <= CMD_CAP)%nat;
  ep_wake : forall f d u, ep_idle f d u -> exists u', fr_wake f u = (Ok tt, u') /\ ep_awake f d u';
  ep_write : forall f d c u, ep_awake f d u -> ep_fits c ->
    exists u', uart_write (ep_packet f c) u = (Ok tt, u') /\ ep_busy f d c u';
  ep_read : forall f d c u t, ep_busy f d c u -> dev_time_us d c <= t ->
    exists raw u', uart_read CMD_CAP t u = (Ok raw, u') /\ (length raw <= CMD_CAP)%nat /\
      fr_decode (U := U) f raw = dev_answer d c /\ ep_idle f (dev_next d c) u';
}.

Inductive SeCall := CallHmac (msg : list Z) | CallRandom (n : nat) | CallSign (digest : list Z) | CallSerial | CallCounter.
Inductive SeAnswer := AnsBytes (l : list Z) | AnsCount (v : Z).

(** The commands of a call, with the published time of each. *)
Definition START_CMD : EccCmd := mkCmd OP_SHA ECC204_HMAC_START 0 [].
Definition END_CMD (msg : list Z) : EccCmd := mkCmd OP_SHA ECC204_HMAC_END (u16 (Z.of_nat (length msg))) msg.
Definition call_cmds (c : SeCall) : list (EccCmd * Z) :=
  match c with
  | CallHmac msg => [(START_CMD, EXEC_SHA); (END_CMD msg, EXEC_SHA)]
  | CallRandom _ => [(mkCmd OP_NONCE 0 0 [], EXEC_NONCE)]
  | CallSign digest => [(mkCmd OP_SIGN 0 0 digest, EXEC_SIGN)]
  | CallSerial => [(mkCmd OP_INFO 0 0 [], EXEC_INFO)]
  | CallCounter => [(mkCmd OP_COUNTER 1 0 [], EXEC_COUNTER)]
  end.
(** What the interface promises of a successful answer. *)
Definition promised (c : SeCall) (r : result SeAnswer SeError) : Prop :=
  match c, r with
  | _, Err _ => True
  | CallHmac _, Ok (AnsBytes l) => length l = 32%nat
  | CallRandom n, Ok (AnsBytes l) => length l = n
  | CallSign _, Ok (AnsBytes l) => length l = SIGNATURE_LEN
  | CallSerial, Ok (AnsBytes l) => length l = SERIAL_LEN
  | CallCounter, Ok (AnsCount v) => v < COUNTER_MAX
  | _, _ => False
  end.

Section driver.
Context {U F D : Type} {HU : SwiUart U} {HF : Framing U F} {HD : EccDevice D} {HP : EccPort U F D}.

Definition as_bytes (m : @SM U F (list Z)) : @SM U F SeAnswer := sbind m (fun l => sret (Ok (AnsBytes l))).
Definition run_secall (c : SeCall) : @SM U F SeAnswer :=
  match c with
  | CallHmac msg => as_bytes (Ecc204_hmac msg)
  | CallRandom n => as_bytes (Ecc204_random n)
  | CallSign digest => as_bytes (Ecc204_sign digest)
  | CallSerial => as_bytes Ecc204_serial
  | CallCounter => sbind Ecc204_counter_increment (fun v => sret (Ok (AnsCount v)))
  end.
(** The calls in order, each with its own verdict. *)
Fixpoint run_secalls (cs : list SeCall) (e : Ecc204 U F) : option (list (result SeAnswer SeError) * Ecc204 U F) :=
  match cs with
  | [] => Some ([], e)
  | c :: cs' =>
      match run_secall c e with
      | None => None
      | Some (r, e1) => match run_secalls cs' e1 with None => None | Some (rs, e2) => Some (r :: rs, e2) end
      end
  end.

(** The device's side: what it was asked, in order, and what the driver may report.
    A call that fails at one command does not send the next; a known serial is not
    asked for again. *)
Definition ask (d : D) (c : EccCmd) (cap : nat) : result (list Z) SeError :=
  match dev_answer d c with Ok l => if Nat.ltb cap (length l) then Err SeBadResponse else Ok l | Err e => Err e end.
Inductive device_call : D -> option (list Z) -> SeCall -> list EccCmd -> result SeAnswer SeError -> D -> option (list Z) -> Prop :=
| dc_hmac_start d k msg e : ask d START_CMD 32 = Err e ->
    device_call d k (CallHmac msg) [START_CMD] (Err e) (dev_next d START_CMD) k
| dc_hmac d k msg l : ask d START_CMD 32 = Ok l -> let d1 := dev_next d START_CMD in
    device_call d k (CallHmac msg) [START_CMD; END_CMD msg]
      match ask d1 (END_CMD msg) 32 with
      | Ok l => if Nat.eqb (length l) 32 then Ok (AnsBytes l) else Err SeBadResponse
      | Err e => Err e
      end (dev_next d1 (END_CMD msg)) k
| dc_random d k n : let c := mkCmd OP_NONCE 0 0 [] in
    device_call d k (CallRandom n) [c]
      match ask d c 32 with
      | Ok l => if Nat.ltb (length l) n then Err SeBadResponse else Ok (AnsBytes (take n l))
      | Err e => Err e
      end (dev_next d c) k
| dc_sign d k digest : let c := mkCmd OP_SIGN 0 0 digest in
    device_call d k (CallSign digest) [c]
      match ask d c SIGNATURE_LEN with
      | Ok l => if Nat.eqb (length l) SIGNATURE_LEN then Ok (AnsBytes l) else Err SeBadResponse
      | Err e => Err e
      end (dev_next d c) k
| dc_serial_known d s : device_call d (Some s) CallSerial [] (Ok (AnsBytes s)) d (Some s)
| dc_serial_failed d e : let c := mkCmd OP_INFO 0 0 [] in
    match ask d c 32 with
    | Ok l => (length l < SERIAL_LEN)%nat /\ e = SeBadResponse
    | Err e' => e = e'
    end -> device_call d None CallSerial [c] (Err e) (dev_next d c) None
| dc_serial d l : let c := mkCmd OP_INFO 0 0 [] in
    ask d c 32 = Ok l -> (SERIAL_LEN <= length l)%nat ->
    device_call d None CallSerial [c] (Ok (AnsBytes (take SERIAL_LEN l))) (dev_next d c) (Some (take SERIAL_LEN l))
| dc_counter d k : let c := mkCmd OP_COUNTER 1 0 [] in
    device_call d k CallCounter [c]
      match ask d c 4 with
      | Ok [a; b; c; e] =>
          let v := from_le32 a b c e in if COUNTER_MAX <=? v then Err SeCounterExhausted else Ok (AnsCount v)
      | Ok _ => Err SeBadResponse
      | Err e => Err e
      end (dev_next d c) k.
Inductive device_calls : D -> option (list Z) -> list SeCall -> list EccCmd -> list (result SeAnswer SeError) -> D -> Prop :=
| dcs_nil d k : device_calls d k [] [] [] d
| dcs_cons d k c cmds r d1 k1 cs cmds' rs d2 : device_call d k c cmds r d1 k1 -> device_calls d1 k1 cs cmds' rs d2 ->
    device_calls d k (c :: cs) (cmds ++ cmds') (r :: rs) d2.

(** A device that keeps the published times. *)
Definition keeps_times (cs : list SeCall) : Prop :=
  forall d c cmd ms, c ∈ cs -> (cmd, ms) ∈ call_cmds c -> ep_fits cmd /\ dev_time_us d cmd <= 1500 * ms.

Definition port_at (d : D) (k : option (list Z)) (e : Ecc204 U F) : Prop :=
  ep_idle (ec_framing e) d (ec_uart e) /\ ec_serial e = k.

Lemma exchange_asks d k e c ms cap : port_at d k e -> ep_fits c -> dev_time_us d c <= 1500 * ms -> ms <= 2000 ->
  exists u, Ecc204_exchange (cm_op c) (cm_mode c) (cm_param2 c) (cm_data c) ms cap e = Some (ask d c cap, set_uart u e) /\
    port_at (dev_next d c) k (set_uart u e).
Proof.
  intros [Hi Hk] Hf Ht Hms. destruct e as [u f s]. cbn [ec_framing ec_uart ec_serial] in *. subst s.
  destruct (ep_encode f c Hf) as [Ee Le]. destruct (ep_wake f d u Hi) as (u1 & Ew & H1).
  destruct (ep_write f d c u1 H1 Hf) as (u2 & Er & H2).
  destruct (ep_read f d c u2 (Z.min 4294967295 (ms * 1500)) H2) as (raw & u3 & Ed & Lr & Ea & H3); [lia|].
  unfold Ecc204_exchange, sbind, on_uart, within_cap, set_uart. cbn [ec_framing ec_uart ec_serial].
  rewrite Ee, Ew. cbn [ec_framing ec_uart ec_serial]. rewrite (proj2 (Nat.ltb_ge _ _) Le). cbn [ec_framing ec_uart ec_serial]. rewrite Er. cbn [ec_framing ec_uart ec_serial].
  rewrite Ed. cbn [ec_framing ec_uart ec_serial]. rewrite (proj2 (Nat.ltb_ge _ _) Lr). cbn [ec_framing ec_uart ec_serial]. rewrite Ea. unfold ask.
  exists u3. split; [|by split]. destruct (dev_answer d c) as [l|]; [|done]. by destruct (Nat.ltb cap (length l)).
Qed.

Lemma ask_cap d c cap l : ask d c cap = Ok l -> (length l <= cap)%nat.
Proof. unfold ask. destruct (dev_answer d c) as [l'|]; [|done]. destruct (Nat.ltb_spec cap (length l')); [done|]. by intros [= ->]. Qed.

(** The outcome of a call, on both sides. *)
Definition serves_call (d : D) (k : option (list Z)) (e : Ecc204 U F) (c : SeCall) : Prop :=
  exists r e' cmds d' k', run_secall c e = Some (r, e') /\ device_call d k c cmds r d' k' /\ promised c r /\
    port_at d' k' e' /\ (forall s, k' = Some s -> length s = SERIAL_LEN).

Section call.
Variables (d : D) (k : option (list Z)) (e : Ecc204 U F).
Hypothesis (Hp : port_at d k e) (Hs : forall s, k = Some s -> length s = SERIAL_LEN).

Ltac done_call := by eexists _, _, _, _, _.
Ltac one_exchange H cmd cap :=
  let u := fresh "u" in let E := fresh "E" in let H' := fresh "H" in
  destruct (exchange_asks d k e cmd _ cap Hp (proj1 H) (proj2 H) ltac:(by vm_compute)) as (u & E & H');
  cbn [cm_op cm_mode cm_param2 cm_data] in E; unfold sbind; rewrite E.

Lemma hmac_serves msg : keeps_times [CallHmac msg] -> serves_call d k e (CallHmac msg).
Proof using Hp Hs.
  intros Hk. assert (forall d0 cmd, cmd ∈ [START_CMD; END_CMD msg] -> ep_fits cmd /\ dev_time_us d0 cmd <= 1500 * EXEC_SHA) as K
    by (intros d0 cmd Hc; apply (Hk d0 (CallHmac msg)); set_solver).
  pose proof (fun d0 => K d0 START_CMD ltac:(set_solver)) as K1. pose proof (fun d0 => K d0 (END_CMD msg) ltac:(set_solver)) as K2.
  unfold serves_call. cbn [run_secall]. unfold as_bytes, Ecc204_hmac.
  destruct (exchange_asks d k e START_CMD EXEC_SHA 32 Hp (proj1 (K1 d)) (proj2 (K1 d)) ltac:(done)) as (u1 & E1 & H1).
  cbn [START_CMD cm_op cm_mode cm_param2 cm_data] in E1. unfold sbind. rewrite E1. destruct (ask d START_CMD 32) as [l|x] eqn:Ea.
  - set (d1 := dev_next d START_CMD) in *.
    destruct (exchange_asks d1 k _ (END_CMD msg) EXEC_SHA 32 H1 (proj1 (K2 d1)) (proj2 (K2 d1)) ltac:(done)) as (u2 & E2 & H2).
    cbn [END_CMD cm_op cm_mode cm_param2 cm_data] in E2. rewrite E2. pose proof (dc_hmac d k msg l Ea) as Hd. cbv zeta in Hd. fold d1 in Hd.
    destruct (ask d1 (END_CMD msg) 32) as [l2|x]; [|done_call]. unfold sret. destruct (Nat.eqb_spec (length l2) 32); done_call.
  - eexists _, _, _, _, _. split; [reflexivity|]. split; [by apply dc_hmac_start|]. done.
Qed.

Lemma random_serves n : keeps_times [CallRandom n] -> serves_call d k e (CallRandom n).
Proof using Hp Hs.
  intros Hk. pose proof (Hk d (CallRandom n) (mkCmd OP_NONCE 0 0 []) EXEC_NONCE ltac:(set_solver) ltac:(set_solver)) as K.
  unfold serves_call. cbn [run_secall]. unfold as_bytes, Ecc204_random. one_exchange K (mkCmd OP_NONCE 0 0 []) 32%nat.
  pose proof (dc_random d k n) as Hd. cbv zeta in Hd. destruct (ask d _ 32) as [l|x]; [|done_call]. unfold sret.
  destruct (Nat.ltb_spec (length l) n); eexists _, _, _, _, _; (split; [reflexivity|split; [exact Hd|split; [|done]]]); [done|].
  cbn. rewrite length_take. lia.
Qed.

Lemma sign_serves digest : keeps_times [CallSign digest] -> serves_call d k e (CallSign digest).
Proof using Hp Hs.
  intros Hk. pose proof (Hk d (CallSign digest) (mkCmd OP_SIGN 0 0 digest) EXEC_SIGN ltac:(set_solver) ltac:(set_solver)) as K.
  unfold serves_call. cbn [run_secall]. unfold as_bytes, Ecc204_sign. one_exchange K (mkCmd OP_SIGN 0 0 digest) SIGNATURE_LEN.
  pose proof (dc_sign d k digest) as Hd. cbv zeta in Hd. destruct (ask d _ SIGNATURE_LEN) as [l|x]; [|done_call].
  unfold sret. destruct (Nat.eqb_spec (length l) SIGNATURE_LEN); done_call.
Qed.

Lemma serial_serves : keeps_times [CallSerial] -> serves_call d k e CallSerial.
Proof using Hp Hs.
  intros Hk. pose proof (Hk d (CallSerial) (mkCmd OP_INFO 0 0 []) EXEC_INFO ltac:(set_solver) ltac:(set_solver)) as K.
  unfold serves_call. cbn [run_secall]. unfold as_bytes, Ecc204_serial, sbind at 1. pose proof (proj2 Hp) as Ek. rewrite Ek.
  destruct k as [s|].
  { eexists _, _, _, _, _. split; [reflexivity|]. split; [apply dc_serial_known|]. split; [by apply Hs|done]. }
  destruct (exchange_asks d None e _ _ 32 Hp (proj1 K) (proj2 K) ltac:(by vm_compute)) as (u & E & H').
  cbn [cm_op cm_mode cm_param2 cm_data] in E. unfold sbind. rewrite E. destruct (ask d _ 32) as [l|x] eqn:Ea.
  - unfold sret. destruct (Nat.ltb_spec (length l) SERIAL_LEN).
    + eexists _, _, _, _, _. split; [reflexivity|]. split; [apply dc_serial_failed; rewrite Ea; by split|]. done.
    + assert (length (take SERIAL_LEN l) = SERIAL_LEN) by (rewrite length_take; lia).
      eexists _, _, _, _, _. split; [reflexivity|]. split; [by apply dc_serial|].
      split; [done|]. split; [|by intros s [= <-]]. split; [exact (proj1 H')|done].
  - eexists _, _, _, _, _. split; [reflexivity|]. split; [apply dc_serial_failed; by rewrite Ea|]. done.
Qed.

Lemma counter_serves : keeps_times [CallCounter] -> serves_call d k e CallCounter.
Proof using Hp Hs.
  intros Hk. pose proof (Hk d (CallCounter) (mkCmd OP_COUNTER 1 0 []) EXEC_COUNTER ltac:(set_solver) ltac:(set_solver)) as K.
  unfold serves_call. cbn [run_secall]. unfold Ecc204_counter_increment. one_exchange K (mkCmd OP_COUNTER 1 0 []) 4%nat.
  pose proof (dc_counter d k) as Hd. cbv zeta in Hd.
  destruct (ask d _ 4) as [l|x] eqn:Ea; [|done_call]. apply ask_cap in Ea. unfold sret.
  destruct l as [|x0 [|x1 [|x2 [|x3 [|x4 l]]]]]; try done_call; [|cbn in Ea; lia].
  destruct (Z.leb_spec COUNTER_MAX (from_le32 x0 x1 x2 x3)); done_call.
Qed.

Lemma secall_serves c : keeps_times [c] -> serves_call d k e c.
Proof using Hp Hs. destruct c; [apply hmac_serves|apply random_serves|apply sign_serves|apply serial_serves|apply counter_serves]. Qed.
End call.

Lemma secalls_serve cs : forall d k e, port_at d k e -> keeps_times cs -> (forall s, k = Some s -> length s = SERIAL_LEN) ->
  exists rs e' cmds d', run_secalls cs e = Some (rs, e') /\ device_calls d k cs cmds rs d' /\ Forall2 promised cs rs.
Proof.
  induction cs as [|c cs IH]; intros d k e Hp Hk Hs.
  - eexists _, _, _, _. split; [reflexivity|]. split; [constructor|done].
  - destruct (secall_serves d k e Hp Hs c) as (r & e1 & cmds & d1 & k1 & E1 & Hd & Hr & Hp1 & Hs1).
    { intros d0 c0 cmd ms Hin. apply Hk. set_solver. }
    destruct (IH d1 k1 e1 Hp1) as (rs & e2 & cmds' & d2 & E2 & Hds & Hrs); [|done|].
    { intros d0 c0 cmd ms Hin. apply Hk. set_solver. }
    exists (r :: rs), e2, (cmds ++ cmds'), d2. cbn [run_secalls]. rewrite E1, E2. split; [done|].
    split; [by econstructor|by constructor].
Qed.
End driver.

(** The driver is a faithful front of the device.  Over a port that carries
    commands to a device which keeps the published execution times, any sequence of
    secure-element calls on a fresh driver runs without a panic; the device is asked
    exactly the commands of each call, in order, a call that fails at one command
    sends no further one and a serial once read is never asked for again; each call
    reports the device's own answer or an error; and what it reports as success has
    the promised length, and a counter value below the ceiling. *)
Theorem ecc204_serves {U F D} {HU : SwiUart U} {HF : Framing U F} {HD : EccDevice D} {HP : EccPort U F D}
    (d : D) (u : U) (f : F) (cs : list SeCall) : ep_idle f d u -> keeps_times cs ->
  exists rs e' cmds d', run_secalls cs (Ecc204_new u f) = Some (rs, e') /\ device_calls d None cs cmds rs d' /\
    Forall2 promised cs rs.
Proof. intros Hi Hk. by apply (secalls_serve cs d None (Ecc204_new u f)). Qed.

(** ** A bench device behind a plain packet format *)

Record BenchUart := mkBenchUart { bu_count : Z; bu_raw : list Z }.
Definition bench_answer (d : Z) (c : EccCmd) : result (list Z) SeError :=
  if cm_op c =? OP_SHA then Ok (if cm_mode c =? ECC204_HMAC_END then replicate 32 (Z.of_nat (length (cm_data c))) else [])
  else if cm_op c =? OP_NONCE then Ok (replicate 32 7)
  else if cm_op c =? OP_INFO then Ok [1; 35; 69; 103; 137; 171; 205; 239; 238; 0; 0; 0]
  else if cm_op c =? OP_SIGN then Ok (replicate 64 9)
  else if cm_op c =? OP_COUNTER then Ok (to_le32 (d + 1))
  else Err SeRejected.
Definition bench_raw (d : Z) (c : EccCmd) : list Z := match bench_answer d c with Ok l => 0 :: l | Err _ => [1] end.
#[export] Instance bench_device : EccDevice Z := {
  dev_answer := bench_answer;
  dev_next d c := if cm_op c =? OP_COUNTER then d + 1 else d;
  dev_time_us d c := 20000;
}.
#[export] Instance bench_uart : SwiUart BenchUart := {
  uart_set_baud _ u := (Ok tt, u);
  uart_write pkt u :=
    match pkt with
    | op :: mode :: lo :: hi :: data =>
        let c := mkCmd op mode (from_le16 lo hi) data in
        (Ok tt, mkBenchUart (dev_next (bu_count u) c) (bench_raw (bu_count u) c))
    | _ => (Err tt, u)
    end;
  uart_read len t u := if 20000 <=? t then (Ok (take len (bu_raw u)), u) else (Err tt, u);
}.
#[export] Instance bench_framing : Framing BenchUart unit := {
  fr_encode _ op mode p2 data cap :=
    if Nat.leb (4 + length data) cap then Ok (op :: mode :: to_le16 p2 ++ data) else Err SeBadResponse;
  fr_decode _ raw := match raw with 0 :: l => Ok l | 1 :: _ => Err SeRejected | _ => Err SeBadResponse end;
  fr_wake _ u := (Ok tt, u);
}.
Lemma bench_short d c : (length (bench_raw d c) <= CMD_CAP)%nat.
Proof. unfold bench_raw, bench_answer, CMD_CAP. repeat match goal with |- context [if ?b then _ else _] => destruct b end; cbn; lia. Qed.

#[export, refine] Instance bench_port : EccPort BenchUart unit Z := {
  ep_fits c := (length (cm_data c) <= 90)%nat /\ is_u16 (cm_param2 c);
  ep_packet _ c := cm_op c :: cm_mode c :: to_le16 (cm_param2 c) ++ cm_data c;
  ep_idle _ d u := bu_count u = d;
  ep_awake _ d u := bu_count u = d;
  ep_busy _ d c u := bu_count u = dev_next d c /\ bu_raw u = bench_raw d c;
}.
Proof.
  - intros f c [Hl _]. cbn -[to_le16]. split; [|cbn; unfold CMD_CAP; lia].
    by rewrite (proj2 (Nat.leb_le _ _)) by (unfold CMD_CAP; lia).
  - intros f d u Hd. by exists u.
  - intros f d [op mode p2 data] u <- [Hl Hp]. cbn in Hl, Hp. cbn [cm_op cm_mode cm_param2 cm_data to_le16 app uart_write bench_uart].
    rewrite from_to_le16 by done. by eexists.
  - intros f d c u t [Hd Hr] Ht. cbn [dev_time_us bench_device] in Ht. cbn [uart_read bench_uart].
    rewrite (proj2 (Z.leb_le _ _)), Hr, take_ge by (done || apply bench_short). eexists _, u. split; [reflexivity|].
    split; [apply bench_short|]. split; [|done]. cbn [fr_decode bench_framing dev_answer bench_device].
    unfold bench_raw, bench_answer. by repeat match goal with |- context [if ?b then _ else _] => destruct b end.
Defined.

Definition demo_secalls : list SeCall := [CallSerial; CallHmac [1; 2; 3]; CallCounter; CallSerial; CallRandom 40].

Lemma demo_keeps_times : keeps_times (U := BenchUart) (F := unit) (D := Z) demo_secalls.
Proof.
  intros d c cmd ms Hc Hm. unfold demo_secalls in Hc.
  assert ((length (cm_data cmd) <= 90)%nat /\ is_u16 (cm_param2 cmd) /\ 20 <= ms) as (Hl & Hp & Hms).
  { set_unfold in Hc. destruct_or! Hc; subst c; cbn [call_cmds] in Hm; set_unfold in Hm; destruct_or! Hm;
      injection Hm as -> ->; (split; [cbn; lia|]); (split; [vm_compute; split; congruence|vm_compute; congruence]). }
  split; [by split|]. cbn [dev_time_us bench_device]. lia.
Qed.

Lemma ecc204_serves_witness :
  exists rs e' cmds d', run_secalls demo_secalls (Ecc204_new (mkBenchUart 9 []) tt) = Some (rs, e') /\
    device_calls 9 None demo_secalls cmds rs d' /\ Forall2 promised demo_secalls rs.
Proof. exact (ecc204_serves 9 (mkBenchUart 9 []) tt demo_secalls eq_refl demo_keeps_times). Defined.

Example demo_secalls_run : fst <$> run_secalls demo_secalls (Ecc204_new (mkBenchUart 9 []) tt) =
  Some [Ok (AnsBytes [1; 35; 69; 103; 137; 171; 205; 239; 238]); Ok (AnsBytes (replicate 32 3)); Ok (AnsCount 10);
        Ok (AnsBytes [1; 35; 69; 103; 137; 171; 205; 239; 238]); Err SeBadResponse].
Proof. reflexivity. Qed.

Lemma swi_roundtrip_witness : Forall2 heard (swi_encode_byte 165) [126; 125; 127; 125; 124; 126; 0; 127] /\
  swi_decode_byte [126; 125; 127; 125; 124; 126; 0; 127] = 165.
Proof.
  assert (Forall2 heard (swi_encode_byte 165) [126; 125; 127; 125; 124; 126; 0; 127]) as Hh
    by (repeat (constructor; [reflexivity|]); constructor).
  split; [exact Hh|]. exact (swi_roundtrip 165 _ ltac:(lia) Hh).
Defined.
