(* ===== verification/Stage.v ===== *)
(** * Staged writes (firmware/lib/control-table/src/stage.rs)

    The pending-write buffer: entries pointing into one flat data vector, with
    caller-held snapshots.  The module's contract is stated against an abstract
    list of (address, bytes) writes: [stage_rep]. *)

From S2P Require Import Prelude.

(** ** Errors of the crate (lib.rs) *)

Inductive ValidationKind := VkEnum | VkCompare.
#[export] Instance ValidationKind_eq_dec : EqDecision ValidationKind.
Proof. solve_decision. Defined.
Inductive Error := OutOfRange | AccessError | StagingFull | ValidationError (k : ValidationKind).
#[export] Instance Error_eq_dec : EqDecision Error.
Proof. solve_decision. Defined.
Definition BOOL_ALLOWED : list Z := [0; 1].

(** ** The buffer *)

(** The defaults of the build-time overrides. *)
Definition STAGE_DATA_CAP : nat := 256.
Definition STAGE_ENTRY_CAP : nat := 16.

Record StagedEntry := mkEntry { se_addr : Z; se_len : nat; se_data_off : nat }.
Record Snapshot := mkSnap { sn_data : nat; sn_entries : nat }.
Definition Snapshot_ZERO : Snapshot := mkSnap 0 0.

Record StagedWrites := mkStaged { sw_data : list Z; sw_entries : list StagedEntry }.

Definition StagedWrites_new : StagedWrites := mkStaged [] [].
Definition StagedWrites_clear (_ : StagedWrites) : StagedWrites := mkStaged [] [].
Definition StagedWrites_is_empty (s : StagedWrites) : bool :=
  match sw_entries s with [] => true | _ => false end.
Definition StagedWrites_snapshot (s : StagedWrites) : Snapshot :=
  mkSnap (length (sw_data s)) (length (sw_entries s)).
Definition StagedWrites_revert_to (s : StagedWrites) (snap : Snapshot) : StagedWrites :=
  mkStaged (take (sn_data snap) (sw_data s)) (take (sn_entries snap) (sw_entries s)).

(** [heapless::Vec::extend_from_slice] and [push]: refuse without effect when
    the capacity would be exceeded. *)
Definition vec_extend {A} (cap : nat) (v src : list A) : option (list A) :=
  if Nat.ltb cap (length v + length src) then None else Some (v ++ src).
Definition vec_push {A} (cap : nat) (v : list A) (x : A) : option (list A) :=
  if Nat.leb cap (length v) then None else Some (v ++ [x]).

(** The buffer after the call is returned on the error paths too. *)
Definition StagedWrites_push_split (s : StagedWrites) (addr : Z) (head tail : list Z) :
    result unit Error * StagedWrites :=
  let data_off := length (sw_data s) in
  let total := (length head + length tail)%nat in
  if Nat.ltb STAGE_DATA_CAP (data_off + total) then (Err StagingFull, s)
  else
    match vec_extend STAGE_DATA_CAP (sw_data s) head with
    | None => (Err StagingFull, s)
    | Some d1 =>
        match vec_extend STAGE_DATA_CAP d1 tail with
        | None => (Err StagingFull, mkStaged (take data_off d1) (sw_entries s))
        | Some d2 =>
            match vec_push STAGE_ENTRY_CAP (sw_entries s) (mkEntry addr total data_off) with
            | None => (Err StagingFull, mkStaged (take data_off d2) (sw_entries s))
            | Some es => (Ok tt, mkStaged d2 es)
            end
        end
    end.

Definition StagedWrites_push (s : StagedWrites) (addr : Z) (src : list Z) :=
  StagedWrites_push_split s addr src [].

(** [iter_from] slices: [None] is the panic of a stale snapshot. *)
Definition StagedWrites_iter_from (s : StagedWrites) (snap : Snapshot) : option (list (Z * list Z)) :=
  es ← get_range (sw_entries s) (sn_entries snap) (length (sw_entries s));
  mapM (fun e => d ← get_range (sw_data s) (se_data_off e) (se_data_off e + se_len e);
                 Some (se_addr e, d)) es.
Definition StagedWrites_iter_all (s : StagedWrites) := StagedWrites_iter_from s Snapshot_ZERO.

(** ** The abstract buffer *)

Definition writes_bytes (ws : list (Z * list Z)) : list Z := concat (snd <$> ws).

Fixpoint lay_out (off : nat) (ws : list (Z * list Z)) : list StagedEntry :=
  match ws with
  | [] => []
  | w :: ws' => mkEntry w.1 (length w.2) off :: lay_out (off + length w.2) ws'
  end.

Record stage_rep (s : StagedWrites) (ws : list (Z * list Z)) : Prop := {
  sr_data : sw_data s = writes_bytes ws;
  sr_entries : sw_entries s = lay_out 0 ws;
  sr_data_cap : (length (sw_data s) <= STAGE_DATA_CAP)%nat;
  sr_entry_cap : (length (sw_entries s) <= STAGE_ENTRY_CAP)%nat;
}.

Lemma writes_bytes_app ws ws' : writes_bytes (ws ++ ws') = writes_bytes ws ++ writes_bytes ws'.
Proof. unfold writes_bytes. by rewrite fmap_app, concat_app. Qed.

Lemma lay_out_app ws ws' off :
  lay_out off (ws ++ ws') = lay_out off ws ++ lay_out (off + length (writes_bytes ws)) ws'.
Proof.
  revert off. induction ws as [|w ws IH]; intros off; simpl; [by rewrite Nat.add_0_r|].
  rewrite IH. unfold writes_bytes. simpl. rewrite length_app. by rewrite Nat.add_assoc.
Qed.

Lemma lay_out_length ws off : length (lay_out off ws) = length ws.
Proof. revert off. induction ws; intros; simpl; [done|]. by f_equal. Qed.

Lemma stage_rep_new : stage_rep StagedWrites_new [].
Proof. split; simpl; try done; lia. Qed.
Lemma stage_rep_clear s : stage_rep (StagedWrites_clear s) [].
Proof. apply stage_rep_new. Qed.

(** A push appends one write, or reports a full buffer and changes nothing;
    it is refused exactly when a capacity would be exceeded. *)
Lemma push_split_rep s ws addr head tail :
  stage_rep s ws ->
  let fits := Nat.leb (length (sw_data s) + length (head ++ tail)) STAGE_DATA_CAP &&
              Nat.ltb (length ws) STAGE_ENTRY_CAP in
  match StagedWrites_push_split s addr head tail with
  | (Ok _, s') => fits = true /\ stage_rep s' (ws ++ [(addr, head ++ tail)])
  | (Err e, s') => fits = false /\ e = StagingFull /\ s' = s
  end.
Proof.
  intros [Hd He Hdc Hec] fits. subst fits.
  assert (length (sw_entries s) = length ws) as Lw by (by rewrite He, lay_out_length).
  unfold StagedWrites_push_split, vec_extend, vec_push. rewrite length_app, Lw.
  destruct (Nat.ltb STAGE_DATA_CAP (length (sw_data s) + _)) eqn:E1; zbool.
  { split; [|done]. apply andb_false_iff. left. by apply Nat.leb_gt. }
  destruct (Nat.ltb _ (length (sw_data s) + length head)) eqn:E2; zbool; [lia|].
  destruct (Nat.ltb _ (length (sw_data s ++ head) + _)) eqn:E3; zbool; [rewrite length_app in E3; lia|].
  destruct (Nat.leb STAGE_ENTRY_CAP (length ws)) eqn:E4; zbool.
  - split; [|split; [done|]].
    + apply andb_false_iff. right. by apply Nat.ltb_ge.
    + destruct s as [d es]; simpl. f_equal. by rewrite <- app_assoc, take_app_length.
  - split; [apply andb_true_iff; rewrite Nat.leb_le, Nat.ltb_lt; lia|].
    split; simpl.
    + rewrite writes_bytes_app, Hd. unfold writes_bytes at 3. simpl. by rewrite app_nil_r, <- app_assoc.
    + rewrite lay_out_app, He. simpl. by rewrite length_app, Hd.
    + rewrite !length_app. lia.
    + rewrite length_app, Lw. simpl. lia.
Qed.

Definition snap_of (ws : list (Z * list Z)) : Snapshot := mkSnap (length (writes_bytes ws)) (length ws).

Lemma snapshot_rep s ws : stage_rep s ws -> StagedWrites_snapshot s = snap_of ws.
Proof.
  intros [Hd He _ _]. unfold StagedWrites_snapshot, snap_of. by rewrite Hd, He, lay_out_length.
Qed.

Lemma revert_to_rep s ws ws' : stage_rep s (ws ++ ws') ->
  stage_rep (StagedWrites_revert_to s (snap_of ws)) ws.
Proof.
  intros [Hd He Hdc Hec]. unfold StagedWrites_revert_to, snap_of. simpl.
  assert (take (length (writes_bytes ws)) (sw_data s) = writes_bytes ws) as E1
    by (rewrite Hd, writes_bytes_app; apply take_app_length).
  assert (take (length ws) (sw_entries s) = lay_out 0 ws) as E2.
  { rewrite He, lay_out_app. rewrite <- (lay_out_length ws 0) at 1. apply take_app_length. }
  split; simpl; rewrite ?E1, ?E2; try done.
  - rewrite Hd, writes_bytes_app, length_app in Hdc. lia.
  - rewrite He, lay_out_app, length_app in Hec. lia.
Qed.

Lemma iter_entries_rep ws : forall off pre data,
  off = length pre -> data = pre ++ writes_bytes ws ->
  mapM (fun e => d ← get_range data (se_data_off e) (se_data_off e + se_len e);
                 Some (se_addr e, d)) (lay_out off ws) = Some ws.
Proof.
  induction ws as [|[a d] ws IH]; intros off pre data Ho Hd; [done|].
  cbn [lay_out mapM]. unfold writes_bytes in Hd. rewrite fmap_cons in Hd. simpl in Hd.
  cbn [se_data_off se_len se_addr fst snd].
  rewrite Hd, (get_range_mid off (off + length d) pre d) by (done || lia). simpl.
  rewrite <- Hd.
  rewrite (IH (off + length d)%nat (pre ++ d) data); [done|rewrite length_app; lia|].
  by rewrite <- app_assoc.
Qed.

(** Iterating from a snapshot yields exactly the writes staged since. *)
Lemma iter_from_rep s ws ws' : stage_rep s (ws ++ ws') ->
  StagedWrites_iter_from s (snap_of ws) = Some ws'.
Proof.
  intros [Hd He _ _]. unfold StagedWrites_iter_from, snap_of. simpl.
  rewrite He, lay_out_app.
  rewrite (get_range_ok _ _ _) by (rewrite length_app, !lay_out_length; lia).
  rewrite <- (lay_out_length ws 0) at 2. rewrite drop_app_length.
  rewrite take_ge by (rewrite length_app, !lay_out_length; lia). simpl.
  rewrite Hd, writes_bytes_app. by apply (iter_entries_rep ws' _ (writes_bytes ws)).
Qed.

Lemma stage_rep_inj s s' ws : stage_rep s ws -> stage_rep s' ws -> s = s'.
Proof. intros [] []. destruct s, s'. simpl in *. congruence. Qed.

(** Any run of pushes, refusals included; the writes that got in. *)
Fixpoint push_all (s : StagedWrites) (ops : list (Z * list Z * list Z)) :
    StagedWrites * list (Z * list Z) :=
  match ops with
  | [] => (s, [])
  | (addr, head, tail) :: ops' =>
      match StagedWrites_push_split s addr head tail with
      | (Ok _, s') => let '(s'', acc) := push_all s' ops' in (s'', (addr, head ++ tail) :: acc)
      | (Err _, s') => push_all s' ops'
      end
  end.

Lemma push_all_rep ops : forall s ws, stage_rep s ws ->
  let '(s', acc) := push_all s ops in stage_rep s' (ws ++ acc).
Proof.
  induction ops as [|[[addr head] tail] ops IH]; intros s ws H; simpl; [by rewrite app_nil_r|].
  pose proof (push_split_rep s ws addr head tail H) as P.
  destruct (StagedWrites_push_split s addr head tail) as [[[]|e] s'].
  - destruct P as [_ P]. specialize (IH s' _ P). destruct (push_all s' ops) as [s'' acc].
    by rewrite <- app_assoc in IH.
  - destruct P as (_ & _ & ->). by apply IH.
Qed.

(** The staging buffer is transactional.  From any buffer holding [ws],
    after any run of pushes (some refused for capacity), iterating from the
    snapshot taken before the run yields exactly the accepted writes in order
    and never panics, and reverting to it restores the buffer bit for bit. *)
Theorem staging_transaction s ws ops :
  stage_rep s ws ->
  let snap := StagedWrites_snapshot s in
  let '(s', acc) := push_all s ops in
  StagedWrites_iter_from s' snap = Some acc /\
  StagedWrites_iter_all s' = Some (ws ++ acc) /\
  StagedWrites_revert_to s' snap = s.
Proof.
  intros H snap. pose proof (push_all_rep ops s ws H) as P.
  destruct (push_all s ops) as [s' acc]. subst snap. rewrite (snapshot_rep s ws H).
  split; [by apply iter_from_rep|]. split; [by apply (iter_from_rep s' [] (ws ++ acc))|].
  eapply stage_rep_inj; [by eapply revert_to_rep|done].
Qed.

Lemma staging_transaction_witness :
  let '(s', acc) := push_all StagedWrites_new [(8, [1; 2], [3]); (9, replicate 255 0, []); (4, [], [7])] in
  StagedWrites_revert_to s' Snapshot_ZERO = StagedWrites_new /\ acc = [(8, [1; 2; 3]); (4, [7])].
Proof.
  split; [|reflexivity].
  exact (proj2 (proj2 (staging_transaction StagedWrites_new []
    [(8, [1; 2], [3]); (9, replicate 255 0, []); (4, [], [7])] stage_rep_new))).
Defined.
