(* ===== verification/Table.v ===== *)
(** * The register map (firmware/lib/control-table/src/rules.rs, map.rs)

    A map is its static description, the class [RegisterMap] (the trait's
    constants), over a flat byte memory of [rm_SIZE] bytes.  Validation runs on
    a [View]: live memory plus the pending overlay, split at the ring seam.
    The main theorem says that this validation, with its word-wide mask test,
    its load fast paths and its early loop exits, equals the plain reference:
    bounds, then every byte writable, then every overlapping rule on the memory
    as it would be after the write. *)

From Stdlib Require Import Sorting.Sorted.
From S2P Require Import Prelude Stage.

(** ** Rules as data (rules.rs) *)

Definition OP_LT : Z := 0.
Definition OP_LE : Z := 1.
Definition OP_GT : Z := 2.
Definition OP_GE : Z := 3.
Definition OP_EQ : Z := 4.
Definition OP_NE : Z := 5.
Definition SPEC_SIGNED : Z := 16.
Definition SPEC_ABS : Z := 32.
Definition SPEC_RHS_REG : Z := 64.

Record CmpRule := mkCmp { cr_addr : Z; cr_spec : Z; cr_val : Z }.
Record AllowedRule := mkAllowed { al_addr : Z; al_allowed : list Z }.

Definition spec (width : Z) (signed abs : bool) (op : Z) : Z :=
  Z.lor (Z.lor (Z.lor width (if signed then SPEC_SIGNED else 0)) (if abs then SPEC_ABS else 0))
    (u16 (Z.shiftl op 8)).

Inductive Rhs := RhsImm (v : Z) | RhsReg (reg : Z).

(** ** The map's static description (map.rs) *)

Record SectionMeta := mkSection {
  sec_base : Z; sec_size : Z; sec_cmp_rules : Z * Z; sec_allowed_rules : Z * Z;
}.

Class RegisterMap := {
  rm_SIZE : nat;
  rm_WRITABLE : list Z;
  rm_SECTIONS : list SectionMeta;
  rm_CMP_RULES : list CmpRule;
  rm_ALLOWED_RULES : list AllowedRule;
}.

(** ** Views *)

Record View := mkView {
  vw_base : list Z; vw_size : nat; vw_overlay_addr : nat; vw_o1 : list Z; vw_o2 : list Z;
}.
Definition View_new_split (base : list Z) (size : nat) (overlay_addr : Z) (o1 o2 : list Z) : View :=
  mkView base size (Z.to_nat overlay_addr) o1 o2.
Definition View_new (base : list Z) (size : nat) (overlay_addr : Z) (overlay : list Z) : View :=
  View_new_split base size overlay_addr overlay [].

(** [load_le4(base.add(off), len)]: callers have checked the bounds. *)
Definition load_le4 (p : list Z) (off len : nat) : list Z :=
  match len with
  | 0%nat => [0; 0; 0; 0]
  | 1%nat => [p !!! off; 0; 0; 0]
  | 2%nat => [p !!! off; p !!! (off + 1)%nat; 0; 0]
  | 3%nat => [p !!! off; p !!! (off + 1)%nat; p !!! (off + 2)%nat; 0]
  | _ => [p !!! off; p !!! (off + 1)%nat; p !!! (off + 2)%nat; p !!! (off + 3)%nat]
  end.

Definition View_pick (v : View) (o_lo split o_hi a : nat) : Z :=
  if Nat.leb o_lo a && Nat.ltb a split then default 0 (vw_o1 v !! (a - o_lo)%nat)
  else if Nat.leb split a && Nat.ltb a o_hi then default 0 (vw_o2 v !! (a - split)%nat)
  else vw_base v !!! a.

Definition View_read_mixed (v : View) (lo len o_lo split o_hi : nat) : list Z :=
  let n := Nat.min len 4 in
  ((fun i => View_pick v o_lo split o_hi (lo + i)%nat) <$> seq 0 n) ++ replicate (4 - n) 0.

(** [addr] is a [u16] and [len] small: [checked_add] on [usize] cannot fail. *)
Definition View_read_fixed (v : View) (addr : Z) (len : nat) : result (list Z) Error :=
  let lo := Z.to_nat addr in
  let hi := (lo + len)%nat in
  if Nat.ltb (vw_size v) hi then Err OutOfRange
  else
    let o_lo := vw_overlay_addr v in
    let split := (o_lo + length (vw_o1 v))%nat in
    let o_hi := (split + length (vw_o2 v))%nat in
    if Nat.leb hi o_lo || Nat.leb o_hi lo then Ok (load_le4 (vw_base v) lo len)
    else if Nat.leb o_lo lo && Nat.leb hi split then Ok (load_le4 (vw_o1 v) (lo - o_lo) len)
    else Ok (View_read_mixed v lo len o_lo split o_hi).

(** ** Rule checks *)

Definition widen_bytes (b : list Z) (width : Z) (signed : bool) : Z :=
  match width, signed with
  | 1, false => b !!! 0%nat
  | 1, true => i8 (b !!! 0%nat)
  | 2, false => from_le16 (b !!! 0%nat) (b !!! 1%nat)
  | 2, true => i16 (from_le16 (b !!! 0%nat) (b !!! 1%nat))
  | _, _ => i32 (from_le32 (b !!! 0%nat) (b !!! 1%nat) (b !!! 2%nat) (b !!! 3%nat))
  end.

(** The rule bodies are written once over a reader, then run on the view. *)
Section Rules.
Context (read : Z -> nat -> result (list Z) Error).

Definition check_allowed (addr : Z) (allowed : list Z) : result unit Error :=
  let? b := read addr 1 in
  if existsb (Z.eqb (b !!! 0%nat)) allowed then Ok tt else Err (ValidationError VkEnum).

Definition widen (addr width : Z) (signed : bool) : result Z Error :=
  let? b := read addr (Z.to_nat width) in Ok (widen_bytes b width signed).

Definition saturating_abs32 (x : Z) : Z := if x =? - 2147483648 then 2147483647 else Z.abs x.

Definition check_cmp (addr sp : Z) (rhs : Rhs) : result unit Error :=
  let width := Z.land sp 15 in
  let signed := negb (Z.land sp SPEC_SIGNED =? 0) in
  let? a := widen addr width signed in
  let? r := match rhs with RhsImm v => Ok v | RhsReg reg => widen reg width signed end in
  let sat_max := match width with 1 => 127 | 2 => 32767 | _ => 2147483647 end in
  let '(a, r) := if negb (Z.land sp SPEC_ABS =? 0)
                 then (Z.min (saturating_abs32 a) sat_max, Z.min (saturating_abs32 r) sat_max)
                 else (a, r) in
  let ok := match u8 (Z.shiftr sp 8) with
            | 0 => a <? r
            | 1 => a <=? r
            | 2 => r <? a
            | 3 => r <=? a
            | 4 => a =? r
            | _ => negb (a =? r)
            end in
  if ok then Ok tt else Err (ValidationError VkCompare).

Definition overlaps (a_lo a_len lo hi : nat) : bool := Nat.ltb a_lo hi && Nat.ltb lo (a_lo + a_len).

Definition allowed_rule_check (r : AllowedRule) : result unit Error :=
  check_allowed (al_addr r) (al_allowed r).
Definition cmp_rule_check (r : CmpRule) : result unit Error :=
  check_cmp (cr_addr r) (cr_spec r)
    (if negb (Z.land (cr_spec r) SPEC_RHS_REG =? 0)
     then RhsReg (u16 (cr_val r)) else RhsImm (i32 (cr_val r))).
Definition allowed_rule_hit (lo hi : nat) (r : AllowedRule) : bool :=
  overlaps (Z.to_nat (al_addr r)) 1 lo hi.
Definition cmp_rule_hit (lo hi : nat) (r : CmpRule) : bool :=
  overlaps (Z.to_nat (cr_addr r)) (Z.to_nat (Z.land (cr_spec r) 15)) lo hi.

(** The rule loops: stop at the first rule past the write. *)
Fixpoint allowed_loop (lo hi : nat) (rs : list AllowedRule) : result unit Error :=
  match rs with
  | [] => Ok tt
  | r :: rs' =>
      if Nat.leb hi (Z.to_nat (al_addr r)) then Ok tt
      else if allowed_rule_hit lo hi r
           then let? _ := allowed_rule_check r in allowed_loop lo hi rs'
           else allowed_loop lo hi rs'
  end.
Fixpoint cmp_loop (lo hi : nat) (rs : list CmpRule) : result unit Error :=
  match rs with
  | [] => Ok tt
  | r :: rs' =>
      if Nat.leb hi (Z.to_nat (cr_addr r)) then Ok tt
      else if cmp_rule_hit lo hi r
           then let? _ := cmp_rule_check r in cmp_loop lo hi rs'
           else cmp_loop lo hi rs'
  end.

Definition slice_z {A} (l : list A) (r : Z * Z) : option (list A) :=
  get_range l (Z.to_nat r.1) (Z.to_nat r.2).

Fixpoint section_loop {M : RegisterMap} (lo hi : nat) (ss : list SectionMeta) : result unit Error :=
  match ss with
  | [] => Ok tt
  | sec :: ss' =>
      if negb (overlaps (Z.to_nat (sec_base sec)) (Z.to_nat (sec_size sec)) lo hi)
      then section_loop lo hi ss'
      else
        let? _ := match slice_z rm_ALLOWED_RULES (sec_allowed_rules sec) with
                  | Some rs => allowed_loop lo hi rs
                  | None => Ok tt
                  end in
        let? _ := match slice_z rm_CMP_RULES (sec_cmp_rules sec) with
                  | Some rs => cmp_loop lo hi rs
                  | None => Ok tt
                  end in
        section_loop lo hi ss'
  end.
End Rules.

(** ** Validation *)

(** One word of the mask test. *)
Definition word_mask (lo hi wi : nat) : Z :=
  let word_lo := (wi * 32)%nat in
  let start_bit := Z.of_nat (lo - word_lo) in
  let end_bit := Z.of_nat (Nat.min (hi - word_lo) 32) in
  let covered := if end_bit =? 32 then 4294967295 else u32 (Z.shiftl 1 end_bit - 1) in
  Z.land covered (Z.lxor 4294967295 (u32 (Z.shiftl 1 start_bit - 1))).

(** [for wi in first..=last], [n] words from [wi]. *)
Fixpoint mask_loop {M : RegisterMap} (lo hi wi n : nat) : bool :=
  match n with
  | O => true
  | S n' =>
      let mask := word_mask lo hi wi in
      let w := default 0 (rm_WRITABLE !! wi) in
      if negb (Z.land w mask =? mask) then false else mask_loop lo hi (S wi) n'
  end.

Definition validate {M : RegisterMap} (mem : list Z) (addr : Z) (o1 o2 : list Z) : result unit Error :=
  let total := (length o1 + length o2)%nat in
  if Nat.eqb total 0 then Ok tt
  else
    let lo := Z.to_nat addr in
    let hi := (lo + total)%nat in
    if Nat.ltb rm_SIZE hi then Err OutOfRange
    else
      let first := (lo / 32)%nat in
      let last := ((hi - 1) / 32)%nat in
      if negb (mask_loop lo hi first (last - first + 1)) then Err AccessError
      else section_loop (View_read_fixed (View_new_split mem rm_SIZE addr o1 o2)) lo hi rm_SECTIONS.

(** ** The register file *)

Definition RegisterFile_read {M : RegisterMap} (mem : list Z) (addr len : Z) : result (list Z) Error :=
  let hi := addr + len in
  if Z.of_nat rm_SIZE <? hi then Err OutOfRange
  else if len =? 0 then Ok []
  else Ok (take (Z.to_nat len) (drop (Z.to_nat addr) mem)).

Definition RegisterFile_write_split {M : RegisterMap} (mem : list Z) (addr : Z) (head tail : list Z) :
    result (list Z) Error :=
  let? _ := validate mem addr head tail in
  Ok (splice (Z.to_nat addr + length head) tail (splice (Z.to_nat addr) head mem)).
Definition RegisterFile_write {M : RegisterMap} (mem : list Z) (addr : Z) (src : list Z) :=
  RegisterFile_write_split mem addr src [].

Definition RegisterFile_stage_split {M : RegisterMap} (mem : list Z) (addr : Z) (head tail : list Z)
    (staged : StagedWrites) : result unit Error * StagedWrites :=
  match validate mem addr head tail with
  | Err e => (Err e, staged)
  | Ok _ => StagedWrites_push_split staged addr head tail
  end.
Definition RegisterFile_stage {M : RegisterMap} (mem : list Z) (addr : Z) (src : list Z)
    (staged : StagedWrites) := RegisterFile_stage_split mem addr src [] staged.

Fixpoint apply_writes {M : RegisterMap} (mem : list Z) (ws : list (Z * list Z)) : list Z :=
  match ws with
  | [] => mem
  | (addr, data) :: ws' =>
      if Nat.ltb rm_SIZE (Z.to_nat addr + length data) then apply_writes mem ws'
      else apply_writes (splice (Z.to_nat addr) data mem) ws'
  end.
Definition apply_from {M : RegisterMap} (mem : list Z) (staged : StagedWrites) (snap : Snapshot) :
    option (list Z) :=
  ws ← StagedWrites_iter_from staged snap; Some (apply_writes mem ws).

(** [None]: a panic while iterating a stale snapshot. *)
Definition RegisterFile_commit_staged {M : RegisterMap} (mem : list Z) (staged : StagedWrites) :
    option (list Z * StagedWrites) :=
  mem' ← apply_from mem staged Snapshot_ZERO; Some (mem', StagedWrites_clear staged).
Definition RegisterFile_commit_from {M : RegisterMap} (mem : list Z) (staged : StagedWrites)
    (snap : Snapshot) : option (list Z * StagedWrites) :=
  mem' ← apply_from mem staged snap; Some (mem', StagedWrites_revert_to staged snap).

(** ** Reference semantics *)

Definition byte_writable {M : RegisterMap} (i : nat) : bool :=
  Z.testbit (default 0 (rm_WRITABLE !! (i / 32)%nat)) (Z.of_nat (i mod 32)).

(** A plain load from a flat memory. *)
Definition flat_read {M : RegisterMap} (mem : list Z) (addr : Z) (len : nat) : result (list Z) Error :=
  if Nat.ltb rm_SIZE (Z.to_nat addr + len) then Err OutOfRange
  else Ok (load_le4 mem (Z.to_nat addr) len).

Fixpoint first_err (rs : list (result unit Error)) : result unit Error :=
  match rs with [] => Ok tt | Ok _ :: rs' => first_err rs' | Err e :: _ => Err e end.

(** Every rule of a section that the write [lo, hi) touches. *)
Definition section_checks {M : RegisterMap} read (lo hi : nat) (sec : SectionMeta) :
    list (result unit Error) :=
  if overlaps (Z.to_nat (sec_base sec)) (Z.to_nat (sec_size sec)) lo hi
  then (allowed_rule_check read <$>
          filter (fun r => allowed_rule_hit lo hi r = true) (default [] (slice_z rm_ALLOWED_RULES (sec_allowed_rules sec)))) ++
       (cmp_rule_check read <$>
          filter (fun r => cmp_rule_hit lo hi r = true) (default [] (slice_z rm_CMP_RULES (sec_cmp_rules sec))))
  else [].

Definition rules_ref {M : RegisterMap} (mem : list Z) (lo hi : nat) : result unit Error :=
  first_err (concat (section_checks (flat_read mem) lo hi <$> rm_SECTIONS)).

Definition all_writable {M : RegisterMap} (lo len : nat) : bool := forallb byte_writable (seq lo len).

(** Bounds, then access, then the rules on the memory after the write. *)
Definition validate_ref {M : RegisterMap} (mem : list Z) (addr : Z) (data : list Z) : result unit Error :=
  let lo := Z.to_nat addr in
  match data with
  | [] => Ok tt
  | _ =>
      if Nat.ltb rm_SIZE (lo + length data) then Err OutOfRange
      else if negb (all_writable lo (length data)) then Err AccessError
      else rules_ref (splice lo data mem) lo (lo + length data)
  end.

(** The derive's promise: each section's rules are in address order. *)
Definition map_wf {M : RegisterMap} : Prop :=
  Forall (fun sec =>
    StronglySorted (fun a b => al_addr a <= al_addr b)
      (default [] (slice_z rm_ALLOWED_RULES (sec_allowed_rules sec))) /\
    StronglySorted (fun a b => cr_addr a <= cr_addr b)
      (default [] (slice_z rm_CMP_RULES (sec_cmp_rules sec)))) rm_SECTIONS.

(** ** Loads *)

Lemma load_le4_seq p off len :
  load_le4 p off len =
    ((fun i => p !!! (off + i)%nat) <$> seq 0 (Nat.min len 4)) ++ replicate (4 - Nat.min len 4) 0.
Proof. destruct len as [|[|[|[|len]]]]; simpl; rewrite ?Nat.add_0_r, ?Nat.min_0_r; done. Qed.

Lemma splice_lookup_total (n : nat) (s d : list Z) i :
  (n + length s <= length d)%nat ->
  splice n s d !!! i = if Nat.leb n i && Nat.ltb i (n + length s) then s !!! (i - n)%nat else d !!! i.
Proof.
  intros H. rewrite list_lookup_total_alt, splice_lookup by done.
  rewrite !list_lookup_total_alt. case_goal; done.
Qed.

Lemma default_lookup_total (l : list Z) i d : (i < length l)%nat -> l !!! i = default d (l !! i).
Proof. intros H. rewrite (list_lookup_lookup_total_lt l i) by done. done. Qed.

Lemma read_fixed_flat {M : RegisterMap} mem addr o1 o2 a len :
  length mem = rm_SIZE -> (Z.to_nat addr + length (o1 ++ o2) <= rm_SIZE)%nat ->
  View_read_fixed (View_new_split mem rm_SIZE addr o1 o2) a len =
    flat_read (splice (Z.to_nat addr) (o1 ++ o2) mem) a len.
Proof.
  intros Hm Hb. unfold View_read_fixed, flat_read, View_new_split. cbn [vw_size vw_base vw_overlay_addr vw_o1 vw_o2].
  set (o_lo := Z.to_nat addr) in *. set (lo := Z.to_nat a). rewrite length_app in Hb.
  destruct (Nat.ltb rm_SIZE (lo + len)) eqn:E0; [done|]. zbool.
  rewrite !(load_le4_seq (splice _ _ _)).
  assert (forall i, splice o_lo (o1 ++ o2) mem !!! i =
    View_pick (mkView mem rm_SIZE o_lo o1 o2) o_lo (o_lo + length o1) (o_lo + length o1 + length o2) i) as P.
  { intros i. rewrite splice_lookup_total by (rewrite length_app; lia). rewrite length_app.
    unfold View_pick. cbn [vw_o1 vw_o2 vw_base].
    destruct (Nat.leb o_lo i) eqn:L1, (Nat.ltb i (o_lo + length o1)) eqn:L2; zbool; cbn [andb].
    - destruct (Nat.ltb i _) eqn:L3; zbool; [|lia]. rewrite lookup_total_app_l by lia.
      by apply default_lookup_total; lia.
    - rewrite Nat.add_assoc. destruct (Nat.leb _ i) eqn:L4; zbool; [|lia]. cbn [andb].
      destruct (Nat.ltb i _) eqn:L3; [|done]. zbool. rewrite lookup_total_app_r by lia.
      replace (i - o_lo - length o1)%nat with (i - (o_lo + length o1))%nat by lia.
      by apply default_lookup_total; lia.
    - destruct (Nat.leb _ i) eqn:L4; zbool; [lia|done].
    - lia. }
  destruct (Nat.leb (lo + len) o_lo || _) eqn:E1; [|destruct (Nat.leb o_lo lo && _) eqn:E2].
  - rewrite load_le4_seq. do 2 f_equal. apply list_fmap_ext. intros k i Hi%lookup_seq.
    rewrite P. unfold View_pick. cbn [vw_base]. apply orb_true_iff in E1 as [E1|E1]; zbool;
      repeat case_goal; zbool; try lia; done.
  - zbool. rewrite load_le4_seq. do 2 f_equal. apply list_fmap_ext. intros k i Hi%lookup_seq.
    rewrite P. unfold View_pick. cbn [vw_o1].
    destruct (Nat.leb o_lo (lo + i) && _) eqn:E3.
    + zbool. rewrite <- default_lookup_total by lia. f_equal. lia.
    + apply andb_false_iff in E3 as [E3|E3]; zbool; lia.
  - unfold View_read_mixed. do 2 f_equal. apply list_fmap_ext. intros k i _. by rewrite P.
Qed.

(** ** The rule loops respect the reader, and equal the filtered checks *)

Section Loops.
Context (read read' : Z -> nat -> result (list Z) Error) (Hread : forall a n, read a n = read' a n).

Lemma allowed_rule_check_ext r : allowed_rule_check read r = allowed_rule_check read' r.
Proof using Hread. unfold allowed_rule_check, check_allowed. by rewrite Hread. Qed.

Lemma widen_ext a w s : widen read a w s = widen read' a w s.
Proof using Hread. unfold widen. by rewrite Hread. Qed.

Lemma cmp_rule_check_ext r : cmp_rule_check read r = cmp_rule_check read' r.
Proof using Hread.
  unfold cmp_rule_check, check_cmp. rewrite widen_ext.
  case_goal; [by rewrite widen_ext|done].
Qed.
End Loops.

Lemma first_err_app l1 l2 : first_err (l1 ++ l2) = let? _ := first_err l1 in first_err l2.
Proof. induction l1 as [|[[]|e] l1 IH]; simpl; [done|apply IH|done]. Qed.

Lemma filter_none {A} (p : A -> bool) l :
  Forall (fun x => p x = false) l -> filter (fun x => p x = true) l = [].
Proof.
  induction 1 as [|x l Hx Hl IH]; [done|]. rewrite filter_cons_False by (by rewrite Hx). done.
Qed.

Lemma allowed_loop_ref read lo hi rs :
  StronglySorted (fun a b => al_addr a <= al_addr b) rs ->
  allowed_loop read lo hi rs =
    first_err (allowed_rule_check read <$> filter (fun r => allowed_rule_hit lo hi r = true) rs).
Proof.
  induction 1 as [|r rs Hs IH Hall]; [done|]. cbn [allowed_loop].
  destruct (Nat.leb hi (Z.to_nat (al_addr r))) eqn:E; zbool.
  - assert (filter (fun r => allowed_rule_hit lo hi r = true) (r :: rs) = []) as ->; [|done].
    apply filter_none. constructor; [|eapply Forall_impl; [|exact Hall]; intros r' Hr'; simpl in Hr'];
      apply andb_false_iff; left; apply Nat.ltb_ge; lia.
  - destruct (allowed_rule_hit lo hi r) eqn:Eh.
    + rewrite filter_cons_True by done. rewrite fmap_cons. rewrite IH.
      simpl. destruct (allowed_rule_check read r) as [[]|]; done.
    + rewrite filter_cons_False by (by rewrite Eh). apply IH.
Qed.

Lemma cmp_loop_ref read lo hi rs :
  StronglySorted (fun a b => cr_addr a <= cr_addr b) rs ->
  cmp_loop read lo hi rs =
    first_err (cmp_rule_check read <$> filter (fun r => cmp_rule_hit lo hi r = true) rs).
Proof.
  induction 1 as [|r rs Hs IH Hall]; [done|]. cbn [cmp_loop].
  destruct (Nat.leb hi (Z.to_nat (cr_addr r))) eqn:E; zbool.
  - assert (filter (fun r => cmp_rule_hit lo hi r = true) (r :: rs) = []) as ->; [|done].
    apply filter_none. constructor; [|eapply Forall_impl; [|exact Hall]; intros r' Hr'; simpl in Hr'];
      apply andb_false_iff; left; apply Nat.ltb_ge; lia.
  - destruct (cmp_rule_hit lo hi r) eqn:Eh.
    + rewrite filter_cons_True by done. rewrite fmap_cons. rewrite IH.
      simpl. destruct (cmp_rule_check read r) as [[]|]; done.
    + rewrite filter_cons_False by (by rewrite Eh). apply IH.
Qed.

Lemma section_loop_ref {M : RegisterMap} read read' lo hi ss :
  (forall a n, read a n = read' a n) ->
  Forall (fun sec =>
    StronglySorted (fun a b => al_addr a <= al_addr b)
      (default [] (slice_z rm_ALLOWED_RULES (sec_allowed_rules sec))) /\
    StronglySorted (fun a b => cr_addr a <= cr_addr b)
      (default [] (slice_z rm_CMP_RULES (sec_cmp_rules sec)))) ss ->
  section_loop read lo hi ss = first_err (concat (section_checks read' lo hi <$> ss)).
Proof.
  intros Hr. induction 1 as [|sec ss [Ha Hc] Hss IH]; [done|].
  rewrite fmap_cons, concat_cons, first_err_app, <- IH. cbn [section_loop]. unfold section_checks.
  destruct (overlaps _ _ lo hi); cbn [negb]; [|done].
  assert (forall l, allowed_rule_check read' <$> l = allowed_rule_check read <$> l) as ->
    by (intros; apply list_fmap_ext; intros; symmetry; by apply allowed_rule_check_ext).
  assert (forall l, cmp_rule_check read' <$> l = cmp_rule_check read <$> l) as ->
    by (intros; apply list_fmap_ext; intros; symmetry; by apply cmp_rule_check_ext).
  rewrite first_err_app, <- allowed_loop_ref, <- cmp_loop_ref by done.
  assert (forall o, match o with Some rs => allowed_loop read lo hi rs | None => Ok tt end =
    allowed_loop read lo hi (default [] o)) as -> by (by intros []).
  assert (forall o, match o with Some rs => cmp_loop read lo hi rs | None => Ok tt end =
    cmp_loop read lo hi (default [] o)) as -> by (by intros []).
  destruct (allowed_loop _ _ _ _) as [[]|]; [|done]. by destruct (cmp_loop _ _ _ _) as [[]|].
Qed.

(** ** The word-wide mask test is the per-byte test *)

Lemma word_mask_testbit lo hi wi j :
  (wi * 32 < hi)%nat -> (lo < (wi + 1) * 32)%nat -> 0 <= j ->
  Z.testbit (word_mask lo hi wi) j =
    (Z.of_nat (lo - wi * 32) <=? j) && (j <? Z.of_nat (Nat.min (hi - wi * 32) 32)).
Proof.
  intros H1 H2 Hj. unfold word_mask.
  set (st := Z.of_nat (lo - wi * 32)). set (en := Z.of_nat (Nat.min (hi - wi * 32) 32)).
  assert (0 <= st < 32) as Hst by lia. assert (0 < en <= 32) as Hen by lia.
  assert (forall k, 0 <= k < 32 -> u32 (Z.shiftl 1 k - 1) = Z.ones k) as Hones.
  { intros k Hk. rewrite Z.ones_equiv, Z.shiftl_1_l. unfold Z.pred. apply u32_id.
    pose proof (Z.pow_pos_nonneg 2 k). pose proof (Z.pow_lt_mono_r 2 k 32). lia. }
  assert ((if en =? 32 then 4294967295 else u32 (Z.shiftl 1 en - 1)) = Z.ones en) as ->.
  { destruct (en =? 32) eqn:E; zbool; [by rewrite E|]. apply Hones. lia. }
  rewrite Hones by lia. change 4294967295 with (Z.ones 32).
  rewrite Z.land_spec, Z.lxor_spec, !Z.testbit_ones_nonneg by lia.
  destruct (j <? en) eqn:A, (j <? 32) eqn:B, (j <? st) eqn:C, (st <=? j) eqn:D; zbool; simpl; lia.
Qed.

Lemma land_mask_eq w mask :
  (Z.land w mask =? mask) = true <-> forall j, 0 <= j -> Z.testbit mask j = true -> Z.testbit w j = true.
Proof.
  rewrite Z.eqb_eq. split.
  - intros E j Hj Hm. rewrite <- E, Z.land_spec in Hm. by apply andb_true_iff in Hm as [? _].
  - intros H. apply Z.bits_inj'. intros j Hj. rewrite Z.land_spec.
    destruct (Z.testbit mask j) eqn:E; [|apply andb_false_r]. by rewrite H.
Qed.

(** One word covers its share of the span. *)
Lemma word_test {M : RegisterMap} lo hi wi :
  (wi * 32 < hi)%nat -> (lo < (wi + 1) * 32)%nat ->
  (Z.land (default 0 (rm_WRITABLE !! wi)) (word_mask lo hi wi) =? word_mask lo hi wi) = true <->
  forall i, (lo <= i < hi)%nat -> (i / 32 = wi)%nat -> byte_writable i = true.
Proof.
  intros H1 H2. rewrite land_mask_eq. unfold byte_writable. split.
  - intros H i Hi <-. pose proof (Nat.div_mod i 32 ltac:(lia)). pose proof (Nat.mod_upper_bound i 32).
    apply H; [lia|]. rewrite word_mask_testbit by lia.
    apply andb_true_iff. rewrite Z.leb_le, Z.ltb_lt. lia.
  - intros H j Hj Hm. rewrite word_mask_testbit in Hm by lia. zbool.
    set (i := (wi * 32 + Z.to_nat j)%nat).
    assert (i / 32 = wi)%nat as Ed by (symmetry; apply (Nat.div_unique i 32 wi (Z.to_nat j)); lia).
    assert (i mod 32 = Z.to_nat j)%nat as Em by (symmetry; apply (Nat.mod_unique i 32 wi (Z.to_nat j)); lia).
    specialize (H i ltac:(lia) Ed). rewrite Ed, Em in H. by rewrite Z2Nat.id in H by lia.
Qed.

Lemma mask_loop_spec {M : RegisterMap} lo hi n : forall wi,
  (lo < hi)%nat -> (lo / 32 <= wi)%nat -> (wi + n = (hi - 1) / 32 + 1)%nat ->
  mask_loop lo hi wi n = true <->
  forall i, (lo <= i < hi)%nat -> (wi <= i / 32)%nat -> byte_writable i = true.
Proof.
  induction n as [|n IH]; intros wi Hlt Hlo Hn; cbn [mask_loop].
  - split; [|done]. intros _ i Hi Hw. exfalso.
    pose proof (Nat.Div0.div_le_mono i (hi - 1) 32). lia.
  - assert (wi * 32 < hi)%nat as Hw1.
    { pose proof (Nat.Div0.mul_div_le (hi - 1) 32). lia. }
    assert (lo < (wi + 1) * 32)%nat as Hw2.
    { pose proof (Nat.div_mod lo 32). pose proof (Nat.mod_upper_bound lo 32). lia. }
    pose proof (word_test lo hi wi Hw1 Hw2) as W.
    destruct (Z.land _ _ =? _); cbn [negb].
    + rewrite IH by lia. split.
      * intros H i Hi Hw. destruct (decide (i / 32 = wi)%nat); [by apply W|apply H; lia].
      * intros H i Hi Hw. apply H; lia.
    + split; [done|]. intros H. exfalso. assert (false = true); [|done]. apply W.
      intros i Hi Hd. apply H; lia.
Qed.

Lemma all_writable_spec {M : RegisterMap} lo len :
  all_writable lo len = true <-> forall i, (lo <= i < lo + len)%nat -> byte_writable i = true.
Proof.
  unfold all_writable. rewrite forallb_forall. split; intros H i Hi; apply H.
  - apply in_seq. lia.
  - apply in_seq in Hi. lia.
Qed.

Lemma mask_loop_all {M : RegisterMap} lo len :
  (0 < len)%nat -> mask_loop lo (lo + len) (lo / 32) ((lo + len - 1) / 32 - lo / 32 + 1) = all_writable lo len.
Proof.
  intros Hlen. pose proof (Nat.Div0.div_le_mono lo (lo + len - 1) 32 ltac:(lia)) as Hd.
  apply eq_true_iff_eq. rewrite mask_loop_spec, all_writable_spec by lia. split.
  - intros H i Hi. apply H; [lia|]. apply Nat.Div0.div_le_mono. lia.
  - intros H i Hi _. by apply H.
Qed.

Lemma validate_eq_ref {M : RegisterMap} mem addr o1 o2 :
  map_wf -> length mem = rm_SIZE ->
  validate mem addr o1 o2 = validate_ref mem addr (o1 ++ o2).
Proof.
  intros Hwf Hm. unfold validate. rewrite <- length_app.
  destruct (o1 ++ o2) as [|d0 ds] eqn:Ed; [done|].
  cbn [validate_ref]. rewrite <- Ed. destruct (Nat.eqb _ 0) eqn:E0; zbool; [by rewrite Ed in E0|].
  unfold validate_ref. rewrite Ed at 2. rewrite <- Ed.
  destruct (Nat.ltb rm_SIZE _) eqn:E1; [done|]. zbool.
  rewrite mask_loop_all by lia. destruct (all_writable _ _); [|done]. cbn [negb].
  unfold rules_ref. apply section_loop_ref; [|done].
  intros a n. by apply read_fixed_flat.
Qed.

(** C13: validation refines its reference.  For any split of the written bytes
    at the ring seam, [validate] (word-wide mask test, overlay view with its
    fast paths, address-ordered early exits) returns exactly what the reference
    does: OutOfRange, AccessError, the first violated overlapping rule on the
    memory as it will be after the write, or Ok. *)
Theorem validate_refines {M : RegisterMap} mem addr o1 o2 :
  map_wf -> length mem = rm_SIZE ->
  validate mem addr o1 o2 = validate_ref mem addr (o1 ++ o2).
Proof. apply validate_eq_ref. Qed.

(** A small map for the witnesses: 40 bytes, bytes 4..11 and 32..35 writable,
    one enum rule and one signed compare against another register. *)
Definition demo_map : RegisterMap := {|
  rm_SIZE := 40;
  rm_WRITABLE := [4080; 15];
  rm_SECTIONS := [mkSection 0 40 (0, 1) (0, 1)];
  rm_CMP_RULES := [mkCmp 6 (Z.lor (spec 2 true false OP_LE) SPEC_RHS_REG) 8];
  rm_ALLOWED_RULES := [mkAllowed 4 BOOL_ALLOWED];
|}.

Lemma demo_map_wf : @map_wf demo_map.
Proof. repeat constructor. Defined.

Lemma validate_refines_witness :
  @validate demo_map (replicate 40 0) 4 [1; 0; 5] [0; 9; 0] = Ok tt /\
  @validate demo_map (replicate 40 0) 6 [5] [0] = Err (ValidationError VkCompare) /\
  @validate demo_map (replicate 40 0) 10 [1; 2] [3] = Err AccessError.
Proof.
  split; [|split]; (etransitivity; [apply (@validate_refines demo_map);
    [apply demo_map_wf | reflexivity] | reflexivity]).
Defined.

(** ** Direct writes *)

Lemma validate_ok_bounds {M : RegisterMap} mem addr data :
  validate_ref mem addr data = Ok tt -> data <> [] ->
  (Z.to_nat addr + length data <= rm_SIZE)%nat /\ all_writable (Z.to_nat addr) (length data) = true /\
  rules_ref (splice (Z.to_nat addr) data mem) (Z.to_nat addr) (Z.to_nat addr + length data) = Ok tt.
Proof.
  intros H Hne. destruct data as [|d ds]; [done|]. unfold validate_ref in H.
  destruct (Nat.ltb _ _) eqn:E1; [done|]. zbool.
  destruct (all_writable _ _) eqn:E2; [|done]. cbn [negb] in H. done.
Qed.

Lemma splice_split {A} (n : nat) (h t l : list A) :
  (h ++ t <> [] -> n + length (h ++ t) <= length l)%nat ->
  splice (n + length h) t (splice n h l) = splice n (h ++ t) l.
Proof.
  intros H. destruct h as [|x h]; simpl; [by rewrite Nat.add_0_r, splice_nil|].
  specialize (H ltac:(done)). rewrite length_app in H. apply (splice_app n (x :: h) t). simpl in *. lia.
Qed.

Lemma write_split_ref {M : RegisterMap} mem addr head tail :
  map_wf -> length mem = rm_SIZE ->
  RegisterFile_write_split mem addr head tail =
    let? _ := validate_ref mem addr (head ++ tail) in Ok (splice (Z.to_nat addr) (head ++ tail) mem).
Proof.
  intros Hwf Hm. unfold RegisterFile_write_split. rewrite validate_eq_ref by done.
  destruct (validate_ref _ _ _) as [[]|] eqn:E; [|done]. cbn [result_bind]. f_equal.
  apply splice_split. intros Hne. rewrite Hm. by apply validate_ok_bounds in E as (? & _ & _).
Qed.

(** A direct write that succeeds changes exactly the addressed bytes, each
    of them host-writable, to the written data (head then tail, whatever the
    seam), keeps the map's size, and leaves every rule whose field it touches
    satisfied by the new memory. *)
Theorem write_effect {M : RegisterMap} mem addr head tail mem' :
  map_wf -> length mem = rm_SIZE ->
  RegisterFile_write_split mem addr head tail = Ok mem' ->
  let data := head ++ tail in let lo := Z.to_nat addr in
  length mem' = rm_SIZE /\
  (forall i, (lo <= i < lo + length data)%nat -> mem' !! i = data !! (i - lo)%nat /\ byte_writable i = true) /\
  (forall i, ~ (lo <= i < lo + length data)%nat -> mem' !! i = mem !! i) /\
  (data <> [] -> rules_ref mem' lo (lo + length data) = Ok tt).
Proof.
  intros Hwf Hm H data lo. rewrite write_split_ref in H by done. fold data lo in H.
  destruct (validate_ref mem addr data) as [[]|] eqn:E; [|done]. cbn [result_bind] in H. simplify_eq.
  destruct (decide (data = [])) as [E0|Hne].
  { rewrite E0, splice_nil. split; [done|]. split; [simpl; lia|]. by split. }
  apply validate_ok_bounds in E as (Hb & Hw & Hr); [|done]. fold lo in Hb, Hw, Hr.
  rewrite all_writable_spec in Hw. split; [rewrite length_splice by lia; lia|]. split; [|split; [|done]].
  - intros i Hi. split; [|by apply Hw]. rewrite splice_lookup by lia.
    destruct (Nat.leb lo i) eqn:A, (Nat.ltb i (lo + length data)) eqn:B; zbool; try lia. done.
  - intros i Hi. rewrite splice_lookup by lia.
    destruct (Nat.leb lo i) eqn:A, (Nat.ltb i (lo + length data)) eqn:B; zbool; try lia; done.
Qed.

Lemma write_effect_witness :
  exists mem', @RegisterFile_write_split demo_map (replicate 40 0) 4 [1] [7] = Ok mem' /\
    length mem' = 40%nat /\ mem' !! 12%nat = Some 0.
Proof.
  exists (splice 4 [1; 7] (replicate 40 0)).
  assert (@RegisterFile_write_split demo_map (replicate 40 0) 4 [1] [7] =
    Ok (splice 4 [1; 7] (replicate 40 0))) as H by reflexivity.
  destruct (@write_effect demo_map (replicate 40 0) 4 [1] [7] _ demo_map_wf eq_refl H) as (L & _ & O & _).
  split; [exact H|]. split; [exact L|]. rewrite O by (simpl; lia). reflexivity.
Defined.

(** ** Stage now, commit later *)

Lemma apply_writes_app {M : RegisterMap} ws ws' mem :
  apply_writes mem (ws ++ ws') = apply_writes (apply_writes mem ws) ws'.
Proof. revert mem. induction ws as [|[a d] ws IH]; intros mem; simpl; [done|]. case_goal; apply IH. Qed.

Lemma stage_split_rep {M : RegisterMap} mem addr head tail staged ws :
  stage_rep staged ws ->
  match RegisterFile_stage_split mem addr head tail staged with
  | (Ok _, s') => validate mem addr head tail = Ok tt /\ stage_rep s' (ws ++ [(addr, head ++ tail)])
  | (Err _, s') => s' = staged
  end.
Proof.
  intros Hs. unfold RegisterFile_stage_split. destruct (validate _ _ _ _) as [[]|]; [|done].
  pose proof (push_split_rep staged ws addr head tail Hs) as P.
  destruct (StagedWrites_push_split _ _ _ _) as [[[]|] s'].
  - by destruct P.
  - by destruct P as (_ & _ & ->).
Qed.

(** Committing since a snapshot applies the writes staged since, in order, and
    leaves exactly the earlier ones pending. *)
Lemma commit_from_rep {M : RegisterMap} mem staged ws ws' :
  stage_rep staged (ws ++ ws') ->
  exists staged', RegisterFile_commit_from mem staged (snap_of ws) =
                    Some (apply_writes mem ws', staged') /\ stage_rep staged' ws.
Proof.
  intros H. unfold RegisterFile_commit_from, apply_from. rewrite (iter_from_rep staged ws ws' H).
  eexists. split; [done|]. by eapply revert_to_rep.
Qed.

Lemma commit_staged_rep {M : RegisterMap} mem staged ws :
  stage_rep staged ws ->
  exists staged', RegisterFile_commit_staged mem staged = Some (apply_writes mem ws, staged') /\
    stage_rep staged' [].
Proof.
  intros H. unfold RegisterFile_commit_staged, apply_from.
  rewrite (iter_from_rep staged [] ws H : StagedWrites_iter_from staged Snapshot_ZERO = Some ws).
  eexists. split; [done|]. apply stage_rep_clear.
Qed.

Lemma stage_commit_write {M : RegisterMap} mem addr head tail staged ws :
  map_wf -> length mem = rm_SIZE -> stage_rep staged ws ->
  match RegisterFile_stage_split mem addr head tail staged with
  | (Ok _, s') => exists mem',
      RegisterFile_write_split mem addr head tail = Ok mem' /\
      RegisterFile_commit_from mem s' (StagedWrites_snapshot staged) = Some (mem', staged)
  | (Err e, s') => s' = staged /\
      (e = StagingFull \/ RegisterFile_write_split mem addr head tail = Err e)
  end.
Proof.
  intros Hwf Hm Hs. pose proof (stage_split_rep mem addr head tail staged ws Hs) as P.
  destruct (RegisterFile_stage_split _ _ _ _ _) as [[[]|e] s'] eqn:E.
  - destruct P as [Hv Hs']. rewrite validate_eq_ref in Hv by done.
    rewrite write_split_ref, Hv by done. eexists. split; [done|].
    rewrite (snapshot_rep staged ws Hs).
    destruct (commit_from_rep mem s' ws _ Hs') as (st & -> & Hst).
    rewrite (stage_rep_inj _ _ _ Hst Hs). do 2 f_equal. simpl.
    destruct (Nat.ltb rm_SIZE _) eqn:B; [|done]. zbool. destruct (head ++ tail) as [|d ds] eqn:Ed.
    + by rewrite splice_nil.
    + apply validate_ok_bounds in Hv as (? & _ & _); [lia|done].
  - split; [done|]. unfold RegisterFile_stage_split, RegisterFile_write_split in *.
    destruct (validate mem addr head tail) as [[]|e']; [|simplify_eq; by right].
    left. pose proof (push_split_rep staged ws addr head tail Hs) as Q. rewrite E in Q. by destruct Q as (_ & ? & _).
Qed.

(** Staging a write and committing it since the snapshot is the direct
    write: same verdict (StagingFull apart), same memory, and the writes that
    were already held stay staged untouched. *)
Theorem stage_then_commit {M : RegisterMap} mem addr head tail staged ws :
  map_wf -> length mem = rm_SIZE -> stage_rep staged ws ->
  match RegisterFile_stage_split mem addr head tail staged with
  | (Ok _, s') => exists mem',
      RegisterFile_write_split mem addr head tail = Ok mem' /\
      RegisterFile_commit_from mem s' (StagedWrites_snapshot staged) = Some (mem', staged)
  | (Err e, s') => s' = staged /\
      (e = StagingFull \/ RegisterFile_write_split mem addr head tail = Err e)
  end.
Proof. apply stage_commit_write. Qed.

Lemma stage_then_commit_witness :
  exists mem', @RegisterFile_write_split demo_map (replicate 40 0) 4 [1] [0; 0] = Ok mem' /\
    @RegisterFile_commit_from demo_map (replicate 40 0)
      (mkStaged [9; 9; 1; 0; 0] [mkEntry 32 2 0; mkEntry 4 3 2])
      (mkSnap 2 1) = Some (mem', mkStaged [9; 9] [mkEntry 32 2 0]).
Proof.
  assert (stage_rep (mkStaged [9; 9] [mkEntry 32 2 0]) [(32, [9; 9])]) as Hs
    by (split; try reflexivity; simpl; unfold STAGE_DATA_CAP, STAGE_ENTRY_CAP; lia).
  exact (@stage_then_commit demo_map (replicate 40 0) 4 [1] [0; 0] _ _ demo_map_wf eq_refl Hs).
Defined.
