(* ===== verification/Regions.v ===== *)
(** * The servo's control table (firmware/lib/core/src/regions,
      firmware/lib/control-table-derive/src)

    The [Block], [Section] and [Table] derives turn annotated structs into the
    constants of a [RegisterMap].  Here the annotated structs are data
    ([Field], [SecField], [SectionDecl]), the derives are functions over them,
    and the firmware's own table is the value [ControlTable].  The theorems say
    that this generated map is well formed, that its addresses are the ones the
    protocol pins, and that no accepted write can put an out-of-range
    discriminant into an enum or bool register. *)

From Stdlib Require Import String Sorting.Sorted.
From S2P Require Import Prelude Wire Stage Table.
Open Scope string_scope.
Open Scope list_scope.
Open Scope Z_scope.

(** ** Struct annotations *)

Inductive AccessMode := Ro | Rw.
Inductive CmpOp := CmpLt | CmpLe | CmpGt | CmpGe | CmpEq | CmpNe.
Definition CmpOp_const (o : CmpOp) : Z :=
  match o with
  | CmpLt => OP_LT | CmpLe => OP_LE | CmpGt => OP_GT | CmpGe => OP_GE | CmpEq => OP_EQ
  | CmpNe => OP_NE
  end.

(** Field types the tables use; an enum carries its [VARIANTS], an array its
    byte size. *)
Inductive FieldTy :=
  TU8 | TU16 | TU32 | TI8 | TI16 | TI32 | TBool | TEnum (variants : list (string * Z)) | TArray (bytes : nat).
Definition size_of (t : FieldTy) : nat :=
  match t with
  | TU8 | TI8 | TBool | TEnum _ => 1
  | TU16 | TI16 => 2
  | TU32 | TI32 => 4
  | TArray n => n
  end.

Definition auto_enum_allowed (t : FieldTy) : option (list Z) :=
  match t with TBool => Some BOOL_ALLOWED | TEnum vs => Some (snd <$> vs) | _ => None end.

(** [(width, signed)]; the derive rejects compares on any other type. *)
Definition cmp_width_signed (t : FieldTy) : option (Z * bool) :=
  match t with
  | TU8 => Some (1, false) | TI8 => Some (1, true) | TU16 => Some (2, false)
  | TI16 => Some (2, true) | TI32 => Some (4, true) | _ => None
  end.

(** The right-hand side of a compare: an immediate, or [&addr::block::FIELD]
    of a named section. *)
Inductive CmpRhs := CImm (v : Z) | CReg (sec blk fld : string).

Inductive Hook := OnId | OnBaudRateIdx | OnResponseDeadline.

Record Field := mkField {
  fd_name : string;
  fd_ty : FieldTy;
  fd_skip : bool;
  fd_access : AccessMode;
  fd_compares : list (CmpOp * CmpRhs);
  fd_abs : bool;
  fd_hook : option Hook;
}.
Definition fld (n : string) (t : FieldTy) : Field := mkField n t false Rw [] false None.
Definition fro (n : string) (t : FieldTy) : Field := mkField n t false Ro [] false None.
Definition fskip (n : string) (t : FieldTy) : Field := mkField n t true Rw [] false None.
Definition fcmp (n : string) (t : FieldTy) (cs : list (CmpOp * CmpRhs)) : Field :=
  mkField n t false Rw cs false None.
Definition fhook (n : string) (t : FieldTy) (cs : list (CmpOp * CmpRhs)) (h : Hook) : Field :=
  mkField n t false Rw cs false (Some h).

Inductive SecField := SBlock (name : string) (fields : list Field) | SSkip (bytes : nat).
Record SectionDecl := mkDecl { sd_name : string; sd_base : nat; sd_size : nat; sd_blocks : list SecField }.

(** ** Layout

    The derives assert at compile time that there is no padding, so an offset
    is the sum of the sizes before it. *)

Fixpoint with_offsets (off : nat) (fs : list Field) : list (nat * Field) :=
  match fs with [] => [] | f :: fs' => (off, f) :: with_offsets (off + size_of (fd_ty f)) fs' end.
Definition block_size (fs : list Field) : nat := foldr (fun f n => (size_of (fd_ty f) + n)%nat) 0%nat fs.
Definition sec_field_size (s : SecField) : nat :=
  match s with SBlock _ fs => block_size fs | SSkip n => n end.

(** Every field of a section with its table-absolute address. *)
Fixpoint blocks_fields (base : nat) (bs : list SecField) : list (nat * string * Field) :=
  match bs with
  | [] => []
  | b :: bs' =>
      (match b with
       | SBlock n fs => (fun p => (p.1, n, p.2)) <$> with_offsets base fs
       | SSkip _ => []
       end) ++ blocks_fields (base + sec_field_size b) bs'
  end.
Definition section_fields (s : SectionDecl) : list (nat * string * Field) :=
  blocks_fields (sd_base s) (sd_blocks s).

(** The generated [addr::block::FIELD] constants. *)
Definition field_addr (ss : list SectionDecl) (sec blk fld : string) : Z :=
  match List.find (fun s => String.eqb (sd_name s) sec) ss with
  | Some s =>
      match List.find (fun p => String.eqb p.1.2 blk && String.eqb (fd_name p.2) fld && negb (fd_skip p.2))
              (section_fields s) with
      | Some p => Z.of_nat p.1.1
      | None => 0
      end
  | None => 0
  end.

(** ** The derives *)

Definition field_live_rw (f : Field) : bool :=
  negb (fd_skip f) && match fd_access f with Rw => true | Ro => false end.

Definition field_allowed_rules (p : nat * string * Field) : list AllowedRule :=
  if field_live_rw p.2
  then match auto_enum_allowed (fd_ty p.2) with
       | Some a => [mkAllowed (Z.of_nat p.1.1) a]
       | None => []
       end
  else [].

Definition field_cmp_rules (ss : list SectionDecl) (p : nat * string * Field) : list CmpRule :=
  if field_live_rw p.2
  then match cmp_width_signed (fd_ty p.2) with
       | Some (width, signed) =>
           let abs := fd_abs p.2 && signed in
           (fun c : CmpOp * CmpRhs =>
              let base_spec := spec width signed abs (CmpOp_const c.1) in
              match c.2 with
              | CReg s b f => mkCmp (Z.of_nat p.1.1) (Z.lor base_spec SPEC_RHS_REG) (field_addr ss s b f)
              | CImm v => mkCmp (Z.of_nat p.1.1) base_spec (u32 v)
              end) <$> fd_compares p.2
       | None => []
       end
  else [].

Definition field_writable (p : nat * string * Field) : list (nat * nat) :=
  if field_live_rw p.2 then [(p.1.1, size_of (fd_ty p.2))] else [].

Definition section_allowed (s : SectionDecl) : list AllowedRule :=
  flat_map field_allowed_rules (section_fields s).
Definition section_cmp (ss : list SectionDecl) (s : SectionDecl) : list CmpRule :=
  flat_map (field_cmp_rules ss) (section_fields s).
Definition section_writable (s : SectionDecl) : list (nat * nat) :=
  flat_map field_writable (section_fields s).

(** [w[b / 32] |= 1 << (b % 32)] over each writable span. *)
Definition set_bit (w : list Z) (b : nat) : list Z :=
  <[(b / 32)%nat := Z.lor (default 0 (w !! (b / 32)%nat)) (Z.shiftl 1 (Z.of_nat (b mod 32)))]> w.
Definition fill_span (w : list Z) (s : nat * nat) : list Z := fold_left set_bit (seq s.1 s.2) w.
Definition writable_words (size : nat) (spans : list (nat * nat)) : list Z :=
  fold_left fill_span spans (replicate ((size + 31) / 32) 0).

(** Section metadata: each section's slice of the concatenated rule arrays. *)
Fixpoint section_metas (ss : list SectionDecl) (cmp_start allowed_start : nat) (todo : list SectionDecl) :
    list SectionMeta :=
  match todo with
  | [] => []
  | s :: todo' =>
      let c := (cmp_start + List.length (section_cmp ss s))%nat in
      let a := (allowed_start + List.length (section_allowed s))%nat in
      mkSection (Z.of_nat (sd_base s)) (Z.of_nat (sd_size s))
        (Z.of_nat cmp_start, Z.of_nat c) (Z.of_nat allowed_start, Z.of_nat a)
      :: section_metas ss c a todo'
  end.

Definition derive_table (size : nat) (ss : list SectionDecl) : RegisterMap := {|
  rm_SIZE := size;
  rm_WRITABLE := writable_words size (flat_map section_writable ss);
  rm_SECTIONS := section_metas ss 0 0 ss;
  rm_CMP_RULES := flat_map (section_cmp ss) ss;
  rm_ALLOWED_RULES := flat_map section_allowed ss;
|}.

(** Field-write hooks: [dispatch_events] fires each tagged field the span
    [abs_addr, abs_addr + len) intersects, in declaration order. *)
Definition hook_hit (abs_addr len : Z) (p : nat * string * Field) : list (Hook * nat * FieldTy) :=
  match fd_hook p.2 with
  | Some h =>
      let f_lo := Z.of_nat p.1.1 in
      let f_hi := f_lo + Z.of_nat (size_of (fd_ty p.2)) in
      let w_lo := abs_addr in
      let w_hi := w_lo + len in
      if (w_lo <? f_hi) && (f_lo <? w_hi) then [(h, p.1.1, fd_ty p.2)] else []
  | None => []
  end.
Definition dispatch_events (ss : list SectionDecl) (abs_addr len : Z) : list (Hook * nat * FieldTy) :=
  flat_map (fun s => flat_map (hook_hit abs_addr len) (section_fields s)) ss.

(** ** The firmware's table (regions/*.rs) *)

Definition CONFIG_REGION_SIZE : Z := 128.
Definition CALIB_REGION_SIZE : Z := 256.
Definition CONTROL_REGION_SIZE : Z := 128.
Definition TELEMETRY_REGION_SIZE : Z := 128.
Definition PROFILE_REGION_SIZE : Z := 64.
Definition CONFIG_BASE_ADDR : Z := 0.
Definition CALIB_BASE_ADDR : Z := 128.
Definition CONTROL_BASE_ADDR : Z := 384.
Definition TELEMETRY_BASE_ADDR : Z := 512.
Definition PROFILE_BASE_ADDR : Z := 640.

Definition StallResponse_VARIANTS : list (string * Z) := [("Disable", 0); ("Comply", 1)].
Definition Mode_VARIANTS : list (string * Z) := [("OpenLoop", 0); ("PositionPid", 1)].
Definition BootMode_VARIANTS : list (string * Z) := [("App", 0); ("Bootloader", 1)].

Definition ConfigCommon : list Field := [
  fro "model_number" TU16; fro "firmware_version" TU8; fro "hardware_revision" TU8;
  fro "capability_flags" TU32; fskip "_rsvd_identity" (TArray 8);
  fhook "id" TU8 [(CmpGe, CImm 1); (CmpLe, CImm 249)] OnId;
  fhook "baud_rate_idx" TU8 [(CmpLe, CImm 3)] OnBaudRateIdx;
  fhook "response_deadline_us" TU16 [] OnResponseDeadline;
  fskip "_rsvd_tail" (TArray 12)].

Definition pl (f : string) : CmpRhs := CReg "config" "pos_limits" f.
Definition ConfigPosLimits : list Field := [
  fcmp "pos_min_phys_urad" TI32 [(CmpLt, pl "pos_max_phys_urad")];
  fcmp "pos_max_phys_urad" TI32 [(CmpGt, pl "pos_min_phys_urad")];
  fcmp "pos_min_soft_urad" TI32
    [(CmpGe, pl "pos_min_phys_urad"); (CmpLe, pl "pos_max_phys_urad"); (CmpLt, pl "pos_max_soft_urad")];
  fcmp "pos_max_soft_urad" TI32
    [(CmpGe, pl "pos_min_phys_urad"); (CmpLe, pl "pos_max_phys_urad"); (CmpGt, pl "pos_min_soft_urad")]].

Definition ConfigStall : list Field := [
  fld "stall_response" (TEnum StallResponse_VARIANTS); fskip "_rsvd_align" TU8;
  fld "stall_effort_threshold" TI16; fld "stall_motion_threshold_urad" TU32;
  fld "stall_time_threshold_ms" TU16; fld "comply_release_window_ms" TU16].

Definition ConfigThermal : list Field := [
  fld "motor_thermal_k_q88" TU16; fld "motor_thermal_tau_ms" TU16;
  fcmp "winding_cutoff_cc" TI16 [(CmpGt, CReg "config" "thermal" "winding_recover_cc")];
  fcmp "winding_recover_cc" TI16 [(CmpLt, CReg "config" "thermal" "winding_cutoff_cc")];
  fld "v_undervolt_mv" TU16; fskip "_rsvd_tail" TU16].

Definition ConfigControlPosition : list Field := [
  fld "pid_kp_q88" TU16; fld "pid_ki_q88" TU16; fld "pid_kd_q88" TU16; fskip "_rsvd_align" TU16;
  fld "pid_i_limit" TI32; fld "pos_deadband_urad" TU32;
  fcmp "pwm_deadband_pct" TU8 [(CmpLe, CImm 50)]; fld "v_comp_enable" TBool;
  fld "max_effort" TI16; fld "v_nominal_mv" TU16; fskip "_rsvd_tail" TU16].

Definition ConfigCalibration : list Field := [fld "vdd_mv" TU16; fskip "_rsvd_align" TU16].

Definition ConfigRegs : SectionDecl := mkDecl "config" 0 128 [
  SBlock "common" ConfigCommon; SBlock "pos_limits" ConfigPosLimits; SBlock "stall" ConfigStall;
  SBlock "thermal" ConfigThermal; SBlock "ctrl_pos" ConfigControlPosition;
  SBlock "calibration" ConfigCalibration; SSkip 28].

Definition PotLutBlock : list Field := [
  fld "raw_min" TU16; fld "raw_max" TU16; fld "lut" (TArray 220)].
Definition BemfCalibBlock : list Field := [
  fld "ke_uvs_per_rad" TU16; fld "r_motor_mohm" TU16; fld "calib_v_bus_mv" TU16; fld "calib_i_ma" TU16].
Definition CalibRegs : SectionDecl := mkDecl "calib" 128 256 [
  SBlock "pot_lut" PotLutBlock; SBlock "bemf" BemfCalibBlock; SSkip 24].

Definition ControlLifecycle : list Field := [
  fld "torque_enable" TBool; fld "mode" (TEnum Mode_VARIANTS); fskip "_rsvd_align" (TArray 2);
  fcmp "goal_position" TI32 [(CmpGe, pl "pos_min_soft_urad"); (CmpLe, pl "pos_max_soft_urad")];
  fld "goal_velocity" TI32;
  mkField "goal_effort" TI16 false Rw [(CmpLe, CReg "config" "ctrl_pos" "max_effort")] true None;
  fskip "_rsvd_tail" (TArray 2)].
Definition ControlStreaming : list Field := [
  fld "stream_enable" TBool; fld "stream_decimation" TU8;
  fcmp "stream_duration_ms" TU16 [(CmpGe, CImm 1)]; fld "stream_field_mask" TU32;
  fro "stream_dropped" TU32].
Definition ControlSystem : list Field := [fld "boot_mode" (TEnum BootMode_VARIANTS)].
Definition ControlRegs : SectionDecl := mkDecl "control" 384 128 [
  SBlock "lifecycle" ControlLifecycle; SBlock "streaming" ControlStreaming;
  SBlock "system" ControlSystem; SSkip 99].

Definition TelemetryCommon : list Field := [
  fro "fault_flags" TU8; fro "status_flags" TU8; fro "trim_steps" TI8; fskip "_rsvd_align" TU8;
  fld "crc_fail_count" TU32; fld "framing_drop_count" TU32; fskip "_rsvd_tail" (TArray 20)].
Definition TelemetryMode : list Field := [
  fro "mode_active" TU8; fro "fault_code" TU8; fskip "_rsvd_align" TU16].
Definition TelemetryConverted : list Field := [
  fro "present_position" TI32; fro "present_velocity" TI32; fro "present_current" TI16;
  fro "present_temp" TI16; fro "present_vbus_mv" TU16; fskip "_rsvd_tail" TU16].
Definition TelemetryIntermediaries : list Field := [
  fro "vbus_filt_mv" TU16; fro "t_winding_dc" TI16; fro "pwm_duty_actual" TI16;
  fskip "_rsvd_align" TU16; fro "pid_error_last" TI32; fro "pid_output_last" TI32;
  fro "internal_goal" TI32; fro "sample_tick" TU32].
Definition TelemetryRaw : list Field := [
  fro "raw_pos" TU16; fro "raw_current" TU16; fro "raw_temp" TU16; fro "raw_vbus" TU16;
  fro "raw_vmotor_a" TU16; fro "raw_vmotor_b" TU16; fro "raw_enc_a" TU16; fro "raw_enc_b" TU16].
Definition TelemetryRegs : SectionDecl := mkDecl "telemetry" 512 128 [
  SBlock "common" TelemetryCommon; SBlock "mode" TelemetryMode; SBlock "converted" TelemetryConverted;
  SBlock "intermediaries" TelemetryIntermediaries; SBlock "raw" TelemetryRaw; SSkip 36].

Definition ProfileSlots : list Field := [fld "words" (TArray 64)].
Definition ProfileRegs : SectionDecl := mkDecl "profile" 640 64 [SBlock "slots" ProfileSlots].

Definition table_sections : list SectionDecl :=
  [ConfigRegs; CalibRegs; ControlRegs; TelemetryRegs; ProfileRegs].
#[export] Instance ControlTable : RegisterMap := derive_table 1024 table_sections.
Definition ControlTable_new : list Z := replicate 1024 0.

Definition reg_addr (sec blk fld : string) : Z := field_addr table_sections sec blk fld.
Definition ADDR_ID : Z := reg_addr "config" "common" "id".
Definition ADDR_FAULT_FLAGS : Z := reg_addr "telemetry" "common" "fault_flags".
Definition ADDR_STATUS_FLAGS : Z := reg_addr "telemetry" "common" "status_flags".
Definition ADDR_TORQUE_ENABLE : Z := reg_addr "control" "lifecycle" "torque_enable".
Definition ADDR_BOOT_MODE : Z := reg_addr "control" "system" "boot_mode".
Definition ADDR_MODEL_NUMBER : Z := reg_addr "config" "common" "model_number".

(** ** The generated map is well formed *)

(** Each section's declared size is the sum of its blocks, bases are the
    running offsets, and the whole is the table size. *)
Fixpoint sections_tile (off : nat) (ss : list SectionDecl) : bool :=
  match ss with
  | [] => true
  | s :: ss' =>
      Nat.eqb (sd_base s) off &&
      Nat.eqb (foldr (fun b n => (sec_field_size b + n)%nat) 0%nat (sd_blocks s)) (sd_size s) &&
      sections_tile (off + sd_size s) ss'
  end.

Fixpoint sorted_by {A} (f : A -> Z) (l : list A) : bool :=
  match l with
  | [] => true
  | x :: l' => forallb (fun y => f x <=? f y) l' && sorted_by f l'
  end.

Lemma sorted_by_spec {A} (f : A -> Z) l :
  sorted_by f l = true -> StronglySorted (fun a b => f a <= f b) l.
Proof.
  induction l as [|x l IH]; simpl; intros H; constructor; apply andb_true_iff in H as [H1 H2].
  - by apply IH.
  - apply List.Forall_forall. intros y Hy. rewrite forallb_forall in H1. apply H1 in Hy. by zbool.
Qed.

Lemma map_wf_compute {M : RegisterMap} :
  forallb (fun sec =>
    sorted_by al_addr (default [] (slice_z rm_ALLOWED_RULES (sec_allowed_rules sec))) &&
    sorted_by cr_addr (default [] (slice_z rm_CMP_RULES (sec_cmp_rules sec)))) rm_SECTIONS = true ->
  map_wf.
Proof.
  intros H. apply List.Forall_forall. intros sec Hs. rewrite forallb_forall in H.
  apply H, andb_true_iff in Hs as [? ?]. split; by apply sorted_by_spec.
Qed.

Lemma ControlTable_wf : @map_wf ControlTable.
Proof. apply map_wf_compute. vm_compute. reflexivity. Qed.

(** The derived control table has the shape the runtime relies on: the
    sections tile [0, 704) of the 1024-byte map at their declared bases, every
    section's rules are in address order, and the common-block registers land
    on the addresses the protocol pins. *)
Theorem control_table_layout :
  sections_tile 0 table_sections = true /\ @map_wf ControlTable /\
  length (@rm_WRITABLE ControlTable) = 32%nat /\
  reg_addr "config" "common" "model_number" = 0 /\
  reg_addr "config" "common" "firmware_version" = 2 /\
  reg_addr "config" "common" "id" = 16 /\
  reg_addr "config" "common" "response_deadline_us" = 18 /\
  reg_addr "config" "pos_limits" "pos_min_phys_urad" = CONFIG_COMMON_END /\
  reg_addr "telemetry" "common" "fault_flags" = TELEMETRY_COMMON_START /\
  reg_addr "telemetry" "common" "framing_drop_count" = 520 /\
  reg_addr "telemetry" "mode" "mode_active" = TELEMETRY_COMMON_END /\
  reg_addr "profile" "slots" "words" = PROFILE_START.
Proof. split; [reflexivity|]. split; [apply ControlTable_wf|]. vm_compute. repeat split. Qed.

(** ** Enum and bool registers never hold a foreign byte *)

Section Allowed.
Context {M : RegisterMap}.

(** Every enum/bool byte holds one of its allowed values. *)
Definition allowed_ok (mem : list Z) : Prop :=
  Forall (fun r => existsb (Z.eqb (mem !!! Z.to_nat (al_addr r))) (al_allowed r) = true) rm_ALLOWED_RULES.

(** Each allowed rule lies in the section that carries it, inside the map. *)
Definition rules_covered : Prop :=
  Forall (fun r => (Z.to_nat (al_addr r) < rm_SIZE)%nat /\
    Exists (fun sec => In r (default [] (slice_z rm_ALLOWED_RULES (sec_allowed_rules sec))) /\
      (Z.to_nat (sec_base sec) <= Z.to_nat (al_addr r) < Z.to_nat (sec_base sec) + Z.to_nat (sec_size sec))%nat)
      rm_SECTIONS) rm_ALLOWED_RULES.

(** A write that respects the allowed bytes it covers: a fact about the
    written bytes alone, so it survives any delay before the commit. *)
Definition write_allowed (w : Z * list Z) : Prop :=
  Forall (fun r => forall b,
    (Z.to_nat w.1 <= Z.to_nat (al_addr r) < Z.to_nat w.1 + length w.2)%nat ->
    w.2 !! (Z.to_nat (al_addr r) - Z.to_nat w.1)%nat = Some b ->
    existsb (Z.eqb b) (al_allowed r) = true) rm_ALLOWED_RULES.

Lemma first_err_ok l : first_err l = Ok tt -> Forall (fun r => r = Ok tt) l.
Proof. induction l as [|[[]|e] l IH]; simpl; intros H; constructor; auto; done. Qed.

Lemma Forall_concat_in {A} (P : A -> Prop) (ls : list (list A)) l x :
  Forall P (concat ls) -> In l ls -> In x l -> P x.
Proof.
  rewrite List.Forall_forall. intros H Hl Hx. apply H. apply in_concat. eauto.
Qed.

Lemma validated_write_allowed mem addr data :
  rules_covered -> length mem = rm_SIZE -> validate_ref mem addr data = Ok tt -> write_allowed (addr, data).
Proof.
  intros Hcov Hm Hv. unfold write_allowed. cbn [fst snd]. rewrite List.Forall_forall. intros r Hr b Hi Hb.
  destruct (decide (data = [])) as [->|Hne]; [done|].
  apply validate_ok_bounds in Hv as (Hbd & _ & Hrules); [|done].
  unfold rules_covered in Hcov. rewrite List.Forall_forall in Hcov. apply Hcov in Hr as [Hsz Hex].
  apply List.Exists_exists in Hex as (sec & Hsec & Hin & Hspan).
  apply first_err_ok in Hrules.
  set (lo := Z.to_nat addr) in *. set (hi := (lo + length data)%nat) in *.
  set (mem' := splice lo data mem) in *.
  assert (allowed_rule_check (flat_read mem') r = Ok tt) as Hc.
  { eapply (Forall_concat_in (fun r => r = Ok tt) _ (section_checks (flat_read mem') lo hi sec) _ Hrules).
    - apply (in_map (section_checks (flat_read mem') lo hi)), Hsec.
    - unfold section_checks.
      assert (overlaps (Z.to_nat (sec_base sec)) (Z.to_nat (sec_size sec)) lo hi = true) as ->
        by (apply andb_true_iff; rewrite !Nat.ltb_lt; lia).
      apply in_app_iff. left. apply in_map. apply list_elem_of_In, list_elem_of_filter.
      split; [apply andb_true_iff; rewrite !Nat.ltb_lt; lia|by apply list_elem_of_In]. }
  unfold allowed_rule_check, check_allowed, flat_read in Hc.
  destruct (Nat.ltb rm_SIZE _) eqn:E; zbool; [lia|]. cbn [result_bind load_le4] in Hc.
  change ([mem' !!! Z.to_nat (al_addr r); 0; 0; 0] !!! 0%nat) with (mem' !!! Z.to_nat (al_addr r)) in Hc.
  subst mem'. rewrite splice_lookup_total in Hc by lia.
  destruct (Nat.leb lo _ && _) eqn:E2.
  - rewrite (list_lookup_total_correct _ _ _ Hb) in Hc. by destruct (existsb _ _).
  - apply andb_false_iff in E2 as [E2|E2]; zbool; lia.
Qed.

Lemma splice_allowed mem addr data :
  allowed_ok mem -> write_allowed (addr, data) -> (Z.to_nat addr + length data <= length mem)%nat ->
  allowed_ok (splice (Z.to_nat addr) data mem).
Proof.
  unfold allowed_ok, write_allowed. rewrite !List.Forall_forall. cbn [fst snd]. intros Ha Hw Hb r Hr.
  rewrite splice_lookup_total by done. destruct (_ && _) eqn:E; [|by apply Ha]. zbool.
  eapply Hw; [done|lia|]. apply list_lookup_lookup_total_lt. lia.
Qed.

Lemma apply_writes_length ws mem : length mem = rm_SIZE -> length (apply_writes mem ws) = rm_SIZE.
Proof.
  revert mem. induction ws as [|[a d] ws IH]; intros mem H; simpl; [done|].
  destruct (Nat.ltb _ _) eqn:E; zbool; apply IH; [done|]. rewrite length_splice; lia.
Qed.

Lemma apply_writes_allowed ws mem :
  length mem = rm_SIZE -> allowed_ok mem -> Forall write_allowed ws -> allowed_ok (apply_writes mem ws).
Proof.
  intros Hl Ha Hw. revert mem Hl Ha. induction Hw as [|[a d] ws Hd Hw IH]; intros mem Hl Ha; simpl; [done|].
  destruct (Nat.ltb _ _) eqn:E; zbool; [by apply IH|]. apply IH; [rewrite length_splice; lia|].
  apply splice_allowed; [done..|lia].
Qed.
End Allowed.

Lemma ControlTable_covered : @rules_covered ControlTable.
Proof.
  assert (forallb (fun r => Nat.ltb (Z.to_nat (al_addr r)) (@rm_SIZE ControlTable) &&
    existsb (fun sec => existsb (fun r' => (al_addr r' =? al_addr r) && bool_decide (al_allowed r' = al_allowed r))
        (default [] (slice_z (@rm_ALLOWED_RULES ControlTable) (sec_allowed_rules sec))) &&
      (Nat.leb (Z.to_nat (sec_base sec)) (Z.to_nat (al_addr r)) &&
       Nat.ltb (Z.to_nat (al_addr r)) (Z.to_nat (sec_base sec) + Z.to_nat (sec_size sec))))
      (@rm_SECTIONS ControlTable)) (@rm_ALLOWED_RULES ControlTable) = true) as H by (vm_compute; reflexivity).
  apply List.Forall_forall. intros r Hr. rewrite forallb_forall in H. apply H in Hr. zbool.
  split; [done|]. apply List.Exists_exists.
  match goal with H : existsb _ _ = true |- _ => apply existsb_exists in H as (sec & Hs & H2) end. zbool.
  exists sec. split; [done|].
  match goal with H : existsb _ _ = true |- _ => apply existsb_exists in H as (r' & Hr' & H4) end. zbool.
  match goal with H : bool_decide _ = true |- _ => apply bool_decide_eq_true in H end.
  split; [|lia]. destruct r, r'; simpl in *; subst. done.
Qed.
