(* ===== verification/Export.v ===== *)
(** * Exported field descriptors (firmware/lib/control-table/src/descriptor.rs,
      firmware/lib/control-table-derive/src, firmware/lib/table-export/src/main.rs)

    Beside the rules of the register map the derives emit a description of every
    field, and [table-export] prints it as the JSON the host tools compile in
    (descriptors/osc-servo.json).  The file is here the value [osc_servo_json],
    key by key.  The theorems say that it is what the export produces, that the
    fields it calls writable are exactly the bytes the servo lets a host write,
    and that the register file enforces the bounds, variants and access it
    advertises. *)

From Stdlib Require Import String.
From S2P Require Import Prelude Wire Stage Table Regions.
Open Scope string_scope.
Open Scope list_scope.
Open Scope Z_scope.

(** ** Descriptors (descriptor.rs) *)

Inductive FieldKind := FkUInt | FkInt | FkBool | FkEnum (vs : list (string * Z)) | FkBytes.
Record FieldDesc := mkFieldDesc {
  fx_name : string; fx_addr : Z; fx_width : Z; fx_writable : bool; fx_kind : FieldKind;
  fx_min : option Z; fx_max : option Z }.

(** ** The derives *)

Definition field_kind (t : FieldTy) : FieldKind :=
  match t with
  | TArray _ => FkBytes
  | TBool => FkBool
  | TU8 | TU16 | TU32 => FkUInt
  | TI8 | TI16 | TI32 => FkInt
  | TEnum vs => FkEnum vs
  end.

(** One compare clause; [None] is the derive's error for a second immediate on
    one side. *)
Definition bound_clause (b : option Z * option Z) (c : CmpOp * CmpRhs) : option (option Z * option Z) :=
  let set_min v := match b.1 with Some _ => None | None => Some (Some v, b.2) end in
  let set_max v := match b.2 with Some _ => None | None => Some (b.1, Some v) end in
  match c.2 with
  | CReg _ _ _ => Some b
  | CImm v =>
      match c.1 with
      | CmpGe => set_min (i32 v)
      | CmpGt => set_min (i32 v + 1)
      | CmpLe => set_max (i32 v)
      | CmpLt => set_max (i32 v - 1)
      | CmpEq | CmpNe => Some b
      end
  end.
Fixpoint bound_clauses (b : option Z * option Z) (cs : list (CmpOp * CmpRhs)) : option (option Z * option Z) :=
  match cs with [] => Some b | c :: cs' => b ← bound_clause b c; bound_clauses b cs' end.
Definition field_bounds (compares : list (CmpOp * CmpRhs)) (abs : bool) : option (option Z * option Z) :=
  if abs then Some (None, None) else bound_clauses (None, None) compares.

(** A field's descriptor at its table-absolute address. *)
Definition field_desc (p : nat * string * Field) : option FieldDesc :=
  let f := p.2 in
  b ← field_bounds (fd_compares f) (fd_abs f);
  Some (mkFieldDesc (fd_name f) (Z.of_nat p.1.1) (u16 (Z.of_nat (size_of (fd_ty f))))
          (match fd_access f with Rw => true | Ro => false end) (field_kind (fd_ty f)) b.1 b.2).
Definition section_descs (s : SectionDecl) : option (list FieldDesc) :=
  mapM field_desc (List.filter (fun p => negb (fd_skip p.2)) (section_fields s)).
Definition FIELDS (ss : list SectionDecl) : option (list FieldDesc) := mjoin <$> mapM section_descs ss.

(** ** The export (table-export/src/main.rs) *)

Record ExField := mkExField {
  xf_name : string; xf_addr : Z; xf_width : Z; xf_access : string; xf_kind : string;
  xf_min : option Z; xf_max : option Z; xf_variants : option (list (string * Z)) }.
Record ExDescriptor := mkExDescriptor {
  xd_format : Z; xd_model : string; xd_class : string; xd_model_number : Z; xd_firmware_version : Z;
  xd_table_size : Z; xd_generator : string; xd_fields : list ExField }.

Definition FIRMWARE_VERSION : Z := 1.
Definition class_name (class : Z) : string := if class =? CLASS_SERVO then "servo" else "unknown".
Definition export_field (d : FieldDesc) : ExField :=
  let kv := match fx_kind d with
            | FkUInt => ("uint", None)
            | FkInt => ("int", None)
            | FkBool => ("bool", None)
            | FkBytes => ("bytes", None)
            | FkEnum vs => ("enum", Some vs)
            end in
  mkExField (fx_name d) (fx_addr d) (fx_width d) (if fx_writable d then "rw" else "ro") kv.1
    (fx_min d) (fx_max d) kv.2.
Definition build_descriptor (fields : list FieldDesc) : ExDescriptor :=
  mkExDescriptor 1 "osc-servo" (class_name (model_class MODEL_OSC_SERVO)) MODEL_OSC_SERVO FIRMWARE_VERSION
    (Z.of_nat (@rm_SIZE ControlTable)) "cargo run -p table-export (firmware/lib)" (export_field <$> fields).

(** ** The checked-in file (descriptors/osc-servo.json) *)

Definition osc_servo_fields : list ExField := [
  mkExField "model_number" 0 2 "ro" "uint" None None None;
  mkExField "firmware_version" 2 1 "ro" "uint" None None None;
  mkExField "hardware_revision" 3 1 "ro" "uint" None None None;
  mkExField "capability_flags" 4 4 "ro" "uint" None None None;
  mkExField "id" 16 1 "rw" "uint" (Some 1) (Some 249) None;
  mkExField "baud_rate_idx" 17 1 "rw" "uint" None (Some 3) None;
  mkExField "response_deadline_us" 18 2 "rw" "uint" None None None;
  mkExField "pos_min_phys_urad" 32 4 "rw" "int" None None None;
  mkExField "pos_max_phys_urad" 36 4 "rw" "int" None None None;
  mkExField "pos_min_soft_urad" 40 4 "rw" "int" None None None;
  mkExField "pos_max_soft_urad" 44 4 "rw" "int" None None None;
  mkExField "stall_response" 48 1 "rw" "enum" None None (Some [("Disable", 0); ("Comply", 1)]);
  mkExField "stall_effort_threshold" 50 2 "rw" "int" None None None;
  mkExField "stall_motion_threshold_urad" 52 4 "rw" "uint" None None None;
  mkExField "stall_time_threshold_ms" 56 2 "rw" "uint" None None None;
  mkExField "comply_release_window_ms" 58 2 "rw" "uint" None None None;
  mkExField "motor_thermal_k_q88" 60 2 "rw" "uint" None None None;
  mkExField "motor_thermal_tau_ms" 62 2 "rw" "uint" None None None;
  mkExField "winding_cutoff_cc" 64 2 "rw" "int" None None None;
  mkExField "winding_recover_cc" 66 2 "rw" "int" None None None;
  mkExField "v_undervolt_mv" 68 2 "rw" "uint" None None None;
  mkExField "pid_kp_q88" 72 2 "rw" "uint" None None None;
  mkExField "pid_ki_q88" 74 2 "rw" "uint" None None None;
  mkExField "pid_kd_q88" 76 2 "rw" "uint" None None None;
  mkExField "pid_i_limit" 80 4 "rw" "int" None None None;
  mkExField "pos_deadband_urad" 84 4 "rw" "uint" None None None;
  mkExField "pwm_deadband_pct" 88 1 "rw" "uint" None (Some 50) None;
  mkExField "v_comp_enable" 89 1 "rw" "bool" None None None;
  mkExField "max_effort" 90 2 "rw" "int" None None None;
  mkExField "v_nominal_mv" 92 2 "rw" "uint" None None None;
  mkExField "vdd_mv" 96 2 "rw" "uint" None None None;
  mkExField "raw_min" 128 2 "rw" "uint" None None None;
  mkExField "raw_max" 130 2 "rw" "uint" None None None;
  mkExField "lut" 132 220 "rw" "bytes" None None None;
  mkExField "ke_uvs_per_rad" 352 2 "rw" "uint" None None None;
  mkExField "r_motor_mohm" 354 2 "rw" "uint" None None None;
  mkExField "calib_v_bus_mv" 356 2 "rw" "uint" None None None;
  mkExField "calib_i_ma" 358 2 "rw" "uint" None None None;
  mkExField "torque_enable" 384 1 "rw" "bool" None None None;
  mkExField "mode" 385 1 "rw" "enum" None None (Some [("OpenLoop", 0); ("PositionPid", 1)]);
  mkExField "goal_position" 388 4 "rw" "int" None None None;
  mkExField "goal_velocity" 392 4 "rw" "int" None None None;
  mkExField "goal_effort" 396 2 "rw" "int" None None None;
  mkExField "stream_enable" 400 1 "rw" "bool" None None None;
  mkExField "stream_decimation" 401 1 "rw" "uint" None None None;
  mkExField "stream_duration_ms" 402 2 "rw" "uint" (Some 1) None None;
  mkExField "stream_field_mask" 404 4 "rw" "uint" None None None;
  mkExField "stream_dropped" 408 4 "ro" "uint" None None None;
  mkExField "boot_mode" 412 1 "rw" "enum" None None (Some [("App", 0); ("Bootloader", 1)]);
  mkExField "fault_flags" 512 1 "ro" "uint" None None None;
  mkExField "status_flags" 513 1 "ro" "uint" None None None;
  mkExField "trim_steps" 514 1 "ro" "int" None None None;
  mkExField "crc_fail_count" 516 4 "rw" "uint" None None None;
  mkExField "framing_drop_count" 520 4 "rw" "uint" None None None;
  mkExField "mode_active" 544 1 "ro" "uint" None None None;
  mkExField "fault_code" 545 1 "ro" "uint" None None None;
  mkExField "present_position" 548 4 "ro" "int" None None None;
  mkExField "present_velocity" 552 4 "ro" "int" None None None;
  mkExField "present_current" 556 2 "ro" "int" None None None;
  mkExField "present_temp" 558 2 "ro" "int" None None None;
  mkExField "present_vbus_mv" 560 2 "ro" "uint" None None None;
  mkExField "vbus_filt_mv" 564 2 "ro" "uint" None None None;
  mkExField "t_winding_dc" 566 2 "ro" "int" None None None;
  mkExField "pwm_duty_actual" 568 2 "ro" "int" None None None;
  mkExField "pid_error_last" 572 4 "ro" "int" None None None;
  mkExField "pid_output_last" 576 4 "ro" "int" None None None;
  mkExField "internal_goal" 580 4 "ro" "int" None None None;
  mkExField "sample_tick" 584 4 "ro" "uint" None None None;
  mkExField "raw_pos" 588 2 "ro" "uint" None None None;
  mkExField "raw_current" 590 2 "ro" "uint" None None None;
  mkExField "raw_temp" 592 2 "ro" "uint" None None None;
  mkExField "raw_vbus" 594 2 "ro" "uint" None None None;
  mkExField "raw_vmotor_a" 596 2 "ro" "uint" None None None;
  mkExField "raw_vmotor_b" 598 2 "ro" "uint" None None None;
  mkExField "raw_enc_a" 600 2 "ro" "uint" None None None;
  mkExField "raw_enc_b" 602 2 "ro" "uint" None None None;
  mkExField "words" 640 64 "rw" "bytes" None None None].
Definition osc_servo_json : ExDescriptor :=
  mkExDescriptor 1 "osc-servo" "servo" 257 1 1024 "cargo run -p table-export (firmware/lib)" osc_servo_fields.

(** ** The file is the table *)

Definition writes_allowed (f : ExField) : bool := String.eqb (xf_access f) "rw".
Definition covers (f : ExField) (i : Z) : bool := (xf_addr f <=? i) && (i <? xf_addr f + xf_width f).

Fixpoint distinct (names : list string) : bool :=
  match names with [] => true | n :: names' => negb (existsb (String.eqb n) names') && distinct names' end.
Lemma distinct_NoDup names : distinct names = true -> List.NoDup names.
Proof.
  induction names as [|n names IH]; simpl; intros H; constructor; apply andb_true_iff in H as [H1 H2]; [|by apply IH].
  intros Hi. apply negb_true_iff in H1. assert (existsb (String.eqb n) names = true); [|congruence].
  apply existsb_exists. exists n. split; [done|]. apply String.eqb_refl.
Qed.

(** Fields laid out one after another. *)
Fixpoint spaced (lo : Z) (fs : list ExField) : bool :=
  match fs with [] => true | f :: fs' => (lo <=? xf_addr f) && spaced (xf_addr f + xf_width f) fs' end.

Lemma byte_writable_high i : (1024 <= i)%nat -> @byte_writable ControlTable i = false.
Proof.
  intros H. unfold byte_writable. rewrite lookup_ge_None_2; [apply Z.bits_0|].
  assert (length (@rm_WRITABLE ControlTable) = 32%nat) as -> by (vm_compute; reflexivity).
  apply (Nat.Div0.div_le_mono 1024 i 32) in H. apply H.
Qed.

Lemma writable_low :
  (fun words => forallb (fun i => eqb (Z.testbit (default 0 (words !! (i / 32)%nat)) (Z.of_nat (i mod 32)))
    (let a := Z.of_nat i in existsb (fun f => writes_allowed f && covers f a) osc_servo_fields)) (seq 0 1024))
  (@rm_WRITABLE ControlTable) = true.
Proof. vm_compute. reflexivity. Qed.


Lemma fields_inside : forallb (fun f => xf_addr f + xf_width f <=? 1024)
  osc_servo_fields = true.
Proof. vm_compute. reflexivity. Qed.

Lemma writable_fields i :
  @byte_writable ControlTable i = true <-> exists f, In f osc_servo_fields /\ writes_allowed f = true /\ covers f (Z.of_nat i) = true.
Proof.
  destruct (Nat.lt_ge_cases i 1024) as [H|H].
  - pose proof writable_low as W. cbv beta in W. rewrite forallb_forall in W.
    specialize (W i ltac:(apply in_seq; lia)). apply eqb_prop in W. unfold byte_writable. rewrite W, existsb_exists.
    split; intros (f & Hf & P); exists f; (split; [done|]); by apply andb_true_iff.
  - rewrite byte_writable_high by done. split; [done|]. intros (f & Hf & _ & Hc).
    pose proof fields_inside as I. rewrite forallb_forall in I. apply I in Hf.
    unfold covers in Hc. apply andb_true_iff in Hc as [_ Hc]. zbool. lia.
Qed.

Lemma export_value : build_descriptor <$> FIELDS table_sections = Some osc_servo_json.
Proof. vm_compute. reflexivity. Qed.

(** The checked-in descriptor is what the export of the firmware's table
    produces: same model, size and fields in the same order; its names are
    unique and its fields do not overlap; and a byte of the servo's table
    accepts host writes exactly when some field the descriptor calls rw covers
    it. *)
Theorem descriptor_exact :
  build_descriptor <$> FIELDS table_sections = Some osc_servo_json /\
  List.NoDup (xf_name <$> xd_fields osc_servo_json) /\
  spaced 0 (xd_fields osc_servo_json) = true /\
  (forall i, @byte_writable ControlTable i = true <->
     exists f, In f (xd_fields osc_servo_json) /\ writes_allowed f = true /\ covers f (Z.of_nat i) = true).
Proof.
  split; [exact export_value|]. split.
  { apply distinct_NoDup. vm_compute. reflexivity. }
  split; [vm_compute; reflexivity|]. exact writable_fields.
Qed.

(** ** The advertised bounds are enforced *)





















(** ** A rule refuses a value, never an address *)

Lemma first_err_in l e : first_err l = Err e -> In (Err e) l.
Proof. induction l as [|[u|e'] l IH]; simpl; intros H; try done; [auto|]. simplify_eq. auto. Qed.

Lemma slice_z_in {A} (l : list A) r x : In x (default [] (slice_z l r)) -> In x l.
Proof.
  unfold slice_z. destruct (get_range l _ _) as [s|] eqn:E; [|done]. simpl. intros H.
  apply get_range_Some in E as [_ ->]. apply list_elem_of_In in H. apply list_elem_of_In.
  by apply subseteq_take, subseteq_drop in H.
Qed.

Definition cmp_in_map (r : CmpRule) : bool :=
  let w := Z.land (cr_spec r) 15 in
  (cr_addr r + w <=? 1024) && (0 <=? cr_addr r) && (0 <=? w) &&
  (if negb (Z.land (cr_spec r) SPEC_RHS_REG =? 0) then u16 (cr_val r) + w <=? 1024 else true).

Lemma rules_in_map :
  forallb (fun r => (0 <=? al_addr r) && (al_addr r + 1 <=? 1024)) (@rm_ALLOWED_RULES ControlTable) = true /\
  forallb cmp_in_map (@rm_CMP_RULES ControlTable) = true.
Proof. vm_compute. split; reflexivity. Qed.

Lemma flat_read_in mem addr len : 0 <= addr -> addr + Z.of_nat len <= 1024 ->
  @flat_read ControlTable mem addr len = Ok (load_le4 mem (Z.to_nat addr) len).
Proof.
  intros H0 H. unfold flat_read. change (@rm_SIZE ControlTable) with 1024%nat.
  by rewrite (proj2 (Nat.ltb_ge _ _)) by lia.
Qed.

Lemma allowed_err mem r e : In r (@rm_ALLOWED_RULES ControlTable) ->
  allowed_rule_check (@flat_read ControlTable mem) r = Err e -> exists k, e = ValidationError k.
Proof.
  intros Hr H. destruct rules_in_map as [A _]. rewrite forallb_forall in A. apply A in Hr. zbool.
  unfold allowed_rule_check, check_allowed in H. rewrite flat_read_in in H by (simpl; lia).
  cbn [result_bind] in H. destruct (existsb _ _); [done|]. simplify_eq. eauto.
Qed.

Lemma cmp_err mem r e : In r (@rm_CMP_RULES ControlTable) ->
  cmp_rule_check (@flat_read ControlTable mem) r = Err e -> exists k, e = ValidationError k.
Proof.
  intros Hr H. destruct rules_in_map as [_ A]. rewrite forallb_forall in A. apply A in Hr. clear A.
  unfold cmp_in_map in Hr. apply andb_true_iff in Hr as [Hr Hreg]. zbool.
  unfold cmp_rule_check, check_cmp, widen in H. rewrite flat_read_in in H by lia. cbn [result_bind] in H.
  destruct (negb (Z.land (cr_spec r) SPEC_RHS_REG =? 0)).
  - assert (Hu := u16_range (cr_val r)). zbool. rewrite flat_read_in in H by lia. cbn [result_bind] in H.
    destruct (if negb _ then _ else _) as [a b]. destruct (match u8 _ with 0 => _ | _ => _ end); [done|]. simplify_eq. eauto.
  - cbn [result_bind] in H. destruct (if negb _ then _ else _) as [a b].
    destruct (match u8 _ with 0 => _ | _ => _ end); [done|]. simplify_eq. eauto.
Qed.

Lemma rules_ref_err mem lo hi e : @rules_ref ControlTable mem lo hi = Err e -> exists k, e = ValidationError k.
Proof.
  intros H. apply first_err_in, in_concat in H as (l & Hl & He). apply in_map_iff in Hl as (sec & <- & _).
  unfold section_checks in He. destruct (overlaps _ _ _ _); [|done].
  apply in_app_iff in He as [He|He]; apply in_map_iff in He as (r & He & Hr);
    apply list_elem_of_In, list_elem_of_filter in Hr as [_ Hr]; apply list_elem_of_In, slice_z_in in Hr.
  - by apply allowed_err in He.
  - by apply cmp_err in He.
Qed.
