(* ===== verification/Descriptor.v ===== *)
(** * Descriptor-driven register access (tools/osc/src/descriptor.rs)

    The operator's tool names registers instead of addresses: a [Descriptor] maps
    names to addresses, widths and value kinds, [decode] prints a register's bytes
    and [encode] turns an operator's text into them.  A result is [None] for a
    panic, [Err] for a reported error.  Reading the JSON is serde's; what its
    derive promises for these types is [read_json], on the file's value
    [osc_servo_json].  The file system is the class [Fs]. *)

From Stdlib Require Import String.
From S2P Require Import Prelude Wire Table Regions Export Text.
Open Scope string_scope.
Open Scope list_scope.
Open Scope Z_scope.

(** ** Data *)

Inductive Access := AcRo | AcRw.
Inductive Kind := KUint | KInt | KBool | KEnum | KBytes.
Record Variant := mkVariant { va_name : rstr; va_value : Z }.
Record DField := mkDField {
  df_name : rstr; df_addr : Z; df_width : Z; df_access : Access; df_kind : Kind; df_variants : list Variant }.
#[export] Instance Access_eq_dec : EqDecision Access.
Proof. solve_decision. Defined.
#[export] Instance Kind_eq_dec : EqDecision Kind.
Proof. solve_decision. Defined.
#[export] Instance Variant_eq_dec : EqDecision Variant.
Proof. solve_decision. Defined.
#[export] Instance DField_eq_dec : EqDecision DField.
Proof. solve_decision. Defined.
Record Descriptor := mkDescriptor {
  ds_model : rstr; ds_model_number : Z; ds_firmware_version : Z; ds_table_size : Z; ds_fields : list DField }.

(** [deserialize] of the exported values; an unknown word is an error. *)
Definition read_access (s : string) : option Access :=
  if String.eqb s "ro" then Some AcRo else if String.eqb s "rw" then Some AcRw else None.
Definition read_kind (s : string) : option Kind :=
  if String.eqb s "uint" then Some KUint else if String.eqb s "int" then Some KInt
  else if String.eqb s "bool" then Some KBool else if String.eqb s "enum" then Some KEnum
  else if String.eqb s "bytes" then Some KBytes else None.
Definition read_field (f : ExField) : option DField :=
  a ← read_access (xf_access f);
  k ← read_kind (xf_kind f);
  Some (mkDField (lit (xf_name f)) (xf_addr f) (xf_width f) a k
          ((fun v => mkVariant (lit v.1) v.2) <$> default [] (xf_variants f))).
Definition read_json (d : ExDescriptor) : option Descriptor :=
  fs ← mapM read_field (xd_fields d);
  Some (mkDescriptor (lit (xd_model d)) (xd_model_number d) (xd_firmware_version d) (xd_table_size d) fs).

(** ** Errors *)

Inductive DescError :=
  | DeReadOnly (field : rstr)
  | DeWidth (field : rstr) (w : Z)
  | DeShort (field : rstr) (w got : Z)
  | DeOverflow (field : rstr) (v : Z)
  | DeBool (s : rstr)
  | DeBytesLen (field : rstr) (want got : Z)
  | DeEnumOverflow (n : Z)
  | DeEnumName (field : rstr) (names : list rstr) (s : rstr)
  | DeBadInt (s : rstr) (k : IntErrorKind)
  | DeOddHex
  | DeHex (k : IntErrorKind)
  | DeNoField (name : rstr) (near : list rstr)
  | DeReadDir (dir : rstr)
  | DeDirEntry
  | DeReadFile (path : rstr)
  | DeParseFile (path : rstr)
  | DeNoModel (model : Z) (known : list rstr) (dir : rstr).

(** Panicking, failing computations. *)
Definition Rx (A : Type) : Type := option (result A DescError).
Definition rx_ret {A} (a : A) : Rx A := Some (Ok a).
Definition rx_err {A} (e : DescError) : Rx A := Some (Err e).
Definition rx_bind {A B} (m : Rx A) (k : A -> Rx B) : Rx B :=
  match m with None => None | Some (Err e) => Some (Err e) | Some (Ok a) => k a end.
Declare Scope rx_scope.
Delimit Scope rx_scope with rx.
Notation "'try' x := m 'in' k" := (rx_bind m (fun x => k))
  (at level 10, x pattern, m at level 100, k at level 200) : rx_scope.
Local Open Scope rx_scope.

Definition map_err {A E F} (f : E -> F) (r : result A E) : result A F :=
  match r with Ok a => Ok a | Err e => Err (f e) end.

(** ** Hex payloads (main.rs) *)

Definition hex (bytes : list Z) : rstr := join (lit " ") (hex2 <$> bytes).

(** [&s[i..i + 2]] for each even [i]; [n] bounds the pairs. *)
Fixpoint hex_pairs (n : nat) (s : rstr) : Rx (list Z) :=
  match s, n with
  | [], _ => rx_ret []
  | _, O => None
  | _, S n' =>
      match str_split 2 s with
      | None => None
      | Some (two, rest) =>
          try b := Some (map_err DeHex (from_str_radix ty_u8 16 two)) in
          try bs := hex_pairs n' rest in rx_ret (b :: bs)
      end
  end.
Definition parse_hex (s : rstr) : Rx (list Z) :=
  let s := List.filter (fun c => negb (is_whitespace c)) s in
  if Nat.odd (str_len s) then rx_err DeOddHex else hex_pairs (length s) s.

(** ** Integers *)

Definition parse_u64 (s : rstr) : result Z DescError :=
  match strip_prefix (lit "0x") s with
  | Some h => map_err (DeBadInt s) (from_str_radix ty_u64 16 h)
  | None => map_err (DeBadInt s) (from_str_radix ty_u64 10 s)
  end.

(** Negating the least [i64] overflows. *)
Definition neg_i64 (v : Z) : option Z := if fits ty_i64 (- v) then Some (- v) else None.
Definition parse_i64 (s : rstr) : Rx Z :=
  match strip_prefix (lit "0x") s with
  | Some h => Some (map_err (DeBadInt s) (from_str_radix ty_i64 16 h))
  | None =>
      match strip_prefix (lit "-0x") s with
      | Some h =>
          try v := Some (map_err (DeBadInt s) (from_str_radix ty_i64 16 h)) in
          match neg_i64 v with Some n => rx_ret n | None => None end
      | None => Some (map_err (DeBadInt s) (from_str_radix ty_i64 10 s))
      end
  end.

Definition scalar_width_ok (w : Z) : bool := (w =? 1) || (w =? 2) || (w =? 4).

(** [v |= (b as u64) << (8 * i)]. *)
Fixpoint le_fold (i v : Z) (bytes : list Z) : Z :=
  match bytes with [] => v | b :: bs => le_fold (i + 1) (Z.lor v (Z.shiftl b (8 * i))) bs end.
Definition scalar_le (f : DField) (bytes : list Z) : result Z DescError :=
  let w := df_width f in
  if negb (scalar_width_ok w) then Err (DeWidth (df_name f) w)
  else if Z.of_nat (length bytes) <? w then Err (DeShort (df_name f) w (Z.of_nat (length bytes)))
  else Ok (le_fold 0 0 (take (Z.to_nat w) bytes)).

Definition read_uint (f : DField) (bytes : list Z) : result Z DescError := scalar_le f bytes.
Definition read_int (f : DField) (bytes : list Z) : result Z DescError :=
  let? raw := scalar_le f bytes in
  match df_width f with
  | 1 => Ok (i8 (u8 raw))
  | 2 => Ok (i16 (u16 raw))
  | 4 => Ok (i32 (u32 raw))
  | w => Err (DeWidth (df_name f) w)
  end.

(** [v.to_le_bytes()[..n]]. *)
Fixpoint le_bytes (n : nat) (v : Z) : list Z :=
  match n with O => [] | S n' => v mod 256 :: le_bytes n' (v / 256) end.

Definition write_uint (f : DField) (v : Z) : result (list Z) DescError :=
  let? max := match df_width f with
              | 1 => Ok 255 | 2 => Ok 65535 | 4 => Ok 4294967295
              | w => Err (DeWidth (df_name f) w)
              end in
  if max <? v then Err (DeOverflow (df_name f) v) else Ok (le_bytes (Z.to_nat (df_width f)) v).

Definition write_int (f : DField) (v : Z) : result (list Z) DescError :=
  let? r := match df_width f with
            | 1 => Ok (-128, 127) | 2 => Ok (-32768, 32767) | 4 => Ok (-2147483648, 2147483647)
            | w => Err (DeWidth (df_name f) w)
            end in
  if (v <? r.1) || (r.2 <? v) then Err (DeOverflow (df_name f) v)
  else Ok (le_bytes (Z.to_nat (df_width f)) v).

(** ** Fields as text *)

Definition variant_named (f : DField) (p : rstr -> bool) : option Variant :=
  List.find (fun v => p (va_name v)) (df_variants f).

Definition enum_value (f : DField) (s : rstr) : result Z DescError :=
  match variant_named f (fun n => bool_decide (n = s)) with
  | Some v => Ok (va_value v)
  | None =>
      match variant_named f (fun n => eq_ignore_ascii_case n s) with
      | Some v => Ok (va_value v)
      | None =>
          match parse_u64 s with
          | Ok n => if n <=? 255 then Ok n else Err (DeEnumOverflow n)
          | Err _ => Err (DeEnumName (df_name f) (va_name <$> df_variants f) s)
          end
      end
  end.

Definition decode (f : DField) (bytes : list Z) : result rstr DescError :=
  match df_kind f with
  | KUint => let? v := read_uint f bytes in Ok (dec v)
  | KInt => let? v := read_int f bytes in Ok (sdec v)
  | KBool => Ok (if default 0 (bytes !! 0%nat) =? 0 then lit "off" else lit "on")
  | KEnum =>
      let? n := read_uint f bytes in
      Ok (match List.find (fun v => va_value v =? n) (df_variants f) with
          | Some v => va_name v ++ lit " (" ++ dec n ++ lit ")"
          | None => dec n
          end)
  | KBytes => Ok (hex bytes)
  end.

Definition encode_bool (s : rstr) : Rx (list Z) :=
  let l := to_ascii_lowercase s in
  if bool_decide (l = lit "on") || bool_decide (l = lit "true") || bool_decide (l = lit "1") then rx_ret [1]
  else if bool_decide (l = lit "off") || bool_decide (l = lit "false") || bool_decide (l = lit "0") then rx_ret [0]
  else rx_err (DeBool s).

Definition encode (f : DField) (s : rstr) : Rx (list Z) :=
  match df_access f with
  | AcRo => rx_err (DeReadOnly (df_name f))
  | AcRw =>
      match df_kind f with
      | KUint => try v := Some (parse_u64 s) in Some (write_uint f v)
      | KInt => try v := parse_i64 s in Some (write_int f v)
      | KBool => encode_bool s
      | KEnum => try n := Some (enum_value f s) in Some (write_uint f n)
      | KBytes =>
          try bytes := parse_hex s in
          if Z.of_nat (length bytes) =? df_width f then rx_ret bytes
          else rx_err (DeBytesLen (df_name f) (df_width f) (Z.of_nat (length bytes)))
      end
  end.

(** [addr + width] on 16 bits. *)
Definition field_end (f : DField) : option Z :=
  if df_addr f + df_width f <=? 65535 then Some (df_addr f + df_width f) else None.

Definition Descriptor_field (d : Descriptor) (name : rstr) : result DField DescError :=
  match List.find (fun f => bool_decide (df_name f = name)) (ds_fields d) with
  | Some f => Ok f
  | None =>
      Err (DeNoField name
        (df_name <$> List.filter (fun f => str_contains (df_name f) name || str_contains name (df_name f)) (ds_fields d)))
  end.

(** ** The registry *)

Inductive IoError := IoNotFound | IoOther.
(** Environment and files; a directory lists its entries' names, a name that
    could not be read is [None].  [from_json] is serde's reader. *)
Class Fs := {
  env_var : string -> option rstr;
  read_dir : rstr -> result (list (option rstr)) IoError;
  read_to_string : rstr -> option rstr;
  from_json : rstr -> option Descriptor;
}.

(** [Path::join] of a relative name. *)
Definition SLASH : Z := 47.
Definition path_join (dir name : rstr) : rstr :=
  match rev dir with
  | [] => name
  | c :: _ => if c =? SLASH then dir ++ name else dir ++ [SLASH] ++ name
  end.
(** A file name's extension: what follows its last dot, unless the dot is first. *)
Definition DOT : Z := 46.
Definition extension (name : rstr) : option rstr :=
  match split_once DOT (rev name) with
  | Some (ext, stem) => if bool_decide (stem = []) then None else Some (rev ext)
  | None => None
  end.

Section registry.
Context {FS : Fs}.

Definition external_dir : rstr :=
  match env_var "OSC_CONFIG_DIR" with
  | Some dir => path_join dir (lit "descriptors")
  | None => path_join (default [] (env_var "HOME")) (lit ".config/osc/descriptors")
  end.

(** The entries in listing order; the first unreadable one ends the walk. *)
Fixpoint json_names (entries : list (option rstr)) : result (list rstr) DescError :=
  match entries with
  | [] => Ok []
  | None :: _ => Err DeDirEntry
  | Some name :: es =>
      let? rest := json_names es in
      Ok (if bool_decide (extension name = Some (lit "json")) then name :: rest else rest)
  end.
Definition external_paths : result (list rstr) DescError :=
  let dir := external_dir in
  match read_dir dir with
  | Err IoNotFound => Ok []
  | Err IoOther => Err (DeReadDir dir)
  | Ok entries => let? names := json_names entries in Ok (path_join dir <$> sort_text names)
  end.

Definition Registry : Type := list Descriptor.
(** A descriptor replaces the one of its model number. *)
Definition overlay (ds : Registry) (d : Descriptor) : Registry :=
  List.filter (fun e => negb (ds_model_number e =? ds_model_number d)) ds ++ [d].
Fixpoint overlay_files (paths : list rstr) (ds : Registry) : result Registry DescError :=
  match paths with
  | [] => Ok ds
  | path :: ps =>
      match read_to_string path with
      | None => Err (DeReadFile path)
      | Some text =>
          match from_json text with
          | None => Err (DeParseFile path)
          | Some d => overlay_files ps (overlay ds d)
          end
      end
  end.

(** [expect]: a built-in that does not parse is a panic. *)
Definition BUILTINS : option Registry := mapM read_json [osc_servo_json].
Definition Registry_load : Rx Registry :=
  match BUILTINS with
  | None => None
  | Some ds => try paths := Some external_paths in Some (overlay_files paths ds)
  end.

Inductive Note := NtFirmware (model : rstr) (descriptor_fw servo_fw : Z) | NtUnassigned (model : rstr).

(** [{:#06x}]. *)
Definition hex_u16 (n : Z) : rstr := lit "0x" ++ hex2 (n / 256) ++ hex2 (n mod 256).
Definition known_models (ds : Registry) : list rstr :=
  sort_text ((fun d => ds_model d ++ lit " (" ++ hex_u16 (ds_model_number d) ++ lit ")") <$> ds).
Definition Registry_select (ds : Registry) (model fw : Z) : result (Descriptor * option Note) DescError :=
  match List.find (fun d => ds_model_number d =? model) ds with
  | Some d =>
      Ok (d, if ds_firmware_version d =? fw then None else Some (NtFirmware (ds_model d) (ds_firmware_version d) fw))
  | None =>
      match ds with
      | [only] =>
          if model =? 0 then Ok (only, Some (NtUnassigned (ds_model only)))
          else Err (DeNoModel model (known_models ds) external_dir)
      | _ => Err (DeNoModel model (known_models ds) external_dir)
      end
  end.
End registry.

(** ** Little-endian numbers *)

Lemma le_fold_1 a : le_fold 0 0 [a] = a.
Proof. cbn [le_fold]. by rewrite Z.lor_0_l, Z.mul_0_r, Z.shiftl_0_r. Qed.

Lemma le_fold_2 a b : is_u8 a -> is_u8 b -> le_fold 0 0 [a; b] = from_le16 a b.
Proof.
  intros Ha Hb. cbn [le_fold]. rewrite Z.lor_0_l, Z.mul_0_r, Z.shiftl_0_r.
  change (8 * (0 + 1)) with 8. unfold from_le16 in *.
  rewrite lor_shiftl_add by (try lia; change (2 ^ 8) with 256; lia). lia.
Qed.

Lemma le_fold_4 a b c d : is_u8 a -> is_u8 b -> is_u8 c -> is_u8 d -> le_fold 0 0 [a; b; c; d] = from_le32 a b c d.
Proof.
  intros Ha Hb Hc Hd. assert (H2 := le_fold_2 a b Ha Hb). cbn [le_fold] in *.
  change (0 + 1 + 1) with 2. change (2 + 1) with 3. rewrite H2.
  assert (H := from_le16_range a b Ha Hb). unfold from_le16, from_le32 in *.
  change (8 * 2) with 16. change (8 * 3) with 24.
  rewrite (lor_shiftl_add 16) by (try lia; change (2 ^ 16) with 65536; lia).
  rewrite (lor_shiftl_add 24) by (try lia; change (2 ^ 24) with 16777216; change (2 ^ 16) with 65536; lia).
  change (2 ^ 16) with 65536. change (2 ^ 24) with 16777216. lia.
Qed.

(** The number of a little-endian byte string. *)
Fixpoint le_value (bs : list Z) : Z := match bs with [] => 0 | b :: bs' => b + 256 * le_value bs' end.

Lemma le_value_range bs : bytes_ok bs -> 0 <= le_value bs < 256 ^ Z.of_nat (length bs).
Proof.
  induction bs as [|b bs IH]; intros H; [simpl; lia|]. apply bytes_ok_cons in H as [Hb H].
  apply IH in H. cbn [le_value length]. rewrite Nat2Z.inj_succ, Z.pow_succ_r by lia. lia.
Qed.

Lemma le_bytes_value n : forall bs v, bytes_ok bs -> length bs = n -> le_value bs = v mod 256 ^ Z.of_nat n ->
  le_bytes n v = bs.
Proof.
  induction n as [|n IH]; intros bs v Hb Hl Hv; destruct bs as [|b bs]; try done. simplify_eq/=.
  apply bytes_ok_cons in Hb as [Hb Hbs].
  assert (Hp : 0 < 256 ^ Z.of_nat (length bs)) by (apply Z.pow_pos_nonneg; lia).
  assert (v mod 256 ^ Z.of_nat (S (length bs)) = v mod 256 + 256 * ((v / 256) mod 256 ^ Z.of_nat (length bs))) as Hs.
  { rewrite Nat2Z.inj_succ, Z.pow_succ_r by lia. rewrite Z.rem_mul_r by lia. lia. }
  change (Z.pos (Pos.of_succ_nat (length bs))) with (Z.of_nat (S (length bs))) in Hv.
  rewrite Hs in Hv. assert (Hr := le_value_range bs Hbs).
  assert (Hm := Z.mod_pos_bound v 256). assert (Hm2 := Z.mod_pos_bound (v / 256) _ Hp).
  f_equal; [lia|]. apply IH; [done..|lia].
Qed.

Lemma le_bytes_ok n v : bytes_ok (le_bytes n v).
Proof.
  revert v. induction n as [|n IH]; intros v; simpl; [by constructor|]. apply bytes_ok_cons. split; [|apply IH].
  assert (H := Z.mod_pos_bound v 256). lia.
Qed.
Lemma le_bytes_length n v : length (le_bytes n v) = n.
Proof. revert v. induction n; intros; simpl; auto. Qed.

Lemma le_value_bytes n v : le_value (le_bytes n v) = v mod 256 ^ Z.of_nat n.
Proof.
  revert v. induction n as [|n IH]; intros v; [simpl; by rewrite Z.mod_1_r|].
  assert (0 < 256 ^ Z.of_nat n) by (apply Z.pow_pos_nonneg; lia).
  cbn [le_bytes le_value]. rewrite IH, Nat2Z.inj_succ, Z.pow_succ_r by lia. by rewrite Z.rem_mul_r by lia.
Qed.

Definition scalar_w (w : Z) : Prop := w = 1 \/ w = 2 \/ w = 4.
Lemma scalar_width_spec w : scalar_width_ok w = true <-> scalar_w w.
Proof. unfold scalar_width_ok, scalar_w. rewrite !orb_true_iff, !Z.eqb_eq. tauto. Qed.

Lemma le_fold_value bs : bytes_ok bs -> scalar_w (Z.of_nat (length bs)) -> le_fold 0 0 bs = le_value bs.
Proof.
  intros Hb Hw. unfold scalar_w in Hw.
  destruct bs as [|a [|b [|c [|d [|]]]]]; simpl in Hw; try lia;
    repeat match goal with H : bytes_ok (_ :: _) |- _ => apply bytes_ok_cons in H as [? H] end.
  - rewrite le_fold_1. simpl. lia.
  - rewrite le_fold_2 by done. unfold from_le16. simpl. lia.
  - rewrite le_fold_4 by done. unfold from_le32. simpl. lia.
Qed.

Lemma scalar_le_value f bs : bytes_ok bs -> scalar_w (df_width f) -> Z.of_nat (length bs) = df_width f ->
  scalar_le f bs = Ok (le_value bs).
Proof.
  intros Hb Hw Hl. unfold scalar_le. rewrite (proj2 (scalar_width_spec _) Hw). cbn [negb].
  rewrite Hl, Z.ltb_irrefl. rewrite <- Hl, Nat2Z.id, take_ge by lia. f_equal. apply le_fold_value; [done|by rewrite Hl].
Qed.

(** ** Numbers as text *)

Lemma parse_u64_dec v : 0 <= v <= 18446744073709551615 -> parse_u64 (dec v) = Ok v.
Proof.
  intros Hv. unfold parse_u64. change (lit "0x") with ([48] ++ [120]).
  rewrite dec_no_prefix by (unfold is_digit; simpl; lia).
  rewrite from_str_dec; [done|simpl; lia|done|lia|]. unfold fits. cbn. rewrite andb_true_iff, !Z.leb_le. lia.
Qed.

Lemma parse_i64_sdec v : -9223372036854775808 <= v <= 9223372036854775807 -> parse_i64 (sdec v) = Some (Ok v).
Proof. intros Hv. unfold parse_i64. by rewrite sdec_no_0x, sdec_no_neg_0x, from_str_sdec. Qed.

Definition width_pow (w : Z) : Z := 256 ^ w.
Lemma le_value_width f bs : bytes_ok bs -> scalar_w (df_width f) -> Z.of_nat (length bs) = df_width f ->
  0 <= le_value bs < 256 ^ df_width f.
Proof. intros Hb Hw Hl. rewrite <- Hl. by apply le_value_range. Qed.

Ltac width_cases f Hw :=
  let E := fresh "Ew" in
  destruct Hw as [E|[E|E]]; rewrite E in *;
  change (256 ^ 1) with 256 in *; change (256 ^ 2) with 65536 in *; change (256 ^ 4) with 4294967296 in *.

Lemma write_uint_value f bs : bytes_ok bs -> scalar_w (df_width f) -> Z.of_nat (length bs) = df_width f ->
  write_uint f (le_value bs) = Ok bs.
Proof.
  intros Hb Hw Hl. assert (Hr := le_value_width f bs Hb Hw Hl).
  assert (Hbytes : le_bytes (Z.to_nat (df_width f)) (le_value bs) = bs).
  { apply le_bytes_value; [done|lia|]. rewrite Z2Nat.id by (unfold scalar_w in Hw; lia).
    by rewrite Z.mod_small. }
  unfold write_uint. unfold scalar_w in Hw. width_cases f Hw; cbn [result_bind];
    (destruct (_ <? _) eqn:E; zbool; [lia|]); by rewrite <- Hbytes at 2.
Qed.

Lemma read_int_value f bs : bytes_ok bs -> scalar_w (df_width f) -> Z.of_nat (length bs) = df_width f ->
  read_int f bs = Ok (sext (8 * df_width f) (le_value bs)).
Proof.
  intros Hb Hw Hl. assert (Hr := le_value_width f bs Hb Hw Hl).
  unfold read_int. rewrite scalar_le_value by done. cbn [result_bind].
  unfold scalar_w in Hw. width_cases f Hw; do 2 f_equal; [apply u8_id|apply u16_id|apply u32_id]; done.
Qed.

Lemma sext_mod w v : 0 < w -> sext w v mod 2 ^ w = v mod 2 ^ w.
Proof.
  intros Hw. assert (0 < 2 ^ w) by (apply Z.pow_pos_nonneg; lia). unfold sext.
  destruct (_ <? _); [by rewrite Z.mod_mod by lia|].
  replace (v mod 2 ^ w - 2 ^ w) with (v mod 2 ^ w + (-1) * 2 ^ w) by lia.
  rewrite Z_mod_plus_full. by rewrite Z.mod_mod by lia.
Qed.
Lemma sext_between w v : 0 < w -> - 2 ^ (w - 1) <= sext w v < 2 ^ (w - 1).
Proof.
  intros Hw. assert (Hp : 2 ^ w = 2 * 2 ^ (w - 1)) by (rewrite <- Z.pow_succ_r by lia; f_equal; lia).
  assert (0 < 2 ^ (w - 1)) by (apply Z.pow_pos_nonneg; lia).
  assert (Hm := Z.mod_pos_bound v (2 ^ w)). unfold sext. destruct (_ <? _) eqn:E; zbool; lia.
Qed.

Lemma write_int_value f bs : bytes_ok bs -> scalar_w (df_width f) -> Z.of_nat (length bs) = df_width f ->
  write_int f (sext (8 * df_width f) (le_value bs)) = Ok bs.
Proof.
  intros Hb Hw Hl. assert (Hr := le_value_width f bs Hb Hw Hl).
  assert (Hs := sext_between (8 * df_width f) (le_value bs) ltac:(unfold scalar_w in Hw; lia)).
  assert (Hbytes : le_bytes (Z.to_nat (df_width f)) (sext (8 * df_width f) (le_value bs)) = bs).
  { apply le_bytes_value; [done|lia|]. rewrite Z2Nat.id by (unfold scalar_w in Hw; lia).
    assert (256 ^ df_width f = 2 ^ (8 * df_width f)) as HH
      by (rewrite Z.pow_mul_r by (unfold scalar_w in Hw; lia); done).
    rewrite HH in *. rewrite sext_mod by (unfold scalar_w in Hw; lia). by rewrite Z.mod_small. }
  unfold write_int. unfold scalar_w in Hw. destruct Hw as [Ew|[Ew|Ew]]; rewrite Ew in *; cbn [result_bind fst snd];
    rewrite Hbytes;
    [change (2 ^ (8 * 1 - 1)) with 128 in Hs|change (2 ^ (8 * 2 - 1)) with 32768 in Hs
    |change (2 ^ (8 * 4 - 1)) with 2147483648 in Hs];
    (destruct (_ || _) eqn:E; [|done]); apply orb_true_iff in E as [E|E]; zbool; lia.
Qed.

(** ** Hex payloads read back *)

Lemma hex_char_plain d : 0 <= d < 16 -> is_whitespace (hex_char d) = false /\ len_utf8 (hex_char d) = 1%nat.
Proof.
  intros H. unfold hex_char, is_whitespace, len_utf8. destruct (d <? 10) eqn:E; zbool;
    (split; [repeat (apply orb_false_iff; split); try apply andb_false_iff; lia|case_goal; zbool; lia]).
Qed.

Definition plain (s : rstr) : Prop := Forall (fun c => is_whitespace c = false /\ len_utf8 c = 1%nat) s.

Lemma byte_nibbles b : is_u8 b -> 0 <= b / 16 < 16 /\ 0 <= b mod 16 < 16 /\ b = b / 16 * 16 + b mod 16.
Proof. intros H. zmod. Qed.

Lemma hex2_plain b : is_u8 b -> plain (hex2 b).
Proof. intros H. apply byte_nibbles in H as (? & ? & _). repeat constructor; by apply hex_char_plain. Qed.

Lemma from_hex2 b : is_u8 b -> from_str_radix ty_u8 16 (hex2 b) = Ok b.
Proof.
  intros H. assert (Hn := byte_nibbles b H). destruct Hn as (H1 & H2 & Hb). unfold hex2, from_str_radix.
  assert (hex_char (b / 16) <> 43 /\ hex_char (b / 16) <> 45) as [N1 N2]
    by (unfold hex_char; destruct (_ <? _) eqn:E; zbool; lia).
  unfold PLUS, MINUS. apply Z.eqb_neq in N1, N2. rewrite N1, N2. cbn [orb andb digits_loop].
  rewrite !to_digit_hex by done. unfold fits. cbn [it_min it_max ty_u8].
  repeat match goal with |- context [negb ((0 <=? ?a) && (?a <=? 255))] =>
    replace ((0 <=? a) && (a <=? 255)) with true by (symmetry; apply andb_true_iff; rewrite !Z.leb_le; lia) end.
  cbn [negb]. f_equal. lia.
Qed.

Lemma filter_plain s : plain s -> List.filter (fun c => negb (is_whitespace c)) s = s.
Proof. induction 1 as [|c s [Hc _] _ IH]; simpl; [done|]. by rewrite Hc, IH. Qed.

Lemma hex_filtered bs : bytes_ok bs ->
  List.filter (fun c => negb (is_whitespace c)) (hex bs) = concat (hex2 <$> bs).
Proof.
  induction bs as [|b bs IH]; intros H; [done|]. apply bytes_ok_cons in H as [Hb H].
  apply IH in H. destruct bs as [|b' bs]; [cbn [hex join fmap list_fmap concat]; rewrite app_nil_r;
    by apply filter_plain, hex2_plain|].
  change (hex (b :: b' :: bs)) with (hex2 b ++ lit " " ++ hex (b' :: bs)).
  rewrite !List.filter_app, H, filter_plain by (by apply hex2_plain). done.
Qed.

Lemma str_len_pairs bs : bytes_ok bs -> str_len (concat (hex2 <$> bs)) = (2 * length bs)%nat.
Proof.
  induction bs as [|b bs IH]; intros H; [done|]. apply bytes_ok_cons in H as [Hb H].
  apply hex2_plain in Hb. cbn [fmap list_fmap concat]. unfold str_len in *. rewrite fmap_app, list_sum_app, IH by done.
  unfold hex2 in *. apply Forall_cons_1 in Hb as [[_ L1] Hb]. apply Forall_cons_1 in Hb as [[_ L2] _].
  cbn [fmap list_fmap list_sum foldr]. rewrite L1, L2. simpl. lia.
Qed.

Lemma hex_pairs_concat bs n : bytes_ok bs -> (length bs <= n)%nat ->
  hex_pairs n (concat (hex2 <$> bs)) = Some (Ok bs).
Proof.
  revert n. induction bs as [|b bs IH]; intros n H Hn; [by destruct n|]. apply bytes_ok_cons in H as [Hb H].
  destruct n as [|n]; [simpl in Hn; lia|]. assert (Hp := hex2_plain b Hb). assert (Hx := from_hex2 b Hb).
  apply Forall_cons_1 in Hp as [[_ L1] Hp]. apply Forall_cons_1 in Hp as [[_ L2] _].
  change (concat (hex2 <$> b :: bs)) with (hex_char (b / 16) :: hex_char (b mod 16) :: concat (hex2 <$> bs)).
  cbn [hex_pairs str_split]. rewrite L1. cbn [Nat.ltb Nat.leb Nat.sub str_split]. rewrite L2.
  cbn [Nat.ltb Nat.leb Nat.sub str_split mbind option_bind fst snd].
  assert (str_split 0 (concat (hex2 <$> bs)) = Some ([], concat (hex2 <$> bs))) as -> by (by destruct bs).
  cbn [mbind option_bind fst snd]. unfold hex2 in Hx. rewrite Hx. cbn [map_err rx_bind]. rewrite IH by (simpl in Hn; auto with lia). done.
Qed.

Lemma length_pairs bs : length (concat (hex2 <$> bs)) = (2 * length bs)%nat.
Proof.
  induction bs as [|b bs IH]; [done|].
  change (length (concat (hex2 <$> b :: bs))) with (2 + length (concat (hex2 <$> bs)))%nat. rewrite IH. simpl. lia.
Qed.

Lemma parse_hex_hex bs : bytes_ok bs -> parse_hex (hex bs) = Some (Ok bs).
Proof.
  intros H. unfold parse_hex. rewrite hex_filtered, str_len_pairs by done.
  rewrite Nat.odd_mul. cbn [Nat.odd Nat.even negb andb]. apply hex_pairs_concat; [done|].
  rewrite length_pairs. lia.
Qed.

(** ** What is printed reads back *)

(** A field the text codec supports: a host may write it, and its width is one
    its kind has. *)
Definition settable (f : DField) : Prop :=
  df_access f = AcRw /\
  match df_kind f with KUint | KInt | KEnum => scalar_w (df_width f) | KBool => df_width f = 1 | KBytes => True end.
(** A bool register holds 0 or 1. *)
Definition contents_ok (f : DField) (bs : list Z) : Prop :=
  bytes_ok bs /\ Z.of_nat (length bs) = df_width f /\
  (df_kind f = KBool -> bs = [0] \/ bs = [1]).

Lemma decode_encode f bs : settable f -> df_kind f <> KEnum -> contents_ok f bs ->
  exists s, decode f bs = Ok s /\ encode f s = Some (Ok bs).
Proof.
  intros [Ha Hk] Hne (Hb & Hl & Hbool). unfold decode, encode. rewrite Ha.
  destruct (df_kind f) eqn:K; try done.
  - unfold read_uint. rewrite scalar_le_value by done. cbn [result_bind]. eexists; split; [done|].
    rewrite parse_u64_dec; [|assert (Hr := le_value_width f bs Hb Hk Hl); unfold scalar_w in Hk; width_cases f Hk; lia].
    cbn [rx_bind]. by rewrite write_uint_value.
  - rewrite read_int_value by done. cbn [result_bind]. eexists; split; [done|].
    assert (Hs := sext_between (8 * df_width f) (le_value bs) ltac:(unfold scalar_w in Hk; lia)).
    assert (2 ^ (8 * df_width f - 1) <= 2147483648)
      by (change 2147483648 with (2 ^ 31); apply Z.pow_le_mono_r; unfold scalar_w in Hk; lia).
    rewrite parse_i64_sdec by lia. cbn [rx_bind]. by rewrite write_int_value.
  - eexists; split; [done|]. by destruct Hbool as [->| ->].
  - eexists; split; [done|]. rewrite parse_hex_hex by done. cbn [rx_bind]. by rewrite Hl, Z.eqb_refl.
Qed.

(** ** What is accepted is a register's contents *)

Lemma digits_loop_fits t neg radix s : forall acc v,
  fits t acc = true -> digits_loop t neg radix acc s = Ok v -> fits t v = true.
Proof.
  induction s as [|c s IH]; intros acc v Ha H; simpl in H; [by simplify_eq|].
  destruct (to_digit radix c); [|done]. destruct (negb (fits t (acc * radix))); [done|].
  destruct (negb (fits t (if neg then _ else _))) eqn:E; [done|]. apply negb_false_iff in E. by apply IH in H.
Qed.
Lemma from_str_fits t radix s v : fits t 0 = true -> from_str_radix t radix s = Ok v -> fits t v = true.
Proof.
  intros H0 H. unfold from_str_radix in H. destruct s as [|c s]; [done|].
  destruct (_ && bool_decide _); [done|]. destruct (c =? PLUS); [by apply digits_loop_fits in H|].
  destruct (_ && _); by apply digits_loop_fits in H.
Qed.

Lemma rx_bind_ok {A B} (m : Rx A) (k : A -> Rx B) b :
  rx_bind m k = Some (Ok b) -> exists a, m = Some (Ok a) /\ k a = Some (Ok b).
Proof. destruct m as [[a|]|]; simpl; intros H; try done. eauto. Qed.
Lemma map_err_ok {A E F} (g : E -> F) (r : result A E) a : map_err g r = Ok a -> r = Ok a.
Proof. by destruct r; simpl; intros; simplify_eq. Qed.
Lemma result_bind_ok {A B E} (r : result A E) (k : A -> result B E) b :
  result_bind r k = Ok b -> exists a, r = Ok a /\ k a = Ok b.
Proof. destruct r; simpl; intros H; try done. eauto. Qed.

Lemma hex_pairs_ok n : forall s bs, hex_pairs n s = Some (Ok bs) -> bytes_ok bs.
Proof.
  assert (Hnil : forall bs, rx_ret [] = Some (Ok bs) -> bytes_ok bs) by (intros bs [= <-]; constructor).
  induction n as [|n IH]; intros s bs H; destruct s as [|c s]; cbn [hex_pairs] in H; try (by apply Hnil in H); [done|].
  destruct (str_split 2 _) as [[two rest]|]; [|done].
  apply rx_bind_ok in H as (b & Hb & H). apply rx_bind_ok in H as (bs' & Hbs & H). simplify_eq.
  apply map_err_ok, from_str_fits in Hb; [|done]. injection H as <-. apply bytes_ok_cons. split; [|eauto].
  unfold fits in Hb. cbn in Hb. apply andb_true_iff in Hb as [? ?]. zbool. lia.
Qed.

Lemma parse_hex_ok s bs : parse_hex s = Some (Ok bs) -> bytes_ok bs.
Proof. unfold parse_hex. destruct (Nat.odd _); [done|]. apply hex_pairs_ok. Qed.

Lemma write_uint_shape f v bs : write_uint f v = Ok bs -> bs = le_bytes (Z.to_nat (df_width f)) v.
Proof. intros H. apply result_bind_ok in H as (m & _ & H). destruct (m <? v); by simplify_eq. Qed.
Lemma write_int_shape f v bs : write_int f v = Ok bs -> bs = le_bytes (Z.to_nat (df_width f)) v.
Proof. intros H. apply result_bind_ok in H as (m & _ & H). destruct (_ || _); by simplify_eq. Qed.

Lemma le_bytes_contents f v : df_kind f <> KBool -> 0 <= df_width f ->
  contents_ok f (le_bytes (Z.to_nat (df_width f)) v).
Proof.
  intros Hk Hw. split; [apply le_bytes_ok|]. split; [rewrite le_bytes_length; lia|done].
Qed.

Lemma encode_bool_ok s bs : encode_bool s = Some (Ok bs) -> bs = [0] \/ bs = [1].
Proof.
  unfold encode_bool. intros H. destruct (_ || _); [injection H as <-; auto|].
  destruct (_ || _); [injection H as <-; auto|done].
Qed.

Lemma encode_contents f s bs : settable f -> encode f s = Some (Ok bs) -> contents_ok f bs.
Proof.
  intros [Ha Hk] H. unfold encode in H. rewrite Ha in H. destruct (df_kind f) eqn:K.
  - apply rx_bind_ok in H as (v & _ & H). injection H as H. apply write_uint_shape in H as ->.
    apply le_bytes_contents; [congruence|unfold scalar_w in Hk; lia].
  - apply rx_bind_ok in H as (v & _ & H). injection H as H. apply write_int_shape in H as ->.
    apply le_bytes_contents; [congruence|unfold scalar_w in Hk; lia].
  - apply encode_bool_ok in H. split; [|split; [|done]]; destruct H as [->| ->]; simpl; try lia;
      repeat constructor; lia.
  - apply rx_bind_ok in H as (v & _ & H). injection H as H. apply write_uint_shape in H as ->.
    apply le_bytes_contents; [congruence|unfold scalar_w in Hk; lia].
  - apply rx_bind_ok in H as (v & Hv & H). destruct (_ =? _) eqn:E; [|done]. injection H as <-. zbool.
    split; [by apply parse_hex_ok in Hv|]. split; [done|congruence].
Qed.

(** ** Enum registers by name *)

Lemma find_first {A B} `{EqDecision B} (g : A -> B) (l : list A) v :
  base.NoDup (g <$> l) -> In v l -> List.find (fun u => bool_decide (g u = g v)) l = Some v.
Proof.
  induction l as [|u l IH]; intros Hnd Hv; [done|]. apply list.NoDup_cons in Hnd as [Hu Hnd]. simpl.
  destruct Hv as [->|Hv]; [by rewrite bool_decide_eq_true_2|].
  rewrite bool_decide_eq_false_2; [by apply IH|]. intros E. apply Hu. rewrite E.
  apply list_elem_of_fmap. exists v. split; [done|]. by apply list_elem_of_In.
Qed.

Lemma enum_by_name f v : settable f -> df_kind f = KEnum -> In v (df_variants f) -> is_u8 (va_value v) ->
  base.NoDup (va_name <$> df_variants f) -> base.NoDup (va_value <$> df_variants f) ->
  encode f (va_name v) = Some (Ok (le_bytes (Z.to_nat (df_width f)) (va_value v))) /\
  decode f (le_bytes (Z.to_nat (df_width f)) (va_value v)) =
    Ok (va_name v ++ lit " (" ++ dec (va_value v) ++ lit ")").
Proof.
  intros [Ha Hk] K Hv Hb Hn1 Hn2. unfold encode, decode. rewrite Ha, K in *.
  assert (Hlen : Z.of_nat (length (le_bytes (Z.to_nat (df_width f)) (va_value v))) = df_width f)
    by (rewrite le_bytes_length; unfold scalar_w in Hk; lia).
  assert (Hval : le_value (le_bytes (Z.to_nat (df_width f)) (va_value v)) = va_value v).
  { rewrite le_value_bytes. apply Z.mod_small. split; [lia|].
    apply Z.lt_le_trans with (256 ^ 1); [lia|]. apply Z.pow_le_mono_r; unfold scalar_w in Hk; lia. }
  split.
  - unfold enum_value, variant_named. rewrite find_first by done. cbn [rx_bind].
    f_equal. rewrite <- Hval at 1. apply write_uint_value; [apply le_bytes_ok|done..].
  - unfold read_uint. rewrite scalar_le_value by (done || apply le_bytes_ok). cbn [result_bind]. rewrite Hval.
    assert (List.find (fun u => va_value u =? va_value v) (df_variants f) = Some v) as ->; [|done].
    rewrite <- (find_first va_value _ v) by done. clear. induction (df_variants f) as [|u l IH]; [done|]. simpl.
    rewrite IH. destruct (Z.eqb_spec (va_value u) (va_value v)) as [E|E];
      [by rewrite bool_decide_eq_true_2|by rewrite bool_decide_eq_false_2].
Qed.

(** ** The codec *)

(** C21: for a field a host may write, text and bytes agree both ways.  What
    [decode] prints for a register's contents [encode] turns back into those
    bytes; whatever text [encode] accepts, the bytes are a full register's
    contents, [decode] prints them and (an enum apart, whose name is printed
    with its number) [encode] reads the printed text back to the same bytes; an
    enum's variant names encode to their discriminants, which print under those
    names. *)
Theorem text_round_trip f : settable f ->
  (forall bs, contents_ok f bs -> df_kind f <> KEnum ->
     exists s, decode f bs = Ok s /\ encode f s = Some (Ok bs)) /\
  (forall s bs, encode f s = Some (Ok bs) -> contents_ok f bs /\
     (df_kind f <> KEnum -> exists t, decode f bs = Ok t /\ encode f t = Some (Ok bs))) /\
  (forall v, df_kind f = KEnum -> base.NoDup (va_name <$> df_variants f) -> base.NoDup (va_value <$> df_variants f) ->
     In v (df_variants f) -> is_u8 (va_value v) ->
     exists bs, encode f (va_name v) = Some (Ok bs) /\
       decode f bs = Ok (va_name v ++ lit " (" ++ dec (va_value v) ++ lit ")")).
Proof.
  intros Hs. split; [|split].
  - intros bs Hc Hk. by apply decode_encode.
  - intros s bs H. apply (encode_contents f s bs Hs) in H. split; [done|]. intros Hk. by apply decode_encode.
  - intros v Hk Hn1 Hn2 Hv Hb. eexists. by apply enum_by_name.
Qed.

Definition goal_position_field : DField := mkDField (lit "goal_position") 388 4 AcRw KInt [].
Lemma text_round_trip_witness :
  settable goal_position_field /\
  contents_ok goal_position_field [96; 121; 254; 255] /\
  decode goal_position_field [96; 121; 254; 255] = Ok (lit "-100000") /\
  exists s, decode goal_position_field [96; 121; 254; 255] = Ok s /\
    encode goal_position_field s = Some (Ok [96; 121; 254; 255]).
Proof.
  assert (settable goal_position_field) as Hs by (split; [reflexivity|]; simpl; unfold scalar_w; lia).
  assert (contents_ok goal_position_field [96; 121; 254; 255]) as Hc
    by (split; [repeat constructor; lia|]; split; [reflexivity|discriminate]).
  split; [exact Hs|]. split; [exact Hc|]. split; [vm_compute; reflexivity|].
  apply (text_round_trip goal_position_field Hs); [exact Hc|discriminate].
Defined.

(** ** Texts the parsers take *)

(** A sign in front of a hex digit passes for a byte. *)
Example hex_sign_accepted : parse_hex (lit "+f +f") = Some (Ok [15; 15]).
Proof. vm_compute. reflexivity. Qed.
(** A two-byte letter across a byte pair's border panics the slice. *)
Example hex_letter_panics : parse_hex [49; 233; 50] = None.
Proof. vm_compute. reflexivity. Qed.
(** A second minus after the prefix is taken, and the least number cannot be
    negated. *)
Example double_minus : parse_i64 (lit "-0x-10") = Some (Ok 16) /\ parse_i64 (lit "-0x-8000000000000000") = None.
Proof. vm_compute. split; reflexivity. Qed.

(** [encode] panics on nothing else: numbers in decimal and bools never do. *)
Lemma encode_panics f s : encode f s = None ->
  (df_kind f = KInt /\ parse_i64 s = None) \/ (df_kind f = KBytes /\ parse_hex s = None).
Proof.
  unfold encode. destruct (df_access f); [done|]. destruct (df_kind f).
  - by destruct (parse_u64 s).
  - destruct (parse_i64 s) as [[v|e]|] eqn:E; simpl; [done..|auto].
  - unfold encode_bool. by repeat destruct (_ || _).
  - by destruct (enum_value f s).
  - destruct (parse_hex s) as [[bs|e]|] eqn:E; simpl; [by destruct (_ =? _)|done|auto].
Qed.

(** ** The registry prefers the last descriptor loaded *)

Definition of_model (model : Z) (d : Descriptor) : bool := ds_model_number d =? model.
Definition last_of_model (model : Z) (ds : list Descriptor) : option Descriptor := List.find (of_model model) (rev ds).
Definition one_per_model (ds : Registry) : Prop := base.NoDup (ds_model_number <$> ds).

Lemma find_app {A} (p : A -> bool) l1 l2 :
  List.find p (l1 ++ l2) = match List.find p l1 with Some x => Some x | None => List.find p l2 end.
Proof. induction l1 as [|x l1 IH]; simpl; [done|]. by destruct (p x). Qed.

Lemma find_filter {A} (p q : A -> bool) l : (forall x, p x = true -> q x = true) ->
  List.find p (List.filter q l) = List.find p l.
Proof.
  intros H. induction l as [|x l IH]; simpl; [done|]. destruct (q x) eqn:Q; simpl; rewrite IH; [done|].
  destruct (p x) eqn:P; [|done]. apply H in P. congruence.
Qed.
Lemma find_filter_out {A} (p q : A -> bool) l : (forall x, p x = true -> q x = false) ->
  List.find p (List.filter q l) = None.
Proof.
  intros H. induction l as [|x l IH]; simpl; [done|]. destruct (q x) eqn:Q; simpl; [|done].
  destruct (p x) eqn:P; [|done]. apply H in P. congruence.
Qed.

Lemma overlay_one ds d : one_per_model ds -> one_per_model (overlay ds d).
Proof.
  unfold one_per_model, overlay. intros H. rewrite fmap_app. apply list.NoDup_app. split; [|split; [|apply NoDup_singleton]].
  - induction ds as [|e ds IH]; simpl; [done|]. apply list.NoDup_cons in H as [Hn H].
    destruct (negb _); [|by apply IH]. apply list.NoDup_cons. split; [|by apply IH].
    intros Hin. apply Hn. apply list_elem_of_fmap in Hin as (x & -> & Hx). apply list_elem_of_fmap.
    exists x. split; [done|]. apply list_elem_of_In, filter_In in Hx as [Hx _]. by apply list_elem_of_In.
  - intros n Hn Hd. apply list_elem_of_fmap in Hn as (x & -> & Hx).
    apply list_elem_of_In, filter_In in Hx as [_ Hx]. apply list_elem_of_singleton in Hd.
    rewrite Hd, Z.eqb_refl in Hx. done.
Qed.

Lemma overlay_find ds d model :
  List.find (of_model model) (overlay ds d) = if of_model model d then Some d else List.find (of_model model) ds.
Proof.
  unfold overlay. rewrite find_app. unfold of_model. destruct (ds_model_number d =? model) eqn:E; simpl; rewrite ?E.
  - apply Z.eqb_eq in E as <-. rewrite find_filter_out; [done|]. intros x ->. done.
  - rewrite find_filter; [by destruct (List.find _ _)|]. intros x Hx. apply Z.eqb_eq in Hx as ->.
    by rewrite Z.eqb_sym, E.
Qed.

Lemma find_unique_rev ds model : one_per_model ds -> List.find (of_model model) ds = last_of_model model ds.
Proof.
  unfold last_of_model. induction ds as [|d ds IH]; intros H; [done|]. apply list.NoDup_cons in H as [Hn H].
  simpl. rewrite find_app, <- IH by done. destruct (of_model model d) eqn:E; simpl; rewrite E.
  - destruct (List.find (of_model model) ds) as [e|] eqn:F; [|done]. exfalso. apply Hn.
    apply find_some in F as [Fi Fm]. unfold of_model in *. apply Z.eqb_eq in E, Fm.
    apply list_elem_of_fmap. exists e. split; [congruence|]. by apply list_elem_of_In.
  - by destruct (List.find _ _).
Qed.

Lemma overlays_find es : forall ds model,
  List.find (of_model model) (fold_left overlay es ds) =
    match List.find (of_model model) (rev es) with Some d => Some d | None => List.find (of_model model) ds end.
Proof.
  induction es as [|e es IH]; intros ds model; simpl; [done|]. rewrite IH, overlay_find, find_app. simpl.
  destruct (List.find _ (rev es)); [done|]. by destruct (of_model model e).
Qed.
Lemma overlays_one es : forall ds, one_per_model ds -> one_per_model (fold_left overlay es ds).
Proof. induction es as [|e es IH]; intros ds H; simpl; [done|]. by apply IH, overlay_one. Qed.

Lemma overlay_files_ok {FS : Fs} paths : forall es ds,
  Forall2 (fun p e => exists text, read_to_string p = Some text /\ from_json text = Some e) paths es ->
  overlay_files paths ds = Ok (fold_left overlay es ds).
Proof.
  induction paths as [|p paths IH]; intros es ds H; inversion H as [|? e ? es' (text & R & J) H']; subst; simpl; [done|].
  rewrite R, J. by apply IH.
Qed.

(** With every external file readable, the registry keeps one descriptor per
    model number, and a servo's model selects the last one loaded for it: an
    external file overrides the built-in, a later file an earlier one; the note
    appears exactly when the firmware versions differ.  An unknown model is an
    error unless it is the unassigned model and only one descriptor is known. *)
Theorem registry_prefers_last {FS : Fs} paths es ds reg model fw :
  one_per_model ds ->
  Forall2 (fun p e => exists text, read_to_string p = Some text /\ from_json text = Some e) paths es ->
  overlay_files paths ds = Ok reg ->
  one_per_model reg /\
  match last_of_model model (ds ++ es) with
  | Some d =>
      Registry_select reg model fw =
        Ok (d, if ds_firmware_version d =? fw then None else Some (NtFirmware (ds_model d) (ds_firmware_version d) fw))
  | None =>
      (exists d, reg = [d] /\ model = 0 /\ Registry_select reg model fw = Ok (d, Some (NtUnassigned (ds_model d)))) \/
      Registry_select reg model fw = Err (DeNoModel model (known_models reg) external_dir)
  end.
Proof.
  intros H1 Hf Hr. rewrite (overlay_files_ok _ es) in Hr by done. injection Hr as <-.
  split; [by apply overlays_one|]. unfold last_of_model. rewrite rev_app_distr, find_app.
  assert (F := overlays_find es ds model). rewrite (find_unique_rev ds) in F by done. unfold last_of_model in F.
  rewrite <- F. unfold Registry_select. fold (of_model model).
  change (fun d => ds_model_number d =? model) with (of_model model).
  destruct (List.find (of_model model) (fold_left overlay es ds)) as [d|]; [done|].
  destruct (fold_left overlay es ds) as [|d [|]]; auto. destruct (model =? 0) eqn:E; zbool; eauto 6.
Qed.

(** ** The built-in descriptor *)

Definition builtin : Descriptor := Eval vm_compute in
  default (mkDescriptor [] 0 0 0 []) (read_json osc_servo_json).

Lemma builtins_load : BUILTINS = Some [builtin].
Proof. vm_compute. reflexivity. Qed.

Definition settableb (f : DField) : bool :=
  match df_access f with
  | AcRo => true
  | AcRw => match df_kind f with KUint | KInt | KEnum => scalar_width_ok (df_width f) | KBool => df_width f =? 1 | KBytes => true end
  end.

(** Every register the built-in calls writable is one the codec supports. *)
Lemma builtin_settable f : In f (ds_fields builtin) -> df_access f = AcRw -> settable f.
Proof.
  assert (forallb settableb (ds_fields builtin) = true) as H by (vm_compute; reflexivity).
  rewrite forallb_forall in H. intros Hf Ha. apply H in Hf. unfold settableb in Hf. rewrite Ha in Hf.
  split; [done|]. destruct (df_kind f); try (by apply scalar_width_spec); [lia|done].
Qed.
