(* ===== verification/Persist.v ===== *)
(** * Config persistence (firmware/lib/core/src/persist.rs,
      firmware/servo-ch32/src/providers/config_store.rs)

    The saved-image codec, the boot-time A/B pick and overlay, and the flash
    store that alternates the two slots.  Flash itself is not modelled: the
    bytes a slot reads back after an erase and a program are an argument
    ([got]), so a torn write, a bad cell and a power cut are all covered by
    quantifying over it. *)

From S2P Require Import Prelude Crc Wire Stage Table Regions.

Definition CONFIG_LEN : nat := 128.
Definition PROFILE_LEN : nat := 64.
Definition HEADER_LEN : nat := 8.
Definition IMAGE_LEN : nat := (HEADER_LEN + CONFIG_LEN + PROFILE_LEN)%nat.
Definition IMAGE_MAGIC : Z := 67. (* b'C' *)
Definition IMAGE_VERSION : Z := 1.

Inductive StoreError := mkStoreError.

Inductive Slot := SlotA | SlotB.
#[export] Instance Slot_eq_dec : EqDecision Slot.
Proof. solve_decision. Defined.
Definition Slot_other (s : Slot) : Slot := match s with SlotA => SlotB | SlotB => SlotA end.

Record BootPick := mkPick { bp_next_slot : Slot; bp_next_seq : Z; bp_loaded : bool }.

(** ** The image codec *)

Definition header (seq : Z) (config profile : list Z) : list Z :=
  let body_len := Z.of_nat (CONFIG_LEN + PROFILE_LEN) in
  let h := [IMAGE_MAGIC; IMAGE_VERSION] ++ to_le16 seq ++ to_le16 body_len in
  let crc := osc_crc_continue (osc_crc_continue (osc_crc h) config) profile in
  h ++ to_le16 crc.

Definition assemble (seq : Z) (config profile : list Z) : list Z :=
  header seq config profile ++ config ++ profile.

Record Image := mkImage { im_seq : Z; im_config : list Z; im_profile : list Z }.

Definition Image_persisted_byte (img : Image) (addr : Z) : option Z :=
  if (CONFIG_BASE_ADDR <=? addr) && (addr <? CONFIG_BASE_ADDR + CONFIG_REGION_SIZE)
  then Some (im_config img !!! Z.to_nat (addr - CONFIG_BASE_ADDR))
  else if (PROFILE_BASE_ADDR <=? addr) && (addr <? PROFILE_BASE_ADDR + PROFILE_REGION_SIZE)
  then Some (im_profile img !!! Z.to_nat (addr - PROFILE_BASE_ADDR))
  else None.

Definition Image_fields_allowed (img : Image) : bool :=
  forallb (fun r => match Image_persisted_byte img (al_addr r) with
                    | Some b => existsb (Z.eqb b) (al_allowed r)
                    | None => true
                    end) (@rm_ALLOWED_RULES ControlTable).

Definition Image_parse (slot : list Z) : option Image :=
  bytes ← get_range slot 0 IMAGE_LEN;
  let b i := (bytes !!! i : Z) in
  if negb (b 0%nat =? IMAGE_MAGIC) || negb (b 1%nat =? IMAGE_VERSION) then None
  else
    let seq := from_le16 (b 2%nat) (b 3%nat) in
    if negb (from_le16 (b 4%nat) (b 5%nat) =? Z.of_nat (CONFIG_LEN + PROFILE_LEN)) then None
    else
      let crc := from_le16 (b 6%nat) (b 7%nat) in
      if negb (osc_crc_continue (osc_crc (take 6 bytes)) (drop HEADER_LEN bytes) =? crc) then None
      else
        let img := mkImage seq (take CONFIG_LEN (drop HEADER_LEN bytes))
                     (drop (HEADER_LEN + CONFIG_LEN) bytes) in
        if Image_fields_allowed img then Some img else None.

(** ** Boot *)

Definition overlay_persistent (mem : list Z) (config profile : list Z) : list Z :=
  let skip := Z.to_nat ADDR_ID in
  splice (Z.to_nat PROFILE_BASE_ADDR) profile
    (splice (Z.to_nat CONFIG_BASE_ADDR + skip) (drop skip config) mem).

(** [(a.seq.wrapping_sub(b.seq) as i16) > 0]. *)
Definition seq_newer (a b : Z) : bool := 0 <? i16 (u16 (a - b)).

Definition boot_select (slot_a slot_b : list Z) : option Image * Slot :=
  match Image_parse slot_a, Image_parse slot_b with
  | Some a, Some b => if seq_newer (im_seq a) (im_seq b) then (Some a, SlotB) else (Some b, SlotA)
  | Some a, None => (Some a, SlotB)
  | None, b => (b, SlotA)
  end.

Definition boot_overlay (mem slot_a slot_b : list Z) : BootPick * list Z :=
  let '(img, next_slot) := boot_select slot_a slot_b in
  match img with
  | Some img => (mkPick next_slot (u16 (im_seq img + 1)) true,
                 overlay_persistent mem (im_config img) (im_profile img))
  | None => (mkPick SlotA 1 false, mem)
  end.

(** ** The flash store (config_store.rs) *)

Record FlashStore := mkStore { fs_a : list Z; fs_b : list Z; fs_next_slot : Slot; fs_next_seq : Z }.
Definition slot_bytes (s : FlashStore) (k : Slot) : list Z :=
  match k with SlotA => fs_a s | SlotB => fs_b s end.
Definition set_slot (s : FlashStore) (k : Slot) (bytes : list Z) : FlashStore :=
  match k with
  | SlotA => mkStore bytes (fs_b s) (fs_next_slot s) (fs_next_seq s)
  | SlotB => mkStore (fs_a s) bytes (fs_next_slot s) (fs_next_seq s)
  end.

(** [boot_load]: overlay, then prime the alternation. *)
Definition FlashStore_boot_load (s : FlashStore) (mem : list Z) : FlashStore * list Z :=
  let '(pick, mem') := boot_overlay mem (fs_a s) (fs_b s) in
  (mkStore (fs_a s) (fs_b s) (bp_next_slot pick) (bp_next_seq pick), mem').

(** [save]; [got] is what the programmed slot reads back as. *)
Definition FlashStore_save (s : FlashStore) (config profile got : list Z) :
    result unit StoreError * FlashStore :=
  let h := header (fs_next_seq s) config profile in
  let s := set_slot s (fs_next_slot s) got in
  let intact := bool_decide (take HEADER_LEN got = h) &&
                bool_decide (take CONFIG_LEN (drop HEADER_LEN got) = config) &&
                bool_decide (drop (HEADER_LEN + CONFIG_LEN) got = profile) in
  if negb intact then (Err mkStoreError, s)
  else (Ok tt, mkStore (fs_a s) (fs_b s) (Slot_other (fs_next_slot s)) (u16 (fs_next_seq s + 1))).

(** [wipe]; [got_a], [got_b] are the erased slots as read back. *)
Definition FlashStore_wipe (s : FlashStore) (got_a got_b : list Z) : result unit StoreError * FlashStore :=
  let s := mkStore got_a got_b (fs_next_slot s) (fs_next_seq s) in
  if existsb (fun b => negb (b =? 255)) got_a || existsb (fun b => negb (b =? 255)) got_b
  then (Err mkStoreError, s)
  else (Ok tt, mkStore got_a got_b SlotA 1).

(** ** The codec round trip *)

Lemma header_length seq c p : length (header seq c p) = HEADER_LEN.
Proof. done. Qed.

Lemma Image_parse_assemble seq c p rest :
  is_u16 seq -> length c = CONFIG_LEN -> length p = PROFILE_LEN -> bytes_ok c -> bytes_ok p ->
  Image_parse (assemble seq c p ++ rest) =
    if Image_fields_allowed (mkImage seq c p) then Some (mkImage seq c p) else None.
Proof.
  intros Hs Lc Lp Hc Hp. unfold Image_parse.
  assert (length (assemble seq c p) = IMAGE_LEN) as La
    by (unfold assemble; rewrite !length_app, header_length, Lc, Lp; done).
  rewrite get_range_front by done. cbn [mbind option_bind].
  set (h6 := [IMAGE_MAGIC; IMAGE_VERSION] ++ to_le16 seq ++ to_le16 (Z.of_nat (CONFIG_LEN + PROFILE_LEN))).
  set (crc := osc_crc_continue (osc_crc_continue (osc_crc h6) c) p).
  assert (assemble seq c p = h6 ++ to_le16 crc ++ c ++ p) as Ea by (unfold assemble, header; by rewrite <- app_assoc).
  assert (is_u16 crc) as Hcrc.
  { apply osc_crc_continue_range; [|done]. apply osc_crc_continue_range; [|done]. apply osc_crc_range.
    unfold h6, to_le16, IMAGE_MAGIC, IMAGE_VERSION. simpl. repeat constructor; zmod. }
  assert (drop HEADER_LEN (assemble seq c p) = c ++ p) as Ed by (by rewrite Ea).
  assert (drop (HEADER_LEN + CONFIG_LEN) (assemble seq c p) = p) as Ep.
  { rewrite <- drop_drop, Ed, <- Lc. apply drop_app_length. }
  assert (take 6 (assemble seq c p) = h6) as Et by (by rewrite Ea).
  assert (from_le16 (assemble seq c p !!! 2%nat) (assemble seq c p !!! 3%nat) = seq) as E1
    by (rewrite Ea; apply from_to_le16, Hs).
  assert (from_le16 (assemble seq c p !!! 6%nat) (assemble seq c p !!! 7%nat) = crc) as E2
    by (rewrite Ea; apply from_to_le16, Hcrc).
  rewrite E1, E2, Et, Ed, Ep. rewrite Ea.
  assert (take CONFIG_LEN (c ++ p) = c) as -> by (rewrite <- Lc; apply take_app_length).
  rewrite osc_crc_continue_app. fold crc. rewrite (Z.eqb_refl crc). reflexivity.
Qed.

(** ** The A/B alternation *)

(** The store's slots hold [img] as the live image: it sits in the slot the
    next save will not touch, and whatever the other slot holds is either
    invalid or the image saved just before it. *)
Record store_ok (s : FlashStore) (img : Image) : Prop := {
  so_cur : Image_parse (slot_bytes s (Slot_other (fs_next_slot s))) = Some img;
  so_next : forall old, Image_parse (slot_bytes s (fs_next_slot s)) = Some old ->
              im_seq old = u16 (im_seq img - 1);
  so_seq : fs_next_seq s = u16 (im_seq img + 1);
  so_u16 : is_u16 (im_seq img);
}.

Lemma seq_newer_succ x : is_u16 x -> seq_newer x (u16 (x - 1)) = true /\ seq_newer (u16 (x - 1)) x = false.
Proof.
  intros H. unfold seq_newer.
  assert (u16 (x - u16 (x - 1)) = 1) as -> by (unfold u16; zmod).
  assert (u16 (u16 (x - 1) - x) = 65535) as -> by (unfold u16; zmod). done.
Qed.

Lemma boot_select_ok s img : store_ok s img -> boot_select (fs_a s) (fs_b s) = (Some img, fs_next_slot s).
Proof.
  intros [Hc Hn _ Hu]. unfold boot_select. destruct (seq_newer_succ _ Hu) as [N1 N2].
  destruct (fs_next_slot s) eqn:E; simpl in Hc, Hn; rewrite Hc.
  - destruct (Image_parse (fs_a s)) as [old|]; [|done]. by rewrite (Hn old eq_refl), N2.
  - destruct (Image_parse (fs_b s)) as [old|]; [|done]. by rewrite (Hn old eq_refl), N1.
Qed.

Lemma slot_bytes_set_same s got : slot_bytes (set_slot s (fs_next_slot s) got) (fs_next_slot s) = got.
Proof. unfold set_slot, slot_bytes. by destruct (fs_next_slot s). Qed.
Lemma slot_bytes_set_other s got :
  slot_bytes (set_slot s (fs_next_slot s) got) (Slot_other (fs_next_slot s)) =
  slot_bytes s (Slot_other (fs_next_slot s)).
Proof. unfold set_slot, slot_bytes. by destruct (fs_next_slot s). Qed.
Lemma set_slot_fields s k got :
  fs_next_slot (set_slot s k got) = fs_next_slot s /\ fs_next_seq (set_slot s k got) = fs_next_seq s.
Proof. by destruct k. Qed.

(** A readback that passes the verify is exactly the assembled image. *)
Lemma save_ok_image s c p got s' :
  FlashStore_save s c p got = (Ok tt, s') ->
  got = assemble (fs_next_seq s) c p /\
  s' = mkStore (fs_a (set_slot s (fs_next_slot s) got)) (fs_b (set_slot s (fs_next_slot s) got))
         (Slot_other (fs_next_slot s)) (u16 (fs_next_seq s + 1)).
Proof.
  unfold FlashStore_save. destruct (set_slot_fields s (fs_next_slot s) got) as [-> ->]. intros H.
  case_hyp H; [done|]. simplify_eq. zbool.
  repeat match goal with H : bool_decide _ = true |- _ => apply bool_decide_eq_true in H end.
  split; [|done]. rewrite <- (take_drop HEADER_LEN got), H.
  rewrite <- (take_drop CONFIG_LEN (drop HEADER_LEN got)), H1, drop_drop, H0. done.
Qed.

(** *** What a save needs of the store it finds

    The sequence number to come, and in the slot the save will not touch either no
    image or the one numbered just before. *)
Record store_ready (s : FlashStore) : Prop := {
  rd_u16 : is_u16 (fs_next_seq s);
  rd_prev : forall img, Image_parse (slot_bytes s (Slot_other (fs_next_slot s))) = Some img -> im_seq img = u16 (fs_next_seq s - 1);
}.

Lemma store_ok_ready s img : store_ok s img -> store_ready s.
Proof.
  intros [Hc _ Hs Hu]. split; [rewrite Hs; apply u16_range|]. intros old Ho. rewrite Hc in Ho. simplify_eq. rewrite Hs. unfold u16. zmod.
Qed.

(** A save that reports Ok makes the new image the live one. *)
Lemma save_ok_store s c p got s' :
  store_ready s -> length c = CONFIG_LEN -> length p = PROFILE_LEN -> bytes_ok c -> bytes_ok p ->
  Image_fields_allowed (mkImage (fs_next_seq s) c p) = true ->
  FlashStore_save s c p got = (Ok tt, s') -> store_ok s' (mkImage (fs_next_seq s) c p).
Proof.
  intros [Hu Hprev] Lc Lp Hc Hp Hf H.
  pose proof (Image_parse_assemble _ c p [] Hu Lc Lp Hc Hp) as Hpa. rewrite app_nil_r, Hf in Hpa.
  apply save_ok_image in H as [-> ->]. set (got := assemble _ _ _) in *.
  split; cbn [fs_next_slot fs_next_seq im_seq]; [| |done|done].
  - assert (Slot_other (Slot_other (fs_next_slot s)) = fs_next_slot s) as -> by (by destruct (fs_next_slot s)).
    change (Image_parse (slot_bytes (set_slot s (fs_next_slot s) got) (fs_next_slot s)) =
      Some (mkImage (fs_next_seq s) c p)).
    by rewrite slot_bytes_set_same.
  - intros old Ho. change (Image_parse (slot_bytes (set_slot s (fs_next_slot s) got) (Slot_other (fs_next_slot s))) = Some old) in Ho.
    rewrite slot_bytes_set_other in Ho. by apply Hprev.
Qed.

(** C4: saving is crash-safe.  From a store whose live image is [img], let a
    save program the other slot and let that slot read back as anything at all
    (a power cut included).  If the save reports Ok, the next boot loads the
    new image; if what is left in the slot does not parse, the save did not
    report Ok and the next boot loads the old image; in both cases the store is
    again consistent, with the same alternation boot would rebuild. *)
Theorem save_crash_safe s img c p got r s' :
  store_ok s img -> length c = CONFIG_LEN -> length p = PROFILE_LEN -> bytes_ok c -> bytes_ok p ->
  Image_fields_allowed (mkImage (fs_next_seq s) c p) = true ->
  FlashStore_save s c p got = (r, s') ->
  (r = Ok tt -> boot_select (fs_a s') (fs_b s') = (Some (mkImage (fs_next_seq s) c p), fs_next_slot s') /\
                store_ok s' (mkImage (fs_next_seq s) c p)) /\
  (Image_parse got = None ->
     r = Err mkStoreError /\ boot_select (fs_a s') (fs_b s') = (Some img, fs_next_slot s') /\
     store_ok s' img).
Proof.
  intros Hs Lc Lp Hc Hp Hf H. pose proof Hs as [Hcur Hnext Hseq Hu].
  split.
  - intros ->. pose proof (save_ok_store _ _ _ _ _ (store_ok_ready _ _ Hs) Lc Lp Hc Hp Hf H) as Hst.
    split; [by apply boot_select_ok|done].
  - intros Hg. assert (r = Err mkStoreError) as ->.
    { destruct r as [[]|[]]; [|done]. apply save_ok_image in H as [-> _].
      assert (is_u16 (fs_next_seq s)) as Hu' by (rewrite Hseq; apply u16_range).
      pose proof (Image_parse_assemble _ c p [] Hu' Lc Lp Hc Hp) as Hpa.
      by rewrite app_nil_r, Hf, Hg in Hpa. }
    assert (s' = set_slot s (fs_next_slot s) got) as ->.
    { unfold FlashStore_save in H. case_hyp H; by simplify_eq. }
    destruct (set_slot_fields s (fs_next_slot s) got) as [E1 E2].
    assert (store_ok (set_slot s (fs_next_slot s) got) img) as Hst.
    { split; rewrite ?E1, ?E2; [by rewrite slot_bytes_set_other| |done|done].
      rewrite slot_bytes_set_same, Hg. done. }
    split; [done|]. split; [by apply boot_select_ok|done].
Qed.

(** *** The life of a store

    Booted from any flash contents, blank or not; saved to, the programmed slot
    reading back as anything; wiped, each slot ending blank, without an image or
    as it was. *)
Inductive store_reached : FlashStore -> Prop :=
  | reached_boot s mem : bytes_ok (fs_a s) -> bytes_ok (fs_b s) -> store_reached (FlashStore_boot_load s mem).1
  | reached_save s c p got : store_reached s -> store_reached (FlashStore_save s c p got).2
  | reached_wipe s a b : store_reached s ->
      (FlashStore_wipe s a b).1 = Ok tt \/ (Image_parse a = None \/ a = fs_a s) /\ (Image_parse b = None \/ b = fs_b s) ->
      store_reached (FlashStore_wipe s a b).2.

Lemma Image_parse_seq slot img : Image_parse slot = Some img -> im_seq img = from_le16 (slot !!! 2%nat) (slot !!! 3%nat).
Proof.
  unfold Image_parse. destruct (get_range slot 0 IMAGE_LEN) as [bytes|] eqn:E; [|done]. apply get_range_Some in E as [_ ->].
  cbn [mbind option_bind]. repeat case_goal; try done. intros [= <-]. cbn [im_seq]. by rewrite !list_lookup_total_alt, !lookup_take_lt by (unfold IMAGE_LEN; cbn; lia).
Qed.
Lemma Image_parse_u16 slot img : bytes_ok slot -> Image_parse slot = Some img -> is_u16 (im_seq img).
Proof.
  intros Hb Hp. rewrite (Image_parse_seq _ _ Hp). assert (forall i, is_u8 (slot !!! i : Z)) as Hi.
  { intros i. rewrite list_lookup_total_alt. destruct (slot !! i) as [x|] eqn:E; [|cbn; lia]. cbn. exact (Forall_lookup_1 _ _ _ _ Hb E). }
  pose proof (Hi 2%nat). pose proof (Hi 3%nat). unfold from_le16. lia.
Qed.
Lemma Image_parse_blank l : existsb (fun b => negb (b =? 255)) l = false -> Image_parse l = None.
Proof.
  intros H. unfold Image_parse. destruct (get_range l 0 IMAGE_LEN) as [bytes|] eqn:E; [|done]. apply get_range_Some in E as [Hl ->].
  cbn [mbind option_bind]. destruct l as [|x l]; [unfold IMAGE_LEN in Hl; cbn in Hl; lia|].
  cbn [existsb] in H. apply orb_false_iff in H as [->%negb_false_iff%Z.eqb_eq _]. done.
Qed.

Lemma boot_ready s mem : bytes_ok (fs_a s) -> bytes_ok (fs_b s) -> store_ready (FlashStore_boot_load s mem).1.
Proof.
  intros Ha Hb. unfold FlashStore_boot_load, boot_overlay, boot_select.
  assert (forall x, is_u16 x -> u16 (u16 (x + 1) - 1) = x) as Hx by (intros x Hu; unfold u16; zmod).
  destruct (Image_parse (fs_a s)) as [a|] eqn:Ea, (Image_parse (fs_b s)) as [b|] eqn:Eb; [destruct (seq_newer _ _)| | |];
    (split; cbn [fst fs_next_seq fs_next_slot bp_next_seq bp_next_slot Slot_other slot_bytes fs_a fs_b]; [try apply u16_range; lia|]);
    intros img Hi; rewrite ?Ea, ?Eb in Hi; simplify_eq; rewrite Hx; eauto using Image_parse_u16.
Qed.
Lemma reached_ready s : store_reached s -> store_ready s.
Proof.
  induction 1 as [s mem Ha Hb|s c p got _ [Hu Hp]|s a b _ [Hu Hp] Hw]; [by apply boot_ready| |].
  - destruct (FlashStore_save s c p got) as [[[]|e] s'] eqn:E; cbn [snd].
    + apply save_ok_image in E as [-> ->]. split; cbn [fs_next_seq fs_next_slot]; [apply u16_range|]. intros img Hi.
      assert (Slot_other (Slot_other (fs_next_slot s)) = fs_next_slot s) as Eo by (by destruct (fs_next_slot s)). rewrite Eo in Hi.
      change (Image_parse (slot_bytes (set_slot s (fs_next_slot s) (assemble (fs_next_seq s) c p)) (fs_next_slot s)) = Some img) in Hi.
      rewrite slot_bytes_set_same in Hi. rewrite (Image_parse_seq _ _ Hi).
      transitivity (fs_next_seq s); [apply from_to_le16, Hu|]. unfold u16. zmod.
    + assert (s' = set_slot s (fs_next_slot s) got) as -> by (unfold FlashStore_save in E; case_hyp E; by simplify_eq).
      destruct (set_slot_fields s (fs_next_slot s) got) as [E1 E2]. split; rewrite ?E1, ?E2; [done|]. by rewrite slot_bytes_set_other.
  - unfold FlashStore_wipe in *. destruct (_ || _) eqn:E; cbn [fst snd] in *.
    + destruct Hw as [?|[Wa Wb]]; [done|]. split; cbn [fs_next_seq fs_next_slot]; [done|]. intros img Hi. apply Hp.
      destruct (fs_next_slot s); cbn [Slot_other slot_bytes fs_a fs_b] in *; [destruct Wb as [Wb| ->]|destruct Wa as [Wa| ->]]; congruence.
    + apply orb_false_iff in E as [_ E]. split; cbn [fs_next_seq]; [lia|]. cbn [fs_next_slot Slot_other slot_bytes fs_b].
      rewrite (Image_parse_blank b) by done. done.
Qed.

Definition demo_image (seq : Z) (c p : list Z) : list Z := assemble seq c p.
Definition demo_config : list Z := replicate 16 0 ++ [5; 1; 60; 0] ++ replicate 108 0.
Definition demo_profile : list Z := replicate 64 0.
Definition demo_store : FlashStore :=
  mkStore (assemble 7 demo_config demo_profile) (replicate 200 255) SlotB 8.

Lemma demo_store_ok : store_ok demo_store (mkImage 7 demo_config demo_profile).
Proof.
  split; [vm_compute; reflexivity|vm_compute; discriminate|reflexivity|simpl; lia].
Defined.

Lemma save_crash_safe_witness :
  let torn := take 100 (assemble 8 demo_config (replicate 64 9)) ++ replicate 100 255 in
  boot_select (fs_a demo_store) torn = (Some (mkImage 7 demo_config demo_profile), SlotB).
Proof.
  assert (bytes_ok demo_config) as H1 by (unfold demo_config; simpl; repeat constructor; lia).
  assert (bytes_ok (replicate 64 9)) as H2 by (repeat constructor; lia).
  refine (proj1 (proj2 (proj2 (save_crash_safe demo_store _ demo_config (replicate 64 9)
    (take 100 (assemble 8 demo_config (replicate 64 9)) ++ replicate 100 255) (Err mkStoreError)
    (set_slot demo_store SlotB (take 100 (assemble 8 demo_config (replicate 64 9)) ++ replicate 100 255))
    demo_store_ok _ _ H1 H2 _ _) _))); vm_compute; reflexivity.
Defined.

(** ** Saving and booting back *)

Lemma region_bytes (mem : list Z) lo n i :
  (i < n)%nat -> take n (drop lo mem) !! i = mem !! (lo + i)%nat.
Proof. intros. rewrite lookup_take_lt by lia. by rewrite lookup_drop. Qed.

Definition config_of (mem : list Z) : list Z := take CONFIG_LEN (drop 0 mem).
Definition profile_of (mem : list Z) : list Z := take PROFILE_LEN (drop 640 mem).

Lemma regions_length mem : length mem = 1024%nat ->
  length (config_of mem) = CONFIG_LEN /\ length (profile_of mem) = PROFILE_LEN.
Proof. intros H. unfold config_of, profile_of. rewrite !length_take, !length_drop, H. done. Qed.

(** A table in which every enum and bool register is valid saves an image that
    boot will accept. *)
Lemma saved_fields_allowed mem seq : length mem = 1024%nat -> @allowed_ok ControlTable mem ->
  Image_fields_allowed (mkImage seq (config_of mem) (profile_of mem)) = true.
Proof.
  intros L Ha. apply forallb_forall. intros r Hr. unfold allowed_ok in Ha.
  rewrite List.Forall_forall in Ha. apply Ha in Hr. unfold Image_persisted_byte. simpl im_config. simpl im_profile.
  unfold CONFIG_BASE_ADDR, CONFIG_REGION_SIZE, PROFILE_BASE_ADDR, PROFILE_REGION_SIZE.
  repeat case_goal; simplify_eq; try done; zbool.
  - rewrite <- Hr. f_equal. f_equal. unfold config_of. rewrite drop_0.
    rewrite !list_lookup_total_alt, lookup_take_lt by (unfold CONFIG_LEN; lia). do 2 f_equal. lia.
  - rewrite <- Hr. f_equal. f_equal. unfold profile_of. rewrite !list_lookup_total_alt.
    rewrite region_bytes by (unfold PROFILE_LEN; lia). do 2 f_equal. lia.
Qed.

(** Where the overlay puts an image. *)
Lemma overlay_lookup mem c p i : length mem = 1024%nat -> length c = CONFIG_LEN -> length p = PROFILE_LEN ->
  overlay_persistent mem c p !! i =
    if Nat.leb 640 i && Nat.ltb i 704 then p !! (i - 640)%nat else if Nat.leb 16 i && Nat.ltb i 128 then c !! i else mem !! i.
Proof.
  intros L Lc Lp. unfold overlay_persistent. change (Z.to_nat ADDR_ID) with 16%nat.
  change (Z.to_nat CONFIG_BASE_ADDR + 16)%nat with 16%nat. change (Z.to_nat PROFILE_BASE_ADDR) with 640%nat.
  assert (length (drop 16 c) = 112%nat) as Ld by (rewrite length_drop, Lc; done).
  rewrite splice_lookup by (rewrite length_splice, Lp, ?Ld; unfold PROFILE_LEN; lia).
  rewrite splice_lookup by (rewrite Ld; lia). rewrite Lp, Ld. change (640 + PROFILE_LEN)%nat with 704%nat.
  change (16 + 112)%nat with 128%nat. destruct (_ && _); [done|]. destruct (Nat.leb 16 i && Nat.ltb i 128) eqn:E2; zbool; [|done].
  rewrite lookup_drop. f_equal. lia.
Qed.
Lemma overlay_length mem c p : length mem = 1024%nat -> length c = CONFIG_LEN -> length p = PROFILE_LEN ->
  length (overlay_persistent mem c p) = 1024%nat.
Proof.
  intros L Lc Lp. unfold overlay_persistent. change (Z.to_nat ADDR_ID) with 16%nat.
  change (Z.to_nat CONFIG_BASE_ADDR + 16)%nat with 16%nat. change (Z.to_nat PROFILE_BASE_ADDR) with 640%nat.
  assert (length (drop 16 c) = 112%nat) as Ld by (rewrite length_drop, Lc; done).
  rewrite !length_splice; rewrite ?Lp, ?Ld, ?length_splice; unfold PROFILE_LEN in *; rewrite ?Ld; lia.
Qed.

(** An accepted image leaves no invalid enum or bool register. *)
Lemma overlay_allowed mem img : length mem = 1024%nat -> length (im_config img) = CONFIG_LEN -> length (im_profile img) = PROFILE_LEN ->
  @allowed_ok ControlTable mem -> Image_fields_allowed img = true ->
  @allowed_ok ControlTable (overlay_persistent mem (im_config img) (im_profile img)).
Proof.
  intros L Lc Lp Ha Hf. unfold allowed_ok, Image_fields_allowed in *. rewrite forallb_forall in Hf. rewrite List.Forall_forall in *. intros r Hr.
  specialize (Ha r Hr). specialize (Hf r Hr). unfold Image_persisted_byte, CONFIG_BASE_ADDR, CONFIG_REGION_SIZE, PROFILE_BASE_ADDR, PROFILE_REGION_SIZE in Hf.
  rewrite list_lookup_total_alt, overlay_lookup by done.
  destruct (Nat.leb 640 _ && Nat.ltb _ 704) eqn:E1; [|destruct (Nat.leb 16 _ && Nat.ltb _ 128) eqn:E2]; zbool.
  - rewrite (proj2 (Z.ltb_ge _ (0 + 128))), andb_false_r, (proj2 (Z.leb_le 640 _)), (proj2 (Z.ltb_lt _ (640 + 64))) in Hf by lia. cbn [andb] in Hf.
    rewrite list_lookup_total_alt in Hf. rewrite <- Hf. do 4 f_equal. lia.
  - rewrite (proj2 (Z.leb_le 0 _)), (proj2 (Z.ltb_lt _ (0 + 128))) in Hf by lia. cbn [andb] in Hf.
    rewrite list_lookup_total_alt in Hf. rewrite <- Hf. do 4 f_equal. lia.
  - by rewrite <- list_lookup_total_alt.
Qed.

Lemma Image_parse_shape slot img : Image_parse slot = Some img ->
  length (im_config img) = CONFIG_LEN /\ length (im_profile img) = PROFILE_LEN /\ Image_fields_allowed img = true.
Proof.
  unfold Image_parse. destruct (get_range slot 0 IMAGE_LEN) as [bytes|] eqn:E; [|done]. apply get_range_Some in E as [Hl ->].
  cbn [mbind option_bind]. set (bytes := take _ _). assert (length bytes = 200%nat) as Lb.
  { subst bytes. rewrite length_take, length_drop. unfold IMAGE_LEN, HEADER_LEN, CONFIG_LEN, PROFILE_LEN in *. lia. }
  clearbody bytes. repeat case_goal; try done. intros [= <-]. cbn [im_config im_profile].
  rewrite length_take, !length_drop, Lb. by repeat split.
Qed.

(** The table a servo powers on with: defaults, and the newest image over them. *)
Lemma boot_load_table s mem : length mem = 1024%nat -> @allowed_ok ControlTable mem ->
  length (FlashStore_boot_load s mem).2 = 1024%nat /\ @allowed_ok ControlTable (FlashStore_boot_load s mem).2.
Proof.
  intros L Ha. unfold FlashStore_boot_load, boot_overlay.
  assert (forall img slot, boot_select (fs_a s) (fs_b s) = (Some img, slot) ->
    length (im_config img) = CONFIG_LEN /\ length (im_profile img) = PROFILE_LEN /\ Image_fields_allowed img = true) as Hs.
  { intros img slot. unfold boot_select. destruct (Image_parse (fs_a s)) eqn:Ea, (Image_parse (fs_b s)) eqn:Eb; [case_goal| | |];
      intros; simplify_eq; eauto using Image_parse_shape. }
  destruct (boot_select _ _) as [[img|] slot]; cbn [fst snd]; [|done]. destruct (Hs img slot eq_refl) as (Lc & Lp & Hf).
  split; [by apply overlay_length|by apply overlay_allowed].
Qed.

(** What was saved is what boots: every CONFIG byte from the ID register on
    and every PROFILE byte is restored, the identity block and everything else
    keep the defaults, and no enum or bool register is left invalid. *)
Lemma save_boot_restores s mem got s' mem0 :
  store_ready s -> length mem = 1024%nat -> length mem0 = 1024%nat -> bytes_ok mem ->
  @allowed_ok ControlTable mem -> @allowed_ok ControlTable mem0 ->
  FlashStore_save s (config_of mem) (profile_of mem) got = (Ok tt, s') ->
  let mem' := (FlashStore_boot_load s' mem0).2 in
  (forall i, (16 <= i < 128 \/ 640 <= i < 704)%nat -> mem' !! i = mem !! i) /\
  (forall i, ~ (16 <= i < 128 \/ 640 <= i < 704)%nat -> mem' !! i = mem0 !! i) /\
  @allowed_ok ControlTable mem'.
Proof.
  intros Hs L L0 Hb Ha Ha0 H. destruct (regions_length mem L) as [Lc Lp].
  assert (bytes_ok (config_of mem)) as Hc by (unfold config_of; auto with osc).
  assert (bytes_ok (profile_of mem)) as Hp by (unfold profile_of; auto with osc).
  pose proof (boot_select_ok _ _ (save_ok_store s _ _ got s' Hs Lc Lp Hc Hp (saved_fields_allowed mem _ L Ha) H)) as Hsel.
  pose proof (boot_load_table s' mem0 L0 Ha0) as [_ Hal].
  unfold FlashStore_boot_load, boot_overlay in *. rewrite Hsel in *. cbn [fst snd im_config im_profile im_seq] in *.
  split; [|split; [|exact Hal]]; intros i Hi; rewrite overlay_lookup by done;
    (destruct (Nat.leb 640 i) eqn:A, (Nat.ltb i 704) eqn:B, (Nat.leb 16 i) eqn:C, (Nat.ltb i 128) eqn:D); cbn [andb]; zbool; try done; try lia.
  all: unfold config_of, profile_of; rewrite region_bytes by (unfold CONFIG_LEN, PROFILE_LEN; lia); f_equal; lia.
Qed.

Definition demo_mem : list Z := splice 0 demo_config (replicate 1024 0).

