(* ===== verification/Dispatch.v ===== *)
(** * Dispatch (firmware/lib/core/src/services/bus, traits/services.rs, shared.rs,
      regions/hooks.rs, regions/profile.rs)

    The dispatch-before-verdict spine: [Dispatcher_dispatch] stages effects and
    replies before the CRC verdict, [Dispatcher_commit] and [Dispatcher_revert]
    settle them.  The state is the shared table, the staging buffer, the pending
    slot and the store; the calls on the [Reply] port are a trace of events;
    a panic is [None].  Code runs in the small monad [M] below. *)

From stdpp Require Import relations.
From S2P Require Import Prelude FrameBytes Wire Frame Stage Table Regions Persist.

(** ** Requests and replies (traits/services.rs) *)

Inductive SendError := SeBusy | SeOverflow.

Inductive Request :=
| ReqPing
| ReqRead (addr count : Z)
| ReqReadProfile (slot : Z)
| ReqWrite (addr : Z) (data : FrameBytes) (hold : bool)
| ReqCommit
| ReqEnumerate (prefix_len : Z) (prefix : list Z)
| ReqAssign (uid : list Z) (new_id : Z)
| ReqCalibrate (gap_us gaps : Z)
| ReqMgmt (op : MgmtOp) (args : FrameBytes)
| ReqUnsupported.

(** The calls a dispatcher makes on its [Reply], in order. *)
Inductive ReplyEv :=
| EvStatus (result : ResultCode) (alert : bool) (data : list Z)
| EvStatusGather (result : ResultCode) (alert : bool) (spans : list (list Z))
| EvStageId (id : Z)
| EvSetId (id : Z)
| EvStageBaud (b : BaudRate)
| EvSetResponseDeadline (us : Z)
| EvStageReboot (mode : Z)
| EvBeginClockCal (gap_us gaps : Z).

Inductive Dispatched := DispDone | DispPending.
#[export] Instance Dispatched_eq_dec : EqDecision Dispatched.
Proof. solve_decision. Defined.
Definition GATHER_MAX : nat := 8.

(** ** The persistence port *)

Class ConfigStore (St : Type) := {
  cs_save : St -> list Z -> list Z -> result unit StoreError * St;
  cs_wipe : St -> result unit StoreError * St;
}.

(** ** State and monad *)

Record PendingWrite := mkPending { pw_snap : Snapshot; pw_hold : bool; pw_addr : Z; pw_len : Z }.

Record Servo (St : Type) := mkServo {
  sv_mem : list Z;
  sv_staged : StagedWrites;
  sv_pending : option PendingWrite;
  sv_uid : list Z;
  sv_store : option St;
}.
Arguments mkServo {St}. Arguments sv_mem {St}. Arguments sv_staged {St}.
Arguments sv_pending {St}. Arguments sv_uid {St}. Arguments sv_store {St}.

Definition M (St A : Type) : Type := Servo St -> option (A * Servo St * list ReplyEv).
Definition ret {St A} (a : A) : M St A := fun s => Some (a, s, []).
Definition bind {St A B} (m : M St A) (k : A -> M St B) : M St B := fun s =>
  match m s with
  | None => None
  | Some (a, s1, e1) =>
      match k a s1 with None => None | Some (b, s2, e2) => Some (b, s2, e1 ++ e2) end
  end.
Definition emit {St} (e : ReplyEv) : M St unit := fun s => Some (tt, s, [e]).
Definition gets {St A} (f : Servo St -> A) : M St A := fun s => Some (f s, s, []).
Definition panic_if_none {St A} (o : option A) : M St A := fun s =>
  match o with Some a => Some (a, s, []) | None => None end.
Definition set_mem {St} (m : list Z) : M St unit := fun s =>
  Some (tt, mkServo m (sv_staged s) (sv_pending s) (sv_uid s) (sv_store s), []).
Definition set_staged {St} (st : StagedWrites) : M St unit := fun s =>
  Some (tt, mkServo (sv_mem s) st (sv_pending s) (sv_uid s) (sv_store s), []).
Definition set_pending {St} (p : option PendingWrite) : M St unit := fun s =>
  Some (tt, mkServo (sv_mem s) (sv_staged s) p (sv_uid s) (sv_store s), []).
Definition set_store {St} (x : option St) : M St unit := fun s =>
  Some (tt, mkServo (sv_mem s) (sv_staged s) (sv_pending s) (sv_uid s) x, []).
Notation "'do' x <- m ; k" := (bind m (fun x => k))
  (at level 10, x pattern, m at level 100, k at level 200) : osc_scope.
Notation "m ;; k" := (bind m (fun _ => k)) (at level 100, k at level 200, right associativity) : osc_scope.

Section Dispatcher.
Context {St : Type} `{ConfigStore St}.
Local Abbreviation M := (M St).

Definition error_to_result (e : Error) : ResultCode :=
  match e with
  | AccessError => RcAccess
  | ValidationError _ => RcValidation
  | _ => RcRange
  end.

(** ** Table fields *)

Definition reg_u8 (addr : Z) (s : Servo St) : Z := sv_mem s !!! Z.to_nat addr.
Definition Dispatcher_alert (s : Servo St) : bool := negb (reg_u8 ADDR_FAULT_FLAGS s =? 0).
Definition torque_enable (s : Servo St) : bool := negb (reg_u8 ADDR_TORQUE_ENABLE s =? 0).
Definition boot_mode (s : Servo St) : Z := reg_u8 ADDR_BOOT_MODE s.
Definition poke (addr v : Z) (mem : list Z) : list Z := <[Z.to_nat addr := v]> mem.
Definition set_config_dirty (mem : list Z) : list Z :=
  poke ADDR_STATUS_FLAGS (Z.lor (mem !!! Z.to_nat ADDR_STATUS_FLAGS) STATUS_FLAG_CONFIG_DIRTY) mem.
Definition clear_config_dirty (mem : list Z) : list Z :=
  poke ADDR_STATUS_FLAGS
    (Z.land (mem !!! Z.to_nat ADDR_STATUS_FLAGS) (Z.lxor 255 STATUS_FLAG_CONFIG_DIRTY)) mem.

(** ** Replies *)

Definition Dispatcher_send (r : ResultCode) (al : bool) (data : list Z) : M unit := emit (EvStatus r al data).
Definition Dispatcher_ack_code (al may_reply : bool) (code : ResultCode) : M unit :=
  if negb may_reply then ret tt else Dispatcher_send code al [].
Definition Dispatcher_ack (al may_reply : bool) (r : result unit Error) : M unit :=
  Dispatcher_ack_code al may_reply (match r with Ok _ => RcOk | Err e => error_to_result e end).
Definition Dispatcher_instruction_error (al may_reply : bool) : M unit :=
  if negb may_reply then ret tt else Dispatcher_send RcInstruction al [].

(** ** Hooks (regions/hooks.rs): committed values forwarded to the bus *)

Definition hook_event (mem : list Z) (h : Hook * nat * FieldTy) : list ReplyEv :=
  match h.1.1 with
  | OnId => [EvStageId (mem !!! h.1.2)]
  | OnBaudRateIdx =>
      match BaudRate_from_idx (mem !!! h.1.2) with Some b => [EvStageBaud b] | None => [] end
  | OnResponseDeadline =>
      [EvSetResponseDeadline (from_le16 (mem !!! h.1.2) (mem !!! (h.1.2 + 1)%nat))]
  end.
Definition fire_hooks (addr len : Z) : M unit := fun s =>
  Some (tt, s, flat_map (hook_event (sv_mem s)) (dispatch_events table_sections addr len)).

Definition Dispatcher_mark_dirty_if_persistent (addr len : Z) : M unit :=
  let config_end := CONFIG_BASE_ADDR + CONFIG_REGION_SIZE in
  let profile_end := PROFILE_BASE_ADDR + PROFILE_REGION_SIZE in
  let end_ := saturating_add16 addr len in
  if (addr <? config_end) || ((addr <? profile_end) && (PROFILE_BASE_ADDR <? end_))
  then do m <- gets sv_mem; set_mem (set_config_dirty m)
  else ret tt.

(** ** Pending writes *)

Definition Dispatcher_revert_dangling : M unit :=
  do p <- gets sv_pending;
  match p with
  | Some p =>
      set_pending None ;;
      do st <- gets sv_staged;
      set_staged (StagedWrites_revert_to st (pw_snap p))
  | None => ret tt
  end.

(** ** Per-opcode handlers *)

Definition Dispatcher_ping (al may_reply : bool) : M unit :=
  if negb may_reply then ret tt
  else
    do m <- gets sv_mem;
    Dispatcher_send RcOk al (match RegisterFile_read m ADDR_MODEL_NUMBER 3 with Ok d => d | Err _ => [] end).

Definition Dispatcher_read (al may_reply : bool) (addr count : Z) : M unit :=
  if negb may_reply then ret tt
  else if count =? 0 then Dispatcher_send RcRange al []
  else if MAX_PAYLOAD <? count then Dispatcher_send RcLimit al []
  else
    do m <- gets sv_mem;
    match RegisterFile_read m addr count with
    | Ok data => Dispatcher_send RcOk al data
    | Err _ => Dispatcher_send RcRange al []
    end.

(** regions/profile.rs *)
Definition SPANS_PER_SLOT : Z := 8.
Definition span_word (addr count : Z) : Z := Z.lor (u16 (Z.shiftl addr 6)) (Z.land count 63).
Definition span_of (word : Z) : option (Z * Z) :=
  let count := Z.land word 63 in
  if count =? 0 then None else Some (Z.shiftr word 6, count).
(** The words are the little-endian [u16] array at the region base. *)
Definition slot_words (mem : list Z) (slot : Z) : option (list Z) :=
  if Wire.PROFILE_SLOTS <=? slot then None
  else
    let at_ := (Z.to_nat slot * Z.to_nat SPANS_PER_SLOT)%nat in
    Some ((fun k => let a := (640 + 2 * (at_ + k))%nat in from_le16 (mem !!! a) (mem !!! (a + 1)%nat))
          <$> seq 0 (Z.to_nat SPANS_PER_SLOT)).

(** The gather loop: [Err] is the early [Range] nack. *)
Fixpoint gather (mem : list Z) (words : list Z) (spans : list (list Z)) (total : Z) :
    result (list (list Z) * Z) unit :=
  match words with
  | [] => Ok (spans, total)
  | w :: words' =>
      match span_of w with
      | None => gather mem words' spans total
      | Some (addr, count) =>
          match RegisterFile_read mem addr count with
          | Err _ => Err tt
          | Ok data => gather mem words' (spans ++ [data]) (u16 (total + count))
          end
      end
  end.

Definition Dispatcher_read_profile (al may_reply : bool) (slot : Z) : M unit :=
  if negb may_reply then ret tt
  else
    do m <- gets sv_mem;
    match slot_words m slot with
    | None => Dispatcher_send RcRange al []
    | Some words =>
        match gather m words [] 0 with
        | Err _ => Dispatcher_send RcRange al []
        | Ok (spans, total) =>
            if Nat.eqb (length spans) 0 then Dispatcher_send RcRange al []
            else if MAX_PAYLOAD <? total then Dispatcher_send RcLimit al []
            else emit (EvStatusGather RcOk al spans)
        end
    end.

Definition Dispatcher_write (al may_reply : bool) (addr : Z) (data : FrameBytes) (hold : bool) : M Dispatched :=
  let '(head, tail) := FrameBytes_segments data in
  do m <- gets sv_mem;
  do st <- gets sv_staged;
  let snap := StagedWrites_snapshot st in
  let '(r, st') := RegisterFile_stage_split m addr head tail st in
  set_staged st' ;;
  match r with
  | Ok _ =>
      Dispatcher_ack al may_reply (Ok tt) ;;
      set_pending (Some (mkPending snap hold addr (u16 (Z.of_nat (FrameBytes_len data))))) ;;
      ret DispPending
  | Err StagingFull => (if may_reply then Dispatcher_send RcBusy al [] else ret tt) ;; ret DispDone
  | Err e => Dispatcher_ack al may_reply (Err e) ;; ret DispDone
  end.

Fixpoint commit_hooks (spans : list (Z * Z)) : M unit :=
  match spans with
  | [] => ret tt
  | (addr, len) :: spans' =>
      Dispatcher_mark_dirty_if_persistent addr len ;; fire_hooks addr len ;; commit_hooks spans'
  end.

(** The span list holds [STAGE_ENTRY_CAP] entries; a push past it is dropped. *)
Definition Dispatcher_apply_commit (al may_reply : bool) : M unit :=
  do st <- gets sv_staged;
  do ws <- panic_if_none (StagedWrites_iter_all st);
  let spans := take STAGE_ENTRY_CAP ((fun w : Z * list Z => (w.1, u16 (Z.of_nat (length w.2)))) <$> ws) in
  do m <- gets sv_mem;
  do ms <- panic_if_none (RegisterFile_commit_staged m st);
  set_mem ms.1 ;; set_staged ms.2 ;;
  Dispatcher_ack al may_reply (Ok tt) ;;
  commit_hooks spans.

Definition Dispatcher_enumerate (al may_reply : bool) (prefix_len : Z) (prefix : list Z) : M unit :=
  if negb may_reply then ret tt
  else
    do uid <- gets sv_uid;
    do hit <- panic_if_none (uid_prefix_matches uid prefix_len prefix);
    if negb hit then ret tt else Dispatcher_send RcOk al uid.

Definition Dispatcher_assign (al may_reply : bool) (uid : list Z) (new_id : Z) : M unit :=
  do own <- gets sv_uid;
  if negb (bool_decide (uid = own)) then ret tt
  else
    match Id_try_unicast new_id with
    | None => Dispatcher_ack al may_reply (Err (ValidationError VkCompare))
    | Some _ =>
        do m <- gets sv_mem;
        set_mem (set_config_dirty (poke ADDR_ID new_id m)) ;;
        emit (EvSetId new_id) ;;
        Dispatcher_ack al may_reply (Ok tt)
    end.

Definition Dispatcher_persist_table : M (result unit StoreError) :=
  do store <- gets sv_store;
  match store with
  | None => ret (Err mkStoreError)
  | Some x =>
      do m <- gets sv_mem;
      match RegisterFile_read m CONFIG_BASE_ADDR CONFIG_REGION_SIZE,
            RegisterFile_read m PROFILE_BASE_ADDR PROFILE_REGION_SIZE with
      | Ok config, Ok profile =>
          let '(r, x') := cs_save x config profile in
          set_store (Some x') ;; ret r
      | _, _ => ret (Err mkStoreError)
      end
  end.

Definition Dispatcher_save (al may_reply : bool) : M unit :=
  do torque <- gets torque_enable;
  if torque then Dispatcher_ack al may_reply (Err AccessError)
  else
    do saved <- Dispatcher_persist_table;
    match saved with
    | Ok _ =>
        do m <- gets sv_mem;
        set_mem (clear_config_dirty m) ;; Dispatcher_ack_code al may_reply RcOk
    | Err _ => Dispatcher_ack_code al may_reply RcHardware
    end.

Definition Dispatcher_factory (al may_reply : bool) : M unit :=
  do torque <- gets torque_enable;
  if torque then Dispatcher_ack al may_reply (Err AccessError)
  else
    do store <- gets sv_store;
    match store with
    | None => Dispatcher_ack_code al may_reply RcHardware
    | Some x =>
        let '(r, x') := cs_wipe x in
        set_store (Some x') ;;
        match r with
        | Ok _ => Dispatcher_ack al may_reply (Ok tt) ;; do mode <- gets boot_mode; emit (EvStageReboot mode)
        | Err _ => Dispatcher_ack_code al may_reply RcHardware
        end
    end.

(** The match has no arm for the security sub-ops. *)
Definition Dispatcher_mgmt (al may_reply : bool) (op : MgmtOp) : M unit :=
  match op with
  | MoSave => Dispatcher_save al may_reply
  | MoFactory => Dispatcher_factory al may_reply
  | MoReboot => Dispatcher_ack al may_reply (Ok tt) ;; do mode <- gets boot_mode; emit (EvStageReboot mode)
  | MoEnum | MoAssign | MoCal => Dispatcher_instruction_error al may_reply
  | MoSecInit | MoSecKey | MoSecAttest | MoSecRekey => panic_if_none None
  end.

(** ** The [Dispatch] trait *)

Definition Dispatcher_dispatch (req : Request) (may_reply : bool) : M Dispatched :=
  Dispatcher_revert_dangling ;;
  do al <- gets Dispatcher_alert;
  match req with
  | ReqPing => Dispatcher_ping al may_reply ;; ret DispDone
  | ReqRead addr count => Dispatcher_read al may_reply addr count ;; ret DispDone
  | ReqReadProfile slot => Dispatcher_read_profile al may_reply slot ;; ret DispDone
  | ReqWrite addr data hold => Dispatcher_write al may_reply addr data hold
  | ReqCommit => Dispatcher_apply_commit al may_reply ;; ret DispDone
  | ReqEnumerate pl prefix => Dispatcher_enumerate al may_reply pl prefix ;; ret DispDone
  | ReqAssign uid new_id => Dispatcher_assign al may_reply uid new_id ;; ret DispDone
  | ReqCalibrate gap_us gaps => emit (EvBeginClockCal gap_us gaps) ;; ret DispDone
  | ReqMgmt op _ => Dispatcher_mgmt al may_reply op ;; ret DispDone
  | ReqUnsupported => Dispatcher_instruction_error al may_reply ;; ret DispDone
  end.

Definition Dispatcher_commit : M unit :=
  do p <- gets sv_pending;
  match p with
  | None => ret tt
  | Some p =>
      set_pending None ;;
      if pw_hold p then ret tt
      else
        do m <- gets sv_mem;
        do st <- gets sv_staged;
        do ms <- panic_if_none (RegisterFile_commit_from m st (pw_snap p));
        set_mem ms.1 ;; set_staged ms.2 ;;
        Dispatcher_mark_dirty_if_persistent (pw_addr p) (pw_len p) ;;
        fire_hooks (pw_addr p) (pw_len p)
  end.

Definition Dispatcher_revert : M unit := Dispatcher_revert_dangling.

(** session.rs and shared.rs *)
Definition Servo_new : Servo St := mkServo ControlTable_new StagedWrites_new None (replicate UID_LEN 0) None.

(** ** Running the monad *)

Lemma bind_gets {A B} (f : Servo St -> A) (k : A -> M B) s : bind (gets f) k s = k (f s) s.
Proof. unfold bind, gets. by destruct (k (f s) s) as [[[? ?] ?]|]. Qed.

Lemma bind_panic {A B} (a : A) (k : A -> M B) s : bind (panic_if_none (Some a)) k s = k a s.
Proof. unfold bind, panic_if_none. by destruct (k a s) as [[[? ?] ?]|]. Qed.

Lemma bind_run {A B} (m : M A) (k : A -> M B) s a s1 e1 :
  m s = Some (a, s1, e1) ->
  bind m k s = match k a s1 with Some (b, s2, e2) => Some (b, s2, e1 ++ e2) | None => None end.
Proof. intros E. unfold bind. by rewrite E. Qed.

Lemma bind_set_mem {B} m (k : unit -> M B) s :
  bind (set_mem m) k s = k tt (mkServo m (sv_staged s) (sv_pending s) (sv_uid s) (sv_store s)).
Proof. unfold bind, set_mem. by destruct (k tt _) as [[[? ?] ?]|]. Qed.
Lemma bind_set_staged {B} st (k : unit -> M B) s :
  bind (set_staged st) k s = k tt (mkServo (sv_mem s) st (sv_pending s) (sv_uid s) (sv_store s)).
Proof. unfold bind, set_staged. by destruct (k tt _) as [[[? ?] ?]|]. Qed.
Lemma bind_set_pending {B} p (k : unit -> M B) s :
  bind (set_pending p) k s = k tt (mkServo (sv_mem s) (sv_staged s) p (sv_uid s) (sv_store s)).
Proof. unfold bind, set_pending. by destruct (k tt _) as [[[? ?] ?]|]. Qed.
Lemma bind_set_store {B} x (k : unit -> M B) s :
  bind (set_store x) k s = k tt (mkServo (sv_mem s) (sv_staged s) (sv_pending s) (sv_uid s) x).
Proof. unfold bind, set_store. by destruct (k tt _) as [[[? ?] ?]|]. Qed.

Create HintDb quiet.

(** A computation that only talks: it never panics and leaves the state alone. *)
Definition quiet {A} (m : M A) : Prop := forall s, exists a ev, m s = Some (a, s, ev).

Lemma quiet_ret {A} (a : A) : quiet (ret a).
Proof. intros s. by eexists _, _. Qed.
Lemma quiet_emit e : quiet (emit e).
Proof. intros s. by eexists _, _. Qed.
Lemma quiet_gets {A} (f : Servo St -> A) : quiet (gets f).
Proof. intros s. by eexists _, _. Qed.
Lemma quiet_bind {A B} (m : M A) (k : A -> M B) : quiet m -> (forall a, quiet (k a)) -> quiet (bind m k).
Proof.
  intros Hm Hk s. destruct (Hm s) as (a & e1 & E). destruct (Hk a s) as (b & e2 & E2).
  rewrite (bind_run m k s a s e1 E), E2. by eexists _, _.
Qed.
Lemma quiet_fire_hooks addr len : quiet (fire_hooks addr len).
Proof. intros s. by eexists _, _. Qed.

Hint Resolve quiet_ret quiet_emit quiet_gets quiet_fire_hooks : quiet.
Local Ltac quiet_tac :=
  repeat first [apply quiet_bind; intros | progress auto with quiet | case_goal].

Lemma quiet_send r al d : quiet (Dispatcher_send r al d).
Proof. unfold Dispatcher_send. quiet_tac. Qed.
Hint Resolve quiet_send : quiet.
Lemma quiet_ack_code al may c : quiet (Dispatcher_ack_code al may c).
Proof. unfold Dispatcher_ack_code. quiet_tac. Qed.
Hint Resolve quiet_ack_code : quiet.
Lemma quiet_ack al may r : quiet (Dispatcher_ack al may r).
Proof. unfold Dispatcher_ack. quiet_tac. Qed.
Lemma quiet_instruction_error al may : quiet (Dispatcher_instruction_error al may).
Proof. unfold Dispatcher_instruction_error. quiet_tac. Qed.
Lemma quiet_ping al may : quiet (Dispatcher_ping al may).
Proof. unfold Dispatcher_ping. quiet_tac. Qed.
Lemma quiet_read al may addr count : quiet (Dispatcher_read al may addr count).
Proof. unfold Dispatcher_read. quiet_tac. Qed.
Lemma quiet_read_profile al may slot : quiet (Dispatcher_read_profile al may slot).
Proof. unfold Dispatcher_read_profile. quiet_tac. Qed.
Hint Resolve quiet_ack quiet_instruction_error quiet_ping quiet_read quiet_read_profile : quiet.

(** ** The invariant *)

Definition pending_ok (p : option PendingWrite) (ws : list (Z * list Z)) : Prop :=
  match p with
  | None => True
  | Some p => exists ws1 w, ws = ws1 ++ [w] /\ pw_snap p = snap_of ws1
  end.

Record servo_ok (s : Servo St) : Prop := {
  ok_size : length (sv_mem s) = 1024%nat;
  ok_allowed : @allowed_ok ControlTable (sv_mem s);
  ok_uid : length (sv_uid s) = UID_LEN /\ bytes_ok (sv_uid s);
  ok_staged : exists ws, stage_rep (sv_staged s) ws /\ Forall (@write_allowed ControlTable) ws /\
                pending_ok (sv_pending s) ws;
}.

(** The Rust argument types of a request, and a MGMT sub-op the dispatcher
    has an arm for. *)
Definition request_ok (r : Request) : Prop :=
  match r with
  | ReqEnumerate pl prefix =>
      0 <= pl <= MAX_PREFIX_BITS /\ length prefix = UID_LEN /\ bytes_ok prefix
  | ReqMgmt op _ => MgmtOp_needs_quiet_window op = false
  | _ => True
  end.

(** What [revert_dangling] leaves: the writes staged before the pending one. *)
Definition settled (s : Servo St) : Servo St :=
  match sv_pending s with
  | Some p => mkServo (sv_mem s) (StagedWrites_revert_to (sv_staged s) (pw_snap p)) None (sv_uid s) (sv_store s)
  | None => s
  end.

Lemma revert_dangling_run s : Dispatcher_revert_dangling s = Some (tt, settled s, []).
Proof.
  unfold Dispatcher_revert_dangling, settled. rewrite bind_gets. destruct (sv_pending s); [|done].
  by rewrite bind_set_pending, bind_gets.
Qed.

Lemma settled_ok s : servo_ok s -> servo_ok (settled s) /\ sv_pending (settled s) = None.
Proof.
  intros [Hl Ha Hu (ws & Hr & Hw & Hp)]. unfold settled. destruct (sv_pending s) as [p|] eqn:E; simpl.
  - split; [|done]. destruct Hp as (ws1 & w & -> & ->). apply Forall_app in Hw as [Hw _].
    split; simpl; try done. exists ws1. split; [by eapply revert_to_rep|]. done.
  - split; [|done]. split; try done. exists ws. by rewrite E.
Qed.

Lemma settled_mem s : sv_mem (settled s) = sv_mem s /\ sv_uid (settled s) = sv_uid s /\
  sv_store (settled s) = sv_store s.
Proof. unfold settled. by destruct (sv_pending s). Qed.

Lemma settled_id s : sv_pending s = None -> settled s = s.
Proof. unfold settled. by intros ->. Qed.

(** [dispatch] is the handler run on the settled state. *)
Lemma dispatch_settled req may s :
  Dispatcher_dispatch req may s =
  Dispatcher_dispatch req may (settled s).
Proof.
  unfold Dispatcher_dispatch. rewrite !(bind_run _ _ _ _ _ _ (revert_dangling_run _)).
  rewrite (settled_id (settled s)); [done|]. unfold settled. by destruct (sv_pending s) eqn:E.
Qed.

Lemma Servo_eta (s : Servo St) :
  mkServo (sv_mem s) (sv_staged s) (sv_pending s) (sv_uid s) (sv_store s) = s.
Proof. by destruct s. Qed.

(** The write handler: nothing but the staging buffer and the pending slot. *)
Lemma write_run al may addr data hold s :
  exists ev,
  Dispatcher_write al may addr data hold s =
    match RegisterFile_stage_split (sv_mem s) addr (fb_head data) (fb_tail data) (sv_staged s) with
    | (Ok _, st') =>
        Some (DispPending,
              mkServo (sv_mem s) st'
                (Some (mkPending (StagedWrites_snapshot (sv_staged s)) hold addr
                         (u16 (Z.of_nat (FrameBytes_len data)))))
                (sv_uid s) (sv_store s), ev)
    | (Err _, st') =>
        Some (DispDone, mkServo (sv_mem s) st' (sv_pending s) (sv_uid s) (sv_store s), ev)
    end.
Proof.
  unfold Dispatcher_write, FrameBytes_segments. rewrite !bind_gets.
  destruct (RegisterFile_stage_split _ _ _ _ _) as [[[]|e] st']; rewrite bind_set_staged.
  - destruct (quiet_ack al may (Ok tt)
      (mkServo (sv_mem s) st' (sv_pending s) (sv_uid s) (sv_store s))) as ([] & ev & E).
    rewrite (bind_run _ _ _ _ _ _ E), bind_set_pending. exists (ev ++ []). done.
  - assert (forall m : M unit, quiet m -> exists ev,
      bind m (fun _ => ret DispDone) (mkServo (sv_mem s) st' (sv_pending s) (sv_uid s) (sv_store s)) =
      Some (DispDone, mkServo (sv_mem s) st' (sv_pending s) (sv_uid s) (sv_store s), ev)) as Q.
    { intros m Hm. destruct (Hm (mkServo (sv_mem s) st' (sv_pending s) (sv_uid s) (sv_store s))) as ([] & ev & E).
      rewrite (bind_run _ _ _ _ _ _ E). by eexists. }
    destruct e; apply Q; quiet_tac.
Qed.

(** Requests the bus may dispatch before the CRC verdict. *)
Definition deferrable (r : Request) : bool :=
  match r with ReqCommit | ReqAssign _ _ | ReqMgmt _ _ => false | _ => true end.

Lemma quiet_enumerate al may pl prefix s :
  servo_ok s -> 0 <= pl <= MAX_PREFIX_BITS -> length prefix = UID_LEN -> bytes_ok prefix ->
  exists ev, Dispatcher_enumerate al may pl prefix s = Some (tt, s, ev).
Proof.
  intros [_ _ [Lu Hu] _] Hpl Lp Hp. unfold Dispatcher_enumerate. destruct (negb may); [by eexists|].
  rewrite bind_gets. destruct (uid_prefix_matches_spec (sv_uid s) pl prefix Hu Hp Lu Lp Hpl) as (b & -> & _).
  rewrite bind_panic. destruct b; by eexists.
Qed.

Lemma quiet_done {A} (m : M A) s :
  (exists a ev, m s = Some (a, s, ev)) -> exists ev, bind m (fun _ => ret DispDone) s = Some (DispDone, s, ev).
Proof. intros (a & ev & E). rewrite (bind_run _ _ _ _ _ _ E). by eexists. Qed.

(** Every deferrable request but WRITE leaves the settled state untouched. *)
Lemma dispatch_quiet req may s :
  servo_ok s -> sv_pending s = None -> request_ok req -> deferrable req = true ->
  (forall addr data hold, req <> ReqWrite addr data hold) ->
  exists ev, Dispatcher_dispatch req may s = Some (DispDone, s, ev).
Proof.
  intros Hok Hp Hr Hd Hw. unfold Dispatcher_dispatch.
  rewrite (bind_run _ _ _ _ _ _ (revert_dangling_run s)), (settled_id s Hp), bind_gets.
  assert (forall d : option (Dispatched * Servo St * list ReplyEv), (exists ev, d = Some (DispDone, s, ev)) ->
    exists ev, match d with Some (b, s2, e2) => Some (b, s2, [] ++ e2) | None => None end =
      Some (DispDone, s, ev)) as K by (intros d [ev ->]; by eexists).
  destruct req; try done; apply K; try (apply quiet_done).
  - apply quiet_ping.
  - apply quiet_read.
  - apply quiet_read_profile.
  - by exfalso; eapply Hw.
  - destruct Hr as (? & ? & ?). edestruct quiet_enumerate as [ev E]; eauto.
  - by eexists _, _.
  - apply quiet_instruction_error.
Qed.

Lemma dispatch_write_run addr data hold may s :
  sv_pending s = None ->
  exists ev,
  Dispatcher_dispatch (ReqWrite addr data hold) may s =
    match RegisterFile_stage_split (sv_mem s) addr (fb_head data) (fb_tail data) (sv_staged s) with
    | (Ok _, st') =>
        Some (DispPending,
              mkServo (sv_mem s) st'
                (Some (mkPending (StagedWrites_snapshot (sv_staged s)) hold addr
                         (u16 (Z.of_nat (FrameBytes_len data)))))
                (sv_uid s) (sv_store s), ev)
    | (Err _, st') =>
        Some (DispDone, mkServo (sv_mem s) st' None (sv_uid s) (sv_store s), ev)
    end.
Proof.
  intros Hp. unfold Dispatcher_dispatch.
  rewrite (bind_run _ _ _ _ _ _ (revert_dangling_run s)), (settled_id s Hp), bind_gets.
  destruct (write_run (Dispatcher_alert s) may addr data hold s) as [ev ->]. exists ev. rewrite Hp.
  by destruct (RegisterFile_stage_split _ _ _ _ _) as [[[]|] ?].
Qed.

Lemma stage_split_ok s ws addr head tail st' :
  servo_ok s -> stage_rep (sv_staged s) ws -> Forall (@write_allowed ControlTable) ws ->
  RegisterFile_stage_split (sv_mem s) addr head tail (sv_staged s) = (Ok tt, st') ->
  stage_rep st' (ws ++ [(addr, head ++ tail)]) /\
  Forall (@write_allowed ControlTable) (ws ++ [(addr, head ++ tail)]).
Proof.
  intros Hok Hs Hw E. pose proof (stage_split_rep (sv_mem s) addr head tail _ ws Hs) as P.
  rewrite E in P. destruct P as [Hv P]. split; [done|]. apply Forall_app. split; [done|].
  constructor; [|constructor]. apply (validated_write_allowed (sv_mem s));
    [apply ControlTable_covered|apply Hok|].
  rewrite <- validate_eq_ref; [done|apply ControlTable_wf|apply Hok].
Qed.

Lemma dispatch_deferred req may s :
  servo_ok s -> request_ok req -> deferrable req = true ->
  exists d s1 ev,
    Dispatcher_dispatch req may s = Some (d, s1, ev) /\
    sv_mem s1 = sv_mem s /\ sv_uid s1 = sv_uid s /\ sv_store s1 = sv_store s /\
    Dispatcher_revert s1 = Dispatcher_revert s.
Proof.
  intros Hok Hr Hd. destruct (settled_ok s Hok) as [Hok0 Hp0].
  destruct (settled_mem s) as (<- & <- & <-). rewrite dispatch_settled. unfold Dispatcher_revert.
  rewrite (revert_dangling_run s). set (s0 := settled s) in *.
  assert ((exists addr data hold, req = ReqWrite addr data hold) \/
          (forall addr data hold, req <> ReqWrite addr data hold)) as [(addr & data & hold & ->)|Hn]
    by (destruct req; eauto 6; by right).
  2: { destruct (dispatch_quiet req may s0 Hok0 Hp0 Hr Hd) as [ev E]; [done|].
       exists DispDone, s0, ev. rewrite E, revert_dangling_run, (settled_id s0 Hp0). done. }
  destruct (dispatch_write_run addr data hold may s0 Hp0) as [ev ->].
  pose proof Hok0 as [_ _ _ (ws & Hs & Hw & _)].
  destruct (RegisterFile_stage_split _ _ _ _ _) as [[[]|e] st'] eqn:E.
  - eexists _, _, _. split; [done|]. repeat split; try done. rewrite revert_dangling_run.
    unfold settled at 1. cbn [sv_pending sv_mem sv_staged sv_uid sv_store pw_snap].
    destruct (stage_split_ok s0 ws addr _ _ st' Hok0 Hs Hw E) as [Hs' _].
    rewrite (snapshot_rep _ _ Hs).
    rewrite (stage_rep_inj _ _ _ (revert_to_rep _ _ _ Hs') Hs). rewrite <- Hp0. by rewrite Servo_eta.
  - eexists _, _, _. split; [done|]. repeat split; try done. rewrite revert_dangling_run.
    pose proof (stage_split_rep (sv_mem s0) addr (fb_head data) (fb_tail data) _ ws Hs) as P.
    rewrite E in P. subst st'. unfold settled at 1. cbn [sv_pending]. rewrite <- Hp0. by rewrite Servo_eta.
Qed.

(** C7: dispatch before the verdict is harmless.  For every request the bus
    may dispatch ahead of the CRC verdict, the dispatch never panics, leaves the
    live table, the UID and the store untouched, and a revert afterwards gives
    exactly the state a revert alone would have given. *)
Theorem dispatch_then_revert req may s :
  servo_ok s -> request_ok req -> deferrable req = true ->
  exists d s1 ev,
    Dispatcher_dispatch req may s = Some (d, s1, ev) /\
    sv_mem s1 = sv_mem s /\ sv_uid s1 = sv_uid s /\ sv_store s1 = sv_store s /\
    Dispatcher_revert s1 = Dispatcher_revert s.
Proof. apply dispatch_deferred. Qed.

(** ** Calls on the reply port

    What a spine request may say: statuses only, no configuration change. *)

Definition is_status_ev (e : ReplyEv) : bool :=
  match e with EvStatus _ _ _ | EvStatusGather _ _ _ => true | _ => false end.
Definition speaks {A} (m : M A) : Prop :=
  forall s a s' ev, m s = Some (a, s', ev) -> Forall (fun e => is_status_ev e = true) ev.

Lemma speaks_ret {A} (a : A) : speaks (ret a).
Proof. intros s x s' ev [= _ _ <-]. constructor. Qed.
Lemma speaks_gets {A} (f : Servo St -> A) : speaks (gets f).
Proof. intros s x s' ev [= _ _ <-]. constructor. Qed.
Lemma speaks_emit e : is_status_ev e = true -> speaks (emit e).
Proof. intros He s x s' ev [= _ _ <-]. by repeat constructor. Qed.
Lemma speaks_set_staged st : speaks (set_staged st).
Proof. intros s x s' ev [= _ _ <-]. constructor. Qed.
Lemma speaks_set_pending p : speaks (set_pending p).
Proof. intros s x s' ev [= _ _ <-]. constructor. Qed.
Lemma speaks_bind {A B} (m : M A) (k : A -> M B) : speaks m -> (forall a, speaks (k a)) -> speaks (bind m k).
Proof.
  intros Hm Hk s b s' ev. unfold bind. destruct (m s) as [[[a s1] e1]|] eqn:E1; [|done].
  destruct (k a s1) as [[[b' s2] e2]|] eqn:E2; [|done]. intros [= <- <- <-].
  apply Forall_app. split; [by eapply Hm|by eapply Hk].
Qed.

Ltac speaks_tac :=
  repeat first
    [ apply speaks_ret | apply speaks_gets | apply speaks_set_staged | apply speaks_set_pending
    | apply speaks_emit; reflexivity | apply speaks_bind; [|intros ?]
    | progress unfold Dispatcher_ping, Dispatcher_read, Dispatcher_read_profile, Dispatcher_write,
        Dispatcher_ack, Dispatcher_ack_code, Dispatcher_instruction_error, Dispatcher_send,
        Dispatcher_revert_dangling, FrameBytes_segments
    | match goal with |- speaks (match ?x with _ => _ end) => destruct x end
    | match goal with |- speaks (let '(_, _) := ?x in _) => destruct x end ].

(** The requests of the opcodes the bus dispatches ahead of their verdict. *)
Definition spine_req (r : Request) : bool :=
  match r with
  | ReqPing | ReqRead _ _ | ReqReadProfile _ | ReqWrite _ _ _ | ReqUnsupported => true
  | _ => false
  end.

Lemma dispatch_spine req may s :
  servo_ok s -> sv_pending s = None -> spine_req req = true ->
  exists out s1 ev, Dispatcher_dispatch req may s = Some (out, s1, ev) /\ settled s1 = s /\
    (out = DispDone -> s1 = s).
Proof.
  intros Hok Hp Hq. destruct (dispatch_deferred req may s Hok) as (out & s1 & ev & E & _ & _ & _ & Hr);
    [by destruct req|by destruct req|]. exists out, s1, ev. split; [done|].
  unfold Dispatcher_revert in Hr. rewrite !revert_dangling_run, (settled_id s Hp) in Hr.
  assert (settled s1 = s) as Hs by congruence. split; [done|]. intros ->.
  assert (sv_pending s1 = None) as Hp1; [|by rewrite <- (settled_id s1 Hp1)].
  assert ((exists addr data hold, req = ReqWrite addr data hold) \/
          (forall addr data hold, req <> ReqWrite addr data hold)) as [(addr & data & hold & ->)|Hn]
    by (destruct req; eauto 6; by right).
  - destruct (dispatch_write_run addr data hold may s Hp) as [ev' E']. rewrite E' in E.
    clear E'. repeat case_hyp E; [done|]. injection E as <- <-. done.
  - destruct (dispatch_quiet req may s Hok Hp) as [ev' E']; [by destruct req|by destruct req|done|]. rewrite E' in E. by injection E as <- <-.
Qed.

Lemma dispatch_speaks req may : spine_req req = true -> speaks (Dispatcher_dispatch req may).
Proof. intros Hq. unfold Dispatcher_dispatch. destruct req; try done; speaks_tac. Qed.

(** Spans that are persisted raise the config-dirty flag. *)
Definition dirtied (addr len : Z) (mem : list Z) : list Z :=
  if (addr <? 128) || ((addr <? 704) && (640 <? saturating_add16 addr len))
  then set_config_dirty mem else mem.

Lemma mark_dirty_run addr len s :
  Dispatcher_mark_dirty_if_persistent addr len s =
    Some (tt, mkServo (dirtied addr len (sv_mem s)) (sv_staged s) (sv_pending s) (sv_uid s) (sv_store s), []).
Proof.
  unfold Dispatcher_mark_dirty_if_persistent, dirtied. cbn [CONFIG_BASE_ADDR CONFIG_REGION_SIZE].
  change (CONFIG_BASE_ADDR + CONFIG_REGION_SIZE) with 128. change (PROFILE_BASE_ADDR + PROFILE_REGION_SIZE) with 704.
  change PROFILE_BASE_ADDR with 640. case_goal; [by rewrite bind_gets|]. unfold ret. by rewrite Servo_eta.
Qed.

(** The events a committed span fires, on the committed memory. *)
Definition hook_events (addr len : Z) (mem : list Z) : list ReplyEv :=
  flat_map (hook_event mem) (dispatch_events table_sections addr len).

(** C25: a write that passes its verdict is the direct write.  If dispatching a
    plain WRITE reports a pending effect, then the direct write of the same
    bytes succeeds, and the verdict's commit (which cannot panic) brings the
    table to exactly that memory, with the config-dirty flag raised when the
    span is persisted; earlier held writes stay staged, nothing is left
    pending, and the hooks see the committed values. *)
Theorem write_then_commit addr data may s s1 ev :
  servo_ok s ->
  Dispatcher_dispatch (ReqWrite addr data false) may s = Some (DispPending, s1, ev) ->
  exists mem',
    RegisterFile_write_split (sv_mem s) addr (fb_head data) (fb_tail data) = Ok mem' /\
    let len := u16 (Z.of_nat (FrameBytes_len data)) in
    Dispatcher_commit s1 =
      Some (tt, mkServo (dirtied addr len mem') (sv_staged (settled s)) None (sv_uid s) (sv_store s),
            hook_events addr len (dirtied addr len mem')).
Proof.
  intros Hok. destruct (settled_ok s Hok) as [Hok0 Hp0].
  destruct (settled_mem s) as (<- & <- & <-). rewrite dispatch_settled. set (s0 := settled s) in *.
  destruct (dispatch_write_run addr data false may s0 Hp0) as [ev' ->].
  pose proof Hok0 as [Hl _ _ (ws & Hs & Hw & _)].
  pose proof (stage_commit_write (sv_mem s0) addr (fb_head data) (fb_tail data) (sv_staged s0) ws
    ControlTable_wf Hl Hs) as SC.
  destruct (RegisterFile_stage_split _ _ _ _ _) as [[[]|e] st']; [|done].
  intros [= <- <-]. destruct SC as (mem' & Hwr & Hc). exists mem'. split; [done|]. cbv zeta.
  unfold Dispatcher_commit. rewrite bind_gets. cbn [sv_pending]. rewrite bind_set_pending.
  cbn [pw_hold sv_mem sv_staged sv_uid sv_store pw_snap pw_addr pw_len]. rewrite !bind_gets. cbn [sv_mem sv_staged].
  rewrite Hc, bind_panic, bind_set_mem, bind_set_staged. cbn [sv_mem sv_staged sv_pending sv_uid sv_store fst snd].
  rewrite (bind_run _ _ _ _ _ _ (mark_dirty_run _ _ _)). done.
Qed.

(** ** The invariant is inductive *)

Definition pres {A} (m : M A) : Prop :=
  forall s, servo_ok s -> exists a s' ev, m s = Some (a, s', ev) /\ servo_ok s'.

Lemma pres_quiet {A} (m : M A) : quiet m -> pres m.
Proof. intros Hq s Hs. destruct (Hq s) as (a & ev & E). by eexists _, _, _. Qed.
Lemma pres_bind {A B} (m : M A) (k : A -> M B) : pres m -> (forall a, pres (k a)) -> pres (bind m k).
Proof.
  intros Hm Hk s Hs. destruct (Hm s Hs) as (a & s1 & e1 & E1 & H1). destruct (Hk a s1 H1) as (b & s2 & e2 & E2 & H2).
  rewrite (bind_run _ _ _ _ _ _ E1), E2. by eexists _, _, _.
Qed.

(** Registers that carry no enum/bool rule may be poked freely. *)
Lemma poke_ok a v mem :
  forallb (fun r => negb (Z.to_nat (al_addr r) =? Z.to_nat a)%nat) (@rm_ALLOWED_RULES ControlTable) = true ->
  length mem = 1024%nat /\ @allowed_ok ControlTable mem ->
  length (poke a v mem) = 1024%nat /\ @allowed_ok ControlTable (poke a v mem).
Proof.
  intros Hf [Hl Ha]. unfold poke. rewrite length_insert. split; [done|].
  unfold allowed_ok in *. rewrite List.Forall_forall in *. rewrite forallb_forall in Hf.
  intros r Hr. specialize (Ha r Hr). apply Hf in Hr. zbool. by rewrite list_lookup_total_insert_ne by lia.
Qed.

Lemma dirty_ok mem : length mem = 1024%nat /\ @allowed_ok ControlTable mem ->
  length (set_config_dirty mem) = 1024%nat /\ @allowed_ok ControlTable (set_config_dirty mem).
Proof. apply poke_ok. vm_compute. reflexivity. Qed.
Lemma clear_dirty_ok mem : length mem = 1024%nat /\ @allowed_ok ControlTable mem ->
  length (clear_config_dirty mem) = 1024%nat /\ @allowed_ok ControlTable (clear_config_dirty mem).
Proof. apply poke_ok. vm_compute. reflexivity. Qed.
Lemma poke_id_ok v mem : length mem = 1024%nat /\ @allowed_ok ControlTable mem ->
  length (poke ADDR_ID v mem) = 1024%nat /\ @allowed_ok ControlTable (poke ADDR_ID v mem).
Proof. apply poke_ok. vm_compute. reflexivity. Qed.
Lemma dirtied_ok a l mem : length mem = 1024%nat /\ @allowed_ok ControlTable mem ->
  length (dirtied a l mem) = 1024%nat /\ @allowed_ok ControlTable (dirtied a l mem).
Proof. unfold dirtied. case_goal; [apply dirty_ok|done]. Qed.

Lemma servo_ok_mem s m : servo_ok s -> length m = 1024%nat /\ @allowed_ok ControlTable m ->
  servo_ok (mkServo m (sv_staged s) (sv_pending s) (sv_uid s) (sv_store s)).
Proof. intros [? ? ? ?] []. by split. Qed.
Lemma servo_ok_store s x : servo_ok s ->
  servo_ok (mkServo (sv_mem s) (sv_staged s) (sv_pending s) (sv_uid s) x).
Proof. intros [? ? ? ?]. by split. Qed.

Lemma pres_map_mem (f : list Z -> list Z) {B} (k : M B) :
  (forall m, length m = 1024%nat /\ @allowed_ok ControlTable m -> length (f m) = 1024%nat /\ @allowed_ok ControlTable (f m)) ->
  pres k -> pres (do m <- gets sv_mem; set_mem (f m) ;; k).
Proof.
  intros Hf Hk s Hs. rewrite bind_gets, bind_set_mem. apply Hk, servo_ok_mem; [done|]. apply Hf. split; apply Hs.
Qed.

Lemma pres_mark_dirty a l : pres (Dispatcher_mark_dirty_if_persistent a l).
Proof.
  intros s Hs. rewrite mark_dirty_run. eexists _, _, _. split; [done|].
  apply servo_ok_mem; [done|]. apply dirtied_ok. split; apply Hs.
Qed.
Lemma pres_commit_hooks spans : pres (commit_hooks spans).
Proof.
  induction spans as [|[a l] spans IH]; [by apply pres_quiet, quiet_ret|]. simpl.
  apply pres_bind; [apply pres_mark_dirty|intros _].
  apply pres_bind; [apply pres_quiet, quiet_fire_hooks|done].
Qed.

Lemma pres_apply_commit al may s : servo_ok s -> sv_pending s = None ->
  exists a s' ev, Dispatcher_apply_commit al may s = Some (a, s', ev) /\ servo_ok s'.
Proof.
  intros Hs Hp. pose proof Hs as [Hl Ha Hu (ws & Hr & Hw & _)]. unfold Dispatcher_apply_commit.
  rewrite bind_gets. rewrite (iter_from_rep (sv_staged s) [] ws Hr : StagedWrites_iter_all (sv_staged s) = Some ws).
  rewrite bind_panic, bind_gets. destruct (commit_staged_rep (sv_mem s) _ ws Hr) as (st & -> & Hst).
  rewrite bind_panic, bind_set_mem, bind_set_staged. cbn [fst snd sv_mem sv_staged sv_pending sv_uid sv_store].
  assert (pres (bind (Dispatcher_ack al may (Ok tt)) (fun _ => commit_hooks (take STAGE_ENTRY_CAP
    ((fun w : Z * list Z => (w.1, u16 (Z.of_nat (length w.2)))) <$> ws))))) as Hk
    by (apply pres_bind; [apply pres_quiet, quiet_ack|intros; apply pres_commit_hooks]).
  apply Hk. split; cbn [sv_mem sv_staged sv_pending sv_uid]; [exact (@apply_writes_length ControlTable _ _ Hl)|by apply (@apply_writes_allowed ControlTable)|done|].
  exists []. by rewrite Hp.
Qed.

Lemma pres_assign al may uid id : pres (Dispatcher_assign al may uid id).
Proof.
  intros s Hs. unfold Dispatcher_assign. rewrite bind_gets.
  destruct (negb _); [by apply pres_quiet; [apply quiet_ret|]|].
  destruct (Id_try_unicast id); [|by apply pres_quiet; [apply quiet_ack|]].
  apply (pres_map_mem (fun m => set_config_dirty (poke ADDR_ID id m))); [|apply pres_quiet; quiet_tac|done].
  intros m Hm. by apply dirty_ok, poke_id_ok.
Qed.

Lemma pres_persist_table : pres Dispatcher_persist_table.
Proof.
  intros s Hs. unfold Dispatcher_persist_table. rewrite bind_gets.
  destruct (sv_store s) as [x|]; [|by apply pres_quiet; [apply quiet_ret|]]. rewrite bind_gets.
  destruct (RegisterFile_read (sv_mem s) CONFIG_BASE_ADDR _); [|by apply pres_quiet; [apply quiet_ret|]].
  destruct (RegisterFile_read (sv_mem s) PROFILE_BASE_ADDR _); [|by apply pres_quiet; [apply quiet_ret|]].
  destruct (cs_save x _ _) as [r x']. rewrite bind_set_store. apply pres_quiet; [apply quiet_ret|].
  by apply servo_ok_store.
Qed.

Lemma pres_save al may : pres (Dispatcher_save al may).
Proof.
  unfold Dispatcher_save. apply pres_bind; [apply pres_quiet, quiet_gets|intros torque].
  destruct torque; [apply pres_quiet, quiet_ack|].
  apply pres_bind; [apply pres_persist_table|intros [[]|]]; [|apply pres_quiet, quiet_ack_code].
  apply (pres_map_mem clear_config_dirty); [apply clear_dirty_ok|apply pres_quiet, quiet_ack_code].
Qed.

Lemma pres_factory al may : pres (Dispatcher_factory al may).
Proof.
  unfold Dispatcher_factory. apply pres_bind; [apply pres_quiet, quiet_gets|intros torque].
  destruct torque; [apply pres_quiet, quiet_ack|]. intros s Hs. rewrite bind_gets.
  destruct (sv_store s) as [x|]; [|by apply pres_quiet; [apply quiet_ack_code|]].
  destruct (cs_wipe x) as [r x']. rewrite bind_set_store.
  apply pres_quiet; [destruct r; quiet_tac|by apply servo_ok_store].
Qed.

Lemma pres_mgmt al may op : MgmtOp_needs_quiet_window op = false -> pres (Dispatcher_mgmt al may op).
Proof.
  intros Hop. destruct op; try done; simpl;
    try (apply pres_save || apply pres_factory); apply pres_quiet; quiet_tac.
Qed.

Lemma dispatch_pres req may : request_ok req -> pres (Dispatcher_dispatch req may).
Proof.
  intros Hr s Hs0. rewrite dispatch_settled. destruct (settled_ok s Hs0) as [Hs Hp].
  set (s0 := settled s) in *. clearbody s0. clear Hs0 s.
  assert (forall m : M unit, (exists a s' ev, m s0 = Some (a, s', ev) /\ servo_ok s') ->
    exists a s' ev, bind m (fun _ => ret DispDone) s0 = Some (a, s', ev) /\ servo_ok s') as D.
  { intros m (a & s' & ev & E & H'). rewrite (bind_run _ _ _ _ _ _ E). by eexists _, _, _. }
  destruct (deferrable req) eqn:Hd.
  - assert ((exists addr data hold, req = ReqWrite addr data hold) \/
            (forall addr data hold, req <> ReqWrite addr data hold)) as [(addr & data & hold & ->)|Hn]
      by (destruct req; eauto 6; by right).
    + destruct (dispatch_write_run addr data hold may s0 Hp) as [ev ->].
      pose proof Hs as [Hl Ha Hu (ws & Hst & Hw & _)].
      destruct (RegisterFile_stage_split _ _ _ _ _) as [[[]|e] st'] eqn:E.
      * destruct (stage_split_ok s0 ws addr _ _ st' Hs Hst Hw E) as [Hst' Hw'].
        eexists _, _, _. split; [done|]. split; simpl; try done. eexists. split; [done|]. split; [done|].
        exists ws. eexists. split; [done|]. apply snapshot_rep, Hst.
      * pose proof (stage_split_rep (sv_mem s0) addr (fb_head data) (fb_tail data) _ ws Hst) as P.
        rewrite E in P. subst st'. eexists _, _, _. split; [done|]. split; simpl; try done. by exists ws.
    + destruct (dispatch_quiet req may s0 Hs Hp Hr Hd Hn) as [ev ->]. by eexists _, _, _.
  - unfold Dispatcher_dispatch. rewrite (bind_run _ _ _ _ _ _ (revert_dangling_run s0)), (settled_id s0 Hp), bind_gets.
    destruct req; try done.
    + destruct (D _ (pres_apply_commit (Dispatcher_alert s0) may s0 Hs Hp)) as (a & s' & ev & -> & ?). by eexists _, _, _.
    + destruct (D _ (pres_assign (Dispatcher_alert s0) may uid new_id s0 Hs)) as (a & s' & ev & -> & ?). by eexists _, _, _.
    + destruct (D _ (pres_mgmt (Dispatcher_alert s0) may op Hr s0 Hs)) as (a & s' & ev & -> & ?). by eexists _, _, _.
Qed.

Lemma commit_pres : pres Dispatcher_commit.
Proof.
  intros s Hs. pose proof Hs as [Hl Ha Hu (ws & Hr & Hw & Hp)]. unfold Dispatcher_commit. rewrite bind_gets.
  destruct (sv_pending s) as [p|] eqn:E; [|by apply pres_quiet; [apply quiet_ret|]].
  rewrite bind_set_pending. destruct (pw_hold p).
  { apply pres_quiet; [apply quiet_ret|]. split; simpl; try done. by exists ws. }
  destruct Hp as (ws1 & w & -> & Hsn). rewrite !bind_gets, Hsn. cbn [sv_mem sv_staged].
  destruct (commit_from_rep (sv_mem s) _ _ _ Hr) as (st & -> & Hst).
  rewrite bind_panic, bind_set_mem, bind_set_staged. cbn [sv_mem sv_staged sv_pending sv_uid sv_store fst snd].
  apply Forall_app in Hw as [Hw1 Hw2].
  apply pres_bind; [apply pres_mark_dirty|intros; apply pres_quiet, quiet_fire_hooks|].
  split; cbn [sv_mem sv_staged sv_pending sv_uid]; [exact (@apply_writes_length ControlTable _ _ Hl)|by apply (@apply_writes_allowed ControlTable)|done|]. by exists ws1.
Qed.

Lemma revert_pres : pres Dispatcher_revert.
Proof.
  intros s Hs. unfold Dispatcher_revert. rewrite revert_dangling_run.
  eexists _, _, _. split; [done|]. by apply settled_ok.
Qed.

(** The servo as it powers on: any legal defaults in the table, whatever image the
    flash holds over them, nothing staged. *)
Definition power_on (s : Servo St) : Prop :=
  (exists flash defaults, length defaults = 1024%nat /\ @allowed_ok ControlTable defaults /\
     sv_mem s = (FlashStore_boot_load flash defaults).2) /\
  sv_staged s = StagedWrites_new /\ sv_pending s = None /\ length (sv_uid s) = UID_LEN /\ bytes_ok (sv_uid s).

Lemma power_on_ok s : power_on s -> servo_ok s.
Proof.
  intros ((flash & mem & Hl & Ha & Em) & Es & Ep & Hu). destruct (boot_load_table flash mem Hl Ha) as [Hl' Ha'].
  split; rewrite ?Em, ?Es, ?Ep; [done|done|done|]. exists []. split; [apply stage_rep_new|]. by split.
Qed.

(** What a bus and the firmware do to the dispatcher: any requests, verdicts and
    lost verdicts, in any order, and the firmware's own stores into the table. *)
Inductive dispatch_step : Servo St -> Servo St -> Prop :=
| StepDispatch req may s d s' ev :
    request_ok req -> Dispatcher_dispatch req may s = Some (d, s', ev) -> dispatch_step s s'
| StepCommit s s' ev : Dispatcher_commit s = Some (tt, s', ev) -> dispatch_step s s'
| StepRevert s s' ev : Dispatcher_revert s = Some (tt, s', ev) -> dispatch_step s s'
| StepStore s mem : length mem = 1024%nat -> @allowed_ok ControlTable mem ->
    dispatch_step s (mkServo mem (sv_staged s) (sv_pending s) (sv_uid s) (sv_store s)).

(** C24: the dispatcher's invariant holds in every reachable state and no step
    panics.  Start at power-on, from any legal default table and any flash
    contents.  Whatever requests arrive, in whatever order, with verdicts passed,
    failed or lost, and whatever legal values the firmware itself stores in the
    table meanwhile: the table keeps its size, every enum and bool register holds a
    legal value (so no later typed read is undefined), the staging buffer is a
    sequence of validated writes within its capacities, and the pending slot marks
    exactly the last of them; dispatch, commit and revert all return.  The requests
    are those the decoder produces (an ENUM's prefix is 16 bytes and at most 128
    bits of it count) except MGMT SecInit, SecKey, SecAttest and SecRekey, for
    which the dispatcher's match has no arm. *)
Theorem reachable_ok s s' req may :
  power_on s -> rtc dispatch_step s s' -> request_ok req ->
  servo_ok s' /\
  is_Some (Dispatcher_dispatch req may s') /\ is_Some (Dispatcher_commit s') /\
  is_Some (Dispatcher_revert s').
Proof.
  intros Hs%power_on_ok Hr Hreq. assert (servo_ok s') as Hs'.
  { induction Hr as [|x y z Hxy _ IH]; [done|]. apply IH. destruct Hxy as [r m x d y ev Hq E|x y ev E|x y ev E|x mem Hl Ha].
    - destruct (dispatch_pres r m Hq x Hs) as (? & ? & ? & E' & ?). by simplify_eq.
    - destruct (commit_pres x Hs) as (? & ? & ? & E' & ?). by simplify_eq.
    - destruct (revert_pres x Hs) as (? & ? & ? & E' & ?). by simplify_eq.
    - destruct Hs as [_ _ Hu Hst]. by split. }
  split; [done|]. split; [|split].
  - destruct (dispatch_pres req may Hreq s' Hs') as (? & ? & ? & -> & _). by eexists.
  - destruct (commit_pres s' Hs') as (? & ? & ? & -> & _). by eexists.
  - destruct (revert_pres s' Hs') as (? & ? & ? & -> & _). by eexists.
Qed.

(** ** HOLD and COMMIT *)

Definition dirtied_all (spans : list (Z * Z)) (mem : list Z) : list Z :=
  fold_left (fun m sp => dirtied sp.1 sp.2 m) spans mem.

Lemma commit_hooks_run spans : forall s, exists ev,
  commit_hooks spans s =
    Some (tt, mkServo (dirtied_all spans (sv_mem s)) (sv_staged s) (sv_pending s) (sv_uid s) (sv_store s), ev).
Proof.
  induction spans as [|[a l] spans IH]; intros s; [eexists; simpl; unfold ret; by rewrite Servo_eta|].
  simpl. rewrite (bind_run _ _ _ _ _ _ (mark_dirty_run a l s)).
  set (s1 := mkServo _ _ _ _ _). destruct (IH s1) as [ev E].
  assert (fire_hooks a l s1 = Some (tt, s1, hook_events a l (sv_mem s1))) as F by done.
  rewrite (bind_run _ _ _ _ _ _ F), E. by eexists.
Qed.

Definition write_span (w : Z * list Z) : Z * Z := (w.1, u16 (Z.of_nat (length w.2))).

Lemma commit_run s ws may : stage_rep (sv_staged s) ws -> sv_pending s = None ->
  exists ev, Dispatcher_dispatch ReqCommit may s =
    Some (DispDone, mkServo (dirtied_all (write_span <$> ws) (apply_writes (sv_mem s) ws))
                      StagedWrites_new None (sv_uid s) (sv_store s), ev).
Proof.
  intros Hr Hp. unfold Dispatcher_dispatch.
  rewrite (bind_run _ _ _ _ _ _ (revert_dangling_run s)), (settled_id s Hp), bind_gets.
  assert (exists ev, Dispatcher_apply_commit (Dispatcher_alert s) may s =
    Some (tt, mkServo (dirtied_all (write_span <$> ws) (apply_writes (sv_mem s) ws))
                StagedWrites_new None (sv_uid s) (sv_store s), ev)) as [ev E].
  { unfold Dispatcher_apply_commit.
    rewrite bind_gets. rewrite (iter_from_rep (sv_staged s) [] ws Hr : StagedWrites_iter_all (sv_staged s) = Some ws).
    rewrite bind_panic, bind_gets. destruct (commit_staged_rep (sv_mem s) _ ws Hr) as (st & -> & Hst).
    rewrite bind_panic, bind_set_mem, bind_set_staged. cbn [fst snd sv_mem sv_staged sv_pending sv_uid sv_store].
    rewrite (stage_rep_inj _ _ _ Hst stage_rep_new), Hp.
    rewrite take_ge.
    2: { rewrite length_fmap. pose proof (sr_entry_cap _ _ Hr) as L. by rewrite (sr_entries _ _ Hr), lay_out_length in L. }
    set (s1 := mkServo _ _ _ _ _). destruct (quiet_ack (Dispatcher_alert s) may (Ok tt) s1) as ([] & e1 & E1).
    rewrite (bind_run _ _ _ _ _ _ E1). destruct (commit_hooks_run (write_span <$> ws) s1) as [e2 E2].
    unfold write_span in E2 at 1. rewrite E2. by eexists. }
  rewrite (bind_run _ _ _ _ _ _ E). by eexists.
Qed.

(** A run of held writes, each dispatched and then passed by its verdict. *)
Inductive held_run : Servo St -> list (Z * FrameBytes) -> Servo St -> Prop :=
| HeldNil s : held_run s [] s
| HeldCons s addr data may s1 ev1 s2 ev2 ws s3 :
    Dispatcher_dispatch (ReqWrite addr data true) may s = Some (DispPending, s1, ev1) ->
    Dispatcher_commit s1 = Some (tt, s2, ev2) ->
    held_run s2 ws s3 -> held_run s ((addr, data) :: ws) s3.

Definition bytes_of (w : Z * FrameBytes) : Z * list Z := (w.1, FrameBytes_bytes w.2).

Lemma held_run_spec s held s' : held_run s held s' -> forall ws,
  servo_ok s -> sv_pending s = None -> stage_rep (sv_staged s) ws ->
  sv_mem s' = sv_mem s /\ sv_pending s' = None /\ sv_uid s' = sv_uid s /\ sv_store s' = sv_store s /\
  stage_rep (sv_staged s') (ws ++ (bytes_of <$> held)).
Proof.
  induction 1 as [s|s addr data may s1 ev1 s2 ev2 held s3 E1 E2 _ IH]; intros ws Hok Hp Hs.
  { by rewrite app_nil_r. }
  assert (servo_ok s2) as Hok2.
  { destruct (dispatch_pres (ReqWrite addr data true) may I s Hok) as (? & ? & ? & E & Hok1). rewrite E1 in E.
    simplify_eq. destruct (commit_pres _ Hok1) as (? & ? & ? & E & ?). by simplify_eq. }
  destruct (dispatch_write_run addr data true may s Hp) as [ev E]. rewrite E in E1.
  pose proof (stage_split_rep (sv_mem s) addr (fb_head data) (fb_tail data) _ ws Hs) as P.
  destruct (RegisterFile_stage_split _ _ _ _ _) as [[[]|e] st']; [|done]. simplify_eq.
  unfold Dispatcher_commit in E2. rewrite bind_gets in E2. cbn [sv_pending pw_hold] in E2.
  rewrite bind_set_pending in E2. cbn [sv_mem sv_staged sv_uid sv_store pw_hold] in E2.
  unfold ret in E2. simplify_eq. destruct P as [_ P].
  destruct (IH _ Hok2 eq_refl P) as (M1 & M2 & M3 & M4 & M5).
  rewrite <- app_assoc in M5. done.
Qed.

(** HOLD then COMMIT is one atomic cycle.  Held writes, each through its
    own dispatch and verdict, leave the live table byte for byte unchanged; the
    COMMIT then applies all of them, in order and across their ring seams, and
    leaves the staging buffer empty (the config-dirty flag raised for each
    persisted span). *)
Theorem held_then_commit s held s1 may :
  servo_ok s -> sv_pending s = None -> sv_staged s = StagedWrites_new -> held_run s held s1 ->
  sv_mem s1 = sv_mem s /\
  exists ev, Dispatcher_dispatch ReqCommit may s1 =
    Some (DispDone,
          mkServo (dirtied_all (write_span <$> (bytes_of <$> held))
                     (apply_writes (sv_mem s) (bytes_of <$> held)))
            StagedWrites_new None (sv_uid s) (sv_store s), ev).
Proof.
  intros Hok Hp Hs Hr. assert (stage_rep (sv_staged s) []) as Hs0 by (rewrite Hs; apply stage_rep_new).
  destruct (held_run_spec _ _ _ Hr [] Hok Hp Hs0) as (M1 & M2 & M3 & M4 & M5). split; [done|].
  destruct (commit_run s1 _ may M5 M2) as [ev E]. exists ev. by rewrite E, M1, M3, M4.
Qed.

(** ** SAVE *)

Lemma persist_table_run s x : servo_ok s -> sv_store s = Some x ->
  let r := cs_save x (config_of (sv_mem s)) (profile_of (sv_mem s)) in
  Dispatcher_persist_table s =
    Some (r.1, mkServo (sv_mem s) (sv_staged s) (sv_pending s) (sv_uid s) (Some r.2), []).
Proof.
  intros Hok Hx r. unfold Dispatcher_persist_table. rewrite bind_gets, Hx, bind_gets.
  assert (RegisterFile_read (sv_mem s) CONFIG_BASE_ADDR CONFIG_REGION_SIZE = Ok (config_of (sv_mem s))) as ->
    by reflexivity.
  assert (RegisterFile_read (sv_mem s) PROFILE_BASE_ADDR PROFILE_REGION_SIZE = Ok (profile_of (sv_mem s))) as ->
    by reflexivity.
  fold r. destruct r as [r0 x']. by rewrite bind_set_store.
Qed.

Lemma save_run s args :
  servo_ok s -> sv_pending s = None ->
  let al := Dispatcher_alert s in
  let m := sv_mem s in
  Dispatcher_dispatch (ReqMgmt MoSave args) true s =
    if torque_enable s then Some (DispDone, s, [EvStatus RcAccess al []])
    else match sv_store s with
         | None => Some (DispDone, s, [EvStatus RcHardware al []])
         | Some x =>
             match cs_save x (config_of m) (profile_of m) with
             | (Ok _, x') =>
                 Some (DispDone, mkServo (clear_config_dirty m) (sv_staged s) None (sv_uid s) (Some x'),
                       [EvStatus RcOk al []])
             | (Err _, x') =>
                 Some (DispDone, mkServo m (sv_staged s) None (sv_uid s) (Some x'),
                       [EvStatus RcHardware al []])
             end
         end.
Proof.
  intros Hok Hp al m. unfold Dispatcher_dispatch.
  rewrite (bind_run _ _ _ _ _ _ (revert_dangling_run s)), (settled_id s Hp), bind_gets.
  unfold Dispatcher_mgmt, Dispatcher_save. fold al.
  destruct (torque_enable s) eqn:T.
  { unfold bind at 1. rewrite bind_gets, T. done. }
  unfold bind at 1. rewrite bind_gets, T. destruct (sv_store s) as [x|] eqn:X.
  - rewrite (bind_run _ _ _ _ _ _ (persist_table_run s x Hok X)). fold m.
    destruct (cs_save x (config_of m) (profile_of m)) as [[[]|e] x'] eqn:E; cbn [fst snd].
    + rewrite bind_gets, bind_set_mem. cbn. by rewrite Hp.
    + cbn. by rewrite Hp.
  - assert (Dispatcher_persist_table s = Some (Err mkStoreError, s, [])) as E
      by (unfold Dispatcher_persist_table; by rewrite bind_gets, X).
    rewrite (bind_run _ _ _ _ _ _ E). done.
Qed.

(** SAVE.  With torque on, SAVE touches neither the store nor the table
    and answers Access.  With torque off it hands the store exactly the CONFIG
    and PROFILE bytes of the live table, and only after the store has returned
    does it answer: Ok, with the config-dirty flag cleared, if the store
    succeeded; Hardware, the table untouched, if it failed or is absent. *)
Theorem save_reply s args :
  servo_ok s -> sv_pending s = None ->
  let al := Dispatcher_alert s in
  let m := sv_mem s in
  Dispatcher_dispatch (ReqMgmt MoSave args) true s =
    if torque_enable s then Some (DispDone, s, [EvStatus RcAccess al []])
    else match sv_store s with
         | None => Some (DispDone, s, [EvStatus RcHardware al []])
         | Some x =>
             match cs_save x (config_of m) (profile_of m) with
             | (Ok _, x') =>
                 Some (DispDone, mkServo (clear_config_dirty m) (sv_staged s) None (sv_uid s) (Some x'),
                       [EvStatus RcOk al []])
             | (Err _, x') =>
                 Some (DispDone, mkServo m (sv_staged s) None (sv_uid s) (Some x'),
                       [EvStatus RcHardware al []])
             end
         end.
Proof. apply save_run. Qed.

(** ** Reads *)

(** The reference for a gathered read: the enabled spans of the slot, sliced
    out of the live table. *)
Definition profile_spans (mem : list Z) (words : list Z) : list (Z * Z) := omap span_of words.
Definition span_bytes (mem : list Z) (sp : Z * Z) : list Z :=
  take (Z.to_nat sp.2) (drop (Z.to_nat sp.1) mem).
Definition span_in_map (sp : Z * Z) : bool := sp.1 + sp.2 <=? 1024.
Definition spans_total (sps : list (Z * Z)) : Z := foldr (fun sp n => sp.2 + n) 0 sps.

Lemma RegisterFile_read_spec mem a c : 0 <= c ->
  RegisterFile_read mem a c = if a + c <=? 1024 then Ok (span_bytes mem (a, c)) else Err OutOfRange.
Proof.
  intros Hc. unfold RegisterFile_read, span_bytes. cbn [fst snd].
  change (Z.of_nat rm_SIZE) with 1024. rewrite Z.leb_antisym.
  destruct (1024 <? a + c); [done|]. destruct (c =? 0) eqn:E; zbool; [|done]. by subst.
Qed.

Lemma span_of_range w sp : 0 <= w -> span_of w = Some sp -> 0 <= sp.1 /\ 0 < sp.2 <= 63.
Proof.
  intros Hw. unfold span_of. pose proof (land_range_r w 63 ltac:(lia)) as R.
  destruct (_ =? 0) eqn:E; [done|]. zbool. intros [= <-]. cbn [fst snd].
  split; [by apply Z.shiftr_nonneg|lia].
Qed.

Lemma spans_total_bound sps : Forall (fun sp : Z * Z => 0 < sp.2 <= 63) sps ->
  0 <= spans_total sps <= 63 * Z.of_nat (length sps).
Proof. induction 1; simpl; [lia|]. unfold spans_total in *. lia. Qed.

Lemma gather_spec mem words : Forall (fun w => 0 <= w) words -> forall acc total,
  0 <= total -> total + 63 * Z.of_nat (length words) < 65536 ->
  gather mem words acc total =
    if forallb span_in_map (profile_spans mem words)
    then Ok (acc ++ (span_bytes mem <$> profile_spans mem words), total + spans_total (profile_spans mem words))
    else Err tt.
Proof.
  induction 1 as [|w words Hw Hws IH]; intros acc total Ht Hb.
  { simpl. by rewrite app_nil_r, Z.add_0_r. }
  cbn [gather length] in *. unfold profile_spans in *. cbn [omap list_omap].
  destruct (span_of w) as [[a c]|] eqn:E; [|apply IH; lia].
  destruct (span_of_range w _ Hw E) as [Ha Hc]. cbn [fst snd] in *.
  rewrite RegisterFile_read_spec by lia. cbn [forallb]. unfold span_in_map at 1. cbn [fst snd].
  destruct (a + c <=? 1024); [|done]. cbn [andb]. rewrite u16_id by lia. rewrite IH by lia.
  destruct (forallb _ _); [|done]. f_equal. f_equal.
  - rewrite <- app_assoc. done.
  - unfold spans_total. simpl. lia.
Qed.

Lemma slot_words_ok mem slot words : bytes_ok mem -> length mem = 1024%nat -> 0 <= slot ->
  slot_words mem slot = Some words ->
  slot < 4 /\ length words = 8%nat /\ Forall (fun w => 0 <= w) words.
Proof.
  intros Hb L H0. unfold slot_words. change Wire.PROFILE_SLOTS with 4.
  destruct (4 <=? slot) eqn:E; [done|]. zbool. intros Hw. apply (inj Some) in Hw. subst words.
  split; [lia|]. split; [by rewrite length_fmap, length_seq|].
  apply List.Forall_forall. intros w Hw. apply list_elem_of_In, list_elem_of_fmap in Hw as (k & -> & Hk%elem_of_seq).
  unfold SPANS_PER_SLOT in *. change (Z.to_nat 8) with 8%nat in *.
  assert (forall i, (i < 1024)%nat -> 0 <= mem !!! i) as P.
  { intros i Hi. destruct (lookup_lt_is_Some_2 mem i ltac:(lia)) as [b Eb].
    rewrite (list_lookup_total_correct _ _ _ Eb). by apply (bytes_ok_lookup _ _ _ Hb Eb). }
  unfold from_le16. pose proof (P (640 + 2 * (Z.to_nat slot * 8 + k))%nat ltac:(lia)).
  pose proof (P (640 + 2 * (Z.to_nat slot * 8 + k) + 1)%nat ltac:(lia)). lia.
Qed.

(** Reads answer exactly the protocol's table.  READ: an empty or
    out-of-map span is Range, a span past the frame ceiling is Limit, otherwise
    Ok with exactly the addressed live bytes.  Profile READ: a bad slot, a slot
    with no enabled word or any span outside the map is Range, a total past the
    ceiling is Limit, otherwise the enabled spans' live bytes in slot order
    (disabled words skipped, not terminating).  Neither changes anything. *)
Theorem read_replies s addr count slot :
  servo_ok s -> bytes_ok (sv_mem s) -> 0 <= count -> 0 <= slot ->
  let al := Dispatcher_alert (settled s) in
  let m := sv_mem s in
  Dispatcher_dispatch (ReqRead addr count) true s =
    Some (DispDone, settled s,
      [if (count =? 0) then EvStatus RcRange al []
       else if 252 <? count then EvStatus RcLimit al []
       else if addr + count <=? 1024 then EvStatus RcOk al (span_bytes m (addr, count))
       else EvStatus RcRange al []]) /\
  Dispatcher_dispatch (ReqReadProfile slot) true s =
    Some (DispDone, settled s,
      [match slot_words m slot with
       | None => EvStatus RcRange al []
       | Some words =>
           let sps := profile_spans m words in
           if negb (forallb span_in_map sps) || Nat.eqb (length sps) 0 then EvStatus RcRange al []
           else if 252 <? spans_total sps then EvStatus RcLimit al []
           else EvStatusGather RcOk al (span_bytes m <$> sps)
       end]).
Proof.
  intros Hok Hb Hc Hs al m. pose proof (settled_mem s) as (Em & _ & _). unfold Dispatcher_dispatch.
  rewrite !(bind_run _ _ _ _ _ _ (revert_dangling_run s)), !bind_gets. fold al.
  split.
  - unfold Dispatcher_read, Dispatcher_send. cbn [negb]. change MAX_PAYLOAD with 252.
    destruct (count =? 0); [done|]. destruct (252 <? count); [done|].
    unfold bind at 1. rewrite bind_gets, Em. rewrite RegisterFile_read_spec by done. fold m.
    destruct (addr + count <=? 1024); done.
  - unfold Dispatcher_read_profile, Dispatcher_send. cbn [negb]. change MAX_PAYLOAD with 252.
    unfold bind at 1. rewrite bind_gets, Em. fold m.
    destruct (slot_words m slot) as [words|] eqn:E; [|done].
    destruct (slot_words_ok m slot words Hb (ok_size _ Hok) Hs E) as (_ & Lw & Hw).
    rewrite gather_spec by (done || lia). cbv zeta.
    destruct (forallb span_in_map (profile_spans m words)); [|done]. cbn [negb orb app].
    rewrite Z.add_0_l, length_fmap. destruct (Nat.eqb _ 0); [done|]. destruct (252 <? _); done.
Qed.
End Dispatcher.

(** ** A servo backed by the flash store

    [readback] and [erased] are the flash: what a slot reads back as after
    being programmed or erased.  Nothing is assumed of them. *)
Section FlashBacked.
Context (readback : FlashStore -> list Z -> list Z -> list Z) (erased : FlashStore -> list Z * list Z).

Definition FlashStore_ConfigStore : ConfigStore FlashStore := {|
  cs_save s c p := FlashStore_save s c p (readback s c p);
  cs_wipe s := FlashStore_wipe s (erased s).1 (erased s).2;
|}.
#[local] Existing Instance FlashStore_ConfigStore.

(** C26: an acknowledged SAVE is durable.  The servo is in any state its invariant
    admits, and its store has booted from any flash contents, blank ones included,
    and has since been saved to and wiped any number of times, with or without
    success ([store_reached]; a failed wipe leaves each slot as it was or without
    an image).  If SAVE answers Ok, then whatever the flash did, the next boot from
    any legal default table restores every CONFIG byte from the ID register on and
    every PROFILE byte to what they were when SAVE was dispatched, keeps all other
    defaults, and leaves no invalid enum or bool register. *)
Theorem save_ack_durable s x args s' al mem0 :
  servo_ok s -> bytes_ok (sv_mem s) -> sv_store s = Some x -> store_reached x ->
  length mem0 = 1024%nat -> @allowed_ok ControlTable mem0 ->
  Dispatcher_dispatch (ReqMgmt MoSave args) true s = Some (DispDone, s', [EvStatus RcOk al []]) ->
  exists x', sv_store s' = Some x' /\
    let mem' := (FlashStore_boot_load x' mem0).2 in
    (forall i, (16 <= i < 128 \/ 640 <= i < 704)%nat -> mem' !! i = sv_mem s !! i) /\
    (forall i, ~ (16 <= i < 128 \/ 640 <= i < 704)%nat -> mem' !! i = mem0 !! i) /\
    @allowed_ok ControlTable mem'.
Proof.
  intros Hok Hb Hx Hst L0 A0. rewrite dispatch_settled. destruct (settled_ok s Hok) as [Hok' Hp']. destruct (settled_mem s) as (Em & _ & Es).
  rewrite save_run by done. rewrite Es, Em, Hx.
  destruct (torque_enable (settled s)); [done|]. simpl cs_save.
  destruct (FlashStore_save x (config_of (sv_mem s)) (profile_of (sv_mem s)) _) as [[[]|e] x'] eqn:E; [|done].
  intros [= <- _]. exists x'. split; [done|].
  eapply save_boot_restores; try done; [by apply reached_ready|apply Hok..].
Qed.
End FlashBacked.

(** ** Concrete runs *)

Definition ideal_flash : ConfigStore FlashStore :=
  FlashStore_ConfigStore (fun s c p => assemble (fs_next_seq s) c p) (fun _ => (replicate 200 255, replicate 200 255)).

Definition demo_servo : Servo FlashStore :=
  mkServo demo_mem StagedWrites_new None (replicate 16 7) (Some demo_store).

Lemma demo_mem_allowed : @allowed_ok ControlTable demo_mem.
Proof. apply List.Forall_forall. vm_compute. intuition (subst; reflexivity). Defined.

Lemma demo_servo_ok : servo_ok demo_servo.
Proof.
  split; [reflexivity|apply demo_mem_allowed|split; [reflexivity|apply Forall_replicate; lia]|].
  exists []. split; [apply stage_rep_new|]. by split.
Defined.

(** The first SAVE of a servo whose flash is blank. *)
Definition blank_store : FlashStore := mkStore (replicate 200 255) (replicate 200 255) SlotB 0.
Definition fresh_servo : Servo FlashStore :=
  mkServo demo_mem StagedWrites_new None (replicate 16 7) (Some (FlashStore_boot_load blank_store ControlTable_new).1).

Lemma demo_mem_bytes : bytes_ok demo_mem.
Proof.
  unfold demo_mem. apply bytes_ok_splice; [unfold demo_config; simpl; repeat constructor; lia|]. apply Forall_replicate. lia.
Qed.
Lemma new_table_allowed : @allowed_ok ControlTable ControlTable_new.
Proof. apply List.Forall_forall. vm_compute. intuition (subst; reflexivity). Qed.
Lemma fresh_store_reached : store_reached (FlashStore_boot_load blank_store ControlTable_new).1.
Proof. constructor; apply Forall_replicate; lia. Qed.
Lemma fresh_servo_ok : servo_ok fresh_servo.
Proof. destruct demo_servo_ok as [H1 H2 H3 H4]. split; [exact H1|exact H2|exact H3|exact H4]. Qed.

Lemma save_ack_durable_witness :
  exists x', (FlashStore_boot_load x' ControlTable_new).2 !! 16%nat = Some 5.
Proof.
  destruct (save_ack_durable (fun s c p => assemble (fs_next_seq s) c p)
    (fun _ => (replicate 200 255, replicate 200 255)) fresh_servo (FlashStore_boot_load blank_store ControlTable_new).1 (FB [] [])
    (mkServo (clear_config_dirty demo_mem) StagedWrites_new None (replicate 16 7)
       (Some (FlashStore_save (FlashStore_boot_load blank_store ControlTable_new).1 (config_of demo_mem) (profile_of demo_mem)
          (assemble 1 (config_of demo_mem) (profile_of demo_mem))).2)) false ControlTable_new
    fresh_servo_ok demo_mem_bytes eq_refl fresh_store_reached eq_refl new_table_allowed) as (x' & _ & Hr & _ & _).
  - vm_compute. reflexivity.
  - exists x'. rewrite Hr by lia. reflexivity.
Defined.

Lemma dispatch_then_revert_witness :
  exists d s1 ev,
    @Dispatcher_dispatch _ ideal_flash (ReqWrite 4 (FB [1] [2]) false) true demo_servo = Some (d, s1, ev) /\
    sv_mem s1 = demo_mem.
Proof.
  destruct (@dispatch_then_revert _ ideal_flash (ReqWrite 4 (FB [1] [2]) false) true demo_servo demo_servo_ok I eq_refl)
    as (d & s1 & ev & E & Hm & _). exists d, s1, ev. split; [exact E|exact Hm].
Defined.

Lemma write_then_commit_witness :
  exists mem', RegisterFile_write_split demo_mem 16 [9] [2] = Ok mem'.
Proof.
  destruct (@write_then_commit _ ideal_flash 16 (FB [9] [2]) true demo_servo
    (mkServo demo_mem (mkStaged [9; 2] [mkEntry 16 2 0]) (Some (mkPending (mkSnap 0 0) false 16 2))
       (replicate 16 7) (Some demo_store)) [EvStatus RcOk false []] demo_servo_ok) as (mem' & E & _).
  - vm_compute. reflexivity.
  - exists mem'. exact E.
Defined.

(** Power-on from a saved image; a held write, its verdict, and a COMMIT. *)
Definition booted_servo : Servo FlashStore :=
  mkServo (FlashStore_boot_load demo_store ControlTable_new).2 StagedWrites_new None (replicate 16 7)
    (Some (FlashStore_boot_load demo_store ControlTable_new).1).
Definition after_step {A} (o : option (A * Servo FlashStore * list ReplyEv)) : Servo FlashStore :=
  match o with Some (_, s, _) => s | None => booted_servo end.
Definition held_servo : Servo FlashStore := after_step (@Dispatcher_dispatch _ ideal_flash (ReqWrite 16 (FB [9] [2]) true) true booted_servo).
Definition passed_servo : Servo FlashStore := after_step (@Dispatcher_commit _ held_servo).
Definition written_servo : Servo FlashStore := after_step (@Dispatcher_dispatch _ ideal_flash ReqCommit true passed_servo).

Lemma step_taken {A} (o : option (A * Servo FlashStore * list ReplyEv)) :
  match o with Some _ => true | None => false end = true -> exists a ev, o = Some (a, after_step o, ev).
Proof. destruct o as [[[a s] ev]|]; [by exists a, ev|done]. Qed.
Lemma written_reached : rtc (@dispatch_step _ ideal_flash) booted_servo written_servo.
Proof.
  destruct (step_taken (@Dispatcher_dispatch _ ideal_flash (ReqWrite 16 (FB [9] [2]) true) true booted_servo)) as (d1 & ev1 & E1); [vm_compute; reflexivity|].
  destruct (step_taken (@Dispatcher_commit _ held_servo)) as ([] & ev2 & E2); [vm_compute; reflexivity|].
  destruct (step_taken (@Dispatcher_dispatch _ ideal_flash ReqCommit true passed_servo)) as (d3 & ev3 & E3); [vm_compute; reflexivity|].
  eapply rtc_l; [exact (StepDispatch (H := ideal_flash) (ReqWrite 16 (FB [9] [2]) true) _ _ _ _ _ I E1)|]. eapply rtc_l; [exact (StepCommit (H := ideal_flash) _ _ _ E2)|].
  eapply rtc_l; [exact (StepDispatch (H := ideal_flash) ReqCommit _ _ _ _ _ I E3)|]. apply rtc_refl.
Qed.

Lemma reachable_ok_witness : @servo_ok FlashStore written_servo /\ sv_mem written_servo !! 16%nat = Some 9.
Proof.
  split; [|vm_compute; reflexivity].
  refine (proj1 (@reachable_ok _ ideal_flash booted_servo written_servo ReqCommit true _ written_reached I)).
  split; [exists demo_store, ControlTable_new; split; [reflexivity|]; split; [exact new_table_allowed|reflexivity]|].
  split; [reflexivity|]. split; [reflexivity|]. split; [reflexivity|]. apply Forall_replicate. lia.
Defined.

Lemma held_then_commit_witness :
  exists ev, @Dispatcher_dispatch _ ideal_flash ReqCommit true
    (mkServo demo_mem (mkStaged [9; 2] [mkEntry 16 2 0]) None (replicate 16 7) (Some demo_store)) =
    Some (DispDone, mkServo (dirtied 16 2 (splice 16 [9; 2] demo_mem)) StagedWrites_new None (replicate 16 7)
            (Some demo_store), ev).
Proof.
  refine (proj2 (@held_then_commit _ ideal_flash demo_servo [(16, FB [9] [2])] _ true demo_servo_ok eq_refl eq_refl _)).
  eapply HeldCons with (may := true); [vm_compute; reflexivity|vm_compute; reflexivity|apply HeldNil].
Defined.

Lemma save_reply_witness :
  @Dispatcher_dispatch _ ideal_flash (ReqMgmt MoSave (FB [] [])) true demo_servo =
  Some (DispDone, mkServo (clear_config_dirty demo_mem) StagedWrites_new None (replicate 16 7)
     (Some (FlashStore_save demo_store (config_of demo_mem) (profile_of demo_mem)
        (assemble 8 (config_of demo_mem) (profile_of demo_mem))).2), [EvStatus RcOk false []]).
Proof.
  rewrite (@save_reply _ ideal_flash demo_servo (FB [] []) demo_servo_ok eq_refl). vm_compute. reflexivity.
Defined.

Lemma read_replies_witness :
  @Dispatcher_dispatch _ ideal_flash (ReqRead 16 2) true demo_servo =
    Some (DispDone, demo_servo, [EvStatus RcOk false [5; 1]]).
Proof.
  assert (bytes_ok demo_mem) as Hb.
  { unfold demo_mem. apply bytes_ok_splice; [unfold demo_config; simpl; repeat constructor; lia|].
    apply Forall_replicate. lia. }
  rewrite (proj1 (@read_replies _ ideal_flash demo_servo 16 2 0 demo_servo_ok Hb ltac:(lia) ltac:(lia))).
  vm_compute. reflexivity.
Defined.
