(* ===== verification/Chain.v ===== *)
(** * Reply sequencing (firmware/lib/drivers/src/bus/chain.rs)

    The chain state machine: a reply staged in slot [k] waits for [k]
    predecessors, each of which either ends its status frame or lets its
    reclaim window expire. *)

From S2P Require Import Prelude.

Inductive ChainOut := CoNone | CoWait (tick : Z) | CoTrigger (predecessor_silent : bool).
#[export] Instance ChainOut_eq_dec : EqDecision ChainOut.
Proof. solve_decision. Defined.

Inductive ChainState := ChIdle | ChPending (silent : bool) | ChWaiting (remaining : Z) (silent : bool).

Record Chain := mkChain {
  ch_state : ChainState; ch_reply_gap : Z; ch_reclaim : Z; ch_allowance : Z;
}.

Definition Chain_new : Chain := mkChain ChIdle 0 0 0.
Definition Chain_active (c : Chain) : bool := match ch_state c with ChIdle => false | _ => true end.
Definition Chain_waiting (c : Chain) : bool := match ch_state c with ChWaiting _ _ => true | _ => false end.
Definition chain_set (c : Chain) (st : ChainState) : Chain :=
  mkChain st (ch_reply_gap c) (ch_reclaim c) (ch_allowance c).
Definition Chain_reset (c : Chain) : Chain := chain_set c ChIdle.

Definition Chain_on_reply_staged (c : Chain) (slot end_ reply_gap reclaim allowance : Z) : ChainOut * Chain :=
  if slot =? 0
  then (CoWait (u32 (end_ + reply_gap)), mkChain (ChPending false) reply_gap reclaim allowance)
  else (CoWait (u32 (u32 (end_ + reply_gap) + reclaim)),
        mkChain (ChWaiting slot false) reply_gap reclaim allowance).

Definition Chain_on_break_observed (c : Chain) (now : Z) : ChainOut * Chain :=
  match ch_state c with
  | ChWaiting _ _ => (CoWait (u32 (now + ch_allowance c)), c)
  | _ => (CoNone, c)
  end.

Definition Chain_on_status_end (c : Chain) (end_ : Z) : ChainOut * Chain :=
  match ch_state c with
  | ChWaiting remaining silent =>
      let remaining := saturating_sub remaining 1 in
      if remaining =? 0
      then (CoWait (u32 (end_ + ch_reply_gap c)), chain_set c (ChPending silent))
      else (CoWait (u32 (u32 (end_ + ch_reply_gap c) + ch_reclaim c)), chain_set c (ChWaiting remaining silent))
  | _ => (CoNone, c)
  end.

Definition Chain_on_deadline (c : Chain) (now : Z) : ChainOut * Chain :=
  match ch_state c with
  | ChPending silent => (CoTrigger silent, chain_set c ChIdle)
  | ChWaiting remaining _ =>
      let remaining := saturating_sub remaining 1 in
      if remaining =? 0 then (CoTrigger true, chain_set c ChIdle)
      else (CoWait (u32 (now + ch_reclaim c)), chain_set c (ChWaiting remaining true))
  | ChIdle => (CoNone, c)
  end.

(** ** Runs *)

(** What can reach the chain between a staging and its trigger. *)
Inductive ChainEv := EvBreak (now : Z) | EvStatusEnd (end_ : Z) | EvDeadline (now : Z).

Definition chain_step (c : Chain) (e : ChainEv) : ChainOut * Chain :=
  match e with
  | EvBreak now => Chain_on_break_observed c now
  | EvStatusEnd end_ => Chain_on_status_end c end_
  | EvDeadline now => Chain_on_deadline c now
  end.

(** The chain after events none of which triggered. *)
Fixpoint chain_quiet_run (c : Chain) (evs : list ChainEv) : option Chain :=
  match evs with
  | [] => Some c
  | e :: evs' =>
      match chain_step c e with
      | (CoTrigger _, _) => None
      | (_, c') => chain_quiet_run c' evs'
      end
  end.

(** Predecessors accounted for, and whether any was reclaimed. *)
Fixpoint settled_count (evs : list ChainEv) : Z :=
  match evs with
  | [] => 0
  | EvBreak _ :: evs' => settled_count evs'
  | _ :: evs' => 1 + settled_count evs'
  end.
Fixpoint reclaimed (evs : list ChainEv) : bool :=
  match evs with [] => false | EvDeadline _ :: _ => true | _ :: evs' => reclaimed evs' end.

(** The state a quiet run is in, from the slot and the counts alone. *)
Definition chain_at (st : ChainState) (k : Z) (n : Z) (silent : bool) : Prop :=
  if k <=? n then st = ChPending silent else st = ChWaiting (k - n) silent.

Lemma settled_nonneg evs : 0 <= settled_count evs.
Proof. induction evs as [|[] evs IH]; simpl; lia. Qed.

Lemma chain_quiet_run_at k evs : forall c n silent c',
  0 <= n -> chain_at (ch_state c) k n silent ->
  chain_quiet_run c evs = Some c' ->
  chain_at (ch_state c') k (n + settled_count evs) (silent || reclaimed evs).
Proof.
  induction evs as [|e evs IH]; intros c n silent c' Hn Hc H; simpl in H.
  { simplify_eq. simpl. by rewrite Z.add_0_r, orb_false_r. }
  unfold chain_at in Hc. pose proof (settled_nonneg evs) as Hs. destruct e as [now|end_|now]; simpl in H |- *.
  - unfold Chain_on_break_observed in H. destruct (k <=? n) eqn:E; rewrite Hc in H;
      eapply IH; try done; unfold chain_at; by rewrite E.
  - unfold Chain_on_status_end in H. destruct (k <=? n) eqn:E; rewrite Hc in H; zbool.
    + replace (n + (1 + settled_count evs)) with ((n + 1) + settled_count evs) by lia.
      eapply IH; [lia| |done]. unfold chain_at. by rewrite (proj2 (Z.leb_le k (n + 1))) by lia.
    + replace (n + (1 + settled_count evs)) with ((n + 1) + settled_count evs) by lia.
      unfold saturating_sub in H. rewrite Z.max_r in H by lia.
      destruct (k - n - 1 =? 0) eqn:E1; zbool; (eapply IH; [lia| |done]); unfold chain_at; simpl.
      * by rewrite (proj2 (Z.leb_le k (n + 1))) by lia.
      * rewrite (proj2 (Z.leb_gt k (n + 1))) by lia. f_equal. lia.
  - unfold Chain_on_deadline in H. destruct (k <=? n) eqn:E; rewrite Hc in H; [done|]; zbool.
    replace (n + (1 + settled_count evs)) with ((n + 1) + settled_count evs) by lia.
    unfold saturating_sub in H. rewrite Z.max_r in H by lia.
    destruct (k - n - 1 =? 0) eqn:E1; zbool; [done|]. rewrite orb_true_r.
    eapply (IH _ (n + 1) true) in H; [by destruct (reclaimed evs)|lia|]. unfold chain_at; simpl.
    rewrite (proj2 (Z.leb_gt k (n + 1))) by lia. f_equal. lia.
Qed.

(** C30: reply slots sequence exactly.  After staging a reply in slot [k] and
    any interleaving of breaks, status ends and deadlines that has not yet
    triggered, the next event triggers the reply if and only if it is a
    deadline and at least [k - 1] predecessors are accounted for; and it reports
    a silent predecessor exactly when some reclaim window expired, this one
    included.  So slot [k] never fires before its [k] predecessors are settled,
    and a silent one cannot stall it. *)
Theorem chain_triggers k end_ gap reclaim allowance evs c e :
  0 <= k ->
  chain_quiet_run (Chain_on_reply_staged Chain_new k end_ gap reclaim allowance).2 evs = Some c ->
  forall b,
  (chain_step c e).1 = CoTrigger b <->
    ((exists now, e = EvDeadline now) /\ k <= settled_count evs + 1 /\
     b = reclaimed evs || (settled_count evs <? k)).
Proof.
  intros Hk H b. eapply (chain_quiet_run_at k evs _ 0 false) in H; [|lia|].
  2: { unfold chain_at, Chain_on_reply_staged. destruct (k =? 0) eqn:E; zbool; simpl.
       - by subst.
       - by rewrite (proj2 (Z.leb_gt k 0)), Z.sub_0_r by lia. }
  rewrite Z.add_0_l, orb_false_l in H. unfold chain_at in H. pose proof (settled_nonneg evs).
  destruct e as [now|en|now]; simpl;
    unfold Chain_on_break_observed, Chain_on_status_end, Chain_on_deadline;
    destruct (k <=? settled_count evs) eqn:E; rewrite H; zbool;
    rewrite ?(proj2 (Z.ltb_ge (settled_count evs) k)), ?(proj2 (Z.ltb_lt (settled_count evs) k)) by lia;
    unfold saturating_sub; try case_goal; simpl; zbool;
    (split; [intros [= <-]|intros ([now' ?] & ? & ->)]); try done; try lia.
  - rewrite orb_false_r. split; [by eexists|]. split; [lia|done].
  - by rewrite orb_false_r.
  - rewrite orb_true_r. split; [by eexists|]. split; [lia|done].
  - by rewrite orb_true_r.
Qed.

Lemma chain_triggers_witness :
  (chain_step (chain_set (Chain_on_reply_staged Chain_new 2 100 12 60 200).2 (ChWaiting 1 true)) (EvDeadline 400)).1 =
  CoTrigger true.
Proof.
  refine (proj2 (chain_triggers 2 100 12 60 200 [EvBreak 150; EvDeadline 300] _ (EvDeadline 400) _ _ true) _).
  - lia.
  - reflexivity.
  - split; [exists 400; reflexivity|]. split; [simpl; lia|reflexivity].
Defined.
