(* ===== verification/Ring.v ===== *)
(** * The receive ring (firmware/lib/drivers/src/bus/mod.rs, traits/bus.rs)

    Ring-index arithmetic, the two-segment view of a frame in the ring and the
    wrap-aware tick comparison, with the meaning of each: an index wraps modulo
    the ring length, and a view reads the ring's bytes onward from its anchor. *)

From S2P Require Import Prelude FrameBytes Wire.

Definition REPLY_GAP_US : Z := 12.
Definition RESCUE_LOW_US : Z := 300.
Definition FRAME_MAX : Z := footprint 255.
Definition SPIN_PER_BYTE : Z := 64.

Definition ring_wrap (i len : Z) : Z := Z.land i (len - 1).

(** [None] is an out-of-range slice, a panic in the source. *)
Definition frame_view (ring : list Z) (anchor footprint : Z) : option FrameBytes :=
  let len := Z.of_nat (length ring) in
  let a := Z.to_nat anchor in
  let n := Z.to_nat footprint in
  if anchor + footprint <=? len then
    s ← get_range ring a (a + n); Some (FrameBytes_from s)
  else
    h ← get_range ring a (length ring);
    t ← get_range ring 0 (n - (length ring - a))%nat; Some (FrameBytes_new h t).

Definition tick_reached (a b : Z) : bool := u32 (a - b) <? 2147483647.

(** ** Meaning *)

(** The source's contract on the ring: a power-of-two length that fits u16. *)
Definition ring_len_ok (len : Z) : Prop := exists k, 3 <= k <= 16 /\ len = 2 ^ k.

Lemma ring_len_pos len : ring_len_ok len -> 8 <= len <= 65536.
Proof.
  intros (k & Hk & ->). split.
  - change 8 with (2 ^ 3). apply Z.pow_le_mono_r; lia.
  - change 65536 with (2 ^ 16). apply Z.pow_le_mono_r; lia.
Qed.

Lemma ring_wrap_mod i len : ring_len_ok len -> ring_wrap i len = i mod len.
Proof.
  intros (k & Hk & ->). unfold ring_wrap. rewrite <- Z.land_ones by lia. f_equal.
  rewrite Z.ones_equiv. lia.
Qed.

(** The [i]-th byte onward from index [a], around the seam. *)
Definition ring_at (ring : list Z) (a i : Z) : Z :=
  default 0 (ring !! Z.to_nat ((a + i) mod Z.of_nat (length ring))).

Definition ring_bytes (ring : list Z) (a : Z) (n : nat) : list Z :=
  (fun i : nat => ring_at ring a (Z.of_nat i)) <$> seq 0 n.

Lemma length_ring_bytes ring a n : length (ring_bytes ring a n) = n.
Proof. unfold ring_bytes. by rewrite length_fmap, length_seq. Qed.

Lemma ring_bytes_lookup ring a n i :
  (i < n)%nat -> ring_bytes ring a n !! i = Some (ring_at ring a (Z.of_nat i)).
Proof. intros H. unfold ring_bytes. by rewrite list_lookup_fmap, lookup_seq_lt. Qed.

Lemma ring_index ring a i :
  0 <= a < Z.of_nat (length ring) -> 0 <= i <= Z.of_nat (length ring) ->
  ring !! Z.to_nat ((a + i) mod Z.of_nat (length ring)) = Some (ring_at ring a i).
Proof.
  intros Ha Hi. unfold ring_at.
  destruct (lookup_lt_is_Some_2 ring (Z.to_nat ((a + i) mod Z.of_nat (length ring)))) as [x E].
  - pose proof (Z.mod_pos_bound (a + i) (Z.of_nat (length ring)) ltac:(lia)). lia.
  - by rewrite E.
Qed.

(** A view taken at any anchor, seam or not, is the ring's bytes onward from it. *)
Lemma frame_view_bytes ring a n :
  0 <= a < Z.of_nat (length ring) -> 0 <= n <= Z.of_nat (length ring) ->
  exists f, frame_view ring a n = Some f /\ FrameBytes_bytes f = ring_bytes ring a (Z.to_nat n).
Proof.
  intros Ha Hn. unfold frame_view. destruct (Z.leb_spec (a + n) (Z.of_nat (length ring))) as [H|H].
  - rewrite get_range_ok by lia. eexists. split; [done|]. unfold FrameBytes_from, FrameBytes_bytes.
    cbn [fb_head fb_tail FrameBytes_new]. rewrite app_nil_r. apply list_eq_same_length with (Z.to_nat n);
      [by rewrite length_ring_bytes|rewrite length_take, length_drop; lia|].
    intros i x y Hi Hx Hy. rewrite ring_bytes_lookup in Hy by done.
    rewrite lookup_take_lt, lookup_drop in Hx by lia. apply (inj Some) in Hy as <-.
    unfold ring_at. rewrite Z.mod_small by lia.
    replace (Z.to_nat (a + Z.of_nat i)) with (Z.to_nat a + i)%nat by lia. by rewrite Hx.
  - rewrite !get_range_ok by lia. eexists. split; [done|]. unfold FrameBytes_bytes.
    cbn [fb_head fb_tail FrameBytes_new]. apply list_eq_same_length with (Z.to_nat n);
      [by rewrite length_ring_bytes|rewrite length_app, !length_take, !length_drop; lia|].
    intros i x y Hi Hx Hy. rewrite ring_bytes_lookup in Hy by done. apply (inj Some) in Hy as <-.
    destruct (decide (i < length ring - Z.to_nat a)%nat).
    + rewrite lookup_app_l in Hx by (rewrite length_take, length_drop; lia).
      rewrite lookup_take_lt, lookup_drop in Hx by lia.
      unfold ring_at. rewrite Z.mod_small by lia.
      replace (Z.to_nat (a + Z.of_nat i)) with (Z.to_nat a + i)%nat by lia. by rewrite Hx.
    + rewrite lookup_app_r in Hx by (rewrite length_take, length_drop; lia).
      rewrite length_take, length_drop in Hx. rewrite lookup_take_lt, lookup_drop in Hx by lia.
      unfold ring_at. replace (a + Z.of_nat i) with (a + Z.of_nat i - Z.of_nat (length ring) + 1 * Z.of_nat (length ring)) by lia.
      rewrite Z.mod_add, Z.mod_small by lia.
      replace (Z.to_nat (a + Z.of_nat i - Z.of_nat (length ring)))
        with (0 + (i - (length ring - Z.to_nat a) `min` (length ring - Z.to_nat a)))%nat by lia.
      by rewrite Hx.
Qed.

(** Two consecutive pieces of the ring, the second past the seam. *)
Lemma ring_pieces ring s n :
  ring_len_ok (Z.of_nat (length ring)) -> 0 <= s <= Z.of_nat (length ring) -> 0 <= n <= Z.of_nat (length ring) ->
  (if s + n <=? Z.of_nat (length ring) then
     get_range ring (Z.to_nat s) (Z.to_nat (s + n)) = Some (ring_bytes ring s (Z.to_nat n))
   else exists x y, get_range ring (Z.to_nat s) (length ring) = Some x /\
          get_range ring 0 (Z.to_nat (s + n - Z.of_nat (length ring))) = Some y /\
          length x = Z.to_nat (Z.of_nat (length ring) - s) /\
          x ++ y = ring_bytes ring s (Z.to_nat n)).
Proof.
  intros Hl Hs Hn. pose proof (ring_len_pos _ Hl). destruct (Z.eq_dec s (Z.of_nat (length ring))) as [->|Hne].
  - replace (Z.to_nat (Z.of_nat (length ring))) with (length ring) by lia.
    assert (ring_bytes ring (Z.of_nat (length ring)) (Z.to_nat n) = ring_bytes ring 0 (Z.to_nat n)) as ->.
    { unfold ring_bytes. apply list_fmap_ext. intros _ i _. unfold ring_at. f_equal. f_equal. f_equal.
      rewrite Z.add_0_l. replace (Z.of_nat (length ring) + Z.of_nat i) with (Z.of_nat i + 1 * Z.of_nat (length ring)) by lia.
      apply Z.mod_add. lia. }
    destruct (frame_view_bytes ring 0 n ltac:(lia) Hn) as (f & Ef & Eb). unfold frame_view in Ef.
    rewrite (proj2 (Z.leb_le (0 + n) (Z.of_nat (length ring)))) in Ef by lia.
    destruct (get_range ring (Z.to_nat 0) (Z.to_nat 0 + Z.to_nat n)) as [x|] eqn:Ex; [|done].
    cbn in Ef. apply (inj Some) in Ef as <-. unfold FrameBytes_bytes, FrameBytes_from in Eb. cbn in Eb.
    rewrite app_nil_r in Eb. destruct (Z.leb_spec (Z.of_nat (length ring) + n) (Z.of_nat (length ring))).
    + assert (n = 0) as -> by lia. rewrite Z.add_0_r, Nat2Z.id. rewrite get_range_ok by lia.
      by rewrite Nat.sub_diag.
    + exists [], x. rewrite get_range_ok, Nat.sub_diag by lia. split; [done|].
      replace (Z.to_nat (Z.of_nat (length ring) + n - Z.of_nat (length ring))) with (Z.to_nat n) by lia.
      split; [exact Ex|]. split; [simpl; lia|done].
  - destruct (frame_view_bytes ring s n ltac:(lia) Hn) as (f & Ef & Eb). unfold frame_view in Ef.
    destruct (Z.leb_spec (s + n) (Z.of_nat (length ring))).
    + rewrite Z2Nat.inj_add by lia. destruct (get_range _ _ _) as [x|]; [|done].
      cbn in Ef. apply (inj Some) in Ef as <-. unfold FrameBytes_bytes, FrameBytes_from in Eb. cbn in Eb.
      by rewrite app_nil_r in Eb; rewrite Eb.
    + destruct (get_range ring (Z.to_nat s) (length ring)) as [x|] eqn:Ex; [|done]. cbn in Ef.
      replace (Z.to_nat n - (length ring - Z.to_nat s))%nat with (Z.to_nat (s + n - Z.of_nat (length ring))) in Ef by lia.
      destruct (get_range ring 0 _) as [y|]; [|done]. apply (inj Some) in Ef as <-.
      exists x, y. split; [done|]. split; [done|]. split; [|exact Eb].
      apply get_range_length in Ex. lia.
Qed.

Lemma ring_bytes_mod ring a n : ring_bytes ring (a mod Z.of_nat (length ring)) n = ring_bytes ring a n.
Proof.
  unfold ring_bytes. apply list_fmap_ext. intros _ i _. unfold ring_at. by rewrite Zplus_mod_idemp_l.
Qed.

Lemma ring_bytes_S ring a n : ring_bytes ring a (S n) = ring_at ring a 0 :: ring_bytes ring (a + 1) n.
Proof.
  unfold ring_bytes. cbn [seq fmap list_fmap]. f_equal. rewrite <- fmap_S_seq, <- list_fmap_compose.
  apply list_fmap_ext. intros _ i _. unfold compose, ring_at. do 4 f_equal. lia.
Qed.

Lemma ring_bytes_snoc ring a n : ring_bytes ring a (S n) = ring_bytes ring a n ++ [ring_at ring a (Z.of_nat n)].
Proof. unfold ring_bytes. by rewrite seq_S, fmap_app. Qed.

Lemma ring_bytes_ok ring a n : bytes_ok ring -> bytes_ok (ring_bytes ring a n).
Proof.
  intros Hr. apply Forall_fmap, Forall_true. intros i. unfold compose, ring_at.
  destruct (ring !! _) as [x|] eqn:Ex; simpl; [|lia]. by apply (bytes_ok_lookup _ _ _ Hr Ex).
Qed.

(** ** Moving along the ring *)

Section along.
Context (ring : list Z).
#[local] Abbreviation len := (Z.of_nat (length ring)).
Context (Hlen : ring_len_ok len).
#[local] Set Default Proof Using "All".

Lemma ring_wrap_u16 i : u16 (ring_wrap i len) = i mod len.
Proof.
  pose proof (ring_len_pos _ Hlen). rewrite ring_wrap_mod by done.
  apply u16_id. pose proof (Z.mod_pos_bound i len ltac:(lia)). lia.
Qed.

Lemma zget_ring_wrap a i : 0 <= a < len -> 0 <= i <= len ->
  zget ring (ring_wrap (a + i) len) = Some (ring_at ring a i).
Proof.
  intros Ha Hi. pose proof (ring_len_pos _ Hlen). rewrite ring_wrap_mod by done. unfold zget.
  pose proof (Z.mod_pos_bound (a + i) len ltac:(lia)).
  rewrite (proj2 (Z.ltb_ge ((a + i) mod len) 0)) by lia.
  by apply ring_index.
Qed.

Lemma zget_ring a : 0 <= a < len -> zget ring a = Some (ring_at ring a 0).
Proof.
  intros Ha. pose proof (ring_len_pos _ Hlen). rewrite <- (zget_ring_wrap a 0) by lia.
  by rewrite Z.add_0_r, ring_wrap_mod, Z.mod_small by done.
Qed.

Lemma ring_at_shift a k i : ring_at ring ((a + k) mod len) i = ring_at ring a (k + i).
Proof.
  unfold ring_at. rewrite Zplus_mod_idemp_l. by rewrite Z.add_assoc.
Qed.

Lemma ring_rem_step cursor a k :
  0 <= k <= (cursor - a) mod len -> (cursor - (a + k) mod len) mod len = (cursor - a) mod len - k.
Proof.
  intros Hk. pose proof (ring_len_pos _ Hlen).
  pose proof (Z.mod_pos_bound (cursor - a) len ltac:(lia)).
  rewrite Zminus_mod_idemp_r. replace (cursor - (a + k)) with ((cursor - a) - k) by lia.
  rewrite <- (Zminus_mod_idemp_l (cursor - a)). apply Z.mod_small. lia.
Qed.

Lemma ring_bytes_app a n m :
  ring_bytes ring a (n + m) = ring_bytes ring a n ++ ring_bytes ring ((a + Z.of_nat n) mod len) m.
Proof.
  apply list_eq. intros i. destruct (decide (i < n)%nat).
  - rewrite lookup_app_l by (by rewrite length_ring_bytes). by rewrite !ring_bytes_lookup by lia.
  - rewrite lookup_app_r by (rewrite length_ring_bytes; lia). rewrite length_ring_bytes.
    destruct (decide (i < n + m)%nat).
    + rewrite !ring_bytes_lookup by lia. rewrite ring_at_shift. do 2 f_equal. lia.
    + rewrite !lookup_ge_None_2; rewrite ?length_ring_bytes; [done|lia..].
Qed.
End along.

(** ** Ticks *)

Lemma u32_sub_l a b : u32 (u32 a - b) = u32 (a - b).
Proof. unfold u32. apply Zminus_mod_idemp_l. Qed.
Lemma u32_sub_r a b : u32 (a - u32 b) = u32 (a - b).
Proof. unfold u32. apply Zminus_mod_idemp_r. Qed.
Lemma u32_tri a b c : u32 (a - c) = u32 (u32 (a - b) + u32 (b - c)).
Proof. unfold u32. rewrite <- Zplus_mod. f_equal. lia. Qed.

(** A deadline [g] ticks after [p] is reached at [now] exactly when [g] ticks
    have gone by, for any span well inside half the tick range. *)
Lemma tick_reached_after now p g :
  0 <= g < 2 ^ 30 -> u32 (now - p) < 2 ^ 30 + g ->
  tick_reached now (u32 (p + g)) = (g <=? u32 (now - p)).
Proof.
  change (2 ^ 30) with 1073741824. intros Hg He. unfold tick_reached. rewrite u32_sub_r.
  pose proof (u32_range (now - p)) as Hr.
  replace (u32 (now - (p + g))) with (u32 (u32 (now - p) - g))
    by (rewrite u32_sub_l; f_equal; lia).
  set (e := u32 (now - p)) in *. destruct (Z.leb_spec g e).
  - rewrite u32_id by lia. apply Z.ltb_lt. lia.
  - assert (u32 (e - g) = e - g + 4294967296) as -> by (unfold u32; zmod). apply Z.ltb_ge. lia.
Qed.
