(* ===== verification/Deadline.v ===== *)
(** * The deadline providers (firmware/servo-ch32/src/providers/deadline.rs,
      firmware/host-ch32/src/providers/deadline.rs and their hal/systick)

    The transports sleep on one deadline: a free-running counter, an
    equality-only compare with its latch, and a software pend for a deadline
    that was already passed when it was armed.  The counter runs on between any
    two register accesses, so every operation takes the ticks that go by before
    each of its accesses.  The theorems: an armed deadline is never lost,
    whatever those ticks are. *)

From S2P Require Import Prelude Wire Ring.

(** ** The servo's SysTick: 32 bits (hal/systick/rv2.rs, hal/pfic/rv2.rs) *)

Record SysTick := mkTickUnit {
  sk_cnt : Z; sk_cmp : Z; sk_stie : bool; sk_cntif : bool;
  sk_pend : bool  (* the vector's software pend *) }.

(** One clock tick: the latch sets when the count reaches the compare. *)
Definition sk_tick (s : SysTick) : SysTick :=
  let cnt := u32 (sk_cnt s + 1) in
  mkTickUnit cnt (sk_cmp s) (sk_stie s) (sk_cntif s || (cnt =? sk_cmp s)) (sk_pend s).
Definition sk_run (n : nat) (s : SysTick) : SysTick := Nat.iter n sk_tick s.
(** The vector is due. *)
Definition sk_irq (s : SysTick) : bool := (sk_cntif s && sk_stie s) || sk_pend s.

Definition systick_init (s : SysTick) : SysTick :=
  mkTickUnit 0 4294967295 false (sk_cntif s) (sk_pend s).
Definition systick_ticks (s : SysTick) : Z := sk_cnt s.
Definition systick_set_cmp (v : Z) (s : SysTick) : SysTick :=
  mkTickUnit (sk_cnt s) v (sk_stie s) (sk_cntif s) (sk_pend s).
Definition systick_set_irq (b : bool) (s : SysTick) : SysTick :=
  mkTickUnit (sk_cnt s) (sk_cmp s) b (sk_cntif s) (sk_pend s).
Definition systick_matched (s : SysTick) : bool := sk_cntif s.
Definition systick_clear_match (s : SysTick) : SysTick :=
  mkTickUnit (sk_cnt s) (sk_cmp s) (sk_stie s) false (sk_pend s).
Definition pend_systick (s : SysTick) : SysTick :=
  mkTickUnit (sk_cnt s) (sk_cmp s) (sk_stie s) (sk_cntif s) true.
(** Entering the vector takes the software pend. *)
Definition sk_enter (s : SysTick) : SysTick :=
  mkTickUnit (sk_cnt s) (sk_cmp s) (sk_stie s) (sk_cntif s) false.

(** Ticks before each access of [set]: the four stores, the two reads, the pend. *)
Record SetGaps := mkGaps { g_off : nat; g_clear : nat; g_cmp : nat; g_on : nat; g_now : nat; g_match : nat; g_pend : nat }.

Definition Deadline_set (g : SetGaps) (at_ : Z) (s : SysTick) : SysTick :=
  let s := systick_set_irq false (sk_run (g_off g) s) in
  let s := systick_clear_match (sk_run (g_clear g) s) in
  let s := systick_set_cmp at_ (sk_run (g_cmp g) s) in
  let s := systick_set_irq true (sk_run (g_on g) s) in
  let s := sk_run (g_now g) s in
  if tick_reached (systick_ticks s) at_ then
    let s := sk_run (g_match g) s in
    if negb (systick_matched s) then pend_systick (sk_run (g_pend g) s) else s
  else s.
Definition Deadline_cancel (s : SysTick) : SysTick := systick_set_irq false s.

(** The vector's body before the bus runs (runtime/isr.rs). *)
Definition on_deadline_irq_enter (s : SysTick) : SysTick := systick_clear_match (sk_enter s).

(** ** Running the counter *)

Lemma sk_run_S n s : sk_run (S n) s = sk_tick (sk_run n s).
Proof. done. Qed.
Lemma sk_run_add n m s : sk_run (n + m) s = sk_run m (sk_run n s).
Proof. unfold sk_run. by rewrite Nat.add_comm, Nat.iter_add. Qed.
Lemma sk_run_cmp n s : sk_cmp (sk_run n s) = sk_cmp s.
Proof. induction n; [done|]. by rewrite sk_run_S. Qed.
Lemma sk_run_stie n s : sk_stie (sk_run n s) = sk_stie s.
Proof. induction n; [done|]. by rewrite sk_run_S. Qed.
Lemma sk_run_pend n s : sk_pend (sk_run n s) = sk_pend s.
Proof. induction n; [done|]. by rewrite sk_run_S. Qed.
Lemma sk_run_cnt n s : is_u32 (sk_cnt s) -> sk_cnt (sk_run n s) = u32 (sk_cnt s + Z.of_nat n).
Proof.
  intros H. induction n as [|n IH]; [rewrite Z.add_0_r, u32_id; done|].
  rewrite sk_run_S. unfold sk_tick. cbn [sk_cnt]. rewrite IH. unfold u32. rewrite Zplus_mod_idemp_l. f_equal. lia.
Qed.
Lemma sk_run_range n s : is_u32 (sk_cnt s) -> is_u32 (sk_cnt (sk_run n s)).
Proof. intros H. rewrite sk_run_cnt by done. apply u32_range. Qed.
(** A latch stays until it is cleared. *)
Lemma sk_run_latched n s : sk_cntif s = true -> sk_cntif (sk_run n s) = true.
Proof. intros H. induction n as [|n IH]; [done|]. rewrite sk_run_S. unfold sk_tick. cbn. by rewrite IH. Qed.
Lemma sk_run_irq n s : sk_irq s = true -> sk_irq (sk_run n s) = true.
Proof.
  unfold sk_irq. rewrite sk_run_stie, sk_run_pend. intros H. apply orb_true_iff in H as [H| ->]; [|by rewrite orb_true_r].
  apply andb_true_iff in H as [H ->]. by rewrite sk_run_latched.
Qed.

(** The compare latches exactly when the count gets there. *)
Lemma sk_run_match s n : is_u32 (sk_cnt s) -> is_u32 (sk_cmp s) -> (0 < n)%nat ->
  u32 (sk_cnt s + Z.of_nat n) = sk_cmp s -> sk_cntif (sk_run n s) = true.
Proof.
  intros Hc Hm Hn E. destruct n as [|n]; [lia|]. rewrite sk_run_S. unfold sk_tick. cbn [sk_cntif].
  rewrite sk_run_cnt, sk_run_cmp by done. apply orb_true_iff. right. apply Z.eqb_eq. rewrite <- E.
  unfold u32. rewrite Zplus_mod_idemp_l. f_equal. lia.
Qed.
(** And not before. *)
Lemma sk_run_quiet s n : is_u32 (sk_cnt s) -> sk_cntif s = false ->
  (forall k, (0 < k <= n)%nat -> u32 (sk_cnt s + Z.of_nat k) <> sk_cmp s) -> sk_cntif (sk_run n s) = false.
Proof.
  intros Hc Hf H. induction n as [|n IH]; [done|]. rewrite sk_run_S. unfold sk_tick. cbn [sk_cntif].
  rewrite IH by (intros k Hk; apply H; lia). rewrite sk_run_cnt, sk_run_cmp by done. apply Z.eqb_neq.
  specialize (H (S n) ltac:(lia)). intros E. apply H. rewrite <- E. unfold u32. rewrite Zplus_mod_idemp_l. f_equal. lia.
Qed.

Lemma u32_ahead c a : is_u32 c -> is_u32 a -> u32 (c + u32 (a - c)) = a.
Proof. intros Hc Ha. unfold u32. zmod. Qed.
Lemma not_reached_ahead c a : is_u32 c -> is_u32 a -> tick_reached c a = false -> 0 < u32 (a - c) <= 2147483649.
Proof. intros Hc Ha. unfold tick_reached. rewrite Z.ltb_ge. unfold u32. zmod. Qed.

(** C10: an armed deadline is never lost.  Whatever the counter does between the
    register accesses of [set], and whatever was latched before, a deadline that
    the count has reached when [set] returns, by the half-range comparison the
    code makes ([tick_reached]), is due then, and either the vector is due at
    once and stays due until it is taken, or the deadline is still ahead, at most
    2^31 + 1 ticks away, and the vector is due when the count reaches it and
    from then on until it is taken. *)
Theorem deadline_never_lost g at_ s :
  is_u32 (sk_cnt s) -> is_u32 at_ ->
  let s' := Deadline_set g at_ s in
  sk_cmp s' = at_ /\ sk_stie s' = true /\
  (tick_reached (sk_cnt s') at_ = true -> sk_irq s' = true) /\
  ((forall m, sk_irq (sk_run m s') = true) \/
   tick_reached (sk_cnt s') at_ = false /\
   exists n, (0 < n)%nat /\ Z.of_nat n = u32 (at_ - sk_cnt s') /\ Z.of_nat n <= 2147483649 /\
     sk_cnt (sk_run n s') = at_ /\ forall m, sk_irq (sk_run (n + m) s') = true).
Proof.
  intros Hc Ha. unfold Deadline_set.
  set (s4 := sk_run (g_now g) _). assert (Hcmp : sk_cmp s4 = at_) by (subst s4; by rewrite sk_run_cmp; cbn; rewrite sk_run_cmp).
  assert (Hst : sk_stie s4 = true) by (subst s4; by rewrite sk_run_stie).
  assert (Hr : is_u32 (sk_cnt s4)).
  { subst s4. repeat (apply sk_run_range; cbn [systick_set_irq systick_set_cmp systick_clear_match sk_cnt]). done. }
  clearbody s4. unfold systick_ticks. destruct (tick_reached (sk_cnt s4) at_) eqn:E; cbv zeta.
  - unfold systick_matched. destruct (sk_cntif (sk_run (g_match g) s4)) eqn:M; cbn [negb].
    + rewrite sk_run_cmp, sk_run_stie. split; [done|]. split; [done|].
      assert (sk_irq (sk_run (g_match g) s4) = true) by (unfold sk_irq; by rewrite M, sk_run_stie, Hst).
      split; [done|]. left. intros m. by apply sk_run_irq.
    + cbn [pend_systick sk_cmp sk_stie]. rewrite !sk_run_cmp, !sk_run_stie. split; [done|]. split; [done|].
      assert (sk_irq (pend_systick (sk_run (g_pend g) (sk_run (g_match g) s4))) = true) by (unfold sk_irq; cbn; by rewrite orb_true_r).
      split; [done|]. left. intros m. by apply sk_run_irq.
  - split; [done|]. split; [done|]. split; [congruence|]. right. split; [done|].
    assert (Hn := not_reached_ahead _ _ Hr Ha E). exists (Z.to_nat (u32 (at_ - sk_cnt s4))).
    split; [lia|]. split; [lia|]. split; [lia|].
    assert (Hat : u32 (sk_cnt s4 + Z.of_nat (Z.to_nat (u32 (at_ - sk_cnt s4)))) = at_)
      by (rewrite Z2Nat.id by lia; by apply u32_ahead).
    split; [by rewrite sk_run_cnt|]. intros m. rewrite sk_run_add.
    apply (sk_run_irq m). unfold sk_irq. rewrite (sk_run_match s4); [|done|congruence|lia|congruence].
    by rewrite sk_run_stie, Hst.
Qed.

Lemma deadline_never_lost_witness :
  let s := mkTickUnit 1000 5 true true false in
  let s' := Deadline_set (mkGaps 1 1 3 4 2 1 1) 1005 s in
  is_u32 1000 /\ is_u32 1005 /\ sk_cnt s' = 1013 /\ sk_cmp s' = 1005 /\ sk_irq s' = true.
Proof.
  intros s s'. split; [lia|]. split; [lia|]. split; [vm_compute; reflexivity|].
  destruct (deadline_never_lost (mkGaps 1 1 3 4 2 1 1) 1005 s) as (H1 & _ & Hdue & _); [simpl; lia|lia|].
  split; [exact H1|]. apply Hdue. vm_compute. reflexivity.
Defined.

(** After the vector has run and armed nothing, it is quiet until the count
    comes around to the compare again. *)
Theorem deadline_taken s n :
  is_u32 (sk_cnt s) -> is_u32 (sk_cmp s) ->
  Z.of_nat n < u32 (sk_cmp s - sk_cnt s) \/ (sk_cmp s = sk_cnt s /\ Z.of_nat n < 4294967296) ->
  sk_irq (sk_run n (on_deadline_irq_enter s)) = false.
Proof.
  intros Hc Hm Hn. unfold sk_irq. rewrite sk_run_pend. cbn [on_deadline_irq_enter systick_clear_match sk_enter sk_pend].
  rewrite sk_run_quiet; [done|done|done|]. intros k Hk. cbn. unfold u32 in *. destruct Hn as [Hn|[E Hn]]; zmod.
Qed.

(** A cancelled deadline does not wake the vector. *)
Theorem deadline_cancelled s n : sk_pend s = false -> sk_irq (sk_run n (Deadline_cancel s)) = false.
Proof. intros H. unfold sk_irq. rewrite sk_run_stie, sk_run_pend. cbn. by rewrite H, andb_false_r. Qed.

(** ** The host's SysTick: 64 bits, deadlines on the low word
    (host-ch32/src/hal/systick.rs) *)

Record HostTick := mkHostTick { hk_cnt : Z; hk_cmp : Z; hk_stie : bool; hk_cntif : bool; hk_pend : bool }.
Definition u64 (x : Z) : Z := x mod 18446744073709551616.
Definition hk_tick (s : HostTick) : HostTick :=
  let cnt := u64 (hk_cnt s + 1) in
  mkHostTick cnt (hk_cmp s) (hk_stie s) (hk_cntif s || (cnt =? hk_cmp s)) (hk_pend s).
Definition hk_run (n : nat) (s : HostTick) : HostTick := Nat.iter n hk_tick s.
Definition hk_irq (s : HostTick) : bool := (hk_cntif s && hk_stie s) || hk_pend s.

Definition hk_cntl (s : HostTick) : Z := u32 (hk_cnt s).
Definition hk_cnth (s : HostTick) : Z := Z.shiftr (hk_cnt s) 32.
Definition host_set_irq (b : bool) (s : HostTick) : HostTick :=
  mkHostTick (hk_cnt s) (hk_cmp s) b (hk_cntif s) (hk_pend s).
Definition host_clear_match (s : HostTick) : HostTick :=
  mkHostTick (hk_cnt s) (hk_cmp s) (hk_stie s) false (hk_pend s).
Definition host_pend_systick (s : HostTick) : HostTick :=
  mkHostTick (hk_cnt s) (hk_cmp s) (hk_stie s) (hk_cntif s) true.
Definition host_write_cmp (v : Z) (s : HostTick) : HostTick :=
  mkHostTick (hk_cnt s) v (hk_stie s) (hk_cntif s) (hk_pend s).

(** Ticks before the reads of the count's halves and before the store. *)
Record CmpGaps := mkCmpGaps { cg_high : nat; cg_low : nat; cg_high2 : nat; cg_low2 : nat; cg_store : nat }.
Definition set_cmp_low (g : CmpGaps) (at_ : Z) (s : HostTick) : HostTick :=
  let s := hk_run (cg_high g) s in
  let high := hk_cnth s in
  let s := hk_run (cg_low g) s in
  let low := hk_cntl s in
  let s := hk_run (cg_high2 g) s in
  let high2 := hk_cnth s in
  let '(high, low, s) :=
    if high2 =? high then (high, low, s)
    else let s := hk_run (cg_low2 g) s in (high2, hk_cntl s, s) in
  let epoch := if low <? at_ then high else u32 (high + 1) in
  host_write_cmp (Z.lor (Z.shiftl epoch 32) at_) (hk_run (cg_store g) s).

Definition Host_Deadline_set (g : SetGaps) (cg : CmpGaps) (at_ : Z) (s : HostTick) : HostTick :=
  let s := host_set_irq false (hk_run (g_off g) s) in
  let s := host_clear_match (hk_run (g_clear g) s) in
  let s := set_cmp_low cg at_ (hk_run (g_cmp g) s) in
  let s := host_set_irq true (hk_run (g_on g) s) in
  let s := hk_run (g_now g) s in
  if tick_reached (hk_cntl s) at_ then
    let s := hk_run (g_match g) s in
    if negb (hk_cntif s) then host_pend_systick (hk_run (g_pend g) s) else s
  else s.
Definition Host_Deadline_cancel (s : HostTick) : HostTick := host_set_irq false s.

Lemma hk_run_S n s : hk_run (S n) s = hk_tick (hk_run n s).
Proof. done. Qed.
Lemma hk_run_add n m s : hk_run (n + m) s = hk_run m (hk_run n s).
Proof. unfold hk_run. by rewrite Nat.add_comm, Nat.iter_add. Qed.
Lemma hk_run_cmp n s : hk_cmp (hk_run n s) = hk_cmp s.
Proof. induction n; [done|]. by rewrite hk_run_S. Qed.
Lemma hk_run_stie n s : hk_stie (hk_run n s) = hk_stie s.
Proof. induction n; [done|]. by rewrite hk_run_S. Qed.
Lemma hk_run_pend n s : hk_pend (hk_run n s) = hk_pend s.
Proof. induction n; [done|]. by rewrite hk_run_S. Qed.
Lemma hk_run_latched n s : hk_cntif s = true -> hk_cntif (hk_run n s) = true.
Proof. intros H. induction n as [|n IH]; [done|]. rewrite hk_run_S. unfold hk_tick. cbn. by rewrite IH. Qed.
(** While the 64-bit count does not wrap it is a plain sum. *)
Lemma hk_run_cnt n s : 0 <= hk_cnt s -> hk_cnt s + Z.of_nat n < 18446744073709551616 ->
  hk_cnt (hk_run n s) = hk_cnt s + Z.of_nat n.
Proof.
  intros H0 H. induction n as [|n IH]; [simpl; lia|]. rewrite hk_run_S. unfold hk_tick. cbn [hk_cnt].
  rewrite IH by lia. unfold u64. rewrite Z.mod_small; lia.
Qed.
Lemma hk_run_match s n : 0 <= hk_cnt s -> hk_cnt s + Z.of_nat n < 18446744073709551616 -> (0 < n)%nat ->
  hk_cnt s + Z.of_nat n = hk_cmp s -> hk_cntif (hk_run n s) = true.
Proof.
  intros H0 Hb Hn E. destruct n as [|n]; [lia|]. rewrite hk_run_S. unfold hk_tick. cbn [hk_cntif].
  rewrite hk_run_cnt, hk_run_cmp by lia. apply orb_true_iff. right. apply Z.eqb_eq. unfold u64. rewrite Z.mod_small; lia.
Qed.

Definition P32 : Z := 4294967296.
Definition cg_total (g : CmpGaps) : Z :=
  Z.of_nat (cg_high g) + Z.of_nat (cg_low g) + Z.of_nat (cg_high2 g) + Z.of_nat (cg_low2 g) + Z.of_nat (cg_store g).

(** [v] is the first count after [t] whose low word is [at_]. *)
Definition next_low (t at_ v : Z) : Prop := t < v <= t + P32 /\ v mod P32 = at_.

Lemma next_low_unique t at_ v w : next_low t at_ v -> next_low t at_ w -> v = w.
Proof. unfold next_low, P32. intros [Hv Ev] [Hw Ew]. zmod. Qed.

Lemma cnth_shiftr x : Z.shiftr x 32 = x / P32.
Proof. rewrite Z.shiftr_div_pow2 by lia. done. Qed.

(** The compare value composed from a consistent reading of both words. *)
Lemma epoch_next t at_ : 0 <= t -> is_u32 at_ -> t + P32 < 18446744073709551616 ->
  next_low t at_ (Z.lor (Z.shiftl (if u32 t <? at_ then t / P32 else u32 (t / P32 + 1)) 32) at_).
Proof.
  intros H0 Ha Hb. unfold P32 in *.
  assert (forall e, 0 <= e -> Z.lor (Z.shiftl e 32) at_ = e * 4294967296 + at_) as Hlor.
  { intros e He. rewrite Z.lor_comm, (lor_shiftl_add 32) by (try lia; change (2 ^ 32) with 4294967296; lia).
    change (2 ^ 32) with 4294967296. lia. }
  assert (Hd : t = t / 4294967296 * 4294967296 + t mod 4294967296) by zmod.
  assert (Hm : 0 <= t mod 4294967296 < 4294967296) by (apply Z.mod_pos_bound; lia).
  assert (Hq : 0 <= t / 4294967296 < 4294967295) by zmod.
  unfold next_low, u32. destruct (t mod 4294967296 <? at_) eqn:E; zbool.
  - rewrite Hlor by lia. split; [unfold P32; lia|]. unfold P32. rewrite Z.add_comm, Z_mod_plus_full. apply Z.mod_small. lia.
  - rewrite (Z.mod_small (t / 4294967296 + 1)), Hlor by lia. split; [unfold P32; lia|]. unfold P32.
    rewrite Z.add_comm, Z_mod_plus_full. apply Z.mod_small. lia.
Qed.

(** The guarded pair of reads is consistent, wherever the carry falls: the
    compare is the next occurrence of [at_] after some instant of the call. *)
Lemma set_cmp_low_next g at_ s : 0 <= hk_cnt s -> is_u32 at_ -> cg_total g < P32 ->
  hk_cnt s + cg_total g + P32 < 18446744073709551616 ->
  let s' := set_cmp_low g at_ s in
  hk_stie s' = hk_stie s /\ hk_pend s' = hk_pend s /\
  hk_cnt s <= hk_cnt s' <= hk_cnt s + cg_total g /\
  exists t, hk_cnt s <= t <= hk_cnt s' /\ next_low t at_ (hk_cmp s').
Proof.
  intros H0 Ha Hg Hb. unfold set_cmp_low, hk_cnth, hk_cntl. rewrite !cnth_shiftr. unfold cg_total in *.
  rewrite <- !hk_run_add. unfold P32 in *.
  set (n1 := cg_high g) in *. set (n2 := cg_low g) in *. set (n3 := cg_high2 g) in *.
  set (n4 := cg_low2 g) in *. set (n5 := cg_store g) in *.
  rewrite !hk_run_cnt by lia.
  destruct (_ =? _) eqn:E; zbool; cbv zeta.
  - cbn [host_write_cmp hk_stie hk_pend hk_cnt hk_cmp]. rewrite <- hk_run_add.
    rewrite hk_run_stie, hk_run_pend, hk_run_cnt by lia. split; [done|]. split; [done|]. split; [lia|].
    exists (hk_cnt s + Z.of_nat (n1 + n2)). split; [lia|].
    replace ((hk_cnt s + Z.of_nat n1) / 4294967296) with ((hk_cnt s + Z.of_nat (n1 + n2)) / P32) by (unfold P32; zmod).
    apply epoch_next; unfold P32; lia.
  - cbn [host_write_cmp hk_stie hk_pend hk_cnt hk_cmp]. rewrite <- !hk_run_add.
    rewrite hk_run_stie, hk_run_pend, !hk_run_cnt by lia. split; [done|]. split; [done|]. split; [lia|].
    exists (hk_cnt s + Z.of_nat (n1 + (n2 + n3) + n4)). split; [lia|].
    replace ((hk_cnt s + Z.of_nat (n1 + (n2 + n3))) / 4294967296)
      with ((hk_cnt s + Z.of_nat (n1 + (n2 + n3) + n4)) / P32) by (unfold P32; zmod).
    apply epoch_next; unfold P32; lia.
Qed.

Definition set_total (g : SetGaps) (cg : CmpGaps) : Z :=
  Z.of_nat (g_off g) + Z.of_nat (g_clear g) + Z.of_nat (g_cmp g) + cg_total cg + Z.of_nat (g_on g) +
  Z.of_nat (g_now g) + Z.of_nat (g_match g) + Z.of_nat (g_pend g).

(** The host's deadlines are never lost either, the carry into the high word
    included: the 64-bit compare is the next time the low word is [at_], or the
    vector is due at once. *)
Theorem host_deadline_never_lost g cg at_ s :
  0 <= hk_cnt s -> is_u32 at_ -> set_total g cg <= 2147483646 ->
  hk_cnt s + 17179869184 < 18446744073709551616 ->
  let s' := Host_Deadline_set g cg at_ s in
  hk_irq s' = true \/
  tick_reached (hk_cntl s') at_ = false /\
  exists n, (0 < n)%nat /\ Z.of_nat n = u32 (at_ - hk_cntl s') /\ hk_cntl (hk_run n s') = at_ /\
    hk_irq (hk_run n s') = true.
Proof.
  intros H0 Ha Hg Hb. unfold set_total in Hg. assert (0 <= cg_total cg) by (unfold cg_total; lia).
  unfold Host_Deadline_set.
  set (s0 := hk_run (g_cmp g) _).
  assert (Hc0 : hk_cnt s <= hk_cnt s0 <= hk_cnt s + 2147483646 - cg_total cg - Z.of_nat (g_on g) - Z.of_nat (g_now g)).
  { subst s0. rewrite hk_run_cnt; cbn [host_clear_match host_set_irq hk_cnt]; rewrite ?hk_run_cnt;
      cbn [host_clear_match host_set_irq hk_cnt]; rewrite ?hk_run_cnt; lia. }
  clearbody s0. destruct (set_cmp_low_next cg at_ s0) as (_ & _ & Hc1 & t & Ht & Hn);
    [lia|done|unfold P32; lia|unfold P32; lia|]. cbv zeta in *.
  set (s1 := set_cmp_low cg at_ s0) in *. clearbody s1.
  set (s4 := hk_run (g_now g) _).
  assert (Hst : hk_stie s4 = true) by (subst s4; by rewrite hk_run_stie).
  assert (Hcmp : hk_cmp s4 = hk_cmp s1) by (subst s4; rewrite hk_run_cmp; cbn; by rewrite hk_run_cmp).
  assert (Hc4 : hk_cnt s1 <= hk_cnt s4 <= hk_cnt s1 + Z.of_nat (g_on g) + Z.of_nat (g_now g)).
  { subst s4. rewrite hk_run_cnt; cbn [host_set_irq hk_cnt]; rewrite ?hk_run_cnt; lia. }
  clearbody s4. destruct (tick_reached (hk_cntl s4) at_) eqn:E.
  - left. unfold hk_irq. destruct (hk_cntif (hk_run (g_match g) s4)) eqn:M; cbn [negb].
    + by rewrite M, hk_run_stie, Hst.
    + cbn [host_pend_systick hk_pend]. by rewrite orb_true_r.
  - right. split; [done|].
    assert (Hlo : is_u32 (hk_cntl s4)) by apply u32_range.
    assert (Hah := not_reached_ahead _ _ Hlo Ha E). exists (Z.to_nat (u32 (at_ - hk_cntl s4))).
    assert (Hv : hk_cnt s4 + u32 (at_ - hk_cntl s4) = hk_cmp s1).
    { eapply next_low_unique; [|exact Hn]. split; [unfold P32; lia|].
      unfold hk_cntl, u32, P32 in *. zmod. }
    split; [lia|]. split; [lia|]. split.
    + unfold hk_cntl at 1. rewrite hk_run_cnt, Z2Nat.id, Hv by lia. destruct Hn as [_ <-]. done.
    + unfold hk_irq. rewrite (hk_run_match s4) by lia. by rewrite hk_run_stie, Hst.
Qed.
