(* ===== verification/Trim.v ===== *)
(** * The clock-trim controller (firmware/lib/drivers/src/bus/trim.rs)

    The restoring division [ppm], the controller [TrimLoop] and its one
    operation [on_window].  The theorems: the division is exact on its domain
    and saturates outside it; the controller in closed loop with a noiseless
    plant settles within six windows and stays settled. *)

From S2P Require Import Prelude.

Definition STEP_PPM_MIN : Z := 800.
Definition STEP_PPM_MAX : Z := 4000.
Definition STEPS_MAX : Z := 4.
Definition TOTAL_MAX : Z := 15.

(** ** Restoring division

    [err] is an i32, [span] a u32; the u64 intermediates stay below 2^52.  The
    loop clears [bit] in twenty rounds, so twenty-one units of fuel reach its
    exit test. *)
Fixpoint ppm_loop (fuel : nat) (rem q dshift bit : Z) : Z :=
  match fuel with
  | O => q
  | S fuel' =>
      if bit =? 0 then q
      else
        let '(rem, q) := if dshift <=? rem then (rem - dshift, Z.lor q bit) else (rem, q) in
        ppm_loop fuel' rem q (Z.shiftr dshift 1) (Z.shiftr bit 1)
  end.

Definition ppm (err span : Z) : Z :=
  let neg := err <? 0 in
  let rem := Z.abs err * 1000000 in
  let '(q, rem) := if Z.shiftl span 20 <=? rem then (2 ^ 20 - 1, 0) else (0, rem) in
  let q := ppm_loop 21 rem q (Z.shiftl span 19) (2 ^ 19) in
  if neg then - q else q.

(** ** The controller *)

Record TrimLoop := mkTrim { tl_total : Z; tl_step_ppm : Z; tl_last_ppm : Z; tl_last_steps : Z }.

Definition TrimLoop_new (step_ppm_nominal : Z) : TrimLoop := mkTrim 0 (i32 step_ppm_nominal) 0 0.

(** The plant-gain measurement: truncating division by a constant per step count. *)
Definition gain_of (delta last_steps : Z) : Z :=
  let mag := Z.abs delta in
  let n := Z.abs last_steps in
  let q := if n =? 1 then mag else if n =? 2 then mag / 2 else if n =? 3 then mag / 3 else mag / 4 in
  if Bool.eqb (delta <? 0) (last_steps <? 0) then q else - q.

(** The threshold compares, [mag += (t >= (2k+1)d)] for [k < STEPS_MAX]. *)
Definition threshold_steps (ppm_ d : Z) : Z :=
  let t := u32 (2 * Z.abs ppm_) in
  let mag := fold_left (fun mag k => mag + Z.b2z (u32 ((2 * k + 1) * d) <=? t)) [0; 1; 2; 3] 0 in
  if ppm_ <? 0 then - mag else mag.

(** The gain after this window: replaced by a measurement inside the band. *)
Definition refined_gain (l : TrimLoop) (p : Z) : Z :=
  if tl_last_steps l =? 0 then tl_step_ppm l
  else
    let observed := gain_of (tl_last_ppm l - p) (tl_last_steps l) in
    if (STEP_PPM_MIN <=? observed) && (observed <=? STEP_PPM_MAX) then observed
    else tl_step_ppm l.

Definition clamp (lo hi x : Z) : Z := Z.max lo (Z.min hi x).

Definition TrimLoop_on_window (l : TrimLoop) (err_ticks span_ticks : Z) : TrimLoop * option Z :=
  if span_ticks =? 0 then (l, None)
  else
    let p := ppm err_ticks span_ticks in
    let step_ppm := refined_gain l p in
    let steps := threshold_steps p (u32 step_ppm) in
    let total := clamp (- TOTAL_MAX) TOTAL_MAX (tl_total l + steps) in
    let applied := total - tl_total l in
    if applied =? 0 then (mkTrim (tl_total l) step_ppm p applied, None)
    else (mkTrim (i8 total) step_ppm p applied, Some (i8 total)).

(** ** The division is exact *)

Lemma ppm_loop_S fuel rem q dshift bit :
  ppm_loop (S fuel) rem q dshift bit =
    if bit =? 0 then q
    else
      let '(rem, q) := if dshift <=? rem then (rem - dshift, Z.lor q bit) else (rem, q) in
      ppm_loop fuel rem q (Z.shiftr dshift 1) (Z.shiftr bit 1).
Proof. done. Qed.

Lemma ppm_loop_exact span k : forall rem q,
  0 < span -> 0 <= rem < span * 2 ^ Z.of_nat k -> 0 <= q -> (2 ^ Z.of_nat k | q) ->
  ppm_loop (S k) rem q (span * 2 ^ Z.of_nat k / 2) (2 ^ Z.of_nat k / 2) = q + rem / span.
Proof.
  induction k as [|k IH]; intros rem q Hs Hr Hq Hd.
  { simpl. rewrite Z.div_small by lia. lia. }
  replace (Z.of_nat (S k)) with (Z.of_nat k + 1) in * by lia.
  rewrite Z.pow_add_r, Z.pow_1_r in * by lia. set (b := 2 ^ Z.of_nat k) in *.
  assert (0 < b) by (subst b; apply Z.pow_pos_nonneg; lia).
  replace (b * 2 / 2) with b by (symmetry; apply Z.div_mul; lia).
  replace (span * (b * 2) / 2) with (span * b) by (rewrite Z.mul_assoc, Z.div_mul; done).
  rewrite ppm_loop_S, (proj2 (Z.eqb_neq b 0)) by lia. rewrite !Z.shiftr_div_pow2 by lia. change (2 ^ 1) with 2.
  destruct Hd as [m ->].
  destruct (Z.leb_spec (span * b) rem).
  - replace (Z.lor (m * (b * 2)) b) with (m * (b * 2) + b).
    2: { assert (2 ^ (Z.of_nat k + 1) = b * 2) as E by (rewrite Z.pow_add_r by lia; done).
         rewrite Z.lor_comm, <- E, <- Z.shiftl_mul_pow2 by lia.
         rewrite lor_shiftl_add, Z.shiftl_mul_pow2 by (rewrite ?E; lia). lia. }
    rewrite IH; [|nia..|exists (2 * m + 1); lia].
    replace (rem - span * b) with (rem + (- b) * span) by lia. rewrite Z.div_add by lia. lia.
  - rewrite IH; [lia|nia..|exists (2 * m); lia].
Qed.

Lemma ppm_loop_saturated span k : forall q,
  0 < span -> ppm_loop (S k) 0 q (span * 2 ^ Z.of_nat k / 2) (2 ^ Z.of_nat k / 2) = q.
Proof.
  induction k as [|k IH]; intros q Hs; [done|].
  replace (Z.of_nat (S k)) with (Z.of_nat k + 1) in * by lia.
  rewrite Z.pow_add_r, Z.pow_1_r in * by lia. set (b := 2 ^ Z.of_nat k) in *.
  assert (0 < b) by (subst b; apply Z.pow_pos_nonneg; lia).
  replace (b * 2 / 2) with b by (symmetry; apply Z.div_mul; lia).
  replace (span * (b * 2) / 2) with (span * b) by (rewrite Z.mul_assoc, Z.div_mul; done).
  rewrite ppm_loop_S, (proj2 (Z.eqb_neq b 0)), (proj2 (Z.leb_gt (span * b) 0)) by nia.
  rewrite !Z.shiftr_div_pow2 by lia. change (2 ^ 1) with 2. by apply IH.
Qed.

Lemma ppm_eq err span : 0 < span ->
  ppm err span =
    if Z.abs err * 1000000 <? span * 2 ^ 20 then Z.quot (err * 1000000) span
    else Z.sgn err * (2 ^ 20 - 1).
Proof.
  intros Hs. unfold ppm. rewrite !Z.shiftl_mul_pow2 by lia.
  change (2 ^ 19) with (2 ^ Z.of_nat 20 / 2).
  replace (span * (2 ^ Z.of_nat 20 / 2)) with (span * 2 ^ Z.of_nat 20 / 2).
  2: { change (2 ^ Z.of_nat 20) with (2 ^ 19 * 2). rewrite Z.mul_assoc, !Z.div_mul by lia. lia. }
  destruct (Z.leb_spec (span * 2 ^ 20) (Z.abs err * 1000000)) as [H|H].
  - rewrite (proj2 (Z.ltb_ge (Z.abs err * 1000000) (span * 2 ^ 20))) by lia. rewrite ppm_loop_saturated by done.
    destruct (Z.ltb_spec err 0); [rewrite Z.sgn_neg|rewrite Z.sgn_pos]; lia.
  - rewrite (proj2 (Z.ltb_lt (Z.abs err * 1000000) (span * 2 ^ 20))) by lia.
    rewrite ppm_loop_exact; [|lia|split; [lia|exact H]|lia|by exists 0].
    rewrite Z.add_0_l. destruct (Z.ltb_spec err 0).
    + replace (err * 1000000) with (- (Z.abs err * 1000000)) by lia.
      rewrite Z.quot_opp_l, Z.quot_div_nonneg by lia. done.
    + replace (err * 1000000) with (Z.abs err * 1000000) by lia. by rewrite Z.quot_div_nonneg by lia.
Qed.

(** The divider-free [ppm] is exact.  For every error and every nonzero
    span it returns [err * 1_000_000 / span] truncated toward zero whenever
    that quotient fits twenty bits (in particular for [|err| <= span]), and the
    signed twenty-bit maximum otherwise. *)
Theorem ppm_exact err span : 0 < span ->
  ppm err span =
    if Z.abs err * 1000000 <? span * 2 ^ 20 then Z.quot (err * 1000000) span
    else Z.sgn err * (2 ^ 20 - 1).
Proof. apply ppm_eq. Qed.

Lemma ppm_exact_witness : ppm (-7) 4300000 = -1 /\ ppm 1000000 4 = 2 ^ 20 - 1.
Proof. split; [rewrite (ppm_exact (-7) 4300000) | rewrite (ppm_exact 1000000 4)]; reflexivity. Defined.

(** ** One window of the controller *)

Lemma threshold_nearest p d m :
  0 < d <= STEP_PPM_MAX -> Z.abs p < 2 ^ 20 -> Z.abs (2 * (p - m * d)) < d ->
  threshold_steps p d = clamp (- STEPS_MAX) STEPS_MAX m.
Proof.
  unfold threshold_steps, clamp, STEPS_MAX, STEP_PPM_MAX. change (2 ^ 20) with 1048576.
  intros Hd Hp Hm. cbn [fold_left]. rewrite !u32_id by lia.
  assert (m <= -4 \/ m = -3 \/ m = -2 \/ m = -1 \/ m = 0 \/ m = 1 \/ m = 2 \/ m = 3 \/ 4 <= m)
    as [Hc|[->|[->|[->|[->|[->|[->|[->|Hc]]]]]]]] by lia;
    [assert (m * d <= -4 * d) by nia| | | | | | | |assert (4 * d <= m * d) by nia].
  all: repeat match goal with |- context [Z.b2z (?a <=? ?b)] => destruct (Z.leb_spec a b) end;
       destruct (Z.ltb_spec p 0); cbn [Z.b2z]; lia.
Qed.

(** A zero reading of the step selector means the error is inside half a step. *)
Lemma threshold_zero p d :
  0 < d <= STEP_PPM_MAX -> Z.abs p < 2 ^ 20 ->
  (2 * Z.abs p < d <-> threshold_steps p d = 0) /\ Z.abs (threshold_steps p d) <= STEPS_MAX.
Proof.
  unfold threshold_steps, STEPS_MAX, STEP_PPM_MAX. change (2 ^ 20) with 1048576.
  intros Hd Hp. cbn [fold_left]. rewrite !u32_id by lia.
  repeat match goal with |- context [Z.b2z (?a <=? ?b)] => destruct (Z.leb_spec a b) end;
    destruct (Z.ltb_spec p 0); cbn [Z.b2z]; lia.
Qed.

(** The gain measurement recovers the plant's step effect exactly. *)
Lemma gain_exact a s : 0 < s -> 1 <= Z.abs a <= 4 -> gain_of (a * s) a = s.
Proof.
  intros Hs Ha. unfold gain_of. rewrite Z.abs_mul, (Z.abs_eq s) by lia.
  assert ((a * s <? 0) = (a <? 0)) as ->
    by (destruct (Z.ltb_spec a 0); [apply Z.ltb_lt | apply Z.ltb_ge]; nia).
  rewrite Bool.eqb_reflx.
  destruct (Z.eqb_spec (Z.abs a) 1) as [->|]; [lia|].
  destruct (Z.eqb_spec (Z.abs a) 2) as [->|]; [rewrite Z.mul_comm; by apply Z.div_mul|].
  destruct (Z.eqb_spec (Z.abs a) 3) as [->|]; [rewrite Z.mul_comm; by apply Z.div_mul|].
  replace (Z.abs a) with 4 by lia. rewrite Z.mul_comm. by apply Z.div_mul.
Qed.

Lemma ppm_unit r : Z.abs r < 2 ^ 20 -> ppm r 1000000 = r.
Proof.
  intros H. rewrite ppm_eq, (proj2 (Z.ltb_lt _ _)) by lia. by apply Z.quot_mul.
Qed.

(** ** The closed loop

    A plant with true offset [o] ppm whose clock moves [s] ppm per trim step,
    measured without noise: each window reports the residual over a span of
    one million ticks, and the reported total is applied. *)
Definition residual (o s : Z) (l : TrimLoop) : Z := o - tl_total l * s.
Definition plant_window (o s : Z) (l : TrimLoop) : TrimLoop * option Z :=
  TrimLoop_on_window l (residual o s l) 1000000.
Definition plant_run (o s : Z) (n : nat) (l : TrimLoop) : TrimLoop :=
  Nat.iter n (fun l => (plant_window o s l).1) l.

Lemma plant_run_S o s n l : plant_run o s (S n) l = (plant_window o s (plant_run o s n l)).1.
Proof. done. Qed.
Lemma plant_run_S_first o s n l : plant_run o s (S n) l = plant_run o s n (plant_window o s l).1.
Proof. unfold plant_run. by rewrite Nat.iter_succ_r. Qed.

(** The controller knows this plant's gain, or is about to measure it. *)
Definition tuned (o s : Z) (l : TrimLoop) : Prop :=
  Z.abs (tl_total l) <= TOTAL_MAX /\
  (tl_last_steps l = 0 /\ tl_step_ppm l = s \/
   1 <= Z.abs (tl_last_steps l) <= STEPS_MAX /\
   tl_last_ppm l = residual o s l + tl_last_steps l * s).

Section plant.
Context (o s k : Z).
Context (Hs : STEP_PPM_MIN <= s <= STEP_PPM_MAX) (Hk : Z.abs k <= TOTAL_MAX).
Context (Hnear : Z.abs (2 * (o - k * s)) < s).
#[local] Set Default Proof Using "All".

Lemma residual_bound l : Z.abs (tl_total l) <= TOTAL_MAX -> Z.abs (residual o s l) < 2 ^ 20.
Proof.
  unfold residual, TOTAL_MAX, STEP_PPM_MIN, STEP_PPM_MAX in *. intros. change (2 ^ 20) with 1048576. nia.
Qed.

(** One window of a tuned controller moves at most four steps straight towards
    the nearest trim, and reports nothing exactly when it is there. *)
Lemma tuned_window l :
  tuned o s l ->
  let '(l', out) := plant_window o s l in
  tuned o s l' /\ tl_total l' = tl_total l + clamp (- STEPS_MAX) STEPS_MAX (k - tl_total l) /\
  (tl_total l = k -> out = None).
Proof.
  intros [HT Ht]. pose proof (residual_bound l HT) as Hr.
  unfold plant_window, TrimLoop_on_window. change (1000000 =? 0) with false.
  rewrite ppm_unit by done. assert (refined_gain l (residual o s l) = s) as ->.
  { unfold refined_gain. destruct Ht as [[-> ->]|[Ha ->]]; [done|]. unfold STEPS_MAX in Ha.
    rewrite (proj2 (Z.eqb_neq (tl_last_steps l) 0)) by lia. cbv zeta.
    replace (_ - _) with (tl_last_steps l * s) by lia.
    unfold STEP_PPM_MIN, STEP_PPM_MAX in *. rewrite gain_exact by lia.
    by rewrite (proj2 (Z.leb_le 800 s)), (proj2 (Z.leb_le s 4000)) by lia. }
  rewrite (u32_id s) by (unfold STEP_PPM_MIN, STEP_PPM_MAX in *; lia).
  rewrite (threshold_nearest _ s (k - tl_total l));
    [|unfold STEP_PPM_MIN, STEP_PPM_MAX in *; lia|done|unfold residual; nia].
  set (T := tl_total l) in *. set (q := clamp (- STEPS_MAX) STEPS_MAX (k - T)).
  assert (Z.abs q <= 4 /\ Z.abs (T + q) <= 15 /\ (T = k -> q = 0)) as (Hq & HTq & H0)
    by (subst q; unfold clamp, STEPS_MAX, TOTAL_MAX in *; lia).
  assert (clamp (- TOTAL_MAX) TOTAL_MAX (T + q) = T + q) as -> by (unfold clamp, TOTAL_MAX; lia).
  rewrite i8_small by lia. unfold tuned, residual, TOTAL_MAX, STEPS_MAX.
  destruct (Z.eqb_spec (T + q - T) 0) as [E|E];
    cbn [tl_total tl_step_ppm tl_last_ppm tl_last_steps];
    (split; [split; [lia|]|split; [lia|intros; lia || done]]).
  - left. lia.
  - right. split; [lia|]. nia.
Qed.

Lemma tuned_run l n :
  tuned o s l -> Z.abs (k - tl_total l) <= 4 * Z.of_nat n ->
  let l' := plant_run o s n l in
  tuned o s l' /\ tl_total l' = k /\ (plant_window o s l').2 = None.
Proof.
  intros Ht. set (d := Z.abs (k - tl_total l)).
  assert (forall m, let l' := plant_run o s m l in
            tuned o s l' /\ Z.abs (k - tl_total l') = Z.max 0 (d - 4 * Z.of_nat m)) as Hm.
  { induction m as [|m [IHt IHd]]; [split; [done|]; simpl; lia|].
    pose proof (tuned_window _ IHt) as Hw. rewrite plant_run_S.
    destruct (plant_window o s (plant_run o s m l)) as [l' out].
    destruct Hw as (Ht' & HT & _). split; [done|]. cbn [fst].
    unfold clamp, STEPS_MAX in HT. lia. }
  intros Hd. destruct (Hm n) as [Ht' HT]. cbv zeta. split; [done|].
  assert (tl_total (plant_run o s n l) = k) as E by lia. split; [done|].
  pose proof (tuned_window _ Ht') as Hw. destruct (plant_window _ _ _) as [l' out]. apply Hw, E.
Qed.

End plant.

(** The first window runs on the nominal gain: it either corrects, after which
    the controller is tuned, or reads zero and changes nothing that matters. *)
Lemma first_window o s k d0 :
  STEP_PPM_MIN <= s <= STEP_PPM_MAX -> STEP_PPM_MIN <= d0 <= STEP_PPM_MAX ->
  Z.abs k <= TOTAL_MAX -> Z.abs (2 * (o - k * s)) < s ->
  let '(l', out) := plant_window o s (TrimLoop_new d0) in
  (2 * Z.abs o < d0 /\ l' = mkTrim 0 d0 o 0 /\ out = None) \/
  (tuned o s l' /\ Z.abs (tl_total l') <= STEPS_MAX).
Proof.
  intros Hs Hd Hk Hn. pose proof (residual_bound o s k Hs Hk Hn (TrimLoop_new d0)
    ltac:(unfold TOTAL_MAX; simpl; lia)) as Hr.
  unfold plant_window, TrimLoop_on_window. assert (residual o s (TrimLoop_new d0) = o) as Er
    by (unfold residual, TrimLoop_new; cbn [tl_total]; lia).
  rewrite Er in *. change (1000000 =? 0) with false. rewrite ppm_unit by done.
  unfold refined_gain, TrimLoop_new. cbn [tl_total tl_last_steps tl_step_ppm]. rewrite Z.eqb_refl.
  unfold STEP_PPM_MIN, STEP_PPM_MAX in *. rewrite i32_small, u32_id by lia. rewrite Z.add_0_l.
  destruct (threshold_zero o d0 ltac:(unfold STEP_PPM_MAX; lia) Hr) as [Hz Hb].
  set (q := threshold_steps o d0) in *. unfold STEPS_MAX in Hb.
  assert (clamp (- TOTAL_MAX) TOTAL_MAX q = q) as -> by (unfold clamp, TOTAL_MAX; lia).
  rewrite i8_small, Z.sub_0_r by lia. destruct (Z.eqb_spec q 0) as [E|E].
  - left. rewrite E. split; [by apply Hz|]. done.
  - right. unfold tuned, residual, TOTAL_MAX, STEPS_MAX.
    cbn [tl_total tl_step_ppm tl_last_ppm tl_last_steps].
    split; [|lia]. split; [lia|]. right. lia.
Qed.

(** A controller inside the dead band of its seed never moves. *)
Lemma deadband_holds o s d0 n :
  STEP_PPM_MIN <= d0 <= STEP_PPM_MAX -> 2 * Z.abs o < d0 ->
  plant_run o s n (mkTrim 0 d0 o 0) = mkTrim 0 d0 o 0 /\
  (plant_window o s (mkTrim 0 d0 o 0)).2 = None.
Proof.
  intros Hd Ho. unfold STEP_PPM_MIN, STEP_PPM_MAX in *.
  assert (plant_window o s (mkTrim 0 d0 o 0) = (mkTrim 0 d0 o 0, None)) as E.
  { unfold plant_window, TrimLoop_on_window.
    assert (residual o s (mkTrim 0 d0 o 0) = o) as -> by (unfold residual; cbn [tl_total]; lia).
    change (1000000 =? 0) with false.
    rewrite ppm_unit by (change (2 ^ 20) with 1048576; lia).
    unfold refined_gain. cbn [tl_last_steps tl_step_ppm]. rewrite Z.eqb_refl, u32_id by lia.
    destruct (threshold_zero o d0) as [[-> _] _];
      [unfold STEP_PPM_MAX; lia|change (2 ^ 20) with 1048576; lia|done|]. done. }
  split; [|by rewrite E]. induction n as [|n IH]; [done|]. by rewrite plant_run_S, IH, E.
Qed.

(** C32: the trim loop converges and holds.  Take any plant whose offset is
    nearest to a trim [k] inside the rail and whose true step effect lies in
    the accepted band, whatever nominal gain (in the band) the controller was
    seeded with.  After six windows the loop is silent for good: either the
    trim is exactly [k], with a residual below half a true step, or the offset
    was inside half a seeded step to begin with and the trim never left zero. *)
Theorem trim_converges o s k d0 n :
  STEP_PPM_MIN <= s <= STEP_PPM_MAX -> STEP_PPM_MIN <= d0 <= STEP_PPM_MAX ->
  Z.abs k <= TOTAL_MAX -> Z.abs (2 * (o - k * s)) < s -> (6 <= n)%nat ->
  let l := plant_run o s n (TrimLoop_new d0) in
  (plant_window o s l).2 = None /\
  (tl_total l = k /\ 2 * Z.abs (residual o s l) < s \/
   tl_total l = 0 /\ 2 * Z.abs (residual o s l) < d0).
Proof.
  intros Hs Hd Hk Hn H6. destruct n as [|n]; [lia|]. cbv zeta. rewrite plant_run_S_first.
  pose proof (first_window o s k d0 Hs Hd Hk Hn) as H1.
  destruct (plant_window o s (TrimLoop_new d0)) as [l1 out1]. cbn [fst].
  destruct H1 as [(Ho & -> & ->)|[Ht HT]].
  - destruct (deadband_holds o s d0 n Hd Ho) as [-> ->]. split; [done|]. right.
    unfold residual. cbn [tl_total]. lia.
  - unfold STEPS_MAX, TOTAL_MAX in *.
    destruct (tuned_run o s k Hs Hk Hn l1 n Ht ltac:(lia)) as (_ & E & Eo).
    split; [done|]. left. split; [done|]. unfold residual. rewrite E. lia.
Qed.

Lemma trim_converges_witness :
  tl_total (plant_run 5000 1400 6 (TrimLoop_new 2500)) = 4 /\
  (plant_window 5000 1400 (plant_run 5000 1400 6 (TrimLoop_new 2500))).2 = None.
Proof.
  destruct (trim_converges 5000 1400 4 2500 6) as [H1 H2];
    [unfold STEP_PPM_MIN, STEP_PPM_MAX, TOTAL_MAX; lia..|].
  split; [|exact H1]. destruct H2 as [[E _]|[E _]]; [exact E|vm_compute in E; discriminate].
Defined.

(** Without the strict inequality the statement fails: an offset exactly half
    way between two trims makes the loop alternate between them for ever. *)
Remark tie_limit_cycles :
  plant_run 1250 2500 3 (TrimLoop_new 2500) = plant_run 1250 2500 1 (TrimLoop_new 2500) /\
  tl_total (plant_run 1250 2500 1 (TrimLoop_new 2500)) = 1 /\
  tl_total (plant_run 1250 2500 2 (TrimLoop_new 2500)) = 0.
Proof. by vm_compute. Qed.

(** ** Bounds of the controller's state *)

Record trim_ok (l : TrimLoop) : Prop := {
  to_total : Z.abs (tl_total l) <= TOTAL_MAX;
  to_step : STEP_PPM_MIN <= tl_step_ppm l <= STEP_PPM_MAX;
  to_last : Z.abs (tl_last_ppm l) <= 62500;
  to_steps : Z.abs (tl_last_steps l) <= STEPS_MAX }.

Lemma trim_new_ok d0 : STEP_PPM_MIN <= d0 <= STEP_PPM_MAX -> trim_ok (TrimLoop_new d0).
Proof.
  unfold STEP_PPM_MIN, STEP_PPM_MAX. intros. unfold TrimLoop_new. rewrite i32_small by lia.
  split; cbn; unfold STEP_PPM_MIN, STEP_PPM_MAX, TOTAL_MAX, STEPS_MAX; lia.
Qed.

(** A measurement of at most one sixteenth of its span stays inside the exact
    domain and inside 62500 ppm. *)
Lemma ppm_bound err span : 0 < span -> 16 * Z.abs err <= span -> Z.abs (ppm err span) <= 62500.
Proof.
  intros Hs He. rewrite ppm_eq, (proj2 (Z.ltb_lt _ _)) by lia.
  rewrite <- (Z.quot_abs _ span), Z.quot_div_nonneg by lia.
  apply Z.div_le_upper_bound; lia.
Qed.

Lemma on_window_ok l err span :
  trim_ok l -> 0 <= span -> 16 * Z.abs err <= span ->
  let '(l', out) := TrimLoop_on_window l err span in
  trim_ok l' /\ match out with
                | Some t => t = tl_total l' /\ t <> tl_total l
                | None => tl_total l' = tl_total l
                end.
Proof.
  intros [H1 H2 H3 H4] Hs He. unfold TrimLoop_on_window.
  destruct (Z.eqb_spec span 0) as [|Hn]; [by split|].
  pose proof (ppm_bound err span ltac:(lia) He) as Hp. set (p := ppm err span) in *.
  assert (STEP_PPM_MIN <= refined_gain l p <= STEP_PPM_MAX) as Hg.
  { unfold refined_gain. destruct (_ =? _); [done|]. cbv zeta. destruct (_ && _) eqn:E; zbool; lia. }
  set (d := refined_gain l p) in *. unfold STEP_PPM_MIN, STEP_PPM_MAX, TOTAL_MAX, STEPS_MAX in *.
  rewrite (u32_id d) by lia.
  destruct (threshold_zero p d ltac:(unfold STEP_PPM_MAX; lia) ltac:(change (2 ^ 20) with 1048576; lia))
    as [_ Hq]. set (q := threshold_steps p d) in *. unfold STEPS_MAX in Hq.
  assert (- 15 <= clamp (- 15) 15 (tl_total l + q) <= 15 /\
          Z.abs (clamp (- 15) 15 (tl_total l + q) - tl_total l) <= 4) as [Ht Ha]
    by (unfold clamp; lia).
  set (t := clamp _ _ _) in *. rewrite i8_small by lia.
  destruct (Z.eqb_spec (t - tl_total l) 0);
    (split; [split; cbn; unfold STEP_PPM_MIN, STEP_PPM_MAX, TOTAL_MAX, STEPS_MAX; lia|]); cbn; lia.
Qed.
