(* ===== verification/Clock.v ===== *)
(** * Clock discipline (firmware/lib/drivers/src/bus/clock.rs)

    The MGMT CAL break train, the differential drift tracker and the poll that
    drains a completed measurement through the trim loop.  Ticks are u32 values
    that wrap; the theorems speak about unwrapped instants.  The theorems: a
    train measures exactly the sum of its clean gaps, and whatever the wire
    does, every measurement that reaches the trim loop lies in the exact domain
    of its divider and leaves the loop's state inside its bounds. *)

From S2P Require Import Prelude Ring Trim.

Definition TRIM_GATE_SHIFT : Z := 4.
Definition CAL_WATCHDOG_GAPS : Z := 2.
Definition DRIFT_BASELINE_PAIRS : Z := 32.
Definition DRIFT_WINDOW_PAIRS : Z := 128.
Definition DRIFT_SANITY_PPM : Z := 8000.

Record CalRun := mkCal {
  ca_gap_ticks : Z; ca_gaps_left : Z; ca_total : Z; ca_valid : Z;
  ca_last_break : Z; ca_cursor : Z; ca_err : Z; ca_span : Z }.

Inductive VerifiedSpan := VsNone | VsOne (footprint : Z) (silent : bool) | VsMany.

(** The [drift_*] fields of [ClockTracker]. *)
Record Drift := mkDrift {
  dr_prev : option (Z * Z);
  dr_seen : VerifiedSpan;
  dr_base : option Z;
  dr_base_err : Z; dr_base_n : Z;
  dr_win_err : Z; dr_win_span : Z; dr_win_n : Z;
  dr_ready : bool }.
Definition drift_idle : Drift := mkDrift None VsNone None 0 0 0 0 0 false.

Record ClockTracker := mkClock {
  ck_pending_cal : option (Z * Z);
  ck_cal : option CalRun;
  ck_cal_ready : bool;
  ck_drift : Drift;
  ck_cadence_err : Z; ck_cadence_span : Z;
  ck_trim : TrimLoop }.

Definition ClockTracker_new (step_ppm : Z) : ClockTracker :=
  mkClock None None false drift_idle 0 0 (TrimLoop_new step_ppm).

Definition ClockTracker_cal_active (c : ClockTracker) : bool :=
  match ck_cal c with Some _ => true | None => false end ||
  match ck_pending_cal c with Some _ => true | None => false end.

Definition ClockTracker_restart (c : ClockTracker) : ClockTracker :=
  mkClock (ck_pending_cal c) (ck_cal c) (ck_cal_ready c) drift_idle (ck_cadence_err c)
    (ck_cadence_span c) (ck_trim c).

Definition cal_watchdog_at (now gap_ticks : Z) : Z := u32 (now + u32 (gap_ticks * CAL_WATCHDOG_GAPS)).

(** One counted mark of a live train. *)
Definition cal_mark (cal : CalRun) (now cursor : Z) : CalRun :=
  let delta := u32 (now - ca_last_break cal) in
  let err := i32 (delta - ca_gap_ticks cal) in
  let ok := Z.abs err <=? Z.shiftr (ca_gap_ticks cal) TRIM_GATE_SHIFT in
  mkCal (ca_gap_ticks cal) (saturating_sub (ca_gaps_left cal) 1) (ca_total cal)
    (if ok then u8 (ca_valid cal + 1) else ca_valid cal)
    now cursor
    (if ok then i32 (ca_err cal + err) else ca_err cal)
    (if ok then u32 (ca_span cal + ca_gap_ticks cal) else ca_span cal).

Definition ClockTracker_on_cal_break (c : ClockTracker) (now cursor ticks_per_us : Z) :
    ClockTracker * option Z :=
  match ck_pending_cal c with
  | Some (gap_us, gaps) =>
      let gap_ticks := u32 (gap_us * ticks_per_us) in
      (mkClock None (Some (mkCal gap_ticks gaps gaps 0 now cursor 0 0)) (ck_cal_ready c) drift_idle
         (ck_cadence_err c) (ck_cadence_span c) (ck_trim c),
       Some (cal_watchdog_at now gap_ticks))
  | None =>
      match ck_cal c with
      | None => (c, None)
      | Some cal =>
          if cursor =? ca_cursor cal then (c, None)
          else
            let cal' := cal_mark cal now cursor in
            if negb (ca_gaps_left cal' =? 0) then
              (mkClock None (Some cal') (ck_cal_ready c) (ck_drift c) (ck_cadence_err c)
                 (ck_cadence_span c) (ck_trim c),
               Some (cal_watchdog_at now (ca_gap_ticks cal')))
            else if ca_total cal' <=? ca_valid cal' * 2 then
              (mkClock None None true (ck_drift c) (ca_err cal') (ca_span cal') (ck_trim c), Some now)
            else
              (mkClock None None (ck_cal_ready c) (ck_drift c) (ck_cadence_err c) (ck_cadence_span c)
                 (ck_trim c), Some now)
      end
  end.

Definition ClockTracker_abandon_cal (c : ClockTracker) : ClockTracker :=
  mkClock None None (ck_cal_ready c) (ck_drift c) (ck_cadence_err c) (ck_cadence_span c) (ck_trim c).

(** The announce: dispatch stores the train's gap and count. *)
Definition set_pending_cal (c : ClockTracker) (gap_us gaps : Z) : ClockTracker :=
  mkClock (Some (gap_us, gaps)) (ck_cal c) (ck_cal_ready c) (ck_drift c) (ck_cadence_err c)
    (ck_cadence_span c) (ck_trim c).

Definition set_drift (c : ClockTracker) (d : Drift) : ClockTracker :=
  mkClock (ck_pending_cal c) (ck_cal c) (ck_cal_ready c) d (ck_cadence_err c) (ck_cadence_span c)
    (ck_trim c).

(** The accepted chain-pair error, or [None] where the source returns early. *)
Definition drift_pair (prev : option (Z * Z)) (seen : VerifiedSpan) (now cursor len tpb : Z) :
    option (Z * Z) :=
  match prev, seen with
  | Some (t1, c1), VsOne footprint true =>
      if (len =? 0) || negb (u16 (ring_wrap (cursor + len - c1) len) =? footprint) then None
      else
        let span := u32 (footprint * tpb) in
        let err := i32 (u32 (now - t1) - span) in
        if Z.shiftr span TRIM_GATE_SHIFT <? Z.abs err then None else Some (err, span)
  | _, _ => None
  end.

Definition ClockTracker_on_drift_break (c : ClockTracker) (now cursor len tpb : Z) : ClockTracker :=
  let d := ck_drift c in
  let d0 := mkDrift (Some (now, cursor)) VsNone (dr_base d) (dr_base_err d) (dr_base_n d)
              (dr_win_err d) (dr_win_span d) (dr_win_n d) (dr_ready d) in
  match drift_pair (dr_prev d) (dr_seen d) now cursor len tpb with
  | None => set_drift c d0
  | Some (err, span) =>
      match dr_base d with
      | None =>
          let base_err := i32 (dr_base_err d + err) in
          let base_n := u8 (dr_base_n d + 1) in
          let base := if DRIFT_BASELINE_PAIRS <=? base_n
                      then Some (Z.quot base_err DRIFT_BASELINE_PAIRS) else None in
          set_drift c (mkDrift (dr_prev d0) VsNone base base_err base_n (dr_win_err d)
                         (dr_win_span d) (dr_win_n d) (dr_ready d))
      | Some base =>
          let win_err := i32 (dr_win_err d + i32 (err - base)) in
          let win_span := saturating_add32 (dr_win_span d) span in
          let win_n := u8 (dr_win_n d + 1) in
          if DRIFT_WINDOW_PAIRS <=? win_n then
            let fresh := negb (ck_cal_ready c) && negb (dr_ready d) in
            mkClock (ck_pending_cal c) (ck_cal c) (ck_cal_ready c)
              (mkDrift (dr_prev d0) VsNone (Some base) (dr_base_err d) (dr_base_n d) 0 0 0
                 (if fresh then true else dr_ready d))
              (if fresh then win_err else ck_cadence_err c)
              (if fresh then win_span else ck_cadence_span c) (ck_trim c)
          else
            set_drift c (mkDrift (dr_prev d0) VsNone (Some base) (dr_base_err d) (dr_base_n d)
                           win_err win_span win_n (dr_ready d))
      end
  end.

Definition ClockTracker_pair_open (c : ClockTracker) : bool :=
  match dr_seen (ck_drift c) with VsNone => true | _ => false end.

Definition ClockTracker_note_verified (c : ClockTracker) (footprint : Z) (silent : bool) : ClockTracker :=
  let d := ck_drift c in
  set_drift c (mkDrift (dr_prev d)
    (match dr_seen d with VsNone => VsOne footprint silent | _ => VsMany end)
    (dr_base d) (dr_base_err d) (dr_base_n d) (dr_win_err d) (dr_win_span d) (dr_win_n d) (dr_ready d)).

Definition ClockTracker_poll (c : ClockTracker) : ClockTracker * option Z :=
  if ck_cal_ready c then
    let '(t, out) := TrimLoop_on_window (ck_trim c) (ck_cadence_err c) (ck_cadence_span c) in
    (mkClock (ck_pending_cal c) (ck_cal c) false drift_idle 0 0 t, out)
  else if negb (dr_ready (ck_drift c)) then (c, None)
  else
    let d := ck_drift c in
    let err := ck_cadence_err c in
    let span := ck_cadence_span c in
    let drained t := mkClock (ck_pending_cal c) (ck_cal c) false
      (mkDrift (dr_prev d) (dr_seen d) (dr_base d) (dr_base_err d) (dr_base_n d) (dr_win_err d)
         (dr_win_span d) (dr_win_n d) false) 0 0 t in
    if span =? 0 then (drained (ck_trim c), None)
    else if (DRIFT_SANITY_PPM + 1) * span <=? Z.abs err * 1000000 then (drained (ck_trim c), None)
    else
      let '(t, out) := TrimLoop_on_window (ck_trim c) err span in
      (match out with
       | Some _ => ClockTracker_restart (drained t)
       | None => drained t
       end, out).

(** ** A calibration train *)

(** The breaks of a train: instants on the unwrapped tick axis and the ring
    cursor at each; the tracker sees the instants modulo 2^32. *)
Definition cal_run (tpu : Z) (c : ClockTracker) (marks : list (Z * Z)) : ClockTracker :=
  fold_left (fun c m => (ClockTracker_on_cal_break c (u32 m.1) m.2 tpu).1) marks c.

Fixpoint gaps_from (t : Z) (marks : list (Z * Z)) : list Z :=
  match marks with [] => [] | m :: ms => (m.1 - t) :: gaps_from m.1 ms end.
Fixpoint cursors_move (cur : Z) (marks : list (Z * Z)) : Prop :=
  match marks with [] => True | m :: ms => m.2 <> cur /\ cursors_move m.2 ms end.

Definition clean (g d : Z) : bool := Z.abs (d - g) <=? Z.shiftr g TRIM_GATE_SHIFT.
Definition clean_gaps (g : Z) (ds : list Z) : list Z := List.filter (clean g) ds.
Definition excess (g : Z) (ds : list Z) : Z := foldr (fun d n => (d - g) + n) 0 ds.

Lemma clean_bound g d : 0 <= g -> clean g d = true -> 16 * Z.abs (d - g) <= g.
Proof.
  unfold clean, TRIM_GATE_SHIFT. intros Hg H. zbool. rewrite Z.shiftr_div_pow2 in H by lia.
  change (2 ^ 4) with 16 in H. zmod.
Qed.

Lemma excess_bound g ds : 0 <= g ->
  16 * Z.abs (excess g (clean_gaps g ds)) <= Z.of_nat (length (clean_gaps g ds)) * g.
Proof.
  intros Hg. unfold clean_gaps. induction ds as [|d ds IH]; simpl; [lia|].
  destruct (clean g d) eqn:E; simpl; [|done]. apply clean_bound in E; nia.
Qed.

(** A train in progress: [ds] are the gaps already seen. *)
Definition cal_live (cal : CalRun) (g n t cur : Z) (ds : list Z) : Prop :=
  cal = mkCal g (n - Z.of_nat (length ds)) n (Z.of_nat (length (clean_gaps g ds))) (u32 t) cur
          (excess g (clean_gaps g ds)) (Z.of_nat (length (clean_gaps g ds)) * g).

Lemma excess_app g a b : excess g (a ++ b) = excess g a + excess g b.
Proof. induction a as [|x a IH]; simpl; lia. Qed.

Lemma cal_mark_live cal g n t cur ds t' cur' :
  cal_live cal g n t cur ds -> 0 <= g < 2 ^ 22 -> n <= 255 -> Z.of_nat (length ds) < n ->
  0 <= t' - t < 2 ^ 31 ->
  cal_live (cal_mark cal (u32 t') cur') g n t' cur' (ds ++ [t' - t]).
Proof.
  change (2 ^ 22) with 4194304. change (2 ^ 31) with 2147483648.
  intros -> Hg Hn Hl Ht. unfold cal_live, cal_mark.
  cbn [ca_gap_ticks ca_gaps_left ca_total ca_valid ca_last_break ca_cursor ca_err ca_span].
  rewrite u32_sub, (u32_id (t' - t)), i32_small by lia. fold (clean g (t' - t)).
  pose proof (excess_bound g ds ltac:(lia)) as Hb.
  assert (length (clean_gaps g ds) <= length ds)%nat as Hlen by apply List.filter_length_le.
  set (v := clean_gaps g ds) in *. assert (clean_gaps g (ds ++ [t' - t]) =
    v ++ if clean g (t' - t) then [t' - t] else []) as ->
    by (unfold clean_gaps; by rewrite List.filter_app).
  rewrite excess_app, !length_app. unfold saturating_sub. cbn [length].
  assert (Z.of_nat (length v) * g <= 254 * g) by (apply Z.mul_le_mono_nonneg_r; lia).
  destruct (clean g (t' - t)) eqn:Hc; cbn [length excess foldr].
  - apply clean_bound in Hc; [|lia]. rewrite u8_id, i32_small, (u32_id (_ + g)) by lia. f_equal; lia.
  - f_equal; lia.
Qed.

Lemma cal_run_live tpu g n : forall marks c cal t cur ds,
  0 <= g < 2 ^ 22 -> n <= 255 -> n = Z.of_nat (length ds + length marks) -> marks <> [] ->
  ck_pending_cal c = None -> ck_cal c = Some cal -> cal_live cal g n t cur ds ->
  Forall (fun d => 0 <= d < 2 ^ 31) (gaps_from t marks) -> cursors_move cur marks ->
  let v := clean_gaps g (ds ++ gaps_from t marks) in
  cal_run tpu c marks =
    if n <=? Z.of_nat (length v) * 2
    then mkClock None None true (ck_drift c) (excess g v) (Z.of_nat (length v) * g) (ck_trim c)
    else mkClock None None (ck_cal_ready c) (ck_drift c) (ck_cadence_err c) (ck_cadence_span c) (ck_trim c).
Proof.
  induction marks as [|[t' cur'] ms IH]; intros c cal t cur ds Hg Hn Hlen Hne Hp Hcal Hl Hd Hm; [done|].
  cbn [gaps_from cursors_move fst snd length] in *. apply Forall_cons_1 in Hd as [Hd Hds].
  destruct Hm as [Hcur Hm]. pose proof (cal_mark_live cal g n t cur ds t' cur' Hl Hg Hn ltac:(lia) Hd) as Hl'.
  change (cal_run tpu c ((t', cur') :: ms)) with
    (cal_run tpu (ClockTracker_on_cal_break c (u32 t') cur' tpu).1 ms).
  unfold ClockTracker_on_cal_break. rewrite Hp, Hcal, (proj2 (Z.eqb_neq _ _)) by (by rewrite Hl).
  cbv zeta. set (cal' := cal_mark cal (u32 t') cur') in *.
  replace (ds ++ (t' - t) :: gaps_from t' ms) with ((ds ++ [t' - t]) ++ gaps_from t' ms)
    by by rewrite <- app_assoc.
  assert (ca_gaps_left cal' = Z.of_nat (length ms)) as Eleft
    by (rewrite Hl'; cbn [ca_gaps_left]; rewrite length_app; simpl; lia).
  rewrite Eleft. destruct ms as [|m ms].
  - change (Z.of_nat (length []) =? 0) with true. cbn [negb gaps_from]. rewrite app_nil_r.
    clearbody cal'. unfold cal_live in Hl'. subst cal'. cbn [ca_total ca_valid ca_err ca_span].
    by destruct (n <=? _).
  - rewrite (proj2 (Z.eqb_neq (Z.of_nat _) 0)) by (simpl; lia). cbn [negb fst].
    rewrite (IH _ cal' t' cur' (ds ++ [t' - t])); try done.
    rewrite length_app. simpl in *. lia.
Qed.

(** A calibration train measures what its breaks say.  An announced train
    of [n] gaps of [gap_us], whose breaks arrive at any instants (on a tick
    counter that may wrap) each with a fresh ring cursor, ends with a
    measurement exactly when at least half of its gaps are within one
    sixteenth of nominal; the measurement is then the exact summed excess of
    those gaps over their exact summed nominal span, and otherwise nothing is
    decided.  Either way the train is over. *)
Theorem cal_train_measures c gap_us n tpu t0 cur0 marks :
  ck_pending_cal c = Some (gap_us, n) -> 0 <= gap_us * tpu < 2 ^ 22 -> 1 <= n <= 255 ->
  Z.of_nat (length marks) = n ->
  Forall (fun d => 0 <= d < 2 ^ 31) (gaps_from t0 marks) -> cursors_move cur0 marks ->
  let g := gap_us * tpu in
  let v := clean_gaps g (gaps_from t0 marks) in
  cal_run tpu c ((t0, cur0) :: marks) =
    if n <=? Z.of_nat (length v) * 2
    then mkClock None None true drift_idle (excess g v) (Z.of_nat (length v) * g) (ck_trim c)
    else mkClock None None (ck_cal_ready c) drift_idle (ck_cadence_err c) (ck_cadence_span c) (ck_trim c).
Proof.
  intros Hp Hg Hn Hlen Hd Hm g v. change (cal_run tpu c ((t0, cur0) :: marks)) with
    (cal_run tpu (ClockTracker_on_cal_break c (u32 t0) cur0 tpu).1 marks).
  unfold ClockTracker_on_cal_break. rewrite Hp. cbv zeta.
  rewrite (u32_id (gap_us * tpu)) by (change (2 ^ 22) with 4194304 in Hg; lia). fold g. cbn [fst].
  rewrite (cal_run_live tpu g n marks _ (mkCal g n n 0 (u32 t0) cur0 0 0) t0 cur0 []);
    cbn [ck_drift ck_trim ck_cal_ready ck_cadence_err ck_cadence_span app]; try done; try lia.
  - intros ->. simpl in Hlen. lia.
  - unfold cal_live. simpl. f_equal. lia.
Qed.

Lemma cal_train_measures_witness :
  let c := set_pending_cal (ClockTracker_new 2500) 1000 3 in
  let c' := cal_run 48 c [(4294967000, 1); (4295015100, 2); (4295063200, 3); (4295111100, 4)] in
  ck_cal_ready c' = true /\ ck_cadence_err c' = 100 /\ ck_cadence_span c' = 144000.
Proof.
  intros c c'. assert (c' = mkClock None None true drift_idle 100 144000 (ck_trim c)) as ->.
  { apply (cal_train_measures c 1000 3 48 4294967000 1 [(4295015100, 2); (4295063200, 3); (4295111100, 4)]);
      [reflexivity|lia|lia|reflexivity|repeat constructor; simpl; lia|simpl; lia]. }
  repeat split.
Defined.

(** ** Every reachable tracker *)

Inductive ClockEv :=
| CkAnnounce (gap_us gaps : Z)
| CkCalBreak (now cursor : Z)
| CkAbandon
| CkDriftBreak (now cursor len tpb : Z)
| CkVerified (footprint : Z) (silent : bool)
| CkRestart
| CkPoll.

Definition clock_step (tpu : Z) (c : ClockTracker) (e : ClockEv) : ClockTracker :=
  match e with
  | CkAnnounce g n => set_pending_cal c g n
  | CkCalBreak now cur => (ClockTracker_on_cal_break c now cur tpu).1
  | CkAbandon => ClockTracker_abandon_cal c
  | CkDriftBreak now cur len tpb => ClockTracker_on_drift_break c now cur len tpb
  | CkVerified f s => ClockTracker_note_verified c f s
  | CkRestart => ClockTracker_restart c
  | CkPoll => (ClockTracker_poll c).1
  end.

(** An announce carries a u16 gap and a u8 count. *)
Definition clock_ev_ok (e : ClockEv) : Prop :=
  match e with CkAnnounce g n => is_u16 g /\ is_u8 n | _ => True end.

Record cal_ok (cal : CalRun) : Prop := {
  co_gap : 0 <= ca_gap_ticks cal < 2 ^ 22;
  co_count : 0 <= ca_valid cal /\ 0 <= ca_gaps_left cal /\ ca_valid cal + ca_gaps_left cal <= 255;
  co_zero : ca_gaps_left cal = 0 -> ca_valid cal = 0;
  co_span : ca_span cal = ca_valid cal * ca_gap_ticks cal;
  co_err : 16 * Z.abs (ca_err cal) <= ca_span cal }.

Record clock_ok (c : ClockTracker) : Prop := {
  ko_trim : trim_ok (ck_trim c);
  ko_pending : forall g n, ck_pending_cal c = Some (g, n) -> is_u16 g /\ is_u8 n;
  ko_cal : forall cal, ck_cal c = Some cal -> cal_ok cal;
  ko_ready : ck_cal_ready c = true -> 16 * Z.abs (ck_cadence_err c) <= ck_cadence_span c;
  ko_span : 0 <= ck_cadence_span c /\ 0 <= dr_win_span (ck_drift c) }.

Lemma cal_mark_ok cal now cur :
  cal_ok cal -> let cal' := cal_mark cal now cur in
  16 * Z.abs (ca_err cal') <= ca_span cal' /\ 0 <= ca_span cal' /\
  (ca_gaps_left cal' <> 0 -> cal_ok cal').
Proof.
  intros [Hg Hc Hz Hs He]. unfold cal_mark. cbv zeta. change (2 ^ 22) with 4194304 in Hg.
  set (e := i32 _). set (v := ca_valid cal) in *. set (g := ca_gap_ticks cal) in *.
  unfold saturating_sub. destruct (_ <=? _) eqn:E; zbool.
  - unfold TRIM_GATE_SHIFT in E. rewrite Z.shiftr_div_pow2 in E by lia. change (2 ^ 4) with 16 in E.
    assert (16 * Z.abs e <= g) by zmod. assert (v * g <= 255 * g) by (apply Z.mul_le_mono_nonneg_r; lia).
    assert (v <= 254) by lia.
    assert (v * g <= 254 * g) by (apply Z.mul_le_mono_nonneg_r; lia).
    cbn [ca_err ca_span ca_gaps_left]. rewrite u8_id, i32_small, (u32_id (_ + _)) by lia.
    split; [lia|]. split; [lia|]. intros Hl.
    split; cbn [ca_gap_ticks ca_gaps_left ca_valid ca_span ca_err]; change (2 ^ 22) with 4194304; lia.
  - cbn [ca_err ca_span ca_gaps_left]. split; [done|]. split; [rewrite Hs; nia|]. intros Hl.
    split; cbn [ca_gap_ticks ca_gaps_left ca_valid ca_span ca_err]; change (2 ^ 22) with 4194304; lia.
Qed.

Lemma on_cal_break_ok c now cur tpu :
  clock_ok c -> 0 <= tpu <= 64 -> clock_ok (ClockTracker_on_cal_break c now cur tpu).1.
Proof.
  intros Hok Htpu. pose proof Hok as [Ht Hp Hc Hr Hs]. unfold ClockTracker_on_cal_break.
  destruct (ck_pending_cal c) as [[g n]|] eqn:Ep.
  - specialize (Hp g n eq_refl). split; cbn; try done; [|lia]. intros cal [= <-].
    split; cbn; rewrite ?(u32_id (g * tpu)) by nia; change (2 ^ 22) with 4194304; nia.
  - destruct (ck_cal c) as [cal|] eqn:Ec; [|done].
    destruct (_ =? _); [done|]. cbv zeta.
    destruct (cal_mark_ok cal now cur (Hc cal eq_refl)) as (He & H0 & Hk).
    set (cal' := cal_mark cal now cur) in *. clearbody cal'.
    destruct (Z.eqb_spec (ca_gaps_left cal') 0); cbn [negb].
    + destruct (_ <=? _); split; cbn; try done; lia.
    + split; cbn; try done. intros cal2 E. apply (inj Some) in E as <-. auto.
Qed.

Lemma on_drift_break_ok c now cur len tpb :
  clock_ok c -> clock_ok (ClockTracker_on_drift_break c now cur len tpb).
Proof.
  intros [Ht Hp Hc Hr Hs]. unfold ClockTracker_on_drift_break. cbv zeta.
  destruct (drift_pair _ _ _ _ _ _) as [[err span]|] eqn:E; [|by split].
  destruct (dr_base (ck_drift c)); [|by split].
  assert (0 <= span) as Hsp.
  { revert E. unfold drift_pair. repeat case_match; try done. intros [= _ <-]. apply u32_range. }
  destruct (_ <=? _); [|split; cbn; try done; unfold saturating_add32; lia].
  destruct (ck_cal_ready c) eqn:Er, (dr_ready (ck_drift c)); cbn [negb andb];
    split; cbn; rewrite ?Er; try done; unfold saturating_add32; try lia; intros; by apply Hr.
Qed.

Lemma poll_ok c : clock_ok c ->
  clock_ok (ClockTracker_poll c).1 /\
  match (ClockTracker_poll c).2 with
  | Some t => t = tl_total (ck_trim (ClockTracker_poll c).1) /\ t <> tl_total (ck_trim c)
  | None => tl_total (ck_trim (ClockTracker_poll c).1) = tl_total (ck_trim c)
  end.
Proof.
  intros Hok. pose proof Hok as [Ht Hp Hc Hr [Hs1 Hs2]]. unfold ClockTracker_poll. destruct (ck_cal_ready c) eqn:Er.
  - pose proof (on_window_ok _ _ _ Ht Hs1 (Hr eq_refl)) as Hw.
    destruct (TrimLoop_on_window _ _ _) as [t out]. destruct Hw as [Hw1 Hw2].
    split; [split; cbn; try done; lia|]. cbn. by destruct out.
  - destruct (negb _); [done|]. cbv zeta.
    assert (forall t, trim_ok t -> clock_ok (mkClock (ck_pending_cal c) (ck_cal c) false
      (mkDrift (dr_prev (ck_drift c)) (dr_seen (ck_drift c)) (dr_base (ck_drift c))
         (dr_base_err (ck_drift c)) (dr_base_n (ck_drift c)) (dr_win_err (ck_drift c))
         (dr_win_span (ck_drift c)) (dr_win_n (ck_drift c)) false) 0 0 t)) as Hdr
      by (intros t Hto; split; cbn; try done; lia).
    destruct (Z.eqb_spec (ck_cadence_span c) 0); [by split; [apply Hdr|]|].
    destruct (_ <=? _) eqn:Eg; [by split; [apply Hdr|]|]. zbool. unfold DRIFT_SANITY_PPM in Eg.
    pose proof (on_window_ok _ (ck_cadence_err c) (ck_cadence_span c) Ht Hs1 ltac:(lia)) as Hw.
    destruct (TrimLoop_on_window _ _ _) as [t out]. destruct Hw as [Hw1 Hw2].
    destruct out; cbn; (split; [|done]); [|by apply Hdr].
    destruct (Hdr t Hw1) as [A B C D F]. split; cbn; try done; lia.
Qed.

Lemma clock_step_ok tpu c e :
  clock_ok c -> 0 <= tpu <= 64 -> clock_ev_ok e -> clock_ok (clock_step tpu c e).
Proof.
  intros Hc Htpu He. destruct e; cbn [clock_step];
    [|by apply on_cal_break_ok| |by apply on_drift_break_ok| | |by apply poll_ok];
    destruct Hc as [A B C D [E F]]; split; cbn; try done; try lia.
  intros g n [= <- <-]. exact He.
Qed.

(** The clock loop stays inside its bounds whatever happens on the wire.
    Start a tracker with a nominal gain in the accepted band and let any
    sequence of announces, breaks, verified frames, restarts, abandons and
    polls happen.  The trim total stays within fifteen steps, the gain estimate
    within its band and the last error below 62500 ppm (so no i8, i32 or
    twenty-bit quotient ever saturates); and a poll reports a value exactly
    when it changes the applied trim. *)
Theorem clock_bounded nominal tpu evs :
  STEP_PPM_MIN <= nominal <= STEP_PPM_MAX -> 0 <= tpu <= 64 -> Forall clock_ev_ok evs ->
  let c := fold_left (clock_step tpu) evs (ClockTracker_new nominal) in
  trim_ok (ck_trim c) /\
  match (ClockTracker_poll c).2 with
  | Some t => t = tl_total (ck_trim (ClockTracker_poll c).1) /\ t <> tl_total (ck_trim c) /\
              Z.abs t <= TOTAL_MAX
  | None => tl_total (ck_trim (ClockTracker_poll c).1) = tl_total (ck_trim c)
  end.
Proof.
  intros Hn Htpu Hev c. assert (clock_ok c) as Hc.
  { subst c. assert (clock_ok (ClockTracker_new nominal)) as H0
      by (split; cbn; try done; by apply trim_new_ok).
    revert H0. generalize (ClockTracker_new nominal). induction Hev as [|e evs He _ IH]; intros c0 H0; [done|].
    cbn [fold_left]. apply IH. by apply clock_step_ok. }
  split; [apply Hc|]. destruct (poll_ok c Hc) as [Hp Hm].
  destruct (ClockTracker_poll c).2; [|done]. destruct Hm as [-> Hne].
  split; [done|]. split; [done|]. apply (ko_trim _ Hp).
Qed.

Lemma clock_bounded_witness :
  (ClockTracker_poll (fold_left (clock_step 48)
     [CkAnnounce 1000 1; CkCalBreak 100 1; CkCalBreak (100 + 48250) 2] (ClockTracker_new 2500))).2 = Some 2.
Proof.
  pose proof (clock_bounded 2500 48
    [CkAnnounce 1000 1; CkCalBreak 100 1; CkCalBreak (100 + 48250) 2]
    ltac:(unfold STEP_PPM_MIN, STEP_PPM_MAX; lia) ltac:(lia)
    ltac:(repeat constructor; simpl; lia)) as [_ H].
  vm_compute in H |- *. reflexivity.
Defined.
