(* ===== verification/Framer.v ===== *)
(** * The receive resolver (firmware/lib/drivers/src/bus/framer.rs)

    [Framer] walks the ring from a derived anchor: it hunts for a plausible
    break, sizes the frame from its header, and either hands the frame out,
    reports the covered checkpoint, or asks to be woken later; a candidate that
    makes no progress for the starve horizon is given up.  The theorems: a
    backlog of contiguous frames resolves to exactly those frames; and behind
    any noise, whatever the CRC verdicts, the resolver terminates on a silent
    wire and hands out a complete frame that nothing accepted overlaps. *)

From S2P Require Import Prelude FrameBytes Wire Frame Ring.

Record FrameSpan := mkSpan { fs_anchor : Z; fs_footprint : Z; fs_packet_end : Z }.

Inductive FramerOut :=
| FoNone
| FoWait (at_ : Z)
| FoCovered (span : FrameSpan) (end_due : Z)
| FoFrame (span : FrameSpan).

Definition HEADER_SPAN_BYTES : Z := Z.of_nat Header_SIZE.
Definition BREAK_RING_BYTE : Z := 0.
Definition BREAK_TAIL_EPS_DIV : Z := 2.
Definition DRIFT_SHIFT : Z := 6.
Definition COVERED_TAIL_BYTES : Z := 2.
Definition STARVE_GIVEUP_BYTES : Z := STARVE_HORIZON_BYTE_TIMES.
Definition HUNT_BYTES_PER_WAKE : nat := 64.

Definition wire_lead (bytes tpb : Z) : Z :=
  let t := u32 (bytes * tpb) in u32 (t + Z.shiftr t DRIFT_SHIFT).

Record Frontier := mkFrontier {
  ft_covered : bool; ft_observed : bool; ft_seen : Z; ft_progress_tick : Z }.
Definition Frontier_idle : Frontier := mkFrontier false false 0 0.
Definition Frontier_advance (t : Frontier) (cursor now : Z) : Frontier :=
  if ft_observed t && (cursor =? ft_seen t) then t
  else mkFrontier (ft_covered t) true cursor now.

Record Framer := mkFramer {
  fr_anchor : Z; fr_hunting : bool; fr_frontier : Frontier; fr_fault_seen : Z; fr_drops : Z }.
Definition Framer_new : Framer := mkFramer 0 false Frontier_idle 0 0.

Definition Framer_resync (f : Framer) (cursor : Z) : Framer :=
  mkFramer cursor (fr_hunting f) Frontier_idle cursor (fr_drops f).
Definition Framer_on_wire_fault (f : Framer) (cursor : Z) : Framer * bool :=
  if cursor =? fr_fault_seen f then (f, false)
  else (mkFramer (fr_anchor f) (fr_hunting f) (fr_frontier f) cursor (fr_drops f), true).
Definition Framer_on_frame_rejected (f : Framer) (anchor ring_len : Z) : Framer :=
  mkFramer (u16 (ring_wrap (anchor + 1) ring_len)) true Frontier_idle (fr_fault_seen f) (fr_drops f).
Definition Framer_on_frame_verified (f : Framer) : Framer :=
  mkFramer (fr_anchor f) false (fr_frontier f) (fr_fault_seen f) (fr_drops f).
Definition Framer_caught_up (f : Framer) (cursor : Z) : bool := fr_anchor f =? cursor.
Definition Framer_probing (f : Framer) : bool := fr_hunting f.

Definition set_anchor (f : Framer) (a : Z) (hunting : bool) : Framer :=
  mkFramer a hunting Frontier_idle (fr_fault_seen f) (fr_drops f).
Definition set_frontier (f : Framer) (t : Frontier) : Framer :=
  mkFramer (fr_anchor f) (fr_hunting f) t (fr_fault_seen f) (fr_drops f).

Definition dist (cursor anchor len : Z) : Z := u16 (ring_wrap (cursor + len - anchor) len).

Definition Framer_give_up (f : Framer) (len now : Z) : Framer * FramerOut :=
  let drops := if fr_hunting f then fr_drops f else u32 (fr_drops f + 1) in
  (mkFramer (u16 (ring_wrap (fr_anchor f + 1) len)) true Frontier_idle (fr_fault_seen f) drops,
   FoWait now).

Definition Framer_wait (f : Framer) (aim now tpb cursor len : Z) : Framer * FramerOut :=
  let giveup_span := u32 (STARVE_GIVEUP_BYTES * tpb) in
  let stalled := ft_observed (fr_frontier f) && (cursor =? ft_seen (fr_frontier f)) in
  let t := Frontier_advance (fr_frontier f) cursor now in
  let f := set_frontier f t in
  if stalled && tick_reached now (u32 (ft_progress_tick t + giveup_span)) then Framer_give_up f len now
  else
    let horizon := u32 (ft_progress_tick t + giveup_span) in
    (f, FoWait (if u32 (aim - now) <=? u32 (horizon - now) then aim else horizon)).

(** The hunt: scan for a break byte with a plausible length, one byte at a
    time, at most [budget] bytes per call. *)
Inductive Hunt := HuntEmpty (f : Framer) | HuntBudget (f : Framer) | HuntFound (f : Framer) (received : Z).

Definition plausible (ring : list Z) (a received : Z) : option bool :=
  b ← zget ring a;
  if b =? BREAK_RING_BYTE then
    if received <? HEADER_SPAN_BYTES then Some true
    else l ← zget ring (ring_wrap (a + 2) (Z.of_nat (length ring))); Some (3 <=? l)
  else Some false.

Fixpoint hunt (budget : nat) (f : Framer) (ring : list Z) (received : Z) : option Hunt :=
  match budget with
  | O => Some (HuntBudget f)
  | S budget' =>
      p ← plausible ring (fr_anchor f) received;
      if p : bool then Some (HuntFound f received)
      else
        let f' := set_anchor f (u16 (ring_wrap (fr_anchor f + 1) (Z.of_nat (length ring)))) true in
        if received - 1 =? 0 then Some (HuntEmpty f')
        else hunt budget' f' ring (received - 1)
  end.

Definition read_header (ring : list Z) (a : Z) : option Header :=
  let len := Z.of_nat (length ring) in
  b0 ← zget ring (ring_wrap (a + 0) len); b1 ← zget ring (ring_wrap (a + 1) len);
  b2 ← zget ring (ring_wrap (a + 2) len); b3 ← zget ring (ring_wrap (a + 3) len);
  Some (Header_from_bytes b0 b1 b2 b3).

(** What [resolve] does once a plausible candidate stands at the anchor. *)
Definition resolve_candidate (f : Framer) (ring : list Z) (received cursor now tpb : Z) :
    option (Framer * FramerOut) :=
  let len := Z.of_nat (length ring) in
  if received <? HEADER_SPAN_BYTES then
    let aim := u32 (u32 (now + wire_lead (HEADER_SPAN_BYTES - received) tpb) + tpb / BREAK_TAIL_EPS_DIV) in
    Some (Framer_wait f aim now tpb cursor len)
  else
    h ← read_header ring (fr_anchor f);
    let footprint := u16 (Header_frame_end h) in
    if footprint <=? received then
      let anchor := fr_anchor f in
      Some (set_anchor f (u16 (ring_wrap (anchor + footprint) len)) (fr_hunting f),
            FoFrame (mkSpan anchor footprint now))
    else
      let missing := footprint - received in
      if negb (ft_covered (fr_frontier f)) && (missing <=? COVERED_TAIL_BYTES) then
        let t := Frontier_advance (fr_frontier f) cursor now in
        let packet_end := u32 (now + wire_lead missing tpb) in
        Some (set_frontier f (mkFrontier true (ft_observed t) (ft_seen t) (ft_progress_tick t)),
              FoCovered (mkSpan (fr_anchor f) footprint packet_end) packet_end)
      else
        let to_target := if ft_covered (fr_frontier f) then missing else missing - COVERED_TAIL_BYTES in
        let aim := u32 (now + wire_lead to_target tpb) in
        Some (Framer_wait f aim now tpb cursor len).

Definition Framer_resolve (f : Framer) (ring : list Z) (cursor now tpb : Z) :
    option (Framer * FramerOut) :=
  let len := Z.of_nat (length ring) in
  if len =? 0 then Some (f, FoNone)
  else
    let received := dist cursor (fr_anchor f) len in
    if received =? 0 then Some (set_frontier f Frontier_idle, FoNone)
    else
      h ← hunt HUNT_BYTES_PER_WAKE f ring received;
      match h with
      | HuntEmpty f => Some (f, FoNone)
      | HuntBudget f => Some (f, FoWait now)
      | HuntFound f received => resolve_candidate f ring received cursor now tpb
      end.

(** ** One call of the resolver *)

Section resolver.
Context (ring : list Z) (cursor tpb : Z).
#[local] Abbreviation len := (Z.of_nat (length ring)).
Context (Hlen : ring_len_ok len) (Hring : bytes_ok ring).
Context (Hcur : 0 <= cursor < len) (Htpb : 1 <= tpb <= 2 ^ 20).
#[local] Set Default Proof Using "All".

(** Bytes ringed past the anchor. *)
Definition backlog (f : Framer) : Z := (cursor - fr_anchor f) mod Z.of_nat (length ring).

Lemma dist_backlog f : dist cursor (fr_anchor f) len = backlog f.
Proof.
  unfold dist, backlog. rewrite (ring_wrap_u16 ring Hlen). pose proof (ring_len_pos _ Hlen).
  replace (cursor + len - fr_anchor f) with (cursor - fr_anchor f + 1 * len) by lia.
  by rewrite Z.mod_add by lia.
Qed.

Lemma backlog_bound f : 0 <= backlog f < len.
Proof. apply Z.mod_pos_bound. pose proof (ring_len_pos _ Hlen). lia. Qed.

Lemma ring_at_u8 a i : is_u8 (ring_at ring a i).
Proof.
  unfold ring_at. destruct (ring !! _) as [b|] eqn:E; simpl; [|lia].
  by apply (bytes_ok_lookup _ _ _ Hring E).
Qed.

(** Whether the resolver stops at the byte [j] past index [a], with [r] bytes
    ringed past [a]. *)
Definition stops_at (a r j : Z) : bool :=
  (ring_at ring a j =? 0) && ((r - j <? 4) || (3 <=? ring_at ring a (j + 2))).

Lemma plausible_stops f r : 0 <= fr_anchor f < len -> plausible ring (fr_anchor f) r = Some (stops_at (fr_anchor f) r 0).
Proof.
  intros Ha. unfold plausible, stops_at. rewrite (zget_ring ring Hlen (fr_anchor f)) by done. cbn [mbind option_bind].
  unfold BREAK_RING_BYTE. destruct (_ =? 0); [|done]. rewrite Z.sub_0_r. unfold HEADER_SPAN_BYTES.
  change (Z.of_nat Header_SIZE) with 4. destruct (r <? 4); [done|].
  pose proof (ring_len_pos _ Hlen). by rewrite (zget_ring_wrap ring Hlen) by lia.
Qed.

Lemma hunt_S budget f r :
  hunt (S budget) f ring r =
    (p ← plausible ring (fr_anchor f) r;
     if p : bool then Some (HuntFound f r)
     else
       let f' := set_anchor f (u16 (ring_wrap (fr_anchor f + 1) len)) true in
       if r - 1 =? 0 then Some (HuntEmpty f') else hunt budget f' ring (r - 1)).
Proof. done. Qed.

(** The framer after the hunt has skipped [k] bytes. *)
Definition skipped (f : Framer) (k : Z) : Framer :=
  if k =? 0 then f else set_anchor f ((fr_anchor f + k) mod len) true.

Lemma skipped_anchor f k : 0 <= fr_anchor f < len -> fr_anchor (skipped f k) = (fr_anchor f + k) mod len.
Proof.
  intros Ha. unfold skipped. destruct (Z.eqb_spec k 0) as [->|]; [|done].
  rewrite Z.add_0_r, Z.mod_small; done.
Qed.

Lemma anchor_range a : 0 <= a mod len < len.
Proof. apply Z.mod_pos_bound. pose proof (ring_len_pos _ Hlen). lia. Qed.

Lemma hunt_spec budget : forall f r,
  0 <= fr_anchor f < len -> 1 <= r < len ->
  exists k, 0 <= k <= r /\ (forall j, 0 <= j < k -> stops_at (fr_anchor f) r j = false) /\
    (hunt budget f ring r = Some (HuntFound (skipped f k) (r - k)) /\ k < r /\ stops_at (fr_anchor f) r k = true \/
     hunt budget f ring r = Some (HuntEmpty (skipped f k)) /\ k = r \/
     hunt budget f ring r = Some (HuntBudget (skipped f k)) /\ k = Z.of_nat budget /\ k < r).
Proof.
  induction budget as [|budget IH]; intros f r Ha Hr.
  { exists 0. split; [lia|]. split; [lia|]. right. right. by split; [|lia]. }
  rewrite hunt_S, plausible_stops by done. cbn [mbind option_bind].
  destruct (stops_at (fr_anchor f) r 0) eqn:E.
  { exists 0. split; [lia|]. split; [lia|]. left. rewrite Z.sub_0_r. split; [done|]. split; [lia|done]. }
  rewrite (ring_wrap_u16 ring Hlen). set (f' := set_anchor f _ true).
  destruct (Z.eqb_spec (r - 1) 0) as [E1|E1].
  { exists 1. split; [lia|]. split; [intros j Hj; by replace j with 0 by lia|].
    right. left. split; [|lia]. done. }
  destruct (IH f' (r - 1) (anchor_range _) ltac:(lia)) as (k & Hk & Hst & Hres).
  assert (forall j, stops_at (fr_anchor f') (r - 1) j = stops_at (fr_anchor f) r (j + 1)) as Hsh.
  { intros j. unfold stops_at. subst f'. cbn [fr_anchor set_anchor]. rewrite !(ring_at_shift ring Hlen). rewrite (Z.add_comm 1 j).
    replace (1 + (j + 2)) with (j + 1 + 2) by lia. replace (r - 1 - j) with (r - (j + 1)) by lia. done. }
  assert (skipped f' k = skipped f (k + 1)) as Hsk.
  { unfold skipped. rewrite (proj2 (Z.eqb_neq (k + 1) 0)) by lia. subst f'.
    destruct (Z.eqb_spec k 0) as [->|]; [done|]. unfold set_anchor. cbn [fr_anchor fr_fault_seen fr_drops].
    f_equal. rewrite Zplus_mod_idemp_l. f_equal. lia. }
  exists (k + 1). split; [lia|]. split.
  { intros j Hj. destruct (Z.eq_dec j 0) as [->|]; [done|].
    replace j with (j - 1 + 1) by lia. rewrite <- Hsh. apply Hst. lia. }
  rewrite Hsk in Hres. destruct Hres as [(-> & ? & ?)|[(-> & ?)|(-> & ? & ?)]].
  - left. replace (r - 1 - k) with (r - (k + 1)) by lia. rewrite <- Hsh. split; [done|]. split; [lia|done].
  - right. left. split; [done|lia].
  - right. right. split; [done|lia].
Qed.

(** ** Waiting on a silent wire

    [patience] bounds the wakes a candidate may still cost. *)

Definition giveup_ticks : Z := 64 * tpb.
Definition stalled (f : Framer) : bool :=
  ft_observed (fr_frontier f) && (cursor =? ft_seen (fr_frontier f)).
Definition elapsed (f : Framer) (now : Z) : Z := u32 (now - ft_progress_tick (fr_frontier f)).
Definition frontier_ok (f : Framer) (now : Z) : Prop :=
  stalled f = true ->
  elapsed f now <= giveup_ticks + (if ft_covered (fr_frontier f) then 4 * tpb else 0).
Definition patience (f : Framer) (now : Z) : Z :=
  (if stalled f then Z.max 0 (giveup_ticks - elapsed f now) else giveup_ticks + 1) +
  (if ft_covered (fr_frontier f) then 0 else 1).

Lemma patience_nonneg f now : 0 <= patience f now.
Proof. unfold patience, giveup_ticks. destruct (stalled f), (ft_covered _); lia. Qed.

(** One [wait]: give the candidate up, or sleep a positive time no longer than
    the horizon. *)
Definition wait_outcome (f : Framer) (now : Z) (f' : Framer) (t : Z) : Prop :=
  (fr_anchor f' = (fr_anchor f + 1) mod len /\ fr_frontier f' = Frontier_idle) \/
  (fr_anchor f' = fr_anchor f /\ frontier_ok f' t /\ patience f' t < patience f now).

Lemma wait_spec f aim now :
  frontier_ok f now -> 1 <= u32 (aim - now) ->
  exists f' t, Framer_wait f aim now tpb cursor len = (f', FoWait t) /\ wait_outcome f now f' t.
Proof.
  intros Hok Hx. set (x := u32 (aim - now)) in *. pose proof (u32_range (aim - now)) as Hxr. fold x in Hxr.
  change (2 ^ 20) with 1048576 in Htpb. unfold Framer_wait, STARVE_GIVEUP_BYTES, STARVE_HORIZON_BYTE_TIMES.
  rewrite (u32_id (64 * tpb)) by lia. fold (stalled f). fold giveup_ticks.
  unfold Frontier_advance. fold (stalled f). unfold frontier_ok, elapsed, giveup_ticks in Hok.
  destruct (stalled f) eqn:Es; cbn [andb].
  - specialize (Hok eq_refl). assert (u32 (now - ft_progress_tick (fr_frontier f)) <= 64 * tpb + 4 * tpb)
      by (destruct (ft_covered _); lia). clear Hok. set (P := ft_progress_tick (fr_frontier f)) in *.
    set (e := u32 (now - P)) in *. pose proof (u32_range (now - P)) as He. fold e in He.
    rewrite tick_reached_after by (fold e; unfold giveup_ticks; change (2 ^ 30) with 1073741824; lia). fold e.
    destruct (Z.leb_spec giveup_ticks e) as [Hge|Hlt].
    + eexists _, _. split; [done|]. left. unfold Framer_give_up. cbn [fr_anchor fr_frontier set_frontier].
      by rewrite (ring_wrap_u16 ring Hlen).
    + assert (u32 (u32 (P + giveup_ticks) - now) = giveup_ticks - e) as Eh.
      { rewrite u32_sub_l. replace (P + giveup_ticks - now) with (giveup_ticks - (now - P)) by lia.
        rewrite <- u32_sub_r. fold e. apply u32_id. unfold giveup_ticks in *. lia. }
      rewrite Eh. fold x. eexists _, _. split; [done|]. right. split; [done|].
      unfold frontier_ok, patience, stalled, elapsed. cbn [fr_frontier set_frontier].
      fold (stalled f). rewrite Es. fold P e.
      assert (forall t, u32 (t - now) = Z.min x (giveup_ticks - e) -> u32 (t - P) = e + Z.min x (giveup_ticks - e)) as Ht.
      { intros t E. rewrite (u32_tri t now P). fold e. rewrite E.
        rewrite u32_id; [lia|]. unfold giveup_ticks in *. lia. }
      destruct (Z.leb_spec x (giveup_ticks - e)).
      * rewrite (Ht aim) by (fold x; lia). split; destruct (ft_covered _); lia.
      * rewrite (Ht (u32 (P + giveup_ticks))) by lia. split; destruct (ft_covered _); lia.
  - assert (u32 (u32 (now + giveup_ticks) - now) = giveup_ticks) as Eh.
    { rewrite u32_sub_l. replace (now + giveup_ticks - now) with giveup_ticks by lia. apply u32_id.
      unfold giveup_ticks. lia. }
    cbn [ft_progress_tick]. rewrite Eh. fold x. eexists _, _. split; [done|]. right. split; [done|].
    unfold frontier_ok, patience. rewrite Es. unfold stalled, elapsed.
    cbn [fr_frontier set_frontier ft_observed ft_seen ft_progress_tick ft_covered].
    rewrite Z.eqb_refl. cbn [andb]. unfold giveup_ticks in *.
    destruct (Z.leb_spec x (64 * tpb)); [fold x|rewrite Eh];
      split; destruct (ft_covered _); lia.
Qed.

Lemma wire_lead_bound b : 1 <= b <= 258 ->
  1 <= wire_lead b tpb < 2 ^ 30 /\ (b <= 2 -> wire_lead b tpb <= 4 * tpb).
Proof.
  intros Hb. change (2 ^ 20) with 1048576 in Htpb. change (2 ^ 30) with 1073741824.
  unfold wire_lead, DRIFT_SHIFT. assert (1 <= b * tpb <= 258 * 1048576) by nia.
  assert (b <= 2 -> b * tpb <= 2 * tpb) by nia.
  rewrite (u32_id (b * tpb)), Z.shiftr_div_pow2 by lia. change (2 ^ 6) with 64.
  set (t := b * tpb) in *. assert (0 <= t / 64 <= t) by (split; zmod).
  rewrite u32_id by lia. lia.
Qed.

Lemma aim_ahead now x : 0 <= x < 4294967296 -> u32 (u32 (now + x) - now) = x.
Proof. intros Hx. rewrite u32_sub_l. replace (now + x - now) with x by lia. by apply u32_id. Qed.

Lemma read_header_spec a : 0 <= a < len ->
  read_header ring a = Some (mkHeader (ring_at ring a 0) (ring_at ring a 1) (ring_at ring a 2) (ring_at ring a 3)).
Proof.
  intros Ha. pose proof (ring_len_pos _ Hlen). unfold read_header.
  rewrite (zget_ring_wrap ring Hlen a 0), (zget_ring_wrap ring Hlen a 1), (zget_ring_wrap ring Hlen a 2),
    (zget_ring_wrap ring Hlen a 3) by lia. done.
Qed.

(** A frame whose every byte is ringed. *)
Definition complete (a r : Z) : bool := (4 <=? r) && (3 + ring_at ring a 2 <=? r).

Lemma candidate_complete f r now :
  0 <= fr_anchor f < len -> complete (fr_anchor f) r = true ->
  let fp := 3 + ring_at ring (fr_anchor f) 2 in
  resolve_candidate f ring r cursor now tpb =
    Some (set_anchor f ((fr_anchor f + fp) mod len) (fr_hunting f), FoFrame (mkSpan (fr_anchor f) fp now)).
Proof.
  intros Ha Hc. apply andb_true_iff in Hc as [H1 H2]. zbool. cbv zeta. unfold resolve_candidate.
  unfold HEADER_SPAN_BYTES. change (Z.of_nat Header_SIZE) with 4. rewrite (proj2 (Z.ltb_ge r 4)) by lia.
  rewrite read_header_spec by done. cbn [mbind option_bind]. unfold Header_frame_end, Wire.footprint. cbn [h_len].
  pose proof (ring_at_u8 (fr_anchor f) 2). rewrite !(u16_id (3 + _)), (proj2 (Z.leb_le _ _)) by lia.
  by rewrite (ring_wrap_u16 ring Hlen).
Qed.

Lemma candidate_incomplete f r now :
  0 <= fr_anchor f < len -> 1 <= r < len -> complete (fr_anchor f) r = false -> frontier_ok f now ->
  exists f' o t, resolve_candidate f ring r cursor now tpb = Some (f', o) /\
    (o = FoWait t \/ exists sp, o = FoCovered sp t) /\ wait_outcome f now f' t.
Proof.
  intros Ha Hr Hc Hok. pose proof (ring_at_u8 (fr_anchor f) 2) as Hb. unfold complete in Hc.
  unfold resolve_candidate, HEADER_SPAN_BYTES. change (Z.of_nat Header_SIZE) with 4.
  destruct (Z.ltb_spec r 4).
  - destruct (wire_lead_bound (4 - r) ltac:(lia)) as [Hl _]. unfold BREAK_TAIL_EPS_DIV.
    change (2 ^ 20) with 1048576 in Htpb. change (2 ^ 30) with 1073741824 in Hl.
    assert (0 <= tpb / 2 <= tpb) by (split; zmod).
    destruct (wait_spec f (u32 (u32 (now + wire_lead (4 - r) tpb) + tpb / 2)) now Hok) as (f' & t & E & Ho).
    { rewrite u32_sub_l. replace (u32 (now + wire_lead (4 - r) tpb) + tpb / 2 - now)
        with (u32 (now + wire_lead (4 - r) tpb) - (now - tpb / 2)) by lia.
      rewrite u32_sub_l, u32_id; lia. }
    rewrite E. eexists _, _, t. split; [done|]. split; [by left|done].
  - rewrite read_header_spec by done. cbn [mbind option_bind]. unfold Header_frame_end, Wire.footprint.
    cbn [h_len]. set (l := ring_at ring (fr_anchor f) 2) in *. rewrite (u16_id (3 + l)) by lia.
    rewrite (proj2 (Z.leb_le 4 r)) in Hc by lia. cbn [andb] in Hc. rewrite Hc. zbool.
    unfold COVERED_TAIL_BYTES. destruct (ft_covered (fr_frontier f)) eqn:Ec; cbn [negb andb].
    2: destruct (Z.leb_spec (3 + l - r) 2) as [Hm|Hm].
    2: { destruct (wire_lead_bound (3 + l - r) ltac:(lia)) as [Hl Hl2]. specialize (Hl2 Hm).
         eexists _, _, _. split; [done|]. split; [right; by eexists|]. right. split; [done|].
         unfold frontier_ok, patience, elapsed, giveup_ticks in *. change (2 ^ 20) with 1048576 in Htpb.
         change (2 ^ 30) with 1073741824 in Hl. unfold Frontier_advance. fold (stalled f).
         rewrite Ec in *. set (x := wire_lead (3 + l - r) tpb) in *.
         destruct (stalled f) eqn:Es; unfold stalled in *;
           cbn [fr_frontier set_frontier ft_observed ft_seen ft_progress_tick ft_covered];
           rewrite ?Es, ?Z.eqb_refl; cbn [andb].
         - specialize (Hok eq_refl). set (P := ft_progress_tick (fr_frontier f)) in *.
           pose proof (u32_range (now - P)) as Hp. rewrite (u32_tri (u32 (now + x)) now P), aim_ahead by lia.
           rewrite (u32_id (x + _)) by lia. split; lia.
         - rewrite aim_ahead by lia. split; lia. }
    all: destruct (wire_lead_bound (if ft_covered (fr_frontier f) then 3 + l - r else 3 + l - r - 2)
                     ltac:(rewrite Ec; lia)) as [Hl _]; rewrite Ec in Hl;
         change (2 ^ 30) with 1073741824 in Hl.
    1: destruct (wait_spec f (u32 (now + wire_lead (3 + l - r) tpb)) now Hok) as (f' & t & E & Ho);
       [rewrite aim_ahead; lia|].
    2: destruct (wait_spec f (u32 (now + wire_lead (3 + l - r - 2) tpb)) now Hok) as (f' & t & E & Ho);
       [rewrite aim_ahead; lia|].
    all: rewrite E; eexists _, _, t; split; [done|]; split; [by left|done].
Qed.

Lemma frontier_idle_ok f now : fr_frontier f = Frontier_idle -> frontier_ok f now.
Proof. intros E. unfold frontier_ok, stalled. by rewrite E. Qed.

Lemma skipped_ok f k now : frontier_ok f now -> frontier_ok (skipped f k) now.
Proof.
  intros Hok. unfold skipped. destruct (k =? 0); [done|]. by apply frontier_idle_ok.
Qed.

Lemma backlog_skip f f' k :
  0 <= k <= backlog f -> fr_anchor f' = (fr_anchor f + k) mod len -> backlog f' = backlog f - k.
Proof. intros Hk E. unfold backlog in *. rewrite E. by apply ring_rem_step. Qed.

(** What one call does, from any state with bytes ahead: it skips the [k]
    bytes at which nothing can start, and then stops at the end, runs out of
    its scan budget, hands a complete frame out, or waits. *)
Lemma resolve_step f now :
  0 <= fr_anchor f < len -> 0 < backlog f -> frontier_ok f now ->
  let a := fr_anchor f in let r := backlog f in
  exists k, 0 <= k <= r /\ (forall j, 0 <= j < k -> stops_at a r j = false) /\
    let fk := skipped f k in let ak := (a + k) mod len in
    (Framer_resolve f ring cursor now tpb = Some (fk, FoNone) /\ k = r \/
     Framer_resolve f ring cursor now tpb = Some (fk, FoWait now) /\ 0 < k < r \/
     k < r /\ complete ak (r - k) = true /\
       (let fp := 3 + ring_at ring ak 2 in
        Framer_resolve f ring cursor now tpb =
          Some (set_anchor fk ((ak + fp) mod len) (fr_hunting fk), FoFrame (mkSpan ak fp now))) \/
     k < r /\ complete ak (r - k) = false /\
       exists f' o t, Framer_resolve f ring cursor now tpb = Some (f', o) /\
         (o = FoWait t \/ exists sp, o = FoCovered sp t) /\ wait_outcome fk now f' t).
Proof.
  intros Ha Hr Hok a r. pose proof (backlog_bound f) as Hb. fold r in Hr, Hb.
  pose proof (ring_len_pos _ Hlen) as Hl.
  destruct (hunt_spec HUNT_BYTES_PER_WAKE f r Ha ltac:(lia)) as (k & Hk & Hst & Hres).
  exists k. split; [done|]. split; [done|]. cbv zeta.
  assert (fr_anchor (skipped f k) = (a + k) mod len) as Ea by by apply skipped_anchor.
  assert (Framer_resolve f ring cursor now tpb =
    h ← hunt HUNT_BYTES_PER_WAKE f ring r;
    match h with
    | HuntEmpty f => Some (f, FoNone)
    | HuntBudget f => Some (f, FoWait now)
    | HuntFound f received => resolve_candidate f ring received cursor now tpb
    end) as ->.
  { unfold Framer_resolve. rewrite (proj2 (Z.eqb_neq len 0)) by lia. rewrite dist_backlog.
    fold r. by rewrite (proj2 (Z.eqb_neq r 0)) by lia. }
  destruct Hres as [(-> & Hlt & Hstop)|[(-> & ->)|(-> & -> & Hlt)]]; cbn [mbind option_bind].
  - right. right. pose proof (anchor_range (a + k)) as Hak. rewrite <- Ea in Hak.
    destruct (complete ((a + k) mod len) (r - k)) eqn:Ec; [left|right]; (split; [done|]; split; [done|]).
    + rewrite <- Ea in *. by apply candidate_complete.
    + rewrite <- Ea in Ec. apply candidate_incomplete; [done|lia|done|by apply skipped_ok].
  - by left.
  - right. left. split; [done|]. unfold HUNT_BYTES_PER_WAKE in *. lia.
Qed.

(** ** The resolver on a silent wire

    The composite's loop with the wire quiet at [cursor]: wake exactly when
    asked, and settle each frame by a CRC verdict [acc] on its place.  The
    result lists the accepted frames. *)
Fixpoint drive (fuel : nat) (acc : Z -> Z -> bool) (f : Framer) (now : Z) :
    option (Framer * list (Z * Z)) :=
  match fuel with
  | O => None
  | S fuel' =>
      match Framer_resolve f ring cursor now tpb with
      | None => None
      | Some (f', FoNone) => Some (f', [])
      | Some (f', FoWait t) => drive fuel' acc f' t
      | Some (f', FoCovered _ t) => drive fuel' acc f' t
      | Some (f', FoFrame sp) =>
          if acc (fs_anchor sp) (fs_footprint sp) then
            match drive fuel' acc (Framer_on_frame_verified f') now with
            | Some (f2, out) => Some (f2, (fs_anchor sp, fs_footprint sp) :: out)
            | None => None
            end
          else drive fuel' acc (Framer_on_frame_rejected f' (fs_anchor sp) len) now
      end
  end.

(** A complete, acceptable frame [r] bytes before the cursor, with nothing
    acceptable before it. *)
Definition target (acc : Z -> Z -> bool) (r : Z) : Prop :=
  let a := (cursor - r) mod len in
  let fp := 3 + ring_at ring a 2 in
  1 <= r < len /\ ring_at ring a 0 = 0 /\ 3 <= ring_at ring a 2 /\ fp <= r /\ acc a fp = true /\
  forall b n, 0 <= b < len -> r < (cursor - b) mod len -> acc b n = false.

Lemma anchor_at f k : (fr_anchor f + k) mod len = (cursor - (backlog f - k)) mod len.
Proof.
  unfold backlog. replace (cursor - ((cursor - fr_anchor f) mod len - k))
    with (cursor + k - (cursor - fr_anchor f) mod len) by lia.
  rewrite Zminus_mod_idemp_r. f_equal. lia.
Qed.

Lemma target_not_skipped acc f R k :
  target acc R -> R <= backlog f ->
  (forall j, 0 <= j < k -> stops_at (fr_anchor f) (backlog f) j = false) -> k <= backlog f - R.
Proof.
  intros (HR & H0 & H2 & Hfp & _ & _) Hle Hst. destruct (Z.le_gt_cases k (backlog f - R)); [done|].
  specialize (Hst (backlog f - R) ltac:(lia)). unfold stops_at in Hst.
  replace R with (backlog f - (backlog f - R)) in H0, H2 by lia. rewrite <- anchor_at in H0, H2.
  rewrite (ring_at_shift ring Hlen) in H0, H2. rewrite Z.add_0_r in H0. rewrite H0 in Hst.
  rewrite (proj2 (Z.leb_le 3 _)), orb_true_r in Hst by done. done.
Qed.

Lemma target_complete acc f R k :
  target acc R -> R = backlog f - k -> complete ((fr_anchor f + k) mod len) (backlog f - k) = true.
Proof.
  intros (HR & H0 & H2 & Hfp & _ & _) ->. rewrite anchor_at. unfold complete.
  rewrite (proj2 (Z.leb_le _ _)), (proj2 (Z.leb_le _ _)) by lia. done.
Qed.

Lemma backlog_zero f : 0 <= fr_anchor f < len -> backlog f = 0 -> fr_anchor f = cursor.
Proof.
  intros Ha E. unfold backlog in E. apply Z.mod_divide in E as [q E]; [|lia].
  assert (q = 0) by nia. lia.
Qed.

(** The drive's outcome from [f]: it ends caught up, and every target still
    ahead is in its output. *)
Definition drives (acc : Z -> Z -> bool) (f : Framer) (now : Z) : Prop :=
  exists fuel f' out, drive fuel acc f now = Some (f', out) /\ fr_anchor f' = cursor /\
    forall R, target acc R -> R <= backlog f -> ((cursor - R) mod len, 3 + ring_at ring ((cursor - R) mod len) 2) ∈ out.

(** One call that hands out no frame passes the outcome back. *)
Lemma drives_wake acc f now f' o t :
  Framer_resolve f ring cursor now tpb = Some (f', o) -> (o = FoWait t \/ exists sp, o = FoCovered sp t) ->
  (forall R, target acc R -> R <= backlog f -> R <= backlog f') -> drives acc f' t -> drives acc f now.
Proof.
  intros E Ho HR (fuel & f2 & out & Hd & Hc & Hin). exists (S fuel), f2, out.
  split; [|split; [done|auto]]. cbn [drive]. rewrite E. by destruct Ho as [->|[sp ->]].
Qed.

Lemma drives_frame acc f now k fk :
  let a := (fr_anchor f + k) mod len in let fp := 3 + ring_at ring a 2 in
  0 <= k < backlog f -> complete a (backlog f - k) = true ->
  (forall j, 0 <= j < k -> stops_at (fr_anchor f) (backlog f) j = false) ->
  Framer_resolve f ring cursor now tpb = Some (set_anchor fk ((a + fp) mod len) (fr_hunting fk), FoFrame (mkSpan a fp now)) ->
  (forall f', 0 <= fr_anchor f' < len -> fr_frontier f' = Frontier_idle -> backlog f' < backlog f -> drives acc f' now) ->
  drives acc f now.
Proof.
  intros a fp Hk Hc Hst E IH. pose proof (anchor_range (fr_anchor f + k)) as Har. fold a in Har.
  pose proof (ring_at_u8 a 2) as Hu. apply andb_true_iff in Hc as [H1 H2]. fold fp in H2. zbool.
  pose proof (backlog_bound f) as Hbb.
  set (fa := mkFramer a true Frontier_idle 0 0).
  assert (backlog fa = backlog f - k) as Efa by (apply backlog_skip; [lia|done]).
  destruct (acc a fp) eqn:Eacc.
  - destruct (IH (Framer_on_frame_verified (set_anchor fk ((a + fp) mod len) (fr_hunting fk))))
      as (fuel & f2 & out & Hd & Hcur2 & Hin); [apply anchor_range|done| |].
    { rewrite (backlog_skip fa _ fp) by (try done; lia). lia. }
    exists (S fuel), f2, ((a, fp) :: out). cbn [drive]. rewrite E. cbn [fs_anchor fs_footprint].
    rewrite Eacc, Hd. split; [done|]. split; [done|]. intros R HR Hle.
    pose proof (target_not_skipped acc f R k HR Hle Hst).
    destruct (Z.eq_dec R (backlog f - k)) as [->|].
    + rewrite <- anchor_at. apply list_elem_of_here.
    + destruct HR as (_ & _ & _ & _ & _ & Hrej). rewrite Hrej in Eacc; [done|done|].
      unfold backlog in Efa at 1. cbn [fr_anchor fa] in Efa. lia.
  - destruct (IH (Framer_on_frame_rejected (set_anchor fk ((a + fp) mod len) (fr_hunting fk)) a len))
      as (fuel & f2 & out & Hd & Hcur2 & Hin); [|done| |].
    { cbn [fr_anchor Framer_on_frame_rejected]. rewrite (ring_wrap_u16 ring Hlen). apply anchor_range. }
    { rewrite (backlog_skip fa _ 1); [lia|lia|]. apply (ring_wrap_u16 ring Hlen). }
    exists (S fuel), f2, out. cbn [drive]. rewrite E. cbn [fs_anchor fs_footprint].
    rewrite Eacc. split; [done|]. split; [done|]. intros R HR Hle.
    pose proof (target_not_skipped acc f R k HR Hle Hst). apply Hin; [done|].
    rewrite (backlog_skip fa _ 1); [|lia|apply (ring_wrap_u16 ring Hlen)].
    destruct (Z.eq_dec R (backlog f - k)) as [->|]; [|lia].
    destruct HR as (_ & _ & _ & _ & Hacc & _). rewrite <- anchor_at in Hacc. fold a fp in Hacc. congruence.
Qed.

Lemma drives_all acc : forall (n p : nat) f now,
  0 <= fr_anchor f < len -> frontier_ok f now -> backlog f <= Z.of_nat n -> patience f now <= Z.of_nat p ->
  drives acc f now.
Proof.
  induction n as [n IHn] using lt_wf_ind. induction p as [p IHp] using lt_wf_ind.
  intros f now Ha Hok Hn Hp. pose proof (backlog_bound f) as Hb. pose proof (ring_len_pos _ Hlen) as Hl.
  assert (forall f' t, 0 <= fr_anchor f' < len -> frontier_ok f' t -> backlog f' < backlog f ->
            drives acc f' t) as Hless.
  { intros f' t Ha' Hok' Hlt. pose proof (backlog_bound f'). pose proof (patience_nonneg f' t).
    apply (IHn (Z.to_nat (backlog f')) ltac:(lia) (Z.to_nat (patience f' t))); [done|done|lia..]. }
  destruct (Z.eq_dec (backlog f) 0) as [E0|E0].
  { exists 1%nat, (set_frontier f Frontier_idle), []. split.
    - cbn [drive]. unfold Framer_resolve. rewrite (proj2 (Z.eqb_neq len 0)) by lia.
      by rewrite dist_backlog, E0.
    - split; [by apply backlog_zero|]. intros R [HR _] Hle. lia. }
  destruct (resolve_step f now Ha ltac:(lia) Hok) as (k & Hk & Hst & Hcase).
  pose proof (skipped_anchor f k Ha) as Ea. pose proof (backlog_skip f (skipped f k) k Hk Ea) as Ebk.
  pose proof (anchor_range (fr_anchor f + k)) as Har.
  assert (forall R, target acc R -> R <= backlog f -> R <= backlog f - k) as HRk
    by (intros R HR Hle; pose proof (target_not_skipped acc f R k HR Hle Hst); lia).
  destruct Hcase as [(E & ->)|[(E & Hk2)|[(Hk2 & Hc & E)|(Hk2 & Hc & f' & o & t & E & Ho & Hw)]]].
  - exists 1%nat, (skipped f (backlog f)), []. cbn [drive]. rewrite E. split; [done|]. split.
    + apply backlog_zero; [by rewrite Ea|lia].
    + intros R HR Hle. specialize (HRk R HR Hle). destruct HR. lia.
  - apply (drives_wake acc f now _ _ now E); [by left|intros; rewrite Ebk; auto|].
    apply Hless; [by rewrite Ea|by apply skipped_ok|lia].
  - apply (drives_frame acc f now k (skipped f k)); [lia|done|done|done|].
    intros f' Ha' Hi Hlt. apply Hless; [done|by apply frontier_idle_ok|done].
  - assert (forall R, target acc R -> R <= backlog f -> R <= backlog f - k - 1) as HRk1.
    { intros R HR Hle. specialize (HRk R HR Hle). destruct (Z.eq_dec R (backlog f - k)) as [Er|]; [|lia].
      by rewrite (target_complete acc f R k HR Er) in Hc. }
    destruct Hw as [[Ea' Hi]|(Ea' & Hok' & Hpat)].
    + assert (backlog f' = backlog f - k - 1) as Eb'
        by (rewrite (backlog_skip (skipped f k) f' 1); [lia|lia|done]).
      apply (drives_wake acc f now f' o t E Ho); [intros; rewrite Eb'; auto|].
      apply Hless; [rewrite Ea'; apply anchor_range|by apply frontier_idle_ok|lia].
    + assert (backlog f' = backlog f - k) as Eb' by (unfold backlog in *; by rewrite Ea').
      apply (drives_wake acc f now f' o t E Ho); [intros; rewrite Eb'; auto|].
      assert (0 <= fr_anchor f' < len) by (rewrite Ea', Ea; apply anchor_range).
      destruct (Z.eq_dec k 0) as [->|]; [|apply Hless; [done|done|lia]].
      change (skipped f 0) with f in Hpat. pose proof (patience_nonneg f' t).
      apply (IHp (Z.to_nat (patience f' t)) ltac:(lia)); [done|done|lia..].
Qed.

End resolver.

(** C14: resynchronisation.  Take any ring contents (noise, torn frames, junk
    headers), any place for the anchor, any CRC verdicts, and a wire that has
    gone silent.  The resolver, woken when it asks, never panics and never
    livelocks: it ends with every ringed byte consumed.  And any complete frame
    that the CRC accepts, with nothing acceptable before it, is handed out,
    however much noise or however many false headers stand in front of it. *)
Theorem framer_recovers ring cursor tpb acc f now :
  ring_len_ok (Z.of_nat (length ring)) -> bytes_ok ring -> 0 <= cursor < Z.of_nat (length ring) ->
  1 <= tpb <= 2 ^ 20 -> 0 <= fr_anchor f < Z.of_nat (length ring) -> fr_frontier f = Frontier_idle ->
  exists fuel f' out,
    drive ring cursor tpb fuel acc f now = Some (f', out) /\ fr_anchor f' = cursor /\
    forall r, target ring cursor acc r -> r <= backlog ring cursor f ->
      let a := (cursor - r) mod Z.of_nat (length ring) in (a, 3 + ring_at ring a 2) ∈ out.
Proof.
  intros Hlen Hring Hcur Htpb Ha Hi.
  apply (drives_all ring cursor tpb Hlen Hring Hcur Htpb acc (Z.to_nat (backlog ring cursor f))
           (Z.to_nat (patience cursor tpb f now)));
    [done|by apply (frontier_idle_ok ring cursor tpb)| |].
  - pose proof (backlog_bound ring cursor tpb Hlen Hring Hcur Htpb f). lia.
  - pose proof (patience_nonneg ring cursor tpb Hlen Hring Hcur Htpb f now). lia.
Qed.

(** Behind a junk header that claims 203 bytes: the frame at 4 is found. *)
Definition demo_noise : list Z := [0; 9; 200; 5; 0; 7; 3; 16; 1; 2; 0; 0; 0; 0; 0; 0].

Lemma framer_recovers_witness :
  exists fuel f' out,
    drive demo_noise 10 100 fuel (fun a _ => a =? 4) Framer_new 0 = Some (f', out) /\ (4, 6) ∈ out.
Proof.
  destruct (framer_recovers demo_noise 10 100 (fun a _ => a =? 4) Framer_new 0) as (fuel & f' & out & E & _ & H);
    [exists 4; split; [lia|reflexivity]|repeat constructor; lia|simpl; lia|lia|simpl; lia|reflexivity|].
  exists fuel, f', out. split; [exact E|]. apply (H 6); [|vm_compute; discriminate].
  repeat split; try (vm_compute; congruence). intros b n Hb Hlt. apply Z.eqb_neq. intros ->.
  vm_compute in Hlt. congruence.
Defined.

(** ** A clean backlog *)

Lemma drive_frame ring cursor tpb fuel acc f now f' sp :
  Framer_resolve f ring cursor now tpb = Some (f', FoFrame sp) ->
  drive ring cursor tpb (S fuel) acc f now =
    if acc (fs_anchor sp) (fs_footprint sp) then
      match drive ring cursor tpb fuel acc (Framer_on_frame_verified f') now with
      | Some (f2, out) => Some (f2, (fs_anchor sp, fs_footprint sp) :: out)
      | None => None
      end
    else drive ring cursor tpb fuel acc
           (Framer_on_frame_rejected f' (fs_anchor sp) (Z.of_nat (length ring))) now.
Proof. intros E. cbn [drive]. by rewrite E. Qed.

(** A whole frame as it stands in the ring. *)
Definition wire_frame (w : list Z) : Prop :=
  w !! 0%nat = Some 0 /\ exists l, w !! 2%nat = Some l /\ 3 <= l <= 255 /\ Z.of_nat (length w) = 3 + l.

(** The places of contiguous frames from index [a] of a ring of [len] bytes. *)
Fixpoint places (len a : Z) (ws : list (list Z)) : list (Z * Z) :=
  match ws with
  | [] => []
  | w :: ws' => (a, Z.of_nat (length w)) :: places len ((a + Z.of_nat (length w)) mod len) ws'
  end.

(** The first frame of a ringed stream: its bytes in the ring, and the call
    that hands it out without waiting or hunting. *)
Lemma ring_bytes_first ring a n w rest (i : nat) :
  ring_bytes ring a n = w ++ rest -> (i < length w)%nat -> w !! i = Some (ring_at ring a (Z.of_nat i)).
Proof.
  intros Hb Hi. apply (f_equal length) in Hb as Hl. rewrite length_ring_bytes, length_app in Hl.
  rewrite <- (ring_bytes_lookup ring a n) by lia. by rewrite Hb, lookup_app_l.
Qed.

Lemma resolve_clean ring cursor tpb now f w rest :
  ring_len_ok (Z.of_nat (length ring)) -> bytes_ok ring -> 0 <= cursor < Z.of_nat (length ring) ->
  1 <= tpb <= 2 ^ 20 -> 0 <= fr_anchor f < Z.of_nat (length ring) -> wire_frame w ->
  ring_bytes ring (fr_anchor f) (Z.to_nat (backlog ring cursor f)) = w ++ rest ->
  Framer_resolve f ring cursor now tpb =
    Some (set_anchor f ((fr_anchor f + Z.of_nat (length w)) mod Z.of_nat (length ring)) (fr_hunting f),
          FoFrame (mkSpan (fr_anchor f) (Z.of_nat (length w)) now)).
Proof.
  intros Hlen Hring Hcur Htpb Ha (H0 & l & H2 & Hl & Hwl) Hb.
  pose proof (ring_len_pos _ Hlen) as Hlp. apply (f_equal length) in Hb as Hbl.
  rewrite length_ring_bytes, length_app in Hbl.
  rewrite (ring_bytes_first _ _ _ _ _ _ Hb) in H0 by lia.
  rewrite (ring_bytes_first _ _ _ _ _ _ Hb) in H2 by lia.
  set (r := backlog ring cursor f) in *. set (a := fr_anchor f) in *.
  apply (inj Some) in H0, H2. change (Z.of_nat 0) with 0 in H0. change (Z.of_nat 2) with 2 in H2.
  unfold Framer_resolve. rewrite (proj2 (Z.eqb_neq _ 0)) by lia.
  rewrite (dist_backlog ring cursor tpb Hlen Hring Hcur Htpb). fold r.
  rewrite (proj2 (Z.eqb_neq r 0)) by lia. change HUNT_BYTES_PER_WAKE with (S 63).
  rewrite (hunt_S ring cursor tpb Hlen Hring Hcur Htpb).
  rewrite (plausible_stops ring cursor tpb Hlen Hring Hcur Htpb) by done. fold a. cbn [mbind option_bind].
  assert (stops_at ring a r 0 = true) as ->.
  { unfold stops_at. change (0 + 2) with 2. rewrite H0, H2.
    rewrite (proj2 (Z.leb_le 3 l)), orb_true_r by lia. done. }
  cbn [mbind option_bind]. rewrite (candidate_complete ring cursor tpb Hlen Hring Hcur Htpb); [|done|].
  - fold a. by rewrite H2, Hwl.
  - unfold complete. fold a. rewrite H2, (proj2 (Z.leb_le 4 r)), (proj2 (Z.leb_le (3 + l) r)) by lia. done.
Qed.

(** The rest of the stream stands right behind its first frame. *)
Lemma ring_bytes_rest ring a n w rest :
  ring_len_ok (Z.of_nat (length ring)) -> ring_bytes ring a n = w ++ rest ->
  ring_bytes ring ((a + Z.of_nat (length w)) mod Z.of_nat (length ring)) (n - length w) = rest.
Proof.
  intros Hlen Hb. apply (f_equal length) in Hb as Hl. rewrite length_ring_bytes, length_app in Hl.
  apply (app_inv_head w). rewrite <- Hb. replace n with (length w + (n - length w))%nat at 2 by lia.
  rewrite (ring_bytes_app ring Hlen). f_equal.
  apply list_eq_same_length with (length w); [by rewrite length_ring_bytes|done|].
  intros i x y Hi Hx Hy. rewrite ring_bytes_lookup in Hy by done.
  rewrite (ring_bytes_first _ _ _ _ _ _ Hb) in Hx by done. congruence.
Qed.

Lemma drive_clean ring cursor tpb acc now : forall ws f,
  ring_len_ok (Z.of_nat (length ring)) -> bytes_ok ring -> 0 <= cursor < Z.of_nat (length ring) ->
  1 <= tpb <= 2 ^ 20 -> 0 <= fr_anchor f < Z.of_nat (length ring) -> fr_frontier f = Frontier_idle ->
  Forall wire_frame ws -> fr_hunting f = false ->
  ring_bytes ring (fr_anchor f) (Z.to_nat (backlog ring cursor f)) = concat ws ->
  Forall (fun s => acc s.1 s.2 = true) (places (Z.of_nat (length ring)) (fr_anchor f) ws) ->
  drive ring cursor tpb (S (length ws)) acc f now =
    Some (mkFramer cursor false Frontier_idle (fr_fault_seen f) (fr_drops f),
          places (Z.of_nat (length ring)) (fr_anchor f) ws).
Proof.
  induction ws as [|w ws IH]; intros f Hlen Hring Hcur Htpb Ha Hi Hws Hh Hb Hacc.
  all: pose proof (backlog_bound ring cursor tpb Hlen Hring Hcur Htpb f) as Hbb;
       pose proof (ring_len_pos _ Hlen) as Hlp; apply (f_equal length) in Hb as Hbl;
       rewrite length_ring_bytes in Hbl.
  - cbn [concat length] in Hbl. cbn [length drive]. unfold Framer_resolve.
    rewrite (proj2 (Z.eqb_neq _ 0)) by lia.
    rewrite (dist_backlog ring cursor tpb Hlen Hring Hcur Htpb).
    replace (backlog ring cursor f) with 0 by lia. rewrite Z.eqb_refl.
    rewrite <- (backlog_zero ring cursor tpb Hlen Hring Hcur Htpb f Ha ltac:(lia)).
    destruct f; cbn in *. by subst.
  - apply Forall_cons_1 in Hws as [Hw Hws]. cbn [concat] in Hb, Hbl. rewrite length_app in Hbl.
    cbn [places] in Hacc. apply Forall_cons_1 in Hacc as [Hacc Haccs]. cbn [fst snd] in Hacc.
    change (length (w :: ws)) with (S (length ws)).
    rewrite (drive_frame ring cursor tpb _ acc f now _ _
               (resolve_clean ring cursor tpb now f w _ Hlen Hring Hcur Htpb Ha Hw Hb)).
    cbn [fs_anchor fs_footprint places]. rewrite Hacc. set (f' := Framer_on_frame_verified _).
    assert (backlog ring cursor f' = backlog ring cursor f - Z.of_nat (length w)) as Eb
      by (apply (backlog_skip ring cursor tpb Hlen Hring Hcur Htpb f f'); [lia|done]).
    rewrite (IH f' Hlen Hring Hcur Htpb); [done| |done|done|done| |done].
    + apply (anchor_range ring cursor tpb Hlen Hring Hcur Htpb).
    + rewrite Eb. rewrite <- (ring_bytes_rest _ _ _ _ _ Hlen Hb). f_equal. lia.
Qed.

Lemma places_views ring : forall ws a n,
  ring_len_ok (Z.of_nat (length ring)) -> 0 <= a < Z.of_nat (length ring) -> (n <= length ring)%nat ->
  ring_bytes ring a n = concat ws ->
  Forall2 (fun s w => exists v, frame_view ring s.1 s.2 = Some v /\ FrameBytes_bytes v = w)
    (places (Z.of_nat (length ring)) a ws) ws.
Proof.
  induction ws as [|w ws IH]; intros a n Hlen Ha Hn Hb; [constructor|]. cbn [concat places] in *.
  pose proof (ring_len_pos _ Hlen). apply (f_equal length) in Hb as Hl.
  rewrite length_ring_bytes, length_app in Hl. constructor.
  - destruct (frame_view_bytes ring a (Z.of_nat (length w))) as (v & E & Ev); [lia|lia|].
    exists v. split; [done|]. rewrite Ev, Nat2Z.id.
    apply list_eq_same_length with (length w); [done|by rewrite length_ring_bytes|].
    intros i x y Hi Hx Hy. rewrite ring_bytes_lookup in Hx by done.
    rewrite (ring_bytes_first _ _ _ _ _ _ Hb) in Hy by done. congruence.
  - apply (IH _ (n - length w)%nat); [done|apply Z.mod_pos_bound; lia|lia|].
    by apply ring_bytes_rest.
Qed.

(** Position comes from the stream.  When the ring holds contiguous whole
    frames from the anchor up to the cursor, across the seam or not, the
    resolver hands out exactly those frames, in order, each in one call that
    neither waits nor hunts, and each view taken at its place reads exactly the
    frame's bytes; it ends at the cursor with no drop counted. *)
Theorem clean_backlog ring cursor tpb acc f now ws :
  ring_len_ok (Z.of_nat (length ring)) -> bytes_ok ring -> 0 <= cursor < Z.of_nat (length ring) ->
  1 <= tpb <= 2 ^ 20 -> 0 <= fr_anchor f < Z.of_nat (length ring) -> fr_frontier f = Frontier_idle ->
  fr_hunting f = false -> Forall wire_frame ws ->
  ring_bytes ring (fr_anchor f) (Z.to_nat (backlog ring cursor f)) = concat ws ->
  let ps := places (Z.of_nat (length ring)) (fr_anchor f) ws in
  Forall (fun s => acc s.1 s.2 = true) ps ->
  drive ring cursor tpb (S (length ws)) acc f now =
    Some (mkFramer cursor false Frontier_idle (fr_fault_seen f) (fr_drops f), ps) /\
  Forall2 (fun s w => exists v, frame_view ring s.1 s.2 = Some v /\ FrameBytes_bytes v = w) ps ws.
Proof.
  intros Hlen Hring Hcur Htpb Ha Hi Hh Hws Hb ps Hacc. split.
  - by apply drive_clean.
  - pose proof (backlog_bound ring cursor tpb Hlen Hring Hcur Htpb f).
    apply (places_views ring ws _ (Z.to_nat (backlog ring cursor f))); [done|done|lia|done].
Qed.

(** Two frames, the second across the seam of a sixteen-byte ring. *)
Definition demo_stream : list Z := [4; 17; 9; 8; 0; 0; 0; 0; 0; 7; 3; 16; 1; 2; 0; 5].

Lemma clean_backlog_witness :
  drive demo_stream 5 100 3 (fun _ _ => true) (mkFramer 8 false Frontier_idle 0 0) 0 =
    Some (mkFramer 5 false Frontier_idle 0 0, [(8, 6); (14, 7)]).
Proof.
  apply (clean_backlog demo_stream 5 100 (fun _ _ => true) (mkFramer 8 false Frontier_idle 0 0) 0
           [[0; 7; 3; 16; 1; 2]; [0; 5; 4; 17; 9; 8; 0]]);
    [exists 4; split; [lia|reflexivity]|repeat constructor; lia|simpl; lia|lia|simpl; lia|reflexivity
    |reflexivity| |reflexivity|repeat constructor].
  repeat constructor; eexists; (split; [reflexivity|simpl; lia]).
Defined.
