(* ===== verification/Decode.v ===== *)
(** * Frame decoding (firmware/lib/drivers/src/bus/decode.rs)

    A whole frame, viewed as up to two ring segments, becomes the request a
    servo dispatches, with its reply permission and chain slot; or it is a
    status to snoop, or not for this servo.  The theorem closes the loop with
    the host's builders: what a builder encodes is what the servo dispatches. *)

From S2P Require Import Prelude FrameBytes Wire Frame Group Build Stage Table Regions Persist Dispatch.

Inductive Decoded :=
| DStatus
| DSkip
| DOwn (req : Request) (may_reply : bool) (slot : Z).

Definition decode_mgmt (pay : FrameBytes) (broadcast : bool) : Request :=
  match MgmtReq_parse pay with
  | Some m =>
      match mr_op m with
      | MoEnum =>
          match EnumReq_parse (mr_args m) with
          | Some e => ReqEnumerate (er_prefix_len e) (er_prefix e)
          | None => ReqUnsupported
          end
      | MoAssign =>
          match AssignReq_parse (mr_args m) with
          | Some a => ReqAssign (ar_uid a) (ar_new_id a)
          | None => ReqUnsupported
          end
      | MoCal =>
          match CalReq_parse (mr_args m) with
          | Some c => if broadcast then ReqCalibrate (cr_gap_us c) (cr_gaps c) else ReqUnsupported
          | None => ReqUnsupported
          end
      | op => ReqMgmt op (mr_args m)
      end
  | None => ReqUnsupported
  end.

Definition decode_plain_req (op : Opcode) (inst : Inst) (pay : FrameBytes) (broadcast : bool) : Request :=
  match op with
  | OpPing => ReqPing
  | OpRead =>
      if Inst_profile inst then
        match ProfileReq_parse pay with Some r => ReqReadProfile (pr_slot r) | None => ReqUnsupported end
      else
        match ReadReq_parse pay with Some r => ReqRead (rr_addr r) (rr_count r) | None => ReqUnsupported end
  | OpWrite =>
      match WriteReq_parse pay with
      | Some w => ReqWrite (wr_addr w) (wr_data w) (Inst_hold inst)
      | None => ReqUnsupported
      end
  | OpCommit => ReqCommit
  | OpMgmt => decode_mgmt pay broadcast
  | _ => ReqUnsupported
  end.

Definition decode_plain (op : Opcode) (inst : Inst) (frame_id : Id) (pay : FrameBytes) (own : Id) : Decoded :=
  let broadcast := Id_is_broadcast frame_id in
  if negb (Id_addresses frame_id own) then DSkip
  else
    let req := decode_plain_req op inst pay broadcast in
    let may_reply :=
      negb (Inst_noreply inst) &&
      (negb broadcast || match req with ReqEnumerate _ _ | ReqAssign _ _ => true | _ => false end) in
    DOwn req may_reply 0.

Definition own_read (addr count slot : Z) : Decoded := DOwn (ReqRead addr count) true slot.
Definition own_read_profile (profile slot : Z) : Decoded := DOwn (ReqReadProfile profile) true slot.
Definition own_write (addr : Z) (data : FrameBytes) (hold : bool) : Decoded :=
  DOwn (ReqWrite addr data hold) false 0.

Definition decode_gread (inst : Inst) (pay : FrameBytes) (own : Id) : Decoded :=
  match Inst_profile inst, Inst_per_target inst with
  | false, true =>
      match g ← GreadPerTarget_parse pay; GreadPerTarget_find g own with
      | Some (slot, t) => own_read (gt_addr t) (gt_count t) slot
      | None => DSkip
      end
  | false, false =>
      match GreadUniform_parse pay with
      | Some g => match GreadUniform_slot_of g own with
                  | Some slot => own_read (gu_addr g) (gu_count g) slot
                  | None => DSkip
                  end
      | None => DSkip
      end
  | true, true =>
      match g ← GreadProfilePerTarget_parse pay; GreadProfilePerTarget_find g own with
      | Some (slot, t) => own_read_profile (gp_slot t) slot
      | None => DSkip
      end
  | true, false =>
      match GreadProfileUniform_parse pay with
      | Some g => match GreadProfileUniform_slot_of g own with
                  | Some slot => own_read_profile (gpu_slot g) slot
                  | None => DSkip
                  end
      | None => DSkip
      end
  end.

Definition decode_gwrite (inst : Inst) (pay : FrameBytes) (own : Id) : Decoded :=
  let hold := Inst_hold inst in
  if Inst_per_target inst then
    match g ← GwritePerTarget_parse pay; GwritePerTarget_find g own with
    | Some t => own_write (gw_addr t) (gw_data t) hold
    | None => DSkip
    end
  else
    match GwriteUniform_parse pay with
    | Some g => match GwriteUniform_find g own with
                | Some data => own_write (gwu_addr g) data hold
                | None => DSkip
                end
    | None => DSkip
    end.

Definition decode (frame : FrameBytes) (id : Z) : Decoded :=
  match FrameBytes_u8_at frame 0, FrameBytes_u8_at frame 1, FrameBytes_u8_at frame 2,
        FrameBytes_u8_at frame 3 with
  | Some b0, Some b1, Some b2, Some b3 =>
      let h := Header_from_bytes b0 b1 b2 b3 in
      if Inst_is_status (h_inst h) then DStatus
      else
        match Inst_opcode (h_inst h) with
        | None => DSkip
        | Some op =>
            match FrameBytes_sub frame Header_SIZE (Z.to_nat (Header_payload_len h)) with
            | None => DSkip
            | Some pay =>
                match op with
                | OpGread => decode_gread (h_inst h) pay id
                | OpGwrite => decode_gwrite (h_inst h) pay id
                | _ => decode_plain op (h_inst h) (h_id h) pay id
                end
            end
        end
  | _, _, _, _ => DSkip
  end.

(** ** What a builder encodes is what the servo dispatches *)

(** A whole frame around a payload, its two CRC bytes last. *)
Definition framed (fid inst : Z) (pay crc : list Z) : list Z :=
  0 :: fid :: 3 + Z.of_nat (length pay) :: inst :: pay ++ crc.

Lemma decode_framed f fid inst pay crc own op :
  FrameBytes_bytes f = framed fid inst pay crc -> (length pay <= 252)%nat ->
  Inst_is_status inst = false -> Inst_opcode inst = Some op ->
  exists g, FrameBytes_bytes g = pay /\
    decode f own = match op with
                   | OpGread => decode_gread inst g own
                   | OpGwrite => decode_gwrite inst g own
                   | _ => decode_plain op inst fid g own
                   end.
Proof.
  intros E Hp Hs Ho. unfold framed in E.
  destruct (FrameBytes_sub_is_Some f 4 (length pay)) as [g Eg].
  { rewrite FrameBytes_len_spec, E. simpl. rewrite length_app. lia. }
  exists g. apply FrameBytes_sub_Some in Eg as Eb. destruct Eb as [_ Eb]. rewrite E in Eb. simpl in Eb.
  rewrite drop_0, take_app_length in Eb. split; [done|].
  unfold decode. rewrite !FrameBytes_u8_at_spec, E. cbn [lookup list_lookup].
  unfold Header_from_bytes, Header_payload_len, payload_len. cbn [h_inst h_id h_len].
  rewrite Hs, Ho. rewrite u8_id by lia.
  replace (Z.to_nat (3 + Z.of_nat (length pay) - 3)) with (length pay) by lia.
  change Header_SIZE with 4%nat. by rewrite Eg.
Qed.

Definition wire_op (r : WireRequest) : Opcode :=
  match r with
  | RqRead _ _ | RqReadProfile _ => OpRead
  | RqWrite _ _ => OpWrite
  | RqGreadUniform _ _ _ | RqGreadPerTarget _ | RqGreadProfileUniform _ _
  | RqGreadProfilePerTarget _ => OpGread
  | RqMgmt _ | RqEnum _ _ | RqAssign _ _ | RqCal _ _ => OpMgmt
  end.

(** The flags a host sets: the ones the shape needs, HOLD on a write at will,
    NOREPLY at will. *)
Definition wire_flags (r : WireRequest) (hold noreply : bool) : Z :=
  (match r with
   | RqReadProfile _ | RqGreadProfileUniform _ _ => FLAG_PROFILE
   | RqWrite _ _ => if hold then FLAG_HOLD else 0
   | RqGreadPerTarget _ => FLAG_PER_TARGET
   | RqGreadProfilePerTarget _ => FLAG_PROFILE + FLAG_PER_TARGET
   | _ => 0
   end) + (if noreply then FLAG_NOREPLY else 0).

(** What the servo [own] must make of request [r] in a frame addressed to it
    or to all. *)
Definition dispatched_as (r : WireRequest) (own : Id) (bc hold noreply : bool) (d : Decoded) : Prop :=
  let may := negb noreply && negb bc in
  match r with
  | RqRead addr count => d = DOwn (ReqRead addr count) may 0
  | RqReadProfile slot => d = DOwn (ReqReadProfile slot) may 0
  | RqWrite addr data => exists v, d = DOwn (ReqWrite addr v hold) may 0 /\ FrameBytes_bytes v = data
  | RqGreadUniform addr count ids =>
      d = match position own ids with
          | Some slot => DOwn (ReqRead addr count) true slot | None => DSkip end
  | RqGreadPerTarget ts =>
      d = match find_first (fun t => gt_id t =? own) 0 ts with
          | Some (i, t) => DOwn (ReqRead (gt_addr t) (gt_count t)) true (u8 (Z.of_nat i))
          | None => DSkip end
  | RqGreadProfileUniform slot ids =>
      d = match position own ids with
          | Some k => DOwn (ReqReadProfile slot) true k | None => DSkip end
  | RqGreadProfilePerTarget ts =>
      d = match find_first (fun t => gp_id t =? own) 0 ts with
          | Some (i, t) => DOwn (ReqReadProfile (gp_slot t)) true (u8 (Z.of_nat i))
          | None => DSkip end
  | RqMgmt op =>
      match op with
      | MoEnum | MoAssign | MoCal => d = DOwn ReqUnsupported may 0
      | _ => exists v, d = DOwn (ReqMgmt op v) may 0 /\ FrameBytes_bytes v = []
      end
  | RqEnum pl prefix =>
      d = DOwn (ReqEnumerate pl (take (div_ceil8 pl) prefix ++ replicate (UID_LEN - div_ceil8 pl) 0))
            (negb noreply) 0
  | RqAssign uid new_id => d = DOwn (ReqAssign uid new_id) (negb noreply) 0
  | RqCal gap gaps => d = DOwn (if bc then ReqCalibrate gap gaps else ReqUnsupported) may 0
  end.

Lemma wire_flags_parts r hold noreply :
  let i := Inst_instruction (wire_op r) (wire_flags r hold noreply) in
  Inst_is_status i = false /\ Inst_opcode i = Some (wire_op r) /\ Inst_noreply i = noreply /\
  match r with
  | RqReadProfile _ | RqGreadProfileUniform _ _ => Inst_profile i = true /\ Inst_per_target i = false
  | RqGreadProfilePerTarget _ => Inst_profile i = true /\ Inst_per_target i = true
  | RqGreadPerTarget _ => Inst_profile i = false /\ Inst_per_target i = true
  | RqWrite _ _ => Inst_hold i = hold
  | _ => Inst_profile i = false /\ Inst_per_target i = false
  end.
Proof. destruct r, hold, noreply; repeat split. Qed.

(** C20: end to end from builder to dispatcher.  Take any request a one-shot
    builder encodes, put it in a frame of its opcode and flags addressed to
    this servo (or broadcast), and let it arrive across any ring seam: [decode]
    yields exactly the encoded request, its data bytes intact, at the right
    chain slot, with replies allowed exactly when NOREPLY is off and the frame
    is unicast (or is an ENUM or ASSIGN, or a GREAD slot); a GREAD that does not
    list the servo is skipped, and CAL is refused unless broadcast.  Addressed to
    another servo, anything but a GREAD is skipped. *)
Theorem request_decodes dst r n buf f fid crc own hold noreply :
  request_typed r -> build_request dst r = Some (n, buf) -> (length (take n buf) <= 252)%nat ->
  FrameBytes_bytes f =
    framed fid (Inst_instruction (wire_op r) (wire_flags r hold noreply)) (take n buf) crc ->
  if Id_addresses fid own then dispatched_as r own (Id_is_broadcast fid) hold noreply (decode f own)
  else wire_op r <> OpGread -> decode f own = DSkip.
Proof.
  intros T B Hl E. destruct (wire_flags_parts r hold noreply) as (Hs & Ho & Hn & Hf).
  set (i := Inst_instruction _ _) in *.
  destruct (decode_framed f fid i (take n buf) crc own _ E Hl Hs Ho) as (g & Eg & ->).
  destruct (Id_addresses fid own) eqn:Ha.
  2: { intros Hng. destruct r; try done; unfold wire_op, decode_plain; by rewrite Ha. }
  pose proof (request_reads_back dst r n buf g T B Eg) as R.
  destruct r; cbn [wire_op dispatched_as reads_back] in *;
    unfold decode_plain, decode_plain_req, decode_gread, decode_mgmt, own_read, own_read_profile;
    rewrite ?Ha, ?Hn; cbn [negb].
  - destruct Hf as [-> _]. rewrite R. cbn [rr_addr rr_count]. by rewrite orb_false_r.
  - destruct Hf as [-> _]. rewrite R. cbn [pr_slot]. by rewrite orb_false_r.
  - destruct R as (d & -> & Ed). rewrite Hf. cbn [wr_addr wr_data]. rewrite orb_false_r. by exists d.
  - destruct Hf as [-> ->]. destruct R as (v & -> & Ev). unfold GreadUniform_slot_of. by rewrite <- Ev.
  - destruct Hf as [-> ->]. destruct R as [-> R]. cbn [mbind option_bind]. unfold GreadPerTarget_find.
    rewrite R. by destruct (find_first _ _ _) as [[]|].
  - destruct Hf as [-> ->]. destruct R as (v & -> & Ev). unfold GreadProfileUniform_slot_of. by rewrite <- Ev.
  - destruct Hf as [-> ->]. destruct R as [-> R]. cbn [mbind option_bind]. unfold GreadProfilePerTarget_find.
    rewrite R. by destruct (find_first _ _ _) as [[]|].
  - destruct R as (v & -> & Ev). cbn [mr_op mr_args].
    assert (EnumReq_parse v = None /\ AssignReq_parse v = None /\ CalReq_parse v = None) as (X1 & X2 & X3).
    { rewrite EnumReq_parse_spec, AssignReq_parse_spec, Ev. repeat split.
      unfold CalReq_parse. by rewrite FrameBytes_len_spec, Ev. }
    destruct op; rewrite ?X1, ?X2, ?X3, ?orb_false_r; try done; by exists v.
  - destruct R as (v & -> & Ev). cbn [mr_op mr_args]. rewrite Ev. by rewrite orb_true_r, andb_true_r.
  - destruct R as (v & -> & Ev). cbn [mr_op mr_args]. rewrite Ev. by rewrite orb_true_r, andb_true_r.
  - destruct R as (v & -> & Ev). cbn [mr_op mr_args]. rewrite Ev. cbn [cr_gap_us cr_gaps].
    by destruct (Id_is_broadcast fid); rewrite orb_false_r.
Qed.

Lemma request_decodes_witness :
  dispatched_as (RqRead 512 4) 5 false false false (decode (FB [0; 5; 7; 32; 0; 2; 4] [0; 0; 0]) 5).
Proof.
  apply (request_decodes (replicate 8 0) (RqRead 512 4) 4 [0; 2; 4; 0; 0; 0; 0; 0]
           (FB [0; 5; 7; 32; 0; 2; 4] [0; 0; 0]) 5 [0; 0] 5 false false);
    [simpl; lia|reflexivity|simpl; lia|reflexivity].
Defined.

(** ** What a decoded request can be *)

Lemma FrameBytes_sub_ok f start n g :
  bytes_ok (FrameBytes_bytes f) -> FrameBytes_sub f start n = Some g -> bytes_ok (FrameBytes_bytes g).
Proof. intros Hf [_ ->]%FrameBytes_sub_Some. auto with osc. Qed.

Lemma decode_mgmt_ok pay bc :
  bytes_ok (FrameBytes_bytes pay) -> (forall op args, decode_mgmt pay bc = ReqMgmt op args ->
    MgmtOp_needs_quiet_window op = false) -> request_ok (decode_mgmt pay bc).
Proof.
  intros Hp Hq. pose proof (MgmtReq_parse_spec pay) as Hs. unfold decode_mgmt in *.
  destruct (FrameBytes_bytes pay) as [|x rest] eqn:Ep; [by rewrite Hs|].
  destruct (MgmtOp_from_byte x) as [op|]; [|by rewrite Hs].
  destruct Hs as (g & Eg & Eb). rewrite Eg in *. cbn [mr_op mr_args] in *.
  apply bytes_ok_cons in Hp as [_ Hr]. destruct op; try (by apply (Hq _ g)).
  - rewrite EnumReq_parse_spec, Eb. destruct rest as [|pl rest]; [done|]. apply bytes_ok_cons in Hr as [Hpl Hr].
    destruct (_ && _) eqn:Ec; [|done]. apply andb_true_iff in Ec as [E1%Z.leb_le E2%Nat.eqb_eq]. split; [cbn; lia|].
    unfold MAX_PREFIX_BITS in E1. pose proof (div_ceil8_le pl E1). cbn [er_prefix]. rewrite length_app, length_replicate.
    split; [lia|]. apply bytes_ok_app. split; [done|]. apply Forall_replicate. lia.
  - by destruct (AssignReq_parse g).
  - by destruct (CalReq_parse g); [destruct bc|].
Qed.

(** The chain slot of an owned frame is a byte, and its request is one the
    dispatcher accepts unless it is a security sub-op. *)
Lemma decode_own_range f id req may slot :
  bytes_ok (FrameBytes_bytes f) -> decode f id = DOwn req may slot ->
  0 <= slot < 256 /\
  ((forall op args, req = ReqMgmt op args -> MgmtOp_needs_quiet_window op = false) -> request_ok req).
Proof.
  intros Hf. unfold decode. repeat case_goal; try done;
    match goal with H : FrameBytes_sub f _ _ = Some ?g |- _ =>
      pose proof (FrameBytes_sub_ok _ _ _ _ Hf H) as Hg end.
  all: unfold decode_gread, decode_gwrite, decode_plain, own_read, own_read_profile, own_write.
  all: try (destruct (negb (Id_addresses _ _)); [done|]; intros [= <- <- <-]; split; [lia|];
    first [done|unfold decode_plain_req; intros Hq; repeat case_goal; try done; by apply decode_mgmt_ok]).
  - unfold GreadUniform_slot_of, GreadProfileUniform_slot_of, position, GreadPerTarget_find, GreadProfilePerTarget_find.
    repeat case_goal; try done; intros [= <- <- <-]; (split; [|done]);
      repeat match goal with H : (_ ≫= _) = Some _ |- _ => apply bind_Some in H as (? & ? & H) end;
      simplify_eq; apply u8_range.
  - repeat case_goal; try done; intros [= <- <- <-]; (split; [lia|done]).
Qed.

(** The opcodes dispatched ahead of their verdict decode to requests that only
    read, stage a write, or are refused. *)
Lemma decode_own_spine f id req may slot op :
  decode f id = DOwn req may slot -> (x ← FrameBytes_u8_at f 3; Inst_opcode x) = Some op ->
  (match op with OpPing | OpRead | OpGread | OpWrite | OpGwrite => true | _ => false end) = true ->
  spine_req req = true.
Proof.
  intros Hd Ho Hin. unfold decode in Hd.
  destruct (FrameBytes_u8_at f 0), (FrameBytes_u8_at f 1), (FrameBytes_u8_at f 2); try done.
  destruct (FrameBytes_u8_at f 3) as [zi|]; [|done]. cbn in Ho. unfold Header_from_bytes in Hd. cbn [h_inst h_id] in Hd.
  destruct (Inst_is_status zi); [done|]. rewrite Ho in Hd. destruct (FrameBytes_sub _ _ _) as [pay|]; [|done].
  destruct op; try done; unfold decode_gread, decode_gwrite, decode_plain, own_read, own_read_profile, own_write in Hd.
  1, 2, 3: destruct (negb _); [done|]; injection Hd as <- _ _; unfold decode_plain_req; by repeat case_goal.
  all: by repeat case_hyp Hd; simplify_eq.
Qed.

(** A frame's request does not depend on its two CRC bytes. *)
Lemma decode_agree f g id n :
  length (fb_head f) = length (fb_head g) -> length (fb_tail f) = length (fb_tail g) ->
  FrameBytes_len f = n -> (6 <= n)%nat -> FrameBytes_u8_at f 2 = Some (Z.of_nat n - 3) -> Z.of_nat n - 3 < 256 ->
  take (n - 2) (FrameBytes_bytes f) = take (n - 2) (FrameBytes_bytes g) ->
  decode f id = decode g id.
Proof.
  intros Hh Ht Hn H6 H2 Hlt Hb.
  assert (forall i, (i < n - 2)%nat -> FrameBytes_u8_at g i = FrameBytes_u8_at f i) as Hu.
  { intros i Hi. rewrite !FrameBytes_u8_at_spec. rewrite <- (lookup_take_lt _ (n - 2)), <- Hb, lookup_take_lt by lia. done. }
  unfold decode. rewrite !Hu by lia. rewrite H2.
  destruct (FrameBytes_u8_at f 0) as [b0|]; [|done]. destruct (FrameBytes_u8_at f 1) as [b1|]; [|done].
  destruct (FrameBytes_u8_at f 3) as [b3|]; [|done].
  unfold Header_from_bytes, Header_payload_len, payload_len. cbn [h_inst h_len h_id].
  rewrite u8_id by lia. rewrite (FrameBytes_sub_ext f g Header_SIZE); [done|done|done|].
  replace (Header_SIZE + Z.to_nat (Z.of_nat n - 3 - 3))%nat with (n - 2)%nat by (unfold Header_SIZE; lia). done.
Qed.
