(* ===== verification/Tx.v ===== *)
(** * The reply transmitter (firmware/lib/drivers/src/bus/tx.rs)

    [TxEngine] lays a status reply out as DMA arms and CRC feeds, starts the
    wire before the checksum is known, and patches the checksum into the last
    arm.  The hardware CRC engine is the class [CrcEngine] with its documented
    laws; the wire is the trace of calls made on it.  The theorem: the bytes
    that leave are one sealed frame carrying exactly the staged payload. *)

From S2P Require Import Prelude Crc Wire Frame Dispatch Ring.

(** ** The CRC engine port (traits/bus.rs)

    Feeds of even length accumulate until reset (an odd one has no specified
    effect); a snapshot copies into the engine's stable buffer; a result, once
    available, is the CRC of everything fed. *)
Class CrcEngine (C : Type) := {
  ce_reset : C -> C;
  ce_feed : C -> list Z -> C;
  ce_snapshot : C -> nat -> list Z -> C;
  ce_result : C -> option Z * C;
  ce_snap : C -> list Z;  (* the stable buffer's contents *)
}.

Class CrcEngineLaws (C : Type) `{CrcEngine C} := {
  ce_fed : C -> list Z;
  ce_reset_fed c : ce_fed (ce_reset c) = [];
  ce_feed_fed c s : Nat.even (length s) = true -> ce_fed (ce_feed c s) = ce_fed c ++ s;
  ce_result_fed c : ce_fed (ce_result c).2 = ce_fed c;
  ce_result_crc c v : (ce_result c).1 = Some v -> v = osc_crc (ce_fed c);
  ce_snapshot_fed c off s : ce_fed (ce_snapshot c off s) = ce_fed c;
  ce_reset_snap c : ce_snap (ce_reset c) = ce_snap c;
  ce_feed_snap c s : ce_snap (ce_feed c s) = ce_snap c;
  ce_result_snap c : ce_snap (ce_result c).2 = ce_snap c;
  ce_snapshot_snap c off s : (off + length s <= length (ce_snap c))%nat ->
    ce_snap (ce_snapshot c off s) = splice off s (ce_snap c);
}.

(** ** The engine's state *)

Definition REPLY_BUF : nat := 16.
Definition SMALL_COPY_MAX : nat := 2.
Definition TX_SPIN : nat := Z.to_nat SPIN_PER_BYTE.

Inductive TxOut := TxArmed | TxReleased.
Inductive Arm := ArmBuf (off len : nat) | ArmExt (ptr len : nat).
Definition NO_ARM : Arm := ArmBuf 0 0.
Inductive TxState := TxIdle | TxStaged (slot_key : option Z) | TxStreaming (next : nat).
(** Where the byte left for the software fold lives. *)
Inductive TailAt := TailBuf (i : nat) | TailSnap (i : nat).
(** The calls made on the wire. *)
Inductive TxEv := TwStart | TwSend (span : list Z) | TwRelease.

Record TxEngine := mkTx {
  te_buf : FrameBuf;
  te_arms : list Arm; te_n_arms : nat;
  te_feeds : list Arm; te_n_feeds : nat;
  te_crc_off : nat;
  te_state : TxState;
  te_result : ResultCode;
  te_tail : option TailAt;
  te_alert : bool;
  te_crc_misses : Z }.

Definition TxEngine_new : TxEngine :=
  mkTx (FrameBuf_new REPLY_BUF) (replicate 4 NO_ARM) 0 (replicate 3 NO_ARM) 0 0 TxIdle RcOk None false 0.

Definition TxEngine_busy (t : TxEngine) : bool := match te_state t with TxIdle => false | _ => true end.
Definition TxEngine_staged (t : TxEngine) : bool := match te_state t with TxStaged _ => true | _ => false end.
Definition TxEngine_slot_key (t : TxEngine) : option Z :=
  match te_state t with TxStaged k => k | _ => None end.
Definition TxEngine_collision_tolerant (t : TxEngine) : bool :=
  match TxEngine_slot_key t with Some _ => true | None => false end.
Definition TxEngine_streaming (t : TxEngine) : bool :=
  match te_state t with TxStreaming _ => true | _ => false end.

Definition te_set_state (t : TxEngine) (s : TxState) : TxEngine :=
  mkTx (te_buf t) (te_arms t) (te_n_arms t) (te_feeds t) (te_n_feeds t) (te_crc_off t) s
    (te_result t) (te_tail t) (te_alert t) (te_crc_misses t).
Definition te_set_buf (t : TxEngine) (b : FrameBuf) : TxEngine :=
  mkTx b (te_arms t) (te_n_arms t) (te_feeds t) (te_n_feeds t) (te_crc_off t) (te_state t)
    (te_result t) (te_tail t) (te_alert t) (te_crc_misses t).

Definition TxEngine_mark_collision_tolerant (t : TxEngine) (key : Z) : TxEngine :=
  match te_state t with TxStaged _ => te_set_state t (TxStaged (Some key)) | _ => t end.

Definition TxEngine_abort (t : TxEngine) : TxEngine * list TxEv :=
  if TxEngine_busy t then (te_set_state t TxIdle, [TwRelease]) else (t, []).

Section engine.
Context {C : Type} `{CrcEngine C}.

(** The spans copied one after the other into the payload window. *)
Fixpoint copy_spans (at_ : nat) (spans : list (list Z)) (pay : list Z) : list Z :=
  match spans with
  | [] => pay
  | s :: spans' => copy_spans (at_ + length s) spans' (splice at_ s pay)
  end.

(** The spans snapshotted at cumulative offsets, empty ones skipped. *)
Fixpoint snapshot_spans (c : C) (off : nat) (spans : list (list Z)) : C :=
  match spans with
  | [] => c
  | [] :: spans' => snapshot_spans c off spans'
  | s :: spans' => snapshot_spans (ce_snapshot c off s) (off + length s) spans'
  end.

(** Zero the CRC placeholder and enter [Staged]. *)
Definition stage_done (t : TxEngine) (result : ResultCode) (alert : bool) : option TxEngine :=
  _ ← get_range (te_buf t) (te_crc_off t) (te_crc_off t + 2);
  Some (mkTx (splice (te_crc_off t) [0; 0] (te_buf t)) (te_arms t) (te_n_arms t) (te_feeds t)
          (te_n_feeds t) (te_crc_off t) (TxStaged None) result (te_tail t) alert (te_crc_misses t)).

Definition TxEngine_stage_gather (t : TxEngine) (c : C) (id : Z) (res : ResultCode) (alert : bool)
    (spans : list (list Z)) : option (result unit SendError * TxEngine * C) :=
  if TxEngine_busy t then Some (Err SeBusy, t, c)
  else
    let total := length (concat spans) in
    if (MAX_PAYLOAD <? Z.of_nat total) then Some (Err SeOverflow, t, c)
    else
      let p := Z.of_nat total in
      let inst := Inst_status res alert in
      if Nat.leb total SMALL_COPY_MAX then
        b ← FrameBuf_payload_mut (FrameBuf_start (te_buf t) id inst) (copy_spans 0 spans);
        let b := FrameBuf_finish b p in
        let cov := Z.to_nat (covered_len (len_for p)) in
        let bulk := (cov - cov mod 2)%nat in
        t' ← stage_done
               (mkTx b (<[0%nat := ArmBuf 1 (cov - 1)]> (<[1%nat := ArmBuf cov 2]> (te_arms t))) 2
                  (<[0%nat := ArmBuf 0 bulk]> (te_feeds t)) 1 cov (te_state t) (te_result t)
                  (if Nat.eqb (cov mod 2) 1 then Some (TailBuf (cov - 1)) else None)
                  (te_alert t) (te_crc_misses t)) res alert;
        Some (Ok tt, t', c)
      else
        let b := <[3%nat := inst]> (<[2%nat := len_for p]> (<[1%nat := id]> (<[0%nat := ALIGN_BYTE]> (te_buf t)))) in
        let c' := snapshot_spans c 0 spans in
        t' ← stage_done
               (mkTx b (<[0%nat := ArmBuf 1 3]> (<[1%nat := ArmExt 0 total]> (<[2%nat := ArmBuf 4 2]> (te_arms t)))) 3
                  (<[0%nat := ArmBuf 0 4]> (<[1%nat := ArmExt 0 (total - total mod 2)]> (te_feeds t))) 2 4
                  (te_state t) (te_result t)
                  (if Nat.eqb (total mod 2) 1 then Some (TailSnap (total - 1)) else None)
                  (te_alert t) (te_crc_misses t)) res alert;
        Some (Ok tt, t', c').

Definition TxEngine_stage (t : TxEngine) (c : C) (id : Z) (res : ResultCode) (alert : bool)
    (data : list Z) : option (result unit SendError * TxEngine * C) :=
  TxEngine_stage_gather t c id res alert [data].

(** [resolve] of an arm, by its index in the descriptor array. *)
Definition resolve_arm (t : TxEngine) (c : C) (arms : list Arm) (i : nat) : option (list Z) :=
  a ← arms !! i;
  match a with
  | ArmBuf off len => get_range (te_buf t) off (off + len)
  | ArmExt ptr len => get_range (ce_snap c) ptr (ptr + len)
  end.

Definition TxEngine_trigger (t : TxEngine) (c : C) (over : option ResultCode) :
    option (TxEngine * C * list TxEv) :=
  match te_state t with
  | TxStaged _ =>
      let t := te_set_buf t (<[3%nat := Inst_status (default (te_result t) over) (te_alert t)]> (te_buf t)) in
      let c := ce_reset c in
      a ← resolve_arm t c (te_arms t) 0;
      f ← resolve_arm t c (te_feeds t) 0;
      Some (te_set_state t (TxStreaming 1), ce_feed c f, [TwStart; TwSend a])
  | _ => Some (t, c, [])
  end.

(** Poll the engine until it answers, at most [budget] more times. *)
Fixpoint crc_poll (budget : nat) (c : C) : option Z * C :=
  match ce_result c with
  | (Some v, c') => (Some v, c')
  | (None, c') => match budget with O => (None, c') | S b => crc_poll b c' end
  end.

Definition tail_byte (t : TxEngine) (c : C) (w : TailAt) : option Z :=
  match w with TailBuf i => te_buf t !! i | TailSnap i => ce_snap c !! i end.

Definition TxEngine_patch_crc (t : TxEngine) (c : C) : option (TxEngine * C) :=
  match crc_poll TX_SPIN c with
  | (Some v, c') =>
      v ← match te_tail t with
          | Some w => b ← tail_byte t c' w; Some (osc_crc_continue v [b])
          | None => Some v
          end;
      _ ← get_range (te_buf t) (te_crc_off t) (te_crc_off t + 2);
      Some (te_set_buf t (splice (te_crc_off t) (to_le16 v) (te_buf t)), c')
  | (None, c') =>
      Some (mkTx (te_buf t) (te_arms t) (te_n_arms t) (te_feeds t) (te_n_feeds t) (te_crc_off t)
              (te_state t) (te_result t) (te_tail t) (te_alert t) (u32 (te_crc_misses t + 1)), c')
  end.

Definition TxEngine_on_arm_complete (t : TxEngine) (c : C) : option (TxOut * TxEngine * C * list TxEv) :=
  match te_state t with
  | TxStreaming next =>
      if Nat.ltb next (te_n_arms t) then
        '(t, c) ← if Nat.ltb next (te_n_feeds t)
                  then f ← resolve_arm t c (te_feeds t) next; Some (t, ce_feed c f)
                  else TxEngine_patch_crc t c;
        a ← resolve_arm t c (te_arms t) next;
        Some (TxArmed, te_set_state t (TxStreaming (S next)), c, [TwSend a])
      else Some (TxReleased, te_set_state t TxIdle, c, [TwRelease])
  | _ => Some (TxReleased, t, c, [])
  end.

End engine.

(** ** One reply on the wire *)

Record tx_wf (t : TxEngine) : Prop := {
  tw_buf : length (te_buf t) = REPLY_BUF;
  tw_arms : length (te_arms t) = 4%nat;
  tw_feeds : length (te_feeds t) = 3%nat }.

Section transmit.
Context {C : Type} `{CrcEngineLaws C}.
#[local] Set Default Proof Using "All".

(** The arm completions that follow a trigger, until the wire is released. *)
Fixpoint drain (fuel : nat) (t : TxEngine) (c : C) : option (TxEngine * C * list TxEv) :=
  match fuel with
  | O => None
  | S fuel' =>
      '(o, t, c, ev) ← TxEngine_on_arm_complete t c;
      match o with
      | TxReleased => Some (t, c, ev)
      | TxArmed => '(t, c, ev') ← drain fuel' t c; Some (t, c, ev ++ ev')
      end
  end.

Definition transmit (t : TxEngine) (c : C) (over : option ResultCode) : option (TxEngine * C * list TxEv) :=
  '(t, c, ev) ← TxEngine_trigger t c over;
  '(t, c, ev') ← drain (S (te_n_arms t)) t c;
  Some (t, c, ev ++ ev').

Lemma crc_poll_spec n c :
  ce_snap (crc_poll n c).2 = ce_snap c /\ forall v, (crc_poll n c).1 = Some v -> v = osc_crc (ce_fed c).
Proof.
  revert c. induction n as [|n IH]; intros c; cbn [crc_poll];
    pose proof (ce_result_snap c) as Hs; pose proof (ce_result_fed c) as Hf;
    pose proof (ce_result_crc c) as Hc; destruct (ce_result c) as [[v|] c']; cbn [fst snd] in *.
  1,3: split; [done|]; intros v' E; apply (inj Some) in E as <-; by apply Hc.
  - done.
  - destruct (IH c') as [IH1 IH2]. rewrite IH1, <- Hf. by split.
Qed.

Lemma snapshot_spans_snap : forall spans c off,
  (off + length (concat spans) <= length (ce_snap c))%nat ->
  ce_snap (snapshot_spans c off spans) = splice off (concat spans) (ce_snap c).
Proof.
  induction spans as [|s spans IH]; intros c off Hl; [cbn; by rewrite splice_nil|].
  cbn [concat] in *. rewrite length_app in Hl. destruct s as [|x s].
  - cbn [snapshot_spans app]. apply IH. simpl in Hl. lia.
  - cbn [snapshot_spans]. rewrite IH; rewrite ce_snapshot_snap by lia; [|rewrite length_splice; lia].
    apply splice_app. lia.
Qed.

Lemma copy_spans_splice : forall spans at_ pay,
  (at_ + length (concat spans) <= length pay)%nat -> copy_spans at_ spans pay = splice at_ (concat spans) pay.
Proof.
  induction spans as [|s spans IH]; intros at_ pay Hl; [cbn; by rewrite splice_nil|].
  cbn [concat copy_spans] in *. rewrite length_app in Hl.
  rewrite IH by (rewrite length_splice; lia). apply splice_app. lia.
Qed.

(** The spans fed are the even bulk of the covered ones. *)
Lemma even_bulk {A} k (l : list A) : (k <= length l)%nat -> Nat.even (length (take (k - k mod 2) l)) = true.
Proof.
  intros Hk. rewrite length_take_le by lia. apply Nat.even_spec. exists (k / 2)%nat.
  pose proof (Nat.div_mod_eq k 2). lia.
Qed.

(** What the engine's two accumulated feeds and the fold come to. *)
Lemma fold_tail v m b : v = osc_crc m -> osc_crc_continue v [b] = osc_crc (m ++ [b]).
Proof. intros ->. unfold osc_crc. by rewrite osc_crc_continue_app. Qed.

(** *** The layouts [stage_gather] leaves *)

Lemma list_of_length {A} n (l : list A) : length l = S n -> exists x l', l = x :: l' /\ length l' = n.
Proof. destruct l as [|x l']; [done|]. intros E. exists x, l'. simpl in E. split; [done|lia]. Qed.

Lemma stage_small t c id res alert spans pay n :
  tx_wf t -> te_state t = TxIdle -> pay = concat spans -> n = length pay -> (n <= SMALL_COPY_MAX)%nat ->
  exists rest arms feeds,
    TxEngine_stage_gather t c id res alert spans =
    Some (Ok tt,
      mkTx (0 :: id :: (3 + Z.of_nat n) :: Inst_status res alert :: pay ++ 0 :: 0 :: rest)
        (ArmBuf 1 (3 + n) :: ArmBuf (4 + n) 2 :: arms) 2 (ArmBuf 0 (4 + n - n mod 2) :: feeds) 1
        (4 + n) (TxStaged None) res (if Nat.eqb (n mod 2) 1 then Some (TailBuf (3 + n)) else None)
        alert (te_crc_misses t), c) /\
    length rest = (10 - n)%nat /\ length arms = 2%nat /\ length feeds = 2%nat.
Proof.
  intros [Hb Ha Hf] Hs Hp Hn Hm. destruct t as [buf arms na feeds nf off st r tl al cm]; cbn in *. subst st.
  destruct arms as [|a0 [|a1 arms]]; [done..|]. destruct feeds as [|f0 feeds]; [done|].
  unfold REPLY_BUF in Hb. do 16 (apply list_of_length in Hb as (? & ? & -> & Hb)).
  apply nil_length_inv in Hb as ->.
  unfold TxEngine_stage_gather. cbn [TxEngine_busy te_state te_buf te_arms te_feeds]. rewrite <- Hp, <- Hn.
  generalize (Inst_status res alert) as inst. intros inst. rewrite FrameBuf_start_eq.
  unfold FrameBuf_payload_mut, SMALL_COPY_MAX in *.
  match goal with |- context [get_range ?l ?a ?b] =>
    let r := eval vm_compute in (get_range l a b) in change (get_range l a b) with r end.
  cbn [mbind option_bind]. rewrite copy_spans_splice by (rewrite <- Hp, <- Hn; simpl; lia). rewrite <- Hp.
  clear Hp. destruct pay as [|p0 [|p1 [|p2 pay]]]; simpl in Hn; subst n; [| | |lia].
  all: eexists _, _, _; split; [reflexivity|]; simpl in Ha, Hf; simpl; lia.
Qed.

Lemma stage_large t c id res alert spans pay n :
  tx_wf t -> te_state t = TxIdle -> pay = concat spans -> n = length pay ->
  (SMALL_COPY_MAX < n <= 252)%nat ->
  exists rest arms feeds (c1 := snapshot_spans c 0 spans),
    TxEngine_stage_gather t c id res alert spans =
    Some (Ok tt,
      mkTx (0 :: id :: (3 + Z.of_nat n) :: Inst_status res alert :: 0 :: 0 :: rest)
        (ArmBuf 1 3 :: ArmExt 0 n :: ArmBuf 4 2 :: arms) 3
        (ArmBuf 0 4 :: ArmExt 0 (n - n mod 2) :: feeds) 2
        4 (TxStaged None) res (if Nat.eqb (n mod 2) 1 then Some (TailSnap (n - 1)) else None)
        alert (te_crc_misses t), c1) /\
    ((n <= length (ce_snap c))%nat -> ce_snap c1 = pay ++ drop n (ce_snap c)) /\
    length rest = 10%nat /\ length arms = 1%nat /\ length feeds = 1%nat.
Proof.
  intros [Hb Ha Hf] Hs Hp Hn Hm. destruct t as [buf arms na feeds nf off st r tl al cm]; cbn in *. subst st.
  destruct arms as [|a0 [|a1 [|a2 arms]]]; [done..|]. destruct feeds as [|f0 [|f1 feeds]]; [done..|].
  unfold REPLY_BUF in Hb. do 6 (apply list_of_length in Hb as (? & ? & -> & Hb)).
  unfold TxEngine_stage_gather. cbn [TxEngine_busy te_state te_buf te_arms te_feeds]. rewrite <- Hp, <- Hn.
  rewrite (proj2 (Z.ltb_ge MAX_PAYLOAD (Z.of_nat n))) by (unfold MAX_PAYLOAD; lia).
  rewrite (proj2 (Nat.leb_gt n SMALL_COPY_MAX)) by lia.
  rewrite len_for_val by (unfold MAX_PAYLOAD; lia).
  eexists _, _, _. cbv zeta. split; [reflexivity|]. split; [|cbn [length] in Ha, Hf; cbn; rewrite drop_0; lia].
  intros Hc. rewrite snapshot_spans_snap by (rewrite <- Hp; lia). rewrite <- Hp. unfold splice. by rewrite Hn.
Qed.

(** *** The wire, from a layout *)

(** The engine after the patch boundary: the value landed, or a miss counted. *)
Definition patched (t : TxEngine) (ok : bool) (v : Z) : TxEngine :=
  if ok then te_set_buf t (splice (te_crc_off t) (to_le16 v) (te_buf t))
  else mkTx (te_buf t) (te_arms t) (te_n_arms t) (te_feeds t) (te_n_feeds t) (te_crc_off t)
         (te_state t) (te_result t) (te_tail t) (te_alert t) (u32 (te_crc_misses t + 1)).

Lemma patch_crc_spec t c m :
  (te_crc_off t + 2 <= length (te_buf t))%nat ->
  match te_tail t with
  | None => ce_fed c = m
  | Some w => exists b, (forall c', ce_snap c' = ce_snap c -> tail_byte t c' w = Some b) /\ ce_fed c ++ [b] = m
  end ->
  exists ok c', TxEngine_patch_crc t c = Some (patched t ok (osc_crc m), c') /\
    ce_snap c' = ce_snap c /\ (ok = false -> (crc_poll TX_SPIN c).1 = None).
Proof.
  intros Hoff Hm. unfold TxEngine_patch_crc. destruct (crc_poll_spec TX_SPIN c) as [Hs Hv].
  destruct (crc_poll TX_SPIN c) as [[v|] c'] eqn:E; cbn [fst snd] in *.
  - exists true, c'. rewrite get_range_ok by lia. specialize (Hv v eq_refl). split; [|done].
    destruct (te_tail t) as [w|].
    + destruct Hm as (b & Hb & <-). rewrite (Hb c' Hs). cbn [mbind option_bind].
      by rewrite (fold_tail v (ce_fed c) b Hv).
    + subst m. by rewrite Hv.
  - by exists false, c'.
Qed.

(** What a finished transmission looks like: break, the arms, none empty, release;
    the arms are the covered bytes and the checksum (or the counted placeholder). *)
Definition sent (t : TxEngine) (m : list Z) (r : option (TxEngine * C * list TxEv)) : Prop :=
  exists t' c' sends (ok : bool),
    r = Some (t', c', TwStart :: map TwSend sends ++ [TwRelease]) /\
    concat sends = m ++ (if ok then to_le16 (osc_crc m) else [0; 0]) /\ Forall (fun s => s <> []) sends /\
    te_state t' = TxIdle /\
    te_crc_misses t' = (if ok then te_crc_misses t else u32 (te_crc_misses t + 1)) /\
    (ok = false -> exists c'' : C, ce_fed c'' `prefix_of` (0 :: m) /\ (crc_poll TX_SPIN c'').1 = None).

(** The last two completions: the patch boundary with the checksum arm behind
    it, then the release. *)
Lemma drain_tail t c m k off fuel :
  te_state t = TxStreaming k -> te_n_arms t = S k -> te_n_feeds t = k ->
  te_crc_off t = off -> te_arms t !! k = Some (ArmBuf off 2) -> get_range (te_buf t) off (off + 2) = Some [0; 0] ->
  match te_tail t with
  | None => ce_fed c = 0 :: m
  | Some w => exists b, (forall c', ce_snap c' = ce_snap c -> tail_byte t c' w = Some b) /\ ce_fed c ++ [b] = 0 :: m
  end ->
  exists t' c' (ok : bool),
    drain (S (S fuel)) t c =
      Some (t', c', [TwSend (if ok then to_le16 (osc_crc m) else [0; 0]); TwRelease]) /\
    te_state t' = TxIdle /\
    te_crc_misses t' = (if ok then te_crc_misses t else u32 (te_crc_misses t + 1)) /\
    (ok = false -> (crc_poll TX_SPIN c).1 = None).
Proof.
  intros Hs Hna Hnf Hoff Harm Hzero Htail.
  pose proof (proj1 (get_range_Some _ _ _ _) Hzero) as [Hlen _].
  destruct (patch_crc_spec t c (0 :: m)) as (ok & c' & Hp & Hsn & Hk); [by rewrite Hoff; lia|done|].
  rewrite osc_crc_leading_zero in Hp. set (t1 := patched t ok (osc_crc m)) in *.
  assert (te_state t1 = TxStreaming k /\ te_n_arms t1 = S k /\ te_arms t1 = te_arms t) as (Es & En & Ea)
    by (subst t1; destruct ok; done).
  assert (resolve_arm t1 c' (te_arms t1) k = Some (if ok then to_le16 (osc_crc m) else [0; 0])) as Hr.
  { unfold resolve_arm. rewrite Ea, Harm. cbn [mbind option_bind]. subst t1. destruct ok; [|done].
    cbn [patched te_set_buf te_buf]. rewrite Hoff. rewrite get_range_ok by (rewrite length_splice; simpl; lia).
    unfold splice. rewrite drop_app_length' by (rewrite length_take; lia).
    by rewrite take_app_length' by (simpl; lia). }
  exists (te_set_state t1 TxIdle), c', ok. split; [|subst t1; by destruct ok].
  assert (TxEngine_on_arm_complete t c = Some (TxArmed, te_set_state t1 (TxStreaming (S k)), c',
    [TwSend (if ok then to_le16 (osc_crc m) else [0; 0])])) as Step.
  { unfold TxEngine_on_arm_complete. rewrite Hs, Hna, Hnf.
    rewrite (proj2 (Nat.ltb_lt k (S k))), (proj2 (Nat.ltb_ge k k)) by lia.
    rewrite Hp. cbn [mbind option_bind]. by rewrite Hr. }
  cbn [drain]. rewrite Step. cbn [mbind option_bind].
  unfold TxEngine_on_arm_complete. cbn [te_state te_set_state te_n_arms]. rewrite En.
  by rewrite (proj2 (Nat.ltb_ge (S k) (S k))) by lia.
Qed.

(** The trigger: break, the first arm, and the first feed behind it. *)
Lemma trigger_eq t c over k b (t1 := te_set_buf t b) a f :
  te_state t = TxStaged k ->
  <[3%nat := Inst_status (default (te_result t) over) (te_alert t)]> (te_buf t) = b ->
  (forall d : C, resolve_arm t1 d (te_arms t) 0 = Some a) -> (forall d : C, resolve_arm t1 d (te_feeds t) 0 = Some f) ->
  transmit t c over =
    ('(t, c, ev') ← drain (S (te_n_arms t)) (te_set_state t1 (TxStreaming 1)) (ce_feed (ce_reset c) f);
     Some (t, c, TwStart :: TwSend a :: ev')).
Proof.
  intros Hs Hb Ha Hf. unfold transmit, TxEngine_trigger. rewrite Hs, Hb. fold t1.
  change (te_arms t1) with (te_arms t). change (te_feeds t1) with (te_feeds t). rewrite Ha, Hf. reflexivity.
Qed.

(** From a small layout. *)
Lemma transmit_small t id len i0 alert res pay n rest arms feeds (c : C) over k :
  te_buf t = 0 :: id :: len :: i0 :: pay ++ 0 :: 0 :: rest ->
  te_arms t = ArmBuf 1 (3 + n) :: ArmBuf (4 + n) 2 :: arms -> te_n_arms t = 2%nat ->
  te_feeds t = ArmBuf 0 (4 + n - n mod 2) :: feeds -> te_n_feeds t = 1%nat ->
  te_crc_off t = (4 + n)%nat -> te_state t = TxStaged k -> te_result t = res -> te_alert t = alert ->
  te_tail t = (if Nat.eqb (n mod 2) 1 then Some (TailBuf (3 + n)) else None) ->
  n = length pay -> (n <= SMALL_COPY_MAX)%nat ->
  sent t (id :: len :: Inst_status (default res over) alert :: pay) (transmit t c over).
Proof.
  intros Hb Ha Hna Hf Hnf Hoff Hs Hres Hal Htl Hn Hm. unfold SMALL_COPY_MAX in Hm.
  set (m := id :: len :: Inst_status (default res over) alert :: pay).
  rewrite (trigger_eq t c over k (0 :: m ++ 0 :: 0 :: rest) m (take (4 + n - n mod 2) (0 :: m)) Hs)
    by (first [by rewrite Hb, Hres, Hal
      |intros d; unfold resolve_arm; rewrite ?Ha, ?Hf;
       cbn [lookup list_lookup mbind option_bind te_buf te_set_buf]; subst m;
       destruct pay as [|p0 [|p1 [|p2 pay]]]; simpl in Hn; subst n; [done|done|done|lia]]).
  rewrite Hna.
  assert (Nat.even (length (take (4 + n - n mod 2) (0 :: m))) = true) as Hev.
  { replace (n mod 2)%nat with ((4 + n) mod 2)%nat; [by apply even_bulk; simpl; lia|].
    by rewrite <- (Nat.Div0.mod_add n 2 2), Nat.add_comm. }
  destruct (drain_tail (te_set_state (te_set_buf t (0 :: m ++ 0 :: 0 :: rest)) (TxStreaming 1))
    (ce_feed (ce_reset c) (take (4 + n - n mod 2) (0 :: m))) m 1 (4 + n) 1) as (t' & c' & ok & Hd & H1 & H2 & H3);
    [done..| | | |].
  { cbn [te_arms te_set_state te_set_buf]. by rewrite Ha. }
  { cbn [te_buf te_set_state te_set_buf]. subst m.
    destruct pay as [|p0 [|p1 [|p2 pay]]]; simpl in Hn; subst n; [done|done|done|lia]. }
  { cbn [te_tail te_set_state te_set_buf]. rewrite Htl, ce_feed_fed, ce_reset_fed by exact Hev. subst m.
    destruct pay as [|p0 [|p1 [|p2 pay]]]; simpl in Hn; subst n; [done| |done|lia]. by exists p0. }
  rewrite Hd. cbn [mbind option_bind].
  exists t', c', [m; if ok then to_le16 (osc_crc m) else [0; 0]], ok.
  split; [done|]. split; [by cbn [concat]; rewrite app_nil_r|].
  split; [by repeat constructor; destruct ok|]. do 2 (split; [done|]).
  intros E. eexists. split; [|exact (H3 E)]. rewrite ce_feed_fed, ce_reset_fed by exact Hev. apply prefix_take.
Qed.

(** A completion that arms the next span behind its feed. *)
Lemma drain_feed t (c : C) k f a fuel :
  te_state t = TxStreaming k -> (k < te_n_feeds t)%nat -> (k < te_n_arms t)%nat ->
  resolve_arm t c (te_feeds t) k = Some f -> resolve_arm t (ce_feed c f) (te_arms t) k = Some a ->
  drain (S fuel) t c =
    ('(t, c, ev') ← drain fuel (te_set_state t (TxStreaming (S k))) (ce_feed c f);
     Some (t, c, TwSend a :: ev')).
Proof.
  intros Hs Hf Ha Rf Ra. cbn [drain]. unfold TxEngine_on_arm_complete at 1. rewrite Hs.
  rewrite (proj2 (Nat.ltb_lt _ _) Ha), (proj2 (Nat.ltb_lt _ _) Hf), Rf.
  cbn [mbind option_bind]. by rewrite Ra.
Qed.

(** From a snapshot layout. *)
Lemma transmit_large t id len i0 alert res pay n rest srest arms feeds (c : C) over k :
  te_buf t = 0 :: id :: len :: i0 :: 0 :: 0 :: rest ->
  te_arms t = ArmBuf 1 3 :: ArmExt 0 n :: ArmBuf 4 2 :: arms -> te_n_arms t = 3%nat ->
  te_feeds t = ArmBuf 0 4 :: ArmExt 0 (n - n mod 2) :: feeds -> te_n_feeds t = 2%nat ->
  te_crc_off t = 4%nat -> te_state t = TxStaged k -> te_result t = res -> te_alert t = alert ->
  te_tail t = (if Nat.eqb (n mod 2) 1 then Some (TailSnap (n - 1)) else None) ->
  n = length pay -> (0 < n)%nat -> ce_snap c = pay ++ srest ->
  sent t (id :: len :: Inst_status (default res over) alert :: pay) (transmit t c over).
Proof.
  intros Hb Ha Hna Hf Hnf Hoff Hs Hres Hal Htl Hn Hpos Hsn.
  set (h := [id; len; Inst_status (default res over) alert]). change (id :: len :: _ :: pay) with (h ++ pay).
  rewrite (trigger_eq t c over k (0 :: h ++ 0 :: 0 :: rest) h (0 :: h) Hs)
    by (first [by rewrite Hb, Hres, Hal|by intros d; unfold resolve_arm; rewrite ?Ha, ?Hf]).
  rewrite Hna. set (t1 := te_set_state _ (TxStreaming 1)). set (c1 := ce_feed (ce_reset c) (0 :: h)).
  assert (ce_snap c1 = pay ++ srest) as Hs1 by (subst c1; by rewrite ce_feed_snap, ce_reset_snap).
  assert (ce_fed c1 = 0 :: h) as Hf1 by (subst c1; by rewrite ce_feed_fed, ce_reset_fed). clearbody c1.
  pose proof (even_bulk n pay ltac:(lia)) as Hev.
  rewrite (drain_feed t1 c1 1 (take (n - n mod 2) pay) pay).
  2: done. 2, 3: subst t1; cbn; lia.
  2: { unfold resolve_arm. change (te_feeds t1) with (te_feeds t). rewrite Hf. cbn [lookup list_lookup mbind option_bind].
       rewrite Hs1, get_range_ok by (rewrite length_app; lia). rewrite drop_0, Nat.sub_0_r. cbn [Nat.add].
       by rewrite take_app_le by lia. }
  2: { unfold resolve_arm. change (te_arms t1) with (te_arms t). rewrite Ha. cbn [lookup list_lookup mbind option_bind].
       rewrite ce_feed_snap, Hs1. by apply get_range_front. }
  destruct (drain_tail (te_set_state t1 (TxStreaming 2)) (ce_feed c1 (take (n - n mod 2) pay)) (h ++ pay) 2 4 1)
    as (t' & c' & ok & Hd & H1 & H2 & H3); [done..| | | |].
  { subst t1. cbn [te_arms te_set_state te_set_buf]. by rewrite Ha. }
  { done. }
  { subst t1. cbn [te_tail te_set_state te_set_buf]. rewrite Htl, ce_feed_fed, Hf1 by exact Hev. cbn [app].
    pose proof (Nat.mod_upper_bound n 2 ltac:(lia)). destruct (Nat.eqb (n mod 2) 1) eqn:E; zbool.
    - destruct (lookup_lt_is_Some_2 pay (n - 1)) as [b Hlb]; [destruct n; [done|lia]|].
      exists b. split.
      + intros d Ed. cbn [tail_byte]. rewrite Ed, ce_feed_snap, Hs1. by apply lookup_app_l_Some.
      + rewrite E. change (0 :: (h ++ take (n - 1) pay) ++ [b] = 0 :: h ++ pay).
        rewrite <- app_assoc, <- (take_S_r _ _ _ Hlb), firstn_all2; [done|lia].
    - replace (n mod 2)%nat with 0%nat by lia. by rewrite Nat.sub_0_r, Hn, firstn_all. }
  rewrite Hd. cbn [mbind option_bind].
  exists t', c', [h; pay; if ok then to_le16 (osc_crc (h ++ pay)) else [0; 0]], ok.
  split; [done|]. split; [by cbn [concat]; rewrite app_nil_r, app_assoc|].
  split; [constructor; [done|]; constructor; [by destruct pay; [simpl in *; lia|]|]; constructor; [by destruct ok|done]|].
  do 2 (split; [done|]).
  intros E. eexists. split; [|exact (H3 E)]. rewrite ce_feed_fed, Hf1 by exact Hev. cbn [app].
  apply prefix_cons, prefix_app, prefix_take.
Qed.

(** *** Totality: what the composite relies on *)

(** A staged layout can be triggered. *)
Record tx_ok (t : TxEngine) : Prop := {
  tk_wf : tx_wf t;
  tk_staged : forall k, te_state t = TxStaged k ->
    exists o0 l0 o1 l1, te_arms t !! 0%nat = Some (ArmBuf o0 l0) /\ te_feeds t !! 0%nat = Some (ArmBuf o1 l1) /\
      (o0 + l0 <= REPLY_BUF)%nat /\ (o1 + l1 <= REPLY_BUF)%nat }.

Lemma tx_ok_set_state t s : tx_ok t -> (forall k, s = TxStaged k -> exists k', te_state t = TxStaged k') ->
  tx_ok (te_set_state t s).
Proof.
  intros [[? ? ?] Hk] Hs. split; [by split|]. cbn [te_state te_set_state]. intros k Ek.
  destruct (Hs k Ek) as [k' E']. exact (Hk k' E').
Qed.

Lemma snapshot_spans_fed spans : forall (c : C) off, ce_fed (snapshot_spans c off spans) = ce_fed c.
Proof.
  induction spans as [|s spans IH]; intros c off; [done|]. destruct s; cbn [snapshot_spans]; [apply IH|].
  by rewrite IH, ce_snapshot_fed.
Qed.

(** Staging returns, leaves the receive feed alone, and stages only from idle. *)
Lemma stage_total t (c : C) id res alert spans : tx_ok t ->
  exists r t' c', TxEngine_stage_gather t c id res alert spans = Some (r, t', c') /\
    tx_ok t' /\ ce_fed c' = ce_fed c /\
    match r with
    | Ok _ => te_state t = TxIdle /\ te_state t' = TxStaged None
    | Err _ => t' = t
    end.
Proof.
  intros [Hwf Hk]. destruct (TxEngine_busy t) eqn:Eb.
  { exists (Err SeBusy), t, c. unfold TxEngine_stage_gather. by rewrite Eb. }
  assert (te_state t = TxIdle) as Hs by (unfold TxEngine_busy in Eb; by destruct (te_state t)).
  destruct (MAX_PAYLOAD <? Z.of_nat (length (concat spans))) eqn:Em.
  { exists (Err SeOverflow), t, c. unfold TxEngine_stage_gather. by rewrite Eb, Em. }
  unfold MAX_PAYLOAD in Em. zbool. destruct (decide (length (concat spans) <= SMALL_COPY_MAX)%nat) as [Hn|Hn].
  - destruct (stage_small t c id res alert spans _ _ Hwf Hs eq_refl eq_refl Hn) as (rest & arms & feeds & -> & L1 & L2 & L3).
    eexists _, _, _. split; [done|]. split; [|done]. unfold SMALL_COPY_MAX, REPLY_BUF in *. split.
    + split; cbn; rewrite ?length_app; cbn; unfold REPLY_BUF; lia.
    + intros k _. eexists _, _, _, _. split; [done|]. split; [done|]. unfold REPLY_BUF. lia.
  - destruct (stage_large t c id res alert spans _ _ Hwf Hs eq_refl eq_refl) as (rest & arms & feeds & -> & _ & L1 & L2 & L3);
      [unfold SMALL_COPY_MAX in *; lia|].
    eexists _, _, _. split; [done|]. split; [|by rewrite snapshot_spans_fed]. split.
    + split; cbn; unfold REPLY_BUF; lia.
    + intros k _. eexists _, _, _, _. split; [done|]. split; [done|]. unfold REPLY_BUF. lia.
Qed.

Lemma trigger_total t (c : C) over : tx_ok t ->
  exists t' c' ev, TxEngine_trigger t c over = Some (t', c', ev) /\ tx_ok t' /\
    (TxEngine_staged t = true -> TxEngine_streaming t' = true) /\ (TxEngine_staged t = false -> t' = t /\ ev = []).
Proof.
  intros [[Hb Ha Hf] Hk]. unfold TxEngine_trigger, TxEngine_staged. destruct (te_state t) as [|k|n] eqn:Es.
  1, 3: eexists _, _, _; split; [done|]; split; [split; [done|intros ? E; by rewrite Es in E]|done].
  destruct (Hk k eq_refl) as (o0 & l0 & o1 & l1 & E0 & E1 & B0 & B1).
  unfold resolve_arm. cbn [te_set_buf te_arms te_feeds te_buf]. rewrite E0, E1. cbn [mbind option_bind].
  set (buf := <[3%nat := _]> (te_buf t)).
  assert (length buf = REPLY_BUF) as Lb by (rewrite <- Hb; apply (length_insert (te_buf t))).
  rewrite !get_range_ok by lia. cbn [mbind option_bind].
  eexists _, _, _. split; [done|]. split; [|done]. split; [by split|by intros ? [=]].
Qed.

(** A staged status reply leaves the wire as one sealed frame carrying exactly the
    gathered payload.  From an idle transmitter and any spans of at most 252 bytes in all,
    staging succeeds and only stages; then, with any result override and any engine whose
    stable buffer still holds the snapshot, the trigger and the arm completions issue a break,
    arms, none empty, whose bytes are ID, LEN, INST and the spans in order followed by their little-endian
    CRC (whichever of the copied and the snapshotted layout was chosen, and with the odd last
    byte folded in software), and the release, ending idle.  Only when the engine gave no
    result at 65 consecutive polls do two placeholder zeros ship in the CRC's place, and then
    the miss is counted. *)
Theorem reply_on_the_wire t (c : C) id res alert spans :
  tx_wf t -> te_state t = TxIdle ->
  (length (concat spans) <= 252)%nat -> (252 <= length (ce_snap c))%nat ->
  exists t1 c1, TxEngine_stage_gather t c id res alert spans = Some (Ok tt, t1, c1) /\
    te_state t1 = TxStaged None /\
    forall c2 over, ce_snap c2 = ce_snap c1 ->
      sent t1 (id :: (3 + Z.of_nat (length (concat spans))) :: Inst_status (default res over) alert :: concat spans)
        (transmit t1 c2 over).
Proof.
  intros Hwf Hs Hlen Hc. set (pay := concat spans) in *. set (n := length pay) in *.
  destruct (decide (n <= SMALL_COPY_MAX)%nat).
  - destruct (stage_small t c id res alert spans pay n) as (rest & arms & feeds & E & _); [done..|].
    eexists _, c. split; [exact E|]. split; [done|]. intros c2 over _.
    by eapply (transmit_small _ id _ _ alert res pay n rest arms feeds c2 over None).
  - destruct (stage_large t c id res alert spans pay n) as (rest & arms & feeds & E & Hsn & _);
      [done..|unfold SMALL_COPY_MAX in *; lia|].
    eexists _, (snapshot_spans c 0 spans). split; [exact E|]. split; [done|]. intros c2 over Hc2.
    eapply (transmit_large _ id _ _ alert res pay n rest _ arms feeds c2 over None); try done.
    + unfold SMALL_COPY_MAX in *. lia.
    + rewrite Hc2. apply Hsn. lia.
Qed.

End transmit.

(** ** A software engine, for the witness *)

Record SoftCrc := mkSoft { sc_fed : list Z; sc_snap : list Z }.

#[export] Instance SoftCrc_engine : CrcEngine SoftCrc := {
  ce_reset c := mkSoft [] (sc_snap c);
  ce_feed c s := mkSoft (sc_fed c ++ s) (sc_snap c);
  ce_snapshot c off s := mkSoft (sc_fed c) (splice off s (sc_snap c));
  ce_result c := (Some (osc_crc (sc_fed c)), c);
  ce_snap := sc_snap }.

#[export] Instance SoftCrc_laws : CrcEngineLaws SoftCrc.
Proof.
  refine {| ce_fed := sc_fed |}; try done. intros c v E. by apply (inj Some) in E as <-.
Defined.

Lemma tx_new_wf : tx_wf TxEngine_new.
Proof. by split. Qed.

(** A three-byte gathered reply from reset, snapshotted and with an odd tail. *)
Lemma reply_on_the_wire_witness :
  exists t1 c1, TxEngine_stage_gather TxEngine_new (mkSoft [] (replicate 252 0)) 5 RcOk false [[1; 2]; []; [3]] =
      Some (Ok tt, t1, c1) /\ te_state t1 = TxStaged None /\
    forall c2 over, ce_snap c2 = ce_snap c1 ->
      sent t1 (5 :: 6 :: Inst_status (default RcOk over) false :: [1; 2; 3]) (transmit t1 c2 over).
Proof.
  apply (reply_on_the_wire TxEngine_new (mkSoft [] (replicate 252 0)) 5 RcOk false [[1; 2]; []; [3]]).
  - apply tx_new_wf.
  - reflexivity.
  - simpl. lia.
  - apply Nat.leb_le. reflexivity.
Defined.
