(* ===== verification/UartTx.v ===== *)
(** * The reply wire of the servo (firmware/servo-ch32/src/providers/tx_wire.rs,
      hal/usart/usart_common.rs, hal/dma/v1.rs, runtime/isr.rs)

    The transmitter's calls on the wire become register writes: the drive of the
    bus pin, a break as a nine-bit zero character, one DMA arm at a time, and the
    TC interrupt that reports an arm drained.  The shifter, the data register and
    the DMA channel are a machine that advances one clock cycle at a time while
    the processor runs.  A character is garbled if the pin, the format or the
    rate changes while it is shifting. *)

From S2P Require Import Prelude Crc Wire Frame Ring Tx.

(** ** The hardware *)

Inductive WChar := WBreak | WByte (b : Z) | WGarbled.
Record Uart := mkUart {
  ua_bit : nat;       (* clock cycles per bit: BRR *)
  ua_m : bool;        (* nine data bits *)
  ua_tcie : bool; ua_tc : bool;
  ua_dmat : bool;     (* transmit requests reach the DMA *)
  ua_dr : option Z;   (* the data register *)
  ua_shift : option (WChar * nat);  (* the character on the wire, cycles left *)
  ua_en : bool; ua_left : list Z;   (* the channel: enabled, bytes to move *)
  ua_drive : bool;    (* the pin drives the bus *)
  ua_log : list WChar }.

(** Start, eight or nine data bits, stop. *)
Definition char_cycles (u : Uart) : nat := ((if ua_m u then 11 else 10) * ua_bit u)%nat.
(** A zero of nine data bits is the break; the pin must drive. *)
Definition char_of (u : Uart) (b : Z) : WChar :=
  if negb (ua_drive u) then WGarbled
  else if ua_m u then (if b =? 0 then WBreak else WGarbled) else WByte b.

Definition set_shift sh dr tc log (u : Uart) : Uart :=
  mkUart (ua_bit u) (ua_m u) (ua_tcie u) tc (ua_dmat u) dr sh (ua_en u) (ua_left u) (ua_drive u) log.
(** The data register moves to an empty shifter; a finished character with
    nothing behind it sets TC. *)
Definition shift_step (u : Uart) : Uart :=
  match ua_shift u with
  | Some (c, S (S k)) => set_shift (Some (c, S k)) (ua_dr u) (ua_tc u) (ua_log u) u
  | Some (c, _) =>
      match ua_dr u with
      | Some b => set_shift (Some (char_of u b, char_cycles u)) None (ua_tc u) (ua_log u ++ [c]) u
      | None => set_shift None None true (ua_log u ++ [c]) u
      end
  | None =>
      match ua_dr u with
      | Some b => set_shift (Some (char_of u b, char_cycles u)) None (ua_tc u) (ua_log u) u
      | None => u
      end
  end.
Definition dma_step (u : Uart) : Uart :=
  match ua_dr u, ua_left u with
  | None, b :: rest =>
      if ua_dmat u && ua_en u then
        mkUart (ua_bit u) (ua_m u) (ua_tcie u) (ua_tc u) (ua_dmat u) (Some b) (ua_shift u) (ua_en u) rest (ua_drive u) (ua_log u)
      else u
  | _, _ => u
  end.
Definition uart_cycle (u : Uart) : Uart := dma_step (shift_step u).
Definition uart_run (n : nat) (u : Uart) : Uart := Nat.iter n uart_cycle u.
(** The vector is due for a drained arm. *)
Definition tx_irq (u : Uart) : bool := ua_tc u && ua_tcie u.

(** ** Register operations (usart_common.rs, dma/v1.rs, the bus pin) *)

(** Whatever the shifter holds is spoiled by a change under it. *)
Definition spoil (sh : option (WChar * nat)) : option (WChar * nat) :=
  match sh with Some (_, k) => Some (WGarbled, k) | None => None end.
Definition set_m (b : bool) (u : Uart) : Uart :=
  mkUart (ua_bit u) b (ua_tcie u) (ua_tc u) (ua_dmat u) (ua_dr u) (spoil (ua_shift u)) (ua_en u) (ua_left u) (ua_drive u) (ua_log u).
Definition set_drive (b : bool) (u : Uart) : Uart :=
  mkUart (ua_bit u) (ua_m u) (ua_tcie u) (ua_tc u) (ua_dmat u) (ua_dr u) (spoil (ua_shift u)) (ua_en u) (ua_left u) b (ua_log u).
Definition set_baud (brr : Z) (u : Uart) : Uart :=
  mkUart (Z.to_nat brr) (ua_m u) (ua_tcie u) (ua_tc u) (ua_dmat u) (ua_dr u) (spoil (ua_shift u)) (ua_en u) (ua_left u) (ua_drive u) (ua_log u).
Definition clear_tc (u : Uart) : Uart := set_shift (ua_shift u) (ua_dr u) false (ua_log u) u.
Definition set_tc_irq (b : bool) (u : Uart) : Uart :=
  mkUart (ua_bit u) (ua_m u) b (ua_tc u) (ua_dmat u) (ua_dr u) (ua_shift u) (ua_en u) (ua_left u) (ua_drive u) (ua_log u).
Definition set_dma_tx (b : bool) (u : Uart) : Uart :=
  mkUart (ua_bit u) (ua_m u) (ua_tcie u) (ua_tc u) b (ua_dr u) (ua_shift u) (ua_en u) (ua_left u) (ua_drive u) (ua_log u).
Definition write_dr (b : Z) (u : Uart) : Uart := set_shift (ua_shift u) (Some b) (ua_tc u) (ua_log u) u.
Definition dma_set_en (b : bool) (u : Uart) : Uart :=
  mkUart (ua_bit u) (ua_m u) (ua_tcie u) (ua_tc u) (ua_dmat u) (ua_dr u) (ua_shift u) b (ua_left u) (ua_drive u) (ua_log u).
(** [configure] writes the control register whole, its enable bit zero. *)
Definition dma_configure (span : list Z) (u : Uart) : Uart :=
  mkUart (ua_bit u) (ua_m u) (ua_tcie u) (ua_tc u) (ua_dmat u) (ua_dr u) (ua_shift u) false span (ua_drive u) (ua_log u).

Definition BREAK_COMMIT_SPINS : nat := Z.to_nat 4096.
(** [while !tc && bound > 0], a cycle or more per turn. *)
Fixpoint spin_tc (spin bound : nat) (u : Uart) : Uart :=
  match bound with
  | O => u
  | S bound' => if ua_tc u then u else spin_tc spin bound' (uart_run spin u)
  end.
Definition send_break (bound spin : nat) (u : Uart) : Uart :=
  let u := set_m true u in
  let u := clear_tc u in
  let u := write_dr 0 u in
  set_m false (spin_tc spin bound u).

(** ** The provider (tx_wire.rs) *)

Definition start_frame (spin : nat) (u : Uart) : Uart := send_break BREAK_COMMIT_SPINS spin (set_drive true u).
(** [d1], [d2]: cycles from the channel's enable to the clear of TC, and from
    there to its interrupt's enable. *)
Definition tx_send (d1 d2 : nat) (span : list Z) (u : Uart) : Uart :=
  let u := dma_configure span (dma_set_en false u) in
  let u := dma_set_en true (set_dma_tx true u) in
  let u := clear_tc (uart_run d1 u) in
  set_tc_irq true (uart_run d2 u).
Definition tx_release (u : Uart) : Uart :=
  dma_set_en false (set_dma_tx false (set_tc_irq false (set_drive false u))).

(** ** The host's provider (host-ch32/src/providers/tx_wire.rs, hal/usart.rs)

    The same machine; the receiver is gated for the whole claim, so the bytes the
    pin echoes never reach the ring, and the transmit requests stay enabled. *)
Record HostUart := mkHostUart { hu_uart : Uart; hu_re : bool; hu_held : bool }.
Definition HOST_BREAK_COMMIT_SPINS : nat := Z.to_nat 16384.
Definition host_claim (h : HostUart) : HostUart := mkHostUart (set_drive true (hu_uart h)) false (hu_held h).
Definition host_send_break (spin : nat) (h : HostUart) : HostUart :=
  mkHostUart (send_break HOST_BREAK_COMMIT_SPINS spin (hu_uart h)) (hu_re h) (hu_held h).
Definition host_send (d1 d2 : nat) (span : list Z) (h : HostUart) : HostUart :=
  let u := dma_set_en true (dma_configure span (dma_set_en false (hu_uart h))) in
  let u := clear_tc (uart_run d1 u) in
  mkHostUart (set_tc_irq true (uart_run d2 u)) (hu_re h) (hu_held h).
(** The rescue pulse: the pin leaves the USART and holds the bus low. *)
Definition host_hold_low (h : HostUart) : HostUart := mkHostUart (set_drive false (hu_uart h)) (hu_re h) true.
Definition host_release (h : HostUart) : HostUart :=
  mkHostUart (dma_set_en false (set_tc_irq false (set_drive false (hu_uart h)))) true false.

(** ** The rate divisors (usart_baud.rs, hal/clocks.rs) *)

Definition PCLK_HZ : Z := 48000000.
Definition PCLK1_HZ : Z := 144000000.
Definition host_brr_for (b : BaudRate) : Z := PCLK1_HZ / BaudRate_as_hz b.
(** [apply_raw]: rounded, at least the divisor's silicon minimum. *)
Definition apply_raw (bps : Z) : Z := Z.max ((PCLK1_HZ + bps / 2) / bps) 16.
Definition brr_for (b : BaudRate) : Z := (PCLK_HZ + BaudRate_as_hz b / 2) / BaudRate_as_hz b.

(** ** Playing the transmitter's calls

    Each arm runs until its interrupt: [fuel] cycles at most. *)
Fixpoint until_irq (fuel : nat) (u : Uart) : option Uart :=
  if tx_irq u then Some u else match fuel with O => None | S n => until_irq n (uart_cycle u) end.

Record Pace := mkPace { pc_spin : nat; pc_d1 : nat; pc_d2 : nat }.
Definition play_ev (p : Pace) (fuel : nat) (ev : TxEv) (u : Uart) : option Uart :=
  match ev with
  | TwStart => Some (start_frame (pc_spin p) u)
  | TwSend span => until_irq fuel (tx_send (pc_d1 p) (pc_d2 p) span u)
  | TwRelease => Some (tx_release u)
  end.
Fixpoint play (p : Pace) (fuel : nat) (evs : list TxEv) (u : Uart) : option Uart :=
  match evs with [] => Some u | ev :: evs' => u ← play_ev p fuel ev u; play p fuel evs' u end.

(** ** An arm in flight *)

Definition bytes_of (sh : option (WChar * nat)) : list WChar := match sh with Some (c, _) => [c] | None => [] end.
(** What is still to leave, oldest first. *)
Definition in_flight (u : Uart) : list WChar :=
  bytes_of (ua_shift u) ++ map WByte (match ua_dr u with Some b => [b] | None => [] end ++ ua_left u).

(** The settings an arm drains under, with a bounded character in the shifter:
    one that shifts has the next byte waiting behind it. *)
Record draining (u : Uart) : Prop := {
  dr_m : ua_m u = false; dr_drive : ua_drive u = true; dr_dmat : ua_dmat u = true; dr_en : ua_en u = true;
  dr_bit : (0 < ua_bit u)%nat;
  dr_next : ua_shift u <> None -> ua_dr u = None -> ua_left u = [];
  dr_cycles : match ua_shift u with Some (_, k) => (0 < k)%nat | None => True end }.

Definition CH (u : Uart) : nat := (10 * ua_bit u)%nat.
(** Cycles left, at most. *)
Definition cycles_left (u : Uart) : nat :=
  (match ua_shift u with Some (_, k) => k | None => 0 end +
   (match ua_dr u with Some _ => CH u + 2 | None => 0 end) + length (ua_left u) * (CH u + 3))%nat.

(** What a cycle leaves alone. *)
Definition same_config (u v : Uart) : Prop :=
  ua_bit v = ua_bit u /\ ua_m v = ua_m u /\ ua_tcie v = ua_tcie u /\ ua_dmat v = ua_dmat u /\
  ua_en v = ua_en u /\ ua_drive v = ua_drive u.
Lemma cycle_config u : same_config u (uart_cycle u).
Proof.
  assert (Hs : same_config u (shift_step u))
    by (unfold shift_step; destruct (ua_shift u) as [[c [|[|k]]]|]; try destruct (ua_dr u); repeat split).
  assert (Hd : forall v, same_config v (dma_step v))
    by (intros v; unfold dma_step; destruct (ua_dr v), (ua_left v); try destruct (_ && _); repeat split).
  unfold uart_cycle. destruct Hs as (?&?&?&?&?&?), (Hd (shift_step u)) as (?&?&?&?&?&?). repeat split; congruence.
Qed.

(** One cycle of an arm in flight: nothing is lost, it gets shorter, TC is not
    raised before the last byte is out, and then it is. *)
Lemma cycle_draining u : draining u -> in_flight u <> [] ->
  let v := uart_cycle u in
  draining v /\ ua_log v ++ in_flight v = ua_log u ++ in_flight u /\ (cycles_left v < cycles_left u)%nat /\
  (in_flight v <> [] -> ua_tc v = ua_tc u) /\ (in_flight v = [] -> ua_tc v = true /\ ua_shift v = None /\ ua_dr v = None /\ ua_left v = []).
Proof.
  intros [Hm Hd Ha He Hb Hn Hc] Hf. destruct u as [bit m tcie tc dmat dr sh en l drive log]. simpl in *. subst.
  unfold uart_cycle, shift_step, char_of, char_cycles, set_shift, cycles_left, in_flight, CH in *. simpl in *.
  destruct sh as [[c k]|].
  - destruct k as [|[|k]]; [lia| |].
    + destruct dr as [b|].
      * destruct l as [|b' l]; unfold dma_step; simpl.
        -- split; [constructor; simpl; (done || lia)|]. rewrite <- app_assoc. split; [done|]. split; [lia|]. done.
        -- split; [constructor; simpl; (done || lia)|]. rewrite <- app_assoc. split; [done|]. split; [lia|]. done.
      * rewrite Hn in * by done. unfold dma_step; simpl.
        split; [constructor; simpl; (done || lia)|]. rewrite app_nil_r. split; [done|]. split; [lia|]. done.
    + destruct dr as [b|]; unfold dma_step; simpl.
      * split; [constructor; simpl; (done || lia)|]. split; [done|]. split; [lia|]. done.
      * rewrite Hn in * by done. simpl. split; [constructor; simpl; (done || lia)|]. split; [done|]. split; [lia|]. done.
  - destruct dr as [b|].
    + destruct l as [|b' l]; unfold dma_step; simpl;
        (split; [constructor; simpl; (done || lia)|]); (split; [done|]); (split; [lia|done]).
    + destruct l as [|b' l]; [done|]. unfold dma_step; simpl.
      split; [constructor; simpl; (done || lia)|]. split; [done|]. split; [lia|done].
Qed.

Lemma same_config_trans u v w : same_config u v -> same_config v w -> same_config u w.
Proof. intros (?&?&?&?&?&?) (?&?&?&?&?&?). repeat split; congruence. Qed.
Lemma run_config n u : same_config u (uart_run n u).
Proof.
  induction n as [|n IH]; [repeat split|]. change (uart_run (S n) u) with (uart_cycle (uart_run n u)).
  eapply same_config_trans; [exact IH|apply cycle_config].
Qed.

Lemma run_add n m u : uart_run m (uart_run n u) = uart_run (m + n) u.
Proof. unfold uart_run. by rewrite Nat.iter_add. Qed.
Lemma run_S n u : uart_run (S n) u = uart_run n (uart_cycle u).
Proof. unfold uart_run. by rewrite Nat.iter_succ_r. Qed.

(** [n] cycles end before the character in the shifter does, or before a first
    character could. *)
Definition before_char (n : nat) (u : Uart) : Prop :=
  (match ua_shift u with Some (_, k) => n < k | None => n <= CH u end)%nat.

(** Before the first character of an arm is through, nothing has been raised. *)
Lemma run_draining n : forall m u, draining u -> in_flight u <> [] -> before_char (n + m) u ->
  let v := uart_run n u in
  draining v /\ before_char m v /\ ua_log v = ua_log u /\ in_flight v = in_flight u /\ ua_tc v = ua_tc u.
Proof.
  induction n as [|n IH]; intros m u Hd Hf Hn; [done|].
  assert (Hcyc := cycle_draining u Hd Hf). cbv zeta in Hcyc. destruct Hcyc as (Hd1 & Hlog & _ & Htc & _).
  assert (ua_log (uart_cycle u) = ua_log u /\ before_char (n + m) (uart_cycle u)) as [Hl Hn1].
  { clear IH Htc Hlog Hd1. destruct Hd as [Hm Hdr Ha He Hb Hx Hc]. unfold before_char in *.
    destruct u as [bit m' tcie tc dmat dr sh en l drive log]. simpl in *. subst.
    unfold uart_cycle, shift_step, char_of, char_cycles, set_shift, CH in *. simpl in *.
    destruct sh as [[c k]|].
    - destruct k as [|[|k]]; [lia|lia|]. unfold dma_step; simpl. destruct dr, l; simpl; split; done || lia.
    - destruct dr as [b|]; unfold dma_step; simpl; destruct l; simpl; split; done || lia. }
  rewrite Hl in Hlog. apply app_inv_head in Hlog. rewrite run_S.
  destruct (IH m (uart_cycle u)) as (Hd2 & Hf2 & Hl2 & Hi2 & Ht2); [done|congruence|done|].
  split; [done|]. split; [done|]. split; [congruence|]. split; [congruence|]. rewrite Ht2. apply Htc. congruence.
Qed.

(** An arm drains: within its remaining cycles its interrupt comes, once every
    byte has left, and not before. *)
Lemma until_drained n : forall u, draining u -> in_flight u <> [] -> ua_tc u = false -> ua_tcie u = true ->
  (cycles_left u <= n)%nat ->
  exists v, until_irq n u = Some v /\ ua_log v = ua_log u ++ in_flight u /\ ua_shift v = None /\ ua_dr v = None /\
    ua_left v = [] /\ same_config u v.
Proof.
  induction n as [|n IH]; intros u Hd Hf Ht Hi Hr.
  - destruct (cycle_draining u Hd Hf) as (_ & _ & Hlt & _). lia.
  - cbn [until_irq]. unfold tx_irq at 1. rewrite Ht. cbn [andb].
    destruct (cycle_draining u Hd Hf) as (Hd1 & Hlog & Hlt & Htc & Hend).
    destruct (cycle_config u) as (C1 & C2 & C3 & C4 & C5 & C6).
    destruct (in_flight (uart_cycle u)) as [|c fl] eqn:E.
    + destruct (Hend eq_refl) as (Et & Es & Edr & El). exists (uart_cycle u).
      assert (until_irq n (uart_cycle u) = Some (uart_cycle u)) as ->.
      { assert (tx_irq (uart_cycle u) = true) as H by (unfold tx_irq; by rewrite Et, C3, Hi). destruct n; simpl; by rewrite H. }
      rewrite app_nil_r in Hlog. done.
    + destruct (IH (uart_cycle u)) as (v & Hv & Hlv & Hsv & Hdv & Hev & Hcv);
        [done|congruence|rewrite Htc; done|congruence|lia|].
      exists v. split; [done|]. split; [rewrite Hlv, E; done|]. split; [done|]. split; [done|]. split; [done|].
      eapply same_config_trans; [apply cycle_config|exact Hcv].
Qed.

(** ** An arm on an idle shifter *)

(** The wire claimed, nothing moving. *)
Record claimed (u : Uart) : Prop := {
  cd_m : ua_m u = false; cd_drive : ua_drive u = true; cd_shift : ua_shift u = None; cd_dr : ua_dr u = None;
  cd_bit : (0 < ua_bit u)%nat }.

(** Cycles an arm may take. *)
Definition arm_cycles (u : Uart) (span : list Z) : nat := (length span * (CH u + 3))%nat.

Lemma remaining_run n : forall u, draining u -> in_flight u <> [] -> before_char n u ->
  (cycles_left (uart_run n u) <= cycles_left u)%nat.
Proof.
  induction n as [|n IH]; intros u Hd Hf Hn; [done|].
  destruct (cycle_draining u Hd Hf) as (_ & _ & Hlt & _).
  destruct (run_draining 1 n u Hd Hf) as (Hd1 & Hb1 & _ & Hi1 & _); [done|]. rewrite run_S.
  change (uart_run 1 u) with (uart_cycle u) in *.
  specialize (IH (uart_cycle u) Hd1 ltac:(congruence) Hb1). lia.
Qed.

Lemma arm_played d1 d2 span u fuel : claimed u -> span <> [] -> (d1 + d2 <= CH u)%nat ->
  (arm_cycles u span <= fuel)%nat ->
  exists v, until_irq fuel (tx_send d1 d2 span u) = Some v /\ claimed v /\ ua_log v = ua_log u ++ map WByte span /\
    ua_bit v = ua_bit u.
Proof.
  intros [Hm Hd Hs Hr Hb] Hne Hdl Hfuel. unfold tx_send.
  set (u0 := dma_set_en true (set_dma_tx true (dma_configure span (dma_set_en false u)))).
  assert (D0 : draining u0) by (constructor; simpl; rewrite ?Hs; done).
  assert (F0 : in_flight u0 = map WByte span) by (unfold in_flight; simpl; by rewrite Hs, Hr).
  assert (N0 : in_flight u0 <> []) by (rewrite F0; by destruct span).
  assert (B0 : before_char (d1 + d2) u0) by (unfold before_char; simpl; by rewrite Hs).
  assert (R0 : cycles_left u0 = arm_cycles u span) by (unfold cycles_left, arm_cycles; simpl; by rewrite Hs, Hr).
  assert (L0 : ua_log u0 = ua_log u) by done. assert (Bit0 : ua_bit u0 = ua_bit u) by done. clearbody u0.
  destruct (run_draining d1 d2 u0 D0 N0 B0) as (D1 & B1 & L1 & F1 & _).
  assert (R1 := remaining_run d1 u0 D0 N0 ltac:(unfold before_char in *; destruct (ua_shift u0) as [[]|]; lia)).
  assert (Bit1 := run_config d1 u0). destruct Bit1 as (Bit1 & _).
  set (u1 := clear_tc (uart_run d1 u0)) in *.
  assert (D1' : draining u1) by (destruct D1; constructor; done).
  assert (F1' : in_flight u1 = in_flight u0) by done. assert (B1' : before_char d2 u1) by done.
  assert (N1 : in_flight u1 <> []) by congruence.
  destruct (run_draining d2 0 u1 D1' N1) as (D2 & _ & L2 & F2 & T2); [by rewrite Nat.add_0_r|].
  assert (R2 := remaining_run d2 u1 D1' N1 B1'). assert (Bit2 := run_config d2 u1). destruct Bit2 as (Bit2 & _).
  set (u2 := set_tc_irq true (uart_run d2 u1)) in *.
  assert (D2' : draining u2) by (destruct D2; constructor; done).
  assert (R2' : (cycles_left u2 <= fuel)%nat)
    by (change (cycles_left u2) with (cycles_left (uart_run d2 u1)); change (cycles_left u1) with (cycles_left (uart_run d1 u0)) in R2; lia).
  destruct (until_drained fuel u2) as (v & Hv & Lv & Sv & Dv & _ & (Cb & Cm & _ & _ & _ & Cd));
    [done|change (in_flight u2) with (in_flight (uart_run d2 u1)); congruence|exact T2|done|done|].
  exists v. split; [exact Hv|]. destruct D2' as [M2 Dr2 _ _ Bt2 _ _]. split; [|split].
  - constructor; congruence || (rewrite Cb; exact Bt2).
  - rewrite Lv. change (in_flight u2) with (in_flight (uart_run d2 u1)). rewrite F2, F1', F0. f_equal.
    change (ua_log u2) with (ua_log (uart_run d2 u1)). rewrite L2. change (ua_log u1) with (ua_log (uart_run d1 u0)). congruence.
  - rewrite Cb. change (ua_bit u2) with (ua_bit (uart_run d2 u1)). rewrite Bit2.
    change (ua_bit u1) with (ua_bit (uart_run d1 u0)). congruence.
Qed.

(** ** The break *)

(** The bus listening: nothing moving, the channel off. *)
Record listening (u : Uart) : Prop := {
  li_m : ua_m u = false; li_shift : ua_shift u = None; li_dr : ua_dr u = None; li_en : ua_en u = false;
  li_tcie : ua_tcie u = false; li_drive : ua_drive u = false }.

(** The registers while the break is sent from [u]. *)
Definition break_state (u : Uart) dr sh tc log : Uart :=
  mkUart (ua_bit u) true (ua_tcie u) tc (ua_dmat u) dr sh (ua_en u) (ua_left u) true log.
Definition break_written (u : Uart) : Uart := break_state u (Some 0) None false (ua_log u).

Section break.
Variables (u : Uart).
Hypotheses (Hen : ua_en u = false) (Hbit : (0 < ua_bit u)%nat).
Let B := (11 * ua_bit u)%nat.

Lemma dma_off v : ua_en v = false -> dma_step v = v.
Proof using. intros H. unfold dma_step. rewrite H, andb_false_r. by destruct (ua_dr v), (ua_left v). Qed.

Lemma break_loads log : uart_cycle (break_state u (Some 0) None false log) =
  break_state u None (Some (WBreak, B)) false log.
Proof using Hen. unfold uart_cycle. by rewrite dma_off. Qed.
Lemma break_shifts k log : uart_cycle (break_state u None (Some (WBreak, S (S k))) false log) =
  break_state u None (Some (WBreak, S k)) false log.
Proof using Hen. unfold uart_cycle. by rewrite dma_off. Qed.
Lemma break_ends log : uart_cycle (break_state u None (Some (WBreak, 1%nat)) false log) =
  break_state u None None true (log ++ [WBreak]).
Proof using Hen. unfold uart_cycle. by rewrite dma_off. Qed.
Lemma break_rests log : uart_cycle (break_state u None None true log) = break_state u None None true log.
Proof using Hen. unfold uart_cycle. by rewrite dma_off. Qed.

Lemma break_shifting k : (k < B)%nat ->
  uart_run (S k) (break_written u) = break_state u None (Some (WBreak, (B - k)%nat)) false (ua_log u).
Proof using Hen Hbit.
  induction k as [|k IH]; intros Hk.
  - change (uart_run 1 (break_written u)) with (uart_cycle (break_written u)). unfold break_written.
    by rewrite break_loads, Nat.sub_0_r.
  - change (uart_run (S (S k)) (break_written u)) with (uart_cycle (uart_run (S k) (break_written u))).
    rewrite IH by lia. replace (B - k)%nat with (S (S (B - k - 2))) by lia. rewrite break_shifts.
    by replace (S (B - k - 2)) with (B - S k)%nat by lia.
Qed.

Definition break_done : Uart := break_state u None None true (ua_log u ++ [WBreak]).

Lemma break_done_stable n : uart_run n break_done = break_done.
Proof using Hen.
  induction n as [|n IH]; [done|]. change (uart_run (S n) break_done) with (uart_cycle (uart_run n break_done)).
  rewrite IH. apply break_rests.
Qed.

Lemma break_finished n : (B < n)%nat -> uart_run n (break_written u) = break_done.
Proof using Hen Hbit.
  intros Hn. assert (0 < B)%nat by (subst B; lia). replace n with (n - S B + S B)%nat by lia.
  rewrite <- run_add.
  assert (uart_run (S B) (break_written u) = break_done) as ->; [|apply break_done_stable].
  replace (S B) with (S (S (B - 1))) by lia.
  change (uart_run (S (S (B - 1))) (break_written u)) with (uart_cycle (uart_run (S (B - 1)) (break_written u))).
  rewrite break_shifting by lia. replace (B - (B - 1))%nat with 1%nat by lia. apply break_ends.
Qed.

Lemma break_pending n : (n <= B)%nat -> ua_tc (uart_run n (break_written u)) = false.
Proof using Hen Hbit.
  intros Hn. destruct n as [|n]; [done|]. by rewrite break_shifting by lia.
Qed.

Lemma spin_finishes spin bound : forall j, (0 < spin)%nat -> (B < j + bound * spin)%nat ->
  spin_tc spin bound (uart_run j (break_written u)) = break_done.
Proof using Hen Hbit.
  induction bound as [|bound IH]; intros j Hp Hj; cbn [spin_tc]; [apply break_finished; lia|].
  destruct (Nat.le_gt_cases j B) as [Hle|Hgt].
  - rewrite break_pending by done. rewrite run_add. apply IH; [done|]. simpl in Hj. lia.
  - by rewrite break_finished.
Qed.
End break.

(** A claimed, silent bus sends a break within a bound of [bound] polls. *)
Lemma break_sent bound spin u : ua_shift u = None -> ua_en u = false -> (0 < ua_bit u)%nat -> (0 < spin)%nat ->
  (11 * ua_bit u < bound)%nat -> ua_drive u = true ->
  let v := send_break bound spin u in
  claimed v /\ ua_log v = ua_log u ++ [WBreak] /\ ua_bit v = ua_bit u /\ ua_tcie v = ua_tcie u /\ ua_dmat v = ua_dmat u.
Proof.
  intros Hs He Hb Hp Hbd Hd. unfold send_break.
  assert (write_dr 0 (clear_tc (set_m true u)) = break_written u) as -> by (destruct u; simpl in *; by subst).
  assert (Hbound : (11 * ua_bit u < 0 + bound * spin)%nat).
  { assert (bound * 1 <= bound * spin)%nat by (apply Nat.mul_le_mono_l; lia). lia. }
  assert (Hfin := spin_finishes u He Hb spin bound 0 Hp Hbound).
  change (uart_run 0 (break_written u)) with (break_written u) in Hfin. rewrite Hfin. clear Hbound Hfin.
  split; [constructor; simpl; (done || lia)|]. done.
Qed.

Lemma start_frame_breaks spin u : listening u -> (0 < spin)%nat -> (0 < ua_bit u <= 372)%nat ->
  let v := start_frame spin u in
  claimed v /\ ua_log v = ua_log u ++ [WBreak] /\ ua_bit v = ua_bit u.
Proof.
  intros [Hm Hs Hr He Ht Hd] Hp Hb. unfold start_frame.
  destruct (break_sent BREAK_COMMIT_SPINS spin (set_drive true u)) as (H1 & H2 & H3 & _);
    [simpl; by rewrite Hs|done|simpl; lia|done|simpl; unfold BREAK_COMMIT_SPINS; lia|done|done].
Qed.

(** ** The whole reply *)

Lemma until_irq_same fuel u : tx_irq u = true -> until_irq fuel u = Some u.
Proof. intros H. destruct fuel; simpl; by rewrite H. Qed.

Lemma arms_played p fuel sends : forall u, claimed u -> Forall (fun s => s <> []) sends ->
  (pc_d1 p + pc_d2 p <= CH u)%nat -> Forall (fun s => arm_cycles u s <= fuel)%nat sends ->
  exists v, play p fuel (map TwSend sends) u = Some v /\ claimed v /\
    ua_log v = ua_log u ++ map WByte (concat sends) /\ ua_bit v = ua_bit u.
Proof.
  induction sends as [|s sends IH]; intros u Hc Hne Hd Hf; [exists u; by rewrite app_nil_r|].
  apply Forall_cons_1 in Hne as [Hs Hne]. apply Forall_cons_1 in Hf as [Hf1 Hf].
  destruct (arm_played (pc_d1 p) (pc_d2 p) s u fuel Hc Hs Hd Hf1) as (v & Hv & Hcv & Hlv & Hbv).
  destruct (IH v Hcv Hne) as (w & Hw & Hcw & Hlw & Hbw).
  - unfold CH in *. by rewrite Hbv.
  - eapply List.Forall_impl; [|exact Hf]. intros x Hx. unfold arm_cycles, CH in *. by rewrite Hbv.
  - exists w. cbn [map play play_ev]. rewrite Hv. cbn [mbind option_bind]. split; [done|]. split; [done|].
    cbn [concat]. rewrite Hlw, Hlv, map_app, app_assoc. by rewrite Hbw, Hbv.
Qed.

Lemma until_irq_dmat n : forall u v b, until_irq n u = Some v -> ua_dmat u = b -> ua_dmat v = b.
Proof.
  induction n as [|n IH]; intros u v b H Hu; simpl in H; destruct (tx_irq u); simplify_eq; [done|done|].
  eapply IH; [exact H|]. by destruct (cycle_config u) as (_ & _ & _ & -> & _).
Qed.
Lemma tx_send_dmat d1 d2 span u : ua_dmat (tx_send d1 d2 span u) = true.
Proof.
  unfold tx_send. cbn [set_tc_irq ua_dmat].
  match goal with |- ua_dmat (uart_run d2 ?x) = _ => destruct (run_config d2 x) as (_ & _ & _ & -> & _) end.
  cbn [clear_tc set_shift ua_dmat].
  match goal with |- ua_dmat (uart_run d1 ?x) = _ => destruct (run_config d1 x) as (_ & _ & _ & -> & _) end. done.
Qed.

(** A released wire raises nothing more. *)
Lemma released_quiet u n : tx_irq (uart_run n (tx_release u)) = false.
Proof.
  unfold tx_irq. destruct (run_config n (tx_release u)) as (_ & _ & Ht & _). rewrite Ht. apply andb_false_r.
Qed.

Lemma calls_on_bus p baud sends u :
  listening u -> ua_bit u = Z.to_nat (brr_for baud) -> (0 < pc_spin p)%nat ->
  (pc_d1 p + pc_d2 p <= 10 * Z.to_nat (brr_for baud))%nat ->
  Forall (fun s => s <> []) sends ->
  let fuel := (length (concat sends) * (10 * Z.to_nat (brr_for baud) + 3))%nat in
  exists v, play p fuel (TwStart :: map TwSend sends ++ [TwRelease]) u = Some v /\
    ua_log v = ua_log u ++ WBreak :: map WByte (concat sends) /\
    listening v /\ ua_bit v = ua_bit u /\ forall n, tx_irq (uart_run n v) = false.
Proof.
  intros Hl Hb Hp Hd Hne fuel.
  assert (Hbit : (0 < ua_bit u <= 372)%nat) by (rewrite Hb; destruct baud; vm_compute; lia).
  destruct (start_frame_breaks (pc_spin p) u Hl Hp Hbit) as (Hc & Hlog & Hb1).
  set (u1 := start_frame (pc_spin p) u) in *.
  destruct (arms_played p fuel sends u1 Hc Hne) as (v & Hv & Hcv & Hlv & Hbv).
  - unfold CH. congruence || (rewrite Hb1, Hb; exact Hd).
  - subst fuel. apply List.Forall_forall. intros s Hs. unfold arm_cycles, CH. rewrite Hb1, Hb.
    apply Nat.mul_le_mono_r. apply in_split in Hs as (l1 & l2 & ->). rewrite concat_app, length_app. cbn [concat].
    rewrite length_app. lia.
  - exists (tx_release v). cbn [play play_ev mbind option_bind]. fold u1.
    assert (forall evs1 evs2 w, play p fuel (evs1 ++ evs2) w = (x ← play p fuel evs1 w; play p fuel evs2 x)) as Happ.
    { induction evs1 as [|e evs1 IH]; intros evs2 w; [done|]. cbn [app play]. destruct (play_ev p fuel e w); [|done].
      cbn [mbind option_bind]. apply IH. }
    rewrite Happ, Hv. cbn [mbind option_bind play play_ev]. split; [done|].
    destruct Hcv as [Hm Hdr Hs Hr Hbt]. split; [|split; [|split]].
    + cbn [tx_release dma_set_en set_dma_tx set_tc_irq set_drive ua_log]. rewrite Hlv, Hlog, <- app_assoc. done.
    + constructor; cbn; by rewrite ?Hs.
    + cbn. congruence.
    + intros n. apply released_quiet.
Qed.

(** C9: a reply's calls put exactly its bytes on the bus.  Let the bus be
    listening at one of the four rates, a poll take at least a cycle, and the
    stores of an arm take less than a character.  Then for any arms, none
    empty, playing the transmitter's calls (claim and break, each arm until its
    interrupt, release) leaves on the wire one break and the arms' bytes in
    order, none garbled: the break commits within the poll's bound, each arm's
    interrupt comes after its last byte has left and not before, and after the
    release the bus is listening again and no interrupt follows. *)
Theorem reply_wire_exact p baud sends u :
  listening u -> ua_bit u = Z.to_nat (brr_for baud) -> (0 < pc_spin p)%nat ->
  (pc_d1 p + pc_d2 p <= 10 * Z.to_nat (brr_for baud))%nat ->
  Forall (fun s => s <> []) sends ->
  let fuel := (length (concat sends) * (10 * Z.to_nat (brr_for baud) + 3))%nat in
  exists v, play p fuel (TwStart :: map TwSend sends ++ [TwRelease]) u = Some v /\
    ua_log v = ua_log u ++ WBreak :: map WByte (concat sends) /\
    listening v /\ ua_bit v = ua_bit u /\ forall n, tx_irq (uart_run n v) = false.
Proof. apply calls_on_bus. Qed.

Definition demo_uart : Uart := mkUart 16 false false true false None None false [] false [].
Lemma reply_wire_exact_witness :
  exists v, play (mkPace 1 4 2) (5 * 163) [TwStart; TwSend [1; 2; 3]; TwSend [7; 9]; TwRelease] demo_uart = Some v /\
    ua_log v = [WBreak; WByte 1; WByte 2; WByte 3; WByte 7; WByte 9].
Proof.
  destruct (reply_wire_exact (mkPace 1 4 2) B3000000 [[1; 2; 3]; [7; 9]] demo_uart) as (v & Hv & Hl & _).
  - constructor; reflexivity.
  - vm_compute. reflexivity.
  - simpl. lia.
  - vm_compute. lia.
  - repeat constructor; discriminate.
  - exists v. split; [exact Hv|exact Hl].
Defined.

(** The four divisors are exact at the servo's clock. *)
Theorem brr_exact b : brr_for b * BaudRate_as_hz b = PCLK_HZ.
Proof. destruct b; vm_compute; reflexivity. Qed.

(** Composed with the transmitter: whatever transmission it reports as sent, the
    bus carried one break, the covered bytes and their checksum (or the counted
    placeholder), and nothing else. *)
Theorem sent_reaches_bus {C} `{CrcEngineLaws C} p baud t m r u :
  sent (C := C) t m r -> listening u -> ua_bit u = Z.to_nat (brr_for baud) -> (0 < pc_spin p)%nat ->
  (pc_d1 p + pc_d2 p <= 10 * Z.to_nat (brr_for baud))%nat ->
  exists t' c' evs (ok : bool) v, r = Some (t', c', evs) /\
    play p (length (m ++ [0; 0]) * (10 * Z.to_nat (brr_for baud) + 3)) evs u = Some v /\
    ua_log v = ua_log u ++ WBreak :: map WByte (m ++ (if ok then to_le16 (osc_crc m) else [0; 0])) /\ listening v.
Proof.
  intros (t' & c' & sends & ok & Hr & Hcat & Hne & _) Hl Hb Hp Hd.
  destruct (calls_on_bus p baud sends u Hl Hb Hp Hd Hne) as (v & Hv & Hlog & Hlv & _).
  exists t', c', (TwStart :: map TwSend sends ++ [TwRelease]), ok, v. split; [exact Hr|].
  rewrite Hcat in Hlog. split; [|by split].
  replace (length (m ++ [0; 0])) with (length (concat sends)); [exact Hv|].
  rewrite Hcat, !length_app. by destruct ok.
Qed.

(** ** The host's end *)

Lemma host_send_uart d1 d2 span h : ua_dmat (hu_uart h) = true ->
  hu_uart (host_send d1 d2 span h) = tx_send d1 d2 span (hu_uart h).
Proof. destruct h as [[]]. simpl. by intros ->. Qed.

Definition host_until_irq (fuel : nat) (h : HostUart) : option HostUart :=
  u ← until_irq fuel (hu_uart h); Some (mkHostUart u (hu_re h) (hu_held h)).
Fixpoint host_arms (p : Pace) (fuel : nat) (sends : list (list Z)) (h : HostUart) : option HostUart :=
  match sends with
  | [] => Some h
  | s :: sends' => h ← host_until_irq fuel (host_send (pc_d1 p) (pc_d2 p) s h); host_arms p fuel sends' h
  end.

Lemma host_arms_played p fuel sends : forall h, claimed (hu_uart h) -> ua_dmat (hu_uart h) = true ->
  Forall (fun s => s <> []) sends -> (pc_d1 p + pc_d2 p <= CH (hu_uart h))%nat ->
  Forall (fun s => arm_cycles (hu_uart h) s <= fuel)%nat sends ->
  exists v, host_arms p fuel sends h = Some v /\ claimed (hu_uart v) /\
    ua_log (hu_uart v) = ua_log (hu_uart h) ++ map WByte (concat sends) /\ ua_bit (hu_uart v) = ua_bit (hu_uart h) /\
    hu_re v = hu_re h /\ hu_held v = hu_held h.
Proof.
  induction sends as [|s sends IH]; intros h Hc Hm Hne Hd Hf; [exists h; by rewrite app_nil_r|].
  apply Forall_cons_1 in Hne as [Hs Hne]. apply Forall_cons_1 in Hf as [Hf1 Hf].
  destruct (arm_played (pc_d1 p) (pc_d2 p) s (hu_uart h) fuel Hc Hs Hd Hf1) as (v & Hv & Hcv & Hlv & Hbv).
  assert (Hdm : ua_dmat v = true) by (eapply until_irq_dmat; [exact Hv|by apply tx_send_dmat]).
  cbn [host_arms]. unfold host_until_irq. rewrite host_send_uart, Hv by done. cbn [mbind option_bind].
  destruct (IH (mkHostUart v (hu_re (host_send (pc_d1 p) (pc_d2 p) s h)) (hu_held (host_send (pc_d1 p) (pc_d2 p) s h))))
    as (w & Hw & Hcw & Hlw & Hbw & Hrw & Hhw); cbn [hu_uart hu_re hu_held]; [done|done|done| | |].
  - unfold CH in *. by rewrite Hbv.
  - eapply List.Forall_impl; [|exact Hf]. intros x Hx. unfold arm_cycles, CH in *. by rewrite Hbv.
  - cbn [hu_uart hu_re hu_held] in *. exists w. split; [done|]. split; [done|]. cbn [concat].
    split; [rewrite Hlw, Hlv, map_app, app_assoc; done|]. split; [congruence|]. by rewrite Hrw, Hhw.
Qed.

(** A host frame at its end of the wire: claim, break, arms and release leave one
    break and the bytes, with the receiver off from the claim to the release, so
    the echo reaches no ring, and on again afterwards. *)
Theorem host_frame_exact p baud sends h :
  let u := hu_uart h in
  ua_m u = false -> ua_shift u = None -> ua_dr u = None -> ua_en u = false -> ua_dmat u = true ->
  ua_bit u = Z.to_nat (host_brr_for baud) -> (0 < pc_spin p)%nat ->
  (pc_d1 p + pc_d2 p <= 10 * Z.to_nat (host_brr_for baud))%nat -> Forall (fun s => s <> []) sends ->
  let fuel := (length (concat sends) * (10 * Z.to_nat (host_brr_for baud) + 3))%nat in
  let h1 := host_send_break (pc_spin p) (host_claim h) in
  exists h2, host_arms p fuel sends h1 = Some h2 /\ hu_re h1 = false /\ hu_re h2 = false /\
    ua_log (hu_uart (host_release h2)) = ua_log u ++ WBreak :: map WByte (concat sends) /\
    hu_re (host_release h2) = true /\ forall n, tx_irq (uart_run n (hu_uart (host_release h2))) = false.
Proof.
  intros u Hm Hs Hr He Hdm Hb Hp Hd Hne fuel h1.
  assert (Hbit : (0 < ua_bit u <= 288)%nat) by (rewrite Hb; destruct baud; vm_compute; lia).
  destruct (break_sent HOST_BREAK_COMMIT_SPINS (pc_spin p) (set_drive true u)) as (Hc & Hlog & Hb1 & _ & Hdm1);
    [simpl; by rewrite Hs|done|simpl; lia|done|simpl; unfold HOST_BREAK_COMMIT_SPINS; lia|done|].
  destruct (host_arms_played p fuel sends h1 Hc) as (v & Hv & Hcv & Hlv & Hbv & Hrv & _);
    [transitivity (ua_dmat (set_drive true u)); [exact Hdm1|exact Hdm]|done| | |].
  - unfold CH. replace (ua_bit (hu_uart h1)) with (ua_bit u) by (symmetry; exact Hb1). rewrite Hb. exact Hd.
  - subst fuel. apply List.Forall_forall. intros s Hin. unfold arm_cycles, CH.
    replace (ua_bit (hu_uart h1)) with (ua_bit u) by (symmetry; exact Hb1). rewrite Hb.
    apply Nat.mul_le_mono_r. apply in_split in Hin as (l1 & l2 & ->). rewrite concat_app, length_app. cbn [concat].
    rewrite length_app. lia.
  - exists v. split; [done|]. split; [done|]. split; [by rewrite Hrv|].
    cbn [host_release hu_uart hu_re dma_set_en set_tc_irq set_drive ua_log]. split; [|split; [done|]].
    + rewrite Hlv. replace (ua_log (hu_uart h1)) with (ua_log u ++ [WBreak]) by (symmetry; exact Hlog).
      by rewrite <- app_assoc.
    + intros n. unfold tx_irq. match goal with |- context [uart_run n ?x] => destruct (run_config n x) as (_ & _ & Ht & _) end.
      rewrite Ht. apply andb_false_r.
Qed.

(** The host's divisors are exact and above the silicon minimum. *)
Theorem host_brr_exact b : host_brr_for b * BaudRate_as_hz b = PCLK1_HZ /\ 16 <= host_brr_for b /\
  apply_raw (BaudRate_as_hz b) = host_brr_for b.
Proof. destruct b; vm_compute; repeat split; discriminate. Qed.
