(* ===== verification/ServoBus.v ===== *)
(** * The bus composite (firmware/lib/drivers/src/bus/servo_bus.rs, servo_bus/)

    [ServoBus] owns the framer, the chain, the transmitter, the clock tracker,
    the CRC engine and the security context, and routes break, deadline and
    transmit events between them and the dispatcher.  A handler runs in the
    monad [B]: the composite's state (with the dispatcher it is given), the
    trace of its calls on the wire, the deadline and the baud ports, and
    [None] for a panic.  Reading the tick or the DMA cursor may find the
    hardware moved on: both are operations of the class [Providers] on an
    abstract hardware state. *)

From S2P Require Import Prelude Trace Crc FrameBytes Wire Frame Security Table Regions Dispatch Chain.
From S2P Require Import Ring Trim Clock Framer Decode Tx.

(** ** Ports (traits/bus.rs): the ring and the tick *)

Class Providers (E : Type) := {
  TICKS_PER_US : Z;
  CLOCK_TRIM_STEP_PPM : Z;
  rx_bytes : E -> list Z;
  rx_cursor : E -> Z * E;
  dl_now : E -> Z * E;
}.

(** The calls on the transmit wire, the compare and the baud port. *)
Inductive BusEv := BeTx (e : TxEv) | BeSet (at_ : Z) | BeCancel | BeBaud (rate : BaudRate).

Definition BYTE_TIME_NUMERATOR : Z := 10000000.
Definition FRAME_ALLOWANCE_SLACK_BYTES : Z := 8.
Definition DEADLINE_DRAIN_MAX : nat := 8.
Definition FRAMES_PER_WAKE : nat := 16.
Definition AUTH_SPAN_MAX : Z := 96.

(** A frame dispatched ahead of its CRC verdict. *)
Record Pending := mkPend {
  pd_anchor : Z; pd_footprint : Z; pd_packet_end : Z; pd_slot : Z; pd_staged : bool; pd_table : bool }.

Definition due (now : Z) (at_ : option Z) : bool :=
  match at_ with Some a => tick_reached now a | None => false end.

(** The slot key of an ENUM reply (reply.rs). *)
Definition fold_key (crc : Z) : Z := u8 (Z.lxor crc (Z.shiftr crc 8)).
Definition slot_key (payload : list Z) : Z := fold_key (osc_crc payload).

Section bus.
Context {C E St : Type} `{CrcEngine C} `{Providers E} `{ConfigStore St}.

Record ServoBus := mkBus {
  sb_framer : Framer;
  sb_chain : Chain;
  sb_tx : TxEngine;
  sb_crc : C;
  sb_env : E;
  sb_id : Z;
  sb_rate : BaudRate;
  sb_tpb : Z;
  sb_response_deadline_us : Z;
  sb_pending_id : option Z;
  sb_pending_baud : option BaudRate;
  sb_pending_reboot : option Z;
  sb_crc_fails : Z;
  sb_pending : option Pending;
  sb_framer_at : option Z;
  sb_chain_at : option Z;
  sb_clock : ClockTracker;
  sb_security : SecurityContext;
  sb_d : Servo St }.

Definition set_sb_framer (x : Framer) (b : ServoBus) : ServoBus :=
  mkBus x (sb_chain b) (sb_tx b) (sb_crc b) (sb_env b) (sb_id b) (sb_rate b) (sb_tpb b)
    (sb_response_deadline_us b) (sb_pending_id b) (sb_pending_baud b) (sb_pending_reboot b)
    (sb_crc_fails b) (sb_pending b) (sb_framer_at b) (sb_chain_at b) (sb_clock b) (sb_security b)
    (sb_d b).
Definition set_sb_chain (x : Chain) (b : ServoBus) : ServoBus :=
  mkBus (sb_framer b) x (sb_tx b) (sb_crc b) (sb_env b) (sb_id b) (sb_rate b) (sb_tpb b)
    (sb_response_deadline_us b) (sb_pending_id b) (sb_pending_baud b) (sb_pending_reboot b)
    (sb_crc_fails b) (sb_pending b) (sb_framer_at b) (sb_chain_at b) (sb_clock b) (sb_security b)
    (sb_d b).
Definition set_sb_tx (x : TxEngine) (b : ServoBus) : ServoBus :=
  mkBus (sb_framer b) (sb_chain b) x (sb_crc b) (sb_env b) (sb_id b) (sb_rate b) (sb_tpb b)
    (sb_response_deadline_us b) (sb_pending_id b) (sb_pending_baud b) (sb_pending_reboot b)
    (sb_crc_fails b) (sb_pending b) (sb_framer_at b) (sb_chain_at b) (sb_clock b) (sb_security b)
    (sb_d b).
Definition set_sb_crc (x : C) (b : ServoBus) : ServoBus :=
  mkBus (sb_framer b) (sb_chain b) (sb_tx b) x (sb_env b) (sb_id b) (sb_rate b) (sb_tpb b)
    (sb_response_deadline_us b) (sb_pending_id b) (sb_pending_baud b) (sb_pending_reboot b)
    (sb_crc_fails b) (sb_pending b) (sb_framer_at b) (sb_chain_at b) (sb_clock b) (sb_security b)
    (sb_d b).
Definition set_sb_env (x : E) (b : ServoBus) : ServoBus :=
  mkBus (sb_framer b) (sb_chain b) (sb_tx b) (sb_crc b) x (sb_id b) (sb_rate b) (sb_tpb b)
    (sb_response_deadline_us b) (sb_pending_id b) (sb_pending_baud b) (sb_pending_reboot b)
    (sb_crc_fails b) (sb_pending b) (sb_framer_at b) (sb_chain_at b) (sb_clock b) (sb_security b)
    (sb_d b).
Definition set_sb_id (x : Z) (b : ServoBus) : ServoBus :=
  mkBus (sb_framer b) (sb_chain b) (sb_tx b) (sb_crc b) (sb_env b) x (sb_rate b) (sb_tpb b)
    (sb_response_deadline_us b) (sb_pending_id b) (sb_pending_baud b) (sb_pending_reboot b)
    (sb_crc_fails b) (sb_pending b) (sb_framer_at b) (sb_chain_at b) (sb_clock b) (sb_security b)
    (sb_d b).
Definition set_sb_rate (x : BaudRate) (b : ServoBus) : ServoBus :=
  mkBus (sb_framer b) (sb_chain b) (sb_tx b) (sb_crc b) (sb_env b) (sb_id b) x (sb_tpb b)
    (sb_response_deadline_us b) (sb_pending_id b) (sb_pending_baud b) (sb_pending_reboot b)
    (sb_crc_fails b) (sb_pending b) (sb_framer_at b) (sb_chain_at b) (sb_clock b) (sb_security b)
    (sb_d b).
Definition set_sb_tpb (x : Z) (b : ServoBus) : ServoBus :=
  mkBus (sb_framer b) (sb_chain b) (sb_tx b) (sb_crc b) (sb_env b) (sb_id b) (sb_rate b) x
    (sb_response_deadline_us b) (sb_pending_id b) (sb_pending_baud b) (sb_pending_reboot b)
    (sb_crc_fails b) (sb_pending b) (sb_framer_at b) (sb_chain_at b) (sb_clock b) (sb_security b)
    (sb_d b).
Definition set_sb_response_deadline_us (x : Z) (b : ServoBus) : ServoBus :=
  mkBus (sb_framer b) (sb_chain b) (sb_tx b) (sb_crc b) (sb_env b) (sb_id b) (sb_rate b) (sb_tpb
    b) x (sb_pending_id b) (sb_pending_baud b) (sb_pending_reboot b) (sb_crc_fails b) (sb_pending
    b) (sb_framer_at b) (sb_chain_at b) (sb_clock b) (sb_security b) (sb_d b).
Definition set_sb_pending_id (x : option Z) (b : ServoBus) : ServoBus :=
  mkBus (sb_framer b) (sb_chain b) (sb_tx b) (sb_crc b) (sb_env b) (sb_id b) (sb_rate b) (sb_tpb
    b) (sb_response_deadline_us b) x (sb_pending_baud b) (sb_pending_reboot b) (sb_crc_fails b)
    (sb_pending b) (sb_framer_at b) (sb_chain_at b) (sb_clock b) (sb_security b) (sb_d b).
Definition set_sb_pending_baud (x : option BaudRate) (b : ServoBus) : ServoBus :=
  mkBus (sb_framer b) (sb_chain b) (sb_tx b) (sb_crc b) (sb_env b) (sb_id b) (sb_rate b) (sb_tpb
    b) (sb_response_deadline_us b) (sb_pending_id b) x (sb_pending_reboot b) (sb_crc_fails b)
    (sb_pending b) (sb_framer_at b) (sb_chain_at b) (sb_clock b) (sb_security b) (sb_d b).
Definition set_sb_pending_reboot (x : option Z) (b : ServoBus) : ServoBus :=
  mkBus (sb_framer b) (sb_chain b) (sb_tx b) (sb_crc b) (sb_env b) (sb_id b) (sb_rate b) (sb_tpb
    b) (sb_response_deadline_us b) (sb_pending_id b) (sb_pending_baud b) x (sb_crc_fails b)
    (sb_pending b) (sb_framer_at b) (sb_chain_at b) (sb_clock b) (sb_security b) (sb_d b).
Definition set_sb_crc_fails (x : Z) (b : ServoBus) : ServoBus :=
  mkBus (sb_framer b) (sb_chain b) (sb_tx b) (sb_crc b) (sb_env b) (sb_id b) (sb_rate b) (sb_tpb
    b) (sb_response_deadline_us b) (sb_pending_id b) (sb_pending_baud b) (sb_pending_reboot b) x
    (sb_pending b) (sb_framer_at b) (sb_chain_at b) (sb_clock b) (sb_security b) (sb_d b).
Definition set_sb_pending (x : option Pending) (b : ServoBus) : ServoBus :=
  mkBus (sb_framer b) (sb_chain b) (sb_tx b) (sb_crc b) (sb_env b) (sb_id b) (sb_rate b) (sb_tpb
    b) (sb_response_deadline_us b) (sb_pending_id b) (sb_pending_baud b) (sb_pending_reboot b)
    (sb_crc_fails b) x (sb_framer_at b) (sb_chain_at b) (sb_clock b) (sb_security b) (sb_d b).
Definition set_sb_framer_at (x : option Z) (b : ServoBus) : ServoBus :=
  mkBus (sb_framer b) (sb_chain b) (sb_tx b) (sb_crc b) (sb_env b) (sb_id b) (sb_rate b) (sb_tpb
    b) (sb_response_deadline_us b) (sb_pending_id b) (sb_pending_baud b) (sb_pending_reboot b)
    (sb_crc_fails b) (sb_pending b) x (sb_chain_at b) (sb_clock b) (sb_security b) (sb_d b).
Definition set_sb_chain_at (x : option Z) (b : ServoBus) : ServoBus :=
  mkBus (sb_framer b) (sb_chain b) (sb_tx b) (sb_crc b) (sb_env b) (sb_id b) (sb_rate b) (sb_tpb
    b) (sb_response_deadline_us b) (sb_pending_id b) (sb_pending_baud b) (sb_pending_reboot b)
    (sb_crc_fails b) (sb_pending b) (sb_framer_at b) x (sb_clock b) (sb_security b) (sb_d b).
Definition set_sb_clock (x : ClockTracker) (b : ServoBus) : ServoBus :=
  mkBus (sb_framer b) (sb_chain b) (sb_tx b) (sb_crc b) (sb_env b) (sb_id b) (sb_rate b) (sb_tpb
    b) (sb_response_deadline_us b) (sb_pending_id b) (sb_pending_baud b) (sb_pending_reboot b)
    (sb_crc_fails b) (sb_pending b) (sb_framer_at b) (sb_chain_at b) x (sb_security b) (sb_d b).
Definition set_sb_security (x : SecurityContext) (b : ServoBus) : ServoBus :=
  mkBus (sb_framer b) (sb_chain b) (sb_tx b) (sb_crc b) (sb_env b) (sb_id b) (sb_rate b) (sb_tpb
    b) (sb_response_deadline_us b) (sb_pending_id b) (sb_pending_baud b) (sb_pending_reboot b)
    (sb_crc_fails b) (sb_pending b) (sb_framer_at b) (sb_chain_at b) (sb_clock b) x (sb_d b).
Definition set_sb_d (x : Servo St) (b : ServoBus) : ServoBus :=
  mkBus (sb_framer b) (sb_chain b) (sb_tx b) (sb_crc b) (sb_env b) (sb_id b) (sb_rate b) (sb_tpb
    b) (sb_response_deadline_us b) (sb_pending_id b) (sb_pending_baud b) (sb_pending_reboot b)
    (sb_crc_fails b) (sb_pending b) (sb_framer_at b) (sb_chain_at b) (sb_clock b) (sb_security b)
    x.

(** ** The monad *)

Definition B (A : Type) : Type := TM ServoBus BusEv A.
Local Open Scope trace_scope.

(** ** Provider calls *)

Definition now_ : B Z := fun b => let '(t, e) := dl_now (sb_env b) in Some (t, set_sb_env e b, []).
Definition cursor_ : B Z := fun b => let '(c, e) := rx_cursor (sb_env b) in Some (c, set_sb_env e b, []).
Definition ring_ : B (list Z) := bget (fun b => rx_bytes (sb_env b)).

Definition tx_trigger (over : option ResultCode) : B unit := fun b =>
  '(t, c, ev) ← TxEngine_trigger (sb_tx b) (sb_crc b) over;
  Some (tt, set_sb_crc c (set_sb_tx t b), map BeTx ev).
Definition tx_abort : B unit := fun b =>
  let '(t, ev) := TxEngine_abort (sb_tx b) in Some (tt, set_sb_tx t b, map BeTx ev).
Definition upd_clock (f : ClockTracker -> ClockTracker) : B unit :=
  bmod (fun b => set_sb_clock (f (sb_clock b)) b).
Definition upd_security (f : SecurityContext -> SecurityContext) : B unit :=
  bmod (fun b => set_sb_security (f (sb_security b)) b).
Definition upd_framer (f : Framer -> Framer) : B unit :=
  bmod (fun b => set_sb_framer (f (sb_framer b)) b).
(** Run a chain event and keep its output. *)
Definition on_chain (f : Chain -> ChainOut * Chain) : B ChainOut := fun b =>
  let '(o, c) := f (sb_chain b) in Some (o, set_sb_chain c b, []).
Definition chain_reset : B unit := bmod (fun b => set_sb_chain (Chain_reset (sb_chain b)) b).

(** ** Timing *)

Definition tpb_for (rate : BaudRate) : Z := TICKS_PER_US * BYTE_TIME_NUMERATOR / BaudRate_as_hz rate.
Definition ServoBus_reply_gap : Z := u32 (REPLY_GAP_US * TICKS_PER_US).
Definition ServoBus_reclaim (b : ServoBus) : Z := u32 (sb_response_deadline_us b * TICKS_PER_US).
Definition ServoBus_frame_allowance (b : ServoBus) : Z :=
  u32 ((FRAME_MAX + FRAME_ALLOWANCE_SLACK_BYTES) * sb_tpb b).

(** Ticks until a slot, zero when it is already reached. *)
Definition remaining (now at_ : Z) : Z := if tick_reached now at_ then 0 else u32 (at_ - now).

Definition soonest (now : Z) (slots : list (option Z)) : option Z :=
  fold_left (fun best slot =>
    match slot with
    | None => best
    | Some a => match best with
                | Some s => if remaining now s <=? remaining now a then best else Some a
                | None => Some a
                end
    end) slots None.

Definition ServoBus_arm_deadline : B unit :=
  do now <- now_;
  do slots <- bget (fun b => [sb_framer_at b; sb_chain_at b]);
  match soonest now slots with
  | Some a => bout (BeSet a)
  | None => bout BeCancel
  end.

(** ** RX CRC (servo_bus/crc.rs) *)

Definition crc_feed_spans (ring : list Z) (anchor footprint : Z) : option (list (list Z)) :=
  let len := Z.of_nat (length ring) in
  let start := anchor + Z.land anchor 1 in
  let end_ := anchor + footprint - 2 in
  let bulk_end := end_ - Z.land (end_ - start) 1 in
  if bulk_end <=? len then
    s ← get_range ring (Z.to_nat start) (Z.to_nat bulk_end); Some [s]
  else
    s ← get_range ring (Z.to_nat start) (length ring);
    t ← get_range ring 0 (Z.to_nat (bulk_end - len)); Some [s; t].

Definition ServoBus_crc_feed (anchor footprint : Z) : B unit :=
  do ring <- ring_;
  do spans <- blift (crc_feed_spans ring anchor footprint);
  bmod (fun b => set_sb_crc (fold_left ce_feed spans (ce_reset (sb_crc b))) b).

Definition crc_tail (ring : list Z) (anchor footprint : Z) : option (option Z) :=
  let start := anchor + Z.land anchor 1 in
  let end_ := anchor + footprint - 2 in
  if Z.land (end_ - start) 1 =? 1 then
    x ← zget ring ((end_ - 1) mod Z.of_nat (length ring)); Some (Some x)
  else Some None.

Definition ServoBus_crc_verify (anchor footprint : Z) : B bool :=
  do ring <- ring_;
  let len := Z.of_nat (length ring) in
  let covered := footprint - 2 in
  let end_ := anchor + covered in
  do lo <- blift (zget ring (end_ mod len));
  do hi <- blift (zget ring ((end_ + 1) mod len));
  do tail <- blift (crc_tail ring anchor footprint);
  do r <- (fun b => let '(v, c) := crc_poll (Z.to_nat (u32 (SPIN_PER_BYTE * covered))) (sb_crc b) in
                    Some (v, set_sb_crc c b, []));
  match r with
  | Some v =>
      let v := match tail with Some x => osc_crc_continue v [x] | None => v end in
      bret (v =? from_le16 lo hi)
  | None => bret false
  end.

Definition ServoBus_crc_ok (anchor footprint : Z) : B bool :=
  do ring <- ring_;
  if Nat.eqb (length ring) 0 || (footprint <? 2) then bret false
  else ServoBus_crc_feed anchor footprint ;; ServoBus_crc_verify anchor footprint.

Definition ServoBus_ring_inst (anchor : Z) : B Inst :=
  do ring <- ring_; blift (zget ring ((anchor + 3) mod Z.of_nat (length ring))).

(** ** The message plane (servo_bus/security.rs) *)

Definition covered_span (anchor footprint ring_len : Z) : Z * Z :=
  ((anchor + 1) mod ring_len, saturating_sub footprint 3).

Definition ServoBus_security_fold (anchor footprint : Z) : B unit :=
  do inst <- ServoBus_ring_inst anchor;
  if negb (Policy_folds_into_stream inst) then bret tt
  else
    do ring <- ring_;
    let len := Z.of_nat (length ring) in
    if len =? 0 then bret tt
    else
      let '(start, covered) := covered_span anchor footprint len in
      let end_ := start + covered in
      do segs <- blift
        (if end_ <=? len then s ← get_range ring (Z.to_nat start) (Z.to_nat end_); Some (s, [])
         else s ← get_range ring (Z.to_nat start) (length ring);
              t ← get_range ring 0 (Z.to_nat (end_ - len)); Some (s, t));
      upd_security (fun c => SecurityContext_fold c inst segs.1 segs.2).

Definition ServoBus_auth_verify (anchor footprint : Z) : B bool :=
  do inst <- ServoBus_ring_inst anchor;
  do ring <- ring_;
  let len := Z.of_nat (length ring) in
  if len =? 0 then bret false
  else
    let '(start, covered) := covered_span anchor footprint len in
    do first <- blift (zget ring start);
    let broadcast := first =? Id_BROADCAST in
    if AUTH_SPAN_MAX <? covered then
      bget (fun b => negb (Policy_requires_tag (sc_policy (sb_security b)) inst) &&
                     negb (Inst_authenticated inst))
    else
      do buf <- blift (mapM (fun i : nat => zget ring ((start + Z.of_nat i) mod len)) (seq 0 (Z.to_nat covered)));
      do verdict <- (fun b => let '(v, c) := SecurityContext_verify (sb_security b) inst broadcast buf in
                              Some (v, set_sb_security c b, []));
      (if bool_decide (Inst_opcode inst = Some OpCommit) then upd_security SecurityContext_close_cycle
       else bret tt) ;;
      bret (AuthVerdict_is_pass verdict).

(** ** The reply surface (servo_bus/reply.rs)

    The dispatcher ignores what its reply calls return, so its calls are
    replayed in order after it ran; the [bool] is the handle's [staged]. *)

Definition stage_reply (tolerant : bool) (key : Z) (res : ResultCode) (alert : bool)
    (spans : list (list Z)) (staged : bool) : B bool := fun b =>
  '(r, t, c) ← TxEngine_stage_gather (sb_tx b) (sb_crc b) (sb_id b) res alert spans;
  let b := set_sb_crc c (set_sb_tx t b) in
  match r with
  | Ok _ =>
      let b := if tolerant then set_sb_tx (TxEngine_mark_collision_tolerant (sb_tx b) key) b else b in
      Some (true, b, [])
  | Err _ => Some (staged, b, [])
  end.

Definition ReplyHandle_call (tolerant staged : bool) (e : ReplyEv) : B bool :=
  match e with
  | EvStatus res alert data => stage_reply tolerant (slot_key data) res alert [data] staged
  | EvStatusGather res alert spans =>
      stage_reply tolerant (fold_key (fold_left osc_crc_continue spans 0)) res alert spans staged
  | EvStageId id => bmod (set_sb_pending_id (Some id)) ;; bret staged
  | EvSetId id => bmod (set_sb_id id) ;; bret staged
  | EvStageBaud r => bmod (set_sb_pending_baud (Some r)) ;; bret staged
  | EvSetResponseDeadline us => bmod (set_sb_response_deadline_us us) ;; bret staged
  | EvStageReboot mode => bmod (set_sb_pending_reboot (Some mode)) ;; bret staged
  | EvBeginClockCal gap_us gaps => upd_clock (fun c => set_pending_cal c gap_us gaps) ;; bret staged
  end.

Fixpoint ReplyHandle_calls (tolerant staged : bool) (evs : list ReplyEv) : B bool :=
  match evs with
  | [] => bret staged
  | e :: evs' => do staged <- ReplyHandle_call tolerant staged e; ReplyHandle_calls tolerant staged evs'
  end.

(** Run the dispatcher with a handle over the bus. *)
Definition with_handle {A} (tolerant : bool) (m : M St A) : B (A * bool) :=
  do r <- (fun b => '(a, d, evs) ← m (sb_d b); Some ((a, evs), set_sb_d d b, []));
  do staged <- ReplyHandle_calls tolerant false r.2;
  bret (r.1, staged).

(** ** The spine (servo_bus/route.rs) *)

(** Each turn takes one waiting predecessor away: 257 turns are more than the
    largest slot can need. *)
Fixpoint route_chain_loop (fuel : nat) (out : ChainOut) : B unit :=
  match fuel with
  | O => blift None
  | S fuel' =>
      match out with
      | CoNone => bret tt
      | CoWait t =>
          do now <- now_;
          if negb (tick_reached now t) then bmod (set_sb_chain_at (Some t))
          else do out <- on_chain (fun c => Chain_on_deadline c now); route_chain_loop fuel' out
      | CoTrigger silent => tx_trigger (if silent then Some RcPredecessorSilent else None)
      end
  end.
Definition ServoBus_route_chain (out : ChainOut) : B unit := route_chain_loop 258 out.

Definition ServoBus_sequence_reply (slot packet_end : Z) : B unit :=
  do key <- bget (fun b => TxEngine_slot_key (sb_tx b));
  do gap <- match key with
            | Some key =>
                do now <- now_;
                let draw := Z.land (Z.lxor key (u8 now)) (ENUM_REPLY_SLOTS - 1) in
                do tpb <- bget sb_tpb;
                bret (u32 (ServoBus_reply_gap + u32 (draw * tpb)))
            | None => bret ServoBus_reply_gap
            end;
  do reclaim <- bget ServoBus_reclaim;
  do allowance <- bget ServoBus_frame_allowance;
  do out <- on_chain (fun c => Chain_on_reply_staged c slot packet_end gap reclaim allowance);
  ServoBus_route_chain out.

Definition ServoBus_drop_staged : B unit :=
  do staged <- bget (fun b => TxEngine_staged (sb_tx b));
  (if staged : bool then tx_abort else bret tt) ;;
  chain_reset ;;
  bmod (set_sb_chain_at None).

Definition ServoBus_dispatch_decoded (anchor footprint : Z) : B (option (bool * Z * Dispatched)) :=
  do ring <- ring_;
  do frame <- blift (frame_view ring anchor footprint);
  do id <- bget sb_id;
  match decode frame id with
  | DOwn req may_reply slot =>
      let tolerant := match req with ReqEnumerate _ _ => true | _ => false end in
      do r <- with_handle tolerant (Dispatcher_dispatch req may_reply);
      bret (Some (r.2, slot, r.1))
  | _ => bret None
  end.

Definition ServoBus_drift_note_verified (anchor footprint : Z) : B unit :=
  do open_ <- bget (fun b => ClockTracker_pair_open (sb_clock b));
  if negb open_ then upd_clock (fun c => ClockTracker_note_verified c footprint false)
  else
    do inst <- ServoBus_ring_inst anchor;
    do ring <- ring_;
    let len := Z.of_nat (length ring) in
    if len =? 0 then bret tt
    else
      do id <- blift (zget ring (ring_wrap (anchor + 1) len));
      let silent := match Inst_opcode inst with
                    | Some OpGwrite => true
                    | Some (OpWrite | OpCommit) => Inst_noreply inst || (id =? Id_BROADCAST)
                    | _ => false
                    end in
      upd_clock (fun c => ClockTracker_note_verified c footprint silent).

Definition ServoBus_verdict_first (anchor : Z) : B bool :=
  do inst <- ServoBus_ring_inst anchor;
  bret (match Inst_opcode inst with
        | Some (OpPing | OpRead | OpGread | OpWrite | OpGwrite) => false
        | _ => true
        end).

(** The ladder step of a rejected frame, counted unless it was a probe. *)
Definition reject_frame (anchor : Z) : B unit :=
  do probing <- bget (fun b => Framer_probing (sb_framer b));
  (if probing : bool then bret tt else bmod (fun b => set_sb_crc_fails (u32 (sb_crc_fails b + 1)) b)) ;;
  do ring <- ring_;
  upd_framer (fun f => Framer_on_frame_rejected f anchor (Z.of_nat (length ring))).

Definition run_revert : B unit := fun b =>
  '(_, d, _) ← Dispatcher_revert (sb_d b); Some (tt, set_sb_d d b, []).
Definition run_commit : B unit := with_handle false Dispatcher_commit ;; bret tt.

Definition ServoBus_verify (p : Pending) : B unit :=
  do ok <- ServoBus_crc_verify (pd_anchor p) (pd_footprint p);
  if negb ok then
    (if pd_table p then run_revert else bret tt) ;;
    ServoBus_drop_staged ;;
    reject_frame (pd_anchor p) ;;
    upd_security SecurityContext_rollback_stream
  else
    do auth <- ServoBus_auth_verify (pd_anchor p) (pd_footprint p);
    if negb auth then
      (if pd_table p then run_revert else bret tt) ;;
      ServoBus_drop_staged ;;
      upd_security SecurityContext_rollback_stream ;;
      upd_framer Framer_on_frame_verified
    else
      upd_framer Framer_on_frame_verified ;;
      ServoBus_drift_note_verified (pd_anchor p) (pd_footprint p) ;;
      (if pd_table p then run_commit else bret tt) ;;
      do staged <- bget (fun b => TxEngine_staged (sb_tx b));
      if pd_staged p && staged then ServoBus_sequence_reply (pd_slot p) (pd_packet_end p) else bret tt.

(** The verdict-first half of [route_frame]. *)
Definition route_verdict_first (span : FrameSpan) : B unit :=
  let anchor := fs_anchor span in
  let footprint := fs_footprint span in
  do ok <- ServoBus_crc_ok anchor footprint;
  if negb ok then
    reject_frame anchor ;; upd_security SecurityContext_rollback_stream
  else
    do auth <- ServoBus_auth_verify anchor footprint;
    if negb auth then
      upd_framer Framer_on_frame_verified ;; upd_security SecurityContext_rollback_stream
    else
      upd_framer Framer_on_frame_verified ;;
      ServoBus_drift_note_verified anchor footprint ;;
      chain_reset ;;
      bmod (set_sb_chain_at None) ;;
      do staged <- bget (fun b => TxEngine_staged (sb_tx b));
      (if staged : bool then tx_abort else bret tt) ;;
      do r <- ServoBus_dispatch_decoded anchor footprint;
      match r with
      | None => bret tt
      | Some (staged, slot, out) =>
          (if bool_decide (out = DispPending) then run_commit else bret tt) ;;
          do tx_staged <- bget (fun b => TxEngine_staged (sb_tx b));
          if staged && tx_staged then ServoBus_sequence_reply slot (fs_packet_end span) else bret tt
      end.

(** The spine half: feed, fold and dispatch ahead of the verdict. *)
Definition route_spine (span : FrameSpan) (complete : bool) : B unit :=
  let anchor := fs_anchor span in
  let footprint := fs_footprint span in
  ServoBus_crc_feed anchor footprint ;;
  ServoBus_security_fold anchor footprint ;;
  do r <- ServoBus_dispatch_decoded anchor footprint;
  let settle p := if complete then ServoBus_verify p else bmod (set_sb_pending (Some p)) in
  match r with
  | Some (staged, slot, out) =>
      settle (mkPend anchor footprint (fs_packet_end span) slot staged (bool_decide (out = DispPending)))
  | None =>
      if complete then settle (mkPend anchor footprint (fs_packet_end span) 0 false false) else bret tt
  end.

Definition ServoBus_route_frame (span : FrameSpan) (complete : bool) : B unit :=
  let anchor := fs_anchor span in
  do inst <- ServoBus_ring_inst anchor;
  if Inst_is_status inst then
    if complete then
      do out <- on_chain (fun c => Chain_on_status_end c (fs_packet_end span)); ServoBus_route_chain out
    else bret tt
  else
    do idle <- bget (fun b => negb (Chain_active (sb_chain b)) && negb (TxEngine_busy (sb_tx b)));
    do first <- (if idle : bool then ServoBus_verdict_first anchor else bret true);
    if negb first then route_spine span complete
    else if negb complete then bret tt
    else route_verdict_first span.

Definition ServoBus_on_frame_end (span : FrameSpan) : B unit :=
  do p <- bget sb_pending;
  bmod (set_sb_pending None) ;;
  match p with
  | Some p =>
      if (pd_anchor p =? fs_anchor span) && (pd_footprint p =? fs_footprint span) then ServoBus_verify p
      else ServoBus_drop_staged ;; ServoBus_route_frame span true
  | None => ServoBus_route_frame span true
  end.

(** The bounded resolve loop, with what is left of the frame budget. *)
Fixpoint drive_framer_loop (budget : nat) : B unit :=
  match budget with
  | O => do now <- now_; bmod (set_sb_framer_at (Some now))
  | S budget' =>
      do now <- now_;
      do ring <- ring_;
      do cursor <- cursor_;
      do out <- (fun b => '(f, o) ← Framer_resolve (sb_framer b) ring cursor now (sb_tpb b);
                          Some (o, set_sb_framer f b, []));
      match out with
      | FoNone => bmod (set_sb_framer_at None)
      | FoWait t => bmod (set_sb_framer_at (Some t))
      | FoCovered span end_due => bmod (set_sb_framer_at (Some end_due)) ;; ServoBus_route_frame span false
      | FoFrame span => ServoBus_on_frame_end span ;; drive_framer_loop budget'
      end
  end.
Definition ServoBus_drive_framer : B unit := drive_framer_loop FRAMES_PER_WAKE.

(** ** The event handlers (servo_bus.rs) *)

Definition ServoBus_new (crc : C) (env : E) (id : Z) (rate : BaudRate) (response_deadline_us : Z)
    (d : Servo St) : ServoBus * list BusEv :=
  (mkBus Framer_new Chain_new TxEngine_new crc env id rate (tpb_for rate) response_deadline_us
     None None None 0 None None None (ClockTracker_new CLOCK_TRIM_STEP_PPM)
     (SecurityContext_new Policy_OPEN) d,
   [BeBaud rate]).

Definition ServoBus_install_session (keys : SessionKeys) : B unit :=
  upd_security (fun c => SecurityContext_install c keys).
Definition ServoBus_set_policy (p : Policy) : B unit := upd_security (fun c => SecurityContext_set_policy c p).
Definition ServoBus_security_state (b : ServoBus) : SecurityState := sc_state (sb_security b).
(** [LinkDiag] and [SecurityDiag], as (crc fails, framing drops) and (auth fails, replay drops). *)
Definition ServoBus_diag (b : ServoBus) : Z * Z := (sb_crc_fails b, fr_drops (sb_framer b)).
Definition ServoBus_security_diag (b : ServoBus) : Z * Z :=
  (sc_auth_fail_count (sb_security b), sc_replay_drop_count (sb_security b)).

Definition ServoBus_newest_is_break_byte (cursor : Z) : B bool :=
  do ring <- ring_;
  let len := Z.of_nat (length ring) in
  if len =? 0 then bret false
  else do x <- blift (zget ring (ring_wrap (cursor + len - 1) len)); bret (x =? 0).

Definition ServoBus_on_break : B unit :=
  do now <- now_;
  do cal <- bget (fun b => ClockTracker_cal_active (sb_clock b));
  if cal : bool then
    do cursor <- cursor_;
    do at_ <- (fun b => let '(c, o) := ClockTracker_on_cal_break (sb_clock b) now cursor TICKS_PER_US in
                        Some (o, set_sb_clock c b, []));
    match at_ with
    | Some a => bmod (set_sb_framer_at (Some a)) ;; ServoBus_arm_deadline
    | None => bret tt
    end
  else
    do cursor <- cursor_;
    do fresh <- (fun b => let '(f, r) := Framer_on_wire_fault (sb_framer b) cursor in
                          Some (r, set_sb_framer f b, []));
    do brk <- (if fresh : bool then ServoBus_newest_is_break_byte cursor else bret false);
    (if brk : bool then
       do cursor <- cursor_;
       do ring <- ring_;
       do tpb <- bget sb_tpb;
       upd_clock (fun c => ClockTracker_on_drift_break c now cursor (Z.of_nat (length ring)) tpb)
     else bret tt) ;;
    ServoBus_drive_framer ;;
    do idle <- bget (fun b => match sb_framer_at b with None => true | Some _ => false end);
    (if negb fresh && idle then bmod (fun b => set_sb_framer_at (Some (u32 (now + sb_tpb b))) b) else bret tt) ;;
    do stale <- bget (fun b =>
      TxEngine_staged (sb_tx b) && negb (TxEngine_collision_tolerant (sb_tx b)) &&
      negb (Chain_waiting (sb_chain b)) && match sb_pending b with None => true | Some _ => false end);
    (if stale : bool then
       do cursor <- cursor_;
       do up <- bget (fun b => Framer_caught_up (sb_framer b) cursor);
       if negb up then tx_abort ;; chain_reset ;; bmod (set_sb_chain_at None) else bret tt
     else bret tt) ;;
    do out <- on_chain (fun c => Chain_on_break_observed c now);
    ServoBus_route_chain out ;;
    ServoBus_arm_deadline.

Fixpoint on_deadline_loop (budget : nat) : B unit :=
  match budget with
  | O => bret tt
  | S budget' =>
      do now <- now_;
      do f <- bget (fun b => due now (sb_framer_at b));
      (if f : bool then
         bmod (set_sb_framer_at None) ;; upd_clock ClockTracker_abandon_cal ;; ServoBus_drive_framer
       else bret tt) ;;
      do c <- bget (fun b => due now (sb_chain_at b));
      (if c : bool then
         bmod (set_sb_chain_at None) ;;
         do out <- on_chain (fun c => Chain_on_deadline c now);
         ServoBus_route_chain out
       else bret tt) ;;
      if f || c then on_deadline_loop budget' else bret tt
  end.
Definition ServoBus_on_deadline : B unit := on_deadline_loop DEADLINE_DRAIN_MAX ;; ServoBus_arm_deadline.

Definition set_rate (r : BaudRate) : B unit :=
  bout (BeBaud r) ;;
  bmod (fun b => set_sb_tpb (tpb_for r) (set_sb_rate r b)) ;;
  upd_clock ClockTracker_restart.

Definition ServoBus_on_tx_complete : B unit :=
  do o <- (fun b => '(o, t, c, ev) ← TxEngine_on_arm_complete (sb_tx b) (sb_crc b);
                    Some (o, set_sb_crc c (set_sb_tx t b), map BeTx ev));
  match o with
  | TxArmed => bret tt
  | TxReleased =>
      do id <- bget sb_pending_id;
      bmod (set_sb_pending_id None) ;;
      match id with Some id => bmod (set_sb_id id) | None => bret tt end ;;
      do baud <- bget sb_pending_baud;
      bmod (set_sb_pending_baud None) ;;
      match baud with Some r => set_rate r | None => bret tt end
  end.

Definition ServoBus_take_reboot : B (option Z) :=
  do busy <- bget (fun b => TxEngine_busy (sb_tx b));
  if busy : bool then bret None
  else do r <- bget sb_pending_reboot; bmod (set_sb_pending_reboot None) ;; bret r.

Definition ServoBus_poll_clock_trim : B (option Z) := fun b =>
  let '(c, o) := ClockTracker_poll (sb_clock b) in Some (o, set_sb_clock c b, []).

Definition ServoBus_on_rescue_break : B unit :=
  do streaming <- bget (fun b => TxEngine_streaming (sb_tx b));
  if streaming : bool then bret tt
  else
    set_rate B500000 ;;
    do cursor <- cursor_;
    upd_framer (fun f => Framer_resync f cursor) ;;
    chain_reset ;;
    tx_abort ;;
    bmod (set_sb_pending None) ;;
    bmod (set_sb_framer_at None) ;;
    bmod (set_sb_chain_at None) ;;
    ServoBus_arm_deadline.

End bus.

Arguments mkBus {C E St}.
Arguments B : clear implicits.
