(* ===== verification/Spine.v ===== *)
(** * The spine's guarantees (firmware/lib/drivers/src/bus/servo_bus/route.rs, crc.rs, security.rs)

    Theorems about [ServoBus]: what the receive CRC check decides, that a
    frame's effects sit behind both the CRC and the message-plane verdict
    whichever path it takes, that dispatching ahead of the verdict changes
    nothing, and that reply routing always ends. *)

From S2P Require Import Prelude Trace Crc FrameBytes Wire Frame Group Security Stage Table Regions Persist Dispatch Chain.
From S2P Require Import Ring Trim Clock Framer Decode Tx ServoBus.

(** ** The frame a span names *)

(** A resolved span: inside the ring, led by its break byte, as long as its
    LEN byte says. *)
Record span_ok (ring : list Z) (a fp : Z) : Prop := {
  so_len : ring_len_ok (Z.of_nat (length ring));
  so_bytes : bytes_ok ring;
  so_anchor : 0 <= a < Z.of_nat (length ring);
  so_fit : 6 <= fp <= 258 /\ fp <= Z.of_nat (length ring);
  so_break : ring_at ring a 0 = 0;
  so_size : fp = 3 + ring_at ring a 2;
}.

(** The covered bytes (ID to the end of the payload) and the two CRC bytes. *)
Definition covered (ring : list Z) (a fp : Z) : list Z :=
  ring_bytes ring ((a + 1) mod Z.of_nat (length ring)) (Z.to_nat (fp - 3)).
Definition wire_crc (ring : list Z) (a fp : Z) : Z :=
  from_le16 (ring_at ring a (fp - 2)) (ring_at ring a (fp - 1)).
Definition rx_sealed (ring : list Z) (a fp : Z) : bool := osc_crc (covered ring a fp) =? wire_crc ring a fp.

Lemma land_1 x : Z.land x 1 = x mod 2.
Proof. by apply (Z.land_ones x 1). Qed.

Section span.
Context (ring : list Z) (a fp : Z) (Hok : span_ok ring a fp).
#[local] Abbreviation len := (Z.of_nat (length ring)).
#[local] Set Default Proof Using "All".

Lemma ring_len_even : Nat.even (length ring) = true.
Proof.
  destruct Hok as [(k & Hk & El) _ _ _ _ _]. apply Nat.even_spec. exists (Z.to_nat (2 ^ (k - 1))).
  assert (2 ^ k = 2 * 2 ^ (k - 1)) as Ek by (rewrite <- Z.pow_succ_r by lia; f_equal; lia).
  pose proof (Z.pow_pos_nonneg 2 (k - 1)). lia.
Qed.

(** The break byte is a no-op of the checksum, fed or not. *)
Lemma whole_crc (o := Z.land a 1) :
  osc_crc (ring_bytes ring (a + o) (Z.to_nat (fp - 2 - o))) = osc_crc (covered ring a fp).
Proof.
  destruct Hok as [_ _ Ha [Hf _] Hb _]. unfold covered. rewrite ring_bytes_mod.
  assert (o = 0 \/ o = 1) as [->| ->].
  { subst o. rewrite land_1. pose proof (Z.mod_pos_bound a 2 ltac:(lia)). lia. }
  - rewrite Z.add_0_r. replace (Z.to_nat (fp - 2 - 0)) with (S (Z.to_nat (fp - 3))) by lia.
    by rewrite ring_bytes_S, Hb, osc_crc_leading_zero.
  - do 2 f_equal. lia.
Qed.

(** What the engine is fed, and the byte left for the fold. *)
Lemma crc_feed_spans_run :
  exists spans tail,
    crc_feed_spans ring a fp = Some spans /\ crc_tail ring a fp = Some tail /\
    Forall (fun s => Nat.even (length s) = true) spans /\
    osc_crc (concat spans ++ match tail with Some x => [x] | None => [] end) = osc_crc (covered ring a fp).
Proof.
  pose proof ring_len_even as Hev. pose proof whole_crc as Hw.
  destruct Hok as [Hl _ Ha [Hf Hfl] _ _]. pose proof (ring_len_pos _ Hl). unfold crc_feed_spans, crc_tail. cbv zeta in *.
  set (o := Z.land a 1) in *.
  assert (o = a mod 2) as Eo by apply land_1.
  assert (0 <= o <= 1) by (pose proof (Z.mod_pos_bound a 2 ltac:(lia)); lia).
  replace (a + fp - 2 - (a + o)) with (fp - 2 - o) by lia.
  set (r := Z.land (fp - 2 - o) 1) in *.
  assert (r = (fp - 2 - o) mod 2) as Er by apply land_1.
  clearbody o r. assert (0 <= r <= 1) by (pose proof (Z.mod_pos_bound (fp - 2 - o) 2 ltac:(lia)); lia).
  replace (a + fp - 2 - r) with ((a + o) + (fp - 2 - o - r)) by lia.
  set (n := fp - 2 - o - r) in *. assert (n = fp - 2 - o - r) as En by reflexivity. clearbody n.
  assert (a + o <= len) by (destruct (Z.eq_dec o 0); lia).
  assert (exists h, (a + o = 2 * h /\ 0 <= h)) as (h & Eh & Hh) by (exists ((a + o) / 2); zmod).
  assert (exists q, (n = 2 * q /\ 0 <= q)) as (q & Eq & Hq) by (exists (n / 2); subst n r; zmod).
  apply Nat.even_spec in Hev as [p Ep].
  assert (exists tail, (if r =? 1 then x ← zget ring ((a + fp - 2 - 1) mod len); Some (Some x) else Some None) = Some tail /\
    osc_crc (ring_bytes ring (a + o) (Z.to_nat n) ++ match tail with Some x => [x] | None => [] end) =
    osc_crc (covered ring a fp)) as (tail & Et & Ec).
  { rewrite <- Hw. destruct (Z.eqb_spec r 1) as [E1|E1].
    - replace (a + fp - 2 - 1) with (a + (fp - 3)) by lia. rewrite <- (ring_wrap_mod _ _ Hl).
      rewrite (zget_ring_wrap ring Hl a (fp - 3)) by lia. eexists. split; [done|].
      replace (Z.to_nat (fp - 2 - o)) with (S (Z.to_nat n)) by lia. rewrite ring_bytes_snoc.
      assert (ring_at ring a (fp - 3) = ring_at ring (a + o) (Z.of_nat (Z.to_nat n))) as ->; [|done].
      unfold ring_at. do 4 f_equal. lia.
    - eexists. split; [done|]. rewrite app_nil_r. do 2 f_equal. lia. }
  pose proof (ring_pieces ring (a + o) n Hl ltac:(lia) ltac:(lia)) as Hp.
  destruct (Z.leb_spec (a + o + n) len).
  - rewrite Hp. exists [ring_bytes ring (a + o) (Z.to_nat n)], tail. split; [done|]. split; [exact Et|].
    split; [|cbn [concat]; by rewrite app_nil_r].
    repeat constructor. rewrite length_ring_bytes. apply Nat.even_spec. exists (Z.to_nat q). lia.
  - destruct Hp as (x & y & -> & Ey & Lx & Exy). cbn [mbind option_bind]. rewrite Ey.
    exists [x; y], tail. split; [done|]. split; [exact Et|]. split; [|cbn [concat]; by rewrite app_nil_r, Exy].
    assert (length y = Z.to_nat (a + o + n - len)) as Ly by (apply get_range_length in Ey; lia).
    repeat constructor; apply Nat.even_spec.
    + exists (p - Z.to_nat h)%nat. lia.
    + exists (Z.to_nat (h + q) - p)%nat. lia.
Qed.
End span.

(** ** Verdicts as functions of the ring *)

(** The message-plane verdict on a frame whose CRC passed. *)
Definition auth_ok (ring : list Z) (a fp : Z) (c : SecurityContext) : bool :=
  let inst := ring_at ring a 3 in
  if AUTH_SPAN_MAX <? fp - 3 then negb (Policy_requires_tag (sc_policy c) inst) && negb (Inst_authenticated inst)
  else AuthVerdict_is_pass (SecurityContext_verify c inst (ring_at ring a 1 =? Id_BROADCAST) (covered ring a fp)).1.

(** What a context keeps through folds, rollbacks and refused frames. *)
Definition same_session (c c' : SecurityContext) : Prop :=
  sc_keys c' = sc_keys c /\ sc_replay c' = sc_replay c /\ sc_policy c' = sc_policy c.

#[export] Instance same_session_trans : Transitive same_session.
Proof. intros c1 c2 c3 (? & ? & ?) (? & ? & ?). split; [|split]; congruence. Qed.

Lemma same_session_fold c inst s t : same_session c (SecurityContext_fold c inst s t).
Proof. unfold SecurityContext_fold. by case_goal. Qed.
Lemma same_session_rollback c : same_session c (SecurityContext_rollback_stream c).
Proof. unfold SecurityContext_rollback_stream. by case_goal. Qed.
Lemma same_session_close c : same_session c (SecurityContext_close_cycle c).
Proof. unfold SecurityContext_close_cycle. by case_goal. Qed.
Lemma same_session_refused c inst bc cov :
  AuthVerdict_is_pass (SecurityContext_verify c inst bc cov).1 = false ->
  same_session c (SecurityContext_verify c inst bc cov).2.
Proof.
  unfold SecurityContext_verify. destruct (SecurityContext_evaluate _ _ _ _) as [v c0] eqn:E. cbn [fst snd].
  intros Hv. apply evaluate_reject in E as ->; [|by intros ->].
  destruct (record_fields c v) as (? & _ & ? & ?). done.
Qed.
#[export] Hint Resolve same_session_fold same_session_rollback same_session_close same_session_refused : osc.

(** Only a COMMIT's verdict reads the stream digest. *)
Lemma auth_ok_fold ring a fp c inst s t :
  Inst_opcode (ring_at ring a 3) <> Some OpCommit ->
  auth_ok ring a fp (SecurityContext_fold c inst s t) = auth_ok ring a fp c.
Proof.
  intros Ho. unfold SecurityContext_fold. destruct (_ || _); [done|].
  unfold auth_ok, SecurityContext_verify, SecurityContext_evaluate, expected_tag, SecurityContext_frame_tag.
  cbn [set_stream sc_policy sc_state sc_keys sc_replay].
  destruct (Inst_opcode (ring_at ring a 3)) as [[]|] eqn:Eo; try done; clear Ho; repeat case_goal; done.
Qed.

(** ** Rings that agree on a frame's covered bytes *)

Definition same_covered (ring ring2 : list Z) (a fp : Z) : Prop :=
  length ring2 = length ring /\ forall i, 0 <= i < fp - 2 -> ring_at ring2 a i = ring_at ring a i.

Section agree.
Context (ring ring2 : list Z) (a fp : Z).
Context (Hok : span_ok ring a fp) (Hok2 : span_ok ring2 a fp) (Hsame : same_covered ring ring2 a fp).
#[local] Set Default Proof Using "All".

Lemma covered_agree : covered ring2 a fp = covered ring a fp.
Proof.
  destruct Hsame as [Hl Hi]. unfold covered. rewrite !ring_bytes_mod. apply list_fmap_ext. intros j i Hj.
  apply lookup_seq in Hj as [-> Hj]. cbn [Nat.add].
  specialize (Hi (1 + Z.of_nat j) ltac:(lia)). unfold ring_at in *. rewrite !Z.add_assoc in Hi. exact Hi.
Qed.

Lemma crc_tail_agree : crc_tail ring2 a fp = crc_tail ring a fp.
Proof.
  destruct Hsame as [Hl Hi]. unfold crc_tail. cbv zeta. destruct (_ =? 1); [|done].
  pose proof Hok as [Hlen _ Ha [Hf Hfl] _ _]. pose proof Hok2 as [Hlen2 _ _ _ _ _].
  replace (a + fp - 2 - 1) with (a + (fp - 3)) by lia.
  rewrite <- (ring_wrap_mod _ _ Hlen), <- (ring_wrap_mod _ _ Hlen2).
  rewrite (zget_ring_wrap ring Hlen), (zget_ring_wrap ring2 Hlen2) by (rewrite ?Hl; lia). by rewrite Hi by lia.
Qed.

Lemma auth_ok_agree c : auth_ok ring2 a fp c = auth_ok ring a fp c.
Proof.
  unfold auth_ok. rewrite covered_agree. destruct Hsame as [_ Hi]. pose proof Hok as [_ _ _ [Hf _] _ _].
  by rewrite !Hi by lia.
Qed.

Lemma frame_view_agree :
  exists f f2, frame_view ring a fp = Some f /\ frame_view ring2 a fp = Some f2 /\
    forall id, decode f2 id = decode f id.
Proof.
  destruct Hsame as [Hl Hi]. pose proof Hok as [Hlen _ Ha [Hf Hfl] _ Hsz]. pose proof Hok2 as [Hlen2 Hb2 _ _ _ _].
  destruct (frame_view_bytes ring a fp Ha) as (f & Ef & Eb); [lia|].
  destruct (frame_view_bytes ring2 a fp) as (f2 & Ef2 & Eb2); [lia|lia|].
  exists f, f2. split; [done|]. split; [done|]. intros id. symmetry.
  assert (length (fb_head f) = length (fb_head f2) /\ length (fb_tail f) = length (fb_tail f2)) as [Hh Ht].
  { unfold frame_view in Ef, Ef2. rewrite Hl in Ef2. destruct (_ <=? _) eqn:Ec; zbool.
    - destruct (get_range ring _ _) as [x|] eqn:E1; [|done]. destruct (get_range ring2 _ _) as [y|] eqn:E2; [|done].
      apply (inj Some) in Ef as <-. apply (inj Some) in Ef2 as <-. cbn.
      apply get_range_length in E1, E2. split; [congruence|done].
    - destruct (get_range ring _ (length ring)) as [x|] eqn:E1; [|done]. destruct (get_range ring2 _ (length ring)) as [y|] eqn:E2; [|done].
      cbn [mbind option_bind] in Ef, Ef2.
      destruct (get_range ring 0 _) as [x'|] eqn:E3; [|done]. destruct (get_range ring2 0 _) as [y'|] eqn:E4; [|done].
      apply (inj Some) in Ef as <-. apply (inj Some) in Ef2 as <-. cbn.
      apply get_range_length in E1, E2, E3, E4. split; congruence. }
  apply (decode_agree f f2 id (Z.to_nat fp)); [done|done| |lia| |lia|].
  - by rewrite FrameBytes_len_spec, Eb, length_ring_bytes.
  - rewrite FrameBytes_u8_at_spec, Eb, ring_bytes_lookup by lia. f_equal. change (Z.of_nat 2) with 2. lia.
  - rewrite Eb, Eb2. replace (Z.to_nat fp) with (Z.to_nat (fp - 2) + 2)%nat by lia.
    rewrite (ring_bytes_app ring Hlen), (ring_bytes_app ring2 Hlen2).
    rewrite !take_app_length' by (rewrite length_ring_bytes; lia).
    apply list_fmap_ext. intros j i Hj. apply lookup_seq in Hj as [-> Hj]. symmetry. apply Hi. lia.
Qed.
End agree.

Lemma mapM_total {A B} (f : A -> option B) (g : A -> B) l :
  (forall x, x ∈ l -> f x = Some (g x)) -> mapM f l = Some (g <$> l).
Proof.
  induction l as [|x l IH]; intros Hf; [done|]. cbn. rewrite Hf by apply list_elem_of_here. cbn.
  rewrite IH; [done|]. intros y Hy. apply Hf. by right.
Qed.

Section spine.
Context {C E St : Type} {CI : CrcEngine C} {CL : CrcEngineLaws C} {PI : Providers E} {SI : ConfigStore St}.
#[local] Abbreviation Bus := (@ServoBus C E St).
#[local] Abbreviation BM := (B C E St).
#[local] Set Default Proof Using "All".
Implicit Type b : Bus.

Definition ring_of b : list Z := rx_bytes (sb_env b).

(** ** The receive checks *)

Section checks.
Context b (a fp : Z) (Hok : span_ok (ring_of b) a fp).
#[local] Abbreviation ring := (ring_of b).
#[local] Abbreviation len := (Z.of_nat (length (ring_of b))).
#[local] Set Default Proof Using "All".

Lemma zget_span i : 0 <= i <= len -> zget ring ((a + i) mod len) = Some (ring_at ring a i).
Proof. destruct Hok as [Hl _ Ha _ _ _]. intros Hi. rewrite <- (ring_wrap_mod _ _ Hl). by apply zget_ring_wrap. Qed.

Lemma ring_inst_run : ServoBus_ring_inst a b = Some (ring_at ring a 3, b, []).
Proof.
  pose proof (zget_span 3) as Hz. destruct Hok as [Hl _ _ [? ?] _ _]. pose proof (ring_len_pos _ Hl).
  unfold ServoBus_ring_inst, bbind, ring_, bget, blift. fold (ring_of b). by rewrite Hz by lia.
Qed.

(** The engine holds the whole covered span but the byte left for the fold. *)
Definition fed_for (c : C) : Prop :=
  exists tail, crc_tail ring a fp = Some tail /\
    osc_crc (ce_fed c ++ match tail with Some x => [x] | None => [] end) = osc_crc (covered ring a fp).

Lemma fold_feed_fed spans : forall c : C, Forall (fun s => Nat.even (length s) = true) spans ->
  ce_fed (fold_left ce_feed spans c) = ce_fed c ++ concat spans.
Proof.
  induction spans as [|s spans IH]; intros c Hs; [by rewrite app_nil_r|]. inversion_clear Hs.
  cbn [fold_left concat]. by rewrite IH, ce_feed_fed, app_assoc by done.
Qed.

Lemma crc_feed_run :
  exists c', ServoBus_crc_feed a fp b = Some (tt, set_sb_crc c' b, []) /\ fed_for c'.
Proof.
  destruct (crc_feed_spans_run ring a fp Hok) as (spans & tail & Es & Et & He & Ec).
  unfold ServoBus_crc_feed, bbind, ring_, bget, blift, bmod. fold (ring_of b). rewrite Es.
  eexists. split; [done|]. exists tail. split; [done|]. rewrite fold_feed_fed by done.
  by rewrite ce_reset_fed.
Qed.

Lemma crc_verify_run : fed_for (sb_crc b) ->
  exists ok c', ServoBus_crc_verify a fp b = Some (ok, set_sb_crc c' b, []) /\
    (ok = true -> rx_sealed ring a fp = true) /\
    (is_Some (crc_poll (Z.to_nat (u32 (SPIN_PER_BYTE * (fp - 2)))) (sb_crc b)).1 ->
       ok = rx_sealed ring a fp).
Proof.
  intros (tail & Et & Ec). pose proof (zget_span (fp - 2)) as Hlo. pose proof (zget_span (fp - 1)) as Hhi.
  destruct Hok as [Hl _ Ha [Hf Hfl] _ _].
  unfold ServoBus_crc_verify, bbind, ring_, bget, blift. fold (ring_of b).
  rewrite Hlo by lia. replace (a + (fp - 2) + 1) with (a + (fp - 1)) by lia. rewrite Hhi, Et by lia.
  pose proof (crc_poll_spec (Z.to_nat (u32 (SPIN_PER_BYTE * (fp - 2)))) (sb_crc b)) as [_ Hv].
  destruct (crc_poll _ _) as [[v|] c']; cbn [fst] in Hv |- *.
  - specialize (Hv v eq_refl). eexists _, c'. split; [reflexivity|].
    assert (match tail with Some x => osc_crc_continue v [x] | None => v end = osc_crc (covered ring a fp)) as ->.
    { rewrite <- Ec. destruct tail as [x|]; [by rewrite (fold_tail v (ce_fed (sb_crc b)))|by rewrite app_nil_r]. }
    done.
  - exists false, c'. split; [done|]. split; [done|]. by intros [? [=]].
Qed.

Lemma auth_verify_run :
  exists sec', ServoBus_auth_verify a fp b = Some (auth_ok ring a fp (sb_security b), set_sb_security sec' b, []) /\
    (auth_ok ring a fp (sb_security b) = false -> same_session (sb_security b) sec').
Proof.
  pose proof ring_inst_run as Hi. pose proof (zget_span 1) as H1.
  assert (forall i, 0 <= i <= len - 1 -> zget ring (((a + 1) mod len + i) mod len) = Some (ring_at ring ((a + 1) mod len) i)) as Hz.
  { intros i Hi'. destruct Hok as [Hl _ Ha _ _ _]. pose proof (ring_len_pos _ Hl). rewrite Zplus_mod_idemp_l.
    rewrite (ring_at_shift ring Hl). replace (a + 1 + i) with (a + (1 + i)) by lia. apply zget_span. lia. }
  destruct Hok as [Hl _ Ha [Hf Hfl] _ _]. pose proof (ring_len_pos _ Hl).
  unfold ServoBus_auth_verify, bbind at 1. rewrite Hi. cbv beta iota.
  unfold bbind, ring_, bget, blift, bret. fold (ring_of b).
  rewrite (proj2 (Z.eqb_neq len 0)) by lia. unfold covered_span.
  replace (saturating_sub fp 3) with (fp - 3) by (unfold saturating_sub; lia).
  rewrite H1 by lia. unfold auth_ok. destruct (AUTH_SPAN_MAX <? fp - 3) eqn:Es.
  - exists (sb_security b). by destruct b.
  - rewrite (mapM_total _ (fun i : nat => ring_at ring ((a + 1) mod len) (Z.of_nat i))).
    2: { intros i Hin%elem_of_seq. apply Hz. lia. }
    change (_ <$> seq 0 (Z.to_nat (fp - 3))) with (covered ring a fp).
    destruct (SecurityContext_verify _ _ _ _) as [v c] eqn:Ev. cbn [fst].
    assert (AuthVerdict_is_pass v = false -> same_session (sb_security b) c) as Hs.
    { intros Hv. pose proof (same_session_refused (sb_security b) (ring_at ring a 3)
        (ring_at ring a 1 =? Id_BROADCAST) (covered ring a fp)) as R. rewrite Ev in R. by apply R. }
    case_bool_decide; unfold upd_security, bmod; (eexists; split; [reflexivity|]); [|exact Hs].
    intros Hv. transitivity c; [by apply Hs|]. apply same_session_close.
Qed.

Lemma security_fold_run :
  exists sec', ServoBus_security_fold a fp b = Some (tt, set_sb_security sec' b, []) /\
    same_session (sb_security b) sec' /\
    (Inst_opcode (ring_at ring a 3) <> Some OpCommit -> auth_ok ring a fp sec' = auth_ok ring a fp (sb_security b)).
Proof.
  pose proof ring_inst_run as Hi. destruct Hok as [Hl _ Ha [Hf Hfl] _ _]. pose proof (ring_len_pos _ Hl).
  unfold ServoBus_security_fold, bbind at 1. rewrite Hi. cbv beta iota.
  destruct (negb _); [exists (sb_security b); by destruct b|].
  unfold bbind, ring_, bget, blift. fold (ring_of b). rewrite (proj2 (Z.eqb_neq len 0)) by lia. unfold covered_span.
  replace (saturating_sub fp 3) with (fp - 3) by (unfold saturating_sub; lia).
  pose proof (Z.mod_pos_bound (a + 1) len ltac:(lia)).
  pose proof (ring_pieces ring ((a + 1) mod len) (fp - 3) Hl ltac:(lia) ltac:(lia)) as Hp.
  destruct (_ <=? _).
  - rewrite Hp. cbn. eexists. split; [reflexivity|]. split; [apply same_session_fold|]. by apply auth_ok_fold.
  - destruct Hp as (x & y & -> & Ey & _). cbn. rewrite Ey. cbn.
    eexists. split; [reflexivity|]. split; [apply same_session_fold|]. by apply auth_ok_fold.
Qed.

End checks.

(** ** Routing a chain output *)

Definition config b : Z * option Z * option BaudRate * option Z * Z * option (Z * Z) :=
  (sb_id b, sb_pending_id b, sb_pending_baud b, sb_pending_reboot b, sb_response_deadline_us b,
   ck_pending_cal (sb_clock b)).

(** What reply sequencing never touches. *)
Definition kept b b' : Prop :=
  sb_d b' = sb_d b /\ config b' = config b /\ sb_security b' = sb_security b /\
  sb_framer b' = sb_framer b /\ sb_pending b' = sb_pending b.

Lemma kept_trans b1 b2 b3 : kept b1 b2 -> kept b2 b3 -> kept b1 b3.
Proof. intros (? & ? & ? & ? & ?) (? & ? & ? & ? & ?). repeat split; congruence. Qed.

Record reply_ok b : Prop := {
  ro_tx : tx_ok (sb_tx b);
  ro_chain : match ch_state (sb_chain b) with ChWaiting r _ => 0 <= r < 256 | _ => True end }.

(** Expired windows the chain can still consume in place. *)
Definition patience_of (c : Chain) : nat :=
  match ch_state c with ChWaiting r _ => Z.to_nat (Z.max r 1) | _ => 1 end.
Definition fuel_for b (out : ChainOut) : nat :=
  match out with CoWait _ => S (patience_of (sb_chain b)) | _ => 1 end.

Definition routed b b' : Prop := kept b b' /\ reply_ok b'.

Lemma on_deadline_patience c now (r := Chain_on_deadline c now) :
  match ch_state c with ChWaiting r _ => 0 <= r < 256 | _ => True end ->
  match ch_state r.2 with ChWaiting r _ => 0 <= r < 256 | _ => True end /\
  match r.1 with CoWait _ => (S (patience_of r.2) <= patience_of c)%nat | _ => (1 <= patience_of c)%nat end.
Proof.
  subst r. unfold Chain_on_deadline, patience_of, saturating_sub. destruct (ch_state c) as [|s|r s] eqn:Ec; intros Hr.
  - cbn [fst snd]. rewrite Ec. split; [done|lia].
  - cbn [fst snd]. split; [done|lia].
  - destruct (_ =? 0) eqn:E0; zbool; cbn [fst snd chain_set ch_state]; [split; [done|lia]|]. lia.
Qed.

Lemma route_chain_loop_runs fuel : forall b out,
  reply_ok b -> (fuel_for b out <= fuel)%nat ->
  runs (route_chain_loop fuel out) b (fun _ b' _ => routed b b').
Proof.
  induction fuel as [|fuel IH]; intros b out [Ht Hc] Hf; [destruct out; simpl in Hf; lia|].
  cbn [route_chain_loop]. destruct out as [|t|silent].
  - unfold runs. simpl. split; [by repeat split|by split].
  - apply runs_bind. unfold runs at 1, now_. destruct (dl_now (sb_env b)) as [now e].
    destruct (negb _).
    { unfold runs. simpl. split; [by repeat split|by split]. }
    apply runs_bind. unfold runs at 1, on_chain. cbn [sb_chain set_sb_env].
    pose proof (on_deadline_patience (sb_chain b) now Hc) as [Hc' Hp].
    destruct (Chain_on_deadline (sb_chain b) now) as [o c'] eqn:Eo. cbn [fst snd] in Hc', Hp.
    eapply runs_mono; [apply (IH (set_sb_chain c' (set_sb_env e b)) o); [by split|]|].
    + simpl in Hf. destruct o; cbn [fuel_for sb_chain set_sb_chain]; lia.
    + intros _ b' ev [Hk Hr]. by split.
  - unfold runs, tx_trigger.
    destruct (trigger_total (sb_tx b) (sb_crc b) (if silent then Some RcPredecessorSilent else None) Ht)
      as (t' & c' & ev & -> & Ht' & _).
    cbn. split; [by repeat split|by split].
Qed.

Lemma fuel_for_max b out : reply_ok b -> (fuel_for b out <= 258)%nat.
Proof. intros [_ Hc]. destruct out; cbn [fuel_for]; try lia. unfold patience_of. destruct (ch_state _); lia. Qed.

Lemma route_chain_runs b out : reply_ok b -> runs (ServoBus_route_chain out) b (fun _ b' _ => routed b b').
Proof.
  intros Hr. apply route_chain_loop_runs; [done|by apply fuel_for_max].
Qed.

(** More turns than the chain can take change nothing. *)
Lemma route_chain_loop_stable n : forall b out m,
  reply_ok b -> (fuel_for b out <= n)%nat -> (n <= m)%nat -> route_chain_loop m out b = route_chain_loop n out b.
Proof.
  induction n as [|n IH]; intros b out m [Ht Hc] Hf Hm; [destruct out; simpl in Hf; lia|].
  destruct m as [|m]; [lia|]. cbn [route_chain_loop]. destruct out as [|t|silent]; [done| |done].
  apply bbind_ext. intros now b1 e1 E1. unfold now_ in E1. destruct (dl_now (sb_env b)) as [now' e]. simplify_eq.
  destruct (negb _); [done|]. apply bbind_ext. intros o' b2 e2 E2. unfold on_chain in E2. cbn [sb_chain set_sb_env] in E2.
  pose proof (on_deadline_patience (sb_chain b) now Hc) as [Hc' Hp].
  destruct (Chain_on_deadline (sb_chain b) now) as [o c'] eqn:Eo. cbn [fst snd] in Hc', Hp. simplify_eq.
  rewrite (IH (set_sb_chain c' (set_sb_env e b)) o' m); [done|by split| |lia].
  simpl in Hf. destruct o'; cbn [fuel_for sb_chain set_sb_chain]; lia.
Qed.

Lemma sequence_reply_runs b slot packet_end : reply_ok b -> 0 <= slot < 256 ->
  runs (ServoBus_sequence_reply slot packet_end) b (fun _ b' _ => routed b b').
Proof.
  intros [Ht Hc] Hs. unfold ServoBus_sequence_reply. apply runs_bind. unfold runs at 1, bget. cbv beta iota.
  assert (forall gap b1, kept b b1 -> sb_tx b1 = sb_tx b ->
    runs (bbind (bget ServoBus_reclaim) (fun reclaim => bbind (bget ServoBus_frame_allowance) (fun allowance =>
      bbind (on_chain (fun c => Chain_on_reply_staged c slot packet_end gap reclaim allowance))
        (fun out => ServoBus_route_chain out)))) b1 (fun _ b' _ => routed b b')) as K.
  { intros gap b1 Hk Htx. do 2 (eapply runs_bind_quiet; [done|]).
    apply runs_bind. unfold runs at 1, on_chain, Chain_on_reply_staged.
    destruct (slot =? 0); eapply runs_mono; try (apply route_chain_runs; split; [by cbn; rewrite Htx|done]);
      intros _ b' ev [Hk' Hr]; (split; [|done]); eapply kept_trans; [exact Hk|exact Hk'|exact Hk|exact Hk']. }
  destruct (TxEngine_slot_key (sb_tx b)) as [key|].
  - apply runs_bind, runs_bind. unfold runs at 1, now_. destruct (dl_now (sb_env b)) as [now e].
    apply runs_bind. unfold runs at 1, bget. unfold runs at 1, bret. apply K; [by repeat split|done].
  - apply runs_bind. unfold runs at 1, bret. apply K; [by repeat split|done].
Qed.

(** ** The reply port *)

(** What the calls of a handle never touch. *)
Definition spared b b' : Prop :=
  sb_d b' = sb_d b /\ sb_framer b' = sb_framer b /\ sb_chain b' = sb_chain b /\ sb_env b' = sb_env b /\
  sb_security b' = sb_security b /\ sb_pending b' = sb_pending b.

(** A staging attempt: at most a reply staged from idle, the receive feed intact. *)
Record stage_only b b' : Prop := {
  st_tx : tx_ok (sb_tx b');
  st_fed : ce_fed (sb_crc b') = ce_fed (sb_crc b);
  st_spared : spared b b';
  st_state : te_state (sb_tx b') = te_state (sb_tx b) \/
    (te_state (sb_tx b) = TxIdle /\ TxEngine_staged (sb_tx b') = true) }.

Lemma stage_only_refl b : tx_ok (sb_tx b) -> stage_only b b.
Proof. intros Ht. split; [done|done|by repeat split|by left]. Qed.

Lemma spared_trans b1 b2 b3 : spared b1 b2 -> spared b2 b3 -> spared b1 b3.
Proof. intros (? & ? & ? & ? & ? & ?) (? & ? & ? & ? & ? & ?). repeat split; congruence. Qed.

Lemma stage_only_trans b1 b2 b3 : stage_only b1 b2 -> stage_only b2 b3 -> stage_only b1 b3.
Proof.
  intros [T1 F1 S1 X1] [T2 F2 S2 X2]. split; [done|congruence|by eapply spared_trans|].
  unfold TxEngine_staged in *.
  destruct X1 as [X1|[X1 Y1]], X2 as [X2|[X2 Y2]].
  - left. congruence.
  - right. split; [congruence|done].
  - right. split; [done|]. by rewrite X2.
  - right. done.
Qed.

Lemma stage_reply_runs b tol key res al spans st : tx_ok (sb_tx b) ->
  runs (stage_reply tol key res al spans st) b
    (fun _ b' ev => ev = [] /\ stage_only b b' /\ config b' = config b).
Proof.
  intros Ht. unfold runs, stage_reply.
  destruct (stage_total (sb_tx b) (sb_crc b) (sb_id b) res al spans Ht) as (r & t & c & -> & Ht' & Hfed & Hr). cbn.
  destruct r as [[]|]; [destruct Hr as [Hi Hs]|subst t].
  - destruct tol; (split; [done|]); (split; [|done]); split; cbn; try done; try (by repeat split).
    + unfold TxEngine_mark_collision_tolerant. rewrite Hs. apply tx_ok_set_state; [done|]. eauto.
    + right. split; [done|]. unfold TxEngine_mark_collision_tolerant. by rewrite Hs.
    + right. split; [done|]. unfold TxEngine_staged. by rewrite Hs.
  - split; [done|]. split; [|done]. split; cbn; [done|done|by repeat split|by left].
Qed.

Lemma call_runs b tol st e : tx_ok (sb_tx b) ->
  runs (ReplyHandle_call tol st e) b
    (fun _ b' ev => ev = [] /\ stage_only b b' /\ (is_status_ev e = true -> config b' = config b)).
Proof.
  intros Ht. destruct e; cbn [ReplyHandle_call].
  1, 2: eapply runs_mono; [by apply stage_reply_runs|]; by intros _ b' ev (-> & ? & ?).
  all: (split; [done|]); (split; [|done]); split; cbn; [done|done|by repeat split|by left].
Qed.

Lemma calls_runs tol evs : forall b st, tx_ok (sb_tx b) ->
  runs (ReplyHandle_calls tol st evs) b
    (fun _ b' ev => ev = [] /\ stage_only b b' /\
       (Forall (fun e => is_status_ev e = true) evs -> config b' = config b)).
Proof.
  induction evs as [|e evs IH]; intros b st Ht; cbn [ReplyHandle_calls].
  { split; [done|]. split; [by apply stage_only_refl|done]. }
  apply runs_bind. eapply runs_mono; [by apply call_runs|]. intros st1 b1 e1 (-> & S1 & C1).
  eapply runs_mono; [apply IH, S1|]. intros st2 b2 e2 (-> & S2 & C2).
  split; [done|]. split; [by eapply stage_only_trans|]. intros Hev. inversion_clear Hev.
  rewrite C2 by done. by apply C1.
Qed.

Lemma with_handle_runs {A} tol (m : M St A) b a d evs :
  tx_ok (sb_tx b) -> m (sb_d b) = Some (a, d, evs) ->
  runs (with_handle tol m) b
    (fun r b' ev => ev = [] /\ r.1 = a /\ stage_only (set_sb_d d b) b' /\
       (Forall (fun e => is_status_ev e = true) evs -> config b' = config b)).
Proof.
  intros Ht Em. unfold with_handle. apply runs_bind. unfold runs at 1. rewrite Em. cbv beta iota.
  apply runs_bind. eapply runs_mono; [by apply calls_runs|]. intros st b1 e1 (-> & S1 & C1).
  unfold runs, bret. cbn. done.
Qed.

(** ** The verdict *)

Definition quiet_wire (ev : list BusEv) : Prop := Forall (fun e => e <> BeTx TwStart) ev.

(** The engine answers inside one byte's spin budget. *)
Definition engine_answers : Prop := forall c : C, is_Some (crc_poll (Z.to_nat SPIN_PER_BYTE) c).1.

Lemma crc_poll_mono n m : forall c : C, (n <= m)%nat -> is_Some (crc_poll n c).1 -> is_Some (crc_poll m c).1.
Proof.
  revert m. induction n as [|n IH]; intros m c Hnm Hs.
  - cbn in Hs. destruct m; cbn; destruct (ce_result c) as [[v|] c']; try done. by destruct Hs.
  - destruct m as [|m]; [lia|]. cbn in *. destruct (ce_result c) as [[v|] c']; [done|].
    apply IH; [lia|done].
Qed.

(** What a verdict may leave behind: with both gates passed the frame's effect
    on the dispatcher, otherwise nothing but a dropped reply. *)
Record gated (sealed auth : bool) (d0 d1 : Servo St) (b0 b' : Bus) (ev : list BusEv) (pass : bool) : Prop := {
  ga_sound : pass = true -> sealed = true /\ auth = true;
  ga_complete : engine_answers -> pass = sealed && auth;
  ga_effect : sb_d b' = if pass then d1 else d0;
  ga_blocked : pass = false ->
    config b' = config b0 /\ same_session (sb_security b0) (sb_security b') /\ quiet_wire ev;
  ga_reply : reply_ok b' }.

Lemma gated_settles sealed auth (d0 d1 : Servo St) b0 b' ev pass :
  gated sealed auth d0 d1 b0 b' ev pass -> engine_answers -> sb_d b' = if sealed && auth then d1 else d0.
Proof. intros [_ Hc Hd _ _] Ha. by rewrite <- (Hc Ha). Qed.

Lemma drop_staged_runs b : tx_ok (sb_tx b) ->
  runs ServoBus_drop_staged b (fun _ b' ev => quiet_wire ev /\ reply_ok b' /\ sb_d b' = sb_d b /\
    config b' = config b /\ sb_security b' = sb_security b /\ sb_framer b' = sb_framer b /\ sb_env b' = sb_env b).
Proof.
  intros Ht. unfold ServoBus_drop_staged. apply runs_bind. unfold runs at 1, bget. cbv beta iota.
  destruct (TxEngine_staged (sb_tx b)) eqn:Es.
  - unfold TxEngine_staged in Es. apply runs_bind. unfold runs at 1, tx_abort, TxEngine_abort, TxEngine_busy.
    destruct (te_state (sb_tx b)); try done. cbn. split; [by repeat constructor|].
    split; [split; [|done]|by repeat split]. by apply tx_ok_set_state.
  - cbn. split; [constructor|]. by split; [split|repeat split].
Qed.

Lemma reject_frame_runs b anchor :
  runs (reject_frame anchor) b (fun _ b' ev => ev = [] /\ sb_d b' = sb_d b /\ config b' = config b /\
    sb_security b' = sb_security b /\ sb_tx b' = sb_tx b /\ sb_chain b' = sb_chain b).
Proof.
  unfold reject_frame. apply runs_bind. unfold runs at 1, bget. cbv beta iota.
  destruct (Framer_probing (sb_framer b)); by cbn.
Qed.

Lemma drift_note_runs b a fp : span_ok (ring_of b) a fp ->
  runs (ServoBus_drift_note_verified a fp) b (fun _ b' ev => ev = [] /\ sb_d b' = sb_d b /\ config b' = config b /\
    sb_security b' = sb_security b /\ sb_tx b' = sb_tx b /\ sb_chain b' = sb_chain b /\ sb_env b' = sb_env b /\
    sb_crc b' = sb_crc b).
Proof.
  intros Hok. unfold ServoBus_drift_note_verified. apply runs_bind. unfold runs at 1, bget. cbv beta iota.
  assert (forall b silent, ck_pending_cal (ClockTracker_note_verified (sb_clock b) fp silent) = ck_pending_cal (sb_clock b)) as Hc
    by (intros b' silent; done).
  destruct (negb _); [by cbn|].
  apply runs_bind. unfold runs at 1. rewrite (ring_inst_run b a fp Hok).
  apply runs_bind. unfold runs at 1, ring_, bget. fold (ring_of b).
  pose proof Hok as [Hl _ Ha [Hf Hfl] _ _]. pose proof (ring_len_pos _ Hl).
  rewrite (proj2 (Z.eqb_neq (Z.of_nat (length (ring_of b))) 0)) by lia.
  apply runs_bind. unfold runs at 1, blift. rewrite (zget_ring_wrap _ Hl a 1) by lia. by cbn.
Qed.

(** The pieces both verdict paths share. *)
Lemma answers_in_budget (c : C) fp : 6 <= fp <= 258 -> engine_answers ->
  is_Some (crc_poll (Z.to_nat (u32 (SPIN_PER_BYTE * (fp - 2)))) c).1.
Proof.
  intros Hf Hans. eapply crc_poll_mono; [|apply Hans].
  rewrite u32_id by (unfold SPIN_PER_BYTE; lia). apply Z2Nat.inj_le; unfold SPIN_PER_BYTE; lia.
Qed.

Lemma revert_if_runs (tbl : bool) d0 b (k : unit -> BM unit) Q :
  (if tbl then settled (sb_d b) = d0 else sb_d b = d0) ->
  runs (k tt) (set_sb_d d0 b) Q -> runs (bbind (if tbl then run_revert else bret tt) k) b Q.
Proof.
  intros Hundo HQ. eapply runs_bind_quiet; [|exact HQ]. destruct tbl.
  - unfold run_revert, Dispatcher_revert. rewrite revert_dangling_run. cbn. by rewrite Hundo.
  - unfold bret. rewrite <- Hundo. by destruct b.
Qed.

Lemma gated_pass sealed (d0 d1 : Servo St) b b' ev : sealed = true -> sb_d b' = d1 -> reply_ok b' ->
  exists pass, gated sealed true d0 d1 b b' ev pass.
Proof. intros -> Hd Hr. by exists true. Qed.

Lemma send_if_staged_runs (want : bool) slot pe b d1 Q : sb_d b = d1 -> reply_ok b -> 0 <= slot < 256 ->
  (forall b' ev, sb_d b' = d1 -> reply_ok b' -> Q tt b' ev) ->
  runs (bbind (bget (fun b => TxEngine_staged (sb_tx b))) (fun staged : bool =>
    if want && staged then ServoBus_sequence_reply slot pe else bret tt)) b Q.
Proof.
  intros Hd Hr Hs HQ. eapply runs_bind_quiet; [done|]. destruct (_ && _); [|by apply HQ].
  eapply runs_mono; [by apply sequence_reply_runs|]. intros [] b' ev [(Dk & _) Rk]. apply HQ; [congruence|done].
Qed.

Lemma commit_if_runs (tbl : bool) d1 b (k : unit -> BM unit) Q :
  (if tbl then exists evs, Dispatcher_commit (sb_d b) = Some (tt, d1, evs) else sb_d b = d1) -> reply_ok b ->
  (forall b', sb_d b' = d1 -> reply_ok b' -> runs (k tt) b' (fun x b2 _ => forall ev, Q x b2 ev)) ->
  runs (bbind (if tbl then run_commit else bret tt) k) b Q.
Proof.
  intros Hdo [Ht Hc] HQ. destruct tbl.
  - destruct Hdo as [evs Hdo]. apply runs_bind. unfold run_commit. apply runs_bind.
    eapply runs_mono; [by apply (with_handle_runs false Dispatcher_commit b tt d1 evs)|].
    intros r b4 e4 (-> & _ & [T4 F4 (D4 & _ & L4 & _) X4] & _). cbn in D4, L4. unfold runs at 1, bret. cbv beta iota.
    eapply runs_mono; [apply HQ; [done|split; [done|by rewrite L4]]|]. intros x b5 e5 H5. apply H5.
  - eapply runs_bind_quiet; [done|]. eapply runs_mono; [by apply HQ|]. intros x b5 e5 H5. apply H5.
Qed.

Lemma verify_runs b p d0 d1 (a := pd_anchor p) (fp := pd_footprint p) (ring := ring_of b) :
  span_ok ring a fp -> reply_ok b -> fed_for b a fp (sb_crc b) -> 0 <= pd_slot p < 256 ->
  (if pd_table p then settled (sb_d b) = d0 else sb_d b = d0) ->
  (if pd_table p then exists evs, Dispatcher_commit (sb_d b) = Some (tt, d1, evs) else sb_d b = d1) ->
  runs (ServoBus_verify p) b (fun _ b' ev => exists pass,
    gated (rx_sealed ring a fp) (auth_ok ring a fp (sb_security b)) d0 d1 b b' ev pass).
Proof.
  intros Hok [Ht Hch] Hfed Hslot Hundo Hdo. unfold ServoBus_verify. fold a fp.
  destruct (crc_verify_run b a fp Hok Hfed) as (ok & c' & Ev & Hs & Hc). fold ring in Hs, Hc.
  eapply runs_bind_quiet; [exact Ev|]. pose proof Hok as [_ _ _ [Hf _] _ _].
  assert (engine_answers -> ok = rx_sealed ring a fp) as Hans by (intros Hans; by apply Hc, answers_in_budget).
  destruct ok; cbn [negb].
  2: { apply revert_if_runs with d0; [exact Hundo|]. apply runs_bind. eapply runs_mono; [by apply drop_staged_runs|].
       intros _ b2 e2 (Q2 & [Ht2 Hc2] & D2 & C2 & S2 & F2 & N2). apply runs_bind.
       eapply runs_mono; [apply reject_frame_runs|]. intros _ b3 e3 (-> & D3 & C3 & S3 & T3 & L3).
       cbn. exists false. split; [done|..].
       - intros Ha. by rewrite <- (Hans Ha).
       - cbn. by rewrite D3, D2.
       - intros _. split; [transitivity (config b3); [done|by rewrite C3, C2]|]. split; [|by rewrite !app_nil_r].
         cbn. rewrite S3, S2. apply same_session_rollback.
       - split; cbn; [by rewrite T3|by rewrite L3]. }
  destruct (auth_verify_run (set_sb_crc c' b) a fp Hok) as (sec & Ea & Hsec). cbn [sb_security set_sb_crc] in Hsec.
  change (ring_of (set_sb_crc c' b)) with ring in Ea, Hsec.
  eapply runs_bind_quiet; [exact Ea|]. cbn [sb_security set_sb_crc].
  destruct (auth_ok ring a fp (sb_security b)) eqn:Eauth; cbn [negb].
  2: { apply revert_if_runs with d0; [exact Hundo|]. apply runs_bind. eapply runs_mono; [by apply drop_staged_runs|].
       intros _ b2 e2 (Q2 & [Ht2 Hc2] & D2 & C2 & S2 & F2 & N2). cbn.
       exists false. split; [done|..].
       - intros _. by rewrite andb_false_r.
       - cbn. by rewrite D2.
       - intros _. split; [exact C2|]. split; [|by rewrite app_nil_r].
         cbn. rewrite S2. cbn. transitivity sec; [by apply Hsec|apply same_session_rollback].
       - by split. }
  eapply runs_bind_quiet; [done|]. apply runs_bind. eapply runs_mono; [by apply drift_note_runs|].
  intros _ b3 e3 (-> & D3 & C3 & S3 & T3 & L3 & N3 & R3). cbn in D3, T3, L3.
  apply commit_if_runs with d1; [by rewrite D3|split; [by rewrite T3|by rewrite L3]|].
  intros b4 D4 R4. eapply send_if_staged_runs; [done..|]. intros b' _ Dd Hr ev. apply gated_pass; [by apply Hs|done..].
Qed.

(** ** Dispatching a frame in place *)

(** The frame's effect on the dispatcher, run to completion. *)
Definition frame_effect (ring : list Z) (a fp id : Z) (d : Servo St) : option (Servo St) :=
  f ← frame_view ring a fp;
  match decode f id with
  | DOwn req may _ =>
      '(out, d1, _) ← Dispatcher_dispatch req may d;
      if bool_decide (out = DispPending) then '(_, d2, _) ← Dispatcher_commit d1; Some d2 else Some d1
  | _ => Some d
  end.

(** The frame does not carry a MGMT sub-op the dispatcher has no arm for. *)
Definition served (ring : list Z) (a fp id : Z) : Prop :=
  forall f op args may slot, frame_view ring a fp = Some f -> decode f id = DOwn (ReqMgmt op args) may slot ->
    MgmtOp_needs_quiet_window op = false.

Lemma frame_view_span ring a fp : span_ok ring a fp ->
  exists f, frame_view ring a fp = Some f /\ FrameBytes_bytes f = ring_bytes ring a (Z.to_nat fp) /\
    FrameBytes_u8_at f 3 = Some (ring_at ring a 3) /\ bytes_ok (FrameBytes_bytes f).
Proof.
  intros [Hl Hb Ha [Hf Hfl] _ _]. destruct (frame_view_bytes ring a fp Ha) as (f & Ef & Eb); [lia|].
  exists f. split; [done|]. split; [done|]. rewrite FrameBytes_u8_at_spec, Eb.
  split; [by rewrite ring_bytes_lookup by lia|]. by apply ring_bytes_ok.
Qed.

Lemma dispatch_decoded_runs b a fp f req may slot out d1 evs :
  frame_view (ring_of b) a fp = Some f -> decode f (sb_id b) = DOwn req may slot ->
  tx_ok (sb_tx b) -> Dispatcher_dispatch req may (sb_d b) = Some (out, d1, evs) ->
  runs (ServoBus_dispatch_decoded a fp) b (fun r b' ev => ev = [] /\
    (exists staged, r = Some (staged, slot, out)) /\ stage_only (set_sb_d d1 b) b' /\
    (Forall (fun e => is_status_ev e = true) evs -> config b' = config b)).
Proof.
  intros Ef Ed Ht Er. unfold ServoBus_dispatch_decoded. eapply runs_bind_quiet; [done|]. fold (ring_of b).
  eapply runs_bind_quiet; [by unfold blift; rewrite Ef|]. eapply runs_bind_quiet; [done|].
  rewrite Ed. apply runs_bind. eapply runs_mono; [by eapply with_handle_runs|].
  intros r b' ev (-> & <- & Hs & Hc). unfold runs, bret. split; [done|]. split; [by eexists|done].
Qed.

Lemma dispatch_decoded_other b a fp f :
  frame_view (ring_of b) a fp = Some f -> (forall req may slot, decode f (sb_id b) <> DOwn req may slot) ->
  ServoBus_dispatch_decoded a fp b = Some (None, b, []).
Proof.
  intros Ef Ed. unfold ServoBus_dispatch_decoded, bbind, ring_, bget, blift. fold (ring_of b). rewrite Ef.
  by destruct (decode f (sb_id b)) eqn:Eq; [done|done|exfalso; eapply Ed].
Qed.

Lemma gated_rebase sealed auth d0 d1 b0 b1 b' ev pass :
  gated sealed auth d0 d1 b1 b' ev pass -> config b1 = config b0 -> same_session (sb_security b0) (sb_security b1) ->
  gated sealed auth d0 d1 b0 b' ev pass.
Proof.
  intros [G1 G2 G3 G4 G5] Hc Hs. split; try done. intros Hp. destruct (G4 Hp) as (? & ? & ?).
  split; [congruence|]. split; [by transitivity (sb_security b1)|done].
Qed.

(** *** The spine *)

Definition spine_inst (inst : Inst) : bool :=
  match Inst_opcode inst with Some (OpPing | OpRead | OpGread | OpWrite | OpGwrite) => true | _ => false end.

(** The bus after feeding, folding and dispatching: what the verdict will find. *)
Definition primed b (a fp : Z) (d1 : Servo St) (p : option Pending) b' : Prop :=
  ring_of b' = ring_of b /\ sb_chain b' = sb_chain b /\ sb_pending b' = sb_pending b /\
  fed_for b a fp (sb_crc b') /\ tx_ok (sb_tx b') /\ config b' = config b /\
  same_session (sb_security b) (sb_security b') /\
  auth_ok (ring_of b) a fp (sb_security b') = auth_ok (ring_of b) a fp (sb_security b) /\
  match p with
  | Some p => pd_anchor p = a /\ pd_footprint p = fp /\ 0 <= pd_slot p < 256 /\
      (if pd_table p then settled (sb_d b') = sb_d b else sb_d b' = sb_d b) /\
      (if pd_table p then exists evs, Dispatcher_commit (sb_d b') = Some (tt, d1, evs) else sb_d b' = d1)
  | None => sb_d b' = sb_d b /\ d1 = sb_d b
  end.

Lemma spine_prefix_runs b span (a := fs_anchor span) (fp := fs_footprint span) d1
    (k : option (bool * Z * Dispatched) -> BM unit) Q :
  span_ok (ring_of b) a fp -> tx_ok (sb_tx b) -> servo_ok (sb_d b) -> sv_pending (sb_d b) = None ->
  spine_inst (ring_at (ring_of b) a 3) = true ->
  frame_effect (ring_of b) a fp (sb_id b) (sb_d b) = Some d1 ->
  (forall r b', primed b a fp d1
     match r with
     | Some (staged, slot, out) => Some (mkPend a fp (fs_packet_end span) slot staged (bool_decide (out = DispPending)))
     | None => None
     end b' -> runs (k r) b' Q) ->
  runs (bbind (ServoBus_crc_feed a fp) (fun _ => bbind (ServoBus_security_fold a fp) (fun _ =>
    bbind (ServoBus_dispatch_decoded a fp) k))) b Q.
Proof.
  intros Hok Ht Hd Hp Hop He HQ.
  destruct (crc_feed_run b a fp Hok) as (c1 & E1 & F1). eapply runs_bind_quiet; [exact E1|].
  destruct (security_fold_run (set_sb_crc c1 b) a fp Hok) as (sec & E2 & S2 & A2).
  eapply runs_bind_quiet; [exact E2|]. clear E1 E2.
  change (ring_of (set_sb_crc c1 b)) with (ring_of b) in A2. cbn [sb_security set_sb_crc] in S2, A2.
  assert (Inst_opcode (ring_at (ring_of b) a 3) <> Some OpCommit) as Hnc
    by (unfold spine_inst in Hop; by destruct (Inst_opcode _) as [[]|]).
  specialize (A2 Hnc). set (b2 := set_sb_security sec (set_sb_crc c1 b)) in *.
  destruct (frame_view_span _ _ _ Hok) as (f & Ef & Eb & E3 & Hfb).
  unfold frame_effect in He. rewrite Ef in He. cbn [mbind option_bind] in He.
  destruct (decode f (sb_id b)) as [| |req may slot] eqn:Ed.
  1, 2: eapply runs_bind_quiet; [apply (dispatch_decoded_other b2 a fp f); [done|]; cbn; by rewrite Ed|];
    apply HQ; apply (inj Some) in He as <-; unfold primed; by split_and!.
  assert (spine_req req = true) as Hsr.
  { unfold spine_inst in Hop. destruct (Inst_opcode (ring_at (ring_of b) a 3)) as [op|] eqn:Eo; [|done].
    apply (decode_own_spine f (sb_id b) req may slot op); [done|by rewrite E3; cbn|by destruct op]. }
  destruct (dispatch_spine req may (sb_d b) Hd Hp Hsr) as (out & s1 & evs & Er & Hset & Hdone).
  pose proof (dispatch_speaks req may Hsr _ _ _ _ Er) as Hst.
  destruct (decode_own_range f (sb_id b) req may slot Hfb Ed) as [Hslot _].
  apply runs_bind. eapply runs_mono; [by eapply (dispatch_decoded_runs b2 a fp f req may slot out s1 evs)|].
  intros r b3 ev (-> & (staged & ->) & [T3 F3 (D3 & _ & L3 & N3 & S3 & P3) _] & C3).
  eapply runs_mono; [apply HQ|done]. cbn in D3, F3, S3.
  assert (ring_of b3 = ring_of b) as Hring by (unfold ring_of; by rewrite N3).
  split; [done|]. split; [done|]. split; [done|]. split; [|split; [done|split; [by apply C3|]]].
  { destruct F1 as (tail & Et & Ec). exists tail. by rewrite F3. }
  split; [by rewrite S3|]. split; [by rewrite S3|]. cbn [pd_anchor pd_footprint pd_slot pd_table].
  do 3 (split; [done|]). rewrite D3. rewrite Er in He. cbn [mbind option_bind] in He.
  case_bool_decide as Hout.
  - split; [done|]. destruct (Dispatcher_commit s1) as [[[[] d2] ev2]|]; [|done].
    cbn in He. apply (inj Some) in He as <-. by eexists.
  - assert (out = DispDone) as Eo by (by destruct out). split; [by apply Hdone|]. by apply (inj Some).
Qed.

Lemma primed_verify b b' a fp d1 p : span_ok (ring_of b) a fp -> reply_ok b -> primed b a fp d1 (Some p) b' ->
  runs (ServoBus_verify p) b' (fun _ b2 ev => exists pass,
    gated (rx_sealed (ring_of b) a fp) (auth_ok (ring_of b) a fp (sb_security b)) (sb_d b) d1 b b2 ev pass).
Proof.
  intros Hok [_ Hch] (Hr & Hc & _ & Hf & Ht & Hcfg & Hss & Ha & Epa & Epf & Hslot & Hundo & Hdo). subst a fp.
  eapply runs_mono; [apply (verify_runs b' p (sb_d b) d1)|].
  - by rewrite Hr.
  - split; [done|by rewrite Hc].
  - unfold fed_for in *. by rewrite Hr.
  - done.
  - done.
  - done.
  - rewrite Hr, Ha. intros _ b2 ev [pass G]. exists pass. by apply (gated_rebase _ _ _ _ b b').
Qed.

Lemma primed_skip b b' a fp d1 pe : primed b a fp d1 None b' -> primed b a fp d1 (Some (mkPend a fp pe 0 false false)) b'.
Proof. unfold primed. intros (? & ? & ? & ? & ? & ? & ? & ? & ? & ->). by split_and!. Qed.

(** *** Verdict first *)

Lemma crc_ok_run b a fp : span_ok (ring_of b) a fp ->
  exists ok c', ServoBus_crc_ok a fp b = Some (ok, set_sb_crc c' b, []) /\
    (ok = true -> rx_sealed (ring_of b) a fp = true) /\ (engine_answers -> ok = rx_sealed (ring_of b) a fp).
Proof.
  intros Hok. destruct (crc_feed_run b a fp Hok) as (c1 & E1 & F1).
  destruct (crc_verify_run (set_sb_crc c1 b) a fp Hok F1) as (ok & c2 & E2 & Hs & Hc).
  exists ok, c2. pose proof Hok as [Hl _ _ [Hf _] _ _]. pose proof (ring_len_pos _ Hl). split; [|split; [exact Hs|]].
  - unfold ServoBus_crc_ok, bbind at 1, ring_, bget. fold (ring_of b).
    rewrite (proj2 (Nat.eqb_neq (length (ring_of b)) 0)), (proj2 (Z.ltb_ge fp 2)) by lia. cbn [orb].
    unfold bbind. rewrite E1, E2. by destruct b.
  - intros Hans. by apply Hc, answers_in_budget.
Qed.

Lemma abort_if_staged_runs b Q :
  tx_ok (sb_tx b) ->
  (forall b' ev, spared b b' -> config b' = config b -> tx_ok (sb_tx b') -> Q tt b' ev) ->
  runs (bbind (bget (fun b => TxEngine_staged (sb_tx b))) (fun staged : bool => if staged then tx_abort else bret tt)) b Q.
Proof.
  intros Ht HQ. eapply runs_bind_quiet; [done|]. destruct (TxEngine_staged (sb_tx b)).
  - unfold runs, tx_abort, TxEngine_abort. destruct (TxEngine_busy _); apply HQ; try done; try (by split_and!).
    by apply tx_ok_set_state.
  - by apply HQ; [split_and!|..].
Qed.

(** Dispatch behind a passed verdict: commit at once, then sequence the reply. *)
Lemma dispatch_first_runs b span d1 (a := fs_anchor span) (fp := fs_footprint span) :
  tx_ok (sb_tx b) -> reply_ok b -> frame_effect (ring_of b) a fp (sb_id b) (sb_d b) = Some d1 ->
  span_ok (ring_of b) a fp ->
  runs (bbind (ServoBus_dispatch_decoded a fp) (fun r => match r with
      | None => bret tt
      | Some (staged, slot, out) =>
          bbind (if bool_decide (out = DispPending) then run_commit else bret tt) (fun _ =>
          bbind (bget (fun b => TxEngine_staged (sb_tx b))) (fun tx_staged : bool =>
          if staged && tx_staged then ServoBus_sequence_reply slot (fs_packet_end span) else bret tt))
      end)) b (fun _ b' _ => sb_d b' = d1 /\ reply_ok b').
Proof.
  intros Ht Hro He Hok. pose proof Hro as [_ Hch]. destruct (frame_view_span _ _ _ Hok) as (f & Ef & _ & _ & Hfb).
  unfold frame_effect in He. rewrite Ef in He. cbn [mbind option_bind] in He.
  destruct (decode f (sb_id b)) as [| |req may slot] eqn:Ed.
  1, 2: eapply runs_bind_quiet; [apply (dispatch_decoded_other b a fp f); [done|by rewrite Ed]|];
    by apply (inj Some) in He as <-.
  destruct (decode_own_range f (sb_id b) req may slot Hfb Ed) as [Hslot _].
  destruct (Dispatcher_dispatch req may (sb_d b)) as [[[out s1] evs]|] eqn:Er; [|done].
  cbn [mbind option_bind] in He. apply runs_bind.
  eapply runs_mono; [by eapply (dispatch_decoded_runs b a fp f req may slot out s1 evs)|].
  intros r b5 e5 (-> & (staged & ->) & [T5 F5 (D5 & _ & L5 & _) _] & _). cbn in D5, L5.
  apply commit_if_runs with d1; [|split; [done|by rewrite L5]|].
  - rewrite D5. case_bool_decide; [|by apply (inj Some)].
    destruct (Dispatcher_commit s1) as [[[[] d2] ev2]|]; [|done]. cbn in He. apply (inj Some) in He as <-. by eexists.
  - intros b6 D6 R6. eapply send_if_staged_runs; [done..|]. by intros b' _ Dd Hr _.
Qed.

Lemma verdict_first_runs b span (a := fs_anchor span) (fp := fs_footprint span) d1 :
  span_ok (ring_of b) a fp -> reply_ok b ->
  frame_effect (ring_of b) a fp (sb_id b) (sb_d b) = Some d1 ->
  runs (route_verdict_first span) b (fun _ b' ev => exists pass,
    gated (rx_sealed (ring_of b) a fp) (auth_ok (ring_of b) a fp (sb_security b)) (sb_d b) d1 b b' ev pass).
Proof.
  intros Hok Hro He. pose proof Hro as [Ht Hch]. unfold route_verdict_first. fold a fp.
  destruct (crc_ok_run b a fp Hok) as (ok & c1 & E1 & Hs & Hans). eapply runs_bind_quiet; [exact E1|].
  destruct ok; cbn [negb].
  2: { apply runs_bind. eapply runs_mono; [apply reject_frame_runs|]. intros _ b3 e3 (-> & D3 & C3 & S3 & T3 & L3).
       cbn. exists false. split; [done|..].
       - intros Ha. by rewrite <- (Hans Ha).
       - done.
       - intros _. split; [exact C3|]. split; [|constructor]. cbn. rewrite S3. apply same_session_rollback.
       - split; cbn; [by rewrite T3|by rewrite L3]. }
  destruct (auth_verify_run (set_sb_crc c1 b) a fp Hok) as (sec & Ea & Hsec). cbn [sb_security set_sb_crc] in Hsec.
  change (ring_of (set_sb_crc c1 b)) with (ring_of b) in Ea, Hsec.
  eapply runs_bind_quiet; [exact Ea|]. cbn [sb_security set_sb_crc].
  destruct (auth_ok (ring_of b) a fp (sb_security b)) eqn:Eauth; cbn [negb].
  2: { cbn. exists false. split; try done.
       - intros _. by rewrite andb_false_r.
       - intros _. split; [done|]. split; [|constructor]. cbn. transitivity sec; [by apply Hsec|apply same_session_rollback]. }
  eapply runs_bind_quiet; [done|]. apply runs_bind. eapply runs_mono; [by apply drift_note_runs|].
  intros _ b3 e3 (-> & D3 & C3 & S3 & T3 & L3 & N3 & R3). cbn in D3, T3, N3.
  do 2 (eapply runs_bind_quiet; [done|]). apply bbind_assoc, runs_bind.
  apply abort_if_staged_runs; [by cbn; rewrite T3|].
  intros b4 e4 (D4 & _ & L4 & N4 & _) C4 T4. cbn in D4, L4, N4. eapply runs_mono; [apply (dispatch_first_runs b4 span d1)|].
  - done.
  - split; [done|by rewrite L4].
  - assert (sb_id b4 = sb_id b) as -> by (unfold config in C3, C4; cbn in C3, C4; congruence).
    unfold ring_of. rewrite N4, N3, D4, D3. exact He.
  - assert (ring_of b4 = ring_of b) as -> by (unfold ring_of; congruence). exact Hok.
  - intros _ b' ev [Dd Hr]. apply gated_pass; [by apply Hs|done..].
Qed.

(** ** The theorems *)

(** Every frame of a supported request has an effect. *)
Lemma frame_effect_total ring a fp id d : span_ok ring a fp -> servo_ok d -> served ring a fp id ->
  exists d1, frame_effect ring a fp id d = Some d1 /\ servo_ok d1.
Proof.
  intros Hok Hd Hsv. destruct (frame_view_span _ _ _ Hok) as (f & Ef & _ & _ & Hfb).
  unfold frame_effect. rewrite Ef. cbn [mbind option_bind].
  destruct (decode f id) as [| |req may slot] eqn:Ed; [by eexists|by eexists|].
  destruct (decode_own_range f id req may slot Hfb Ed) as [_ Hrq].
  destruct (dispatch_pres req may) with d as (out & s1 & ev & -> & H1); [|done|].
  { apply Hrq. intros op args ->. by eapply Hsv. }
  cbn [mbind option_bind]. case_bool_decide; [|by eexists]. destruct (commit_pres s1 H1) as ([] & d2 & ev2 & -> & H2). cbn. by eexists.
Qed.

Lemma spine_inst_first b a fp : span_ok (ring_of b) a fp ->
  ServoBus_verdict_first a b = Some (negb (spine_inst (ring_at (ring_of b) a 3)), b, []).
Proof.
  intros Hok. unfold ServoBus_verdict_first, bbind, bret. rewrite (ring_inst_run b a fp Hok).
  unfold spine_inst. by destruct (Inst_opcode _) as [[]|].
Qed.

(** A whole instruction frame, whichever path it takes. *)
Lemma route_frame_gated b span (a := fs_anchor span) (fp := fs_footprint span) d1 :
  span_ok (ring_of b) a fp -> reply_ok b -> servo_ok (sb_d b) -> sv_pending (sb_d b) = None ->
  Inst_is_status (ring_at (ring_of b) a 3) = false ->
  frame_effect (ring_of b) a fp (sb_id b) (sb_d b) = Some d1 ->
  runs (ServoBus_route_frame span true) b (fun _ b' ev => exists pass,
    gated (rx_sealed (ring_of b) a fp) (auth_ok (ring_of b) a fp (sb_security b)) (sb_d b) d1 b b' ev pass).
Proof.
  intros Hok Hro Hd Hp Hst He. pose proof Hro as [Ht _]. unfold ServoBus_route_frame. fold a.
  eapply runs_bind_quiet; [by apply (ring_inst_run b a fp)|]. rewrite Hst.
  eapply runs_bind_quiet; [done|].
  assert (runs (route_verdict_first span) b (fun _ b' ev => exists pass,
    gated (rx_sealed (ring_of b) a fp) (auth_ok (ring_of b) a fp (sb_security b)) (sb_d b) d1 b b' ev pass)) as Hvf
    by (by apply verdict_first_runs).
  destruct (_ && _); [|eapply runs_bind_quiet; [done|]; exact Hvf].
  eapply runs_bind_quiet; [by apply (spine_inst_first b a fp)|].
  destruct (spine_inst _) eqn:Esp; cbn [negb]; [|exact Hvf].
  unfold route_spine. fold a fp. apply (spine_prefix_runs b span d1); [done..|].
  intros [[[staged slot] out]|] b' Hpr.
  - by apply (primed_verify b b' a fp).
  - apply (primed_verify b b' a fp); [done|done|]. by apply primed_skip.
Qed.

(** C1: effects sit behind both gates.  Take a whole instruction frame the
    resolver hands over to a servo between frames, that is with no write waiting
    in the dispatcher for its verdict, on a bus whose reply pipeline is in any
    state its invariant admits, so that the frame goes either through the spine
    (dispatched before its verdict) or through the verdict-first path.  The
    frame is any but an own-addressed MGMT SecInit, SecKey, SecAttest or
    SecRekey, sub-ops the dispatcher's match has no arm for.  Routing it
    returns, and the dispatcher ends exactly where the frame's request leaves it
    if the frame passed, and exactly where it was if it did not.  A pass means
    that the CRC bytes on the wire are the CRC of the covered bytes and that the
    message plane let the frame through; with a CRC engine that answers within
    its spin budget it is equivalent to both.  A frame that does not pass starts
    no reply and leaves the id, baud, reboot, deadline and calibration state,
    the session keys, the policy and the replay window alone. *)
Theorem effects_gated b span (a := fs_anchor span) (fp := fs_footprint span) :
  span_ok (ring_of b) a fp -> reply_ok b -> servo_ok (sb_d b) -> sv_pending (sb_d b) = None ->
  Inst_is_status (ring_at (ring_of b) a 3) = false -> served (ring_of b) a fp (sb_id b) ->
  exists d1, frame_effect (ring_of b) a fp (sb_id b) (sb_d b) = Some d1 /\ servo_ok d1 /\
    runs (ServoBus_route_frame span true) b (fun _ b' ev => exists pass,
      gated (rx_sealed (ring_of b) a fp) (auth_ok (ring_of b) a fp (sb_security b)) (sb_d b) d1 b b' ev pass).
Proof.
  intros Hok Hro Hd Hp Hst Hsv. destruct (frame_effect_total _ _ _ _ _ Hok Hd Hsv) as (d1 & He & H1).
  exists d1. split; [done|]. split; [done|]. by apply route_frame_gated.
Qed.

Lemma frame_effect_agree ring ring2 a fp id d :
  span_ok ring a fp -> span_ok ring2 a fp -> same_covered ring ring2 a fp ->
  frame_effect ring2 a fp id d = frame_effect ring a fp id d.
Proof.
  intros Hok Hok2 Hs. destruct (frame_view_agree ring ring2 a fp Hok Hok2 Hs) as (f & f2 & Ef & Ef2 & Ed).
  unfold frame_effect. rewrite Ef, Ef2. cbn [mbind option_bind]. by rewrite Ed.
Qed.

Lemma primed_undo b a fp d1 p b1 : servo_ok (sb_d b) -> sv_pending (sb_d b) = None ->
  primed b a fp d1 p b1 -> settled (sb_d b1) = sb_d b.
Proof.
  intros Hd Hp (_ & _ & _ & _ & _ & _ & _ & _ & H). destruct p as [p|].
  - destruct H as (_ & _ & _ & Hundo & _). destruct (pd_table p); [done|]. by rewrite Hundo, settled_id.
  - destruct H as [-> _]. by apply settled_id.
Qed.

(** The end of a frame dispatched at its covered checkpoint. *)
Lemma end_deferred b b1 a fp d1 pe0 slot staged tbl e2 pe
    (p := mkPend a fp pe0 slot staged tbl) :
  span_ok (ring_of b) a fp -> reply_ok b -> primed b a fp d1 (Some p) b1 ->
  span_ok (rx_bytes e2) a fp -> same_covered (ring_of b) (rx_bytes e2) a fp ->
  runs (ServoBus_on_frame_end (mkSpan a fp pe)) (set_sb_env e2 (set_sb_pending (Some p) b1)) (fun _ b2 ev => exists pass,
    gated (rx_sealed (rx_bytes e2) a fp) (auth_ok (ring_of b) a fp (sb_security b)) (sb_d b) d1 b b2 ev pass).
Proof.
  intros Hok [_ Hch] (Hr & Hc & _ & Hf & Ht1 & Hcfg & Hss & Hau & _ & _ & Hslot & Hundo & Hdo) Hok2 Hs.
  unfold ServoBus_on_frame_end. do 2 (eapply runs_bind_quiet; [done|]).
  cbn [set_sb_env set_sb_pending sb_pending]. subst p. cbn [pd_anchor pd_footprint fs_anchor fs_footprint].
  rewrite !Z.eqb_refl. cbn [andb].
  match goal with |- runs (ServoBus_verify ?p) ?bb _ => eapply runs_mono; [apply (verify_runs bb p (sb_d b) d1)|] end.
  - exact Hok2.
  - split; [exact Ht1|cbn; by rewrite Hc].
  - destruct Hf as (tail & Et & Ec). exists tail. cbn [pd_anchor pd_footprint].
    change (ring_of _) with (rx_bytes e2). rewrite (crc_tail_agree (ring_of b)), (covered_agree (ring_of b)) by done. done.
  - done.
  - exact Hundo.
  - exact Hdo.
  - intros _ b2 ev [pass G]. exists pass. cbn [pd_anchor pd_footprint] in G.
    change (ring_of _) with (rx_bytes e2) in G. rewrite (auth_ok_agree (ring_of b)) in G by done.
    cbn [sb_security set_sb_pending set_sb_env] in G. rewrite Hau in G. by eapply (gated_rebase _ _ _ _ b).
Qed.

(** The end of a frame that was not this servo's at its checkpoint: routed whole. *)
Lemma end_skipped b b1 a fp d1 e2 pe :
  span_ok (ring_of b) a fp -> reply_ok b -> servo_ok (sb_d b) -> sv_pending (sb_d b) = None -> sb_pending b = None ->
  Inst_is_status (ring_at (ring_of b) a 3) = false -> frame_effect (ring_of b) a fp (sb_id b) (sb_d b) = Some d1 ->
  primed b a fp d1 None b1 -> span_ok (rx_bytes e2) a fp -> same_covered (ring_of b) (rx_bytes e2) a fp ->
  runs (ServoBus_on_frame_end (mkSpan a fp pe)) (set_sb_env e2 b1) (fun _ b2 ev => exists pass,
    gated (rx_sealed (rx_bytes e2) a fp) (auth_ok (ring_of b) a fp (sb_security b)) (sb_d b) d1 b b2 ev pass).
Proof.
  intros Hok [_ Hch] Hd Hp Hpn Hst He (Hr & Hc & Hpd & Hf & Ht1 & Hcfg & Hss & Hau & Hd1 & ->) Hok2 Hs.
  unfold ServoBus_on_frame_end. do 2 (eapply runs_bind_quiet; [done|]).
  cbn [set_sb_env set_sb_pending sb_pending]. rewrite Hpd, Hpn.
  set (b2 := set_sb_pending None (set_sb_env e2 b1)).
  assert (sb_id b2 = sb_id b) as Hid by (unfold config in Hcfg; cbn; congruence).
  eapply runs_mono; [apply (route_frame_gated b2 (mkSpan a fp pe) (sb_d b))|].
  - exact Hok2.
  - split; [exact Ht1|cbn; by rewrite Hc].
  - cbn. by rewrite Hd1.
  - cbn. by rewrite Hd1.
  - change (ring_of b2) with (rx_bytes e2). destruct Hs as [_ Hi]. cbn [fs_anchor].
    rewrite Hi by (destruct Hok as [_ _ _ [Hf' _] _ _]; lia). done.
  - change (ring_of b2) with (rx_bytes e2). cbn [fs_anchor fs_footprint]. rewrite (frame_effect_agree (ring_of b)) by done.
    rewrite Hid. cbn. by rewrite Hd1.
  - intros _ b3 ev [pass G]. exists pass. cbn [fs_anchor fs_footprint] in G.
    change (ring_of b2) with (rx_bytes e2) in G. rewrite (auth_ok_agree (ring_of b)) in G by done.
    cbn [b2 sb_security set_sb_pending set_sb_env sb_d] in G. rewrite Hau, Hd1 in G. by eapply (gated_rebase _ _ _ _ b).
Qed.

(** C11: dispatching ahead of the verdict does not change what the frame does.
    The bus is between replies and between frames (no chain runs, the
    transmitter is idle, no frame and no write waits for a verdict), the frame
    is an instruction of the spine's kind, and its request has an effect [d1] on
    the dispatcher.  When its covered bytes are in but its CRC is not, routing it
    dispatches it: no event leaves, the dispatcher reverts to what it was, and
    the bus configuration stays.  When the frame then ends, with whatever CRC
    bytes arrived and whatever else the ring and the clock did meanwhile (the
    covered bytes staying put), the outcome is the one the whole frame would have
    had: with both gates passed, judged as before the dispatch, the dispatcher is
    at [d1]; otherwise it is where it was, no reply starts, and the
    configuration, the session keys, the policy and the replay window stand.
    Nothing is said of the message plane's running digest of held writes, which
    does depend on how the bytes arrived: [bystander_folds_twice] shows it. *)
Theorem early_dispatch b span (a := fs_anchor span) (fp := fs_footprint span) d1 :
  span_ok (ring_of b) a fp -> reply_ok b -> servo_ok (sb_d b) -> sv_pending (sb_d b) = None ->
  sb_pending b = None -> Chain_active (sb_chain b) = false -> TxEngine_busy (sb_tx b) = false ->
  Inst_is_status (ring_at (ring_of b) a 3) = false -> spine_inst (ring_at (ring_of b) a 3) = true ->
  frame_effect (ring_of b) a fp (sb_id b) (sb_d b) = Some d1 ->
  runs (ServoBus_route_frame span false) b (fun _ b1 ev1 =>
    ev1 = [] /\ settled (sb_d b1) = sb_d b /\ config b1 = config b /\
    forall e2 pe, span_ok (rx_bytes e2) a fp -> same_covered (ring_of b) (rx_bytes e2) a fp ->
      runs (ServoBus_on_frame_end (mkSpan a fp pe)) (set_sb_env e2 b1) (fun _ b2 ev => exists pass,
        gated (rx_sealed (rx_bytes e2) a fp) (auth_ok (ring_of b) a fp (sb_security b)) (sb_d b) d1 b b2 ev pass)).
Proof.
  intros Hok Hro Hd Hp Hpn Hca Htb Hst Hsp He. pose proof Hro as [Ht Hch]. unfold ServoBus_route_frame. fold a.
  eapply runs_bind_quiet; [by apply (ring_inst_run b a fp)|]. rewrite Hst.
  eapply runs_bind_quiet; [done|]. rewrite Hca, Htb. cbn [negb andb].
  eapply runs_bind_quiet; [by apply (spine_inst_first b a fp)|]. rewrite Hsp. cbn [negb].
  unfold route_spine. fold a fp. apply (spine_prefix_runs b span d1); [done..|].
  intros r b1 Hpr. destruct r as [[[staged slot] out]|]; unfold runs at 1, bmod, bret.
  - pose proof (primed_undo _ _ _ _ _ _ Hd Hp Hpr) as Hun. split; [done|]. split; [exact Hun|].
    split; [by apply Hpr|]. intros e2 pe Hok2 Hs. by eapply end_deferred.
  - pose proof (primed_undo _ _ _ _ _ _ Hd Hp Hpr) as Hun. split; [done|]. split; [exact Hun|].
    split; [by apply Hpr|]. intros e2 pe Hok2 Hs. by eapply end_skipped.
Qed.

(** C31: reply routing ends.  Whatever the clock reads on each turn, routing a
    chain output returns: each expired window takes one predecessor away, so the
    loop needs no more than 258 turns, and any larger bound gives the same run.
    Routing touches neither the dispatcher, the bus configuration, the session,
    the resolver nor a frame waiting for its verdict, and leaves the reply
    pipeline fit for the next event. *)
Theorem reply_routing_ends b out :
  reply_ok b ->
  (forall fuel, (258 <= fuel)%nat -> route_chain_loop fuel out b = ServoBus_route_chain out b) /\
  exists b' ev, ServoBus_route_chain out b = Some (tt, b', ev) /\ routed b b'.
Proof.
  intros Hr. split.
  - intros fuel Hf. apply route_chain_loop_stable; [done|by apply fuel_for_max|done].
  - destruct (runs_elim _ _ _ (route_chain_runs b out Hr)) as ([] & b' & ev & Er & H). by exists b', ev.
Qed.

End spine.

(** ** Concrete runs: a ring in memory, a clock that stands still *)

Record BenchEnv := mkEnv { be_ring : list Z; be_cursor : Z; be_now : Z }.
#[export] Instance BenchEnv_providers : Providers BenchEnv := {
  TICKS_PER_US := 48; CLOCK_TRIM_STEP_PPM := 2500;
  rx_bytes := be_ring; rx_cursor e := (be_cursor e, e); dl_now e := (be_now e, e) }.
#[local] Existing Instance ideal_flash.

(** WRITE [9; 2] to address 16 of servo 5, sealed. *)
Definition demo_covered : list Z := [5; 7; Inst_instruction OpWrite 0; 16; 0; 9; 2].
Definition demo_ring : list Z := 0 :: demo_covered ++ to_le16 (osc_crc demo_covered) ++ replicate 6 0.
Definition demo_bus : ServoBus :=
  (ServoBus_new (mkSoft [] (replicate 252 0)) (mkEnv demo_ring 10 7000) 5 B1000000 100 demo_servo).1.
Definition demo_span : FrameSpan := mkSpan 0 10 7000.
Definition demo_after : Servo FlashStore :=
  mkServo (dirtied 16 2 (splice 16 [9; 2] demo_mem)) StagedWrites_new None (replicate 16 7) (Some demo_store).

Lemma demo_span_ok : span_ok demo_ring 0 10.
Proof.
  split; [by exists 4| |vm_compute; split; congruence|vm_compute; split_and!; congruence|reflexivity|reflexivity].
  vm_compute. repeat constructor; discriminate.
Defined.
Lemma demo_reply_ok : reply_ok demo_bus.
Proof. split; [|done]. split; [apply tx_new_wf|intros k; discriminate]. Defined.
Lemma demo_served : served demo_ring 0 10 5.
Proof. intros f op args may slot [= <-]. vm_compute. discriminate. Defined.
Lemma soft_answers : engine_answers (C := SoftCrc).
Proof. intros c. exists (osc_crc (sc_fed c)). reflexivity. Defined.
Lemma demo_effect : frame_effect demo_ring 0 10 5 demo_servo = Some demo_after.
Proof. vm_compute. reflexivity. Defined.

Lemma effects_gated_witness :
  exists b' ev, ServoBus_route_frame demo_span true demo_bus = Some (tt, b', ev) /\ sb_d b' = demo_after.
Proof.
  destruct (effects_gated (PI := BenchEnv_providers) demo_bus demo_span demo_span_ok demo_reply_ok demo_servo_ok
    eq_refl eq_refl demo_served) as (d1 & He & _ & Hr).
  apply runs_elim in Hr as ([] & b' & ev & E & pass & G).
  exists b', ev. split; [exact E|]. pose proof (eq_trans (eq_sym demo_effect) He) as Ed. apply (inj Some) in Ed.
  rewrite (gated_settles _ _ _ _ _ _ _ _ G soft_answers). etransitivity; [|symmetry; exact Ed].
  match goal with |- (if ?x then _ else _) = _ => assert (x = true) as Hx by (vm_compute; reflexivity) end.
  rewrite Hx. reflexivity.
Defined.

(** The same frame with its CRC bytes still to come, then arriving damaged. *)
Definition demo_damaged : list Z := <[9%nat := 170]> demo_ring.

Lemma demo_damaged_ok : span_ok demo_damaged 0 10.
Proof.
  destruct demo_span_ok as [L B A F K S]. split; [exact L| |exact A|exact F|exact K|exact S].
  vm_compute. repeat constructor; discriminate.
Defined.
Lemma demo_damaged_same : same_covered demo_ring demo_damaged 0 10.
Proof.
  split; [reflexivity|]. intros i Hi. unfold ring_at, demo_damaged. change (Z.of_nat (length demo_ring)) with 16.
  rewrite length_insert, Z.mod_small by (change (length demo_ring) with 16%nat; lia).
  rewrite list_lookup_insert_ne by lia. change (Z.of_nat (length demo_ring)) with 16. rewrite Z.mod_small by lia. reflexivity.
Defined.

Lemma early_dispatch_witness :
  exists b1 b2 ev, ServoBus_route_frame demo_span false demo_bus = Some (tt, b1, []) /\
    ServoBus_on_frame_end demo_span (set_sb_env (mkEnv demo_damaged 10 7100) b1) = Some (tt, b2, ev) /\
    sb_d b2 = demo_servo.
Proof.
  pose proof (early_dispatch (PI := BenchEnv_providers) demo_bus demo_span demo_after demo_span_ok demo_reply_ok
    demo_servo_ok eq_refl eq_refl eq_refl eq_refl eq_refl eq_refl demo_effect) as Hr.
  apply runs_elim in Hr as ([] & b1 & ev1 & E1 & -> & _ & _ & Hr).
  specialize (Hr (mkEnv demo_damaged 10 7100) 7000 demo_damaged_ok demo_damaged_same).
  apply runs_elim in Hr as ([] & b2 & ev & E2 & pass & G).
  exists b1, b2, ev. split; [exact E1|]. split; [exact E2|].
  rewrite (gated_settles _ _ _ _ _ _ _ _ G soft_answers).
  match goal with |- (if ?x then _ else _) = _ => assert (x = false) as Hx by (vm_compute; reflexivity) end.
  rewrite Hx. reflexivity.
Defined.

(** Five silent predecessors, all their windows long expired. *)
Lemma reply_routing_ends_witness :
  exists b' ev, ServoBus_route_chain (CoWait 100)
      (set_sb_chain (mkChain (ChWaiting 5 false) 480 0 0) demo_bus) = Some (tt, b', ev) /\
    sb_d b' = demo_servo.
Proof.
  destruct (reply_routing_ends (set_sb_chain (mkChain (ChWaiting 5 false) 480 0 0) demo_bus) (CoWait 100))
    as (_ & b' & ev & E & [Hk _] & _).
  - split; [exact (ro_tx _ demo_reply_ok)|simpl; lia].
  - exists b', ev. split; [exact E|exact Hk].
Defined.

(** A held WRITE to another servo, on a bus with an installed session and the
    flight policy: seen at its covered checkpoint and again at its end it is
    folded into the stream digest twice, seen only whole it is folded once.  The
    digest, and with it the tag the next COMMIT must carry, depends on how the
    bytes arrived. *)
Definition held_covered : list Z := [5; 7; Inst_instruction OpWrite FLAG_HOLD; 16; 0; 9; 2].
Definition held_ring : list Z := 0 :: held_covered ++ to_le16 (osc_crc held_covered) ++ replicate 6 0.
Definition demo_bystander : ServoBus :=
  set_sb_env (mkEnv held_ring 10 7000) (set_sb_id 9 (set_sb_security demo_ctx demo_bus)).

Example bystander_folds_twice :
  exists b1 b2 b3 ev2 ev3, ServoBus_route_frame demo_span false demo_bystander = Some (tt, b1, []) /\
    ServoBus_on_frame_end demo_span b1 = Some (tt, b2, ev2) /\
    ServoBus_on_frame_end demo_span demo_bystander = Some (tt, b3, ev3) /\
    sd_frames (sc_stream (sb_security b2)) = 2 /\ sd_frames (sc_stream (sb_security b3)) = 1 /\
    sc_stream (sb_security b2) =
      sc_stream (SecurityContext_fold (sb_security b3) (Inst_instruction OpWrite FLAG_HOLD) held_covered []).
Proof.
  eexists _, _, _, _, _. split; [vm_compute; reflexivity|]. split; [vm_compute; reflexivity|].
  split; [vm_compute; reflexivity|]. split; [reflexivity|]. split; [reflexivity|]. vm_compute. reflexivity.
Qed.
