(* ===== verification/HostFramer.v ===== *)
(** * The host's ring walker (firmware/lib/host/src/engine/framer.rs)

    The adapter has no break wake: it finds frames from ring data alone.
    [HostFramer_step] looks at the byte under its anchor and either waits for a
    candidate to complete, consumes one CRC-clean frame, or hunts to the next
    zero byte and reports what it skipped.  The theorem: a walk over any ring
    content ends, accounts for every byte it passed, hands out only sealed
    frames of a valid shape, and loses none of the frames that stand back to
    back behind junk. *)

From S2P Require Import Prelude Crc FrameBytes Wire Frame Ring.

Inductive HostStep :=
| HsIdle
| HsPartial
| HsFrame (id : Id) (inst : Inst) (payload : FrameBytes) (payload_pos : Z)
| HsGarble (n : Z).

(** The walker is its anchor. *)
Definition HostFramer := Z.
Definition HostFramer_new : HostFramer := 0.
Definition HostFramer_resync (_ : HostFramer) (cursor : Z) : HostFramer := cursor.
Definition HostFramer_anchor (f : HostFramer) : Z := f.

(** [while n < avail && ring[(anchor + n) & mask] != 0 { n += 1 }]; [avail]
    turns are enough. *)
Fixpoint host_hunt_loop (fuel : nat) (ring : list Z) (anchor avail n : Z) : option Z :=
  match fuel with
  | O => None
  | S fuel' =>
      if n <? avail then
        x ← zget ring (ring_wrap (anchor + n) (Z.of_nat (length ring)));
        if x =? 0 then Some n else host_hunt_loop fuel' ring anchor avail (n + 1)
      else Some n
  end.
Definition HostFramer_hunt (f : HostFramer) (ring : list Z) (avail : Z) : option (HostStep * HostFramer) :=
  n ← host_hunt_loop (Z.to_nat avail) ring f avail 1;
  Some (HsGarble (u16 n), ring_wrap (f + n) (Z.of_nat (length ring))).

Definition ring_crc (ring : list Z) (start n : Z) : option Z :=
  let head := Z.min n (Z.of_nat (length ring) - start) in
  s ← get_range ring (Z.to_nat start) (Z.to_nat (start + head));
  if head =? n then Some (osc_crc s)
  else t ← get_range ring 0 (Z.to_nat (n - head)); Some (osc_crc_continue (osc_crc s) t).

Definition payload_view (ring : list Z) (start n : Z) : option FrameBytes :=
  let head := Z.min n (Z.of_nat (length ring) - start) in
  s ← get_range ring (Z.to_nat start) (Z.to_nat (start + head));
  t ← get_range ring 0 (Z.to_nat (n - head));
  Some (FrameBytes_new s t).

(** The shape test on a header. *)
Definition valid_shape (id len inst ring_len : Z) : bool :=
  (3 <=? len) && Id_is_valid id && (Inst_is_status inst || bool_decide (is_Some (Inst_opcode inst))) &&
  (footprint len <=? ring_len).

Definition HostFramer_step (f : HostFramer) (ring : list Z) (cursor : Z) : option (HostStep * HostFramer) :=
  let rl := Z.of_nat (length ring) in
  let avail := ring_wrap (u32 (cursor - f)) rl in
  if avail =? 0 then Some (HsIdle, f)
  else
    b ← zget ring f;
    if negb (b =? 0) then HostFramer_hunt f ring avail
    else if avail <? 4 then Some (HsPartial, f)
    else
      id ← zget ring (ring_wrap (f + 1) rl);
      len ← zget ring (ring_wrap (f + 2) rl);
      inst ← zget ring (ring_wrap (f + 3) rl);
      if negb (valid_shape id len inst rl) then HostFramer_hunt f ring avail
      else if avail <? footprint len then Some (HsPartial, f)
      else
        let clen := covered_len len in
        crc ← ring_crc ring f clen;
        lo ← zget ring (ring_wrap (f + clen) rl);
        hi ← zget ring (ring_wrap (f + clen + 1) rl);
        if negb (crc =? from_le16 lo hi) then HostFramer_hunt f ring avail
        else
          let pos := ring_wrap (f + 4) rl in
          pay ← payload_view ring pos (payload_len len);
          Some (HsFrame id inst pay pos, ring_wrap (f + footprint len) rl).

(** ** The reference: the same walk over a plain byte list *)

Inductive Parsed := PIdle | PPartial | PFrame (id : Id) (inst : Inst) (payload : list Z) | PGarble (n : nat).

Fixpoint nonzero_run (l : list Z) : nat :=
  match l with [] => 0 | x :: l' => if x =? 0 then 0 else S (nonzero_run l') end.
Definition parse_dead (l : list Z) : Parsed := PGarble (S (nonzero_run (tail l))).

Definition parse_step (ring_len : Z) (l : list Z) : Parsed :=
  match l with
  | [] => PIdle
  | b :: l1 =>
      if negb (b =? 0) then parse_dead l
      else match l1 with
           | id :: len :: inst :: rest =>
               if negb (valid_shape id len inst ring_len) then parse_dead l
               else if Z.of_nat (length l) <? footprint len then PPartial
               else if check_sealed (take (Z.to_nat (footprint len)) l)
               then PFrame id inst (take (Z.to_nat (len - 3)) rest)
               else parse_dead l
           | _ => PPartial
           end
  end.

Definition parsed_len (p : Parsed) : nat :=
  match p with PIdle | PPartial => 0 | PFrame _ _ pay => length pay + 6 | PGarble n => n end.

(** The walker's outcome is the parser's. *)
Definition same_step (s : HostStep) (p : Parsed) : Prop :=
  match s, p with
  | HsIdle, PIdle | HsPartial, PPartial => True
  | HsFrame id inst pay _, PFrame id' inst' pay' => id = id' /\ inst = inst' /\ FrameBytes_bytes pay = pay'
  | HsGarble n, PGarble n' => n = Z.of_nat n'
  | _, _ => False
  end.

Lemma nonzero_run_le l : (nonzero_run l <= length l)%nat.
Proof. induction l as [|x l IH]; simpl; [lia|]. destruct (x =? 0); lia. Qed.

Section walker.
Context (ring : list Z).
#[local] Abbreviation rl := (Z.of_nat (length ring)).
Context (Hlen : ring_len_ok rl).
#[local] Set Default Proof Using "All".

Lemma ring_piece_at s n : 0 <= s < rl -> 0 <= n <= rl ->
  let head := Z.min n (rl - s) in
  exists x y, get_range ring (Z.to_nat s) (Z.to_nat (s + head)) = Some x /\
    get_range ring 0 (Z.to_nat (n - head)) = Some y /\ x ++ y = ring_bytes ring s (Z.to_nat n) /\
    (head = n -> y = []).
Proof.
  intros Hs Hn. cbv zeta. pose proof (ring_pieces ring s n Hlen ltac:(lia) Hn) as Hp.
  destruct (Z.leb_spec (s + n) rl).
  - rewrite Z.min_l by lia. rewrite Hp, Z.sub_diag. exists (ring_bytes ring s (Z.to_nat n)), [].
    split; [done|]. rewrite get_range_ok by lia. split; [done|]. by rewrite app_nil_r.
  - rewrite Z.min_r by lia. destruct Hp as (x & y & Ex & Ey & Lx & Exy).
    replace (s + (rl - s)) with rl by lia. rewrite Nat2Z.id. replace (n - (rl - s)) with (s + n - rl) by lia.
    exists x, y. repeat split; [done..|]. intros. lia.
Qed.

Lemma ring_crc_spec s n : 0 <= s < rl -> 0 <= n <= rl ->
  ring_crc ring s n = Some (osc_crc (ring_bytes ring s (Z.to_nat n))).
Proof.
  intros Hs Hn. destruct (ring_piece_at s n Hs Hn) as (x & y & Ex & Ey & Exy & Hnil). unfold ring_crc.
  rewrite Ex. cbn [mbind option_bind]. destruct (Z.eqb_spec (Z.min n (rl - s)) n) as [E|E].
  - by rewrite <- Exy, Hnil, app_nil_r.
  - rewrite Ey. cbn [mbind option_bind]. rewrite <- Exy. unfold osc_crc. by rewrite osc_crc_continue_app.
Qed.

Lemma payload_view_spec s n : 0 <= s < rl -> 0 <= n <= rl ->
  exists v, payload_view ring s n = Some v /\ FrameBytes_bytes v = ring_bytes ring s (Z.to_nat n).
Proof.
  intros Hs Hn. destruct (ring_piece_at s n Hs Hn) as (x & y & Ex & Ey & Exy & _). unfold payload_view.
  rewrite Ex. cbn [mbind option_bind]. rewrite Ey. by exists (FrameBytes_new x y).
Qed.

Lemma avail_eq cursor f : ring_wrap (u32 (cursor - f)) rl = (cursor - f) mod rl.
Proof.
  rewrite ring_wrap_mod by done. unfold u32. destruct Hlen as (k & Hk & ->).
  apply Z.mod_mod_divide. change 4294967296 with (2 ^ 32).
  exists (2 ^ (32 - k)). rewrite <- Z.pow_add_r by lia. f_equal. lia.
Qed.

Lemma host_hunt_loop_spec f : 0 <= f < rl -> forall (m fuel : nat) n avail,
  1 <= n -> avail = n + Z.of_nat m -> avail < rl -> (m < fuel)%nat ->
  host_hunt_loop fuel ring f avail n = Some (n + Z.of_nat (nonzero_run (ring_bytes ring (f + n) m))).
Proof.
  intros Hf. induction m as [|m IH]; intros fuel n avail Hn Ha Hlt Hfu; (destruct fuel as [|fuel]; [lia|]);
    cbn [host_hunt_loop].
  - rewrite (proj2 (Z.ltb_ge n avail)) by lia. cbn. f_equal. lia.
  - rewrite (proj2 (Z.ltb_lt n avail)) by lia. rewrite (zget_ring_wrap ring Hlen) by lia. cbn [mbind option_bind].
    rewrite ring_bytes_S. cbn [nonzero_run].
    assert (ring_at ring (f + n) 0 = ring_at ring f n) as -> by (unfold ring_at; do 4 f_equal; lia).
    destruct (_ =? 0); [f_equal; lia|]. rewrite (IH fuel (n + 1) avail) by lia. f_equal.
    replace (f + (n + 1)) with (f + n + 1) by lia. lia.
Qed.

Lemma hunt_dead f avail (l := ring_bytes ring f (Z.to_nat avail)) : 0 <= f < rl -> 1 <= avail < rl ->
  exists n, (1 <= n <= length l)%nat /\ parse_dead l = PGarble n /\
    HostFramer_hunt f ring avail = Some (HsGarble (Z.of_nat n), (f + Z.of_nat n) mod rl).
Proof.
  intros Hf Ha. pose proof (ring_len_pos _ Hlen). subst l.
  replace (Z.to_nat avail) with (S (Z.to_nat (avail - 1))) by lia. unfold HostFramer_hunt, parse_dead.
  rewrite ring_bytes_S. cbn [tail length]. set (t := ring_bytes ring (f + 1) _).
  assert (nonzero_run t <= Z.to_nat (avail - 1))%nat by (etransitivity; [apply nonzero_run_le|subst t; by rewrite length_ring_bytes]).
  exists (S (nonzero_run t)). split; [subst t; rewrite length_ring_bytes; lia|]. split; [done|].
  rewrite (host_hunt_loop_spec f Hf (Z.to_nat (avail - 1)) (Z.to_nat avail) 1 avail) by lia.
  fold t. cbn [mbind option_bind]. rewrite u16_id, ring_wrap_mod by (done || lia).
  by replace (1 + Z.of_nat (nonzero_run t)) with (Z.of_nat (S (nonzero_run t))) by lia.
Qed.

(** A walker outcome that follows the parser's over the backlog [l]. *)
Definition agrees (f : Z) (l : list Z) (p : Parsed) (r : option (HostStep * HostFramer)) : Prop :=
  exists s, r = Some (s, (f + Z.of_nat (parsed_len p)) mod rl) /\ same_step s p /\ (parsed_len p <= length l)%nat /\
    (p = PIdle \/ p = PPartial \/ (1 <= parsed_len p)%nat).

Lemma agrees_stay f l s p : 0 <= f < rl -> same_step s p -> p = PIdle \/ p = PPartial -> agrees f l p (Some (s, f)).
Proof.
  intros Hf Hs Hp. exists s. assert (parsed_len p = 0%nat) as -> by (by destruct Hp as [-> | ->]).
  rewrite Z.add_0_r, Z.mod_small by lia. split; [done|]. split; [done|]. split; [lia|tauto].
Qed.

Lemma agrees_dead f avail (l := ring_bytes ring f (Z.to_nat avail)) : 0 <= f < rl -> 1 <= avail < rl ->
  agrees f l (parse_dead l) (HostFramer_hunt f ring avail).
Proof.
  intros Hf Ha. destruct (hunt_dead f avail Hf Ha) as (n & Hn & Ed & ->). fold l in Hn, Ed.
  rewrite Ed. eexists. split; [done|]. split; [done|]. cbn [parsed_len]. split; [lia|]. right. right. lia.
Qed.

(** The header bytes and the rest of a backlog of at least four. *)
Lemma backlog_header f n : ring_bytes ring f (4 + n) =
  ring_at ring f 0 :: ring_at ring f 1 :: ring_at ring f 2 :: ring_at ring f 3 :: ring_bytes ring (f + 4) n.
Proof.
  cbn [Nat.add]. rewrite !ring_bytes_S. unfold ring_at.
  replace (f + 1 + 0) with (f + 1) by lia. replace (f + 1 + 1 + 0) with (f + 2) by lia.
  replace (f + 1 + 1 + 1 + 0) with (f + 3) by lia. by replace (f + 1 + 1 + 1 + 1) with (f + 4) by lia.
Qed.

Lemma take_ring_bytes f n m : (m <= n)%nat -> take m (ring_bytes ring f n) = ring_bytes ring f m.
Proof.
  intros Hm. replace n with (m + (n - m))%nat by lia. rewrite (ring_bytes_app ring Hlen).
  by rewrite take_app_length' by (by rewrite length_ring_bytes).
Qed.

(** The CRC test on a complete candidate. *)
Lemma check_sealed_ring f m : 0 <= f < rl -> (m + 2 <= length ring)%nat ->
  check_sealed (ring_bytes ring f (m + 2)) =
    (osc_crc (ring_bytes ring f m) =? from_le16 (ring_at ring f (Z.of_nat m)) (ring_at ring f (Z.of_nat m + 1))).
Proof.
  intros Hf Hm. replace (m + 2)%nat with (S (S m)) by lia. rewrite !ring_bytes_snoc, <- app_assoc. cbn [app].
  unfold check_sealed. rewrite length_app. cbn [length]. rewrite length_ring_bytes.
  replace (m + 2 - 2)%nat with m by lia. rewrite drop_app_length', take_app_length' by (by rewrite length_ring_bytes).
  by replace (Z.of_nat (S m)) with (Z.of_nat m + 1) by lia.
Qed.

(** One call of the walker is one step of the parser on the backlog, and moves
    the anchor by what the parser consumed. *)
Lemma step_refines f cursor (avail := (cursor - f) mod rl) (l := ring_bytes ring f (Z.to_nat avail)) :
  bytes_ok ring -> 0 <= f < rl -> agrees f l (parse_step rl l) (HostFramer_step f ring cursor).
Proof.
  intros Hb Hf. pose proof (ring_len_pos _ Hlen) as Hlp. unfold HostFramer_step. rewrite avail_eq. fold avail.
  assert (0 <= avail < rl) as Hav by (apply Z.mod_pos_bound; lia).
  destruct (Z.eqb_spec avail 0) as [E0|E0].
  { subst l. rewrite E0. apply agrees_stay; [done|done|by left]. }
  pose proof (agrees_dead f avail Hf ltac:(lia)) as Hdead. fold l in Hdead. clearbody avail.
  rewrite (zget_ring ring Hlen f Hf). cbn [mbind option_bind].
  destruct (Z.ltb_spec avail 4) as [H4|H4].
  { assert (exists b l1, l = b :: l1 /\ b = ring_at ring f 0 /\ (length l1 < 3)%nat) as (b & l1 & El & -> & L1).
    { subst l. replace (Z.to_nat avail) with (S (Z.to_nat (avail - 1))) by lia. rewrite ring_bytes_S.
      eexists _, _. split; [done|]. split; [done|]. rewrite length_ring_bytes. lia. }
    rewrite El in *. cbn [parse_step]. destruct (negb _); [exact Hdead|].
    destruct l1 as [|? [|? [|? ?]]]; simpl in L1; try lia; (apply agrees_stay; [done|done|by right]). }
  assert (l = ring_at ring f 0 :: ring_at ring f 1 :: ring_at ring f 2 :: ring_at ring f 3 ::
    ring_bytes ring (f + 4) (Z.to_nat (avail - 4))) as El.
  { subst l. replace (Z.to_nat avail) with (4 + Z.to_nat (avail - 4))%nat by lia. apply backlog_header. }
  assert (length l = Z.to_nat avail) as Ll by apply length_ring_bytes.
  assert (is_u8 (ring_at ring f 2)) as Hl8.
  { unfold ring_at. destruct (ring !! _) as [x|] eqn:Ex; simpl; [|lia]. by apply (bytes_ok_lookup _ _ _ Hb Ex). }
  assert (parse_step rl l = if negb (ring_at ring f 0 =? 0) then parse_dead l
    else if negb (valid_shape (ring_at ring f 1) (ring_at ring f 2) (ring_at ring f 3) rl) then parse_dead l
    else if avail <? footprint (ring_at ring f 2) then PPartial
    else if check_sealed (take (Z.to_nat (footprint (ring_at ring f 2))) l)
    then PFrame (ring_at ring f 1) (ring_at ring f 3)
           (take (Z.to_nat (ring_at ring f 2 - 3)) (ring_bytes ring (f + 4) (Z.to_nat (avail - 4))))
    else parse_dead l) as ->.
  { replace avail with (Z.of_nat (length l)) at 1 by lia. rewrite El at 1. cbn [parse_step]. rewrite <- El. done. }
  destruct (negb _); [exact Hdead|]. rewrite !(zget_ring_wrap ring Hlen f) by lia. cbn [mbind option_bind].
  set (len := ring_at ring f 2) in *. destruct (valid_shape _ _ _ _) eqn:Ev; cbn [negb]; [|exact Hdead].
  destruct (Z.ltb_spec avail (footprint len)) as [Hp|Hp]; [apply agrees_stay; [done|done|by right]|].
  unfold valid_shape in Ev. apply andb_prop in Ev as [Ev H4']. apply andb_prop in Ev as [Ev _]. apply andb_prop in Ev as [H3 _]. zbool.
  unfold covered_len, footprint, payload_len in *. rewrite ring_crc_spec by lia. cbn [mbind option_bind].
  replace (f + (1 + len) + 1) with (f + (2 + len)) by lia. rewrite !(zget_ring_wrap ring Hlen f) by lia. cbn [mbind option_bind].
  rewrite u8_id by lia.
  assert (take (Z.to_nat (3 + len)) l = ring_bytes ring f (Z.to_nat (1 + len) + 2)) as ->
    by (replace (Z.to_nat (3 + len)) with (Z.to_nat (1 + len) + 2)%nat by lia; apply take_ring_bytes; lia).
  rewrite check_sealed_ring by lia.
  rewrite Z2Nat.id by lia. replace (1 + len + 1) with (2 + len) by lia.
  destruct (_ =? _); cbn [negb]; [|exact Hdead]. rewrite !ring_wrap_mod by done.
  destruct (payload_view_spec ((f + 4) mod rl) (len - 3)) as (v & -> & Evb); [apply Z.mod_pos_bound; lia|lia|].
  cbn [mbind option_bind]. rewrite take_ring_bytes by lia. rewrite ring_bytes_mod in Evb.
  eexists. cbn [parsed_len]. rewrite length_ring_bytes. split; [do 4 f_equal; lia|]. split; [done|]. split; [lia|]. right. right. lia.
Qed.
End walker.

(** ** Whole walks *)

(** Step until the backlog is used up or its candidate is incomplete. *)
Fixpoint host_walk (fuel : nat) (f : HostFramer) (ring : list Z) (cursor : Z) : option (list HostStep * HostFramer) :=
  match fuel with
  | O => None
  | S fuel' =>
      '(s, f') ← HostFramer_step f ring cursor;
      match s with
      | HsIdle | HsPartial => Some ([], f')
      | _ => '(out, f2) ← host_walk fuel' f' ring cursor; Some (s :: out, f2)
      end
  end.

(** A frame on the wire, break byte first. *)
Definition wire_bytes (id : Id) (inst : Inst) (pay : list Z) : list Z :=
  sealed (0 :: id :: (3 + Z.of_nat (length pay)) :: inst :: pay).

(** The bytes [l] cut into what the parser reported, in order, with [rest] left
    over: a frame stands for its sealed bytes, junk for its count. *)
Fixpoint cut (ring_len : Z) (ps : list Parsed) (rest l : list Z) : Prop :=
  match ps with
  | [] => l = rest /\ (rest = [] \/ parse_step ring_len rest = PPartial)
  | PFrame id inst pay :: ps' =>
      valid_shape id (3 + Z.of_nat (length pay)) inst ring_len = true /\
      exists l', l = wire_bytes id inst pay ++ l' /\ cut ring_len ps' rest l'
  | PGarble n :: ps' =>
      (1 <= n)%nat /\ exists junk l', length junk = n /\ l = junk ++ l' /\ cut ring_len ps' rest l'
  | _ => False
  end.

Lemma check_sealed_inv w : (2 <= length w)%nat -> bytes_ok w -> check_sealed w = true ->
  w = sealed (take (length w - 2) w).
Proof.
  intros Hl Hb H. unfold check_sealed in H. unfold sealed.
  destruct (drop (length w - 2) w) as [|lo [|hi [|]]] eqn:Ed; try done. zbool.
  assert (bytes_ok [lo; hi]) as Hlh by (rewrite <- Ed; auto with osc).
  rewrite bytes_ok_cons, bytes_ok_cons in Hlh. destruct Hlh as (H1 & H2 & _).
  rewrite H, to_from_le16 by done. by rewrite <- Ed, take_drop.
Qed.

(** What the parser accepts is a sealed frame of a valid shape. *)
Lemma parse_step_frame_inv ring_len l id inst pay : bytes_ok l -> parse_step ring_len l = PFrame id inst pay ->
  valid_shape id (3 + Z.of_nat (length pay)) inst ring_len = true /\
  l = wire_bytes id inst pay ++ drop (length pay + 6) l.
Proof.
  intros Hb. destruct l as [|b [|i [|n [|t rest]]]]; cbn [parse_step]; try done; try (by destruct (negb _)).
  destruct (Z.eqb_spec b 0) as [->|]; cbn [negb]; [|done].
  destruct (valid_shape i n t ring_len) eqn:Ev; cbn [negb]; [|done].
  destruct (Z.ltb_spec (Z.of_nat (length (0 :: i :: n :: t :: rest))) (footprint n)) as [|Hlen]; [done|].
  destruct (check_sealed _) eqn:Ec; [|done]. intros [= <- <- <-].
  assert (3 <= n < 256) as Hn.
  { split; [unfold valid_shape in Ev; do 3 apply andb_prop in Ev as [Ev _]; lia|].
    assert (is_u8 n) by (by apply (bytes_ok_lookup _ 2%nat _ Hb)). lia. }
  unfold footprint in *. cbn [length] in Hlen.
  set (pay := take (Z.to_nat (n - 3)) rest). assert (length pay = Z.to_nat (n - 3)) as Lp.
  { subst pay. rewrite length_take. lia. }
  replace (3 + Z.of_nat (length pay)) with n by lia. split; [done|].
  set (w := take (Z.to_nat (3 + n)) _) in Ec. set (l := 0 :: i :: n :: t :: rest) in *.
  rewrite <- (take_drop (length pay + 6) l) at 1. f_equal.
  replace (length pay + 6)%nat with (Z.to_nat (3 + n)) by lia. fold w.
  assert (length w = Z.to_nat (3 + n)) as Lw by (subst w l; rewrite length_take; cbn [length]; lia).
  rewrite (check_sealed_inv w) by (auto with osc || lia || (subst w; auto with osc)). unfold wire_bytes. f_equal.
  rewrite Lw. subst w. rewrite take_take. replace ((Z.to_nat (3 + n) - 2) `min` Z.to_nat (3 + n))%nat with (4 + Z.to_nat (n - 3))%nat by lia.
  subst l. cbn [Nat.add take]. fold pay. by replace (3 + Z.of_nat (length pay)) with n by lia.
Qed.

Lemma parse_step_clean ring_len id inst pay l : bytes_ok (id :: inst :: pay) -> (length pay <= 252)%nat ->
  valid_shape id (3 + Z.of_nat (length pay)) inst ring_len = true ->
  parse_step ring_len (wire_bytes id inst pay ++ l) = PFrame id inst pay.
Proof.
  rewrite !bytes_ok_cons. intros (Hi & Ht & Hp) Hl Hv. set (n := 3 + Z.of_nat (length pay)) in *.
  unfold wire_bytes, sealed. fold n. cbn [app parse_step]. cbn [Z.eqb negb]. rewrite Hv. cbn [negb].
  unfold footprint. set (c := to_le16 _). assert (length c = 2%nat) as Lc by done.
  rewrite (proj2 (Z.ltb_ge _ _)) by (cbn [length]; rewrite !length_app; lia).
  assert (take (Z.to_nat (3 + n)) (0 :: id :: n :: inst :: (pay ++ c) ++ l) = sealed (0 :: id :: n :: inst :: pay)) as ->.
  { replace (Z.to_nat (3 + n)) with (4 + (length pay + 2))%nat by lia. cbn [Nat.add take]. unfold sealed. cbn [app].
    do 4 f_equal. by rewrite take_app_length' by (rewrite length_app; lia). }
  rewrite check_sealed_ok by (rewrite !bytes_ok_cons; split_and!; (done || lia)).
  f_equal. rewrite <- app_assoc. by rewrite take_app_length' by lia.
Qed.

Lemma nonzero_run_junk junk l : Forall (fun x => x <> 0) junk -> nonzero_run (junk ++ 0 :: l) = length junk.
Proof. induction 1 as [|x junk Hx _ IH]; simpl; [done|]. rewrite (proj2 (Z.eqb_neq x 0)) by done. by f_equal. Qed.

(** Junk without a zero byte, in front of a zero byte or of nothing. *)
Lemma parse_step_junk ring_len junk l : junk <> [] -> Forall (fun x => x <> 0) junk -> head l = Some 0 \/ l = [] ->
  parse_step ring_len (junk ++ l) = PGarble (length junk).
Proof.
  intros Hne Hj Hl. destruct junk as [|x junk]; [done|]. apply Forall_cons_1 in Hj as [Hx Hj].
  cbn [app parse_step]. rewrite (proj2 (Z.eqb_neq x 0)) by done. cbn [negb]. unfold parse_dead. cbn [tail length]. do 2 f_equal.
  destruct Hl as [Hl| ->].
  - destruct l as [|y l]; [done|]. cbn in Hl. apply (inj Some) in Hl as ->. by apply nonzero_run_junk.
  - rewrite app_nil_r. clear -Hj. induction Hj as [|y junk Hy _ IH]; simpl; [done|].
    rewrite (proj2 (Z.eqb_neq y 0)) by done. by f_equal.
Qed.

(** The frames of a stream that are to be found. *)
Definition wire_good (ring_len : Z) (w : Id * Inst * list Z) : Prop :=
  let '(id, inst, pay) := w in
  bytes_ok (id :: inst :: pay) /\ (length pay <= 252)%nat /\
  valid_shape id (3 + Z.of_nat (length pay)) inst ring_len = true.
Definition stream_of (ws : list (Id * Inst * list Z)) : list Z :=
  concat ((fun '(id, inst, pay) => wire_bytes id inst pay) <$> ws).
Definition frames_of (ws : list (Id * Inst * list Z)) : list Parsed :=
  (fun '(id, inst, pay) => PFrame id inst pay) <$> ws.

(** Parse a byte list until nothing more can be decided. *)
Fixpoint parse_all (fuel : nat) (ring_len : Z) (l : list Z) : list Parsed * list Z :=
  match fuel with
  | O => ([], l)
  | S fuel' =>
      match parse_step ring_len l with
      | PIdle | PPartial => ([], l)
      | p => let r := parse_all fuel' ring_len (drop (parsed_len p) l) in (p :: r.1, r.2)
      end
  end.

Lemma parse_step_total ring_len l : bytes_ok l -> l <> [] ->
  match parse_step ring_len l with
  | PIdle => False
  | PPartial => True
  | p => (1 <= parsed_len p <= length l)%nat
  end.
Proof.
  intros Hb Hne. pose proof (nonzero_run_le (tail l)) as Hr. assert (length (tail l) = length l - 1)%nat as Lt by (by destruct l; simpl; lia).
  assert (1 <= length l)%nat by (destruct l; simpl; [done|lia]).
  destruct (parse_step ring_len l) as [| |id inst pay|k] eqn:Ep.
  - destruct l as [|? [|? [|? [|? ?]]]]; cbn [parse_step] in Ep; repeat case_match; done.
  - done.
  - apply parse_step_frame_inv in Ep as [_ El]; [|done]. apply (f_equal length) in El.
    unfold wire_bytes, sealed in El. rewrite !length_app in El. cbn [length parsed_len to_le16] in *. lia.
  - assert (parse_dead l = PGarble k) as [= <-].
    { destruct l as [|? [|? [|? [|? ?]]]]; cbn [parse_step] in Ep; repeat case_match; (done || congruence). }
    cbn [parsed_len]. lia.
Qed.

Lemma parse_all_cut ring_len : forall (n : nat) l, bytes_ok l -> (length l < n)%nat ->
  cut ring_len (parse_all n ring_len l).1 (parse_all n ring_len l).2 l.
Proof.
  induction n as [|n IH]; intros l Hb Hn; [lia|]. cbn [parse_all].
  destruct (decide (l = [])) as [->|Hne]; [by split; [|left]|]. pose proof (parse_step_total ring_len l Hb Hne) as Ht.
  destruct (parse_step ring_len l) as [| |id inst pay|k] eqn:Ep; [done|by split; [|right]|..]; cbn [fst snd cut parsed_len] in *.
  - apply parse_step_frame_inv in Ep as [Hv El]; [|done]. split; [done|]. eexists. split; [exact El|].
    apply IH; [auto with osc|rewrite length_drop; lia].
  - split; [lia|]. exists (take k l), (drop k l). split; [rewrite length_take; lia|]. split; [by rewrite take_drop|].
    apply IH; [auto with osc|rewrite length_drop; lia].
Qed.

Lemma parse_all_step n ring_len l p l' : parse_step ring_len (l ++ l') = p -> parsed_len p = length l ->
  p <> PIdle -> p <> PPartial ->
  parse_all (S n) ring_len (l ++ l') = (p :: (parse_all n ring_len l').1, (parse_all n ring_len l').2).
Proof.
  intros Ep El P1 P2. cbn [parse_all]. rewrite Ep. destruct p; try done; by rewrite El, drop_app_length.
Qed.

Lemma parse_all_stream ring_len : forall ws n, Forall (wire_good ring_len) ws -> (length ws < n)%nat ->
  parse_all n ring_len (stream_of ws) = (frames_of ws, []).
Proof.
  induction ws as [|[[id inst] pay] ws IH]; intros n Hw Hn; (destruct n as [|n]; [simpl in Hn; lia|]); [done|].
  apply Forall_cons_1 in Hw as [(Hb & Hl & Hv) Hw]. unfold stream_of. cbn [fmap list_fmap concat]. fold (stream_of ws).
  rewrite (parse_all_step n ring_len _ (PFrame id inst pay)).
  - rewrite IH by (done || (cbn [length] in Hn; lia)). done.
  - by apply parse_step_clean.
  - unfold wire_bytes, sealed. rewrite length_app. cbn [length parsed_len to_le16]. lia.
  - done.
  - done.
Qed.

Lemma parse_all_junk ring_len junk ws n : Forall (fun x => x <> 0) junk -> Forall (wire_good ring_len) ws ->
  (length junk + length ws < n)%nat ->
  parse_all n ring_len (junk ++ stream_of ws) =
    ((if bool_decide (junk = []) then [] else [PGarble (length junk)]) ++ frames_of ws, []).
Proof.
  intros Hj Hw Hn. case_bool_decide as Ej; [subst junk; apply parse_all_stream; [done|simpl in Hn; lia]|].
  assert (1 <= length junk)%nat by (destruct junk; simpl; [done|lia]).
  destruct n as [|n]; [lia|]. rewrite (parse_all_step n ring_len _ (PGarble (length junk))); [|..].
  - by rewrite parse_all_stream by (done || lia).
  - apply parse_step_junk; [done..|]. destruct ws as [|[[id inst] pay] ws]; [by right|by left].
  - done.
  - done.
  - done.
Qed.

Section walks.
Context (ring : list Z) (cursor : Z).
#[local] Abbreviation rl := (Z.of_nat (length ring)).
Context (Hlen : ring_len_ok rl) (Hb : bytes_ok ring) (Hcur : 0 <= cursor < rl).
#[local] Set Default Proof Using "All".

Definition host_backlog (f : HostFramer) : list Z := ring_bytes ring f (Z.to_nat ((cursor - f) mod rl)).

(** After consuming [k] bytes the backlog is what was behind them. *)
Lemma host_backlog_skip f k : 0 <= f < rl -> (k <= length (host_backlog f))%nat ->
  host_backlog ((f + Z.of_nat k) mod rl) = drop k (host_backlog f).
Proof.
  intros Hf Hk. unfold host_backlog in *. rewrite length_ring_bytes in Hk. pose proof (ring_len_pos _ Hlen).
  pose proof (Z.mod_pos_bound (cursor - f) rl ltac:(lia)).
  rewrite (ring_rem_step ring Hlen) by lia. set (n := Z.to_nat ((cursor - f) mod rl)) in *.
  replace n with (k + (n - k))%nat by lia. rewrite (ring_bytes_app ring Hlen), drop_app_length' by (by rewrite length_ring_bytes).
  f_equal. lia.
Qed.

(** The walk is the parse of the backlog. *)
Lemma host_walk_refines : forall (n : nat) f, 0 <= f < rl -> (length (host_backlog f) < n)%nat ->
  exists out f', host_walk n f ring cursor = Some (out, f') /\
    Forall2 same_step out (parse_all n rl (host_backlog f)).1 /\
    0 <= f' < rl /\ host_backlog f' = (parse_all n rl (host_backlog f)).2.
Proof.
  pose proof (ring_len_pos _ Hlen). induction n as [|n IH]; intros f Hf Hn; [lia|]. cbn [host_walk parse_all].
  destruct (step_refines ring Hlen f cursor Hb Hf) as (s & Es & Hs & Hle & Hpos). fold (host_backlog f) in *.
  rewrite Es. cbn [mbind option_bind]. set (l := host_backlog f) in *. set (p := parse_step rl l) in *.
  assert (p <> PIdle -> p <> PPartial -> s <> HsIdle -> s <> HsPartial ->
    exists out f', ('(out, f2) ← host_walk n ((f + Z.of_nat (parsed_len p)) mod rl) ring cursor; Some (s :: out, f2)) = Some (out, f') /\
      Forall2 same_step out (p :: (parse_all n rl (drop (parsed_len p) l)).1) /\
      0 <= f' < rl /\ host_backlog f' = (parse_all n rl (drop (parsed_len p) l)).2) as Hgo.
  { intros P1 P2 _ _. destruct Hpos as [|[|Hpos]]; [done..|].
    destruct (IH ((f + Z.of_nat (parsed_len p)) mod rl)) as (out & f' & Ew & Hss & Hf' & Er).
    { apply Z.mod_pos_bound; lia. } { rewrite host_backlog_skip by done. fold l. rewrite length_drop. lia. }
    rewrite host_backlog_skip in Hss, Er by done. fold l in Hss, Er. rewrite Ew. cbn [mbind option_bind].
    exists (s :: out), f'. split; [done|]. split; [by constructor|done]. }
  assert (p = PIdle \/ p = PPartial -> exists out f', Some ([] : list HostStep, (f + Z.of_nat (parsed_len p)) mod rl) = Some (out, f') /\
      Forall2 same_step out [] /\ 0 <= f' < rl /\ host_backlog f' = l) as Hstop.
  { intros Hp. exists [], f. assert (parsed_len p = 0%nat) as -> by (by destruct Hp as [-> | ->]).
    rewrite Z.add_0_r, Z.mod_small by lia. split; [done|]. split; [constructor|done]. }
  destruct p as [| |id inst pay|k] eqn:Ep, s; try done; cbn [fst snd] in *.
  - apply Hstop. by left.
  - apply Hstop. by right.
  - by apply Hgo.
  - by apply Hgo.
Qed.
End walks.

Lemma length_stream_of ws : (length ws <= length (stream_of ws))%nat.
Proof.
  induction ws as [|[[id inst] pay] ws IH]; [done|]. unfold stream_of. cbn [fmap list_fmap concat]. fold (stream_of ws).
  rewrite length_app. unfold wire_bytes, sealed. rewrite length_app. cbn [length to_le16]. lia.
Qed.

(** The host's walker accounts for every byte.  Over any ring content, any
    anchor and any cursor, stepping until nothing more can be decided ends within
    one step per unread byte.  The unread bytes are exactly the pieces reported,
    in order, followed by what is still unread: a frame piece is a sealed frame
    of a valid shape (its CRC and payload read across the ring seam), a junk
    piece has the reported length, and what is left is empty or an incomplete
    candidate.  When the unread bytes are junk without a zero byte followed by
    valid frames back to back, the walker reports the junk, then exactly those
    frames with their payloads, and ends at the cursor. *)
Theorem host_walk_accounts ring cursor f (rl := Z.of_nat (length ring)) (l := host_backlog ring cursor f) :
  ring_len_ok rl -> bytes_ok ring -> 0 <= cursor < rl -> 0 <= f < rl ->
  exists out f' ps, host_walk (S (length l)) f ring cursor = Some (out, f') /\
    Forall2 same_step out ps /\ cut rl ps (host_backlog ring cursor f') l /\
    forall junk ws, Forall (fun x => x <> 0) junk -> Forall (wire_good rl) ws -> l = junk ++ stream_of ws ->
      ps = (if bool_decide (junk = []) then [] else [PGarble (length junk)]) ++ frames_of ws /\ f' = cursor.
Proof.
  intros Hlen Hb Hcur Hf. pose proof (ring_len_pos _ Hlen).
  destruct (host_walk_refines ring cursor Hlen Hb Hcur (S (length l)) f Hf (Nat.lt_succ_diag_r _)) as (out & f' & Ew & Hss & Hf' & Er).
  fold l rl in Hss, Er. exists out, f', (parse_all (S (length l)) rl l).1. split; [done|]. split; [done|].
  rewrite Er. split; [apply parse_all_cut; [by apply ring_bytes_ok|lia]|].
  intros junk ws Hj Hw El. pose proof (length_stream_of ws). apply (f_equal length) in El as Ll. rewrite length_app in Ll.
  rewrite El in Er |- *. rewrite parse_all_junk in Er |- * by (done || (rewrite length_app; lia)).
  split; [done|]. cbn [snd] in Er. apply (f_equal length) in Er. unfold host_backlog in Er. rewrite length_ring_bytes in Er.
  pose proof (Z.mod_pos_bound (cursor - f') rl ltac:(lia)) as Hm. fold rl in Er. simpl in Er.
  assert ((cursor - f') mod rl = 0) as E0 by lia. clear - E0 Hcur Hf'. fold rl in Hf'. clearbody rl.
  pose proof (Z.div_mod (cursor - f') rl ltac:(lia)) as Hd. rewrite E0 in Hd. set (q := (cursor - f') / rl) in *.
  assert (q = 0 \/ q <= -1 \/ 1 <= q) as [Hq|[Hq|Hq]] by lia; nia.
Qed.

(** Junk, then a PING status from servo 5 across the seam of a sixteen-byte ring. *)
Definition host_demo_frame : list Z := wire_bytes 5 (Inst_status RcOk false) [7; 0; 1].
Definition host_demo_ring : list Z := drop 5 host_demo_frame ++ replicate 5 255 ++ [170; 187] ++ take 5 host_demo_frame.

Lemma host_walk_accounts_witness :
  exists out, host_walk 12 9 host_demo_ring 4 = Some (out, 4) /\
    Forall2 same_step out [PGarble 2; PFrame 5 (Inst_status RcOk false) [7; 0; 1]].
Proof.
  destruct (host_walk_accounts host_demo_ring 4 9) as (out & f' & ps & Ew & Hss & _ & Hex).
  - exists 4. split; [lia|reflexivity].
  - vm_compute. repeat constructor; congruence.
  - vm_compute. split; congruence.
  - vm_compute. split; congruence.
  - destruct (Hex [170; 187] [(5, Inst_status RcOk false, [7; 0; 1])]) as [-> ->].
    + repeat constructor; lia.
    + repeat constructor; vm_compute; congruence.
    + reflexivity.
    + exists out. split; [exact Ew|exact Hss].
Defined.
