(* ===== verification/HostShape.v ===== *)
(** * Exchange validation and await shapes (firmware/lib/host/src/engine/shape.rs)

    Before anything touches the wire the host parses its own instruction the way
    a servo will and derives how many statuses to wait for.  The theorem ties
    that plan to the servo: a frame the host lets out is one every addressed
    servo understands, and a servo may answer exactly when, and in the slot in
    which, the host waits for it. *)

From S2P Require Import Prelude FrameBytes Wire Frame Group Build Stage Table Regions Persist Dispatch Decode.

Inductive InvalidReason := IrBadId | IrBadInst | IrBadPayload | IrTooLong.
Inductive Replies := RpNone | RpSingle | RpChain (n : Z) | RpCollect.
#[export] Instance Replies_eq_dec : EqDecision Replies.
Proof. solve_decision. Defined.

Record Shape := mkShape {
  sh_replies : Replies; sh_reply_footprint : Z; sh_train : option (Z * Z); sh_slow : bool }.

Definition MAX_REPLY : Z := u16 (footprint 255).
Definition ACK_REPLY : Z := u16 (footprint 3).
Definition PING_REPLY : Z := u16 (footprint 6).
Definition ENUM_REPLY : Z := u16 (footprint (3 + Z.of_nat UID_LEN)).

Definition Shape_plain (broadcast : bool) (reply_footprint : Z) : Shape :=
  mkShape (if broadcast then RpNone else RpSingle) reply_footprint None false.
Definition Shape_silent : Shape := mkShape RpNone 0 None false.

(** [ok_or(BadPayload)?] over a parser. *)
Definition gate {A B} (o : option A) (k : A -> result B InvalidReason) : result B InvalidReason :=
  match o with Some a => k a | None => Err IrBadPayload end.

Definition read_reply (count : Z) : Z := u16 (footprint (u8 (3 + u8 (Z.min count MAX_PAYLOAD)))).
Definition widest (l : list Z) : Z := fold_left Z.max l 0.

Definition shape_gread (inst : Inst) (pay : FrameBytes) : result Shape InvalidReason :=
  let chain slots fp := Ok (mkShape (RpChain (u8 (Z.of_nat slots))) fp None false) in
  match Inst_profile inst, Inst_per_target inst with
  | false, false => gate (GreadUniform_parse pay) (fun g =>
      chain (length (FrameBytes_bytes (gu_ids g))) (read_reply (gu_count g)))
  | false, true => gate (GreadPerTarget_parse pay) (fun g =>
      chain (length (GreadPerTarget_iter g)) (widest ((fun t => read_reply (gt_count t)) <$> GreadPerTarget_iter g)))
  | true, false => gate (GreadProfileUniform_parse pay) (fun g =>
      chain (length (FrameBytes_bytes (gpu_ids g))) MAX_REPLY)
  | true, true => gate (GreadProfilePerTarget_parse pay) (fun g =>
      chain (length (GreadProfilePerTarget_iter g)) MAX_REPLY)
  end.

(** [None] for the sub-ops the source's match has no arm for. *)
Definition shape_mgmt (pay : FrameBytes) (broadcast : bool) : option (result Shape InvalidReason) :=
  match MgmtReq_parse pay with
  | None => Some (Err IrBadPayload)
  | Some m =>
      match mr_op m with
      | MoEnum => Some (gate (EnumReq_parse (mr_args m)) (fun _ =>
          Ok (mkShape (if broadcast then RpCollect else RpSingle) ENUM_REPLY None false)))
      | MoAssign => Some (gate (AssignReq_parse (mr_args m)) (fun _ => Ok (mkShape RpSingle ACK_REPLY None false)))
      | MoCal => Some (gate (CalReq_parse (mr_args m)) (fun c =>
          if negb broadcast then Err IrBadPayload
          else Ok (mkShape RpNone 0 (Some (cr_gap_us c, cr_gaps c)) false)))
      | MoSave | MoFactory =>
          Some (if negb (FrameBytes_is_empty (mr_args m)) then Err IrBadPayload
                else let s := Shape_plain broadcast ACK_REPLY in
                     Ok (mkShape (sh_replies s) (sh_reply_footprint s) (sh_train s) true))
      | MoReboot => Some (Ok (Shape_plain broadcast ACK_REPLY))
      | MoSecInit | MoSecKey | MoSecAttest | MoSecRekey => None
      end
  end.

(** The shape by opcode, before NOREPLY. *)
Definition shape_of_op (op : Opcode) (inst : Inst) (payload : list Z) (broadcast : bool) :
    option (result Shape InvalidReason) :=
  let pay := FrameBytes_from payload in
  match op with
  | OpPing => Some (if bool_decide (payload = []) then Ok (Shape_plain broadcast PING_REPLY) else Err IrBadPayload)
  | OpRead =>
      Some (if Inst_profile inst
            then gate (ProfileReq_parse pay) (fun _ => Ok (Shape_plain broadcast MAX_REPLY))
            else gate (ReadReq_parse pay) (fun r => Ok (Shape_plain broadcast (read_reply (rr_count r)))))
  | OpWrite => Some (gate (WriteReq_parse pay) (fun _ => Ok (Shape_plain broadcast ACK_REPLY)))
  | OpCommit => Some (if bool_decide (payload = []) then Ok (Shape_plain broadcast ACK_REPLY) else Err IrBadPayload)
  | OpGread => Some (shape_gread inst pay)
  | OpGwrite =>
      Some (if Inst_per_target inst then gate (GwritePerTarget_parse pay) (fun _ => Ok Shape_silent)
            else gate (GwriteUniform_parse pay) (fun _ => Ok Shape_silent))
  | OpMgmt => shape_mgmt pay broadcast
  end.

Definition suppress (inst : Inst) (s : Shape) : Shape :=
  if Inst_noreply inst && match sh_replies s with RpChain _ => false | _ => true end
  then mkShape RpNone (sh_reply_footprint s) (sh_train s) (sh_slow s) else s.

Definition Shape_derive (id : Id) (inst : Inst) (payload : list Z) : option (result Shape InvalidReason) :=
  if Inst_is_status inst then Some (Err IrBadInst)
  else
    match Inst_opcode inst with
    | None => Some (Err IrBadInst)
    | Some op =>
        if negb (Id_is_valid id) then Some (Err IrBadId)
        else if MAX_PAYLOAD <? Z.of_nat (length payload) then Some (Err IrTooLong)
        else
          r ← shape_of_op op inst payload (Id_is_broadcast id);
          Some (result_bind r (fun s => Ok (suppress inst s)))
    end.

(** ** The plan and the servo *)

(** The first byte of each entry of a payload, [skip] giving an entry's length. *)
Fixpoint heads (skip : list Z -> nat) (fuel : nat) (l : list Z) : list Z :=
  match fuel, l with
  | S fuel', x :: _ => x :: heads skip fuel' (drop (skip l) l)
  | _, _ => []
  end.
Definition entry_heads (skip : list Z -> nat) (l : list Z) : list Z := heads skip (length l) l.

Definition is_group (inst : Inst) : bool :=
  match Inst_opcode inst with Some OpGread | Some OpGwrite => true | _ => false end.

(** The ids a group payload lists, in order (group.rs, the formats above each
    parser): uniform GREAD addr(2) count(2) id-list, per-target GREAD
    [id addr(2) count(2)]x, with PROFILE slot(1) id-list and [id slot]x, uniform
    GWRITE addr(2) count(1) [id data(count)]x, per-target GWRITE
    [id addr(2) count(1) data(count)]x. *)
Definition listed (inst : Inst) (payload : list Z) : list Id :=
  match Inst_opcode inst with
  | Some OpGread =>
      match Inst_profile inst, Inst_per_target inst with
      | false, false => drop 4 payload
      | false, true => entry_heads (fun _ => 5%nat) payload
      | true, false => drop 1 payload
      | true, true => entry_heads (fun _ => 2%nat) payload
      end
  | Some OpGwrite =>
      if Inst_per_target inst then entry_heads (fun l => (4 + Z.to_nat (nth 3 l 0%Z))%nat) payload
      else entry_heads (fun _ => (1 + Z.to_nat (nth 2 payload 0%Z))%nat) (drop 3 payload)
  | _ => []
  end.

(** What a servo may make of a frame whose plan is [sh]. *)
Definition plan_fits (sh : Shape) (inst : Inst) (payload : list Z) (id own : Id) (d : Decoded) : Prop :=
  match d with
  | DStatus => False
  | DSkip => if is_group inst then own ∉ listed inst payload else Id_addresses id own = false
  | DOwn req may slot =>
      req <> ReqUnsupported /\ may = negb (bool_decide (sh_replies sh = RpNone)) /\
      (if is_group inst then own ∈ listed inst payload else Id_addresses id own = true) /\
      match sh_replies sh with
      | RpChain n => n = Z.of_nat (length (listed inst payload)) /\ 0 <= slot < n /\ listed inst payload !! Z.to_nat slot = Some own
      | _ => slot = 0
      end
  end.

(** How replies are owed by a plain op, ENUM and ASSIGN apart. *)
Lemma plain_fits id inst payload own req fp train slow : is_group inst = false -> req <> ReqUnsupported ->
  match req with ReqEnumerate _ _ | ReqAssign _ _ => False | _ => True end ->
  plan_fits (suppress inst (mkShape (if Id_is_broadcast id then RpNone else RpSingle) fp train slow)) inst payload id own
    (if negb (Id_addresses id own) then DSkip
     else DOwn req (negb (Inst_noreply inst) &&
       (negb (Id_is_broadcast id) || match req with ReqEnumerate _ _ | ReqAssign _ _ => true | _ => false end)) 0).
Proof.
  intros Ho Hr Hk. unfold plan_fits. destruct (Id_addresses id own) eqn:Ha; cbn [negb]; rewrite Ho; [|done]. unfold suppress. cbn [sh_replies].
  assert (match req with ReqEnumerate _ _ | ReqAssign _ _ => true | _ => false end = false) as -> by (by destruct req).
  destruct (Inst_noreply inst), (Id_is_broadcast id); by split_and!.
Qed.

Lemma shape_mgmt_fits id inst payload pay g own sh : is_group inst = false -> g ≡ pay ->
  shape_mgmt pay (Id_is_broadcast id) = Some (Ok sh) ->
  plan_fits (suppress inst sh) inst payload id own
    (let req := decode_mgmt g (Id_is_broadcast id) in
     if negb (Id_addresses id own) then DSkip
     else DOwn req (negb (Inst_noreply inst) &&
       (negb (Id_is_broadcast id) || match req with ReqEnumerate _ _ | ReqAssign _ _ => true | _ => false end)) 0).
Proof.
  intros Ho Hg. unfold shape_mgmt, decode_mgmt.
  pose proof (MgmtReq_parse_spec pay) as Hp. pose proof (MgmtReq_parse_spec g) as Hq. rewrite Hg in Hq.
  destruct (FrameBytes_bytes pay) as [|b rest]; [by rewrite Hp|].
  destruct (MgmtOp_from_byte b) as [m|]; [|by rewrite Hp].
  destruct Hp as (a1 & -> & E1), Hq as (a2 & -> & E2). cbn [mr_op mr_args].
  assert (a2 ≡ a1) as Ha by (unfold equiv, FrameBytes_equiv; congruence).
  destruct m; try done; rewrite ?Ha; unfold gate.
  - destruct (EnumReq_parse a1) as [e|]; [|done]. intros [= <-].
    unfold plan_fits. destruct (Id_addresses id own) eqn:Had; cbn [negb]; rewrite Ho; [|done]. unfold suppress. cbn [sh_replies].
    destruct (Inst_noreply inst), (Id_is_broadcast id); by split_and!.
  - destruct (AssignReq_parse a1) as [e|]; [|done]. intros [= <-].
    unfold plan_fits. destruct (Id_addresses id own) eqn:Had; cbn [negb]; rewrite Ho; [|done]. unfold suppress. cbn [sh_replies].
    destruct (Inst_noreply inst), (Id_is_broadcast id); by split_and!.
  - destruct (negb _); [done|]. intros [= <-]. by eapply plain_fits.
  - intros [= <-]. by eapply plain_fits.
  - destruct (negb _); [done|]. intros [= <-]. by eapply plain_fits.
  - destruct (CalReq_parse a1) as [c|]; [|done]. destruct (Id_is_broadcast id) eqn:Eb; cbn [negb]; [|done]. intros [= <-].
    pose proof (plain_fits id inst payload own (ReqCalibrate (cr_gap_us c) (cr_gaps c)) 0
      (Some (cr_gap_us c, cr_gaps c)) false Ho ltac:(done) I) as H. by rewrite Eb in H.
Qed.

(** *** Iterators list the entries' heads *)

(** The lists an iterator can walk: each entry whole. *)
Inductive entries_ok (skip : list Z -> nat) : list Z -> Prop :=
  | entries_nil : entries_ok skip []
  | entries_cons x l : (0 < skip (x :: l) <= length (x :: l))%nat -> entries_ok skip (drop (skip (x :: l)) (x :: l)) ->
      entries_ok skip (x :: l).

Lemma iter_heads {A} (next : FrameBytes -> option (A * FrameBytes)) (idof : A -> Z) (skip : list Z -> nat) :
  (forall f x l, FrameBytes_bytes f = x :: l -> (0 < skip (x :: l) <= length (x :: l))%nat ->
     exists a g, next f = Some (a, g) /\ idof a = x /\ FrameBytes_bytes g = drop (skip (x :: l)) (x :: l)) ->
  (forall f, FrameBytes_bytes f = [] -> next f = None) ->
  forall n f, entries_ok skip (FrameBytes_bytes f) -> idof <$> iter_run next n f = heads skip n (FrameBytes_bytes f).
Proof.
  intros Hn H0 n. induction n as [|n IH]; intros f Hf; [done|]. cbn [iter_run heads].
  destruct (FrameBytes_bytes f) as [|x l] eqn:E; [by rewrite H0|]. inversion Hf as [|? ? Hs Hr]. subst.
  destruct (Hn f x l E Hs) as (a & g & -> & <- & Eg). cbn [fmap list_fmap map]. f_equal.
  change (map idof (iter_run next n g)) with (idof <$> iter_run next n g). rewrite <- Eg. apply IH. by rewrite Eg.
Qed.

(** Whole strides. *)
Lemma entries_stride k l : (0 < k)%nat -> (length l mod k = 0)%nat -> entries_ok (fun _ => k) l.
Proof.
  intros Hk. remember (length l) as n eqn:En. revert l En. induction n as [n IH] using lt_wf_ind. intros l En Hm.
  destruct l as [|x l]; [constructor|]. assert (k <= n)%nat as Hle.
  { destruct (Nat.le_gt_cases k n) as [|Hlt]; [done|]. rewrite Nat.mod_small in Hm by done. subst n. cbn in Hm. lia. }
  constructor; [by rewrite <- En|]. apply (IH (n - k)%nat); [lia|by rewrite length_drop, <- En|].
  rewrite <- (Nat.Div0.mod_add (n - k) 1 k). by replace (n - k + 1 * k)%nat with n by lia.
Qed.

Lemma sub_rest f k : (k <= FrameBytes_len f)%nat ->
  exists g, FrameBytes_sub f k (FrameBytes_len f - k) = Some g /\ FrameBytes_bytes g = drop k (FrameBytes_bytes f).
Proof.
  intros Hk. destruct (FrameBytes_sub_is_Some f k (FrameBytes_len f - k)) as [g Eg]; [lia|]. exists g. split; [done|].
  apply FrameBytes_sub_Some in Eg as [_ ->]. apply take_ge. rewrite length_drop, FrameBytes_len_spec. lia.
Qed.
Lemma u16_at_some f i : (S i < FrameBytes_len f)%nat -> is_Some (FrameBytes_u16_le_at f i).
Proof.
  intros Hi. rewrite FrameBytes_u16_le_at_spec. rewrite FrameBytes_len_spec in Hi. unfold u16_le_at.
  destruct (lookup_lt_is_Some_2 (FrameBytes_bytes f) i) as [x ->]; [lia|].
  destruct (lookup_lt_is_Some_2 (FrameBytes_bytes f) (i + 1)) as [y ->]; [lia|]. by eexists.
Qed.

(** Opens an entry of at least [k] bytes. *)
Ltac open_entry f E k :=
  match goal with H : (0 < _ <= _)%nat |- _ => pose proof H as Hle; rewrite <- E, <- FrameBytes_len_spec in Hle end;
  rewrite (proj2 (Nat.ltb_ge (FrameBytes_len f) k)) by lia; rewrite ?FrameBytes_u8_at_spec, ?E.

Lemma gread_heads f : (FrameBytes_len f mod 5 = 0)%nat ->
  gt_id <$> GreadPerTarget_iter f = entry_heads (fun _ => 5%nat) (FrameBytes_bytes f).
Proof.
  intros Hm. unfold GreadPerTarget_iter, entry_heads. rewrite FrameBytes_len_spec. apply (iter_heads _ _ (fun _ => 5%nat)).
  - clear. intros f x l E Hs. unfold GreadPerTargetIter_next. open_entry f E 5%nat.
    destruct (u16_at_some f 1) as [y ->]; [lia|]. destruct (u16_at_some f 3) as [z ->]; [lia|].
    destruct (sub_rest f 5 ltac:(lia)) as (g & -> & Eg). eexists _, g. by rewrite Eg, E.
  - intros g Eg. unfold GreadPerTargetIter_next. by rewrite FrameBytes_len_spec, Eg.
  - apply entries_stride; [lia|]. by rewrite <- FrameBytes_len_spec.
Qed.
Lemma gread_profile_heads f : (FrameBytes_len f mod 2 = 0)%nat ->
  gp_id <$> GreadProfilePerTarget_iter f = entry_heads (fun _ => 2%nat) (FrameBytes_bytes f).
Proof.
  intros Hm. unfold GreadProfilePerTarget_iter, entry_heads. rewrite FrameBytes_len_spec. apply (iter_heads _ _ (fun _ => 2%nat)).
  - clear. intros f x l E Hs. unfold GreadProfilePerTargetIter_next. open_entry f E 2%nat.
    destruct l as [|y l]; [cbn in Hs; lia|]. destruct (sub_rest f 2 ltac:(lia)) as (g & -> & Eg). eexists _, g. by rewrite Eg, E.
  - intros g Eg. unfold GreadProfilePerTargetIter_next. by rewrite FrameBytes_len_spec, Eg.
  - apply entries_stride; [lia|]. by rewrite <- FrameBytes_len_spec.
Qed.

Lemma gwrite_uniform_heads u : (FrameBytes_len (gwu_entries u) mod (1 + Z.to_nat (gwu_count u)) = 0)%nat ->
  fst <$> GwriteUniform_iter u = entry_heads (fun _ => (1 + Z.to_nat (gwu_count u))%nat) (FrameBytes_bytes (gwu_entries u)).
Proof.
  intros Hm. unfold GwriteUniform_iter, entry_heads. rewrite FrameBytes_len_spec in *. set (k := (1 + Z.to_nat (gwu_count u))%nat) in *.
  apply (iter_heads _ _ (fun _ => k)).
  - clear Hm. intros f x l E Hs. unfold GwriteUniformIter_next. open_entry f E k.
    destruct (FrameBytes_sub_is_Some f 1 (k - 1)) as [d ->]; [subst k; lia|].
    destruct (sub_rest f k ltac:(lia)) as (g & -> & Eg). eexists _, g. by rewrite Eg, E.
  - intros g Eg. unfold GwriteUniformIter_next. by rewrite FrameBytes_len_spec, Eg.
  - apply entries_stride; [subst k; lia|done].
Qed.

Local Abbreviation gw_skip := (fun l : list Z => (4 + Z.to_nat (nth 3 l 0%Z))%nat).

Lemma gwrite_heads f : entries_ok gw_skip (FrameBytes_bytes f) ->
  gw_id <$> GwritePerTarget_iter f = entry_heads gw_skip (FrameBytes_bytes f).
Proof.
  intros Hm. unfold GwritePerTarget_iter, entry_heads. rewrite FrameBytes_len_spec. apply (iter_heads _ _ gw_skip); [|  |done].
  - clear. intros f x l E Hs. unfold GwritePerTargetIter_next. open_entry f E 4%nat.
    destruct (u16_at_some f 1) as [y ->]; [lia|]. destruct l as [|l1 [|l2 [|c l]]]; [cbn in Hs; lia..|]. rewrite E in Hle. cbn [nth] in *. cbn [lookup list_lookup mbind option_bind].
    destruct (FrameBytes_sub_is_Some f 4 (Z.to_nat c)) as [d ->]; [lia|]. cbn [mbind option_bind].
    destruct (sub_rest f (4 + Z.to_nat c) ltac:(lia)) as (g & -> & Eg). eexists _, g. by rewrite Eg, E.
  - intros g Eg. unfold GwritePerTargetIter_next. by rewrite FrameBytes_len_spec, Eg.
Qed.

(** The validating walk of per-target GWRITE. *)
Lemma gwrite_walk_ok n : forall f, GwritePerTarget_walk n f = Some tt -> entries_ok gw_skip (FrameBytes_bytes f).
Proof.
  induction n as [|n IH]; intros f; cbn [GwritePerTarget_walk]; rewrite FrameBytes_is_empty_spec;
    (destruct (FrameBytes_bytes f) as [|x l] eqn:E; [constructor|]); cbn [length Nat.eqb]; [done|].
  rewrite FrameBytes_u8_at_spec, E. intros H. destruct l as [|l1 [|l2 [|c l]]]; [done..|]. cbn [lookup list_lookup mbind option_bind] in H.
  destruct (checked_sub _ _) as [m|] eqn:Em; [|done]. apply checked_sub_Some in Em as [Em ->]. cbn [mbind option_bind] in H.
  destruct (sub_rest f (4 + Z.to_nat c) Em) as (g & Eg & Bg). rewrite Eg in H. cbn [mbind option_bind] in H.
  constructor; cbn [nth]; [rewrite <- E, <- FrameBytes_len_spec; lia|]. rewrite <- E, <- Bg. by apply IH.
Qed.
Lemma gwrite_walk_same n : forall f g, f ≡ g -> GwritePerTarget_walk n f = GwritePerTarget_walk n g.
Proof.
  induction n as [|n IH]; intros f g H; cbn [GwritePerTarget_walk]; fb_rewrite H; [done|]. destruct (FrameBytes_is_empty g); [done|].
  destruct (FrameBytes_u8_at g 3) as [c|]; [|done]. cbn [mbind option_bind]. destruct (checked_sub _ _) as [m|]; [|done]. cbn [mbind option_bind].
  generalize (4 + Z.to_nat c)%nat. intros k. fb_sub H k m. by apply IH.
Qed.

(** What the parsers read, by byte positions, and that they see bytes only. *)
Lemma parse_tail k f n ids : checked_sub (FrameBytes_len f) k = Some n -> FrameBytes_sub f k n = Some ids ->
  FrameBytes_bytes ids = drop k (FrameBytes_bytes f).
Proof.
  intros [Hk ->]%checked_sub_Some Hs. destruct (sub_rest f k Hk) as (g & Eg & Bg). congruence.
Qed.
Lemma gread_uniform_ids f u : GreadUniform_parse f = Some u -> FrameBytes_bytes (gu_ids u) = drop 4 (FrameBytes_bytes f).
Proof.
  unfold GreadUniform_parse. destruct (FrameBytes_u16_le_at f 0); [|done]. destruct (FrameBytes_u16_le_at f 2); [|done]. cbn [mbind option_bind].
  destruct (checked_sub _ 4) eqn:Ec; [|done]. cbn [mbind option_bind]. destruct (FrameBytes_sub f 4 _) eqn:Es; [|done]. cbn [mbind option_bind].
  destruct (FrameBytes_is_empty _); [done|]. intros [= <-]. by eapply parse_tail.
Qed.
Lemma gread_profile_uniform_ids f u : GreadProfileUniform_parse f = Some u -> FrameBytes_bytes (gpu_ids u) = drop 1 (FrameBytes_bytes f).
Proof.
  unfold GreadProfileUniform_parse. destruct (FrameBytes_u8_at f 0); [|done]. cbn [mbind option_bind].
  destruct (checked_sub _ 1) eqn:Ec; [|done]. cbn [mbind option_bind]. destruct (FrameBytes_sub f 1 _) eqn:Es; [|done]. cbn [mbind option_bind].
  destruct (FrameBytes_is_empty _); [done|]. intros [= <-]. by eapply parse_tail.
Qed.
Lemma gwrite_uniform_ids f u : GwriteUniform_parse f = Some u ->
  gwu_count u = nth 2 (FrameBytes_bytes f) 0 /\ FrameBytes_bytes (gwu_entries u) = drop 3 (FrameBytes_bytes f) /\
  (FrameBytes_len (gwu_entries u) mod (1 + Z.to_nat (gwu_count u)) = 0)%nat.
Proof.
  unfold GwriteUniform_parse. destruct (FrameBytes_u16_le_at f 0); [|done]. cbn [mbind option_bind]. rewrite FrameBytes_u8_at_spec.
  destruct (FrameBytes_bytes f !! 2%nat) as [c|] eqn:El; [|done]. cbn [mbind option_bind]. destruct (c =? 0); [done|].
  destruct (checked_sub _ 3) eqn:Ec; [|done]. cbn [mbind option_bind]. destruct (FrameBytes_sub f 3 _) as [e|] eqn:Es; [|done]. cbn [mbind option_bind].
  destruct (Nat.eqb (FrameBytes_len e) 0); [done|]. destruct (negb _) eqn:Em; [done|]. intros [= <-]. cbn [gwu_count gwu_entries].
  split; [by rewrite (nth_lookup_Some _ _ _ _ El)|]. split; [by eapply parse_tail|]. apply negb_false_iff, Nat.eqb_eq in Em.
  by rewrite strip_stride_mod in Em by lia.
Qed.
Lemma gread_uniform_same f g : f ≡ g -> is_Some (GreadUniform_parse f) -> is_Some (GreadUniform_parse g).
Proof.
  intros H. unfold GreadUniform_parse. fb_rewrite H. destruct (FrameBytes_u16_le_at g 0); [|done]. destruct (FrameBytes_u16_le_at g 2); [|done].
  cbn [mbind option_bind]. destruct (checked_sub _ 4) as [n|]; [|done]. cbn [mbind option_bind]. fb_sub H 4%nat n.
  cbn [mbind option_bind]. match goal with E : _ ≡ _ |- _ => fb_rewrite E end. by destruct (FrameBytes_is_empty _).
Qed.
Lemma gread_profile_uniform_same f g : f ≡ g -> is_Some (GreadProfileUniform_parse f) -> is_Some (GreadProfileUniform_parse g).
Proof.
  intros H. unfold GreadProfileUniform_parse. fb_rewrite H. destruct (FrameBytes_u8_at g 0); [|done].
  cbn [mbind option_bind]. destruct (checked_sub _ 1) as [n|]; [|done]. cbn [mbind option_bind]. fb_sub H 1%nat n.
  cbn [mbind option_bind]. match goal with E : _ ≡ _ |- _ => fb_rewrite E end. by destruct (FrameBytes_is_empty _).
Qed.
Lemma gwrite_uniform_same f g : f ≡ g -> is_Some (GwriteUniform_parse f) -> is_Some (GwriteUniform_parse g).
Proof.
  intros H. unfold GwriteUniform_parse. fb_rewrite H. destruct (FrameBytes_u16_le_at g 0); [|done]. cbn [mbind option_bind].
  destruct (FrameBytes_u8_at g 2) as [c|]; [|done]. cbn [mbind option_bind]. destruct (c =? 0); [done|].
  destruct (checked_sub _ 3) as [n|]; [|done]. cbn [mbind option_bind]. fb_sub H 3%nat n.
  cbn [mbind option_bind]. match goal with E : _ ≡ _ |- _ => fb_rewrite E end. destruct (Nat.eqb _ 0); [done|]. by destruct (negb _).
Qed.

(** *** A servo looks itself up *)

Lemma find_first_None {A} (p : A -> bool) l i : find_first p i l = None -> Forall (fun x => p x = false) l.
Proof. revert i. induction l as [|x l IH]; intros i; cbn [find_first]; [constructor|]. destruct (p x) eqn:E; [done|]. constructor; eauto. Qed.

Lemma find_listed {A} (idof : A -> Id) (own : Id) l :
  match find_first (fun a => idof a =? own) 0 l with
  | Some (i, a) => (idof <$> l) !! i = Some own
  | None => own ∉ idof <$> l
  end.
Proof.
  destruct (find_first _ 0 l) as [[i a]|] eqn:E.
  - apply find_first_Some in E as (_ & Hl & Ha & _). rewrite Nat.sub_0_r in Hl. apply Z.eqb_eq in Ha. by rewrite list_lookup_fmap, Hl, <- Ha.
  - apply find_first_None in E. rewrite Forall_forall in E. intros (x & -> & Hx)%list_elem_of_fmap. specialize (E x (proj1 (list_elem_of_In _ _) Hx)). by rewrite Z.eqb_refl in E.
Qed.

(** The outcome for a GREAD: in the slot of its own entry, or not there. *)
Lemma chain_fits inst payload id own fp req i n : Inst_opcode inst = Some OpGread -> req <> ReqUnsupported ->
  n = length (listed inst payload) -> (n <= 252)%nat -> listed inst payload !! i = Some own ->
  plan_fits (suppress inst (mkShape (RpChain (u8 (Z.of_nat n))) fp None false)) inst payload id own (DOwn req true (u8 (Z.of_nat i))).
Proof.
  intros Ho Hr Hn H252 Hi. unfold plan_fits, suppress, is_group. cbn [sh_replies]. rewrite andb_false_r, Ho. cbn [sh_replies].
  pose proof (lookup_lt_Some _ _ _ Hi) as Hlt. rewrite !u8_id by lia. rewrite Nat2Z.id.
  split; [done|]. split; [done|]. split; [by eapply list_elem_of_lookup_2|]. split; [by rewrite Hn|]. split; [lia|done].
Qed.
Lemma chain_skips inst payload id own sh : Inst_opcode inst = Some OpGread -> own ∉ listed inst payload -> plan_fits sh inst payload id own DSkip.
Proof. intros Ho Hl. unfold plan_fits, is_group. by rewrite Ho. Qed.

Lemma position_listed own (ids : list Id) :
  match position own ids with
  | Some k => exists i, k = u8 (Z.of_nat i) /\ ids !! i = Some own
  | None => own ∉ ids
  end.
Proof.
  unfold position. pose proof (find_listed (fun x : Id => x) own ids) as H. rewrite (list_fmap_id (A := Id)) in H.
  unfold Id in *. by destruct (find_first _ 0 ids) as [[i x]|]; [exists i|].
Qed.

Lemma iter_run_length {S A} (next : S -> option (A * S)) n s : (length (iter_run next n s) <= n)%nat.
Proof. revert s. induction n as [|n IH]; intros s; simpl; [lia|]. destruct (next s) as [[x s']|]; simpl; [|lia]. specialize (IH s'). lia. Qed.
Lemma heads_length skip n l : (length (heads skip n l) <= n)%nat.
Proof. revert l. induction n as [|n IH]; intros l; cbn [heads]; [cbn; lia|]. destruct l; cbn [length]; [lia|]. specialize (IH (drop (skip (z :: l)) (z :: l))). lia. Qed.

Lemma shape_gread_fits id inst payload pay g own sh : Inst_opcode inst = Some OpGread -> g ≡ pay -> FrameBytes_bytes pay = payload ->
  (length payload <= 252)%nat -> shape_gread inst pay = Ok sh ->
  plan_fits (suppress inst sh) inst payload id own (decode_gread inst g own).
Proof.
  intros Ho Hg Hb Hl. assert (FrameBytes_bytes g = payload) as Hgb by (by rewrite Hg).
  unfold shape_gread, decode_gread, gate, own_read, own_read_profile.
  assert (listed inst payload = match Inst_profile inst, Inst_per_target inst with
      | false, false => drop 4 payload | false, true => entry_heads (fun _ => 5%nat) payload
      | true, false => drop 1 payload | true, true => entry_heads (fun _ => 2%nat) payload end) as HL by (unfold listed; by rewrite Ho).
  destruct (Inst_profile inst), (Inst_per_target inst).
  - unfold GreadProfilePerTarget_parse, GreadProfilePerTarget_find. fb_rewrite Hg. destruct (_ || _) eqn:Ep; [done|]. intros [= <-].
    apply orb_false_iff in Ep as [_ Hm%negb_false_iff%Nat.eqb_eq]. cbn [mbind option_bind].
    pose proof (gread_profile_heads pay Hm) as Hi. rewrite Hb, <- HL in Hi.
    pose proof (gread_profile_heads g ltac:(by rewrite (FrameBytes_len_proper _ _ Hg))) as Hi2. rewrite Hgb, <- HL in Hi2.
    pose proof (find_listed gp_id own (GreadProfilePerTarget_iter g)) as Hf. rewrite Hi2 in Hf.
    destruct (find_first _ 0 _) as [[i t]|]; cbn [mbind option_bind fst snd]; [|by apply chain_skips].
    apply chain_fits; [done|done|by rewrite <- Hi, length_fmap| |done].
    rewrite <- (length_fmap gp_id), Hi, HL. unfold entry_heads. etransitivity; [apply heads_length|done].
  - destruct (GreadProfileUniform_parse pay) as [u|] eqn:Eu; [|done]. intros [= <-].
    destruct (gread_profile_uniform_same pay g (symmetry Hg) ltac:(by eexists)) as [v Ev]. rewrite Ev.
    unfold GreadProfileUniform_slot_of. rewrite (gread_profile_uniform_ids _ _ Ev), Hgb, <- HL.
    pose proof (position_listed own (listed inst payload)) as Hp. destruct (position own _) as [k|]; [|by apply chain_skips].
    destruct Hp as (i & -> & Hi). rewrite (gread_profile_uniform_ids _ _ Eu), Hb, <- HL.
    apply chain_fits; [done|done|done| |done]. rewrite HL, length_drop. lia.
  - unfold GreadPerTarget_parse, GreadPerTarget_find. fb_rewrite Hg. destruct (_ || _) eqn:Ep; [done|]. intros [= <-].
    apply orb_false_iff in Ep as [_ Hm%negb_false_iff%Nat.eqb_eq]. cbn [mbind option_bind].
    pose proof (gread_heads pay Hm) as Hi. rewrite Hb, <- HL in Hi.
    pose proof (gread_heads g ltac:(by rewrite (FrameBytes_len_proper _ _ Hg))) as Hi2. rewrite Hgb, <- HL in Hi2.
    pose proof (find_listed gt_id own (GreadPerTarget_iter g)) as Hf. rewrite Hi2 in Hf.
    destruct (find_first _ 0 _) as [[i t]|]; cbn [mbind option_bind fst snd]; [|by apply chain_skips].
    apply chain_fits; [done|done|by rewrite <- Hi, length_fmap| |done].
    rewrite <- (length_fmap gt_id), Hi, HL. unfold entry_heads. etransitivity; [apply heads_length|done].
  - destruct (GreadUniform_parse pay) as [u|] eqn:Eu; [|done]. intros [= <-].
    destruct (gread_uniform_same pay g (symmetry Hg) ltac:(by eexists)) as [v Ev]. rewrite Ev.
    unfold GreadUniform_slot_of. rewrite (gread_uniform_ids _ _ Ev), Hgb, <- HL.
    pose proof (position_listed own (listed inst payload)) as Hp. destruct (position own _) as [k|]; [|by apply chain_skips].
    destruct Hp as (i & -> & Hi). rewrite (gread_uniform_ids _ _ Eu), Hb, <- HL.
    apply chain_fits; [done|done|done| |done]. rewrite HL, length_drop. lia.
Qed.

(** A GWRITE is taken by the servos it lists, and answered by none. *)
Lemma gwrite_fits id inst payload pay g own s : Inst_opcode inst = Some OpGwrite -> g ≡ pay -> FrameBytes_bytes pay = payload ->
  (if Inst_per_target inst then gate (GwritePerTarget_parse pay) (fun _ => Ok Shape_silent)
   else gate (GwriteUniform_parse pay) (fun _ => Ok Shape_silent)) = Ok s ->
  plan_fits (suppress inst s) inst payload id own (decode_gwrite inst g own).
Proof.
  intros Ho Hg Hb Hs. assert (FrameBytes_bytes g = payload) as Hgb by (by rewrite Hg).
  assert (s = Shape_silent) as -> by (unfold gate in Hs; repeat case_match; by simplify_eq).
  assert (sh_replies (suppress inst Shape_silent) = RpNone) as Er by (unfold suppress; by destruct (Inst_noreply inst)).
  assert (forall req, req <> ReqUnsupported -> own ∈ listed inst payload -> plan_fits (suppress inst Shape_silent) inst payload id own (DOwn req false 0)) as Hown
    by (intros req Hr Hi; unfold plan_fits, is_group; rewrite Er, Ho; by split_and!).
  assert (own ∉ listed inst payload -> plan_fits (suppress inst Shape_silent) inst payload id own DSkip) as Hskip
    by (unfold plan_fits, is_group; by rewrite Ho).
  unfold decode_gwrite, own_write. unfold listed in Hown, Hskip. rewrite Ho in Hown, Hskip. destruct (Inst_per_target inst).
  - unfold GwritePerTarget_parse in *. fb_rewrite Hg. destruct (FrameBytes_is_empty pay); [done|]. rewrite (gwrite_walk_same _ g pay Hg).
    destruct (GwritePerTarget_walk _ pay) as [[]|] eqn:Ew; [|done]. cbn [mbind option_bind]. unfold GwritePerTarget_find.
    pose proof (gwrite_heads g ltac:(rewrite Hgb, <- Hb; by eapply gwrite_walk_ok)) as Hi. rewrite Hgb in Hi.
    pose proof (find_listed gw_id own (GwritePerTarget_iter g)) as Hf. rewrite Hi in Hf.
    destruct (find_first _ 0 _) as [[i t]|]; cbn [mbind option_bind]; [apply Hown; [done|by eapply list_elem_of_lookup_2]|by apply Hskip].
  - destruct (GwriteUniform_parse pay) as [u|] eqn:Eu; [|done].
    destruct (gwrite_uniform_same pay g (symmetry Hg) ltac:(by eexists)) as [v Ev]. rewrite Ev.
    destruct (gwrite_uniform_ids _ _ Ev) as (Ec & Ee & Em). pose proof (gwrite_uniform_heads v Em) as Hi. rewrite Ec, Ee, Hgb in Hi.
    unfold GwriteUniform_find. pose proof (find_listed fst own (GwriteUniform_iter v)) as Hf. rewrite Hi in Hf.
    destruct (find_first _ 0 _) as [[i t]|]; cbn [mbind option_bind]; [apply Hown; [done|by eapply list_elem_of_lookup_2]|by apply Hskip].
Qed.

(** C22: the host never waits for an answer no servo gives, nor misses one a
    servo gives.  Whatever instruction and payload the host's gate accepts, in
    the frame it then sends and however that frame lands in a servo's ring: no
    servo finds a status or an unsupported request in it; a plain frame is taken
    by exactly the servos its id addresses, a group frame by exactly the servos
    whose ids its payload lists; a servo that takes it may reply exactly when the
    plan expects replies; and its reply slot is the first one, or, for a status
    chain, the position of its own id in the list, the plan counting as many
    slots as the list has ids. *)
Theorem plan_agrees id inst payload sh f crc own :
  Shape_derive id inst payload = Some (Ok sh) -> FrameBytes_bytes f = framed id inst payload crc ->
  plan_fits sh inst payload id own (decode f own).
Proof.
  unfold Shape_derive. destruct (Inst_is_status inst) eqn:Es; [done|]. destruct (Inst_opcode inst) as [op|] eqn:Ho; [|done].
  destruct (negb (Id_is_valid id)); [done|]. destruct (Z.ltb_spec MAX_PAYLOAD (Z.of_nat (length payload))) as [|Hl]; [done|].
  unfold MAX_PAYLOAD in Hl. destruct (shape_of_op _ _ _ _) as [[s|]|] eqn:Eshape; [|done..]. cbn. intros [= <-] Ef.
  destruct (decode_framed f id inst payload crc own op Ef ltac:(lia) Es Ho) as (g & Eg & ->).
  set (pay := FrameBytes_from payload) in *.
  assert (FrameBytes_bytes pay = payload) as Hb by apply app_nil_r.
  assert (g ≡ pay) as Hg by (unfold equiv, FrameBytes_equiv; by rewrite Hb).
  assert (match op with OpGread | OpGwrite => True | _ => is_group inst = false end) as Hgr by (unfold is_group; rewrite Ho; by destruct op).
  destruct op; cbn [shape_of_op] in Eshape; unfold decode_plain, decode_plain_req in *; fold pay in Eshape.
  - case_bool_decide; [|done]. simplify_eq. by eapply plain_fits.
  - unfold gate in Eshape. destruct (Inst_profile inst); rewrite Hg.
    + destruct (ProfileReq_parse pay) as [r|]; [|done]. simplify_eq. by eapply plain_fits.
    + destruct (ReadReq_parse pay) as [r|]; [|done]. simplify_eq. by eapply plain_fits.
  - unfold gate in Eshape. pose proof (WriteReq_parse_spec pay) as H1. pose proof (WriteReq_parse_spec g) as H2. rewrite Hg in H2.
    destruct (FrameBytes_bytes pay) as [|? [|? ?]]; [by rewrite H1 in Eshape..|].
    destruct H1 as (? & E1 & _), H2 as (? & -> & _). rewrite E1 in Eshape. simplify_eq. by eapply plain_fits.
  - case_bool_decide; [|done]. simplify_eq. by eapply plain_fits.
  - injection Eshape as Eshape. apply (shape_gread_fits id inst payload pay g own s); [done|done|done|lia|done].
  - injection Eshape as Eshape. by apply (gwrite_fits id inst payload pay g own s).
  - by eapply shape_mgmt_fits.
Qed.

(** GREAD of two servos: the second one answers in slot 1 of 2, a third one skips it. *)
Lemma plan_agrees_witness :
  let fits own := plan_fits (mkShape (RpChain 2) 10 None false) (Inst_instruction OpGread 0) [0; 2; 4; 0; 5; 9] 254 own
    (decode (FB [0; 254; 9; 80; 0] [2; 4; 0; 5; 9; 0; 0]) own) in
  fits 9 /\ fits 6.
Proof.
  split; apply (plan_agrees 254 (Inst_instruction OpGread 0) [0; 2; 4; 0; 5; 9] _ _ [0; 0]); reflexivity.
Defined.

(** A tag trailer is payload to the gate: an authenticated COMMIT is refused. *)
Example tagged_commit_refused :
  Shape_derive Id_BROADCAST (Inst_instruction OpCommit FLAG_AUTH) [1; 17; 34; 51; 68] = Some (Err IrBadPayload).
Proof. reflexivity. Qed.
