(* ===== verification/HostEngine.v ===== *)
(** * The host engine (firmware/lib/host/src/engine/mod.rs, wireop.rs)

    [HostBus] schedules the wire for the adapter: one outstanding command or
    instrument operation, every deadline kept here.  [HostBus_submit] accepts a
    command, the interrupt handlers [HostBus_on_tx_complete] and
    [HostBus_on_deadline] advance it, and [HostBus_poll] yields events: statuses,
    then one terminal.  Handlers run in the monad of [Trace]; the hardware (tick,
    ring, edge capture) is the class [HostProviders]. *)

From S2P Require Import Prelude Trace Crc FrameBytes Wire Frame Group Ring HostFramer HostShape.
Local Open Scope trace_scope.

(** ** Providers (traits.rs) *)

Class HostProviders (E : Type) := {
  H_TICKS_PER_US : Z;
  h_bytes : E -> list Z;
  h_cursor : E -> Z * E;
  h_now : E -> Z * E;
  h_drain_falls : nat -> E -> list Z * E;
  h_drain_rises : nat -> E -> list Z * E;
  h_overflow : E -> bool;
  h_edges_reset : E -> E;
}.

(** The calls on the wire, the compare and the baud port. *)
Inductive HostEv :=
| HeClaim | HeBreak | HeSend (span : list Z) | HeHoldLow | HeRelease
| HeSet (at_ : Z) | HeCancel | HeBaud (rate : BaudRate) | HeBaudRaw (bps : Z).

(** ** Vocabulary *)

Inductive Command :=
| CmdExchange (id : Id) (inst : Inst) (payload : list Z)
| CmdRescue
| CmdHostBaud (rate : BaudRate)
| CmdSetResponseDeadline (us : Z).

Inductive SubmitError := SeBusy | SeInvalid (r : InvalidReason).

Record WireEvidence := mkEvidence { we_statuses : Z; we_garble : Z; we_garble_after_last_frame : bool }.
Definition WireEvidence_default : WireEvidence := mkEvidence 0 0 false.

Inductive Outcome := OcSent | OcComplete | OcTimeout (slot : Z).
Record Terminal := mkTerminal { tm_outcome : Outcome; tm_tick : Z; tm_evidence : WireEvidence }.

Inductive HostEvent :=
| HevStatus (slot : Z) (id : Id) (inst : Inst) (payload : FrameBytes)
| HevDone (t : Terminal)
| HevWireDone (tick : Z).

Inductive HostState :=
| HIdle | HPacing | HTransmitting | HTraining (left gap : Z) | HRescueHold | HAwaiting
| HWireTx | HWirePulse | HWireTrain (left gap : Z).

Definition RESCUE_HOLD_US : Z := 1000.
Definition WINDOW_MARGIN_BYTES : Z := 16.
Definition SLOW_OP_EXTRA_US : Z := 50000.
Definition WIRE_CAP : nat := 640.

Inductive WireMode := WmSingle | WmStream.
Record WireJob := mkJob {
  wj_buf : list Z; wj_len : nat; wj_cursor : nat; wj_mode : WireMode; wj_train : option (Z * Z) }.
Definition WireJob_new : WireJob := mkJob (replicate WIRE_CAP 0) 0 0 WmSingle None.

(** The catalog rate nearest [bps]; the first one on a tie. *)
Definition nearest_rate (bps : Z) : BaudRate :=
  let d r := Z.abs (BaudRate_as_hz r - bps) in
  let pick a b := if d b <? d a then b else a in
  pick (pick (pick B500000 B1000000) B2000000) B3000000.

(** Ring bytes no verdict has consumed. *)
Definition unresolved (anchor cursor len : Z) : Z := u16 ((cursor + len - anchor) mod len).

Section host.
Context {E : Type} {HP : HostProviders E}.

Record HostBus := mkHost {
  hb_env : E;
  hb_framer : HostFramer;
  hb_buf : FrameBuf;
  hb_state : HostState;
  hb_plan : option Shape;
  hb_rate : BaudRate;
  hb_response_deadline_us : Z;
  hb_pace_until : option Z;
  hb_deadline_at : Z;
  hb_window : Z;
  hb_got : Z;
  hb_last_cursor : Z;
  hb_evidence : WireEvidence;
  hb_pending_done : option Terminal;
  hb_wire_job : WireJob;
  hb_pending_wire_done : option Z }.

Definition set_hb_env (x : E) (b : HostBus) : HostBus :=
  mkHost x (hb_framer b) (hb_buf b) (hb_state b) (hb_plan b) (hb_rate b)
    (hb_response_deadline_us b) (hb_pace_until b) (hb_deadline_at b) (hb_window b) (hb_got b)
    (hb_last_cursor b) (hb_evidence b) (hb_pending_done b) (hb_wire_job b) (hb_pending_wire_done
    b).
Definition set_hb_framer (x : HostFramer) (b : HostBus) : HostBus :=
  mkHost (hb_env b) x (hb_buf b) (hb_state b) (hb_plan b) (hb_rate b) (hb_response_deadline_us
    b) (hb_pace_until b) (hb_deadline_at b) (hb_window b) (hb_got b) (hb_last_cursor b)
    (hb_evidence b) (hb_pending_done b) (hb_wire_job b) (hb_pending_wire_done b).
Definition set_hb_buf (x : FrameBuf) (b : HostBus) : HostBus :=
  mkHost (hb_env b) (hb_framer b) x (hb_state b) (hb_plan b) (hb_rate b)
    (hb_response_deadline_us b) (hb_pace_until b) (hb_deadline_at b) (hb_window b) (hb_got b)
    (hb_last_cursor b) (hb_evidence b) (hb_pending_done b) (hb_wire_job b) (hb_pending_wire_done
    b).
Definition set_hb_state (x : HostState) (b : HostBus) : HostBus :=
  mkHost (hb_env b) (hb_framer b) (hb_buf b) x (hb_plan b) (hb_rate b) (hb_response_deadline_us
    b) (hb_pace_until b) (hb_deadline_at b) (hb_window b) (hb_got b) (hb_last_cursor b)
    (hb_evidence b) (hb_pending_done b) (hb_wire_job b) (hb_pending_wire_done b).
Definition set_hb_plan (x : option Shape) (b : HostBus) : HostBus :=
  mkHost (hb_env b) (hb_framer b) (hb_buf b) (hb_state b) x (hb_rate b) (hb_response_deadline_us
    b) (hb_pace_until b) (hb_deadline_at b) (hb_window b) (hb_got b) (hb_last_cursor b)
    (hb_evidence b) (hb_pending_done b) (hb_wire_job b) (hb_pending_wire_done b).
Definition set_hb_rate (x : BaudRate) (b : HostBus) : HostBus :=
  mkHost (hb_env b) (hb_framer b) (hb_buf b) (hb_state b) (hb_plan b) x (hb_response_deadline_us
    b) (hb_pace_until b) (hb_deadline_at b) (hb_window b) (hb_got b) (hb_last_cursor b)
    (hb_evidence b) (hb_pending_done b) (hb_wire_job b) (hb_pending_wire_done b).
Definition set_hb_response_deadline_us (x : Z) (b : HostBus) : HostBus :=
  mkHost (hb_env b) (hb_framer b) (hb_buf b) (hb_state b) (hb_plan b) (hb_rate b) x
    (hb_pace_until b) (hb_deadline_at b) (hb_window b) (hb_got b) (hb_last_cursor b)
    (hb_evidence b) (hb_pending_done b) (hb_wire_job b) (hb_pending_wire_done b).
Definition set_hb_pace_until (x : option Z) (b : HostBus) : HostBus :=
  mkHost (hb_env b) (hb_framer b) (hb_buf b) (hb_state b) (hb_plan b) (hb_rate b)
    (hb_response_deadline_us b) x (hb_deadline_at b) (hb_window b) (hb_got b) (hb_last_cursor b)
    (hb_evidence b) (hb_pending_done b) (hb_wire_job b) (hb_pending_wire_done b).
Definition set_hb_deadline_at (x : Z) (b : HostBus) : HostBus :=
  mkHost (hb_env b) (hb_framer b) (hb_buf b) (hb_state b) (hb_plan b) (hb_rate b)
    (hb_response_deadline_us b) (hb_pace_until b) x (hb_window b) (hb_got b) (hb_last_cursor b)
    (hb_evidence b) (hb_pending_done b) (hb_wire_job b) (hb_pending_wire_done b).
Definition set_hb_window (x : Z) (b : HostBus) : HostBus :=
  mkHost (hb_env b) (hb_framer b) (hb_buf b) (hb_state b) (hb_plan b) (hb_rate b)
    (hb_response_deadline_us b) (hb_pace_until b) (hb_deadline_at b) x (hb_got b)
    (hb_last_cursor b) (hb_evidence b) (hb_pending_done b) (hb_wire_job b) (hb_pending_wire_done
    b).
Definition set_hb_got (x : Z) (b : HostBus) : HostBus :=
  mkHost (hb_env b) (hb_framer b) (hb_buf b) (hb_state b) (hb_plan b) (hb_rate b)
    (hb_response_deadline_us b) (hb_pace_until b) (hb_deadline_at b) (hb_window b) x
    (hb_last_cursor b) (hb_evidence b) (hb_pending_done b) (hb_wire_job b) (hb_pending_wire_done
    b).
Definition set_hb_last_cursor (x : Z) (b : HostBus) : HostBus :=
  mkHost (hb_env b) (hb_framer b) (hb_buf b) (hb_state b) (hb_plan b) (hb_rate b)
    (hb_response_deadline_us b) (hb_pace_until b) (hb_deadline_at b) (hb_window b) (hb_got b) x
    (hb_evidence b) (hb_pending_done b) (hb_wire_job b) (hb_pending_wire_done b).
Definition set_hb_evidence (x : WireEvidence) (b : HostBus) : HostBus :=
  mkHost (hb_env b) (hb_framer b) (hb_buf b) (hb_state b) (hb_plan b) (hb_rate b)
    (hb_response_deadline_us b) (hb_pace_until b) (hb_deadline_at b) (hb_window b) (hb_got b)
    (hb_last_cursor b) x (hb_pending_done b) (hb_wire_job b) (hb_pending_wire_done b).
Definition set_hb_pending_done (x : option Terminal) (b : HostBus) : HostBus :=
  mkHost (hb_env b) (hb_framer b) (hb_buf b) (hb_state b) (hb_plan b) (hb_rate b)
    (hb_response_deadline_us b) (hb_pace_until b) (hb_deadline_at b) (hb_window b) (hb_got b)
    (hb_last_cursor b) (hb_evidence b) x (hb_wire_job b) (hb_pending_wire_done b).
Definition set_hb_wire_job (x : WireJob) (b : HostBus) : HostBus :=
  mkHost (hb_env b) (hb_framer b) (hb_buf b) (hb_state b) (hb_plan b) (hb_rate b)
    (hb_response_deadline_us b) (hb_pace_until b) (hb_deadline_at b) (hb_window b) (hb_got b)
    (hb_last_cursor b) (hb_evidence b) (hb_pending_done b) x (hb_pending_wire_done b).
Definition set_hb_pending_wire_done (x : option Z) (b : HostBus) : HostBus :=
  mkHost (hb_env b) (hb_framer b) (hb_buf b) (hb_state b) (hb_plan b) (hb_rate b)
    (hb_response_deadline_us b) (hb_pace_until b) (hb_deadline_at b) (hb_window b) (hb_got b)
    (hb_last_cursor b) (hb_evidence b) (hb_pending_done b) (hb_wire_job b) x.

Definition H (A : Type) : Type := TM HostBus HostEv A.

Definition h_now_ : H Z := fun b => let '(t, e) := h_now (hb_env b) in Some (t, set_hb_env e b, []).
Definition h_cursor_ : H Z := fun b => let '(c, e) := h_cursor (hb_env b) in Some (c, set_hb_env e b, []).
Definition h_ring_ : H (list Z) := bget (fun b => h_bytes (hb_env b)).

Definition HostBus_new (env : E) (rate : BaudRate) : HostBus :=
  mkHost env HostFramer_new (FrameBuf_new 264) HIdle None rate DEFAULT_RESPONSE_DEADLINE_US None 0 0 0 0
    WireEvidence_default None WireJob_new None.

(** ** Timing *)

Definition HostBus_byte_ticks (b : HostBus) : Z := u32 (H_TICKS_PER_US * 10000000) / BaudRate_as_hz (hb_rate b).

Definition HostBus_window_for (plan : Shape) (b : HostBus) : Z :=
  let t := H_TICKS_PER_US in
  let byte := HostBus_byte_ticks b in
  let w := u32 (u32 (u32 (hb_response_deadline_us b * t) + u32 (sh_reply_footprint plan * byte)) +
                u32 (WINDOW_MARGIN_BYTES * byte)) in
  let w := match sh_replies plan with RpCollect => u32 (w + u32 (ENUM_REPLY_SLOTS * byte)) | _ => w end in
  if sh_slow plan then u32 (w + u32 (SLOW_OP_EXTRA_US * t)) else w.

Definition HostBus_arm (at_ : Z) : H unit := bmod (set_hb_deadline_at at_) ;; bout (HeSet at_).

Definition HostBus_pace : H unit :=
  do byte <- bget HostBus_byte_ticks;
  do now <- h_now_;
  bmod (set_hb_pace_until (Some (u32 (now + u32 (STARVE_HORIZON_BYTE_TIMES * byte))))).

(** ** Closing and starting a command *)

Definition HostBus_finish (outcome : Outcome) : H unit :=
  do g <- bget (fun b => we_garble (hb_evidence b));
  (if 0 <? g then HostBus_pace else bret tt) ;;
  do now <- h_now_;
  bmod (fun b => set_hb_pending_done (Some (mkTerminal outcome now (hb_evidence b))) b) ;;
  bmod (set_hb_evidence WireEvidence_default) ;;
  bmod (set_hb_state HIdle) ;;
  bmod (set_hb_plan None).

Definition HostBus_start_tx : H unit :=
  bout HeClaim ;;
  bout HeBreak ;;
  do buf <- bget hb_buf;
  do frame <- blift (FrameBuf_frame buf);
  do span <- blift (get_range frame 1 (length frame));
  bout (HeSend span) ;;
  bmod (set_hb_state HTransmitting).

(** Busy: a command or wire op is under way, or its terminal is unread. *)
Definition host_busy (b : HostBus) : bool :=
  match hb_state b with HIdle => false | _ => true end ||
  match hb_pending_done b with Some _ => true | None => false end ||
  match hb_pending_wire_done b with Some _ => true | None => false end.

Definition submit_exchange (id : Id) (inst : Inst) (payload : list Z) : H (result unit SubmitError) :=
  do shape <- blift (Shape_derive id inst payload);
  match shape with
  | Err r => bret (Err (SeInvalid r))
  | Ok plan =>
      do buf <- bget hb_buf;
      do built <- blift (build_frame buf id inst payload);
      bmod (set_hb_buf built.1) ;;
      bmod (set_hb_plan (Some plan)) ;;
      do cursor <- h_cursor_;
      bmod (fun b => set_hb_framer (HostFramer_resync (hb_framer b) cursor) b) ;;
      do until <- bget hb_pace_until;
      bmod (set_hb_pace_until None) ;;
      match until with
      | Some u =>
          do now <- h_now_;
          if negb (tick_reached now u) then bmod (set_hb_state HPacing) ;; HostBus_arm u
          else HostBus_start_tx
      | None => HostBus_start_tx
      end ;;
      bret (Ok tt)
  end.

Definition HostBus_submit (cmd : Command) : H (result unit SubmitError) :=
  do busy <- bget host_busy;
  if busy : bool then bret (Err SeBusy)
  else
    bmod (set_hb_evidence WireEvidence_default) ;;
    match cmd with
    | CmdSetResponseDeadline us =>
        bmod (set_hb_response_deadline_us us) ;; HostBus_finish OcComplete ;; bret (Ok tt)
    | CmdHostBaud rate =>
        bout (HeBaud rate) ;; bmod (set_hb_rate rate) ;; HostBus_pace ;; HostBus_finish OcComplete ;; bret (Ok tt)
    | CmdRescue =>
        bout HeClaim ;; bout HeHoldLow ;; bmod (set_hb_state HRescueHold) ;;
        do now <- h_now_;
        HostBus_arm (u32 (now + u32 (RESCUE_HOLD_US * H_TICKS_PER_US))) ;; bret (Ok tt)
    | CmdExchange id inst payload => submit_exchange id inst payload
    end.

(** ** Instrument wire operations (wireop.rs) *)

Definition upd_job (f : WireJob -> WireJob) : H unit := bmod (fun b => set_hb_wire_job (f (hb_wire_job b)) b).

(** Load [bytes] as one break-framed span and send it. *)
Definition wire_single (bytes : list Z) (train : option (Z * Z)) : H (result unit SubmitError) :=
  upd_job (fun j => mkJob (splice 0 bytes (wj_buf j)) (length bytes) (wj_cursor j) WmSingle train) ;;
  bout HeClaim ;;
  bout HeBreak ;;
  do j <- bget hb_wire_job;
  do span <- blift (get_range (wj_buf j) 0 (wj_len j));
  bout (HeSend span) ;;
  bmod (set_hb_state HWireTx) ;;
  bret (Ok tt).

Definition HostBus_wire_send (bytes : list Z) : H (result unit SubmitError) :=
  do busy <- bget host_busy;
  if busy : bool then bret (Err SeBusy)
  else if bool_decide (bytes = []) then bret (Err (SeInvalid IrBadPayload))
  else if Nat.ltb WIRE_CAP (length bytes) then bret (Err (SeInvalid IrTooLong))
  else wire_single bytes None.

Definition HostBus_wire_train (announce : list Z) (gap_us breaks : Z) : H (result unit SubmitError) :=
  do busy <- bget host_busy;
  if busy : bool then bret (Err SeBusy)
  else if bool_decide (announce = []) || (gap_us =? 0) || (breaks =? 0) then bret (Err (SeInvalid IrBadPayload))
  else if Nat.ltb WIRE_CAP (length announce) then bret (Err (SeInvalid IrTooLong))
  else wire_single announce (Some (breaks, u32 (gap_us * H_TICKS_PER_US))).

Definition HostBus_wire_baud (bps : Z) : H (result unit SubmitError) :=
  do busy <- bget host_busy;
  if busy : bool then bret (Err SeBusy)
  else if bps =? 0 then bret (Err (SeInvalid IrBadPayload))
  else
    bout (HeBaudRaw bps) ;;
    bmod (set_hb_rate (nearest_rate bps)) ;;
    HostBus_pace ;;
    do now <- h_now_;
    bmod (set_hb_pending_wire_done (Some now)) ;;
    bret (Ok tt).

(** The geometry check of a burst: every length prefix is non-zero and in
    range.  One turn per byte is enough. *)
Fixpoint burst_ok (fuel : nat) (stream : list Z) (at_ : nat) : bool :=
  match fuel with
  | O => false
  | S fuel' =>
      match stream !! at_ with
      | None => negb (Nat.eqb at_ 0)
      | Some l =>
          let flen := Z.to_nat l in
          if Nat.eqb flen 0 || Nat.ltb (length stream) (at_ + 1 + flen) then false
          else burst_ok fuel' stream (at_ + 1 + flen)
      end
  end.

Definition wire_next_frame : H unit :=
  do j <- bget hb_wire_job;
  let at_ := wj_cursor j in
  do l <- blift (wj_buf j !! at_);
  let flen := Z.to_nat l in
  upd_job (fun j => mkJob (wj_buf j) (wj_len j) (at_ + 1 + flen) (wj_mode j) (wj_train j)) ;;
  bout HeBreak ;;
  do span <- blift (get_range (wj_buf j) (at_ + 1) (at_ + 1 + flen));
  bout (HeSend span).

Definition HostBus_wire_burst (stream : list Z) : H (result unit SubmitError) :=
  do busy <- bget host_busy;
  if busy : bool then bret (Err SeBusy)
  else if Nat.ltb WIRE_CAP (length stream) then bret (Err (SeInvalid IrTooLong))
  else if negb (burst_ok (S (length stream)) stream 0) then bret (Err (SeInvalid IrBadPayload))
  else
    upd_job (fun j => mkJob (splice 0 stream (wj_buf j)) (length stream) 0 WmStream (wj_train j)) ;;
    bout HeClaim ;;
    wire_next_frame ;;
    bmod (set_hb_state HWireTx) ;;
    bret (Ok tt).

Definition HostBus_wire_pulse_low (us : Z) : H (result unit SubmitError) :=
  do busy <- bget host_busy;
  if busy : bool then bret (Err SeBusy)
  else if us =? 0 then bret (Err (SeInvalid IrBadPayload))
  else
    bout HeClaim ;; bout HeHoldLow ;; bmod (set_hb_state HWirePulse) ;;
    do now <- h_now_;
    HostBus_arm (u32 (now + u32 (us * H_TICKS_PER_US))) ;;
    bret (Ok tt).

Definition wire_finish : H unit :=
  bout HeRelease ;;
  bmod (set_hb_state HIdle) ;;
  do now <- h_now_;
  bmod (set_hb_pending_wire_done (Some now)).

Definition wire_advance : H unit :=
  do j <- bget hb_wire_job;
  upd_job (fun j => mkJob (wj_buf j) (wj_len j) (wj_cursor j) (wj_mode j) None) ;;
  match wj_train j with
  | Some (n, gap) =>
      bmod (set_hb_state (HWireTrain n gap)) ;;
      do now <- h_now_;
      HostBus_arm (u32 (now + gap))
  | None =>
      match wj_mode j with
      | WmStream => if Nat.ltb (wj_cursor j) (wj_len j) then wire_next_frame else wire_finish
      | WmSingle => wire_finish
      end
  end.

(** ** Interrupts *)

Definition HostBus_on_tx_complete : H unit :=
  do st <- bget hb_state;
  match st with
  | HWireTx => wire_advance
  | HTransmitting =>
      do plan <- bget hb_plan;
      match plan with
      | None => bout HeRelease ;; HostBus_finish OcSent
      | Some plan =>
          match sh_train plan with
          | Some (gap_us, gaps) =>
              let gap := u32 (gap_us * H_TICKS_PER_US) in
              bmod (set_hb_state (HTraining (u8 (gaps + 1)) gap)) ;;
              do now <- h_now_;
              HostBus_arm (u32 (now + gap))
          | None =>
              if bool_decide (sh_replies plan = RpNone) then bout HeRelease ;; HostBus_finish OcSent
              else
                bout HeRelease ;;
                bmod (fun b => set_hb_window (HostBus_window_for plan b) b) ;;
                bmod (set_hb_got 0) ;;
                do cursor <- h_cursor_;
                bmod (set_hb_last_cursor cursor) ;;
                bmod (set_hb_state HAwaiting) ;;
                do now <- h_now_;
                do w <- bget hb_window;
                HostBus_arm (u32 (now + w))
          end
      end
  | _ => bret tt
  end.

(** Move the compare one slot along the train's grid. *)
Definition next_slot (gap : Z) : H unit :=
  bmod (fun b => set_hb_deadline_at (u32 (hb_deadline_at b + gap)) b) ;;
  do at_ <- bget hb_deadline_at;
  bout (HeSet at_).

Definition HostBus_on_deadline : H unit :=
  do st <- bget hb_state;
  match st with
  | HTraining n gap =>
      bout HeBreak ;;
      if n <=? 1 then bout HeRelease ;; HostBus_finish OcSent
      else bmod (set_hb_state (HTraining (n - 1) gap)) ;; next_slot gap
  | HWireTrain n gap =>
      bout HeBreak ;;
      if n <=? 1 then wire_finish
      else bmod (set_hb_state (HWireTrain (n - 1) gap)) ;; next_slot gap
  | _ => bret tt
  end.

(** ** Polling *)

Definition garble_evidence (n : Z) (v : WireEvidence) : WireEvidence :=
  mkEvidence (we_statuses v) (saturating_add16 (we_garble v) n) true.
Definition status_evidence (v : WireEvidence) : WireEvidence :=
  mkEvidence (saturating_add8 (we_statuses v) 1) (we_garble v) false.
Definition fold_unresolved (left : Z) (v : WireEvidence) : WireEvidence :=
  if 0 <? left then garble_evidence left v else v.
Definition upd_evidence (f : WireEvidence -> WireEvidence) : H unit :=
  bmod (fun b => set_hb_evidence (f (hb_evidence b)) b).

(** Any wire progress pushes the window out. *)
Definition push_window (now : Z) : H unit :=
  bmod (fun b => set_hb_deadline_at (u32 (now + hb_window b)) b) ;;
  do at_ <- bget hb_deadline_at;
  bout (HeSet at_).

(** The last owed status closes the command. *)
Definition close_complete (now pace_at cursor ring_len : Z) : H unit :=
  bout HeCancel ;;
  bmod (set_hb_state HIdle) ;;
  do f <- bget hb_framer;
  upd_evidence (fold_unresolved (unresolved (HostFramer_anchor f) cursor ring_len)) ;;
  do g <- bget (fun b => we_garble (hb_evidence b));
  (if 0 <? g then bmod (set_hb_pace_until (Some pace_at)) else bret tt) ;;
  bmod (fun b => set_hb_pending_done (Some (mkTerminal OcComplete now (hb_evidence b))) b) ;;
  bmod (set_hb_evidence WireEvidence_default) ;;
  bmod (set_hb_plan None).

(** The walk of one poll: consume junk until a status or the end of what is
    ringed.  The status is returned as ring coordinates. *)
Fixpoint await_loop (fuel : nat) (expected : option Z) (now pace_at ring_len : Z) :
    H (option (Z * Id * Inst * Z * Z)) :=
  match fuel with
  | O => blift None
  | S fuel' =>
      do cursor <- h_cursor_;
      do ring <- h_ring_;
      do s <- (fun b => '(s, f) ← HostFramer_step (hb_framer b) ring cursor; Some (s, set_hb_framer f b, []));
      match s with
      | HsFrame id inst payload pos =>
          if Inst_is_status inst then
            bmod (fun b => set_hb_got (saturating_add8 (hb_got b) 1) b) ;;
            upd_evidence status_evidence ;;
            do got <- bget hb_got;
            (if bool_decide (expected = Some got) then close_complete now pace_at cursor ring_len
             else push_window now) ;;
            bmod (set_hb_last_cursor (u16 cursor)) ;;
            bret (Some (got - 1, id, inst, pos, Z.of_nat (FrameBytes_len payload)))
          else
            upd_evidence (garble_evidence (u16 (Z.of_nat (FrameBytes_len payload) + 6))) ;;
            push_window now ;;
            await_loop fuel' expected now pace_at ring_len
      | HsGarble n =>
          upd_evidence (garble_evidence n) ;;
          push_window now ;;
          await_loop fuel' expected now pace_at ring_len
      | HsPartial | HsIdle => bret None
      end
  end.

Definition take_done : H (option HostEvent) :=
  do d <- bget hb_pending_done;
  bmod (set_hb_pending_done None) ;;
  bret (HevDone <$> d).

(** Nothing to deliver: progress extends the window, silence to its end closes
    the command. *)
Definition await_quiet (plan : Shape) (now ring_len : Z) : H (option HostEvent) :=
  do cursor <- h_cursor_;
  do last <- bget hb_last_cursor;
  bmod (set_hb_last_cursor cursor) ;;
  do due <- bget (fun b => tick_reached now (hb_deadline_at b));
  (if negb (cursor =? last) then push_window now
   else if due : bool then
     bout HeCancel ;;
     do f <- bget hb_framer;
     upd_evidence (fold_unresolved (unresolved (HostFramer_anchor f) cursor ring_len)) ;;
     do got <- bget hb_got;
     HostBus_finish (match sh_replies plan with RpCollect => OcComplete | _ => OcTimeout got end)
   else bret tt) ;;
  take_done.

Definition HostBus_poll_await (fuel : nat) (now : Z) : H (option HostEvent) :=
  do plan <- bget hb_plan;
  match plan with
  | None => bret None
  | Some plan =>
      let expected := match sh_replies plan with
                      | RpSingle | RpNone => Some 1
                      | RpChain n => Some n
                      | RpCollect => None
                      end in
      do byte <- bget HostBus_byte_ticks;
      let pace_at := u32 (now + u32 (STARVE_HORIZON_BYTE_TIMES * byte)) in
      do ring <- h_ring_;
      let ring_len := Z.of_nat (length ring) in
      do emit <- await_loop fuel expected now pace_at ring_len;
      match emit with
      | Some (slot, id, inst, pos, n) =>
          do ring <- h_ring_;
          do v <- blift (payload_view ring pos n);
          bret (Some (HevStatus slot id inst v))
      | None => await_quiet plan now ring_len
      end
  end.

Definition take_wire_done : H (option HostEvent) :=
  do d <- bget hb_pending_wire_done;
  bmod (set_hb_pending_wire_done None) ;;
  bret (HevWireDone <$> d).

(** Statuses and terminals left over are handed out first; then the state
    advances by the clock. *)
Definition poll_tail : H (option HostEvent) :=
  do w <- take_wire_done;
  match w with Some e => bret (Some e) | None => take_done end.

Definition poll_state (fuel : nat) : H (option HostEvent) :=
  do now <- h_now_;
  do st <- bget hb_state;
  do due <- bget (fun b => tick_reached now (hb_deadline_at b));
  match st with
  | HIdle | HTransmitting | HTraining _ _ | HWireTx | HWireTrain _ _ => poll_tail
  | HPacing => (if due : bool then HostBus_start_tx else bret tt) ;; poll_tail
  | HRescueHold =>
      (if due : bool then
         bout HeRelease ;; bout (HeBaud BaudRate_RESCUE) ;; bmod (set_hb_rate BaudRate_RESCUE) ;;
         HostBus_pace ;; HostBus_finish OcSent
       else bret tt) ;; poll_tail
  | HWirePulse => (if due : bool then wire_finish else bret tt) ;; poll_tail
  | HAwaiting => HostBus_poll_await fuel now
  end.

Definition HostBus_poll (fuel : nat) : H (option HostEvent) :=
  do d <- take_done;
  match d with
  | Some e => bret (Some e)
  | None =>
      do w <- take_wire_done;
      match w with
      | Some e => bret (Some e)
      | None => poll_state fuel
      end
  end.

End host.
Arguments mkHost {E}.
Arguments H : clear implicits.
