(* ===== verification/HostContract.v ===== *)
(** * The host engine's contract (firmware/lib/host/src/engine)

    What the engine promises its callers, as an abstract machine of three
    phases: idle, a command in flight that has delivered some statuses, an
    instrument operation in flight.  The theorem is a simulation: from any
    reachable engine state every call returns, its result is a step of the
    abstract machine, and the wire calls it makes keep the drive discipline. *)

From S2P Require Import Prelude Trace Crc FrameBytes Wire Frame Group Ring HostFramer HostShape HostEngine.
Local Open Scope trace_scope.

(** ** Plans *)

Definition plan_ok (sh : Shape) : Prop :=
  match sh_replies sh with RpChain n => 1 <= n <= 255 | _ => True end /\
  (sh_train sh <> None -> sh_replies sh = RpNone).

Lemma chain_ok n fp slow : (1 <= n <= 252)%nat -> plan_ok (mkShape (RpChain (u8 (Z.of_nat n))) fp None slow).
Proof. intros Hn. split; cbn; [|done]. rewrite u8_id by lia. lia. Qed.

Lemma iter_run_some {S A} (next : S -> option (A * S)) n s : (1 <= n)%nat -> is_Some (next s) ->
  (1 <= length (iter_run next n s))%nat.
Proof. intros Hn [[x s'] E]. destruct n; [lia|]. cbn [iter_run]. rewrite E. cbn. lia. Qed.

Lemma bytes_at l i : (i < FrameBytes_len l)%nat -> is_Some (FrameBytes_u8_at l i).
Proof. intros Hi. rewrite FrameBytes_u8_at_spec. apply lookup_lt_is_Some_2. by rewrite <- FrameBytes_len_spec. Qed.

Lemma words_at l i : (i + 1 < FrameBytes_len l)%nat -> is_Some (FrameBytes_u16_le_at l i).
Proof.
  intros Hi. unfold FrameBytes_u16_le_at. destruct (bytes_at l i) as [a ->]; [lia|].
  destruct (bytes_at l (i + 1)) as [c Ec]; [lia|]. cbn. rewrite ?Ec. by eexists.
Qed.

Lemma entry_ok pay : (5 <= FrameBytes_len pay)%nat -> is_Some (GreadPerTargetIter_next pay).
Proof.
  intros Hl. unfold GreadPerTargetIter_next. rewrite (proj2 (Nat.ltb_ge _ _)) by lia.
  destruct (bytes_at pay 0) as [? ->]; [lia|]. destruct (words_at pay 1) as [? ->]; [lia|].
  destruct (words_at pay 3) as [? ->]; [lia|].
  destruct (FrameBytes_sub_is_Some pay 5 (FrameBytes_len pay - 5)) as [? ->]; [lia|]. by eexists.
Qed.

Lemma profile_entry_ok pay : (2 <= FrameBytes_len pay)%nat -> is_Some (GreadProfilePerTargetIter_next pay).
Proof.
  intros Hl. unfold GreadProfilePerTargetIter_next. rewrite (proj2 (Nat.ltb_ge _ _)) by lia.
  destruct (bytes_at pay 0) as [? ->]; [lia|]. destruct (bytes_at pay 1) as [? ->]; [lia|].
  destruct (FrameBytes_sub_is_Some pay 2 (FrameBytes_len pay - 2)) as [? ->]; [lia|]. by eexists.
Qed.

(** A non-empty list of whole entries holds at least one. *)
Lemma per_target_ok {A} (next : FrameBytes -> option (A * FrameBytes)) k pay fp slow : (k <> 0)%nat ->
  ((k <= FrameBytes_len pay)%nat -> is_Some (next pay)) -> (FrameBytes_len pay <= 252)%nat ->
  FrameBytes_is_empty pay || negb (Nat.eqb (FrameBytes_len pay mod k) 0) = false ->
  plan_ok (mkShape (RpChain (u8 (Z.of_nat (length (iter_run next (FrameBytes_len pay) pay))))) fp None slow).
Proof.
  intros Hk Hn Hl He. apply chain_ok. pose proof (iter_run_length next (FrameBytes_len pay) pay). zbool.
  rewrite FrameBytes_is_empty_spec, <- FrameBytes_len_spec in *. zbool.
  assert (k <= FrameBytes_len pay)%nat by (apply Nat.nlt_ge; intros Hlt; apply Nat.mod_small in Hlt; lia).
  split; [apply iter_run_some; [lia|auto]|lia].
Qed.

(** A non-empty id list names at least one servo. *)
Lemma ids_ok pay k n ids fp slow : FrameBytes_sub pay k n = Some ids -> (FrameBytes_len pay <= 252)%nat ->
  FrameBytes_is_empty ids = false ->
  plan_ok (mkShape (RpChain (u8 (Z.of_nat (length (FrameBytes_bytes ids))))) fp None slow).
Proof.
  intros Es Hl He. apply chain_ok. rewrite FrameBytes_is_empty_spec in He. zbool.
  apply FrameBytes_sub_Some in Es as [Hb Eb]. rewrite Eb, length_take, length_drop, <- FrameBytes_len_spec in *. lia.
Qed.

Lemma shape_gread_ok inst pay sh : (FrameBytes_len pay <= 252)%nat -> shape_gread inst pay = Ok sh -> plan_ok sh.
Proof.
  intros Hl. unfold shape_gread, gate. destruct (Inst_profile inst), (Inst_per_target inst).
  - unfold GreadProfilePerTarget_parse. destruct (_ || _) eqn:Ee; [done|]. intros [= <-].
    by apply (per_target_ok _ 2); [|apply profile_entry_ok|..].
  - unfold GreadProfileUniform_parse. destruct (FrameBytes_u8_at pay 0); [|done]. cbn [mbind option_bind].
    destruct (checked_sub _ 1) as [n|]; [|done]. cbn [mbind option_bind].
    destruct (FrameBytes_sub pay 1 n) as [ids|] eqn:Es; [|done]. cbn [mbind option_bind].
    destruct (FrameBytes_is_empty ids) eqn:Ee; [done|]. intros [= <-]. by eapply ids_ok.
  - unfold GreadPerTarget_parse. destruct (_ || _) eqn:Ee; [done|]. intros [= <-].
    by apply (per_target_ok _ 5); [|apply entry_ok|..].
  - unfold GreadUniform_parse. destruct (FrameBytes_u16_le_at pay 0); [|done]. destruct (FrameBytes_u16_le_at pay 2); [|done].
    cbn [mbind option_bind]. destruct (checked_sub _ 4) as [n|]; [|done]. cbn [mbind option_bind].
    destruct (FrameBytes_sub pay 4 n) as [ids|] eqn:Es; [|done]. cbn [mbind option_bind].
    destruct (FrameBytes_is_empty ids) eqn:Ee; [done|]. intros [= <-]. by eapply ids_ok.
Qed.

(** Every plan the gate lets through. *)
Lemma Shape_derive_ok id inst payload sh : Shape_derive id inst payload = Some (Ok sh) ->
  plan_ok sh /\ (length payload <= 252)%nat.
Proof.
  unfold Shape_derive. destruct (Inst_is_status inst); [done|]. destruct (Inst_opcode inst) as [op|]; [|done].
  destruct (negb _); [done|]. destruct (MAX_PAYLOAD <? _) eqn:Em; [done|]. unfold MAX_PAYLOAD in Em. zbool.
  destruct (shape_of_op op inst payload _) as [[s|]|] eqn:Es; [|done..]. cbn. intros [= <-]. split; [|lia].
  assert (plan_ok s) as [H1 H2].
  { unfold shape_of_op, shape_mgmt, gate in Es. destruct op.
    5: { injection Es as Es. eapply shape_gread_ok; [|exact Es]. rewrite FrameBytes_len_spec. cbn.
         rewrite app_nil_r. lia. }
    all: repeat (case_hyp Es; try discriminate); simplify_eq; by destruct (Id_is_broadcast id). }
  unfold suppress. destruct (_ && _) eqn:Ec; [|done]. split; cbn; auto.
Qed.

(** ** What the hardware promises *)

(** The ring has a fixed power-of-two length and its bytes are bytes; the
    cursor is the write index, which only moves forward; a drain fills at most the
    buffer it is given.  [h_flow] bounds the
    bytes that still arrive while one call runs, [h_at] is the write index. *)
Class HostLaws (E : Type) {HP : HostProviders E} := {
  h_size : Z;
  h_size_ok : ring_len_ok h_size;
  h_ring_ok : forall e, bytes_ok (h_bytes e) /\ Z.of_nat (length (h_bytes e)) = h_size;
  h_at : E -> Z;
  h_flow : E -> nat;
  h_drift (e e' : E) : Prop :=
    exists d : nat, h_at e' = (h_at e + Z.of_nat d) mod h_size /\ (d + h_flow e' <= h_flow e)%nat;
  h_cursor_ok : forall e, (h_cursor e).1 = h_at (h_cursor e).2 /\ 0 <= (h_cursor e).1 < h_size /\ h_drift e (h_cursor e).2;
  h_now_ok : forall e, h_drift e (h_now e).2;
  h_drain_ok : forall n e, (length (h_drain_falls n e).1 <= n)%nat /\ (length (h_drain_rises n e).1 <= n)%nat;
}.

(** ** The abstract machine *)

(** What a command in flight waits for: nothing from the bus, or the replies
    its instruction draws. *)
Inductive Want := WLocal | WReplies (r : Replies).
Inductive Phase := PhIdle | PhCmd (want : Want) (delivered : Z) | PhWire.

Definition want_of (cmd : Command) : Want :=
  match cmd with
  | CmdExchange id inst payload =>
      match Shape_derive id inst payload with Some (Ok p) => WReplies (sh_replies p) | _ => WLocal end
  | _ => WLocal
  end.

(** A further status is due after [d]. *)
Definition awaits (r : Replies) (d : Z) : Prop :=
  match r with RpNone => False | RpSingle => d = 0 | RpChain n => 0 <= d < n | RpCollect => 0 <= d <= 255 end.

(** A terminal that tells the truth about [d] delivered statuses. *)
Definition closes (want : Want) (d : Z) (t : Terminal) : Prop :=
  we_statuses (tm_evidence t) = d /\
  match want, tm_outcome t with
  | WLocal, (OcSent | OcComplete) => d = 0
  | WReplies RpNone, OcSent => d = 0
  | WReplies RpSingle, OcComplete => d = 1
  | WReplies (RpChain n), OcComplete => d = n
  | WReplies RpCollect, OcComplete => True
  | WReplies RpSingle, OcTimeout slot => slot = 0 /\ d = 0
  | WReplies (RpChain n), OcTimeout slot => slot = d /\ 0 <= d < n
  | _, _ => False
  end.

Inductive Label :=
| LSubmit (cmd : Command) (res : result unit SubmitError)
| LWire (res : result unit SubmitError)
| LIrq
| LPoll (ev : option HostEvent).

Inductive contract : Phase -> Label -> Phase -> Prop :=
| ct_submit cmd : contract PhIdle (LSubmit cmd (Ok tt)) (PhCmd (want_of cmd) 0)
| ct_busy ph cmd : ph <> PhIdle -> contract ph (LSubmit cmd (Err SeBusy)) ph
| ct_invalid id inst pay r : Shape_derive id inst pay = Some (Err r) ->
    contract PhIdle (LSubmit (CmdExchange id inst pay) (Err (SeInvalid r))) PhIdle
| ct_wire : contract PhIdle (LWire (Ok tt)) PhWire
| ct_wire_busy ph : ph <> PhIdle -> contract ph (LWire (Err SeBusy)) ph
| ct_wire_invalid r : contract PhIdle (LWire (Err (SeInvalid r))) PhIdle
| ct_irq ph : contract ph LIrq ph
| ct_quiet ph : contract ph (LPoll None) ph
| ct_status r d id inst pay : awaits r d -> Inst_is_status inst = true -> (FrameBytes_len pay <= 252)%nat ->
    contract (PhCmd (WReplies r) d) (LPoll (Some (HevStatus (saturating_add8 d 1 - 1) id inst pay)))
      (PhCmd (WReplies r) (saturating_add8 d 1))
| ct_done want d t : closes want d t -> contract (PhCmd want d) (LPoll (Some (HevDone t))) PhIdle
| ct_wire_done tick : contract PhWire (LPoll (Some (HevWireDone tick))) PhIdle.

(** The drive discipline: the wire is claimed once, driven only while claimed,
    released once; the line rate changes only while it is free. *)
Definition wire_drive1 (held : bool) (e : HostEv) : option bool :=
  match e with
  | HeClaim => if held then None else Some true
  | HeBreak | HeSend _ | HeHoldLow => if held then Some true else None
  | HeRelease => if held then Some false else None
  | HeBaud _ | HeBaudRaw _ => if held then None else Some false
  | HeSet _ | HeCancel => Some held
  end.
Fixpoint wire_drive (held : bool) (ev : list HostEv) : option bool :=
  match ev with [] => Some held | e :: ev' => match wire_drive1 held e with Some h => wire_drive h ev' | None => None end end.

Lemma wire_drive_app held e1 e2 : wire_drive held (e1 ++ e2) = match wire_drive held e1 with Some h => wire_drive h e2 | None => None end.
Proof. revert held. induction e1 as [|e e1 IH]; intros held; cbn; [done|]. by destruct (wire_drive1 held e). Qed.

Section engine.
Context {E : Type} {HP : HostProviders E} {HL : HostLaws E}.
#[local] Abbreviation Bus := (@HostBus E).

Definition claimed (st : HostState) : bool :=
  match st with
  | HTransmitting | HTraining _ _ | HRescueHold | HWireTx | HWirePulse | HWireTrain _ _ => true
  | HIdle | HPacing | HAwaiting => false
  end.

(** The burst that is still to send is a sequence of whole frames. *)
Definition job_ok (st : HostState) (j : WireJob) : Prop :=
  length (wj_buf j) = WIRE_CAP /\ (wj_len j <= WIRE_CAP)%nat /\
  (st <> HWireTx -> wj_train j = None) /\
  (st = HWireTx -> wj_mode j = WmStream -> wj_train j = None /\
    exists fuel, burst_ok fuel (take (wj_len j) (wj_buf j)) (wj_cursor j) = true).

(** The state proper, with no terminal waiting. *)
Definition in_phase (b : Bus) (ph : Phase) : Prop :=
  let fresh d := we_statuses (hb_evidence b) = d in
  match hb_state b with
  | HIdle => ph = PhIdle
  | HPacing => exists p, hb_plan b = Some p /\ plan_ok p /\ fresh 0 /\ ph = PhCmd (WReplies (sh_replies p)) 0 /\
      exists frame, FrameBuf_frame (hb_buf b) = Some frame /\ (1 <= length frame)%nat
  | HTransmitting => exists p, hb_plan b = Some p /\ plan_ok p /\ fresh 0 /\ ph = PhCmd (WReplies (sh_replies p)) 0
  | HTraining _ _ => fresh 0 /\ ph = PhCmd (WReplies RpNone) 0
  | HRescueHold => fresh 0 /\ ph = PhCmd WLocal 0
  | HAwaiting => exists p d, hb_plan b = Some p /\ plan_ok p /\ fresh d /\ hb_got b = d /\
      awaits (sh_replies p) d /\ ph = PhCmd (WReplies (sh_replies p)) d
  | HWireTx | HWirePulse | HWireTrain _ _ => ph = PhWire
  end.

Definition host_sim (b : Bus) (ph : Phase) : Prop :=
  0 <= hb_framer b < h_size /\ length (hb_buf b) = 264%nat /\ job_ok (hb_state b) (hb_wire_job b) /\
  match hb_pending_done b, hb_pending_wire_done b with
  | None, None => in_phase b ph
  | Some t, None => hb_state b = HIdle /\ exists want d, ph = PhCmd want d /\ closes want d t
  | None, Some _ => hb_state b = HIdle /\ ph = PhWire
  | Some _, Some _ => False
  end.

(** A call that returns from [b], steps the abstract machine as its label says
    and keeps the wire discipline. *)
Definition refines {A} (m : H E A) (lbl : A -> Label) (b : Bus) (ph : Phase) : Prop :=
  runs m b (fun a b' ev => (exists ph', contract ph (lbl a) ph' /\ host_sim b' ph') /\
    wire_drive (claimed (hb_state b)) ev = Some (claimed (hb_state b'))).

(** Reading the clock or the cursor touches the environment only. *)
Lemma runs_now {A} (k : Z -> H E A) b Q :
  (forall t e, h_drift (hb_env b) e -> runs (k t) (set_hb_env e b) Q) -> runs (bbind h_now_ k) b Q.
Proof.
  intros Hk. pose proof (h_now_ok (hb_env b)) as Hd. destruct (h_now (hb_env b)) as [t e] eqn:En.
  eapply runs_bind_quiet; [unfold h_now_; by rewrite En|]. by apply Hk.
Qed.

Lemma runs_cursor {A} (k : Z -> H E A) b Q :
  (forall e, h_drift (hb_env b) e -> 0 <= h_at e < h_size -> runs (k (h_at e)) (set_hb_env e b) Q) ->
  runs (bbind h_cursor_ k) b Q.
Proof.
  intros Hk. pose proof (h_cursor_ok (hb_env b)) as (Ec & Hr & Hd). destruct (h_cursor (hb_env b)) as [c e] eqn:En.
  cbn [fst snd] in *. subst c. eapply runs_bind_quiet; [unfold h_cursor_; by rewrite En|]. by apply Hk.
Qed.
End engine.

(** One symbolic step; reads of the clock and the cursor included. *)
Ltac host_step :=
  lazymatch goal with
  | |- runs (bbind h_now_ _) _ _ => apply runs_now; intros ? ? ?
  | |- runs (bbind h_cursor_ _) _ _ => apply runs_cursor; intros ? ? ?
  | |- runs (bbind h_ring_ _) _ _ => apply runs_bind_get
  | |- runs (bbind (upd_job _) _) _ _ => apply runs_bind_mod
  | |- runs (bbind (upd_evidence _) _) _ _ => apply runs_bind_mod
  | |- runs (bbind (HostBus_arm _) _) _ _ => unfold HostBus_arm at 1
  | |- runs (HostBus_arm _) _ _ => unfold HostBus_arm
  | |- _ => trace_step
  end; cbv beta.

(** The parts of [host_sim], the ring and buffer bounds discharged. *)
Ltac sim_split := split; [cbn; lia|]; split; [cbn; lia|]; split; [try assumption|].

Ltac split_hyps := repeat match goal with
  | H : exists _, _ |- _ => destruct H
  | H : _ /\ _ |- _ => destruct H
  end.

Section engine_calls.
Context {E : Type} {HP : HostProviders E} {HL : HostLaws E}.
#[local] Abbreviation Bus := (@HostBus E).
Implicit Types b : Bus.

(** What every state has, with [st] as its state. *)
Definition base (st : HostState) b : Prop :=
  0 <= hb_framer b < h_size /\ length (hb_buf b) = 264%nat /\ job_ok st (hb_wire_job b).

Lemma job_ok_leave st st' j : job_ok st j -> st <> HWireTx -> st' <> HWireTx -> job_ok st' j.
Proof. intros (L1 & L2 & L3 & L4) H1 H2. split_and!; [done|done|by intros; apply L3|done]. Qed.

Lemma base_leave st st' b : base st b -> st <> HWireTx -> st' <> HWireTx -> base st' b.
Proof. intros (H1 & H2 & H3) Hs Hs'. split; [lia|]. split; [lia|]. by eapply job_ok_leave. Qed.

(** Ring bytes a poll may still walk over: what waits in the ring and what
    arrives meanwhile. *)
Definition work b : nat := (Z.to_nat ((h_at (hb_env b) - hb_framer b) mod h_size) + h_flow (hb_env b))%nat.

Lemma h_size_pos : 8 <= h_size <= 65536.
Proof using HL. apply ring_len_pos, h_size_ok. Qed.

#[export] Instance h_drift_trans : Transitive h_drift.
Proof.
  intros e1 e2 e3 (d1 & E1 & F1) (d2 & E2 & F2). exists (d1 + d2)%nat. split; [|lia].
  rewrite E2, E1, Zplus_mod_idemp_l. f_equal. lia.
Qed.

Lemma work_le b b' : hb_framer b' = hb_framer b -> h_drift (hb_env b) (hb_env b') -> (work b' <= work b)%nat.
Proof.
  intros Ef (d & Ea & Hf). unfold work. rewrite Ea, Ef, Zminus_mod_idemp_l. pose proof h_size_pos.
  set (a := h_at (hb_env b)) in *. set (f := hb_framer b).
  replace (a + Z.of_nat d - f) with ((a - f) + Z.of_nat d) by lia. rewrite <- Zplus_mod_idemp_l.
  assert (0 < h_size) as Hp by lia. pose proof (Z.mod_pos_bound (a - f) h_size Hp) as Hm.
  pose proof (Z.mod_le ((a - f) mod h_size + Z.of_nat d) h_size) as Hle. lia.
Qed.

Lemma work_drift b e : h_drift (hb_env b) e -> (work (set_hb_env e b) <= work b)%nat.
Proof. intros Hd. by apply work_le. Qed.

(** Closing a command queues a truthful terminal. *)
Lemma finish_runs outcome b want d : base HIdle b -> hb_pending_wire_done b = None ->
  (forall tick, closes want d (mkTerminal outcome tick (hb_evidence b))) ->
  runs (HostBus_finish outcome) b (fun _ b' ev => ev = [] /\ host_sim b' (PhCmd want d) /\ hb_state b' = HIdle /\
    (work b' <= work b)%nat).
Proof.
  intros (H1 & H2 & H3) Hw Hc. unfold HostBus_finish, HostBus_pace.
  repeat host_step. case_goal; repeat host_step; (split; [done|]); (split; [|split; [done|apply work_le; [done|]]]).
  2: cbn in *; etransitivity; eassumption.
  3: cbn in *; assumption.
  all: unfold host_sim; cbn; rewrite Hw; sim_split; split; [done|]; by exists want, d.
Qed.

Definition is_idle (ph : Phase) : bool := match ph with PhIdle => true | _ => false end.

Lemma sim_busy b ph : host_sim b ph -> host_busy b = negb (is_idle ph).
Proof.
  intros (_ & _ & _ & Hs). unfold host_busy, in_phase in *. destruct (hb_pending_done b), (hb_pending_wire_done b); try done.
  - by destruct Hs as (-> & want & d & -> & _).
  - by destruct Hs as [-> ->].
  - destruct (hb_state b); split_hyps; by subst.
Qed.

Lemma sim_idle b : host_sim b PhIdle ->
  base HIdle b /\ hb_state b = HIdle /\ hb_pending_done b = None /\ hb_pending_wire_done b = None.
Proof.
  intros Hs. pose proof (sim_busy b PhIdle Hs) as Hb. destruct Hs as (H1 & H2 & H3 & _). unfold host_busy, base in *.
  destruct (hb_state b), (hb_pending_done b), (hb_pending_wire_done b); done.
Qed.

(** A call guarded by the busy test. *)
Lemma refines_guarded (m : H E (result unit SubmitError)) lbl b ph : host_sim b ph ->
  (forall ph', ph' <> PhIdle -> contract ph' (lbl (Err SeBusy)) ph') ->
  (ph = PhIdle -> refines m lbl b ph) ->
  refines (do busy <- bget host_busy; if busy : bool then bret (Err SeBusy) else m) lbl b ph.
Proof.
  intros Hs Hb Hm. unfold refines. apply runs_bind_get. rewrite (sim_busy b ph Hs). destruct (is_idle ph) eqn:Hp; cbn [negb].
  - apply Hm. by destruct ph.
  - apply runs_ret. split; [|done]. exists ph. split; [|done]. apply Hb. by destruct ph.
Qed.

Lemma start_tx_runs b frame Q : FrameBuf_frame (hb_buf b) = Some frame -> (1 <= length frame)%nat ->
  Q tt (set_hb_state HTransmitting b) [HeClaim; HeBreak; HeSend (drop 1 frame)] -> runs HostBus_start_tx b Q.
Proof.
  intros Ef Hl HQ. unfold HostBus_start_tx. do 3 host_step. eapply runs_bind_lift; [exact Ef|].
  eapply runs_bind_lift; [by rewrite get_range_ok by lia|]. repeat host_step.
  by rewrite take_ge by (rewrite length_drop; lia).
Qed.

Lemma submit_local_refines cmd (m : H E unit) b : host_sim b PhIdle -> want_of cmd = WLocal ->
  runs m b (fun _ b' ev => host_sim b' (PhCmd WLocal 0) /\ wire_drive false ev = Some (claimed (hb_state b'))) ->
  refines (m ;; bret (Ok tt)) (LSubmit cmd) b PhIdle.
Proof.
  intros Hs Hw Hm. destruct (sim_idle b Hs) as (_ & Ei & _). unfold refines. apply runs_bind.
  eapply runs_mono; [exact Hm|]. intros _ b' ev [H1 H2]. apply runs_ret. rewrite app_nil_r, Ei. split; [|done].
  exists (PhCmd (want_of cmd) 0). rewrite Hw. split; [|done]. rewrite <- Hw. constructor.
Qed.

(** The buffer after an accepted exchange holds its sealed frame. *)
Lemma build_frame_host b id inst pay : length (hb_buf b) = 264%nat -> (length pay <= 252)%nat ->
  exists built, build_frame (hb_buf b) id inst pay = Some built /\ length built.1 = 264%nat /\
    exists frame, FrameBuf_frame built.1 = Some frame /\ (1 <= length frame)%nat.
Proof.
  intros Hb Hp. rewrite build_frame_eq by lia. eexists. split; [done|]. cbn [fst]. unfold sealed.
  split; [cbn [app length]; rewrite !length_app, length_drop; cbn [length to_le16]; lia|].
  unfold FrameBuf_frame. cbn [app lookup list_lookup mbind option_bind].
  rewrite get_range_ok; [eexists; split; [done|]|]; unfold footprint; cbn [length]; rewrite ?length_take, ?drop_0;
    cbn [length]; rewrite !length_app; cbn [length to_le16]; rewrite ?length_drop; lia.
Qed.

(** An accepted exchange, paced or on the wire. *)
Lemma sim_exchange b p st frame : base HIdle b -> plan_ok p -> hb_plan b = Some p -> we_statuses (hb_evidence b) = 0 ->
  hb_pending_done b = None -> hb_pending_wire_done b = None -> FrameBuf_frame (hb_buf b) = Some frame ->
  (1 <= length frame)%nat -> st = HTransmitting \/ st = HPacing -> hb_state b = st ->
  host_sim b (PhCmd (WReplies (sh_replies p)) 0).
Proof.
  intros (H1 & H2 & H3) Hp P V D W Ef Lf Hst Es. unfold host_sim, in_phase. rewrite D, W, P, Es. sim_split.
  - destruct Hst as [-> | ->]; by eapply job_ok_leave.
  - destruct Hst as [-> | ->]; exists p; split_and!; eauto.
Qed.

Lemma launch_runs b p frame until : base HIdle b -> plan_ok p -> hb_plan b = Some p -> we_statuses (hb_evidence b) = 0 ->
  hb_pending_done b = None -> hb_pending_wire_done b = None -> FrameBuf_frame (hb_buf b) = Some frame ->
  (1 <= length frame)%nat ->
  runs (match until with
        | Some u =>
            do now <- h_now_;
            if negb (tick_reached now u) then bmod (set_hb_state HPacing) ;; HostBus_arm u else HostBus_start_tx
        | None => HostBus_start_tx
        end) b (fun _ b' ev => host_sim b' (PhCmd (WReplies (sh_replies p)) 0) /\
                               wire_drive false ev = Some (claimed (hb_state b'))).
Proof.
  intros Hb Hp P V D W Ef Lf. destruct until as [u|]; [host_step; destruct (negb _); repeat host_step|].
  - split; [|done]. eapply (sim_exchange _ p HPacing frame); cbn; auto.
  - eapply start_tx_runs; [exact Ef|done|]. split; [|done]. eapply (sim_exchange _ p HTransmitting frame); cbn; auto.
  - eapply start_tx_runs; [exact Ef|done|]. split; [|done]. eapply (sim_exchange _ p HTransmitting frame); cbn; auto.
Qed.

Lemma submit_exchange_refines id inst pay b : host_sim b PhIdle -> is_Some (Shape_derive id inst pay) ->
  we_statuses (hb_evidence b) = 0 ->
  refines (submit_exchange id inst pay) (LSubmit (CmdExchange id inst pay)) b PhIdle.
Proof.
  intros Hs [r Er] Hst. destruct (sim_idle b Hs) as ((H1 & H2 & H3) & Ei & Ed & Ew). unfold refines, submit_exchange.
  rewrite Ei. eapply runs_bind_lift; [exact Er|]. destruct r as [p|r].
  2: { apply runs_ret. rewrite Ei. split; [|done]. exists PhIdle. split; [by constructor|done]. }
  destruct (Shape_derive_ok _ _ _ _ Er) as [Hp Hl]. destruct (build_frame_host b id inst pay H2 Hl) as (built & Eb & Lb & frame & Ef & Lf).
  host_step. eapply runs_bind_lift; [exact Eb|]. do 6 host_step. apply runs_bind.
  eapply runs_mono; [by apply (launch_runs _ p frame); cbn; [split; [cbn; unfold HostFramer_resync; lia|by split]|..]|].
  intros _ b' ev [Hs' Hd]. apply runs_ret. rewrite app_nil_r. split; [|done].
  exists (PhCmd (want_of (CmdExchange id inst pay)) 0). split; [constructor|]. cbn. by rewrite Er.
Qed.

(** Commands the gate has an answer for: every one but a management sub-op its
    match has no arm for. *)
Definition cmd_typed (cmd : Command) : Prop :=
  match cmd with CmdExchange id inst pay => is_Some (Shape_derive id inst pay) | _ => True end.
(** They are SecInit, SecKey, SecAttest and SecRekey. *)
Lemma cmd_typed_mgmt id inst pay : cmd_typed (CmdExchange id inst pay) \/
  Inst_opcode inst = Some OpMgmt /\ exists (b : Z) (rest : list Z) op, pay = b :: rest /\ MgmtOp_from_byte b = Some op /\ MgmtOp_needs_quiet_window op = true.
Proof.
  unfold cmd_typed, Shape_derive. destruct (Inst_is_status inst); [left; by eexists|]. destruct (Inst_opcode inst) as [op|]; [|left; by eexists].
  destruct (negb _); [left; by eexists|]. destruct (_ <? _); [left; by eexists|]. destruct op; try (left; by eexists).
  unfold shape_of_op, shape_mgmt. pose proof (MgmtReq_parse_spec (FrameBytes_from pay)) as Hm.
  assert (FrameBytes_bytes (FrameBytes_from pay) = pay) as Eb by apply app_nil_r. rewrite Eb in Hm.
  destruct pay as [|b rest]; [rewrite Hm; left; by eexists|]. destruct (MgmtOp_from_byte b) as [op|] eqn:Eo; [|rewrite Hm; left; by eexists].
  destruct Hm as (g & -> & _). cbn [mr_op]. destruct op; try (left; by eexists); right; split; eauto 8.
Qed.

Lemma submit_refines cmd b ph : host_sim b ph -> cmd_typed cmd -> refines (HostBus_submit cmd) (LSubmit cmd) b ph.
Proof.
  intros Hs Ht. apply refines_guarded; [done|by constructor|]. intros ->.
  destruct (sim_idle b Hs) as (Hb & Ei & Ed & Ew). unfold refines. apply runs_bind_mod.
  set (b0 := set_hb_evidence WireEvidence_default b).
  assert (host_sim b0 PhIdle) as Hs0 by (unfold host_sim, in_phase in *; subst b0; cbn; by rewrite Ei, Ed, Ew in *).
  change (hb_state b) with (hb_state b0). destruct cmd as [id inst pay| |rate|us].
  - by apply submit_exchange_refines.
  - repeat host_step. split; [|by subst b0; cbn; rewrite Ei].
    eexists. split; [constructor|]. unfold host_sim, in_phase. cbn. rewrite Ed, Ew.
    destruct Hb as (H1 & H2 & H3). sim_split; [by eapply job_ok_leave|done].
  - unfold HostBus_pace. repeat host_step. apply runs_bind. eapply runs_mono.
    { apply (finish_runs OcComplete _ WLocal 0); subst b0; done. }
    intros _ b' ev (-> & H1 & H2 & _). apply runs_ret. split; [eexists; split; [constructor|done]|]. subst b0. cbn. by rewrite Ei, H2.
  - host_step. apply runs_bind. eapply runs_mono.
    { apply (finish_runs OcComplete _ WLocal 0); subst b0; done. }
    intros _ b' ev (-> & H1 & H2 & _). apply runs_ret. split; [eexists; split; [constructor|done]|]. subst b0. cbn. by rewrite Ei, H2.
Qed.

(** The next frame of a well-formed burst goes out whole, and what is left of
    the burst is well formed. *)
Lemma next_frame_runs b fuel (j := hb_wire_job b) :
  length (wj_buf j) = WIRE_CAP -> (wj_cursor j < wj_len j <= WIRE_CAP)%nat ->
  burst_ok fuel (take (wj_len j) (wj_buf j)) (wj_cursor j) = true ->
  runs wire_next_frame b (fun _ b' ev => exists cur span fuel',
    b' = set_hb_wire_job (mkJob (wj_buf j) (wj_len j) cur (wj_mode j) (wj_train j)) b /\
    ev = [HeBreak; HeSend span] /\ burst_ok fuel' (take (wj_len j) (wj_buf j)) cur = true).
Proof.
  intros Hl Hc Hb. destruct fuel as [|fuel]; [done|]. cbn [burst_ok] in Hb.
  destruct (lookup_lt_is_Some_2 (wj_buf j) (wj_cursor j)) as [l El]; [lia|].
  rewrite lookup_take_lt, El in Hb by lia. destruct (_ || _) eqn:Eo in Hb; [done|]. zbool. rewrite length_take in *.
  unfold wire_next_frame. apply runs_bind_get. fold j. eapply runs_bind_lift; [exact El|]. do 2 host_step.
  eapply runs_bind_lift; [by rewrite get_range_ok by lia|]. host_step. by exists (wj_cursor j + 1 + Z.to_nat l)%nat; eauto.
Qed.

(** The instrument operations. *)
Inductive WireOp :=
| WoSend (bytes : list Z) | WoTrain (announce : list Z) (gap_us breaks : Z) | WoBaud (bps : Z)
| WoBurst (stream : list Z) | WoPulse (us : Z).
Definition wire_call (op : WireOp) : H E (result unit SubmitError) :=
  match op with
  | WoSend bytes => HostBus_wire_send bytes
  | WoTrain announce gap_us breaks => HostBus_wire_train announce gap_us breaks
  | WoBaud bps => HostBus_wire_baud bps
  | WoBurst stream => HostBus_wire_burst stream
  | WoPulse us => HostBus_wire_pulse_low us
  end.

Lemma wire_invalid_refines r b : host_sim b PhIdle -> refines (bret (Err (SeInvalid r))) LWire b PhIdle.
Proof. intros Hs. apply runs_ret. split; [|done]. exists PhIdle. split; [constructor|done]. Qed.

(** An instrument operation that has taken the wire, or finished at once. *)
Lemma sim_wire b b' : base HIdle b -> hb_framer b' = hb_framer b -> hb_buf b' = hb_buf b ->
  job_ok (hb_state b') (hb_wire_job b') -> hb_pending_done b' = None ->
  match hb_pending_wire_done b' with
  | Some _ => hb_state b' = HIdle
  | None => match hb_state b' with HWireTx | HWirePulse | HWireTrain _ _ => True | _ => False end
  end -> host_sim b' PhWire.
Proof.
  intros (H1 & H2 & H3) F B J D W. unfold host_sim, in_phase. rewrite F, B, D. sim_split.
  destruct (hb_pending_wire_done b'); [done|]. by destruct (hb_state b').
Qed.

Lemma wire_single_refines bytes train b : host_sim b PhIdle -> (length bytes <= WIRE_CAP)%nat ->
  refines (wire_single bytes train) LWire b PhIdle.
Proof.
  intros Hs Hl. destruct (sim_idle b Hs) as (Hb & Ei & Ed & Ew). pose proof Hb as (H1 & H2 & H3 & H4 & H5).
  unfold refines, wire_single. do 4 host_step.
  eapply runs_bind_lift; [cbn; rewrite get_range_ok; [done|rewrite length_splice; lia]|]. repeat host_step.
  split; [|by rewrite Ei]. exists PhWire. split; [constructor|]. eapply sim_wire; [exact Hb|done..| |done|cbn; by rewrite Ew].
  split; [cbn [wj_buf hb_wire_job set_hb_state set_hb_wire_job]; rewrite length_splice; [exact H3|lia]|].
  split; [exact Hl|]. split; [by intros []|done].
Qed.

Lemma wire_burst_refines stream b : host_sim b PhIdle -> (length stream <= WIRE_CAP)%nat ->
  burst_ok (S (length stream)) stream 0 = true ->
  refines (upd_job (fun j => mkJob (splice 0 stream (wj_buf j)) (length stream) 0 WmStream (wj_train j)) ;;
    bout HeClaim ;; wire_next_frame ;; bmod (set_hb_state HWireTx) ;; bret (Ok tt)) LWire b PhIdle.
Proof.
  intros Hs Hl Hg. destruct (sim_idle b Hs) as (Hb & Ei & Ed & Ew). pose proof Hb as (H1 & H2 & H3 & H4 & H5 & _).
  assert (0 < length stream)%nat by (destruct stream; cbn in *; [done|lia]).
  assert (take (length stream) (splice 0 stream (wj_buf (hb_wire_job b))) = stream) as Et.
  { unfold splice. rewrite take_0. cbn [app]. by rewrite take_app_length. }
  unfold refines. do 2 host_step. apply runs_bind.
  eapply runs_mono; [eapply next_frame_runs; cbn -[splice burst_ok]; [rewrite length_splice; [done|lia]|lia|]|].
  { rewrite Et. exact Hg. }
  intros _ b' ev (cur & span & fuel' & -> & -> & Hf). cbv beta. do 2 host_step.
  split; [|by rewrite Ei]. exists PhWire. split; [constructor|].
  eapply sim_wire; [exact Hb|done..| |done|cbn; by rewrite Ew].
  split; [cbn -[splice]; rewrite length_splice; [done|lia]|]. split; [exact Hl|]. split; [by intros []|].
  intros _ _. split; [by apply H5|]. exists fuel'. exact Hf.
Qed.

Lemma wire_call_refines op b ph : host_sim b ph -> refines (wire_call op) LWire b ph.
Proof.
  intros Hs. destruct op as [bytes|announce gap breaks|bps|stream|us]; (apply refines_guarded; [done|by constructor|]); intros ->.
  1, 2, 4: repeat (case_goal; [by apply wire_invalid_refines|]); zbool.
  - by apply wire_single_refines.
  - by apply wire_single_refines.
  - by apply wire_burst_refines.
  - destruct (bps =? 0); [by apply wire_invalid_refines|]. destruct (sim_idle b Hs) as (Hb & Ei & Ed & Ew).
    unfold refines, HostBus_pace. repeat host_step. split; [|cbn; by rewrite Ei]. exists PhWire. split; [constructor|].
    eapply sim_wire; [exact Hb|done..| |done|done]. cbn. rewrite Ei. apply Hb.
  - destruct (us =? 0); [by apply wire_invalid_refines|]. destruct (sim_idle b Hs) as (Hb & Ei & Ed & Ew).
    unfold refines. repeat host_step. split; [|by rewrite Ei]. exists PhWire. split; [constructor|].
    eapply sim_wire; [exact Hb|done..| |done|cbn; by rewrite Ew]. cbn. eapply job_ok_leave; [apply Hb|done..].
Qed.

Lemma sim_active b ph : host_sim b ph -> hb_state b <> HIdle ->
  base (hb_state b) b /\ hb_pending_done b = None /\ hb_pending_wire_done b = None /\ in_phase b ph.
Proof.
  intros (H1 & H2 & H3 & H4) Hi. destruct (hb_pending_done b), (hb_pending_wire_done b); try done.
  - by destruct H4 as [? _].
  - by destruct H4 as [? _].
Qed.

(** A command closed after its last wire call. *)
Lemma release_finish_refines b want d outcome : base (hb_state b) b -> hb_state b <> HWireTx ->
  claimed (hb_state b) = true -> hb_pending_wire_done b = None ->
  (forall tick, closes want d (mkTerminal outcome tick (hb_evidence b))) ->
  refines (bout HeRelease ;; HostBus_finish outcome) (fun _ => LIrq) b (PhCmd want d).
Proof.
  intros Hb Hs Hc Hw Hcl. unfold refines. host_step. eapply runs_mono.
  - apply (finish_runs outcome b want d); [by eapply base_leave|done|done].
  - intros _ b' ev (-> & H1 & H2 & _). split; [eexists; split; [constructor|done]|]. cbn. by rewrite Hc, H2.
Qed.

Lemma wire_finish_refines b : base HWirePulse b -> claimed (hb_state b) = true -> hb_pending_done b = None ->
  refines wire_finish (fun _ => LIrq) b PhWire.
Proof.
  intros Hb Hc Hd. unfold refines, wire_finish. repeat host_step. split; [|cbn; by rewrite Hc].
  exists PhWire. split; [constructor|]. eapply (base_leave _ HIdle) in Hb; [|done..].
  eapply sim_wire; [exact Hb|done..|apply Hb|done|done].
Qed.

Lemma awaits_first p : plan_ok p -> sh_replies p <> RpNone -> awaits (sh_replies p) 0.
Proof. intros [Hp _] Hr. destruct (sh_replies p); cbn in *; (done || lia). Qed.

Lemma wire_advance_refines b : host_sim b PhWire -> hb_state b = HWireTx -> refines wire_advance (fun _ => LIrq) b PhWire.
Proof.
  intros Hs Est. destruct (sim_active b _ Hs) as ((H1 & H2 & H3) & Hd & Hw & _); [by rewrite Est|]. rewrite Est in H3.
  destruct H3 as (L1 & L2 & L3 & L4). unfold refines, wire_advance. do 2 host_step.
  assert (base HWirePulse (set_hb_wire_job (mkJob (wj_buf (hb_wire_job b)) (wj_len (hb_wire_job b))
    (wj_cursor (hb_wire_job b)) (wj_mode (hb_wire_job b)) None) b)) as Hb.
  { split; [cbn; lia|]. split; [done|]. split; [done|]. split; [done|]. by split. }
  destruct (wj_train (hb_wire_job b)) as [[n gap]|] eqn:Et.
  { repeat host_step. split; [|by rewrite Est]. exists PhWire. split; [constructor|].
    eapply (base_leave _ HIdle) in Hb; [|done..]. eapply sim_wire; [exact Hb|done..| |done|cbn; by rewrite Hw].
    eapply job_ok_leave; [apply Hb|done..]. }
  assert (forall st, claimed st = true -> hb_state b = st -> refines wire_finish (fun _ => LIrq) (set_hb_wire_job
    (mkJob (wj_buf (hb_wire_job b)) (wj_len (hb_wire_job b)) (wj_cursor (hb_wire_job b)) (wj_mode (hb_wire_job b)) None) b) PhWire)
    as Hfin by (intros; apply wire_finish_refines; [done|cbn; congruence|done]).
  destruct (wj_mode (hb_wire_job b)) eqn:Em; [by apply (Hfin HWireTx)|].
  destruct (Nat.ltb_spec (wj_cursor (hb_wire_job b)) (wj_len (hb_wire_job b))); [|by apply (Hfin HWireTx)].
  destruct (L4 eq_refl eq_refl) as [_ [fuel Hf]]. eapply runs_mono; [by eapply next_frame_runs; cbn; [|split|exact Hf]|].
  cbn. intros _ b' ev (cur & span & fuel' & -> & -> & Hf'). cbn. rewrite Est. split; [|done]. exists PhWire. split; [constructor|].
  unfold host_sim, in_phase. cbn. rewrite Hd, Hw, Est. sim_split; [|done]. split; [done|]. split; [done|]. split; [by intros []|].
  intros _ _. split; [done|]. by exists fuel'.
Qed.

Lemma on_tx_complete_refines b ph : host_sim b ph -> refines HostBus_on_tx_complete (fun _ => LIrq) b ph.
Proof.
  intros Hs. unfold refines, HostBus_on_tx_complete. apply runs_bind_get. destruct (hb_state b) eqn:Est.
  all: try (apply runs_ret; split; [exists ph; split; [constructor|done]|cbn; by rewrite Est]).
  - destruct (sim_active b _ Hs) as (Hb & Hd & Hw & Hp); [by rewrite Est|]. unfold in_phase in Hp. rewrite Est in Hp.
    destruct Hp as (p & Ep & Hp & Hf & ->). rewrite <- Est. host_step. rewrite Ep.
    destruct (sh_train p) as [[gap_us gaps]|] eqn:Et.
    { repeat host_step. split; [|by rewrite Est]. eexists. split; [constructor|]. rewrite (proj2 Hp) by (by rewrite Et).
      destruct Hb as (B1 & B2 & B3). unfold host_sim, in_phase. cbn. rewrite Hd, Hw.
      sim_split; [rewrite Est in B3; by eapply job_ok_leave|done]. }
    case_bool_decide as Hr.
    { rewrite Hr. apply release_finish_refines; [done|by rewrite Est|by rewrite Est|done|]. intros t. by split. }
    repeat host_step. split; [|by rewrite Est]. eexists. split; [constructor|].
    destruct Hb as (B1 & B2 & B3). unfold host_sim, in_phase. cbn. rewrite Hd, Hw.
    sim_split; [rewrite Est in B3; by eapply job_ok_leave|]. exists p, 0. split_and!; try done. by apply awaits_first.
  - destruct (sim_active b _ Hs) as (Hb & Hd & Hw & Hp); [by rewrite Est|]. unfold in_phase in Hp. rewrite Est in Hp.
    subst ph. rewrite <- Est. by apply wire_advance_refines.
Qed.

Lemma on_deadline_refines b ph : host_sim b ph -> refines HostBus_on_deadline (fun _ => LIrq) b ph.
Proof.
  intros Hs. unfold refines, HostBus_on_deadline. apply runs_bind_get. destruct (hb_state b) eqn:Est.
  all: try (apply runs_ret; split; [exists ph; split; [constructor|done]|cbn; by rewrite Est]).
  all: destruct (sim_active b _ Hs) as (Hb & Hd & Hw & Hp); [by rewrite Est|]; unfold in_phase in Hp; rewrite Est in Hp;
    host_step; destruct (_ <=? 1).
  - destruct Hp as [Hf ->]. eapply runs_mono.
    + apply (release_finish_refines b (WReplies RpNone) 0 OcSent); [done|by rewrite Est|by rewrite Est|done|by split].
    + rewrite Est. cbn. intros _ b' ev [? ?]. by split.
  - unfold next_slot. repeat host_step. split; [|done]. exists ph. split; [constructor|].
    destruct Hp as [Hf ->], Hb as (B1 & B2 & B3). unfold host_sim, in_phase. cbn. rewrite Hd, Hw.
    sim_split; [rewrite Est in B3; by eapply job_ok_leave|done].
  - subst ph. eapply runs_mono.
    + apply wire_finish_refines; [rewrite Est in Hb; by eapply base_leave|by rewrite Est|done].
    + rewrite Est. cbn. intros _ b' ev [? ?]. by split.
  - unfold next_slot. repeat host_step. split; [|done]. exists ph. split; [constructor|].
    destruct Hb as (B1 & B2 & B3). unfold host_sim, in_phase. cbn. rewrite Hd, Hw.
    sim_split; [rewrite Est in B3; by eapply job_ok_leave|done].
Qed.

(** ** Polling *)

(** The payload of a frame starts inside the ring. *)
Lemma step_frame_pos (ring : list Z) f cursor id inst pay pos f' : ring_len_ok (Z.of_nat (length ring)) ->
  HostFramer_step f ring cursor = Some (HsFrame id inst pay pos, f') -> 0 <= pos < Z.of_nat (length ring).
Proof.
  intros Hl Es. assert (pos = ring_wrap (f + 4) (Z.of_nat (length ring))) as ->.
  { unfold HostFramer_step, HostFramer_hunt in Es.
    repeat (case_hyp Es || match type of Es with (?o ≫= _) = _ => destruct o; cbn [mbind option_bind] in Es end);
      simplify_eq; done. }
  rewrite ring_wrap_mod by done. apply Z.mod_pos_bound. pose proof (ring_len_pos _ Hl). lia.
Qed.

(** A parsed payload is what a length byte can announce. *)
Lemma parse_step_short ring_len l id inst pay : bytes_ok l -> parse_step ring_len l = PFrame id inst pay ->
  (length pay <= 252)%nat.
Proof.
  intros Hb Ep. apply parse_step_frame_inv in Ep as [_ El]; [|done].
  assert (is_u8 (3 + Z.of_nat (length pay))); [|lia]. apply (bytes_ok_lookup l 2%nat _ Hb). by rewrite El.
Qed.

(** One step of the walker returns, stays in the ring and makes progress. *)
Lemma host_step_progress (ring : list Z) f cursor : bytes_ok ring -> Z.of_nat (length ring) = h_size -> 0 <= f < h_size ->
  exists s f', HostFramer_step f ring cursor = Some (s, f') /\ 0 <= f' < h_size /\
    match s with
    | HsIdle | HsPartial => f' = f
    | HsFrame _ inst pay pos => 0 <= pos < h_size /\ Z.of_nat (FrameBytes_len pay) <= Z.min 252 h_size /\
        ((cursor - f') mod h_size < (cursor - f) mod h_size)
    | HsGarble _ => (cursor - f') mod h_size < (cursor - f) mod h_size
    end.
Proof.
  intros Hb Hl Hf. pose proof h_size_pos. pose proof h_size_ok as Hok. rewrite <- Hl in *.
  destruct (step_refines ring Hok f cursor Hb Hf) as (s & Es & Hs & Hle & Hp). cbv zeta in *.
  set (av := (cursor - f) mod _) in *. rewrite length_ring_bytes in Hle.
  set (p := parse_step _ _) in *. set (k := parsed_len p) in *.
  assert (0 <= av < Z.of_nat (length ring)) by (apply Z.mod_pos_bound; lia).
  assert ((cursor - (f + Z.of_nat k) mod Z.of_nat (length ring)) mod Z.of_nat (length ring) = av - Z.of_nat k) as Ek.
  { rewrite Zminus_mod_idemp_r. replace (cursor - (f + Z.of_nat k)) with (cursor - f - Z.of_nat k) by lia.
    rewrite <- Zminus_mod_idemp_l. fold av. apply Z.mod_small. lia. }
  exists s, ((f + Z.of_nat k) mod Z.of_nat (length ring)). split; [done|]. split; [apply Z.mod_pos_bound; lia|].
  destruct s as [| |id inst pay pos|n]; destruct p as [| |id' inst' pay'|n'] eqn:Epp; try done; subst k; cbn [parsed_len] in *.
  - rewrite Z.add_0_r. by apply Z.mod_small.
  - rewrite Z.add_0_r. by apply Z.mod_small.
  - split; [eapply step_frame_pos; [exact Hok|exact Es]|]. split; [|rewrite Ek; lia].
    destruct Hs as (_ & _ & Hs). rewrite FrameBytes_len_spec, Hs.
    assert (length pay' <= 252)%nat by (eapply parse_step_short; [apply ring_bytes_ok, Hb|exact Epp]). lia.
  - rewrite Ek. destruct Hp as [?|[?|?]]; [done|done|lia].
Qed.

Definition expected_of (r : Replies) : option Z :=
  match r with RpSingle | RpNone => Some 1 | RpChain n => Some n | RpCollect => None end.

(** Waiting for replies under plan [p], [d] of them delivered. *)
Definition awaiting b (p : Shape) (d : Z) : Prop :=
  base HAwaiting b /\ hb_state b = HAwaiting /\ hb_plan b = Some p /\ plan_ok p /\ we_statuses (hb_evidence b) = d /\
  hb_got b = d /\ awaits (sh_replies p) d /\ hb_pending_done b = None /\ hb_pending_wire_done b = None.

Lemma awaiting_sim b p d : awaiting b p d -> host_sim b (PhCmd (WReplies (sh_replies p)) d).
Proof.
  intros ((H1 & H2 & H3) & Hs & Hp & Ho & Hv & Hg & Ha & Hd & Hw). unfold host_sim, in_phase. rewrite Hd, Hw, Hs.
  sim_split. exists p, d. by split_and!.
Qed.

(** The count after one more status: the command closes, or goes on waiting. *)
Lemma awaits_next p d : plan_ok p -> awaits (sh_replies p) d ->
  if bool_decide (expected_of (sh_replies p) = Some (saturating_add8 d 1))
  then forall tick v, we_statuses v = saturating_add8 d 1 ->
    closes (WReplies (sh_replies p)) (saturating_add8 d 1) (mkTerminal OcComplete tick v)
  else awaits (sh_replies p) (saturating_add8 d 1).
Proof.
  intros [Hp _] Ha. unfold saturating_add8, closes. case_bool_decide as He; destruct (sh_replies p); cbn in *; try done; try lia.
  - intros. split; [done|]. congruence.
  - destruct He. f_equal. lia.
  - assert (Z.min 255 (d + 1) <> n) by congruence. lia.
Qed.

(** What one walk of a poll may end in. *)
Definition await_post b p d (res : option (Z * Id * Inst * Z * Z)) b' (ev : list HostEv) : Prop :=
  wire_drive false ev = Some false /\
  match res with
  | None => awaiting b' p d /\ (work b' <= work b)%nat
  | Some (slot, id, inst, pos, n) =>
      let d' := saturating_add8 d 1 in
      slot = d' - 1 /\ Inst_is_status inst = true /\ 0 <= pos < h_size /\ 0 <= n <= Z.min 252 h_size /\
      host_sim b' (PhCmd (WReplies (sh_replies p)) d') /\ claimed (hb_state b') = false /\ (work b' < work b)%nat
  end.

Lemma close_complete_runs b want d now pace_at cursor ring_len Q : base HIdle b -> hb_pending_wire_done b = None ->
  (forall tick v, we_statuses v = we_statuses (hb_evidence b) -> closes want d (mkTerminal OcComplete tick v)) ->
  (forall b', host_sim b' (PhCmd want d) -> hb_state b' = HIdle -> hb_env b' = hb_env b ->
    hb_framer b' = hb_framer b -> hb_got b' = hb_got b -> Q tt b' [HeCancel]) ->
  runs (close_complete now pace_at cursor ring_len) b Q.
Proof.
  intros (H1 & H2 & H3) Hw Hc HQ. unfold close_complete. do 5 host_step.
  case_goal; repeat host_step; (apply HQ; [|done..]); unfold host_sim; cbn; rewrite Hw.
  all: sim_split; split; [done|]; exists want, d; split; [done|]; apply Hc; unfold fold_unresolved; by case_goal.
Qed.

(** Evidence other than statuses, and the deadline, may change while waiting. *)
Lemma awaiting_junk b p d f e v at_ : awaiting b p d -> 0 <= f < h_size -> we_statuses v = we_statuses (hb_evidence b) ->
  awaiting (set_hb_deadline_at at_ (set_hb_evidence v (set_hb_framer f (set_hb_env e b)))) p d.
Proof.
  intros ((H1 & H2 & H3) & Hs & Hp & Ho & Hv & Hg & Ha & Hd & Hw) Hf Ev. split_and!; cbn; try done; try lia; try (by apply H3).
Qed.

Lemma push_window_bind {A} now (k : H E A) b Q :
  (forall at_, runs k (set_hb_deadline_at at_ b) (fun a b' ev => Q a b' (HeSet at_ :: ev))) -> runs (push_window now ;; k) b Q.
Proof. intros Hk. unfold push_window. do 5 host_step. apply Hk. Qed.

(** Junk on the way to the next verdict: the rest of the walk decides. *)
Lemma await_post_later b b1 p d res b' at_ ev : (work b1 <= work b)%nat -> await_post b1 p d res b' ev ->
  await_post b p d res b' (HeSet at_ :: ev).
Proof.
  intros Hw [Hd Hr]. split; [done|]. destruct res as [[[[[slot id] inst] pos] n]|]; [|destruct Hr; split; [done|lia]]. cbv zeta in *.
  split_and!; try apply Hr. destruct Hr as (_ & _ & _ & _ & _ & _ & Hr). lia.
Qed.

Lemma await_status_runs p d now pace_at ring_len cursor id inst pay pos b b0 :
  awaiting b p d -> Inst_is_status inst = true -> 0 <= pos < h_size -> Z.of_nat (FrameBytes_len pay) <= Z.min 252 h_size ->
  (work b < work b0)%nat ->
  runs (bmod (fun b => set_hb_got (saturating_add8 (hb_got b) 1) b) ;;
        upd_evidence status_evidence ;;
        do got <- bget hb_got;
        (if bool_decide (expected_of (sh_replies p) = Some got) then close_complete now pace_at cursor ring_len
         else push_window now) ;;
        bmod (set_hb_last_cursor (u16 cursor)) ;;
        bret (Some (got - 1, id, inst, pos, Z.of_nat (FrameBytes_len pay)))) b (await_post b0 p d).
Proof.
  intros ((H1 & H2 & H3) & Hs & Hp & Ho & Hv & Hg & Ha & Hd & Hw) Hi Hpos Hlen Hwork. do 3 host_step. cbn [hb_got set_hb_got set_hb_evidence].
  rewrite Hg. pose proof (awaits_next p d Ho Ha) as Hn. set (d' := saturating_add8 d 1) in *.
  case_bool_decide.
  - apply runs_bind. eapply (close_complete_runs _ (WReplies (sh_replies p)) d');
      [split; [done|split; [done|by eapply job_ok_leave]]|done| |].
    + cbn. intros tick v Ev. apply Hn. rewrite Ev, Hv. done.
    + intros b' Hsim Hi' He Hf' Hgot. repeat host_step. split; [done|]. cbv zeta. split_and!; try done; try lia.
      * cbn. by rewrite Hi'.
      * unfold work in *. cbn in *. by rewrite He, Hf'.
  - apply push_window_bind. intros at_. repeat host_step. split; [done|]. cbv zeta. split_and!; try done; try lia.
    + apply awaiting_sim. split_and!; cbn; rewrite ?Hv; try done; try (by apply H3); lia.
    + cbn. by rewrite Hs.
Qed.

Lemma await_loop_runs p d now pace_at ring_len : forall fuel b, (work b < fuel)%nat -> awaiting b p d ->
  runs (await_loop fuel (expected_of (sh_replies p)) now pace_at ring_len) b (await_post b p d).
Proof.
  induction fuel as [|fuel IH]; intros b Hf Hb; [lia|]. cbn [await_loop]. do 2 host_step.
  match goal with e : E, Hd : h_drift (hb_env b) ?e |- _ => pose proof (work_drift b e Hd) as Hwd end.
  destruct (h_ring_ok (hb_env (set_hb_env e b))) as [Hrb Hrl]. assert (0 <= hb_framer b < h_size) as H1 by apply Hb.
  destruct (host_step_progress _ (hb_framer b) (h_at e) Hrb Hrl H1) as (s & f & Es & Hfr & Hprog).
  eapply runs_bind_quiet; [cbn in *; by rewrite Es|]. set (b1 := set_hb_framer f (set_hb_env e b)).
  assert (forall v at_, we_statuses v = we_statuses (hb_evidence b) ->
    awaiting (set_hb_deadline_at at_ (set_hb_evidence v b1)) p d) as Hj by (intros; by apply awaiting_junk).
  assert (awaiting b1 p d) as Hb1 by (by specialize (Hj (hb_evidence b) (hb_deadline_at b) eq_refl)).
  assert ((h_at e - f) mod h_size < (h_at e - hb_framer b) mod h_size -> (work b1 < work b)%nat) as Hless.
  { intros Hlt. unfold work in *. cbn in *. pose proof h_size_pos. assert (0 < h_size) as Hpos by lia.
    pose proof (Z.mod_pos_bound (h_at e - f) h_size Hpos). lia. }
  assert (forall g, (work b1 < work b)%nat -> runs (upd_evidence (garble_evidence g) ;; push_window now ;;
    await_loop fuel (expected_of (sh_replies p)) now pace_at ring_len) b1 (await_post b p d)) as Hjunk.
  { intros g Hlt. host_step. apply push_window_bind. intros at_. eapply runs_mono; [apply IH|].
    - unfold work in *. cbn in *. lia.
    - by apply Hj.
    - intros res b' ev. apply await_post_later. unfold work in *. cbn in *. lia. }
  destruct s as [| |id inst pay pos|n].
  - apply runs_ret. split; [done|]. split; [done|]. by apply work_le.
  - apply runs_ret. split; [done|]. split; [done|]. by apply work_le.
  - destruct Hprog as (Hpos & Hlen & Hlt). destruct (Inst_is_status inst) eqn:Ei; [|by apply Hjunk, Hless].
    by apply await_status_runs; [..|apply Hless].
  - by apply Hjunk, Hless.
Qed.

Definition is_status_event (r : option HostEvent) : bool :=
  match r with Some (HevStatus _ _ _ _) => true | _ => false end.

(** A poll: a step of the abstract machine, the wire kept in order, no work
    added, some consumed by every status. *)
Definition poll_post b ph (r : option HostEvent) b' (ev : list HostEv) : Prop :=
  (exists ph', contract ph (LPoll r) ph' /\ host_sim b' ph') /\
  wire_drive (claimed (hb_state b)) ev = Some (claimed (hb_state b')) /\
  (work b' + (if is_status_event r then 1 else 0) <= work b)%nat.

(** A waiting terminal is handed out once. *)
Lemma take_done_runs b ph : host_sim b ph ->
  runs take_done b (fun r b' ev => ev = [] /\ poll_post b ph r b' ev /\ is_status_event r = false /\
    (r = None -> host_sim b' ph /\ hb_state b' = hb_state b)).
Proof.
  intros (H1 & H2 & H3 & H4). unfold take_done. repeat host_step. split; [done|].
  assert (hb_pending_done b = None -> host_sim (set_hb_pending_done None b) ph) as Hn
    by (intros Ed; unfold host_sim; cbn; rewrite Ed in H4; by sim_split).
  unfold poll_post. destruct (hb_pending_done b) as [t|] eqn:Ed; cbn.
  - split; [|done]. split; [|split; [done|unfold work; cbn; lia]]. destruct (hb_pending_wire_done b) eqn:Ew; [done|].
    destruct H4 as (Hi & want & d & -> & Hc). exists PhIdle. split; [by constructor|].
    unfold host_sim, in_phase. cbn. rewrite Ew, Hi in *. by sim_split.
  - split; [|by auto]. split; [|split; [done|unfold work; cbn; lia]]. exists ph. split; [constructor|auto].
Qed.

Lemma take_wire_done_runs b ph : host_sim b ph ->
  runs take_wire_done b (fun r b' ev => ev = [] /\ poll_post b ph r b' ev /\ is_status_event r = false /\
    (r = None -> host_sim b' ph /\ hb_state b' = hb_state b)).
Proof.
  intros (H1 & H2 & H3 & H4). unfold take_wire_done. repeat host_step. split; [done|].
  assert (hb_pending_wire_done b = None -> host_sim (set_hb_pending_wire_done None b) ph) as Hn
    by (intros Ed; unfold host_sim; cbn; rewrite Ed in H4; by sim_split).
  unfold poll_post. destruct (hb_pending_wire_done b) as [t|] eqn:Ew; cbn.
  - split; [|done]. split; [|split; [done|unfold work; cbn; lia]]. destruct (hb_pending_done b) eqn:Ed; [done|].
    destruct H4 as (Hi & ->). exists PhIdle. split; [constructor|].
    unfold host_sim, in_phase. cbn. rewrite Ed, Hi in *. by sim_split.
  - split; [|by auto]. split; [|split; [done|unfold work; cbn; lia]]. exists ph. split; [constructor|auto].
Qed.

(** Quiet so far, then whatever follows. *)
Lemma poll_post_after b b1 ph r b2 e1 e2 : wire_drive (claimed (hb_state b)) e1 = Some (claimed (hb_state b1)) ->
  (work b1 <= work b)%nat -> poll_post b1 ph r b2 e2 -> poll_post b ph r b2 (e1 ++ e2).
Proof. intros Hd Hw (H1 & H2 & H3). split; [done|]. split; [by rewrite wire_drive_app, Hd|lia]. Qed.

Lemma take_first (m k : H E (option HostEvent)) b ph :
  runs m b (fun r b' ev => ev = [] /\ poll_post b ph r b' ev /\ is_status_event r = false /\
    (r = None -> host_sim b' ph /\ hb_state b' = hb_state b)) ->
  (forall b', host_sim b' ph -> hb_state b' = hb_state b -> (work b' <= work b)%nat -> runs k b' (poll_post b' ph)) ->
  runs (do r <- m; match r with Some e => bret (Some e) | None => k end) b (poll_post b ph).
Proof.
  intros Hm Hk. apply runs_bind. eapply runs_mono; [exact Hm|]. intros r b' ev (-> & Hp & Hr & Hn).
  destruct r as [e|]; [apply runs_ret; by rewrite app_nil_r|]. destruct (Hn eq_refl) as [Hs Est], Hp as (_ & Hd & Hw).
  cbn in Hw. eapply runs_mono; [apply Hk; [done|done|lia]|]. intros r b2 ev Hp. eapply (poll_post_after b b'); [done|lia|done].
Qed.

Lemma poll_tail_runs b ph : host_sim b ph -> runs poll_tail b (poll_post b ph).
Proof.
  intros Hs. apply take_first; [by apply take_wire_done_runs|]. intros b' Hs' _ _.
  eapply runs_mono; [by apply take_done_runs|]. by intros r b2 ev (_ & Hp & _).
Qed.

Lemma then_tail (m : H E unit) b ph :
  runs m b (fun _ b1 ev => host_sim b1 ph /\ wire_drive (claimed (hb_state b)) ev = Some (claimed (hb_state b1)) /\
    (work b1 <= work b)%nat) -> runs (m ;; poll_tail) b (poll_post b ph).
Proof.
  intros Hm. apply runs_bind. eapply runs_mono; [exact Hm|]. intros _ b1 ev (Hs & Hd & Hw).
  eapply runs_mono; [by apply poll_tail_runs|]. intros r b2 ev2 Hp. by eapply poll_post_after.
Qed.

(** Reading the clock leaves the engine as it is. *)
Lemma host_sim_env b e ph : host_sim b ph -> host_sim (set_hb_env e b) ph.
Proof. done. Qed.

Lemma await_quiet_runs p d now ring_len b : awaiting b p d ->
  runs (await_quiet p now ring_len) b (poll_post b (PhCmd (WReplies (sh_replies p)) d)).
Proof.
  intros Hb. pose proof Hb as ((H1 & H2 & H3) & Hs & Hp & Ho & Hv & Hg & Ha & Hd & Hw). unfold await_quiet. do 4 host_step.
  match goal with |- runs _ ?b1 _ => assert (awaiting b1 p d) as Hb1 by done; assert (work b1 <= work b)%nat as Hw1 by (by apply work_le) end.
  cbn [hb_last_cursor set_hb_last_cursor hb_deadline_at set_hb_env].
  assert (forall b2 e2, host_sim b2 (PhCmd (WReplies (sh_replies p)) d) -> claimed (hb_state b2) = false -> (work b2 <= work b)%nat ->
    wire_drive false e2 = Some false ->
    runs take_done b2 (fun a b3 e3 => poll_post b (PhCmd (WReplies (sh_replies p)) d) a b3 (e2 ++ e3))) as Htake.
  { intros b2 e2 S2 C2 W2 D2. eapply runs_mono; [by apply take_done_runs|]. intros r b3 e3 (_ & Hp3 & _).
    eapply (poll_post_after b b2); [by rewrite Hs, C2|done|done]. }
  destruct (negb _); [|destruct (tick_reached _ _)].
  - apply push_window_bind. intros at_. apply (Htake _ [_]); [by apply awaiting_sim|cbn; by rewrite Hs|done|done].
  - repeat host_step. apply runs_bind. eapply runs_mono.
    + apply (finish_runs _ _ (WReplies (sh_replies p)) d);
        [split; [exact H1|split; [exact H2|by eapply job_ok_leave]]|done|].
      intros t. cbn. unfold fold_unresolved, closes. split; [cbn; case_goal; exact Hv|]. cbn [tm_outcome]. rewrite Hg.
      unfold awaits in Ha. destruct (sh_replies p); (done || lia).
    + intros _ b2 ev (-> & S2 & E2 & W2). cbv beta. apply (Htake _ [HeCancel]); [done|by rewrite E2| |done].
      etransitivity; [exact W2|exact Hw1].
  - apply runs_bind_ret. eapply runs_mono; [eapply (Htake _ []); [by apply awaiting_sim|cbn; by rewrite Hs|done|done]|done].
Qed.

Lemma poll_await_runs fuel now b ph : host_sim b ph -> hb_state b = HAwaiting -> (work b < fuel)%nat ->
  runs (HostBus_poll_await fuel now) b (poll_post b ph).
Proof.
  intros Hs Est Hf. destruct (sim_active b _ Hs) as (Hb & Hd & Hw & Hp); [by rewrite Est|]. unfold in_phase in Hp.
  rewrite Est in Hp. destruct Hp as (p & d & Ep & Hp & Hv & Hg & Ha & ->).
  assert (awaiting b p d) as Haw by (rewrite Est in Hb; by split_and!; try apply Hb).
  unfold HostBus_poll_await. host_step. rewrite Ep. do 2 host_step. apply runs_bind.
  eapply runs_mono; [by apply await_loop_runs|]. intros res b1 ev [Hdr Hr].
  destruct res as [[[[[slot id] inst] pos] n]|]; cbv beta.
  - destruct Hr as (-> & Hi & Hpos & Hn & S1 & C1 & W1). host_step. destruct (h_ring_ok (hb_env b1)) as [_ Hrl].
    destruct (payload_view_spec (h_bytes (hb_env b1))) with (s := pos) (n := n) as (v & Ev & Eb);
      [rewrite Hrl; apply h_size_ok|lia..|]. eapply runs_bind_lift; [exact Ev|]. host_step. rewrite app_nil_r.
    split; [|split; [rewrite Est; cbn [claimed]; by rewrite Hdr, C1|cbn; lia]]. eexists. split; [|exact S1]. constructor; [done|done|].
    rewrite FrameBytes_len_spec, Eb, length_ring_bytes. lia.
  - destruct Hr as [Hr Hwk]. eapply runs_mono; [by apply await_quiet_runs|]. intros r b2 e2.
    apply poll_post_after; [|done]. rewrite Est. cbn [claimed]. rewrite Hdr. by destruct Hr as (_ & -> & _).
Qed.

(** The clock has been read; [b] is the engine at that moment. *)
Lemma poll_due_runs fuel now (due : bool) b ph : host_sim b ph -> (work b < fuel)%nat ->
  runs (match hb_state b with
        | HIdle | HTransmitting | HTraining _ _ | HWireTx | HWireTrain _ _ => poll_tail
        | HPacing => (if due then HostBus_start_tx else bret tt) ;; poll_tail
        | HRescueHold =>
            (if due then
               bout HeRelease ;; bout (HeBaud BaudRate_RESCUE) ;; bmod (set_hb_rate BaudRate_RESCUE) ;;
               HostBus_pace ;; HostBus_finish OcSent
             else bret tt) ;; poll_tail
        | HWirePulse => (if due then wire_finish else bret tt) ;; poll_tail
        | HAwaiting => HostBus_poll_await fuel now
        end) b (poll_post b ph).
Proof.
  intros Hs Hf. destruct (hb_state b) eqn:Est; try (by apply poll_tail_runs); try (by apply poll_await_runs).
  all: apply then_tail; destruct due; [|by apply runs_ret].
  all: destruct (sim_active b _ Hs) as (Hb & Hd & Hw & Hp); [by rewrite Est|]; unfold in_phase in Hp; rewrite Est in *.
  - destruct Hp as (p & Ep & Hp & Hv & -> & frame & Ef & Lf). eapply start_tx_runs; [exact Ef|done|].
    split; [|done]. eapply (sim_exchange _ p HTransmitting frame); cbn; auto. by eapply base_leave.
  - destruct Hp as [Hv ->]. unfold HostBus_pace. repeat host_step. eapply runs_mono.
    + apply (finish_runs OcSent _ WLocal 0); [by eapply base_leave|done|]. by split.
    + intros _ b' ev (-> & S' & E' & W'). split; [done|]. rewrite E'. split; [done|].
      etransitivity; [exact W'|]. by apply work_le.
  - subst ph. unfold wire_finish. repeat host_step. eapply (base_leave _ HIdle) in Hb; [|done..].
    split; [|split; [done|by apply work_le]]. by eapply sim_wire; [exact Hb|done..|apply Hb|done|done].
Qed.

Lemma poll_runs fuel b ph : host_sim b ph -> (work b < fuel)%nat -> runs (HostBus_poll fuel) b (poll_post b ph).
Proof.
  intros Hs Hf. apply take_first; [by apply take_done_runs|]. intros b1 S1 _ W1.
  apply take_first; [by apply take_wire_done_runs|]. intros b2 S2 _ W2. unfold poll_state. do 3 host_step.
  match goal with Hd : h_drift (hb_env b2) ?x |- _ => pose proof (work_drift b2 x Hd) as W3;
    assert (host_sim (set_hb_env x b2) ph) as S3 by done end.
  eapply runs_mono; [apply poll_due_runs; [exact S3|lia]|]. intros r b3 ev. by apply (poll_post_after _ _ _ _ _ []).
Qed.

(** ** Runs *)

(** The calls of a driver and its interrupts; between them the world moves. *)
Inductive HostCall :=
| HcSubmit (cmd : Command) | HcWire (op : WireOp) | HcTxComplete | HcDeadline | HcPoll | HcWorld (e : E).

(** A poll never needs more turns than the ring is long and bytes arrive. *)
Definition poll_fuel b : nat := S (Z.to_nat h_size + h_flow (hb_env b)).

Definition run_call (c : HostCall) : TM Bus HostEv Label :=
  match c with
  | HcSubmit cmd => do r <- HostBus_submit cmd; bret (LSubmit cmd r)
  | HcWire op => do r <- wire_call op; bret (LWire r)
  | HcTxComplete => HostBus_on_tx_complete ;; bret LIrq
  | HcDeadline => HostBus_on_deadline ;; bret LIrq
  | HcPoll => do fuel <- bget poll_fuel; do r <- HostBus_poll fuel; bret (LPoll r)
  | HcWorld e => bmod (set_hb_env e) ;; bret LIrq
  end.
Fixpoint run_calls (cs : list HostCall) : TM Bus HostEv (list Label) :=
  match cs with [] => bret [] | c :: cs' => do l <- run_call c; do ls <- run_calls cs'; bret (l :: ls) end.

Definition call_typed (c : HostCall) : Prop := match c with HcSubmit cmd => cmd_typed cmd | _ => True end.

Lemma work_fuel b : (work b < poll_fuel b)%nat.
Proof.
  unfold work, poll_fuel. pose proof h_size_pos. assert (0 < h_size) as Hp by lia.
  pose proof (Z.mod_pos_bound (h_at (hb_env b) - hb_framer b) h_size Hp). lia.
Qed.

Lemma refines_label {A} (m : H E A) lbl b ph : refines m lbl b ph ->
  runs (do r <- m; bret (lbl r)) b (fun l b' ev => (exists ph', contract ph l ph' /\ host_sim b' ph') /\
    wire_drive (claimed (hb_state b)) ev = Some (claimed (hb_state b'))).
Proof.
  intros Hm. apply runs_bind. eapply runs_mono; [exact Hm|]. intros a b' ev Hp. apply runs_ret. by rewrite app_nil_r.
Qed.

Lemma run_call_refines c b ph : host_sim b ph -> call_typed c -> refines (run_call c) (fun l => l) b ph.
Proof.
  intros Hs Ht. destruct c as [cmd|op| | | |e]; cbn [run_call].
  - by apply (refines_label _ (LSubmit cmd)), submit_refines.
  - by apply (refines_label _ LWire), wire_call_refines.
  - by apply (refines_label _ (fun _ => LIrq)), on_tx_complete_refines.
  - by apply (refines_label _ (fun _ => LIrq)), on_deadline_refines.
  - unfold refines. host_step. apply (refines_label _ LPoll). eapply runs_mono; [apply poll_runs; [done|apply work_fuel]|].
    intros r b' ev (H1 & H2 & _). by split.
  - apply runs_bind_mod, runs_ret. split; [|done]. exists ph. split; [constructor|done].
Qed.
End engine_calls.

Lemma HostBus_new_sim {E} {HP : HostProviders E} {HL : HostLaws E} (env : E) rate : host_sim (HostBus_new env rate) PhIdle.
Proof.
  pose proof h_size_pos. split; [cbn; unfold HostFramer_new; lia|]. split; [done|]. split; [|done].
  split; [done|]. split; [cbn; lia|]. by split.
Qed.

(** A run of the abstract machine. *)
Inductive obeys : Phase -> list Label -> Phase -> Prop :=
| ob_nil ph : obeys ph [] ph
| ob_cons ph1 l ph2 ls ph3 : contract ph1 l ph2 -> obeys ph2 ls ph3 -> obeys ph1 (l :: ls) ph3.

(** C5: the engine keeps its contract with every caller.  Start an engine and
    let the driver submit commands and instrument operations, take interrupts
    (expected or not), poll, and let the world move (ring, clock, edges) in any
    order; the commands are any but exchanges of the MGMT sub-ops SecInit,
    SecKey, SecAttest and SecRekey, for which the gate's match in shape.rs has no
    arm.  Then every call returns; a command or operation is accepted exactly when
    nothing is outstanding, or refused as busy or invalid; an accepted command
    streams statuses numbered from zero, never more than its instruction draws,
    and is closed by exactly one terminal whose outcome, slot and count agree
    with what was streamed; an accepted operation is closed by exactly one
    completion.  The wire is claimed, driven and released in turn, driven only
    while claimed, and its rate changes only while it is free. *)
Theorem engine_contract {E} {HP : HostProviders E} {HL : HostLaws E} (env : E) rate (cs : list HostCall) :
  Forall call_typed cs ->
  runs (run_calls cs) (HostBus_new env rate) (fun ls b' ev =>
    exists ph, obeys PhIdle ls ph /\ host_sim b' ph /\ wire_drive false ev = Some (claimed (hb_state b'))).
Proof.
  assert (forall b ph, host_sim b ph -> Forall call_typed cs -> runs (run_calls cs) b (fun ls b' ev =>
    exists ph', obeys ph ls ph' /\ host_sim b' ph' /\ wire_drive (claimed (hb_state b)) ev = Some (claimed (hb_state b')))) as Hrun.
  { induction cs as [|c cs IH]; intros b ph Hs Ht; cbn [run_calls].
    - apply runs_ret. exists ph. by split; [constructor|].
    - inversion_clear Ht as [|? ? Hc Hcs]. apply runs_bind. eapply runs_mono; [by apply run_call_refines|].
      intros l b1 e1 [(ph1 & C1 & S1) D1]. apply runs_bind. eapply runs_mono; [by apply (IH b1 ph1)|].
      intros ls b2 e2 (ph2 & O2 & S2 & D2). apply runs_ret. exists ph2. split; [by econstructor|]. split; [done|].
      by rewrite app_nil_r, wire_drive_app, D1. }
  intros Ht. apply (Hrun (HostBus_new env rate) PhIdle); [apply HostBus_new_sim|done].
Qed.

(** ** A bench host: a sixteen-byte ring, a clock and edge buffers as values *)

Record BenchHost := mkBenchHost { bh_ring : list Z; bh_at : Z; bh_now : Z }.
Definition bench_host_ring (l : list Z) : list Z := take 16 (map u8 l ++ replicate 16 0).

#[export] Instance BenchHost_providers : HostProviders BenchHost := {
  H_TICKS_PER_US := 1;
  h_bytes e := bench_host_ring (bh_ring e);
  h_cursor e := (bh_at e mod 16, mkBenchHost (bh_ring e) (bh_at e mod 16) (bh_now e));
  h_now e := (bh_now e, e);
  h_drain_falls n e := ([], e);
  h_drain_rises n e := ([], e);
  h_overflow e := false;
  h_edges_reset e := e;
}.

#[export, refine] Instance BenchHost_laws : HostLaws BenchHost := {
  h_size := 16; h_at e := bh_at e mod 16; h_flow e := 0%nat;
}.
Proof.
  - exists 4. lia.
  - intros e. cbn. unfold bench_host_ring. split.
    + apply Forall_take, Forall_app. split; [|by apply Forall_replicate].
      apply Forall_fmap, Forall_forall. intros x _. apply u8_range.
    + rewrite length_take, length_app, length_replicate. lia.
  - intros e. cbn. split; [by rewrite Z.mod_mod by lia|]. split; [apply Z.mod_pos_bound; lia|]. exists 0%nat. cbn.
    rewrite Z.add_0_r, !Z.mod_mod by lia. lia.
  - intros e. exists 0%nat. cbn. rewrite Z.add_0_r, Z.mod_mod by lia. lia.
  - intros n e. cbn. lia.
Defined.

(** A ping answered, a second submit refused meanwhile, a pulse run. *)
Definition host_demo_calls : list (@HostCall BenchHost) :=
  [HcSubmit (CmdExchange 5 (Inst_instruction OpPing 0) []); HcSubmit CmdRescue; HcTxComplete;
   HcWorld (mkBenchHost (take 9 host_demo_frame) 9 100); HcPoll; HcPoll; HcPoll;
   HcWire (WoPulse 50); HcWorld (mkBenchHost [] 9 1000); HcPoll].

Lemma engine_contract_witness :
  Forall call_typed host_demo_calls /\
  runs (run_calls host_demo_calls) (HostBus_new (mkBenchHost [] 0 0) B1000000) (fun ls b' ev =>
    exists ph, obeys PhIdle ls ph /\ host_sim b' ph /\ wire_drive false ev = Some (claimed (hb_state b'))).
Proof.
  assert (Forall call_typed host_demo_calls) as Ht by (repeat constructor; vm_compute; by eexists).
  split; [exact Ht|]. exact (engine_contract (mkBenchHost [] 0 0) B1000000 host_demo_calls Ht).
Defined.

(** What that run yields. *)
Example host_demo_labels :
  (fun r => r.1.1) <$> run_calls host_demo_calls (HostBus_new (mkBenchHost [] 0 0) B1000000) =
  Some [LSubmit (CmdExchange 5 16 []) (Ok tt); LSubmit CmdRescue (Err SeBusy); LIrq; LIrq;
        LPoll (Some (HevStatus 0 5 128 (FrameBytes_new [7; 0; 1] [])));
        LPoll (Some (HevDone (mkTerminal OcComplete 100 (mkEvidence 1 0 false)))); LPoll None;
        LWire (Ok tt); LIrq; LPoll (Some (HevWireDone 1000))].
Proof. vm_compute. reflexivity. Qed.
