(* ===== verification/HostTiming.v ===== *)
(** * The host engine's deadlines (firmware/lib/host/src/engine/mod.rs)

    The await window is computed in 32-bit ticks and compared with a wrapping
    clock.  The theorems: the computation never wraps and the comparison reads
    the window right across any wrap of the clock; and a silent bus is closed by
    the first poll at or after the window's end, and by no earlier one. *)

From S2P Require Import Prelude Trace Crc FrameBytes Wire Frame Group Ring HostFramer HostShape HostEngine HostContract.
Local Open Scope trace_scope.

Lemma u32_exact x : 0 <= x < 4294967296 -> u32 x = x.
Proof. apply u32_id. Qed.

(** The window in exact arithmetic. *)
Definition exact_window (ticks_per_us deadline_us : Z) (rate : BaudRate) (p : Shape) : Z :=
  let byte := ticks_per_us * 10000000 / BaudRate_as_hz rate in
  deadline_us * ticks_per_us + (sh_reply_footprint p + WINDOW_MARGIN_BYTES) * byte +
  match sh_replies p with RpCollect => ENUM_REPLY_SLOTS * byte | _ => 0 end +
  (if sh_slow p then SLOW_OP_EXTRA_US * ticks_per_us else 0).

Lemma widest_bound l m : Forall (fun x => 0 <= x <= m) l -> 0 <= m -> 0 <= widest l <= m.
Proof.
  unfold widest. intros Hl Hm. assert (forall acc, 0 <= acc <= m -> 0 <= fold_left Z.max l acc <= m) as Hg; [|apply Hg; lia].
  induction Hl as [|x l Hx Hl IH]; intros acc Ha; cbn; [lia|]. apply IH. lia.
Qed.

Lemma read_reply_bound c : 0 <= read_reply c <= 258.
Proof.
  unfold read_reply, footprint. pose proof (u8_range (3 + u8 (Z.min c MAX_PAYLOAD))). rewrite u16_id by lia. lia.
Qed.

(** No plan allows for more than the largest frame. *)
Lemma Shape_derive_footprint id inst payload sh : Shape_derive id inst payload = Some (Ok sh) -> 0 <= sh_reply_footprint sh <= 258.
Proof.
  unfold Shape_derive. destruct (Inst_is_status inst); [done|]. destruct (Inst_opcode inst) as [op|]; [|done].
  destruct (negb _); [done|]. destruct (MAX_PAYLOAD <? _); [done|].
  destruct (shape_of_op op inst payload _) as [[s|]|] eqn:Es; [|done..]. cbn. intros [= <-].
  assert (0 <= sh_reply_footprint s <= 258) as Hs; [|unfold suppress; destruct (_ && _); cbn; lia].
  unfold shape_of_op, shape_gread, shape_mgmt, gate in Es. destruct op; repeat (case_hyp Es; try discriminate); simplify_eq; cbn.
  all: try (vm_compute; split; discriminate); try apply read_reply_bound.
  apply widest_bound; [|lia]. apply Forall_fmap, Forall_forall. intros t _. apply read_reply_bound.
Qed.

Section timing.
Context {E : Type} {HP : HostProviders E}.

(** Rates and tick rates the byte time is exact at. *)
Lemma window_exact (b : @HostBus E) p : 1 <= H_TICKS_PER_US <= 420 -> is_u16 (hb_response_deadline_us b) ->
  0 <= sh_reply_footprint p <= 258 ->
  HostBus_window_for p b = exact_window H_TICKS_PER_US (hb_response_deadline_us b) (hb_rate b) p /\
  0 < HostBus_window_for p b < 2 ^ 26.
Proof.
  intros Ht Hd Hf. unfold HostBus_window_for, HostBus_byte_ticks, exact_window, WINDOW_MARGIN_BYTES, SLOW_OP_EXTRA_US, ENUM_REPLY_SLOTS.
  set (t := H_TICKS_PER_US) in *. set (d := hb_response_deadline_us b) in *. set (fp := sh_reply_footprint p) in *.
  rewrite (u32_exact (t * 10000000)) by lia. set (byte := t * 10000000 / BaudRate_as_hz (hb_rate b)).
  assert (1 <= byte <= 8400) as Hb.
  { subst byte. destruct (hb_rate b); cbn [BaudRate_as_hz]; zmod. }
  assert (0 <= d * t <= 65535 * 420) by nia. assert (0 <= fp * byte <= 258 * 8400) by nia.
  rewrite !(u32_exact (d * t)), !(u32_exact (fp * byte)), !(u32_exact (16 * byte)) by lia.
  rewrite !(u32_exact (d * t + fp * byte)) by lia. rewrite !(u32_exact (d * t + fp * byte + 16 * byte)) by lia.
  rewrite !(u32_exact (50000 * t)) by lia.
  rewrite !(u32_exact (d * t + fp * byte + 16 * byte + 16 * byte)) by lia.
  destruct (sh_replies p), (sh_slow p); rewrite ?u32_exact by lia; lia.
Qed.

(** Reading the clock or the cursor of a still environment. *)
Definition still (e : E) (tick c : Z) : Prop := h_now e = (tick, e) /\ h_cursor e = (c, e).

Lemma still_now (b : @HostBus E) tick c : still (hb_env b) tick c -> h_now_ b = Some (tick, b, []).
Proof. intros [Hn _]. unfold h_now_. rewrite Hn. by destruct b. Qed.
Lemma still_cursor (b : @HostBus E) tick c : still (hb_env b) tick c -> h_cursor_ b = Some (c, b, []).
Proof. intros [_ Hc]. unfold h_cursor_. rewrite Hc. by destruct b. Qed.

Lemma runs_still_now {A} tick c (k : Z -> H E A) (b : @HostBus E) Q : still (hb_env b) tick c -> runs (k tick) b Q ->
  runs (bbind h_now_ k) b Q.
Proof. intros Hs. by apply runs_bind_quiet, (still_now b tick c). Qed.
Lemma runs_still_cursor {A} tick c (k : Z -> H E A) (b : @HostBus E) Q : still (hb_env b) tick c -> runs (k c) b Q ->
  runs (bbind h_cursor_ k) b Q.
Proof. intros Hs. by apply runs_bind_quiet, (still_cursor b tick c). Qed.

(** The window seen through the wrapping clock. *)
Lemma reached_window T k w : 0 <= k < 2 ^ 31 -> 0 < w < 2 ^ 26 -> tick_reached (u32 (T + k)) (u32 (T + w)) = (w <=? k).
Proof.
  intros Hk Hw. unfold tick_reached. rewrite u32_sub. replace (T + k - (T + w)) with (k - w) by lia.
  destruct (Z.leb_spec w k).
  - rewrite u32_exact by lia. apply Z.ltb_lt. lia.
  - apply Z.ltb_ge. unfold u32. rewrite <- (Z.mod_unique_pos (k - w) 4294967296 (-1) (k - w + 4294967296)) by lia. lia.
Qed.

(** The terminal a silent bus earns. *)
Definition silent_terminal (p : Shape) (d tick : Z) (v : WireEvidence) : Terminal :=
  mkTerminal (match sh_replies p with RpCollect => OcComplete | _ => OcTimeout d end) tick v.

Lemma finish_still outcome tick c (b : @HostBus E) Q : still (hb_env b) tick c ->
  (forall b', hb_pending_done b' = Some (mkTerminal outcome tick (hb_evidence b)) -> hb_state b' = HIdle -> Q tt b' []) ->
  runs (HostBus_finish outcome) b Q.
Proof.
  intros Hs HQ. unfold HostBus_finish, HostBus_pace. apply runs_bind_get. destruct (0 <? _).
  - apply runs_bind_assoc, runs_bind_get, runs_bind_assoc. eapply runs_still_now; [exact Hs|]. apply runs_bind_mod.
    eapply runs_still_now; [exact Hs|]. do 4 trace_step. by apply HQ.
  - apply runs_bind_ret. eapply runs_still_now; [exact Hs|]. do 4 trace_step. by apply HQ.
Qed.

Lemma step_silent c ring : HostFramer_step c ring c = Some (HsIdle, c).
Proof. unfold HostFramer_step, ring_wrap. by rewrite Z.sub_diag. Qed.

Lemma unresolved_silent c len : unresolved c c len = 0.
Proof. unfold unresolved. replace (c + len - c) with len by lia. by rewrite Z_mod_same_full. Qed.

Lemma await_loop_silent fuel expected now pace_at ring_len tick c (b : @HostBus E) : still (hb_env b) tick c -> hb_framer b = c ->
  await_loop (S fuel) expected now pace_at ring_len b = Some (None, b, []).
Proof.
  intros Hs Hf. cbn [await_loop]. rewrite (bbind_quiet _ _ _ _ _ (still_cursor b tick c Hs)).
  unfold h_ring_. rewrite (bbind_quiet (bget _) _ _ _ _ eq_refl). erewrite bbind_quiet; [|by rewrite Hf, step_silent].
  subst c. by destruct b.
Qed.

(** Waiting for the first reply of [p] until [until], all of the ring read. *)
Definition awaits (c : Z) (p : Shape) (until : Z) (v : WireEvidence) (b : @HostBus E) : Prop :=
  hb_framer b = c /\ hb_last_cursor b = c /\ hb_state b = HAwaiting /\ hb_plan b = Some p /\ hb_pending_done b = None /\
  hb_pending_wire_done b = None /\ hb_deadline_at b = until /\ hb_got b = 0 /\ hb_evidence b = v.

(** A poll while nothing arrives. *)
Lemma poll_silent fuel tick c p until v (b : @HostBus E) : still (hb_env b) tick c -> awaits c p until v b ->
  runs (HostBus_poll (S fuel)) b (fun r b' ev =>
    if tick_reached tick until
    then r = Some (HevDone (silent_terminal p 0 tick v)) /\ hb_state b' = HIdle /\ ev = [HeCancel]
    else r = None /\ awaits c p until v b' /\ ev = []).
Proof.
  intros Hs (Hf & Hl & Hst & Hp & Hd & Hw & Hu & Hg & Hv). destruct b as [env fr bu st pl ra rd pu da wi go lc v0 pd wj pw]. cbn in *. subst. unfold HostBus_poll, take_done, take_wire_done, poll_state.
  repeat trace_step. cbn. repeat trace_step. cbn. eapply runs_still_now; [exact Hs|]. repeat trace_step. cbn.
  unfold HostBus_poll_await. repeat trace_step. cbn [hb_plan set_hb_pending_wire_done set_hb_pending_done].
  trace_step. unfold h_ring_. trace_step. eapply runs_bind_quiet; [by apply (await_loop_silent _ _ _ _ _ tick c)|].
  unfold await_quiet. eapply runs_still_cursor; [exact Hs|]. do 3 trace_step. rewrite Z.eqb_refl. cbn [negb].
  cbn [hb_deadline_at set_hb_last_cursor set_hb_pending_wire_done set_hb_pending_done].
  destruct (tick_reached tick until).
  - repeat host_step. apply runs_bind. eapply finish_still; [exact Hs|].
    intros b' Hd' Hs'. unfold take_done. repeat trace_step. rewrite Hd'. cbn.
    unfold HostFramer_anchor. by rewrite unresolved_silent.
  - repeat trace_step. unfold take_done. by repeat trace_step.
Qed.

(** A poll when the clock and the cursor stand as in [e]; several in a row. *)
Definition poll_at (fuel : nat) (e : E) : H E (option HostEvent) := bmod (set_hb_env e) ;; HostBus_poll fuel.
Fixpoint polls_at (fuel : nat) (es : list E) : H E (list (option HostEvent)) :=
  match es with
  | [] => bret []
  | e :: es' => do r <- poll_at fuel e; do rs <- polls_at fuel es'; bret (r :: rs)
  end.

Lemma poll_at_silent fuel tick c p until v e (b : @HostBus E) : still e tick c -> awaits c p until v b ->
  runs (poll_at (S fuel) e) b (fun r b' ev =>
    if tick_reached tick until
    then r = Some (HevDone (silent_terminal p 0 tick v)) /\ hb_state b' = HIdle /\ ev = [HeCancel]
    else r = None /\ awaits c p until v b' /\ ev = []).
Proof. intros Hs Ha. unfold poll_at. trace_step. by apply poll_silent. Qed.

(** Polls short of the window leave the engine waiting. *)
Lemma polls_silent fuel T c p w v early (b : @HostBus E) : 0 < w < 2 ^ 26 ->
  Forall (fun ke => 0 <= ke.1 < w /\ still ke.2 (u32 (T + ke.1)) c) early -> awaits c p (u32 (T + w)) v b ->
  runs (polls_at (S fuel) (snd <$> early)) b (fun rs b' _ => Forall (eq None) rs /\ awaits c p (u32 (T + w)) v b').
Proof.
  intros Hw He. revert b. induction He as [|[k e] early [Hk Hs] He IH]; intros b Ha; cbn [polls_at fmap list_fmap snd].
  - apply runs_ret. by split.
  - apply runs_bind. eapply runs_mono; [by apply (poll_at_silent fuel (u32 (T + k)) c p (u32 (T + w)) v)|].
    cbn in Hk. rewrite reached_window by lia. rewrite (proj2 (Z.leb_gt _ _)) by lia.
    intros r b1 ev (-> & Ha1 & _). apply runs_bind. eapply runs_mono; [by apply IH|].
    intros rs b2 ev2 [Hrs Ha2]. apply runs_ret. split; [by constructor|done].
Qed.

(** The end of a transmission that draws replies opens the window. *)
Lemma tx_complete_still tick c p (b : @HostBus E) Q : still (hb_env b) tick c -> hb_state b = HTransmitting ->
  hb_plan b = Some p -> sh_train p = None -> sh_replies p <> RpNone ->
  (forall b', hb_env b' = hb_env b -> hb_framer b' = hb_framer b -> hb_last_cursor b' = c -> hb_state b' = HAwaiting ->
    hb_plan b' = Some p -> hb_pending_done b' = hb_pending_done b -> hb_pending_wire_done b' = hb_pending_wire_done b ->
    hb_deadline_at b' = u32 (tick + HostBus_window_for p b) -> hb_got b' = 0 -> hb_evidence b' = hb_evidence b ->
    Q tt b' [HeRelease; HeSet (u32 (tick + HostBus_window_for p b))]) ->
  runs HostBus_on_tx_complete b Q.
Proof.
  intros Hs Hst Hp Ht Hr HQ. unfold HostBus_on_tx_complete. trace_step. rewrite Hst. trace_step. rewrite Hp, Ht.
  rewrite bool_decide_false by done. do 3 trace_step. eapply runs_still_cursor; [exact Hs|]. do 2 trace_step.
  eapply runs_still_now; [exact Hs|]. unfold HostBus_arm. do 3 trace_step. by apply HQ.
Qed.
End timing.

(** The await window is what it says, at any clock.  For every plan the
    gate can produce, every configured response deadline, every line rate and
    every tick rate up to 420 per microsecond: the 32-bit computation of the
    window is the exact sum of its terms and stays below 2^26 ticks; so a poll
    [k] ticks after the window opened finds it expired exactly when [k] has
    reached the window, wherever the clock wraps. *)
Theorem window_bounds {E} {HP : HostProviders E} (b : @HostBus E) id inst payload p :
  Shape_derive id inst payload = Some (Ok p) -> 1 <= H_TICKS_PER_US <= 420 -> is_u16 (hb_response_deadline_us b) ->
  let w := HostBus_window_for p b in
  w = exact_window H_TICKS_PER_US (hb_response_deadline_us b) (hb_rate b) p /\ 0 < w < 2 ^ 26 /\
  forall T k, 0 <= k < 2 ^ 31 -> tick_reached (u32 (T + k)) (u32 (T + w)) = (w <=? k).
Proof.
  intros Hp Ht Hd. destruct (window_exact b p Ht Hd (Shape_derive_footprint _ _ _ _ Hp)) as [He Hb]. cbv zeta.
  split; [exact He|]. split; [exact Hb|]. intros T k Hk. by apply reached_window.
Qed.

Definition timing_demo_bus : @HostBus BenchHost := HostBus_new (mkBenchHost [] 0 0) B1000000.
Definition timing_demo_plan : Shape := mkShape RpSingle 9 None false.

Lemma window_bounds_witness :
  Shape_derive 5 (Inst_instruction OpPing 0) [] = Some (Ok timing_demo_plan) /\
  HostBus_window_for timing_demo_plan timing_demo_bus = 310 /\
  forall T k, 0 <= k < 2 ^ 31 -> tick_reached (u32 (T + k)) (u32 (T + 310)) = (310 <=? k).
Proof.
  assert (Shape_derive 5 (Inst_instruction OpPing 0) [] = Some (Ok timing_demo_plan)) as Hp by (vm_compute; reflexivity).
  assert (1 <= H_TICKS_PER_US <= 420) as Ht by (cbn; lia).
  assert (is_u16 (hb_response_deadline_us timing_demo_bus)) as Hd by (vm_compute; split; discriminate || reflexivity).
  assert (HostBus_window_for timing_demo_plan timing_demo_bus = 310) as Hw by (vm_compute; reflexivity).
  split; [exact Hp|]. split; [exact Hw|]. rewrite <- Hw.
  exact (proj2 (proj2 (window_bounds timing_demo_bus 5 (Inst_instruction OpPing 0) [] timing_demo_plan Hp Ht Hd))).
Defined.

(** C27: a silent bus is noticed, on time.  The engine is transmitting an
    instruction whose plan the gate accepted, which draws replies and is no
    CAL train; no finished command waits to be reported, and the ring is read
    up to its cursor.  The clock has between 1 and 420 ticks per microsecond,
    the configured response deadline is any 16-bit one, the line rate any of
    the rates.  The transmission ends at tick [T], and no byte arrives
    afterwards.  The window is the exact sum of its terms: the deadline, the
    time on the wire of the plan's widest reply and of the margin, the slots of
    an enumeration, the allowance of a flash operation.  Then any polls at ticks short of
    [T] plus the window all return nothing; and the next poll, at tick
    [T + k] for any [k] below 2^31, wherever the 32-bit clock wraps, returns
    nothing and waits on while [k] is short of the window, and once [k] has
    reached it returns the terminal and leaves the engine idle: timed out at
    the first slot, or, for an enumeration, complete, with the evidence the
    engine had. *)
Theorem silent_bus_times_out {E} {HP : HostProviders E} (b : @HostBus E) id inst payload p T c early k e' fuel :
  Shape_derive id inst payload = Some (Ok p) -> sh_train p = None -> sh_replies p <> RpNone ->
  1 <= H_TICKS_PER_US <= 420 -> is_u16 (hb_response_deadline_us b) ->
  hb_state b = HTransmitting -> hb_plan b = Some p -> hb_pending_done b = None -> hb_pending_wire_done b = None ->
  still (hb_env b) T c -> hb_framer b = c ->
  let w := exact_window H_TICKS_PER_US (hb_response_deadline_us b) (hb_rate b) p in
  Forall (fun ke => 0 <= ke.1 < w /\ still ke.2 (u32 (T + ke.1)) c) early ->
  0 <= k < 2 ^ 31 -> still e' (u32 (T + k)) c ->
  runs (HostBus_on_tx_complete ;; do rs <- polls_at (S fuel) (snd <$> early); do r <- poll_at (S fuel) e'; bret (rs, r)) b
    (fun r b' _ => Forall (eq None) r.1 /\
       if w <=? k
       then r.2 = Some (HevDone (silent_terminal p 0 (u32 (T + k)) (hb_evidence b))) /\ hb_state b' = HIdle
       else r.2 = None /\ hb_state b' = HAwaiting).
Proof.
  intros Hp Ht Hr Htk Hd Hst Hpl Hpd Hpw Hs Hf w Hearly Hk Hs'.
  destruct (window_exact b p Htk Hd (Shape_derive_footprint _ _ _ _ Hp)) as [He Hb]. fold w in He.
  apply runs_bind. eapply tx_complete_still; try eassumption. intros b1 E1 F1 L1 S1 P1 D1 W1 T1 G1 V1.
  assert (awaits c p (u32 (T + w)) (hb_evidence b) b1) as Ha by (unfold awaits; rewrite <- He; repeat split; congruence).
  apply runs_bind. eapply runs_mono; [apply (polls_silent _ T c p w (hb_evidence b)); [rewrite <- He; done|done|exact Ha]|].
  cbn. intros rs b2 ev (Hrs & Hb2). apply runs_bind.
  eapply runs_mono; [apply (poll_at_silent fuel (u32 (T + k)) c p (u32 (T + w)) (hb_evidence b)); done|]. cbn.
  rewrite reached_window by (done || (rewrite <- He; done)). intros r b3 ev' Hpost. split; [done|].
  destruct (w <=? k); destruct Hpost as (? & Hx & _); [by split|]. split; [done|]. by destruct Hx as (_ & _ & ? & _).
Qed.

Definition timing_demo_sent : @HostBus BenchHost :=
  match run_calls [HcSubmit (CmdExchange 5 (Inst_instruction OpPing 0) [])] timing_demo_bus with
  | Some (_, b, _) => b
  | None => timing_demo_bus
  end.

Lemma silent_bus_times_out_witness :
  hb_state timing_demo_sent = HTransmitting /\
  runs (HostBus_on_tx_complete ;;
        do rs <- polls_at 1 [mkBenchHost [] 0 120; mkBenchHost [] 0 309]; do r <- poll_at 1 (mkBenchHost [] 0 310); bret (rs, r))
    timing_demo_sent (fun r b' _ => Forall (eq None) r.1 /\
      if exact_window H_TICKS_PER_US (hb_response_deadline_us timing_demo_sent) (hb_rate timing_demo_sent) timing_demo_plan <=? 310
      then r.2 = Some (HevDone (silent_terminal timing_demo_plan 0 (u32 (0 + 310)) (hb_evidence timing_demo_sent))) /\ hb_state b' = HIdle
      else r.2 = None /\ hb_state b' = HAwaiting).
Proof.
  assert (hb_state timing_demo_sent = HTransmitting) as Hst by (vm_compute; reflexivity). split; [exact Hst|].
  apply (silent_bus_times_out timing_demo_sent 5 (Inst_instruction OpPing 0) [] timing_demo_plan 0 0
           [(120, mkBenchHost [] 0 120); (309, mkBenchHost [] 0 309)]).
  1: vm_compute; reflexivity.
  1: reflexivity.
  1: discriminate.
  1: cbn; lia.
  1: vm_compute; split; discriminate || reflexivity.
  1: exact Hst.
  1-3: vm_compute; reflexivity.
  1: split; vm_compute; reflexivity.
  1: vm_compute; reflexivity.
  1: repeat constructor; vm_compute; reflexivity || discriminate.
  1: lia.
  split; vm_compute; reflexivity.
Defined.
