(* ===== verification/Link.v ===== *)
(** * The link server (firmware/lib/host/src/link/record.rs, server.rs)

    The adapter and its client exchange length-prefixed records over an ordered
    byte pipe.  [LinkServer_on_pipe] accumulates bytes, cuts records out and
    drives the engine; [LinkServer_pump] turns engine events into records.  The
    state pairs the server with the engine it serves; the trace carries the
    engine's wire calls and the records sent to the client. *)

From S2P Require Import Prelude Trace FrameBytes Wire Frame Ring HostFramer HostShape HostEngine.
Local Open Scope trace_scope.

(** ** Record formats (record.rs) *)

Definition REC_HELLO : Z := 0.
Definition REC_SUBMIT : Z := 1.
Definition REC_ENTER_BOOTLOADER : Z := 64.
Definition REC_SET_RAILS : Z := 96.
Definition RAILS_BOOT_STATE : Z := 3.
Definition REC_WIRE_SEND : Z := 97.
Definition REC_WIRE_BURST : Z := 98.
Definition REC_WIRE_PULSE : Z := 99.
Definition REC_EDGE_DRAIN : Z := 100.
Definition REC_CAPTURE_RESET : Z := 101.
Definition REC_WIRE_TRAIN : Z := 102.
Definition REC_WIRE_BAUD : Z := 103.
Definition REC_INFO : Z := 128.
Definition REC_STATUS : Z := 129.
Definition REC_TERMINAL : Z := 130.
Definition REC_REJECTED : Z := 131.
Definition REC_UNKNOWN : Z := 132.
Definition REC_BOOTLOADER_ACK : Z := 72.
Definition REC_RAILS_ACK : Z := 104.
Definition REC_WIRE_DONE : Z := 105.
Definition REC_EDGES : Z := 108.
Definition REC_CAPTURE_ACK : Z := 109.
Definition DRAIN_MAX : nat := 64.

Definition VERB_EXCHANGE : Z := 0.
Definition VERB_RESCUE : Z := 1.
Definition VERB_HOST_BAUD : Z := 2.
Definition VERB_SET_RESPONSE_DEADLINE : Z := 3.

Definition REASON_BAD_ID : Z := 0.
Definition REASON_BAD_INST : Z := 1.
Definition REASON_BAD_PAYLOAD : Z := 2.
Definition REASON_TOO_LONG : Z := 3.
Definition REASON_BUSY : Z := 4.
Definition REASON_MALFORMED : Z := 5.

Definition OUTCOME_SENT : Z := 0.
Definition OUTCOME_COMPLETE : Z := 1.
Definition OUTCOME_TIMEOUT : Z := 2.
Definition FLAG_GARBLE_AFTER_LAST_FRAME : Z := 1.
Definition LINK_VERSION : Z := 1.
Definition SEQ_NONE : Z := 65535.

Definition reason_code (r : InvalidReason) : Z :=
  match r with
  | IrBadId => REASON_BAD_ID | IrBadInst => REASON_BAD_INST
  | IrBadPayload => REASON_BAD_PAYLOAD | IrTooLong => REASON_TOO_LONG
  end.

(** A record in a scratch buffer of [cap] bytes: its length, then type and
    body.  A body that does not fit is an out-of-range slice, a panic. *)
Definition rec_sealed (cap : nat) (body : list Z) : option (list Z) :=
  if Nat.leb (2 + length body) cap then Some (to_le16 (u16 (Z.of_nat (length body))) ++ body) else None.

Definition record_info (cap : nat) (ticks_per_us : Z) : option (list Z) :=
  rec_sealed cap (REC_INFO :: LINK_VERSION :: to_le32 ticks_per_us).
Definition record_rejected (cap : nat) (seq reason : Z) : option (list Z) :=
  rec_sealed cap (REC_REJECTED :: to_le16 seq ++ [reason]).
Definition record_unknown (cap : nat) (rtype : Z) : option (list Z) := rec_sealed cap [REC_UNKNOWN; rtype].
Definition record_bootloader_ack (cap : nat) : option (list Z) := rec_sealed cap [REC_BOOTLOADER_ACK].
Definition record_rails_ack (cap : nat) (state : Z) : option (list Z) := rec_sealed cap [REC_RAILS_ACK; state].
Definition record_wire_done (cap : nat) (seq tick : Z) : option (list Z) :=
  rec_sealed cap (REC_WIRE_DONE :: to_le16 seq ++ to_le32 tick).
Definition record_edges (cap : nat) (overflow : bool) (now : Z) (falls rises : list Z) : option (list Z) :=
  rec_sealed cap (REC_EDGES :: Z.b2z overflow :: to_le32 now ++
    [u8 (Z.of_nat (length falls)); u8 (Z.of_nat (length rises))] ++ concat (to_le16 <$> (falls ++ rises))).
Definition record_capture_ack (cap : nat) : option (list Z) := rec_sealed cap [REC_CAPTURE_ACK].
Definition record_status (cap : nat) (seq slot id inst : Z) (payload : FrameBytes) : option (list Z) :=
  rec_sealed cap (REC_STATUS :: to_le16 seq ++ [slot; id; inst] ++ fb_head payload ++ fb_tail payload).
Definition record_terminal (cap : nat) (seq : Z) (t : Terminal) : option (list Z) :=
  let '(outcome, slot) := match tm_outcome t with
                          | OcSent => (OUTCOME_SENT, 0)
                          | OcComplete => (OUTCOME_COMPLETE, 0)
                          | OcTimeout slot => (OUTCOME_TIMEOUT, slot)
                          end in
  rec_sealed cap (REC_TERMINAL :: to_le16 seq ++ [outcome; slot] ++ to_le32 (tm_tick t) ++
    [we_statuses (tm_evidence t)] ++ to_le16 (we_garble (tm_evidence t)) ++
    [if we_garble_after_last_frame (tm_evidence t) then FLAG_GARBLE_AFTER_LAST_FRAME else 0]).

(** ** The server (server.rs) *)

Definition RX_CAP : nat := 512.
Definition OUT_CAP : nat := 300.

Inductive AdapterRequest := EnterBootloader | SetRails (v3v3 v5 : bool).
Record AdapterState := mkAdapter { ad_req : option AdapterRequest; ad_rails : Z }.

Record LinkServer := mkServer {
  ls_rx : list Z; ls_rx_len : nat; ls_active : option Z; ls_wire_active : option Z; ls_adapter : AdapterState }.
Definition LinkServer_new : LinkServer :=
  mkServer (replicate RX_CAP 0) 0 None None (mkAdapter None RAILS_BOOT_STATE).
Definition LinkServer_take_adapter_request (s : LinkServer) : option AdapterRequest * LinkServer :=
  (ad_req (ls_adapter s),
   mkServer (ls_rx s) (ls_rx_len s) (ls_active s) (ls_wire_active s) (mkAdapter None (ad_rails (ls_adapter s)))).

Inductive LinkEv := LeWire (e : HostEv) | LeRec (r : list Z).

Section link.
Context {E : Type} {HP : HostProviders E}.

Record Link := mkLink { lk_server : LinkServer; lk_bus : @HostBus E }.
Definition LM (A : Type) : Type := TM Link LinkEv A.

Definition on_bus {A} (m : H E A) : LM A := fun s =>
  match m (lk_bus s) with
  | Some (a, b, ev) => Some (a, mkLink (lk_server s) b, map LeWire ev)
  | None => None
  end.
Definition on_env {A} (f : E -> A * E) : LM A := fun s =>
  let '(a, e) := f (hb_env (lk_bus s)) in Some (a, mkLink (lk_server s) (set_hb_env e (lk_bus s)), []).
Definition upd_server (f : LinkServer -> LinkServer) : LM unit :=
  bmod (fun s => mkLink (f (lk_server s)) (lk_bus s)).
Definition set_active (a : option Z) : LM unit :=
  upd_server (fun s => mkServer (ls_rx s) (ls_rx_len s) a (ls_wire_active s) (ls_adapter s)).
Definition set_wire_active (a : option Z) : LM unit :=
  upd_server (fun s => mkServer (ls_rx s) (ls_rx_len s) (ls_active s) a (ls_adapter s)).
Definition set_adapter (a : AdapterState) : LM unit :=
  upd_server (fun s => mkServer (ls_rx s) (ls_rx_len s) (ls_active s) (ls_wire_active s) a).
Definition set_rx (rx : list Z) (n : nat) : LM unit :=
  upd_server (fun s => mkServer rx n (ls_active s) (ls_wire_active s) (ls_adapter s)).
(** Hand a record to the sink. *)
Definition sink (r : option (list Z)) : LM unit := do r <- blift r; bout (LeRec r).

Definition handle_set_rails (rec : list Z) : LM unit :=
  do ad <- bget (fun s => ls_adapter (lk_server s));
  let mask := Z.land (default 3 (rec !! 2%nat)) 3 in
  do state <- blift (rec !! 1%nat);
  let rails := Z.lor (Z.land (ad_rails ad) (Z.lxor 255 mask)) (Z.land state mask) in
  set_adapter (mkAdapter (if negb (mask =? 0)
                          then Some (SetRails (negb (Z.land rails 1 =? 0)) (negb (Z.land rails 2 =? 0)))
                          else ad_req ad) rails) ;;
  sink (record_rails_ack OUT_CAP rails).

(** The instrument verbs; [None] is a body of the wrong size. *)
Definition wire_verb (rtype : Z) (body : list Z) : option (H E (result unit SubmitError)) :=
  if rtype =? REC_WIRE_SEND then Some (HostBus_wire_send body)
  else if rtype =? REC_WIRE_BURST then Some (HostBus_wire_burst body)
  else if rtype =? REC_WIRE_PULSE then
    match body with [a; b] => Some (HostBus_wire_pulse_low (from_le16 a b)) | _ => None end
  else if rtype =? REC_WIRE_TRAIN then
    match body with a :: b :: n :: x :: rest => Some (HostBus_wire_train (x :: rest) (from_le16 a b) n) | _ => None end
  else
    match body with [a; b; c; d] => Some (HostBus_wire_baud (from_le32 a b c d)) | _ => None end.

Definition handle_wire (rec : list Z) : LM unit :=
  match rec with
  | rtype :: s0 :: s1 :: body =>
      let seq := from_le16 s0 s1 in
      match wire_verb rtype body with
      | None => sink (record_rejected OUT_CAP seq REASON_MALFORMED)
      | Some m =>
          do res <- on_bus m;
          match res with
          | Ok _ => set_wire_active (Some seq)
          | Err SeBusy => sink (record_rejected OUT_CAP seq REASON_BUSY)
          | Err (SeInvalid _) => sink (record_rejected OUT_CAP seq REASON_MALFORMED)
          end
      end
  | rtype :: _ => sink (record_unknown OUT_CAP rtype)
  | [] => blift None
  end.

Definition handle_drain (max : Z) : LM unit :=
  let max := Nat.min (Z.to_nat max) DRAIN_MAX in
  do rises <- on_env (h_drain_rises max);
  do falls <- on_env (h_drain_falls max);
  do overflow <- bget (fun s => h_overflow (hb_env (lk_bus s)));
  do now <- on_env h_now;
  sink (record_edges OUT_CAP overflow now falls rises).

(** The command a SUBMIT body names. *)
Definition submit_verb (verb : Z) (args : list Z) : option Command :=
  if verb =? VERB_EXCHANGE then
    match args with id :: inst :: payload => Some (CmdExchange id inst payload) | _ => None end
  else if verb =? VERB_RESCUE then match args with [] => Some CmdRescue | _ => None end
  else if verb =? VERB_HOST_BAUD then
    match args with [i] => CmdHostBaud <$> BaudRate_from_idx i | _ => None end
  else if verb =? VERB_SET_RESPONSE_DEADLINE then
    match args with [a; b] => Some (CmdSetResponseDeadline (from_le16 a b)) | _ => None end
  else None.

Definition handle_submit (rec : list Z) : LM unit :=
  match rec with
  | _ :: s0 :: s1 :: verb :: args =>
      let seq := from_le16 s0 s1 in
      match submit_verb verb args with
      | None => sink (record_rejected OUT_CAP seq REASON_MALFORMED)
      | Some cmd =>
          do res <- on_bus (HostBus_submit cmd);
          match res with
          | Ok _ => set_active (Some seq)
          | Err SeBusy => sink (record_rejected OUT_CAP seq REASON_BUSY)
          | Err (SeInvalid r) => sink (record_rejected OUT_CAP seq (reason_code r))
          end
      end
  | _ => sink (record_unknown OUT_CAP REC_SUBMIT)
  end.

Definition link_handle (rec : list Z) : LM unit :=
  do rtype <- blift (rec !! 0%nat);
  if rtype =? REC_HELLO then sink (record_info OUT_CAP H_TICKS_PER_US)
  else if rtype =? REC_ENTER_BOOTLOADER then
    do ad <- bget (fun s => ls_adapter (lk_server s));
    set_adapter (mkAdapter (Some EnterBootloader) (ad_rails ad)) ;;
    sink (record_bootloader_ack OUT_CAP)
  else if (rtype =? REC_SET_RAILS) && Nat.leb 2 (length rec) then handle_set_rails rec
  else if (rtype =? REC_WIRE_SEND) || (rtype =? REC_WIRE_BURST) || (rtype =? REC_WIRE_PULSE) ||
          (rtype =? REC_WIRE_TRAIN) || (rtype =? REC_WIRE_BAUD) then handle_wire rec
  else if (rtype =? REC_EDGE_DRAIN) && Nat.leb 2 (length rec) then
    do max <- blift (rec !! 1%nat); handle_drain max
  else if rtype =? REC_CAPTURE_RESET then
    on_env (fun e => (tt, h_edges_reset e)) ;; sink (record_capture_ack OUT_CAP)
  else if rtype =? REC_SUBMIT then handle_submit rec
  else sink (record_unknown OUT_CAP rtype).

(** Every record takes at least three bytes: one turn per buffered byte is
    enough. *)
Fixpoint extract_loop (fuel : nat) : LM unit :=
  match fuel with
  | O => blift None
  | S fuel' =>
      do sv <- bget lk_server;
      let rx := ls_rx sv in
      let n := ls_rx_len sv in
      if Nat.ltb n 2 then bret tt
      else
        do lo <- blift (rx !! 0%nat);
        do hi <- blift (rx !! 1%nat);
        let len := Z.to_nat (from_le16 lo hi) in
        if Nat.eqb len 0 || Nat.ltb (RX_CAP - 2) len then
          set_rx rx 0 ;; sink (record_unknown OUT_CAP 255)
        else if Nat.ltb n (2 + len) then bret tt
        else
          do rec <- blift (get_range rx 2 (2 + len));
          link_handle rec ;;
          do rest <- blift (get_range rx (2 + len) n);
          set_rx (splice 0 rest rx) (n - (2 + len)) ;;
          extract_loop fuel'
  end.
Definition LinkServer_extract : LM unit := do n <- bget (fun s => ls_rx_len (lk_server s)); extract_loop (S n).

(** Each turn with room takes bytes; a turn without room empties the buffer. *)
Fixpoint on_pipe_loop (fuel : nat) (bytes : list Z) : LM unit :=
  match bytes, fuel with
  | [], _ => bret tt
  | _, O => blift None
  | _, S fuel' =>
      do sv <- bget lk_server;
      let room := (RX_CAP - ls_rx_len sv)%nat in
      let take_ := Nat.min room (length bytes) in
      set_rx (splice (ls_rx_len sv) (take take_ bytes) (ls_rx sv)) (ls_rx_len sv + take_) ;;
      LinkServer_extract ;;
      (if Nat.eqb take_ 0 then
         do sv <- bget lk_server;
         set_rx (ls_rx sv) 0 ;; sink (record_unknown OUT_CAP 255)
       else bret tt) ;;
      on_pipe_loop fuel' (drop take_ bytes)
  end.
Definition LinkServer_on_pipe (bytes : list Z) : LM unit := on_pipe_loop (2 * length bytes) bytes.

(** One engine event as a record. *)
Definition link_event (e : HostEvent) : LM unit :=
  do sv <- bget lk_server;
  match e with
  | HevStatus slot id inst payload =>
      sink (record_status OUT_CAP (default SEQ_NONE (ls_active sv)) slot id inst payload)
  | HevDone t => set_active None ;; sink (record_terminal OUT_CAP (default SEQ_NONE (ls_active sv)) t)
  | HevWireDone tick =>
      set_wire_active None ;; sink (record_wire_done OUT_CAP (default SEQ_NONE (ls_wire_active sv)) tick)
  end.

(** [n] events at most; [fuel] bounds each poll's walk. *)
Fixpoint LinkServer_pump (n fuel : nat) : LM unit :=
  match n with
  | O => blift None
  | S n' =>
      do ev <- on_bus (HostBus_poll fuel);
      match ev with
      | None => bret tt
      | Some e => link_event e ;; LinkServer_pump n' fuel
      end
  end.

End link.
Arguments mkLink {E}.
Arguments LM : clear implicits.
