(* ===== verification/LinkContract.v ===== *)
(** * The link server's contract (firmware/lib/host/src/link)

    Record extraction does not depend on how the pipe cuts the byte stream, and
    the records that come back keep the contract record.rs states: one answer
    for each request, statuses before the terminal of the command they belong
    to. *)

From S2P Require Import Prelude Trace FrameBytes Wire Frame Ring HostFramer HostShape HostEngine HostContract Link.
Local Open Scope trace_scope.

Section pipe.
Context {E : Type} {HP : HostProviders E}.
#[local] Abbreviation Lk := (@Link E).
Implicit Types s : Lk.

(** The link with another receive buffer. *)
Definition with_rx (rx : list Z) (n : nat) s : Lk :=
  let v := lk_server s in
  mkLink (mkServer rx n (ls_active v) (ls_wire_active v) (ls_adapter v)) (lk_bus s).
Definition clean s : Lk := with_rx [] 0 s.

(** A computation that neither reads nor writes the receive buffer. *)
Definition blind {A} (m : LM E A) : Prop := forall rx n s,
  m (with_rx rx n s) = match m s with Some (a, s', ev) => Some (a, with_rx rx n s', ev) | None => None end.

Lemma blind_ret {A} (a : A) : blind (bret a).
Proof. done. Qed.
Lemma blind_lift {A} (o : option A) : blind (blift o).
Proof. intros rx n s. by destruct o. Qed.
Lemma blind_out e : blind (bout e).
Proof. done. Qed.
Lemma blind_bind {A A'} (m : LM E A) (k : A -> LM E A') : blind m -> (forall a, blind (k a)) -> blind (bbind m k).
Proof.
  intros Hm Hk rx n s. unfold bbind. rewrite Hm. destruct (m s) as [[[a s1] e1]|]; [|done]. rewrite Hk.
  by destruct (k a s1) as [[[a' s2] e2]|].
Qed.
Lemma blind_on_bus {A} (m : H E A) : blind (on_bus m).
Proof. intros rx n s. unfold on_bus. cbn. by destruct (m (lk_bus s)) as [[[a b] ev]|]. Qed.
Lemma blind_on_env {A} (f : E -> A * E) : blind (on_env f).
Proof. intros rx n s. unfold on_env. cbn. by destruct (f _). Qed.
Lemma blind_set_active a : blind (set_active a).
Proof. done. Qed.
Lemma blind_set_wire_active a : blind (set_wire_active a).
Proof. done. Qed.
Lemma blind_set_adapter a : blind (set_adapter a).
Proof. done. Qed.
Lemma blind_sink r : blind (sink r).
Proof. apply blind_bind; [apply blind_lift|intros; apply blind_out]. Qed.
Lemma blind_get {A} (f : Lk -> A) : (forall rx n s, f (with_rx rx n s) = f s) -> blind (bget f).
Proof. intros Hf rx n s. unfold bget. by rewrite Hf. Qed.
#[local] Create HintDb blind.
#[local] Hint Resolve blind_ret blind_lift blind_out blind_on_bus blind_on_env blind_set_active blind_set_wire_active
  blind_set_adapter blind_sink : blind.

Lemma blind_handle rec : blind (link_handle rec).
Proof.
  unfold link_handle, handle_set_rails, handle_wire, handle_drain, handle_submit.
  apply blind_bind; [auto with blind|]. intros rtype.
  repeat match goal with
  | |- blind (bbind _ _) => apply blind_bind; [|intros]
  | |- blind (bget _) => apply blind_get; done
  | |- blind (match ?x with _ => _ end) => destruct x
  | |- _ => solve [auto with blind]
  end.
Qed.

(** ** Cutting records out of the pipe *)

Definition frame_rec (rec : list Z) : list Z := to_le16 (Z.of_nat (length rec)) ++ rec.
Definition rec_fits (rec : list Z) : Prop := (1 <= length rec <= RX_CAP - 2)%nat.
Definition frames (recs : list (list Z)) : list Z := concat (frame_rec <$> recs).

Fixpoint run_recs (recs : list (list Z)) : LM E unit :=
  match recs with [] => bret tt | r :: recs' => link_handle r ;; run_recs recs' end.

(** The buffer holds exactly [c]. *)
Definition holds (c : list Z) s : Prop :=
  let v := lk_server s in
  length (ls_rx v) = RX_CAP /\ ls_rx_len v = length c /\ (length c <= RX_CAP)%nat /\ take (length c) (ls_rx v) = c.

(** Two runs that do the same but for the receive buffer, which ends up holding [c]. *)
Definition same_run (c : list Z) (o o' : option (unit * Lk * list LinkEv)) : Prop :=
  match o, o' with
  | Some (_, s, ev), Some (_, s', ev') => holds c s /\ clean s = s' /\ ev = ev'
  | None, None => True
  | _, _ => False
  end.

Lemma frames_nil_inv recs : Forall rec_fits recs -> frames recs = [] -> recs = [].
Proof. destruct recs as [|r recs]; [done|]. intros Hf Hn. by apply (f_equal length) in Hn. Qed.

Lemma holds_lookup c s i x : holds c s -> c !! i = Some x -> ls_rx (lk_server s) !! i = Some x.
Proof.
  intros (_ & _ & _ & <-) Hi. apply lookup_take_Some in Hi as [Hi _]. done.
Qed.

Lemma holds_range c s a b w : holds c s -> get_range c a b = Some w -> get_range (ls_rx (lk_server s)) a b = Some w.
Proof.
  intros (Hl & _ & Hc & Et) Hg. apply get_range_Some in Hg as [Hab ->]. rewrite get_range_ok by lia. f_equal.
  apply list_eq. intros i. destruct (decide (i < b - a)%nat) as [Hi|Hi]; [|by rewrite !lookup_take_ge by lia].
  rewrite !lookup_take_lt, !lookup_drop by lia. transitivity (take (length c) (ls_rx (lk_server s)) !! (a + i)%nat); [by rewrite lookup_take_lt by lia|by rewrite Et].
Qed.

(** Dropping the record at the front. *)
Lemma holds_rest (f c : list Z) s : holds (f ++ c) s ->
  holds c (with_rx (splice 0 c (ls_rx (lk_server s))) (length c) s).
Proof.
  intros (Hl & _ & Hc & _). rewrite length_app in Hc. unfold holds. cbn -[splice RX_CAP].
  rewrite length_splice by (cbn -[RX_CAP]; lia). split; [done|]. split; [done|]. split; [lia|].
  unfold splice. rewrite take_0. cbn [app]. by rewrite take_app_length.
Qed.

(** The length prefix reads back. *)
Lemma prefix_len r : rec_fits r -> exists lo hi, to_le16 (Z.of_nat (length r)) = [lo; hi] /\ from_le16 lo hi = Z.of_nat (length r).
Proof.
  intros Hr. unfold rec_fits, RX_CAP in Hr. eexists _, _. split; [done|]. apply from_to_le16. lia.
Qed.

Lemma run_recs_app l1 l2 s : run_recs (l1 ++ l2) s = bbind (run_recs l1) (fun _ => run_recs l2) s.
Proof.
  revert s. induction l1 as [|r l1 IH]; intros s; cbn [app run_recs].
  - unfold bbind, bret. by destruct (run_recs l2 s) as [[[[] ?] ?]|].
  - unfold bbind. destruct (link_handle r s) as [[[[] s1] e1]|]; [|done]. rewrite IH. unfold bbind.
    destruct (run_recs l1 s1) as [[[[] s2] e2]|]; [|done]. destruct (run_recs l2 s2) as [[[[] s3] e3]|]; [|done].
    by rewrite app_assoc.
Qed.

(** No whole record of [recs] stands at the front of [c]. *)
Definition settled (c : list Z) (recs : list (list Z)) : Prop :=
  match recs with [] => c = [] | r :: _ => (length c < 2 + length r)%nat end.

Lemma settled_room c recs : Forall rec_fits recs -> settled c recs -> (length c < RX_CAP)%nat.
Proof.
  destruct recs as [|r recs]; cbn [settled]; [intros _ ->; cbn [length]; unfold RX_CAP; lia|]. intros Hf. pose proof (Forall_inv Hf) as Hr. unfold rec_fits, RX_CAP in *. lia.
Qed.

(** The front of a buffer that holds a whole record. *)
Lemma front_cases r recs c t : c ++ t = frames (r :: recs) ->
  settled c (r :: recs) /\ ((2 <= length c)%nat -> take 2 c = to_le16 (Z.of_nat (length r))) \/
  exists c', c = frame_rec r ++ c' /\ c' ++ t = frames recs.
Proof.
  intros Ec. unfold frames in Ec. cbn [fmap list_fmap concat] in Ec.
  destruct (le_lt_dec (2 + length r) (length c)) as [Hl|Hl].
  - right. exists (drop (2 + length r) c). assert (take (2 + length r) c = frame_rec r) as Et.
    { rewrite <- (take_app_le c t) by done. rewrite Ec. by rewrite take_app_length' by (unfold frame_rec; rewrite length_app; done). }
    rewrite <- Et. split; [by rewrite take_drop|]. rewrite <- drop_app_le by done. rewrite Ec.
    by rewrite drop_app_length' by (unfold frame_rec; rewrite length_app; done).
  - left. split; [done|]. intros H2. rewrite <- (take_app_le c t 2) by done. rewrite Ec. reflexivity.
Qed.

Lemma settle : forall recs c t, c ++ t = frames recs ->
  exists recs1 recs2 c2, recs = recs1 ++ recs2 /\ c2 ++ t = frames recs2 /\ settled c2 recs2.
Proof.
  induction recs as [|r recs IH]; intros c t Ec.
  - exists [], [], []. apply app_nil in Ec as [_ ->]. done.
  - destruct (front_cases r recs c t Ec) as [[Hs _]|(c' & -> & Ec')]; [by exists [], (r :: recs), c|].
    destruct (IH c' t Ec') as (recs1 & recs2 & c2 & -> & E2 & S2). by exists (r :: recs1), recs2, c2.
Qed.

Lemma extract_short fuel c s : holds c s -> (length c < 2)%nat -> extract_loop (S fuel) s = Some (tt, s, []).
Proof.
  intros (_ & Hn & _) Hc. cbn [extract_loop]. unfold bbind, bget. rewrite Hn. by rewrite (proj2 (Nat.ltb_lt _ _)).
Qed.

(** With the length prefix in, a whole record is handled, a partial one waits. *)
Lemma extract_turn fuel c s r : holds c s -> rec_fits r -> (2 <= length c)%nat ->
  take 2 c = to_le16 (Z.of_nat (length r)) ->
  extract_loop (S fuel) s =
    if Nat.ltb (length c) (2 + length r) then Some (tt, s, [])
    else (do rec <- blift (get_range (ls_rx (lk_server s)) 2 (2 + length r));
          link_handle rec ;;
          do rest <- blift (get_range (ls_rx (lk_server s)) (2 + length r) (length c));
          set_rx (splice 0 rest (ls_rx (lk_server s))) (length c - (2 + length r)) ;; extract_loop fuel) s.
Proof.
  intros Hh Hr Hc Et. pose proof Hh as (_ & Hn & _). destruct (prefix_len r Hr) as (lo & hi & Epre & Elen).
  assert (ls_rx (lk_server s) !! 0%nat = Some lo /\ ls_rx (lk_server s) !! 1%nat = Some hi) as [Hlo Hhi].
  { rewrite Epre in Et. split; (eapply holds_lookup; [exact Hh|]); (rewrite <- (lookup_take_lt c 2) by lia); by rewrite Et. }
  cbn [extract_loop]. erewrite bbind_quiet by done. rewrite Hn. rewrite (proj2 (Nat.ltb_ge _ _)) by done.
  erewrite bbind_quiet by (unfold blift; by rewrite Hlo). erewrite bbind_quiet by (unfold blift; by rewrite Hhi).
  rewrite Elen, Nat2Z.id.
  unfold rec_fits in Hr. assert (Nat.eqb (length r) 0 = false) as -> by (apply Nat.eqb_neq; lia).
  assert (Nat.ltb (RX_CAP - 2) (length r) = false) as -> by (apply Nat.ltb_ge; lia). cbn [orb].
  by destruct (Nat.ltb _ _).
Qed.

Lemma extract_record fuel r c s : holds (frame_rec r ++ c) s -> rec_fits r ->
  extract_loop (S fuel) s =
    (link_handle r ;; set_rx (splice 0 c (ls_rx (lk_server s))) (length c) ;; extract_loop fuel) s.
Proof.
  intros Hh Hr. assert (length (frame_rec r) = 2 + length r)%nat as Lf by (unfold frame_rec; by rewrite length_app).
  rewrite (extract_turn fuel _ s r Hh Hr); rewrite ?length_app, ?Lf; [|lia|by unfold frame_rec].
  rewrite (proj2 (Nat.ltb_ge _ _)) by lia.
  rewrite (holds_range _ s 2 (2 + length r) r Hh) by (unfold frame_rec; rewrite <- app_assoc; by apply get_range_mid).
  erewrite bbind_quiet by done. apply bbind_ext. intros [] s1 e1 _.
  rewrite (holds_range _ s (2 + length r) (2 + length r + length c) c Hh)
    by (rewrite <- (app_nil_r c) at 1; apply get_range_mid; lia).
  replace (2 + length r + length c - (2 + length r))%nat with (length c) by lia. by erewrite bbind_quiet by done.
Qed.

(** Handling a record leaves the buffer alone. *)
Lemma handle_clean r s : link_handle r s =
  match link_handle r (clean s) with
  | Some (a, s', ev) => Some (a, with_rx (ls_rx (lk_server s)) (ls_rx_len (lk_server s)) s', ev)
  | None => None
  end.
Proof. rewrite <- (blind_handle r _ _ (clean s)). f_equal. by destruct s as [[] ?]. Qed.

Lemma handle_stays_clean r s s1 e1 : link_handle r (clean s) = Some (tt, s1, e1) -> clean s1 = s1.
Proof.
  intros Eh. pose proof (blind_handle r [] 0%nat (clean s)) as Hb. fold (clean (clean s)) in Hb.
  change (clean (clean s)) with (clean s) in Hb. rewrite Eh in Hb. injection Hb as Hb. by symmetry.
Qed.

(** The runs of a record and of what follows it compose. *)
Lemma same_run_cons c r s s1 e1 recs (o : option (unit * Lk * list LinkEv)) : link_handle r (clean s) = Some (tt, s1, e1) ->
  same_run c o (run_recs recs s1) ->
  same_run c (match o with Some (a, s2, e2) => Some (a, s2, e1 ++ e2) | None => None end) (run_recs (r :: recs) (clean s)).
Proof.
  intros Eh Hs. cbn [run_recs]. unfold bbind. rewrite Eh. unfold same_run in *.
  destruct o as [[[[] s2] e2]|], (run_recs recs s1) as [[[[] s3] e3]|]; try done. destruct Hs as (? & ? & ->). done.
Qed.

Lemma extract_spec : forall recs c t s fuel, holds c s -> c ++ t = frames recs -> Forall rec_fits recs ->
  (length c < fuel)%nat ->
  exists recs1 recs2 c2, recs = recs1 ++ recs2 /\ c2 ++ t = frames recs2 /\ settled c2 recs2 /\
    same_run c2 (extract_loop fuel s) (run_recs recs1 (clean s)).
Proof.
  induction recs as [|r recs IH]; intros c t s fuel Hh Ec Hf Hfuel; destruct fuel as [|fuel]; try lia.
  - apply app_nil in Ec as [-> ->]. exists [], [], []. split; [done|]. split; [done|]. split; [done|].
    by rewrite (extract_short fuel [] s Hh) by (cbn; lia).
  - pose proof (Forall_inv Hf) as Hr. destruct (front_cases r recs c t Ec) as [[Hs Hpre]|(c' & -> & Ec')].
    + exists [], (r :: recs), c. split; [done|]. split; [done|]. split; [done|].
      destruct (le_lt_dec 2 (length c)) as [H2|H2]; [|by rewrite (extract_short fuel c s Hh H2)].
      rewrite (extract_turn fuel c s r Hh Hr H2 (Hpre H2)). cbn [settled] in Hs. by rewrite (proj2 (Nat.ltb_lt _ _)) by lia.
    + rewrite (extract_record fuel r c' s Hh Hr). unfold bbind at 1. rewrite handle_clean.
      destruct (link_handle r (clean s)) as [[[[] s1] e1]|] eqn:Eh.
      2: { destruct (settle recs c' t Ec') as (recs1 & recs2 & c2 & -> & E2 & S2). exists (r :: recs1), recs2, c2.
           split_and!; [done|done|done|]. cbn [run_recs]. unfold bbind. by rewrite Eh. }
      set (s2 := with_rx (splice 0 c' (ls_rx (lk_server s))) (length c') s1). assert (holds c' s2) as Hh2 by exact (holds_rest _ _ _ Hh).
      assert (clean s2 = s1) as Ecl by exact (handle_stays_clean _ _ _ _ Eh).
      destruct (IH c' t s2 fuel Hh2 Ec' (Forall_inv_tail Hf)) as (recs1 & recs2 & c2 & -> & E2 & L2 & S2).
      { rewrite length_app in Hfuel. unfold frame_rec in Hfuel. rewrite length_app in Hfuel. cbn [to_le16 length] in Hfuel. lia. }
      exists (r :: recs1), recs2, c2. split; [done|]. split; [done|]. split; [done|]. rewrite Ecl in S2.
      erewrite bbind_quiet by done. by apply (same_run_cons _ _ _ s1).
Qed.

(** New bytes behind what the buffer holds. *)
Lemma holds_append c w s : holds c s -> (length c + length w <= RX_CAP)%nat ->
  holds (c ++ w) (with_rx (splice (length c) w (ls_rx (lk_server s))) (length c + length w) s).
Proof.
  intros (Hl & Hn & Hc & Et) Hw. unfold holds. cbn -[splice RX_CAP]. rewrite length_splice, length_app by (rewrite Hl; done).
  split; [done|]. split; [done|]. split; [done|]. unfold splice. rewrite Et, app_assoc.
  by rewrite take_app_length' by (by rewrite length_app).
Qed.

Lemma same_run_app c l1 l2 s (o1 : option (unit * Lk * list LinkEv)) (k : LM E unit) c1 :
  same_run c1 o1 (run_recs l1 (clean s)) ->
  (forall s1 e1, o1 = Some (tt, s1, e1) -> same_run c (k s1) (run_recs l2 (clean s1))) ->
  same_run c (match o1 with
              | Some (_, s1, e1) => match k s1 with Some (a, s2, e2) => Some (a, s2, e1 ++ e2) | None => None end
              | None => None
              end) (run_recs (l1 ++ l2) (clean s)).
Proof.
  intros H1 H2. rewrite run_recs_app. unfold bbind. unfold same_run in H1.
  destruct o1 as [[[[] s1] e1]|], (run_recs l1 (clean s)) as [[[[] s1'] e1']|]; try done.
  destruct H1 as (_ & <- & <-). specialize (H2 s1 e1 eq_refl). unfold same_run in *.
  destruct (k s1) as [[[[] s2] e2]|], (run_recs l2 (clean s1)) as [[[[] s2'] e2']|]; try done.
  destruct H2 as (? & ? & ->). done.
Qed.

(** Some state holds any content that fits. *)
Lemma holds_some c s : (length c <= RX_CAP)%nat -> holds c (with_rx (c ++ replicate (RX_CAP - length c) 0) (length c) s).
Proof.
  intros Hc. unfold holds. cbn -[RX_CAP]. rewrite length_app, length_replicate. split; [lia|]. split; [done|]. split; [done|].
  by rewrite take_app_length.
Qed.

Lemma pipe_spec : forall fuel bytes recs c t s, (length bytes <= fuel)%nat -> holds c s -> settled c recs ->
  c ++ bytes ++ t = frames recs -> Forall rec_fits recs ->
  exists recs1 recs2 c2, recs = recs1 ++ recs2 /\ c2 ++ t = frames recs2 /\ settled c2 recs2 /\
    same_run c2 (on_pipe_loop fuel bytes s) (run_recs recs1 (clean s)).
Proof.
  induction fuel as [|fuel IH]; intros bytes recs c t s Hb Hh Hc Ec Hf.
  { destruct bytes; [|cbn in Hb; lia]. by exists [], recs, c. }
  destruct bytes as [|x bytes]; [by exists [], recs, c|]. set (bs := x :: bytes) in *.
  change (on_pipe_loop (S fuel) bs s) with ((do sv <- bget lk_server;
      let room := (RX_CAP - ls_rx_len sv)%nat in
      let take_ := Nat.min room (length bs) in
      set_rx (splice (ls_rx_len sv) (take take_ bs) (ls_rx sv)) (ls_rx_len sv + take_) ;;
      LinkServer_extract ;;
      (if Nat.eqb take_ 0 then
         do sv <- bget lk_server;
         set_rx (ls_rx sv) 0 ;; sink (record_unknown OUT_CAP 255)
       else bret tt) ;;
      on_pipe_loop fuel (drop take_ bs)) s).
  pose proof (settled_room c recs Hf Hc) as Hroom. erewrite bbind_quiet by done. cbv zeta. pose proof Hh as (_ & Hn & _). rewrite Hn.
  set (k := Nat.min (RX_CAP - length c) (length bs)). assert (1 <= k <= length bs)%nat as Hk by (subst k bs; cbn [length]; lia).
  rewrite (proj2 (Nat.eqb_neq _ _)) by lia.
  set (s1 := with_rx (splice (length c) (take k bs) (ls_rx (lk_server s))) (length c + k) s).
  rewrite (bbind_quiet _ _ s tt s1) by done.
  assert (holds (c ++ take k bs) s1) as H1.
  { pose proof (holds_append c (take k bs) s Hh) as Ha. rewrite length_take, Nat.min_l in Ha by lia. apply Ha. lia. }
  unfold bbind at 1, LinkServer_extract. rewrite (bbind_quiet _ _ s1 (ls_rx_len (lk_server s1)) s1) by done.
  destruct (extract_spec recs (c ++ take k bs) (drop k bs ++ t) s1 (S (ls_rx_len (lk_server s1))) H1) as (recs1 & recs2 & c1 & -> & E1 & L1 & S1).
  { rewrite <- Ec, <- app_assoc. f_equal. by rewrite app_assoc, take_drop. }
  { done. }
  { destruct H1 as (_ & -> & _). lia. }
  change (clean s1) with (clean s) in S1. apply Forall_app in Hf as [Hf1 Hf2]. pose proof (settled_room c1 recs2 Hf2 L1) as Hroom1.
  assert (length (drop k bs) <= fuel)%nat as Hd by (rewrite length_drop; lia).
  destruct (extract_loop _ s1) as [[[[] s2] e2]|].
  - assert (holds c1 s2) as H2 by (unfold same_run in S1; by destruct (run_recs recs1 _) as [[[[] ?] ?]|]; [destruct S1|]).
    destruct (IH _ _ _ _ s2 Hd H2 L1 E1 Hf2) as (recs3 & recs4 & c2 & -> & E4 & L4 & S4).
    exists (recs1 ++ recs3), recs4, c2. split; [by rewrite app_assoc|]. split; [done|]. split; [done|].
    erewrite bbind_quiet by done. apply (same_run_app c2 recs1 recs3 s (Some (tt, s2, e2)) (on_pipe_loop fuel (drop k bs)) c1 S1).
    by intros s3 e3 [= <- <-].
  - destruct (IH _ _ _ _ _ Hd (holds_some c1 s ltac:(lia)) L1 E1 Hf2) as (recs3 & recs4 & c2 & -> & E4 & L4 & _).
    exists (recs1 ++ recs3), recs4, c2. split; [by rewrite app_assoc|]. split; [done|]. split; [done|].
    rewrite run_recs_app. unfold bbind. by destruct (run_recs recs1 (clean s)) as [[[[] ?] ?]|].
Qed.

Fixpoint run_chunks (chunks : list (list Z)) : LM E unit :=
  match chunks with [] => bret tt | ch :: chunks' => LinkServer_on_pipe ch ;; run_chunks chunks' end.

Lemma chunks_spec : forall chunks recs c s, holds c s -> settled c recs -> c ++ concat chunks = frames recs ->
  Forall rec_fits recs -> same_run [] (run_chunks chunks s) (run_recs recs (clean s)).
Proof.
  induction chunks as [|ch chunks IH]; intros recs c s Hh Hc Ec Hf; cbn [run_chunks concat] in *.
  - rewrite app_nil_r in Ec. destruct recs as [|r recs]; [cbn in Hc; by subst c|].
    exfalso. apply (f_equal length) in Ec. unfold frames, frame_rec in Ec. cbn [fmap list_fmap concat settled] in *.
    rewrite !length_app in Ec. cbn [to_le16 length] in Ec. lia.
  - destruct (pipe_spec (2 * length ch) ch recs c (concat chunks) s ltac:(lia) Hh Hc Ec Hf) as (recs1 & recs2 & c2 & -> & E2 & L2 & S2).
    apply Forall_app in Hf as [Hf1 Hf2]. unfold bbind at 1, LinkServer_on_pipe.
    apply (same_run_app [] recs1 recs2 s (on_pipe_loop (2 * length ch) ch s) (run_chunks chunks) c2 S2). intros s1 e1 E1.
    apply IH with (c := c2); [|done..]. unfold same_run in S2. rewrite E1 in S2.
    by destruct (run_recs recs1 _) as [[[[] ?] ?]|]; [destruct S2|].
Qed.
End pipe.

(** ** What the client sees *)

Inductive ReqKind := KCmd | KWire.
Inductive Outstanding := ONone | OCmd (seq : Z) | OWire (seq : Z).
Definition owing (k : ReqKind) (seq : Z) : Outstanding := match k with KCmd => OCmd seq | KWire => OWire seq end.
Definition owed (o : Outstanding) : list Z := match o with ONone => [] | OCmd seq | OWire seq => [seq] end.

Definition is_wire_type (rtype : Z) : bool :=
  (rtype =? REC_WIRE_SEND) || (rtype =? REC_WIRE_BURST) || (rtype =? REC_WIRE_PULSE) ||
  (rtype =? REC_WIRE_TRAIN) || (rtype =? REC_WIRE_BAUD).

(** The sequence number a record asks an answer for. *)
Definition request_of (rec : list Z) : option (ReqKind * Z) :=
  match rec with
  | rtype :: s0 :: s1 :: rest =>
      if is_wire_type rtype then Some (KWire, from_le16 s0 s1)
      else if (rtype =? REC_SUBMIT) && negb (bool_decide (rest = [])) then Some (KCmd, from_le16 s0 s1)
      else None
  | _ => None
  end.

(** The sequence number an outgoing record carries, by type. *)
Definition seq_of (types : list Z) (rec : list Z) : option Z :=
  match rec with
  | _ :: _ :: rtype :: s0 :: s1 :: _ => if existsb (Z.eqb rtype) types then Some (from_le16 s0 s1) else None
  | _ => None
  end.
Definition answer_of : list Z -> option Z := seq_of [REC_TERMINAL; REC_REJECTED; REC_WIRE_DONE].
Definition status_of : list Z -> option Z := seq_of [REC_STATUS].

Inductive LinkIo := LiIn (rec : list Z) | LiOut (rec : list Z).

(** The contract of the pipe as a history: every request is refused at once or
    becomes the one outstanding; statuses, then one terminal, answer a command;
    one completion answers an instrument operation; anything else gets one reply
    that carries no sequence number. *)
Inductive serves : Outstanding -> list LinkIo -> Outstanding -> Prop :=
| sv_nil o : serves o [] o
| sv_accept rec k seq h o : request_of rec = Some (k, seq) -> serves (owing k seq) h o -> serves ONone (LiIn rec :: h) o
| sv_reject o1 rec k seq reason r h o : request_of rec = Some (k, seq) -> record_rejected OUT_CAP seq reason = Some r ->
    (reason = REASON_BUSY -> o1 <> ONone) -> serves o1 h o -> serves o1 (LiIn rec :: LiOut r :: h) o
| sv_plain o1 rec r h o : request_of rec = None -> answer_of r = None -> status_of r = None -> serves o1 h o ->
    serves o1 (LiIn rec :: LiOut r :: h) o
| sv_status seq slot id inst pay r h o : record_status OUT_CAP seq slot id inst pay = Some r -> serves (OCmd seq) h o ->
    serves (OCmd seq) (LiOut r :: h) o
| sv_terminal seq t r h o : record_terminal OUT_CAP seq t = Some r -> serves ONone h o -> serves (OCmd seq) (LiOut r :: h) o
| sv_wire_done seq tick r h o : record_wire_done OUT_CAP seq tick = Some r -> serves ONone h o ->
    serves (OWire seq) (LiOut r :: h) o.

Definition inputs (h : list LinkIo) : list (list Z) := omap (fun i => match i with LiIn r => Some r | LiOut _ => None end) h.
Definition outputs (h : list LinkIo) : list (list Z) := omap (fun i => match i with LiOut r => Some r | LiIn _ => None end) h.
Definition requests (recs : list (list Z)) : list Z := omap (fun r => snd <$> request_of r) recs.
Definition answers (recs : list (list Z)) : list Z := omap answer_of recs.
Definition records_of (ev : list LinkEv) : list (list Z) := omap (fun e => match e with LeRec r => Some r | LeWire _ => None end) ev.

Lemma serves_app o1 h1 o2 h2 o3 : serves o1 h1 o2 -> serves o2 h2 o3 -> serves o1 (h1 ++ h2) o3.
Proof.
  induction 1; intros Hs; cbn [app];
    [done|eapply sv_accept|eapply sv_reject|eapply sv_plain|eapply sv_status|eapply sv_terminal|eapply sv_wire_done]; eauto.
Qed.

(** The outgoing record of each kind carries its sequence number. *)
Lemma sealed_seq types rtype seq body r : is_u16 seq -> rec_sealed OUT_CAP (rtype :: to_le16 seq ++ body) = Some r ->
  seq_of types r = if existsb (Z.eqb rtype) types then Some seq else None.
Proof.
  intros Hs. unfold rec_sealed. destruct (Nat.leb _ _); [|done]. intros [= <-]. cbn [app to_le16 seq_of].
  by rewrite from_to_le16.
Qed.

Lemma request_u16 rec k seq : bytes_ok rec -> request_of rec = Some (k, seq) -> is_u16 seq.
Proof.
  intros Hb. destruct rec as [|rtype [|s0 [|s1 rest]]]; cbn [request_of]; try done.
  inversion_clear Hb as [|? ? _ Hb']. inversion_clear Hb' as [|? ? H0 Hb'']. inversion_clear Hb'' as [|? ? H1 _].
  repeat case_goal; intros [= <- <-]; by apply from_le16_range.
Qed.

(** Nothing is answered twice and nothing forgotten. *)
Lemma serves_permutes o1 h o2 : serves o1 h o2 -> Forall bytes_ok (inputs h) -> Forall (fun x => is_u16 x) (owed o1) ->
  Permutation (owed o1 ++ requests (inputs h)) (answers (outputs h) ++ owed o2).
Proof.
  induction 1 as [o|rec k seq h o Hr _ IH|o1 rec k seq reason r h o Hr Ho Hb _ IH|o1 rec r h o Hr Ha Hst _ IH
    |seq slot id inst pay r h o Ho _ IH|seq t r h o Ho _ IH|seq tick r h o Ho _ IH]; intros Hin Hu;
    unfold requests, answers in *; cbn [inputs outputs omap list_omap] in *.
  - by rewrite app_nil_r.
  - inversion_clear Hin as [|? ? Hb Hin']. rewrite Hr. cbn [fmap option_fmap option_map snd]. pose proof (request_u16 _ _ _ Hb Hr).
    assert (owed (owing k seq) = [seq]) as Eo by (by destruct k). rewrite Eo in IH. apply IH; [done|by apply Forall_singleton].
  - inversion_clear Hin as [|? ? Hby Hin']. rewrite Hr. cbn [fmap option_fmap option_map snd]. pose proof (request_u16 _ _ _ Hby Hr) as Hseq.
    unfold answer_of at 1. unfold record_rejected in Ho. rewrite (sealed_seq _ _ _ _ _ Hseq Ho). cbn.
    rewrite <- Permutation_middle. constructor. by apply IH.
  - inversion_clear Hin as [|? ? Hby Hin']. rewrite Hr, Ha. cbn. by apply IH.
  - inversion_clear Hu as [|? ? Hseq _]. unfold answer_of at 1. unfold record_status in Ho.
    rewrite (sealed_seq _ _ _ _ _ Hseq Ho). cbn. apply IH; [done|by apply Forall_singleton].
  - inversion_clear Hu as [|? ? Hseq _]. unfold answer_of at 1. unfold record_terminal in Ho.
    destruct (tm_outcome t); cbv beta iota in Ho; rewrite (sealed_seq _ _ _ _ _ Hseq Ho); cbn; constructor; by apply IH.
  - inversion_clear Hu as [|? ? Hseq _]. unfold answer_of at 1. unfold record_wire_done in Ho.
    rewrite (sealed_seq _ _ _ _ _ Hseq Ho). cbn. constructor. by apply IH.
Qed.

(** ** The server keeps it *)

Section contract.
Context {E : Type} {HP : HostProviders E} {HL : HostLaws E}.
#[local] Abbreviation Lk := (@Link E).
Implicit Types s : Lk.

(** The server's sequence numbers follow the engine's phase. *)
Definition tracks (o : Outstanding) (ph : Phase) (v : LinkServer) : Prop :=
  match o, ph with
  | ONone, PhIdle => ls_active v = None /\ ls_wire_active v = None
  | OCmd seq, PhCmd _ _ => ls_active v = Some seq /\ ls_wire_active v = None
  | OWire seq, PhWire => ls_active v = None /\ ls_wire_active v = Some seq
  | _, _ => False
  end.
Definition link_sim s (o : Outstanding) : Prop :=
  Forall (fun x => is_u16 x) (owed o) /\ exists ph, host_sim (lk_bus s) ph /\ tracks o ph (lk_server s).

Definition rec_ok (rec : list Z) : Prop :=
  rec_fits rec /\ bytes_ok rec /\
  match rec with
  | _ :: _ :: _ :: verb :: args => forall cmd, submit_verb verb args = Some cmd -> cmd_typed cmd
  | _ => True
  end.

(** Answered with one plain record. *)
Definition answered s o rec s' (ev : list LinkEv) : Prop :=
  exists o', serves o (LiIn rec :: map LiOut (records_of ev)) o' /\ link_sim s' o'.

Lemma records_of_wire (ev : list HostEv) : records_of (map LeWire ev) = [].
Proof. by induction ev. Qed.

Lemma records_of_app e1 e2 : records_of (e1 ++ e2) = records_of e1 ++ records_of e2.
Proof. apply omap_app. Qed.

Lemma runs_sink {A} (r : list Z) (k : LM E A) s Q o : o = Some r ->
  runs k s (fun a s' ev => Q a s' (LeRec r :: ev)) -> runs (sink o ;; k) s Q.
Proof. intros -> Hk. unfold sink. apply runs_bind_assoc. eapply runs_bind_lift; [done|]. by apply runs_bind_out. Qed.

Lemma sink_runs (r : list Z) o s Q : o = Some r -> Q tt s [LeRec r] -> runs (sink o) s Q.
Proof. intros -> HQ. unfold sink. eapply runs_bind_lift; [done|]. by apply runs_out. Qed.

(** A record that asks for nothing gets one reply without a sequence number. *)
Lemma plain_answer rec (o : Outstanding) s s' body r : link_sim s o -> link_sim s' o -> request_of rec = None ->
  rec_sealed OUT_CAP body = Some r -> match body with [] => True | ty :: _ => existsb (Z.eqb ty) [REC_TERMINAL; REC_REJECTED; REC_WIRE_DONE; REC_STATUS] = false end ->
  answered s o rec s' [LeRec r].
Proof.
  intros Hs Hs' Hr Er Hty. exists o. split; [|done]. unfold rec_sealed in Er. destruct (Nat.leb _ _); [|done].
  injection Er as <-. apply sv_plain; [done|..|constructor]; destruct body as [|ty [|s0 [|s1 body]]]; try done;
    cbn [to_le16 app answer_of status_of seq_of existsb] in *; apply orb_false_iff in Hty as [H1 Hty];
    apply orb_false_iff in Hty as [H2 Hty]; apply orb_false_iff in Hty as [H3 Hty]; unfold answer_of, status_of, seq_of; cbn [existsb]; by rewrite ?H1, ?H2, ?H3, ?Hty.
Qed.

Lemma reject_answer rec o s s' k seq reason : link_sim s' o -> request_of rec = Some (k, seq) ->
  (reason = REASON_BUSY -> o <> ONone) ->
  exists r, record_rejected OUT_CAP seq reason = Some r /\ answered s o rec s' [LeRec r].
Proof.
  intros Hs Hr Hb. eexists. split; [reflexivity|]. exists o. split; [|done]. by eapply sv_reject; [..|constructor].
Qed.

Lemma on_bus_runs {A} (m : H E A) s (Q : A -> HostBus -> list HostEv -> Prop) : runs m (lk_bus s) Q ->
  runs (on_bus m) s (fun a s' ev => exists b ev', s' = mkLink (lk_server s) b /\ ev = map LeWire ev' /\ Q a b ev').
Proof. unfold runs, on_bus. destruct (m (lk_bus s)) as [[[a b] ev]|]; [|done]. intros HQ. by exists b, ev. Qed.

Lemma wire_verb_call rtype body m : wire_verb (E := E) rtype body = Some m -> exists op, m = wire_call op.
Proof.
  unfold wire_verb. repeat case_goal; intros [= <-].
  - by exists (WoSend body).
  - by exists (WoBurst body).
  - by eexists (WoPulse _).
  - by eexists (WoTrain _ _ _).
  - by eexists (WoBaud _).
Qed.

(** The verdict of the engine on a request, as an answer or a new outstanding. *)
Lemma verdict_answer rec (k : ReqKind) seq (m : H E (result unit SubmitError)) lbl (on_ok : LM E unit) reason s o :
  link_sim s o -> request_of rec = Some (k, seq) -> is_u16 seq ->
  (forall b ph, host_sim b ph -> refines m lbl b ph) ->
  (forall ph r ph', contract ph (lbl r) ph' ->
    match r with
    | Ok _ => ph = PhIdle /\ match k with KCmd => exists w d, ph' = PhCmd w d | KWire => ph' = PhWire end
    | Err SeBusy => ph <> PhIdle /\ ph' = ph
    | Err (SeInvalid _) => ph' = ph
    end) ->
  (forall s1, on_ok s1 = Some (tt, match k with
     | KCmd => mkLink (mkServer (ls_rx (lk_server s1)) (ls_rx_len (lk_server s1)) (Some seq) (ls_wire_active (lk_server s1)) (ls_adapter (lk_server s1))) (lk_bus s1)
     | KWire => mkLink (mkServer (ls_rx (lk_server s1)) (ls_rx_len (lk_server s1)) (ls_active (lk_server s1)) (Some seq) (ls_adapter (lk_server s1))) (lk_bus s1)
     end, [])) ->
  (forall r, reason r <> REASON_BUSY) ->
  runs (do res <- on_bus m;
        match res with
        | Ok _ => on_ok
        | Err SeBusy => sink (record_rejected OUT_CAP seq REASON_BUSY)
        | Err (SeInvalid r) => sink (record_rejected OUT_CAP seq (reason r))
        end) s (fun _ s' ev => answered s o rec s' ev).
Proof.
  intros (Hu & ph & Hh & Ho) Hreq Hseq Hm Hc Hok Hrb. apply runs_bind. eapply runs_mono; [apply on_bus_runs, Hm, Hh|].
  intros res s1 ev (b & ev' & -> & -> & (ph' & Hct & Hs') & _). cbv beta. specialize (Hc _ _ _ Hct).
  assert (ph' = ph -> link_sim (mkLink (lk_server s) b) o) as Hsame by (intros ->; split; [done|]; by exists ph).
  assert (forall why, ph' = ph -> (why = REASON_BUSY -> o <> ONone) -> runs (sink (record_rejected OUT_CAP seq why)) (mkLink (lk_server s) b)
    (fun _ s' e2 => answered s o rec s' (map LeWire ev' ++ e2))) as Hrej.
  { intros why Hph Hwhy. destruct (reject_answer rec o s _ k seq why (Hsame Hph) Hreq Hwhy) as (r & Er & Ha).
    eapply sink_runs; [exact Er|]. destruct Ha as (o' & Hsv & Hl). exists o'. split; [|done].
    by rewrite records_of_app, records_of_wire. }
  destruct res as [[]|[|r]].
  - destruct Hc as [-> Hk]. eapply runs_eq; [apply Hok|]. destruct o; try done. destruct Ho as [Ha Hwa].
    exists (owing k seq). rewrite records_of_app, records_of_wire. split; [by eapply sv_accept; [|constructor]|].
    split; [by destruct k; apply Forall_singleton|]. exists ph'. destruct k; cbn; (split; [done|]).
    + by destruct Hk as (w & d & ->).
    + by subst ph'.
  - apply Hrej; [apply Hc|]. intros _ ->. destruct ph; try done. by destruct Hc.
  - apply Hrej; [done|]. intros Hb. by destruct (Hrb r).
Qed.

Lemma submit_verdict cmd ph r ph' : contract ph (LSubmit cmd r) ph' ->
  match r with
  | Ok _ => ph = PhIdle /\ exists w d, ph' = PhCmd w d
  | Err SeBusy => ph <> PhIdle /\ ph' = ph
  | Err (SeInvalid _) => ph' = ph
  end.
Proof. inversion 1; subst; eauto. Qed.

Lemma wire_verdict ph r ph' : contract ph (LWire r) ph' ->
  match r with
  | Ok _ => ph = PhIdle /\ ph' = PhWire
  | Err SeBusy => ph <> PhIdle /\ ph' = ph
  | Err (SeInvalid _) => ph' = ph
  end.
Proof. inversion 1; subst; eauto. Qed.

Lemma reason_not_busy r : reason_code r <> REASON_BUSY.
Proof. by destruct r. Qed.

Lemma handle_submit_serves args s o seq lo hi verb (rec := REC_SUBMIT :: lo :: hi :: verb :: args) :
  link_sim s o -> rec_ok rec -> seq = from_le16 lo hi -> runs (handle_submit rec) s (fun _ s' ev => answered s o rec s' ev).
Proof.
  intros Hs (Hf & Hb & Ht) ->. subst rec. cbn [handle_submit].
  assert (request_of (REC_SUBMIT :: lo :: hi :: verb :: args) = Some (KCmd, from_le16 lo hi)) as Hreq by done.
  pose proof (request_u16 _ _ _ Hb Hreq) as Hseq. destruct (submit_verb verb args) as [cmd|] eqn:Ev.
  - apply (verdict_answer _ KCmd (from_le16 lo hi) (HostBus_submit cmd) (LSubmit cmd) _ reason_code); try done.
    + intros b ph Hh. apply submit_refines; auto.
    + apply submit_verdict.
    + apply reason_not_busy.
  - destruct (reject_answer _ o s s _ _ REASON_MALFORMED Hs Hreq ltac:(done)) as (r & Er & Ha). by eapply sink_runs.
Qed.

Lemma handle_wire_serves rtype lo hi body s o (rec := rtype :: lo :: hi :: body) : is_wire_type rtype = true ->
  link_sim s o -> rec_ok rec -> runs (handle_wire rec) s (fun _ s' ev => answered s o rec s' ev).
Proof.
  intros Hw Hs (Hf & Hb & Ht). subst rec. cbn [handle_wire].
  assert (request_of (rtype :: lo :: hi :: body) = Some (KWire, from_le16 lo hi)) as Hreq by (cbn [request_of]; by rewrite Hw).
  pose proof (request_u16 _ _ _ Hb Hreq) as Hseq. destruct (wire_verb rtype body) as [m|] eqn:Ev.
  - destruct (wire_verb_call _ _ _ Ev) as [op ->].
    apply (verdict_answer _ KWire (from_le16 lo hi) (wire_call op) LWire _ (fun _ => REASON_MALFORMED)); try done.
    + intros b ph Hh. by apply wire_call_refines.
    + apply wire_verdict.
  - destruct (reject_answer _ o s s _ _ REASON_MALFORMED Hs Hreq ltac:(done)) as (r & Er & Ha). by eapply sink_runs.
Qed.

Lemma sealed_fits body : (length body <= 298)%nat -> is_Some (rec_sealed OUT_CAP body).
Proof. intros Hl. unfold rec_sealed, OUT_CAP. rewrite (proj2 (Nat.leb_le _ _)) by lia. by eexists. Qed.

Lemma length_edges (l : list Z) : length (concat (to_le16 <$> l)) = (2 * length l)%nat.
Proof. induction l as [|x l IH]; cbn; [done|]. cbn in IH. lia. Qed.

Lemma request_none rtype rec : is_wire_type rtype = false -> rtype <> REC_SUBMIT -> request_of (rtype :: rec) = None.
Proof. intros Hw Hs. destruct rec as [|? [|? ?]]; cbn [request_of]; rewrite ?Hw, ?(proj2 (Z.eqb_neq _ _) Hs); done. Qed.

(** One plain reply from a state that still agrees with [o]. *)
Lemma plain_sink rec s s' o body : request_of rec = None -> link_sim s o -> link_sim s' o ->
  match body with [] => True | ty :: _ => existsb (Z.eqb ty) [REC_TERMINAL; REC_REJECTED; REC_WIRE_DONE; REC_STATUS] = false end ->
  (length body <= 298)%nat -> runs (sink (rec_sealed OUT_CAP body)) s' (fun _ s2 ev => answered s o rec s2 ev).
Proof.
  intros Hr Hs Hs' Hty Hl. destruct (sealed_fits body Hl) as [r Er]. eapply sink_runs; [exact Er|]. by eapply plain_answer.
Qed.

Lemma handle_rails_serves rec s o : request_of rec = None -> link_sim s o -> (2 <= length rec)%nat ->
  runs (handle_set_rails rec) s (fun _ s' ev => answered s o rec s' ev).
Proof.
  intros Hr Hs Hl. unfold handle_set_rails. apply runs_bind_get. destruct (lookup_lt_is_Some_2 rec 1) as [st Est]; [lia|].
  eapply runs_bind_lift; [exact Est|]. apply runs_bind_mod. by apply plain_sink; [..|cbn; lia].
Qed.

Lemma runs_on_env {A A'} (f : E -> A * E) (k : A -> LM E A') s Q :
  runs (k (f (hb_env (lk_bus s))).1) (mkLink (lk_server s) (set_hb_env (f (hb_env (lk_bus s))).2 (lk_bus s))) Q ->
  runs (bbind (on_env f) k) s Q.
Proof. intros Hk. eapply runs_bind_quiet; [|exact Hk]. unfold on_env. by destruct (f _). Qed.

Lemma handle_drain_serves rec max s o : request_of rec = None -> link_sim s o ->
  runs (handle_drain max) s (fun _ s' ev => answered s o rec s' ev).
Proof.
  intros Hr Hs. unfold handle_drain. set (n := Nat.min _ _). assert (n <= 64)%nat as Hn by (subst n; unfold DRAIN_MAX; lia).
  apply runs_on_env, runs_on_env, runs_bind_get, runs_on_env. apply plain_sink; [done|done|done|done|].
  cbn [length]. rewrite !length_app, length_edges, length_app. cbn [length to_le32].
  match goal with |- context [h_drain_rises n ?e] => pose proof (proj2 (h_drain_ok n e)) end.
  match goal with |- context [h_drain_falls n ?e] => pose proof (proj1 (h_drain_ok n e)) end. lia.
Qed.

Lemma handle_serves rec s o : link_sim s o -> rec_ok rec -> runs (link_handle rec) s (fun _ s' ev => answered s o rec s' ev).
Proof.
  intros Hs Hok. destruct rec as [|rtype rec]; [destruct Hok as [Hf _]; unfold rec_fits in Hf; cbn in Hf; lia|].
  unfold link_handle. eapply runs_bind_lift; [done|]. fold (is_wire_type rtype).
  destruct (is_wire_type rtype) eqn:Ew.
  - unfold is_wire_type in Ew. repeat (case_goal; [zbool; subst; done|]).
    destruct rec as [|lo [|hi body]]; [by apply plain_sink; [..|cbn; lia]..|]. by apply handle_wire_serves.
  - destruct (Z.eqb_spec rtype REC_SUBMIT) as [->|Ns].
    + change (runs (handle_submit (REC_SUBMIT :: rec)) s (fun _ s' ev => answered s o (REC_SUBMIT :: rec) s' ev)).
      destruct rec as [|lo [|hi [|verb args]]]; [by apply plain_sink; [..|cbn; lia]..|]. by eapply handle_submit_serves.
    + pose proof (request_none rtype rec Ew Ns) as Hr.
      repeat case_goal; zbool; try (by apply plain_sink; [..|cbn; lia]).
      * apply runs_bind_get, runs_bind_mod. by apply plain_sink; [..|cbn; lia].
      * by apply handle_rails_serves.
      * destruct rec as [|max rec]; [cbn in *; lia|]. eapply runs_bind_lift; [done|]. by apply handle_drain_serves.
      * apply runs_on_env. by apply plain_sink; [..|cbn; lia].
Qed.

Lemma inputs_out l : inputs (map LiOut l) = [].
Proof. by induction l. Qed.
Lemma outputs_out l : outputs (map LiOut l) = l.
Proof. unfold outputs. induction l as [|x l IH]; cbn; [done|]. by f_equal. Qed.
Lemma inputs_app h1 h2 : inputs (h1 ++ h2) = inputs h1 ++ inputs h2.
Proof. apply omap_app. Qed.
Lemma outputs_app h1 h2 : outputs (h1 ++ h2) = outputs h1 ++ outputs h2.
Proof. apply omap_app. Qed.

Lemma run_recs_serves : forall recs s o, link_sim s o -> Forall rec_ok recs ->
  runs (run_recs recs) s (fun _ s' ev => exists h o', inputs h = recs /\ outputs h = records_of ev /\
    serves o h o' /\ link_sim s' o').
Proof.
  induction recs as [|r recs IH]; intros s o Hs Hok; cbn [run_recs].
  - apply runs_ret. exists [], o. by split_and!; [..|constructor|].
  - inversion_clear Hok as [|? ? Hr Hrs]. apply runs_bind. eapply runs_mono; [by apply handle_serves|].
    intros _ s1 e1 (o1 & Sv1 & S1). eapply runs_mono; [by apply (IH s1 o1)|]. intros _ s2 e2 (h & o2 & Ei & Eo & Sv2 & S2).
    exists ((LiIn r :: map LiOut (records_of e1)) ++ h), o2. split_and!; [..|by eapply serves_app|done].
    + rewrite inputs_app, Ei. change (inputs (LiIn r :: map LiOut (records_of e1))) with (r :: inputs (map LiOut (records_of e1))).
      by rewrite inputs_out.
    + rewrite outputs_app, Eo, records_of_app. f_equal. apply outputs_out.
Qed.

(** Pumping terminates: each event consumes work or ends what is outstanding. *)
Definition pump_work s (o : Outstanding) : nat := (work (lk_bus s) + match o with ONone => 0 | _ => 1 end)%nat.

(** One event of the engine, as a record. *)
Lemma link_event_serves e v b o ph ph' : Forall (fun x => is_u16 x) (owed o) -> tracks o ph v ->
  contract ph (LPoll (Some e)) ph' -> host_sim b ph' ->
  runs (link_event e) (mkLink v b) (fun _ s' ev => exists o', serves o (map LiOut (records_of ev)) o' /\ link_sim s' o' /\
    lk_bus s' = b /\ o <> ONone /\ (is_status_event (Some e) = false -> o' = ONone)).
Proof.
  intros Hu Ht Hc Hb. unfold link_event. apply runs_bind_get. cbn [lk_server]. inversion Hc; subst; destruct o as [|seq|seq]; try done;
    destruct Ht as [Ea Ew]; rewrite ?Ea, ?Ew; cbn [default].
  - destruct (sealed_fits (REC_STATUS :: to_le16 seq ++ [saturating_add8 d 1 - 1; id; inst] ++ fb_head pay ++ fb_tail pay)) as [rc Er].
    { cbn [length]. rewrite !length_app. cbn [length to_le16]. unfold FrameBytes_len in *. lia. }
    eapply sink_runs; [exact Er|]. exists (OCmd seq). cbn. split; [by eapply sv_status; [exact Er|constructor]|].
    split; [split; [done|]; by eexists|done].
  - apply runs_bind_mod. destruct (record_terminal OUT_CAP seq t) as [r|] eqn:Er.
    2: { exfalso. unfold record_terminal in Er. by destruct (tm_outcome t). }
    eapply sink_runs; [exact Er|]. exists ONone. cbn. split; [by eapply sv_terminal; [exact Er|constructor]|].
    split; [split; [constructor|]; by exists PhIdle|done].
  - apply runs_bind_mod. destruct (record_wire_done OUT_CAP seq tick) as [r|] eqn:Er; [|done].
    eapply sink_runs; [exact Er|]. exists ONone. cbn. split; [by eapply sv_wire_done; [exact Er|constructor]|].
    split; [split; [constructor|]; by exists PhIdle|done].
Qed.

Lemma pump_serves fuel : forall n s o, link_sim s o -> (pump_work s o < n)%nat -> (work (lk_bus s) < fuel)%nat ->
  runs (LinkServer_pump n fuel) s (fun _ s' ev => exists o', serves o (map LiOut (records_of ev)) o' /\ link_sim s' o').
Proof.
  induction n as [|n IH]; intros s o (Hu & ph & Hh & Ht) Hn Hf; [lia|]. cbn [LinkServer_pump]. apply runs_bind.
  eapply runs_mono; [apply on_bus_runs, poll_runs; [exact Hh|exact Hf]|].
  intros r s1 ev (b & ev' & -> & -> & (ph' & Hc & Hs') & _ & Hw). cbv beta. destruct r as [e|].
  - apply runs_bind. eapply runs_mono; [by eapply link_event_serves|].
    intros _ s2 e2 (o2 & Sv2 & S2 & <- & Ho & Hst). eapply runs_mono.
    + apply (IH s2 o2 S2); [|lia]. assert (pump_work s o = work (lk_bus s) + 1)%nat as Ep by (by destruct o). rewrite Ep in Hn.
      unfold pump_work. destruct (is_status_event (Some e)); [destruct o2; lia|]. rewrite (Hst eq_refl). lia.
    + intros _ s3 e3 (o3 & Sv3 & S3). exists o3. split; [|done].
      rewrite !records_of_app, records_of_wire. cbn [app]. rewrite map_app. by eapply serves_app.
  - apply runs_ret. exists o. rewrite app_nil_r, records_of_wire. split; [constructor|]. split; [done|]. exists ph'.
    inversion Hc; subst. done.
Qed.

(** ** Runs *)

Lemma blind_event e : blind (E := E) (link_event e).
Proof.
  unfold link_event. intros rx n s. rewrite !(bbind_quiet (bget _) _ _ _ _ eq_refl). cbn [lk_server with_rx ls_active ls_wire_active].
  destruct e as [slot id inst pay|t|tick].
  - apply blind_sink.
  - by apply (blind_bind (set_active None)); [apply blind_set_active|intros; apply blind_sink].
  - by apply (blind_bind (set_wire_active None)); [apply blind_set_wire_active|intros; apply blind_sink].
Qed.

Lemma blind_pump n fuel : blind (E := E) (LinkServer_pump n fuel).
Proof.
  induction n as [|n IH]; [apply blind_lift|]. cbn [LinkServer_pump]. apply blind_bind; [apply blind_on_bus|]. intros [e|]; [|apply blind_ret].
  apply blind_bind; [apply blind_event|done].
Qed.

Lemma blind_holds {A} (m : LM E A) c s a s' ev : blind m -> holds c s -> m s = Some (a, s', ev) -> holds c s'.
Proof.
  intros Hb Hh Em. specialize (Hb (ls_rx (lk_server s)) (ls_rx_len (lk_server s)) s).
  replace (with_rx (ls_rx (lk_server s)) (ls_rx_len (lk_server s)) s) with s in Hb by (by destruct s as [[] ?]).
  rewrite Em in Hb. injection Hb as Hb. rewrite Hb. exact Hh.
Qed.

(** What happens at an adapter: bytes from the client, event pumping, the
    engine's interrupts, requests drained by the chip, the world moving. *)
Inductive LinkAct := LaPipe (bytes : list Z) | LaPump | LaTxComplete | LaDeadline | LaAdapter | LaWorld (e : E).

Definition pump_fuel s : nat := S (S (poll_fuel (lk_bus s))).
Definition run_act (a : LinkAct) : LM E unit :=
  match a with
  | LaPipe bytes => LinkServer_on_pipe bytes
  | LaPump => do n <- bget pump_fuel; LinkServer_pump n n
  | LaTxComplete => on_bus HostBus_on_tx_complete
  | LaDeadline => on_bus HostBus_on_deadline
  | LaAdapter => bmod (fun s => mkLink (LinkServer_take_adapter_request (lk_server s)).2 (lk_bus s))
  | LaWorld e => bmod (fun s => mkLink (lk_server s) (set_hb_env e (lk_bus s)))
  end.
Fixpoint run_acts (acts : list LinkAct) : LM E unit :=
  match acts with [] => bret tt | a :: acts' => run_act a ;; run_acts acts' end.
Definition piped (acts : list LinkAct) : list Z := concat (map (fun a => match a with LaPipe bytes => bytes | _ => [] end) acts).

(** An engine interrupt changes nothing the client sees. *)
Lemma irq_serves (m : H E unit) s o : (forall b ph, host_sim b ph -> refines m (fun _ => LIrq) b ph) -> link_sim s o ->
  runs (on_bus m) s (fun _ s' ev => exists o', serves o (map LiOut (records_of ev)) o' /\ link_sim s' o').
Proof.
  intros Hm (Hu & ph & Hh & Ht). eapply runs_mono; [apply on_bus_runs, Hm, Hh|].
  intros _ s1 ev (b & ev' & -> & -> & (ph' & Hc & Hs') & _). exists o. rewrite records_of_wire. split; [constructor|].
  split; [done|]. exists ph'. inversion Hc; subst. done.
Qed.

Lemma quiet_act_serves a s o : match a with LaPipe _ => False | _ => True end -> link_sim s o ->
  runs (run_act a) s (fun _ s' ev => exists o', serves o (map LiOut (records_of ev)) o' /\ link_sim s' o').
Proof.
  intros Ha Hs. destruct a as [bytes| | | | |e]; [done|..]; cbn [run_act].
  - apply runs_bind_get. pose proof (work_fuel (lk_bus s)). apply pump_serves; [done|unfold pump_work, pump_fuel; destruct o; lia|unfold pump_fuel; lia].
  - by apply irq_serves; [apply on_tx_complete_refines|].
  - by apply irq_serves; [apply on_deadline_refines|].
  - apply runs_mod. exists o. split; [constructor|exact Hs].
  - apply runs_mod. exists o. split; [constructor|exact Hs].
Qed.

Lemma quiet_act_holds a c s s' ev : match a with LaPipe _ => False | _ => True end -> holds c s ->
  run_act a s = Some (tt, s', ev) -> holds c s'.
Proof.
  intros Ha Hh. destruct a as [bytes| | | | |e]; [done|..]; cbn [run_act].
  - rewrite (bbind_quiet (bget _) _ _ _ _ eq_refl). by apply blind_holds, Hh; apply blind_pump.
  - by apply blind_holds, Hh; apply blind_on_bus.
  - by apply blind_holds, Hh; apply blind_on_bus.
  - by intros [= <- <-].
  - by intros [= <- <-].
Qed.


(** Bytes from the client do what their complete records do. *)
Lemma pipe_act_serves bytes recs c t s o : holds c s -> settled c recs -> c ++ bytes ++ t = frames recs -> Forall rec_ok recs ->
  link_sim s o ->
  runs (run_act (LaPipe bytes)) s (fun _ s' ev => exists recs1 recs2 c2 h o', recs = recs1 ++ recs2 /\ c2 ++ t = frames recs2 /\
    settled c2 recs2 /\ holds c2 s' /\ inputs h = recs1 /\ outputs h = records_of ev /\ serves o h o' /\ link_sim s' o').
Proof.
  intros Hh Hc Ec Hok Hs. assert (Forall rec_fits recs) as Hf by (eapply Forall_impl; [|exact Hok]; by intros r []).
  destruct (pipe_spec (2 * length bytes) bytes recs c t s ltac:(lia) Hh Hc Ec Hf) as (recs1 & recs2 & c2 & -> & E2 & L2 & S2).
  apply Forall_app in Hok as [Hok1 _]. destruct (runs_elim _ _ _ (run_recs_serves recs1 (clean s) o Hs Hok1)) as ([] & s1 & ev & Er & Hr).
  unfold same_run in S2. rewrite Er in S2. unfold runs, run_act, LinkServer_on_pipe.
  destruct (on_pipe_loop _ bytes s) as [[[[] s2] ev2]|]; [|done]. destruct S2 as (H2 & <- & <-).
  destruct Hr as (h & o' & Hi & Hout & Hsv & Hl). by exists recs1, recs2, c2, h, o'; split_and!.
Qed.

Lemma acts_serve : forall acts recs c t s o, holds c s -> settled c recs -> c ++ piped acts ++ t = frames recs ->
  Forall rec_ok recs -> link_sim s o ->
  runs (run_acts acts) s (fun _ s' ev => exists recs1 recs2 c2 h o', recs = recs1 ++ recs2 /\ c2 ++ t = frames recs2 /\
    settled c2 recs2 /\ inputs h = recs1 /\ outputs h = records_of ev /\ serves o h o' /\ link_sim s' o').
Proof.
  induction acts as [|a acts IH]; intros recs c t s o Hh Hc Ec Hok Hs; cbn [run_acts].
  { apply runs_ret. exists [], recs, c, [], o. by split_and!; [..|constructor|]. }
  assert (runs (run_act a) s (fun _ s1 e1 => exists recs1 recs2 c2 h o', recs = recs1 ++ recs2 /\ c2 ++ piped acts ++ t = frames recs2 /\
    settled c2 recs2 /\ holds c2 s1 /\ inputs h = recs1 /\ outputs h = records_of e1 /\ serves o h o' /\ link_sim s1 o')) as Ha.
  { unfold piped in Ec. cbn [map concat] in Ec. fold (piped acts) in Ec. destruct (match a with LaPipe _ => true | _ => false end) eqn:Ep.
    - destruct a as [bytes| | | | |]; try done. rewrite <- app_assoc in Ec. by eapply pipe_act_serves.
    - assert (match a with LaPipe _ => False | _ => True end) as Hq by (by destruct a).
      destruct (runs_elim _ _ _ (quiet_act_serves a s o Hq Hs)) as ([] & s1 & e1 & Em & o1 & Sv1 & S1).
      eapply runs_eq; [exact Em|]. exists [], recs, c, (map LiOut (records_of e1)), o1.
      split_and!; [done| |done|by eapply quiet_act_holds|apply inputs_out|apply outputs_out|done|done].
      by destruct a. }
  apply runs_bind. eapply runs_mono; [exact Ha|]. intros _ s1 e1 (recs1 & recs2 & c2 & h & o1 & -> & E2 & L2 & H2 & Hi & Ho & Sv & S1).
  apply Forall_app in Hok as [_ Hok2]. eapply runs_mono; [by apply (IH recs2 c2 t s1 o1)|].
  intros _ s2 e2 (recs3 & recs4 & c3 & h2 & o2 & -> & E4 & L4 & Hi2 & Ho2 & Sv2 & S2).
  exists (recs1 ++ recs3), recs4, c3, (h ++ h2), o2. rewrite inputs_app, outputs_app, records_of_app, Hi, Ho, Hi2, Ho2.
  split_and!; [by rewrite app_assoc|done|done|done|done|by eapply serves_app|done].
Qed.
End contract.

(** The same calls and records, the same final state but for the buffer, which
    is empty; or both panic. *)
Definition same_outcome {E} (o o' : option (unit * @Link E * list LinkEv)) : Prop :=
  match o, o' with
  | Some (_, s, ev), Some (_, s', ev') => ev = ev' /\ clean s = s' /\ ls_rx_len (lk_server s) = 0%nat
  | None, None => True
  | _, _ => False
  end.

(** How the carrier cuts the stream does not matter.  Feed a server whose
    buffer is empty any sequence of transfers that together spell a sequence of
    records of legal size: the server does exactly what it does when handed the
    records one by one (same wire calls, same records out, same final state, and
    a panic only where the record itself causes one), and ends with its buffer
    empty. *)
Theorem pipe_chunking {E} {HP : HostProviders E} (chunks recs : list (list Z)) (s : @Link E) :
  length (ls_rx (lk_server s)) = RX_CAP -> ls_rx_len (lk_server s) = 0%nat -> Forall rec_fits recs ->
  concat chunks = frames recs ->
  same_outcome (run_chunks chunks s) (run_recs recs (clean s)).
Proof.
  intros Hl Hn Hf Ec. assert (holds [] s) as Hh by (split_and!; [done|done|cbn; lia|done]).
  pose proof (chunks_spec chunks recs [] s Hh) as Hs. unfold same_run, same_outcome in *. destruct recs as [|r recs].
  - specialize (Hs eq_refl Ec Hf). destruct (run_chunks chunks s) as [[[[] s'] ev]|], (run_recs [] (clean s)) as [[[[] s2] ev2]|]; try done.
    by destruct Hs as ((_ & ? & _) & ? & ?).
  - assert (settled [] (r :: recs)) as Hst by (cbn; lia). specialize (Hs Hst Ec Hf).
    destruct (run_chunks chunks s) as [[[[] s'] ev]|], (run_recs (r :: recs) (clean s)) as [[[[] s2] ev2]|]; try done.
    by destruct Hs as ((_ & ? & _) & ? & ?).
Qed.

(** C2: the adapter's contract with its client.  From boot, whatever bytes of a
    legal record stream arrive in whatever transfers, interleaved with event
    pumping, interrupts and a moving world: no call panics or runs forever; the
    records that have arrived whole, with the records sent back, form a history
    in which every SUBMIT and instrument record is either refused at once (as
    busy only while another is outstanding) or becomes the one outstanding
    request, every status carries the sequence number of the command under way,
    and that command ends with one terminal, an operation with one completion.
    So the sequence numbers asked for are the ones answered, each once, plus the
    one still outstanding. *)
Theorem link_contract {E} {HP : HostProviders E} {HL : HostLaws E} (env : E) rate (acts : list LinkAct) recs t :
  Forall rec_ok recs -> piped acts ++ t = frames recs ->
  runs (run_acts acts) (mkLink LinkServer_new (HostBus_new env rate)) (fun _ s' ev =>
    exists recs1 recs2 c h o, recs = recs1 ++ recs2 /\ c ++ t = frames recs2 /\ settled c recs2 /\
      inputs h = recs1 /\ outputs h = records_of ev /\ serves ONone h o /\ link_sim s' o /\
      Permutation (requests recs1) (answers (records_of ev) ++ owed o)).
Proof.
  intros Hok Ec. set (s0 := mkLink LinkServer_new (HostBus_new env rate)).
  assert (holds [] s0) as Hh by (split_and!; [done|done|cbn; lia|done]).
  assert (settled [] recs) as Hst by (destruct recs; cbn; (done || lia)).
  assert (link_sim s0 ONone) as Hs0.
  { split; [constructor|]. exists PhIdle. split; [apply HostBus_new_sim|done]. }
  eapply runs_mono; [by apply (acts_serve acts recs [] t s0 ONone)|].
  intros _ s' ev (recs1 & recs2 & c & h & o & -> & E2 & L2 & Hi & Ho & Sv & S). exists recs1, recs2, c, h, o.
  split_and!; try done. rewrite <- Ho, <- Hi. apply (serves_permutes ONone); [done| |constructor]. rewrite Hi.
  apply Forall_app in Hok as [Hok _]. eapply Forall_impl; [|exact Hok]. by intros r (_ & ? & _).
Qed.

(** ** A session on the bench host *)

(** HELLO, a PING under sequence number 0x1234, a RESCUE meanwhile. *)
Definition link_demo_recs : list (list Z) := [[REC_HELLO]; [REC_SUBMIT; 52; 18; 0; 5; 16]; [REC_SUBMIT; 53; 18; 1]].
Definition link_demo_chunks : list (list Z) := [[1; 0]; [0; 6; 0; 1; 52]; [18; 0; 5; 16; 4; 0; 1; 53; 18; 1]].
Definition link_demo_acts : list (@LinkAct BenchHost) :=
  map LaPipe link_demo_chunks ++
  [LaTxComplete; LaWorld (mkBenchHost (take 9 host_demo_frame) 9 100); LaPump].
Definition link_demo_start : @Link BenchHost := mkLink LinkServer_new (HostBus_new (mkBenchHost [] 0 0) B1000000).

Lemma pipe_chunking_witness :
  Forall rec_fits link_demo_recs /\ concat link_demo_chunks = frames link_demo_recs /\
  same_outcome (run_chunks link_demo_chunks link_demo_start) (run_recs link_demo_recs (clean link_demo_start)).
Proof.
  assert (Forall rec_fits link_demo_recs) as Hf by (repeat constructor; cbn; lia).
  split; [exact Hf|]. split; [reflexivity|].
  refine (pipe_chunking link_demo_chunks link_demo_recs link_demo_start _ _ Hf _); vm_compute; reflexivity.
Defined.

Ltac bytes_tac := cbv [REC_HELLO REC_SUBMIT]; repeat (apply Forall_cons_2; [lia|]); apply Forall_nil_2.

Lemma link_demo_ok : Forall rec_ok link_demo_recs.
Proof.
  unfold link_demo_recs. constructor; [split; [split; cbn; lia|split; [by bytes_tac|exact I]]|].
  constructor; [split; [split; cbn; lia|split; [by bytes_tac|]]|].
  { intros cmd [= <-]. vm_compute. by eexists. }
  constructor; [split; [split; cbn; lia|split; [by bytes_tac|]]|constructor].
  intros cmd [= <-]. exact I.
Qed.

Lemma link_contract_witness :
  Forall rec_ok link_demo_recs /\ piped link_demo_acts ++ [] = frames link_demo_recs /\
  runs (run_acts link_demo_acts) link_demo_start (fun _ s' ev =>
    exists recs1 recs2 c h o, link_demo_recs = recs1 ++ recs2 /\ c ++ [] = frames recs2 /\ settled c recs2 /\
      inputs h = recs1 /\ outputs h = records_of ev /\ serves ONone h o /\ link_sim s' o /\
      Permutation (requests recs1) (answers (records_of ev) ++ owed o)).
Proof.
  split; [exact link_demo_ok|]. split; [reflexivity|].
  exact (link_contract (mkBenchHost [] 0 0) B1000000 link_demo_acts link_demo_recs [] link_demo_ok eq_refl).
Defined.

(** The records of that session: INFO, REJECTED busy, STATUS, TERMINAL. *)
Example link_demo_records :
  (fun r => records_of r.2) <$> run_acts link_demo_acts link_demo_start =
  Some [[6; 0; 128; 1; 1; 0; 0; 0]; [4; 0; 131; 53; 18; 4]; [9; 0; 129; 52; 18; 0; 5; 128; 7; 0; 1];
        [13; 0; 130; 52; 18; 1; 0; 100; 0; 0; 0; 1; 0; 0; 0]].
Proof. vm_compute. reflexivity. Qed.
