(* ===== verification/EdgeUnwrap.v ===== *)
(** * The edge timeline of the wire instrument (client/src/wire.rs)

    The adapter captures the wire's edges in one ring per polarity and ships the
    low 16 bits of each tick; [unwrap_drain] merges the two rings by alternation
    and composes the ticks onto one 32-bit chain.  [wire_trace] is the reference:
    the edges a wire really made, with their ticks.  The theorem of the file shows
    that the chain reproduces it across any sequence of drains. *)

From S2P Require Import Prelude.

Create Rewrite HintDb edges.

Inductive Level := Low | High.
#[export] Instance Level_eq_dec : EqDecision Level.
Proof. solve_decision. Defined.

Record WireEdge := mkEdge { ed_tick : Z; ed_level : Level }.
Record EdgeAnchor := mkAnchor { an_tick : option Z; an_lead : Level; an_carry : list Z }.
Definition EdgeAnchor_default : EdgeAnchor := mkAnchor None Low [].

Definition ANCHOR_GUARD : Z := 4096.

Definition Level_flip (l : Level) : Level := match l with Low => High | High => Low end.

(** The first 32-bit tick at or after the anchor with these low bits; the first
    edge after a reset goes at or before [now]. *)
Definition edge_place (now : Z) (a : option Z) (t : Z) : Z :=
  match a with
  | None => u32 (now - u16 (u16 now - t))
  | Some prev => u32 (prev + u16 (t - u16 prev))
  end.

(** The merge loop; every turn but the last takes an edge, so [fuel] is the number
    of edges.  Returns the edges, the falls left, the phase and the anchor. *)
Fixpoint unwrap_loop (fuel : nat) (now : Z) (falls rises : list Z) (lead : Level) (a : option Z) :
    list WireEdge * list Z * Level * option Z :=
  match fuel with
  | O => ([], falls, lead, a)
  | S fuel' =>
      let emit level t falls rises :=
        let tick := edge_place now a t in
        let '(out, fs, ld, a') := unwrap_loop fuel' now falls rises (Level_flip level) (Some tick) in
        (mkEdge tick level :: out, fs, ld, a') in
      match lead, falls, rises with
      | _, [], [] => ([], falls, lead, a)
      | Low, t :: falls', _ => emit Low t falls' rises
      | High, _, [] => ([], falls, lead, a)
      | _, _, t :: rises' => emit High t falls rises'
      end
  end.

Definition unwrap_drain (anchor : EdgeAnchor) (now : Z) (falls rises : list Z) : list WireEdge * EdgeAnchor :=
  let falls := an_carry anchor ++ falls in
  let '(out, carry, lead, a) :=
    unwrap_loop (length falls + length rises) now falls rises (an_lead anchor) (an_tick anchor) in
  let a := match out, carry with
           | [], [] =>
               let floor := u32 (now - ANCHOR_GUARD) in
               if match a with None => true | Some prev => u32 (floor - prev) <? 4294967295 / 2 end
               then Some floor else a
           | _, _ => a
           end in
  (out, mkAnchor a lead carry).

(** ** The wire, and what the adapter captures of it *)

Section wire.
(** The true tick of each edge since the reset: the even ones fall, the odd ones rise. *)
Variable T : nat -> Z.
Hypothesis T_mono : forall j, T j <= T (S j).

Definition edge_level (j : nat) : Level := if Nat.even j then Low else High.
Definition wire_edge (j : nat) : WireEdge := mkEdge (u32 (T j)) (edge_level j).
(** Edges [n .. n'-1] as they happened. *)
Definition wire_trace (n n' : nat) : list WireEdge := map wire_edge (seq n (n' - n)).

(** Entries [i .. i'-1] of a capture ring, 16 bits each. *)
Definition captured (f : nat -> nat) (i i' : nat) : list Z := map (fun k => u16 (T (f k))) (seq i (i' - i)).
Definition fall_ix (k : nat) : nat := 2 * k.
Definition rise_ix (k : nat) : nat := 2 * k + 1.

(** One drain: the latch tick, the per-ring limit, and how many rises and falls the
    adapter had captured when it read each ring. *)
Record Drain := mkDrain { d_now : Z; d_max : nat; d_rises : nat; d_falls : nat }.
Definition take_upto (have max total : nat) : nat := Nat.min (have + max) total.

Fixpoint run_drains (anchor : EdgeAnchor) (F R : nat) (ds : list Drain) : list WireEdge * EdgeAnchor :=
  match ds with
  | [] => ([], anchor)
  | d :: ds' =>
      let R' := take_upto R (d_max d) (d_rises d) in
      let F' := take_upto F (d_max d) (d_falls d) in
      let '(out, anchor1) := unwrap_drain anchor (u32 (d_now d)) (captured fall_ix F F') (captured rise_ix R R') in
      let '(rest, anchor2) := run_drains anchor1 F' R' ds' in
      (out ++ rest, anchor2)
  end.

(** How many edges have been composed once [F] falls and [R] rises have arrived: a
    fall is held back when the rise before it has not. *)
Definition composed (F R : nat) : nat := if Nat.eqb F R then 2 * R else 2 * R + 1.

(** What a drain sees: the rises are read first, so a captured rise has its fall
    captured; what was captured happened before the latch, and what was not lies
    within the guard before it or after. *)
Record snapshot_ok (d : Drain) : Prop := mkSnapshot {
  sn_order : (d_rises d <= d_falls d)%nat;
  sn_max : (0 < d_max d)%nat;
  sn_falls_past : forall k, (k < d_falls d)%nat -> T (fall_ix k) <= d_now d;
  sn_rises_past : forall k, (k < d_rises d)%nat -> T (rise_ix k) <= d_now d;
  sn_falls_next : forall k, (d_falls d <= k)%nat -> d_now d - ANCHOR_GUARD <= T (fall_ix k);
  sn_rises_next : forall k, (d_rises d <= k)%nat -> d_now d - ANCHOR_GUARD <= T (rise_ix k) }.

(** The distance to an edge at [x] from the anchor, or from the latch before the
    first edge. *)
Definition distance (now : Z) (A : option Z) (x : Z) : Z := match A with None => now - x | Some a => x - a end.
Definition anchor_at (A : option Z) (n j : nat) : option Z := if Nat.eqb j n then A else Some (T (j - 1)).
(** Where the anchor stands after a drain that took the count from [n] to [n'], on
    the true timeline; [held] tells whether a fall is held back. *)
Definition next_anchor (A : option Z) (now : Z) (n n' : nat) (held : bool) : option Z :=
  if Nat.ltb n n' then Some (T (n' - 1))
  else if held then A
  else Some (match A with Some a => Z.max (now - ANCHOR_GUARD) a | None => now - ANCHOR_GUARD end).

(** What the instrument relies on, drain by drain: the counts only grow, quiet is
    polled before the 32-bit clock half-wraps, and each edge lies within a 16-bit
    wrap of the edge before it or of the last drain that found the rings empty. *)
Fixpoint timely (A : option Z) (F R : nat) (ds : list Drain) : Prop :=
  match ds with
  | [] => True
  | d :: ds' =>
      let R' := take_upto R (d_max d) (d_rises d) in
      let F' := take_upto F (d_max d) (d_falls d) in
      let n := composed F R in
      let n' := composed F' R' in
      snapshot_ok d /\ (R <= d_rises d)%nat /\ (F <= d_falls d)%nat /\
      (forall j, (n <= j < n')%nat -> distance (d_now d) (anchor_at A n j) (T j) < 65536) /\
      (forall a, A = Some a -> -2147483648 < d_now d - ANCHOR_GUARD - a < 2147483647) /\
      timely (next_anchor A (d_now d) n n' (Nat.ltb (S R') F')) F' R' ds'
  end.

(** ** Placement *)

Lemma place_chain now a x : 0 <= x - a < 65536 -> edge_place now (Some (u32 a)) (u16 x) = u32 x.
Proof. intros Hx. unfold edge_place, u16, u32. zmod. Qed.
Lemma place_seed now x : 0 <= now - x < 65536 -> edge_place (u32 now) None (u16 x) = u32 x.
Proof. intros Hx. unfold edge_place, u16, u32. zmod. Qed.
Lemma edge_level_S j : edge_level (S j) = Level_flip (edge_level j).
Proof. unfold edge_level. rewrite Nat.even_succ, <- Nat.negb_even. by destruct (Nat.even j). Qed.

Lemma captured_nil f i i' : (i' <= i)%nat -> captured f i i' = [].
Proof. intros. unfold captured. by replace (i' - i)%nat with 0%nat by lia. Qed.
Lemma captured_cons f i i' : (i < i')%nat -> captured f i i' = u16 (T (f i)) :: captured f (S i) i'.
Proof. intros. unfold captured. by replace (i' - i)%nat with (S (i' - S i)) by lia. Qed.
Lemma captured_app f i j k : (i <= j <= k)%nat -> captured f i j ++ captured f j k = captured f i k.
Proof.
  intros. unfold captured. rewrite <- map_app. replace (k - i)%nat with ((j - i) + (k - j))%nat by lia.
  rewrite seq_app. by replace (i + (j - i))%nat with j by lia.
Qed.
Lemma length_captured f i i' : length (captured f i i') = (i' - i)%nat.
Proof. unfold captured. by rewrite length_map, length_seq. Qed.
Lemma wire_trace_cons n n' : (n < n')%nat -> wire_trace n n' = wire_edge n :: wire_trace (S n) n'.
Proof. intros. unfold wire_trace. by replace (n' - n)%nat with (S (n' - S n)) by lia. Qed.
Lemma wire_trace_nil n n' : (n' <= n)%nat -> wire_trace n n' = [].
Proof. intros. unfold wire_trace. by replace (n' - n)%nat with 0%nat by lia. Qed.
Lemma wire_trace_app n m k : (n <= m <= k)%nat -> wire_trace n m ++ wire_trace m k = wire_trace n k.
Proof.
  intros. unfold wire_trace. rewrite <- map_app. replace (k - n)%nat with ((m - n) + (k - m))%nat by lia.
  rewrite seq_app. by replace (n + (m - n))%nat with m by lia.
Qed.

(** The anchor never passes the next edge, and reaches it. *)
Definition near (now : Z) (A : option Z) (n : nat) : Prop :=
  match A with None => 0 <= now - T n < 65536 | Some a => 0 <= T n - a < 65536 end.
Lemma place_near now A n : near now A n -> edge_place (u32 now) (u32 <$> A) (u16 (T n)) = u32 (T n).
Proof. destruct A as [a|]; [apply place_chain|apply place_seed]. Qed.

(** Falls and rises among the first [n] edges. *)
Definition falls_in (n : nat) : nat := Nat.div2 (S n).
Definition rises_in (n : nat) : nat := Nat.div2 n.
Lemma falls_even k : falls_in (2 * k) = k.
Proof. apply Nat.div2_succ_double. Qed.
Lemma falls_odd k : falls_in (2 * k + 1) = S k.
Proof. unfold falls_in. replace (S (2 * k + 1)) with (2 * S k)%nat by lia. apply Nat.div2_double. Qed.
Lemma rises_even k : rises_in (2 * k) = k.
Proof. apply Nat.div2_double. Qed.
Lemma rises_odd k : rises_in (2 * k + 1) = k.
Proof. unfold rises_in. rewrite Nat.add_1_r. apply Nat.div2_succ_double. Qed.
Lemma level_even k : edge_level (2 * k) = Low.
Proof. unfold edge_level. by rewrite Nat.even_even. Qed.
Lemma level_odd k : edge_level (2 * k + 1) = High.
Proof. unfold edge_level. by rewrite Nat.even_odd. Qed.
Hint Rewrite falls_even falls_odd rises_even rises_odd level_even level_odd : edges.
(** Split an edge count by the polarity due next. *)
Ltac by_phase n :=
  let k := fresh "k" in
  destruct (Nat.Even_or_Odd n) as [[k ->]|[k ->]]; autorewrite with edges in *.

Lemma composed_spec F R n : (R <= F)%nat ->
  (n <= composed F R <-> rises_in n <= R /\ falls_in n <= F)%nat.
Proof. intros HR. unfold composed. destruct (Nat.eqb F R) eqn:E; zbool; by_phase n; lia. Qed.

(** The merge: from [n] composed edges to all that the rings allow. *)
Lemma unwrap_loop_spec F R now fuel : forall n A, (R <= F)%nat -> (n <= composed F R)%nat ->
  fuel = ((F - falls_in n) + (R - rises_in n))%nat ->
  (forall j, (n <= j < composed F R)%nat -> near now (anchor_at A n j) j) ->
  unwrap_loop fuel (u32 now) (captured fall_ix (falls_in n) F) (captured rise_ix (rises_in n) R)
    (edge_level n) (u32 <$> A) =
  (wire_trace n (composed F R), captured fall_ix (falls_in (composed F R)) F, edge_level (composed F R),
   u32 <$> if Nat.ltb n (composed F R) then Some (T (composed F R - 1)) else A).
Proof.
  induction fuel as [|fuel IH]; intros n A HR Hn Hf Hnear.
  - assert (n = composed F R) as <-.
    { unfold composed in *. destruct (Nat.eqb F R) eqn:E; zbool; by_phase n; lia. }
    rewrite Nat.ltb_irrefl, wire_trace_nil by lia. done.
  - destruct (Nat.eq_dec n (composed F R)) as [Ec|Ec].
    + rewrite <- Ec, Nat.ltb_irrefl, wire_trace_nil by lia. unfold composed in Ec.
      destruct (Nat.eqb F R) eqn:E; zbool; subst n; autorewrite with edges in *; [lia|].
      cbn [unwrap_loop]. rewrite (captured_nil rise_ix) by lia.
      by destruct (captured fall_ix (S R) F).
    + assert (near now A n) as Hp.
      { specialize (Hnear n ltac:(lia)). unfold anchor_at in Hnear. by rewrite Nat.eqb_refl in Hnear. }
      specialize (IH (S n) (Some (T n)) HR ltac:(lia)). rewrite wire_trace_cons, (proj2 (Nat.ltb_lt _ _)) by lia.
      assert (u32 <$> (if Nat.ltb (S n) (composed F R) then Some (T (composed F R - 1)) else Some (T n)) =
              Some (u32 (T (composed F R - 1)))) as EA.
      { destruct (Nat.ltb (S n) (composed F R)) eqn:El; zbool; [done|]. by replace (composed F R - 1)%nat with n by lia. }
      rewrite EA in IH. cbn [fmap option_fmap option_map] in IH |- *.
      assert (forall j, (S n <= j < composed F R)%nat -> near now (anchor_at (Some (T n)) (S n) j) j) as Hn'.
      { intros j Hj. specialize (Hnear j ltac:(lia)). unfold anchor_at in *. rewrite (proj2 (Nat.eqb_neq j n)) in Hnear by lia.
        destruct (Nat.eqb j (S n)) eqn:Ej; zbool; [|done]. subst j. by replace (S n - 1)%nat with n in Hnear by lia. }
      rewrite edge_level_S in IH. unfold wire_edge.
      assert (S n <= composed F R)%nat as Hav by lia. apply composed_spec in Hav as [Hr1 Hf1]; [|done].
      by_phase n; [replace (S (2 * k)) with (2 * k + 1)%nat in * by lia|replace (S (2 * k + 1)) with (2 * S k)%nat in * by lia];
        autorewrite with edges in *; cbn [unwrap_loop].
      * rewrite (captured_cons fall_ix) by lia. change (T (fall_ix k)) with (T (2 * k)). rewrite place_near by done. rewrite IH by (done || lia). done.
      * rewrite (captured_cons rise_ix) by lia. change (T (rise_ix k)) with (T (2 * k + 1)). rewrite place_near by done.
        destruct (captured fall_ix (S k) F); rewrite IH by (done || lia); done.
Qed.

(** The instrument's state after [F] falls and [R] rises have arrived: phase, held
    falls, and an anchor that has not passed the next edge. *)
Definition in_step (A : option Z) (F R : nat) (anchor : EdgeAnchor) : Prop :=
  (R <= F)%nat /\ (forall a, A = Some a -> a <= T (composed F R)) /\
  anchor = mkAnchor (u32 <$> A) (edge_level (composed F R)) (captured fall_ix (falls_in (composed F R)) F).

Lemma composed_rises F R : rises_in (composed F R) = R.
Proof. unfold composed. by destruct (Nat.eqb F R); autorewrite with edges. Qed.
Lemma composed_falls F R : (R <= F)%nat -> falls_in (composed F R) = Nat.min (S R) F.
Proof. intros. unfold composed. destruct (Nat.eqb F R) eqn:E; zbool; autorewrite with edges; lia. Qed.

Lemma floor_lifts now a : -2147483648 < now - ANCHOR_GUARD - a < 2147483647 ->
  (if u32 (u32 (u32 now - ANCHOR_GUARD) - u32 a) <? 4294967295 / 2 then u32 (u32 now - ANCHOR_GUARD) else u32 a) =
  u32 (Z.max (now - ANCHOR_GUARD) a).
Proof.
  intros Ha. assert (u32 (u32 now - ANCHOR_GUARD) = u32 (now - ANCHOR_GUARD)) as -> by (unfold u32, ANCHOR_GUARD; zmod).
  rewrite u32_sub. change (4294967295 / 2) with 2147483647. set (x := now - ANCHOR_GUARD) in *.
  destruct (Z.le_gt_cases a x).
  - rewrite Z.max_l, (u32_id (x - a)) by lia. by rewrite (proj2 (Z.ltb_lt _ _)) by lia.
  - rewrite Z.max_r by lia. rewrite (proj2 (Z.ltb_ge _ _)); [done|]. unfold u32. zmod.
Qed.

(** The latch and the distances give the placements their range. *)
Lemma near_of_distance d A F R F' R' : snapshot_ok d -> (R' <= d_rises d)%nat -> (F' <= d_falls d)%nat -> (R' <= F')%nat ->
  let n := composed F R in let n' := composed F' R' in
  (forall a, A = Some a -> a <= T n) ->
  (forall j, (n <= j < n')%nat -> distance (d_now d) (anchor_at A n j) (T j) < 65536) ->
  forall j, (n <= j < n')%nat -> near (d_now d) (anchor_at A n j) j.
Proof using T T_mono.
  intros Hs Hr Hf HR n n' HA Hd j Hj. specialize (Hd j Hj). unfold anchor_at in *. destruct (Nat.eqb j n) eqn:Ej; zbool.
  - subst j. destruct A as [a|]; cbn in *; [specialize (HA a eq_refl); lia|].
    assert (T n <= d_now d); [|lia]. assert (S n <= n')%nat as Hc by lia. apply composed_spec in Hc as [Hc1 Hc2]; [|done].
    clearbody n. by_phase n.
    + replace (S (2 * k)) with (2 * k + 1)%nat in * by lia. autorewrite with edges in *. apply (sn_falls_past _ Hs). lia.
    + replace (S (2 * k + 1)) with (2 * S k)%nat in * by lia. autorewrite with edges in *. apply (sn_rises_past _ Hs). lia.
  - cbn in *. pose proof (T_mono (j - 1)). replace (S (j - 1)) with j in * by lia. lia.
Qed.

(** When nothing was composed and nothing is held, the rings were empty and the
    next edge is one the drain did not capture. *)
Lemma quiet_next d F R F' R' : snapshot_ok d -> (R <= d_rises d)%nat -> (F <= d_falls d)%nat -> (R <= F)%nat ->
  R' = take_upto R (d_max d) (d_rises d) -> F' = take_upto F (d_max d) (d_falls d) ->
  composed F R = composed F' R' -> (F' <= S R')%nat -> d_now d - ANCHOR_GUARD <= T (composed F' R').
Proof.
  intros Hs HR HF HRF ER EF En Hh. destruct Hs as [Ho Hm _ _ Hfn Hrn]. unfold take_upto in *.
  assert (R = R') as <-.
  { apply (f_equal rises_in) in En. by rewrite !composed_rises in En. }
  unfold composed in *. destruct (Nat.eqb F' R) eqn:E; zbool.
  - apply Hfn. lia.
  - apply Hrn. lia.
Qed.

Lemma unwrap_drain_spec A F R anchor d : in_step A F R anchor -> snapshot_ok d ->
  (R <= d_rises d)%nat -> (F <= d_falls d)%nat ->
  let R' := take_upto R (d_max d) (d_rises d) in let F' := take_upto F (d_max d) (d_falls d) in
  let n := composed F R in let n' := composed F' R' in
  (forall j, (n <= j < n')%nat -> distance (d_now d) (anchor_at A n j) (T j) < 65536) ->
  (forall a, A = Some a -> -2147483648 < d_now d - ANCHOR_GUARD - a < 2147483647) ->
  (n <= n')%nat /\ exists anchor',
    unwrap_drain anchor (u32 (d_now d)) (captured fall_ix F F') (captured rise_ix R R') = (wire_trace n n', anchor') /\
    in_step (next_anchor A (d_now d) n n' (Nat.ltb (S R') F')) F' R' anchor'.
Proof using T T_mono.
  intros (HRF & HA & ->) Hs HR HF R' F' n n' Hd Hw.
  pose proof (sn_order _ Hs) as Ho. pose proof (sn_max _ Hs).
  assert (R <= R' <= d_rises d /\ F <= F' <= d_falls d /\ R' <= F')%nat as ([??] & [??] & ?) by (unfold R', F', take_upto in *; lia).
  assert (n <= n')%nat as Hn.
  { apply composed_spec; [done|]. unfold n. rewrite composed_rises, composed_falls by done. lia. }
  split; [done|]. unfold unwrap_drain. cbn [an_carry an_lead an_tick]. fold n.
  assert (falls_in n <= F)%nat by (unfold n; rewrite composed_falls; lia).
  rewrite captured_app by lia. replace (captured rise_ix R R') with (captured rise_ix (rises_in n) R')
    by (unfold n; by rewrite composed_rises).
  rewrite (unwrap_loop_spec F' R' (d_now d) _ n A) by
    (rewrite ?length_captured; (done || (by apply (near_of_distance d A F R F' R')))).
  fold n'. eexists. split; [reflexivity|].
  unfold next_anchor, in_step. fold n'. destruct (Nat.ltb n n') eqn:El; zbool.
  - rewrite wire_trace_cons by lia. split; [done|]. split; [|done]. intros a [= <-].
    pose proof (T_mono (n' - 1)). by replace (S (n' - 1)) with n' in * by lia.
  - assert (n = n') as En by lia. rewrite wire_trace_nil by lia. destruct (Nat.ltb (S R') F') eqn:Eh; zbool.
    + split; [done|]. split; [by rewrite <- En|]. unfold n'. rewrite composed_falls, captured_cons by lia. done.
    + assert (captured fall_ix (falls_in n') F' = []) as -> by (apply captured_nil; unfold n'; rewrite composed_falls; lia).
      pose proof (quiet_next d F R F' R' Hs HR HF HRF eq_refl eq_refl En Eh) as Hq. fold n' in Hq.
      split; [done|]. destruct A as [a|]; cbn [fmap option_fmap option_map].
      * specialize (HA a eq_refl). fold n in HA. rewrite En in HA. split; [intros ? [= <-]; lia|]. f_equal.
        rewrite <- (floor_lifts (d_now d) a) by auto. by destruct (_ <? _).
      * split; [by intros ? [= <-]|]. f_equal. f_equal. unfold u32, ANCHOR_GUARD. zmod.
Qed.

Definition drained (have : nat) (total : Drain -> nat) (ds : list Drain) : nat :=
  fold_left (fun h d => take_upto h (d_max d) (total d)) ds have.

Lemma run_drains_spec ds : forall A F R anchor, in_step A F R anchor -> timely A F R ds ->
  let n' := composed (drained F d_falls ds) (drained R d_rises ds) in
  (composed F R <= n')%nat /\ exists anchor', run_drains anchor F R ds = (wire_trace (composed F R) n', anchor').
Proof using T T_mono.
  induction ds as [|d ds IH]; intros A F R anchor Hi Ht; cbn [timely run_drains drained fold_left] in *.
  - split; [done|]. exists anchor. by rewrite wire_trace_nil.
  - destruct Ht as (Hs & HR & HF & Hd & Hw & Ht).
    destruct (unwrap_drain_spec A F R anchor d Hi Hs HR HF Hd Hw) as (Hle & anchor1 & -> & Hi1).
    destruct (IH _ _ _ _ Hi1 Ht) as (Hle' & anchor2 & E2). rewrite E2. split; [unfold drained in *; lia|].
    exists anchor2. by rewrite wire_trace_app.
Qed.
End wire.

(** The wire instrument's timeline is the wire's.  Take any wire, and any
    sequence of drains of its two capture rings, each limited, late, torn between
    the rings or empty, under the timing of [timely].  The edges the client composes,
    drain after drain, are exactly the edges the wire made, in order, with their
    polarity and with their true ticks on the 32-bit clock, wraps of both clocks
    included; they run up to the last rise that arrived and the fall after it. *)
Theorem unwrap_exact (T : nat -> Z) (ds : list Drain) :
  (forall j, T j <= T (S j)) -> timely T None 0 0 ds ->
  (run_drains T EdgeAnchor_default 0 0 ds).1 =
    wire_trace T 0 (composed (drained 0 d_falls ds) (drained 0 d_rises ds)).
Proof.
  intros HT Hds. destruct (run_drains_spec T HT ds None 0 0 EdgeAnchor_default) as (_ & anchor & ->); [|done|done].
  by split; [lia|].
Qed.

(** A wire that toggles every 40000 ticks across the 32-bit wrap: a first drain, a
    stall of eight edges drained in two clamped batches with a fall running ahead,
    and a quiet poll. *)
Definition demo_wire (j : nat) : Z := 4294960000 + 40000 * Z.of_nat j.
Definition demo_drains : list Drain :=
  [mkDrain (demo_wire 1 + 10) 64 1 1; mkDrain (demo_wire 10 + 100) 2 5 6; mkDrain (demo_wire 10 + 200) 64 5 6;
   mkDrain (demo_wire 10 + 30000) 64 5 6].

Lemma demo_snapshot off n m : (0 < m)%nat -> (0 < n)%nat -> 0 <= off < 40000 ->
  snapshot_ok demo_wire (mkDrain (demo_wire (2 * n - 1) + off) m n n) /\
  snapshot_ok demo_wire (mkDrain (demo_wire (2 * n) + off) m n (S n)).
Proof. intros. split; constructor; cbn [d_rises d_falls d_max d_now]; unfold demo_wire, fall_ix, rise_ix, ANCHOR_GUARD; lia. Qed.

Lemma unwrap_exact_witness :
  timely demo_wire None 0 0 demo_drains /\
  (run_drains demo_wire EdgeAnchor_default 0 0 demo_drains).1 = wire_trace demo_wire 0 11 /\
  ed_tick <$> take 2 (wire_trace demo_wire 0 11) = [4294960000; 32704].
Proof.
  assert (timely demo_wire None 0 0 demo_drains) as Ht.
  { unfold demo_drains. cbn [timely d_max d_rises d_falls d_now].
    repeat match goal with |- context [take_upto ?a ?b ?c] => let x := eval vm_compute in (take_upto a b c) in change (take_upto a b c) with x end.
    repeat match goal with |- context [composed ?a ?b] => let x := eval vm_compute in (composed a b) in change (composed a b) with x end.
    split; [apply (proj1 (demo_snapshot 10 1 64 ltac:(lia) ltac:(lia) ltac:(lia)))|]. split; [lia|]. split; [lia|].
    split; [|split; [done|]].
    { intros j Hj. unfold anchor_at. destruct (Nat.eqb j 0) eqn:E; zbool; cbn; unfold demo_wire; lia. }
    cbn [next_anchor Nat.ltb Nat.leb].
    split; [apply (proj2 (demo_snapshot 100 5 2 ltac:(lia) ltac:(lia) ltac:(lia)))|]. split; [lia|]. split; [lia|].
    split; [intros j Hj; unfold anchor_at; destruct (Nat.eqb j 2) eqn:E; zbool; cbn; unfold demo_wire; lia|].
    split; [intros a [= <-]; unfold demo_wire, ANCHOR_GUARD; lia|].
    split; [apply (proj2 (demo_snapshot 200 5 64 ltac:(lia) ltac:(lia) ltac:(lia)))|]. split; [lia|]. split; [lia|].
    split; [intros j Hj; unfold anchor_at; destruct (Nat.eqb j 6) eqn:E; zbool; cbn; unfold demo_wire; lia|].
    split; [intros a [= <-]; unfold demo_wire, ANCHOR_GUARD; lia|].
    split; [apply (proj2 (demo_snapshot 30000 5 64 ltac:(lia) ltac:(lia) ltac:(lia)))|]. split; [lia|]. split; [lia|].
    split; [intros j Hj; lia|]. split; [intros a [= <-]; unfold demo_wire, ANCHOR_GUARD; lia|done]. }
  split; [exact Ht|]. split; [|reflexivity].
  rewrite (unwrap_exact demo_wire demo_drains); [reflexivity| |exact Ht]. intros j. unfold demo_wire. lia.
Defined.
