(* ===== verification/ClientSession.v ===== *)
(** * The client's session (client/src/session.rs, error.rs)

    The PC side of the record pipe: requests are encoded with a sequence number
    each, arriving bytes are reassembled into records, whatever the carrier's
    chunks.  The error texts of a desync are left out; the constructor stays.
    The theorems tie both directions to the link server of [Link]. *)

From S2P Require Import Prelude Trace FrameBytes Wire HostShape HostEngine Link LinkContract.

(** ** Errors (error.rs, pipe.rs) *)

Inductive RejectReason := RrBadId | RrBadInst | RrBadPayload | RrTooLong | RrBusy | RrMalformed | RrOther (b : Z).
Definition RejectReason_from_byte (b : Z) : RejectReason :=
  if b =? REASON_BAD_ID then RrBadId
  else if b =? REASON_BAD_INST then RrBadInst
  else if b =? REASON_BAD_PAYLOAD then RrBadPayload
  else if b =? REASON_TOO_LONG then RrTooLong
  else if b =? REASON_BUSY then RrBusy
  else if b =? REASON_MALFORMED then RrMalformed
  else RrOther b.

Inductive LinkError := LkRejected (r : RejectReason) | LkDesync | LkMalformed.
Inductive PipeError := PipeIo | PipeStalled.
Inductive Error :=
| ErrPipe (e : PipeError)
| ErrLink (e : LinkError)
| ErrTimeout (slot : Z)
| ErrServo (code : ResultCode).

(** ** Records *)

Record LinkInfo := mkInfo { li_version : Z; li_ticks_per_us : Z }.

Inductive LRecord :=
| RecInfo (i : LinkInfo)
| RecStatus (seq slot id : Z) (inst : Inst) (payload : list Z)
| RecTerminal (seq : Z) (outcome : Outcome) (tick statuses garble : Z) (trailing : bool)
| RecRejected (seq reason : Z)
| RecBootloaderAck
| RecRailsAck (state : Z)
| RecWireDone (seq tick : Z)
| RecEdges (overflow : bool) (now : Z) (falls rises : list Z)
| RecCaptureAck
| RecUnknown (rtype : Z).

Record Session := mkSession { ss_rx : list Z; ss_next_seq : Z }.
Definition Session_new : Session := mkSession [] 0.

Definition Session_alloc_seq (s : Session) : Z * Session :=
  let next := u16 (ss_next_seq s + 1) in
  (ss_next_seq s, mkSession (ss_rx s) (if next =? SEQ_NONE then 0 else next)).

(** ** Encoders: each appends one length-prefixed record *)

Definition Session_frame (out body : list Z) : list Z := out ++ to_le16 (u16 (Z.of_nat (length body))) ++ body.

Definition Session_encode_hello (out : list Z) : list Z := Session_frame out [REC_HELLO].
Definition Session_encode_enter_bootloader (out : list Z) : list Z := Session_frame out [REC_ENTER_BOOTLOADER].
Definition Session_encode_set_rails (out : list Z) (state mask : Z) : list Z :=
  Session_frame out [REC_SET_RAILS; state; mask].

(** A SUBMIT's verb and arguments. *)
Definition submit_args (cmd : Command) : list Z :=
  match cmd with
  | CmdExchange id inst payload => VERB_EXCHANGE :: id :: inst :: payload
  | CmdRescue => [VERB_RESCUE]
  | CmdHostBaud rate => [VERB_HOST_BAUD; BaudRate_as_idx rate]
  | CmdSetResponseDeadline us => VERB_SET_RESPONSE_DEADLINE :: to_le16 us
  end.
Definition seq_bytes (seq : Z) : list Z := [u8 seq; u8 (Z.shiftr seq 8)].
Definition Session_encode_submit (s : Session) (out : list Z) (cmd : Command) : Z * list Z * Session :=
  let '(seq, s) := Session_alloc_seq s in
  (seq, Session_frame out (REC_SUBMIT :: seq_bytes seq ++ submit_args cmd), s).

Definition Session_encode_wire_op (s : Session) (out : list Z) (rtype : Z) (body : list Z) : Z * list Z * Session :=
  let '(seq, s) := Session_alloc_seq s in (seq, Session_frame out (rtype :: seq_bytes seq ++ body), s).
Definition Session_encode_wire_send s out bytes := Session_encode_wire_op s out REC_WIRE_SEND bytes.
Definition Session_encode_wire_burst s out stream := Session_encode_wire_op s out REC_WIRE_BURST stream.
Definition Session_encode_wire_pulse s out us := Session_encode_wire_op s out REC_WIRE_PULSE (to_le16 us).
Definition Session_encode_wire_train s out announce gap_us breaks :=
  Session_encode_wire_op s out REC_WIRE_TRAIN (to_le16 gap_us ++ [breaks] ++ announce).
Definition Session_encode_wire_baud s out bps := Session_encode_wire_op s out REC_WIRE_BAUD (to_le32 bps).
Definition Session_encode_edge_drain (out : list Z) (max : Z) : list Z := Session_frame out [REC_EDGE_DRAIN; max].
Definition Session_encode_capture_reset (out : list Z) : list Z := Session_frame out [REC_CAPTURE_RESET].

(** ** Decoding *)

Definition Session_on_bytes (s : Session) (chunk : list Z) : Session := mkSession (ss_rx s ++ chunk) (ss_next_seq s).

Definition ok_or {A E} (o : option A) (e : E) : result A E := match o with Some a => Ok a | None => Err e end.
Definition le16_of (l : list Z) : option Z := match l with [a; b] => Some (from_le16 a b) | _ => None end.
Definition le32_of (l : list Z) : option Z := match l with [a; b; c; d] => Some (from_le32 a b c d) | _ => None end.
(** [tick(i)] over the tick bytes of an EDGES record. *)
Definition tick_at (ticks : list Z) (i : nat) : option Z :=
  match ticks !! (2 * i)%nat, ticks !! (2 * i + 1)%nat with Some a, Some b => Some (from_le16 a b) | _, _ => None end.

Section decode.
Variable body : list Z.
Definition field (a b : nat) : option (list Z) := get_range body a b.
Definition field16 (a : nat) : option Z := field a (a + 2) ≫= le16_of.
Definition field32 (a : nat) : option Z := field a (a + 4) ≫= le32_of.

Definition decode_terminal : option LRecord :=
  kind ← body !! 3%nat;
  outcome ← (if kind =? OUTCOME_SENT then Some OcSent
             else if kind =? OUTCOME_COMPLETE then Some OcComplete
             else if kind =? OUTCOME_TIMEOUT then slot ← body !! 4%nat; Some (OcTimeout slot)
             else None);
  seq ← field16 1; tick ← field32 5; statuses ← body !! 9%nat; garble ← field16 10; flags ← body !! 12%nat;
  Some (RecTerminal seq outcome tick statuses garble (negb (Z.land flags FLAG_GARBLE_AFTER_LAST_FRAME =? 0))).

Definition decode_edges : option LRecord :=
  fall_n ← Z.to_nat <$> body !! 6%nat; rise_n ← Z.to_nat <$> body !! 7%nat;
  ticks ← field 8 (8 + 2 * (fall_n + rise_n));
  flags ← body !! 1%nat; now ← field32 2;
  falls ← mapM (tick_at ticks) (seq 0 fall_n); rises ← mapM (tick_at ticks) (seq fall_n rise_n);
  Some (RecEdges (negb (Z.land flags 1 =? 0)) now falls rises).

(** Every failure of the match is the same error, so [None] carries it. *)
Definition decode_body : option LRecord :=
  rtype ← body !! 0%nat;
  if rtype =? REC_INFO then version ← body !! 1%nat; tpu ← field32 2; Some (RecInfo (mkInfo version tpu))
  else if rtype =? REC_STATUS then
    seq ← field16 1; slot ← body !! 3%nat; id ← body !! 4%nat; inst ← body !! 5%nat;
    Some (RecStatus seq slot id inst (drop 6 body))
  else if rtype =? REC_TERMINAL then decode_terminal
  else if rtype =? REC_REJECTED then seq ← field16 1; reason ← body !! 3%nat; Some (RecRejected seq reason)
  else if rtype =? REC_BOOTLOADER_ACK then Some RecBootloaderAck
  else if rtype =? REC_RAILS_ACK then state ← body !! 1%nat; Some (RecRailsAck state)
  else if rtype =? REC_WIRE_DONE then seq ← field16 1; tick ← field32 3; Some (RecWireDone seq tick)
  else if rtype =? REC_EDGES then decode_edges
  else if rtype =? REC_CAPTURE_ACK then Some RecCaptureAck
  else if rtype =? REC_UNKNOWN then rt ← body !! 1%nat; Some (RecUnknown rt)
  else None.
End decode.

Definition decode (body : list Z) : result LRecord LinkError := ok_or (decode_body body) LkMalformed.

Definition Session_next_record (s : Session) : result (option LRecord) LinkError * Session :=
  match ss_rx s with
  | lo :: hi :: rest =>
      let len := Z.to_nat (from_le16 lo hi) in
      if Nat.eqb len 0 then (Err LkMalformed, s)
      else if Nat.ltb (length rest) len then (Ok None, s)
      else match decode (take len rest) with
           | Ok r => (Ok (Some r), mkSession (drop len rest) (ss_next_seq s))
           | Err e => (Err e, s)
           end
  | _ => (Ok None, s)
  end.

(** ** Both directions against the server

    [record_bytes] is the record as the server's builder writes it. *)

Definition record_bytes (r : LRecord) : option (list Z) :=
  match r with
  | RecInfo i => if li_version i =? LINK_VERSION then record_info OUT_CAP (li_ticks_per_us i) else None
  | RecStatus seq slot id inst payload => record_status OUT_CAP seq slot id inst (FB payload [])
  | RecTerminal seq oc tick statuses garble trailing =>
      record_terminal OUT_CAP seq (mkTerminal oc tick (mkEvidence statuses garble trailing))
  | RecRejected seq reason => record_rejected OUT_CAP seq reason
  | RecBootloaderAck => record_bootloader_ack OUT_CAP
  | RecRailsAck state => record_rails_ack OUT_CAP state
  | RecWireDone seq tick => record_wire_done OUT_CAP seq tick
  | RecEdges overflow now falls rises => record_edges OUT_CAP overflow now falls rises
  | RecCaptureAck => record_capture_ack OUT_CAP
  | RecUnknown rtype => record_unknown OUT_CAP rtype
  end.

(** The record with its fields cut to their widths, as the wire carries it. *)
Definition record_norm (r : LRecord) : LRecord :=
  match r with
  | RecInfo i => RecInfo (mkInfo (li_version i) (u32 (li_ticks_per_us i)))
  | RecStatus seq slot id inst payload => RecStatus (u16 seq) slot id inst payload
  | RecTerminal seq oc tick statuses garble trailing => RecTerminal (u16 seq) oc (u32 tick) statuses (u16 garble) trailing
  | RecRejected seq reason => RecRejected (u16 seq) reason
  | RecWireDone seq tick => RecWireDone (u16 seq) (u32 tick)
  | RecEdges overflow now falls rises => RecEdges overflow (u32 now) (u16 <$> falls) (u16 <$> rises)
  | _ => r
  end.

Lemma le16_wraps x : from_le16 (x mod 256) ((x / 256) mod 256) = u16 x.
Proof. unfold from_le16, u16. zmod. Qed.
Lemma le32_wraps x : from_le32 (x mod 256) ((x / 256) mod 256) ((x / 65536) mod 256) ((x / 16777216) mod 256) = u32 x.
Proof. unfold from_le32, u32. zmod. Qed.

Lemma sealed_inv body bs : rec_sealed OUT_CAP body = Some bs -> bs = frame_rec body /\ (length body <= 298)%nat.
Proof.
  unfold rec_sealed, OUT_CAP. destruct (Nat.leb _ _) eqn:El; [|done]. zbool. intros [= <-].
  split; [|lia]. unfold frame_rec. by rewrite u16_id by lia.
Qed.

(** Fixed-position fields of a body given by its front. *)
Lemma field_split front w body : field (front ++ w ++ body) (length front) (length front + length w) = Some w.
Proof.
  unfold field. rewrite get_range_ok by (rewrite !length_app; lia). f_equal.
  rewrite drop_app_length. replace (length front + length w - length front)%nat with (length w) by lia.
  apply take_app_length.
Qed.
Lemma field32_split front x body : field32 (front ++ to_le32 x ++ body) (length front) = Some (u32 x).
Proof. unfold field32. rewrite (field_split front (to_le32 x)). cbn. by rewrite le32_wraps. Qed.

Lemma tick_at_spec l i : tick_at (concat (to_le16 <$> l)) i = u16 <$> l !! i.
Proof.
  revert i. induction l as [|x l IH]; intros i; [by destruct i|].
  unfold tick_at. cbn [fmap list_fmap concat to_le16 app]. destruct i as [|i].
  - cbn. by rewrite le16_wraps.
  - replace (2 * S i)%nat with (S (S (2 * i))) by lia. replace (S (S (2 * i)) + 1)%nat with (S (S (2 * i + 1))) by lia.
    cbn [lookup list_lookup]. apply IH.
Qed.
Lemma ticks_range l i n : (i + n <= length l)%nat ->
  mapM (tick_at (concat (to_le16 <$> l))) (seq i n) = Some (u16 <$> take n (drop i l)).
Proof.
  revert i. induction n as [|n IH]; intros i Hi; [done|]. cbn [seq mapM]. rewrite tick_at_spec.
  destruct (lookup_lt_is_Some_2 l i) as [x Ex]; [lia|]. rewrite Ex. cbn [mbind option_bind fmap option_fmap option_map].
  rewrite IH by lia. cbn [mbind option_bind]. by rewrite (drop_S _ _ _ Ex).
Qed.

Lemma decode_edges_spec overflow now falls rises : (length (falls ++ rises) < 256)%nat ->
  decode_edges (REC_EDGES :: Z.b2z overflow :: to_le32 now ++
    [u8 (Z.of_nat (length falls)); u8 (Z.of_nat (length rises))] ++ concat (to_le16 <$> (falls ++ rises))) =
  Some (RecEdges overflow (u32 now) (u16 <$> falls) (u16 <$> rises)).
Proof.
  intros Hs. rewrite length_app in Hs. unfold decode_edges. rewrite !u8_id by lia.
  set (ticks := concat (to_le16 <$> (falls ++ rises))).
  cbn [to_le32 app lookup list_lookup]. change (?a :: ?b :: ?c :: ?d :: ?e :: ?f :: ?g :: ?h :: ticks) with
    ([a; b; c; d; e; f; g; h] ++ ticks). cbn [fmap option_fmap option_map mbind option_bind]. rewrite !Nat2Z.id.
  assert (length ticks = (2 * (length falls + length rises))%nat) as Lt by (unfold ticks; rewrite length_edges, length_app; lia).
  rewrite <- Lt. pose proof (field_split [REC_EDGES; Z.b2z overflow; now mod 256; (now / 256) mod 256;
    (now / 65536) mod 256; (now / 16777216) mod 256; Z.of_nat (length falls); Z.of_nat (length rises)] ticks []) as Ef.
  rewrite app_nil_r in Ef. cbn [length] in Ef. rewrite Ef. cbn [mbind option_bind].
  pose proof (field32_split [REC_EDGES; Z.b2z overflow] now ([Z.of_nat (length falls); Z.of_nat (length rises)] ++ ticks)) as E2.
  cbn [app to_le32 length] in E2. cbn [app]. rewrite E2. cbn [mbind option_bind].
  unfold ticks. rewrite !ticks_range by (rewrite length_app; lia). cbn [mbind option_bind].
  rewrite drop_0, take_app_length, drop_app_length, firstn_all. by destruct overflow.
Qed.

Ltac record_fields :=
  unfold decode, decode_body, decode_terminal, field16, field32, field; cbn [to_le16 to_le32 app lookup list_lookup Z.eqb Pos.eqb mbind option_bind
    REC_INFO REC_STATUS REC_TERMINAL REC_REJECTED REC_UNKNOWN REC_BOOTLOADER_ACK REC_RAILS_ACK REC_WIRE_DONE REC_EDGES REC_CAPTURE_ACK].

(** What the server sends is what the client reads. *)
Lemma decode_record r bs : record_bytes r = Some bs ->
  exists body, bs = frame_rec body /\ rec_fits body /\ decode body = Ok (record_norm r).
Proof.
  intros Hb. unfold rec_fits, RX_CAP.
  assert (exists body, rec_sealed OUT_CAP body = Some bs /\ body <> [] /\
    ((length body <= 298)%nat -> decode body = Ok (record_norm r))) as (body & Hs & Hne & Hd).
  2: { apply sealed_inv in Hs as [-> Hl]. exists body. split; [done|]. split; [|auto].
       destruct body as [|x body]; [congruence|cbn [length] in *; lia]. }
  destruct r as [[v t]|seq slot id inst pay|seq oc tick st gb tr|seq reason| |state|seq tick|ov now falls rises| |rtype];
    cbn [record_bytes record_norm] in *.
  - cbn [li_version li_ticks_per_us] in Hb. destruct (v =? LINK_VERSION) eqn:Ev; [|done]. zbool. subst v.
    eexists. split; [exact Hb|]. split; [done|]. intros _. record_fields. cbn. by rewrite le32_wraps.
  - eexists. split; [exact Hb|]. split; [done|]. intros _. record_fields. cbn. by rewrite app_nil_r, le16_wraps.
  - unfold record_terminal in Hb. destruct oc as [| |slot]; cbn [tm_outcome tm_tick tm_evidence
      we_statuses we_garble we_garble_after_last_frame] in Hb; eexists; (split; [exact Hb|split; [done|]]); intros _;
      record_fields; cbn; rewrite !le16_wraps, le32_wraps; by destruct tr.
  - eexists. split; [exact Hb|]. split; [done|]. intros _. record_fields. cbn. by rewrite le16_wraps.
  - by eexists.
  - by eexists.
  - eexists. split; [exact Hb|]. split; [done|]. intros _. record_fields. cbn. by rewrite le16_wraps, le32_wraps.
  - eexists. split; [exact Hb|]. split; [done|]. intros Hl.
    assert (length (falls ++ rises) < 256)%nat as Hs.
    { revert Hl. cbn [length]. rewrite !length_app. cbn [length to_le32]. rewrite length_edges, length_app. lia. }
    unfold decode, decode_body. cbn [lookup list_lookup mbind option_bind]. cbn [Z.eqb Pos.eqb REC_EDGES REC_INFO REC_STATUS
      REC_TERMINAL REC_REJECTED REC_BOOTLOADER_ACK REC_RAILS_ACK REC_WIRE_DONE].
    by rewrite (decode_edges_spec ov now falls rises).
  - by eexists.
  - by eexists.
Qed.

(** ** Reassembly *)

(** The buffer [c] holds the front of the records [rs] still to come, [t] the bytes
    not yet delivered. *)
Definition awaits (c t : list Z) (rs : list LRecord) : Prop :=
  exists bodies, c ++ t = frames bodies /\ Forall rec_fits bodies /\ Forall2 (fun b r => decode b = Ok r) bodies rs.

Lemma awaits_intro rs bss : Forall2 (fun r bs => record_bytes r = Some bs) rs bss ->
  awaits [] (concat bss) (record_norm <$> rs).
Proof.
  intros Hb. induction Hb as [|r bs rs bss Hr Hb IH].
  - exists []. done.
  - destruct IH as (bodies & E & Hf & Hd). destruct (decode_record r bs Hr) as (body & -> & Hbf & Hbd).
    exists (body :: bodies). cbn [app concat fmap list_fmap] in *. rewrite E. split; [done|]. by split; constructor.
Qed.

(** One look at the buffer: the next record whole, or not yet. *)
Lemma next_record_awaits c t r rs seq : awaits c t (r :: rs) ->
  (exists c', Session_next_record (mkSession c seq) = (Ok (Some r), mkSession c' seq) /\ awaits c' t rs) \/
  Session_next_record (mkSession c seq) = (Ok None, mkSession c seq) /\ t <> [].
Proof.
  intros (bodies & Ec & Hf & Hd). inversion Hd as [|b ? bodies' ? Hb Hd']; subst. apply Forall_cons_1 in Hf as [Hbf Hf].
  destruct (prefix_len b Hbf) as (lo & hi & Ep & El). pose proof Hbf as Hbl. unfold rec_fits in Hbl.
  destruct (front_cases b bodies' c t Ec) as [[Hs Hp]|(c' & -> & Ec')].
  - right. split.
    + destruct c as [|x [|y c]]; [done..|]. specialize (Hp ltac:(cbn; lia)). rewrite Ep in Hp. injection Hp as -> ->.
      cbn [settled length] in Hs. unfold Session_next_record. cbn [ss_rx]. rewrite El, Nat2Z.id.
      rewrite (proj2 (Nat.eqb_neq _ _)) by lia. by rewrite (proj2 (Nat.ltb_lt _ _)) by lia.
    + intros ->. rewrite app_nil_r in Ec. cbn [settled] in Hs. subst c. unfold frames in Hs. cbn [fmap list_fmap concat] in Hs.
      rewrite length_app in Hs. unfold frame_rec in Hs. rewrite length_app in Hs. cbn in Hs. lia.
  - left. exists c'. split; [|by exists bodies'].
    unfold frame_rec. rewrite Ep. unfold Session_next_record. cbn [ss_rx app ss_next_seq]. rewrite El, Nat2Z.id.
    rewrite (proj2 (Nat.eqb_neq _ _)) by lia. rewrite (proj2 (Nat.ltb_ge _ _)) by (rewrite length_app; lia).
    by rewrite take_app_length, drop_app_length, Hb.
Qed.

(** ** Sequence numbers *)

(** Never [SEQ_NONE], and never the one given out just before. *)
Lemma alloc_seq_ok s : 0 <= ss_next_seq s < SEQ_NONE ->
  let '(seq, s') := Session_alloc_seq s in
  seq = ss_next_seq s /\ 0 <= ss_next_seq s' < SEQ_NONE /\ ss_next_seq s' <> seq /\ ss_rx s' = ss_rx s.
Proof.
  unfold Session_alloc_seq, SEQ_NONE. intros Hs. cbn [ss_next_seq ss_rx].
  rewrite u16_id by lia. destruct (_ =? _) eqn:E; zbool; repeat split; lia.
Qed.

Lemma seq_bytes_le seq : is_u16 seq -> seq_bytes seq = to_le16 seq.
Proof.
  intros Hs. unfold seq_bytes, to_le16, u8. rewrite Z.shiftr_div_pow2 by lia. done.
Qed.

(** The server reads back the command the client encoded. *)
Lemma submit_args_spec cmd : match cmd with CmdSetResponseDeadline us => is_u16 us | _ => True end ->
  exists verb args, submit_args cmd = verb :: args /\ submit_verb verb args = Some cmd.
Proof.
  destruct cmd as [id inst pay| |rate|us]; intros Hc; eexists _, _; (split; [reflexivity|]); [done..| |].
  - cbn. by rewrite BaudRate_roundtrip.
  - cbn. by rewrite from_to_le16.
Qed.
