(* ===== verification/Client.v ===== *)
(** * The client (client/src/client.rs, wire.rs, common.rs, cyclic.rs)

    One adapter, one command in flight.  A client call is a computation over the
    client's state that may fail with an [Error]; [None] is a panic or a record loop
    that has not ended within [turns] turns.  The pipe to the adapter is the class
    [Pipe]; a receive that the guard outlives is its [None]. *)

From S2P Require Import Prelude FrameBytes Wire Build HostEngine Link EdgeUnwrap ClientSession.

(** ** The pipe (pipe.rs) *)

Class Pipe (P : Type) := {
  pipe_send : list Z -> P -> result unit PipeError * P;
  (** The next chunk, or nothing within the guard (in microseconds). *)
  pipe_recv : Z -> P -> option (result (list Z) PipeError) * P;
  pipe_pause : Z -> P -> P;
}.

(** ** Data *)

Record Status := mkStatus { st_slot : Z; st_id : Z; st_result : option ResultCode; st_alert : bool; st_payload : list Z }.
Record Reply := mkReply { rp_statuses : list Status; rp_outcome : Outcome; rp_tick : Z; rp_garble : Z; rp_trailing : bool }.
Record Ping := mkPing { pg_model : Z; pg_fw : Z; pg_alert : bool }.
Record Chain_ := mkChain { cn_statuses : list Status; cn_timeout_slot : option Z }.

(** Two seconds. *)
Definition DEFAULT_GUARD : Z := 2000000.

Section client.
Context {P : Type} {PP : Pipe P}.

Record Client := mkClient { cl_pipe : P; cl_session : Session; cl_anchor : EdgeAnchor; cl_info : LinkInfo; cl_guard : Z }.
Definition set_cl_pipe p c := mkClient p (cl_session c) (cl_anchor c) (cl_info c) (cl_guard c).
Definition set_cl_session s c := mkClient (cl_pipe c) s (cl_anchor c) (cl_info c) (cl_guard c).
Definition set_cl_anchor a c := mkClient (cl_pipe c) (cl_session c) a (cl_info c) (cl_guard c).
Definition set_cl_info i c := mkClient (cl_pipe c) (cl_session c) (cl_anchor c) i (cl_guard c).
Definition Client_set_guard (guard : Z) (c : Client) : Client := mkClient (cl_pipe c) (cl_session c) (cl_anchor c) (cl_info c) guard.

(** ** Client computations *)

Definition CM (A : Type) : Type := Client -> option (result A Error * Client).
Definition cret {A} (a : A) : CM A := fun c => Some (Ok a, c).
Definition cfail {A} (e : Error) : CM A := fun c => Some (Err e, c).
Definition cbind {A B} (m : CM A) (k : A -> CM B) : CM B := fun c =>
  match m c with
  | None => None
  | Some (Err e, c1) => Some (Err e, c1)
  | Some (Ok a, c1) => k a c1
  end.
(** [?] on a plain result, [expect] on an option. *)
Definition ctry {A} (r : result A Error) : CM A := fun c => Some (r, c).
Definition cexpect {A} (o : option A) : CM A := fun c => match o with Some a => Some (Ok a, c) | None => None end.
Definition cok_or {A} (o : option A) (e : Error) : CM A := ctry (ok_or o e).
(** Run [m] and hand its result, error included, to [k]. *)
Definition ccatch {A B} (m : CM A) (k : result A Error -> CM B) : CM B := fun c =>
  match m c with None => None | Some (r, c1) => k r c1 end.
End client.
Arguments Client : clear implicits.
Arguments CM : clear implicits.

Declare Scope client_scope.
Delimit Scope client_scope with client.
Notation "'do' x <- m ; k" := (cbind m (fun x => k))
  (at level 10, x pattern, m at level 100, k at level 200) : client_scope.
Notation "m ;; k" := (cbind m (fun _ => k)) (at level 100, k at level 200, right associativity) : client_scope.
Local Open Scope client_scope.

Definition desync : Error := ErrLink LkDesync.
Definition sole_ok (reply : Reply) : result Status Error :=
  match rp_outcome reply with
  | OcTimeout slot => Err (ErrTimeout slot)
  | _ =>
      match rp_statuses reply with
      | [s] => match st_result s with
               | Some RcOk => Ok s
               | Some code => Err (ErrServo code)
               | None => Err desync
               end
      | _ => Err desync
      end
  end.
Definition chain_digest (reply : Reply) : Chain_ :=
  mkChain (rp_statuses reply) (match rp_outcome reply with OcTimeout slot => Some slot | _ => None end).

Section calls.
Context {P : Type} {PP : Pipe P}.
(** How many turns a record loop may take. *)
Variable turns : nat.

Definition client_send (bytes : list Z) : CM P unit := fun c =>
  let '(r, p) := pipe_send bytes (cl_pipe c) in
  Some (match r with Ok _ => Ok tt | Err e => Err (ErrPipe e) end, set_cl_pipe p c).

Definition recv_guarded : CM P (list Z) := fun c =>
  let '(r, p) := pipe_recv (cl_guard c) (cl_pipe c) in
  Some (match r with
        | Some (Ok chunk) => Ok chunk
        | Some (Err e) => Err (ErrPipe e)
        | None => Err (ErrPipe PipeStalled)
        end, set_cl_pipe p c).

Fixpoint next_record_loop (n : nat) : CM P LRecord := fun c =>
  match n with
  | O => None
  | S n' =>
      let '(r, s) := Session_next_record (cl_session c) in
      let c := set_cl_session s c in
      match r with
      | Err e => Some (Err (ErrLink e), c)
      | Ok (Some record) => Some (Ok record, c)
      | Ok None =>
          (do chunk <- recv_guarded;
           fun c => next_record_loop n' (set_cl_session (Session_on_bytes (cl_session c) chunk) c)) c
      end
  end.
Definition client_next_record : CM P LRecord := next_record_loop turns.

(** The encoders that take a sequence number. *)
Definition encode_with (enc : Session -> Z * list Z * Session) : CM P (Z * list Z) := fun c =>
  let '(seq, out, s) := enc (cl_session c) in Some (Ok (seq, out), set_cl_session s c).

Fixpoint submit_loop (n : nat) (seq : Z) (statuses : list Status) : CM P Reply :=
  match n with
  | O => fun _ => None
  | S n' =>
      do r <- client_next_record;
      match r with
      | RecStatus s slot id inst payload =>
          if s =? seq then
            submit_loop n' seq (statuses ++ [mkStatus slot id (Inst_result inst) (Inst_alert inst) payload])
          else cfail desync
      | RecTerminal s outcome tick _ garble trailing =>
          if s =? seq then cret (mkReply statuses outcome tick garble trailing) else cfail desync
      | RecRejected s reason =>
          if s =? seq then cfail (ErrLink (LkRejected (RejectReason_from_byte reason))) else cfail desync
      | _ => cfail desync
      end
  end.

Definition Client_submit (cmd : Command) : CM P Reply :=
  do r <- encode_with (fun s => Session_encode_submit s [] cmd);
  client_send r.2 ;;
  submit_loop turns r.1 [].

Definition Client_connect (pipe : P) : option (result (Client P) Error) :=
  let c := mkClient pipe Session_new EdgeAnchor_default (mkInfo 0 1) DEFAULT_GUARD in
  match (client_send (Session_encode_hello []) ;; client_next_record) c with
  | None => None
  | Some (Ok (RecInfo info), c1) => Some (Ok (set_cl_info info c1))
  | Some (Ok _, _) => Some (Err desync)
  | Some (Err e, _) => Some (Err e)
  end.

(** Nanoseconds; a tick rate of zero divides by zero. *)
Definition Client_ticks (c : Client P) (span : Z) : option Z :=
  if li_ticks_per_us (cl_info c) =? 0 then None else Some (span * 1000 / li_ticks_per_us (cl_info c)).

Definition Client_exchange (id : Id) (inst : Inst) (payload : list Z) : CM P Reply :=
  Client_submit (CmdExchange id inst payload).
Definition Client_pause (us : Z) : CM P unit := fun c => Some (Ok tt, set_cl_pipe (pipe_pause us (cl_pipe c)) c).

Definition Client_ping (id : Id) : CM P Ping :=
  do reply <- Client_exchange id (Inst_instruction OpPing 0) [];
  do status <- ctry (sole_ok reply);
  match st_payload status with
  | a :: b :: fw :: _ => cret (mkPing (from_le16 a b) fw (st_alert status))
  | _ => cfail desync
  end.

Definition Client_read (id : Id) (addr count : Z) : CM P (list Z) :=
  do p <- cok_or (build_read (replicate 8 0) addr count) (ErrServo RcRange);
  do reply <- Client_exchange id (Inst_instruction OpRead 0) (built p);
  do status <- ctry (sole_ok reply);
  cret (st_payload status).

Definition Client_read_profile (id : Id) (slot : Z) : CM P (list Z) :=
  do p <- cok_or (build_read_profile (replicate 1 0) slot) (ErrServo RcRange);
  do reply <- Client_exchange id (Inst_instruction OpRead FLAG_PROFILE) (built p);
  do status <- ctry (sole_ok reply);
  cret (st_payload status).

Definition Client_write_flags (id : Id) (addr : Z) (data : list Z) (flags : Z) : CM P unit :=
  do p <- cok_or (build_write (replicate (length data + 4) 0) addr data) (ErrServo RcLimit);
  do reply <- Client_exchange id (Inst_instruction OpWrite flags) (built p);
  ctry (sole_ok reply) ;; cret tt.
Definition Client_write (id : Id) (addr : Z) (data : list Z) : CM P unit := Client_write_flags id addr data 0.
Definition Client_write_hold (id : Id) (addr : Z) (data : list Z) : CM P unit := Client_write_flags id addr data FLAG_HOLD.
Definition Client_write_noreply (id : Id) (addr : Z) (data : list Z) : CM P unit :=
  do p <- cok_or (build_write (replicate (length data + 4) 0) addr data) (ErrServo RcLimit);
  Client_exchange id (Inst_instruction OpWrite FLAG_NOREPLY) (built p) ;; cret tt.

Definition Client_gread (ids : list Id) (addr count : Z) : CM P Chain_ :=
  do p <- cok_or (build_gread_uniform (replicate (length ids + 8) 0) addr count ids) (ErrServo RcLimit);
  do reply <- Client_exchange Id_BROADCAST (Inst_instruction OpGread 0) (built p);
  cret (chain_digest reply).
Definition Client_gread_profile (ids : list Id) (slot : Z) : CM P Chain_ :=
  do p <- cok_or (build_gread_profile_uniform (replicate (length ids + 4) 0) slot ids) (ErrServo RcLimit);
  do reply <- Client_exchange Id_BROADCAST (Inst_instruction OpGread FLAG_PROFILE) (built p);
  cret (chain_digest reply).

Fixpoint gwrite_push (b : BGwriteUniform) (pairs : list (Id * list Z)) : option BGwriteUniform :=
  match pairs with
  | [] => Some b
  | (id, data) :: pairs' => b ← BGwriteUniform_push b id data; gwrite_push b pairs'
  end.
Definition Client_gwrite_flags (addr count : Z) (pairs : list (Id * list Z)) (flags : Z) : CM P unit :=
  let p := replicate (4 + length pairs * (1 + Z.to_nat count)) 0 in
  do b <- cok_or (BGwriteUniform_new p addr count) (ErrServo RcLimit);
  do b <- cok_or (gwrite_push b pairs) (ErrServo RcLimit);
  do n <- cok_or (BGwriteUniform_finish b) (ErrServo RcLimit);
  Client_exchange Id_BROADCAST (Inst_instruction OpGwrite flags) (take n (bgu_dst b)) ;; cret tt.
Definition Client_gwrite (addr count : Z) (pairs : list (Id * list Z)) : CM P unit := Client_gwrite_flags addr count pairs 0.
Definition Client_gwrite_hold (addr count : Z) (pairs : list (Id * list Z)) : CM P unit :=
  Client_gwrite_flags addr count pairs FLAG_HOLD.
Definition Client_commit : CM P unit :=
  Client_exchange Id_BROADCAST (Inst_instruction OpCommit 0) [] ;; cret tt.

Definition Client_rescue : CM P unit := Client_submit CmdRescue ;; cret tt.
Definition Client_host_baud (rate : BaudRate) : CM P unit := Client_submit (CmdHostBaud rate) ;; cret tt.
Definition Client_set_response_deadline (us : Z) : CM P unit := Client_submit (CmdSetResponseDeadline us) ;; cret tt.

Definition Client_rails_op (state mask : Z) : CM P (bool * bool) :=
  client_send (Session_encode_set_rails [] state mask) ;;
  do r <- client_next_record;
  match r with
  | RecRailsAck state => cret (negb (Z.land state 1 =? 0), negb (Z.land state 2 =? 0))
  | _ => cfail desync
  end.
Definition Client_set_rails (v3v3 v5 : bool) : CM P (bool * bool) :=
  Client_rails_op (Z.lor (Z.b2z v3v3) (Z.shiftl (Z.b2z v5) 1)) 3.
Definition Client_set_rail_3v3 (on : bool) : CM P (bool * bool) := Client_rails_op (Z.b2z on) 1.
Definition Client_set_rail_5v (on : bool) : CM P (bool * bool) := Client_rails_op (Z.shiftl (Z.b2z on) 1) 2.
Definition Client_rails : CM P (bool * bool) := Client_rails_op 0 0.

Definition Client_enter_bootloader : CM P unit :=
  client_send (Session_encode_enter_bootloader []) ;;
  do r <- client_next_record;
  match r with RecBootloaderAck => cret tt | _ => cfail desync end.

(** ** The wire instrument (wire.rs) *)

Definition await_wire_done (seq : Z) : CM P Z :=
  do r <- client_next_record;
  match r with
  | RecWireDone s tick => if s =? seq then cret tick else cfail desync
  | RecRejected s reason =>
      if s =? seq then cfail (ErrLink (LkRejected (RejectReason_from_byte reason))) else cfail desync
  | _ => cfail desync
  end.
Definition wire_op (enc : Session -> Z * list Z * Session) : CM P Z :=
  do r <- encode_with enc; client_send r.2 ;; await_wire_done r.1.
Definition Client_wire_send (bytes : list Z) : CM P Z := wire_op (fun s => Session_encode_wire_send s [] bytes).
Fixpoint burst_stream (frames : list (list Z)) : option (list Z) :=
  match frames with
  | [] => Some []
  | f :: frames' =>
      if Nat.eqb (length f) 0 || Nat.ltb 255 (length f) then None
      else rest ← burst_stream frames'; Some (u8 (Z.of_nat (length f)) :: f ++ rest)
  end.
Definition Client_wire_burst (frames : list (list Z)) : CM P Z :=
  do stream <- cok_or (burst_stream frames) (ErrLink (LkRejected RrMalformed));
  wire_op (fun s => Session_encode_wire_burst s [] stream).
Definition Client_wire_pulse_low (us : Z) : CM P Z := wire_op (fun s => Session_encode_wire_pulse s [] us).
Definition Client_wire_train (announce : list Z) (gap_us breaks : Z) : CM P Z :=
  wire_op (fun s => Session_encode_wire_train s [] announce gap_us breaks).
Definition Client_wire_baud (bps : Z) : CM P Z := wire_op (fun s => Session_encode_wire_baud s [] bps).

Record EdgeDrain := mkEdgeDrain { edr_edges : list WireEdge; edr_overflow : bool; edr_now : Z }.
Definition Client_drain_edges : CM P EdgeDrain :=
  client_send (Session_encode_edge_drain [] 255) ;;
  do r <- client_next_record;
  match r with
  | RecEdges overflow now falls rises => fun c =>
      let '(edges, anchor) := unwrap_drain (cl_anchor c) now falls rises in
      Some (Ok (mkEdgeDrain edges overflow now), set_cl_anchor anchor c)
  | _ => cfail desync
  end.
Definition Client_reset_capture : CM P unit :=
  client_send (Session_encode_capture_reset []) ;;
  do r <- client_next_record;
  match r with
  | RecCaptureAck => fun c => Some (Ok tt, set_cl_anchor EdgeAnchor_default c)
  | _ => cfail desync
  end.

(** ** The common block (common.rs) *)

Record Identity := mkIdentity { idn_model : Z; idn_fw : Z; idn_hw : Z; idn_capabilities : Z }.
Record Health := mkHealth {
  hl_fault_flags : Z; hl_config_dirty : bool; hl_trim_steps : Z; hl_crc_fail_count : Z; hl_framing_drop_count : Z }.

Definition client_identity (id : Id) : CM P Identity :=
  do b <- Client_read id MODEL_NUMBER 8;
  match b with
  | b0 :: b1 :: b2 :: b3 :: b4 :: b5 :: b6 :: b7 :: _ =>
      cret (mkIdentity (from_le16 b0 b1) b2 b3 (from_le32 b4 b5 b6 b7))
  | _ => cfail desync
  end.
Definition client_health (id : Id) : CM P Health :=
  do b <- Client_read id FAULT_FLAGS 12;
  match b with
  | b0 :: b1 :: b2 :: _ :: b4 :: b5 :: b6 :: b7 :: b8 :: b9 :: b10 :: b11 :: _ =>
      cret (mkHealth b0 (negb (Z.land b1 STATUS_FLAG_CONFIG_DIRTY =? 0)) (i8 b2)
              (from_le32 b4 b5 b6 b7) (from_le32 b8 b9 b10 b11))
  | _ => cfail desync
  end.
Definition clear_counters (id : Id) : CM P unit := Client_write id CRC_FAIL_COUNT (replicate 8 0).

(** ** The hot loop (cyclic.rs) *)

Record GroupSpec := mkGroup { gr_addr : Z; gr_count : Z; gr_ids : list Id }.
Inductive Telemetry := TelSpan (ids : list Id) (addr count : Z) | TelProfile (ids : list Id) (slot : Z).
Record Cycle := mkCycle { cy_groups : list GroupSpec; cy_telemetry : Telemetry }.

Definition Cycle_payload_slots (cy : Cycle) : nat := list_sum (map (fun g => length (gr_ids g)) (cy_groups cy)).

(** [next] is the rest of the payloads; the count was checked, so the split is in range. *)
Fixpoint cycle_groups (groups : list GroupSpec) (next : list (list Z)) : CM P unit :=
  match groups with
  | [] => cret tt
  | g :: groups' =>
      let batch := take (length (gr_ids g)) next in
      let rest := drop (length (gr_ids g)) next in
      if existsb (fun d => negb (Z.of_nat (length d) =? gr_count g)) batch then cfail (ErrServo RcRange)
      else Client_gwrite_hold (gr_addr g) (gr_count g) (combine (gr_ids g) batch) ;; cycle_groups groups' rest
  end.
Definition Cycle_step (cy : Cycle) (payloads : list (list Z)) : CM P Chain_ :=
  if negb (Nat.eqb (length payloads) (Cycle_payload_slots cy)) then cfail (ErrServo RcRange)
  else
    cycle_groups (cy_groups cy) payloads ;;
    Client_commit ;;
    match cy_telemetry cy with
    | TelSpan ids addr count => Client_gread ids addr count
    | TelProfile ids slot => Client_gread_profile ids slot
    end.

End calls.
