(* ===== verification/ClientContract.v ===== *)
(** * The client against the link server

    The pipe is any instance of [Pipe]; what the theorems ask of it is that it
    carries bytes in order ([delivers]).  [serves] of [LinkContract] says what the
    server answers; the theorems say what a client call makes of the answer. *)

From S2P Require Import Prelude Trace FrameBytes Wire HostShape HostEngine HostContract Link LinkContract EdgeUnwrap ClientSession Client.
From stdpp Require Import relations.
Local Open Scope Z_scope.

Section contract.
Context {P : Type} {PP : Pipe P}.

(** The pipe will deliver these chunks next. *)
Fixpoint delivers (guard : Z) (p : P) (chunks : list (list Z)) : Prop :=
  match chunks with
  | [] => True
  | ch :: chunks' => exists p1, pipe_recv guard p = (Some (Ok ch), p1) /\ delivers guard p1 chunks'
  end.

(** The client is about to read the records [rs], delivered as [chunks]. *)
Definition reading (c : Client P) (chunks : list (list Z)) (rs : list LRecord) : Prop :=
  awaits (ss_rx (cl_session c)) (concat chunks) rs /\ delivers (cl_guard c) (cl_pipe c) chunks.
Definition recv_step (p p' : P) : Prop := exists guard r, pipe_recv guard p = (r, p').
(** Nothing of the client but its buffer has changed, and its pipe by receiving only. *)
Definition kept (c c' : Client P) : Prop :=
  rtc recv_step (cl_pipe c) (cl_pipe c') /\
  ss_next_seq (cl_session c') = ss_next_seq (cl_session c) /\ cl_anchor c' = cl_anchor c /\ cl_info c' = cl_info c /\
  cl_guard c' = cl_guard c.

Lemma client_kept_trans c1 c2 c3 : kept c1 c2 -> kept c2 c3 -> kept c1 c3.
Proof. intros (Hr1&?&?&?&?) (Hr2&?&?&?&?). split; [by etransitivity|]. repeat split; congruence. Qed.

(** One record, however the carrier cut it. *)
Lemma next_record_reads n : forall c chunks r rs, (length chunks < n)%nat -> reading c chunks (r :: rs) ->
  exists c' chunks', next_record_loop n c = Some (Ok r, c') /\ reading c' chunks' rs /\ kept c c' /\
    (length chunks' <= length chunks)%nat.
Proof.
  induction n as [|n IH]; intros c chunks r rs Hl (Ha & Hd); [lia|]. destruct c as [p [rx nx] a i g].
  cbn [cl_session cl_pipe cl_guard ss_rx] in *. cbn [next_record_loop cl_session].
  destruct (next_record_awaits rx (concat chunks) r rs nx Ha) as [(c' & -> & Ha')|[-> Ht]].
  - eexists _, chunks. split; [reflexivity|]. split; [done|]. split; [by split; [apply rtc_refl|]|done].
  - destruct chunks as [|ch chunks]; [done|]. destruct Hd as (p1 & Hp & Hd). cbn in Hl.
    unfold cbind, recv_guarded. cbn [cl_pipe cl_guard set_cl_session]. rewrite Hp.
    cbn [set_cl_pipe cl_session cl_guard cl_anchor cl_info set_cl_session Session_on_bytes ss_rx ss_next_seq].
    destruct (IH (mkClient p1 (mkSession (rx ++ ch) nx) a i g) chunks r rs) as (c' & ch' & E & Hr & Hk & Hle); [lia| |].
    { split; [|done]. cbn [cl_session ss_rx]. destruct Ha as (bodies & Ec & Hb). exists bodies. split; [|done].
      rewrite <- Ec. cbn [concat]. by rewrite app_assoc. }
    exists c', ch'. split; [exact E|]. split; [done|]. split; [|cbn; lia].
    destruct Hk as [Hk Hk']. split; [|exact Hk']. eapply rtc_l; [|exact Hk]. by exists g, (Some (Ok ch)).
Qed.

(** ** The answer to a command *)

Definition status_record (seq : Z) (x : Z * Z * Inst * list Z) : LRecord :=
  let '(slot, id, inst, pay) := x in RecStatus seq slot id inst pay.
Definition status_digest (x : Z * Z * Inst * list Z) : Status :=
  let '(slot, id, inst, pay) := x in mkStatus slot id (Inst_result inst) (Inst_alert inst) pay.
(** The records that answer a command, as the server builds them, and what they mean. *)
Inductive answer (seq : Z) : list (list Z) -> result Reply Error -> Prop :=
| an_rejected reason r : record_rejected OUT_CAP seq reason = Some r ->
    answer seq [r] (Err (ErrLink (LkRejected (RejectReason_from_byte reason))))
| an_replied (sts : list (Z * Z * Inst * list Z)) rs t r : Forall2 (fun (x : Z * Z * Inst * list Z) r => let '(slot, id, inst, pay) := x in
      exists fb, pay = fb_head fb ++ fb_tail fb /\ record_status OUT_CAP seq slot id inst fb = Some r) sts rs ->
    record_terminal OUT_CAP seq t = Some r ->
    answer seq (rs ++ [r]) (Ok (mkReply (map status_digest sts) (tm_outcome t) (u32 (tm_tick t))
      (u16 (we_garble (tm_evidence t))) (we_garble_after_last_frame (tm_evidence t)))).

(** A served command is answered. *)
Lemma served_statuses outs : forall seq, serves (OCmd seq) (map LiOut outs) ONone ->
  exists sts rs t r, outs = rs ++ [r] /\ record_terminal OUT_CAP seq t = Some r /\
    Forall2 (fun (x : Z * Z * Inst * list Z) r => let '(slot, id, inst, pay) := x in
      exists fb, pay = fb_head fb ++ fb_tail fb /\ record_status OUT_CAP seq slot id inst fb = Some r) sts rs.
Proof.
  induction outs as [|r outs IH]; intros seq Hs; cbn [map] in Hs; [by inversion Hs|]. inversion Hs; subst.
  - destruct (IH seq) as (sts & rs & t & r' & -> & Ht & Hf); [done|].
    exists ((slot, id, inst, fb_head pay ++ fb_tail pay) :: sts), (r :: rs), t, r'. split; [done|]. split; [done|].
    constructor; [|done]. by exists pay.
  - assert (outs = []) as -> by (destruct outs as [|x outs]; [done|]; match goal with H : serves ONone _ _ |- _ => by inversion H end).
    by exists [], [], t, r.
Qed.

Lemma served_answer rec outs seq : request_of rec = Some (KCmd, seq) -> serves ONone (LiIn rec :: map LiOut outs) ONone ->
  exists res, answer seq outs res.
Proof.
  intros Hr Hs. inversion Hs; subst; match goal with H : request_of rec = _ |- _ => rewrite Hr in H; try discriminate H; injection H as <- <- end.
  - match goal with H : serves (owing _ _) _ _ |- _ => destruct (served_statuses outs seq H) as (sts & rs & t & r & -> & Ht & Hf) end.
    eexists. by apply (an_replied seq sts rs t r).
  - destruct outs as [|r' outs]; [done|]. match goal with H : _ :: _ = map _ _ |- _ => cbn in H; injection H as <- -> end.
    assert (outs = []) as -> by (destruct outs as [|x outs]; [done|]; match goal with H : serves ONone (map _ _) _ |- _ => by inversion H end).
    eexists. by apply an_rejected.
Qed.

(** The record loop of a command over a well-formed answer. *)
Lemma submit_loop_reads turns seq oc tick st gb tr rest : forall sts n acc c chunks,
  (length sts < n)%nat -> (length chunks < turns)%nat ->
  reading c chunks (map (status_record seq) sts ++ RecTerminal seq oc tick st gb tr :: rest) ->
  exists c' chunks', submit_loop turns n seq acc c =
      Some (Ok (mkReply (acc ++ map status_digest sts) oc tick gb tr), c') /\
    reading c' chunks' rest /\ kept c c'.
Proof.
  induction sts as [|[[[slot id] inst] pay] sts IH]; intros n acc c chunks Hn Ht Hr; (destruct n as [|n]; [cbn in Hn; lia|]);
    cbn [map app] in Hr; destruct (next_record_reads turns c chunks _ _ Ht Hr) as (c1 & ch1 & E1 & Hr1 & Hk1 & Hl1);
    cbn [submit_loop]; unfold cbind at 1; unfold client_next_record; rewrite E1; rewrite ?Z.eqb_refl.
  - exists c1, ch1. rewrite app_nil_r. done.
  - cbn [status_record]. rewrite Z.eqb_refl.
    destruct (IH n (acc ++ [status_digest (slot, id, inst, pay)]) c1 ch1) as (c2 & ch2 & E2 & Hr2 & Hk2); [cbn in Hn; lia|lia|done|].
    exists c2, ch2. rewrite <- app_assoc in E2. split; [exact E2|]. split; [done|]. by eapply client_kept_trans.
Qed.

Lemma submit_loop_rejected turns seq reason rest n acc c chunks : (0 < n)%nat -> (length chunks < turns)%nat ->
  reading c chunks (RecRejected seq reason :: rest) ->
  exists c' chunks', submit_loop turns n seq acc c = Some (Err (ErrLink (LkRejected (RejectReason_from_byte reason))), c') /\
    reading c' chunks' rest /\ kept c c'.
Proof.
  intros Hn Ht Hr. destruct n as [|n]; [lia|]. destruct (next_record_reads turns c chunks _ _ Ht Hr) as (c1 & ch1 & E1 & Hr1 & Hk1 & _).
  exists c1, ch1. cbn [submit_loop]. unfold cbind at 1, client_next_record. rewrite E1, Z.eqb_refl. done.
Qed.

(** The whole answer is read back as the call's result. *)
Lemma answer_read turns seq outs res n c chunks : is_u16 seq -> answer seq outs res -> (length outs <= n)%nat ->
  (length chunks < turns)%nat -> ss_rx (cl_session c) = [] -> concat chunks = concat outs ->
  delivers (cl_guard c) (cl_pipe c) chunks ->
  exists c', submit_loop turns n seq [] c = Some (res, c') /\ ss_rx (cl_session c') = [] /\ kept c c'.
Proof.
  intros Hq Ha Hn Ht Hx Ec Hd.
  assert (forall c' chunks', reading c' chunks' [] -> ss_rx (cl_session c') = []) as Hend.
  { intros c' chunks' ((bodies & E & _ & F) & _). inversion F; subst. by apply app_nil in E as [? _]. }
  destruct Ha as [reason r Hr|sts rs t r Hs Ht'].
  - pose proof (awaits_intro [RecRejected seq reason] [r]) as Hw. cbn [fmap list_fmap record_norm] in Hw. rewrite (u16_id seq) in Hw by done.
    destruct (submit_loop_rejected turns seq reason [] n [] c chunks) as (c' & ch' & E & Hr' & Hk); [cbn in Hn; lia|done| |].
    { split; [|done]. rewrite Hx, Ec. apply Hw. by repeat constructor. }
    exists c'. split; [exact E|]. split; [by eapply Hend|done].
  - destruct t as [oc tick [st gb tr]]. cbn [tm_outcome tm_tick tm_evidence we_garble we_garble_after_last_frame] in *.
    destruct (submit_loop_reads turns seq oc (u32 tick) st (u16 gb) tr [] sts n [] c chunks) as (c' & ch' & E & Hr' & Hk).
    { apply Forall2_length in Hs. rewrite length_app in Hn. cbn [length] in Hn. lia. }
    { done. }
    { split; [|done]. rewrite Hx, Ec.
      assert (Forall2 (fun x bs => record_bytes x = Some bs) (map (status_record seq) sts ++ [RecTerminal seq oc tick st gb tr]) (rs ++ [r])) as Hf.
      { apply Forall2_app; [|by repeat constructor]. clear -Hs. induction Hs as [|[[[slot id] inst] pay] bs sts rs Hx Hs IH]; [constructor|].
        cbn [map]. constructor; [|done]. destruct Hx as (fb & -> & Hb). cbn [status_record record_bytes]. rewrite <- Hb.
        unfold record_status. cbn [fb_head fb_tail]. by rewrite app_nil_r. }
      apply awaits_intro in Hf. rewrite fmap_app in Hf. cbn [fmap list_fmap record_norm] in Hf. rewrite (u16_id seq) in Hf by done.
      assert (record_norm <$> map (status_record seq) sts = map (status_record seq) sts) as Em.
      { clear -Hq. induction sts as [|[[[slot id] inst] pay] sts IH]; [done|]. cbn [map fmap list_fmap status_record record_norm].
        cbn [fmap list_fmap] in IH. by rewrite IH, u16_id. }
      by rewrite Em in Hf. }
    exists c'. split; [exact E|]. split; [by eapply Hend|done].
Qed.
End contract.

(** The record a command travels in. *)
Definition submit_record (seq : Z) (cmd : Command) : list Z := REC_SUBMIT :: to_le16 seq ++ submit_args cmd.
Definition cmd_width (cmd : Command) : Prop := match cmd with CmdSetResponseDeadline us => is_u16 us | _ => True end.

(** The server takes the record for exactly this command. *)
Lemma submit_record_read seq cmd : is_u16 seq -> cmd_width cmd ->
  request_of (submit_record seq cmd) = Some (KCmd, seq) /\
  exists lo hi verb args, submit_record seq cmd = REC_SUBMIT :: lo :: hi :: verb :: args /\ submit_verb verb args = Some cmd.
Proof.
  intros Hs Hc. destruct (submit_args_spec cmd Hc) as (verb & args & E & Hv). unfold submit_record. rewrite E.
  cbn [to_le16 app]. split; [|by repeat eexists]. unfold request_of, is_wire_type. cbn [Z.eqb Pos.eqb REC_SUBMIT orb].
  cbn. by rewrite le16_wraps, u16_id.
Qed.

Lemma encode_submit_spec {P} {PP : Pipe P} (c : Client P) cmd : 0 <= ss_next_seq (cl_session c) < SEQ_NONE ->
  rec_fits (submit_record (ss_next_seq (cl_session c)) cmd) ->
  exists s', encode_with (fun s => Session_encode_submit s [] cmd) c =
      Some (Ok (ss_next_seq (cl_session c), frame_rec (submit_record (ss_next_seq (cl_session c)) cmd)), set_cl_session s' c) /\
    ss_rx s' = ss_rx (cl_session c) /\ 0 <= ss_next_seq s' < SEQ_NONE /\ ss_next_seq s' <> ss_next_seq (cl_session c).
Proof.
  intros Hs Hf. pose proof (alloc_seq_ok (cl_session c) Hs) as Ha. unfold encode_with, Session_encode_submit.
  destruct (Session_alloc_seq (cl_session c)) as [seq s'] eqn:Eq. destruct Ha as (-> & ? & ? & ?). exists s'. split; [|done].
  unfold Session_frame. rewrite seq_bytes_le by (unfold SEQ_NONE in Hs; lia). fold (submit_record (ss_next_seq (cl_session c)) cmd).
  unfold frame_rec, rec_fits, RX_CAP in *. by rewrite u16_id by lia.
Qed.

(** A command sent, and its answer read. *)
Lemma submit_reads {P} {PP : Pipe P} (turns : nat) (c : Client P) (cmd : Command) outs res chunks p1 :
  let seq := ss_next_seq (cl_session c) in
  0 <= seq < SEQ_NONE -> ss_rx (cl_session c) = [] -> rec_fits (submit_record seq cmd) -> answer seq outs res ->
  pipe_send (frame_rec (submit_record seq cmd)) (cl_pipe c) = (Ok tt, p1) -> delivers (cl_guard c) p1 chunks ->
  concat chunks = concat outs -> (length chunks < turns)%nat -> (length outs <= turns)%nat ->
  exists c', Client_submit turns cmd c = Some (res, c') /\ ss_rx (cl_session c') = [] /\
    0 <= ss_next_seq (cl_session c') < SEQ_NONE /\ ss_next_seq (cl_session c') <> seq /\ rtc recv_step p1 (cl_pipe c').
Proof.
  intros seq Hs Hx Hf Ha Hp Hd Ec Ht Hn. assert (is_u16 seq) as Hu by (unfold SEQ_NONE in Hs; lia).
  destruct (encode_submit_spec c cmd Hs Hf) as (s' & Ee & Hx' & Hn' & Hd').
  destruct (answer_read turns seq outs res turns (set_cl_pipe p1 (set_cl_session s' c)) chunks) as (c' & El & Hx2 & Hk1 & Hk & _);
    [done|done|done|done|by cbn; rewrite Hx'|done|done|].
  exists c'. split; [|by rewrite Hk].
  unfold Client_submit, cbind at 1. rewrite Ee. unfold cbind, client_send. cbn [snd fst set_cl_session cl_pipe].
  fold seq. rewrite Hp. exact El.
Qed.

(** C6: a client call is the command, once, and its answer, whole.  Take a client in
    step with its adapter, any command, and any answer the link contract allows the
    server, over any pipe that carries bytes in order, however it cuts them.  The
    record sent is the one the server reads back as exactly that command; the call
    returns, without a desync, the answer's content: the adapter's refusal, or every
    status in order with the terminal's outcome, tick and evidence.  The client is
    in step again, and its next sequence number is another one, never the reserved. *)
Theorem submit_answered {P} {PP : Pipe P} (turns : nat) (c : Client P) (cmd : Command) outs chunks p1 :
  let seq := ss_next_seq (cl_session c) in
  let rec := submit_record seq cmd in
  0 <= seq < SEQ_NONE -> ss_rx (cl_session c) = [] -> cmd_width cmd -> rec_fits rec ->
  serves ONone (LiIn rec :: map LiOut outs) ONone ->
  pipe_send (frame_rec rec) (cl_pipe c) = (Ok tt, p1) -> delivers (cl_guard c) p1 chunks -> concat chunks = concat outs ->
  (length chunks < turns)%nat -> (length outs <= turns)%nat ->
  (exists lo hi verb args, rec = REC_SUBMIT :: lo :: hi :: verb :: args /\ submit_verb verb args = Some cmd) /\
  exists res c', Client_submit turns cmd c = Some (res, c') /\ answer seq outs res /\ ss_rx (cl_session c') = [] /\
    0 <= ss_next_seq (cl_session c') < SEQ_NONE /\ ss_next_seq (cl_session c') <> seq.
Proof.
  intros seq rec Hs Hx Hc Hf Hv Hp Hd Ec Ht Hn. assert (is_u16 seq) as Hu by (unfold SEQ_NONE in Hs; lia).
  destruct (submit_record_read seq cmd Hu Hc) as [Hq Hr]. split; [exact Hr|].
  destruct (served_answer rec outs seq Hq Hv) as [res Ha].
  destruct (submit_reads turns c cmd outs res chunks p1) as (c' & E & Hx' & Hn' & Hd' & _); try done.
  by exists res, c'.
Qed.

(** A scripted pipe: what was sent, and the chunks to deliver. *)
Record ScriptPipe := mkScript { sp_sent : list Z; sp_chunks : list (list Z) }.
#[export] Instance ScriptPipe_Pipe : Pipe ScriptPipe := {
  pipe_send bytes p := (Ok tt, mkScript (sp_sent p ++ bytes) (sp_chunks p));
  pipe_recv _ p := match sp_chunks p with
                   | [] => (None, p)
                   | ch :: rest => (Some (Ok ch), mkScript (sp_sent p) rest)
                   end;
  pipe_pause _ p := p }.

(** PING to id 5; its status and the terminal arrive in three ragged chunks. *)
Definition demo_status : list Z := [11; 0; 129; 3; 0; 0; 5; 128; 1; 1; 7; 0; 0].
Definition demo_terminal : list Z := [13; 0; 130; 3; 0; 1; 0; 44; 1; 0; 0; 1; 0; 0; 0].
Definition demo_client : Client ScriptPipe :=
  mkClient (mkScript [] [take 1 demo_status; drop 1 demo_status ++ take 5 demo_terminal; drop 5 demo_terminal])
    (mkSession [] 3) EdgeAnchor_default (mkInfo 1 18) DEFAULT_GUARD.
Definition demo_ping : Command := CmdExchange 5 16 [].

Lemma submit_answered_witness :
  let rec := submit_record 3 demo_ping in
  serves ONone (LiIn rec :: map LiOut [demo_status; demo_terminal]) ONone /\
  exists res c', Client_submit 8 demo_ping demo_client = Some (res, c') /\ answer 3 [demo_status; demo_terminal] res /\
    ss_rx (cl_session c') = [].
Proof.
  intros rec. assert (serves ONone (LiIn rec :: map LiOut [demo_status; demo_terminal]) ONone) as Hs.
  { eapply sv_accept; [reflexivity|]. cbn [owing map]. eapply (sv_status 3 0 5 128 (FB [1; 1; 7; 0; 0] [])); [reflexivity|].
    eapply (sv_terminal 3 (mkTerminal OcComplete 300 (mkEvidence 1 0 false))); [reflexivity|constructor]. }
  split; [exact Hs|].
  destruct (submit_answered 8 demo_client demo_ping [demo_status; demo_terminal]
    [take 1 demo_status; drop 1 demo_status ++ take 5 demo_terminal; drop 5 demo_terminal]
    (mkScript (frame_rec rec) (sp_chunks (cl_pipe demo_client)))) as (_ & res & c' & E & Ha & Hx & _).
  - cbn. unfold SEQ_NONE. lia.
  - reflexivity.
  - exact I.
  - unfold rec_fits. cbn. lia.
  - exact Hs.
  - reflexivity.
  - cbn. repeat eexists.
  - reflexivity.
  - cbn. lia.
  - cbn. lia.
  - exists res, c'. split; [exact E|]. split; [exact Ha|exact Hx].
Defined.
