(* ===== verification/Capture.v ===== *)
(** * The edge-capture rings of the adapter (host-ch32/src/providers/edges.rs)

    Two circular DMA channels write the ticks of falling and rising edges into
    rings of [CAP_LEN] entries; the main loop accumulates how far each channel got
    and drains behind it.  The counters are 32-bit and wrap.  What one call sees of
    a channel is a [Dma]: its countdown register and its buffer.

    [cap_ref] is the specification: two unbounded counts of entries written and
    handed out, and a drain that returns the entries between them.  The theorem of
    the file shows that the counters and the rings implement it. *)

From S2P Require Import Prelude.

(** ** State *)

Definition CAP_LEN : Z := 1024.

Record Side := mkSide { sd_last_pos : Z; sd_written : Z; sd_drained : Z }.
Record CapState := mkCap { cp_falls : Side; cp_rises : Side; cp_overflow : bool }.
Definition Side_init : Side := mkSide 0 0 0.
Definition CapState_init : CapState := mkCap Side_init Side_init false.

(** A channel as a call finds it: [dma::remaining] and the buffer it fills. *)
Record Dma := mkDma { dma_remaining : Z; dma_data : list Z }.
Record Ports := mkPorts { pt_falls : Dma; pt_rises : Dma }.

(** ** Operations *)

(** One side of [poll_accumulate]; the flag tells that the ring was lapped. *)
Definition accumulate_side (remaining : Z) (sd : Side) : Side * bool :=
  let pos := u16 (CAP_LEN - remaining) in
  let delta := u16 (pos + CAP_LEN - sd_last_pos sd) mod CAP_LEN in
  let written := u32 (sd_written sd + delta) in
  (mkSide pos written (sd_drained sd), CAP_LEN <? u32 (written - sd_drained sd)).

Definition Edges_poll_accumulate (p : Ports) (s : CapState) : CapState :=
  let '(falls, lap_f) := accumulate_side (dma_remaining (pt_falls p)) (cp_falls s) in
  let '(rises, lap_r) := accumulate_side (dma_remaining (pt_rises p)) (cp_rises s) in
  mkCap falls rises (cp_overflow s || lap_f || lap_r).

(** [drain] into a buffer of [len] entries; an index is taken modulo the ring, so it
    is always in range. *)
Definition Edges_drain (sd : Side) (ring : list Z) (len : nat) : list Z * Side :=
  let drained := if CAP_LEN <? u32 (sd_written sd - sd_drained sd)
                 then u32 (sd_written sd - CAP_LEN) else sd_drained sd in
  let avail := u32 (sd_written sd - drained) in
  let n := Nat.min len (Z.to_nat avail) in
  (map (fun k => default 0 (ring !! Z.to_nat (u32 (drained + Z.of_nat k) mod CAP_LEN))) (seq 0 n),
   mkSide (sd_last_pos sd) (sd_written sd) (u32 (drained + Z.of_nat n))).

Definition Edges_drain_falls (p : Ports) (len : nat) (s : CapState) : list Z * CapState :=
  let s := Edges_poll_accumulate p s in
  let '(out, falls) := Edges_drain (cp_falls s) (dma_data (pt_falls p)) len in
  (out, mkCap falls (cp_rises s) (cp_overflow s)).
Definition Edges_drain_rises (p : Ports) (len : nat) (s : CapState) : list Z * CapState :=
  let s := Edges_poll_accumulate p s in
  let '(out, rises) := Edges_drain (cp_rises s) (dma_data (pt_rises p)) len in
  (out, mkCap (cp_falls s) rises (cp_overflow s)).
Definition Edges_overflow (s : CapState) : bool := cp_overflow s.
Definition Edges_reset (p : Ports) (s : CapState) : CapState :=
  let s := Edges_poll_accumulate p s in
  let settle sd := mkSide (sd_last_pos sd) (sd_written sd) (sd_written sd) in
  mkCap (settle (cp_falls s)) (settle (cp_rises s)) false.

(** ** Runs *)

Inductive CapOp := CoPoll | CoFalls (len : nat) | CoRises (len : nat) | CoReset.

Definition cap_step (op : CapOp) (p : Ports) (s : CapState) : list Z * CapState :=
  match op with
  | CoPoll => ([], Edges_poll_accumulate p s)
  | CoFalls len => Edges_drain_falls p len s
  | CoRises len => Edges_drain_rises p len s
  | CoReset => ([], Edges_reset p s)
  end.
(** What each call returned, with the overflow flag after it. *)
Fixpoint cap_run (s : CapState) (l : list (CapOp * Ports)) : list (list Z * bool) :=
  match l with
  | [] => []
  | (op, p) :: l' => let '(out, s') := cap_step op p s in (out, Edges_overflow s') :: cap_run s' l'
  end.

(** ** The specification

    [nf] and [nr] count the edges each channel has captured at the call. *)

Record CapRef := mkCapRef { cr_falls : nat; cr_rises : nat; cr_overflow : bool }.
Definition ring_cap : nat := 1024.
(** The oldest entry still in the ring and not handed out. *)
Definition oldest (d n : nat) : nat := Nat.max d (n - ring_cap).

Definition entries (g : nat -> Z) (lo hi : nat) : list Z := map g (seq lo (hi - lo)).

(** ** What the hardware does

    A circular channel that has captured [n] entries counts down from the ring
    length and reloads, and its buffer holds the newest entries at their index. *)
Definition dma_at (g : nat -> Z) (d n : nat) (c : Dma) : Prop :=
  dma_remaining c = CAP_LEN - Z.of_nat (n mod ring_cap) /\
  forall k, (oldest d n <= k < n)%nat -> dma_data c !! (k mod ring_cap)%nat = Some (g k).

(** The counters of one side, against the two counts. *)
Record side_at (n d : nat) (sd : Side) : Prop := mkSideAt {
  sa_pos : sd_last_pos sd = Z.of_nat (n mod ring_cap);
  sa_written : sd_written sd = u32 (Z.of_nat n);
  sa_drained : sd_drained sd = u32 (Z.of_nat d);
  sa_order : (d <= n)%nat }.
Record cap_at (nf nr : nat) (a : CapRef) (s : CapState) : Prop := mkCapAt {
  ca_falls : side_at nf (cr_falls a) (cp_falls s);
  ca_rises : side_at nr (cr_rises a) (cp_rises s);
  ca_overflow : cp_overflow s = cr_overflow a }.

Section stream.
Variables (f r : nat -> Z).

Definition ref_step (op : CapOp) (nf nr : nat) (a : CapRef) : list Z * CapRef :=
  let ov := cr_overflow a || Nat.ltb ring_cap (nf - cr_falls a) || Nat.ltb ring_cap (nr - cr_rises a) in
  match op with
  | CoPoll => ([], mkCapRef (cr_falls a) (cr_rises a) ov)
  | CoFalls len =>
      let lo := oldest (cr_falls a) nf in
      let hi := Nat.min (lo + len) nf in
      (entries f lo hi, mkCapRef hi (cr_rises a) ov)
  | CoRises len =>
      let lo := oldest (cr_rises a) nr in
      let hi := Nat.min (lo + len) nr in
      (entries r lo hi, mkCapRef (cr_falls a) hi ov)
  | CoReset => ([], mkCapRef nf nr false)
  end.
Fixpoint cap_ref (a : CapRef) (l : list (CapOp * (nat * nat))) : list (list Z * bool) :=
  match l with
  | [] => []
  | (op, (nf, nr)) :: l' => let '(out, a') := ref_step op nf nr a in (out, cr_overflow a') :: cap_ref a' l'
  end.

(** Calls come before a channel completes a lap, and an undrained ring does not
    outrun the 32-bit counter. *)
Fixpoint cap_fed (wf wr : nat) (a : CapRef) (l : list (CapOp * Ports * (nat * nat))) : Prop :=
  match l with
  | [] => True
  | (op, p, (nf, nr)) :: l' =>
      (wf <= nf < wf + ring_cap)%nat /\ (wr <= nr < wr + ring_cap)%nat /\
      Z.of_nat (nf - cr_falls a) < 4294967296 /\ Z.of_nat (nr - cr_rises a) < 4294967296 /\
      dma_at f (cr_falls a) nf (pt_falls p) /\ dma_at r (cr_rises a) nr (pt_rises p) /\
      cap_fed nf nr (ref_step op nf nr a).2 l'
  end.

End stream.

(** ** The counters implement the counts *)

Lemma u32_diff a b : (b <= a)%nat -> Z.of_nat (a - b) < 4294967296 ->
  u32 (u32 (Z.of_nat a) - u32 (Z.of_nat b)) = Z.of_nat (a - b).
Proof. intros ? ?. rewrite u32_sub, u32_id; lia. Qed.

Lemma accumulate_side_at w d n sd rem : side_at w d sd -> (w <= n < w + ring_cap)%nat ->
  Z.of_nat (n - d) < 4294967296 -> rem = CAP_LEN - Z.of_nat (n mod ring_cap) ->
  exists sd', accumulate_side rem sd = (sd', Nat.ltb ring_cap (n - d)) /\ side_at n d sd'.
Proof.
  intros [Hp Hw Hd Ho] Hn Hb ->. unfold accumulate_side, ring_cap, CAP_LEN in *. rewrite Hp, Hw, Hd.
  rewrite !Nat2Z.inj_mod in *.
  assert (u16 (1024 - (1024 - Z.of_nat n mod Z.of_nat 1024)) = Z.of_nat n mod Z.of_nat 1024) as Ep
    by (unfold u16; zmod).
  rewrite Ep.
  assert (u32 (u32 (Z.of_nat w) + u16 (Z.of_nat n mod Z.of_nat 1024 + 1024 - Z.of_nat w mod Z.of_nat 1024) mod 1024) =
    u32 (Z.of_nat n)) as Ew.
  { replace (u16 (Z.of_nat n mod Z.of_nat 1024 + 1024 - Z.of_nat w mod Z.of_nat 1024) mod 1024)
      with (Z.of_nat (n - w)) by (unfold u16; zmod).
    unfold u32. rewrite Zplus_mod_idemp_l. f_equal. lia. }
  rewrite Ew. rewrite u32_diff by lia.
  exists (mkSide (Z.of_nat n mod Z.of_nat 1024) (u32 (Z.of_nat n)) (u32 (Z.of_nat d))). split.
  - f_equal. destruct (Nat.ltb_spec 1024 (n - d)); [apply Z.ltb_lt|apply Z.ltb_ge]; lia.
  - constructor; [by rewrite Nat2Z.inj_mod|done|done|lia].
Qed.

(** A drain hands out the entries from the oldest that is left. *)
Lemma drain_at g n d sd c len : side_at n d sd -> Z.of_nat (n - d) < 4294967296 -> dma_at g d n c ->
  let lo := oldest d n in
  let hi := Nat.min (lo + len) n in
  exists sd', Edges_drain sd (dma_data c) len = (entries g lo hi, sd') /\ side_at n hi sd'.
Proof.
  intros [Hp Hw Hd Ho] Hb [_ Hc] lo hi. unfold Edges_drain.
  assert ((if CAP_LEN <? u32 (sd_written sd - sd_drained sd) then u32 (sd_written sd - CAP_LEN) else sd_drained sd) =
    u32 (Z.of_nat lo)) as ->.
  { subst lo. rewrite Hw, Hd, u32_diff by lia. unfold oldest, CAP_LEN, ring_cap.
    destruct (Z.ltb_spec 1024 (Z.of_nat (n - d))).
    - rewrite Nat.max_r by lia. unfold u32. rewrite Zminus_mod_idemp_l. f_equal. lia.
    - by rewrite Nat.max_l by lia. }
  assert (lo <= n)%nat by (subst lo; unfold oldest; lia).
  rewrite Hw, u32_diff, Nat2Z.id by (subst lo; unfold oldest in *; lia).
  replace (Nat.min len (n - lo)) with (hi - lo)%nat by (subst hi; lia).
  exists (mkSide (sd_last_pos sd) (u32 (Z.of_nat n)) (u32 (Z.of_nat hi))). split; [|by constructor; [..|lia]].
  f_equal.
  - unfold entries. pose proof (fmap_add_seq lo 0 (hi - lo)) as Es. rewrite Nat.add_0_r in Es. rewrite <- Es.
    change (Nat.add lo <$> seq 0 (hi - lo)) with (map (Nat.add lo) (seq 0 (hi - lo))). rewrite map_map. apply map_ext_in. intros k Hk.
    apply in_seq in Hk. unfold u32, CAP_LEN. rewrite Zplus_mod_idemp_l.
    replace (Z.to_nat _) with ((lo + k) mod ring_cap)%nat.
    + rewrite Hc; [done|]. subst hi. fold lo. lia.
    + unfold ring_cap. rewrite <- (Nat2Z.id (_ mod _)%nat), Nat2Z.inj_mod. f_equal. zmod.
  - f_equal. unfold u32. rewrite Zplus_mod_idemp_l. f_equal. lia.
Qed.

Section refine.
Variables (f r : nat -> Z).

Lemma poll_at wf wr a s p nf nr : cap_at wf wr a s ->
  (wf <= nf < wf + ring_cap)%nat -> (wr <= nr < wr + ring_cap)%nat ->
  Z.of_nat (nf - cr_falls a) < 4294967296 -> Z.of_nat (nr - cr_rises a) < 4294967296 ->
  dma_at f (cr_falls a) nf (pt_falls p) -> dma_at r (cr_rises a) nr (pt_rises p) ->
  cap_at nf nr (ref_step f r CoPoll nf nr a).2 (Edges_poll_accumulate p s).
Proof.
  intros [Hf Hr Ho] Hnf Hnr Hbf Hbr [Ef _] [Er _]. unfold Edges_poll_accumulate.
  destruct (accumulate_side_at _ _ _ _ _ Hf Hnf Hbf Ef) as (sf & -> & Hsf).
  destruct (accumulate_side_at _ _ _ _ _ Hr Hnr Hbr Er) as (sr & -> & Hsr).
  constructor; cbn; [done..|by rewrite Ho].
Qed.

Lemma cap_step_at wf wr a s op p nf nr : cap_at wf wr a s ->
  (wf <= nf < wf + ring_cap)%nat -> (wr <= nr < wr + ring_cap)%nat ->
  Z.of_nat (nf - cr_falls a) < 4294967296 -> Z.of_nat (nr - cr_rises a) < 4294967296 ->
  dma_at f (cr_falls a) nf (pt_falls p) -> dma_at r (cr_rises a) nr (pt_rises p) ->
  exists s', cap_step op p s = ((ref_step f r op nf nr a).1, s') /\ cap_at nf nr (ref_step f r op nf nr a).2 s'.
Proof.
  intros Hs Hnf Hnr Hbf Hbr Hf Hr. pose proof (poll_at _ _ _ _ _ _ _ Hs Hnf Hnr Hbf Hbr Hf Hr) as Hp.
  destruct Hp as [Pf Pr Po]. cbn [ref_step fst snd cr_falls cr_rises cr_overflow] in Pf, Pr, Po.
  destruct op as [|len|len|]; cbn [cap_step ref_step fst snd].
  - by eexists.
  - unfold Edges_drain_falls. destruct (drain_at _ _ _ _ _ len Pf Hbf Hf) as (sd' & -> & Hsd).
    eexists. split; [reflexivity|]. by constructor.
  - unfold Edges_drain_rises. destruct (drain_at _ _ _ _ _ len Pr Hbr Hr) as (sd' & -> & Hsd).
    eexists. split; [reflexivity|]. by constructor.
  - eexists. split; [reflexivity|]. destruct Pf, Pr. by constructor; [constructor|constructor|].
Qed.

Lemma cap_run_refines l : forall wf wr a s, cap_at wf wr a s -> cap_fed f r wf wr a l ->
  cap_run s (map fst l) = cap_ref f r a (map (fun x => (x.1.1, x.2)) l).
Proof.
  induction l as [|[[op p] [nf nr]] l IH]; intros wf wr a s Hs Hl; [done|].
  cbn [cap_fed] in Hl. destruct Hl as (Hnf & Hnr & Hbf & Hbr & Hf & Hr & Hl).
  destruct (cap_step_at _ _ _ _ op p _ _ Hs Hnf Hnr Hbf Hbr Hf Hr) as (s' & E & Hs').
  cbn [map cap_run cap_ref fst snd]. rewrite E. destruct (ref_step f r op nf nr a) as [out a'] eqn:Er. cbn [fst snd] in *.
  unfold Edges_overflow. rewrite (ca_overflow _ _ _ _ Hs'). f_equal. by apply (IH nf nr).
Qed.
End refine.

Lemma cap_init_at : cap_at 0 0 (mkCapRef 0 0 false) CapState_init.
Proof. by constructor; [constructor|constructor|]. Qed.

(** A channel that has captured the first [n] entries of [g]. *)
Definition dma_of (g : nat -> Z) (n : nat) : Dma :=
  mkDma (CAP_LEN - Z.of_nat (n mod ring_cap))
    (map (fun i => if Nat.ltb i n then g (i + ring_cap * ((n - 1 - i) / ring_cap))%nat else 0) (seq 0 ring_cap)).

Lemma dma_of_at g d n : dma_at g d n (dma_of g n).
Proof.
  split; [done|]. intros k Hk. unfold dma_of. cbn [dma_data]. unfold oldest in Hk.
  assert (k mod ring_cap < ring_cap)%nat as Hm by (apply Nat.mod_upper_bound; done).
  pose proof (Nat.div_mod_eq k ring_cap) as Ek. set (i := (k mod ring_cap)%nat) in *. set (q := (k / ring_cap)%nat) in *.
  change (map ?h (seq 0 ring_cap)) with (h <$> seq 0 ring_cap). rewrite list_lookup_fmap, lookup_seq_lt by lia.
  cbn [fmap option_fmap option_map Nat.add]. rewrite (proj2 (Nat.ltb_lt i n)) by lia.
  replace ((n - 1 - i) / ring_cap)%nat with q; [do 2 f_equal; lia|].
  clearbody i q. unfold ring_cap in *. apply (Nat.div_unique _ _ _ (n - 1 - k)); lia.
Qed.

(** The capture rings lose nothing they can keep.  Whatever sequence of polls,
    drains and resets the main loop makes, as long as it comes round before a channel
    completes a lap, each drain returns exactly the captured entries from the oldest
    one not yet handed out and still in the ring, in order and up to the buffer, and
    the overflow flag is up exactly when more entries were waiting than the ring
    holds since the last reset, wraps of the 32-bit counters included. *)
Theorem capture_refines (f r : nat -> Z) (l : list (CapOp * Ports * (nat * nat))) :
  cap_fed f r 0 0 (mkCapRef 0 0 false) l ->
  cap_run CapState_init (map fst l) = cap_ref f r (mkCapRef 0 0 false) (map (fun x => (x.1.1, x.2)) l).
Proof. intros Hl. by apply (cap_run_refines f r l 0 0); [apply cap_init_at|]. Qed.

(** A loop that polls, drains a little, falls behind by more than a ring, drains what
    is left of it, resets and starts over. *)
Definition demo_ticks (k : nat) : Z := Z.of_nat k mod 65536.
Definition demo_ports (nf nr : nat) : Ports := mkPorts (dma_of demo_ticks nf) (dma_of demo_ticks nr).
Definition demo_loop : list (CapOp * Ports * (nat * nat)) :=
  map (fun x : CapOp * (nat * nat) => (x.1, demo_ports x.2.1 x.2.2, x.2))
    [(CoPoll, (900, 3)); (CoFalls 2, (950, 3)); (CoRises 8, (951, 4)); (CoPoll, (1900, 4)); (CoFalls 2, (1950, 4));
     (CoReset, (2000, 5)); (CoFalls 4, (2001, 5))]%nat.

Lemma demo_loop_fed : cap_fed demo_ticks demo_ticks 0 0 (mkCapRef 0 0 false) demo_loop.
Proof.
  unfold demo_loop. cbn [map fst snd cap_fed].
  repeat match goal with |- context [(ref_step ?f ?r ?op ?nf ?nr ?a).2] =>
    let x := eval vm_compute in (ref_step f r op nf nr a).2 in change (ref_step f r op nf nr a).2 with x end.
  cbn [cr_falls cr_rises]. unfold ring_cap.
  repeat (split; [lia|]; split; [lia|];
    split; [done|]; split; [done|]; split; [apply dma_of_at|]; split; [apply dma_of_at|]). done.
Qed.

Lemma capture_refines_witness : cap_fed demo_ticks demo_ticks 0 0 (mkCapRef 0 0 false) demo_loop /\
  cap_run CapState_init (map fst demo_loop) =
    [([], false); ([0; 1], false); ([0; 1; 2; 3], false); ([], true); ([926; 927], true); ([], false); ([2000], false)].
Proof.
  split; [exact demo_loop_fed|]. rewrite (capture_refines demo_ticks demo_ticks demo_loop demo_loop_fed). reflexivity.
Defined.
