(* ===== verification/Instrument.v ===== *)
(** * The wire instrument, end to end

    [Client_drain_edges] on the PC, the link server and the capture rings of the
    adapter, joined: the pipe hands the client's bytes to the server and the
    server's records back, and the server's capture port is [Capture].  The rest of
    the adapter's hardware stays a parameter.  The theorem of the file says that a
    client which drains in time sees every captured transition, once and in order. *)

From S2P Require Import Prelude Trace FrameBytes Wire HostShape HostEngine HostContract Link LinkContract EdgeUnwrap ClientSession Client ClientContract Capture.
Local Open Scope Z_scope.

(** ** The adapter's environment with its capture port *)

Section world.
Context {X : Type} {HX : HostProviders X}.

(** The capture state, what each coming capture call will find in the channels, and
    the coming readings of the tick counter. *)
Record EdgeWorld := mkWorld { ew_host : X; ew_cap : CapState; ew_feed : list Ports; ew_ticks : list Z }.

Definition with_ports {A} (f : Ports -> CapState -> A * CapState) (none : A) (w : EdgeWorld) : A * EdgeWorld :=
  match ew_feed w with
  | [] => (none, w)
  | p :: feed => let '(a, cap) := f p (ew_cap w) in (a, mkWorld (ew_host w) cap feed (ew_ticks w))
  end.

#[export] Instance EdgeWorld_providers : HostProviders EdgeWorld := {
  H_TICKS_PER_US := H_TICKS_PER_US;
  h_bytes w := h_bytes (ew_host w);
  h_cursor w := let '(c, x) := h_cursor (ew_host w) in (c, mkWorld x (ew_cap w) (ew_feed w) (ew_ticks w));
  h_now w := match ew_ticks w with
             | [] => (0, w)
             | t :: ticks => (t, mkWorld (ew_host w) (ew_cap w) (ew_feed w) ticks)
             end;
  h_drain_falls len w := with_ports (fun p s => Edges_drain_falls p len s) [] w;
  h_drain_rises len w := with_ports (fun p s => Edges_drain_rises p len s) [] w;
  h_overflow w := Edges_overflow (ew_cap w);
  h_edges_reset w := (with_ports (fun p s => (tt, Edges_reset p s)) tt w).2;
}.

(** The laws the adapter's theorems need of its hardware carry over. *)
Lemma drain_short (f : Side) ring n : (length (Edges_drain f ring n).1 <= n)%nat.
Proof. unfold Edges_drain. cbn [fst]. rewrite length_map, length_seq. lia. Qed.
Lemma with_ports_short f w n : (forall p s, (length (f p s : list Z * CapState).1 <= n)%nat) -> (length (with_ports f [] w).1 <= n)%nat.
Proof. intros Hf. unfold with_ports. destruct (ew_feed w) as [|p feed]; [cbn; lia|]. specialize (Hf p (ew_cap w)). by destruct (f p (ew_cap w)). Qed.

#[export, refine] Instance EdgeWorld_laws {HL : HostLaws X} : HostLaws EdgeWorld := {
  h_size := h_size (E := X);
  h_at w := h_at (ew_host w) mod h_size (E := X);
  h_flow w := h_flow (ew_host w);
}.
Proof.
  - apply h_size_ok.
  - intros w. exact (h_ring_ok (ew_host w)).
  - intros w. cbn [h_cursor EdgeWorld_providers]. pose proof (h_cursor_ok (ew_host w)) as (Hc & Hb & d & Hd & Hf).
    destruct (h_cursor (ew_host w)) as [c x]. cbn [fst snd ew_host] in *. rewrite <- Hc, Z.mod_small by done. split; [done|]. split; [done|].
    exists d. cbn [fst snd ew_host]. split; [|exact Hf]. by rewrite Zplus_mod_idemp_l, <- Hd, <- Hc.
  - intros w. exists 0%nat. cbn [h_now EdgeWorld_providers]. rewrite Z.add_0_r. destruct (ew_ticks w); cbn [snd ew_host]; by rewrite Zmod_mod.
  - intros n w. split; apply with_ports_short; intros p s; unfold Edges_drain_rises, Edges_drain_falls;
      (destruct (Edges_drain _ _ _) as [out sd] eqn:Ed; cbn [fst]; pose proof (drain_short) as Hs;
       match type of Ed with Edges_drain ?a ?b ?c = _ => specialize (Hs a b c) end; by rewrite Ed in Hs).
Defined.

(** ** The pipe between the two *)

Record LoopPipe := mkLoop { lp_link : @Link EdgeWorld; lp_out : list Z }.

#[export] Instance LoopPipe_Pipe : Pipe LoopPipe := {
  pipe_send bytes p :=
    match LinkServer_on_pipe bytes (lp_link p) with
    | Some (_, l, ev) => (Ok tt, mkLoop l (lp_out p ++ concat (records_of ev)))
    | None => (Err PipeIo, p)
    end;
  pipe_recv _ p := match lp_out p with [] => (None, p) | out => (Some (Ok out), mkLoop (lp_link p) []) end;
  pipe_pause _ p := p;
}.

Fixpoint drain_all (n : nat) : CM LoopPipe (list EdgeDrain) :=
  match n with
  | O => cret []
  | S n' => cbind (Client_drain_edges 2) (fun d => cbind (drain_all n') (fun ds => cret (d :: ds)))
  end.

(** The client is idle over an idle link whose world is [w]. *)
Record joined (w : EdgeWorld) (anchor : EdgeAnchor) (c : Client LoopPipe) : Prop := mkJoined {
  jn_rx : ss_rx (cl_session c) = [];
  jn_out : lp_out (cl_pipe c) = [];
  jn_link : holds [] (lp_link (cl_pipe c));
  jn_world : hb_env (lk_bus (lp_link (cl_pipe c))) = w;
  jn_anchor : cl_anchor c = anchor }.

Lemma serve_drain (l : @Link EdgeWorld) h s p1 p2 feed t ticks rises s1 falls s2 : holds [] l ->
  hb_env (lk_bus l) = mkWorld h s (p1 :: p2 :: feed) (t :: ticks) ->
  Edges_drain_rises p1 DRAIN_MAX s = (rises, s1) -> Edges_drain_falls p2 DRAIN_MAX s1 = (falls, s2) ->
  (length rises <= DRAIN_MAX)%nat -> (length falls <= DRAIN_MAX)%nat ->
  exists l' r, LinkServer_on_pipe (frame_rec [REC_EDGE_DRAIN; 255]) l = Some (tt, l', [LeRec r]) /\
    record_edges OUT_CAP (cp_overflow s2) t falls rises = Some r /\ holds [] l' /\
    hb_env (lk_bus l') = mkWorld h s2 feed ticks.
Proof.
  intros Hl Hw Er Ef Lr Lf.
  assert (exists r, record_edges OUT_CAP (cp_overflow s2) t falls rises = Some r) as [r Hr].
  { unfold record_edges, rec_sealed. eexists. rewrite (proj2 (Nat.leb_le _ _)); [reflexivity|].
    cbn [length]. rewrite !length_app, length_edges, length_app. cbn [length to_le32]. unfold DRAIN_MAX, OUT_CAP in *. lia. }
  pose proof (chunks_spec [frame_rec [REC_EDGE_DRAIN; 255]] [[REC_EDGE_DRAIN; 255]] [] l Hl ltac:(cbn; lia) eq_refl
    ltac:(by constructor; [unfold rec_fits; cbn; lia|])) as Hc.
  cbn [run_chunks] in Hc. unfold same_run in Hc.
  assert (run_recs [[REC_EDGE_DRAIN; 255]] (clean l) =
    Some (tt, mkLink (lk_server (clean l)) (set_hb_env (mkWorld h s2 feed ticks) (lk_bus l)), [LeRec r])) as E2.
  { cbn [run_recs]. unfold link_handle, bbind. cbn [blift lookup list_lookup].
    change (_ =? REC_HELLO) with false. cbn [orb andb Z.eqb Pos.eqb REC_EDGE_DRAIN REC_ENTER_BOOTLOADER REC_SET_RAILS REC_WIRE_SEND
      REC_WIRE_BURST REC_WIRE_PULSE REC_WIRE_TRAIN REC_WIRE_BAUD length Nat.leb].
    unfold handle_drain, bbind, on_env. change (Nat.min (Z.to_nat 255) DRAIN_MAX) with DRAIN_MAX.
    cbn [clean with_rx lk_bus lk_server h_drain_rises EdgeWorld_providers]. rewrite Hw. unfold with_ports at 1. cbn [ew_feed ew_cap ew_host ew_ticks].
    rewrite Er. cbn [lk_bus hb_env set_hb_env h_drain_falls EdgeWorld_providers]. unfold with_ports at 1. cbn [ew_feed ew_cap ew_host ew_ticks].
    rewrite Ef. cbn [bget lk_bus hb_env set_hb_env h_overflow h_now EdgeWorld_providers ew_cap ew_ticks ew_host ew_feed].
    unfold Edges_overflow. unfold sink, bbind. rewrite Hr. reflexivity. }
  rewrite E2 in Hc. unfold bbind in Hc.
  destruct (LinkServer_on_pipe _ l) as [[[[] l'] ev]|] eqn:E1; cbn [bret] in Hc.
  - destruct Hc as (Hh & Hcl & Hev).
    rewrite app_nil_r in Hev. exists l', r. subst ev. split; [done|]. split; [done|]. split; [done|].
    transitivity (hb_env (lk_bus (clean l'))); [done|]. by rewrite Hcl.
  - done.
Qed.

(** The client reads the one record that came back. *)
Lemma read_one (c : Client LoopPipe) rec r : ss_rx (cl_session c) = [] -> lp_out (cl_pipe c) = r -> record_bytes rec = Some r ->
  exists s, next_record_loop 2 c = Some (Ok (record_norm rec), set_cl_session s (set_cl_pipe (mkLoop (lp_link (cl_pipe c)) []) c)) /\
    ss_rx s = [].
Proof.
  intros Hrx Ho Hb. pose proof (awaits_intro [rec] [r] ltac:(by repeat constructor)) as Ha. cbn [concat fmap list_fmap] in Ha.
  rewrite app_nil_r in Ha. assert (r <> []) as Hr by (destruct (decode_record rec r Hb) as (b & -> & _); done).
  destruct c as [[l out] [rx nx] a i g]. cbn [cl_session cl_pipe ss_rx lp_out] in Hrx, Ho. subst rx out.
  assert (awaits r [] [record_norm rec]) as Ha'.
  { destruct Ha as (bodies & E & Hf & Hd). exists bodies. by rewrite app_nil_r. }
  cbn [next_record_loop cl_session].
  change (Session_next_record (mkSession [] nx)) with (Ok None : result (option LRecord) LinkError, mkSession [] nx).
  unfold cbind, recv_guarded.
  cbn [cl_pipe cl_guard set_cl_session pipe_recv LoopPipe_Pipe lp_out]. destruct r as [|x r]; [done|].
  cbn [set_cl_pipe cl_session Session_on_bytes ss_rx ss_next_seq app cl_anchor cl_info cl_guard lp_link].
  destruct (next_record_awaits (x :: r) [] (record_norm rec) [] nx Ha') as [(c' & E & Hc')|[_ ?]]; [|done].
  match goal with |- context [Session_next_record ?z] => change z with (mkSession (x :: r) nx) end.
  rewrite E. eexists. split; [reflexivity|]. destruct Hc' as (bodies & Ec & _ & Hd). inversion Hd; subst.
  rewrite app_nil_r in Ec. exact Ec.
Qed.
Lemma drain_once (c : Client LoopPipe) anchor h s p1 p2 feed t ticks rises s1 falls s2 edges anchor' :
  joined (mkWorld h s (p1 :: p2 :: feed) (t :: ticks)) anchor c ->
  Edges_drain_rises p1 DRAIN_MAX s = (rises, s1) -> Edges_drain_falls p2 DRAIN_MAX s1 = (falls, s2) ->
  (length rises <= DRAIN_MAX)%nat -> (length falls <= DRAIN_MAX)%nat ->
  unwrap_drain anchor (u32 t) (u16 <$> falls) (u16 <$> rises) = (edges, anchor') ->
  exists c', Client_drain_edges 2 c = Some (Ok (mkEdgeDrain edges (cp_overflow s2) (u32 t)), c') /\
    joined (mkWorld h s2 feed ticks) anchor' c'.
Proof.
  intros [Hrx Ho Hl Hw Han] Er Ef Lr Lf Hu. destruct c as [[l out] [rx nx] a i g].
  cbn [cl_session cl_pipe ss_rx lp_out lp_link cl_anchor] in *. subst rx out a.
  destruct (serve_drain l h s p1 p2 feed t ticks rises s1 falls s2 Hl Hw Er Ef Lr Lf) as (l' & r & Es & Hr & Hl' & Hw').
  unfold Client_drain_edges, cbind at 1, client_send. cbn [cl_pipe pipe_send LoopPipe_Pipe lp_link lp_out].
  change (Session_encode_edge_drain [] 255) with (frame_rec [REC_EDGE_DRAIN; 255]). rewrite Es.
  cbn [records_of omap list_omap concat app]. rewrite app_nil_r. unfold cbind, client_next_record.
  destruct (read_one (mkClient (mkLoop l' r) (mkSession [] nx) anchor i g) (RecEdges (cp_overflow s2) t falls rises) r)
    as (s' & En & Hs'); [done|done|done|].
  unfold set_cl_pipe at 1. cbn [cl_session cl_anchor cl_info cl_guard]. rewrite En. cbn [record_norm].
  unfold set_cl_session, set_cl_pipe, set_cl_anchor. cbn [cl_anchor cl_pipe cl_session cl_info cl_guard lp_link]. rewrite Hu.
  eexists. split; [reflexivity|]. by constructor.
Qed.
End world.
Arguments EdgeWorld : clear implicits.
Arguments LoopPipe : clear implicits.

(** ** Drains of a wire *)

Section wire.
Context {X : Type} {HX : HostProviders X}.
Variable T : nat -> Z.
Hypothesis T_mono : forall j, T j <= T (S j).

Definition fall_ticks (k : nat) : Z := u16 (T (fall_ix k)).
Definition rise_ticks (k : nat) : Z := u16 (T (rise_ix k)).

(** One drain and what its two reads of the channels find: [sh_drain] counts the
    rises at the first read and the falls at the second; the other channel is polled
    too, at [sh_falls1] and [sh_rises2]. *)
Record Shot := mkShot { sh_drain : Drain; sh_first : Ports; sh_second : Ports; sh_falls1 : nat; sh_rises2 : nat }.
Definition shots_feed (l : list Shot) : list Ports := concat (map (fun x => [sh_first x; sh_second x]) l).
Definition shots_ticks (l : list Shot) : list Z := map (fun x => d_now (sh_drain x)) l.

(** The drains come round before a channel completes a lap, and no ring overflows. *)
Fixpoint shots_fed (wf wr F R : nat) (l : list Shot) : Prop :=
  match l with
  | [] => True
  | x :: l' =>
      let d := sh_drain x in
      let R' := take_upto R (d_max d) (d_rises d) in
      let F' := take_upto F (d_max d) (d_falls d) in
      d_max d = DRAIN_MAX /\
      (wf <= sh_falls1 x <= d_falls d)%nat /\ (wr <= d_rises d <= sh_rises2 x)%nat /\
      (d_falls d - wf < ring_cap)%nat /\ (sh_rises2 x - wr < ring_cap)%nat /\
      (d_falls d - F <= ring_cap)%nat /\ (sh_rises2 x - R <= ring_cap)%nat /\
      dma_at fall_ticks F (sh_falls1 x) (pt_falls (sh_first x)) /\ dma_at rise_ticks R (d_rises d) (pt_rises (sh_first x)) /\
      dma_at fall_ticks F (d_falls d) (pt_falls (sh_second x)) /\ dma_at rise_ticks R' (sh_rises2 x) (pt_rises (sh_second x)) /\
      shots_fed (d_falls d) (sh_rises2 x) F' R' l'
  end.

Lemma u16_captured f i i' : u16 <$> captured T f i i' = captured T f i i'.
Proof.
  unfold captured. change (?g <$> map ?h ?l) with (map g (map h l)). rewrite map_map. apply map_ext. intros k.
  apply u16_id, u16_range.
Qed.

(** In step, no lap: a side hands out exactly what [take_upto] says. *)
Lemma ref_rises F R nf nr len : (nf - F <= ring_cap)%nat -> (nr - R <= ring_cap)%nat ->
  ref_step fall_ticks rise_ticks (CoRises len) nf nr (mkCapRef F R false) =
    (captured T rise_ix R (take_upto R len nr), mkCapRef F (take_upto R len nr) false).
Proof.
  intros Hf Hr. cbn [ref_step cr_falls cr_rises cr_overflow]. rewrite (proj2 (Nat.ltb_ge _ _) Hf), (proj2 (Nat.ltb_ge _ _) Hr).
  assert (Nat.min (oldest R nr + len) nr = take_upto R len nr /\ (oldest R nr = R \/ nr <= R)%nat) as [-> Ho].
  { unfold oldest, take_upto, ring_cap in *. lia. }
  f_equal. unfold entries, captured. destruct Ho as [->|Ho]; [done|].
  replace (take_upto R len nr - _)%nat with 0%nat by (unfold take_upto, oldest; lia).
  by replace (take_upto R len nr - R)%nat with 0%nat by (unfold take_upto; lia).
Qed.
Lemma ref_falls F R nf nr len : (nf - F <= ring_cap)%nat -> (nr - R <= ring_cap)%nat ->
  ref_step fall_ticks rise_ticks (CoFalls len) nf nr (mkCapRef F R false) =
    (captured T fall_ix F (take_upto F len nf), mkCapRef (take_upto F len nf) R false).
Proof.
  intros Hf Hr. cbn [ref_step cr_falls cr_rises cr_overflow]. rewrite (proj2 (Nat.ltb_ge _ _) Hf), (proj2 (Nat.ltb_ge _ _) Hr).
  assert (Nat.min (oldest F nf + len) nf = take_upto F len nf /\ (oldest F nf = F \/ nf <= F)%nat) as [-> Ho].
  { unfold oldest, take_upto, ring_cap in *. lia. }
  f_equal. unfold entries, captured. destruct Ho as [->|Ho]; [done|].
  replace (take_upto F len nf - _)%nat with 0%nat by (unfold take_upto, oldest; lia).
  by replace (take_upto F len nf - F)%nat with 0%nat by (unfold take_upto; lia).
Qed.

Lemma shot_drains wf wr F R s x l : cap_at wf wr (mkCapRef F R false) s -> shots_fed wf wr F R (x :: l) ->
  let d := sh_drain x in
  let R' := take_upto R (d_max d) (d_rises d) in
  let F' := take_upto F (d_max d) (d_falls d) in
  exists s1 s2, Edges_drain_rises (sh_first x) DRAIN_MAX s = (captured T rise_ix R R', s1) /\
    Edges_drain_falls (sh_second x) DRAIN_MAX s1 = (captured T fall_ix F F', s2) /\
    cap_at (d_falls d) (sh_rises2 x) (mkCapRef F' R' false) s2.
Proof.
  intros Hs Hl d R' F'. cbn [shots_fed] in Hl. fold d R' F' in Hl.
  destruct Hl as (Hm & Hf1 & Hr2 & Hwf & Hwr & HF & HR & D1 & D2 & D3 & D4 & _).
  assert (take_upto R DRAIN_MAX (d_rises d) = R' /\ take_upto F DRAIN_MAX (d_falls d) = F') as [ER EF]
    by (subst R' F'; by rewrite Hm).
  clearbody R' F'.
  assert (R <= R')%nat as HRR by (pose proof (sa_order _ _ _ (ca_rises _ _ _ _ Hs)); cbn in *; subst R'; unfold take_upto; lia).
  unfold ring_cap in *.
  destruct (cap_step_at fall_ticks rise_ticks wf wr (mkCapRef F R false) s (CoRises DRAIN_MAX) (sh_first x) (sh_falls1 x) (d_rises d))
    as (s1 & E1 & H1); [done|unfold ring_cap; lia..|cbn; lia|cbn; lia|done|done|].
  rewrite ref_rises in E1, H1 by (unfold ring_cap; lia). cbn [fst snd] in E1, H1. rewrite ER in E1, H1.
  destruct (cap_step_at fall_ticks rise_ticks (sh_falls1 x) (d_rises d) (mkCapRef F R' false) s1 (CoFalls DRAIN_MAX) (sh_second x)
    (d_falls d) (sh_rises2 x)) as (s2 & E2 & H2); [done|unfold ring_cap; lia..|cbn; lia|cbn; lia|done|done|].
  rewrite ref_falls in E2, H2 by (unfold ring_cap; lia). cbn [fst snd] in E2, H2. rewrite EF in E2, H2.
  exists s1, s2. done.
Qed.

Lemma drain_shots l : forall A wf wr F R anchor s h c,
  cap_at wf wr (mkCapRef F R false) s -> shots_fed wf wr F R l -> in_step T A F R anchor ->
  timely T A F R (map sh_drain l) -> joined (X := X) (mkWorld h s (shots_feed l) (shots_ticks l)) anchor c ->
  exists eds c', drain_all (length l) c = Some (Ok eds, c') /\ Forall (fun e => edr_overflow e = false) eds /\
    let n' := composed (drained F d_falls (map sh_drain l)) (drained R d_rises (map sh_drain l)) in
    (composed F R <= n')%nat /\ concat (map edr_edges eds) = wire_trace T (composed F R) n'.
Proof using T_mono.
  induction l as [|x l IH]; intros A wf wr F R anchor s h c Hs Hl Hi Ht Hj.
  { exists [], c. cbn. rewrite wire_trace_nil by done. by repeat split. }
  cbn [map timely] in Ht. destruct Ht as (Hsn & HR & HF & Hd & Hw & Ht).
  destruct (shot_drains wf wr F R s x l Hs Hl) as (s1 & s2 & E1 & E2 & Hs2).
  destruct (unwrap_drain_spec T T_mono A F R anchor (sh_drain x) Hi Hsn HR HF Hd Hw) as (Hle & anchor1 & Eu & Hi1).
  pose proof (length_captured T) as Lc. pose proof Hl as (Hm & _).
  pose proof (u16_captured fall_ix) as Uf. pose proof (u16_captured rise_ix) as Ur. rewrite <- Uf, <- (Ur R) in Eu.
  assert (forall f i total, (length (captured T f i (take_upto i (d_max (sh_drain x)) total)) <= DRAIN_MAX)%nat) as Lt
    by (intros; rewrite Lc, Hm; unfold take_upto; lia).
  destruct (drain_once c anchor h s _ _ _ _ _ _ s1 _ s2 _ anchor1 Hj E1 E2 (Lt _ _ _) (Lt _ _ _) Eu) as (c1 & Ec & Hj1).
  cbn [shots_fed] in Hl. destruct Hl as (_ & _ & _ & _ & _ & _ & _ & _ & _ & _ & _ & Hl).
  destruct (IH _ _ _ _ _ _ _ _ _ Hs2 Hl Hi1 Ht Hj1) as (eds & c2 & Ed & Hov & Hle2 & Htr).
  eexists (_ :: eds), c2. split; [|split; [|split]].
  - cbn [length drain_all]. unfold cbind at 1. rewrite Ec. unfold cbind. by rewrite Ed.
  - constructor; [|done]. cbn [edr_overflow]. by rewrite (ca_overflow _ _ _ _ Hs2).
  - cbn [map drained fold_left] in *. unfold drained in *. lia.
  - cbn [map concat edr_edges]. rewrite Htr. cbn [drained fold_left map]. apply wire_trace_app. unfold drained in *. lia.
Qed.
End wire.

(** C15: the wire instrument loses and invents nothing between capture and client.
    [T] gives the ticks of the transitions as the two capture channels record them,
    falls and rises in turn, as data-region edges are; a span with a break in it,
    whose fall the capture misses and whose inside shows phantoms (traits.rs), is not
    of this form, and nothing is claimed across one.  A client that is joined to the
    adapter's link server, over capture rings that start empty, makes any number of
    [drain_edges] calls.  If the drains keep the timing of [timely] and come round
    before a ring laps ([shots_fed]), every call succeeds without the overflow flag,
    and the edges it returns, call after call, are exactly the captured transitions,
    in order, with their polarity and their ticks on the 32-bit clock rebuilt from
    the 16 bits the channels keep. *)
Theorem instrument_exact {X} {HX : HostProviders X} (T : nat -> Z) (shots : list Shot) (h : X) (c : Client (LoopPipe X)) :
  (forall j, T j <= T (S j)) -> timely T None 0 0 (map sh_drain shots) -> shots_fed T 0 0 0 0 shots ->
  joined (mkWorld h CapState_init (shots_feed shots) (shots_ticks shots)) EdgeAnchor_default c ->
  exists eds c', drain_all (length shots) c = Some (Ok eds, c') /\ Forall (fun e => edr_overflow e = false) eds /\
    concat (map edr_edges eds) =
      wire_trace T 0 (composed (drained 0 d_falls (map sh_drain shots)) (drained 0 d_rises (map sh_drain shots))).
Proof.
  intros HT Ht Hf Hj.
  destruct (drain_shots T HT shots None 0 0 0 0 EdgeAnchor_default CapState_init h c cap_init_at Hf) as (eds & c' & Hd & Ho & _ & Hw);
    [by split; [lia|]|done|done|]. by exists eds, c'.
Qed.

(** The wire of [EdgeUnwrap], drained three times; the second drain finds nine edges,
    the last none. *)
Definition demo_shot (now : Z) (nr nf : nat) : Shot :=
  mkShot (mkDrain now 64 nr nf) (mkPorts (dma_of (fall_ticks demo_wire) nf) (dma_of (rise_ticks demo_wire) nr))
    (mkPorts (dma_of (fall_ticks demo_wire) nf) (dma_of (rise_ticks demo_wire) nr)) nf nr.
Definition demo_shots : list Shot :=
  [demo_shot (demo_wire 1 + 10) 1 1; demo_shot (demo_wire 10 + 100) 5 6; demo_shot (demo_wire 10 + 30000) 5 6].
Definition demo_instrument : Client (LoopPipe BenchHost) :=
  mkClient (mkLoop (mkLink LinkServer_new
      (HostBus_new (mkWorld (mkBenchHost [] 0 0) CapState_init (shots_feed demo_shots) (shots_ticks demo_shots)) B1000000)) [])
    (mkSession [] 0) EdgeAnchor_default (mkInfo 1 18) DEFAULT_GUARD.

Lemma demo_shots_timely : timely demo_wire None 0 0 (map sh_drain demo_shots).
Proof.
  unfold demo_shots, demo_shot. cbn [map sh_drain timely d_max d_rises d_falls d_now].
  repeat match goal with |- context [take_upto ?a ?b ?c] => let x := eval vm_compute in (take_upto a b c) in change (take_upto a b c) with x end.
  repeat match goal with |- context [composed ?a ?b] => let x := eval vm_compute in (composed a b) in change (composed a b) with x end.
  split; [apply (proj1 (demo_snapshot 10 1 64 ltac:(lia) ltac:(lia) ltac:(lia)))|]. split; [lia|]. split; [lia|].
  split; [|split; [done|]].
  { intros j Hj. unfold anchor_at. destruct (Nat.eqb j 0) eqn:E; zbool; cbn; unfold demo_wire; lia. }
  cbn [next_anchor Nat.ltb Nat.leb].
  split; [apply (proj2 (demo_snapshot 100 5 64 ltac:(lia) ltac:(lia) ltac:(lia)))|]. split; [lia|]. split; [lia|].
  split; [intros j Hj; unfold anchor_at; destruct (Nat.eqb j 2) eqn:E; zbool; cbn; unfold demo_wire; lia|].
  split; [intros a [= <-]; unfold demo_wire, ANCHOR_GUARD; lia|].
  split; [apply (proj2 (demo_snapshot 30000 5 64 ltac:(lia) ltac:(lia) ltac:(lia)))|]. split; [lia|]. split; [lia|].
  split; [intros j Hj; lia|]. split; [intros a [= <-]; unfold demo_wire, ANCHOR_GUARD; lia|done].
Qed.
Lemma demo_shots_fed : shots_fed demo_wire 0 0 0 0 demo_shots.
Proof.
  unfold demo_shots, demo_shot. cbn [shots_fed sh_drain sh_first sh_second sh_falls1 sh_rises2 d_max d_falls d_rises pt_falls pt_rises].
  unfold take_upto, ring_cap. repeat (split; [done || lia || apply dma_of_at|]). done.
Qed.

Lemma demo_joined :
  joined (mkWorld (mkBenchHost [] 0 0) CapState_init (shots_feed demo_shots) (shots_ticks demo_shots)) EdgeAnchor_default demo_instrument.
Proof. constructor; [done|done| |done|done]. split; [by vm_compute|]. split; [done|]. split; [cbn; lia|done]. Qed.

Lemma instrument_exact_witness :
  exists eds c', drain_all 3 demo_instrument = Some (Ok eds, c') /\ concat (map edr_edges eds) = wire_trace demo_wire 0 11.
Proof.
  destruct (instrument_exact demo_wire demo_shots (mkBenchHost [] 0 0) demo_instrument) as (eds & c' & Hd & _ & Hw);
    [intros j; unfold demo_wire; lia|exact demo_shots_timely|exact demo_shots_fed|exact demo_joined|].
  exists eds, c'. by split.
Defined.
