(* ===== verification/HostLoop.v ===== *)
(** * The adapter's main loop (host-ch32/src/runtime/run.rs)

    The loop feeds pipe bytes to the link server, queues the records the server
    produces in a ring of [TXQ_CAP] bytes and ships the queue in USB packets.  The
    USB device and the interrupts are inputs of a turn: what the pipe delivered,
    whether the endpoint is free and its packet size, and what interrupts made of the
    link in the meantime.

    The theorem: as long as one call of the server does not produce more than the
    headroom the loop keeps, the pipe loses and reorders nothing.  The example below
    it shows a packet whose answers exceed the headroom. *)

From S2P Require Import Prelude Trace Ring Wire HostEngine HostContract Link LinkContract HostFramer Capture Instrument.
From stdpp Require Import relations.
Local Open Scope Z_scope.

(** ** The outbound queue *)

Definition TXQ_CAP : nat := Z.to_nat 4096.
Definition PUMP_HEADROOM : nat := Z.to_nat 2048.
Definition FLUSH_BOUND_US : Z := 100000.
Definition LED_PULSE_US : Z := 30000.

Record TxQueue := mkTxq { tq_buf : list Z; tq_read : nat; tq_len : nat }.
Definition TxQueue_new : TxQueue := mkTxq (replicate TXQ_CAP 0) 0 0.
Definition TxQueue_free (q : TxQueue) : nat := TXQ_CAP - tq_len q.
Definition TxQueue_is_empty (q : TxQueue) : bool := Nat.eqb (tq_len q) 0.

Definition TxQueue_pop_into (dst_len : nat) (q : TxQueue) : list Z * TxQueue :=
  let n := Nat.min dst_len (tq_len q) in
  (map (fun k => default 0 (tq_buf q !! ((tq_read q + k) mod TXQ_CAP)%nat)) (seq 0 n),
   mkTxq (tq_buf q) ((tq_read q + n) mod TXQ_CAP) (tq_len q - n)).

Fixpoint txq_put (buf : list Z) (write : nat) (record : list Z) : list Z :=
  match record with
  | [] => buf
  | b :: record' => txq_put (<[write := b]> buf) (S write mod TXQ_CAP) record'
  end.
(** A record that does not fit is dropped whole. *)
Definition TxQueue_record (record : list Z) (q : TxQueue) : TxQueue :=
  if Nat.ltb (TxQueue_free q) (length record) then q
  else mkTxq (txq_put (tq_buf q) ((tq_read q + tq_len q) mod TXQ_CAP) record) (tq_read q) (tq_len q + length record).

(** ** The loop *)

Section host_loop.
Context {E : Type} {HP : HostProviders E} {HL : HostLaws E}.

(** [hl_in]: the packets waiting at the OUT endpoint. *)
Record HostLoop := mkHostLoop { hl_in : list (list Z); hl_link : @Link E; hl_txq : TxQueue; hl_led_until : option Z }.

(** What a turn meets: the interrupts and outside changes before the pipe is served
    and before the pump, whether a packet has arrived, the IN endpoint and the ticks;
    [ht_flush_start] and [ht_flush] are the ticks [flush_pipe] reads and the endpoint
    at each of its passes. *)
Record HostTurn := mkHostTurn {
  ht_irq1 : list (@LinkAct E); ht_irq2 : list (@LinkAct E);
  ht_rx_ready : bool; ht_t_rx : Z;
  ht_tx_ready : bool; ht_mps : nat; ht_t_tx : Z; ht_t_led : Z;
  ht_flush_start : Z; ht_flush : list (Z * bool * nat) }.

Inductive HostOut := HoPacket (p : list Z) | HoRails (v3v3 v5 : bool) | HoLed (on : bool) | HoBootloader.

(** The server runs, its records go to the queue: the new link, the queue, and the
    records of the call.  [poll_accumulate] is part of the world that moves between. *)
Definition serve (acts : list (@LinkAct E)) (l : @Link E) (q : TxQueue) : option (@Link E * TxQueue * list (list Z)) :=
  match run_acts acts l with
  | Some (_, l', ev) => Some (l', fold_left (fun q r => TxQueue_record r q) (records_of ev) q, records_of ev)
  | None => None
  end.

Definition led_deadline (now : Z) : option Z := Some (u32 (now + u32 (LED_PULSE_US * H_TICKS_PER_US))).
Definition headroom (q : TxQueue) : bool := Nat.leb PUMP_HEADROOM (TxQueue_free q).

(** Pipe bytes into the server, left at the endpoint while the queue is short. *)
Definition turn_rx (t : HostTurn) (s : HostLoop) : option (HostLoop * list (list Z)) :=
  match hl_in s, ht_rx_ready t && headroom (hl_txq s) with
  | bytes :: rest, true =>
      match serve (ht_irq1 t ++ [LaPipe bytes]) (hl_link s) (hl_txq s) with
      | Some (l, q, rs) => Some (mkHostLoop rest l q (led_deadline (ht_t_rx t)), rs)
      | None => None
      end
  | _, _ =>
      match serve (ht_irq1 t) (hl_link s) (hl_txq s) with
      | Some (l, q, rs) => Some (mkHostLoop (hl_in s) l q (hl_led_until s), rs)
      | None => None
      end
  end.

(** Engine events into records, under the same gate. *)
Definition turn_pump (t : HostTurn) (s : HostLoop) : option (HostLoop * list (list Z)) :=
  match serve (ht_irq2 t ++ (if headroom (hl_txq s) then [LaPump] else [])) (hl_link s) (hl_txq s) with
  | Some (l, q, rs) => Some (mkHostLoop (hl_in s) l q (hl_led_until s), rs)
  | None => None
  end.

Definition turn_tx (t : HostTurn) (s : HostLoop) : HostLoop * list HostOut :=
  if ht_tx_ready t && negb (TxQueue_is_empty (hl_txq s)) then
    let '(p, q) := TxQueue_pop_into (Nat.min (ht_mps t) (Z.to_nat 512)) (hl_txq s) in
    (mkHostLoop (hl_in s) (hl_link s) q (led_deadline (ht_t_tx t)), [HoPacket p])
  else (s, []).

Definition turn_light (t : HostTurn) (s : HostLoop) : HostLoop * list HostOut :=
  let until := match hl_led_until s with
               | Some u => if tick_reached (ht_t_led t) u then None else Some u
               | None => None
               end in
  (mkHostLoop (hl_in s) (hl_link s) (hl_txq s) until, [HoLed (match until with Some _ => true | None => false end)]).

(** [flush_pipe]: a pass per entry, while its time lasts and the records do. *)
Definition flush_bound : Z := Z.min 4294967295 (FLUSH_BOUND_US * H_TICKS_PER_US).
Fixpoint flush_pipe (start : Z) (polls : list (Z * bool * nat)) (q : TxQueue) : list HostOut * TxQueue :=
  match polls with
  | [] => ([], q)
  | (now, ready, mps) :: polls' =>
      if u32 (now - start) <? flush_bound then
        if ready : bool then
          if TxQueue_is_empty q then ([], q)
          else
            let '(p, q) := TxQueue_pop_into (Nat.min mps (Z.to_nat 512)) q in
            let '(out, q) := flush_pipe start polls' q in (HoPacket p :: out, q)
        else flush_pipe start polls' q
      else ([], q)
  end.

(** The part of a turn after the adapter's own request. *)
Definition turn_rest (t : HostTurn) (s : HostLoop) : option (list HostOut * list (list Z) * HostLoop) :=
  '(s, rs) ← turn_pump t s;
  let '(s, o1) := turn_tx t s in
  let '(s, o2) := turn_light t s in
  Some (o1 ++ o2, rs, s).

(** One turn: what went out, the server's calls with the records of each, and the
    next state, or only the queue after the jump to the bootloader. *)
Definition host_turn (t : HostTurn) (s : HostLoop) :
    option (list HostOut * list (list (list Z)) * (HostLoop + TxQueue)) :=
  '(s, rs1) ← turn_rx t s;
  match ad_req (ls_adapter (lk_server (hl_link s))) with
  | Some EnterBootloader =>
      let '(out, q) := flush_pipe (ht_flush_start t) (ht_flush t) (hl_txq s) in Some (out ++ [HoBootloader], [rs1], inr q)
  | req =>
      let rails := match req with Some (SetRails v3v3 v5) => [HoRails v3v3 v5] | _ => [] end in
      let taken := mkLink (LinkServer_take_adapter_request (lk_server (hl_link s))).2 (lk_bus (hl_link s)) in
      '(out, rs2, s) ← turn_rest t (mkHostLoop (hl_in s) taken (hl_txq s) (hl_led_until s));
      Some (rails ++ out, [rs1; rs2], inl s)
  end.

Fixpoint host_run (ts : list HostTurn) (s : HostLoop) :
    option (list HostOut * list (list (list Z)) * (HostLoop + TxQueue)) :=
  match ts with
  | [] => Some ([], [], inl s)
  | t :: ts' =>
      '(out, calls, s') ← host_turn t s;
      match s' with
      | inr q => Some (out, calls, inr q)
      | inl s' => '(out', calls', r) ← host_run ts' s'; Some (out ++ out', calls ++ calls', r)
      end
  end.
Definition host_start (env : E) (rate : BaudRate) (usb : list (list Z)) : HostLoop :=
  mkHostLoop usb (mkLink LinkServer_new (HostBus_new env rate)) TxQueue_new None.
End host_loop.
Arguments HostLoop : clear implicits.
Arguments HostTurn : clear implicits.

Definition packets (out : list HostOut) : list Z := concat (omap (fun o => match o with HoPacket p => Some p | _ => None end) out).
Definition end_queue {E} (r : HostLoop E + TxQueue) : TxQueue := match r with inl s => hl_txq s | inr q => q end.
#[local] Opaque TXQ_CAP PUMP_HEADROOM.

(** ** The queue is a queue *)

Definition txq_contents (q : TxQueue) : list Z :=
  map (fun k => default 0 (tq_buf q !! ((tq_read q + k) mod TXQ_CAP)%nat)) (seq 0 (tq_len q)).
Record txq_ok (q : TxQueue) : Prop := mkTxqOk {
  tk_buf : length (tq_buf q) = TXQ_CAP; tk_read : (tq_read q < TXQ_CAP)%nat; tk_len : (tq_len q <= TXQ_CAP)%nat }.

Lemma cap_pos : (0 < TXQ_CAP)%nat.
Proof. with_strategy transparent [TXQ_CAP] unfold TXQ_CAP. lia. Qed.
Lemma wrap_once x : (x < 2 * TXQ_CAP)%nat -> (x mod TXQ_CAP)%nat = if Nat.ltb x TXQ_CAP then x else (x - TXQ_CAP)%nat.
Proof.
  intros Hx. pose proof cap_pos. destruct (Nat.ltb_spec x TXQ_CAP); [by apply Nat.mod_small|].
  symmetry. apply (Nat.mod_unique _ _ 1); lia.
Qed.
Lemma wrap_apart w j : (w < TXQ_CAP)%nat -> (0 < j < TXQ_CAP)%nat -> ((w + j) mod TXQ_CAP)%nat <> w.
Proof. intros Hw Hj. rewrite wrap_once by lia. destruct (Nat.ltb_spec (w + j) TXQ_CAP); lia. Qed.

Lemma put_spec r : forall buf w, length buf = TXQ_CAP -> (w < TXQ_CAP)%nat -> (length r <= TXQ_CAP)%nat ->
  length (txq_put buf w r) = TXQ_CAP /\
  (forall j, (j < length r)%nat -> txq_put buf w r !! ((w + j) mod TXQ_CAP)%nat = r !! j) /\
  (forall i, (forall j, (j < length r)%nat -> i <> ((w + j) mod TXQ_CAP)%nat) -> txq_put buf w r !! i = buf !! i).
Proof.
  pose proof cap_pos. induction r as [|b r IH]; intros buf w Hb Hw Hr; [split; [done|split; [cbn; lia|done]]|].
  cbn [txq_put length] in *. assert (forall j, ((S w mod TXQ_CAP + j) mod TXQ_CAP = (w + S j) mod TXQ_CAP)%nat) as Hm.
  { intros j. rewrite Nat.Div0.add_mod_idemp_l. f_equal. lia. }
  destruct (IH (<[w := b]> buf) (S w mod TXQ_CAP)%nat) as (L & Hin & Hout);
    [by rewrite length_insert|apply Nat.mod_upper_bound; lia|lia|]. split; [done|]. split.
  - intros [|j] Hj; [|rewrite <- Hm; by apply Hin; lia]. rewrite Nat.add_0_r, Nat.mod_small by done.
    rewrite Hout; [by rewrite list_lookup_insert_eq by lia|]. intros j Hj2. rewrite Hm. apply not_eq_sym, wrap_apart; lia.
  - intros i Hi. rewrite Hout; [|intros j Hj; rewrite Hm; apply Hi; lia].
    apply list_lookup_insert_ne. specialize (Hi 0%nat ltac:(lia)). by rewrite Nat.add_0_r, Nat.mod_small in Hi.
Qed.

Lemma seq_map_shift {A} (f : nat -> A) i n : map f (seq i n) = map (fun k => f (i + k)%nat) (seq 0 n).
Proof.
  pose proof (fmap_add_seq i 0 n) as Es. rewrite Nat.add_0_r in Es. rewrite <- Es.
  change (Nat.add i <$> seq 0 n) with (map (Nat.add i) (seq 0 n)). by rewrite map_map.
Qed.
Lemma map_lookup_seq (r : list Z) : map (fun k => default 0 (r !! k)) (seq 0 (length r)) = r.
Proof.
  induction r as [|x r IH]; [done|]. cbn [length seq map lookup list_lookup default]. f_equal. rewrite seq_map_shift.
  rewrite <- IH at 2. done.
Qed.

Lemma record_contents r q : txq_ok q -> (length r <= TxQueue_free q)%nat ->
  txq_ok (TxQueue_record r q) /\ txq_contents (TxQueue_record r q) = txq_contents q ++ r /\
  tq_len (TxQueue_record r q) = (tq_len q + length r)%nat.
Proof.
  intros [Hb Hr Hl] Hf. unfold TxQueue_free in Hf. unfold TxQueue_record. rewrite (proj2 (Nat.ltb_ge _ _)) by (unfold TxQueue_free; lia).
  pose proof cap_pos. set (w := ((tq_read q + tq_len q) mod TXQ_CAP)%nat).
  destruct (put_spec r (tq_buf q) w Hb) as (L & Hin & Hout); [apply Nat.mod_upper_bound; lia|lia|].
  split; [|split; [|done]]. { constructor; cbn; [done|done|lia]. }
  unfold txq_contents. cbn [tq_buf tq_read tq_len]. rewrite seq_app, map_app. f_equal.
  - apply map_ext_in. intros k Hk. apply in_seq in Hk. f_equal. apply Hout. intros j Hj. unfold w. rewrite Nat.Div0.add_mod_idemp_l.
    rewrite !wrap_once by lia. destruct (Nat.ltb_spec (tq_read q + k) TXQ_CAP), (Nat.ltb_spec (tq_read q + tq_len q + j) TXQ_CAP); lia.
  - rewrite seq_map_shift. rewrite <- (map_lookup_seq r) at 2. apply map_ext_in. intros k Hk. apply in_seq in Hk.
    f_equal. rewrite <- Hin by lia. unfold w. rewrite Nat.Div0.add_mod_idemp_l. f_equal. f_equal. lia.
Qed.

Lemma pop_contents n q : txq_ok q -> let '(p, q') := TxQueue_pop_into n q in
  txq_ok q' /\ txq_contents q = p ++ txq_contents q'.
Proof.
  intros [Hb Hr Hl]. pose proof cap_pos. unfold TxQueue_pop_into. set (m := Nat.min n (tq_len q)). split.
  { constructor; cbn; [done|apply Nat.mod_upper_bound; lia|lia]. }
  unfold txq_contents. cbn [tq_buf tq_read tq_len]. replace (tq_len q) with (m + (tq_len q - m))%nat at 1 by lia.
  rewrite seq_app, map_app. f_equal. rewrite seq_map_shift. apply map_ext_in. intros k _.
  rewrite Nat.Div0.add_mod_idemp_l. do 3 f_equal. lia.
Qed.

Lemma queue_contents rs : forall q, txq_ok q -> (length (concat rs) <= TxQueue_free q)%nat ->
  let q' := fold_left (fun q r => TxQueue_record r q) rs q in
  txq_ok q' /\ txq_contents q' = txq_contents q ++ concat rs.
Proof.
  induction rs as [|r rs IH]; intros q Hq Hf; cbn [fold_left concat] in *.
  - by rewrite app_nil_r.
  - rewrite length_app in Hf. destruct (record_contents r q Hq ltac:(lia)) as (Hq1 & Hc & Hl).
    destruct (IH _ Hq1) as [Hq2 Hc2]; [unfold TxQueue_free in *; lia|]. split; [done|]. by rewrite Hc2, Hc, app_assoc.
Qed.

(** ** The loop *)

Section loop_facts.
Context {E : Type} {HP : HostProviders E} {HL : HostLaws E}.

(** What interrupts and the outside may do between the loop's own calls. *)
Definition is_irq (a : @LinkAct E) : Prop := match a with LaTxComplete | LaDeadline | LaWorld _ => True | _ => False end.
Definition irq_turn (t : HostTurn E) : Prop := Forall is_irq (ht_irq1 t) /\ Forall is_irq (ht_irq2 t).

Lemma run_acts_app a b (l : @Link E) : run_acts (a ++ b) l = bbind (run_acts a) (fun _ => run_acts b) l.
Proof.
  revert l. induction a as [|x a IH]; intros l; cbn [app run_acts].
  - by erewrite bbind_quiet.
  - unfold bbind in *. destruct (run_act x l) as [[[u l1] e1]|]; [|done]. rewrite IH.
    destruct (run_acts a l1) as [[[u2 l2] e2]|]; [|done]. destruct (run_acts b l2) as [[[u3 l3] e3]|]; [|done]. by rewrite app_assoc.
Qed.
Lemma piped_app (a b : list (@LinkAct E)) : piped (a ++ b) = piped a ++ piped b.
Proof. unfold piped. by rewrite map_app, concat_app. Qed.
Lemma irq_piped acts : Forall is_irq acts -> piped acts = [].
Proof. induction 1 as [|a acts Ha _ IH]; [done|]. unfold piped in *. cbn [map concat]. rewrite IH. by destruct a. Qed.
Lemma irq_silent acts : Forall is_irq acts -> forall l l' u ev, run_acts acts l = Some (u, l', ev) -> records_of ev = [].
Proof.
  induction 1 as [|a acts Ha _ IH]; intros l l' u ev Hr; cbn [run_acts] in Hr; [by injection Hr as _ _ <-|].
  unfold bbind in Hr. destruct (run_act a l) as [[[u1 l1] e1]|] eqn:E1; [|done].
  destruct (run_acts acts l1) as [[[u2 l2] e2]|] eqn:E2; [|done]. injection Hr as <- <- <-.
  rewrite records_of_app, (IH _ _ _ _ E2), app_nil_r. destruct a; try done; cbn [run_act] in E1.
  - unfold on_bus in E1. destruct (HostBus_on_tx_complete _) as [[[? ?] ?]|]; [|done]. injection E1 as _ _ <-. apply records_of_wire.
  - unfold on_bus in E1. destruct (HostBus_on_deadline _) as [[[? ?] ?]|]; [|done]. injection E1 as _ _ <-. apply records_of_wire.
  - by injection E1 as _ _ <-.
Qed.

(** *** The queue over a turn *)

Definition within (rs : list (list Z)) : Prop := (length (concat rs) <= PUMP_HEADROOM)%nat.

Lemma serve_queue acts l q l' q' rs : txq_ok q -> serve acts l q = Some (l', q', rs) ->
  headroom q = true /\ within rs \/ Forall is_irq acts -> txq_ok q' /\ txq_contents q' = txq_contents q ++ concat rs.
Proof.
  intros Hq Hs Hb. unfold serve in Hs. destruct (run_acts acts l) as [[[u l1] ev]|] eqn:Er; [|done]. injection Hs as <- <- <-.
  apply queue_contents; [done|]. destruct Hb as [[Hh Hw]|Hi].
  - unfold headroom in Hh. zbool. unfold within in Hw. lia.
  - rewrite (irq_silent _ Hi _ _ _ _ Er). cbn. lia.
Qed.

Lemma rx_queue t s s' rs : irq_turn t -> txq_ok (hl_txq s) -> within rs -> turn_rx t s = Some (s', rs) ->
  txq_ok (hl_txq s') /\ txq_contents (hl_txq s') = txq_contents (hl_txq s) ++ concat rs.
Proof.
  intros [Hi _] Hq Hw Ht. unfold turn_rx in Ht.
  destruct (hl_in s) as [|p rest], (ht_rx_ready t && headroom (hl_txq s)) eqn:Eg;
    (destruct (serve _ (hl_link s) (hl_txq s)) as [[[l q] rs']|] eqn:Es; [|done]); injection Ht as <- <-; cbn [hl_txq];
    apply (serve_queue _ _ _ _ _ _ Hq Es); try (by right). left. by zbool.
Qed.
Lemma pump_queue t s s' rs : irq_turn t -> txq_ok (hl_txq s) -> within rs -> turn_pump t s = Some (s', rs) ->
  txq_ok (hl_txq s') /\ txq_contents (hl_txq s') = txq_contents (hl_txq s) ++ concat rs.
Proof.
  intros [_ Hi] Hq Hw Ht. unfold turn_pump in Ht. destruct (serve _ _ _) as [[[l q] rs']|] eqn:Es; [|done]. injection Ht as <- <-.
  apply (serve_queue _ _ _ _ _ _ Hq Es). destruct (headroom (hl_txq s)); [by left|right; by rewrite app_nil_r].
Qed.
Lemma tx_queue t (s : HostLoop E) : txq_ok (hl_txq s) -> let '(s', out) := turn_tx t s in
  txq_ok (hl_txq s') /\ txq_contents (hl_txq s) = packets out ++ txq_contents (hl_txq s').
Proof.
  intros Hq. unfold turn_tx. destruct (_ && _); [|done].
  pose proof (pop_contents (Nat.min (ht_mps t) (Z.to_nat 512)) (hl_txq s) Hq) as Hp. destruct (TxQueue_pop_into _ _) as [p q].
  cbn [hl_txq]. destruct Hp as [Hok Hc]. split; [done|]. unfold packets. cbn [omap list_omap concat]. by rewrite app_nil_r.
Qed.
Lemma flush_queue start polls : forall q, txq_ok q -> let '(out, q') := flush_pipe start polls q in
  txq_contents q = packets out ++ txq_contents q'.
Proof.
  induction polls as [|[[now ready] mps] polls IH]; intros q Hq; [done|]. cbn [flush_pipe]. destruct (_ <? _); [|done].
  destruct ready; [|by apply IH].
  destruct (TxQueue_is_empty q); [done|]. pose proof (pop_contents (Nat.min mps (Z.to_nat 512)) q Hq) as Hp.
  destruct (TxQueue_pop_into _ _) as [p q1]. destruct Hp as [Hok Hc]. specialize (IH q1 Hok). destruct (flush_pipe start polls q1) as [out q2].
  unfold packets in *. cbn [omap list_omap concat]. rewrite Hc, IH. by rewrite app_assoc.
Qed.

Lemma packets_app a b : packets (a ++ b) = packets a ++ packets b.
Proof. unfold packets. rewrite omap_app, concat_app. done. Qed.

Lemma rest_queue t s out rs s' : irq_turn t -> txq_ok (hl_txq s) -> within rs -> turn_rest t s = Some (out, rs, s') ->
  txq_ok (hl_txq s') /\ packets out ++ txq_contents (hl_txq s') = txq_contents (hl_txq s) ++ concat rs.
Proof.
  intros Hi Hq Hw Ht. unfold turn_rest in Ht. destruct (turn_pump t s) as [[s2 rs2]|] eqn:E2; [|done]. cbn [mbind option_bind] in Ht.
  destruct (turn_tx t s2) as [s3 o3] eqn:E3. destruct (turn_light t s3) as [s4 o4] eqn:E4. injection Ht as <- <- <-.
  destruct (pump_queue t s s2 rs2 Hi Hq Hw E2) as [Q2 C2]. pose proof (tx_queue t s2 Q2) as H3. rewrite E3 in H3.
  destruct H3 as [Q3 C3]. unfold turn_light in E4. injection E4 as <- <-. cbn [hl_txq]. split; [done|].
  rewrite packets_app. change (packets [HoLed ?b]) with (@nil Z). by rewrite app_nil_r, <- C3, C2.
Qed.

Lemma turn_queue t s out calls r : irq_turn t -> txq_ok (hl_txq s) -> Forall within calls -> host_turn t s = Some (out, calls, r) ->
  packets out ++ txq_contents (end_queue r) = txq_contents (hl_txq s) ++ concat (concat calls) /\
  match r with inl s' => txq_ok (hl_txq s') | inr _ => True end.
Proof.
  intros Hi Hq Hw Ht. unfold host_turn in Ht. destruct (turn_rx t s) as [[s1 rs1]|] eqn:E1; [|done]. cbn [mbind option_bind] in Ht.
  assert (within rs1 -> txq_ok (hl_txq s1) /\ txq_contents (hl_txq s1) = txq_contents (hl_txq s) ++ concat rs1) as H1
    by (intros; by apply (rx_queue t s)).
  assert (forall rails sm, hl_txq sm = hl_txq s1 -> packets rails = [] ->
      ('(out, rs2, s) ← turn_rest t sm; Some (rails ++ out, [rs1; rs2], inl s)) = Some (out, calls, r) ->
      packets out ++ txq_contents (end_queue r) = txq_contents (hl_txq s) ++ concat (concat calls) /\
      match r with inl s' => txq_ok (hl_txq s') | inr _ => True end) as Hrest.
  { intros rails sm Eq Hra Hp. destruct (turn_rest t sm) as [[[o rs2] s2]|] eqn:E2; [|done]. injection Hp as <- <- <-.
    apply Forall_cons_1 in Hw as [W1 W2]. apply Forall_cons_1 in W2 as [W2 _]. destruct (H1 W1) as [Q1 C1]. rewrite <- Eq in Q1, C1.
    destruct (rest_queue t sm o rs2 s2 Hi Q1 W2 E2) as [Q2 C2]. cbn [end_queue concat]. split; [|done].
    by rewrite packets_app, Hra, app_nil_l, C2, C1, <- app_assoc, app_nil_r, concat_app. }
  destruct (ad_req _) as [[|v3 v5]|]; [|by eapply (Hrest [HoRails v3 v5]); [| |exact Ht]|by eapply (Hrest []); [| |exact Ht]].
  destruct (flush_pipe _ _ _) as [o q] eqn:Ef. injection Ht as <- <- <-. apply Forall_cons_1 in Hw as [W1 _].
  destruct (H1 W1) as [Q1 C1]. pose proof (flush_queue (ht_flush_start t) (ht_flush t) (hl_txq s1) Q1) as Hf. rewrite Ef in Hf. split; [|done].
  cbn [end_queue concat]. rewrite packets_app. change (packets [HoBootloader]) with (@nil Z). by rewrite !app_nil_r, <- Hf.
Qed.

Lemma run_queue ts : forall s out calls r, Forall irq_turn ts -> txq_ok (hl_txq s) -> Forall within calls ->
  host_run ts s = Some (out, calls, r) -> packets out ++ txq_contents (end_queue r) = txq_contents (hl_txq s) ++ concat (concat calls).
Proof.
  induction ts as [|t ts IH]; intros s out calls r Hi Hq Hw Hr; cbn [host_run] in Hr.
  - injection Hr as <- <- <-. cbn. by rewrite app_nil_r.
  - destruct (host_turn t s) as [[[o1 c1] r1]|] eqn:E1; [|done]. cbn [mbind option_bind] in Hr. apply Forall_cons_1 in Hi as [Hi1 Hi].
    destruct r1 as [s1|q1]; [|injection Hr as <- <- <-; by apply (turn_queue t s)].
    destruct (host_run ts s1) as [[[o2 c2] r2]|] eqn:E2; [|done]. cbn [mbind option_bind] in Hr. injection Hr as <- <- <-.
    apply Forall_app in Hw as [W1 W2]. destruct (turn_queue t s _ _ _ Hi1 Hq W1 E1) as [C1 Q1].
    pose proof (IH _ _ _ _ Hi Q1 W2 E2) as C2. rewrite packets_app, <- app_assoc, C2. cbn [end_queue] in C1.
    by rewrite app_assoc, C1, <- app_assoc, !concat_app.
Qed.

(** *** No call fails *)

Section total.
Context (env : E) (rate : BaudRate) (usb recs : list (list Z)) (tail : list Z).
Context (Hrecs : Forall rec_ok recs) (Husb : concat usb ++ tail = frames recs).

Local Abbreviation l0 := (mkLink LinkServer_new (HostBus_new env rate)).

Lemma acts_total acts t : piped acts ++ t = frames recs ->
  exists l ev, run_acts acts l0 = Some (tt, l, ev) /\
    exists recs1 recs2 c h o, recs = recs1 ++ recs2 /\ c ++ t = frames recs2 /\ settled c recs2 /\
      inputs h = recs1 /\ outputs h = records_of ev /\ serves ONone h o.
Proof using HL Hrecs Husb.
  intros Ec. assert (holds [] l0) as Hh by (split_and!; [done|done|cbn; lia|done]).
  assert (settled [] recs) as Hst by (destruct recs; cbn; (done || lia)).
  assert (link_sim l0 ONone) as Hs0.
  { split; [constructor|]. exists PhIdle. split; [apply HostBus_new_sim|done]. }
  destruct (runs_elim _ _ _ (acts_serve acts recs [] t l0 ONone Hh Hst Ec Hrecs Hs0)) as ([] & l & ev & Er & H).
  destruct H as (recs1 & recs2 & c & h & o & ? & ? & ? & ? & ? & ? & _). exists l, ev. split; [done|].
  by exists recs1, recs2, c, h, o.
Qed.

(** The loop's link is the server after [acts], its calls produced [rs], and what
    is not yet fed is [rest]. *)
Definition did (acts : list (@LinkAct E)) (l : @Link E) (rs : list (list Z)) (rest : list (list Z)) : Prop :=
  (exists ev, run_acts acts l0 = Some (tt, l, ev) /\ records_of ev = rs) /\ piped acts ++ concat rest = concat usb.

Lemma serve_total acts l rs rest more rest' q : did acts l rs rest -> piped more ++ concat rest' = concat rest ->
  exists l' q' rs', serve more l q = Some (l', q', rs') /\ did (acts ++ more) l' (rs ++ rs') rest'.
Proof using HL Hrecs Husb.
  intros [(ev & Er & <-) Hp] Hm. destruct (acts_total (acts ++ more) (concat rest' ++ tail)) as (l' & ev' & Er' & _).
  { rewrite <- Husb, <- Hp, piped_app, <- Hm. by rewrite !app_assoc. }
  pose proof Er' as Eb. rewrite run_acts_app in Eb. unfold bbind in Eb. rewrite Er in Eb.
  destruct (run_acts more l) as [[[[] l2] e2]|] eqn:E2; [|done]. injection Eb as -> <-. unfold serve. rewrite E2.
  eexists _, _, _. split; [done|]. split; [|by rewrite piped_app, <- app_assoc, Hm].
  eexists. split; [exact Er'|apply records_of_app].
Qed.

Lemma rx_total t s acts rs : irq_turn t -> did acts (hl_link s) rs (hl_in s) ->
  exists s' rs' acts', turn_rx t s = Some (s', rs') /\ did acts' (hl_link s') (rs ++ rs') (hl_in s').
Proof using HL Hrecs Husb.
  intros [Hi _] Hd. unfold turn_rx. destruct (hl_in s) as [|p rest] eqn:Ein, (ht_rx_ready t && headroom (hl_txq s)) eqn:Eg.
  3: { destruct (serve_total _ _ _ _ (ht_irq1 t ++ [LaPipe p]) rest (hl_txq s) Hd) as (l' & q' & rs' & -> & Hd').
       { rewrite piped_app, irq_piped by done. unfold piped. cbn. by rewrite app_nil_r. }
       by eexists _, _, _. }
  all: match type of Hd with did _ _ _ ?rest =>
         destruct (serve_total _ _ _ _ (ht_irq1 t) rest (hl_txq s) Hd) as (l' & q' & rs' & -> & Hd') end;
       [by rewrite irq_piped|by eexists _, _, _].
Qed.
Lemma pump_total t s acts rs : irq_turn t -> did acts (hl_link s) rs (hl_in s) ->
  exists s' rs' acts', turn_pump t s = Some (s', rs') /\ did acts' (hl_link s') (rs ++ rs') (hl_in s').
Proof using HL Hrecs Husb.
  intros [_ Hi] Hd. unfold turn_pump.
  destruct (serve_total _ _ _ _ (ht_irq2 t ++ (if headroom (hl_txq s) then [LaPump] else [])) (hl_in s) (hl_txq s) Hd)
    as (l' & q' & rs' & -> & Hd'); [|by eexists _, _, _].
  rewrite piped_app, irq_piped by done. by destruct (headroom (hl_txq s)).
Qed.

Definition end_did (acts : list (@LinkAct E)) (rs : list (list Z)) (r : HostLoop E + TxQueue) : Prop :=
  match r with inl s => did acts (hl_link s) rs (hl_in s) | inr _ => exists l rest, did acts l rs rest end.

Lemma rest_total t s acts rs : irq_turn t -> did acts (hl_link s) rs (hl_in s) ->
  exists out rs' s' acts', turn_rest t s = Some (out, rs', s') /\ did acts' (hl_link s') (rs ++ rs') (hl_in s').
Proof using HL Hrecs Husb.
  intros Hi Hd. unfold turn_rest. destruct (pump_total t s acts rs Hi Hd) as (s2 & rs2 & acts2 & -> & H2).
  cbn [mbind option_bind]. destruct (turn_tx t s2) as [s3 o3] eqn:E3, (turn_light t s3) as [s4 o4] eqn:E4.
  eexists _, _, _, acts2. split; [done|]. unfold turn_light in E4. injection E4 as <- <-. cbn [hl_link hl_in].
  unfold turn_tx in E3. destruct (_ && _); [|by injection E3 as <- <-].
  destruct (TxQueue_pop_into _ _). by injection E3 as <- <-.
Qed.

Lemma turn_total t s acts rs : irq_turn t -> did acts (hl_link s) rs (hl_in s) ->
  exists out calls r acts', host_turn t s = Some (out, calls, r) /\ end_did acts' (rs ++ concat calls) r.
Proof using HL Hrecs Husb.
  intros Hi Hd. unfold host_turn. destruct (rx_total t s acts rs Hi Hd) as (s1 & rs1 & acts1 & -> & H1). cbn [mbind option_bind].
  set (taken := mkLink (LinkServer_take_adapter_request (lk_server (hl_link s1))).2 (lk_bus (hl_link s1))).
  assert (did (acts1 ++ [LaAdapter]) taken (rs ++ rs1) (hl_in s1)) as Ht.
  { destruct H1 as [(ev & Er & Hev) Hp]. split; [|by rewrite piped_app, app_nil_r]. exists ev. split; [|done].
    rewrite run_acts_app. unfold bbind. rewrite Er. cbn. by rewrite app_nil_r. }
  destruct (rest_total t (mkHostLoop (hl_in s1) taken (hl_txq s1) (hl_led_until s1)) _ _ Hi Ht) as (o & rs2 & s2 & acts2 & Er & H2).
  destruct (ad_req _) as [[|v3 v5]|].
  { destruct (flush_pipe _ _ _) as [o1 q]. eexists _, _, _, acts1. split; [done|]. cbn [concat end_did]. rewrite app_nil_r. by eexists _, _. }
  all: rewrite Er; eexists _, _, _, acts2; split; [done|]; cbn [concat end_did]; by rewrite app_nil_r, app_assoc.
Qed.

Lemma run_total ts : forall s acts rs, Forall irq_turn ts -> did acts (hl_link s) rs (hl_in s) ->
  exists out calls r acts', host_run ts s = Some (out, calls, r) /\ end_did acts' (rs ++ concat calls) r.
Proof using HL Hrecs Husb.
  induction ts as [|t ts IH]; intros s acts rs Hi Hd; cbn [host_run].
  - exists [], [], (inl s), acts. split; [done|]. cbn. by rewrite app_nil_r.
  - apply Forall_cons_1 in Hi as [Hi1 Hi]. destruct (turn_total t s acts rs Hi1 Hd) as (o1 & c1 & r1 & acts1 & -> & H1).
    cbn [mbind option_bind]. destruct r1 as [s1|q1]; [|by eexists _, _, _, _].
    destruct (IH s1 acts1 _ Hi H1) as (o2 & c2 & r2 & acts2 & -> & H2). cbn [mbind option_bind].
    eexists _, _, _, acts2. split; [done|]. by rewrite concat_app, app_assoc.
Qed.
End total.
End loop_facts.

Lemma TxQueue_new_ok : txq_ok TxQueue_new.
Proof. pose proof cap_pos. constructor; cbn [tq_buf tq_read tq_len TxQueue_new]; [apply length_replicate|lia|lia]. Qed.

(** C16: the adapter's main loop over a legal stream of records, cut into USB packets
    in any way, with any interrupts, endpoint stalls and packet sizes: no turn panics;
    the records the server took and the records it produced obey the adapter's
    contract; and if no single call of the server produces more than the headroom, the
    bytes shipped in packets, with the bytes still queued, are exactly the produced
    records in their order, the bootloader jump included. *)
Theorem adapter_lossless {E} {HP : HostProviders E} {HL : HostLaws E} (env : E) rate ts usb recs tail :
  Forall rec_ok recs -> concat usb ++ tail = frames recs -> Forall irq_turn ts ->
  exists out calls r, host_run ts (host_start env rate usb) = Some (out, calls, r) /\
    (exists recs1 recs2 h o, recs = recs1 ++ recs2 /\ inputs h = recs1 /\ outputs h = concat calls /\ serves ONone h o) /\
    (Forall within calls -> packets out ++ txq_contents (end_queue r) = concat (concat calls)).
Proof.
  intros Hok Ec Hi. assert (did env rate usb [] (hl_link (host_start env rate usb)) [] (hl_in (host_start env rate usb))) as Hd
    by (split; [by eexists|done]).
  destruct (run_total env rate usb recs tail Hok Ec ts _ [] [] Hi Hd) as (out & calls & r & acts & Er & Hend).
  exists out, calls, r. split; [done|]. split.
  - assert (exists l rest, did env rate usb acts l (concat calls) rest) as (l & rest & (ev & Ea & Hev) & Hp)
      by (destruct r; [by eexists _, _|done]).
    destruct (acts_total env rate usb recs tail Hok Ec acts (concat rest ++ tail)) as (l' & ev' & Ea' & recs1 & recs2 & c & h & o & ? & _ & _ & ? & Ho & ?).
    { by rewrite app_assoc, Hp. }
    rewrite Ea in Ea'. injection Ea' as -> ->. exists recs1, recs2, h, o. by rewrite <- Hev.
  - intros Hw. by rewrite (run_queue ts (host_start env rate usb) _ _ _ Hi TxQueue_new_ok Hw Er).
Qed.

(** ** Two runs of the loop *)

(** The session of [LinkContract], over a stalled endpoint first. *)
Definition loop_turn_of (irq : list (@LinkAct BenchHost)) (ready : bool) : HostTurn BenchHost :=
  mkHostTurn [] irq true 0 ready 64 0 0 0 [].
Definition loop_demo_turns : list (HostTurn BenchHost) :=
  [loop_turn_of [] false; loop_turn_of [] false;
   loop_turn_of [LaTxComplete; LaWorld (mkBenchHost (take 9 host_demo_frame) 9 100)] false;
   loop_turn_of [LaWorld (mkBenchHost (take 9 host_demo_frame) 9 100)] true].

Lemma adapter_lossless_witness :
  exists out calls r, host_run loop_demo_turns (host_start (mkBenchHost [] 0 0) B1000000 link_demo_chunks) = Some (out, calls, r) /\
    packets out ++ txq_contents (end_queue r) = concat (concat calls) /\ packets out <> [].
Proof.
  assert (Forall irq_turn loop_demo_turns) as Hi by (repeat (constructor; [split; repeat constructor|]); constructor).
  destruct (adapter_lossless (mkBenchHost [] 0 0) B1000000 loop_demo_turns link_demo_chunks link_demo_recs [])
    as (out & calls & r & Er & _ & Hc); [exact link_demo_ok|reflexivity|exact Hi|].
  exists out, calls, r. split; [exact Er|].
  assert (Forall within calls /\ packets out <> []) as [Hw Hne]; [|by split; [apply Hc|]].
  assert (match host_run loop_demo_turns (host_start (mkBenchHost [] 0 0) B1000000 link_demo_chunks) with
          | Some (out, calls, _) => forallb (fun rs => Nat.leb (length (concat rs)) PUMP_HEADROOM) calls && negb (Nat.eqb (length (packets out)) 0)
          | None => false end = true) as Hb by (vm_compute; reflexivity).
  rewrite Er in Hb. apply andb_true_iff in Hb as [Hb Hn]. split.
  - apply Forall_forall. intros rs Hrs. unfold within. apply Nat.leb_le. rewrite forallb_forall in Hb. apply Hb. by apply list_elem_of_In.
  - intros Ho. by rewrite Ho in Hn.
Defined.

(** One full-speed packet of sixteen EDGE_DRAIN records, over capture rings that are
    full: the answers take 4256 bytes, so the sixteenth is dropped from a queue that
    was empty, and its request stays unanswered. *)
Definition full_ports : Ports := mkPorts (mkDma 1024 (replicate 1024 7)) (mkDma 1024 (replicate 1024 7)).
Definition full_capture : CapState := mkCap (mkSide 0 1024 0) (mkSide 0 1024 0) false.
Definition full_world : EdgeWorld BenchHost := mkWorld (mkBenchHost [] 0 0) full_capture (replicate 32 full_ports) (replicate 16 100).
Definition drain_burst : list Z := concat (replicate 16 [2; 0; 100; 255]).

Example headroom_breach : length drain_burst = 64%nat /\
  match host_turn (mkHostTurn [] [] true 0 false 64 0 0 0 []) (host_start full_world B1000000 [drain_burst]) with
  | Some (_, calls, inl s) => length (concat calls) = 16%nat /\ length (concat (concat calls)) = 4256%nat /\ tq_len (hl_txq s) = 3990%nat
  | _ => False
  end.
Proof. vm_compute. done. Qed.
