(* ===== verification/Usb.v ===== *)
(** * The adapter's USB device (host-ch32/src/runtime/usb.rs)

    The control endpoint's state machine, the descriptors and the bulk pair that
    carries the pipe.  The controller's registers and packet buffers are the record
    [UsbRegs] and three byte lists; [poll] serves one pending flag.  A function
    returns [None] where a slice would be out of range.

    The second half is the other side of the cable: transactions as a controller
    with [int_busy] set answers them from its registers (a pending flag holds every
    token off, a data packet is acknowledged whatever its toggle), with
    acknowledgements that may get lost.  The theorems: a control read delivers the
    descriptor; the bulk pair delivers every packet exactly once and in order. *)

From S2P Require Import Prelude.
From Stdlib Require Import String Ascii.
From stdpp Require Import list.
Local Open Scope Z_scope.

(** ** Registers, buffers and state *)

Inductive EpTog := DATA0 | DATA1.
Inductive EpResponse := EpAck | EpNak | EpStall.
Inductive UsbToken := TokOut | TokIn | TokSof | TokSetup.
(** [ep_tx_ctrl] and [ep_rx_ctrl]. *)
Record EpCtl := mkCtl { ec_res : EpResponse; ec_tog : EpTog }.
Record UsbFlags := mkFlags { fg_bus_rst : bool; fg_setup_act : bool; fg_transfer : bool; fg_suspend : bool }.
Record UsbStatus := mkStatus { st_endp : Z; st_token : UsbToken; st_tog_ok : bool }.

(** What the code reads and writes of the controller; [ep_config] is whether the
    bulk pair is enabled. *)
Record UsbRegs := mkUsbRegs {
  ur_high_speed : bool;
  ur_addr : Z;
  ur_len0 : nat;
  ur_tx0 : EpCtl;
  ur_rx0 : EpCtl;
  ur_ep1_on : bool;
  ur_len1 : nat;
  ur_tx1 : EpCtl;
  ur_rx1 : EpCtl;
  ur_max0 : nat;
  ur_max1 : nat;
  ur_fg : UsbFlags;
  ur_st : UsbStatus;
  ur_rx_len : nat }.
Definition set_ur_high_speed (x : bool) (r : UsbRegs) : UsbRegs := mkUsbRegs x (ur_addr r) (ur_len0 r) (ur_tx0 r) (ur_rx0 r) (ur_ep1_on r) (ur_len1 r) (ur_tx1 r) (ur_rx1 r) (ur_max0 r) (ur_max1 r) (ur_fg r) (ur_st r) (ur_rx_len r).
Definition set_ur_addr (x : Z) (r : UsbRegs) : UsbRegs := mkUsbRegs (ur_high_speed r) x (ur_len0 r) (ur_tx0 r) (ur_rx0 r) (ur_ep1_on r) (ur_len1 r) (ur_tx1 r) (ur_rx1 r) (ur_max0 r) (ur_max1 r) (ur_fg r) (ur_st r) (ur_rx_len r).
Definition set_ur_len0 (x : nat) (r : UsbRegs) : UsbRegs := mkUsbRegs (ur_high_speed r) (ur_addr r) x (ur_tx0 r) (ur_rx0 r) (ur_ep1_on r) (ur_len1 r) (ur_tx1 r) (ur_rx1 r) (ur_max0 r) (ur_max1 r) (ur_fg r) (ur_st r) (ur_rx_len r).
Definition set_ur_tx0 (x : EpCtl) (r : UsbRegs) : UsbRegs := mkUsbRegs (ur_high_speed r) (ur_addr r) (ur_len0 r) x (ur_rx0 r) (ur_ep1_on r) (ur_len1 r) (ur_tx1 r) (ur_rx1 r) (ur_max0 r) (ur_max1 r) (ur_fg r) (ur_st r) (ur_rx_len r).
Definition set_ur_rx0 (x : EpCtl) (r : UsbRegs) : UsbRegs := mkUsbRegs (ur_high_speed r) (ur_addr r) (ur_len0 r) (ur_tx0 r) x (ur_ep1_on r) (ur_len1 r) (ur_tx1 r) (ur_rx1 r) (ur_max0 r) (ur_max1 r) (ur_fg r) (ur_st r) (ur_rx_len r).
Definition set_ur_ep1_on (x : bool) (r : UsbRegs) : UsbRegs := mkUsbRegs (ur_high_speed r) (ur_addr r) (ur_len0 r) (ur_tx0 r) (ur_rx0 r) x (ur_len1 r) (ur_tx1 r) (ur_rx1 r) (ur_max0 r) (ur_max1 r) (ur_fg r) (ur_st r) (ur_rx_len r).
Definition set_ur_len1 (x : nat) (r : UsbRegs) : UsbRegs := mkUsbRegs (ur_high_speed r) (ur_addr r) (ur_len0 r) (ur_tx0 r) (ur_rx0 r) (ur_ep1_on r) x (ur_tx1 r) (ur_rx1 r) (ur_max0 r) (ur_max1 r) (ur_fg r) (ur_st r) (ur_rx_len r).
Definition set_ur_tx1 (x : EpCtl) (r : UsbRegs) : UsbRegs := mkUsbRegs (ur_high_speed r) (ur_addr r) (ur_len0 r) (ur_tx0 r) (ur_rx0 r) (ur_ep1_on r) (ur_len1 r) x (ur_rx1 r) (ur_max0 r) (ur_max1 r) (ur_fg r) (ur_st r) (ur_rx_len r).
Definition set_ur_rx1 (x : EpCtl) (r : UsbRegs) : UsbRegs := mkUsbRegs (ur_high_speed r) (ur_addr r) (ur_len0 r) (ur_tx0 r) (ur_rx0 r) (ur_ep1_on r) (ur_len1 r) (ur_tx1 r) x (ur_max0 r) (ur_max1 r) (ur_fg r) (ur_st r) (ur_rx_len r).
Definition set_ur_max0 (x : nat) (r : UsbRegs) : UsbRegs := mkUsbRegs (ur_high_speed r) (ur_addr r) (ur_len0 r) (ur_tx0 r) (ur_rx0 r) (ur_ep1_on r) (ur_len1 r) (ur_tx1 r) (ur_rx1 r) x (ur_max1 r) (ur_fg r) (ur_st r) (ur_rx_len r).
Definition set_ur_max1 (x : nat) (r : UsbRegs) : UsbRegs := mkUsbRegs (ur_high_speed r) (ur_addr r) (ur_len0 r) (ur_tx0 r) (ur_rx0 r) (ur_ep1_on r) (ur_len1 r) (ur_tx1 r) (ur_rx1 r) (ur_max0 r) x (ur_fg r) (ur_st r) (ur_rx_len r).
Definition set_ur_fg (x : UsbFlags) (r : UsbRegs) : UsbRegs := mkUsbRegs (ur_high_speed r) (ur_addr r) (ur_len0 r) (ur_tx0 r) (ur_rx0 r) (ur_ep1_on r) (ur_len1 r) (ur_tx1 r) (ur_rx1 r) (ur_max0 r) (ur_max1 r) x (ur_st r) (ur_rx_len r).
Definition set_ur_st (x : UsbStatus) (r : UsbRegs) : UsbRegs := mkUsbRegs (ur_high_speed r) (ur_addr r) (ur_len0 r) (ur_tx0 r) (ur_rx0 r) (ur_ep1_on r) (ur_len1 r) (ur_tx1 r) (ur_rx1 r) (ur_max0 r) (ur_max1 r) (ur_fg r) x (ur_rx_len r).
Definition set_ur_rx_len (x : nat) (r : UsbRegs) : UsbRegs := mkUsbRegs (ur_high_speed r) (ur_addr r) (ur_len0 r) (ur_tx0 r) (ur_rx0 r) (ur_ep1_on r) (ur_len1 r) (ur_tx1 r) (ur_rx1 r) (ur_max0 r) (ur_max1 r) (ur_fg r) (ur_st r) x.

Inductive Ep0 :=
| Ep0Idle
| DataIn (pos len : nat)
| StatusOut
| StatusIn.

Record UsbDevice := mkUsbDevice {
  ud_ep0 : Ep0;
  ud_ep0_tog : bool;
  ud_address_pending : option Z;
  ud_configured : bool;
  ud_tx_busy : bool;
  ud_tx_tog : bool;
  ud_rx_tog : bool;
  ud_rx_pending : option nat;
  ud_stage : list Z;
  ud_serial : list Z }.
Definition set_ud_ep0 (x : Ep0) (r : UsbDevice) : UsbDevice := mkUsbDevice x (ud_ep0_tog r) (ud_address_pending r) (ud_configured r) (ud_tx_busy r) (ud_tx_tog r) (ud_rx_tog r) (ud_rx_pending r) (ud_stage r) (ud_serial r).
Definition set_ud_ep0_tog (x : bool) (r : UsbDevice) : UsbDevice := mkUsbDevice (ud_ep0 r) x (ud_address_pending r) (ud_configured r) (ud_tx_busy r) (ud_tx_tog r) (ud_rx_tog r) (ud_rx_pending r) (ud_stage r) (ud_serial r).
Definition set_ud_address_pending (x : option Z) (r : UsbDevice) : UsbDevice := mkUsbDevice (ud_ep0 r) (ud_ep0_tog r) x (ud_configured r) (ud_tx_busy r) (ud_tx_tog r) (ud_rx_tog r) (ud_rx_pending r) (ud_stage r) (ud_serial r).
Definition set_ud_configured (x : bool) (r : UsbDevice) : UsbDevice := mkUsbDevice (ud_ep0 r) (ud_ep0_tog r) (ud_address_pending r) x (ud_tx_busy r) (ud_tx_tog r) (ud_rx_tog r) (ud_rx_pending r) (ud_stage r) (ud_serial r).
Definition set_ud_tx_busy (x : bool) (r : UsbDevice) : UsbDevice := mkUsbDevice (ud_ep0 r) (ud_ep0_tog r) (ud_address_pending r) (ud_configured r) x (ud_tx_tog r) (ud_rx_tog r) (ud_rx_pending r) (ud_stage r) (ud_serial r).
Definition set_ud_tx_tog (x : bool) (r : UsbDevice) : UsbDevice := mkUsbDevice (ud_ep0 r) (ud_ep0_tog r) (ud_address_pending r) (ud_configured r) (ud_tx_busy r) x (ud_rx_tog r) (ud_rx_pending r) (ud_stage r) (ud_serial r).
Definition set_ud_rx_tog (x : bool) (r : UsbDevice) : UsbDevice := mkUsbDevice (ud_ep0 r) (ud_ep0_tog r) (ud_address_pending r) (ud_configured r) (ud_tx_busy r) (ud_tx_tog r) x (ud_rx_pending r) (ud_stage r) (ud_serial r).
Definition set_ud_rx_pending (x : option nat) (r : UsbDevice) : UsbDevice := mkUsbDevice (ud_ep0 r) (ud_ep0_tog r) (ud_address_pending r) (ud_configured r) (ud_tx_busy r) (ud_tx_tog r) (ud_rx_tog r) x (ud_stage r) (ud_serial r).
Definition set_ud_stage (x : list Z) (r : UsbDevice) : UsbDevice := mkUsbDevice (ud_ep0 r) (ud_ep0_tog r) (ud_address_pending r) (ud_configured r) (ud_tx_busy r) (ud_tx_tog r) (ud_rx_tog r) (ud_rx_pending r) x (ud_serial r).
Definition set_ud_serial (x : list Z) (r : UsbDevice) : UsbDevice := mkUsbDevice (ud_ep0 r) (ud_ep0_tog r) (ud_address_pending r) (ud_configured r) (ud_tx_busy r) (ud_tx_tog r) (ud_rx_tog r) (ud_rx_pending r) (ud_stage r) x.

(** The device with its registers and DMA buffers. *)
Record Usb := mkUsb {
  us_dev : UsbDevice;
  us_regs : UsbRegs;
  us_ep0_buf : list Z;
  us_ep1_rx : list Z;
  us_ep1_tx : list Z }.
Definition set_us_dev (x : UsbDevice) (r : Usb) : Usb := mkUsb x (us_regs r) (us_ep0_buf r) (us_ep1_rx r) (us_ep1_tx r).
Definition set_us_regs (x : UsbRegs) (r : Usb) : Usb := mkUsb (us_dev r) x (us_ep0_buf r) (us_ep1_rx r) (us_ep1_tx r).
Definition set_us_ep0_buf (x : list Z) (r : Usb) : Usb := mkUsb (us_dev r) (us_regs r) x (us_ep1_rx r) (us_ep1_tx r).
Definition set_us_ep1_rx (x : list Z) (r : Usb) : Usb := mkUsb (us_dev r) (us_regs r) (us_ep0_buf r) x (us_ep1_tx r).
Definition set_us_ep1_tx (x : list Z) (r : Usb) : Usb := mkUsb (us_dev r) (us_regs r) (us_ep0_buf r) (us_ep1_rx r) x.
Definition on_dev (f : UsbDevice -> UsbDevice) (u : Usb) : Usb := set_us_dev (f (us_dev u)) u.
Definition on_regs (f : UsbRegs -> UsbRegs) (u : Usb) : Usb := set_us_regs (f (us_regs u)) u.
(** A control register written whole; an unnamed toggle is DATA0. *)
Definition res_only (r : EpResponse) : EpCtl := mkCtl r DATA0.
(** A modify that keeps the toggle. *)
Definition with_res (r : EpResponse) (c : EpCtl) : EpCtl := mkCtl r (ec_tog c).
Definition tog_of (b : bool) : EpTog := if b then DATA1 else DATA0.

(** ** Descriptors *)

Definition VID : Z := 4617.
Definition PID : Z := 1.
Definition EP0_MPS : nat := 64.
Definition BULK_MPS_HS : nat := Z.to_nat 512.
Definition BULK_MPS_FS : nat := 64.
Definition MS_VENDOR_CODE : Z := 32.
Definition DESC_DEVICE : Z := 1.
Definition DESC_CONFIG : Z := 2.
Definition DESC_STRING : Z := 3.
Definition DESC_QUALIFIER : Z := 6.
Definition DESC_OTHER_SPEED : Z := 7.
Definition DESC_BOS : Z := 15.
Definition MS_OS_DESC_LEN : nat := 10 + 20 + 132.

Definition ascii_bytes (s : string) : list Z := map (fun c => Z.of_N (N_of_ascii c)) (list_ascii_of_string s).
Definition le16 (v : Z) : list Z := to_le16 v.

Definition DEVICE_DESC : list Z :=
  [18; DESC_DEVICE; 16; 2; 0; 0; 0; Z.of_nat EP0_MPS] ++ le16 VID ++ le16 PID ++ [0; 1; 1; 2; 3; 1].
Definition QUALIFIER_DESC : list Z := [10; DESC_QUALIFIER; 0; 2; 0; 0; 0; Z.of_nat EP0_MPS; 1; 0].
Definition config_desc (mps : nat) : list Z :=
  [9; DESC_CONFIG; 32; 0; 1; 1; 0; 128; 250; 9; 4; 0; 0; 2; 255; 0; 0; 4] ++
  [7; 5; 1; 2] ++ le16 (Z.of_nat mps) ++ [0] ++ [7; 5; 129; 2] ++ le16 (Z.of_nat mps) ++ [0].
Definition BOS_DESC : list Z :=
  [5; DESC_BOS; 33; 0; 1; 28; 16; 5; 0; 223; 96; 221; 216; 137; 69; 199; 76; 156; 210; 101; 157; 158; 100; 138; 159; 0; 0; 3; 6] ++
  le16 (Z.of_nat MS_OS_DESC_LEN) ++ [MS_VENDOR_CODE; 0].
Definition wide (ascii : list Z) : list Z := flat_map (fun c => [c; 0]) ascii.
Definition ms_os_desc : list Z :=
  [10; 0; 0; 0; 0; 0; 3; 6] ++ le16 (Z.of_nat MS_OS_DESC_LEN) ++
  [20; 0; 3; 0] ++ ascii_bytes "WINUSB" ++ [0; 0] ++ replicate 8 0 ++
  le16 132 ++ [4; 0; 7; 0; 42; 0] ++ wide (ascii_bytes "DeviceInterfaceGUIDs" ++ [0]) ++
  le16 80 ++ wide (ascii_bytes "{9db9fbf2-52f6-4e87-9d3d-6e8e29ef6b5e}" ++ [0; 0]).
Definition STR_MANUFACTURER : list Z := ascii_bytes "OpenServoCore".
Definition STR_PRODUCT : list Z := ascii_bytes "osc-adapter-wchlinke".
Definition STR_INTERFACE : list Z := ascii_bytes "osc-host".

(** The serial string: the chip's three identity words in hexadecimal. *)
Definition hex_digit (n : Z) : Z := nth (Z.to_nat n) (ascii_bytes "0123456789abcdef") 0.
Definition hex_word (word : Z) : list Z :=
  map (fun i => hex_digit (Z.land (Z.shiftr word (28 - 4 * Z.of_nat i)) 15)) (seq 0 8).
Definition UsbDevice_new (uid : list Z) : UsbDevice :=
  mkUsbDevice Ep0Idle true None false false false false None (replicate 256 0) (flat_map hex_word uid).

(** ** The bulk pair's calls *)

Definition UsbDevice_mps (u : Usb) : nat := if ur_high_speed (us_regs u) then BULK_MPS_HS else BULK_MPS_FS.

(** The outer [option] is the slice, the inner one the pending packet. *)
Definition UsbDevice_rx (u : Usb) : option (option (list Z)) :=
  match ud_rx_pending (us_dev u) with
  | None => Some None
  | Some n => if Nat.ltb BULK_MPS_HS n then None else Some (Some (take n (us_ep1_rx u)))
  end.
Definition UsbDevice_rx_consume (u : Usb) : Usb :=
  match ud_rx_pending (us_dev u) with
  | None => u
  | Some _ => on_regs (fun r => set_ur_rx1 (with_res EpAck (ur_rx1 r)) r) (on_dev (set_ud_rx_pending None) u)
  end.
Definition UsbDevice_tx_ready (u : Usb) : bool := ud_configured (us_dev u) && negb (ud_tx_busy (us_dev u)).
Definition UsbDevice_tx (bytes : list Z) (u : Usb) : option Usb :=
  if Nat.ltb BULK_MPS_HS (length bytes) then None
  else
    let u := set_us_ep1_tx (splice 0 bytes (us_ep1_tx u)) u in
    let u := on_regs (fun r => set_ur_tx1 (mkCtl EpAck (tog_of (ud_tx_tog (us_dev u)))) (set_ur_len1 (length bytes) r)) u in
    Some (on_dev (set_ud_tx_busy true) u).

(** ** The control endpoint *)

Definition on_bus_reset (u : Usb) : Usb :=
  let u := on_regs (fun r =>
    set_ur_rx1 (res_only EpNak) (set_ur_tx1 (res_only EpNak) (set_ur_ep1_on false
      (set_ur_tx0 (res_only EpNak) (set_ur_rx0 (res_only EpNak) (set_ur_max0 EP0_MPS (set_ur_addr 0 r))))))) u in
  on_dev (fun d => set_ud_rx_pending None (set_ud_tx_busy false (set_ud_configured false
    (set_ud_address_pending None (set_ud_ep0 Ep0Idle d))))) u.

Definition stage_at (at_ : nat) (bytes : list Z) (u : Usb) : Usb := on_dev (fun d => set_ud_stage (splice at_ bytes (ud_stage d)) d) u.

Definition utf16_string (ascii : list Z) (u : Usb) : nat * Usb := (2 + 2 * length ascii, stage_at 2 (wide ascii) u)%nat.

Definition load_string (idx : Z) (u : Usb) : option (nat * Usb) :=
  '(n, u) ← (if idx =? 0 then Some (4%nat, stage_at 2 [9; 4] u)
             else if idx =? 1 then Some (utf16_string STR_MANUFACTURER u)
             else if idx =? 2 then Some (utf16_string STR_PRODUCT u)
             else if idx =? 3 then Some (utf16_string (ud_serial (us_dev u)) u)
             else if idx =? 4 then Some (utf16_string STR_INTERFACE u)
             else None);
  Some (n, stage_at 0 [u8 (Z.of_nat n); DESC_STRING] u).
Definition load_descriptor (kind idx : Z) (u : Usb) : option (nat * Usb) :=
  if kind =? DESC_DEVICE then Some (18%nat, stage_at 0 DEVICE_DESC u)
  else if kind =? DESC_CONFIG then Some (32%nat, stage_at 0 (config_desc (UsbDevice_mps u)) u)
  else if kind =? DESC_QUALIFIER then Some (10%nat, stage_at 0 QUALIFIER_DESC u)
  else if kind =? DESC_OTHER_SPEED then None
  else if kind =? DESC_BOS then Some (33%nat, stage_at 0 BOS_DESC u)
  else if kind =? DESC_STRING then load_string idx u
  else None.

Definition ep0_send_chunk (u : Usb) : option Usb :=
  match ud_ep0 (us_dev u) with
  | DataIn pos len =>
      if Nat.ltb len pos then None
      else
        let n := Nat.min (len - pos) EP0_MPS in
        chunk ← get_range (ud_stage (us_dev u)) pos (pos + n);
        let u := set_us_ep0_buf (splice 0 chunk (us_ep0_buf u)) u in
        let u := on_regs (fun r => set_ur_tx0 (mkCtl EpAck (tog_of (ud_ep0_tog (us_dev u)))) (set_ur_len0 n r)) u in
        Some (on_dev (fun d => set_ud_ep0_tog (negb (ud_ep0_tog d)) (set_ud_ep0 (DataIn (pos + n) len) d)) u)
  | _ => Some u
  end.
Definition ep0_stall (u : Usb) : Usb :=
  on_dev (set_ud_ep0 Ep0Idle) (on_regs (fun r => set_ur_rx0 (res_only EpStall) (set_ur_tx0 (res_only EpStall) r)) u).

Definition configure_ep1 (u : Usb) : Usb :=
  let mps := UsbDevice_mps u in
  let u := on_regs (fun r => set_ur_tx1 (mkCtl EpNak DATA0) (set_ur_rx1 (mkCtl EpAck DATA0) (set_ur_ep1_on true (set_ur_max1 mps r)))) u in
  on_dev (fun d => set_ud_configured true (set_ud_rx_pending None (set_ud_tx_busy false (set_ud_tx_tog false (set_ud_rx_tog false d))))) u.

(** The request's reply length, with what was staged for it; no value is a stall. *)
Definition setup_request (req_type request value index : Z) (u : Usb) : option (nat * Usb) :=
  if (req_type =? 128) && (request =? 6) then load_descriptor (Z.shiftr value 8) (Z.land value 255) u
  else if (128 <=? req_type) && (req_type <=? 130) && (request =? 0) then Some (2%nat, stage_at 0 [0; 0] u)
  else if (req_type =? 0) && (request =? 5) then Some (0%nat, on_dev (set_ud_address_pending (Some (Z.land value 127))) u)
  else if (req_type =? 0) && (request =? 9) then
    if value =? 0 then Some (0%nat, on_dev (set_ud_configured false) u)
    else if value =? 1 then Some (0%nat, configure_ep1 u)
    else None
  else if (req_type =? 128) && (request =? 8) then
    Some (1%nat, stage_at 0 [if ud_configured (us_dev u) then 1 else 0] u)
  else if (req_type =? 129) && (request =? 10) then Some (1%nat, stage_at 0 [0] u)
  else if (req_type =? 1) && (request =? 11) && (value =? 0) then Some (0%nat, u)
  else if (req_type =? 2) && (request =? 1) && (value =? 0) then
    Some (0%nat, if u8 index =? 1 then on_dev (set_ud_rx_tog false) u
                 else if u8 index =? 129 then on_dev (set_ud_tx_tog false) u else u)
  else if (req_type =? 192) && (request =? MS_VENDOR_CODE) && (index =? 7) then Some (length ms_os_desc, stage_at 0 ms_os_desc u)
  else None.

Definition on_setup (u : Usb) : option Usb :=
  let u := on_regs (fun r => set_ur_tx0 (res_only EpNak) (set_ur_rx0 (res_only EpNak) r)) u in
  match us_ep0_buf u with
  | req_type :: request :: v0 :: v1 :: i0 :: i1 :: l0 :: l1 :: _ =>
      let value := from_le16 v0 v1 in
      let index := from_le16 i0 i1 in
      let len := Z.to_nat (from_le16 l0 l1) in
      let u := on_dev (set_ud_ep0 Ep0Idle) u in
      match setup_request req_type request value index u with
      | None => Some (ep0_stall u)
      | Some (n, u) =>
          if Nat.eqb n 0 && Nat.eqb len 0 then
            let u := on_regs (fun r => set_ur_tx0 (mkCtl EpAck DATA1) (set_ur_len0 0%nat r)) u in
            Some (on_dev (set_ud_ep0 StatusIn) u)
          else ep0_send_chunk (on_dev (fun d => set_ud_ep0_tog true (set_ud_ep0 (DataIn 0 (Nat.min n len)) d)) u)
      end
  | _ => None
  end.

Definition on_ep0_transfer (token : UsbToken) (u : Usb) : option Usb :=
  match token, ud_ep0 (us_dev u) with
  | TokIn, DataIn pos len =>
      if Nat.ltb pos len then ep0_send_chunk u
      else
        let u := on_regs (fun r => set_ur_rx0 (mkCtl EpAck DATA1) (set_ur_tx0 (res_only EpNak) r)) u in
        Some (on_dev (set_ud_ep0 StatusOut) u)
  | TokIn, StatusIn =>
      let u := on_regs (fun r => set_ur_tx0 (res_only EpNak) r) u in
      let u := match ud_address_pending (us_dev u) with
               | Some addr => on_regs (set_ur_addr addr) (on_dev (set_ud_address_pending None) u)
               | None => u
               end in
      Some (on_dev (set_ud_ep0 Ep0Idle) u)
  | TokOut, StatusOut => Some (on_dev (set_ud_ep0 Ep0Idle) (on_regs (fun r => set_ur_rx0 (res_only EpNak) r) u))
  | _, _ => Some u
  end.

Definition on_ep1_transfer (token : UsbToken) (tog_ok : bool) (u : Usb) : Usb :=
  match token with
  | TokOut =>
      if negb tog_ok then u
      else
        let n := ur_rx_len (us_regs u) in
        let u := on_dev (fun d => set_ud_rx_tog (negb (ud_rx_tog d)) d) u in
        let u := on_regs (set_ur_rx1 (mkCtl EpNak (tog_of (ud_rx_tog (us_dev u))))) u in
        on_dev (set_ud_rx_pending (Some n)) u
  | TokIn =>
      let u := on_dev (fun d => set_ud_tx_tog (negb (ud_tx_tog d)) d) u in
      let u := on_regs (fun r => set_ur_tx1 (with_res EpNak (ur_tx1 r)) r) u in
      on_dev (set_ud_tx_busy false) u
  | _ => u
  end.

(** ** [poll]: at most one flag per call *)

Definition clear_flags (f : UsbFlags -> UsbFlags) (u : Usb) : Usb := on_regs (fun r => set_ur_fg (f (ur_fg r)) r) u.

Definition UsbDevice_poll (u : Usb) : option Usb :=
  let flag := ur_fg (us_regs u) in
  if fg_bus_rst flag then
    Some (clear_flags (fun f => mkFlags false (fg_setup_act f) (fg_transfer f) (fg_suspend f)) (on_bus_reset u))
  else if fg_setup_act flag then
    u ← on_setup u; Some (clear_flags (fun f => mkFlags (fg_bus_rst f) false false (fg_suspend f)) u)
  else if fg_transfer flag then
    let st := ur_st (us_regs u) in
    u ← (if st_endp st =? 0 then on_ep0_transfer (st_token st) u
         else if st_endp st =? 1 then Some (on_ep1_transfer (st_token st) (st_tog_ok st) u)
         else Some u);
    Some (clear_flags (fun f => mkFlags (fg_bus_rst f) (fg_setup_act f) false (fg_suspend f)) u)
  else if fg_suspend flag then
    Some (clear_flags (fun f => mkFlags (fg_bus_rst f) (fg_setup_act f) (fg_transfer f) false) u)
  else Some u.

(** ** The other side of the cable

    A pending flag holds every token off ([int_busy]). *)
Definition pending (u : Usb) : bool := let f := ur_fg (us_regs u) in fg_bus_rst f || fg_setup_act f || fg_transfer f.
Definition raise (st : UsbStatus) (len : nat) (u : Usb) : Usb :=
  on_regs (fun r => set_ur_fg (mkFlags false false true (fg_suspend (ur_fg r))) (set_ur_st st (set_ur_rx_len len r))) u.

(** A SETUP packet is always taken. *)
Definition host_setup (pkt : list Z) (u : Usb) : option Usb :=
  if pending u then None
  else Some (on_regs (fun r => set_ur_fg (mkFlags false true true (fg_suspend (ur_fg r))) r)
               (set_us_ep0_buf (splice 0 pkt (us_ep0_buf u)) u)).
(** The packet an IN token on the control endpoint gets, or nothing. *)
Definition host_in0 (u : Usb) : option (EpTog * list Z * Usb) :=
  match pending u, ec_res (ur_tx0 (us_regs u)) with
  | false, EpAck => Some (ec_tog (ur_tx0 (us_regs u)), take (ur_len0 (us_regs u)) (us_ep0_buf u), raise (mkStatus 0 TokIn true) 0 u)
  | _, _ => None
  end.
(** An empty OUT packet. *)
Definition host_out0 (u : Usb) : option Usb :=
  match pending u, ec_res (ur_rx0 (us_regs u)) with
  | false, EpAck => Some (raise (mkStatus 0 TokOut true) 0 u)
  | _, _ => None
  end.

(** A control read as a host does it: the data phase ends with a short packet or
    with the last byte asked for, then an empty OUT closes. *)
Fixpoint read_data (fuel want : nat) (u : Usb) : option (list (EpTog * list Z) * Usb) :=
  match fuel with
  | O => None
  | S fuel' =>
      '(t, p, u) ← host_in0 u;
      u ← UsbDevice_poll u;
      if Nat.ltb (length p) EP0_MPS || Nat.leb want (length p) then Some ([(t, p)], u)
      else '(ps, u) ← read_data fuel' (want - length p) u; Some ((t, p) :: ps, u)
  end.
Definition control_read (setup : list Z) (want : nat) (u : Usb) : option (option (list (EpTog * list Z)) * Usb) :=
  u ← host_setup setup u;
  u ← UsbDevice_poll u;
  match ec_res (ur_tx0 (us_regs u)) with
  | EpStall => Some (None, u)
  | _ =>
      '(ps, u) ← read_data (S want) want u;
      u ← host_out0 u;
      u ← UsbDevice_poll u;
      Some (Some ps, u)
  end.

(** What the device answers to reads. *)
Definition string_desc (ascii : list Z) : list Z := [u8 (Z.of_nat (2 + 2 * length ascii)); DESC_STRING] ++ wide ascii.
Definition descriptor (mps : nat) (serial : list Z) (kind idx : Z) : option (list Z) :=
  if kind =? DESC_DEVICE then Some DEVICE_DESC
  else if kind =? DESC_CONFIG then Some (config_desc mps)
  else if kind =? DESC_QUALIFIER then Some QUALIFIER_DESC
  else if kind =? DESC_BOS then Some BOS_DESC
  else if kind =? DESC_STRING then
    if idx =? 0 then Some [4; DESC_STRING; 9; 4]
    else if idx =? 1 then Some (string_desc STR_MANUFACTURER)
    else if idx =? 2 then Some (string_desc STR_PRODUCT)
    else if idx =? 3 then Some (string_desc serial)
    else if idx =? 4 then Some (string_desc STR_INTERFACE)
    else None
  else None.
Definition read_answer (mps : nat) (serial : list Z) (configured : bool) (req_type request value index : Z) : option (list Z) :=
  if (req_type =? 128) && (request =? 6) then descriptor mps serial (Z.shiftr value 8) (Z.land value 255)
  else if (req_type <=? 130) && (request =? 0) then Some [0; 0]
  else if (req_type =? 128) && (request =? 8) then Some [if configured then 1 else 0]
  else if (req_type =? 129) && (request =? 10) then Some [0]
  else if (req_type =? 192) && (request =? MS_VENDOR_CODE) && (index =? 7) then Some ms_os_desc
  else None.

(** Everything that belongs to the bulk pair, and the address. *)
Definition bulk_view (u : Usb) :=
  (ud_configured (us_dev u), ud_tx_busy (us_dev u), ud_tx_tog (us_dev u), ud_rx_tog (us_dev u), ud_rx_pending (us_dev u),
   (ur_ep1_on (us_regs u), ur_len1 (us_regs u), ur_tx1 (us_regs u), ur_rx1 (us_regs u)), (us_ep1_rx u, us_ep1_tx u), ur_high_speed (us_regs u)).

(** The buffers have their sizes and a data phase stays inside the stage. *)
Record ctrl_ok (u : Usb) : Prop := mkCtrlOk {
  co_buf : length (us_ep0_buf u) = EP0_MPS;
  co_stage : length (ud_stage (us_dev u)) = 256%nat;
  co_serial : length (ud_serial (us_dev u)) = 24%nat;
  co_pos : match ud_ep0 (us_dev u) with DataIn pos len => (pos <= len <= 256)%nat | _ => True end }.

(** ** Proof support *)

Ltac usb_cbn := cbn [ud_ep0 ud_ep0_tog ud_address_pending ud_configured ud_tx_busy ud_tx_tog ud_rx_tog ud_rx_pending ud_stage ud_serial ur_high_speed ur_addr ur_len0 ur_tx0 ur_rx0 ur_ep1_on ur_len1 ur_tx1 ur_rx1 ur_max0 ur_max1 ur_fg ur_st ur_rx_len us_dev us_regs us_ep0_buf us_ep1_rx us_ep1_tx set_ud_ep0 set_ud_ep0_tog set_ud_address_pending set_ud_configured set_ud_tx_busy set_ud_tx_tog set_ud_rx_tog set_ud_rx_pending set_ud_stage set_ud_serial set_ur_high_speed set_ur_addr set_ur_len0 set_ur_tx0 set_ur_rx0 set_ur_ep1_on set_ur_len1 set_ur_tx1 set_ur_rx1 set_ur_max0 set_ur_max1 set_ur_fg set_ur_st set_ur_rx_len set_us_dev set_us_regs set_us_ep0_buf set_us_ep1_rx set_us_ep1_tx on_dev on_regs ec_res ec_tog fg_bus_rst fg_setup_act fg_transfer fg_suspend st_endp st_token st_tog_ok res_only with_res clear_flags mbind option_bind fst snd].
Ltac usb_cbn_in H := cbn [ud_ep0 ud_ep0_tog ud_address_pending ud_configured ud_tx_busy ud_tx_tog ud_rx_tog ud_rx_pending ud_stage ud_serial ur_high_speed ur_addr ur_len0 ur_tx0 ur_rx0 ur_ep1_on ur_len1 ur_tx1 ur_rx1 ur_max0 ur_max1 ur_fg ur_st ur_rx_len us_dev us_regs us_ep0_buf us_ep1_rx us_ep1_tx set_ud_ep0 set_ud_ep0_tog set_ud_address_pending set_ud_configured set_ud_tx_busy set_ud_tx_tog set_ud_rx_tog set_ud_rx_pending set_ud_stage set_ud_serial set_ur_high_speed set_ur_addr set_ur_len0 set_ur_tx0 set_ur_rx0 set_ur_ep1_on set_ur_len1 set_ur_tx1 set_ur_rx1 set_ur_max0 set_ur_max1 set_ur_fg set_ur_st set_ur_rx_len set_us_dev set_us_regs set_us_ep0_buf set_us_ep1_rx set_us_ep1_tx on_dev on_regs ec_res ec_tog fg_bus_rst fg_setup_act fg_transfer fg_suspend st_endp st_token st_tog_ok res_only with_res clear_flags mbind option_bind fst snd] in H.

Lemma splice_front {A} (s d : list A) : (length s <= length d)%nat -> take (length s) (splice 0 s d) = s.
Proof. intros Hl. unfold splice. by rewrite take_0, app_nil_l, take_app_length. Qed.
Lemma take_splice_front {A} n (s d : list A) : (n <= length s)%nat -> take n (splice 0 s d) = take n s.
Proof. intros Hn. unfold splice. by rewrite take_0, app_nil_l, take_app_le. Qed.
Lemma length_wide l : length (wide l) = (2 * length l)%nat.
Proof. induction l as [|x l IH]; [done|]. cbn. unfold wide in IH. rewrite IH. lia. Qed.

Lemma length_stage_at i l u : (i + length l <= length (ud_stage (us_dev u)))%nat ->
  length (ud_stage (us_dev (stage_at i l u))) = length (ud_stage (us_dev u)).
Proof. intros Hl. unfold stage_at. usb_cbn. by apply length_splice. Qed.

(** A stage whose first bytes are the reply, the rest of the device as it was. *)
Definition staged (u : Usb) (d : list Z) (r : option (nat * Usb)) : Prop :=
  exists u', r = Some (length d, u') /\ take (length d) (ud_stage (us_dev u')) = d /\
    length (ud_stage (us_dev u')) = 256%nat /\ exists s, u' = on_dev (set_ud_stage s) u.

Lemma staged_front u d n : length (ud_stage (us_dev u)) = 256%nat -> (length d <= 256)%nat -> n = length d ->
  staged u d (Some (n, stage_at 0 d u)).
Proof.
  intros Hs Hd ->. exists (stage_at 0 d u). split; [done|]. split; [|split].
  - unfold stage_at. usb_cbn. apply splice_front. lia.
  - rewrite length_stage_at; [done|cbn; lia].
  - by eexists.
Qed.
Lemma staged_string u l : length (ud_stage (us_dev u)) = 256%nat -> (length l <= 100)%nat ->
  staged u (string_desc l) (let '(n, u) := utf16_string l u in Some (n, stage_at 0 [u8 (Z.of_nat n); DESC_STRING] u)).
Proof.
  intros Hs Hl. unfold utf16_string. cbv beta iota zeta. pose proof (length_wide l) as Hw.
  eexists. split; [f_equal; f_equal; unfold string_desc; rewrite length_app, Hw; cbn; lia|].
  split; [|split; [|by eexists]].
  - unfold stage_at, string_desc. usb_cbn. rewrite length_app. cbn [length]. unfold splice. rewrite take_0, app_nil_l. cbn [length].
    rewrite take_app_ge by (cbn; lia). cbn [length]. f_equal. rewrite drop_app_ge by (rewrite length_take; lia).
    rewrite length_take, Nat.min_l by lia. change (0 + 2 - 2)%nat with 0%nat. rewrite drop_0.
    replace (2 + length (wide l) - 2)%nat with (length (wide l)) by lia. by rewrite take_app_length.
  - rewrite !length_stage_at; [done| |]; rewrite ?length_stage_at; rewrite ?Hw; cbn; lia.
Qed.

(** A reply fits the stage and is not a whole number of packets, so its last packet
    is short. *)
Definition sized (d : list Z) : Prop := (0 < length d <= 256)%nat /\ (length d mod EP0_MPS <> 0)%nat.
Definition serves_read (u : Usb) (a : option (list Z)) (r : option (nat * Usb)) : Prop :=
  match a with Some d => staged u d r /\ sized d | None => r = None end.

Lemma serves_front u d n : length (ud_stage (us_dev u)) = 256%nat -> sized d -> n = length d -> serves_read u (Some d) (Some (n, stage_at 0 d u)).
Proof. intros Hs Hd Hn. split; [|done]. apply staged_front; [done|by destruct Hd as [[] _]|done]. Qed.
Lemma serves_string u l : length (ud_stage (us_dev u)) = 256%nat -> (length l <= 30)%nat ->
  serves_read u (Some (string_desc l)) (let '(n, u) := utf16_string l u in Some (n, stage_at 0 [u8 (Z.of_nat n); DESC_STRING] u)).
Proof.
  intros Hs Hl. split; [apply staged_string; [done|lia]|]. unfold sized, string_desc, EP0_MPS.
  rewrite length_app, length_wide. cbn [length]. rewrite Nat.mod_small by lia. lia.
Qed.

Ltac sized_tac := split; vm_compute; first [lia|done].

Lemma load_descriptor_serves u kind idx : length (ud_stage (us_dev u)) = 256%nat -> length (ud_serial (us_dev u)) = 24%nat ->
  serves_read u (descriptor (UsbDevice_mps u) (ud_serial (us_dev u)) kind idx) (load_descriptor kind idx u).
Proof.
  intros Hs Hse. unfold descriptor, load_descriptor.
  destruct (kind =? DESC_DEVICE); [apply serves_front; [done|sized_tac|done]|].
  destruct (kind =? DESC_CONFIG); [apply serves_front; [done|sized_tac|done]|].
  destruct (kind =? DESC_QUALIFIER); [apply serves_front; [done|sized_tac|done]|].
  destruct (kind =? DESC_OTHER_SPEED) eqn:Eo; [zbool; subst; done|].
  destruct (kind =? DESC_BOS); [apply serves_front; [done|sized_tac|done]|].
  destruct (kind =? DESC_STRING); [|done]. unfold load_string.
  destruct (idx =? 0).
  { cbn [mbind option_bind]. split; [|sized_tac]. destruct (staged_string u [2; 4] Hs ltac:(cbn; lia)) as (u' & E & _).
    eexists. split; [done|]. split; [|split; [|by eexists]].
    - unfold stage_at. usb_cbn. unfold splice. destruct (ud_stage (us_dev u)) as [|x [|y s]]; [done|done|]. reflexivity.
    - rewrite !length_stage_at; rewrite ?length_stage_at; cbn; lia. }
  destruct (idx =? 1); [apply serves_string; [done|cbn; lia]|].
  destruct (idx =? 2); [apply serves_string; [done|cbn; lia]|].
  destruct (idx =? 3); [apply serves_string; [done|lia]|].
  destruct (idx =? 4); [apply serves_string; [done|cbn; lia]|done].
Qed.

Lemma setup_read t r value index u : 128 <= t -> length (ud_stage (us_dev u)) = 256%nat -> length (ud_serial (us_dev u)) = 24%nat ->
  serves_read u (read_answer (UsbDevice_mps u) (ud_serial (us_dev u)) (ud_configured (us_dev u)) t r value index)
    (setup_request t r value index u).
Proof.
  intros Ht Hs Hse. unfold read_answer, setup_request.
  assert ((128 <=? t) = true) as -> by lia.
  replace (t =? 0) with false by lia. replace (t =? 1) with false by lia. replace (t =? 2) with false by lia. cbn [andb].
  destruct ((t =? 128) && (r =? 6)); [by apply load_descriptor_serves|].
  destruct ((t <=? 130) && (r =? 0)); [apply serves_front; [done|sized_tac|done]|].
  destruct ((t =? 128) && (r =? 8)); [apply serves_front; [done|sized_tac|done]|].
  destruct ((t =? 129) && (r =? 10)); [apply serves_front; [done|sized_tac|done]|].
  destruct ((t =? 192) && (r =? MS_VENDOR_CODE) && (index =? 7)); [|done].
  apply serves_front; [done|sized_tac|done].
Qed.

(** *** The data phase *)

(** The chunk from [p] is armed with toggle [b]. *)
Record armed (p len : nat) (b : bool) (u : Usb) : Prop := mkArmed {
  ar_len : (p <= len <= 256)%nat;
  ar_state : ud_ep0 (us_dev u) = DataIn (p + Nat.min (len - p) EP0_MPS) len;
  ar_tx : ur_tx0 (us_regs u) = mkCtl EpAck (tog_of b);
  ar_n : ur_len0 (us_regs u) = Nat.min (len - p) EP0_MPS;
  ar_buf : take (Nat.min (len - p) EP0_MPS) (us_ep0_buf u) = take (Nat.min (len - p) EP0_MPS) (drop p (ud_stage (us_dev u)));
  ar_tog : ud_ep0_tog (us_dev u) = negb b }.

Definition flags_of (u : Usb) : UsbFlags := ur_fg (us_regs u).
Definition st_of (u : Usb) : UsbStatus := ur_st (us_regs u).

Lemma send_chunk_arms u p len : ctrl_ok u -> ud_ep0 (us_dev u) = DataIn p len ->
  exists u', ep0_send_chunk u = Some u' /\ armed p len (ud_ep0_tog (us_dev u)) u' /\ ctrl_ok u' /\
    bulk_view u' = bulk_view u /\ ud_stage (us_dev u') = ud_stage (us_dev u) /\ flags_of u' = flags_of u /\ ur_addr (us_regs u') = ur_addr (us_regs u).
Proof.
  intros [Hb Hs Hse Hp] E. rewrite E in Hp. unfold ep0_send_chunk. rewrite E.
  rewrite (proj2 (Nat.ltb_ge _ _)) by lia. set (n := Nat.min (len - p) EP0_MPS).
  assert (n <= EP0_MPS)%nat by lia. rewrite get_range_ok by lia.
  replace (p + n - p)%nat with n by lia. cbn [mbind option_bind]. eexists. split; [done|].
  assert (length (take n (drop p (ud_stage (us_dev u)))) = n) as Hl by (rewrite length_take, length_drop; lia).
  split; [|split; [|by repeat split]].
  - constructor; usb_cbn; try done. rewrite take_splice_front by lia. rewrite take_take. f_equal. lia.
  - constructor; usb_cbn; [by rewrite length_splice by lia|done|done|lia].
Qed.

Fixpoint toggles (b : bool) (n : nat) : list EpTog := match n with O => [] | S n' => tog_of b :: toggles (negb b) n' end.

(** What a transaction on the control endpoint leaves alone. *)
Definition spares_bulk (u u' : Usb) : Prop := bulk_view u' = bulk_view u /\ ur_addr (us_regs u') = ur_addr (us_regs u).

Lemma quiet_flags u : pending u = false -> flags_of u = mkFlags false false false (fg_suspend (flags_of u)).
Proof. unfold pending, flags_of. destruct (ur_fg (us_regs u)) as [[] [] [] s]; done. Qed.

Lemma raise_view st n u : bulk_view (raise st n u) = bulk_view u /\ us_dev (raise st n u) = us_dev u /\ us_ep0_buf (raise st n u) = us_ep0_buf u.
Proof. done. Qed.
Lemma raise_ctrl st n u : ctrl_ok u -> ctrl_ok (raise st n u).
Proof. by intros []. Qed.
Lemma clear_ctrl f u : ctrl_ok u -> ctrl_ok (clear_flags f u).
Proof. by intros []. Qed.

(** A served EP0 token: the handler runs, the flag is cleared. *)
Lemma poll_ep0 tok n u u' : on_ep0_transfer tok (raise (mkStatus 0 tok true) n u) = Some u' ->
  flags_of u' = flags_of (raise (mkStatus 0 tok true) n u) ->
  exists u2, UsbDevice_poll (raise (mkStatus 0 tok true) n u) = Some u2 /\ pending u2 = false /\
    us_dev u2 = us_dev u' /\ us_ep0_buf u2 = us_ep0_buf u' /\ bulk_view u2 = bulk_view u' /\
    (exists f, us_regs u2 = set_ur_fg f (us_regs u')) /\ (ctrl_ok u' -> ctrl_ok u2).
Proof.
  intros Et Hf. unfold UsbDevice_poll. change (ur_fg (us_regs (raise ?s ?n ?u))) with (mkFlags false false true (fg_suspend (ur_fg (us_regs u)))).
  cbn [fg_bus_rst fg_setup_act fg_transfer]. change (ur_st (us_regs (raise ?s ?n ?u))) with s. cbn [st_endp st_token st_tog_ok Z.eqb].
  rewrite Et. cbn [mbind option_bind]. eexists. split; [done|]. unfold flags_of in Hf.
  assert (pending (clear_flags (fun f => mkFlags (fg_bus_rst f) (fg_setup_act f) false (fg_suspend f)) u') = false) as ->.
  { unfold pending. usb_cbn. rewrite Hf. done. }
  repeat (split; [done|]). split; [by eexists|apply clear_ctrl].
Qed.

Lemma host_in0_armed p len b u : armed p len b u -> pending u = false ->
  host_in0 u = Some (tog_of b, take (Nat.min (len - p) EP0_MPS) (drop p (ud_stage (us_dev u))), raise (mkStatus 0 TokIn true) 0 u).
Proof. intros [Hl Hs Ht Hn Hb Hg] Hq. unfold host_in0. rewrite Hq, Ht. cbn [ec_res ec_tog]. by rewrite Hn, Hb. Qed.

Lemma armed_next p len b u : armed p len b u -> ctrl_ok u -> pending u = false ->
  exists u2, UsbDevice_poll (raise (mkStatus 0 TokIn true) 0 u) = Some u2 /\ pending u2 = false /\ ctrl_ok u2 /\ spares_bulk u u2 /\
    ud_stage (us_dev u2) = ud_stage (us_dev u) /\
    if Nat.ltb EP0_MPS (len - p) then armed (p + EP0_MPS) len (negb b) u2
    else ud_ep0 (us_dev u2) = StatusOut /\ ur_rx0 (us_regs u2) = mkCtl EpAck DATA1.
Proof.
  intros Ha Hc Hq. pose proof Ha as [Hl Hs Ht Hn Hb Hg]. set (w := raise (mkStatus 0 TokIn true) 0 u). destruct (Nat.ltb_spec EP0_MPS (len - p)) as [Hlt|Hge].
  - rewrite Nat.min_r in Hs by lia. destruct (send_chunk_arms w (p + EP0_MPS) len) as (u' & Es & Ha' & Hc' & Hv & Hst & Hf & Had);
      [by apply raise_ctrl|done|]. destruct (poll_ep0 TokIn 0 u u') as (u2 & E2 & Q2 & Ed & Eb & Ev & (f & Er) & Hc2).
    { unfold on_ep0_transfer. change (us_dev (raise ?s ?n ?u)) with (us_dev u). rewrite Hs. by rewrite (proj2 (Nat.ltb_lt _ _)) by lia. }
    { done. }
    exists u2. split; [done|]. split; [done|]. split; [by apply Hc2|]. split; [split; [by rewrite Ev, Hv|rewrite Er; usb_cbn; by rewrite Had]|].
    split; [by rewrite Ed, Hst|]. destruct Ha' as [H1 H2 H3 H4 H5 H6]. change (us_dev w) with (us_dev u) in H6. rewrite Hg in *.
    constructor; rewrite ?Ed, ?Eb, ?Er; usb_cbn; try done.
    change (us_dev w) with (us_dev u) in H3. by rewrite Hg in H3.
  - rewrite Nat.min_l in Hs by lia. replace (p + (len - p))%nat with len in Hs by lia.
    destruct (poll_ep0 TokIn 0 u (on_dev (set_ud_ep0 StatusOut) (on_regs (fun r => set_ur_rx0 (mkCtl EpAck DATA1) (set_ur_tx0 (res_only EpNak) r)) w)))
      as (u2 & E2 & Q2 & Ed & Eb & Ev & (f & Er) & Hc2).
    { unfold on_ep0_transfer. change (us_dev (raise ?s ?n ?u)) with (us_dev u). rewrite Hs. by rewrite (proj2 (Nat.ltb_ge _ _)) by lia. }
    { done. }
    exists u2. split; [done|]. split; [done|]. split; [apply Hc2; by destruct Hc|]. split; [split; [by rewrite Ev|by rewrite Er]|].
    split; [by rewrite Ed|]. by rewrite Ed, Er.
Qed.

Lemma read_data_ok : forall fuel p len want b u, armed p len b u -> ctrl_ok u -> pending u = false ->
  (len - p <= want)%nat -> (len - p = want \/ (len - p) mod EP0_MPS <> 0)%nat -> (len - p < fuel)%nat ->
  exists ps u', read_data fuel want u = Some (ps, u') /\ concat (map snd ps) = take (len - p) (drop p (ud_stage (us_dev u))) /\
    map fst ps = toggles b (length ps) /\ ud_ep0 (us_dev u') = StatusOut /\ ur_rx0 (us_regs u') = mkCtl EpAck DATA1 /\
    pending u' = false /\ ctrl_ok u' /\ spares_bulk u u'.
Proof.
  induction fuel as [|fuel IH]; intros p len want b u Ha Hc Hq Hw Hend Hf; [lia|].
  pose proof (ar_len _ _ _ _ Ha) as Hl. pose proof (co_stage _ Hc) as Hs. cbn [read_data]. rewrite (host_in0_armed _ _ _ _ Ha Hq). cbn [mbind option_bind].
  destruct (armed_next _ _ _ _ Ha Hc Hq) as (u2 & E2 & Q2 & C2 & V2 & S2 & Hn). rewrite E2. cbn [mbind option_bind].
  rewrite length_take, length_drop, Nat.min_l by lia. unfold EP0_MPS in *.
  destruct (Nat.ltb_spec 64 (len - p)) as [Hlt|Hge].
  - rewrite Nat.min_r by lia. change (Nat.ltb 64 64) with false. rewrite (proj2 (Nat.leb_gt _ _)) by lia. cbn [orb].
    destruct (IH (p + 64)%nat len (want - 64)%nat (negb b) u2 Hn C2 Q2) as (ps & u3 & E3 & D3 & T3 & Z3 & X3 & Q3 & C3 & V3); [lia| |lia|].
    { destruct Hend as [?|Hm]; [left; lia|right]. intros Hm2. apply Hm. replace (len - p)%nat with (len - (p + 64) + 1 * 64)%nat by lia.
      by rewrite Nat.Div0.mod_add. }
    rewrite E3. cbn [mbind option_bind]. eexists _, u3. split; [done|]. split; [|split; [|split_and!; try done; destruct V2, V3; split; congruence]].
    + cbn [map snd concat]. rewrite D3, S2. rewrite <- (drop_drop _ p 64) || rewrite <- drop_drop.
      rewrite <- (take_drop 64 (drop p (ud_stage (us_dev u)))) at 3. rewrite take_app_ge by (rewrite length_take, length_drop; lia).
      f_equal. rewrite length_take, length_drop, Nat.min_l by lia. f_equal. lia.
    + cbn [map fst length toggles]. by rewrite T3.
  - rewrite (Nat.min_l (len - p)) by lia.
    assert (Nat.ltb (len - p) 64 || Nat.leb want (len - p) = true) as ->.
    { destruct (Nat.ltb_spec (len - p) 64); [done|]. cbn. apply Nat.leb_le. destruct Hend as [?|Hm]; [lia|]. exfalso. apply Hm.
      by replace (len - p)%nat with 64%nat by lia. }
    destruct Hn as [Hz Hx]. eexists _, u2. split; [done|]. cbn [map snd concat fst length toggles]. rewrite app_nil_r. by split_and!.
Qed.

(** *** A SETUP packet is served *)

Definition setup_bytes (t r v0 v1 i0 i1 l0 l1 : Z) : list Z := [t; r; v0; v1; i0; i1; l0; l1].
(** The device after the packet and before the request is looked at. *)
Definition at_setup (pkt : list Z) (u : Usb) : Usb :=
  on_dev (set_ud_ep0 Ep0Idle) (on_regs (fun r => set_ur_tx0 (res_only EpNak) (set_ur_rx0 (res_only EpNak) r))
    (on_regs (fun r => set_ur_fg (mkFlags false true true (fg_suspend (ur_fg r))) r) (set_us_ep0_buf (splice 0 pkt (us_ep0_buf u)) u))).

Lemma at_setup_ok pkt u : ctrl_ok u -> length pkt = 8%nat -> ctrl_ok (at_setup pkt u) /\ spares_bulk u (at_setup pkt u).
Proof.
  intros [Hb Hs Hse Hp] Hl. split; [|done]. constructor; try done. unfold at_setup. usb_cbn. rewrite length_splice; [done|]. unfold EP0_MPS in Hb. lia.
Qed.

Lemma poll_setup t r v0 v1 i0 i1 l0 l1 u u1 : pending u = false ->
  host_setup (setup_bytes t r v0 v1 i0 i1 l0 l1) u = Some u1 ->
  UsbDevice_poll u1 =
    (u2 ← match setup_request t r (from_le16 v0 v1) (from_le16 i0 i1) (at_setup (setup_bytes t r v0 v1 i0 i1 l0 l1) u) with
          | None => Some (ep0_stall (at_setup (setup_bytes t r v0 v1 i0 i1 l0 l1) u))
          | Some (n, u2) =>
              if Nat.eqb n 0 && Nat.eqb (Z.to_nat (from_le16 l0 l1)) 0 then
                Some (on_dev (set_ud_ep0 StatusIn) (on_regs (fun r => set_ur_tx0 (mkCtl EpAck DATA1) (set_ur_len0 0%nat r)) u2))
              else ep0_send_chunk (on_dev (fun d => set_ud_ep0_tog true (set_ud_ep0 (DataIn 0 (Nat.min n (Z.to_nat (from_le16 l0 l1)))) d)) u2)
          end;
     Some (clear_flags (fun f => mkFlags (fg_bus_rst f) false false (fg_suspend f)) u2)).
Proof.
  intros Hq Hh. unfold host_setup in Hh. rewrite Hq in Hh. injection Hh as <-. unfold UsbDevice_poll.
  match goal with |- context [ur_fg (us_regs ?x)] => change (ur_fg (us_regs x)) with (mkFlags false true true (fg_suspend (ur_fg (us_regs u)))) end.
  cbn [fg_bus_rst fg_setup_act]. unfold on_setup. unfold at_setup.
  change (us_ep0_buf (on_regs ?f ?x)) with (us_ep0_buf x). change (us_ep0_buf (on_regs ?f ?x)) with (us_ep0_buf x).
  change (us_ep0_buf (set_us_ep0_buf ?b ?x)) with b. unfold setup_bytes at 1. unfold splice at 1. rewrite take_0. cbn [app]. done.
Qed.

(** The closing OUT. *)
Lemma status_out_ok u : ud_ep0 (us_dev u) = StatusOut -> ur_rx0 (us_regs u) = mkCtl EpAck DATA1 -> pending u = false -> ctrl_ok u ->
  exists u', host_out0 u = Some (raise (mkStatus 0 TokOut true) 0 u) /\ UsbDevice_poll (raise (mkStatus 0 TokOut true) 0 u) = Some u' /\
    ud_ep0 (us_dev u') = Ep0Idle /\ pending u' = false /\ ctrl_ok u' /\ spares_bulk u u'.
Proof.
  intros Hz Hx Hq Hc.
  destruct (poll_ep0 TokOut 0 u (on_dev (set_ud_ep0 Ep0Idle) (on_regs (fun r => set_ur_rx0 (res_only EpNak) r) (raise (mkStatus 0 TokOut true) 0 u))))
    as (u6 & E6 & Q6 & Ed & Eb & Ev & (f & Er) & Hc6); [unfold on_ep0_transfer; change (us_dev (raise ?s ?n ?u)) with (us_dev u); by rewrite Hz|done|].
  exists u6. split; [unfold host_out0; by rewrite Hq, Hx|]. split; [done|]. split; [by rewrite Ed|]. split; [done|].
  split; [apply Hc6; by destruct Hc|]. split; [by rewrite Ev|by rewrite Er].
Qed.

(** The reply is armed once the request has been looked up. *)
Lemma setup_arms pkt u s n want : ctrl_ok (at_setup pkt u) -> length s = 256%nat -> (n <= 256)%nat ->
  exists u', ep0_send_chunk (on_dev (fun d => set_ud_ep0_tog true (set_ud_ep0 (DataIn 0 (Nat.min n want)) d)) (on_dev (set_ud_stage s) (at_setup pkt u))) = Some u' /\
    let u2 := clear_flags (fun f => mkFlags (fg_bus_rst f) false false (fg_suspend f)) u' in
    armed 0 (Nat.min n want) true u2 /\ pending u2 = false /\ ctrl_ok u2 /\ ud_stage (us_dev u2) = s /\ spares_bulk (at_setup pkt u) u2.
Proof.
  intros [Hb Hs Hse Hp] Hl Hn.
  destruct (send_chunk_arms (on_dev (fun d => set_ud_ep0_tog true (set_ud_ep0 (DataIn 0 (Nat.min n want)) d)) (on_dev (set_ud_stage s) (at_setup pkt u)))
    0 (Nat.min n want)) as (u3 & E3 & A3 & C3 & V3 & S3 & F3 & D3); [constructor; usb_cbn; try done; lia|done|].
  exists u3. split; [done|]. cbv zeta. split; [by destruct A3|]. unfold flags_of in F3. split; [unfold pending; usb_cbn; by rewrite F3|].
  split; [by apply clear_ctrl|]. split; [exact S3|]. split; [exact V3|exact D3].
Qed.

(** A control read delivers the descriptor.  The host asks for at most [want]
    bytes with any device-to-host request, on a device whose control endpoint is in
    any state: if the device knows the request, the host receives exactly the first
    [want] bytes of the answer, in packets that alternate DATA1 and DATA0, closes
    with an empty OUT, and the endpoint is idle; otherwise the request stalls.  In
    both cases the bulk pair and the address are untouched. *)
Theorem control_read_serves t r v0 v1 i0 i1 l0 l1 u :
  ctrl_ok u -> pending u = false -> 128 <= t -> (0 < Z.to_nat (from_le16 l0 l1))%nat ->
  let want := Z.to_nat (from_le16 l0 l1) in
  match read_answer (UsbDevice_mps u) (ud_serial (us_dev u)) (ud_configured (us_dev u)) t r (from_le16 v0 v1) (from_le16 i0 i1) with
  | Some d => exists ps u', control_read (setup_bytes t r v0 v1 i0 i1 l0 l1) want u = Some (Some ps, u') /\
      concat (map snd ps) = take want d /\ map fst ps = toggles true (length ps) /\
      ud_ep0 (us_dev u') = Ep0Idle /\ pending u' = false /\ ctrl_ok u' /\ spares_bulk u u'
  | None => exists u', control_read (setup_bytes t r v0 v1 i0 i1 l0 l1) want u = Some (None, u') /\
      ud_ep0 (us_dev u') = Ep0Idle /\ pending u' = false /\ ctrl_ok u' /\ spares_bulk u u'
  end.
Proof.
  intros Hc Hq Ht Hl want. set (pkt := setup_bytes t r v0 v1 i0 i1 l0 l1). destruct (at_setup_ok pkt u Hc eq_refl) as [Hca Hva].
  assert (exists u1, host_setup pkt u = Some u1) as [u1 Eh] by (unfold host_setup; rewrite Hq; by eexists).
  pose proof (poll_setup _ _ _ _ _ _ _ _ _ _ Hq Eh) as Ep. fold pkt want in Ep.
  pose proof (setup_read t r (from_le16 v0 v1) (from_le16 i0 i1) (at_setup pkt u) Ht (co_stage _ Hca) (co_serial _ Hca)) as Hr.
  change (UsbDevice_mps (at_setup pkt u)) with (UsbDevice_mps u) in Hr.
  change (ud_serial (us_dev (at_setup pkt u))) with (ud_serial (us_dev u)) in Hr.
  change (ud_configured (us_dev (at_setup pkt u))) with (ud_configured (us_dev u)) in Hr.
  unfold control_read. rewrite Eh. cbn [mbind option_bind].
  destruct (read_answer _ _ _ _ _ _ _) as [d|].
  - destruct Hr as [(u2 & E2 & Hd & Hs2 & (s & ->)) [Hsz Hsm]]. rewrite E2 in Ep.
    rewrite (proj2 (Nat.eqb_neq (length d) 0)) in Ep by lia. cbn [andb] in Ep.
    destruct (setup_arms pkt u s (length d) want Hca Hs2) as (u3 & E3 & A4 & Q4 & C4 & S4 & V4); [lia|].
    rewrite E3 in Ep. cbn [mbind option_bind] in Ep. rewrite Ep. cbn [mbind option_bind]. set (u4 := clear_flags _ u3) in *.
    rewrite (ar_tx _ _ _ _ A4). cbn [ec_res].
    destruct (read_data_ok (S want) 0 (Nat.min (length d) want) want true u4 A4 C4 Q4) as (ps & u5 & E5 & D5 & T5 & Z5 & X5 & Q5 & C5 & V5); [lia| |lia|].
    { destruct (Nat.le_gt_cases want (length d)); [left; lia|right]. rewrite Nat.sub_0_r, Nat.min_l by lia. exact Hsm. }
    rewrite E5. cbn [mbind option_bind]. destruct (status_out_ok u5 Z5 X5 Q5 C5) as (u6 & -> & E6 & Z6 & Q6 & C6 & V6). cbn [mbind option_bind].
    rewrite E6. cbn [mbind option_bind]. exists ps, u6. split; [done|]. split.
    { rewrite D5, Nat.sub_0_r, drop_0, S4. usb_cbn_in Hd. rewrite Nat.min_comm, <- take_take. by rewrite Hd. }
    split_and!; try done. destruct V4, V5, V6, Hva; split; congruence.
  - rewrite Hr in Ep. cbn [mbind option_bind] in Ep. rewrite Ep. cbn [mbind option_bind ec_res].
    eexists. split; [done|]. repeat (split; [done|]). split; [|done]. apply clear_ctrl. by destruct Hca.
Qed.

(** ** The bulk pair over a lossy cable

    The host has OUT packets to send and keeps the toggle of each direction; the
    main loop takes what arrived and hands packets to [UsbDevice_tx]. *)
Record UsbWorld := mkUsbWorld {
  uw_usb : Usb;
  uw_out : list (list Z); uw_out_tog : bool; uw_taken : list (list Z);
  uw_sent : list (list Z); uw_in_tog : bool; uw_got : list (list Z) }.

(** [lost]: the acknowledgement does not arrive. *)
Inductive UsbStep :=
| UsOut (lost : bool) | UsIn (lost : bool) | UsPoll | UsTake | UsSend (bytes : list Z)
| UsSetup (pkt : list Z) | UsIn0 | UsOut0.

Definition tog_eqb (a b : EpTog) : bool := match a, b with DATA0, DATA0 | DATA1, DATA1 => true | _, _ => false end.
Definition set_uw_usb (u : Usb) (w : UsbWorld) : UsbWorld :=
  mkUsbWorld u (uw_out w) (uw_out_tog w) (uw_taken w) (uw_sent w) (uw_in_tog w) (uw_got w).

(** The host tries its next packet; the controller acknowledges it whatever its
    toggle. *)
Definition host_out1 (lost : bool) (w : UsbWorld) : UsbWorld :=
  let u := uw_usb w in
  match pending u || negb (ur_ep1_on (us_regs u)), ec_res (ur_rx1 (us_regs u)), uw_out w with
  | false, EpAck, p :: rest =>
      let ok := tog_eqb (tog_of (uw_out_tog w)) (ec_tog (ur_rx1 (us_regs u))) in
      let u := raise (mkStatus 1 TokOut ok) (length p) (set_us_ep1_rx (splice 0 p (us_ep1_rx u)) u) in
      if lost then set_uw_usb u w
      else mkUsbWorld u rest (negb (uw_out_tog w)) (uw_taken w) (uw_sent w) (uw_in_tog w) (uw_got w)
  | _, _, _ => w
  end.
(** The host polls for a packet, keeps it if its toggle is new, and acknowledges. *)
Definition host_in1 (lost : bool) (w : UsbWorld) : UsbWorld :=
  let u := uw_usb w in
  match pending u || negb (ur_ep1_on (us_regs u)), ec_res (ur_tx1 (us_regs u)) with
  | false, EpAck =>
      let p := take (ur_len1 (us_regs u)) (us_ep1_tx u) in
      let fresh := tog_eqb (tog_of (uw_in_tog w)) (ec_tog (ur_tx1 (us_regs u))) in
      mkUsbWorld (if lost then u else raise (mkStatus 1 TokIn true) 0 u) (uw_out w) (uw_out_tog w) (uw_taken w) (uw_sent w)
        (if fresh then negb (uw_in_tog w) else uw_in_tog w) (if fresh then uw_got w ++ [p] else uw_got w)
  | _, _ => w
  end.

Definition usb_step (s : UsbStep) (w : UsbWorld) : option UsbWorld :=
  let u := uw_usb w in
  match s with
  | UsOut lost => Some (host_out1 lost w)
  | UsIn lost => Some (host_in1 lost w)
  | UsPoll => u ← UsbDevice_poll u; Some (set_uw_usb u w)
  | UsTake =>
      r ← UsbDevice_rx u;
      match r with
      | None => Some w
      | Some p => Some (mkUsbWorld (UsbDevice_rx_consume u) (uw_out w) (uw_out_tog w) (uw_taken w ++ [p]) (uw_sent w) (uw_in_tog w) (uw_got w))
      end
  | UsSend bytes =>
      if UsbDevice_tx_ready u then
        u ← UsbDevice_tx bytes u;
        Some (mkUsbWorld u (uw_out w) (uw_out_tog w) (uw_taken w) (uw_sent w ++ [bytes]) (uw_in_tog w) (uw_got w))
      else Some w
  | UsSetup pkt => Some (match host_setup pkt u with Some u => set_uw_usb u w | None => w end)
  | UsIn0 => Some (match host_in0 u with Some (_, _, u) => set_uw_usb u w | None => w end)
  | UsOut0 => Some (match host_out0 u with Some u => set_uw_usb u w | None => w end)
  end.
Fixpoint usb_run (l : list UsbStep) (w : UsbWorld) : option UsbWorld :=
  match l with [] => Some w | s :: l' => w ← usb_step s w; usb_run l' w end.

(** Packets fit the endpoint; no control request reconfigures the device or clears a
    halt. *)
Definition harmless (pkt : list Z) : Prop :=
  length pkt = 8%nat /\ take 2 pkt <> [0; 9] /\ take 2 pkt <> [2; 1].
Definition step_ok (s : UsbStep) : Prop :=
  match s with
  | UsSend bytes => (length bytes <= BULK_MPS_HS)%nat
  | UsSetup pkt => harmless pkt
  | _ => True
  end.

(** *** Control traffic spares the bulk pair *)

Lemma setup_request_ok t r value index u : ctrl_ok u -> ud_ep0 (us_dev u) = Ep0Idle -> [t; r] <> [0; 9] -> [t; r] <> [2; 1] ->
  match setup_request t r value index u with
  | Some (n, u') => ctrl_ok u' /\ ud_ep0 (us_dev u') = Ep0Idle /\ (n <= 256)%nat /\ bulk_view u' = bulk_view u /\ flags_of u' = flags_of u
  | None => True
  end.
Proof.
  intros Hc Hi H9 H1. destruct (Z.leb_spec 128 t) as [Ht|Ht].
  - pose proof (setup_read t r value index u Ht (co_stage _ Hc) (co_serial _ Hc)) as Hr. unfold serves_read in Hr.
    destruct (read_answer _ _ _ _ _ _ _) as [d|]; [|by rewrite Hr]. destruct Hr as [(u' & -> & Hd & Hs & (s & ->)) [Hz _]].
    split; [|by repeat split; [..|lia]]. destruct Hc. constructor; usb_cbn; done.
  - unfold setup_request. replace (t =? 128) with false by lia. replace (128 <=? t) with false by lia. replace (t =? 129) with false by lia.
    replace (t =? 192) with false by lia. cbn [andb].
    destruct ((t =? 0) && (r =? 5)); [split; [by destruct Hc|by repeat split; [..|lia]]|].
    destruct ((t =? 0) && (r =? 9)) eqn:E9; [zbool; subst; done|].
    destruct ((t =? 1) && (r =? 11) && (value =? 0)); [split; [done|by repeat split; [..|lia]]|].
    destruct ((t =? 2) && (r =? 1) && (value =? 0)) eqn:E1; [zbool; subst; done|done].
Qed.

Lemma on_setup_ok u : ctrl_ok u -> harmless (take 8 (us_ep0_buf u)) ->
  exists u', on_setup u = Some u' /\ ctrl_ok u' /\ bulk_view u' = bulk_view u /\ flags_of u' = flags_of u.
Proof.
  intros Hc (Hl & H9 & H1). pose proof (co_buf _ Hc) as Hb. unfold on_setup.
  change (us_ep0_buf (on_regs ?f u)) with (us_ep0_buf u).
  destruct (us_ep0_buf u) as [|t [|r [|v0 [|v1 [|i0 [|i1 [|l0 [|l1 rest]]]]]]]] eqn:Eb; try done. cbn [take] in H9, H1.
  set (u0 := on_dev (set_ud_ep0 Ep0Idle) _). assert (ctrl_ok u0) as Hc0 by (destruct Hc; constructor; usb_cbn; try done; by rewrite Eb).
  assert (bulk_view u0 = bulk_view u /\ flags_of u0 = flags_of u) as [V0 F0] by done.
  pose proof (setup_request_ok t r (from_le16 v0 v1) (from_le16 i0 i1) u0 Hc0 eq_refl H9 H1) as Hr.
  destruct (setup_request _ _ _ _ u0) as [[n u1]|].
  - destruct Hr as (Hc1 & Hi1 & Hn & V1 & F1). destruct (_ && _).
    { eexists. split; [done|]. split; [by destruct Hc1|]. split; [by rewrite <- V0, <- V1|by rewrite <- F0, <- F1]. }
    set (u2 := on_dev _ u1). assert (ctrl_ok u2) as Hc2 by (unfold u2; destruct Hc1; constructor; usb_cbn; try done; lia).
    destruct (send_chunk_arms u2 0 (Nat.min n (Z.to_nat (from_le16 l0 l1))) Hc2 eq_refl) as (u3 & E3 & _ & C3 & V3 & _ & F3 & _).
    exists u3. split; [done|]. split; [done|]. split; [rewrite V3, <- V0, <- V1; done|rewrite F3, <- F0, <- F1; done].
  - eexists. split; [done|]. split; [|done]. by destruct Hc0.
Qed.

Lemma on_ep0_ok tok u : ctrl_ok u -> exists u', on_ep0_transfer tok u = Some u' /\ ctrl_ok u' /\ bulk_view u' = bulk_view u /\ flags_of u' = flags_of u.
Proof.
  intros Hc. unfold on_ep0_transfer. destruct tok, (ud_ep0 (us_dev u)) as [|pos len| |] eqn:E;
    try (eexists; split; [done|]; split; [by destruct Hc|done]).
  - destruct (Nat.ltb pos len) eqn:El.
    + destruct (send_chunk_arms u pos len Hc E) as (u3 & E3 & _ & C3 & V3 & _ & F3 & _). by exists u3.
    + eexists. split; [done|]. split; [by destruct Hc|done].
  - eexists. split; [done|]. usb_cbn. destruct (ud_address_pending (us_dev u)); (split; [by destruct Hc|done]).
Qed.

(** *** The invariant *)

(** The flag the controller holds for the main loop. *)
Inductive Held := HNone | HCtrl | HOut (ok : bool) | HIn.
Definition held_at (u : Usb) (h : Held) : Prop :=
  match h with
  | HNone => pending u = false
  | HCtrl => exists s, flags_of u = mkFlags false true true s /\ harmless (take 8 (us_ep0_buf u)) \/
                       flags_of u = mkFlags false false true s /\ st_endp (st_of u) = 0
  | HOut ok => exists s, flags_of u = mkFlags false false true s /\ st_of u = mkStatus 1 TokOut ok
  | HIn => exists s, flags_of u = mkFlags false false true s /\ st_of u = mkStatus 1 TokIn true
  end.

(** Of the host's packets [all], [a] are acknowledged, [acc] accepted and [k] taken. *)
Definition rx_side (all : list (list Z)) (h : Held) (w : UsbWorld) : Prop :=
  let u := uw_usb w in
  exists a acc k, uw_out w = drop a all /\ uw_out_tog w = Nat.odd a /\ (acc = a \/ acc = S a) /\ (acc <= length all)%nat /\
    uw_taken w = take k all /\
    match h, ud_rx_pending (us_dev u) with
    | HOut true, None =>
        acc = S k /\ ud_rx_tog (us_dev u) = Nat.odd k /\
        exists p, all !! k = Some p /\ ur_rx_len (us_regs u) = length p /\ take (length p) (us_ep1_rx u) = p
    | HOut _, Some _ => False
    | _, Some n =>
        acc = S k /\ ud_rx_tog (us_dev u) = Nat.odd acc /\ ur_rx1 (us_regs u) = mkCtl EpNak (tog_of (Nat.odd acc)) /\
        exists p, all !! k = Some p /\ n = length p /\ take n (us_ep1_rx u) = p
    | _, None => acc = k /\ ud_rx_tog (us_dev u) = Nat.odd k /\ ur_rx1 (us_regs u) = mkCtl EpAck (tog_of (Nat.odd k))
    end.

Definition tx_side (h : Held) (w : UsbWorld) : Prop :=
  let u := uw_usb w in
  if ud_tx_busy (us_dev u) then
    exists done p, uw_sent w = done ++ [p] /\ ud_tx_tog (us_dev u) = Nat.odd (length done) /\
      match h with
      | HIn => uw_got w = uw_sent w /\ uw_in_tog w = Nat.odd (length (uw_sent w))
      | _ => ur_tx1 (us_regs u) = mkCtl EpAck (tog_of (Nat.odd (length done))) /\ take (ur_len1 (us_regs u)) (us_ep1_tx u) = p /\
             (uw_got w = done /\ uw_in_tog w = Nat.odd (length done) \/ uw_got w = uw_sent w /\ uw_in_tog w = Nat.odd (length (uw_sent w)))
      end
  else h <> HIn /\ uw_got w = uw_sent w /\ uw_in_tog w = Nat.odd (length (uw_sent w)) /\
       ud_tx_tog (us_dev u) = Nat.odd (length (uw_sent w)) /\ ec_res (ur_tx1 (us_regs u)) = EpNak.

Record bulk_ok (all : list (list Z)) (h : Held) (w : UsbWorld) : Prop := mkBulkOk {
  bk_ctrl : ctrl_ok (uw_usb w);
  bk_conf : ud_configured (us_dev (uw_usb w)) = true;
  bk_on : ur_ep1_on (us_regs (uw_usb w)) = true;
  bk_rx_buf : length (us_ep1_rx (uw_usb w)) = BULK_MPS_HS;
  bk_tx_buf : length (us_ep1_tx (uw_usb w)) = BULK_MPS_HS;
  bk_held : held_at (uw_usb w) h;
  bk_rx : rx_side all h w;
  bk_tx : tx_side h w }.

#[local] Opaque BULK_MPS_HS.

Lemma tog_eqb_odd a b : tog_eqb (tog_of (Nat.odd a)) (tog_of (Nat.odd b)) = eqb (Nat.odd a) (Nat.odd b).
Proof. by destruct (Nat.odd a), (Nat.odd b). Qed.
Lemma odd_S n : Nat.odd (S n) = negb (Nat.odd n).
Proof. rewrite Nat.odd_succ. by rewrite <- Nat.negb_odd. Qed.
Lemma drop_cons_lookup {A} (l : list A) a p rest : drop a l = p :: rest -> l !! a = Some p /\ rest = drop (S a) l.
Proof.
  intros E. split.
  - rewrite <- (Nat.add_0_r a), <- lookup_drop. by rewrite E.
  - change (S a) with (1 + a)%nat. rewrite Nat.add_comm, <- drop_drop, E. done.
Qed.

(** Steps of the control endpoint keep both sides. *)
Lemma sides_view all h h' u u' w : uw_usb w = u -> bulk_view u' = bulk_view u ->
  h = HNone \/ h = HCtrl -> h' = HNone \/ h' = HCtrl ->
  rx_side all h w -> tx_side h w -> rx_side all h' (set_uw_usb u' w) /\ tx_side h' (set_uw_usb u' w).
Proof.
  intros Hu Hv Hh Hh' Hr Ht. subst u. unfold bulk_view in Hv. injection Hv as V1 V2 V3 V4 V5 V6 V7 V8 V9 V10 V11 V12. split.
  - destruct Hr as (a & acc & k & R1 & R2 & R3 & R4 & R5 & R6). exists a, acc, k. cbn [set_uw_usb uw_usb uw_out uw_out_tog uw_taken].
    split_and!; try done. rewrite V4, V5, V9, V10. destruct Hh as [-> | ->], Hh' as [-> | ->]; exact R6.
  - unfold tx_side in *. cbn [set_uw_usb uw_usb uw_sent uw_got uw_in_tog]. rewrite V2, V3, V7, V8, V11.
    destruct Hh as [-> | ->], Hh' as [-> | ->], (ud_tx_busy (us_dev (uw_usb w))); try exact Ht; destruct Ht as (_ & Ht); by split.
Qed.
Lemma bulk_view_ok all h h' u' w : bulk_ok all h w -> bulk_view u' = bulk_view (uw_usb w) -> ctrl_ok u' -> held_at u' h' ->
  h = HNone \/ h = HCtrl -> h' = HNone \/ h' = HCtrl -> bulk_ok all h' (set_uw_usb u' w).
Proof.
  intros [C1 C2 C3 C4 C5 C6 C7 C8] Hv Hc Hh H1 H2. destruct (sides_view all h h' _ u' w eq_refl Hv H1 H2 C7 C8) as [R T].
  unfold bulk_view in Hv. injection Hv as V1 V2 V3 V4 V5 V6 V7 V8 V9 V10 V11 V12.
  constructor; cbn [set_uw_usb uw_usb]; try done; congruence.
Qed.

(** *** The steps *)

Section steps.
Context (all : list (list Z)) (Hall : Forall (fun p => (length p <= BULK_MPS_HS)%nat) all).

Lemma pending_none h w : bulk_ok all h w -> pending (uw_usb w) = false -> h = HNone.
Proof.
  intros Hb Hq. pose proof (bk_held _ _ _ Hb) as Hh. unfold pending in Hq. destruct h; [done|exfalso..];
    unfold held_at, flags_of in Hh; destruct Hh as (s & Hh); destruct (ur_fg (us_regs (uw_usb w))); cbn in Hq;
    repeat match goal with H : _ \/ _ |- _ => destruct H | H : _ /\ _ |- _ => destruct H | H : mkFlags _ _ _ _ = mkFlags _ _ _ _ |- _ => injection H as -> -> -> -> end; done.
Qed.

Lemma out_step lost h w : bulk_ok all h w -> exists h', bulk_ok all h' (host_out1 lost w).
Proof using Hall.
  intros Hb. unfold host_out1. destruct (pending (uw_usb w)) eqn:Hq; [by exists h|]. assert (h = HNone) as -> by (by eapply pending_none).
  destruct Hb as [C1 C2 C3 C4 C5 C6 C7 C8]. rewrite C3. cbn [orb negb]. destruct (ec_res (ur_rx1 (us_regs (uw_usb w)))) eqn:Ex; try (by exists HNone; constructor).
  destruct (uw_out w) as [|p rest] eqn:Eo; [by exists HNone; constructor|].
  destruct C7 as (a & acc & k & R1 & R2 & R3 & R4 & R5 & R6). cbn [uw_usb] in R6.
  destruct (ud_rx_pending (us_dev (uw_usb w))) eqn:Erp; [destruct R6 as (_ & _ & R6 & _); rewrite R6 in Ex; done|].
  destruct R6 as (-> & R6 & R7). rewrite Eo in R1. symmetry in R1. destruct (drop_cons_lookup _ _ _ _ R1) as [Lp Hrest].
  assert (length p <= BULK_MPS_HS)%nat as Hp by (by eapply (Forall_lookup_1 _ _ _ _ Hall)).
  assert (a < length all)%nat as Ha by (by apply lookup_lt_Some in Lp).
  rewrite R2, R7. cbn [ec_tog]. rewrite tog_eqb_odd.
  set (ok := eqb (Nat.odd a) (Nat.odd k)). set (u' := raise _ _ _).
  assert (exists acc', (if ok then acc' = S k /\ k = a else acc' = k /\ k = S a)) as (acc' & Hacc).
  { unfold ok. destruct R3 as [-> | ->]; [rewrite eqb_reflx; by eexists|]. rewrite odd_S, eqb_negb2. by eexists. }
  assert (ctrl_ok u' /\ length (us_ep1_rx u') = BULK_MPS_HS /\ held_at u' (HOut ok)) as (D1 & D2 & D3).
  { split; [by destruct C1|]. split; [unfold u', raise; usb_cbn; by rewrite length_splice by lia|]. eexists. by split. }
  assert (forall a', (acc' = a' \/ acc' = S a') -> forall w', uw_usb w' = u' -> uw_out w' = drop a' all -> uw_out_tog w' = Nat.odd a' -> uw_taken w' = uw_taken w ->
    rx_side all (HOut ok) w') as Hrx.
  { intros a' Ha' w' Ew E1 E2 E3. exists a', acc', k. rewrite E3. split_and!; try done; [destruct ok; lia|]. rewrite Ew.
    change (ud_rx_pending (us_dev u')) with (ud_rx_pending (us_dev (uw_usb w))). rewrite Erp. destruct ok.
    - destruct Hacc as [-> ->]. split; [done|]. split; [exact R6|]. exists p. split; [done|]. split; [done|].
      unfold u', raise. usb_cbn. apply splice_front. lia.
    - destruct Hacc as [-> _]. split; [done|]. split; [exact R6|exact R7]. }
  assert (forall w', uw_usb w' = u' -> uw_sent w' = uw_sent w -> uw_in_tog w' = uw_in_tog w -> uw_got w' = uw_got w -> tx_side (HOut ok) w') as Htx.
  { intros w' Ew E1 E2 E3. unfold tx_side in *. rewrite Ew, E1, E2, E3. change (us_dev u') with (us_dev (uw_usb w)).
    destruct (ud_tx_busy (us_dev (uw_usb w))); [exact C8|]. destruct C8 as (_ & C8). by split. }
  exists (HOut ok). destruct lost; constructor; cbn [set_uw_usb uw_usb]; try done.
  - apply (Hrx a); [right; destruct ok; lia|done|cbn; by rewrite Eo, R1|done|done].
  - by apply Htx.
  - apply (Hrx (S a)); [left; destruct ok; lia|done|done|cbn [uw_out_tog]; by rewrite odd_S|done].
  - by apply Htx.
Qed.

Lemma in_step lost h w : bulk_ok all h w -> exists h', bulk_ok all h' (host_in1 lost w).
Proof.
  intros Hb. unfold host_in1. destruct (pending (uw_usb w)) eqn:Hq; [by exists h|]. assert (h = HNone) as -> by (by eapply pending_none).
  destruct Hb as [C1 C2 C3 C4 C5 C6 C7 C8]. rewrite C3. cbn [orb negb]. destruct (ec_res (ur_tx1 (us_regs (uw_usb w)))) eqn:Ex; try (by exists HNone; constructor).
  unfold tx_side in C8. destruct (ud_tx_busy (us_dev (uw_usb w))) eqn:Eb; [|destruct C8 as (_ & _ & _ & _ & C8); by rewrite C8 in Ex].
  destruct C8 as (dn & p & S1 & S2 & S3 & S4 & S5). rewrite S3. cbn [ec_tog]. rewrite S4.
  set (w' := mkUsbWorld _ _ _ _ _ _ _).
  assert (uw_got w' = uw_sent w /\ uw_in_tog w' = Nat.odd (length (uw_sent w))) as [G1 G2].
  { unfold w'. cbn [uw_got uw_in_tog]. rewrite S1, length_app. cbn [length]. rewrite Nat.add_1_r, odd_S.
    destruct S5 as [[-> ->]|[Eg Et]].
    - rewrite tog_eqb_odd, eqb_reflx. done.
    - rewrite S1 in Eg. rewrite Et, S1, length_app. cbn [length]. rewrite Nat.add_1_r, tog_eqb_odd, odd_S, eqb_negb1. by rewrite Eg. }
  assert (rx_side all (if lost then HNone else HIn) w') as Hrx.
  { destruct C7 as (a & acc & k & R1 & R2 & R3 & R4 & R5 & R6). exists a, acc, k. split_and!; try done. unfold w'. cbn [uw_usb]. destruct lost; exact R6. }
  exists (if lost then HNone else HIn). constructor; try (unfold w'; cbn [uw_usb]; destruct lost; done).
  - unfold w'. cbn [uw_usb]. destruct lost; [done|by destruct C1].
  - unfold w'. cbn [uw_usb]. destruct lost; [done|]. by eexists.
  - unfold tx_side. replace (ud_tx_busy (us_dev (uw_usb w'))) with true by (unfold w'; cbn [uw_usb]; by destruct lost).
    exists dn, p. unfold w' at 1 2. cbn [uw_usb uw_sent]. split; [done|]. split; [by destruct lost|].
    destruct lost; [|by split]. split_and!; [exact S3|exact S4|right; by split].
Qed.

(** Polling serves the held flag. *)
Lemma poll_quiet u : pending u = false -> exists f, UsbDevice_poll u = Some (clear_flags f u) /\ pending (clear_flags f u) = false.
Proof.
  intros Hq. pose proof (quiet_flags u Hq) as Hf. unfold flags_of in Hf. unfold UsbDevice_poll. rewrite Hf. cbn [fg_bus_rst fg_setup_act fg_transfer fg_suspend].
  destruct (fg_suspend (ur_fg (us_regs u))).
  - eexists. split; [done|]. unfold pending. usb_cbn. by rewrite Hf.
  - exists id. split; [|done]. by destruct u as [d [] b1 b2 b3].
Qed.

(** A served transfer on the bulk pair. *)
Lemma poll_ep1 u s tok ok : flags_of u = mkFlags false false true s -> st_of u = mkStatus 1 tok ok ->
  UsbDevice_poll u = Some (clear_flags (fun f => mkFlags (fg_bus_rst f) (fg_setup_act f) false (fg_suspend f)) (on_ep1_transfer tok ok u)) /\
  pending (clear_flags (fun f => mkFlags (fg_bus_rst f) (fg_setup_act f) false (fg_suspend f)) (on_ep1_transfer tok ok u)) = false.
Proof.
  unfold flags_of, st_of. intros Hf Hs. unfold UsbDevice_poll. rewrite Hf, Hs. cbn [fg_bus_rst fg_setup_act fg_transfer st_endp st_token st_tog_ok Z.eqb Pos.eqb mbind option_bind].
  split; [done|]. unfold pending, on_ep1_transfer. destruct tok, ok; cbn [negb]; usb_cbn; by rewrite Hf.
Qed.

Lemma poll_held_ctrl u : ctrl_ok u -> held_at u HCtrl ->
  exists u', UsbDevice_poll u = Some u' /\ ctrl_ok u' /\ bulk_view u' = bulk_view u /\ pending u' = false.
Proof.
  intros Hc (s & [[Hf Hh]|[Hf Hst]]); unfold UsbDevice_poll, flags_of, st_of in *; rewrite Hf; cbn [fg_bus_rst fg_setup_act fg_transfer].
  - destruct (on_setup_ok u Hc Hh) as (u' & -> & C & V & F). cbn [mbind option_bind]. eexists. split; [done|].
    split; [by apply clear_ctrl|]. split; [exact V|]. unfold pending. unfold flags_of in F. usb_cbn. by rewrite F, Hf.
  - rewrite Hst. cbn [Z.eqb]. destruct (on_ep0_ok (st_token (ur_st (us_regs u))) u Hc) as (u' & -> & C & V & F). cbn [mbind option_bind].
    eexists. split; [done|]. split; [by apply clear_ctrl|]. split; [exact V|]. unfold pending. unfold flags_of in F. usb_cbn. by rewrite F, Hf.
Qed.

Lemma poll_step h w : bulk_ok all h w -> exists u', UsbDevice_poll (uw_usb w) = Some u' /\ bulk_ok all HNone (set_uw_usb u' w).
Proof.
  intros Hb. pose proof Hb as [C1 C2 C3 C4 C5 C6 C7 C8]. destruct h as [| |ok|].
  - destruct (poll_quiet _ C6) as (f & -> & Hq). eexists. split; [done|].
    apply (bulk_view_ok all HNone); [done|done|by apply clear_ctrl|exact Hq|by left|by left].
  - destruct (poll_held_ctrl _ C1 C6) as (u' & -> & C & V & Hq). eexists. split; [done|].
    by apply (bulk_view_ok all HCtrl); [| | |exact Hq|right|left].
  - destruct C6 as (s & Hf & Hst). destruct (poll_ep1 _ _ _ _ Hf Hst) as [-> Hq]. eexists. split; [done|].
    assert (ctrl_ok (on_ep1_transfer TokOut ok (uw_usb w))) as Hc by (destruct ok; [by destruct C1|done]).
    destruct C7 as (a & acc & k & R1 & R2 & R3 & R4 & R5 & R6). destruct (ud_rx_pending (us_dev (uw_usb w))) as [n|] eqn:Erp; [by destruct ok|].
    constructor; cbn [set_uw_usb uw_usb]; try (destruct ok; done).
    + by apply clear_ctrl.
    + exists a, acc, k. cbn [set_uw_usb uw_usb uw_out uw_out_tog uw_taken]. split_and!; try done. destruct ok.
      * destruct R6 as (-> & Rt & p & Lp & Ln & Tk). unfold on_ep1_transfer. cbn [negb]. usb_cbn. rewrite Rt, odd_S. split_and!; [done..|].
        by exists p; rewrite Ln.
      * unfold on_ep1_transfer. cbn [negb]. usb_cbn. rewrite Erp. exact R6.
    + unfold tx_side in *. cbn [set_uw_usb uw_usb uw_sent uw_got uw_in_tog].
      destruct ok; unfold on_ep1_transfer; cbn [negb]; usb_cbn; (destruct (ud_tx_busy (us_dev (uw_usb w))); [exact C8|]; destruct C8 as (_ & C8); by split).
  - destruct C6 as (s & Hf & Hst). destruct (poll_ep1 _ _ _ _ Hf Hst) as [-> Hq]. eexists. split; [done|].
    unfold tx_side in C8. destruct (ud_tx_busy (us_dev (uw_usb w))) eqn:Eb; [|by destruct C8]. destruct C8 as (dn & p & S1 & S2 & S3 & S4).
    constructor; cbn [set_uw_usb uw_usb]; try done.
    + by destruct C1.
    + unfold tx_side. cbn [set_uw_usb uw_usb uw_sent uw_got uw_in_tog on_ep1_transfer]. usb_cbn. split_and!; try done.
      rewrite S2, S1, length_app. cbn [length]. by rewrite Nat.add_1_r, odd_S.
Qed.

Lemma take_step h w : bulk_ok all h w -> exists w', usb_step UsTake w = Some w' /\ bulk_ok all h w'.
Proof using Hall.
  intros Hb. pose proof Hb as [C1 C2 C3 C4 C5 C6 C7 C8]. cbn [usb_step]. unfold UsbDevice_rx, UsbDevice_rx_consume.
  destruct C7 as (a & acc & k & R1 & R2 & R3 & R4 & R5 & R6). destruct (ud_rx_pending (us_dev (uw_usb w))) as [n|] eqn:Erp; [|by exists w].
  assert (acc = S k /\ ud_rx_tog (us_dev (uw_usb w)) = Nat.odd acc /\ ur_rx1 (us_regs (uw_usb w)) = mkCtl EpNak (tog_of (Nat.odd acc)) /\
    (exists p, all !! k = Some p /\ n = length p /\ take n (us_ep1_rx (uw_usb w)) = p) /\ forall ok, h <> HOut ok) as (-> & Rt & Rc & (p & Lp & -> & Tp) & Hh).
  { destruct h as [| |[]|]; try done; destruct R6 as (? & ? & ? & ?); by split_and!. }
  assert (length p <= BULK_MPS_HS)%nat as Hp by (by eapply (Forall_lookup_1 _ _ _ _ Hall)).
  rewrite (proj2 (Nat.ltb_ge _ _)) by done. cbn [mbind option_bind]. eexists. split; [done|]. rewrite Tp.
  constructor; cbn [uw_usb]; usb_cbn; try done; [by destruct C1|].
  exists a, (S k), (S k). cbn [uw_out uw_out_tog uw_taken uw_usb]. usb_cbn. split_and!; try done.
  - rewrite R5. by rewrite (take_S_r _ _ _ Lp).
  - destruct h as [| |ok|]; try (by destruct (Hh ok)); rewrite Rc; by split_and!.
Qed.

Lemma send_step bytes h w : bulk_ok all h w -> (length bytes <= BULK_MPS_HS)%nat ->
  exists w', usb_step (UsSend bytes) w = Some w' /\ bulk_ok all h w'.
Proof.
  intros Hb Hl. pose proof Hb as [C1 C2 C3 C4 C5 C6 C7 C8]. cbn [usb_step]. unfold UsbDevice_tx_ready. rewrite C2. cbn [andb].
  destruct (ud_tx_busy (us_dev (uw_usb w))) eqn:Eb; [by exists w|]. cbn [negb]. unfold UsbDevice_tx. rewrite (proj2 (Nat.ltb_ge _ _)) by done.
  cbn [mbind option_bind]. eexists. split; [done|]. unfold tx_side in C8. rewrite Eb in C8. destruct C8 as (Hh & S1 & S2 & S3 & S4).
  constructor; cbn [uw_usb]; usb_cbn; try done; [by destruct C1|by rewrite length_splice by lia|].
  unfold tx_side. cbn [uw_usb uw_sent uw_got uw_in_tog]. usb_cbn. exists (uw_sent w), bytes. split; [done|]. split; [done|].
  rewrite S3. destruct h; try done; (split; [done|]; split; [apply splice_front; lia|left; by split]).
Qed.

(** Tokens on the control endpoint. *)
Lemma raise_step tok h w : bulk_ok all h w -> pending (uw_usb w) = false -> bulk_ok all HCtrl (set_uw_usb (raise (mkStatus 0 tok true) 0 (uw_usb w)) w).
Proof.
  intros Hb Hq. assert (h = HNone) as -> by (by eapply pending_none). apply (bulk_view_ok all HNone); [done|done|apply raise_ctrl, bk_ctrl with all HNone, Hb| |by left|by right].
  eexists. right. by split.
Qed.

Lemma step_keeps s h w : step_ok s -> bulk_ok all h w -> exists w' h', usb_step s w = Some w' /\ bulk_ok all h' w'.
Proof using Hall.
  intros Hs Hb. destruct s as [lost|lost| | |bytes|pkt| |].
  - destruct (out_step lost h w Hb) as (h' & Hb'). by eexists _, h'.
  - destruct (in_step lost h w Hb) as (h' & Hb'). by eexists _, h'.
  - destruct (poll_step h w Hb) as (u' & E & Hb'). cbn [usb_step]. rewrite E. by eexists _, HNone.
  - destruct (take_step h w Hb) as (w' & E & Hb'). by exists w', h.
  - destruct (send_step bytes h w Hb Hs) as (w' & E & Hb'). by exists w', h.
  - cbn [usb_step]. unfold host_setup. destruct (pending (uw_usb w)) eqn:Hq; [by eexists _, h|]. eexists _, HCtrl. split; [done|].
    assert (h = HNone) as -> by (by eapply pending_none). pose proof (bk_ctrl _ _ _ Hb) as [Cb Cs Cse Cp]. destruct Hs as (Hl & Hs).
    apply (bulk_view_ok all HNone); [done|done| | |by left|by right].
    + constructor; usb_cbn; try done. rewrite length_splice; [done|]. rewrite Hl, Cb. unfold EP0_MPS. lia.
    + eexists. left. split; [done|]. usb_cbn. unfold harmless. rewrite <- Hl, splice_front by (rewrite Hl, Cb; unfold EP0_MPS; lia). by rewrite Hl.
  - cbn [usb_step]. unfold host_in0. destruct (pending (uw_usb w)) eqn:Hq, (ec_res (ur_tx0 (us_regs (uw_usb w)))); try (by eexists _, h).
    eexists _, HCtrl. split; [done|]. by eapply raise_step.
  - cbn [usb_step]. unfold host_out0. destruct (pending (uw_usb w)) eqn:Hq, (ec_res (ur_rx0 (us_regs (uw_usb w)))); try (by eexists _, h).
    eexists _, HCtrl. split; [done|]. by eapply raise_step.
Qed.

Lemma run_keeps l : forall h w, Forall step_ok l -> bulk_ok all h w -> exists w' h', usb_run l w = Some w' /\ bulk_ok all h' w'.
Proof using Hall.
  induction l as [|s l IH]; intros h w Hl Hb; [by exists w, h|]. apply Forall_cons_1 in Hl as [Hs Hl].
  destruct (step_keeps s h w Hs Hb) as (w1 & h1 & E1 & Hb1). cbn [usb_run]. rewrite E1. cbn [mbind option_bind]. by apply (IH h1).
Qed.
End steps.

Definition usb_fresh (u : Usb) (all : list (list Z)) : UsbWorld := mkUsbWorld (configure_ep1 u) all false [] [] false [].

(** C17: the bulk pair is a reliable pipe.  Start at SET_CONFIGURATION, with no
    transfer flag raised and the device's buffers of their sizes, and take any
    schedule of host attempts, lost acknowledgements, polls, takes and sends, with
    control transfers in between whose requests are any but another
    SET_CONFIGURATION and CLEAR_FEATURE to an endpoint, which resets the toggles
    under the traffic ([clear_halt_drops]).  Every packet fits the endpoint.  Then
    nothing panics; the packets the main loop takes are the host's packets, in
    order and each once, at most one behind or ahead of what the host knows to be
    acknowledged, and none is owed once no flag is held and nothing is parked; the
    packets the host receives are the ones handed to [tx], in order and each once,
    all of them whenever the device is ready for the next. *)
Theorem bulk_exactly_once (u : Usb) (all : list (list Z)) (l : list UsbStep) :
  ctrl_ok u -> pending u = false -> length (us_ep1_rx u) = BULK_MPS_HS -> length (us_ep1_tx u) = BULK_MPS_HS ->
  Forall (fun p => (length p <= BULK_MPS_HS)%nat) all -> Forall step_ok l ->
  exists w, usb_run l (usb_fresh u all) = Some w /\
    (exists a k, uw_out w = drop a all /\ (a <= length all)%nat /\ uw_taken w = take k all /\ (k <= S a)%nat /\ (a <= S k)%nat /\
       (pending (uw_usb w) = false -> ud_rx_pending (us_dev (uw_usb w)) = None -> (a <= k)%nat)) /\
    (exists rest, uw_sent w = uw_got w ++ rest /\ (length rest <= 1)%nat /\ (UsbDevice_tx_ready (uw_usb w) = true -> rest = [])).
Proof.
  intros Hc Hq Hr Ht Hall Hl. assert (bulk_ok all HNone (usb_fresh u all)) as H0.
  { constructor; cbn [usb_fresh uw_usb]; try done; [by destruct Hc|].
    exists 0%nat, 0%nat, 0%nat. split_and!; [done|done|by left|lia|done|done..]. }
  destruct (run_keeps all Hall l HNone _ Hl H0) as (w & h & E & Hb). exists w. split; [done|].
  pose proof Hb as [C1 C2 C3 C4 C5 C6 C7 C8]. split.
  - destruct C7 as (a & acc & k & R1 & R2 & R3 & R4 & R5 & R6). exists a, k. split_and!; try done; try lia.
    all: destruct h as [| |[]|], (ud_rx_pending (us_dev (uw_usb w))); try (by destruct R6); destruct R6 as (-> & _); try lia.
    all: intros Hp Hn; try lia; by (assert (HOut true = HNone) by (by eapply pending_none)).
  - unfold tx_side in C8. unfold UsbDevice_tx_ready. destruct (ud_tx_busy (us_dev (uw_usb w))).
    + rewrite andb_false_r. destruct C8 as (dn & p & S1 & S2 & S3).
      assert (uw_got w = dn \/ uw_got w = uw_sent w) as [Eg|Eg] by (destruct h; try (destruct S3 as (_ & _ & [[? _]|[? _]]); [by left|by right]); right; by destruct S3).
      * exists [p]. rewrite Eg. by split_and!; [|cbn; lia|].
      * exists []. rewrite Eg, app_nil_r. by split_and!; [|cbn; lia|].
    + exists []. destruct C8 as (_ & -> & _). rewrite app_nil_r. by split_and!; [|cbn; lia|].
Qed.

#[local] Transparent BULK_MPS_HS.

(** ** A device on the bench *)

Definition demo_uid : list Z := [305419896; 2596069104; 19088743].
Definition demo_regs : UsbRegs :=
  mkUsbRegs false 0 0 (res_only EpNak) (res_only EpNak) false 0 (res_only EpNak) (res_only EpNak) 64 64
    (mkFlags false false false false) (mkStatus 0 TokIn true) 0.
Definition demo_usb : Usb := mkUsb (UsbDevice_new demo_uid) demo_regs (replicate EP0_MPS 0) (replicate BULK_MPS_HS 0) (replicate BULK_MPS_HS 0).

Lemma demo_usb_ok : ctrl_ok demo_usb.
Proof. constructor; vm_compute; done. Qed.

(** The 162-byte descriptor set takes three packets. *)
Lemma control_read_serves_witness : exists ps u',
  control_read (setup_bytes 192 32 0 0 7 0 255 0) 255 demo_usb = Some (Some ps, u') /\
  concat (map snd ps) = ms_os_desc /\ map fst ps = toggles true (length ps) /\ spares_bulk demo_usb u'.
Proof.
  destruct (control_read_serves 192 32 0 0 7 0 255 0 demo_usb demo_usb_ok eq_refl) as (ps & u' & E & D & T & _ & _ & _ & V);
    [lia|vm_compute; lia|]. exists ps, u'. split; [exact E|]. split; [|split; [exact T|exact V]]. rewrite D. vm_compute. reflexivity.
Defined.

(** Two packets each way, every acknowledgement lost once. *)
Definition demo_steps : list UsbStep :=
  [UsOut true; UsPoll; UsTake; UsOut false; UsPoll; UsOut true; UsPoll; UsTake; UsOut false; UsPoll;
   UsSetup [128; 6; 0; 1; 0; 0; 18; 0]; UsPoll; UsSend [7; 8]; UsIn true; UsIn0; UsPoll; UsIn false; UsPoll; UsSend [9]; UsIn true; UsIn false; UsPoll].
Lemma bulk_exactly_once_witness : exists w, usb_run demo_steps (usb_fresh demo_usb [[1; 2; 3]; [4]]) = Some w /\
  uw_taken w = [[1; 2; 3]; [4]] /\ uw_got w = [[7; 8]; [9]] /\ uw_out w = [].
Proof.
  destruct (bulk_exactly_once demo_usb [[1; 2; 3]; [4]] demo_steps demo_usb_ok eq_refl) as (w & E & _);
    [reflexivity|reflexivity|by repeat (apply Forall_cons_2; [unfold BULK_MPS_HS; cbn [length]; lia|])| |].
  { repeat (apply Forall_cons_2; [first [exact I|done|cbn [step_ok length]; unfold BULK_MPS_HS; lia]|]). apply Forall_nil_2. }
  exists w. split; [exact E|].
  assert (match usb_run demo_steps (usb_fresh demo_usb [[1; 2; 3]; [4]]) with
          | Some w => (uw_taken w, uw_got w, uw_out w) | None => ([], [], []) end = ([[1; 2; 3]; [4]], [[7; 8]; [9]], [])) as H by (vm_compute; reflexivity).
  rewrite E in H. split; [exact (f_equal (fun x => x.1.1) H)|]. split; [exact (f_equal (fun x => x.1.2) H)|exact (f_equal snd H)].
Defined.

(** ** Two requests that do not do what they promise *)

(** CLEAR_FEATURE(ENDPOINT_HALT) resets the receive toggle in memory only: after one
    OUT packet the controller still expects DATA1, so the host's next packet, sent
    with DATA0 as the request demands, is acknowledged and dropped. *)
Example clear_halt_drops :
  (w1 ← usb_run [UsOut false; UsPoll; UsTake; UsSetup [2; 1; 0; 0; 1; 0; 0; 0]; UsPoll; UsIn0; UsPoll] (usb_fresh demo_usb [[1]; [2]]);
   w2 ← usb_run [UsOut false; UsPoll; UsTake]
          (mkUsbWorld (uw_usb w1) (uw_out w1) false (uw_taken w1) (uw_sent w1) (uw_in_tog w1) (uw_got w1));
   Some (uw_out w2, uw_taken w2)) = Some ([], [[1]]).
Proof. vm_compute. reflexivity. Qed.

(** A SET_ADDRESS that the host gives up before its status stage stays pending: the
    status stage of the next request applies it. *)
Example stale_address_applied :
  (w ← usb_run [UsSetup [0; 5; 9; 0; 0; 0; 0; 0]; UsPoll; UsSetup [1; 11; 0; 0; 0; 0; 0; 0]; UsPoll; UsIn0; UsPoll] (usb_fresh demo_usb []);
   Some (ur_addr (us_regs (uw_usb w)))) = Some 9.
Proof. vm_compute. reflexivity. Qed.
