(* ===== verification/Mgmt.v ===== *)
(** * Management choreographies of the client (client/src/mgmt.rs)

    Discovery by ENUM probes over the tree of UID prefixes, id assignment, clock
    calibration, baud migration and the per-servo operations.  [fuel] bounds the
    nodes a walk may probe; [Discovery] proves how much is enough. *)

From S2P Require Import Prelude FrameBytes Wire Frame Build HostShape HostEngine Link ClientSession Client.
Local Open Scope client_scope.

Abbreviation Uid := (list Z).
Record Found := mkFound { fd_uid : Uid; fd_id : Id }.
#[export] Instance Found_eq_dec : EqDecision Found.
Proof. solve_decision. Defined.

(** Bit [k] of a 16-byte UID; every call has [k < 128], so the index is in range. *)
Definition mgmt_bit (uid : Uid) (k : nat) : bool :=
  negb (Z.land (Z.shiftr (default 0 (uid !! (k / 8)%nat)) (Z.of_nat (k mod 8))) 1 =? 0).
Definition matches_prefix (uid prefix : Uid) (len : nat) : bool :=
  forallb (fun k => eqb (mgmt_bit uid k) (mgmt_bit prefix k)) (seq 0 len).
Definition with_bit (prefix : Uid) (k : nat) (v : bool) : Uid :=
  if v then alter (fun b => Z.lor b (Z.shiftl 1 (Z.of_nat (k mod 8)))) (k / 8)%nat prefix else prefix.

(** Microseconds. *)
Definition PROBE_SETTLE : Z := 5000.
Definition FULL : nat := UID_LEN * 8.
Definition EMPTY_RETRIES : nat := 2.
Definition FULL_DEPTH_RETRIES : nat := 3.
Definition WALKS_CAP : nat := 5.
Definition ZERO_PREFIX : Uid := replicate UID_LEN 0.

Inductive Verdict := VCandidate (n : Found) | VCollision | VEmpty.

(** What a probe's reply says. *)
Definition verdict_of (len : nat) (prefix : Uid) (reply : Reply) : Verdict :=
  let clean := (rp_garble reply =? 0) && negb (rp_trailing reply) in
  match rp_statuses reply, clean with
  | [], true => VEmpty
  | [s], true =>
      if bool_decide (st_result s = Some RcOk) && Nat.eqb (length (st_payload s)) UID_LEN then
        if matches_prefix (st_payload s) prefix len then VCandidate (mkFound (st_payload s) (st_id s)) else VCollision
      else VCollision
  | _, _ => VCollision
  end.

(** Byte-array order, the derived [Ord] of [Uid]. *)
Fixpoint uid_leb (a b : Uid) : bool :=
  match a, b with
  | [], _ => true
  | _ :: _, [] => false
  | x :: a', y :: b' => (x <? y) || ((x =? y) && uid_leb a' b')
  end.
(** [sort_by_key], a stable sort. *)
Fixpoint insert_by_uid (f : Found) (l : list Found) : list Found :=
  match l with
  | [] => [f]
  | g :: l' => if uid_leb (fd_uid f) (fd_uid g) then f :: l else g :: insert_by_uid f l'
  end.
Definition sort_by_uid (l : list Found) : list Found := foldr insert_by_uid [] l.

Section mgmt.
Context {P : Type} {PP : Pipe P}.
Variable turns : nat.
Definition MGMT : Inst := Inst_instruction OpMgmt 0.

Definition mgmt_settle : CM P unit := Client_pause PROBE_SETTLE.

Definition probe (len : nat) (prefix : Uid) : CM P Verdict :=
  do p <- cexpect (build_mgmt_enum (replicate (2 + UID_LEN) 0) (Z.of_nat len) prefix);
  do reply <- Client_exchange turns Id_BROADCAST MGMT (built p);
  let verdict := verdict_of len prefix reply in
  (match verdict with VCollision => mgmt_settle | _ => cret tt end) ;;
  cret verdict.

Fixpoint probe_again (n : nat) (len : nat) (prefix : Uid) (verdict : Verdict) : CM P Verdict :=
  match n, verdict with
  | S n', VEmpty => mgmt_settle ;; do verdict <- probe len prefix; probe_again n' len prefix verdict
  | _, _ => cret verdict
  end.
Definition probe_settled (len : nat) (prefix : Uid) : CM P Verdict :=
  do verdict <- probe len prefix; probe_again EMPTY_RETRIES len prefix verdict.

(** A full-depth collision, retried. *)
Fixpoint probe_leaf (n : nat) (prefix : Uid) : CM P (option Found) :=
  match n with
  | O => cret None
  | S n' =>
      do verdict <- probe FULL prefix;
      match verdict with VCandidate node => cret (Some node) | _ => probe_leaf n' prefix end
  end.

Definition descend (len : nat) (prefix : Uid) (stack : list (nat * Uid)) : list (nat * Uid) :=
  (S len, with_bit prefix len true) :: (S len, with_bit prefix len false) :: stack.

(** One popped node: what it adds to the roster, and the stack after it. *)
Definition walk_node (len : nat) (prefix : Uid) (stack : list (nat * Uid)) : CM P (list Found * list (nat * Uid)) :=
  do verdict <- probe_settled len prefix;
  match verdict with
  | VEmpty => cret ([], stack)
  | VCandidate node =>
      if Nat.eqb len FULL then cret ([node], stack)
      else
        let b := mgmt_bit (fd_uid node) len in
        do own <- probe_settled (S len) (with_bit prefix len b);
        do sib <- probe_settled (S len) (with_bit prefix len (negb b));
        match own, sib with
        | VCandidate n2, VEmpty =>
            if bool_decide (fd_uid n2 = fd_uid node) then cret ([n2], stack) else cret ([], descend len prefix stack)
        | _, _ => cret ([], descend len prefix stack)
        end
  | VCollision =>
      if Nat.eqb len FULL then
        do leaf <- probe_leaf FULL_DEPTH_RETRIES prefix;
        cret (match leaf with Some node => [node] | None => [] end, stack)
      else cret ([], descend len prefix stack)
  end.

Fixpoint walk_loop (fuel : nat) (found : list Found) (stack : list (nat * Uid)) : CM P (list Found) :=
  match stack, fuel with
  | [], _ => cret found
  | _, O => fun _ => None
  | (len, prefix) :: stack', S fuel' =>
      do r <- walk_node len prefix stack';
      walk_loop fuel' (found ++ r.1) r.2
  end.
Definition walk (fuel : nat) : CM P (list Found) :=
  do found <- walk_loop fuel [] [(0%nat, ZERO_PREFIX)];
  cret (sort_by_uid found).

Fixpoint discover_loop (n fuel : nat) (prev : list Found) : CM P (list Found) :=
  match n with
  | O => cret prev
  | S n' =>
      Client_pause (4 * PROBE_SETTLE) ;;
      do next <- walk fuel;
      if bool_decide (next = prev) then cret next else discover_loop n' fuel next
  end.
Definition discover (fuel : nat) : CM P (list Found) :=
  do prev <- walk fuel; discover_loop (WALKS_CAP - 1) fuel prev.

Definition bus_present : CM P bool :=
  do verdict <- probe_settled 0 ZERO_PREFIX;
  cret (match verdict with VEmpty => false | _ => true end).

Fixpoint find_baud_in (rates : list BaudRate) : CM P (option BaudRate) :=
  match rates with
  | [] => cret None
  | rate :: rates' =>
      Client_host_baud turns rate ;;
      do present <- bus_present;
      if present then cret (Some rate) else find_baud_in rates'
  end.
Definition find_bus_baud : CM P (option BaudRate) := find_baud_in [B1000000; B500000; B2000000; B3000000].

Definition expect_ok_from (reply : Reply) (id : Id) : result unit Error :=
  match rp_outcome reply with
  | OcTimeout slot => Err (ErrTimeout slot)
  | _ =>
      match rp_statuses reply with
      | [s] =>
          if st_id s =? id then
            match st_result s with Some RcOk => Ok tt | Some code => Err (ErrServo code) | None => Err desync end
          else Err desync
      | _ => Err desync
      end
  end.

Definition assign (uid : Uid) (new_id : Id) : CM P unit :=
  do p <- cexpect (build_mgmt_assign (replicate (2 + UID_LEN + 1) 0) uid new_id);
  do reply <- Client_exchange turns Id_BROADCAST MGMT (built p);
  ctry (expect_ok_from reply new_id).

Fixpoint cal (trains : nat) (gap_us gaps : Z) : CM P unit :=
  match trains with
  | O => cret tt
  | S trains' =>
      do p <- cexpect (build_mgmt_cal (replicate 8 0) gap_us gaps);
      Client_exchange turns Id_BROADCAST MGMT (built p) ;; cal trains' gap_us gaps
  end.

Definition mgmt_op (id : Id) (op : MgmtOp) : CM P unit :=
  do p <- cexpect (build_mgmt (replicate 2 0) op);
  do reply <- Client_exchange turns id MGMT (built p);
  ctry (expect_ok_from reply id).
Definition mgmt_save (id : Id) : CM P unit := mgmt_op id MoSave.
Definition mgmt_reboot (id : Id) : CM P unit := mgmt_op id MoReboot.
Definition mgmt_factory (id : Id) : CM P unit := mgmt_op id MoFactory.

(** An engine timeout is an answer, any other error ends the sweep. *)
Definition or_timeout {A B} (m : CM P A) (ok : A -> B) (silent : B) : CM P B :=
  ccatch m (fun r => match r with
                     | Ok a => cret (ok a)
                     | Err (ErrTimeout _) => cret silent
                     | Err e => cfail e
                     end).
Fixpoint ping_sweep (ids : list Id) : CM P (list (Id * bool)) :=
  match ids with
  | [] => cret []
  | id :: ids' =>
      do alive <- or_timeout (Client_ping turns id) (fun _ => true) false;
      do rest <- ping_sweep ids';
      cret ((id, alive) :: rest)
  end.
Definition rescue_sweep (ids : list Id) : CM P (list (Id * bool)) := Client_rescue turns ;; ping_sweep ids.

Fixpoint write_bauds (ids : list Id) (rate : BaudRate) : CM P unit :=
  match ids with
  | [] => cret tt
  | id :: ids' =>
      or_timeout (Client_write turns id BAUD_RATE_IDX [BaudRate_as_idx rate]) (fun _ => tt) tt ;; write_bauds ids' rate
  end.
Definition mgmt_set_baud (ids : list Id) (rate : BaudRate) : CM P (list (Id * bool)) :=
  write_bauds ids rate ;; Client_host_baud turns rate ;; mgmt_settle ;; ping_sweep ids.

Record CalTrace := mkCalTrace { ct_id : Id; ct_trims : list Z }.
(** The last two trains agreed. *)
Definition CalTrace_converged (t : CalTrace) : bool :=
  match rev (ct_trims t) with b :: a :: _ => a =? b | _ => false end.
Fixpoint sample_trims (traces : list CalTrace) : CM P (list CalTrace) :=
  match traces with
  | [] => cret []
  | t :: traces' =>
      do b <- Client_read turns (ct_id t) TRIM_STEPS 1;
      do rest <- sample_trims traces';
      cret (mkCalTrace (ct_id t) (ct_trims t ++ [i8 (default 0 (b !! 0%nat))]) :: rest)
  end.
Fixpoint cal_rounds (trains : nat) (gap_us gaps : Z) (traces : list CalTrace) : CM P (list CalTrace) :=
  match trains with
  | O => cret traces
  | S trains' => cal 1 gap_us gaps ;; do traces <- sample_trims traces; cal_rounds trains' gap_us gaps traces
  end.
Definition cal_verify (ids : list Id) (trains : nat) (gap_us gaps : Z) : CM P (list CalTrace) :=
  cal_rounds trains gap_us gaps (map (fun id => mkCalTrace id []) ids).
End mgmt.
