(* ===== verification/Cli.v ===== *)
(** * The operator's tool (tools/osc/src/main.rs)

    Every verb of [osc] over the client.  A command is a computation over the
    connected client that may print lines and fail; [None] is a panic or an
    exhausted record loop.  A printed line is a value of [Out] with the line's
    arguments, not its layout.  Opening the USB pipe is the parameter [opened],
    argument parsing (clap) has produced a [Cli]. *)

From Stdlib Require Import String.
From S2P Require Import Prelude FrameBytes Wire Frame Build Stage Table Regions Export Text Descriptor HostEngine Link EdgeUnwrap ClientSession Client ClientContract Mgmt.
Open Scope string_scope.
Open Scope list_scope.
Open Scope Z_scope.

(** ** Arguments *)

Inductive ProfileCmd := PcGet (slot : Z) | PcSet (slot : Z) (spans : list rstr).
Inductive Cmd :=
  | CInfo | CRails | CRail3v3 (on : bool) | CRail5v (on : bool) | CBootloader | CDiscover
  | CRescue (set_baud : option rstr) (save : bool)
  | CEnum (prefix_len : Z) (prefix : rstr)
  | CAssign (uid : rstr) (new_id : Z)
  | CBaud (to : rstr) (ids : list Z)
  | CDeadline (us : Z) (ids : list Z)
  | CSave | CFactory | CReboot
  | CProfile (cmd : ProfileCmd)
  | CCal (trains gap_us gaps : Z) (ids : list Z)
  | CPing | CStatus
  | CClear (ids : list Z)
  | CRead (addr : rstr) (len : Z)
  | CWrite (addr data : rstr) (hold noreply : bool)
  | CGread (addr : rstr) (count : Z) (ids : list Z)
  | CGwrite (addr data : rstr) (ids : list Z) (hold : bool)
  | CCommit
  | CGet (field : rstr)
  | CSet (field value : rstr) (hold noreply : bool)
  | CDump.
Record Cli := mkCli { cli_baud : rstr; cli_id : Z; cli_cmd : Cmd }.

Definition on_off (s : rstr) : option bool :=
  if bool_decide (s = lit "on") then Some true else if bool_decide (s = lit "off") then Some false else None.

(** ** Lines and errors *)

Inductive EnumVerdict := EvSilent | EvOne | EvCollision.
Inductive Out :=
  | OInfo (version ticks_per_us : Z) | ORails (v3v3 v5 : bool) | OBootloader
  | OBusAt (hz : Z) | ONoServo (hz : Z) | OServo (hz id : Z) (uid : rstr) | OTotal (n : nat)
  | ORescued (id : Z) (uid : rstr) | OVolatileUntilReboot (hz : Z)
  | ONotAnswering (id hz : Z) | OAnswering (hz : Z) | OSaved (id : Z) | OFactory (id : Z) | OReboot (id : Z)
  | OEnumStatus (id : Z) (r : option ResultCode) (payload : rstr)
  | OEvidence (n : nat) (garble : Z) (trailing : bool) | OVerdict (v : EnumVerdict)
  | OAssigned (id : Z) | ODeadline (id us : Z) | OMirror
  | OIdentity (id : Z) (i : Identity) | OHealth (h : Health)
  | OSpan (slot addr count : Z) | OSlotEmpty (slot : Z) | OSlotData (total : Z) (data : rstr)
  | OSlotCleared (slot : Z) | OSlotSet (slot : Z) (spans : nat) (total : Z)
  | OCal (trains gaps gap_us : Z) | OTrace (id : Z) (trims : list Z) (converged : bool)
  | OPing (id : Z) (p : Ping) | OCleared (id : Z)
  | OHexLine (addr : Z) (data : rstr)
  | OStaged (len : nat) (addr : rstr) | OSentNoReply (len : nat) (addr : rstr) | OWrote (len : nat) (addr : rstr)
  | OChainStatus (slot id : Z) (r : option ResultCode) (alert : bool) (payload : rstr)
  | OGroupStaged (len targets : nat) (addr : rstr) | OGroupSent (len targets : nat) (addr : rstr) | OCommitted
  | ONote (n : Note)
  | OGet (name text : rstr) (addr width : Z) (raw : rstr)
  | OSetStaged (name value : rstr) (addr : Z) | OSetSent (name value : rstr) (addr : Z) | OSetWrote (name value : rstr) (addr : Z)
  | ODump (addr : Z) (name : rstr) (access : Access) (text : rstr).

Inductive CliError :=
  | CeClient (e : Error)
  | CeDesc (e : DescError)
  | CeOpen
  | CeInt (k : IntErrorKind)
  | CeRateText (k : IntErrorKind)
  | CeRate (bps : Z)
  | CeUid (got : nat)
  | CeSpanForm
  | CeSpan (s : rstr)
  | CeNoBus
  | CeRescue
  | CeMissing (lost : Z)
  | CeTorque (id : Z)
  | CePrefixLen
  | CePrefix
  | CeSpanCount
  | CeShortIdentity (got : nat)
  | CeChainTimeout (slot : Z).

(** ** Text arguments *)

Definition parse_u16 (s : rstr) : result Z CliError :=
  map_err CeInt (match strip_prefix (lit "0x") s with
                 | Some h => from_str_radix ty_u16 16 h
                 | None => from_str_radix ty_u16 10 s
                 end).

Definition ALL_RATES : list BaudRate := [B500000; B1000000; B2000000; B3000000].
Definition parse_rate (s : rstr) : result BaudRate CliError :=
  let? bps := map_err CeRateText (from_str_radix ty_u32 10 s) in
  match List.find (fun r => BaudRate_as_hz r =? bps) ALL_RATES with
  | Some r => Ok r
  | None => Err (CeRate bps)
  end.

Definition of_desc {A} (m : Rx A) : option (result A CliError) := map_err CeDesc <$> m.

(** Discover prints a UID most significant byte first. *)
Definition uid_text (uid : Uid) : rstr := concat (hex2 <$> rev uid).
Definition parse_uid (s : rstr) : option (result Uid CliError) :=
  match of_desc (parse_hex s) with
  | Some (Ok bytes) =>
      Some (if Nat.eqb (length bytes) UID_LEN then Ok (rev bytes) else Err (CeUid (length bytes)))
  | Some (Err e) => Some (Err e)
  | None => None
  end.

Definition COLON : Z := 58.
Definition parse_span (s : rstr) : result (Z * Z) CliError :=
  let? ac := match split_once COLON s with Some ac => Ok ac | None => Err CeSpanForm end in
  let? addr := parse_u16 ac.1 in
  let? count := map_err CeInt (from_str_radix ty_u8 10 ac.2) in
  if (1023 <? addr) || (count =? 0) || (63 <? count) then Err (CeSpan s) else Ok (addr, count).
Fixpoint parse_spans (ss : list rstr) : result (list (Z * Z)) CliError :=
  match ss with
  | [] => Ok []
  | s :: ss' => let? x := parse_span s in let? xs := parse_spans ss' in Ok (x :: xs)
  end.

Definition ids_or_default (ids : list Z) (id : Z) : list Id := match ids with [] => [id] | _ => ids end.

(** ** Command computations *)

Definition XM (P A : Type) : Type := Client P -> option (result A CliError * list Out * Client P).
Section monad.
Context {P : Type}.
Definition xret {A} (a : A) : XM P A := fun c => Some (Ok a, [], c).
Definition xfail {A} (e : CliError) : XM P A := fun c => Some (Err e, [], c).
Definition xprint (o : Out) : XM P unit := fun c => Some (Ok tt, [o], c).
Definition xbind {A B} (m : XM P A) (k : A -> XM P B) : XM P B := fun c =>
  match m c with
  | None => None
  | Some (Err e, out, c1) => Some (Err e, out, c1)
  | Some (Ok a, out, c1) =>
      match k a c1 with None => None | Some (r, out', c2) => Some (r, out ++ out', c2) end
  end.
(** [?] on a client call, on a result and on a codec result. *)
Definition xcall {A} (m : CM P A) : XM P A := fun c =>
  match m c with None => None | Some (r, c1) => Some (map_err CeClient r, [], c1) end.
Definition xtry {A} (r : result A CliError) : XM P A := fun c => Some (r, [], c).
Definition xdesc {A} (m : Rx A) : XM P A := fun c =>
  match of_desc m with None => None | Some r => Some (r, [], c) end.
(** A slice out of range, an overflow. *)
Definition xexpect {A} (o : option A) : XM P A := fun c => match o with Some a => Some (Ok a, [], c) | None => None end.
Fixpoint xeach {A} (f : A -> XM P unit) (l : list A) : XM P unit :=
  match l with [] => xret tt | a :: l' => xbind (f a) (fun _ => xeach f l') end.
End monad.

Declare Scope cli_scope.
Delimit Scope cli_scope with cli.
Notation "'do' x <- m ; k" := (xbind m (fun x => k))
  (at level 10, x pattern, m at level 100, k at level 200) : cli_scope.
Notation "m ;; k" := (xbind m (fun _ => k)) (at level 100, k at level 200, right associativity) : cli_scope.
Local Open Scope cli_scope.

Section commands.
Context {P : Type} {PP : Pipe P} {FS : Fs}.
Variables (turns fuel : nat).

(** ** Discovery and bus management *)

Definition print_rails (r : bool * bool) : XM P unit := xprint (ORails r.1 r.2).

Definition is_auto (baud : rstr) : bool := bool_decide (baud = lit "auto").
Definition bus_setup (baud : rstr) : XM P unit :=
  if is_auto baud then
    do r <- xcall (find_bus_baud turns);
    match r with Some rate => xprint (OBusAt (BaudRate_as_hz rate)) | None => xfail CeNoBus end
  else do rate <- xtry (parse_rate baud); xcall (Client_host_baud turns rate).

Fixpoint discover_rates (rates : list BaudRate) (total : nat) : XM P nat :=
  match rates with
  | [] => xret total
  | rate :: rates' =>
      xcall (Client_host_baud turns rate) ;;
      do found <- xcall (discover turns fuel);
      match found with [] => xprint (ONoServo (BaudRate_as_hz rate)) | _ => xret tt end ;;
      xeach (fun f => xprint (OServo (BaudRate_as_hz rate) (fd_id f) (uid_text (fd_uid f)))) found ;;
      discover_rates rates' (total + length found)
  end.
Definition cmd_discover (baud : rstr) : XM P unit :=
  do rates <- (if is_auto baud then xret ALL_RATES else do r <- xtry (parse_rate baud); xret [r]);
  do total <- discover_rates rates 0;
  xprint (OTotal total).

Fixpoint lost_count (roster : list (Id * bool)) (rate : BaudRate) (lost : Z) : XM P Z :=
  match roster with
  | [] => xret lost
  | (id, alive) :: rest =>
      if alive then lost_count rest rate lost
      else xprint (ONotAnswering id (BaudRate_as_hz rate)) ;; lost_count rest rate (lost + 1)
  end.
Definition migrate (ids : list Id) (rate : BaudRate) : XM P unit :=
  do roster <- xcall (mgmt_set_baud turns ids rate);
  do lost <- lost_count roster rate 0;
  if 0 <? lost then xfail (CeMissing lost) else xprint (OAnswering (BaudRate_as_hz rate)).

Definition save_one (id : Id) : XM P unit := fun c =>
  match mgmt_save turns id c with
  | None => None
  | Some (Ok _, c1) => Some (Ok tt, [OSaved id], c1)
  | Some (Err (ErrServo RcAccess), c1) => Some (Err (CeTorque id), [], c1)
  | Some (Err e, c1) => Some (Err (CeClient e), [], c1)
  end.

Definition cmd_rescue (set_baud : option rstr) (do_save : bool) : XM P unit :=
  xcall (Client_rescue turns) ;;
  xcall (Client_pause 2000) ;;
  do found <- xcall (discover turns fuel);
  match found with
  | [] => xfail CeRescue
  | _ =>
      xeach (fun f => xprint (ORescued (fd_id f) (uid_text (fd_uid f)))) found ;;
      let ids := fd_id <$> found in
      match set_baud with
      | Some to => do rate <- xtry (parse_rate to); migrate ids rate
      | None => xprint (OVolatileUntilReboot (BaudRate_as_hz BaudRate_RESCUE))
      end ;;
      (if do_save then xeach save_one ids else xret tt)
  end.

Definition probe_verdict (reply : Reply) : EnumVerdict :=
  let clean := (rp_garble reply =? 0) && negb (rp_trailing reply) in
  match rp_statuses reply, clean with
  | [], true => EvSilent
  | [_], true => EvOne
  | _, _ => EvCollision
  end.
Definition enum_probe (prefix_len : Z) (prefix_hex : rstr) : XM P unit :=
  do bytes <- xdesc (parse_hex prefix_hex);
  if (128 <? prefix_len) || negb (Z.of_nat (length bytes) =? (prefix_len + 7) / 8) then xfail CePrefixLen
  else
    let prefix := splice 0 bytes (replicate UID_LEN 0) in
    do p <- xtry (match build_mgmt_enum (replicate (2 + UID_LEN) 0) prefix_len prefix with
                  | Some p => Ok p | None => Err CePrefix end);
    do reply <- xcall (Client_exchange turns Id_BROADCAST MGMT (built p));
    xeach (fun s => xprint (OEnumStatus (st_id s) (st_result s) (hex (st_payload s)))) (rp_statuses reply) ;;
    xprint (OEvidence (length (rp_statuses reply)) (rp_garble reply) (rp_trailing reply)) ;;
    xprint (OVerdict (probe_verdict reply)).

Definition cmd_status (id : Id) : XM P unit :=
  do i <- xcall (client_identity turns id);
  do h <- xcall (client_health turns id);
  xprint (OIdentity id i) ;; xprint (OHealth h).

(** ** Profiles *)

(** Whole pairs of a byte string ([as_chunks::<2>().0]). *)
Fixpoint word_pairs (bs : list Z) : list Z :=
  match bs with a :: b :: bs' => from_le16 a b :: word_pairs bs' | _ => [] end.
Fixpoint span_lines (slot : Z) (words : list Z) (total : Z) : XM P Z :=
  match words with
  | [] => xret total
  | w :: ws =>
      let '(addr, count) := profile_span_split w in
      if count =? 0 then span_lines slot ws total
      else
        xprint (OSpan slot addr count) ;;
        do total <- xexpect (if total + count <=? 65535 then Some (total + count) else None);
        span_lines slot ws total
  end.
Definition profile_get (id : Id) (slot : Z) : XM P unit :=
  do words <- xcall (Client_read turns id (profile_slot_addr slot) (PROFILE_SPANS_PER_SLOT * 2));
  do total <- span_lines slot (word_pairs words) 0;
  if total =? 0 then xprint (OSlotEmpty slot)
  else do data <- xcall (Client_read_profile turns id slot); xprint (OSlotData total (hex data)).

(** The slot's words, zero-padded. *)
Definition slot_data (spans : list (Z * Z)) : list Z :=
  let data := concat ((fun s => to_le16 (profile_span_word s.1 s.2)) <$> spans) in
  data ++ replicate (Z.to_nat (PROFILE_SPANS_PER_SLOT * 2) - length data) 0.
Definition profile_set (id : Id) (slot : Z) (args : list rstr) : XM P unit :=
  do spans <- xtry (parse_spans args);
  if PROFILE_SPANS_PER_SLOT <? Z.of_nat (length spans) then xfail CeSpanCount
  else
    xcall (Client_write turns id (profile_slot_addr slot) (slot_data spans)) ;;
    match spans with
    | [] => xprint (OSlotCleared slot)
    | _ => xprint (OSlotSet slot (length spans) (foldr (fun s n => s.2 + n) 0 spans))
    end.
Definition profile (id : Id) (cmd : ProfileCmd) : XM P unit :=
  match cmd with PcGet slot => profile_get id slot | PcSet slot spans => profile_set id slot spans end.

(** ** Registers by name *)

Definition select_descriptor (id : Id) (reg : Registry) : XM P Descriptor :=
  do b <- xcall (Client_read turns id 0 4);
  match b with
  | b0 :: b1 :: b2 :: _ :: _ =>
      do dn <- xtry (map_err CeDesc (Registry_select reg (from_le16 b0 b1) b2));
      match dn.2 with Some n => xprint (ONote n) | None => xret tt end ;;
      xret dn.1
  | _ => xfail (CeShortIdentity (length b))
  end.

Definition cmd_get (id : Id) (name : rstr) : XM P unit :=
  do reg <- xdesc Registry_load;
  do d <- select_descriptor id reg;
  do f <- xtry (map_err CeDesc (Descriptor_field d name));
  do bytes <- xcall (Client_read turns id (df_addr f) (df_width f));
  do text <- xtry (map_err CeDesc (Descriptor.decode f bytes));
  xprint (OGet (df_name f) text (df_addr f) (df_width f) (hex bytes)).

Definition cmd_set (id : Id) (name value : rstr) (hold noreply : bool) : XM P unit :=
  do reg <- xdesc Registry_load;
  do d <- select_descriptor id reg;
  do f <- xtry (map_err CeDesc (Descriptor_field d name));
  do data <- xdesc (encode f value);
  if hold then
    xcall (Client_write_hold turns id (df_addr f) data) ;; xprint (OSetStaged (df_name f) value (df_addr f))
  else if noreply then
    xcall (Client_write_noreply turns id (df_addr f) data) ;; xprint (OSetSent (df_name f) value (df_addr f))
  else
    xcall (Client_write turns id (df_addr f) data) ;; xprint (OSetWrote (df_name f) value (df_addr f)).

Definition CHUNK : Z := 252.
(** [table[start..start + len].copy_from_slice]. *)
Definition copy_in (table : list Z) (start : nat) (bytes : list Z) : option (list Z) :=
  if Nat.leb (start + length bytes) (length table) then Some (splice start bytes table) else None.
(** [n] bounds the chunks. *)
Fixpoint dump_chunks (n : nat) (id : Id) (size addr : Z) (table : list Z) : XM P (list Z) :=
  if size <=? addr then xret table
  else
    match n with
    | O => fun _ => None
    | S n' =>
        let len := Z.min CHUNK (size - addr) in
        do bytes <- xcall (Client_read turns id addr len);
        do table <- xexpect (copy_in table (Z.to_nat addr) bytes);
        dump_chunks n' id size (addr + len) table
    end.
Definition dump_field (table : list Z) (f : DField) : XM P unit :=
  do stop <- xexpect (field_end f);
  do bytes <- xexpect (get_range table (Z.to_nat (df_addr f)) (Z.to_nat stop));
  do text <- xtry (map_err CeDesc (Descriptor.decode f bytes));
  xprint (ODump (df_addr f) (df_name f) (df_access f) text).
Definition cmd_dump (id : Id) : XM P unit :=
  do reg <- xdesc Registry_load;
  do d <- select_descriptor id reg;
  let size := ds_table_size d in
  do table <- dump_chunks (Z.to_nat size) id size 0 (replicate (Z.to_nat size) 0);
  xeach (dump_field table) (ds_fields d).

(** ** Raw spans and groups *)

(** [chunks(16)] with their addresses. *)
Fixpoint hex_lines (n : nat) (addr : Z) (data : list Z) : XM P unit :=
  match n, data with
  | _, [] => xret tt
  | O, _ => xret tt
  | S n', _ => xprint (OHexLine addr (hex (take 16 data))) ;; hex_lines n' (addr + 16) (drop 16 data)
  end.
Definition cmd_read (id : Id) (addr : rstr) (len : Z) : XM P unit :=
  do a <- xtry (parse_u16 addr);
  do data <- xcall (Client_read turns id a len);
  hex_lines (length data) a data.

Definition cmd_write (id : Id) (addr data : rstr) (hold noreply : bool) : XM P unit :=
  do data <- xdesc (parse_hex data);
  do a <- xtry (parse_u16 addr);
  if hold then xcall (Client_write_hold turns id a data) ;; xprint (OStaged (length data) addr)
  else if noreply then xcall (Client_write_noreply turns id a data) ;; xprint (OSentNoReply (length data) addr)
  else xcall (Client_write turns id a data) ;; xprint (OWrote (length data) addr).

Definition cmd_gread (ids : list Id) (addr : rstr) (count : Z) : XM P unit :=
  do a <- xtry (parse_u16 addr);
  do chain <- xcall (Client_gread turns ids a count);
  xeach (fun s => xprint (OChainStatus (st_slot s) (st_id s) (st_result s) (st_alert s) (hex (st_payload s))))
    (cn_statuses chain) ;;
  match cn_timeout_slot chain with Some slot => xfail (CeChainTimeout slot) | None => xret tt end.

Definition cmd_gwrite (ids : list Id) (addr data : rstr) (hold : bool) : XM P unit :=
  do data <- xdesc (parse_hex data);
  let pairs := (fun id => (id, data)) <$> ids in
  do a <- xtry (parse_u16 addr);
  if hold then
    xcall (Client_gwrite_hold turns a (u8 (Z.of_nat (length data))) pairs) ;;
    xprint (OGroupStaged (length data) (length pairs) addr)
  else
    xcall (Client_gwrite turns a (u8 (Z.of_nat (length data))) pairs) ;;
    xprint (OGroupSent (length data) (length pairs) addr).

(** ** The verbs *)

Definition RESPONSE_DEADLINE_US : Z := 18.
Definition cmd_deadline (ids : list Id) (us : Z) : XM P unit :=
  xeach (fun id => xcall (Client_write turns id RESPONSE_DEADLINE_US (to_le16 us)) ;; xprint (ODeadline id us)) ids ;;
  xcall (Client_set_response_deadline turns us) ;;
  xprint OMirror.
Definition cmd_cal (ids : list Id) (trains gap_us gaps : Z) : XM P unit :=
  do traces <- xcall (cal_verify turns ids (Z.to_nat trains) gap_us gaps);
  xprint (OCal trains gaps gap_us) ;;
  xeach (fun t => xprint (OTrace (ct_id t) (ct_trims t) (CalTrace_converged t))) traces.
Definition cmd_assign (uid : rstr) (new_id : Z) : XM P unit :=
  do u <- (fun c => match parse_uid uid with None => None | Some r => Some (r, [], c) end);
  xcall (assign turns u new_id) ;; xprint (OAssigned new_id).
Definition cmd_info : XM P unit := fun c =>
  xprint (OInfo (li_version (cl_info c)) (li_ticks_per_us (cl_info c))) c.

(** Verbs of the adapter itself, and verbs of the bus behind it. *)
Definition verb (cli : Cli) : XM P unit :=
  let id := cli_id cli in
  let bus (m : XM P unit) := bus_setup (cli_baud cli) ;; m in
  match cli_cmd cli with
  | CInfo => cmd_info
  | CRails => do r <- xcall (Client_rails turns); print_rails r
  | CRail3v3 on => do r <- xcall (Client_set_rail_3v3 turns on); print_rails r
  | CRail5v on => do r <- xcall (Client_set_rail_5v turns on); print_rails r
  | CBootloader => xcall (Client_enter_bootloader turns) ;; xprint OBootloader
  | CDiscover => cmd_discover (cli_baud cli)
  | CRescue set_baud save => cmd_rescue set_baud save
  | CEnum prefix_len prefix => bus (enum_probe prefix_len prefix)
  | CAssign uid new_id => bus (cmd_assign uid new_id)
  | CBaud to ids => bus (do rate <- xtry (parse_rate to); migrate (ids_or_default ids id) rate)
  | CDeadline us ids => bus (cmd_deadline (ids_or_default ids id) us)
  | CSave => bus (save_one id)
  | CFactory => bus (xcall (mgmt_factory turns id) ;; xprint (OFactory id))
  | CReboot => bus (xcall (mgmt_reboot turns id) ;; xprint (OReboot id))
  | CProfile cmd => bus (profile id cmd)
  | CCal trains gap_us gaps ids => bus (cmd_cal (ids_or_default ids id) trains gap_us gaps)
  | CPing => bus (do p <- xcall (Client_ping turns id); xprint (OPing id p))
  | CStatus => bus (cmd_status id)
  | CClear ids =>
      bus (xeach (fun id => xcall (clear_counters turns id) ;; xprint (OCleared id)) (ids_or_default ids id))
  | CRead addr len => bus (cmd_read id addr len)
  | CWrite addr data hold noreply => bus (cmd_write id addr data hold noreply)
  | CGread addr count ids => bus (cmd_gread (ids_or_default ids id) addr count)
  | CGwrite addr data ids hold => bus (cmd_gwrite (ids_or_default ids id) addr data hold)
  | CCommit => bus (xcall (Client_commit turns) ;; xprint OCommitted)
  | CGet field => bus (cmd_get id field)
  | CSet field value hold noreply => bus (cmd_set id field value hold noreply)
  | CDump => bus (cmd_dump id)
  end.

(** Open the pipe, shake hands, run the verb. *)
Definition osc_main (opened : option P) (cli : Cli) : option (result unit CliError * list Out) :=
  match opened with
  | None => Some (Err CeOpen, [])
  | Some pipe =>
      match Client_connect turns pipe with
      | None => None
      | Some (Err e) => Some (Err (CeClient e), [])
      | Some (Ok c) => match verb cli c with None => None | Some (r, out, _) => Some (r, out) end
      end
  end.
End commands.

(** ** UIDs as text *)

(** The UID discover prints is the one assign takes. *)
Theorem uid_text_parses uid : length uid = UID_LEN -> bytes_ok uid -> parse_uid (uid_text uid) = Some (Ok uid).
Proof.
  intros Hl Hb. assert (bytes_ok (rev uid)) as Hr by (apply List.Forall_rev; done).
  assert (Hp : plain (concat (hex2 <$> rev uid))).
  { clear Hl Hb. induction Hr as [|b bs Hb Hbs IH]; [constructor|]. apply List.Forall_app. split; [by apply hex2_plain|done]. }
  unfold parse_uid, uid_text, parse_hex. rewrite (filter_plain _ Hp), str_len_pairs by done.
  rewrite Nat.odd_mul. cbn [Nat.odd Nat.even negb andb].
  rewrite hex_pairs_concat by (done || rewrite length_pairs; lia). cbn.
  by rewrite length_rev, Hl, rev_involutive.
Qed.

(** ** Profile slots *)

Lemma word_pairs_app ws rest : Forall (fun w => is_u16 w) ws ->
  word_pairs (concat (to_le16 <$> ws) ++ rest) = ws ++ word_pairs rest.
Proof.
  induction 1 as [|w ws Hw _ IH]; [done|]. cbn [fmap list_fmap concat to_le16 app word_pairs].
  by rewrite IH, from_to_le16.
Qed.

Definition span_ok (s : Z * Z) : Prop := 0 <= s.1 <= 1023 /\ 1 <= s.2 <= 63.

Lemma span_word_u16 s : span_ok s -> is_u16 (profile_span_word s.1 s.2).
Proof.
  intros [Ha Hc]. unfold profile_span_word. apply (lor_range 16); [lia|change (2 ^ 16) with 65536; apply u16_range|].
  assert (H := land_range_r s.2 63 ltac:(lia)). change (2 ^ 16) with 65536. lia.
Qed.

Lemma word_pairs_zeros n : word_pairs (replicate (2 * n) 0) = replicate n 0.
Proof. induction n as [|n IH]; [done|]. replace (2 * S n)%nat with (S (S (2 * n))) by lia. simpl in *. by rewrite IH. Qed.

Lemma span_lines_zeros {P} slot n total (c : Client P) :
  span_lines slot (replicate n 0) total c = Some (Ok total, [], c).
Proof. induction n; [done|]. simpl. done. Qed.

Lemma span_lines_spans {P} slot spans rest (c : Client P) r out : forall total,
  Forall span_ok spans -> 0 <= total -> total + 63 * Z.of_nat (length spans) <= 65535 ->
  span_lines slot rest (total + foldr (fun s n => s.2 + n) 0 spans) c = Some (r, out, c) ->
  span_lines slot (((fun s => profile_span_word s.1 s.2) <$> spans) ++ rest) total c =
    Some (r, ((fun s => OSpan slot s.1 s.2) <$> spans) ++ out, c).
Proof.
  induction spans as [|s spans IH]; intros total Hs H0 Ht H; [simpl in *; by rewrite Z.add_0_r in H|].
  apply Forall_cons_1 in Hs as [Hs1 Hs]. destruct Hs1 as [Ha Hc]. rewrite !fmap_cons. cbn [app span_lines].
  rewrite profile_span_roundtrip by lia. assert ((s.2 =? 0) = false) as -> by lia.
  cbn [length] in Ht. unfold xbind, xprint, xexpect. assert ((total + s.2 <=? 65535) = true) as -> by lia.
  rewrite (IH (total + s.2)); [done|done|lia|lia|].
  cbn [foldr] in H. by rewrite Z.add_assoc in H.
Qed.

Lemma le16s_length {A} (f : A -> Z) l : length (concat ((fun s => to_le16 (f s)) <$> l)) = (2 * length l)%nat.
Proof.
  induction l as [|x l IH]; [done|].
  change (length (concat ((fun s => to_le16 (f s)) <$> x :: l))) with
    (2 + length (concat ((fun s => to_le16 (f s)) <$> l)))%nat. rewrite IH. simpl. lia.
Qed.

(** A slot's words read back as the spans that were set: [profile get] prints
    exactly the operator's spans and their total, whatever padding follows. *)
Theorem profile_slot_round_trip {P} slot spans (c : Client P) :
  Forall span_ok spans -> (length spans <= 8)%nat ->
  length (slot_data spans) = 16%nat /\
  span_lines slot (word_pairs (slot_data spans)) 0 c =
    Some (Ok (foldr (fun s n => s.2 + n) 0 spans), (fun s => OSpan slot s.1 s.2) <$> spans, c).
Proof.
  intros Hs Hn. set (ws := (fun s : Z * Z => profile_span_word s.1 s.2) <$> spans).
  assert (Hws : slot_data spans = concat (to_le16 <$> ws) ++ replicate (2 * (8 - length spans)) 0).
  { assert (Hc : concat ((fun s => to_le16 (profile_span_word s.1 s.2)) <$> spans) = concat (to_le16 <$> ws))
      by (unfold ws; by rewrite <- list_fmap_compose).
    unfold slot_data. rewrite le16s_length, Hc. do 2 f_equal.
    change (Z.to_nat (PROFILE_SPANS_PER_SLOT * 2)) with 16%nat. lia. }
  assert (Hu : Forall (fun w => is_u16 w) ws).
  { apply List.Forall_forall. intros w Hw. apply in_map_iff in Hw as (s & <- & Hin). apply span_word_u16.
    by apply (proj1 (List.Forall_forall _ _) Hs). }
  split.
  - unfold slot_data. rewrite length_app, length_replicate, le16s_length.
    change (Z.to_nat (PROFILE_SPANS_PER_SLOT * 2)) with 16%nat.
    lia.
  - rewrite Hws, word_pairs_app, word_pairs_zeros by done.
    rewrite <- (app_nil_r ((fun s => OSpan slot s.1 s.2) <$> spans)).
    apply span_lines_spans; [done|lia|lia|]. rewrite Z.add_0_l. apply span_lines_zeros.
Qed.

(** ** The dump shows the servo's memory *)

Definition slice (mem : list Z) (addr len : Z) : list Z := take (Z.to_nat len) (drop (Z.to_nat addr) mem).
Definition field_bytes (mem : list Z) (f : DField) : list Z := slice mem (df_addr f) (df_width f).

Section servo.
Context {P : Type} {PP : Pipe P} {FS : Fs} (turns : nat) (id : Id) (mem : list Z).

(** The servo answers these reads, in order, from its memory. *)
Inductive served : Client P -> list (Z * Z) -> Client P -> Prop :=
  | served_nil c : served c [] c
  | served_cons c c1 c2 addr len reqs :
      Client_read turns id addr len c = Some (Ok (slice mem addr len), c1) ->
      served c1 reqs c2 -> served c ((addr, len) :: reqs) c2.

(** The chunks a dump asks for from [addr] on. *)
Fixpoint chunk_reads (n : nat) (size addr : Z) : list (Z * Z) :=
  if size <=? addr then []
  else match n with
       | O => []
       | S n' => let len := Z.min CHUNK (size - addr) in (addr, len) :: chunk_reads n' size (addr + len)
       end.

Lemma window_length addr len : 0 <= addr -> 0 <= len -> addr + len <= Z.of_nat (length mem) ->
  length (slice mem addr len) = Z.to_nat len.
Proof. intros. unfold slice. rewrite length_take, length_drop. lia. Qed.

(** Filling in the next chunk extends the agreement with the memory. *)
Lemma splice_agrees table (a l : nat) :
  length table = length mem -> take a table = take a mem -> (a + l <= length mem)%nat ->
  take (a + l) (splice a (take l (drop a mem)) table) = take (a + l) mem.
Proof.
  intros Hl Ht Hb. apply list_eq. intros i. destruct (Nat.lt_ge_cases i (a + l)) as [Hi|Hi].
  - rewrite !lookup_take_lt, splice_lookup by (try lia; rewrite length_take, length_drop; lia).
    rewrite length_take, length_drop. destruct (Nat.leb a i && _) eqn:E.
    + apply andb_true_iff in E as [E1 E2]. zbool. rewrite lookup_take_lt, lookup_drop by lia. f_equal. lia.
    + assert ((i < a)%nat) by (apply andb_false_iff in E as [E|E]; zbool; lia).
      rewrite <- (lookup_take_lt table a i), <- (lookup_take_lt mem a i) by done. by rewrite Ht.
  - rewrite !lookup_take_ge by done. done.
Qed.

Lemma dump_chunks_ok n : forall addr table c c',
  let size := Z.of_nat (length mem) in
  0 <= addr -> length table = length mem -> take (Z.to_nat addr) table = take (Z.to_nat addr) mem ->
  size - addr <= Z.of_nat n -> served c (chunk_reads n size addr) c' ->
  dump_chunks turns n id size addr table c = Some (Ok mem, [], c').
Proof.
  induction n as [|n IH]; intros addr table c c' size H0 Hl Ht Hn Hs;
    cbn [dump_chunks chunk_reads] in *; destruct (size <=? addr) eqn:E; zbool; try lia.
  1, 2: inversion Hs; subst; unfold xret; do 3 f_equal; rewrite !take_ge in Ht by lia; by subst.
  set (len := Z.min CHUNK (size - addr)) in *.
  assert (Hlen : 0 < len <= size - addr) by (subst len; unfold CHUNK; lia).
  inversion Hs as [|? c1 ? ? ? ? Hr Hs']; subst. unfold xbind at 1, xcall at 1. rewrite Hr. cbn [map_err].
  unfold xbind at 1, xexpect at 1, copy_in. rewrite window_length, Hl by lia.
  rewrite (proj2 (Nat.leb_le _ _)) by lia. unfold slice.
  erewrite IH; [done|lia| |  |lia|exact Hs'].
  - rewrite length_splice; [done|]. rewrite length_take, length_drop. lia.
  - rewrite Z2Nat.inj_add by lia. apply splice_agrees; [done..|lia].
Qed.

(** Every field inside the table, its kind printable at its width. *)
Definition printable (d : Descriptor) : Prop :=
  0 <= ds_table_size d <= 65535 /\
  Forall (fun f => 0 <= df_addr f /\ 0 <= df_width f /\ df_addr f + df_width f <= ds_table_size d /\
    match df_kind f with KUint | KInt | KEnum => scalar_w (df_width f) | _ => True end) (ds_fields d).

Lemma decode_total f bytes : Z.of_nat (length bytes) = df_width f ->
  match df_kind f with KUint | KInt | KEnum => scalar_w (df_width f) | _ => True end ->
  exists t, Descriptor.decode f bytes = Ok t.
Proof.
  intros Hl Hk. assert (Hs : scalar_w (df_width f) -> exists v, scalar_le f bytes = Ok v).
  { intros Hw. unfold scalar_le. rewrite (proj2 (scalar_width_spec _) Hw), Hl, Z.ltb_irrefl. simpl. eauto. }
  unfold Descriptor.decode, read_uint, read_int. destruct (df_kind f); eauto.
  - destruct (Hs Hk) as [v ->]. simpl. eauto.
  - destruct (Hs Hk) as [v ->]. cbn [result_bind]. unfold scalar_w in Hk.
    destruct Hk as [E|[E|E]]; rewrite E; simpl; eauto.
  - destruct (Hs Hk) as [v ->]. simpl. eauto.
Qed.

Lemma dump_field_ok f size (c : Client P) : length mem = size -> (Z.of_nat size <= 65535) ->
  0 <= df_addr f -> 0 <= df_width f -> df_addr f + df_width f <= Z.of_nat size ->
  match df_kind f with KUint | KInt | KEnum => scalar_w (df_width f) | _ => True end ->
  exists t, Descriptor.decode f (field_bytes mem f) = Ok t /\
    dump_field mem f c = Some (Ok tt, [ODump (df_addr f) (df_name f) (df_access f) t], c).
Proof.
  intros Hm Hs Ha Hw Hb Hk. destruct (decode_total f (field_bytes mem f)) as [t Ht];
    [unfold field_bytes; rewrite window_length by lia; lia|done|].
  exists t. split; [done|]. unfold dump_field, field_end. rewrite (proj2 (Z.leb_le _ _)) by lia.
  unfold xbind at 1, xexpect at 1.
  assert (get_range mem (Z.to_nat (df_addr f)) (Z.to_nat (df_addr f + df_width f)) = Some (field_bytes mem f)) as Hg.
  { rewrite get_range_ok by lia. f_equal. unfold field_bytes, slice. f_equal. lia. }
  rewrite Hg. unfold xbind, xexpect, xtry. rewrite Ht. done.
Qed.

Definition dump_lines (fields : list DField) (texts : list rstr) : list Out :=
  zip_with (fun f t => ODump (df_addr f) (df_name f) (df_access f) t) fields texts.

Lemma dump_fields_ok fields size (c : Client P) : length mem = size -> Z.of_nat size <= 65535 ->
  Forall (fun f => 0 <= df_addr f /\ 0 <= df_width f /\ df_addr f + df_width f <= Z.of_nat size /\
    match df_kind f with KUint | KInt | KEnum => scalar_w (df_width f) | _ => True end) fields ->
  exists texts, Forall2 (fun f t => Descriptor.decode f (field_bytes mem f) = Ok t) fields texts /\
    xeach (dump_field mem) fields c = Some (Ok tt, dump_lines fields texts, c).
Proof.
  intros Hm Hs H. induction H as [|f fields (Ha & Hw & Hb & Hk) _ (texts & IH1 & IH2)]; [by exists []|].
  destruct (dump_field_ok f size c) as (t & Ht & Hd); [done..|]. exists (t :: texts). split; [by constructor|].
  cbn [xeach]. unfold xbind. by rewrite Hd, IH2.
Qed.

Definition note_lines (n : option Note) : list Out := match n with Some n => [ONote n] | None => [] end.

Lemma select_ok reg d note m0 m1 fw rest c c1 :
  slice mem 0 4 = m0 :: m1 :: fw :: rest -> rest <> [] ->
  Registry_select reg (from_le16 m0 m1) fw = Ok (d, note) ->
  Client_read turns id 0 4 c = Some (Ok (slice mem 0 4), c1) ->
  select_descriptor turns id reg c = Some (Ok d, note_lines note, c1).
Proof.
  intros Hm Hne Hsel Hr. unfold select_descriptor, xbind at 1, xcall. rewrite Hr, Hm. cbn [map_err].
  destruct rest as [|m3 rest]; [done|]. unfold xbind, xtry. rewrite Hsel. cbn [map_err fst snd].
  by destruct note.
Qed.
End servo.

(** C19: the dump shows the servo's memory.  Let the tool know a descriptor for
    the servo's model whose fields lie in its table with widths their kinds
    have, and let the servo answer the identity read and each chunk of at most
    252 bytes from a memory of that size.  Then [dump] ends without error or
    panic, asks for nothing else, and prints, after the selection's note, one
    line per field in descriptor order whose text is the decoding of exactly
    that field's bytes. *)
Theorem dump_faithful {P} {PP : Pipe P} {FS : Fs} turns id mem reg d note m0 m1 fw m3 c c' :
  Registry_load = Some (Ok reg) -> slice mem 0 4 = [m0; m1; fw; m3] ->
  Registry_select reg (from_le16 m0 m1) fw = Ok (d, note) -> printable d ->
  Z.of_nat (length mem) = ds_table_size d ->
  served turns id mem c ((0, 4) :: chunk_reads (length mem) (ds_table_size d) 0) c' ->
  exists texts,
    Forall2 (fun f t => Descriptor.decode f (field_bytes mem f) = Ok t) (ds_fields d) texts /\
    cmd_dump turns id c = Some (Ok tt, note_lines note ++ dump_lines (ds_fields d) texts, c').
Proof.
  intros Hload Hm Hsel (Hsz & Hf) Hl Hs. rewrite <- Hl in *.
  inversion Hs as [|? c1 ? ? ? ? Hr Hs']; subst.
  destruct (dump_fields_ok mem (ds_fields d) (length mem) c') as (texts & Ht & Hd); [done|lia|done|].
  exists texts. split; [done|]. unfold cmd_dump. unfold xbind at 1, xdesc. rewrite Hload.
  cbn [of_desc fmap option_fmap option_map map_err]. unfold xbind at 1.
  rewrite (select_ok turns id mem reg d note m0 m1 fw [m3] c c1) by done. cbv zeta.
  unfold xbind at 1. rewrite <- Hl, Nat2Z.id.
  rewrite (dump_chunks_ok turns id mem (length mem) 0 (replicate (length mem) 0) c1 c');
    [|lia|by rewrite length_replicate|done|lia|done].
  rewrite Hd. done.
Qed.

(** ** A witness servo *)

Section run.
Context {P : Type} {PP : Pipe P} (turns : nat) (id : Id) (mem : list Z).
(** Run the reads, checking each answer against the memory. *)
Fixpoint serve_run (reqs : list (Z * Z)) (c : Client P) : option (Client P) :=
  match reqs with
  | [] => Some c
  | (addr, len) :: reqs' =>
      match Client_read turns id addr len c with
      | Some (Ok bytes, c1) => if bool_decide (bytes = slice mem addr len) then serve_run reqs' c1 else None
      | _ => None
      end
  end.
Lemma serve_run_served reqs : forall c c', serve_run reqs c = Some c' -> served turns id mem c reqs c'.
Proof.
  induction reqs as [|[addr len] reqs IH]; intros c c' H; simpl in H; [simplify_eq; constructor|].
  destruct (Client_read turns id addr len c) as [[[bytes|e] c1]|] eqn:E; try done.
  destruct (bool_decide _) eqn:B; [|done]. apply bool_decide_eq_true in B as ->.
  econstructor; [exact E|]. by apply IH.
Qed.
End run.

(** No configuration directory; an adapter that answers the dump of a fresh
    servo of the built-in's model, a record pair per read. *)
Definition demo_fs : Fs := {|
  env_var _ := None; read_dir _ := Err IoNotFound; read_to_string _ := None; from_json _ := None |}.
Definition demo_mem : list Z := [1; 1; 1; 0] ++ replicate 380 0 ++ [1; 1] ++ replicate 638 0.
Definition demo_answer (seq : Z) (req : Z * Z) : list Z :=
  let payload := slice demo_mem req.1 req.2 in
  Session_frame [] ([129; seq; 0; 0; 5; 128] ++ payload) ++ Session_frame [] [130; seq; 0; 1; 0; 44; 1; 0; 0; 1; 0; 0; 0].
Definition demo_reads : list (Z * Z) := (0, 4) :: chunk_reads 1024 1024 0.
Definition dump_client : Client ScriptPipe :=
  mkClient (mkScript [] (imap (fun i r => demo_answer (Z.of_nat i) r) demo_reads))
    (mkSession [] 0) EdgeAnchor_default (mkInfo 1 18) DEFAULT_GUARD.

Definition printableb (d : Descriptor) : bool :=
  (0 <=? ds_table_size d) && (ds_table_size d <=? 65535) &&
  forallb (fun f => (0 <=? df_addr f) && (0 <=? df_width f) && (df_addr f + df_width f <=? ds_table_size d) &&
    match df_kind f with KUint | KInt | KEnum => scalar_width_ok (df_width f) | _ => true end) (ds_fields d).
Lemma printableb_spec d : printableb d = true -> printable d.
Proof.
  unfold printableb, printable. intros H. apply andb_true_iff in H as [H Hf]. zbool. split; [lia|].
  apply List.Forall_forall. intros f Hi. rewrite forallb_forall in Hf. apply Hf in Hi. clear Hf.
  apply andb_true_iff in Hi as [Hi Hk]. zbool. repeat (split; [lia|]).
  destruct (df_kind f); try done; by apply scalar_width_spec.
Qed.

Lemma builtin_printable : printable builtin.
Proof. apply printableb_spec. vm_compute. reflexivity. Qed.

Lemma dump_faithful_witness :
  exists texts c', Forall2 (fun f t => Descriptor.decode f (field_bytes demo_mem f) = Ok t) (ds_fields builtin) texts /\
    @cmd_dump _ _ demo_fs 8 5 dump_client = Some (Ok tt, dump_lines (ds_fields builtin) texts, c').
Proof.
  destruct (serve_run 8 5 demo_mem demo_reads dump_client) as [c'|] eqn:E; [|vm_compute in E; discriminate].
  apply serve_run_served in E.
  destruct (@dump_faithful _ _ demo_fs 8 5 demo_mem [builtin] builtin None 1 1 1 0 dump_client c')
    as (texts & Ht & Hd).
  - vm_compute. reflexivity.
  - vm_compute. reflexivity.
  - vm_compute. reflexivity.
  - exact builtin_printable.
  - vm_compute. reflexivity.
  - exact E.
  - exists texts, c'. split; [exact Ht|exact Hd].
Defined.

(** ** Setting a register by name *)

Lemma builtin_exported f : In f (ds_fields builtin) -> exists x, In x osc_servo_fields /\ read_field x = Some f.
Proof.
  assert (mapM read_field osc_servo_fields = Some (ds_fields builtin)) as H by (vm_compute; reflexivity).
  apply mapM_Some in H. intros Hf. apply list_elem_of_In in Hf.
  apply list_elem_of_lookup in Hf as [i Hi]. destruct (Forall2_lookup_r _ _ _ _ _ H Hi) as (x & Hx & Hr).
  exists x. split; [|done]. apply list_elem_of_In. by apply list_elem_of_lookup_2 in Hx.
Qed.

Lemma read_field_shape x f : read_field x = Some f ->
  df_addr f = xf_addr x /\ df_width f = xf_width x /\ (df_access f = AcRw -> writes_allowed x = true).
Proof.
  unfold read_field. intros H. destruct (read_access (xf_access x)) as [a|] eqn:Ea; [|done].
  destruct (read_kind (xf_kind x)); [|done]. simpl in H. simplify_eq. simpl. split; [done|]. split; [done|].
  intros ->. unfold read_access in Ea. unfold writes_allowed. by repeat (case_match; try done).
Qed.

(** Distinct fields of the built-in share no byte, and none is empty. *)
Lemma builtin_apart f g : In f (ds_fields builtin) -> In g (ds_fields builtin) ->
  0 <= df_addr f /\ 0 < df_width f /\ df_addr f + df_width f <= 1024 /\
  (f = g \/ df_addr f + df_width f <= df_addr g \/ df_addr g + df_width g <= df_addr f).
Proof.
  assert (forallb (fun f => (0 <=? df_addr f) && (0 <? df_width f) && (df_addr f + df_width f <=? 1024) &&
    forallb (fun g => ((df_addr f =? df_addr g) && bool_decide (f = g)) ||
      ((df_addr f + df_width f <=? df_addr g) || (df_addr g + df_width g <=? df_addr f))) (ds_fields builtin))
    (ds_fields builtin) = true) as H by (vm_compute; reflexivity).
  rewrite forallb_forall in H. intros Hf Hg. specialize (H f Hf). apply andb_true_iff in H as [H Hp].
  rewrite forallb_forall in Hp. specialize (Hp g Hg). zbool. split; [lia|]. split; [lia|]. split; [lia|].
  apply orb_true_iff in Hp as [Hp|Hp]; [left; apply andb_true_iff in Hp as [_ Hp]; by apply bool_decide_eq_true in Hp|].
  right. apply orb_true_iff in Hp as [Hp|Hp]; zbool; lia.
Qed.

Lemma builtin_writable f : In f (ds_fields builtin) -> df_access f = AcRw ->
  @all_writable ControlTable (Z.to_nat (df_addr f)) (Z.to_nat (df_width f)) = true.
Proof.
  intros Hf Ha. destruct (builtin_apart f f Hf Hf) as (H0 & Hw & _). apply all_writable_spec. intros i Hi.
  destruct (builtin_exported f Hf) as (x & Hx & Hr). apply read_field_shape in Hr as (E1 & E2 & E3).
  apply writable_fields. exists x. split; [done|]. split; [auto|]. unfold covers. apply andb_true_iff.
  rewrite Z.leb_le, Z.ltb_lt. lia.
Qed.

Lemma field_bytes_splice mem f g data : Z.of_nat (length data) = df_width f -> length mem = 1024%nat ->
  In f (ds_fields builtin) -> In g (ds_fields builtin) ->
  field_bytes (splice (Z.to_nat (df_addr f)) data mem) g =
    if bool_decide (f = g) then data else field_bytes mem g.
Proof.
  intros Hd Hm Hf Hg. destruct (builtin_apart f g Hf Hg) as (H0 & Hw & Hb & Hs).
  destruct (builtin_apart g g Hg Hg) as (H0' & Hw' & Hb' & _).
  unfold field_bytes, slice. apply list_eq. intros i.
  destruct (Nat.lt_ge_cases i (Z.to_nat (df_width g))) as [Hi|Hi].
  - rewrite lookup_take_lt, lookup_drop, splice_lookup by lia. destruct (bool_decide (f = g)) eqn:E.
    + apply bool_decide_eq_true in E as <-. rewrite (proj2 (Nat.leb_le _ _)), (proj2 (Nat.ltb_lt _ _)) by lia.
      simpl. f_equal. lia.
    + apply bool_decide_eq_false in E. rewrite lookup_take_lt, lookup_drop by lia.
      destruct (Nat.leb _ _ && _) eqn:B; [|done]. apply andb_true_iff in B as [B1 B2]. zbool.
      destruct Hs as [?|Hs]; [done|lia].
  - rewrite lookup_take_ge by lia. destruct (bool_decide (f = g)) eqn:E.
    + apply bool_decide_eq_true in E as <-. rewrite lookup_ge_None_2; [done|lia].
    + by rewrite lookup_take_ge by lia.
Qed.

Lemma encode_rw f s data : encode f s = Some (Ok data) -> df_access f = AcRw.
Proof. unfold encode. by destruct (df_access f). Qed.

(** C18: setting a register by name changes that register and no other.  For any
    field of the built-in descriptor and any text the tool accepts for it, the
    bytes it writes are refused by the servo's register file only for a rule on
    their value, never for their place or access; if they are taken, the field
    holds exactly those bytes and every other register of the descriptor is
    unchanged. *)
Theorem set_one_register mem f value data :
  In f (ds_fields builtin) -> encode f value = Some (Ok data) -> length mem = 1024%nat ->
  match @RegisterFile_write_split ControlTable mem (df_addr f) data [] with
  | Ok mem' =>
      field_bytes mem' f = data /\
      (forall g, In g (ds_fields builtin) -> g <> f -> field_bytes mem' g = field_bytes mem g)
  | Err e => exists k, e = ValidationError k
  end.
Proof.
  intros Hf He Hm. assert (Ha := encode_rw _ _ _ He).
  assert (Hc := encode_contents _ _ _ (builtin_settable f Hf Ha) He). destruct Hc as (_ & Hl & _).
  destruct (builtin_apart f f Hf Hf) as (H0 & Hw & Hb & _).
  rewrite (write_split_ref (M := ControlTable)) by (apply ControlTable_wf || done). rewrite app_nil_r.
  destruct (validate_ref mem (df_addr f) data) as [[]|e] eqn:Ev; cbn [result_bind].
  - split; [rewrite field_bytes_splice by done; by rewrite bool_decide_eq_true_2|].
    intros g Hg Hne. rewrite field_bytes_splice by done. by rewrite bool_decide_eq_false_2.
  - unfold validate_ref in Ev. destruct data as [|b bs]; [simpl in Hl; lia|].
    assert (Hlen : length (b :: bs) = Z.to_nat (df_width f)) by lia. rewrite Hlen in Ev.
    change (@rm_SIZE ControlTable) with 1024%nat in Ev.
    rewrite (proj2 (Nat.ltb_ge _ _)), builtin_writable in Ev by (done || lia). cbn [negb] in Ev.
    by apply rules_ref_err in Ev.
Qed.

Lemma set_one_register_witness :
  exists f mem', In f (ds_fields builtin) /\ df_name f = lit "torque_enable" /\
    @RegisterFile_write_split ControlTable (replicate 1024 0) (df_addr f) [1] [] = Ok mem' /\
    field_bytes mem' f = [1].
Proof.
  destruct (List.find (fun f => bool_decide (df_name f = lit "torque_enable")) (ds_fields builtin)) as [f|] eqn:E;
    [|vm_compute in E; discriminate].
  assert (In f (ds_fields builtin)) as Hf by (apply find_some in E as [E _]; exact E).
  assert (f = mkDField (lit "torque_enable") 384 1 AcRw KBool []) as Ef
    by (vm_compute in E; injection E as <-; vm_compute; reflexivity).
  assert (encode f (lit "on") = Some (Ok [1])) as He by (rewrite Ef; vm_compute; reflexivity).
  pose proof (set_one_register (replicate 1024 0) f (lit "on") [1] Hf He eq_refl) as H.
  destruct (@RegisterFile_write_split ControlTable (replicate 1024 0) (df_addr f) [1] []) as [mem'|e] eqn:W.
  - exists f, mem'. split; [exact Hf|]. split; [rewrite Ef; reflexivity|]. split; [exact W|]. exact (proj1 H).
  - exfalso. rewrite Ef in W. vm_compute in W. discriminate.
Defined.

(** [set] sends one identity read and, only for a known name and an accepted
    text, one write of the encoded bytes at the field's address; any other case
    ends in its error with the client as the identity read left it. *)
Theorem set_runs {P} {PP : Pipe P} {FS : Fs} turns id mem reg d note m0 m1 fw m3 name value c c1 :
  Registry_load = Some (Ok reg) -> slice mem 0 4 = [m0; m1; fw; m3] ->
  Registry_select reg (from_le16 m0 m1) fw = Ok (d, note) ->
  served turns id mem c [(0, 4)] c1 ->
  match Descriptor_field d name with
  | Err e => cmd_set turns id name value false false c = Some (Err (CeDesc e), note_lines note, c1)
  | Ok f =>
      match encode f value with
      | None => cmd_set turns id name value false false c = None
      | Some (Err e) => cmd_set turns id name value false false c = Some (Err (CeDesc e), note_lines note, c1)
      | Some (Ok data) =>
          forall c2, Client_write turns id (df_addr f) data c1 = Some (Ok tt, c2) ->
          cmd_set turns id name value false false c =
            Some (Ok tt, note_lines note ++ [OSetWrote (df_name f) value (df_addr f)], c2)
      end
  end.
Proof.
  intros Hload Hm Hsel Hs. inversion Hs as [|? ? ? ? ? ? Hr Hs']; subst. inversion Hs'; subst.
  assert (Hd := select_ok turns id mem reg d note m0 m1 fw [m3] c c1 Hm ltac:(done) Hsel Hr).
  unfold cmd_set. unfold xbind at 1 5 9 13, xdesc at 1 3 5 7. rewrite Hload.
  cbn [of_desc fmap option_fmap option_map map_err].
  destruct (Descriptor_field d name) as [f|e] eqn:Ef.
  - destruct (encode f value) as [[data|e]|] eqn:Ee; [intros c2 Hc2| |];
      unfold xbind, xtry, xdesc, xcall, xprint; rewrite Hd, ?Ef; cbn [map_err]; rewrite ?Ee;
      cbn [of_desc fmap option_fmap option_map map_err]; rewrite ?Hc2, ?app_nil_r; done.
  - unfold xbind, xtry. rewrite Hd, ?Ef. cbn [map_err]. by rewrite app_nil_r.
Qed.
