(* ===== verification/Discovery.v ===== *)
(** * Discovery finds the fleet (client/src/mgmt.rs)

    The walk is proved against [EnumBus], what an ENUM exchange may bring back: a bus
    that parks after collisions, that is silent until it has settled, and that has a
    number of disturbances left in it, each swallowing an answer or garbling it.  A
    walk that spends at most one of them finds every servo, each once, within two
    nodes per servo and bit; two consecutive walks that agree make a discovery that
    survives three.  A bench adapter with a fleet behind it satisfies [EnumBus]. *)

From S2P Require Import Prelude Trace FrameBytes Wire Frame Build HostShape HostEngine Link LinkContract EdgeUnwrap ClientSession Client ClientContract Mgmt.
From stdpp Require Import sorting relations.
Local Open Scope Z_scope.

(** ** Prefixes *)

Lemma odd_bit y : negb (Z.land y 1 =? 0) = Z.odd y.
Proof.
  rewrite <- Z.bit0_odd. destruct (Z.land y 1 =? 0) eqn:E; zbool; cbn [negb].
  - apply (f_equal (fun x => Z.testbit x 0)) in E. rewrite Z.land_spec, Z.bits_0 in E. by rewrite andb_true_r in E.
  - destruct (Z.testbit y 0) eqn:E0; [done|]. exfalso. apply E. apply Z.bits_inj'. intros i Hi. rewrite Z.land_spec, Z.bits_0.
    destruct (Z.eq_dec i 0) as [->|]; [by rewrite E0|]. rewrite (bits_high 1 1 i) by lia. apply andb_false_r.
Qed.
Lemma mgmt_bit_spec uid k : mgmt_bit uid k = uid_bit uid k.
Proof. unfold mgmt_bit, uid_bit. rewrite odd_bit, <- Z.bit0_odd, Z.shiftr_spec by lia. done. Qed.

Lemma matches_prefix_spec uid prefix len : matches_prefix uid prefix len = true <->
  forall k, (k < len)%nat -> uid_bit uid k = uid_bit prefix k.
Proof.
  unfold matches_prefix. rewrite forallb_forall. split.
  - intros H k Hk. rewrite <- !mgmt_bit_spec. apply eqb_prop, H, in_seq. lia.
  - intros H k [_ Hk]%in_seq. rewrite !mgmt_bit_spec, H by lia. apply eqb_reflx.
Qed.

(** The client and the servo read a prefix alike. *)
Lemma servo_agrees uid prefix len : bytes_ok uid -> bytes_ok prefix -> length uid = UID_LEN -> length prefix = UID_LEN ->
  (len <= FULL)%nat -> uid_prefix_matches uid (Z.of_nat len) prefix = Some (matches_prefix uid prefix len).
Proof.
  intros Hu Hp Lu Lp Hl. unfold FULL, UID_LEN in Hl.
  destruct (uid_prefix_matches_spec uid (Z.of_nat len) prefix Hu Hp Lu Lp) as (b & -> & Hb); [unfold MAX_PREFIX_BITS; lia|].
  f_equal. rewrite Nat2Z.id in Hb. apply eq_true_iff_eq. by rewrite Hb, matches_prefix_spec.
Qed.

(** A node of the walk: [len] bits chosen, the rest still zero. *)
Definition prefix_ok (len : nat) (prefix : Uid) : Prop :=
  length prefix = UID_LEN /\ bytes_ok prefix /\ (len <= FULL)%nat /\ (forall k, (len <= k)%nat -> uid_bit prefix k = false).

Lemma zero_prefix_ok : prefix_ok 0 ZERO_PREFIX.
Proof.
  split; [done|]. split; [by repeat constructor|]. split; [lia|]. intros k _. unfold uid_bit, ZERO_PREFIX.
  destruct (replicate UID_LEN 0 !! (k / 8)%nat) as [x|] eqn:E; [|apply Z.bits_0].
  apply lookup_replicate in E as [-> _]. apply Z.bits_0.
Qed.

Lemma with_bit_spec prefix k v j : (k < 8 * length prefix)%nat ->
  uid_bit (with_bit prefix k v) j = if Nat.eqb j k then uid_bit prefix k || v else uid_bit prefix j.
Proof.
  intros Hk. destruct v; cbn [with_bit]; [|destruct (Nat.eqb j k) eqn:E; zbool; [subst; by rewrite orb_false_r|done]].
  rewrite orb_true_r. unfold uid_bit. destruct (Nat.eq_dec (j / 8)%nat (k / 8)%nat) as [Ed|Ed].
  - rewrite Ed, list_lookup_alter_eq. destruct (lookup_lt_is_Some_2 prefix (k / 8)%nat) as [x Ex].
    { apply Nat.Div0.div_lt_upper_bound. lia. }
    rewrite Ex. cbn [fmap option_fmap option_map from_option id]. rewrite Z.lor_spec, Z.shiftl_spec by lia.
    pose proof (Nat.div_mod_eq j 8). pose proof (Nat.div_mod_eq k 8). destruct (Nat.eqb j k) eqn:E; zbool.
    + subst j. rewrite Z.sub_diag. by rewrite orb_true_r.
    + destruct (Z.lt_ge_cases (Z.of_nat (j mod 8) - Z.of_nat (k mod 8)) 0); [rewrite (Z.testbit_neg_r 1) by lia; apply orb_false_r|].
      rewrite (bits_high 1 1) by lia. apply orb_false_r.
  - rewrite list_lookup_alter_ne by done. destruct (Nat.eqb j k) eqn:E; zbool; [by subst|done].
Qed.

Lemma with_bit_ok len prefix v : prefix_ok len prefix -> (len < FULL)%nat -> prefix_ok (S len) (with_bit prefix len v).
Proof.
  intros (Hl & Hb & Hf & Hz) Hlt. assert (len < 8 * length prefix)%nat as Hk by (rewrite Hl; unfold FULL in *; lia). split.
  { destruct v; cbn [with_bit]; [by rewrite length_alter|done]. }
  split.
  { destruct v; cbn [with_bit]; [|done]. apply Forall_alter; [done|]. intros x _ Hx.
    apply (lor_range 8); [lia|done|]. pose proof (Nat.mod_upper_bound len 8 ltac:(lia)).
    rewrite Z.shiftl_mul_pow2, Z.mul_1_l by lia. split; [apply Z.pow_nonneg; lia|]. apply Z.pow_lt_mono_r; lia. }
  split; [unfold FULL in *; lia|]. intros k Hk'. rewrite with_bit_spec by done. rewrite (proj2 (Nat.eqb_neq _ _)) by lia. apply Hz. lia.
Qed.

(** A child takes the matchers whose next bit is its own. *)
Lemma matches_child uid len prefix v : prefix_ok len prefix -> (len < FULL)%nat ->
  matches_prefix uid (with_bit prefix len v) (S len) = matches_prefix uid prefix len && eqb (uid_bit uid len) v.
Proof.
  intros (Hl & Hb & Hf & Hz) Hlt. assert (len < 8 * length prefix)%nat as Hk by (rewrite Hl; unfold FULL in *; lia).
  apply eq_true_iff_eq. rewrite andb_true_iff, !matches_prefix_spec. split.
  - intros H. split.
    + intros k Hk'. specialize (H k ltac:(lia)). rewrite with_bit_spec in H by done. by rewrite (proj2 (Nat.eqb_neq _ _)) in H by lia.
    + specialize (H len ltac:(lia)). rewrite with_bit_spec, Nat.eqb_refl, Hz in H by done. rewrite H. apply eqb_reflx.
  - intros [H ->%eqb_prop%eq_sym] k Hk'. rewrite with_bit_spec by done. destruct (Nat.eqb k len) eqn:E; zbool.
    + subst k. by rewrite Hz.
    + apply H. lia.
Qed.

(** ** The roster's order *)

Lemma uid_leb_refl a : uid_leb a a = true.
Proof. induction a as [|x a IH]; cbn; [done|]. by rewrite Z.eqb_refl, IH, orb_true_r. Qed.
Lemma uid_leb_total a : forall b, uid_leb a b = true \/ uid_leb b a = true.
Proof.
  induction a as [|x a IH]; intros [|y b]; cbn; auto. destruct (Z.lt_total x y) as [H|[->|H]].
  - left. by rewrite (proj2 (Z.ltb_lt _ _) H).
  - rewrite Z.ltb_irrefl, Z.eqb_refl. apply IH.
  - right. by rewrite (proj2 (Z.ltb_lt _ _) H).
Qed.
Lemma uid_leb_antisym a : forall b, uid_leb a b = true -> uid_leb b a = true -> a = b.
Proof.
  induction a as [|x a IH]; intros [|y b]; cbn; try done. rewrite !orb_true_iff, !andb_true_iff, !Z.ltb_lt, !Z.eqb_eq.
  intros [?|[-> H1]] [?|[? H2]]; try lia. f_equal. by apply IH.
Qed.
Lemma uid_leb_trans a : forall b c, uid_leb a b = true -> uid_leb b c = true -> uid_leb a c = true.
Proof.
  induction a as [|x a IH]; intros [|y b] [|z c]; cbn; try done. rewrite !orb_true_iff, !andb_true_iff, !Z.ltb_lt, !Z.eqb_eq.
  intros [?|[-> H1]] [?|[-> H2]]; [left; lia|left; lia|left; lia|right]. split; [done|]. by apply (IH b).
Qed.

Definition uid_le (f g : Found) : Prop := uid_leb (fd_uid f) (fd_uid g) = true.

Lemma insert_perm f l : Permutation (insert_by_uid f l) (f :: l).
Proof. induction l as [|g l IH]; cbn; [done|]. destruct (uid_leb _ _); [done|]. rewrite IH. constructor. Qed.
Lemma sort_perm l : Permutation (sort_by_uid l) l.
Proof. induction l as [|f l IH]; cbn; [done|]. by rewrite insert_perm, IH. Qed.
Lemma insert_sorted f l : StronglySorted uid_le l -> StronglySorted uid_le (insert_by_uid f l).
Proof.
  induction 1 as [|g l Hs IH Hg]; cbn; [by repeat constructor|]. destruct (uid_leb (fd_uid f) (fd_uid g)) eqn:E.
  - constructor; [by constructor|]. constructor; [done|]. eapply Forall_impl; [exact Hg|]. intros h Hh. by apply (uid_leb_trans _ (fd_uid g)).
  - constructor; [done|]. rewrite insert_perm. constructor; [|done]. destruct (uid_leb_total (fd_uid f) (fd_uid g)); congruence.
Qed.
Lemma sort_sorted l : StronglySorted uid_le (sort_by_uid l).
Proof. induction l as [|f l IH]; cbn; [constructor|]. by apply insert_sorted. Qed.

(** With distinct UIDs the order is unique. *)
Lemma sort_unique l1 l2 : Permutation l1 l2 -> List.NoDup (map fd_uid l2) -> sort_by_uid l1 = sort_by_uid l2.
Proof.
  intros Hp Hn. apply (StronglySorted_unique_strong uid_le); [|apply sort_sorted|apply sort_sorted|by rewrite !sort_perm].
  intros f g Hf Hg H1 H2. rewrite sort_perm, Hp in Hf. rewrite sort_perm in Hg.
  pose proof (uid_leb_antisym _ _ H1 H2) as Eu. clear -Hn Hf Hg Eu. induction l2 as [|x l IH]; [by apply not_elem_of_nil in Hf|].
  cbn [map] in Hn. apply NoDup_cons_iff in Hn as [Hi Hn].
  apply elem_of_cons in Hf as [->|Hf], Hg as [Hg|Hg]; [done| | |by apply IH].
  - exfalso. apply Hi. rewrite Eu. by apply in_map, list_elem_of_In.
  - subst. exfalso. apply Hi. rewrite <- Eu. by apply in_map, list_elem_of_In.
Qed.

(** ** What an ENUM exchange brings back *)

Definition matchers (fleet : list Found) (len : nat) (prefix : Uid) : list Found :=
  List.filter (fun f => matches_prefix (fd_uid f) prefix len) fleet.

(** Nothing on the wire; one clean ENUM status; and anything else. *)
Definition silent (r : Reply) : Prop := rp_statuses r = [] /\ rp_garble r = 0 /\ rp_trailing r = false.
Definition carries (f : Found) (r : Reply) : Prop :=
  rp_garble r = 0 /\ rp_trailing r = false /\ length (fd_uid f) = UID_LEN /\
  exists s, rp_statuses r = [s] /\ st_id s = fd_id f /\ st_result s = Some RcOk /\ st_payload s = fd_uid f.
Definition garbled (r : Reply) : Prop := ~ silent r /\ forall f, ~ carries f r.

(** The undisturbed answer: silence from nobody, a lone matcher's own status, and of
    several either garble or one clean frame, no servo's own, that [twin] describes
    when its UID extends the prefix probed. *)
Definition heard (fleet : list Found) (twin : nat -> Uid -> Found -> Prop) (len : nat) (prefix : Uid) (r : Reply) : Prop :=
  match matchers fleet len prefix with
  | [] => silent r
  | [f] => carries f r
  | _ => garbled r \/ exists f, carries f r /\ (matches_prefix (fd_uid f) prefix len = true -> twin len prefix f)
  end.

Definition enum_payload (len : nat) (prefix : Uid) : list Z :=
  MgmtOp_as_u8 MoEnum :: Z.of_nat len :: take (div_ceil8 (Z.of_nat len)) prefix.

(** The prefix travels in the ENUM payload. *)
Lemma enum_built len prefix : prefix_ok len prefix ->
  exists p, build_mgmt_enum (replicate (2 + UID_LEN) 0) (Z.of_nat len) prefix = Some p /\ built p = enum_payload len prefix.
Proof.
  intros (Hl & _ & Hf & _). unfold FULL, UID_LEN in Hf.
  destruct (build_mgmt_enum (replicate (2 + UID_LEN) 0) (Z.of_nat len) prefix) as [p|] eqn:E.
  - exists p. split; [done|]. by apply build_mgmt_enum_built in E as [-> _].
  - exfalso. revert E. unfold build_mgmt_enum. rewrite (proj2 (Z.ltb_ge _ _)) by lia.
    pose proof (div_ceil8_le (Z.of_nat len)). rewrite (proj2 (Nat.ltb_ge _ _)); [done|].
    unfold build_cap, MAX_PAYLOAD. rewrite length_replicate. unfold UID_LEN in *. lia.
Qed.

(** The bus under the walk, at the level of its exchanges.  The adapter answers each
    one.  A fleet that has not been given [PROBE_SETTLE] of quiet may be parked and
    silent.  Beyond that the bus has [eb_faults] disturbances left in it: each one
    swallows the answer or puts garble in its place, settled or not.  Superimposed
    replies that read back as a clean frame do not read back as the same frame at the
    child that frame's own bit names. *)
Class EnumBus (P : Type) {PP : Pipe P} (turns : nat) (fleet : list Found) := {
  eb_inv : Client P -> Prop;
  eb_calm : Client P -> Prop;
  eb_faults : Client P -> nat;
  eb_twin : nat -> Uid -> Found -> Prop;
  eb_exchange c len prefix : eb_inv c -> prefix_ok len prefix ->
    exists r c', Client_exchange turns Id_BROADCAST MGMT (enum_payload len prefix) c = Some (Ok r, c') /\
      eb_inv c' /\ (eb_faults c' <= eb_faults c)%nat /\
      (heard fleet eb_twin len prefix r \/ silent r /\ ~ eb_calm c \/ (silent r \/ garbled r) /\ (eb_faults c' < eb_faults c)%nat);
  eb_pause c us : eb_inv c -> PROBE_SETTLE <= us ->
    let c' := set_cl_pipe (pipe_pause us (cl_pipe c)) c in eb_inv c' /\ eb_calm c' /\ (eb_faults c' <= eb_faults c)%nat;
  eb_unconfirmed len prefix n n' : eb_twin len prefix n ->
    eb_twin (S len) (with_bit prefix len (mgmt_bit (fd_uid n) len)) n' -> fd_uid n' <> fd_uid n;
}.

(** The verdict of each kind of answer. *)
Lemma silent_verdict len prefix r : silent r -> verdict_of len prefix r = VEmpty.
Proof. intros (Hs & Hg & Ht). unfold verdict_of. by rewrite Hs, Hg, Ht. Qed.
Lemma carries_verdict len prefix r f : carries f r ->
  verdict_of len prefix r = if matches_prefix (fd_uid f) prefix len then VCandidate f else VCollision.
Proof.
  intros (Hg & Ht & Hl & s & Hs & Hi & Hr & Hp). unfold verdict_of. rewrite Hs, Hg, Ht. cbn [Z.eqb negb andb].
  rewrite Hr, Hp, Hl, Hi, bool_decide_true by done. cbn [andb]. rewrite Nat.eqb_refl. by destruct f.
Qed.
Lemma garbled_verdict len prefix r : garbled r -> verdict_of len prefix r = VCollision.
Proof.
  intros [Hs Hc]. unfold verdict_of. destruct ((rp_garble r =? 0) && negb (rp_trailing r)) eqn:E.
  2: { by destruct (rp_statuses r) as [|? [|]]. }
  apply andb_prop in E as [Eg Et%negb_true_iff]. zbool. destruct (rp_statuses r) as [|s [|]] eqn:Es; [|..|done].
  - exfalso. by apply Hs.
  - destruct (bool_decide (st_result s = Some RcOk) && _) eqn:E; [|done]. exfalso. apply andb_prop in E as [Er%bool_decide_eq_true El].
    zbool. by apply (Hc (mkFound (st_payload s) (st_id s))); split; [|split; [|split; [|exists s]]].
Qed.

Lemma filter_split {A} (p q : A -> bool) l :
  Permutation (List.filter p l) (List.filter (fun x => p x && q x) l ++ List.filter (fun x => p x && negb (q x)) l).
Proof.
  induction l as [|x l IH]; cbn; [done|]. destruct (p x), (q x); cbn; [by constructor| |done|done].
  etransitivity; [constructor; exact IH|]. apply Permutation_middle.
Qed.
Lemma filter_ext_true {A} (p q : A -> bool) l : (forall x, p x = q x) -> List.filter p l = List.filter q l.
Proof. intros H. induction l as [|x l IH]; cbn; [done|]. by rewrite H, IH. Qed.

(** A fleet: 16-byte UIDs, no two alike. *)
Definition fleet_ok (fleet : list Found) : Prop :=
  Forall (fun f => length (fd_uid f) = UID_LEN /\ bytes_ok (fd_uid f)) fleet /\ List.NoDup (map fd_uid fleet).

Section walk.
Context {P : Type} {PP : Pipe P} {turns : nat} {fleet : list Found} {EB : EnumBus P turns fleet}.
Hypothesis fleet_good : fleet_ok fleet.

Local Abbreviation here := (matchers fleet).

Lemma matchers_split len prefix b : prefix_ok len prefix -> (len < FULL)%nat ->
  Permutation (here len prefix) (here (S len) (with_bit prefix len b) ++ here (S len) (with_bit prefix len (negb b))).
Proof.
  intros Hp Hl. unfold matchers. etransitivity; [apply (filter_split _ (fun f => eqb (uid_bit (fd_uid f) len) b))|].
  apply Permutation_app; apply eq_subrelation; [typeclasses eauto| |typeclasses eauto|];
    apply filter_ext_true; intros f; rewrite matches_child by done; [done|].
  by destruct (uid_bit (fd_uid f) len), b.
Qed.

(** At full depth a prefix is a UID. *)
Lemma matchers_full prefix : prefix_ok FULL prefix -> (length (here FULL prefix) <= 1)%nat.
Proof using fleet_good.
  intros (Hl & Hb & _). destruct fleet_good as [Hf Hn]. unfold matchers. clear EB fleet_good.
  induction fleet as [|f fl IH]; cbn [List.filter]; [cbn; lia|]. apply Forall_cons_1 in Hf as [[Lf Bf] Hf].
  cbn [map] in Hn. apply NoDup_cons_iff in Hn as [Hi Hn]. specialize (IH Hf Hn).
  destruct (matches_prefix (fd_uid f) prefix FULL) eqn:Em; [|done]. cbn [length].
  destruct (List.filter _ fl) as [|g l] eqn:Eg; [cbn; lia|]. exfalso. apply Hi.
  assert (In g (g :: l)) as Hg by by left. rewrite <- Eg in Hg. apply filter_In in Hg as [Hg Mg].
  apply in_map_iff. exists g. split; [|done].
  pose proof (proj1 (Forall_forall _ _) Hf g (proj2 (list_elem_of_In _ _) Hg)) as [Lg Bg].
  rewrite matches_prefix_spec in Em, Mg.
  assert (take UID_LEN (fd_uid f) = take UID_LEN (fd_uid g)) as Ht.
  { apply take_eq_bits; [done|done|lia|lia|]. intros k Hk. rewrite Em, Mg by (unfold FULL in *; lia). done. }
  rewrite !firstn_all2 in Ht by lia. done.
Qed.

Lemma pause_calms c us : eb_inv c -> PROBE_SETTLE <= us ->
  exists c', Client_pause us c = Some (Ok tt, c') /\ eb_inv c' /\ eb_calm c' /\ (eb_faults c' <= eb_faults c)%nat.
Proof. intros Hi Hu. eexists. split; [reflexivity|]. by apply eb_pause. Qed.

(** What a verdict reached between [c0] and [c] is worth.  Silence is nobody, or has
    cost [k] faults; a candidate is alone or the ghost of several; a collision leaves
    the bus settled and is several, or has cost a fault. *)
Definition told (k : nat) (c0 : Client P) (len : nat) (prefix : Uid) (v : Verdict) (c : Client P) : Prop :=
  match v with
  | VEmpty => here len prefix = [] \/ (eb_faults c + k <= eb_faults c0)%nat
  | VCandidate n => here len prefix = [n] \/ (2 <= length (here len prefix))%nat /\ eb_twin len prefix n
  | VCollision => eb_calm c /\ ((2 <= length (here len prefix))%nat \/ (eb_faults c < eb_faults c0)%nat)
  end.

Lemma heard_told c0 c1 len prefix r : heard fleet eb_twin len prefix r ->
  match verdict_of len prefix r with
  | VCollision => (2 <= length (here len prefix))%nat
  | v => forall k, told k c0 len prefix v c1
  end.
Proof.
  unfold heard, told. destruct (here len prefix) as [|f [|g l]] eqn:E; intros H.
  - rewrite silent_verdict by done. by left.
  - assert (In f (here len prefix)) as [_ Hm]%filter_In by (rewrite E; by left).
    rewrite (carries_verdict _ _ _ f), Hm by done. by left.
  - rewrite <- E in *. assert (2 <= length (here len prefix))%nat as H2 by (rewrite E; cbn; lia). destruct H as [H|(n & H & Ht)]; [by rewrite garbled_verdict|].
    rewrite (carries_verdict _ _ _ n) by done. destruct (matches_prefix _ _ _); [|done]. right. auto.
Qed.

(** A collision is settled before the probe returns. *)
Lemma probe_ends c c1 len prefix v : eb_inv c1 -> (eb_faults c1 <= eb_faults c)%nat ->
  match v with
  | VCollision => (2 <= length (here len prefix))%nat \/ (eb_faults c1 < eb_faults c)%nat
  | _ => told 0 c len prefix v c1 /\ (eb_calm c -> told 1 c len prefix v c1)
  end ->
  exists c', cbind (match v with VCollision => mgmt_settle | _ => cret tt end) (fun _ => cret v) c1 = Some (Ok v, c') /\
    eb_inv c' /\ (eb_faults c' <= eb_faults c)%nat /\ told 0 c len prefix v c' /\ (eb_calm c -> told 1 c len prefix v c').
Proof.
  intros Hi Hf Hv. destruct v as [n| |]; [by exists c1| |by exists c1].
  destruct (pause_calms c1 PROBE_SETTLE Hi ltac:(done)) as (c2 & E2 & Hi2 & Hc2 & Hf2).
  exists c2. unfold cbind, mgmt_settle. rewrite E2. split; [done|]. split; [done|]. split; [lia|].
  assert ((2 <= length (here len prefix))%nat \/ (eb_faults c2 < eb_faults c)%nat) by (destruct Hv; [by left|right; lia]). done.
Qed.

(** One probe: from a settled bus, false silence costs a fault. *)
Lemma probe_told c len prefix : eb_inv c -> prefix_ok len prefix ->
  exists v c', probe turns len prefix c = Some (Ok v, c') /\ eb_inv c' /\ (eb_faults c' <= eb_faults c)%nat /\
    told 0 c len prefix v c' /\ (eb_calm c -> told 1 c len prefix v c').
Proof.
  intros Hi Hp. destruct (enum_built len prefix Hp) as (p & Eb & Hb).
  destruct (eb_exchange c len prefix Hi Hp) as (r & c1 & E & Hi1 & Hf1 & Hr). rewrite <- Hb in E.
  unfold probe, cbind at 1, cexpect. rewrite Eb. unfold cbind at 1. rewrite E.
  exists (verdict_of len prefix r). apply probe_ends; [done|done|]. destruct Hr as [Hr|[[Hr Hc]|[[Hr|Hr] Hd]]].
  - pose proof (heard_told c c1 len prefix r Hr) as Ht. destruct (verdict_of len prefix r); [by split|by left|by split].
  - rewrite silent_verdict by done. split; [right; lia|done].
  - rewrite silent_verdict by done. split; intros; right; lia.
  - rewrite garbled_verdict by done. by right.
Qed.

(** Each settled re-probe adds a fault to the price of false silence. *)
Lemma probe_again_told n len prefix : prefix_ok len prefix -> forall k c0 v c, eb_inv c -> (eb_faults c <= eb_faults c0)%nat ->
  told k c0 len prefix v c ->
  exists v' c', probe_again turns n len prefix v c = Some (Ok v', c') /\ eb_inv c' /\ (eb_faults c' <= eb_faults c0)%nat /\
    told (k + n) c0 len prefix v' c'.
Proof.
  intros Hp. induction n as [|n IH]; intros k c0 v c Hi Hf Ht; [exists v, c; by rewrite Nat.add_0_r|].
  destruct v as [m| |]; [by exists (VCandidate m), c|by exists VCollision, c|].
  cbn [probe_again]. destruct (pause_calms c PROBE_SETTLE Hi ltac:(done)) as (c1 & E1 & Hi1 & Hc1 & Hf1).
  unfold cbind at 1, mgmt_settle. rewrite E1. unfold cbind at 1.
  destruct (probe_told c1 len prefix Hi1 Hp) as (v & c2 & E2 & Hi2 & Hf2 & _ & Ht2). rewrite E2. specialize (Ht2 Hc1).
  replace (k + S n)%nat with (S k + n)%nat by lia. apply IH; [done|lia|].
  destruct v; cbn [told] in *; [done|destruct Ht2 as [? [?|?]]; split; auto; right; lia|].
  destruct Ht as [Ht|Ht]; [by left|]. destruct Ht2 as [Ht2|Ht2]; [by left|right; lia].
Qed.

Lemma probe_settled_told c len prefix : eb_inv c -> prefix_ok len prefix ->
  exists v c', probe_settled turns len prefix c = Some (Ok v, c') /\ eb_inv c' /\ (eb_faults c' <= eb_faults c)%nat /\
    told EMPTY_RETRIES c len prefix v c'.
Proof.
  intros Hi Hp. unfold probe_settled, cbind. destruct (probe_told c len prefix Hi Hp) as (v & c1 & E1 & Hi1 & Hf1 & Ht & _).
  rewrite E1. by apply (probe_again_told EMPTY_RETRIES len prefix Hp 0).
Qed.

(** A leaf re-probed from a settled bus: giving up on a servo costs a fault. *)
Lemma probe_leaf_told n prefix : prefix_ok FULL prefix -> forall c, eb_inv c ->
  exists o c', probe_leaf turns n prefix c = Some (Ok o, c') /\ eb_inv c' /\ (eb_faults c' <= eb_faults c)%nat /\
    match o with
    | Some f => here FULL prefix = [f]
    | None => eb_calm c -> (0 < n)%nat -> here FULL prefix = [] \/ (eb_faults c' < eb_faults c)%nat
    end.
Proof using fleet_good.
  intros Hp. pose proof (matchers_full prefix Hp) as Hm.
  induction n as [|n IH]; intros c Hi; [exists None, c; split; [done|]; split; [done|]; split; [done|]; lia|].
  cbn [probe_leaf]. unfold cbind at 1. destruct (probe_told c FULL prefix Hi Hp) as (v & c1 & E1 & Hi1 & Hf1 & _ & Ht). rewrite E1.
  destruct (IH c1 Hi1) as (o & c2 & E2 & Hi2 & Hf2 & Ho).
  destruct v as [f| |].
  - destruct (probe_told c FULL prefix Hi Hp) as (v & c1' & E1' & _ & _ & Ht' & _). rewrite E1 in E1'. injection E1' as <- <-.
    exists (Some f), c1. split; [done|]. split; [done|]. split; [done|]. destruct Ht' as [Ht'|[Ht' _]]; [done|lia].
  - rewrite E2. exists o, c2. split; [done|]. split; [done|]. split; [lia|]. destruct o; [done|]. intros Hc _.
    destruct (Ht Hc) as [_ [?|?]]; [lia|right; lia].
  - rewrite E2. exists o, c2. split; [done|]. split; [done|]. split; [lia|]. destruct o; [done|]. intros Hc _.
    destruct (Ht Hc) as [?|?]; [by left|right; lia].
Qed.

(** ** One node

    It is settled, its matchers found unless two faults were spent on it, or split:
    because somebody is there, or because of a fault. *)
Definition node_done (c : Client P) (len : nat) (prefix : Uid) (stack : list (nat * Uid)) (r : list Found * list (nat * Uid)) (c' : Client P) : Prop :=
  r.2 = stack /\ ((eb_faults c <= eb_faults c' + 1)%nat -> Permutation r.1 (here len prefix)) \/
  r = ([], descend len prefix stack) /\ (len < FULL)%nat /\ (here len prefix <> [] \/ (eb_faults c' < eb_faults c)%nat).

(** A confirmed candidate is the whole subtree. *)
Lemma confirmed len prefix node n2 : prefix_ok len prefix -> (len < FULL)%nat ->
  let b := mgmt_bit (fd_uid node) len in
  here len prefix = [node] \/ (2 <= length (here len prefix))%nat /\ eb_twin len prefix node ->
  here (S len) (with_bit prefix len b) = [n2] \/
    (2 <= length (here (S len) (with_bit prefix len b)))%nat /\ eb_twin (S len) (with_bit prefix len b) n2 ->
  here (S len) (with_bit prefix len (negb b)) = [] -> fd_uid n2 = fd_uid node -> Permutation [n2] (here len prefix).
Proof.
  intros Hp Hl b Hn Ho Hs Eu. pose proof (matchers_split len prefix b Hp Hl) as Hm. rewrite Hs, app_nil_r in Hm.
  destruct Ho as [Ho|[Ho2 Ht]]; [by rewrite Hm, Ho|]. exfalso. destruct Hn as [Hn|[_ Hn]].
  - rewrite Hn in Hm. apply Permutation_length in Hm. cbn in Hm. lia.
  - by apply (eb_unconfirmed len prefix node n2 Hn Ht).
Qed.

(** A full-depth collision. *)
Lemma leaf_done c c1 prefix stack : eb_inv c1 -> prefix_ok FULL prefix -> (eb_faults c1 <= eb_faults c)%nat ->
  told EMPTY_RETRIES c FULL prefix VCollision c1 ->
  exists r c', cbind (probe_leaf turns FULL_DEPTH_RETRIES prefix)
    (fun leaf => cret (match leaf with Some node => [node] | None => [] end, stack)) c1 = Some (Ok r, c') /\
    eb_inv c' /\ (eb_faults c' <= eb_faults c)%nat /\ node_done c FULL prefix stack r c'.
Proof using fleet_good.
  intros Hi Hp Hf [Hc Hm]. pose proof (matchers_full prefix Hp) as H1.
  destruct (probe_leaf_told FULL_DEPTH_RETRIES prefix Hp c1 Hi) as (o & c2 & E & Hi2 & Hf2 & Ho). unfold cbind. rewrite E.
  eexists _, c2. split; [reflexivity|]. split; [done|]. split; [lia|]. left. split; [done|]. cbn [fst]. intros Hb.
  destruct o as [f|]; [by rewrite Ho|]. destruct (Ho Hc ltac:(unfold FULL_DEPTH_RETRIES; lia)) as [->|?]; [done|lia].
Qed.

(** A candidate above full depth, and its two confirm probes. *)
Lemma candidate_done c c1 len prefix stack node : eb_inv c1 -> prefix_ok len prefix -> (len < FULL)%nat -> (eb_faults c1 <= eb_faults c)%nat ->
  told EMPTY_RETRIES c len prefix (VCandidate node) c1 ->
  let b := mgmt_bit (fd_uid node) len in
  exists r c', cbind (probe_settled turns (S len) (with_bit prefix len b)) (fun own =>
      cbind (probe_settled turns (S len) (with_bit prefix len (negb b))) (fun sib =>
        match own, sib with
        | VCandidate n2, VEmpty =>
            if bool_decide (fd_uid n2 = fd_uid node) then cret ([n2], stack) else cret ([], descend len prefix stack)
        | _, _ => cret ([], descend len prefix stack)
        end)) c1 = Some (Ok r, c') /\
    eb_inv c' /\ (eb_faults c' <= eb_faults c)%nat /\ node_done c len prefix stack r c'.
Proof.
  intros Hi1 Hp Hl Hf1 Ht b.
  destruct (probe_settled_told c1 (S len) (with_bit prefix len b) Hi1 ltac:(by apply with_bit_ok)) as (own & c2 & E2 & Hi2 & Hf2 & Ho).
  destruct (probe_settled_told c2 (S len) (with_bit prefix len (negb b)) Hi2 ltac:(by apply with_bit_ok)) as (sib & c3 & E3 & Hi3 & Hf3 & Hs).
  assert (here len prefix <> []) as Hne.
  { destruct Ht as [->|[Ht _]]; [done|]. intros E. rewrite E in Ht. cbn in Ht. lia. }
  unfold cbind at 1. rewrite E2. unfold cbind at 1. rewrite E3.
  assert (exists r c', Some (Ok ([], descend len prefix stack) : result _ Error, c3) = Some (Ok r, c') /\ eb_inv c' /\
    (eb_faults c' <= eb_faults c)%nat /\ node_done c len prefix stack r c') as Hd.
  { eexists _, _. split; [done|]. split; [done|]. split; [lia|]. right. auto. }
  destruct own as [n2| |], sib; try exact Hd. case_bool_decide as Eu; [|exact Hd].
  exists ([n2], stack), c3. split; [done|]. split; [done|]. split; [lia|]. left. split; [done|]. cbn [fst]. intros Hb.
  destruct Hs as [Hs|Hs]; [|unfold EMPTY_RETRIES in Hs; lia]. by apply (confirmed len prefix node n2).
Qed.

Lemma walk_node_done c len prefix stack : eb_inv c -> prefix_ok len prefix ->
  exists r c', walk_node turns len prefix stack c = Some (Ok r, c') /\ eb_inv c' /\ (eb_faults c' <= eb_faults c)%nat /\
    node_done c len prefix stack r c'.
Proof using fleet_good.
  intros Hi Hp. unfold walk_node, cbind at 1.
  destruct (probe_settled_told c len prefix Hi Hp) as (v & c1 & E1 & Hi1 & Hf1 & Ht). rewrite E1.
  assert (len <= FULL)%nat as Hle by apply Hp. destruct v as [node| |].
  - destruct (Nat.eqb len FULL) eqn:El; zbool; [|apply (candidate_done c c1); auto; lia].
    subst len. exists ([node], stack), c1. split; [done|]. split; [done|]. split; [done|]. left. split; [done|]. intros _.
    destruct Ht as [->|[Ht _]]; [done|]. exfalso. pose proof (matchers_full prefix Hp). lia.
  - destruct (Nat.eqb len FULL) eqn:El; zbool; [subst len; by apply leaf_done|].
    eexists _, c1. split; [reflexivity|]. split; [done|]. split; [done|]. right. split; [done|]. split; [lia|].
    destruct Ht as [_ [Ht|Ht]]; [left|by right]. intros E. rewrite E in Ht. cbn in Ht. lia.
  - eexists _, c1. split; [reflexivity|]. split; [done|]. split; [done|]. left. split; [done|]. intros Hb.
    destruct Ht as [->|Ht]; [done|unfold EMPTY_RETRIES in Ht; lia].
Qed.

(** ** Completeness, and the number of nodes probed *)

Definition owed_by (stack : list (nat * Uid)) : list Found := flat_map (fun n => here n.1 n.2) stack.
Definition node_cost (n : nat * Uid) : nat := 1 + 2 * length (here n.1 n.2) * (FULL - n.1).
Definition stack_cost (stack : list (nat * Uid)) : nat := list_sum (map node_cost stack).
Definition stack_ok (stack : list (nat * Uid)) : Prop := Forall (fun n => prefix_ok n.1 n.2) stack.

Lemma node_cost_pos n : (1 <= node_cost n)%nat.
Proof. apply Nat.le_add_r. Qed.
Lemma stack_cost_cons n stack : stack_cost (n :: stack) = (node_cost n + stack_cost stack)%nat.
Proof. done. Qed.

Lemma descend_ok len prefix stack : prefix_ok len prefix -> (len < FULL)%nat -> stack_ok stack ->
  stack_ok (descend len prefix stack) /\ Permutation (owed_by (descend len prefix stack)) (here len prefix ++ owed_by stack).
Proof.
  intros Hp Hl Hs. pose proof (matchers_split len prefix true Hp Hl) as Hm. cbn [negb] in Hm. split.
  - constructor; [by apply (with_bit_ok len prefix true)|]. constructor; [by apply (with_bit_ok len prefix false)|done].
  - unfold owed_by, descend. cbn [flat_map fst snd]. rewrite app_assoc. by rewrite <- Hm.
Qed.

(** Splitting pays for itself where somebody is, and costs one node where nobody is. *)
Lemma descend_cost len prefix stack : prefix_ok len prefix -> (len < FULL)%nat ->
  (stack_cost (descend len prefix stack) <= S (stack_cost ((len, prefix) :: stack)))%nat /\
  (here len prefix <> [] -> S (stack_cost (descend len prefix stack)) <= stack_cost ((len, prefix) :: stack))%nat.
Proof.
  intros Hp Hl. pose proof (matchers_split len prefix true Hp Hl) as Hm. cbn [negb] in Hm. apply Permutation_length in Hm.
  rewrite length_app in Hm. unfold descend. rewrite !stack_cost_cons. unfold node_cost. cbn [fst snd].
  replace (FULL - len)%nat with (S (FULL - S len)) by lia. split; [nia|].
  intros Hne. assert (0 < length (here len prefix))%nat by (destruct (here len prefix); [done|cbn; lia]). nia.
Qed.

Lemma walk_loop_complete fuel : forall found stack c, eb_inv c -> stack_ok stack -> (stack_cost stack + 2 * eb_faults c <= fuel)%nat ->
  exists l c', walk_loop turns fuel found stack c = Some (Ok l, c') /\ eb_inv c' /\ (eb_faults c' <= eb_faults c)%nat /\
    ((eb_faults c <= eb_faults c' + 1)%nat -> Permutation l (found ++ owed_by stack)).
Proof using fleet_good.
  induction fuel as [|fuel IH]; intros found [|[len prefix] stack] c Hi Hs Hf.
  1,3: exists found, c; cbn; by rewrite app_nil_r.
  { rewrite stack_cost_cons in Hf. pose proof (node_cost_pos (len, prefix)). lia. }
  apply Forall_cons_1 in Hs as [Hp Hs]. cbn [fst snd] in Hp. cbn [walk_loop]. unfold cbind at 1.
  destruct (walk_node_done c len prefix stack Hi Hp) as ([fs st] & c1 & E1 & Hi1 & Hf1 & Hd). rewrite E1. cbn [fst snd].
  destruct Hd as [[Est Hperm]|[[= -> ->] [Hl Hne]]]; cbn [fst snd] in *.
  - subst st. destruct (IH (found ++ fs) stack c1 Hi1 Hs) as (l & c2 & E2 & Hi2 & Hf2 & Hl).
    { rewrite stack_cost_cons in Hf. pose proof (node_cost_pos (len, prefix)). lia. }
    exists l, c2. split; [done|]. split; [done|]. split; [lia|]. intros Hb. rewrite Hl, Hperm, <- app_assoc by lia. done.
  - destruct (descend_ok len prefix stack Hp Hl Hs) as (Hs' & Hp'). destruct (descend_cost len prefix stack Hp Hl) as [Hc0 Hc1].
    destruct (IH (found ++ []) (descend len prefix stack) c1 Hi1 Hs') as (l & c2 & E2 & Hi2 & Hf2 & Hl').
    { destruct Hne as [Hne|Hne]; [specialize (Hc1 Hne)|]; lia. }
    exists l, c2. split; [done|]. split; [done|]. split; [lia|]. intros Hb. rewrite Hl', app_nil_r, Hp' by lia. done.
Qed.

Lemma matchers_root : here 0 ZERO_PREFIX = fleet.
Proof. unfold matchers. clear. induction fleet as [|f fl IH]; [done|]. cbn [List.filter]. change (matches_prefix (fd_uid f) ZERO_PREFIX 0) with true. by rewrite IH. Qed.

(** A walk always returns; it is the fleet unless two faults fell in it. *)
Lemma walk_complete fuel c : eb_inv c -> (1 + 2 * length fleet * FULL + 2 * eb_faults c <= fuel)%nat ->
  exists l c', walk turns fuel c = Some (Ok l, c') /\ eb_inv c' /\ (eb_faults c' <= eb_faults c)%nat /\
    (l = sort_by_uid fleet \/ (eb_faults c' + 2 <= eb_faults c)%nat).
Proof using fleet_good.
  intros Hi Hf. unfold walk, cbind.
  destruct (walk_loop_complete fuel [] [(0%nat, ZERO_PREFIX)] c Hi) as (l & c1 & E & Hi1 & Hf1 & Hp).
  { constructor; [apply zero_prefix_ok|constructor]. }
  { unfold stack_cost, node_cost. cbn [map fst snd]. rewrite matchers_root. cbn [list_sum fold_right]. lia. }
  rewrite E. exists (sort_by_uid l), c1. split; [done|]. split; [done|]. split; [done|].
  destruct (decide (eb_faults c <= eb_faults c1 + 1)%nat) as [Hb|Hb]; [left|right; lia].
  apply sort_unique; [|apply fleet_good]. rewrite (Hp Hb). cbn [owed_by flat_map fst snd app]. by rewrite matchers_root, app_nil_r.
Qed.

(** ** Agreement between walks *)

Definition finds_fleet (m : CM P (list Found)) (c : Client P) : Prop :=
  exists c', m c = Some (Ok (sort_by_uid fleet), c') /\ eb_inv c'.

Lemma discover_step n fuel prev c : eb_inv c -> (1 + 2 * length fleet * FULL + 2 * eb_faults c <= fuel)%nat ->
  exists next c', eb_inv c' /\ (eb_faults c' <= eb_faults c)%nat /\
    (next = sort_by_uid fleet \/ (eb_faults c' + 2 <= eb_faults c)%nat) /\
    discover_loop turns (S n) fuel prev c =
      if bool_decide (next = prev) then Some (Ok next, c') else discover_loop turns n fuel next c'.
Proof using fleet_good.
  intros Hi Hf. destruct (pause_calms c (4 * PROBE_SETTLE) Hi) as (c1 & E1 & Hi1 & _ & Hf1); [by vm_compute|].
  destruct (walk_complete fuel c1 Hi1) as (next & c2 & E2 & Hi2 & Hf2 & Hn); [lia|].
  exists next, c2. split; [done|]. split; [lia|]. split; [destruct Hn; [by left|right; lia]|].
  cbn [discover_loop]. unfold cbind at 1. rewrite E1. unfold cbind. rewrite E2. by destruct (bool_decide _).
Qed.

(** With one fault left no walk is wrong any more: two further walks agree. *)
Lemma discover_agrees n fuel prev c : eb_inv c -> (1 + 2 * length fleet * FULL + 2 * eb_faults c <= fuel)%nat -> (eb_faults c <= 1)%nat ->
  finds_fleet (discover_loop turns (S (S n)) fuel prev) c.
Proof using fleet_good.
  intros Hi Hf H1. unfold finds_fleet. destruct (discover_step (S n) fuel prev c Hi Hf) as (r1 & c1 & Hi1 & Hf1 & [->|?] & ->); [|lia].
  case_bool_decide as E; [by exists c1|].
  destruct (discover_step n fuel (sort_by_uid fleet) c1 Hi1) as (r2 & c2 & Hi2 & Hf2 & [->|?] & ->); [lia| |lia].
  rewrite bool_decide_true by done. by exists c2.
Qed.

Lemma discover_finds fuel c : eb_inv c -> (eb_faults c <= 3)%nat -> (1 + 2 * length fleet * FULL + 2 * eb_faults c <= fuel)%nat ->
  finds_fleet (discover turns fuel) c.
Proof using fleet_good.
  intros Hi H3 Hf. destruct (walk_complete fuel c Hi Hf) as (prev & c1 & E1 & Hi1 & Hf1 & Hp).
  assert (finds_fleet (discover_loop turns (WALKS_CAP - 1) fuel prev) c1) as (c' & E & Hi').
  2: { exists c'. split; [|done]. unfold discover, cbind. by rewrite E1. }
  cbn [WALKS_CAP Nat.sub]. destruct Hp as [->|Hp]; [|apply discover_agrees; [done|lia|lia]].
  unfold finds_fleet. destruct (discover_step 3 fuel (sort_by_uid fleet) c1 Hi1) as (r2 & c2 & Hi2 & Hf2 & H2 & ->); [lia|].
  case_bool_decide as E; [subst r2; by exists c2|]. destruct H2 as [?|H2]; [done|]. apply discover_agrees; [done|lia|lia].
Qed.
End walk.

(** C8: discovery finds the fleet.  On a bus whose every ENUM exchange is answered,
    that may be parked and silent whenever it has not been given its settling time,
    and that disturbs up to three exchanges of the discovery at will, settled or not
    (an answer swallowed, or garble put in its place or on a quiet bus), discovery
    returns, and returns exactly the servos of the fleet, each once, with the id it
    answers from, in the order of their UIDs.  The fleet is any set of distinct
    16-byte UIDs.  Superimposed replies may read back as a clean frame, but not as
    the same one again at the child its own next bit names ([eb_unconfirmed]).  A
    walk probes at most one node per servo, bit and side, and two per disturbance,
    the bound the fuel states. *)
Theorem discover_complete {P} {PP : Pipe P} (turns : nat) (fleet : list Found) {EB : EnumBus P turns fleet} (fuel : nat) (c : Client P) :
  fleet_ok fleet -> eb_inv c -> (eb_faults c <= 3)%nat -> (1 + 2 * length fleet * FULL + 2 * eb_faults c <= fuel)%nat ->
  exists roster c', discover turns fuel c = Some (Ok roster, c') /\ Permutation roster fleet /\ StronglySorted uid_le roster /\
    eb_inv c'.
Proof.
  intros Hf Hi H3 Hl. destruct (discover_finds Hf fuel c Hi H3 Hl) as (c' & E & Hi').
  exists (sort_by_uid fleet), c'. split; [done|]. split; [apply sort_perm|]. split; [apply sort_sorted|done].
Qed.

(** ** A bench adapter with a fleet behind it

    It answers ENUM submits with records of the link server's builders, matching
    UIDs with the servo's own [uid_prefix_matches].  Two replies at once garble and
    park the fleet until it is given a pause; at the root the first reply comes
    through clean.  A schedule says which exchanges the wire disturbs. *)

Inductive Fault := FNone | FMute | FNoise.
Record FleetPipe := mkFleet { fp_fleet : list Found; fp_parked : bool; fp_faults : list Fault; fp_out : list Z }.

Definition fault_count (l : list Fault) : nat := length (List.filter (fun f => match f with FNone => false | _ => true end) l).

Definition fleet_terminal (seq garble : Z) : list Z :=
  default [] (record_terminal OUT_CAP seq (mkTerminal OcComplete 0 (mkEvidence 0 garble false))).
Definition fleet_status (seq : Z) (f : Found) : list Z :=
  default [] (record_status OUT_CAP seq 0 (fd_id f) (Inst_status RcOk false) (FB (fd_uid f) [])).
(** Who is heard, and how much garble. *)
Definition fleet_heard (fault : Fault) (parked : bool) (len : Z) (hits : list Found) : option Found * Z :=
  match fault with
  | FMute => (None, 0)
  | FNoise => (None, 9)
  | FNone =>
      if parked then (None, 0)
      else match hits with
           | [] => (None, 0)
           | [f] => (Some f, 0)
           | f :: _ => if len =? 0 then (Some f, 0) else (None, 9)
           end
  end.
Definition fleet_answer (seq : Z) (h : option Found * Z) : list (list Z) :=
  match h.1 with Some f => [fleet_status seq f; fleet_terminal seq h.2] | None => [fleet_terminal seq h.2] end.
Definition fleet_hits (fleet : list Found) (len : Z) (prefix : list Z) : list Found :=
  List.filter (fun f => bool_decide (uid_prefix_matches (fd_uid f) len (prefix ++ replicate (UID_LEN - length prefix) 0) = Some true)) fleet.
Definition fleet_submit (bytes : list Z) (p : FleetPipe) : FleetPipe :=
  match bytes with
  | _ :: _ :: _ :: s0 :: s1 :: _ :: _ :: _ :: _ :: len :: prefix =>
      let hits := fleet_hits (fp_fleet p) len prefix in
      mkFleet (fp_fleet p) (fp_parked p || Nat.leb 2 (length hits) && negb (len =? 0)) (tail (fp_faults p))
        (concat (fleet_answer (from_le16 s0 s1) (fleet_heard (default FNone (head (fp_faults p))) (fp_parked p) len hits)))
  | _ => p
  end.

#[export] Instance FleetPipe_Pipe : Pipe FleetPipe := {
  pipe_send bytes p := (Ok tt, fleet_submit bytes p);
  pipe_recv _ p := (Some (Ok (fp_out p)), p);
  pipe_pause us p := mkFleet (fp_fleet p) (fp_parked p && (us <? PROBE_SETTLE)) (fp_faults p) (fp_out p) }.

Lemma fleet_recv_same (p p' : FleetPipe) : rtc recv_step p p' -> p' = p.
Proof. induction 1 as [|p p1 p' (g & r & E) _ IH]; [done|]. injection E as _ E. congruence. Qed.

(** The bits past the length do not matter. *)
Lemma padded_prefix len prefix k : (k < len)%nat -> prefix_ok len prefix ->
  let pre := take (div_ceil8 (Z.of_nat len)) prefix in
  uid_bit (pre ++ replicate (UID_LEN - length pre) 0) k = uid_bit prefix k.
Proof.
  intros Hk (Hl & _ & Hf & _) pre. unfold uid_bit. f_equal. f_equal. unfold FULL, UID_LEN in Hf.
  assert (k / 8 < div_ceil8 (Z.of_nat len))%nat as Hd.
  { assert (Z.of_nat (k / 8) < (Z.of_nat len + 7) / 8); [|unfold div_ceil8; lia]. rewrite Nat2Z.inj_div. change (Z.of_nat 8) with 8. zmod. }
  rewrite lookup_app_l; [by apply lookup_take_lt|]. subst pre. rewrite length_take, Hl.
  pose proof (div_ceil8_le (Z.of_nat len)). unfold UID_LEN in *. lia.
Qed.

Lemma fleet_hits_matchers fleet len prefix : fleet_ok fleet -> prefix_ok len prefix ->
  fleet_hits fleet (Z.of_nat len) (take (div_ceil8 (Z.of_nat len)) prefix) = matchers fleet len prefix.
Proof.
  intros [Hf _] Hp. unfold fleet_hits, matchers. pose proof Hp as (Hl & Hb & Hle & _).
  set (pre := take (div_ceil8 (Z.of_nat len)) prefix).
  assert (length pre <= UID_LEN)%nat as Lp by (subst pre; rewrite length_take; lia).
  assert (bytes_ok (pre ++ replicate (UID_LEN - length pre) 0)) as Bp.
  { apply Forall_app. split; [by apply Forall_take|]. apply Forall_replicate. lia. }
  induction fleet as [|f fl IH]; [done|]. apply Forall_cons_1 in Hf as [[Lf Bf] Hf]. cbn [List.filter].
  rewrite servo_agrees, (IH Hf) by (done || (rewrite length_app, length_replicate; unfold UID_LEN in *; lia)).
  assert (matches_prefix (fd_uid f) (pre ++ replicate (UID_LEN - length pre) 0) len = matches_prefix (fd_uid f) prefix len) as ->.
  { apply eq_true_iff_eq. rewrite !matches_prefix_spec. split; intros H k Hk; [rewrite <- (padded_prefix len prefix k) by done|
      subst pre; rewrite (padded_prefix len prefix k) by done]; by apply H. }
  by destruct (matches_prefix (fd_uid f) prefix len).
Qed.

(** What the fleet sends is an answer. *)
Definition fleet_reply (h : option Found * Z) : Reply :=
  mkReply (match h.1 with Some f => [mkStatus 0 (fd_id f) (Some RcOk) false (fd_uid f)] | None => [] end) OcComplete 0 h.2 false.

Lemma fleet_answer_reads seq h : is_u16 h.2 -> (forall f, h.1 = Some f -> length (fd_uid f) = UID_LEN) ->
  answer seq (fleet_answer seq h) (Ok (fleet_reply h)).
Proof.
  destruct h as [[x|] g]; cbn [fst snd]; intros Hg Hx; unfold fleet_answer, fleet_reply; cbn [fst snd].
  - pose proof (an_replied seq [(0, fd_id x, Inst_status RcOk false, fd_uid x)] [fleet_status seq x]
      (mkTerminal OcComplete 0 (mkEvidence 0 g false)) (fleet_terminal seq g)) as A.
    cbn [tm_evidence we_garble app map tm_outcome tm_tick we_garble_after_last_frame] in A. rewrite u16_id in A by done. apply A; [|reflexivity].
    constructor; [|constructor]. exists (FB (fd_uid x) []). split; [cbn; by rewrite app_nil_r|].
    unfold fleet_status. destruct (record_status OUT_CAP seq 0 (fd_id x) (Inst_status RcOk false) (FB (fd_uid x) [])) eqn:E; [done|].
    revert E. unfold record_status, rec_sealed. rewrite (proj2 (Nat.leb_le _ _)); [done|].
    cbn [length app fb_head fb_tail to_le16]. rewrite length_app, (Hx x eq_refl). cbn. unfold OUT_CAP. lia.
  - pose proof (an_replied seq [] [] (mkTerminal OcComplete 0 (mkEvidence 0 g false)) (fleet_terminal seq g)) as A.
    cbn [tm_evidence we_garble app map tm_outcome tm_tick we_garble_after_last_frame] in A. rewrite u16_id in A by done. apply A; [constructor|reflexivity].
Qed.

Lemma reply_silent : silent (fleet_reply (None, 0)).
Proof. by split. Qed.
Lemma reply_garbled : garbled (fleet_reply (None, 9)).
Proof. split; [by intros (_ & ? & _)|by intros f (? & _)]. Qed.
Lemma reply_carries f : length (fd_uid f) = UID_LEN -> carries f (fleet_reply (Some f, 0)).
Proof. intros Hl. split; [done|]. split; [done|]. split; [done|]. by eexists. Qed.

Section bench.
Variables (turns : nat) (fleet : list Found).
Hypotheses (turns_enough : (2 <= turns)%nat) (fleet_good : fleet_ok fleet).

Definition bench_inv (c : Client FleetPipe) : Prop :=
  ss_rx (cl_session c) = [] /\ 0 <= ss_next_seq (cl_session c) < SEQ_NONE /\ fp_fleet (cl_pipe c) = fleet.
Definition bench_calm (c : Client FleetPipe) : Prop := fp_parked (cl_pipe c) = false.
Definition bench_faults (c : Client FleetPipe) : nat := fault_count (fp_faults (cl_pipe c)).
(** The reply that comes through at the root. *)
Definition bench_twin (len : nat) (prefix : Uid) (n : Found) : Prop := len = 0%nat.

Lemma matchers_uid len prefix x : In x (matchers fleet len prefix) -> length (fd_uid x) = UID_LEN.
Proof using fleet_good.
  intros [Hin _]%filter_In. destruct fleet_good as [Hfl _]. rewrite Forall_forall in Hfl. by apply Hfl, list_elem_of_In.
Qed.

Lemma fleet_heard_good fault parked len prefix : let h := fleet_heard fault parked (Z.of_nat len) (matchers fleet len prefix) in
  is_u16 h.2 /\ forall f, h.1 = Some f -> length (fd_uid f) = UID_LEN.
Proof using fleet_good.
  pose proof (matchers_uid len prefix) as Hu. clear turns turns_enough. unfold fleet_heard.
  destruct fault, parked, (matchers fleet len prefix) as [|x [|y l]]; cbn [fst snd]; try (split; [lia|done]);
    try (destruct (_ =? 0)); (split; [cbn; lia|]); intros f [= <-]; apply Hu; by left.
Qed.

(** One ENUM exchange. *)
Lemma bench_reads c len prefix : bench_inv c -> prefix_ok len prefix ->
  exists c', Client_exchange turns Id_BROADCAST MGMT (enum_payload len prefix) c =
      Some (Ok (fleet_reply (fleet_heard (default FNone (head (fp_faults (cl_pipe c)))) (fp_parked (cl_pipe c)) (Z.of_nat len) (matchers fleet len prefix))), c') /\
    bench_inv c' /\ fp_faults (cl_pipe c') = tail (fp_faults (cl_pipe c)).
Proof using turns_enough fleet_good.
  intros (Hx & Hs & Hf) Hp. set (pre := take (div_ceil8 (Z.of_nat len)) prefix) in *.
  set (cmd := CmdExchange Id_BROADCAST MGMT (enum_payload len prefix)). set (seq := ss_next_seq (cl_session c)) in *.
  assert (length pre <= UID_LEN)%nat as Lp by (subst pre; rewrite length_take; destruct Hp as [-> _]; lia).
  assert (rec_fits (submit_record seq cmd)) as Hfit by (unfold rec_fits, RX_CAP; cbn [submit_record cmd enum_payload submit_args length to_le16 app]; fold pre; unfold UID_LEN in *; lia).
  assert (is_u16 seq) as Hu by (unfold SEQ_NONE in Hs; lia).
  set (p1 := fleet_submit (frame_rec (submit_record seq cmd)) (cl_pipe c)).
  set (h := fleet_heard (default FNone (head (fp_faults (cl_pipe c)))) (fp_parked (cl_pipe c)) (Z.of_nat len) (matchers fleet len prefix)).
  assert (p1 = mkFleet fleet (fp_parked (cl_pipe c) || Nat.leb 2 (length (matchers fleet len prefix)) && negb (Z.of_nat len =? 0))
    (tail (fp_faults (cl_pipe c))) (concat (fleet_answer seq h))) as Ep.
  { subst p1. unfold frame_rec. cbn [fleet_submit submit_record cmd enum_payload submit_args to_le16 app].
    rewrite Hf, le16_wraps, u16_id by done. fold pre. subst pre. rewrite fleet_hits_matchers by done. subst h. reflexivity. }
  destruct (fleet_heard_good (default FNone (head (fp_faults (cl_pipe c)))) (fp_parked (cl_pipe c)) len prefix) as [Hg Hl]. fold h in Hg, Hl.
  destruct (submit_reads turns c cmd _ _ [fp_out p1] p1 Hs Hx Hfit (fleet_answer_reads seq h Hg Hl)) as (c' & E & Hx' & Hn' & _ & Hr); [done| | | |..].
  - cbn. by exists p1.
  - rewrite Ep. cbn [fp_out concat]. apply app_nil_r.
  - cbn. lia.
  - unfold fleet_answer. destruct (h.1); cbn; lia.
  - exists c'. split; [exact E|]. apply fleet_recv_same in Hr. unfold bench_inv. rewrite Hr, Ep. split; [|done]. split; [exact Hx'|]. split; [exact Hn'|done].
Qed.

Lemma fault_count_tail l : (fault_count (tail l) <= fault_count l)%nat /\
  (default FNone (head l) <> FNone -> fault_count (tail l) < fault_count l)%nat.
Proof. clear turns turns_enough. destruct l as [|[| |] l]; unfold fault_count; cbn; split; try lia; done. Qed.

Lemma bench_exchange c len prefix : bench_inv c -> prefix_ok len prefix ->
  exists r c', Client_exchange turns Id_BROADCAST MGMT (enum_payload len prefix) c = Some (Ok r, c') /\
    bench_inv c' /\ (bench_faults c' <= bench_faults c)%nat /\
    (heard fleet bench_twin len prefix r \/ silent r /\ ~ bench_calm c \/ (silent r \/ garbled r) /\ (bench_faults c' < bench_faults c)%nat).
Proof using turns_enough fleet_good.
  intros Hi Hp. destruct (bench_reads c len prefix Hi Hp) as (c' & E & Hi' & Hf). destruct (fault_count_tail (fp_faults (cl_pipe c))) as [Hle Hlt].
  eexists _, c'. split; [exact E|]. split; [done|]. unfold bench_faults. rewrite Hf. split; [done|].
  pose proof (matchers_uid len prefix) as Hu. pose proof reply_silent. pose proof reply_garbled. unfold fleet_heard, heard, bench_calm.
  destruct (default FNone (head (fp_faults (cl_pipe c)))); [|right; right; split; [auto|apply Hlt; done]..].
  destruct (fp_parked (cl_pipe c)); [right; left; done|]. left.
  destruct (matchers fleet len prefix) as [|x [|y l]]; [done|apply reply_carries, Hu; by left|].
  destruct (Z.of_nat len =? 0) eqn:E0; zbool; [right|by left]. exists x. split; [apply reply_carries, Hu; by left|]. intros _. unfold bench_twin. lia.
Qed.

Lemma bench_pause c us : bench_inv c -> PROBE_SETTLE <= us ->
  let c' := set_cl_pipe (pipe_pause us (cl_pipe c)) c in bench_inv c' /\ bench_calm c' /\ (bench_faults c' <= bench_faults c)%nat.
Proof.
  intros Hi Hu. split; [exact Hi|]. split; [|done]. unfold bench_calm. cbn. rewrite (proj2 (Z.ltb_ge _ _)) by done. apply andb_false_r.
Qed.

Instance bench_enum : EnumBus FleetPipe turns fleet := {
  eb_inv := bench_inv; eb_calm := bench_calm; eb_faults := bench_faults; eb_twin := bench_twin;
  eb_exchange := bench_exchange; eb_pause := bench_pause;
  eb_unconfirmed len prefix n n' _ (H : S len = 0%nat) := False_ind _ (Nat.neq_succ_0 len H) }.
End bench.

(** Three servos, two of them alike in their first 127 bits.  The bus starts parked;
    the first walk loses both of its settled re-probes of the root, so it finds
    nobody, and noise falls in a later one. *)
Definition demo_fleet : list Found :=
  [mkFound (replicate 15 170 ++ [85]) 3; mkFound (replicate 15 170 ++ [213]) 7; mkFound (1 :: replicate 15 0) 250].
Definition demo_bus : Client FleetPipe :=
  mkClient (mkFleet demo_fleet true ([FNone; FMute; FMute] ++ replicate 40 FNone ++ [FNoise]) []) Session_new EdgeAnchor_default (mkInfo 1 18) DEFAULT_GUARD.

Lemma discover_complete_witness :
  fleet_ok demo_fleet /\ exists roster c', discover 4 (1 + 2 * length demo_fleet * FULL + 2 * 3) demo_bus = Some (Ok roster, c') /\
    Permutation roster demo_fleet /\ StronglySorted uid_le roster.
Proof.
  assert (fleet_ok demo_fleet) as Hf.
  { split; [repeat (apply Forall_cons_2; [split; [reflexivity|cbn; repeat (apply Forall_cons_2; [lia|]); apply Forall_nil_2]|]); apply Forall_nil_2|].
    cbn. repeat (constructor; [cbn; intros H; repeat destruct H as [H|H]; try discriminate H; exact H|]). constructor. }
  split; [exact Hf|]. assert (2 <= 4)%nat as H4 by lia.
  destruct (@discover_complete FleetPipe FleetPipe_Pipe 4 demo_fleet (bench_enum 4 demo_fleet H4 Hf)
    (1 + 2 * length demo_fleet * FULL + 2 * 3) demo_bus Hf) as (roster & c' & E & Hp & Hs & _).
  - split; [reflexivity|]. split; [cbn; unfold SEQ_NONE; lia|reflexivity].
  - change (3 <= 3)%nat. lia.
  - change (1 + 2 * length demo_fleet * FULL + 2 * 3 <= 1 + 2 * length demo_fleet * FULL + 2 * 3)%nat. lia.
  - exists roster, c'. split; [exact E|]. split; [exact Hp|exact Hs].
Defined.

(** The first walk alone finds nobody; discovery has the roster, in UID order. *)
Example demo_first_walk : match walk 4 800 demo_bus with Some (Ok roster, _) => roster | _ => demo_fleet end = [].
Proof. vm_compute. reflexivity. Qed.
Example demo_roster : match discover 4 800 demo_bus with Some (Ok roster, _) => map fd_id roster | _ => [] end = [250; 3; 7].
Proof. vm_compute. reflexivity. Qed.

(** There is a limit: more faults make two walks agree on an empty roster. *)
Example more_faults_mislead :
  let c := set_cl_pipe (mkFleet demo_fleet true [FNone; FMute; FMute; FMute; FMute; FMute] []) demo_bus in
  match discover 4 800 c with Some (Ok roster, _) => roster | _ => demo_fleet end = [].
Proof. vm_compute. reflexivity. Qed.
