(* ===== verification/Sensors.v ===== *)
(** * Sensor conversions (servo-ch32/src/control/sensors, lib/core/src/sample.rs)

    The arithmetic between the ADC's DMA buffer and the engineering units of a
    sample, in machine widths: Q32 reciprocal scales, the conversions, the filter of
    the calibration reference and the composer.  The DMA buffer and the sample tick
    are arguments.  The theorems bound the conversions' errors and ranges. *)

From S2P Require Import Prelude.

(** ** Board calibration (cfg/board_wiring.rs) *)

Record Divider := mkDivider { dv_top_ohm : Z; dv_bot_ohm : Z }.
Record NtcCal := mkNtc { nt_beta : Z; nt_r0_ohm : Z; nt_t0_cc : Z; nt_bias_r_ohm : Z }.
Record Calibration := mkCalibration { ca_shunt_r_mohm : Z; ca_vbus_divider : Divider; ca_vmotor_divider : Divider; ca_ntc : NtcCal }.

(** ** Conversions (convert.rs) *)

Definition ADC_MAX_RAW : Z := 4095.
Definition I16_MIN : Z := -32768.
Definition I16_MAX : Z := 32767.
Definition U32_MAX : Z := 4294967295.

Record Scales := mkScales { sc_vbus_q32 : Z; sc_vmotor_q32 : Z; sc_shunt_q32 : Z }.

Definition divider_q32 (d : Divider) : Z :=
  let bot := if dv_bot_ohm d =? 0 then 1 else dv_bot_ohm d in
  let sum := saturating_add32 (dv_top_ohm d) (dv_bot_ohm d) in
  let q := Z.shiftl sum 32 / (ADC_MAX_RAW * bot) in
  if U32_MAX <? q then U32_MAX else q.

Definition shunt_q32 (gain_factor r_mohm : Z) : Z :=
  let g := if gain_factor =? 0 then 1 else gain_factor in
  let r := if r_mohm =? 0 then 1 else r_mohm in
  let q := Z.shiftl 1000 32 / (ADC_MAX_RAW * g * r) in
  if U32_MAX <? q then U32_MAX else q.

Definition Scales_new (cal : Calibration) (gain_factor : Z) : Scales :=
  mkScales (divider_q32 (ca_vbus_divider cal)) (divider_q32 (ca_vmotor_divider cal)) (shunt_q32 gain_factor (ca_shunt_r_mohm cal)).

Definition divider_to_mv (raw vdd_mv scale_q32 : Z) : Z :=
  let prod := u32 (raw * vdd_mv) in
  Z.min (Z.shiftr (prod * scale_q32) 32) I16_MAX.

Definition vmotor_diff_mv (raw_a raw_b vdd_mv scale_q32 : Z) : Z :=
  let a := divider_to_mv raw_a vdd_mv scale_q32 in
  let b := divider_to_mv raw_b vdd_mv scale_q32 in
  Z.min (Z.abs (a - b)) I16_MAX.

Definition shunt_to_milliamps (raw bias_raw vdd_mv scale_q32 : Z) : Z :=
  let signed := raw - bias_raw in
  let mag := Z.abs signed * vdd_mv in
  let i_ma_mag := i32 (Z.shiftr (mag * scale_q32) 32) in
  let i_ma := if 0 <=? signed then i_ma_mag else - i_ma_mag in
  Z.max I16_MIN (Z.min I16_MAX i_ma).

Definition ntc_to_centi_celsius (raw : Z) (cal : NtcCal) : Z := nt_t0_cc cal.

Definition saturating_add_i32 (a b : Z) : Z := Z.max (-2147483648) (Z.min 2147483647 (a + b)).
Definition pos_to_microrads (raw min_urad max_urad : Z) : Z :=
  let span := max_urad - min_urad in
  let interp := Z.shiftr (span * raw) 12 in
  saturating_add_i32 min_urad (i32 interp).

(** ** The reference filter (lpf.rs) *)

Record VcalLpf := mkLpf { lp_state_q6 : Z; lp_initialized : bool }.
Definition VcalLpf_new : VcalLpf := mkLpf 0 false.
Definition VcalLpf_update (f : VcalLpf) (raw : Z) : Z * VcalLpf :=
  let x := Z.shiftl raw 6 in
  let s := if lp_initialized f then lp_state_q6 f + Z.shiftr (x - lp_state_q6 f) 7 else x in
  (u16 (Z.shiftr s 6), mkLpf s true).

(** ** The composer (scan.rs, mod.rs, core's sample.rs) *)

Definition ADC_SCAN_LEN : nat := 6.
Definition SCAN_PEAK_OFFSET : nat := ADC_SCAN_LEN.
Definition SCAN_TROUGH_OFFSET : nat := 0.
Definition SCAN_IDX_SHUNT_POST : nat := 0.
Definition SCAN_IDX_POS : nat := 1.
Definition SCAN_IDX_NTC : nat := 2.
Definition SCAN_IDX_VMOTOR_A : nat := 3.
Definition SCAN_IDX_VMOTOR_B : nat := 4.
Definition SCAN_IDX_VCAL : nat := 5.
(** The DMA buffer as it stands when the slot is read; [None] is out of bounds. *)
Definition scan_slot (buf : list Z) (offset idx : nat) : option Z := buf !! (offset + idx)%nat.

Record ConversionVariables := mkVars { cv_pos_min_phys_urad : Z; cv_pos_max_phys_urad : Z; cv_vdd_mv : Z }.
Record RawSamples := mkRaw {
  rw_pos : Z; rw_current : Z; rw_shunt_post_trough : Z; rw_temp : Z; rw_vbus : Z; rw_vmotor_a : Z;
  rw_vmotor_a_trough : Z; rw_vmotor_b : Z; rw_vmotor_b_trough : Z; rw_vcal : Z; rw_vcal_lpf : Z }.
Record Sample := mkSample {
  sm_tick : Z; sm_pos : Z; sm_current : Z; sm_current_post_trough : Z; sm_temp : Z; sm_vbus : Z; sm_vmotor : Z; sm_raw : RawSamples }.
Record Ch32Sensors := mkSensors { sn_calibration : Calibration; sn_shunt_bias_raw : Z; sn_scales : Scales; sn_vcal_lpf : VcalLpf }.
Definition Ch32Sensors_new (cal : Calibration) (bias : Z) (scales : Scales) : Ch32Sensors := mkSensors cal bias scales VcalLpf_new.

Definition Ch32Sensors_sample (s : Ch32Sensors) (vars : ConversionVariables) (buf : list Z) (tick : Z) : option (Sample * Ch32Sensors) :=
  raw_shunt_post_trough ← scan_slot buf SCAN_TROUGH_OFFSET SCAN_IDX_SHUNT_POST;
  raw_vmotor_a_trough ← scan_slot buf SCAN_TROUGH_OFFSET SCAN_IDX_VMOTOR_A;
  raw_vmotor_b_trough ← scan_slot buf SCAN_TROUGH_OFFSET SCAN_IDX_VMOTOR_B;
  raw_shunt_post_peak ← scan_slot buf SCAN_PEAK_OFFSET SCAN_IDX_SHUNT_POST;
  raw_pos ← scan_slot buf SCAN_PEAK_OFFSET SCAN_IDX_POS;
  raw_ntc ← scan_slot buf SCAN_PEAK_OFFSET SCAN_IDX_NTC;
  raw_vmotor_a ← scan_slot buf SCAN_PEAK_OFFSET SCAN_IDX_VMOTOR_A;
  raw_vmotor_b ← scan_slot buf SCAN_PEAK_OFFSET SCAN_IDX_VMOTOR_B;
  raw_vcal ← scan_slot buf SCAN_PEAK_OFFSET SCAN_IDX_VCAL;
  let raw_vbus := 0 in
  let '(filtered_vcal, lpf) := VcalLpf_update (sn_vcal_lpf s) raw_vcal in
  let vdd_mv := cv_vdd_mv vars in
  let shunt raw := shunt_to_milliamps raw (sn_shunt_bias_raw s) vdd_mv (sc_shunt_q32 (sn_scales s)) in
  Some (mkSample tick (pos_to_microrads raw_pos (cv_pos_min_phys_urad vars) (cv_pos_max_phys_urad vars))
          (shunt raw_shunt_post_peak) (shunt raw_shunt_post_trough) (ntc_to_centi_celsius raw_ntc (ca_ntc (sn_calibration s)))
          (divider_to_mv raw_vbus vdd_mv (sc_vbus_q32 (sn_scales s)))
          (vmotor_diff_mv raw_vmotor_a raw_vmotor_b vdd_mv (sc_vmotor_q32 (sn_scales s)))
          (mkRaw raw_pos raw_shunt_post_peak raw_shunt_post_trough raw_ntc raw_vbus raw_vmotor_a raw_vmotor_a_trough
             raw_vmotor_b raw_vmotor_b_trough raw_vcal filtered_vcal),
        mkSensors (sn_calibration s) (sn_shunt_bias_raw s) (sn_scales s) lpf).

(** ** Accuracy of the reciprocal

    Multiplying by a truncated Q32 reciprocal instead of dividing costs at most one. *)

Lemma shiftr32 x : Z.shiftr x 32 = x / 4294967296.
Proof. by rewrite Z.shiftr_div_pow2. Qed.
Lemma shiftl32 x : Z.shiftl x 32 = x * 4294967296.
Proof. by rewrite Z.shiftl_mul_pow2. Qed.

Lemma reciprocal_close p num den : 0 <= p < 4294967296 -> 0 <= num -> 0 < den ->
  p * num / den - 1 <= Z.shiftr (p * (Z.shiftl num 32 / den)) 32 <= p * num / den.
Proof.
  intros Hp Hn Hd. rewrite shiftr32, shiftl32. set (q := num * 4294967296 / den).
  assert (q * den <= num * 4294967296 < q * den + den) as Hq by (subst q; Z.div_mod_to_equations; nia).
  assert (0 <= q) by (subst q; apply Z.div_pos; lia).
  set (v := p * q / 4294967296). set (e := p * num / den).
  assert (v * 4294967296 <= p * q < v * 4294967296 + 4294967296) as Hv by (subst v; Z.div_mod_to_equations; lia).
  assert (e * den <= p * num < e * den + den) as He by (subst e; Z.div_mod_to_equations; lia).
  split; nia.
Qed.

(** ** Ranges and errors *)

Lemma divider_close d raw vdd : 0 <= dv_top_ohm d -> 0 < dv_bot_ohm d -> dv_top_ohm d + dv_bot_ohm d <= U32_MAX ->
  dv_top_ohm d + dv_bot_ohm d < ADC_MAX_RAW * dv_bot_ohm d -> is_u16 raw -> is_u16 vdd ->
  let exact := raw * vdd * (dv_top_ohm d + dv_bot_ohm d) / (ADC_MAX_RAW * dv_bot_ohm d) in
  Z.min (exact - 1) I16_MAX <= divider_to_mv raw vdd (divider_q32 d) <= Z.min exact I16_MAX.
Proof.
  intros Ht Hb Hs Hq Hr Hv exact. unfold divider_to_mv, divider_q32, saturating_add32. rewrite (proj2 (Z.eqb_neq _ _)) by lia.
  unfold U32_MAX in Hs. rewrite (Z.min_r 4294967295) by lia. set (sum := dv_top_ohm d + dv_bot_ohm d) in *.
  set (den := ADC_MAX_RAW * dv_bot_ohm d) in *. assert (0 < den) by (subst den; unfold ADC_MAX_RAW; lia).
  rewrite (proj2 (Z.ltb_ge _ _)) by (rewrite shiftl32; unfold U32_MAX; Z.div_mod_to_equations; nia).
  rewrite (u32_id (raw * vdd)) by nia.
  pose proof (reciprocal_close (raw * vdd) sum den ltac:(nia) ltac:(lia) ltac:(lia)) as Hc. fold exact in Hc. lia.
Qed.

Lemma shunt_close gain r raw bias vdd : 0 < gain -> 0 < r -> 0 <= raw <= ADC_MAX_RAW -> 0 <= bias <= ADC_MAX_RAW -> is_u16 vdd ->
  let exact := Z.abs (raw - bias) * vdd * 1000 / (ADC_MAX_RAW * gain * r) in
  exists m, exact - 1 <= m <= exact /\ 0 <= m /\
    shunt_to_milliamps raw bias vdd (shunt_q32 gain r) = if bias <=? raw then Z.min I16_MAX m else Z.max I16_MIN (- m).
Proof.
  intros Hg Hr Hraw Hbias Hv exact. unfold ADC_MAX_RAW in Hraw, Hbias. unfold shunt_to_milliamps, shunt_q32. rewrite !(proj2 (Z.eqb_neq _ _)) by lia.
  set (den := ADC_MAX_RAW * gain * r) in *. assert (4095 <= den) by (subst den; unfold ADC_MAX_RAW; nia).
  assert (Z.shiftl 1000 32 / den <= 1000 * 4294967296 / 4095) as Hsc.
  { rewrite shiftl32. apply Z.div_le_compat_l; lia. }
  rewrite (proj2 (Z.ltb_ge _ _)) by (unfold U32_MAX; change (1000 * 4294967296 / 4095) with 1048832062 in Hsc; lia).
  set (mag := Z.abs (raw - bias) * vdd). assert (0 <= mag < 268435456) by (subst mag; nia).
  pose proof (reciprocal_close mag 1000 den ltac:(lia) ltac:(lia) ltac:(lia)) as Hc.
  replace (mag * 1000 / den) with exact in Hc by done. set (m := Z.shiftr (mag * (Z.shiftl 1000 32 / den)) 32) in *.
  assert (0 <= Z.shiftl 1000 32 / den) by (apply Z.div_pos; [by vm_compute|lia]).
  assert (0 <= m < 2147483648) as Hm.
  { subst m. rewrite shiftr32. change (1000 * 4294967296 / 4095) with 1048832062 in Hsc. split; [apply Z.div_pos; nia|].
    apply Z.div_lt_upper_bound; nia. }
  exists m. split; [done|]. split; [lia|]. rewrite i32_small by lia. unfold I16_MIN, I16_MAX.
  destruct (Z.leb_spec 0 (raw - bias)), (Z.leb_spec bias raw); lia.
Qed.

Lemma pos_interp raw lo hi : 0 <= raw <= ADC_MAX_RAW -> -2147483648 <= lo < hi -> hi < 2147483648 -> hi - lo < 2147483648 ->
  pos_to_microrads raw lo hi = lo + (hi - lo) * raw / 4096.
Proof.
  unfold ADC_MAX_RAW. intros Hr Hl Hh Hs. unfold pos_to_microrads, saturating_add_i32. rewrite Z.shiftr_div_pow2 by lia. change (2 ^ 12) with 4096.
  assert (0 <= (hi - lo) * raw / 4096 < hi - lo) by (Z.div_mod_to_equations; nia).
  rewrite i32_small by lia. lia.
Qed.

Lemma pos_close raw lo hi : 0 <= raw <= ADC_MAX_RAW -> -2147483648 <= lo < hi -> hi < 2147483648 -> hi - lo < 2147483648 ->
  let p := pos_to_microrads raw lo hi in
  lo <= p < hi /\ lo + (hi - lo) * raw / ADC_MAX_RAW - (hi - lo) / 4096 - 1 <= p <= lo + (hi - lo) * raw / ADC_MAX_RAW.
Proof.
  intros Hr Hl Hh Hs p. subst p. rewrite pos_interp by done. unfold ADC_MAX_RAW in *. set (span := hi - lo) in *.
  assert (0 < span) by lia. assert (0 <= span * raw <= 4095 * span) as HX by nia.
  set (X := span * raw) in *. clearbody X. replace hi with (lo + span) by lia. clearbody span. split; zmod.
Qed.

(** ** The filter *)

Fixpoint lpf_run (f : VcalLpf) (raws : list Z) : VcalLpf :=
  match raws with [] => f | x :: raws' => lpf_run (VcalLpf_update f x).2 raws' end.

Lemma lpf_error s x : 64 * x - (s + Z.shiftr (Z.shiftl x 6 - s) 7) = (64 * x - s) - (64 * x - s) / 128.
Proof. rewrite Z.shiftl_mul_pow2, Z.shiftr_div_pow2 by lia. change (2 ^ 6) with 64. change (2 ^ 7) with 128. rewrite (Z.mul_comm x). lia. Qed.

Fixpoint err_run (n : nat) (e : Z) : Z := match n with O => e | S n' => err_run n' (e - e / 128) end.
Lemma lpf_run_err n x : forall s, lp_state_q6 (lpf_run (mkLpf s true) (replicate n x)) = 64 * x - err_run n (64 * x - s) /\
  lp_initialized (lpf_run (mkLpf s true) (replicate n x)) = true.
Proof.
  induction n as [|n IH]; intros s; cbn [replicate lpf_run err_run]; [cbn; split; [lia|done]|].
  unfold VcalLpf_update at 1 2. cbn [lp_initialized lp_state_q6 snd]. destruct (IH (s + Z.shiftr (Z.shiftl x 6 - s) 7)) as [-> ->].
  by rewrite lpf_error.
Qed.

(** The excess over the dead band shrinks by 127/128 a step. *)
Lemma err_decays n : forall e, 0 <= e -> 0 <= err_run n e /\ (err_run n e - 127) * 128 ^ Z.of_nat n <= Z.max 0 (e - 127) * 127 ^ Z.of_nat n.
Proof.
  induction n as [|n IH]; intros e He; [cbn; lia|]. cbn [err_run]. destruct (IH (e - e / 128)) as [H1 H2]; [zmod|]. split; [done|].
  rewrite Nat2Z.inj_succ, !Z.pow_succ_r by lia.
  assert (Z.max 0 (e - e / 128 - 127) * 128 <= Z.max 0 (e - 127) * 127) by zmod.
  pose proof (Z.pow_pos_nonneg 127 (Z.of_nat n)). pose proof (Z.pow_pos_nonneg 128 (Z.of_nat n)). nia.
Qed.
Lemma err_decays_neg n : forall e, e <= 0 -> err_run n e <= 0 /\ - err_run n e * 128 ^ Z.of_nat n <= - e * 127 ^ Z.of_nat n.
Proof.
  induction n as [|n IH]; intros e He; [cbn; lia|]. cbn [err_run]. destruct (IH (e - e / 128)) as [H1 H2]; [zmod|]. split; [done|].
  rewrite Nat2Z.inj_succ, !Z.pow_succ_r by lia. assert (- (e - e / 128) * 128 <= - e * 127) by zmod.
  pose proof (Z.pow_pos_nonneg 127 (Z.of_nat n)). pose proof (Z.pow_pos_nonneg 128 (Z.of_nat n)). nia.
Qed.

Definition LPF_SETTLE : nat := 2000.
Lemma settle_factor : 4194304 * 127 ^ Z.of_nat LPF_SETTLE < 128 ^ Z.of_nat LPF_SETTLE.
Proof. by vm_compute. Qed.
Lemma err_settles e : -4194304 <= e <= 4194304 -> 0 <= err_run LPF_SETTLE e < 128.
Proof.
  intros He. pose proof settle_factor as Hs. pose proof (Z.pow_pos_nonneg 128 (Z.of_nat LPF_SETTLE)).
  set (b := 128 ^ Z.of_nat LPF_SETTLE) in *. pose proof (Z.pow_pos_nonneg 127 (Z.of_nat LPF_SETTLE)).
  destruct (Z.le_gt_cases 0 e) as [Hp|Hp].
  - destruct (err_decays LPF_SETTLE e Hp) as [D1 D2]. fold b in D2. set (a := 127 ^ Z.of_nat LPF_SETTLE) in *. split; [done|]. nia.
  - destruct (err_decays_neg LPF_SETTLE e ltac:(lia)) as [D1 D2]. fold b in D2. set (a := 127 ^ Z.of_nat LPF_SETTLE) in *.
    assert (err_run LPF_SETTLE e = 0) by nia. lia.
Qed.

Lemma err_stays n e : 0 <= e < 128 -> err_run n e = e.
Proof. revert e. induction n as [|n IH]; intros e He; [done|]. cbn [err_run]. rewrite (Z.div_small e 128) by done. rewrite Z.sub_0_r. by apply IH. Qed.
Lemma err_run_add n m e : err_run (n + m) e = err_run m (err_run n e).
Proof. revert e. induction n as [|n IH]; intros e; [done|]. apply IH. Qed.

Lemma err_le n : forall e, err_run n e <= Z.max 0 e.
Proof. induction n as [|n IH]; intros e; cbn [err_run]; [lia|]. pose proof (IH (e - e / 128)). zmod. Qed.

(** ** Theorems *)

Definition calibrated (s : Ch32Sensors) (gain : Z) : Prop :=
  let cal := sn_calibration s in
  0 < gain /\ 0 < ca_shunt_r_mohm cal /\ 0 <= sn_shunt_bias_raw s <= ADC_MAX_RAW /\ sc_shunt_q32 (sn_scales s) = shunt_q32 gain (ca_shunt_r_mohm cal).
(** The exact current, in whole milliamps, without the sign. *)
Definition exact_ma (s : Ch32Sensors) (gain vdd raw : Z) : Z :=
  Z.abs (raw - sn_shunt_bias_raw s) * vdd * 1000 / (ADC_MAX_RAW * gain * ca_shunt_r_mohm (sn_calibration s)).

(** C34: a sample is faithful to the ADC codes.  For any calibrated board, any DMA
    buffer of 12-bit codes and any position range shorter than half the 32-bit scale,
    the composer returns a sample: the position lies in the range, within one code
    and one microradian of exact interpolation; the current has the sign of the
    code against the bias and is within a milliamp of the exact quotient, clamped to
    16 bits, although no division is done; the peak scan feeds both. *)
Theorem sample_faithful (s : Ch32Sensors) (gain : Z) (vars : ConversionVariables) (trough peak : list Z) (tick : Z) :
  calibrated s gain -> length trough = ADC_SCAN_LEN -> length peak = ADC_SCAN_LEN -> Forall (fun x => 0 <= x <= ADC_MAX_RAW) (trough ++ peak) ->
  let lo := cv_pos_min_phys_urad vars in let hi := cv_pos_max_phys_urad vars in
  -2147483648 <= lo < hi -> hi < 2147483648 -> hi - lo < 2147483648 -> is_u16 (cv_vdd_mv vars) ->
  exists sm s' pos shunt m, Ch32Sensors_sample s vars (trough ++ peak) tick = Some (sm, s') /\
    peak !! SCAN_IDX_POS = Some pos /\ peak !! SCAN_IDX_SHUNT_POST = Some shunt /\
    lo <= sm_pos sm < hi /\
    lo + (hi - lo) * pos / ADC_MAX_RAW - (hi - lo) / 4096 - 1 <= sm_pos sm <= lo + (hi - lo) * pos / ADC_MAX_RAW /\
    exact_ma s gain (cv_vdd_mv vars) shunt - 1 <= m <= exact_ma s gain (cv_vdd_mv vars) shunt /\ 0 <= m /\
    sm_current sm = if sn_shunt_bias_raw s <=? shunt then Z.min I16_MAX m else Z.max I16_MIN (- m).
Proof.
  intros (Hg & Hr & Hb & Hsc) Lt Lp Hc lo hi Hl Hh Hs Hv.
  destruct trough as [|t0 [|t1 [|t2 [|t3 [|t4 [|t5 []]]]]]]; try discriminate Lt.
  destruct peak as [|p0 [|p1 [|p2 [|p3 [|p4 [|p5 []]]]]]]; try discriminate Lp.
  apply Forall_app in Hc as [_ Hc]. apply Forall_cons_1 in Hc as [H0 Hc]. apply Forall_cons_1 in Hc as [H1 _].
  destruct (shunt_close gain (ca_shunt_r_mohm (sn_calibration s)) p0 (sn_shunt_bias_raw s) (cv_vdd_mv vars) Hg Hr H0 Hb Hv) as (m & Hm & Hm0 & Em).
  destruct (pos_close p1 lo hi H1 Hl Hh Hs) as [Hp1 Hp2].
  unfold Ch32Sensors_sample. cbn [app scan_slot lookup list_lookup Nat.add SCAN_TROUGH_OFFSET SCAN_PEAK_OFFSET ADC_SCAN_LEN SCAN_IDX_SHUNT_POST
    SCAN_IDX_POS SCAN_IDX_NTC SCAN_IDX_VMOTOR_A SCAN_IDX_VMOTOR_B SCAN_IDX_VCAL mbind option_bind].
  destruct (VcalLpf_update (sn_vcal_lpf s) p5) as [fv lpf]. eexists _, _, p1, p0, m. split; [reflexivity|]. cbn [sm_pos sm_current].
  rewrite Hsc. split; [done|]. split; [done|]. split; [exact Hp1|]. split; [exact Hp2|]. split; [exact Hm|]. split; [exact Hm0|exact Em].
Qed.

(** The reference filter settles.  From any state the ADC can leave it in, two
    thousand samples of one code, and any number more, bring the output to that code
    and keep it there, at most two codes low. *)
Theorem lpf_settles (s raw : Z) (n : nat) :
  0 <= s <= 4194240 -> is_u16 raw -> (LPF_SETTLE <= n)%nat ->
  raw - 2 <= (VcalLpf_update (lpf_run (mkLpf s true) (replicate n raw)) raw).1 <= raw.
Proof.
  intros Hs Hr Hn. pose proof (lpf_run_err (S n) raw s) as [E _]. rewrite replicate_S_end in E.
  assert (forall l f, lpf_run f (l ++ [raw]) = (VcalLpf_update (lpf_run f l) raw).2) as Eapp.
  { intros l. induction l as [|x l IH]; intros f; [done|]. apply IH. }
  rewrite Eapp in E. set (f := lpf_run (mkLpf s true) (replicate n raw)) in *.
  assert (0 <= err_run (S n) (64 * raw - s) < 128) as He.
  { replace (S n) with (LPF_SETTLE + (S n - LPF_SETTLE))%nat by lia. rewrite err_run_add.
    pose proof (err_settles (64 * raw - s) ltac:(lia)) as H0. by rewrite (err_stays _ _ H0). }
  unfold VcalLpf_update in *. cbn [fst snd lp_state_q6] in *. set (st := if lp_initialized f then _ else _) in *.
  rewrite E. rewrite Z.shiftr_div_pow2 by lia. change (2 ^ 6) with 64.
  pose proof (err_le (S n) (64 * raw - s)). set (e := err_run (S n) (64 * raw - s)) in *. clearbody e. clear E st.
  rewrite u16_id by zmod. zmod.
Qed.

(** With the range the register rules allow, the interpolation can leave 32 bits:
    the position reported then lies outside the range. *)
Example pos_wraps : let lo := -2000000000 in let hi := 2000000000 in lo < hi /\ pos_to_microrads 3000 lo hi < lo.
Proof. vm_compute. done. Qed.

(** A board: 10 mOhm shunt, gain 32, bias at mid-scale, 3.3 V; a quarter of the way up. *)
Definition demo_cal : Calibration := mkCalibration 10 (mkDivider 20000 10000) (mkDivider 20000 10000) (mkNtc 3950 10000 2500 10000).
Definition demo_sensors : Ch32Sensors := Ch32Sensors_new demo_cal 2048 (Scales_new demo_cal 32).
Definition demo_vars : ConversionVariables := mkVars (-1570796) 1570796 3300.
Definition demo_peak : list Z := [2148; 1024; 1000; 3000; 1000; 1500].

Lemma sample_faithful_witness :
  calibrated demo_sensors 32 /\ exists sm s' pos shunt m, Ch32Sensors_sample demo_sensors demo_vars (replicate 6 2048 ++ demo_peak) 77 = Some (sm, s') /\
    demo_peak !! SCAN_IDX_POS = Some pos /\ demo_peak !! SCAN_IDX_SHUNT_POST = Some shunt /\ -1570796 <= sm_pos sm < 1570796 /\
    exact_ma demo_sensors 32 3300 shunt - 1 <= m <= exact_ma demo_sensors 32 3300 shunt.
Proof.
  assert (calibrated demo_sensors 32) as Hc by (repeat split; vm_compute; congruence).
  split; [exact Hc|].
  destruct (sample_faithful demo_sensors 32 demo_vars (replicate 6 2048) demo_peak 77 Hc) as (sm & s' & pos & shunt & m & E & Ep & Es & Hp & _ & Hm & _).
  - reflexivity.
  - reflexivity.
  - cbn. unfold ADC_MAX_RAW. repeat (apply Forall_cons_2; [lia|]). apply Forall_nil_2.
  - vm_compute. split; congruence.
  - vm_compute. congruence.
  - vm_compute. congruence.
  - cbn. lia.
  - exists sm, s', pos, shunt, m. split; [exact E|]. split; [exact Ep|]. split; [exact Es|]. split; [exact Hp|exact Hm].
Defined.

Lemma lpf_settles_witness : 0 <= 64000 <= 4194240 /\
  1498 <= (VcalLpf_update (lpf_run (mkLpf 64000 true) (replicate LPF_SETTLE 1500)) 1500).1 <= 1500.
Proof. split; [lia|]. apply (lpf_settles 64000 1500 LPF_SETTLE); lia. Defined.
