(* ===== verification/Led.v ===== *)
(** * The LED player (lib/drivers/src/led.rs)

    One output pin in one of three patterns; the caller's clock is an argument of
    each call, in ticks, and the pin's writes are the trace.  A blink toggles no
    sooner than half its period and no later than the poll after it. *)

From S2P Require Import Prelude.

Inductive Pattern := SolidOn | SolidOff | Blink (period_us : Z).
#[export] Instance Pattern_eq_dec : EqDecision Pattern.
Proof. solve_decision. Defined.
Inductive PinLevel := PinHigh | PinLow.

Section led.
(** [M::TICKS_PER_US]. *)
Variable TICKS_PER_US : Z.

Record Led := mkLed { led_pattern : Pattern; led_phase_tick : Z; led_on : bool }.
Definition Led_new : Led := mkLed SolidOn 0 true.

Definition Led_set_pattern (now : Z) (p : Pattern) (l : Led) : Led :=
  if bool_decide (led_pattern l = p) then l else mkLed p now (led_on l).

Definition half_period_ticks (period_us : Z) : Z := u32 (period_us / 2 * TICKS_PER_US).

(** The new state and what was written to the pin. *)
Definition Led_poll (now : Z) (l : Led) : Led * list PinLevel :=
  let '(target_on, phase) :=
    match led_pattern l with
    | SolidOn => (true, led_phase_tick l)
    | SolidOff => (false, led_phase_tick l)
    | Blink period_us =>
        if half_period_ticks period_us <=? u32 (now - led_phase_tick l) then (negb (led_on l), now)
        else (led_on l, led_phase_tick l)
    end in
  if eqb target_on (led_on l) then (mkLed (led_pattern l) phase (led_on l), [])
  else (mkLed (led_pattern l) phase target_on, [if target_on then PinHigh else PinLow]).

(** ** Solid patterns *)

Lemma poll_solid now l (b : bool) : led_pattern l = (if b then SolidOn else SolidOff) ->
  led_on (Led_poll now l).1 = b /\ led_pattern (Led_poll now l).1 = led_pattern l /\
  (Led_poll now l).2 = if eqb b (led_on l) then [] else [if b then PinHigh else PinLow].
Proof. intros E. unfold Led_poll. rewrite E. destruct b, (led_on l) eqn:Eo; cbn; by rewrite ?E, ?Eo. Qed.

Lemma set_pattern_same now l : Led_set_pattern now (led_pattern l) l = l.
Proof. unfold Led_set_pattern. by rewrite bool_decide_true. Qed.

(** ** Blinking

    Polls at the times [ts] of a running clock; the trace pairs each write with the
    time of its poll. *)
Fixpoint poll_run (l : Led) (ts : list Z) : list (Z * PinLevel) :=
  match ts with
  | [] => []
  | t :: ts' => let '(l', w) := Led_poll (u32 t) l in map (pair t) w ++ poll_run l' ts'
  end.

(** Polls come in order and at most [gap] apart, starting after [t0]. *)
Fixpoint polled (gap t0 : Z) (ts : list Z) : Prop :=
  match ts with [] => True | t :: ts' => t0 <= t <= t0 + gap /\ polled gap t ts' end.

(** The level alternates and each write comes between [h] and [h + gap] after the
    one before. *)
Fixpoint blinks (h gap : Z) (last : Z) (on : bool) (w : list (Z * PinLevel)) : Prop :=
  match w with
  | [] => True
  | (t, lv) :: w' => h <= t - last <= h + gap /\ lv = (if on then PinLow else PinHigh) /\ blinks h gap t (negb on) w'
  end.

Lemma blink_run period gap : let h := half_period_ticks period in h + gap < 4294967296 -> 0 <= gap ->
  forall ts last t0 on, last <= t0 -> t0 - last < h \/ t0 = last -> polled gap t0 ts ->
  blinks h gap last on (poll_run (mkLed (Blink period) (u32 last) on) ts).
Proof.
  intros h Hw Hg ts. induction ts as [|t ts IH]; intros last t0 on Hl Ht Hp; [done|].
  destruct Hp as [Ht0 Hp]. cbn [poll_run]. unfold Led_poll. cbn [led_pattern led_phase_tick led_on]. fold h.
  assert (0 <= h) as Hh by (subst h; unfold half_period_ticks; apply u32_range).
  rewrite u32_sub, u32_id by lia.
  destruct (Z.leb_spec h (t - last)) as [Hge|Hlt].
  - assert (eqb (negb on) on = false) as -> by (by destruct on). cbn [map app blinks].
    split; [lia|]. split; [by destruct on|]. apply (IH t t); [lia|by right|done].
  - assert (eqb on on = true) as -> by (by destruct on). cbn [map app].
    apply (IH last t); [lia|by left; lia|done].
Qed.
End led.
Arguments Led : clear implicits.

(** The blink of a LED that was just given its pattern: whatever the tick counter
    reads and however it wraps, the pin is written at alternating levels, each write
    no sooner than half the period after the one before and at most one poll late. *)
Theorem led_blinks (tpu period gap t0 : Z) (l : Led) (ts : list Z) :
  led_pattern l <> Blink period -> half_period_ticks tpu period + gap < 4294967296 -> 0 <= gap -> polled gap t0 ts ->
  blinks (half_period_ticks tpu period) gap t0 (led_on l) (poll_run tpu (Led_set_pattern (u32 t0) (Blink period) l) ts).
Proof.
  intros Hne Hw Hg Hp. unfold Led_set_pattern. rewrite bool_decide_false by done.
  apply (blink_run tpu period gap Hw Hg ts t0 t0); [lia|by right|done].
Qed.
