(* ===== verification/Motor.v ===== *)
(** * The motor service (servo-ch32/src/control/motor.rs and hal/timer/v3.rs)

    [Ch32Motor_write] turns a motor command into the enable pin and two compare
    values of the centre-aligned PWM timer.  The bridge is the DRV8212P's truth
    table over the two legs.  The theorem reads the compare values through the
    timer and the bridge: over a PWM period the motor is driven for exactly the
    commanded number of ticks in the commanded direction, and idles in the commanded
    decay for the rest. *)

From S2P Require Import Prelude Led.

(** ** lib/core/src/traits/control.rs *)

Inductive DecayMode := Fast | Slow.
Inductive MotorCmd := Disabled | Coast | Brake | Drive (duty : Z) (decay : DecayMode).

(** ** hal/timer/v3.rs: the PWM dividers *)

Definition TIM_CLK_HZ : Z := 48000000.

Fixpoint pwm_dividers_loop (fuel : nat) (denom psc : Z) : option (Z * Z) :=
  match fuel with
  | O => None
  | S fuel' =>
      if u32 (denom * (psc + 1)) =? 0 then None
      else
        let arr := TIM_CLK_HZ / u32 (denom * (psc + 1)) in
        if (0 <? arr) && (arr <=? 65535) then Some (u16 psc, u16 arr)
        else pwm_dividers_loop fuel' denom (psc + 1)
  end.
(** A period of at least one tick needs no prescaler past 366. *)
Definition pwm_dividers_from_hz (freq_hz : Z) : option (Z * Z) := pwm_dividers_loop 367 (u32 (2 * freq_hz)) 0.

(** ** control/motor.rs *)

Record Ch32Motor := mkMotor { mo_active : PinLevel; mo_inactive : PinLevel; mo_pwm_arr : Z }.
Definition Ch32Motor_new (drv_en_active : PinLevel) (pwm_arr : Z) : Ch32Motor :=
  mkMotor drv_en_active (match drv_en_active with PinHigh => PinLow | PinLow => PinHigh end) pwm_arr.

(** [mag * arr / 32767] by a shift. *)
Definition effort_to_ticks (mag pwm_arr : Z) : Z :=
  let m := Z.min mag 32767 in
  let prod := u32 (m * pwm_arr) in
  u16 (Z.shiftr (u32 (prod + 16384)) 15).

Definition STATIC_HIGH : Z := 65535.

(** The writes to the enable pin and to the two compare registers. *)
Record MotorPins := mkPins { mp_drv_en : PinLevel; mp_in1 : Z; mp_in2 : Z }.
Definition Ch32Motor_write (m : Ch32Motor) (cmd : MotorCmd) : MotorPins :=
  match cmd with
  | Disabled => mkPins (mo_inactive m) 0 0
  | Coast => mkPins (mo_active m) 0 0
  | Brake => mkPins (mo_active m) STATIC_HIGH STATIC_HIGH
  | Drive duty decay =>
      let ticks := effort_to_ticks (Z.abs duty) (mo_pwm_arr m) in
      if ticks =? 0 then mkPins (mo_active m) 0 0
      else
        let arr_minus := saturating_sub (mo_pwm_arr m) ticks in
        let '(in1, in2) :=
          match decay, 0 <=? duty with
          | Slow, true => (STATIC_HIGH, arr_minus)
          | Slow, false => (arr_minus, STATIC_HIGH)
          | Fast, true => (ticks, 0)
          | Fast, false => (0, ticks)
          end in
        mkPins (mo_active m) in1 in2
  end.

(** ** The dividers *)

Lemma dividers_loop_spec denom : 2 <= denom <= TIM_CLK_HZ -> forall fuel psc,
  0 <= psc -> psc + Z.of_nat fuel = 367 -> (psc = 0 \/ 65535 < TIM_CLK_HZ / (denom * psc)) ->
  exists psc' arr, pwm_dividers_loop fuel denom psc = Some (psc', arr) /\ 0 <= psc' < 367 /\ 0 < arr <= 65535 /\
    arr = TIM_CLK_HZ / (denom * (psc' + 1)) /\ (psc' = 0 \/ 65535 < TIM_CLK_HZ / (denom * psc')).
Proof.
  unfold TIM_CLK_HZ. intros Hd fuel. induction fuel as [|fuel IH]; intros psc Hp Hf Hprev.
  - exfalso. assert (psc = 367) as -> by lia. destruct Hprev as [|Hprev]; [lia|].
    assert (48000000 / (denom * 367) <= 48000000 / 734) by (apply Z.div_le_compat_l; lia).
    change (48000000 / 734) with 65395 in *. lia.
  - cbn [pwm_dividers_loop]. unfold TIM_CLK_HZ.
    assert (psc = 0 \/ 0 < psc /\ denom * psc < 733) as Hsmall.
    { destruct Hprev as [|Hprev]; [by left|right]. assert (psc <> 0) by (intros ->; rewrite Z.mul_0_r, Z.div_0_r in Hprev; lia).
      split; [lia|]. destruct (Z.lt_ge_cases (denom * psc) 733) as [|Hge]; [done|].
      assert (48000000 / (denom * psc) <= 48000000 / 733) by (apply Z.div_le_compat_l; lia).
      change (48000000 / 733) with 65484 in *. lia. }
    assert (0 < denom * (psc + 1) <= 48000000) as Hr by nia.
    rewrite u32_id, (proj2 (Z.eqb_neq _ _)) by lia. set (q := 48000000 / (denom * (psc + 1))).
    assert (0 < q) as Hq by (apply Z.div_str_pos; lia). rewrite (proj2 (Z.ltb_lt 0 q) Hq). cbn [andb].
    destruct (Z.leb_spec q 65535).
    + exists psc, q. rewrite !u16_id by lia. split; [done|]. split; [lia|]. split; [lia|]. by split.
    + apply IH; [lia|lia|by right].
Qed.

(** The prescaler is the smallest one whose reload fits the register. *)
Lemma pwm_dividers_spec freq : 1 <= freq -> 2 * freq <= TIM_CLK_HZ -> exists psc arr,
  pwm_dividers_from_hz freq = Some (psc, arr) /\ 0 < arr <= 65535 /\ arr = TIM_CLK_HZ / (2 * freq * (psc + 1)) /\
  (psc = 0 \/ 65535 < TIM_CLK_HZ / (2 * freq * psc)).
Proof.
  intros H1 H2. unfold pwm_dividers_from_hz. rewrite u32_id by (unfold TIM_CLK_HZ in *; lia).
  destruct (dividers_loop_spec (2 * freq) ltac:(lia) 367 0) as (psc & arr & E & _ & Ha & Hb & Hc); [lia|lia|by left|].
  by exists psc, arr.
Qed.

(** ** Effort to ticks *)

Lemma effort_value mag arr : 0 <= mag -> is_u16 arr ->
  effort_to_ticks mag arr = (Z.min mag 32767 * arr + 16384) / 32768.
Proof.
  intros Hm Ha. unfold effort_to_ticks. assert (0 <= Z.min mag 32767 * arr <= 32767 * 65535) by nia.
  rewrite (u32_id (Z.min mag 32767 * arr)), u32_id, Z.shiftr_div_pow2 by lia. change (2 ^ 15) with 32768. apply u16_id. zmod.
Qed.
Lemma effort_bounds mag arr : 0 <= mag -> is_u16 arr -> 0 <= effort_to_ticks mag arr <= arr.
Proof. intros Hm Ha. rewrite effort_value by done. assert (0 <= Z.min mag 32767 * arr <= 32767 * arr) by nia. zmod. Qed.
Lemma effort_mono mag mag' arr : 0 <= mag <= mag' -> is_u16 arr -> effort_to_ticks mag arr <= effort_to_ticks mag' arr.
Proof. intros Hm Ha. rewrite !effort_value by lia. apply Z.div_le_mono; [lia|]. nia. Qed.
(** Within one tick of the exact quotient for reload values up to half the scale. *)
Lemma effort_close mag arr : 0 <= mag <= 32767 -> is_u16 arr ->
  -16384 - arr < 32767 * effort_to_ticks mag arr - mag * arr <= 16384.
Proof.
  intros Hm Ha. pose proof (effort_bounds mag arr ltac:(lia) Ha) as Hb. rewrite effort_value in * by lia. rewrite Z.min_l in * by lia.
  assert (0 <= mag * arr <= 32767 * 65535) by nia. zmod.
Qed.

(** ** What the motor sees

    At counter value [x] of a period of [arr] ticks a leg is high while [x] is below
    its compare value. *)
Inductive BridgeState := BrForward | BrReverse | BrBrake | BrCoast | BrOff.
#[export] Instance BridgeState_eq_dec : EqDecision BridgeState.
Proof. solve_decision. Defined.
Definition bridge_at (m : Ch32Motor) (p : MotorPins) (x : Z) : BridgeState :=
  match mp_drv_en p, mo_active m with
  | PinHigh, PinHigh | PinLow, PinLow =>
      match x <? mp_in1 p, x <? mp_in2 p with
      | true, false => BrForward
      | false, true => BrReverse
      | true, true => BrBrake
      | false, false => BrCoast
      end
  | _, _ => BrOff
  end.
Definition bridge_period (m : Ch32Motor) (cmd : MotorCmd) : list BridgeState :=
  map (fun x => bridge_at m (Ch32Motor_write m cmd) (Z.of_nat x)) (seq 0 (Z.to_nat (mo_pwm_arr m))).

Definition idle_of (decay : DecayMode) : BridgeState := match decay with Fast => BrCoast | Slow => BrBrake end.
Definition push_of (duty : Z) : BridgeState := if 0 <=? duty then BrForward else BrReverse.

Lemma period_const {A} (f : nat -> A) a n : forall i, (forall x, (i <= x < i + n)%nat -> f x = a) -> map f (seq i n) = replicate n a.
Proof.
  induction n as [|n IH]; intros i Hf; [done|]. cbn [seq map replicate]. rewrite Hf by lia. f_equal. apply IH. intros x Hx. apply Hf. lia.
Qed.
(** A period in two parts: constant up to [k], constant from there. *)
Lemma period_split {A} (f : nat -> A) a b n k : (k <= n)%nat ->
  (forall x, (x < k)%nat -> f x = a) -> (forall x, (k <= x < n)%nat -> f x = b) ->
  map f (seq 0 n) = replicate k a ++ replicate (n - k) b.
Proof.
  intros Hk Ha Hb. replace n with (k + (n - k))%nat at 1 by lia. rewrite seq_app, map_app.
  by rewrite (period_const f a k 0), (period_const f b (n - k) (0 + k)) by (intros; (apply Ha || apply Hb); lia).
Qed.

(** What a period should be. *)
Definition period_spec (arr : Z) (cmd : MotorCmd) : list BridgeState :=
  let n := Z.to_nat arr in
  match cmd with
  | Disabled => replicate n BrOff
  | Coast => replicate n BrCoast
  | Brake => replicate n BrBrake
  | Drive duty decay =>
      let t := Z.to_nat (effort_to_ticks (Z.abs duty) arr) in
      if Nat.eqb t 0 then replicate n BrCoast
      else match decay with
           | Fast => replicate t (push_of duty) ++ replicate (n - t) BrCoast
           | Slow => replicate (n - t) BrBrake ++ replicate t (push_of duty)
           end
  end.

Lemma bridge_enabled m in1 in2 x : bridge_at m (mkPins (mo_active m) in1 in2) x =
  match x <? in1, x <? in2 with true, false => BrForward | false, true => BrReverse | true, true => BrBrake | false, false => BrCoast end.
Proof. unfold bridge_at. cbn [mp_drv_en mp_in1 mp_in2]. by destruct (mo_active m). Qed.

(** The motor is driven as commanded.  For every command, every enable polarity
    and every reload value, the bridge over one PWM period is off when disabled,
    coasts or brakes throughout when told to, and under a drive command pushes in the
    sign of the duty for exactly [effort_to_ticks] ticks and idles in the commanded
    decay for the others, never pushing the other way, a zero effort coasting in
    either decay; the ticks never exceed the period, grow with the effort, and lie
    within [(16384 + arr) / 32767] ticks of the exact fraction. *)
Theorem motor_drives (active : PinLevel) (arr : Z) (cmd : MotorCmd) : is_u16 arr ->
  (forall duty decay, cmd = Drive duty decay -> -32768 <= duty < 32768) ->
  bridge_period (Ch32Motor_new active arr) cmd = period_spec arr cmd /\
  (forall mag mag', 0 <= mag <= mag' -> 0 <= effort_to_ticks mag arr <= effort_to_ticks mag' arr /\ effort_to_ticks mag' arr <= arr) /\
  (forall mag, 0 <= mag <= 32767 -> -16384 - arr < 32767 * effort_to_ticks mag arr - mag * arr <= 16384).
Proof.
  intros Ha Hd. split; [|split].
  2: { intros mag mag' Hm. pose proof (effort_bounds mag arr ltac:(lia) Ha). pose proof (effort_bounds mag' arr ltac:(lia) Ha).
       pose proof (effort_mono mag mag' arr Hm Ha). lia. }
  2: { intros. by apply effort_close. }
  unfold bridge_period, period_spec. cbn [mo_pwm_arr Ch32Motor_new]. destruct cmd as [| | |duty decay]; cbn [Ch32Motor_write].
  - apply period_const. intros x _. unfold bridge_at. cbn. by destruct active.
  - apply period_const. intros x _. rewrite bridge_enabled. by rewrite !(proj2 (Z.ltb_ge _ _)) by lia.
  - apply period_const. intros x Hx. rewrite bridge_enabled. unfold STATIC_HIGH. by rewrite !(proj2 (Z.ltb_lt _ _)) by lia.
  - cbn [mo_pwm_arr Ch32Motor_new]. pose proof (effort_bounds (Z.abs duty) arr ltac:(lia) Ha) as Ht.
    set (t := effort_to_ticks (Z.abs duty) arr) in *. unfold saturating_sub, push_of.
    destruct (Z.eqb_spec t 0) as [E|E].
    + rewrite E. apply period_const. intros x _. rewrite bridge_enabled. by rewrite !(proj2 (Z.ltb_ge _ _)) by lia.
    + rewrite (proj2 (Nat.eqb_neq _ _)) by lia. rewrite Z.max_r by lia.
      destruct decay, (0 <=? duty); unfold STATIC_HIGH;
        [apply period_split; [lia|..] | apply period_split; [lia|..]
        | replace (Z.to_nat t) with (Z.to_nat arr - (Z.to_nat arr - Z.to_nat t))%nat at 2 by lia; apply period_split; [lia|..]
        | replace (Z.to_nat t) with (Z.to_nat arr - (Z.to_nat arr - Z.to_nat t))%nat at 2 by lia; apply period_split; [lia|..]];
        intros x Hx; rewrite bridge_enabled; repeat first [rewrite (proj2 (Z.ltb_lt _ _)) by lia | rewrite (proj2 (Z.ltb_ge _ _)) by lia]; done.
Qed.

Lemma motor_drives_witness : bridge_period (Ch32Motor_new PinHigh 8) (Drive (-16384) Slow) =
  [BrBrake; BrBrake; BrBrake; BrBrake; BrReverse; BrReverse; BrReverse; BrReverse].
Proof.
  rewrite (proj1 (motor_drives PinHigh 8 (Drive (-16384) Slow) ltac:(lia) ltac:(intros ? ? [= <- _]; lia))). reflexivity.
Defined.
