(* ===== verification/MainLoop.v ===== *)
(** * The servo's main loop (servo-ch32/src/runtime/run.rs)

    One turn of [__run]'s loop: the activity LED, the publication of the transport
    counters into the telemetry table, the clock trim, the deferred reboot and the
    rescue sampler.  Interrupts run between and inside turns, so what a turn reads
    (ticks, the bus's counters, its pending trim and reboot, the line and the receive
    channel's countdown) is its input; what it does to the outside is its trace.

    The theorems: a rescue is declared exactly when the line was held low with a
    still ring for the rescue time; the published counters count every loss once and
    keep a host's clear. *)

From S2P Require Import Prelude Ring Led.

Section servo_loop.
Variable TICKS_PER_US : Z.

Definition TALK_HOLD_US : Z := 200000.
Definition talk_hold_ticks : Z := u32 (TALK_HOLD_US * TICKS_PER_US).
Definition rescue_low_ticks : Z := u32 (RESCUE_LOW_US * TICKS_PER_US).

(** ** hal/rcc/v00x.rs: the trim register *)

Definition HSITRIM_DEFAULT : Z := 16.
Definition HSITRIM_MAX : Z := 31.
Definition apply_clock_trim (slow_steps : Z) : Z := Z.max 0 (Z.min HSITRIM_MAX (HSITRIM_DEFAULT - slow_steps)).

(** ** One turn *)

Record TurnIn := mkTurn {
  ti_activity : bool;             (* BUS_ACTIVITY, taken *)
  ti_t_active : Z; ti_t_talk : Z; (* tick readings of the activity hold *)
  ti_t_led : Z; ti_t_poll : Z;    (* and of the LED *)
  ti_crc_fails : Z; ti_drops : Z; (* ServoBus::diag *)
  ti_trim : option Z;             (* ServoBus::poll_clock_trim *)
  ti_reboot : option bool;        (* ServoBus::take_reboot, true for the bootloader *)
  ti_ndtr : Z; ti_low : bool; ti_t_rescue : Z }.

Inductive LoopEv := LvPin (p : PinLevel) | LvTrim (hsitrim : Z) | LvBootMode (bootloader : bool) | LvReset | LvRescue.

Record LoopState := mkLoopState {
  lo_last_talk : Z;
  lo_led : Led;
  lo_published : Z * Z;
  (** The telemetry table's [crc_fail_count], [framing_drop_count] and [trim_steps]. *)
  lo_crc_count : Z; lo_drop_count : Z; lo_trim_steps : Z;
  lo_rescue_since : option Z; lo_rescue_ndtr : Z }.

Definition loop_start (now ndtr : Z) : LoopState :=
  mkLoopState (u32 (now - talk_hold_ticks)) Led_new (0, 0) 0 0 0 None ndtr.

(** The LED: dark when idle, lit while the bus talks. *)
Definition turn_led (i : TurnIn) (s : LoopState) : Z * Led * list PinLevel :=
  let last_talk := if ti_activity i then ti_t_active i else lo_last_talk s in
  let talking := u32 (ti_t_talk i - last_talk) <? talk_hold_ticks in
  let led := Led_set_pattern (ti_t_led i) (if talking then SolidOn else SolidOff) (lo_led s) in
  let '(led, w) := Led_poll TICKS_PER_US (ti_t_poll i) led in
  (last_talk, led, w).

(** A counter takes the delta since it was last published. *)
Definition publish (count total published : Z) : Z := u32 (count + u32 (total - published)).

(** The rescue sampler: the window's start, the ring position it is tied to, and
    whether this sample declares. *)
Definition rescue_sample (since : option Z) (rescue_ndtr : Z) (ndtr : Z) (low : bool) (now : Z) : option Z * Z * bool :=
  if negb low || negb (ndtr =? rescue_ndtr) then (None, ndtr, false)
  else
    match since with
    | Some t0 => if rescue_low_ticks <=? u32 (now - t0) then (None, rescue_ndtr, true) else (since, rescue_ndtr, false)
    | None => (Some now, rescue_ndtr, false)
    end.

(** A turn ends in the next state, or in a reset of the chip. *)
Definition loop_turn (i : TurnIn) (s : LoopState) : list LoopEv * option LoopState :=
  let '(last_talk, led, pins) := turn_led i s in
  let crc := publish (lo_crc_count s) (ti_crc_fails i) (fst (lo_published s)) in
  let drops := publish (lo_drop_count s) (ti_drops i) (snd (lo_published s)) in
  let trimmed := match ti_trim i with Some total => [LvTrim (apply_clock_trim total)] | None => [] end in
  let trim_steps := match ti_trim i with Some total => total | None => lo_trim_steps s end in
  let ev := map LvPin pins ++ trimmed in
  match ti_reboot i with
  | Some boot => (ev ++ [LvBootMode boot; LvReset], None)
  | None =>
      let '(since, ndtr, declared) := rescue_sample (lo_rescue_since s) (lo_rescue_ndtr s) (ti_ndtr i) (ti_low i) (ti_t_rescue i) in
      (ev ++ (if declared : bool then [LvRescue] else []),
       Some (mkLoopState last_talk led (ti_crc_fails i, ti_drops i) crc drops trim_steps since ndtr))
  end.

(** Between turns the host may write the two counters. *)
Inductive LoopStep := LsTurn (i : TurnIn) | LsHostCrc (v : Z) | LsHostDrops (v : Z).
Fixpoint loop_run (s : LoopState) (l : list LoopStep) : list LoopEv * option LoopState :=
  match l with
  | [] => ([], Some s)
  | LsTurn i :: l' =>
      match loop_turn i s with
      | (ev, None) => (ev, None)
      | (ev, Some s') => let '(ev', r) := loop_run s' l' in (ev ++ ev', r)
      end
  | LsHostCrc v :: l' =>
      loop_run (mkLoopState (lo_last_talk s) (lo_led s) (lo_published s) v (lo_drop_count s) (lo_trim_steps s)
        (lo_rescue_since s) (lo_rescue_ndtr s)) l'
  | LsHostDrops v :: l' =>
      loop_run (mkLoopState (lo_last_talk s) (lo_led s) (lo_published s) (lo_crc_count s) v (lo_trim_steps s)
        (lo_rescue_since s) (lo_rescue_ndtr s)) l'
  end.

(** ** The activity light *)

(** The light is on exactly while the last wire event is younger than the hold. *)
Lemma turn_led_spec i s :
  let last := if ti_activity i then ti_t_active i else lo_last_talk s in
  let '(last', led, _) := turn_led i s in
  last' = last /\ led_on led = (u32 (ti_t_talk i - last) <? talk_hold_ticks).
Proof.
  intros last. unfold turn_led. fold last. set (b := u32 (ti_t_talk i - last) <? talk_hold_ticks).
  set (l := Led_set_pattern _ _ _). assert (led_pattern l = if b then SolidOn else SolidOff) as Hl.
  { unfold l, Led_set_pattern. destruct (bool_decide_reflect (led_pattern (lo_led s) = if b then SolidOn else SolidOff)); done. }
  destruct (poll_solid TICKS_PER_US (ti_t_poll i) l b Hl) as (Ho & _). destruct (Led_poll _ _ _) as [l' w]. done.
Qed.

(** ** The rescue sampler

    A sample: the line, the ring position and the true time; the code sees 32 bits
    of it. *)
Record Sampled := mkSampled { sm_low : bool; sm_ndtr : Z; sm_time : Z }.
Fixpoint sample_run (since : option Z) (ndtr : Z) (l : list Sampled) : list bool * (option Z * Z) :=
  match l with
  | [] => ([], (since, ndtr))
  | x :: l' =>
      let '(since', ndtr', d) := rescue_sample since ndtr (sm_ndtr x) (sm_low x) (u32 (sm_time x)) in
      let '(ds, st) := sample_run since' ndtr' l' in (d :: ds, st)
  end.
(** Held low with the ring still at [n]. *)
Definition held (n : Z) (x : Sampled) : Prop := sm_low x = true /\ sm_ndtr x = n.
(** Samples in order, less than half a wrap apart. *)
Fixpoint in_time (t : Z) (l : list Sampled) : Prop :=
  match l with [] => True | x :: l' => t <= sm_time x < t + 2147483648 /\ in_time (sm_time x) l' end.

(** Whether each turn declared. *)
Fixpoint rescue_flags (s : LoopState) (turns : list TurnIn) : list bool :=
  match turns with
  | [] => []
  | i :: turns' =>
      match loop_turn i s with
      | (ev, Some s') => existsb (fun e => match e with LvRescue => true | _ => false end) ev :: rescue_flags s' turns'
      | (_, None) => []
      end
  end.
(** A turn that took the sample [x] and was not asked to reboot. *)
Definition sampled (i : TurnIn) (x : Sampled) : Prop :=
  ti_low i = sm_low x /\ ti_ndtr i = sm_ndtr x /\ ti_t_rescue i = u32 (sm_time x) /\ ti_reboot i = None.

Lemma flags_sampled turns : forall s l, Forall2 sampled turns l ->
  rescue_flags s turns = (sample_run (lo_rescue_since s) (lo_rescue_ndtr s) l).1.
Proof.
  induction turns as [|i turns IH]; intros s l H; inversion H as [|? x ? l' Hx Hl]; subst; [done|].
  destruct Hx as (El & En & Et & Er). cbn [rescue_flags sample_run]. unfold loop_turn. destruct (turn_led i s) as [[lt led] pins].
  rewrite Er, El, En, Et. destruct (rescue_sample _ _ _ _ _) as [[since ndtr] d] eqn:E.
  rewrite (IH _ l' Hl). cbn [lo_rescue_since lo_rescue_ndtr]. destruct (sample_run since ndtr l') as [ds st]. cbn [fst].
  f_equal. rewrite !existsb_app. assert (existsb (fun e => match e with LvRescue => true | _ => false end) (map LvPin pins) = false) as ->
    by (induction pins; done). by destruct (ti_trim i), d.
Qed.

(** The window so far, as the samples that make it up. *)
Definition window (since : option Z) (n t : Z) (w : list Sampled) : Prop :=
  match since with
  | None => w = []
  | Some t0 => exists x0 w', w = x0 :: w' /\ t0 = u32 (sm_time x0) /\ Forall (held n) w /\
      sm_time x0 <= t < sm_time x0 + Z.max 1 rescue_low_ticks
  end.

Hypothesis hold_small : 0 < rescue_low_ticks < 2147483648.

(** What a sample makes of the window. *)
Lemma sample_window since n t w x : window since n t w -> t <= sm_time x < t + 2147483648 ->
  let '(since', n', d) := rescue_sample since n (sm_ndtr x) (sm_low x) (u32 (sm_time x)) in
  exists w', window since' n' (sm_time x) w' /\ (w' = [] \/ w' = w ++ [x]) /\
    (d = true -> exists x0, hd_error w = Some x0 /\ Forall (held (sm_ndtr x)) (w ++ [x]) /\ rescue_low_ticks <= sm_time x - sm_time x0).
Proof using hold_small.
  intros Hw Ht. unfold rescue_sample. destruct (sm_low x) eqn:El; cbn [negb orb]; [|by exists []; split; [done|split; [by left|done]]].
  destruct (Z.eqb_spec (sm_ndtr x) n) as [En|]; cbn [negb]; [|by exists []; split; [done|split; [by left|done]]].
  destruct since as [t0|].
  - destruct Hw as (x0 & w' & -> & -> & Hh & Hb). rewrite u32_sub, u32_id by lia.
    assert (Forall (held n) ((x0 :: w') ++ [x])) as Hh' by (apply Forall_app; split; [done|by repeat constructor]).
    destruct (Z.leb_spec rescue_low_ticks (sm_time x - sm_time x0)).
    + exists []. split; [done|]. split; [by left|]. intros _. exists x0. rewrite En. done.
    + exists ((x0 :: w') ++ [x]). split; [|split; [by right|done]]. exists x0, (w' ++ [x]). split; [done|]. split; [done|]. split; [done|lia].
  - cbn in Hw. subst w. exists [x]. split; [|split; [by right|done]]. exists x, []. split; [done|]. split; [done|].
    split; [by repeat constructor|lia].
Qed.

Lemma rescue_sound l : forall since n t w i, window since n t w -> in_time t l ->
  (sample_run since n l).1 !! i = Some true ->
  exists a x0 b x, w ++ take (S i) l = a ++ x0 :: b ++ [x] /\ Forall (held (sm_ndtr x)) (x0 :: b ++ [x]) /\
    rescue_low_ticks <= sm_time x - sm_time x0.
Proof using hold_small.
  induction l as [|x l IH]; intros since n t w i Hw Ht Hi; [done|]. destruct Ht as [Ht Hl]. cbn [sample_run] in Hi.
  pose proof (sample_window since n t w x Hw Ht) as Hs.
  destruct (rescue_sample _ _ _ _ _) as [[since' n'] d]. destruct Hs as (w' & Hw' & Hc & Hd).
  pose proof (fun k => IH since' n' (sm_time x) w' k Hw' Hl) as IH'. destruct (sample_run since' n' l) as [ds st].
  destruct i as [|i]; cbn in Hi.
  - injection Hi as ->. destruct (Hd eq_refl) as (x0 & Hx0 & Hh & Hb). destruct w as [|y w]; [done|]. injection Hx0 as ->.
    exists [], x0, w, x. done.
  - destruct (IH' i Hi) as (a & x0 & b & y & E & Hh & Hb). cbn [take]. destruct Hc as [->| ->].
    + exists (w ++ x :: a), x0, b, y. rewrite <- app_assoc. cbn. by rewrite <- E.
    + exists a, x0, b, y. by rewrite <- E, <- app_assoc.
Qed.

(** A long enough hold is declared, wherever the window stood. *)
Lemma rescue_complete_from l : forall since n t w, l <> [] -> window since n t w -> in_time t l -> Forall (held n) l ->
  (forall y z, hd_error l = Some y -> list.last l = Some z -> rescue_low_ticks <= sm_time z - sm_time y) ->
  exists i, (i < length l)%nat /\ (sample_run since n l).1 !! i = Some true.
Proof using hold_small.
  intros since n t w Hne Hw Ht Hh Hlast.
  assert (forall l t0 t, in_time t l -> Forall (held n) l -> t0 <= t < t0 + rescue_low_ticks ->
    (forall z, list.last l = Some z -> rescue_low_ticks <= sm_time z - t0) -> l <> [] ->
    exists i, (i < length l)%nat /\ (sample_run (Some (u32 t0)) n l).1 !! i = Some true) as Hrun.
  { clear Hne Hw Ht Hh Hlast since t w l. intros l. induction l as [|x l IH]; intros t0 t Hi Hf Hb Hz Hne; [done|]. destruct Hi as [Hx Hi].
    apply Forall_cons_1 in Hf as [[El En] Hf]. cbn [sample_run]. unfold rescue_sample. rewrite El, En, Z.eqb_refl. cbn [negb orb].
    rewrite u32_sub, u32_id by lia. destruct (Z.leb_spec rescue_low_ticks (sm_time x - t0)).
    - destruct (sample_run None n l) as [ds st]. exists 0%nat. split; [cbn; lia|done].
    - destruct l as [|y l]; [specialize (Hz x eq_refl); lia|].
      destruct (IH t0 (sm_time x) Hi Hf ltac:(lia)) as (i & Hil & E); [by intros z Ez; apply Hz|done|].
      destruct (sample_run (Some (u32 t0)) n (y :: l)) as [ds st]. exists (S i). split; [cbn in *; lia|done]. }
  destruct since as [t0|].
  - destruct Hw as (x0 & w' & -> & -> & _ & Hb). apply (Hrun l (sm_time x0) t); [done|done|lia| |done].
    intros z Hz. destruct l as [|y l]; [done|]. specialize (Hlast y z eq_refl Hz). destruct Ht as [Ht _]. lia.
  - destruct l as [|y l]; [done|]. destruct Ht as [Ht Hi]. apply Forall_cons_1 in Hh as [[El En] Hf].
    cbn [sample_run]. unfold rescue_sample. rewrite El, En, Z.eqb_refl. cbn [negb orb].
    destruct l as [|z l]; [specialize (Hlast y y eq_refl eq_refl); lia|].
    destruct (Hrun (z :: l) (sm_time y) (sm_time y) Hi Hf ltac:(lia)) as (i & Hil & E);
      [by intros v Hv; apply (Hlast y v)|done|].
    destruct (sample_run (Some (u32 (sm_time y))) n (z :: l)) as [ds st]. exists (S i). split; [cbn in *; lia|done].
Qed.

(** The state after a prefix, and the flags of what follows. *)
Lemma sample_run_app l1 l2 since n : sample_run since n (l1 ++ l2) =
  let '(d1, (since1, n1)) := sample_run since n l1 in
  let '(d2, st) := sample_run since1 n1 l2 in (d1 ++ d2, st).
Proof.
  revert since n. induction l1 as [|x l1 IH]; intros since n; cbn [app sample_run].
  - by destruct (sample_run since n l2).
  - destruct (rescue_sample _ _ _ _ _) as [[since' n'] d]. rewrite IH. destruct (sample_run since' n' l1) as [d1 [s1 n1]].
    by destruct (sample_run s1 n1 l2) as [d2 st].
Qed.
Lemma sample_run_length l : forall since n, length (sample_run since n l).1 = length l.
Proof.
  induction l as [|x l IH]; intros since n; [done|]. cbn [sample_run]. destruct (rescue_sample _ _ _ _ _) as [[s' n'] d].
  specialize (IH s' n'). destruct (sample_run s' n' l). cbn in *. lia.
Qed.
Lemma run_window l : forall since n t w, window since n t w -> in_time t l ->
  let '(since', n') := (sample_run since n l).2 in
  exists t' w', window since' n' t' w' /\ (l = [] -> t' = t) /\ (forall x, list.last l = Some x -> t' = sm_time x /\ (held (sm_ndtr x) x -> n' = sm_ndtr x)).
Proof using hold_small.
  induction l as [|x l IH]; intros since n t w Hw Ht; [by exists t, w|]. destruct Ht as [Ht Hl]. cbn [sample_run].
  pose proof (sample_window since n t w x Hw Ht) as Hs.
  assert (held (sm_ndtr x) x -> (rescue_sample since n (sm_ndtr x) (sm_low x) (u32 (sm_time x))).1.2 = sm_ndtr x) as Hn.
  { intros [El _]. unfold rescue_sample. rewrite El. cbn [negb orb]. destruct (Z.eqb_spec (sm_ndtr x) n) as [->|]; [|done].
    cbn [negb]. destruct since; [|done]. by destruct (_ <=? _). }
  destruct (rescue_sample _ _ _ _ _) as [[since' n'] d]. destruct Hs as (w' & Hw' & _ & _). cbn in Hn.
  specialize (IH since' n' (sm_time x) w' Hw' Hl). destruct (sample_run since' n' l) as [ds [s2 n2]] eqn:Er. cbn [snd] in *.
  destruct IH as (t2 & w2 & H2 & Hnil & Hlast). exists t2, w2. split; [done|]. split; [done|]. intros z Hz.
  destruct l as [|y l]; [|by apply Hlast]. injection Hz as <-. cbn in Er. injection Er as _ <- <-. split; [by apply Hnil|done].
Qed.
Lemma in_time_app a : forall t b, in_time t (a ++ b) ->
  in_time t a /\ in_time (match list.last a with Some x => sm_time x | None => t end) b.
Proof.
  induction a as [|x a IH]; intros t b Ht; [done|]. destruct Ht as [Hx Ht]. destruct (IH _ _ Ht) as [Ha Hb].
  split; [done|]. destruct a as [|y a]; [done|].
  change (list.last (x :: y :: a)) with (list.last (y :: a)). destruct (last_is_Some (y :: a)) as [_ Hs].
  by destruct (Hs ltac:(done)) as [v Ev]; rewrite Ev in *.
Qed.

Lemma rescue_complete l1 x l2 l3 since n n0 t w y z : window since n0 t w -> in_time t (l1 ++ x :: l2 ++ l3) ->
  Forall (held n) (x :: l2) -> hd_error l2 = Some y -> list.last l2 = Some z -> rescue_low_ticks <= sm_time z - sm_time y ->
  exists i, (length l1 < i <= length l1 + length l2)%nat /\ (sample_run since n0 (l1 ++ x :: l2 ++ l3)).1 !! i = Some true.
Proof using hold_small.
  intros Hw Ht Hh Hy Hz Hb. apply Forall_cons_1 in Hh as [Hx Hh].
  replace (l1 ++ x :: l2 ++ l3) with ((l1 ++ [x]) ++ l2 ++ l3) in * by (by rewrite <- app_assoc).
  apply in_time_app in Ht as [Ht1 Ht2]. rewrite last_snoc in Ht2. apply in_time_app in Ht2 as [Ht2 _].
  rewrite (sample_run_app (l1 ++ [x])). pose proof (run_window (l1 ++ [x]) since n0 t w Hw Ht1) as Hr.
  pose proof (sample_run_length (l1 ++ [x]) since n0) as Hl. destruct (sample_run since n0 (l1 ++ [x])) as [d1 [s1 n1]].
  cbn [fst snd] in *. destruct Hr as (t1 & w1 & Hw1 & _ & Hlast). destruct (Hlast x (last_snoc _ _)) as [-> Hn1].
  destruct Hx as [Hx1 Hx2]. rewrite (Hn1 (conj Hx1 eq_refl)), Hx2 in *. rewrite length_app in Hl. cbn in Hl.
  destruct (rescue_complete_from l2 s1 n (sm_time x) w1) as (i & Hi & E); [by destruct l2|done|done|done| |].
  { intros y' z' Hy' Hz'. rewrite Hy in Hy'. rewrite Hz in Hz'. by injection Hy' as <-; injection Hz' as <-. }
  rewrite sample_run_app. pose proof (sample_run_length l2 s1 n) as Hl2. destruct (sample_run s1 n l2) as [d2 [s2 n2]]. cbn [fst] in *.
  destruct (sample_run s2 n2 l3) as [d3 st]. cbn [fst]. exists (length d1 + i)%nat. split; [lia|].
  rewrite lookup_app_r by lia. replace (length d1 + i - length d1)%nat with i by lia. by rewrite lookup_app_l by lia.
Qed.

(** ** The published counters

    [tally] counts in unbounded integers: a turn adds what was lost since the turn
    before it, a host write starts over from what it wrote. *)
Fixpoint tally (count pub : Z) (l : list (option Z + Z)) : Z :=
  match l with
  | [] => count
  | inl (Some total) :: l' => tally (count + (total - pub)) total l'
  | inl None :: l' => tally count pub l'
  | inr v :: l' => tally v pub l'
  end.
(** What each step means for the CRC counter, with the true total behind each turn. *)
Inductive crc_step_of : LoopStep -> option Z + Z -> Prop :=
| cs_turn i total : ti_crc_fails i = u32 total -> crc_step_of (LsTurn i) (inl (Some total))
| cs_write v : crc_step_of (LsHostCrc v) (inr v)
| cs_other v : crc_step_of (LsHostDrops v) (inl None).

Lemma counters_conserved l : forall ks s s' count pub ev, Forall2 crc_step_of l ks ->
  u32 (lo_crc_count s) = u32 count -> fst (lo_published s) = u32 pub -> loop_run s l = (ev, Some s') ->
  u32 (lo_crc_count s') = u32 (tally count pub ks).
Proof.
  induction l as [|x l IH]; intros ks s s' count pub ev Hk Hc Hp Hr; inversion Hk as [|? k ? ks' Hx Hks]; subst.
  { cbn in Hr. by injection Hr as _ <-. }
  destruct Hx as [i total Et|v|v]; cbn [tally loop_run] in *.
  - unfold loop_turn in Hr. destruct (turn_led i s) as [[lt led] pins]. destruct (ti_reboot i); [done|].
    destruct (rescue_sample _ _ _ _ _) as [[since nd] d]. destruct (loop_run _ l) as [ev' r] eqn:E.
    injection Hr as _ ->. refine (IH _ _ _ _ total _ Hks _ _ E); cbn [lo_crc_count lo_published fst]; [|done].
    unfold publish. rewrite Et, Hp, u32_sub. unfold u32 in *. rewrite Zmod_mod, Zplus_mod_idemp_r.
    rewrite Zplus_mod, Hc, <- Zplus_mod. done.
  - by eapply IH; [exact Hks| | |exact Hr].
  - by eapply IH; [exact Hks| | |exact Hr].
Qed.
End servo_loop.

(** C33: a rescue is declared exactly when the wire asks for one.  Over any turns of
    the loop, taken in time and without a reboot: every declaration ends a window of
    samples that all found the line low and the receive ring at one position, and that
    spans at least the rescue time; and every stretch of samples that finds the line
    low and the ring still, and from its second sample on spans the rescue time, is
    declared within the stretch. *)
Theorem rescue_declared (tpu t : Z) (s : LoopState) (turns : list TurnIn) (l : list Sampled) :
  0 < rescue_low_ticks tpu < 2147483648 -> lo_rescue_since s = None -> Forall2 sampled turns l -> in_time t l ->
  (forall i, rescue_flags tpu s turns !! i = Some true ->
    exists a x0 b x, take (S i) l = a ++ x0 :: b ++ [x] /\ Forall (held (sm_ndtr x)) (x0 :: b ++ [x]) /\
      rescue_low_ticks tpu <= sm_time x - sm_time x0) /\
  (forall l1 x l2 l3 n y z, l = l1 ++ x :: l2 ++ l3 -> Forall (held n) (x :: l2) ->
    hd_error l2 = Some y -> list.last l2 = Some z -> rescue_low_ticks tpu <= sm_time z - sm_time y ->
    exists i, (length l1 < i <= length l1 + length l2)%nat /\ rescue_flags tpu s turns !! i = Some true).
Proof.
  intros Hw Hs Hl Ht. rewrite (flags_sampled tpu turns s l Hl), Hs. split.
  - intros i Hi. by apply (rescue_sound tpu Hw l None (lo_rescue_ndtr s) t []).
  - intros l1 x l2 l3 n y z -> Hh Hy Hz Hb. by apply (rescue_complete tpu Hw l1 x l2 l3 None n (lo_rescue_ndtr s) t [] y z).
Qed.

(** Idle samples, a byte that moves the ring, then a line held low across the wrap of
    the tick counter. *)
Definition demo_samples : list Sampled :=
  [mkSampled false 512 4294960000; mkSampled true 511 4294962400; mkSampled true 511 4294964800; mkSampled true 511 4294972000;
   mkSampled true 511 4294979300; mkSampled true 511 4294981600].
Definition demo_turn (x : Sampled) : TurnIn :=
  mkTurn false 0 0 0 0 0 0 None None (sm_ndtr x) (sm_low x) (u32 (sm_time x)).

Lemma rescue_declared_witness :
  rescue_flags 48 (loop_start 48 0 512) (map demo_turn demo_samples) = [false; false; false; false; true; false] /\
  exists i, (1 < i <= 1 + 3)%nat /\ rescue_flags 48 (loop_start 48 0 512) (map demo_turn demo_samples) !! i = Some true.
Proof.
  split; [reflexivity|].
  destruct (rescue_declared 48 4294960000 (loop_start 48 0 512) (map demo_turn demo_samples) demo_samples) as [_ Hc].
  - vm_compute. split; congruence.
  - reflexivity.
  - repeat (constructor; [by repeat split|]). constructor.
  - cbn. lia.
  - apply (Hc [mkSampled false 512 4294960000] (mkSampled true 511 4294962400)
      [mkSampled true 511 4294964800; mkSampled true 511 4294972000; mkSampled true 511 4294979300] [mkSampled true 511 4294981600] 511
      (mkSampled true 511 4294964800) (mkSampled true 511 4294979300) eq_refl); [by repeat constructor|reflexivity|reflexivity|].
    vm_compute. congruence.
Defined.
