(* ===== verification/CtlMath.v ===== *)
(** * The control arithmetic of the position servo (firmware-old/open-servo-math)

    The fixed-point PID, the low-pass filters, the gain type with its decimal text,
    and the thermal and compliance models.  Integers have the widths of the source;
    an addition or product written without [saturating_] wraps.

    The theorems: a PID step stays inside its limits whatever overflows and equals
    the exact computation on sixteen-bit positions; a filter never overshoots and
    settles; a gain survives its own text; the thermal and compliance states stay in
    their ranges. *)

From S2P Require Import Prelude.
From Stdlib Require Import String Ascii.
From stdpp Require Import list.
Local Open Scope Z_scope.

Abbreviation is_i16 x := (-32768 <= x <= 32767).
Abbreviation is_i32 x := (-2147483648 <= x <= 2147483647).

Definition i64 (x : Z) : Z := sext 64 x.
Definition sat16 (x : Z) : Z := Z.max (-32768) (Z.min 32767 x).
Definition sat32 (x : Z) : Z := Z.max (-2147483648) (Z.min 2147483647 x).
Definition clamp (x lo hi : Z) : Z := if x <? lo then lo else if hi <? x then hi else x.

Lemma sext_range w x : 0 < w -> - 2 ^ (w - 1) <= sext w x < 2 ^ (w - 1).
Proof.
  intros Hw. unfold sext. assert (2 ^ w = 2 * 2 ^ (w - 1)) as E by (rewrite <- Z.pow_succ_r by lia; f_equal; lia).
  pose proof (Z.mod_pos_bound x (2 ^ w) ltac:(lia)). destruct (Z.ltb_spec (x mod 2 ^ w) (2 ^ (w - 1))); lia.
Qed.
Lemma i16_range x : is_i16 (i16 x).
Proof. pose proof (sext_range 16 x ltac:(lia)). unfold i16. lia. Qed.
Lemma i32_range x : is_i32 (i32 x).
Proof. pose proof (sext_range 32 x ltac:(lia)). unfold i32. lia. Qed.
Lemma i16_id x : is_i16 x -> i16 x = x.
Proof. intros H. apply (sext_small 16); lia. Qed.
Lemma i32_id x : is_i32 x -> i32 x = x.
Proof. intros H. apply i32_small. lia. Qed.
Lemma i64_id x : - 2 ^ 63 <= x < 2 ^ 63 -> i64 x = x.
Proof. intros H. apply (sext_small 64); lia. Qed.

(** ** pid.rs *)

Inductive DerivativeMode := OnError | OnMeasurement.
Record PidI16 := mkPid {
  pi_kp : Z; pi_ki : Z; pi_kd : Z; pi_mode : DerivativeMode;
  pi_integ : Z; pi_integ_min : Z; pi_integ_max : Z;
  pi_prev_error : Z; pi_prev_meas : Z;
  pi_out_min : Z; pi_out_max : Z }.

Definition GAIN_FRAC_BITS : Z := 8.
Definition ordered (a b : Z) : Z * Z := if a <=? b then (a, b) else (b, a).

Definition PidI16_new_with_integral_limits (kp ki kd : Z) (mode : DerivativeMode) (out_min out_max integ_min integ_max : Z) : PidI16 :=
  let '(out_min, out_max) := ordered out_min out_max in
  let '(integ_min, integ_max) := ordered integ_min integ_max in
  mkPid kp ki kd mode 0 integ_min integ_max 0 0 out_min out_max.
Definition PidI16_new_auto_anti_windup (kp ki kd : Z) (mode : DerivativeMode) (out_min out_max : Z) : PidI16 :=
  PidI16_new_with_integral_limits kp ki kd mode out_min out_max
    (sat32 (out_min * Z.shiftl 1 GAIN_FRAC_BITS)) (sat32 (out_max * Z.shiftl 1 GAIN_FRAC_BITS)).
Definition PidI16_reset (p : PidI16) : PidI16 :=
  mkPid (pi_kp p) (pi_ki p) (pi_kd p) (pi_mode p) 0 (pi_integ_min p) (pi_integ_max p) 0 0 (pi_out_min p) (pi_out_max p).

(** One step with the terms [HAS_I] and [HAS_D] compiled in or out. *)
Definition PidI16_step (HAS_I HAS_D : bool) (sp pv : Z) (p : PidI16) : Z * PidI16 :=
  let err := i32 (sp - pv) in
  let pt := Z.shiftr (i32 (pi_kp p * err)) GAIN_FRAC_BITS in
  let integ :=
    if HAS_I then
      let acc := sat32 (pi_integ p + i32 (pi_ki p * err)) in
      if pi_integ_max p <? acc then pi_integ_max p else if acc <? pi_integ_min p then pi_integ_min p else acc
    else pi_integ p in
  let it := if HAS_I then Z.shiftr integ GAIN_FRAC_BITS else 0 in
  let '(dt, prev_error, prev_meas) :=
    if HAS_D then
      match pi_mode p with
      | OnError => (Z.shiftr (i32 (pi_kd p * i32 (err - pi_prev_error p))) GAIN_FRAC_BITS, err, pi_prev_meas p)
      | OnMeasurement => (Z.shiftr (i32 (pi_kd p * i32 (- i32 (pv - pi_prev_meas p)))) GAIN_FRAC_BITS, pi_prev_error p, pv)
      end
    else (0, pi_prev_error p, pi_prev_meas p) in
  let out := i32 (i32 (pt + it) + dt) in
  let out := if pi_out_max p <? out then pi_out_max p else if out <? pi_out_min p then pi_out_min p else out in
  (out, mkPid (pi_kp p) (pi_ki p) (pi_kd p) (pi_mode p) integ (pi_integ_min p) (pi_integ_max p) prev_error prev_meas (pi_out_min p) (pi_out_max p)).

Definition PidI16_set_gains (kp ki kd : Z) (p : PidI16) : PidI16 :=
  mkPid kp ki kd (pi_mode p) (pi_integ p) (pi_integ_min p) (pi_integ_max p) (pi_prev_error p) (pi_prev_meas p) (pi_out_min p) (pi_out_max p).
Definition PidI16_set_derivative_mode (mode : DerivativeMode) (p : PidI16) : PidI16 :=
  mkPid (pi_kp p) (pi_ki p) (pi_kd p) mode (pi_integ p) (pi_integ_min p) (pi_integ_max p) (pi_prev_error p) (pi_prev_meas p) (pi_out_min p) (pi_out_max p).
Definition PidI16_set_output_limits (out_min out_max : Z) (p : PidI16) : PidI16 :=
  let '(out_min, out_max) := ordered out_min out_max in
  mkPid (pi_kp p) (pi_ki p) (pi_kd p) (pi_mode p) (pi_integ p) (pi_integ_min p) (pi_integ_max p) (pi_prev_error p) (pi_prev_meas p) out_min out_max.
Definition PidI16_set_output_limits_auto_anti_windup (out_min out_max : Z) (p : PidI16) : PidI16 :=
  let '(out_min, out_max) := ordered out_min out_max in
  let integ_min := sat32 (out_min * Z.shiftl 1 GAIN_FRAC_BITS) in
  let integ_max := sat32 (out_max * Z.shiftl 1 GAIN_FRAC_BITS) in
  mkPid (pi_kp p) (pi_ki p) (pi_kd p) (pi_mode p) (clamp (pi_integ p) integ_min integ_max) integ_min integ_max
    (pi_prev_error p) (pi_prev_meas p) out_min out_max.

(** ** filter.rs *)

(** The two signed filters differ in the width of their state ([i32] for sixteen-bit
    samples, [i64] for thirty-two-bit ones). *)
Record Filter := mkFilter { fl_alpha_shift : Z; fl_state : option Z }.
Definition Filter_new (alpha_shift : Z) : Filter := mkFilter alpha_shift None.
Definition Filter_reset (f : Filter) : Filter := mkFilter (fl_alpha_shift f) None.

Definition FilterI16_update (sample : Z) (f : Filter) : Z * Filter :=
  let k := fl_alpha_shift f in
  match fl_state f with
  | None => (sample, mkFilter k (Some (i32 (Z.shiftl sample k))))
  | Some state =>
      let diff := i32 (i32 (Z.shiftl sample k) - state) in
      let delta := Z.quot diff (i32 (Z.shiftl 1 k)) in
      let new_state := i32 (state + delta) in
      (i16 (Z.shiftr new_state k), mkFilter k (Some new_state))
  end.
Definition FilterI32_update (sample : Z) (f : Filter) : Z * Filter :=
  let k := fl_alpha_shift f in
  match fl_state f with
  | None => (sample, mkFilter k (Some (i64 (Z.shiftl sample k))))
  | Some state =>
      let diff := i64 (i64 (Z.shiftl sample k) - state) in
      let delta := Z.quot diff (i64 (Z.shiftl 1 k)) in
      let new_state := i64 (state + delta) in
      (i32 (Z.shiftr new_state k), mkFilter k (Some new_state))
  end.
(** The unsigned one divides the wrapped difference. *)
Definition FilterU16_update (sample : Z) (f : Filter) : Z * Filter :=
  let k := fl_alpha_shift f in
  match fl_state f with
  | None => (sample, mkFilter k (Some (u32 (Z.shiftl sample k))))
  | Some state =>
      let diff := u32 (u32 (Z.shiftl sample k) - state) in
      let delta := diff / u32 (Z.shiftl 1 k) in
      let new_state := u32 (state + delta) in
      (u16 (Z.shiftr new_state k), mkFilter k (Some new_state))
  end.
Definition FilterI32_value (f : Filter) : option Z := (fun s => i32 (Z.shiftr s (fl_alpha_shift f))) <$> fl_state f.

(** ** gain.rs: a gain is its value times a hundred *)

Definition to_q8_8 (raw : Z) : Z :=
  let clamped := clamp raw (-838860) 838860 in
  let scaled := Z.quot (i32 (clamped * 256)) 100 in
  clamp scaled (-32768) 32767.

(** Decimal text, as [write!] prints a non-negative integer. *)
Fixpoint dec_digits (fuel : nat) (n : Z) : list Z :=
  match fuel with
  | O => []
  | S fuel' => if n <? 10 then [48 + n] else dec_digits fuel' (n / 10) ++ [48 + n mod 10]
  end.
(** An [i32] has at most ten digits. *)
Definition Gain_fmt (raw : Z) : list Z :=
  let scaled := i32 (Z.abs raw) in
  (if raw <? 0 then [45] else []) ++ dec_digits 10 (Z.quot scaled 100) ++ [46; 48 + Z.rem scaled 100 / 10; 48 + Z.rem scaled 100 mod 10].

Inductive GainParseError := GpEmpty | GpInvalid | GpOverflow.
Definition checked_i32 (x : Z) : result Z GainParseError := if (-2147483648 <=? x) && (x <=? 2147483647) then Ok x else Err GpOverflow.

(** The digit loop: integer part, fraction, its digits so far, and whether the dot
    has been seen. *)
Fixpoint parse_loop (bytes : list Z) (int_part frac_part frac_digits : Z) (seen_dot : bool) : result (Z * Z * Z) GainParseError :=
  match bytes with
  | [] => Ok (int_part, frac_part, frac_digits)
  | b :: bytes' =>
      if b =? 46 then if seen_dot then Err GpInvalid else parse_loop bytes' int_part frac_part frac_digits true
      else if negb ((48 <=? b) && (b <=? 57)) then Err GpInvalid
      else
        let d := b - 48 in
        if negb seen_dot then
          let? x := checked_i32 (int_part * 10) in
          let? x := checked_i32 (x + d) in
          parse_loop bytes' x frac_part frac_digits seen_dot
        else if frac_digits <? 2 then
          let? x := checked_i32 (frac_part * 10) in
          let? x := checked_i32 (x + d) in
          parse_loop bytes' int_part x (frac_digits + 1) seen_dot
        else parse_loop bytes' int_part frac_part frac_digits seen_dot
  end.
Fixpoint scale_frac (fuel : nat) (frac_part frac_digits : Z) : Z :=
  match fuel with
  | O => frac_part
  | S fuel' => if frac_digits <? 2 then scale_frac fuel' (frac_part * 10) (frac_digits + 1) else frac_part
  end.
Definition parse_gain_2dp (bytes : list Z) : result Z GainParseError :=
  match bytes with
  | [] => Err GpEmpty
  | b :: rest =>
      let '(sign, signed, body) := if b =? 45 then (-1, true, rest) else if b =? 43 then (1, true, rest) else (1, false, bytes) in
      if (signed : bool) && match body with [] => true | _ => false end then Err GpInvalid
      else
        let? (int_part, frac_part, frac_digits) := parse_loop body 0 0 0 false in
        let frac_part := scale_frac 2 frac_part frac_digits in
        let? x := checked_i32 (int_part * 100) in
        let? x := checked_i32 (x + frac_part) in
        Ok (sign * x)
  end.

(** ** thermal.rs *)

(** The parts of the source's record: the three constants, the estimate in Q16.16
    centidegrees, the ambient, and the squared-current window. *)
Record ThermalModel := mkThermal {
  th_resistance_mohm : Z; th_thermal_resistance_cw : Z; th_thermal_capacity_cj : Z;
  th_temp_q16_cdeg : Z; th_ambient_temp_cdeg : Z;
  th_i_squared_accumulator : Z; th_i_squared_samples : Z }.

Definition ThermalModel_new (resistance_mohm thermal_resistance_cw thermal_capacity_cj : Z) : ThermalModel :=
  mkThermal resistance_mohm thermal_resistance_cw thermal_capacity_cj (Z.shiftl 2500 16) 2500 0 0.
Definition ThermalModel_update_fast (current_ma : option Z) (m : ThermalModel) : ThermalModel :=
  match current_ma with
  | None => m
  | Some i_ma =>
      let i_squared := i32 (i_ma * i_ma) mod 18446744073709551616 in
      mkThermal (th_resistance_mohm m) (th_thermal_resistance_cw m) (th_thermal_capacity_cj m) (th_temp_q16_cdeg m) (th_ambient_temp_cdeg m)
        (Z.min 18446744073709551615 (th_i_squared_accumulator m + i_squared)) (Z.min 65535 (th_i_squared_samples m + 1))
  end.
Definition ThermalModel_temperature_cdeg (m : ThermalModel) : Z := i16 (Z.shiftr (th_temp_q16_cdeg m) 16).
Definition ThermalModel_temperature_deg (m : ThermalModel) : Z := Z.quot (ThermalModel_temperature_cdeg m) 100.
Definition ThermalModel_temp_rise_deg (m : ThermalModel) : Z := Z.quot (i16 (ThermalModel_temperature_cdeg m - th_ambient_temp_cdeg m)) 100.

(** The mean of the window's squared current. *)
Definition avg_i_squared (m : ThermalModel) : Z :=
  if 0 <? th_i_squared_samples m then u32 (th_i_squared_accumulator m / th_i_squared_samples m) else 0.
(** The net power in milliwatts: the resistive loss less what the case sheds. *)
Definition net_power (m : ThermalModel) (ambient_cdeg : Z) : Z :=
  let power_mw := Z.quot (i64 (avg_i_squared m * th_resistance_mohm m)) 1000000 in
  let temp_delta := sat16 (ThermalModel_temperature_cdeg m - ambient_cdeg) in
  let power_out_mw := Z.quot (i32 (temp_delta * 1000)) (th_thermal_resistance_cw m) in
  i32 (i32 power_mw - power_out_mw).
(** The physics; [None] is the division by a zero thermal resistance. *)
Definition ThermalModel_update_slow (ambient_cdeg dt_us : Z) (m : ThermalModel) : option (Z * ThermalModel) :=
  if th_thermal_resistance_cw m =? 0 then None
  else
    let dt_us_capped := Z.min dt_us 1000000 in
    let num := i64 (Z.shiftl (i64 (net_power m ambient_cdeg * dt_us_capped)) 16) in
    let denom := Z.max (th_thermal_capacity_cj m) 1 * 1000 in
    let temp_change_q16 := clamp (Z.quot num denom) (-2147483648) 2147483647 in
    let temp := clamp (sat32 (th_temp_q16_cdeg m + temp_change_q16)) (Z.shiftl (-4000) 16) (Z.shiftl 20000 16) in
    let m' := mkThermal (th_resistance_mohm m) (th_thermal_resistance_cw m) (th_thermal_capacity_cj m) temp ambient_cdeg 0 0 in
    Some (i16 (Z.shiftr temp 16), m').
Definition ThermalModel_init (ambient_cdeg : Z) (m : ThermalModel) : ThermalModel :=
  mkThermal (th_resistance_mohm m) (th_thermal_resistance_cw m) (th_thermal_capacity_cj m) (i32 (Z.shiftl ambient_cdeg 16)) ambient_cdeg 0 0.

(** ** compliance_model.rs *)

Inductive LimitState := Normal | Limiting | Recovering.
#[global] Instance LimitState_eq_dec : EqDecision LimitState.
Proof. solve_decision. Defined.
Record ComplianceConfig := mkComplianceConfig {
  cc_limit_ma : Z; cc_hysteresis_ma : Z; cc_deglitch_samples : Z; cc_backoff_factor_q8 : Z; cc_recovery_rate : Z }.
Record ComplianceModel := mkCompliance {
  cm_config : ComplianceConfig; cm_effort_cap : Z; cm_over_cnt : Z; cm_state : LimitState }.

Definition EFFORT_MAX : Z := 32767.
Definition MIN_CAP : Z := 3277.
Definition ComplianceModel_new (config : ComplianceConfig) : ComplianceModel := mkCompliance config EFFORT_MAX 0 Normal.
Definition ComplianceModel_get_limits (m : ComplianceModel) : Z * Z := (- cm_effort_cap m, cm_effort_cap m).
Definition apply_backoff (m : ComplianceModel) : ComplianceModel :=
  let new_cap := i16 (Z.shiftr (i32 (cm_effort_cap m * cc_backoff_factor_q8 (cm_config m))) 8) in
  mkCompliance (cm_config m) (Z.max new_cap MIN_CAP) (cm_over_cnt m) (cm_state m).
Definition recovery_step (config : ComplianceConfig) (dt_us : Z) : Z :=
  i16 (Z.quot (i32 (cc_recovery_rate config * i32 dt_us)) 1000000).
Definition apply_recovery (dt_us : Z) (m : ComplianceModel) : ComplianceModel :=
  let cap := sat16 (cm_effort_cap m + recovery_step (cm_config m) dt_us) in
  mkCompliance (cm_config m) (if EFFORT_MAX <? cap then EFFORT_MAX else cap) (cm_over_cnt m) (cm_state m).
Definition with_state (m : ComplianceModel) (over_cnt : Z) (s : LimitState) : ComplianceModel :=
  mkCompliance (cm_config m) (cm_effort_cap m) over_cnt s.

(** [MilliAmp::abs] saturates. *)
Definition abs_i16 (x : Z) : Z := Z.min 32767 (Z.abs x).
Definition ComplianceModel_step (current_ma dt_us : Z) (m : ComplianceModel) : ComplianceModel :=
  let c := cm_config m in
  let abs_current := abs_i16 current_ma in
  let recovery_threshold := i16 (cc_limit_ma c - cc_hysteresis_ma c) in
  match cm_state m with
  | Normal =>
      if cc_limit_ma c <? abs_current then
        let over_cnt := Z.min 255 (cm_over_cnt m + 1) in
        if cc_deglitch_samples c <=? over_cnt then with_state (apply_backoff m) 0 Limiting
        else with_state m over_cnt Normal
      else with_state m 0 Normal
  | Limiting =>
      if abs_current <? recovery_threshold then with_state m (cm_over_cnt m) Recovering
      else if cc_limit_ma c <? abs_current then apply_backoff m
      else m
  | Recovering =>
      if cc_limit_ma c <? abs_current then with_state m 1 Normal
      else if abs_current <? recovery_threshold then
        let m' := apply_recovery dt_us m in
        if EFFORT_MAX <=? cm_effort_cap m' then mkCompliance c EFFORT_MAX 0 Normal else m'
      else m
  end.
(** No limiting without a current sensor. *)
Definition ComplianceModel_update (current : option Z) (dt_us : Z) (m : ComplianceModel) : ComplianceModel :=
  match current with None => m | Some current_ma => ComplianceModel_step current_ma dt_us m end.
Definition ComplianceModel_is_limited (m : ComplianceModel) : bool :=
  negb (bool_decide (cm_state m = Normal)) || (cm_effort_cap m <? EFFORT_MAX).
Definition ComplianceModel_reset (m : ComplianceModel) : ComplianceModel := mkCompliance (cm_config m) EFFORT_MAX 0 Normal.
Definition ComplianceModel_set_config (config : ComplianceConfig) (m : ComplianceModel) : ComplianceModel :=
  mkCompliance config (cm_effort_cap m) (cm_over_cnt m) (cm_state m).

(** ** ntc.rs *)

(** The scan for the segment that holds the reading, from the cold end. *)
Fixpoint ntc_scan (adc_raw : Z) (cold : Z * Z) (lut : list (Z * Z)) : Z :=
  match lut with
  | [] => 2500
  | hot :: lut' =>
      let '(adc_hi, temp_lo) := cold in
      let '(adc_lo, temp_hi) := hot in
      if (adc_raw <=? adc_hi) && (adc_lo <? adc_raw) then
        let adc_range := u16 (adc_hi - adc_lo) in
        let temp_range := i16 (temp_hi - temp_lo) in
        let adc_offset := u16 (adc_hi - adc_raw) in
        i16 (i32 (temp_lo + Z.quot (i32 (temp_range * adc_offset)) adc_range))
      else ntc_scan adc_raw hot lut'
  end.
Definition ntc_lut_to_centi_celsius (adc_raw : Z) (lut : list (Z * Z)) : Z :=
  match lut with
  | [] => 2500
  | cold :: lut' =>
      let hottest := List.last lut cold in
      if fst cold <=? adc_raw then snd cold
      else if adc_raw <=? fst hottest then snd hottest
      else ntc_scan adc_raw cold lut'
  end.

(** ** The PID *)

(** What the constructors and setters establish, and what every step keeps. *)
Record pid_ok (p : PidI16) : Prop := {
  po_out : pi_out_min p <= pi_out_max p;
  po_integ : pi_integ_min p <= pi_integ p <= pi_integ_max p;
  po_integ_i32 : is_i32 (pi_integ_min p) /\ is_i32 (pi_integ_max p) }.

Lemma sat32_mono a b : a <= b -> sat32 a <= sat32 b.
Proof. unfold sat32. lia. Qed.
Lemma sat32_range x : is_i32 (sat32 x).
Proof. unfold sat32. lia. Qed.
Lemma clamp_range x lo hi : lo <= hi -> lo <= clamp x lo hi <= hi.
Proof. intros H. unfold clamp. destruct (Z.ltb_spec x lo), (Z.ltb_spec hi x); lia. Qed.
Lemma clamp_in x lo hi : lo <= x <= hi -> clamp x lo hi = x.
Proof. intros H. unfold clamp. destruct (Z.ltb_spec x lo), (Z.ltb_spec hi x); lia. Qed.
(** The source's clamps test the upper bound first. *)
Lemma clamp_flip x lo hi : lo <= hi -> (if hi <? x then hi else if x <? lo then lo else x) = clamp x lo hi.
Proof. intros H. unfold clamp. destruct (Z.ltb_spec x lo), (Z.ltb_spec hi x); lia. Qed.
Lemma ordered_spec a b : fst (ordered a b) = Z.min a b /\ snd (ordered a b) = Z.max a b.
Proof. unfold ordered. destruct (Z.leb_spec a b); cbn; lia. Qed.

Lemma limits_ok out_min out_max p : pid_ok (PidI16_set_output_limits_auto_anti_windup out_min out_max p).
Proof.
  unfold PidI16_set_output_limits_auto_anti_windup. pose proof (ordered_spec out_min out_max) as [E1 E2].
  destruct (ordered out_min out_max) as [lo hi]; cbn in E1, E2.
  pose proof (sat32_mono (lo * Z.shiftl 1 GAIN_FRAC_BITS) (hi * Z.shiftl 1 GAIN_FRAC_BITS)) as M.
  change (Z.shiftl 1 GAIN_FRAC_BITS) with 256 in *.
  split; cbn; [lia | apply clamp_range; apply M; lia | split; apply sat32_range].
Qed.
Lemma new_ok kp ki kd mode out_min out_max :
  is_i16 out_min -> is_i16 out_max -> out_min <= 0 <= out_max -> pid_ok (PidI16_new_auto_anti_windup kp ki kd mode out_min out_max).
Proof.
  intros Hmin Hmax H0. unfold PidI16_new_auto_anti_windup, PidI16_new_with_integral_limits, ordered.
  change (Z.shiftl 1 GAIN_FRAC_BITS) with 256. unfold sat32.
  rewrite !(proj2 (Z.leb_le _ _)) by lia. split; cbn; lia.
Qed.

(** The accumulated error after a step. *)
Definition integ_next (HAS_I : bool) (sp pv : Z) (p : PidI16) : Z :=
  if HAS_I then clamp (sat32 (pi_integ p + i32 (pi_ki p * i32 (sp - pv)))) (pi_integ_min p) (pi_integ_max p) else pi_integ p.

Lemma step_integ (HAS_I HAS_D : bool) (sp pv : Z) (p : PidI16) :
  pid_ok p -> pi_integ (snd (PidI16_step HAS_I HAS_D sp pv p)) = integ_next HAS_I sp pv p.
Proof.
  intros [Ho Hi _]. unfold PidI16_step, integ_next.
  destruct HAS_I, HAS_D, (pi_mode p); cbn [snd pi_integ]; try rewrite clamp_flip by lia; reflexivity.
Qed.
Lemma pid_step_keeps HAS_I HAS_D sp pv p :
  pid_ok p -> pid_ok (snd (PidI16_step HAS_I HAS_D sp pv p)).
Proof.
  intros H. pose proof (step_integ HAS_I HAS_D sp pv p H) as E. destruct H as [Ho Hi Hr].
  assert (pi_integ_min p <= integ_next HAS_I sp pv p <= pi_integ_max p) by (unfold integ_next; destruct HAS_I; [apply clamp_range; lia | done]).
  revert E. unfold PidI16_step. destruct HAS_D, (pi_mode p); cbn [snd pi_integ]; intros E; split; cbn [pi_out_min pi_out_max pi_integ pi_integ_min pi_integ_max]; try done; rewrite E; done.
Qed.
(** Whatever overflows on the way, the output is inside the limits. *)
Lemma step_bounded HAS_I HAS_D sp pv p :
  pi_out_min p <= pi_out_max p -> pi_out_min p <= fst (PidI16_step HAS_I HAS_D sp pv p) <= pi_out_max p.
Proof.
  intros H. unfold PidI16_step. destruct HAS_D, (pi_mode p); cbn [fst]; rewrite clamp_flip by done; apply clamp_range, H.
Qed.

(** The unbounded computation a step stands for, with the derivative on the
    measurement: every term is a product divided by 256, rounded down. *)
Definition pid_ideal (sp pv : Z) (p : PidI16) : Z :=
  pi_kp p * (sp - pv) / 256 + clamp (pi_integ p + pi_ki p * (sp - pv)) (pi_integ_min p) (pi_integ_max p) / 256
  + pi_kd p * (pi_prev_meas p - pv) / 256.

Lemma product_fits k e : is_i16 k -> -65535 <= e <= 65535 -> is_i32 (k * e).
Proof. intros Hk He. nia. Qed.
Lemma shiftr8 x : Z.shiftr x GAIN_FRAC_BITS = x / 256.
Proof. rewrite Z.shiftr_div_pow2 by easy. reflexivity. Qed.
Lemma clamp_sat x lo hi : is_i32 lo -> is_i32 hi -> lo <= hi -> clamp (sat32 x) lo hi = clamp x lo hi.
Proof.
  intros Hl Hh H. unfold clamp, sat32.
  destruct (Z.ltb_spec (Z.max (-2147483648) (Z.min 2147483647 x)) lo), (Z.ltb_spec x lo),
    (Z.ltb_spec hi (Z.max (-2147483648) (Z.min 2147483647 x))), (Z.ltb_spec hi x); lia.
Qed.

(** On sixteen-bit positions and gains, with limits of a motor command and the
    derivative on the measurement, no intermediate of a step overflows: the output is
    the unbounded PID law clamped to the limits, and the step stores the accumulated
    error clamped to its own. *)
Theorem pid_exact (sp pv : Z) (p : PidI16) :
  pid_ok p -> pi_mode p = OnMeasurement ->
  is_i16 (pi_kp p) -> is_i16 (pi_ki p) -> is_i16 (pi_kd p) -> is_i16 sp -> is_i16 pv -> is_i16 (pi_prev_meas p) ->
  is_i32 (256 * pi_out_min p) -> is_i32 (256 * pi_out_max p) -> pi_integ_min p = 256 * pi_out_min p -> pi_integ_max p = 256 * pi_out_max p ->
  fst (PidI16_step true true sp pv p) = clamp (pid_ideal sp pv p) (pi_out_min p) (pi_out_max p)
  /\ pi_integ (snd (PidI16_step true true sp pv p)) = clamp (pi_integ p + pi_ki p * (sp - pv)) (pi_integ_min p) (pi_integ_max p)
  /\ pi_prev_meas (snd (PidI16_step true true sp pv p)) = pv.
Proof.
  intros H Hm Hkp Hki Hkd Hsp Hpv Hprev Hmin Hmax Emin Emax.
  pose proof (step_integ true true sp pv p H) as Ei. destruct H as [Ho Hi [Hil Hih]].
  assert (Herr : -65535 <= sp - pv <= 65535) by lia.
  assert (Hpd : -65535 <= pi_prev_meas p - pv <= 65535) by lia.
  pose proof (product_fits _ _ Hkp Herr) as P. pose proof (product_fits _ _ Hki Herr) as I. pose proof (product_fits _ _ Hkd Hpd) as D.
  assert (N : integ_next true sp pv p = clamp (pi_integ p + pi_ki p * (sp - pv)) (pi_integ_min p) (pi_integ_max p)).
  { unfold integ_next. rewrite (i32_id (sp - pv)), i32_id, clamp_sat by lia. done. }
  rewrite Ei, N. split; [|split; [reflexivity|]].
  - unfold PidI16_step. rewrite Hm. cbn [fst]. rewrite !clamp_flip by lia.
    change (clamp (sat32 (pi_integ p + i32 (pi_ki p * i32 (sp - pv)))) (pi_integ_min p) (pi_integ_max p)) with (integ_next true sp pv p).
    rewrite N, !shiftr8, (i32_id (sp - pv)), (i32_id (pi_kp p * _)), (i32_id (pv - _)) by lia.
    rewrite (i32_id (- _)) by lia. replace (- (pv - pi_prev_meas p)) with (pi_prev_meas p - pv) by lia. rewrite (i32_id (pi_kd p * _)) by done.
    unfold pid_ideal. pose proof (clamp_range (pi_integ p + pi_ki p * (sp - pv)) (pi_integ_min p) (pi_integ_max p) ltac:(lia)).
    set (c := clamp (pi_integ p + _) _ _) in *. set (a := pi_kp p * _) in *. set (d := pi_kd p * _) in *.
    assert (-8388608 <= a / 256 <= 8388607) by (split; [apply Z.div_le_lower_bound | apply Z.lt_succ_r, Z.div_lt_upper_bound]; lia).
    assert (-8388608 <= d / 256 <= 8388607) by (split; [apply Z.div_le_lower_bound | apply Z.lt_succ_r, Z.div_lt_upper_bound]; lia).
    assert (-8388608 <= c / 256 <= 8388607) by (split; [apply Z.div_le_lower_bound | apply Z.lt_succ_r, Z.div_lt_upper_bound]; lia).
    rewrite (i32_id (a / 256 + c / 256)), i32_id by lia. reflexivity.
  - unfold PidI16_step. rewrite Hm. reflexivity.
Qed.

(** A step that saturates with the accumulated error at its limit. *)
Definition demo_pid : PidI16 := PidI16_set_output_limits_auto_anti_windup (-1000) 1000 (PidI16_new_auto_anti_windup 1280 64 512 OnMeasurement (-32768) 32767).
Lemma pid_exact_witness :
  fst (PidI16_step true true 1000 0 demo_pid) = 1000 /\ pi_integ (snd (PidI16_step true true 1000 0 demo_pid)) = 64000.
Proof.
  destruct (pid_exact 1000 0 demo_pid) as (E & I & _); try (vm_compute; intuition congruence).
  apply limits_ok.
Defined.

(** ** The filters *)

Lemma quot_toward_zero e k : 0 <= k -> Z.abs (Z.quot e (2 ^ k)) <= Z.abs e /\ (0 <= e -> 0 <= Z.quot e (2 ^ k)) /\ (e <= 0 -> Z.quot e (2 ^ k) <= 0).
Proof.
  intros Hk. pose proof (Z.pow_pos_nonneg 2 k ltac:(lia) Hk).
  split; [|split; intros H'].
  - rewrite <- Z.quot_abs, (Z.abs_eq (2 ^ k)) by lia. apply Z.quot_le_upper_bound; nia.
  - apply Z.quot_pos; lia.
  - apply Z.opp_nonneg_nonpos. rewrite <- Z.quot_opp_l by lia. apply Z.quot_pos; lia.
Qed.

(** A filter fed values of an interval stays in it: state and output alike. *)
Definition state_within (lo hi : Z) (f : Filter) : Prop :=
  from_option (fun s => lo * 2 ^ fl_alpha_shift f <= s <= hi * 2 ^ fl_alpha_shift f) True (fl_state f).

Lemma shift_fits k x : 0 <= k <= 30 -> is_i32 x -> - 2 ^ 62 <= x * 2 ^ k < 2 ^ 62.
Proof.
  intros Hk Hx. pose proof (Z.pow_le_mono_r 2 k 30 ltac:(lia) ltac:(lia)). pose proof (Z.pow_pos_nonneg 2 k ltac:(lia) ltac:(lia)).
  change (2 ^ 30) with 1073741824 in *. change (2 ^ 62) with 4611686018427387904. nia.
Qed.
Lemma filter_within lo hi sample f :
  0 <= fl_alpha_shift f <= 30 -> is_i32 lo -> is_i32 hi -> lo <= sample <= hi -> state_within lo hi f ->
  lo <= fst (FilterI32_update sample f) <= hi /\ state_within lo hi (snd (FilterI32_update sample f)).
Proof.
  intros Hk Hlo Hhi Hs Hw. unfold FilterI32_update, state_within in *. set (k := fl_alpha_shift f) in *.
  pose proof (shift_fits k sample Hk ltac:(lia)). pose proof (Z.pow_pos_nonneg 2 k ltac:(lia) ltac:(lia)) as Hp.
  rewrite (Z.shiftl_mul_pow2 sample k) by lia. rewrite (i64_id (sample * _)) by (change (2 ^ 62) with 4611686018427387904 in *; lia).
  destruct (fl_state f) as [s|]; cbn [from_option fst snd fl_state fl_alpha_shift] in *; [|nia].
  pose proof (shift_fits k lo Hk Hlo). pose proof (shift_fits k hi Hk Hhi). pose proof (quot_toward_zero (sample * 2 ^ k - s) k ltac:(lia)) as (Ha & Hpos & Hneg).
  change (2 ^ 62) with 4611686018427387904 in *. pose proof (Z.pow_le_mono_r 2 k 30 ltac:(lia) ltac:(lia)) as H30. change (2 ^ 30) with 1073741824 in H30.
  rewrite (Z.shiftl_mul_pow2 1 k), Z.mul_1_l, (i64_id (2 ^ k)), (i64_id (sample * 2 ^ k - s)) by lia.
  set (d := Z.quot _ _) in *. assert (lo * 2 ^ k <= s + d <= hi * 2 ^ k) by nia.
  rewrite (i64_id (s + d)) by lia. split; [|done].
  rewrite Z.shiftr_div_pow2 by lia.
  assert (lo <= (s + d) / 2 ^ k <= hi).
  { split; [apply Z.div_le_lower_bound; lia|]. apply Z.lt_succ_r, Z.div_lt_upper_bound; nia. }
  rewrite i32_id by lia. done.
Qed.

(** The unsigned filter on a falling input: the borrow of the wrapped difference
    reaches the output after five samples. *)
Fixpoint filter_run (update : Z -> Filter -> Z * Filter) (samples : list Z) (f : Filter) : list Z :=
  match samples with
  | [] => []
  | s :: samples' => let '(y, f') := update s f in y :: filter_run update samples' f'
  end.
Example unsigned_filter_jumps :
  filter_run FilterU16_update [1000; 900; 900; 900; 900; 900; 900] (Filter_new 3) = [1000; 987; 976; 966; 958; 17335; 31664]
  /\ filter_run FilterI32_update [1000; 900; 900; 900; 900; 900; 900] (Filter_new 3) = [1000; 987; 976; 967; 958; 951; 945].
Proof. vm_compute. split; reflexivity. Qed.

(** ** Gains and their text *)

Lemma parse_digit d rest n : 0 <= d <= 9 -> 0 <= n -> n * 10 + d <= 2147483647 ->
  parse_loop ((48 + d) :: rest) n 0 0 false = parse_loop rest (n * 10 + d) 0 0 false.
Proof.
  intros Hd Hn Hb. cbn [parse_loop negb]. rewrite (proj2 (Z.eqb_neq (48 + d) 46)), !(proj2 (Z.leb_le _ _)) by lia.
  cbn [andb negb]. unfold checked_i32. rewrite !(proj2 (Z.leb_le _ _)) by lia. cbn -[Z.add Z.sub Z.mul parse_loop].
  rewrite ?(proj2 (Z.leb_le _ _)) by lia. cbn -[Z.add Z.sub Z.mul parse_loop]. f_equal; lia.
Qed.
(** The digits of a number read back as the number. *)
Lemma parse_digits fuel n rest :
  0 <= n < 10 ^ Z.of_nat fuel -> n <= 2147483647 -> parse_loop (dec_digits fuel n ++ rest) 0 0 0 false = parse_loop rest n 0 0 false.
Proof.
  revert n rest. induction fuel as [|fuel IH]; intros n rest Hn Hb.
  - assert (n = 0) as -> by (cbn in Hn; lia). reflexivity.
  - cbn [dec_digits]. destruct (Z.ltb_spec n 10) as [Hlt|Hge].
    + rewrite <- app_comm_cons, app_nil_l, parse_digit by lia. f_equal; lia.
    + rewrite <- app_assoc, IH.
      * cbn [app]. pose proof (Z.div_mod n 10 ltac:(lia)). pose proof (Z.mod_pos_bound n 10 ltac:(lia)).
        rewrite parse_digit by lia. f_equal; lia.
      * rewrite Nat2Z.inj_succ, Z.pow_succ_r in Hn by lia. split; [apply Z.div_pos; lia | apply Z.div_lt_upper_bound; lia].
      * pose proof (Z.div_le_upper_bound n 10 n ltac:(lia) ltac:(lia)). lia.
Qed.
Lemma parse_fraction n f : 0 <= f < 100 ->
  parse_loop [46; 48 + f / 10; 48 + f mod 10] n 0 0 false = Ok (n, f, 2).
Proof.
  intros Hf. pose proof (Z.div_mod f 10 ltac:(lia)). pose proof (Z.mod_pos_bound f 10 ltac:(lia)).
  assert (0 <= f / 10 <= 9) by (split; [apply Z.div_pos | apply Z.lt_succ_r, Z.div_lt_upper_bound]; lia).
  set (a := f / 10) in *. set (b := f mod 10) in *. clearbody a b.
  cbn [parse_loop]. rewrite Z.eqb_refl, !(proj2 (Z.eqb_neq (48 + _) 46)) by lia.
  rewrite !(proj2 (Z.leb_le 48 _)), !(proj2 (Z.leb_le _ 57)) by lia. cbn [andb negb]. unfold checked_i32.
  cbn -[Z.add Z.sub Z.mul Z.leb]. change (0 * 10) with 0. cbn -[Z.add Z.sub Z.mul Z.leb].
  rewrite !(proj2 (Z.leb_le (-2147483648) _)), !(proj2 (Z.leb_le _ 2147483647)) by lia. cbn -[Z.add Z.sub Z.mul Z.leb].
  rewrite !(proj2 (Z.leb_le (-2147483648) _)), !(proj2 (Z.leb_le _ 2147483647)) by lia. cbn -[Z.add Z.sub Z.mul Z.leb].
  rewrite ?(proj2 (Z.leb_le (-2147483648) _)), ?(proj2 (Z.leb_le _ 2147483647)) by lia. cbn -[Z.add Z.sub Z.mul Z.leb].
  change (0 + 1) with 1. change (1 <? 2) with true. cbv iota.
  rewrite ?(proj2 (Z.leb_le (-2147483648) _)), ?(proj2 (Z.leb_le _ 2147483647)) by lia. cbn -[Z.add Z.sub Z.mul Z.leb].
  do 3 f_equal. lia.
Qed.

Lemma digits_head fuel n : 0 <= n -> exists d l, dec_digits (S fuel) n = d :: l /\ 48 <= d <= 57.
Proof.
  revert n. induction fuel as [|fuel IH]; intros n Hn; cbn [dec_digits]; destruct (Z.ltb_spec n 10).
  1, 3: by exists (48 + n), []; split; [|lia].
  - pose proof (Z.mod_pos_bound n 10 ltac:(lia)). exists (48 + n mod 10), []. split; [done | lia].
  - destruct (IH (n / 10)) as (d & l & E & Hd); [apply Z.div_pos; lia|]. cbn [dec_digits] in E. rewrite E. by exists d, (l ++ [48 + n mod 10]).
Qed.
(** The value of a text whose digits read as [q] and [m]. *)
Lemma parse_value q m (sign : Z) :
  0 <= q <= 21474836 -> 0 <= m -> q * 100 + m <= 2147483647 ->
  (let? x := checked_i32 (q * 100) in let? x := checked_i32 (x + scale_frac 2 m 2) in Ok (sign * x)) = Ok (sign * (q * 100 + m)).
Proof.
  intros Hq Hm Hb. unfold checked_i32. cbn -[Z.mul Z.add Z.leb].
  rewrite !(proj2 (Z.leb_le (-2147483648) (q * 100))), !(proj2 (Z.leb_le (q * 100) 2147483647)) by lia. cbn -[Z.mul Z.add Z.leb].
  rewrite !(proj2 (Z.leb_le (-2147483648) _)), !(proj2 (Z.leb_le _ 2147483647)) by lia. reflexivity.
Qed.
Lemma parse_minus body q m :
  parse_loop body 0 0 0 false = Ok (q, m, 2) -> body <> [] -> 0 <= q <= 21474836 -> 0 <= m -> q * 100 + m <= 2147483647 ->
  parse_gain_2dp (45 :: body) = Ok (- (q * 100 + m)).
Proof.
  intros E Hne Hq Hm Hb. unfold parse_gain_2dp. cbn [Z.eqb Pos.eqb]. destruct body as [|b body]; [done|].
  cbn [andb]. rewrite E. cbn [result_bind]. rewrite parse_value by done. f_equal; lia.
Qed.
Lemma parse_plain b body q m :
  48 <= b <= 57 -> parse_loop (b :: body) 0 0 0 false = Ok (q, m, 2) -> 0 <= q <= 21474836 -> 0 <= m -> q * 100 + m <= 2147483647 ->
  parse_gain_2dp (b :: body) = Ok (q * 100 + m).
Proof.
  intros Hd E Hq Hm Hb. unfold parse_gain_2dp. rewrite !(proj2 (Z.eqb_neq b _)) by lia. cbn [andb]. rewrite E. cbn [result_bind].
  rewrite parse_value by done. f_equal; lia.
Qed.

(** A gain printed and parsed is the same gain, for every value but the most
    negative: two decimals, a sign, up to eight digits before the dot. *)
Theorem gain_roundtrip (raw : Z) :
  -2147483647 <= raw <= 2147483647 -> parse_gain_2dp (Gain_fmt raw) = Ok raw.
Proof.
  intros H. unfold Gain_fmt. rewrite i32_id by lia. rewrite Z.quot_div_nonneg, Z.rem_mod_nonneg by lia.
  assert (Hq : 0 <= Z.abs raw / 100 <= 21474836) by (split; [apply Z.div_pos | apply Z.lt_succ_r, Z.div_lt_upper_bound]; lia).
  pose proof (Z.mod_pos_bound (Z.abs raw) 100 ltac:(lia)) as Hm. pose proof (Z.div_mod (Z.abs raw) 100 ltac:(lia)) as Hd.
  set (q := Z.abs raw / 100) in *. set (m := Z.abs raw mod 100) in *.
  assert (Hb : parse_loop (dec_digits 10 q ++ [46; 48 + m / 10; 48 + m mod 10]) 0 0 0 false = Ok (q, m, 2)).
  { rewrite parse_digits by (change (10 ^ Z.of_nat 10) with 10000000000; lia). apply parse_fraction, Hm. }
  destruct (digits_head 9 q) as (d & l & Ed & Hr); [lia|]. rewrite Ed in *.
  destruct (Z.ltb_spec raw 0) as [Hn|Hn]; rewrite ?app_nil_l, <- !app_comm_cons in *.
  - rewrite app_nil_l, (parse_minus _ _ _ Hb) by (done || lia). f_equal. lia.
  - rewrite (parse_plain _ _ _ _ Hr Hb) by lia. f_equal. lia.
Qed.

Lemma gain_roundtrip_witness :
  Gain_fmt (-350) = [45; 51; 46; 53; 48] /\ parse_gain_2dp (Gain_fmt (-350)) = Ok (-350).
Proof. split; [reflexivity | apply gain_roundtrip; lia]. Defined.

(** ** The compliance model *)

Definition cap_ok (m : ComplianceModel) : Prop := MIN_CAP <= cm_effort_cap m <= EFFORT_MAX.
(** The rates for which the recovery product does not wrap. *)
Definition rate_ok (c : ComplianceConfig) (dt_us : Z) : Prop :=
  0 <= cc_recovery_rate c /\ 0 <= dt_us <= 2147483647 /\ cc_recovery_rate c * dt_us <= 2147483647.

Lemma backoff_cap m : cap_ok (apply_backoff m).
Proof.
  unfold cap_ok, apply_backoff; cbn [cm_effort_cap]. pose proof (i16_range (Z.shiftr (i32 (cm_effort_cap m * cc_backoff_factor_q8 (cm_config m))) 8)).
  unfold MIN_CAP, EFFORT_MAX. lia.
Qed.
Lemma recovery_step_exact c dt_us : rate_ok c dt_us -> recovery_step c dt_us = cc_recovery_rate c * dt_us / 1000000 /\ 0 <= recovery_step c dt_us <= 2147.
Proof.
  intros (Hr & Hd & Hp). unfold recovery_step. rewrite (i32_id dt_us), i32_id by nia. rewrite Z.quot_div_nonneg by nia.
  assert (0 <= cc_recovery_rate c * dt_us / 1000000 <= 2147) by (split; [apply Z.div_pos; nia | apply Z.lt_succ_r, Z.div_lt_upper_bound; nia]).
  rewrite i16_id by lia. done.
Qed.
Lemma recovery_cap dt_us m : rate_ok (cm_config m) dt_us -> cap_ok m ->
  cm_effort_cap (apply_recovery dt_us m) = Z.min EFFORT_MAX (cm_effort_cap m + recovery_step (cm_config m) dt_us).
Proof.
  intros Hr Hc. destruct (recovery_step_exact _ _ Hr) as [_ Hs]. unfold cap_ok, apply_recovery, sat16, MIN_CAP, EFFORT_MAX in *. cbn [cm_effort_cap].
  destruct (Z.ltb_spec 32767 (Z.max (-32768) (Z.min 32767 (cm_effort_cap m + recovery_step (cm_config m) dt_us)))); lia.
Qed.

(** The cap never leaves its range, and an update keeps the configuration. *)
Lemma update_cap current dt_us m : rate_ok (cm_config m) dt_us -> cap_ok m -> cap_ok (ComplianceModel_update current dt_us m).
Proof.
  intros Hr Hc. destruct current as [i|]; [|exact Hc]. cbn [ComplianceModel_update]. unfold ComplianceModel_step.
  pose proof (backoff_cap m). pose proof (recovery_cap dt_us m Hr Hc). destruct (recovery_step_exact _ _ Hr) as [_ Hs].
  assert (cap_ok (apply_recovery dt_us m)) by (unfold cap_ok, MIN_CAP, EFFORT_MAX in *; lia).
  destruct (cm_state m); repeat (case_match; try done); unfold cap_ok, MIN_CAP, EFFORT_MAX in *; cbn [cm_effort_cap]; lia.
Qed.
Lemma update_config current dt_us m : cm_config (ComplianceModel_update current dt_us m) = cm_config m.
Proof. destruct current as [i|]; [|done]. cbn [ComplianceModel_update]. unfold ComplianceModel_step. destruct (cm_state m); repeat case_match; done. Qed.

Definition updates (n : nat) (current dt_us : Z) (m : ComplianceModel) : ComplianceModel :=
  Nat.iter n (ComplianceModel_update (Some current) dt_us) m.

(** Over the limit, the model counts, and trips at the configured number of samples. *)
Lemma over_counts n i dt_us m :
  cm_state m = Normal -> cm_over_cnt m = 0 -> cc_limit_ma (cm_config m) < abs_i16 i ->
  Z.of_nat n < cc_deglitch_samples (cm_config m) <= 255 -> updates n i dt_us m = with_state m (Z.of_nat n) Normal.
Proof.
  intros Hs Ho Hi Hn. induction n as [|n IH].
  - unfold updates, with_state; cbn [Nat.iter]. destruct m as [c cap cnt s]; cbn in Hs, Ho |- *; subst; reflexivity.
  - unfold updates in *. rewrite Nat.iter_succ, IH by lia. cbn -[Z.add]. unfold ComplianceModel_step; cbn [cm_config with_state cm_state cm_over_cnt].
    rewrite (proj2 (Z.ltb_lt _ _)) by done. rewrite (proj2 (Z.leb_gt _ _)) by lia. unfold with_state; cbn. f_equal. lia.
Qed.

(** A current over the limit is tolerated for fewer than the configured number of
    consecutive samples, with the cap untouched; the sample that reaches the number
    starts limiting, with the cap scaled by the back-off factor and never below a
    tenth of full scale. *)
Theorem compliance_trips (i dt_us : Z) (m : ComplianceModel) :
  cm_state m = Normal -> cm_over_cnt m = 0 -> cc_limit_ma (cm_config m) < abs_i16 i ->
  1 <= cc_deglitch_samples (cm_config m) <= 255 -> cap_ok m -> 0 <= cc_backoff_factor_q8 (cm_config m) <= 256 ->
  (forall n, Z.of_nat n < cc_deglitch_samples (cm_config m) ->
     cm_state (updates n i dt_us m) = Normal /\ cm_effort_cap (updates n i dt_us m) = cm_effort_cap m)
  /\ (let m' := updates (Z.to_nat (cc_deglitch_samples (cm_config m))) i dt_us m in
      cm_state m' = Limiting /\ cm_effort_cap m' = Z.max MIN_CAP (cm_effort_cap m * cc_backoff_factor_q8 (cm_config m) / 256)).
Proof.
  intros Hs Ho Hi Hd Hc Hb. split.
  - intros n Hn. rewrite over_counts by (done || lia). done.
  - cbv zeta. set (d := cc_deglitch_samples (cm_config m)) in *.
    replace (Z.to_nat d) with (S (Z.to_nat (d - 1))) by lia. unfold updates. rewrite Nat.iter_succ.
    change (Nat.iter (Z.to_nat (d - 1)) (ComplianceModel_update (Some i) dt_us) m) with (updates (Z.to_nat (d - 1)) i dt_us m).
    rewrite over_counts by (done || lia). cbn -[Z.add]. unfold ComplianceModel_step; cbn [cm_config with_state cm_state cm_over_cnt].
    rewrite (proj2 (Z.ltb_lt _ _)) by done. fold d. rewrite (proj2 (Z.leb_le _ _)) by lia. split; [done|].
    unfold apply_backoff, with_state, cap_ok, MIN_CAP, EFFORT_MAX in *; cbn [cm_effort_cap cm_config].
    rewrite i32_id by nia. rewrite Z.shiftr_div_pow2 by easy. change (2 ^ 8) with 256.
    set (p := cm_effort_cap m * _) in *. assert (0 <= p <= 32767 * 256) by nia.
    assert (0 <= p / 256 <= 32767) by (split; [apply Z.div_pos | apply Z.lt_succ_r, Z.div_lt_upper_bound]; lia).
    rewrite i16_id by lia. lia.
Qed.

(** Below the recovery threshold. *)
Definition calm (i : Z) (c : ComplianceConfig) : Prop :=
  abs_i16 i < i16 (cc_limit_ma c - cc_hysteresis_ma c) /\ abs_i16 i <= cc_limit_ma c.

Lemma recovering_step i dt_us m :
  cm_state m = Recovering -> calm i (cm_config m) -> rate_ok (cm_config m) dt_us -> cap_ok m ->
  let m' := ComplianceModel_update (Some i) dt_us m in
  cm_effort_cap m' = Z.min EFFORT_MAX (cm_effort_cap m + recovery_step (cm_config m) dt_us)
  /\ cm_state m' = (if EFFORT_MAX <=? cm_effort_cap m + recovery_step (cm_config m) dt_us then Normal else Recovering).
Proof.
  intros Hs (Hc1 & Hc2) Hr Hcap. cbv zeta. cbn [ComplianceModel_update]. unfold ComplianceModel_step. rewrite Hs.
  rewrite (proj2 (Z.ltb_ge _ _)), (proj2 (Z.ltb_lt _ _)) by done. pose proof (recovery_cap dt_us m Hr Hcap) as E. rewrite E.
  destruct (Z.leb_spec EFFORT_MAX (Z.min EFFORT_MAX (cm_effort_cap m + recovery_step (cm_config m) dt_us))),
    (Z.leb_spec EFFORT_MAX (cm_effort_cap m + recovery_step (cm_config m) dt_us)); try (exfalso; lia); cbn [cm_effort_cap cm_state]; [split; [lia | done] |].
  rewrite E. done.
Qed.
(** A calm sample in the normal state changes neither state nor cap. *)
Lemma normal_calm i dt_us m : cm_state m = Normal -> calm i (cm_config m) ->
  cm_state (ComplianceModel_update (Some i) dt_us m) = Normal /\ cm_effort_cap (ComplianceModel_update (Some i) dt_us m) = cm_effort_cap m.
Proof.
  intros Hs (_ & Hc). cbn [ComplianceModel_update]. unfold ComplianceModel_step. rewrite Hs, (proj2 (Z.ltb_ge _ _)) by done. done.
Qed.
Lemma updates_config n i dt_us m : cm_config (updates n i dt_us m) = cm_config m.
Proof. induction n as [|n IH]; [done|]. unfold updates in *. rewrite Nat.iter_succ, update_config. exact IH. Qed.
Lemma updates_cap n i dt_us m : rate_ok (cm_config m) dt_us -> cap_ok m -> cap_ok (updates n i dt_us m).
Proof.
  intros Hr Hc. induction n as [|n IH]; [done|].
  change (updates (S n) i dt_us m) with (ComplianceModel_update (Some i) dt_us (updates n i dt_us m)).
  apply update_cap; [rewrite updates_config |]; done.
Qed.

(** The cap after [n] calm samples of a recovery that started at [m]. *)
Lemma recovering_run n i dt_us m :
  cm_state m = Recovering -> calm i (cm_config m) -> rate_ok (cm_config m) dt_us -> cap_ok m ->
  let m' := updates n i dt_us m in
  cm_effort_cap m' = Z.min EFFORT_MAX (cm_effort_cap m + Z.of_nat n * recovery_step (cm_config m) dt_us)
  /\ (cm_effort_cap m' < EFFORT_MAX -> cm_state m' = Recovering) /\ (cm_state m' = Recovering \/ cm_state m' = Normal /\ cm_effort_cap m' = EFFORT_MAX)
  /\ ((0 < n)%nat -> cm_effort_cap m' = EFFORT_MAX -> cm_state m' = Normal).
Proof.
  intros Hs Hc Hr Hcap. cbv zeta. induction n as [|n (E & HR & HS & HN)].
  - change (updates 0 i dt_us m) with m. change (Z.of_nat 0) with 0. unfold cap_ok, EFFORT_MAX in *. repeat split; [lia | done | by left | intros; lia].
  - set (m1 := updates n i dt_us m) in *. change (updates (S n) i dt_us m) with (ComplianceModel_update (Some i) dt_us m1).
    assert (Ec : cm_config m1 = cm_config m) by apply updates_config.
    assert (Hcap1 : cap_ok m1) by (apply updates_cap; done).
    destruct (recovery_step_exact _ _ Hr) as [_ Hst].
    destruct HS as [HS | [HS Hfull]].
    + destruct (recovering_step i dt_us m1 HS) as [E1 E2]; [rewrite Ec; done.. | done |]. rewrite Ec in *. rewrite E1, E2, E.
      destruct (Z.leb_spec EFFORT_MAX (Z.min EFFORT_MAX (cm_effort_cap m + Z.of_nat n * recovery_step (cm_config m) dt_us) + recovery_step (cm_config m) dt_us));
        (split; [lia|]); (split; [intros; try done; exfalso; lia |]); (split; [|intros; try done; exfalso; lia]); [right; split; [done | lia] | by left].
    + destruct (normal_calm i dt_us m1 HS) as [E1 E2]; [rewrite Ec; done|]. rewrite E1, E2, Hfull.
      split; [rewrite E in Hfull; lia|]. split; [lia|]. split; [by right | done].
Qed.

(** After a limiting episode, calm samples bring the model back to the normal
    state with the full cap, each adding the recovery rate times the period rounded
    down, exactly when that step is not zero: with a step of zero no number of calm
    samples changes the cap. *)
Theorem compliance_recovers (i dt_us : Z) (m : ComplianceModel) :
  cm_state m = Limiting -> cap_ok m -> cm_effort_cap m < EFFORT_MAX -> calm i (cm_config m) -> rate_ok (cm_config m) dt_us ->
  (1000000 <= cc_recovery_rate (cm_config m) * dt_us -> forall n, 29491 <= Z.of_nat n ->
     cm_state (updates n i dt_us m) = Normal /\ cm_effort_cap (updates n i dt_us m) = EFFORT_MAX)
  /\ (cc_recovery_rate (cm_config m) * dt_us < 1000000 -> forall n, (0 < n)%nat ->
     cm_state (updates n i dt_us m) = Recovering /\ cm_effort_cap (updates n i dt_us m) = cm_effort_cap m).
Proof.
  intros Hs Hcap Hlow Hc Hr.
  set (m1 := with_state m (cm_over_cnt m) Recovering).
  assert (E1 : ComplianceModel_update (Some i) dt_us m = m1).
  { cbn [ComplianceModel_update]. unfold ComplianceModel_step. rewrite Hs, (proj2 (Z.ltb_lt _ _)) by apply Hc. done. }
  assert (En : forall n, updates (S n) i dt_us m = updates n i dt_us m1) by (intros n; unfold updates; rewrite Nat.iter_succ_r, E1; done).
  destruct (recovery_step_exact _ _ Hr) as [Es Hst].
  split; intros Hrate n Hn; (destruct n as [|n]; [lia|]); rewrite En;
    destruct (recovering_run n i dt_us m1) as (E & HR & HS & HN); try done; cbn [cm_effort_cap m1 with_state cm_config] in *.
  - assert (1 <= recovery_step (cm_config m) dt_us) by (rewrite Es; apply Z.div_le_lower_bound; lia).
    assert (Ef : cm_effort_cap (updates n i dt_us m1) = EFFORT_MAX) by (rewrite E; unfold cap_ok, MIN_CAP, EFFORT_MAX in *; nia).
    split; [apply HN; [lia | exact Ef] | exact Ef].
  - assert (recovery_step (cm_config m) dt_us = 0) as E0 by (rewrite Es; apply Z.div_small; destruct Hr; nia).
    rewrite E0, Z.mul_0_r, Z.add_0_r in E. rewrite E in *. split; [apply HR | ]; lia.
Qed.

(** open-servo-stm32f301, config.rs: the move configuration, at the hundred
    microseconds of the board's fast tick and at a tenth of a second. *)
Definition move_compliance_config : ComplianceConfig := mkComplianceConfig 800 50 3 230 3277.
Definition tripped : ComplianceModel := updates 3 900 100 (ComplianceModel_new move_compliance_config).
Lemma compliance_trips_witness : cm_state tripped = Limiting /\ cm_effort_cap tripped = 29439.
Proof. apply (compliance_trips 900 100 (ComplianceModel_new move_compliance_config)); (reflexivity || (vm_compute; intuition congruence)). Defined.
Lemma compliance_recovers_witness :
  (forall n, (0 < n)%nat -> cm_effort_cap (updates n 100 100 tripped) = 29439)
  /\ (forall n, 29491 <= Z.of_nat n -> cm_effort_cap (updates n 100 100000 tripped) = 32767).
Proof.
  split; intros n Hn.
  - apply (compliance_recovers 100 100 tripped); first [exact Hn | reflexivity | vm_compute; intuition congruence].
  - apply (compliance_recovers 100 100000 tripped); first [exact Hn | reflexivity | vm_compute; intuition congruence].
Defined.

(** ** The thermal model *)

Definition thermal_ok (m : ThermalModel) : Prop :=
  0 < th_thermal_resistance_cw m <= 32767 /\ 0 < th_thermal_capacity_cj m <= 32767
  /\ -4000 * 65536 <= th_temp_q16_cdeg m <= 20000 * 65536.

Lemma thermal_cdeg m : thermal_ok m -> ThermalModel_temperature_cdeg m = th_temp_q16_cdeg m / 65536 /\ -4000 <= th_temp_q16_cdeg m / 65536 <= 20000.
Proof.
  intros (_ & _ & Ht). unfold ThermalModel_temperature_cdeg. rewrite Z.shiftr_div_pow2 by easy. change (2 ^ 16) with 65536.
  assert (-4000 <= th_temp_q16_cdeg m / 65536 <= 20000) by (split; [apply Z.div_le_lower_bound | apply Z.lt_succ_r, Z.div_lt_upper_bound]; lia).
  rewrite i16_id by lia. done.
Qed.
(** Every update with a positive thermal resistance returns, and leaves the estimate
    in its range. *)
Lemma thermal_total ambient dt m : thermal_ok m ->
  exists m', ThermalModel_update_slow ambient dt m = Some (ThermalModel_temperature_cdeg m', m') /\ thermal_ok m'.
Proof.
  intros (Hr & Hc & Ht). unfold ThermalModel_update_slow. rewrite (proj2 (Z.eqb_neq _ 0)) by lia.
  cbv zeta. match goal with |- exists m', Some (_, ?m0) = _ /\ _ => exists m0 end.
  split; [reflexivity|]. unfold thermal_ok; cbn [th_thermal_resistance_cw th_thermal_capacity_cj th_temp_q16_cdeg].
  split; [done|]. split; [done|]. change (Z.shiftl (-4000) 16) with (-4000 * 65536). change (Z.shiftl 20000 16) with (20000 * 65536).
  apply clamp_range. lia.
Qed.

(** The heat shed over a period moves the estimate by at most its distance to the
    ambient, when the time constant exceeds the period. *)
Lemma quot_le_mul a b c : 0 < b -> 0 <= c -> 0 <= a <= b * c -> 0 <= Z.quot a b <= c.
Proof. intros Hb Hc Ha. split; [apply Z.quot_pos; lia | apply Z.quot_le_upper_bound; lia]. Qed.
Lemma shed_bounded d dt r c :
  0 <= d <= 32767 -> 0 <= dt <= 1000000 -> 0 < r -> 0 < c -> 1000000 <= r * c ->
  0 <= Z.quot (Z.quot (d * 1000) r * dt * 65536) (c * 1000) <= d * 65536.
Proof.
  intros Hd Hdt Hr Hc Hrc. apply quot_le_mul; [lia | lia |].
  assert (0 <= Z.quot (d * 1000) r) by (apply Z.quot_pos; lia).
  assert (r * Z.quot (d * 1000) r <= d * 1000) by (apply Z.mul_quot_le; lia).
  set (q := Z.quot (d * 1000) r) in *. split; [nia|].
  assert (q * dt <= c * 1000 * d); [|nia].
  assert (q * dt <= q * (r * c)) by nia. nia.
Qed.

(** The change of the estimate in a window without current. *)
Lemma idle_change ambient dt m :
  thermal_ok m -> avg_i_squared m = 0 -> -4000 <= ambient <= 20000 -> 0 <= dt ->
  1000000 <= th_thermal_resistance_cw m * th_thermal_capacity_cj m ->
  let delta := th_temp_q16_cdeg m / 65536 - ambient in
  let change := Z.quot (i64 (Z.shiftl (i64 (net_power m ambient * Z.min dt 1000000)) 16)) (Z.max (th_thermal_capacity_cj m) 1 * 1000) in
  (0 <= delta -> - (delta * 65536) <= change <= 0) /\ (delta <= 0 -> 0 <= change <= - (delta * 65536)).
Proof.
  intros Hok Hi Ha Hdt Hrc. destruct (thermal_cdeg m Hok) as [Ec Hr]. destruct Hok as (HR & HC & Ht). cbv zeta.
  set (delta := th_temp_q16_cdeg m / 65536 - ambient) in *. assert (-24000 <= delta <= 24000) by lia.
  unfold net_power. rewrite Hi, Ec. fold delta. change (0 * th_resistance_mohm m) with 0. change (Z.quot (i64 0) 1000000) with 0. change (i32 0) with 0.
  replace (sat16 delta) with delta by (unfold sat16; lia). rewrite (i32_id (delta * 1000)) by lia.
  rewrite (Z.max_l (th_thermal_capacity_cj m)) by lia. set (t := Z.min dt 1000000) in *. assert (0 <= t <= 1000000) by lia.
  set (r := th_thermal_resistance_cw m) in *. set (c := th_thermal_capacity_cj m) in *.
  pose proof (quot_le_mul (Z.abs delta * 1000) r (Z.abs delta * 1000) ltac:(lia) ltac:(lia) ltac:(nia)) as Hq.
  pose proof (shed_bounded (Z.abs delta) t r c ltac:(lia) ltac:(lia) ltac:(lia) ltac:(lia) Hrc) as Hs.
  set (q := Z.quot (Z.abs delta * 1000) r) in *.
  change (0 - Z.quot (delta * 1000) r) with (- Z.quot (delta * 1000) r).
  assert (forall s, s = 1 \/ s = -1 -> Z.quot (i64 (Z.shiftl (i64 (i32 (s * q) * t)) 16)) (c * 1000) = s * Z.quot (q * t * 65536) (c * 1000)) as Hx.
  { intros s Hs'. assert (0 <= q * t <= 24000000000000) by nia. assert (2 ^ 63 = 9223372036854775808) as E63 by reflexivity.
    assert (i32 (s * q) = s * q) as -> by (apply i32_id; destruct Hs' as [-> | ->]; lia).
    assert (s * q * t = s * (q * t)) as -> by lia. rewrite (i64_id (s * (q * t))) by (destruct Hs' as [-> | ->]; lia).
    rewrite Z.shiftl_mul_pow2 by easy. change (2 ^ 16) with 65536. rewrite i64_id by (destruct Hs' as [-> | ->]; lia).
    destruct Hs' as [-> | ->].
    - rewrite !Z.mul_1_l. done.
    - replace (-1 * (q * t) * 65536) with (- (q * t * 65536)) by lia. rewrite Z.quot_opp_l by lia. lia. }
  split; intros Hd.
  - replace (Z.quot (delta * 1000) r) with q by (subst q; rewrite Z.abs_eq by lia; done).
    specialize (Hx (-1) ltac:(by right)). replace (-1 * q) with (- q) in Hx by lia. rewrite Hx. lia.
  - replace (Z.quot (delta * 1000) r) with (- q) by (subst q; rewrite Z.abs_neq, <- Z.quot_opp_l by lia; f_equal; lia).
    specialize (Hx 1 ltac:(by left)). rewrite Z.mul_1_l in Hx. rewrite Z.opp_involutive, Hx. lia.
Qed.

(** Without current the estimated winding temperature relaxes to the ambient and
    never past it: every update returns a value between the last estimate and the
    ambient, and leaves a state for which this holds again. *)
Theorem thermal_relaxes (ambient dt : Z) (m : ThermalModel) :
  thermal_ok m -> avg_i_squared m = 0 -> -4000 <= ambient <= 20000 -> 0 <= dt ->
  1000000 <= th_thermal_resistance_cw m * th_thermal_capacity_cj m ->
  exists m', ThermalModel_update_slow ambient dt m = Some (ThermalModel_temperature_cdeg m', m') /\ thermal_ok m' /\ avg_i_squared m' = 0
  /\ Z.min ambient (ThermalModel_temperature_cdeg m) <= ThermalModel_temperature_cdeg m' <= Z.max ambient (ThermalModel_temperature_cdeg m).
Proof.
  intros Hok Hi Ha Hdt Hrc. destruct (thermal_total ambient dt m Hok) as (m' & E & Hok'). exists m'. split; [done|]. split; [done|].
  destruct (thermal_cdeg m Hok) as [-> Hr]. destruct (thermal_cdeg m' Hok') as [-> Hr'].
  destruct (idle_change ambient dt m Hok Hi Ha Hdt Hrc) as [Hpos Hneg].
  unfold ThermalModel_update_slow in E. rewrite (proj2 (Z.eqb_neq _ 0)) in E by (destruct Hok; lia). cbv zeta in E.
  set (change := Z.quot _ _) in *. apply (f_equal (fun r => from_option snd m r)) in E. cbn [from_option snd] in E.
  split; [rewrite <- E; done|]. apply (f_equal th_temp_q16_cdeg) in E. cbn [th_temp_q16_cdeg] in E. rewrite <- E. clear E.
  destruct Hok as (_ & _ & Ht). pose proof (Z.div_mod (th_temp_q16_cdeg m) 65536 ltac:(lia)). pose proof (Z.mod_pos_bound (th_temp_q16_cdeg m) 65536 ltac:(lia)).
  change (Z.shiftl (-4000) 16) with (-4000 * 65536). change (Z.shiftl 20000 16) with (20000 * 65536).
  rewrite (clamp_in change) by lia. replace (sat32 (th_temp_q16_cdeg m + change)) with (th_temp_q16_cdeg m + change) by (unfold sat32; lia).
  unfold clamp. destruct (Z.ltb_spec (th_temp_q16_cdeg m + change) (-4000 * 65536)), (Z.ltb_spec (20000 * 65536) (th_temp_q16_cdeg m + change));
    (split; [apply Z.div_le_lower_bound | apply Z.lt_succ_r, Z.div_lt_upper_bound]); lia.
Qed.

Lemma thermal_relaxes_witness :
  let m := ThermalModel_init 9000 (ThermalModel_new 5000 1000 1500) in
  exists m', ThermalModel_update_slow 2500 1000000 m = Some (ThermalModel_temperature_cdeg m', m') /\ 2500 <= ThermalModel_temperature_cdeg m' <= 9000.
Proof.
  cbv zeta. destruct (thermal_relaxes 2500 1000000 (ThermalModel_init 9000 (ThermalModel_new 5000 1000 1500))) as (m' & E & _ & _ & H);
    [repeat split; vm_compute; congruence | reflexivity | lia | lia | vm_compute; congruence |].
  exists m'. split; [exact E | exact H].
Defined.

(** ** The thermistor table *)

(** Readings fall and temperatures rise along the table; no two neighbours are more
    than [i16::MAX] apart. *)
Fixpoint table_ok (cold : Z * Z) (lut : list (Z * Z)) : Prop :=
  match lut with
  | [] => True
  | hot :: lut' => 0 <= fst hot < fst cold /\ snd cold <= snd hot <= snd cold + 32767 /\ is_i16 (snd hot) /\ table_ok hot lut'
  end.

Lemma table_last (x y : Z * Z) l : List.last (y :: l) x = List.last l y.
Proof. revert x y. induction l as [|z l IH]; intros x y; [done|]. change (List.last (y :: z :: l) x) with (List.last (z :: l) x). rewrite !IH. done. Qed.
Lemma table_hottest lut : forall cold, table_ok cold lut -> fst (List.last lut cold) <= fst cold /\ snd cold <= snd (List.last lut cold).
Proof.
  induction lut as [|hot lut IH]; intros cold H; [cbn; lia|]. destruct H as (Ha & Ht & _ & H).
  rewrite table_last. destruct (IH hot H). lia.
Qed.

(** The interpolation of one segment, in exact arithmetic. *)
Definition segment (adc : Z) (cold hot : Z * Z) : Z :=
  snd cold + (snd hot - snd cold) * (fst cold - adc) / (fst cold - fst hot).

Lemma segment_range adc cold hot : fst hot < adc <= fst cold -> snd cold <= snd hot -> snd cold <= segment adc cold hot <= snd hot.
Proof.
  intros Ha Ht. unfold segment. assert (0 <= (snd hot - snd cold) * (fst cold - adc) / (fst cold - fst hot) <= snd hot - snd cold); [|lia].
  split; [apply Z.div_pos; nia|]. apply Z.div_le_upper_bound; nia.
Qed.
Lemma segment_mono adc1 adc2 cold hot : fst hot < adc1 <= adc2 -> adc2 <= fst cold -> snd cold <= snd hot -> segment adc2 cold hot <= segment adc1 cold hot.
Proof. intros Ha Hb Ht. unfold segment. apply Z.add_le_mono_l, Z.div_le_mono; nia. Qed.

(** The scan finds the segment and no intermediate overflows. *)
Lemma scan_cons adc cold hot lut :
  is_i16 (snd cold) -> 0 <= fst cold <= 65535 -> table_ok cold (hot :: lut) -> adc <= fst cold ->
  ntc_scan adc cold (hot :: lut) = if fst hot <? adc then segment adc cold hot else ntc_scan adc hot lut.
Proof.
  intros Hc Hr (Ha & Ht & Hi & _) Hle. destruct cold as [ac tc], hot as [ah th]; cbn [fst snd] in *. cbn [ntc_scan].
  rewrite (proj2 (Z.leb_le _ _)) by lia. cbn [andb]. destruct (Z.ltb_spec ah adc) as [Hlt|]; [|done].
  pose proof (segment_range adc (ac, tc) (ah, th)) as Hs. unfold segment in *; cbn [fst snd] in *. specialize (Hs ltac:(lia) ltac:(lia)).
  unfold u16. rewrite (Z.mod_small (ac - ah)), (Z.mod_small (ac - adc)) by lia. rewrite (i16_id (th - tc)), (i32_id ((th - tc) * _)) by nia.
  rewrite Z.quot_div_nonneg by nia. rewrite i32_id, i16_id by lia. done.
Qed.
Lemma scan_range lut : forall adc cold, is_i16 (snd cold) -> 0 <= fst cold <= 65535 -> table_ok cold lut -> fst (List.last lut cold) < adc <= fst cold ->
  snd cold <= ntc_scan adc cold lut <= snd (List.last lut cold).
Proof.
  induction lut as [|hot lut IH]; intros adc cold Hc Hr H Ha; [cbn in Ha; lia|].
  rewrite scan_cons by (done || lia). rewrite table_last in *. destruct H as (Hd & Ht & Hi & H). pose proof (table_hottest _ _ H) as [_ Hh].
  destruct (Z.ltb_spec (fst hot) adc); [pose proof (segment_range adc cold hot); lia|].
  specialize (IH adc hot Hi ltac:(lia) H ltac:(lia)). lia.
Qed.
Lemma scan_mono lut : forall adc1 adc2 cold, is_i16 (snd cold) -> 0 <= fst cold <= 65535 -> table_ok cold lut ->
  fst (List.last lut cold) < adc1 <= adc2 -> adc2 <= fst cold -> ntc_scan adc2 cold lut <= ntc_scan adc1 cold lut.
Proof.
  induction lut as [|hot lut IH]; intros adc1 adc2 cold Hc Hr H Ha Hb; [cbn in Ha; lia|].
  rewrite !scan_cons by (done || lia). rewrite table_last in *. destruct H as (Hd & Ht & Hi & H).
  destruct (Z.ltb_spec (fst hot) adc1), (Z.ltb_spec (fst hot) adc2); [apply segment_mono; lia | lia | | apply IH; (done || lia)].
  pose proof (segment_range adc2 cold hot ltac:(lia) ltac:(lia)). pose proof (scan_range lut adc1 hot Hi ltac:(lia) H ltac:(lia)). lia.
Qed.

(** With a table sorted from cold to hot, the thermistor conversion never reads a
    lower resistance as a lower temperature, and stays inside the table's range. *)
Theorem ntc_monotone (cold : Z * Z) (lut : list (Z * Z)) (adc1 adc2 : Z) :
  is_i16 (snd cold) -> 0 <= fst cold <= 65535 -> table_ok cold lut -> adc1 <= adc2 ->
  snd cold <= ntc_lut_to_centi_celsius adc2 (cold :: lut) <= ntc_lut_to_centi_celsius adc1 (cold :: lut)
  /\ ntc_lut_to_centi_celsius adc1 (cold :: lut) <= snd (List.last lut cold).
Proof.
  intros Hc Hr H Ha. unfold ntc_lut_to_centi_celsius. rewrite table_last. destruct (table_hottest _ _ H) as [H1 H2].
  pose proof (fun a => scan_range lut a cold Hc Hr H) as HR. pose proof (fun Ha Hb => scan_mono lut adc1 adc2 cold Hc Hr H Ha Hb) as HM.
  destruct (Z.leb_spec (fst cold) adc1), (Z.leb_spec (fst cold) adc2), (Z.leb_spec adc1 (fst (List.last lut cold))), (Z.leb_spec adc2 (fst (List.last lut cold)));
    try lia; try pose proof (HR adc1 ltac:(lia)); try pose proof (HR adc2 ltac:(lia)); try pose proof (HM ltac:(lia) ltac:(lia)); lia.
Qed.
Lemma ntc_monotone_witness :
  let lut := [(2274, 2000); (2048, 2500); (1826, 3000); (1078, 5000)] in
  0 <= ntc_lut_to_centi_celsius 2161 ((3133, 0) :: lut) <= ntc_lut_to_centi_celsius 2100 ((3133, 0) :: lut)
  /\ ntc_lut_to_centi_celsius 2161 ((3133, 0) :: lut) = 2250.
Proof.
  cbv zeta. split; [|reflexivity].
  apply (ntc_monotone (3133, 0) [(2274, 2000); (2048, 2500); (1826, 3000); (1078, 5000)] 2100 2161); vm_compute; intuition congruence.
Defined.
