(* ===== verification/CtlServo.v ===== *)
(** * The position servo core (firmware-old/open-servo-core, open-servo-control)

    The control interface and its PID implementation, the safety monitors, the three
    tick pipelines and the application shell that owns the motor.  Positions are
    centidegrees, currents milliamps, efforts the sixteen-bit motor command.
    [CURRENT_SENSE] is the cargo feature [current-sense-bus].

    The theorems: the motor is driven only while engaged and without a fault, at every
    point between two calls; the first fault is the one latched; the commanded effort
    respects the compliance cap and the cap of the mode; a bad position sensor is
    tolerated for exactly the configured number of readings; the yield window ends. *)

From stdpp Require Import list relations.
From S2P Require Import Prelude.
From S2P Require Import CtlMath.
Local Open Scope Z_scope.

Definition sat_u16 (x : Z) : Z := Z.min 65535 x.
Definition sat_u32 (x : Z) : Z := Z.min 4294967295 x.

(** ** open-servo-control: traits.rs *)

Inductive TickDomain := ControlFast | ControlMedium | System.
Record TickCtx := mkTick { tc_domain : TickDomain; tc_dt_us : Z; tc_seq : Z }.
Record EffortLimits := mkLimits { el_min : Z; el_max : Z }.
Record ControlInput := mkInput {
  ci_setpoint : Z; ci_position : Z; ci_velocity : option Z; ci_current : option Z; ci_bus_voltage : option Z; ci_limits : EffortLimits }.
Record ControlOutput := mkOutput { co_effort : Z; co_saturated : bool }.

Class ControlLoop (C : Type) := {
  cl_reset : C -> C;
  cl_fast_tick : TickCtx -> ControlInput -> C -> ControlOutput * C;
  cl_medium_tick : TickCtx -> ControlInput -> C -> C;
  cl_slow_tick : TickCtx -> ControlInput -> C -> C }.

(** What the trait documents: an output inside the limits of the tick, and the flag
    raised when it lies on one of them. *)
Class ControlLaws (C : Type) `{ControlLoop C} := {
  cl_bounded : forall ctx input c, is_i16 (el_min (ci_limits input)) -> is_i16 (el_max (ci_limits input)) -> el_min (ci_limits input) <= el_max (ci_limits input) ->
    el_min (ci_limits input) <= co_effort (fst (cl_fast_tick ctx input c)) <= el_max (ci_limits input);
  cl_saturated : forall ctx input c, is_i16 (el_min (ci_limits input)) -> is_i16 (el_max (ci_limits input)) -> el_min (ci_limits input) <= el_max (ci_limits input) ->
    co_saturated (fst (cl_fast_tick ctx input c)) = true <->
    (co_effort (fst (cl_fast_tick ctx input c)) = el_min (ci_limits input) \/ co_effort (fst (cl_fast_tick ctx input c)) = el_max (ci_limits input)) }.

(** ** open-servo-control: pid.rs *)

Record PidConfig := mkPidConfig {
  pf_kp : Z; pf_ki : Z; pf_kd : Z; pf_derivative_mode : DerivativeMode; pf_position_filter_shift : Z }.
Definition PidConfig_new : PidConfig := mkPidConfig 500 0 500 OnMeasurement 3.
Record PidController := mkPidController {
  pc_config : PidConfig; pc_pid : PidI16; pc_last_position : Z; pc_last_current : Z; pc_position_filter : Filter }.

Definition pid_of (config : PidConfig) : PidI16 :=
  PidI16_new_auto_anti_windup (to_q8_8 (pf_kp config)) (to_q8_8 (pf_ki config)) (to_q8_8 (pf_kd config)) (pf_derivative_mode config) (-32768) 32767.
Definition PidController_new (config : PidConfig) : PidController :=
  mkPidController config (pid_of config) 0 0 (Filter_new (pf_position_filter_shift config)).
Definition PidController_apply_config (c : PidController) : PidController :=
  mkPidController (pc_config c) (pid_of (pc_config c)) (pc_last_position c) (pc_last_current c)
    (if fl_alpha_shift (pc_position_filter c) =? pf_position_filter_shift (pc_config c) then pc_position_filter c
     else Filter_new (pf_position_filter_shift (pc_config c))).
Definition PidController_with_pid_config_mut (f : PidConfig -> PidConfig) (c : PidController) : PidController :=
  PidController_apply_config (mkPidController (f (pc_config c)) (pc_pid c) (pc_last_position c) (pc_last_current c) (pc_position_filter c)).
Definition PidController_reset (c : PidController) : PidController :=
  mkPidController (pc_config c) (PidI16_reset (pc_pid c)) (pc_last_position c) (pc_last_current c) (Filter_reset (pc_position_filter c)).
Definition PidController_fast_tick (input : ControlInput) (c : PidController) : ControlOutput * PidController :=
  let '(filtered, position_filter) := FilterI32_update (ci_position input) (pc_position_filter c) in
  let last_current := default (pc_last_current c) (ci_current input) in
  let lo := el_min (ci_limits input) in
  let hi := el_max (ci_limits input) in
  let '(raw_output, pid) := PidI16_step true true (ci_setpoint input) filtered (PidI16_set_output_limits_auto_anti_windup lo hi (pc_pid c)) in
  (mkOutput (clamp raw_output (-32768) 32767) ((raw_output =? lo) || (raw_output =? hi)),
   mkPidController (pc_config c) pid (clamp filtered (-32768) 32767) last_current position_filter).

#[global] Instance PidController_loop : ControlLoop PidController := {|
  cl_reset := PidController_reset;
  cl_fast_tick _ input c := PidController_fast_tick input c;
  cl_medium_tick _ _ c := c;
  cl_slow_tick _ _ c := c |}.

(** ** fault.rs *)

Inductive FaultKind := OverCurrent | McuOverTemp | MotorOverTemp | DriverOverTemp | UnderVoltage | QueuePressure | EncoderFault | Stall | PositionError.
Inductive FaultState := FaultOk | Latched (kind : FaultKind).
Definition FaultState_is_faulted (s : FaultState) : bool := match s with FaultOk => false | Latched _ => true end.
Definition FaultState_fault_kind (s : FaultState) : option FaultKind := match s with FaultOk => None | Latched kind => Some kind end.
Definition FaultState_raise (kind : FaultKind) (s : FaultState) : FaultState := match s with FaultOk => Latched kind | Latched _ => s end.
Definition FaultState_clear (s : FaultState) : FaultState := if FaultState_is_faulted s then FaultOk else s.

(** ** safety/sensor_health.rs, safety/thermal_fault.rs, safety/thresholds.rs *)

Record SensorHealth := mkHealth { sh_last_good_position : Z; sh_bad_position_count : Z; sh_initialized : bool }.
Definition SensorHealth_new : SensorHealth := mkHealth 0 0 false.
Definition SensorHealth_validate_position (reading max_delta : Z) (h : SensorHealth) : result Z Z * SensorHealth :=
  if negb (sh_initialized h) then (Ok reading, mkHealth reading 0 true)
  else
    let delta := Z.abs (reading - sh_last_good_position h) in
    if delta <=? max_delta then (Ok reading, mkHealth reading 0 true)
    else
      let bad := Z.min 255 (sh_bad_position_count h + 1) in
      (Err bad, mkHealth (sh_last_good_position h) bad true).
Definition SensorHealth_reset (h : SensorHealth) : SensorHealth := mkHealth (sh_last_good_position h) 0 false.

Record ThermalFaultDetector := mkDetector { td_max_temp_cdeg : Z; td_recovery_temp_cdeg : Z; td_is_faulted : bool }.
Definition ThermalFaultDetector_new (max_temp_cdeg hysteresis_cdeg : Z) : ThermalFaultDetector :=
  mkDetector max_temp_cdeg (i16 (max_temp_cdeg - hysteresis_cdeg)) false.
Definition ThermalFaultDetector_check_fault (temp_cdeg : Z) (d : ThermalFaultDetector) : option FaultKind * ThermalFaultDetector :=
  if negb (td_is_faulted d) then
    if td_max_temp_cdeg d <? temp_cdeg then (Some MotorOverTemp, mkDetector (td_max_temp_cdeg d) (td_recovery_temp_cdeg d) true) else (None, d)
  else if temp_cdeg <? td_recovery_temp_cdeg d then (None, mkDetector (td_max_temp_cdeg d) (td_recovery_temp_cdeg d) false)
  else (Some MotorOverTemp, d).
Definition ThermalFaultDetector_try_reset (temp_cdeg : Z) (d : ThermalFaultDetector) : bool * ThermalFaultDetector :=
  if temp_cdeg <? td_recovery_temp_cdeg d then (true, mkDetector (td_max_temp_cdeg d) (td_recovery_temp_cdeg d) false) else (false, d).

Record SafetyThresholds := mkThresholds {
  st_current_limit : Z; st_mcu_temp_limit : Z; st_position_max_delta : Z; st_sensor_fault_count : Z;
  st_position_min : Z; st_position_max : Z; st_stall_timeout_ticks : Z; st_stall_position_tolerance : Z;
  st_position_error_limit : Z; st_position_error_timeout_us : Z }.
Definition SafetyThresholds_clamp_setpoint (t : SafetyThresholds) (setpoint : Z) : Z := Z.min (Z.max setpoint (st_position_min t)) (st_position_max t).

(** ** safety/compliance_limiter.rs *)

Inductive Direction := Forward | Reverse | Stopped.
#[global] Instance Direction_eq_dec : EqDecision Direction.
Proof. solve_decision. Defined.
Record ComplianceLimiter := mkLimiter {
  lm_model : ComplianceModel; lm_blanking_us : Z; lm_blanking_remaining_us : Z; lm_last_direction : Direction; lm_compliance_limited : bool }.
Definition DEFAULT_BLANKING_US : Z := 1000.
Definition ComplianceLimiter_with_blanking_us (config : ComplianceConfig) (blanking_us : Z) : ComplianceLimiter :=
  mkLimiter (ComplianceModel_new config) blanking_us 0 Stopped false.
Definition ComplianceLimiter_new (config : ComplianceConfig) : ComplianceLimiter := ComplianceLimiter_with_blanking_us config DEFAULT_BLANKING_US.
Definition ComplianceLimiter_update (current : option Z) (pwm_direction dt_us : Z) (l : ComplianceLimiter) : ComplianceLimiter :=
  let new_direction := if 0 <? pwm_direction then Forward else if pwm_direction <? 0 then Reverse else Stopped in
  let remaining :=
    if bool_decide (new_direction <> lm_last_direction l) && bool_decide (new_direction <> Stopped) then lm_blanking_us l
    else lm_blanking_remaining_us l in
  let '(effective_current, remaining) := if 0 <? remaining then (None, Z.max 0 (remaining - dt_us)) else (current, remaining) in
  let model := ComplianceModel_update effective_current dt_us (lm_model l) in
  mkLimiter model (lm_blanking_us l) remaining new_direction (ComplianceModel_is_limited model).
Definition ComplianceLimiter_get_limits (l : ComplianceLimiter) : Z * Z := ComplianceModel_get_limits (lm_model l).
Definition ComplianceLimiter_reset (l : ComplianceLimiter) : ComplianceLimiter :=
  mkLimiter (ComplianceModel_reset (lm_model l)) (lm_blanking_us l) 0 Stopped false.
Definition ComplianceLimiter_set_config (config : ComplianceConfig) (l : ComplianceLimiter) : ComplianceLimiter :=
  mkLimiter (ComplianceModel_set_config config (lm_model l)) (lm_blanking_us l) (lm_blanking_remaining_us l) (lm_last_direction l) (lm_compliance_limited l).

(** ** accumulator.rs *)

Record MediumSnapshot := mkSnap {
  sn_velocity_dps10 : Z; sn_current_avg : option Z; sn_current_peak_abs : option Z; sn_pos_last : Z; sn_sample_count : Z; sn_window_dt_us : Z }.
Record FastAccumulator := mkAccum {
  fa_sample_count : Z; fa_pos_first : option Z; fa_pos_last : option Z; fa_current_sum_ma : Z; fa_current_count : Z; fa_current_peak_abs_ma : Z }.
Definition FastAccumulator_new : FastAccumulator := mkAccum 0 None None 0 0 0.
Definition FastAccumulator_observe (position : Z) (current : option Z) (a : FastAccumulator) : FastAccumulator :=
  let pos_first := match fa_pos_first a with None => Some position | p => p end in
  let count := sat_u16 (fa_sample_count a + 1) in
  match current with
  | None => mkAccum count pos_first (Some position) (fa_current_sum_ma a) (fa_current_count a) (fa_current_peak_abs_ma a)
  | Some ma =>
      mkAccum count pos_first (Some position) (sat32 (fa_current_sum_ma a + ma)) (sat_u16 (fa_current_count a + 1))
        (Z.max (fa_current_peak_abs_ma a) (Z.min (Z.abs ma) 32767))
  end.
(** The window's velocity in tenths of a degree per second; the window is cast to
    [i32]. *)
Definition window_velocity (pos_first pos_last window_dt_us : Z) : Z :=
  clamp (i32 (Z.quot (sat32 ((pos_last - pos_first) * 100000)) (i32 window_dt_us))) (-32768) 32767.
Definition FastAccumulator_take_snapshot (fast_dt_us : Z) (a : FastAccumulator) : option MediumSnapshot * FastAccumulator :=
  if fa_sample_count a =? 0 then (None, a)
  else
    match fa_pos_first a, fa_pos_last a with
    | Some pos_first, Some pos_last =>
        let window_dt_us := sat_u32 (fast_dt_us * fa_sample_count a) in
        if window_dt_us =? 0 then (None, FastAccumulator_new)
        else
          let counted := 0 <? fa_current_count a in
          let avg := clamp (Z.quot (fa_current_sum_ma a) (fa_current_count a)) (-32768) 32767 in
          (Some (mkSnap (window_velocity pos_first pos_last window_dt_us) (if counted then Some avg else None)
                   (if counted then Some (fa_current_peak_abs_ma a) else None) pos_last (fa_sample_count a) window_dt_us), FastAccumulator_new)
    | _, _ => (None, a)
    end.

(** ** kinematics.rs and features/limits.rs *)

Record LimitSystem := mkLimitSystem { ls_sensor : Z * Z; ls_mechanical : Z * Z; ls_user : Z * Z }.
Definition LimitSystem_validate (l : LimitSystem) : bool :=
  (fst (ls_mechanical l) <=? fst (ls_user l)) && (snd (ls_user l) <=? snd (ls_mechanical l)) && (fst (ls_user l) <? snd (ls_user l)).
Definition LimitSystem_clamp_to_user (l : LimitSystem) (angle : Z) : Z :=
  if angle <? fst (ls_user l) then fst (ls_user l) else if snd (ls_user l) <? angle then snd (ls_user l) else angle.
Definition LimitsConfig_new (sensor mechanical user : Z * Z) : option LimitSystem :=
  let system := mkLimitSystem sensor mechanical user in
  if negb (LimitSystem_validate system) then None else Some system.
Definition LimitsConfig_set_user_limits (lo hi : Z) (l : LimitSystem) : bool * LimitSystem :=
  let new_system := mkLimitSystem (ls_sensor l) (ls_mechanical l) (lo, hi) in
  if negb (LimitSystem_validate new_system) then (false, l) else (true, new_system).

Inductive AngleDomain := Bounded | Wrapping.
Record Kinematics := mkKinematics { kn_angle_domain : AngleDomain; kn_mechanical_limits : Z * Z; kn_zero_offset : Z; kn_reversed : bool }.
Definition Kinematics_apply_calibration (k : Kinematics) (angle : Z) : Z :=
  let result := if kn_reversed k then sat32 (- angle) else angle in
  sat32 (result + kn_zero_offset k).
Definition Kinematics_is_within_mechanical_limits (k : Kinematics) (angle : Z) : bool :=
  (fst (kn_mechanical_limits k) <=? angle) && (angle <=? snd (kn_mechanical_limits k)).
Definition Kinematics_clamp_to_mechanical (k : Kinematics) (angle : Z) : Z :=
  if angle <? fst (kn_mechanical_limits k) then fst (kn_mechanical_limits k)
  else if snd (kn_mechanical_limits k) <? angle then snd (kn_mechanical_limits k) else angle.

(** ** features/policy.rs, features/backdrive.rs *)

Inductive ServoMode := Move | Hold | Yield.
Record PolicyConfig := mkPolicy {
  pl_hold_enter_error : Z; pl_hold_exit_error : Z; pl_hold_enter_vel : Z; pl_hold_exit_vel : Z;
  pl_backdrive_vel_threshold : Z; pl_backdrive_deadband : Z; pl_backdrive_persist_us : Z;
  pl_yield_alive_effort_max : Z; pl_yield_coast_us : Z; pl_yield_duration_us : Z;
  pl_hold_effort_error_start : Z; pl_hold_effort_error_end : Z; pl_hold_effort_min : Z; pl_hold_effort_max : Z }.

Inductive BackdrivePhase := Coast | Alive.
Record BackdriveState := mkBackdrive { bd_elapsed_us : Z; bd_max_effort : Z; bd_needs_reset : bool }.
Definition BackdriveState_new : BackdriveState := mkBackdrive 0 0 false.
Definition update_backdrive_window (policy : PolicyConfig) (dt_us : Z) (b : BackdriveState) : BackdriveState :=
  let elapsed := Z.min (sat_u32 (bd_elapsed_us b + dt_us)) (pl_yield_duration_us policy) in
  mkBackdrive elapsed (if elapsed <? pl_yield_coast_us policy then 0 else pl_yield_alive_effort_max policy) (bd_needs_reset b).
Definition get_backdrive_phase (policy : PolicyConfig) (b : BackdriveState) : BackdrivePhase :=
  if bd_elapsed_us b <? pl_yield_coast_us policy then Coast else Alive.
Definition should_exit_backdrive (policy : PolicyConfig) (b : BackdriveState) : bool := pl_yield_duration_us policy <=? bd_elapsed_us b.
Definition on_backdrive_entry (b : BackdriveState) : BackdriveState := mkBackdrive 0 0 true.
Definition on_backdrive_exit (b : BackdriveState) : BackdriveState := BackdriveState_new.
Definition next_mode_after_backdrive : ServoMode := Hold.

(** ** features/compliance.rs *)

Record ComplianceModes := mkModes { cs_move_config : ComplianceConfig; cs_hold_config : ComplianceConfig }.
Record ComplianceState := mkComplianceState { ct_limiter : ComplianceLimiter; ct_mode : ServoMode }.
Definition ComplianceState_new (move_config : ComplianceConfig) : ComplianceState := mkComplianceState (ComplianceLimiter_new move_config) Move.
Definition update_limiter (current : option Z) (pwm_direction dt_us : Z) (s : ComplianceState) : ComplianceState :=
  mkComplianceState (ComplianceLimiter_update current pwm_direction dt_us (ct_limiter s)) (ct_mode s).
Definition get_limits (s : ComplianceState) : Z * Z := ComplianceLimiter_get_limits (ct_limiter s).
(** The ramp of the hold cap, in sixteen-bit arithmetic. *)
Definition compute_hold_effort_cap (error_abs : Z) (policy : PolicyConfig) : Z :=
  let error_start := pl_hold_effort_error_start policy in
  let error_end := pl_hold_effort_error_end policy in
  let effort_min := pl_hold_effort_min policy in
  let effort_max := pl_hold_effort_max policy in
  if error_abs <=? error_start then effort_min
  else if error_end <=? error_abs then effort_max
  else
    let range_error := i16 (error_end - error_start) in
    let range_effort := i16 (effort_max - effort_min) in
    let progress := i16 (error_abs - error_start) in
    i16 (effort_min + i16 (Z.quot (i32 (progress * range_effort)) range_error)).
Definition switch_config (new_mode : ServoMode) (config : ComplianceModes) (s : ComplianceState) : ComplianceState :=
  let limiter_config := match new_mode with Move => cs_move_config config | Hold => cs_hold_config config | Yield => cs_hold_config config end in
  mkComplianceState (ComplianceLimiter_new limiter_config) new_mode.
Definition compliance_reset (config : ComplianceModes) (s : ComplianceState) : ComplianceState :=
  mkComplianceState (ComplianceLimiter_new (cs_move_config config)) Move.

(** ** features/safety.rs *)

Record SafetyState := mkSafety { sf_sensor_health : SensorHealth; sf_stall_count : Z; sf_stall_last_pos : Z; sf_position_error_count : Z }.
Definition SafetyState_new : SafetyState := mkSafety SensorHealth_new 0 0 0.
Definition SafetyState_reset (s : SafetyState) : SafetyState := mkSafety (SensorHealth_reset (sf_sensor_health s)) 0 (sf_stall_last_pos s) 0.
Definition is_sensor_fault (t : SafetyThresholds) (s : SafetyState) : bool := st_sensor_fault_count t <=? sh_bad_position_count (sf_sensor_health s).
Definition check_position (t : SafetyThresholds) (reading : Z) (s : SafetyState) : result Z FaultKind * SafetyState :=
  let '(r, health) := SensorHealth_validate_position reading (st_position_max_delta t) (sf_sensor_health s) in
  let s' := mkSafety health (sf_stall_count s) (sf_stall_last_pos s) (sf_position_error_count s) in
  match r with
  | Ok pos => if st_sensor_fault_count t <=? sh_bad_position_count health then (Err EncoderFault, s') else (Ok pos, s')
  | Err _ => (Err EncoderFault, s')
  end.
Definition check_current (current_sense : bool) (t : SafetyThresholds) (current : option Z) : option FaultKind :=
  if current_sense then
    match current with Some c => if st_current_limit t <? abs_i16 c then Some OverCurrent else None | None => None end
  else None.
Definition check_stall (t : SafetyThresholds) (position : Z) (pwm_saturated : bool) (s : SafetyState) : option FaultKind * SafetyState :=
  let position_unchanged := Z.abs (position - sf_stall_last_pos s) <=? st_stall_position_tolerance t in
  if pwm_saturated && position_unchanged then
    let count := sat_u16 (sf_stall_count s + 1) in
    if st_stall_timeout_ticks t <=? count then
      (Some Stall, mkSafety (sf_sensor_health s) count (sf_stall_last_pos s) (sf_position_error_count s))
    else (None, mkSafety (sf_sensor_health s) count position (sf_position_error_count s))
  else (None, mkSafety (sf_sensor_health s) 0 position (sf_position_error_count s)).
Definition check_position_error (t : SafetyThresholds) (setpoint position timeout_ticks : Z) (s : SafetyState) : option FaultKind * SafetyState :=
  if st_position_error_limit t <? Z.abs (setpoint - position) then
    let count := sat_u16 (sf_position_error_count s + 1) in
    let s' := mkSafety (sf_sensor_health s) (sf_stall_count s) (sf_stall_last_pos s) count in
    (if timeout_ticks <=? count then Some PositionError else None, s')
  else (None, mkSafety (sf_sensor_health s) (sf_stall_count s) (sf_stall_last_pos s) 0).
Definition check_mcu_temperature (t : SafetyThresholds) (temp : option Z) : option FaultKind :=
  match temp with Some x => if st_mcu_temp_limit t <? x then Some McuOverTemp else None | None => None end.

(** ** features/thermal.rs *)

Record ThermalConfig := mkThermalConfig { tg_max_temp_cdeg : Z; tg_hysteresis_cdeg : Z; tg_default_ambient_cdeg : Z }.
Record ThermalState := mkThermalState { ts_model : ThermalModel; ts_fault_detector : ThermalFaultDetector; ts_last_temperature : option Z }.
Definition ThermalState_new (model : ThermalModel) (config : ThermalConfig) : ThermalState :=
  mkThermalState model (ThermalFaultDetector_new (tg_max_temp_cdeg config) (tg_hysteresis_cdeg config)) None.
Definition ThermalState_update_temperature (temp : option Z) (s : ThermalState) : ThermalState := mkThermalState (ts_model s) (ts_fault_detector s) temp.
Definition accumulate_i_squared (current : option Z) (s : ThermalState) : ThermalState :=
  mkThermalState (ThermalModel_update_fast current (ts_model s)) (ts_fault_detector s) (ts_last_temperature s).
Definition thermal_update_slow (config : ThermalConfig) (dt_us : Z) (s : ThermalState) : option ThermalState :=
  let ambient_cdeg := default (tg_default_ambient_cdeg config) (ts_last_temperature s) in
  match ThermalModel_update_slow ambient_cdeg dt_us (ts_model s) with
  | None => None
  | Some (_, model) => Some (mkThermalState model (ts_fault_detector s) (ts_last_temperature s))
  end.
Definition check_motor_temp (s : ThermalState) : option FaultKind * ThermalState :=
  let '(fault, detector) := ThermalFaultDetector_check_fault (ThermalModel_temperature_cdeg (ts_model s)) (ts_fault_detector s) in
  (fault, mkThermalState (ts_model s) detector (ts_last_temperature s)).
Definition try_reset_fault (s : ThermalState) : ThermalState :=
  mkThermalState (ts_model s) (snd (ThermalFaultDetector_try_reset (ThermalModel_temperature_cdeg (ts_model s)) (ts_fault_detector s))) (ts_last_temperature s).

(** ** servo_core/medium.rs: the trackers *)

Record SetpointTracker := mkTracker { tk_prev_setpoint : Z; tk_unchanged_us : Z; tk_initialized : bool }.
Definition SetpointTracker_new : SetpointTracker := mkTracker 0 0 false.
Definition SetpointTracker_update (setpoint dt_us settle_us : Z) (t : SetpointTracker) : bool * SetpointTracker :=
  let accumulated := sat_u32 (tk_unchanged_us t + dt_us) in
  if negb (tk_initialized t) then (settle_us <=? accumulated, mkTracker setpoint accumulated true)
  else if negb (setpoint =? tk_prev_setpoint t) then (false, mkTracker setpoint 0 true)
  else (settle_us <=? accumulated, mkTracker (tk_prev_setpoint t) accumulated true).
Definition SetpointTracker_changed_recently (recent_us : Z) (t : SetpointTracker) : bool := tk_unchanged_us t <? recent_us.

(** The hold tracker is its time. *)
Definition HoldConditionsTracker_update (conditions_met : bool) (dt_us entry_us conditions_met_us : Z) : bool * Z :=
  if conditions_met then let t := sat_u32 (conditions_met_us + dt_us) in (entry_us <=? t, t) else (false, 0).

Record BackdriveDetector := mkBdDetector { dt_prev_effort : Z; dt_prev_error : Z; dt_elapsed_us : Z }.
Definition BackdriveDetector_new : BackdriveDetector := mkBdDetector 0 0 0.
Definition BackdriveDetector_check (pwm error velocity dt_us vel_threshold deadband persist_us : Z) (d : BackdriveDetector) : bool * BackdriveDetector :=
  let pwm_sign := if deadband <? pwm then 1 else if pwm <? i16 (- deadband) then -1 else 0 in
  let error_sign := if 0 <? error then 1 else if error <? 0 then -1 else 0 in
  let signs_opposite := negb (pwm_sign =? 0) && negb (error_sign =? 0) && negb (pwm_sign =? error_sign) in
  if signs_opposite && (vel_threshold <? abs_i16 velocity) then
    let elapsed := sat_u32 (dt_elapsed_us d + dt_us) in
    if persist_us <=? elapsed then (true, mkBdDetector (dt_prev_effort d) (dt_prev_error d) elapsed)
    else (false, mkBdDetector pwm error elapsed)
  else (false, mkBdDetector pwm error 0).

(** ** servo_core/config.rs, internal.rs, runtime.rs *)

Record CoreConfig := mkConfig {
  cf_limits : LimitSystem; cf_safety : SafetyThresholds; cf_compliance : ComplianceModes; cf_thermal : ThermalConfig; cf_policy : PolicyConfig }.
Record CoreInternal := mkInternal {
  in_safety : SafetyState; in_thermal : ThermalState; in_compliance : ComplianceState; in_backdrive : BackdriveState; in_setpoint_tracker : SetpointTracker; in_hold_tracker : Z;
  in_backdrive_detector : BackdriveDetector; in_fast_accum : FastAccumulator; in_last_input : option ControlInput; in_setpoint : option Z; in_mode : ServoMode; in_measured_velocity : Z; in_fast_seq : Z }.
Definition set_safety (x : SafetyState) (i : CoreInternal) : CoreInternal :=
  mkInternal x (in_thermal i) (in_compliance i) (in_backdrive i) (in_setpoint_tracker i) (in_hold_tracker i) (in_backdrive_detector i) (in_fast_accum i) (in_last_input i) (in_setpoint i) (in_mode i) (in_measured_velocity i) (in_fast_seq i).
Definition set_thermal (x : ThermalState) (i : CoreInternal) : CoreInternal :=
  mkInternal (in_safety i) x (in_compliance i) (in_backdrive i) (in_setpoint_tracker i) (in_hold_tracker i) (in_backdrive_detector i) (in_fast_accum i) (in_last_input i) (in_setpoint i) (in_mode i) (in_measured_velocity i) (in_fast_seq i).
Definition set_compliance (x : ComplianceState) (i : CoreInternal) : CoreInternal :=
  mkInternal (in_safety i) (in_thermal i) x (in_backdrive i) (in_setpoint_tracker i) (in_hold_tracker i) (in_backdrive_detector i) (in_fast_accum i) (in_last_input i) (in_setpoint i) (in_mode i) (in_measured_velocity i) (in_fast_seq i).
Definition set_backdrive (x : BackdriveState) (i : CoreInternal) : CoreInternal :=
  mkInternal (in_safety i) (in_thermal i) (in_compliance i) x (in_setpoint_tracker i) (in_hold_tracker i) (in_backdrive_detector i) (in_fast_accum i) (in_last_input i) (in_setpoint i) (in_mode i) (in_measured_velocity i) (in_fast_seq i).
Definition set_setpoint_tracker (x : SetpointTracker) (i : CoreInternal) : CoreInternal :=
  mkInternal (in_safety i) (in_thermal i) (in_compliance i) (in_backdrive i) x (in_hold_tracker i) (in_backdrive_detector i) (in_fast_accum i) (in_last_input i) (in_setpoint i) (in_mode i) (in_measured_velocity i) (in_fast_seq i).
Definition set_hold_tracker (x : Z) (i : CoreInternal) : CoreInternal :=
  mkInternal (in_safety i) (in_thermal i) (in_compliance i) (in_backdrive i) (in_setpoint_tracker i) x (in_backdrive_detector i) (in_fast_accum i) (in_last_input i) (in_setpoint i) (in_mode i) (in_measured_velocity i) (in_fast_seq i).
Definition set_backdrive_detector (x : BackdriveDetector) (i : CoreInternal) : CoreInternal :=
  mkInternal (in_safety i) (in_thermal i) (in_compliance i) (in_backdrive i) (in_setpoint_tracker i) (in_hold_tracker i) x (in_fast_accum i) (in_last_input i) (in_setpoint i) (in_mode i) (in_measured_velocity i) (in_fast_seq i).
Definition set_fast_accum (x : FastAccumulator) (i : CoreInternal) : CoreInternal :=
  mkInternal (in_safety i) (in_thermal i) (in_compliance i) (in_backdrive i) (in_setpoint_tracker i) (in_hold_tracker i) (in_backdrive_detector i) x (in_last_input i) (in_setpoint i) (in_mode i) (in_measured_velocity i) (in_fast_seq i).
Definition set_last_input (x : option ControlInput) (i : CoreInternal) : CoreInternal :=
  mkInternal (in_safety i) (in_thermal i) (in_compliance i) (in_backdrive i) (in_setpoint_tracker i) (in_hold_tracker i) (in_backdrive_detector i) (in_fast_accum i) x (in_setpoint i) (in_mode i) (in_measured_velocity i) (in_fast_seq i).
Definition set_setpoint (x : option Z) (i : CoreInternal) : CoreInternal :=
  mkInternal (in_safety i) (in_thermal i) (in_compliance i) (in_backdrive i) (in_setpoint_tracker i) (in_hold_tracker i) (in_backdrive_detector i) (in_fast_accum i) (in_last_input i) x (in_mode i) (in_measured_velocity i) (in_fast_seq i).
Definition set_mode (x : ServoMode) (i : CoreInternal) : CoreInternal :=
  mkInternal (in_safety i) (in_thermal i) (in_compliance i) (in_backdrive i) (in_setpoint_tracker i) (in_hold_tracker i) (in_backdrive_detector i) (in_fast_accum i) (in_last_input i) (in_setpoint i) x (in_measured_velocity i) (in_fast_seq i).
Definition set_measured_velocity (x : Z) (i : CoreInternal) : CoreInternal :=
  mkInternal (in_safety i) (in_thermal i) (in_compliance i) (in_backdrive i) (in_setpoint_tracker i) (in_hold_tracker i) (in_backdrive_detector i) (in_fast_accum i) (in_last_input i) (in_setpoint i) (in_mode i) x (in_fast_seq i).
Definition set_fast_seq (x : Z) (i : CoreInternal) : CoreInternal :=
  mkInternal (in_safety i) (in_thermal i) (in_compliance i) (in_backdrive i) (in_setpoint_tracker i) (in_hold_tracker i) (in_backdrive_detector i) (in_fast_accum i) (in_last_input i) (in_setpoint i) (in_mode i) (in_measured_velocity i) x.

Definition CoreInternal_new (safety : SafetyState) (thermal : ThermalState) (move_config : ComplianceConfig) : CoreInternal :=
  mkInternal safety thermal (ComplianceState_new move_config) BackdriveState_new SetpointTracker_new 0 BackdriveDetector_new
    FastAccumulator_new None None Move 0 0.
(** The reset keeps safety, thermal, compliance, setpoint and sequence. *)
Definition CoreInternal_reset (i : CoreInternal) : CoreInternal :=
  mkInternal (in_safety i) (in_thermal i) (in_compliance i) BackdriveState_new SetpointTracker_new 0 BackdriveDetector_new
    FastAccumulator_new None (in_setpoint i) Move 0 (in_fast_seq i).

Record CoreRuntime := mkRuntime {
  rt_setpoint : Z; rt_position : Z; rt_effort : Z; rt_current : option Z; rt_bus_voltage : option Z; rt_temperature : option Z;
  rt_mode : ServoMode; rt_velocity : Z; rt_compliance_limited : bool; rt_fast_seq : Z; rt_engaged : bool }.
Definition CoreRuntime_default : CoreRuntime := mkRuntime 0 0 0 None None None Move 0 false 0 false.

(** ** inputs.rs, outputs.rs *)

Record FastInputs := mkFastInputs { fi_position : Z; fi_current : option Z; fi_bus_voltage : option Z; fi_temperature : option Z }.
Record FastOutputs := mkFastOutputs { fo_effort : Z; fo_motor_enable : bool; fo_fault : option FaultKind }.
Definition FastOutputs_normal (effort : Z) : FastOutputs := mkFastOutputs effort true None.
Definition FastOutputs_safe : FastOutputs := mkFastOutputs 0 false None.
Definition FastOutputs_fault (kind : FaultKind) : FastOutputs := mkFastOutputs 0 false (Some kind).
Definition FastOutputs_skip : FastOutputs := mkFastOutputs 0 true None.
Definition build_medium_control_input (last_input : ControlInput) (snap : MediumSnapshot) : ControlInput :=
  mkInput (ci_setpoint last_input) (sn_pos_last snap) (Some (sn_velocity_dps10 snap)) (sn_current_avg snap) (ci_bus_voltage last_input) (ci_limits last_input).

(** ** The tick pipelines *)

Section core.
  Context {C : Type} `{HC : ControlLoop C} (current_sense : bool).

(** [FastInputs::current]: nothing without the feature. *)
Definition sensed (inputs : FastInputs) : option Z := if current_sense then fi_current inputs else None.

(** *** servo_core/fast.rs *)

Record ProtectedState := mkProtected { ps_position : Z; ps_setpoint32 : Z; ps_setpoint : Z; ps_error : Z }.
Inductive ProtectResult := ProtectOk (p : ProtectedState) | ProtectFault (kind : FaultKind) | ProtectSkip | ProtectNoSetpoint.
Record FastTickResult := mkFastResult { fr_outputs : FastOutputs; fr_fault : option FaultKind }.
Definition FastTickResult_fault (kind : FaultKind) : FastTickResult := mkFastResult (FastOutputs_fault kind) (Some kind).
Definition FastTickResult_skip : FastTickResult := mkFastResult FastOutputs_skip None.
Definition FastTickResult_safe : FastTickResult := mkFastResult FastOutputs_safe None.
Definition FastTickResult_normal (outputs : FastOutputs) : FastTickResult := mkFastResult outputs None.

Definition protect_fast (config : CoreConfig) (inputs : FastInputs) (i : CoreInternal) : ProtectResult * CoreInternal :=
  let '(r, safety) := check_position (cf_safety config) (fi_position inputs) (in_safety i) in
  let i := set_safety safety i in
  match r with
  | Err _ => (if is_sensor_fault (cf_safety config) (in_safety i) then ProtectFault EncoderFault else ProtectSkip, i)
  | Ok position =>
      match check_current current_sense (cf_safety config) (sensed inputs) with
      | Some fault => (ProtectFault fault, i)
      | None =>
          match in_setpoint i with
          | None => (ProtectNoSetpoint, i)
          | Some sp32 =>
              let clamped32 := LimitSystem_clamp_to_user (cf_limits config) sp32 in
              (ProtectOk (mkProtected position clamped32 (sat16 clamped32) (sat16 (sat32 (clamped32 - position)))), set_setpoint (Some clamped32) i)
          end
      end
  end.

(** The limits of the tick: the compliance cap, narrowed by the mode. *)
Definition mode_limits (config : CoreConfig) (error : Z) (i : CoreInternal) : Z * Z :=
  let '(min_effort, max_effort) := get_limits (in_compliance i) in
  match in_mode i with
  | Move => (min_effort, max_effort)
  | Hold =>
      let effort_cap := compute_hold_effort_cap (abs_i16 error) (cf_policy config) in
      (Z.max min_effort (i16 (- effort_cap)), Z.min max_effort effort_cap)
  | Yield => (- bd_max_effort (in_backdrive i), bd_max_effort (in_backdrive i))
  end.
Definition control_fast (config : CoreConfig) (inputs : FastInputs) (protected : ProtectedState) (ctx : TickCtx) (i : CoreInternal) (controller : C) : ControlOutput * CoreInternal * C :=
  let i := set_compliance (update_limiter (sensed inputs) (ps_error protected) (tc_dt_us ctx) (in_compliance i)) i in
  let '(min_effort, max_effort) := mode_limits config (ps_error protected) i in
  let '(i, controller) :=
    match in_mode i with
    | Yield =>
        if bd_needs_reset (in_backdrive i) then
          (set_backdrive (mkBackdrive (bd_elapsed_us (in_backdrive i)) (bd_max_effort (in_backdrive i)) false) i, cl_reset controller)
        else (i, controller)
    | _ => (i, controller)
    end in
  let input := mkInput (ps_setpoint protected) (ps_position protected) (Some (in_measured_velocity i)) (sensed inputs) (fi_bus_voltage inputs)
    (mkLimits (clamp min_effort (-32768) 32767) (clamp max_effort (-32768) 32767)) in
  let i := set_last_input (Some input) i in
  let '(out, controller) := cl_fast_tick ctx input controller in
  (out, i, controller).
Definition actuate_fast (config : CoreConfig) (inputs : FastInputs) (protected : ProtectedState) (out : ControlOutput) (i : CoreInternal) (runtime : CoreRuntime)
  : FastTickResult * CoreInternal * CoreRuntime :=
  let i := set_backdrive_detector (mkBdDetector (co_effort out) (ps_error protected) (dt_elapsed_us (in_backdrive_detector i))) i in
  let '(fault, safety) := check_stall (cf_safety config) (ps_position protected) (co_saturated out) (in_safety i) in
  let i := set_safety safety i in
  match fault with
  | Some kind => (FastTickResult_fault kind, i, runtime)
  | None =>
      let runtime := mkRuntime (ps_setpoint protected) (ps_position protected) (co_effort out) (sensed inputs) (fi_bus_voltage inputs) (fi_temperature inputs)
        (in_mode i) (in_measured_velocity i) (lm_compliance_limited (ct_limiter (in_compliance i))) (in_fast_seq i) true in
      (FastTickResult_normal (FastOutputs_normal (co_effort out)), i, runtime)
  end.
(** What happens before the checks: sequence, temperature, heat and window. *)
Definition fast_intake (inputs : FastInputs) (i : CoreInternal) : CoreInternal :=
  let i := set_fast_seq (u32 (in_fast_seq i + 1)) i in
  let i := set_thermal (accumulate_i_squared (sensed inputs) (ThermalState_update_temperature (fi_temperature inputs) (in_thermal i))) i in
  set_fast_accum (FastAccumulator_observe (fi_position inputs) (sensed inputs) (in_fast_accum i)) i.
Definition run_fast_tick (config : CoreConfig) (ctx : TickCtx) (inputs : FastInputs) (i : CoreInternal) (runtime : CoreRuntime) (controller : C)
  : FastTickResult * CoreInternal * CoreRuntime * C :=
  let '(p, i) := protect_fast config inputs (fast_intake inputs i) in
  match p with
  | ProtectFault kind => (FastTickResult_fault kind, i, runtime, controller)
  | ProtectSkip => (FastTickResult_skip, i, runtime, controller)
  | ProtectNoSetpoint => (FastTickResult_safe, i, runtime, controller)
  | ProtectOk protected =>
      let '(out, i, controller) := control_fast config inputs protected ctx i controller in
      let '(result, i, runtime) := actuate_fast config inputs protected out i runtime in
      (result, i, runtime, controller)
  end.

(** *** servo_core/medium.rs *)

Definition SETPOINT_SETTLE_US : Z := 400000.
Definition HOLD_ENTRY_US : Z := 300000.
Definition SETPOINT_RECENT_CHANGE_US : Z := 10000.
Inductive PolicyDecision := NoChange | TransitionTo (mode : ServoMode).

Definition opposing (policy : PolicyConfig) (vel : Z) (d : BackdriveDetector) : bool :=
  let u := dt_prev_effort d in
  (pl_backdrive_deadband policy <? abs_i16 u) && negb (Bool.eqb (0 <? vel) (0 <? u)).
(** The stored error is compared with itself. *)
Definition check_backdrive_condition (config : CoreConfig) (velocity window_dt_us : Z) (i : CoreInternal) : bool :=
  let policy := cf_policy config in
  if abs_i16 velocity <=? pl_backdrive_vel_threshold policy then false
  else
    let d := in_backdrive_detector i in
    let error_growing := sat16 (abs_i16 (dt_prev_error d) + 10) <? abs_i16 (dt_prev_error d) in
    (opposing policy velocity d || error_growing) && (pl_backdrive_persist_us policy <=? sat_u32 (dt_elapsed_us d + window_dt_us)).
Definition hold_conditions (policy : PolicyConfig) (error_abs vel_abs : Z) : bool :=
  (error_abs <? pl_hold_enter_error policy) && (vel_abs <? pl_hold_enter_vel policy).
Definition policy_medium (config : CoreConfig) (snap : MediumSnapshot) (i : CoreInternal) : PolicyDecision :=
  let policy := cf_policy config in
  let vel_abs := abs_i16 (sn_velocity_dps10 snap) in
  match in_setpoint i with
  | None => NoChange
  | Some setpoint32 =>
      let error_abs := abs_i16 (sat16 (sat32 (setpoint32 - sn_pos_last snap))) in
      match in_mode i with
      | Move =>
          if tk_unchanged_us (in_setpoint_tracker i) <? SETPOINT_SETTLE_US then NoChange
          else if hold_conditions policy error_abs vel_abs && (HOLD_ENTRY_US <=? sat_u32 (in_hold_tracker i + sn_window_dt_us snap)) then TransitionTo Hold
          else NoChange
      | Hold =>
          let setpoint_changed := tk_unchanged_us (in_setpoint_tracker i) <? SETPOINT_RECENT_CHANGE_US in
          let error_too_large := pl_hold_exit_error policy <? error_abs in
          let velocity_too_high := pl_hold_exit_vel policy <? vel_abs in
          if setpoint_changed || error_too_large || velocity_too_high then TransitionTo Move
          else if check_backdrive_condition config (sn_velocity_dps10 snap) (sn_window_dt_us snap) i then TransitionTo Yield
          else NoChange
      | Yield => if should_exit_backdrive policy (in_backdrive i) then TransitionTo next_mode_after_backdrive else NoChange
      end
  end.
(** The trackers of the tick, in the order of the source. *)
Definition track (config : CoreConfig) (snap : MediumSnapshot) (i : CoreInternal) : CoreInternal :=
  let policy := cf_policy config in
  let window := sn_window_dt_us snap in
  let vel := sn_velocity_dps10 snap in
  let i := set_measured_velocity vel i in
  let setpoint := default 0 (sat16 <$> in_setpoint i) in
  let i := set_setpoint_tracker (snd (SetpointTracker_update setpoint window SETPOINT_SETTLE_US (in_setpoint_tracker i))) i in
  let error_abs := abs_i16 (default 0 ((fun sp32 => sat16 (sat32 (sp32 - sn_pos_last snap))) <$> in_setpoint i)) in
  match in_mode i with
  | Move =>
      let conditions := (SETPOINT_SETTLE_US <=? tk_unchanged_us (in_setpoint_tracker i)) && hold_conditions policy error_abs (abs_i16 vel) in
      set_hold_tracker (snd (HoldConditionsTracker_update conditions window HOLD_ENTRY_US (in_hold_tracker i))) i
  | Hold =>
      let d := in_backdrive_detector i in
      let error_growing := sat16 (abs_i16 (dt_prev_error d) + 10) <? error_abs in
      let elapsed := if (pl_backdrive_vel_threshold policy <? abs_i16 vel) && (opposing policy vel d || error_growing)
        then sat_u32 (dt_elapsed_us d + window) else 0 in
      set_backdrive_detector (mkBdDetector (dt_prev_effort d) (dt_prev_error d) elapsed) i
  | Yield => set_backdrive (update_backdrive_window policy window (in_backdrive i)) i
  end.
Definition apply_policy (config : CoreConfig) (snap : MediumSnapshot) (decision : PolicyDecision) (i : CoreInternal) : CoreInternal :=
  let i := track config snap i in
  match decision with
  | NoChange => i
  | TransitionTo new_mode =>
      let prev_mode := in_mode i in
      let i := set_mode new_mode i in
      match prev_mode, new_mode with
      | Move, Hold => set_compliance (switch_config new_mode (cf_compliance config) (in_compliance i)) (set_hold_tracker 0 i)
      | Hold, Move => set_compliance (switch_config new_mode (cf_compliance config) (in_compliance i)) (set_backdrive_detector BackdriveDetector_new i)
      | Hold, Yield => set_backdrive_detector BackdriveDetector_new (set_backdrive (on_backdrive_entry (in_backdrive i)) i)
      | Yield, Hold => set_backdrive (on_backdrive_exit (in_backdrive i)) i
      | _, _ => i
      end
  end.
(** The context's period is used as the period of a fast tick. *)
Definition run_medium_tick (config : CoreConfig) (ctx : TickCtx) (i : CoreInternal) (controller : C) : CoreInternal * C :=
  let '(snap, accum) := FastAccumulator_take_snapshot (tc_dt_us ctx) (in_fast_accum i) in
  let i := set_fast_accum accum i in
  match snap, in_last_input i with
  | Some snap, Some base_input =>
      let i := apply_policy config snap (policy_medium config snap i) i in
      (i, cl_medium_tick ctx (build_medium_control_input base_input snap) controller)
  | _, _ => (i, controller)
  end.

(** *** servo_core/slow.rs *)

(** [None] is the panic of the thermal model. *)
Definition run_slow_tick (config : CoreConfig) (runtime : CoreRuntime) (ctx : TickCtx) (i : CoreInternal) (controller : C) : option (option FaultKind * CoreInternal * C) :=
  match thermal_update_slow (cf_thermal config) (tc_dt_us ctx) (in_thermal i) with
  | None => None
  | Some thermal =>
      let i := set_thermal thermal i in
      match check_mcu_temperature (cf_safety config) (ts_last_temperature (in_thermal i)) with
      | Some fault => Some (Some fault, i, controller)
      | None =>
          let '(fault, thermal) := check_motor_temp (in_thermal i) in
          let i := set_thermal thermal i in
          match fault with
          | Some fault => Some (Some fault, i, controller)
          | None =>
              let timeout_ticks := if 0 <? tc_dt_us ctx then st_position_error_timeout_us (cf_safety config) / tc_dt_us ctx else 0 in
              let '(fault, safety) := check_position_error (cf_safety config) (rt_setpoint runtime) (rt_position runtime) timeout_ticks (in_safety i) in
              let i := set_safety safety i in
              match fault with
              | Some fault => Some (Some fault, i, controller)
              | None =>
                  match in_last_input i with
                  | None => Some (None, i, controller)
                  | Some base =>
                      let slow_input := mkInput (ci_setpoint base) (rt_position runtime) (Some (in_measured_velocity i)) (ci_current base) (ci_bus_voltage base) (ci_limits base) in
                      Some (None, i, cl_slow_tick ctx slow_input controller)
                  end
              end
          end
      end
  end.

(** *** servo_core/mod.rs *)

Record ServoCore := mkCore {
  sc_controller : C; sc_fault_state : FaultState; sc_config : CoreConfig; sc_internal : CoreInternal; sc_runtime : CoreRuntime; sc_motor_engaged : bool }.

(** [None] is the [expect] on the limits.  The board's safety record has the fields of
    the thresholds, which also give the user limits. *)
Definition ServoCore_new (controller : C) (thresholds : SafetyThresholds) (thermal_model : ThermalModel) (thermal : ThermalConfig)
  (sensor mechanical : Z * Z) (policy : PolicyConfig) (move_config hold_config : ComplianceConfig) : option ServoCore :=
  match LimitsConfig_new sensor mechanical (st_position_min thresholds, st_position_max thresholds) with
  | None => None
  | Some limits =>
      let config := mkConfig limits thresholds (mkModes move_config hold_config) thermal policy in
      let internal := CoreInternal_new SafetyState_new (ThermalState_new thermal_model thermal) move_config in
      Some (mkCore controller FaultOk config internal CoreRuntime_default false)
  end.
Definition ServoCore_raise_fault (kind : FaultKind) (s : ServoCore) : ServoCore :=
  mkCore (cl_reset (sc_controller s)) (FaultState_raise kind (sc_fault_state s)) (sc_config s) (CoreInternal_reset (sc_internal s)) (sc_runtime s) (sc_motor_engaged s).
Definition ServoCore_clear_fault (s : ServoCore) : ServoCore :=
  mkCore (cl_reset (sc_controller s)) (FaultState_clear (sc_fault_state s)) (sc_config s)
    (set_safety (SafetyState_reset (in_safety (sc_internal s))) (sc_internal s)) (sc_runtime s) (sc_motor_engaged s).
Definition ServoCore_fast_tick (ctx : TickCtx) (inputs : FastInputs) (s : ServoCore) : FastOutputs * ServoCore :=
  if negb (sc_motor_engaged s) || FaultState_is_faulted (sc_fault_state s) then (FastOutputs_safe, s)
  else
    let '(result, internal, runtime, controller) := run_fast_tick (sc_config s) ctx inputs (sc_internal s) (sc_runtime s) (sc_controller s) in
    let s := mkCore controller (sc_fault_state s) (sc_config s) internal runtime (sc_motor_engaged s) in
    (fr_outputs result, match fr_fault result with Some fault => ServoCore_raise_fault fault s | None => s end).
Definition ServoCore_slow_tick (ctx : TickCtx) (s : ServoCore) : option (option FaultKind * ServoCore) :=
  match run_slow_tick (sc_config s) (sc_runtime s) ctx (sc_internal s) (sc_controller s) with
  | None => None
  | Some (fault, internal, controller) =>
      let s := mkCore controller (sc_fault_state s) (sc_config s) internal (sc_runtime s) (sc_motor_engaged s) in
      Some (fault, match fault with Some fault => ServoCore_raise_fault fault s | None => s end)
  end.
Definition can_run_control_ticks (s : ServoCore) : bool := sc_motor_engaged s && negb (FaultState_is_faulted (sc_fault_state s)).
Definition ServoCore_control_medium_tick (ctx : TickCtx) (s : ServoCore) : ServoCore :=
  if negb (can_run_control_ticks s) then s
  else
    let '(internal, controller) := run_medium_tick (sc_config s) ctx (sc_internal s) (sc_controller s) in
    mkCore controller (sc_fault_state s) (sc_config s) internal (sc_runtime s) (sc_motor_engaged s).
Definition with_internal (i : CoreInternal) (s : ServoCore) : ServoCore :=
  mkCore (sc_controller s) (sc_fault_state s) (sc_config s) i (sc_runtime s) (sc_motor_engaged s).
Definition ServoCore_set_setpoint (setpoint : Z) (s : ServoCore) : ServoCore :=
  with_internal (set_setpoint (Some (LimitSystem_clamp_to_user (cf_limits (sc_config s)) setpoint)) (sc_internal s)) s.
Definition ServoCore_get_setpoint (s : ServoCore) : option Z := sat16 <$> in_setpoint (sc_internal s).
Definition ServoCore_clear_setpoint (s : ServoCore) : ServoCore := with_internal (set_setpoint None (sc_internal s)) s.
Definition ServoCore_engage (current_position : Z) (s : ServoCore) : ServoCore :=
  let i := match in_setpoint (sc_internal s) with
    | None => set_setpoint (Some (LimitSystem_clamp_to_user (cf_limits (sc_config s)) current_position)) (sc_internal s)
    | Some _ => sc_internal s
    end in
  mkCore (sc_controller s) (sc_fault_state s) (sc_config s) i (sc_runtime s) true.
Definition ServoCore_disengage (s : ServoCore) : ServoCore :=
  mkCore (cl_reset (sc_controller s)) (sc_fault_state s) (sc_config s) (CoreInternal_reset (set_setpoint None (sc_internal s))) (sc_runtime s) false.

(** *** app.rs *)

(** The motor driver as the application uses it. *)
Record MotorHw := mkHw { hw_effort : Z; hw_enable : bool }.
Definition hw_off (hw : MotorHw) : MotorHw := mkHw 0 false.

Record App := mkApp {
  ap_core : ServoCore; ap_slow_tick_counter : Z; ap_control_fast_seq : Z; ap_control_medium_seq : Z; ap_system_seq : Z; ap_last_fast_dt_us : Z }.
Definition App_new (core : ServoCore) : App := mkApp core 0 0 0 0 0.
Definition with_core (core : ServoCore) (a : App) : App :=
  mkApp core (ap_slow_tick_counter a) (ap_control_fast_seq a) (ap_control_medium_seq a) (ap_system_seq a) (ap_last_fast_dt_us a).
Definition App_on_control_tick (ctx : TickCtx) (inputs : FastInputs) (a : App) (hw : MotorHw) : App * MotorHw :=
  let '(outputs, core) := ServoCore_fast_tick ctx inputs (ap_core a) in
  (with_core core a, if fo_motor_enable outputs then mkHw (fo_effort outputs) (hw_enable hw) else hw_off hw).
Definition App_on_control_fast_tick (dt_us : Z) (inputs : FastInputs) (a : App) (hw : MotorHw) : App * MotorHw :=
  let seq := u32 (ap_control_fast_seq a + 1) in
  App_on_control_tick (mkTick ControlFast dt_us seq) inputs
    (mkApp (ap_core a) (ap_slow_tick_counter a) seq (ap_control_medium_seq a) (ap_system_seq a) dt_us) hw.
Definition App_on_control_medium_tick_dt (dt_us : Z) (a : App) : App :=
  let seq := u32 (ap_control_medium_seq a + 1) in
  mkApp (ServoCore_control_medium_tick (mkTick ControlMedium dt_us seq) (ap_core a)) (ap_slow_tick_counter a) (ap_control_fast_seq a) seq
    (ap_system_seq a) (ap_last_fast_dt_us a).
(** The slow tick event; the log lines have no effect on the state. *)
Definition App_handle_slow_tick (a : App) (hw : MotorHw) : option (App * MotorHw) :=
  let seq := u32 (ap_system_seq a + 1) in
  match ServoCore_slow_tick (mkTick System 10000 seq) (ap_core a) with
  | None => None
  | Some (fault, core) =>
      let counter := ap_slow_tick_counter a + 1 in
      Some (mkApp core (if 5 <=? counter then 0 else counter) (ap_control_fast_seq a) (ap_control_medium_seq a) seq (ap_last_fast_dt_us a),
            match fault with Some _ => hw_off hw | None => hw end)
  end.
Definition App_raise_fault (kind : FaultKind) (a : App) (hw : MotorHw) : App * MotorHw := (with_core (ServoCore_raise_fault kind (ap_core a)) a, hw_off hw).
Definition App_clear_fault (a : App) : App := with_core (ServoCore_clear_fault (ap_core a)) a.
Definition App_set_setpoint (setpoint : Z) (a : App) : App := with_core (ServoCore_set_setpoint setpoint (ap_core a)) a.
Definition App_engage_motor (position : Z) (a : App) : App := with_core (ServoCore_engage position (ap_core a)) a.
Definition App_disengage_motor (a : App) (hw : MotorHw) : App * MotorHw := (with_core (ServoCore_disengage (ap_core a)) a, hw_off hw).
Definition App_set_thresholds (t : SafetyThresholds) (a : App) : App :=
  let c := sc_config (ap_core a) in
  with_core (mkCore (sc_controller (ap_core a)) (sc_fault_state (ap_core a)) (mkConfig (cf_limits c) t (cf_compliance c) (cf_thermal c) (cf_policy c))
    (sc_internal (ap_core a)) (sc_runtime (ap_core a)) (sc_motor_engaged (ap_core a))) a.

(** ** The steps of the application *)

(** What a supervisor hears of a call. *)
Inductive SvEvent := SvEngage | SvDisengage | SvRelease | SvFault (kind : FaultKind).
Definition heard_of (fault : option FaultKind) : list SvEvent := match fault with Some kind => [SvFault kind] | None => [] end.
(** What a fast tick and a slow tick answer. *)
Definition fast_report (dt_us : Z) (inputs : FastInputs) (a : App) : option FaultKind :=
  fo_fault (fst (ServoCore_fast_tick (mkTick ControlFast dt_us (u32 (ap_control_fast_seq a + 1))) inputs (ap_core a))).
Definition slow_report (a : App) : option FaultKind :=
  match ServoCore_slow_tick (mkTick System 10000 (u32 (ap_system_seq a + 1))) (ap_core a) with Some (fault, _) => fault | None => None end.

(** Every entry point of the shell, in any order and any number, with what it reports;
    [periods] are the periods its fast tick is called with. *)
Inductive app_event (periods : Z -> Prop) : App * MotorHw -> list SvEvent -> App * MotorHw -> Prop :=
| step_fast dt_us inputs a hw : periods dt_us ->
    app_event periods (a, hw) (heard_of (fast_report dt_us inputs a)) (App_on_control_fast_tick dt_us inputs a hw)
| step_medium dt_us a hw : app_event periods (a, hw) [] (App_on_control_medium_tick_dt dt_us a, hw)
| step_slow a hw r : App_handle_slow_tick a hw = Some r -> app_event periods (a, hw) (heard_of (slow_report a)) r
| step_raise kind a hw : app_event periods (a, hw) [SvFault kind] (App_raise_fault kind a hw)
| step_clear a hw : app_event periods (a, hw) [SvRelease] (App_clear_fault a, hw)
| step_setpoint sp a hw : app_event periods (a, hw) [] (App_set_setpoint sp a, hw)
| step_engage pos a hw : app_event periods (a, hw) [SvEngage] (App_engage_motor pos a, hw)
| step_disengage a hw : app_event periods (a, hw) [SvDisengage] (App_disengage_motor a hw)
| step_thresholds t a hw : app_event periods (a, hw) [] (App_set_thresholds t a, hw).
Inductive app_run (periods : Z -> Prop) : App * MotorHw -> list SvEvent -> App * MotorHw -> Prop :=
| run_nil x : app_run periods x [] x
| run_snoc x h y ev z : app_run periods x h y -> app_event periods y ev z -> app_run periods x (h ++ ev) z.
Definition app_step (periods : Z -> Prop) (x y : App * MotorHw) : Prop := exists ev, app_event periods x ev y.

(** ** The abstract supervisor

    A motor permit and the fault that withdrew it, both read off the history: the last
    word on engagement, and the first fault since the last release. *)

Record Supervisor := mkSupervisor { sv_engaged : bool; sv_fault : option FaultKind }.
Definition faults_since (h : list SvEvent) (l : list FaultKind) : list FaultKind :=
  foldl (fun l ev => match ev with SvRelease => [] | SvFault kind => l ++ [kind] | _ => l end) l h.
Definition engaged_by (h : list SvEvent) (e : bool) : bool :=
  foldl (fun e ev => match ev with SvEngage => true | SvDisengage => false | _ => e end) e h.
Definition supervises (v : Supervisor) (h : list SvEvent) : Supervisor :=
  mkSupervisor (engaged_by h (sv_engaged v)) (head (faults_since h (option_list (sv_fault v)))).
Definition permits (v : Supervisor) : Prop := sv_engaged v = true /\ sv_fault v = None.
Definition supervisor (s : ServoCore) : Supervisor := mkSupervisor (sc_motor_engaged s) (FaultState_fault_kind (sc_fault_state s)).

(** One event at a time is enough. *)
Lemma head_faults_since h l : head (faults_since h l) = head (faults_since h (option_list (head l))).
Proof.
  revert l. induction h as [|ev h IH]; intros l; [by destruct l|]. unfold faults_since in *. cbn [foldl].
  destruct ev; try apply IH. rewrite IH. symmetry. rewrite IH. by destruct l.
Qed.
Lemma supervises_app v h ev : supervises v (h ++ ev) = supervises (supervises v h) ev.
Proof.
  unfold supervises. f_equal; cbn [sv_engaged sv_fault]; [unfold engaged_by; by rewrite foldl_app|].
  transitivity (head (faults_since ev (faults_since h (option_list (sv_fault v))))); [unfold faults_since; by rewrite foldl_app|]. apply head_faults_since.
Qed.

Lemma raise_supervises kind s : supervisor (ServoCore_raise_fault kind s) = supervises (supervisor s) [SvFault kind].
Proof. unfold supervisor, ServoCore_raise_fault; cbn. by destruct (sc_fault_state s). Qed.
Lemma supervises_nil v : supervises v [] = v.
Proof. destruct v as [e [k|]]; done. Qed.

(** A fast tick latches exactly the fault it reports, and enables the motor only when
    it keeps a permit. *)
Lemma fast_supervised ctx inputs s : let '(out, s') := ServoCore_fast_tick ctx inputs s in
  supervisor s' = supervises (supervisor s) (heard_of (fo_fault out)) /\ (fo_motor_enable out = true -> permits (supervisor s')).
Proof.
  unfold ServoCore_fast_tick. destruct (sc_motor_engaged s) eqn:He; cbn [negb orb]; [|by split; [rewrite supervises_nil|]].
  destruct (sc_fault_state s) eqn:Hf; cbn [FaultState_is_faulted]; [|by split; [rewrite supervises_nil|]].
  assert (forall c i r, supervisor (mkCore c FaultOk (sc_config s) i r true) = supervisor s) as Hk by (intros; unfold supervisor; cbn; rewrite He, Hf; done).
  assert (permits (supervisor s)) as Hp by (unfold permits, supervisor; cbn; rewrite He, Hf; done).
  destruct (run_fast_tick _ _ _ _ _ _) as [[[result i] r] c] eqn:E.
  assert (fo_fault (fr_outputs result) = fr_fault result /\ (fr_fault result = None \/ fo_motor_enable (fr_outputs result) = false)) as [Hr1 Hr].
  { revert E. unfold run_fast_tick. destruct (protect_fast _ _ _) as [[p|k| |] i0]; [|intros [= <- <- <- <-]; auto..].
    destruct (control_fast _ _ _ _ _ _) as [[o i1] c1]. unfold actuate_fast. destruct (check_stall _ _ _ _) as [[k|] sf]; intros [= <- <- <- <-]; auto. }
  cbn [fst snd]. rewrite Hr1. destruct (fr_fault result) as [kind|] eqn:Hk'; cbn [heard_of].
  - rewrite raise_supervises, Hk. split; [done|]. intros Hm. destruct Hr; congruence.
  - rewrite Hk, supervises_nil. done.
Qed.
Lemma medium_supervised ctx s : supervisor (ServoCore_control_medium_tick ctx s) = supervisor s.
Proof. unfold ServoCore_control_medium_tick. destruct (can_run_control_ticks s); [|done]. cbn [negb]. destruct (run_medium_tick _ _ _ _); done. Qed.
Lemma slow_supervised ctx s fault s' : ServoCore_slow_tick ctx s = Some (fault, s') -> supervisor s' = supervises (supervisor s) (heard_of fault).
Proof.
  unfold ServoCore_slow_tick. destruct (run_slow_tick _ _ _ _ _) as [[[f i] c]|]; [|done]. intros [= <- <-].
  set (s1 := mkCore _ _ _ _ _ _). change (supervisor s) with (supervisor s1). destruct f as [kind|]; [apply raise_supervises|by rewrite supervises_nil].
Qed.

(** The motor is driven only under a permit. *)
Definition drive_ok (x : App * MotorHw) : Prop := hw_effort (snd x) <> 0 -> permits (supervisor (ap_core (fst x))).

Lemma event_supervised periods x ev y : app_event periods x ev y -> drive_ok x ->
  drive_ok y /\ supervisor (ap_core (fst y)) = supervises (supervisor (ap_core (fst x))) ev.
Proof.
  intros H D. destruct H as [dt inputs a hw _|dt a hw|a hw r E|kind a hw|a hw|sp a hw|pos a hw|a hw|t a hw]; unfold drive_ok in *; cbn [fst snd] in *.
  - unfold App_on_control_fast_tick, App_on_control_tick, fast_report; cbn [ap_core].
    pose proof (fast_supervised (mkTick ControlFast dt (u32 (ap_control_fast_seq a + 1))) inputs (ap_core a)) as F.
    destruct (ServoCore_fast_tick _ _ _) as [out s']. destruct F as [F1 F2]. cbn [fst snd ap_core with_core].
    split; [|exact F1]. destruct (fo_motor_enable out); [by intros _; apply F2 | done].
  - unfold App_on_control_medium_tick_dt; cbn [ap_core]. rewrite medium_supervised, supervises_nil. split; [exact D | done].
  - unfold App_handle_slow_tick in E. unfold slow_report. destruct (ServoCore_slow_tick _ _) as [[fault s']|] eqn:F; [|done].
    pose proof (slow_supervised _ _ _ _ F) as F1. injection E as <-; cbn [fst snd ap_core].
    split; [|exact F1]. destruct fault; [done|]. cbn [heard_of] in F1. rewrite supervises_nil in F1. rewrite F1. exact D.
  - split; [done | apply raise_supervises].
  - unfold supervisor, App_clear_fault, ServoCore_clear_fault, permits in *; cbn in *. unfold FaultState_clear.
    split; [intros Hn; specialize (D Hn); destruct (sc_fault_state (ap_core a)); intuition done|]. by destruct (sc_fault_state (ap_core a)).
  - rewrite supervises_nil. split; [exact D | done].
  - split; [|unfold supervisor; cbn; by destruct (sc_fault_state (ap_core a))]. intros Hn. destruct (D Hn) as [_ Hf]. split; [done | exact Hf].
  - split; [done | unfold supervisor; cbn; by destruct (sc_fault_state (ap_core a))].
  - rewrite supervises_nil. split; [exact D | done].
Qed.
Lemma run_supervised periods x h y : app_run periods x h y -> drive_ok x ->
  drive_ok y /\ supervisor (ap_core (fst y)) = supervises (supervisor (ap_core (fst x))) h.
Proof.
  induction 1 as [x|x h y ev z _ IH E]; intros D; [by rewrite supervises_nil|].
  destruct (IH D) as [D1 S1]. destruct (event_supervised _ _ _ _ E D1) as [D2 S2]. split; [done|]. by rewrite supervises_app, <- S1.
Qed.

(** C38: the motor is supervised.  From a shell whose motor is idle, call the entry
    points in any order; the history lists, call by call, the engagements, the
    disengagements, the releases, and the faults raised from outside or reported by a
    fast or a slow tick.  Then the shell is where the history puts it: it is engaged as
    the last word on engagement says, and its latched fault is the first one of the
    history since the last release (the start counting as one when no fault was latched
    then), no later fault replacing it; and the motor carries a command only while it is
    engaged and no fault is latched. *)
Theorem motor_supervised (periods : Z -> Prop) (core : ServoCore) (h : list SvEvent) (a : App) (hw : MotorHw) :
  app_run periods (App_new core, mkHw 0 false) h (a, hw) ->
  sc_motor_engaged (ap_core a) = engaged_by h (sc_motor_engaged core) /\
  FaultState_fault_kind (sc_fault_state (ap_core a)) = head (faults_since h (option_list (FaultState_fault_kind (sc_fault_state core)))) /\
  (hw_effort hw <> 0 -> sc_motor_engaged (ap_core a) = true /\ sc_fault_state (ap_core a) = FaultOk).
Proof.
  intros H. destruct (run_supervised _ _ _ _ H) as [D S]; [intros Hn; done|]. cbn [fst snd App_new ap_core] in S.
  injection S as S1 S2. split; [done|]. split; [done|]. intros Hn. destruct (D Hn) as [D1 D2]. split; [done|].
  cbn in D2. by destruct (sc_fault_state (ap_core a)).
Qed.

(** The driver's enable is only ever cleared. *)
Lemma enable_stays_off periods x y : rtc (app_step periods) x y -> hw_enable (snd x) = false -> hw_enable (snd y) = false.
Proof.
  induction 1 as [x|x y z [ev H] _ IH]; intros E; [done|]. apply IH. revert E.
  destruct H as [dt inputs a hw _|dt a hw|a hw r E'|kind a hw|a hw|sp a hw|pos a hw|a hw|t a hw]; cbn [snd]; try done.
  - unfold App_on_control_fast_tick, App_on_control_tick. destruct (ServoCore_fast_tick _ _ _) as [out s']. cbn [snd]. destruct (fo_motor_enable out); done.
  - unfold App_handle_slow_tick in E'. destruct (ServoCore_slow_tick _ _) as [[[k|] s']|]; [injection E' as <-; done.. | done].
Qed.
End core.

(** ** The PID controller keeps the promise of the trait *)

Lemma pid_tick_effort input c :
  is_i16 (el_min (ci_limits input)) -> is_i16 (el_max (ci_limits input)) -> el_min (ci_limits input) <= el_max (ci_limits input) ->
  exists raw, fst (PidController_fast_tick input c) = mkOutput raw ((raw =? el_min (ci_limits input)) || (raw =? el_max (ci_limits input)))
  /\ el_min (ci_limits input) <= raw <= el_max (ci_limits input).
Proof.
  intros Hl Hh Hle. unfold PidController_fast_tick. destruct (FilterI32_update _ _) as [filtered f].
  set (p := PidI16_set_output_limits_auto_anti_windup _ _ _).
  assert (Hp : pi_out_min p = el_min (ci_limits input) /\ pi_out_max p = el_max (ci_limits input)).
  { subst p. unfold PidI16_set_output_limits_auto_anti_windup, ordered. rewrite (proj2 (Z.leb_le _ _)) by done. done. }
  pose proof (step_bounded true true (ci_setpoint input) filtered p ltac:(lia)) as B.
  destruct (PidI16_step _ _ _ _ _) as [raw p']. cbn [fst] in *. destruct Hp as [E1 E2]. rewrite E1, E2 in B.
  exists raw. rewrite clamp_in by lia. done.
Qed.
#[global] Instance PidController_laws : ControlLaws PidController.
Proof.
  split; intros ctx input c Hl Hh Hle; destruct (pid_tick_effort input c Hl Hh Hle) as (raw & E & B); cbn [cl_fast_tick PidController_loop]; rewrite E; cbn [co_effort co_saturated].
  - exact B.
  - rewrite orb_true_iff, !Z.eqb_eq. done.
Qed.

(** ** The caps on the effort *)

Section caps.
  Context {C : Type} `{HC : ControlLoop C} `{HL : !ControlLaws C} (current_sense : bool).

Record policy_ok (p : PolicyConfig) : Prop := {
  py_hold : 0 <= pl_hold_effort_min p <= pl_hold_effort_max p /\ pl_hold_effort_max p <= 32767;
  py_ramp : 0 <= pl_hold_effort_error_start p < pl_hold_effort_error_end p /\ pl_hold_effort_error_end p <= 32767;
  py_yield : 0 <= pl_yield_alive_effort_max p <= 32767 }.

(** What hold and yield allow, on unbounded integers: the ramp between the two hold
    efforts over the error, and the phases of the yield window. *)
Definition hold_ramp (p : PolicyConfig) (e : Z) : Z :=
  if e <=? pl_hold_effort_error_start p then pl_hold_effort_min p
  else if pl_hold_effort_error_end p <=? e then pl_hold_effort_max p
  else pl_hold_effort_min p + (e - pl_hold_effort_error_start p) * (pl_hold_effort_max p - pl_hold_effort_min p) / (pl_hold_effort_error_end p - pl_hold_effort_error_start p).
Definition yield_allows (p : PolicyConfig) (b : BackdriveState) : Z :=
  if bd_elapsed_us b <? pl_yield_coast_us p then 0 else pl_yield_alive_effort_max p.

Lemma hold_ramp_range e p : policy_ok p -> pl_hold_effort_min p <= hold_ramp p e <= pl_hold_effort_max p.
Proof using.
  intros [Hh Hr _]. unfold hold_ramp.
  destruct (Z.leb_spec e (pl_hold_effort_error_start p)); [lia|]. destruct (Z.leb_spec (pl_hold_effort_error_end p) e); [lia|].
  set (s := pl_hold_effort_error_start p) in *. set (d := pl_hold_effort_error_end p) in *. set (lo := pl_hold_effort_min p) in *. set (hi := pl_hold_effort_max p) in *.
  assert (0 <= (e - s) * (hi - lo) / (d - s)) by (apply Z.div_pos; nia).
  assert ((e - s) * (hi - lo) / (d - s) <= hi - lo) by (apply Z.div_le_upper_bound; nia). lia.
Qed.
(** The sixteen-bit code computes the ramp. *)
Lemma hold_cap_exact e p : policy_ok p -> 0 <= e <= 32767 -> compute_hold_effort_cap e p = hold_ramp p e.
Proof using.
  intros Hp He. pose proof (hold_ramp_range e p Hp) as Hr0. destruct Hp as [Hh Hr _]. unfold compute_hold_effort_cap, hold_ramp in *.
  destruct (Z.leb_spec e (pl_hold_effort_error_start p)); [done|]. destruct (Z.leb_spec (pl_hold_effort_error_end p) e); [done|].
  set (s := pl_hold_effort_error_start p) in *. set (d := pl_hold_effort_error_end p) in *. set (lo := pl_hold_effort_min p) in *. set (hi := pl_hold_effort_max p) in *.
  rewrite (i16_id (d - s)), (i16_id (hi - lo)), (i16_id (e - s)) by lia. rewrite (i32_id ((e - s) * (hi - lo))) by nia.
  rewrite Z.quot_div_nonneg by nia. rewrite (i16_id (_ / _)), i16_id by lia. done.
Qed.

(** What the pipelines keep of the caps. *)
Record caps_ok (config : CoreConfig) (i : CoreInternal) : Prop := {
  ck_cap : cap_ok (lm_model (ct_limiter (in_compliance i)));
  ck_yield : 0 <= bd_max_effort (in_backdrive i) <= yield_allows (cf_policy config) (in_backdrive i) /\ 0 <= pl_yield_alive_effort_max (cf_policy config);
  ck_config : cm_config (lm_model (ct_limiter (in_compliance i))) = cs_move_config (cf_compliance config)
    \/ cm_config (lm_model (ct_limiter (in_compliance i))) = cs_hold_config (cf_compliance config) }.
Definition rates_ok (config : CoreConfig) (dt_us : Z) : Prop :=
  rate_ok (cs_move_config (cf_compliance config)) dt_us /\ rate_ok (cs_hold_config (cf_compliance config)) dt_us.

(** The error of a tick that read [position], from the set point it left behind. *)
Definition tick_error (position : Z) (i : CoreInternal) : Z :=
  default 0 ((fun sp32 => sat16 (sat32 (sp32 - position))) <$> in_setpoint i).
(** The cap of a tick that read [position], from the state it left behind.  A moving
    servo has the cap the compliance limiter has reached; a holding one the smaller of
    that and the ramp at the tick's error; a yielding one what its window allows. *)
Definition effort_cap (config : CoreConfig) (position : Z) (i : CoreInternal) : Z :=
  let cap := cm_effort_cap (lm_model (ct_limiter (in_compliance i))) in
  match in_mode i with
  | Move => cap
  | Hold => Z.min cap (hold_ramp (cf_policy config) (abs_i16 (tick_error position i)))
  | Yield => yield_allows (cf_policy config) (in_backdrive i)
  end.
Lemma effort_cap_nonneg config position i : caps_ok config i -> policy_ok (cf_policy config) -> 0 <= effort_cap config position i.
Proof using.
  intros [Hc Hy _] Hp. pose proof (hold_ramp_range (abs_i16 (tick_error position i)) _ Hp). destruct Hp as [Hh _ _].
  unfold effort_cap, cap_ok, MIN_CAP in *. destruct (in_mode i); lia.
Qed.

Lemma limiter_update_caps config current dir dt i : caps_ok config i -> rates_ok config dt ->
  caps_ok config (set_compliance (update_limiter current dir dt (in_compliance i)) i).
Proof using.
  intros [Hc Hy Hg] [Hm Hh]. unfold update_limiter, ComplianceLimiter_update. destruct (if 0 <? _ then _ else _) as [cur rem].
  split; cbn; [|done|rewrite update_config; done]. apply update_cap; [|done]. destruct Hg as [-> | ->]; done.
Qed.
Lemma mode_limits_caps config position i : caps_ok config i -> policy_ok (cf_policy config) -> is_i16 (tick_error position i) ->
  let '(lo, hi) := mode_limits config (tick_error position i) i in
  let cap := effort_cap config position i in - cap <= lo /\ lo <= 0 <= hi /\ hi <= cap /\ hi <= 32767 /\ -32768 <= lo.
Proof using.
  intros [Hc Hy Hg] Hp He. unfold mode_limits, effort_cap, get_limits, ComplianceLimiter_get_limits, ComplianceModel_get_limits, cap_ok, MIN_CAP, EFFORT_MAX in *.
  destruct (in_mode i); [lia| |].
  - rewrite hold_cap_exact by (done || (unfold abs_i16; lia)). pose proof (hold_ramp_range (abs_i16 (tick_error position i)) _ Hp) as Hr. destruct Hp as [Hh _ _].
    rewrite (i16_id (- _)) by lia. lia.
  - destruct Hp as [_ _ Hya]. unfold yield_allows in *. destruct (_ <? _); lia.
Qed.
Lemma control_capped config inputs protected ctx i c : caps_ok config i -> policy_ok (cf_policy config) -> rates_ok config (tc_dt_us ctx) ->
  ps_error protected = tick_error (fi_position inputs) i -> is_i16 (ps_error protected) ->
  let '(out, i', _) := control_fast current_sense config inputs protected ctx i c in caps_ok config i' /\ Z.abs (co_effort out) <= effort_cap config (fi_position inputs) i'.
Proof using HL.
  intros Hc Hp Hr Ee He. unfold control_fast.
  pose proof (limiter_update_caps config (sensed current_sense inputs) (ps_error protected) (tc_dt_us ctx) i Hc Hr) as Hc1.
  set (i1 := set_compliance _ i) in *. change (tick_error (fi_position inputs) i) with (tick_error (fi_position inputs) i1) in Ee. clearbody i1. rewrite Ee in *.
  pose proof (mode_limits_caps config _ i1 Hc1 Hp He) as Hl. destruct (mode_limits config (tick_error (fi_position inputs) i1) i1) as [lo hi].
  set (pair := match in_mode i1 with Move => (i1, c) | Hold => (i1, c) | Yield => if bd_needs_reset (in_backdrive i1) then _ else (i1, c) end).
  assert (Hi : caps_ok config (fst pair) /\ effort_cap config (fi_position inputs) (fst pair) = effort_cap config (fi_position inputs) i1).
  { subst pair. destruct Hc1 as [Ha Hb Hd]. unfold effort_cap. destruct (in_mode i1) eqn:Em; cbn [fst]; try (rewrite ?Em; split; [constructor; done | done]).
    destruct (bd_needs_reset (in_backdrive i1)); cbn; rewrite ?Em; (split; [constructor; done | done]). }
  destruct pair as [i2 c2]; cbn [fst] in Hi. destruct Hi as [Hc2 E2]. cbv zeta in Hl. rewrite !clamp_in by lia.
  set (input := mkInput _ _ _ _ _ _). pose proof (cl_bounded ctx input c2) as B. cbn [ci_limits input el_min el_max] in B.
  destruct (cl_fast_tick ctx input c2) as [out c3]. cbn [fst] in B. specialize (B ltac:(lia) ltac:(lia) ltac:(lia)).
  split; [destruct Hc2; split; done|]. change (effort_cap config (fi_position inputs) (set_last_input (Some input) i2)) with (effort_cap config (fi_position inputs) i2). rewrite E2. lia.
Qed.

(** *** The caps hold in every reachable state *)

Definition core_caps (modes : ComplianceModes) (policy : PolicyConfig) (s : @ServoCore C) : Prop :=
  cf_compliance (sc_config s) = modes /\ cf_policy (sc_config s) = policy /\ caps_ok (sc_config s) (sc_internal s).

Lemma caps_reset config i : caps_ok config i -> caps_ok config (CoreInternal_reset i).
Proof using.
  intros [Hc Hy Hg]. split; [done| |done]. cbn. unfold yield_allows in *; cbn. destruct (0 <? _); lia.
Qed.
Lemma caps_raise modes policy kind (s : @ServoCore C) : core_caps modes policy s -> core_caps modes policy (ServoCore_raise_fault kind s).
Proof using. intros (Em & Ep & H). split; [done|]. split; [done|]. apply caps_reset, H. Qed.

Lemma check_position_reads t reading s pos s' : check_position t reading s = (Ok pos, s') -> pos = reading.
Proof using.
  unfold check_position, SensorHealth_validate_position. destruct (negb _); [|destruct (_ <=? _) in |- *];
    try destruct (_ <=? _); intros; by simplify_eq.
Qed.
Lemma protect_caps config inputs i : caps_ok config i -> let '(p, i') := protect_fast current_sense config inputs i in
  caps_ok config i' /\ forall protected, p = ProtectOk protected -> ps_error protected = tick_error (fi_position inputs) i' /\ is_i16 (ps_error protected).
Proof using.
  intros H. unfold protect_fast. destruct (check_position _ _ _) as [[pos|k] sf] eqn:Ec; cbn -[sat16 sat32].
  - apply check_position_reads in Ec as ->.
    destruct (check_current _ _ _); [by split; [destruct H; split|]|]. destruct (in_setpoint i); (split; [destruct H; split; done|]); intros pr E; [|done].
    injection E as <-. cbn [ps_error]. split; [done|]. unfold sat16. lia.
  - split; [destruct H; split; done|]. intros pr. destruct (is_sensor_fault _ _); done.
Qed.
(** One pass of the pipeline: an enabled output is under the cap of the new state. *)
Lemma fast_pipeline_caps config ctx inputs i rt c : caps_ok config i -> policy_ok (cf_policy config) -> rates_ok config (tc_dt_us ctx) ->
  let '(result, i', _, _) := run_fast_tick current_sense config ctx inputs i rt c in
  caps_ok config i' /\ Z.abs (fo_effort (fr_outputs result)) <= effort_cap config (fi_position inputs) i'.
Proof using HL.
  intros H Hp Hr. unfold run_fast_tick.
  assert (Ho : caps_ok config (fast_intake current_sense inputs i)) by (destruct H; split; done).
  pose proof (protect_caps config inputs _ Ho) as P. destruct (protect_fast _ _ _ _) as [p i1]. destruct P as [H1 He].
  pose proof (effort_cap_nonneg config (fi_position inputs) i1 H1 Hp) as Hz.
  destruct p as [protected|k| |]; [|split; done..]. destruct (He _ eq_refl) as [Ee Hi].
  pose proof (control_capped config inputs protected ctx i1 c H1 Hp Hr Ee Hi) as K. destruct (control_fast _ _ _ _ _ _ _) as [[out i2] c2]. destruct K as [H2 B].
  unfold actuate_fast. destruct (check_stall _ _ _ _) as [[k|] sf]; cbn [fr_outputs FastTickResult_fault FastTickResult_normal fo_effort FastOutputs_fault FastOutputs_normal].
  - set (i3 := set_safety _ _). assert (caps_ok config i3) as H3 by (destruct H2; split; done). split; [done|]. by apply effort_cap_nonneg.
  - split; [destruct H2; split; done | exact B].
Qed.
Lemma fast_caps modes policy ctx inputs s : core_caps modes policy s -> policy_ok policy ->
  rate_ok (cs_move_config modes) (tc_dt_us ctx) -> rate_ok (cs_hold_config modes) (tc_dt_us ctx) ->
  let '(out, s') := ServoCore_fast_tick current_sense ctx inputs s in
  core_caps modes policy s' /\ (fo_motor_enable out = true -> Z.abs (fo_effort out) <= effort_cap (sc_config s') (fi_position inputs) (sc_internal s')).
Proof using HL.
  intros (Em & Ep & H) Hp Hm Hh. unfold ServoCore_fast_tick. destruct (negb _ || _); [split; [exact (conj Em (conj Ep H)) | done] |].
  pose proof (fast_pipeline_caps (sc_config s) ctx inputs (sc_internal s) (sc_runtime s) (sc_controller s) H ltac:(by rewrite Ep) ltac:(by split; rewrite Em)) as P.
  destruct (run_fast_tick _ _ _ _ _ _ _) as [[[result i] rt] c] eqn:E. destruct P as [H' B]. cbn [fst snd].
  set (s1 := mkCore c _ _ i rt _). assert (H1 : core_caps modes policy s1) by done.
  destruct (fr_fault result) as [kind|] eqn:Ef; [|by split; [|intros _]].
  split; [apply caps_raise, H1|]. intros Hen. exfalso. revert E Ef Hen. unfold run_fast_tick. destruct (protect_fast _ _ _ _) as [[pr|k| |] i0]; [|intros [= <- <- <- <-]; done..].
  destruct (control_fast _ _ _ _ _ _ _) as [[o i1] c1]. unfold actuate_fast. destruct (check_stall _ _ _ _) as [[k|] sf]; intros [= <- <- <- <-]; done.
Qed.

(** The medium tick: a window update sets the yield cap from the policy, a change of
    mode starts a fresh limiter with one of the two configurations. *)
Lemma track_caps config snap i : caps_ok config i -> policy_ok (cf_policy config) -> caps_ok config (track config snap i).
Proof using.
  intros [Hc Hy Hg] [_ _ Hya]. unfold track. cbn [in_mode set_setpoint_tracker set_measured_velocity]. destruct (in_mode i); (split; [exact Hc | | exact Hg]); try exact Hy.
  unfold yield_allows. cbn [in_backdrive set_backdrive bd_max_effort bd_elapsed_us update_backdrive_window]. destruct (_ <? _); lia.
Qed.
Lemma policy_caps config snap d i : caps_ok config i -> policy_ok (cf_policy config) -> caps_ok config (apply_policy config snap d i).
Proof using.
  intros H Hp. unfold apply_policy. pose proof (track_caps config snap i H Hp) as [Hc Hy Hg]. set (i1 := track config snap i) in *. clearbody i1.
  assert (Hn : forall m, cap_ok (ComplianceModel_new m)) by (intros m; unfold cap_ok, MIN_CAP, EFFORT_MAX; cbn; unfold EFFORT_MAX; lia).
  assert (Hz : 0 <= 0 <= yield_allows (cf_policy config) BackdriveState_new /\ 0 <= pl_yield_alive_effort_max (cf_policy config))
    by (destruct Hy; unfold yield_allows; cbn; destruct (0 <? _); lia).
  destruct d as [|[]]; [done|..]; destruct (in_mode i1); (split; cbn; [first [exact Hc | apply Hn] | first [exact Hy | exact Hz] | first [exact Hg | by left | by right]]).
Qed.
Lemma medium_caps modes policy ctx s : core_caps modes policy s -> policy_ok policy -> core_caps modes policy (ServoCore_control_medium_tick ctx s).
Proof using.
  intros (Em & Ep & H) Hp. unfold ServoCore_control_medium_tick. destruct (negb _); [exact (conj Em (conj Ep H)) |].
  unfold run_medium_tick. destruct (FastAccumulator_take_snapshot _ _) as [[snap|] acc]; [|split; [done|]; split; [done|]; destruct H; split; done].
  assert (H1 : caps_ok (sc_config s) (set_fast_accum acc (sc_internal s))) by (destruct H; split; done).
  destruct (in_last_input _) as [base|]; [|split; [done|]; split; [done|]; exact H1]. split; [done|]. split; [done|]. apply policy_caps; [done | by rewrite Ep].
Qed.
Lemma slow_caps modes policy ctx fault s s' : core_caps modes policy s -> ServoCore_slow_tick ctx s = Some (fault, s') -> core_caps modes policy s'.
Proof using.
  intros (Em & Ep & H). unfold ServoCore_slow_tick, run_slow_tick. destruct (thermal_update_slow _ _ _) as [th|]; [|done].
  set (cont := match check_mcu_temperature _ _ with Some f => _ | None => _ end).
  assert (Hc : forall f i c, cont = Some (f, i, c) -> caps_ok (sc_config s) i).
  { intros f i c. subst cont. destruct (check_mcu_temperature _ _); [intros [= <- <- <-]; destruct H; split; done|].
    destruct (check_motor_temp _) as [[k|] th']; [intros [= <- <- <-]; destruct H; split; done|].
    destruct (check_position_error _ _ _ _ _) as [[k|] sf]; [intros [= <- <- <-]; destruct H; split; done|].
    destruct (in_last_input _); intros [= <- <- <-]; destruct H; split; done. }
  destruct cont as [[[f i] c]|]; [|done]. intros [= <- <-]. specialize (Hc _ _ _ eq_refl).
  set (s1 := mkCore _ _ _ _ _ _). assert (core_caps modes policy s1) by done. destruct f; [by apply caps_raise | done].
Qed.
Lemma step_caps modes policy periods x y : policy_ok policy ->
  (forall dt, periods dt -> rate_ok (cs_move_config modes) dt /\ rate_ok (cs_hold_config modes) dt) ->
  app_step current_sense periods x y -> core_caps modes policy (ap_core (fst x)) -> core_caps modes policy (ap_core (fst y)).
Proof using HL.
  intros Hp Hd [ev St] H. destruct St as [dt inputs a hw Hdt|dt a hw|a hw r E|kind a hw|a hw|sp a hw|pos a hw|a hw|t a hw]; cbn [fst] in *.
  - unfold App_on_control_fast_tick, App_on_control_tick; cbn [ap_core]. destruct (Hd dt Hdt) as [Hm Hh].
    pose proof (fast_caps modes policy (mkTick ControlFast dt (u32 (ap_control_fast_seq a + 1))) inputs _ H Hp Hm Hh) as F.
    destruct (ServoCore_fast_tick _ _ _ _) as [out s']. apply F.
  - apply medium_caps; done.
  - unfold App_handle_slow_tick in E. destruct (ServoCore_slow_tick _ _) as [[fault s']|] eqn:F; [|done]. injection E as <-. eapply slow_caps; done.
  - apply caps_raise, H.
  - destruct H as (Em & Ep & [Hc Hy Hg]). split; [done|]. split; [done|]. split; done.
  - destruct H as (Em & Ep & [Hc Hy Hg]). split; [done|]. split; [done|]. split; done.
  - destruct H as (Em & Ep & [Hc Hy Hg]). split; [done|]. split; [done|]. cbn. destruct (in_setpoint _); split; done.
  - destruct H as (Em & Ep & H). split; [done|]. split; [done|]. apply caps_reset. destruct H; split; done.
  - destruct H as (Em & Ep & [Hc Hy Hg]). split; [done|]. split; [done|]. split; done.
Qed.
Lemma steps_caps modes policy periods x y : policy_ok policy ->
  (forall dt, periods dt -> rate_ok (cs_move_config modes) dt /\ rate_ok (cs_hold_config modes) dt) ->
  rtc (app_step current_sense periods) x y -> core_caps modes policy (ap_core (fst x)) -> core_caps modes policy (ap_core (fst y)).
Proof using HL. intros Hp Hd. induction 1; [done|]. intros H'. eauto using step_caps. Qed.

Lemma new_caps controller thresholds model thermal sensor mechanical policy move hold (core : @ServoCore C) :
  policy_ok policy -> ServoCore_new controller thresholds model thermal sensor mechanical policy move hold = Some core -> core_caps (mkModes move hold) policy core.
Proof using.
  intros [_ _ Hy]. unfold ServoCore_new. destruct (LimitsConfig_new _ _ _); [|done]. intros [= <-]. split; [done|]. split; [done|].
  split; cbn; [unfold cap_ok, MIN_CAP; cbn; unfold EFFORT_MAX; lia | unfold yield_allows; cbn; destruct (0 <? _); lia | by left].
Qed.

(** C39: the command a fast tick leaves on the motor is capped.  Start from a shell as
    [new] builds it, whose policy has ordered, non-negative efforts and a hold ramp of
    ordered, non-negative errors, all in sixteen bits ([policy_ok]), and call its entry
    points in any order, the fast tick at periods for which the recovery product of
    both compliance configurations does not wrap ([rate_ok]).  Then after any fast tick
    the command is at most: while moving, the effort cap the compliance limiter has
    reached; while holding, the smaller of that cap and the hold ramp at the error
    between the clamped set point and the position just read; while yielding, nothing
    in the coast phase of the window and the policy's alive effort after it.  The
    controller is any that keeps the promise of its trait. *)
Theorem effort_capped (periods : Z -> Prop) (controller : C) (thresholds : SafetyThresholds) (model : ThermalModel) (thermal : ThermalConfig)
  (sensor mechanical : Z * Z) (policy : PolicyConfig) (move hold : ComplianceConfig) (core : @ServoCore C) (a : App) (hw : MotorHw) (dt_us : Z) (inputs : FastInputs) :
  ServoCore_new controller thresholds model thermal sensor mechanical policy move hold = Some core ->
  policy_ok policy -> (forall dt, periods dt -> rate_ok move dt /\ rate_ok hold dt) ->
  rtc (app_step current_sense periods) (App_new core, mkHw 0 false) (a, hw) -> periods dt_us ->
  let '(a', hw') := App_on_control_fast_tick current_sense dt_us inputs a hw in
  Z.abs (hw_effort hw') <= effort_cap (sc_config (ap_core a')) (fi_position inputs) (sc_internal (ap_core a')).
Proof using HL.
  intros E Hp Hd R Hdt. pose proof (steps_caps (mkModes move hold) policy periods _ _ Hp Hd R (new_caps _ _ _ _ _ _ _ _ _ _ Hp E)) as H. cbn [fst] in H.
  unfold App_on_control_fast_tick, App_on_control_tick; cbn [ap_core]. destruct (Hd dt_us Hdt) as [Hm Hh].
  pose proof (fast_caps (mkModes move hold) policy (mkTick ControlFast dt_us (u32 (ap_control_fast_seq a + 1))) inputs _ H Hp Hm Hh) as F.
  destruct (ServoCore_fast_tick _ _ _ _) as [out s']. destruct F as [(Em & Ep & Hc) B]. cbn [ap_core with_core].
  destruct (fo_motor_enable out); [by apply B|]. change (Z.abs (hw_effort (hw_off hw))) with 0.
  rewrite <- Ep in Hp. by apply effort_cap_nonneg.
Qed.
End caps.

(** ** The position sensor *)

Section sensor.
  Context {C : Type} `{HC : ControlLoop C} (current_sense : bool).

(** A run of fast ticks, with what each one answers. *)
Fixpoint fast_run (ticks : list (TickCtx * FastInputs)) (s : @ServoCore C) : list FastOutputs * @ServoCore C :=
  match ticks with
  | [] => ([], s)
  | (ctx, inputs) :: ticks' =>
      let '(out, s1) := ServoCore_fast_tick current_sense ctx inputs s in
      let '(outs, s2) := fast_run ticks' s1 in
      (out :: outs, s2)
  end.
(** A core that tracks the position [good] and has seen [bad] bad readings since. *)
Record tracking (good bad : Z) (t : SafetyThresholds) (s : @ServoCore C) : Prop := {
  tr_permits : sc_motor_engaged s = true /\ sc_fault_state s = FaultOk;
  tr_thresholds : cf_safety (sc_config s) = t;
  tr_health : sf_sensor_health (in_safety (sc_internal s)) = mkHealth good bad true }.
Definition glitch (good : Z) (t : SafetyThresholds) (tick : TickCtx * FastInputs) : Prop := st_position_max_delta t < Z.abs (fi_position (snd tick) - good).

Lemma glitch_tick good bad t s ctx inputs : tracking good bad t s -> 0 <= bad < 255 -> glitch good t (ctx, inputs) ->
  let '(out, s') := ServoCore_fast_tick current_sense ctx inputs s in
  if bad + 1 <? st_sensor_fault_count t then out = FastOutputs_skip /\ tracking good (bad + 1) t s'
  else out = FastOutputs_fault EncoderFault /\ sc_fault_state s' = Latched EncoderFault.
Proof using.
  intros [(He & Hf) Ht Hh] Hb Hg. unfold glitch in Hg; cbn [snd] in Hg. unfold ServoCore_fast_tick. rewrite He, Hf. cbn [negb orb FaultState_is_faulted].
  unfold run_fast_tick, protect_fast, check_position. cbn [in_safety fast_intake set_fast_accum set_thermal set_fast_seq]. rewrite Ht, Hh.
  unfold SensorHealth_validate_position; cbn [sh_initialized negb sh_last_good_position sh_bad_position_count].
  rewrite (proj2 (Z.leb_gt _ _)) by done. rewrite (Z.min_r 255) by lia.
  unfold is_sensor_fault; cbn [in_safety set_safety sf_sensor_health sh_bad_position_count].
  destruct (Z.ltb_spec (bad + 1) (st_sensor_fault_count t)).
  - rewrite (proj2 (Z.leb_gt _ _)) by lia. cbn [fst snd]. split; [done|]. split; [done | exact Ht | done].
  - rewrite (proj2 (Z.leb_le _ _)) by lia. cbn. done.
Qed.

(** C40: a position sensor that jumps by more than the configured step is tolerated
    for fewer consecutive readings than the fault count: each such tick leaves the
    motor enabled with no command; the reading that reaches the count latches the
    encoder fault and disables the motor. *)
Theorem encoder_debounced (good : Z) (t : SafetyThresholds) (s : @ServoCore C) (ticks : list (TickCtx * FastInputs)) (last : TickCtx * FastInputs) :
  tracking good 0 t s -> 1 <= st_sensor_fault_count t <= 255 -> Forall (glitch good t) ticks -> glitch good t last ->
  Z.of_nat (length ticks) = st_sensor_fault_count t - 1 ->
  let '(outs, s1) := fast_run ticks s in
  Forall (eq FastOutputs_skip) outs /\ tracking good (st_sensor_fault_count t - 1) t s1
  /\ let '(outs', s2) := fast_run [last] s1 in outs' = [FastOutputs_fault EncoderFault] /\ sc_fault_state s2 = Latched EncoderFault.
Proof using.
  intros Ht Hk Hg Hl Hn.
  assert (G : forall ticks bad s, tracking good bad t s -> 0 <= bad -> Forall (glitch good t) ticks -> bad + Z.of_nat (length ticks) < st_sensor_fault_count t ->
    let '(outs, s1) := fast_run ticks s in Forall (eq FastOutputs_skip) outs /\ tracking good (bad + Z.of_nat (length ticks)) t s1).
  { clear - Hk. induction ticks as [|[ctx inputs] ticks IH]; intros bad s Ht Hb Hg Hn.
    - cbn [fast_run length]. rewrite Z.add_0_r. split; [constructor | done].
    - inversion Hg as [|? ? Hg1 Hg2]; subst. cbn [length] in *. pose proof (glitch_tick good bad t s ctx inputs Ht ltac:(lia) Hg1) as T. cbn [fast_run].
      destruct (ServoCore_fast_tick _ _ _ _) as [out s1]. rewrite (proj2 (Z.ltb_lt _ _)) in T by lia. destruct T as [-> T].
      specialize (IH (bad + 1) s1 T ltac:(lia) Hg2 ltac:(lia)). destruct (fast_run ticks s1) as [outs s2]. destruct IH as [IH1 IH2].
      split; [by constructor|]. replace (bad + Z.of_nat (S (length ticks))) with (bad + 1 + Z.of_nat (length ticks)) by lia. done. }
  specialize (G ticks 0 s Ht ltac:(lia) Hg ltac:(lia)). destruct (fast_run ticks s) as [outs s1]. destruct G as [G1 G2]. rewrite Z.add_0_l, Hn in G2.
  split; [done|]. split; [done|]. destruct last as [ctx inputs].
  pose proof (glitch_tick good _ t s1 ctx inputs G2 ltac:(lia) Hl) as T. cbn [fast_run].
  destruct (ServoCore_fast_tick _ _ _ _) as [out s2]. rewrite (proj2 (Z.ltb_ge _ _)) in T by lia. destruct T as [-> ->]. done.
Qed.
End sensor.

(** ** The yield window *)

Definition medium_pass (config : CoreConfig) (snap : MediumSnapshot) (i : CoreInternal) : CoreInternal := apply_policy config snap (policy_medium config snap i) i.
Definition passes (config : CoreConfig) (snaps : list MediumSnapshot) (i : CoreInternal) : CoreInternal := foldl (fun i snap => medium_pass config snap i) i snaps.
Definition elapsed_by (i : CoreInternal) (snaps : list MediumSnapshot) : Z := foldr (fun snap t => sn_window_dt_us snap + t) (bd_elapsed_us (in_backdrive i)) snaps.

Lemma yield_pass config snap i : in_mode i = Yield -> is_Some (in_setpoint i) ->
  let i' := medium_pass config snap i in
  is_Some (in_setpoint i') /\
  if should_exit_backdrive (cf_policy config) (in_backdrive i) then in_mode i' = Hold
  else in_mode i' = Yield /\ bd_elapsed_us (in_backdrive i') = Z.min (sat_u32 (bd_elapsed_us (in_backdrive i) + sn_window_dt_us snap)) (pl_yield_duration_us (cf_policy config)).
Proof.
  intros Hm [sp Hs]. cbv zeta. unfold medium_pass, policy_medium. rewrite Hs, Hm.
  destruct (should_exit_backdrive (cf_policy config) (in_backdrive i)); unfold apply_policy, track;
    cbn [in_mode in_setpoint set_setpoint_tracker set_measured_velocity next_mode_after_backdrive]; rewrite Hm; cbn; rewrite ?Hm; eauto.
Qed.

(** A yield window ends: once the windows of the medium ticks add up to its
    duration, at the latest the next tick returns the servo to hold. *)
Theorem yield_ends (config : CoreConfig) (snaps : list MediumSnapshot) (last : MediumSnapshot) (i : CoreInternal) :
  in_mode i = Yield -> is_Some (in_setpoint i) -> Forall (fun snap => 0 <= sn_window_dt_us snap) snaps ->
  0 <= bd_elapsed_us (in_backdrive i) -> pl_yield_duration_us (cf_policy config) <= 4294967295 ->
  pl_yield_duration_us (cf_policy config) <= elapsed_by i snaps ->
  exists n, (1 <= n <= S (length snaps))%nat /\ in_mode (passes config (take n (snaps ++ [last])) i) = Hold.
Proof.
  intros Hm Hs Hw He Hd Ht. revert i Hm Hs He Ht. induction snaps as [|snap snaps IH]; intros i Hm Hs He Ht.
  - exists 1%nat. split; [cbn; lia|]. destruct (yield_pass config last i Hm Hs) as [_ P].
    unfold should_exit_backdrive in P. rewrite (proj2 (Z.leb_le _ _)) in P by exact Ht. exact P.
  - inversion Hw as [|? ? Hw1 Hw2]; subst. destruct (yield_pass config snap i Hm Hs) as [Hs' P].
    destruct (should_exit_backdrive (cf_policy config) (in_backdrive i)) eqn:Ex.
    + exists 1%nat. split; [cbn; lia|]. exact P.
    + destruct P as [Hm' E]. unfold should_exit_backdrive in Ex. apply Z.leb_gt in Ex.
      assert (L : forall l a b, foldr (fun snap t => sn_window_dt_us snap + t) (a + b) l = a + foldr (fun snap t => sn_window_dt_us snap + t) b l)
        by (clear; induction l as [|x l IHl]; intros a b; cbn [foldr]; [done | rewrite IHl; lia]).
      assert (P0 : 0 <= foldr (fun snap t => sn_window_dt_us snap + t) 0 snaps) by (clear - Hw2; induction Hw2; cbn [foldr]; lia).
      destruct (IH Hw2 (medium_pass config snap i) Hm' Hs') as (n & Hn & R).
      { rewrite E. unfold sat_u32. lia. }
      { unfold elapsed_by in *. cbn [foldr] in Ht. rewrite E. rewrite <- (Z.add_0_r (bd_elapsed_us _)), L in Ht. rewrite <- (Z.add_0_r (Z.min _ _)), L. unfold sat_u32. lia. }
      exists (S n). split; [cbn [length]; lia | exact R].
Qed.

(** ** open-servo-stm32f301: config.rs *)

Definition safety_config : SafetyThresholds := mkThresholds 1200 8000 500 10 0 18000 1000 10 3000 500000.
Definition hold_compliance_config : ComplianceConfig := mkComplianceConfig 150 25 3 230 3277.
Definition thermal_config : ThermalConfig := mkThermalConfig 10000 1000 2500.
Definition policy_config : PolicyConfig := mkPolicy 500 700 100 150 300 1638 500 1638 100000 200000 500 1500 6553 14746.
Definition pid_gains : Z * Z * Z := (1280, 0, 1280).

(** app.rs, [App::new_with_pid]: the controller built from the board's numbers. *)
Definition board_controller (gains : Z * Z * Z) : PidController :=
  let '(kp, ki, kd) := gains in
  PidController_new (mkPidConfig kp ki kd (pf_derivative_mode PidConfig_new) (pf_position_filter_shift PidConfig_new)).

Definition demo_config : CoreConfig :=
  mkConfig (mkLimitSystem (0, 36000) (-500, 18500) (0, 18000)) safety_config (mkModes move_compliance_config hold_compliance_config) thermal_config policy_config.
Definition demo_core : @ServoCore PidController :=
  mkCore (board_controller pid_gains) FaultOk demo_config
    (CoreInternal_new SafetyState_new (ThermalState_new (ThermalModel_new 5000 1000 1500) thermal_config) move_compliance_config) CoreRuntime_default false.
Lemma demo_new :
  ServoCore_new (board_controller pid_gains) safety_config (ThermalModel_new 5000 1000 1500) thermal_config (0, 36000) (-500, 18500) policy_config
    move_compliance_config hold_compliance_config = Some demo_core.
Proof. reflexivity. Qed.
Lemma demo_policy_ok : policy_ok policy_config.
Proof. split; cbn; lia. Qed.

(** Engaged at zero, sent to ten degrees, one tick at the board's period. *)
Definition demo_fast : Z -> Prop := eq 100.
Definition demo_inputs (position : Z) : FastInputs := mkFastInputs position (Some 300) (Some 7400) (Some 2500).
Definition demo_app : @App PidController := App_set_setpoint 1000 (App_engage_motor 0 (App_new demo_core)).
Definition demo_driven : App * MotorHw := App_on_control_fast_tick true 100 (demo_inputs 0) demo_app (mkHw 0 false).
Lemma demo_reaches : rtc (app_step true demo_fast) (App_new demo_core, mkHw 0 false) (demo_app, mkHw 0 false).
Proof. eapply rtc_l; [eexists; apply (step_engage _ _ 0)|]. eapply rtc_l; [eexists; apply (step_setpoint _ _ 1000)|]. constructor. Qed.

(** Driven, then stopped by an over-current; a stall raised afterwards does not hide it. *)
Definition demo_overcurrent : App * MotorHw := App_raise_fault OverCurrent (fst demo_driven) (snd demo_driven).
Definition demo_tripped : App * MotorHw := App_raise_fault Stall (fst demo_overcurrent) (snd demo_overcurrent).
Lemma demo_drives : app_run true demo_fast (App_new demo_core, mkHw 0 false) [SvEngage] demo_driven.
Proof.
  pose proof (run_nil true demo_fast (App_new demo_core, mkHw 0 false)) as R.
  pose proof (run_snoc _ _ _ _ _ _ _ R (step_engage true demo_fast 0 _ _)) as R1.
  pose proof (run_snoc _ _ _ _ _ _ _ R1 (step_setpoint true demo_fast 1000 _ _)) as R2.
  assert (fast_report true 100 (demo_inputs 0) demo_app = None) as E by (vm_compute; reflexivity).
  pose proof (step_fast true demo_fast 100 (demo_inputs 0) demo_app (mkHw 0 false) eq_refl) as F. rewrite E in F.
  exact (run_snoc _ _ _ _ _ _ _ R2 F).
Qed.
Lemma demo_trips : app_run true demo_fast (App_new demo_core, mkHw 0 false) [SvEngage; SvFault OverCurrent; SvFault Stall] demo_tripped.
Proof.
  pose proof demo_drives as R. rewrite (surjective_pairing demo_driven) in R.
  pose proof (run_snoc _ _ _ _ _ _ _ R (step_raise true demo_fast OverCurrent (fst demo_driven) (snd demo_driven))) as R1.
  fold demo_overcurrent in R1. rewrite (surjective_pairing demo_overcurrent) in R1.
  exact (run_snoc _ _ _ _ _ _ _ R1 (step_raise true demo_fast Stall (fst demo_overcurrent) (snd demo_overcurrent))).
Qed.

Lemma motor_supervised_witness :
  (hw_effort (snd demo_driven) = 12796 /\ sc_motor_engaged (ap_core (fst demo_driven)) = true) /\
  FaultState_fault_kind (sc_fault_state (ap_core (fst demo_tripped))) = Some OverCurrent.
Proof.
  split.
  - split; [vm_compute; reflexivity|].
    apply (motor_supervised true demo_fast demo_core [SvEngage] (fst demo_driven) (snd demo_driven)).
    + rewrite <- surjective_pairing. exact demo_drives.
    + vm_compute. congruence.
  - refine (proj1 (proj2 (motor_supervised true demo_fast demo_core [SvEngage; SvFault OverCurrent; SvFault Stall] (fst demo_tripped) (snd demo_tripped) _))).
    rewrite <- surjective_pairing. exact demo_trips.
Defined.
Lemma effort_capped_witness :
  let '(a, hw) := App_on_control_fast_tick true 100 (demo_inputs 0) demo_app (mkHw 0 false) in
  Z.abs (hw_effort hw) <= effort_cap (sc_config (ap_core a)) 0 (sc_internal (ap_core a)).
Proof.
  apply (effort_capped true demo_fast _ _ _ _ _ _ _ _ _ demo_core demo_app (mkHw 0 false) 100 (demo_inputs 0) demo_new demo_policy_ok).
  - intros dt <-. unfold rate_ok; cbn. lia.
  - exact demo_reaches.
  - reflexivity.
Defined.
Definition demo_glitch : TickCtx * FastInputs := (mkTick ControlFast 100 0, demo_inputs 3000).
Lemma encoder_debounced_witness :
  let '(outs, s1) := fast_run true (repeat demo_glitch 9) (ap_core (fst demo_driven)) in
  Forall (eq FastOutputs_skip) outs /\ tracking 0 9 safety_config s1
  /\ let '(outs', s2) := fast_run true [demo_glitch] s1 in outs' = [FastOutputs_fault EncoderFault] /\ sc_fault_state s2 = Latched EncoderFault.
Proof.
  apply (encoder_debounced true 0 safety_config (ap_core (fst demo_driven)) (repeat demo_glitch 9) demo_glitch).
  - split; [vm_compute; split; reflexivity | vm_compute; reflexivity..].
  - cbn. lia.
  - repeat constructor.
  - reflexivity.
  - reflexivity.
Defined.
Definition demo_snap : MediumSnapshot := mkSnap 0 None None 0 10 1000.
Definition demo_yielding : CoreInternal := set_mode Yield (set_setpoint (Some 1000) (sc_internal demo_core)).
Lemma yield_ends_witness :
  exists n, (1 <= n <= 201)%nat /\ in_mode (passes demo_config (take n (repeat demo_snap 200 ++ [demo_snap])) demo_yielding) = Hold.
Proof.
  apply (yield_ends demo_config (repeat demo_snap 200) demo_snap demo_yielding); try (vm_compute; congruence).
  - eexists. reflexivity.
  - apply Forall_forall. intros x Hx%repeat_spec. subst x. vm_compute. congruence.
Defined.

(** ** The tick periods

    [interrupts.rs] calls the medium tick with its own period of a millisecond, which
    the pipeline multiplies by the ten samples of the window: ten samples a tenth of a
    degree per millisecond apart read as a tenth of the speed. *)
Definition ten_samples : FastAccumulator := foldl (fun a p => FastAccumulator_observe p None a) FastAccumulator_new [0; 1; 2; 3; 4; 5; 6; 7; 8; 9].
Example medium_period_counted_twice :
  (sn_velocity_dps10 <$> fst (FastAccumulator_take_snapshot 100 ten_samples)) = Some 900
  /\ (sn_velocity_dps10 <$> fst (FastAccumulator_take_snapshot 1000 ten_samples)) = Some 90.
Proof. vm_compute. split; reflexivity. Qed.
(** The growing error never makes the backdrive check fire. *)
Lemma error_growing_never config velocity window i :
  opposing (cf_policy config) velocity (in_backdrive_detector i) = false -> check_backdrive_condition config velocity window i = false.
Proof.
  intros H. unfold check_backdrive_condition. destruct (_ <=? _); [done|]. rewrite H. cbn [orb].
  rewrite (proj2 (Z.ltb_ge _ _)); [done|]. unfold sat16, abs_i16. lia.
Qed.
(** The board states its gains in Q8.8, the shell reads them as hundredths: the loop
    runs with 12.8 where the board says 5.0. *)
Example gains_rescaled : fst (fst pid_gains) = 5 * 256 /\ pi_kp (pc_pid (board_controller pid_gains)) = 3276.
Proof. split; reflexivity. Qed.
