(* ===== verification/Registry.v ===== *)
(** * The register map of the previous generation (firmware-old/open-servo-registry,
      open-servo-macros/src/regmap.rs, open-servo-runtime/src/shadow.rs)

    Two register files, a Dynamixel-compatible one at address 0 and the vendor's at
    512, are declared as structs; the derive lays them out and emits the constants
    the kernel and the services use: addresses, field specifications, the mapping
    between the two files, and for the persistent fields two bitmaps and an index
    by name hash.  A declaration is here a list of fields and the derive a function
    of it; the hash (the crate const-fnv1a-hash) is the class [NameHash].

    The theorem: the bitmap test for a write that touches persistent bytes decides
    exactly as a search of the fields, and the keys it hands to the persist trigger
    are those of the fields written. *)

From Stdlib Require Import String Ascii.
From S2P Require Import Prelude.
From stdpp Require Import gmap.
Open Scope string_scope.
Open Scope list_scope.
Open Scope Z_scope.

(** ** Specifications (spec.rs) *)

Inductive RegAccess := AccRO | AccWO | AccRW | AccFacade | AccReserved.
#[export] Instance RegAccess_eq_dec : EqDecision RegAccess.
Proof. solve_decision. Defined.
Inductive Encoding := EncU8 | EncI16Le | EncU16Le | EncI32Le | EncU32Le | EncBool | EncEnum (names : list string) | EncReserved (n : Z).
Definition Encoding_len (e : Encoding) : Z :=
  match e with
  | EncU8 | EncBool | EncEnum _ => 1
  | EncI16Le | EncU16Le => 2
  | EncI32Le | EncU32Le => 4
  | EncReserved n => n
  end.
Definition Encoding_wire_type (e : Encoding) : string :=
  match e with
  | EncU8 => "u8" | EncI16Le => "i16" | EncU16Le => "u16" | EncI32Le => "i32" | EncU32Le => "u32"
  | EncBool => "bool" | EncEnum _ => "enum" | EncReserved _ => "-"
  end.
Definition Encoding_is_signed (e : Encoding) : bool :=
  match e with EncI16Le | EncI32Le => true | _ => false end.

Record RegSpec := mkRegSpec {
  rs_name : string; rs_address : Z; rs_encoding : Encoding; rs_access : RegAccess; rs_eeprom : bool; rs_name_hash : Z }.
Definition RegSpec_len (r : RegSpec) : Z := Encoding_len (rs_encoding r).
Definition RegSpec_is_writable (r : RegSpec) : bool :=
  match rs_access r with AccRW | AccWO => true | _ => false end.
Definition RegSpec_is_readable (r : RegSpec) : bool :=
  match rs_access r with AccRO | AccRW => true | _ => false end.
Definition RegSpec_is_reserved (r : RegSpec) : bool := bool_decide (rs_access r = AccReserved).
Definition RegSpec_is_eeprom (r : RegSpec) : bool := rs_eeprom r.

Inductive MapDirection := ToVendor | ToFacade | MapBoth.
Inductive CodecKind := CkIdentity | CkPosition.
Record MapEntry := mkMapEntry {
  me_name : string; me_dxl_addr : Z; me_dxl_len : Z; me_vendor_addr : Z; me_vendor_len : Z;
  me_direction : MapDirection; me_codec : CodecKind }.
Record IndirectBankSpec := mkBank { ib_bank : Z; ib_addr_base : Z; ib_data_base : Z; ib_slots : Z }.
Record RangeSpec := mkRange { rg_name_prefix : string; rg_base_address : Z; rg_count : Z; rg_encoding : Encoding; rg_access : RegAccess }.
Definition RangeSpec_address_of (r : RangeSpec) (index : Z) : Z := u16 (rg_base_address r + u16 (index * Encoding_len (rg_encoding r))).

(** The crate's hash of a field's name. *)
Class NameHash := fnv1a_hash_str_32 : string -> Z.

(** ** What a struct declares (regmap.rs) *)

Inductive Prim := PrU8 | PrI8 | PrBool | PrU16 | PrI16 | PrU32 | PrI32 | PrU64 | PrI64 | PrCentiC | PrCentiDeg | PrMilliVolt | PrMilliAmp | PrCentiDeg32.
#[export] Instance Prim_eq_dec : EqDecision Prim.
Proof. solve_decision. Defined.
Inductive RegTy := RtPrim (p : Prim) | RtArray (elem : RegTy) (len : nat).
Inductive IndirectKind := IkAddress | IkData.

(** The content of a [reg] attribute. *)
Record RegAttrContent := mkRegAttr {
  ra_access : option RegAccess; ra_eeprom : bool; ra_facade : option Z; ra_codec : option CodecKind; ra_codec_ctx : bool }.
Record RegAttrResult := mkRegAttrResult {
  rr_access : RegAccess; rr_eeprom : bool; rr_facade : option (Z * CodecKind); rr_codec_ctx : bool }.
(** [None]: the derive's error. *)
Definition parse_reg_attr (c : RegAttrContent) : option RegAttrResult :=
  access ← ra_access c;
  match ra_facade c, ra_codec c with
  | Some _, None | None, Some _ => None
  | Some dxl_addr, Some codec => Some (mkRegAttrResult access (ra_eeprom c) (Some (dxl_addr, codec)) (ra_codec_ctx c))
  | None, None => Some (mkRegAttrResult access (ra_eeprom c) None (ra_codec_ctx c))
  end.

Inductive FieldAttr := FaReg (c : RegAttrContent) | FaIndirect (bank : Z) (kind : IndirectKind) | FaNone.
Record RegField := mkRegField { rf_name : string; rf_ty : RegTy; rf_attr : FieldAttr }.

Definition prim_size (p : Prim) : nat :=
  match p with
  | PrU8 | PrI8 | PrBool => 1
  | PrU16 | PrI16 => 2
  | PrU32 | PrI32 => 4
  | PrU64 | PrI64 => 8
  | PrCentiC | PrCentiDeg | PrMilliVolt | PrMilliAmp => 2
  | PrCentiDeg32 => 4
  end%nat.
Fixpoint type_size (t : RegTy) : nat :=
  match t with RtPrim p => prim_size p | RtArray elem len => (type_size elem * len)%nat end.
Definition array_len (t : RegTy) : option nat :=
  match t with RtArray _ n => Some n | RtPrim _ => None end.
Definition validate_indirect_type (t : RegTy) (k : IndirectKind) : bool :=
  match t with
  | RtArray (RtPrim p) _ => bool_decide (p = match k with IkAddress => PrU16 | IkData => PrU8 end)
  | _ => false
  end.
Definition type_encoding (t : RegTy) : Encoding :=
  match t with
  | RtPrim p =>
      match p with
      | PrU8 | PrI8 => EncU8
      | PrBool => EncBool
      | PrU16 => EncU16Le
      | PrI16 => EncI16Le
      | PrU32 => EncU32Le
      | PrI32 => EncI32Le
      | PrU64 => EncU32Le
      | PrI64 => EncI32Le
      | PrCentiC | PrCentiDeg | PrMilliVolt | PrMilliAmp => EncI16Le
      | PrCentiDeg32 => EncI32Le
      end
  | RtArray _ _ => EncU8
  end.
Definition type_primitive (t : RegTy) : option Prim :=
  match t with
  | RtPrim p =>
      match p with
      | PrU8 | PrI8 | PrBool | PrU16 | PrI16 | PrU32 | PrI32 => Some p
      | PrU64 | PrI64 => None
      | PrCentiC | PrCentiDeg | PrMilliVolt | PrMilliAmp => Some PrI16
      | PrCentiDeg32 => Some PrI32
      end
  | RtArray _ _ => None
  end.

Record FieldInfo := mkFieldInfo {
  fi_name : string; fi_ty : RegTy; fi_access : RegAccess; fi_eeprom : bool; fi_size : nat;
  fi_facade : option (Z * CodecKind); fi_indirect : option (Z * IndirectKind * nat); fi_codec_ctx : bool }.

(** ** The derive (impl_regmap) *)

Definition field_info (is_vendor is_dxl : bool) (f : RegField) : option FieldInfo :=
  match rf_attr f with
  | FaIndirect bank kind =>
      if validate_indirect_type (rf_ty f) kind then
        slots ← array_len (rf_ty f);
        Some (mkFieldInfo (rf_name f) (rf_ty f) AccRW false (type_size (rf_ty f)) None (Some (bank, kind, slots)) false)
      else None
  | a =>
      r ← match a with FaReg c => parse_reg_attr c | _ => Some (mkRegAttrResult AccReserved false None false) end;
      if (bool_decide (is_Some (rr_facade r)) && negb is_vendor)
         || (bool_decide (rr_access r = AccFacade) && negb is_dxl)
         || (rr_codec_ctx r && negb is_vendor) then None
      else Some (mkFieldInfo (rf_name f) (rf_ty f) (rr_access r) (rr_eeprom r) (type_size (rf_ty f)) (rr_facade r) None (rr_codec_ctx r))
  end.

(** The fields at their addresses; [None] past sixteen bits. *)
Fixpoint place (addr : Z) (infos : list FieldInfo) : option (list (Z * FieldInfo)) :=
  match infos with
  | [] => Some []
  | i :: rest =>
      let next := addr + u16 (Z.of_nat (fi_size i)) in
      if 65535 <? next then None else ps ← place next rest; Some ((addr, i) :: ps)
  end.

(** The two sides of each indirect bank. *)
Definition Banks : Type := gmap Z (option (Z * nat) * option (Z * nat)).
Definition add_bank (m : Banks) (p : Z * FieldInfo) : Banks :=
  match fi_indirect p.2 with
  | None => m
  | Some (bank, kind, slots) =>
      let entry := default (None, None) (m !! bank) in
      <[bank := match kind with
                | IkAddress => (Some (p.1, slots), entry.2)
                | IkData => (entry.1, Some (p.1, slots))
                end]> m
  end.
Definition bank_ok (e : option (Z * nat) * option (Z * nat)) : bool :=
  match e with
  | (Some (_, a), Some (_, d)) => Nat.eqb a d
  | (Some _, None) | (None, Some _) => false
  | (None, None) => true
  end.

Section derive.
Context {H : NameHash}.

Definition RegSpec_new (name : string) (address : Z) (e : Encoding) (a : RegAccess) (eeprom : bool) : RegSpec :=
  mkRegSpec name address e a eeprom (fnv1a_hash_str_32 name).
Definition RegSpec_reserved (name : string) (address len : Z) : RegSpec :=
  mkRegSpec name address (EncReserved len) AccReserved false (fnv1a_hash_str_32 name).

Definition addr_const (p : Z * FieldInfo) : option (string * Z) :=
  if bool_decide (fi_access p.2 = AccReserved) then None else Some (fi_name p.2, p.1).
Definition reg_const (p : Z * FieldInfo) : option (string * (RegAccess * Prim * Z)) :=
  match fi_indirect p.2 with
  | Some _ => None
  | None =>
      if bool_decide (fi_access p.2 = AccReserved) then None
      else t ← type_primitive (fi_ty p.2); Some (fi_name p.2, (fi_access p.2, t, p.1))
  end.
Definition field_spec (p : Z * FieldInfo) : RegSpec :=
  let '(addr, i) := p in
  match fi_indirect i with
  | Some _ => RegSpec_new (fi_name i) addr (type_encoding (fi_ty i)) AccRW false
  | None =>
      if bool_decide (fi_access i = AccReserved) then RegSpec_reserved (fi_name i) addr (u8 (Z.of_nat (fi_size i)))
      else RegSpec_new (fi_name i) addr (type_encoding (fi_ty i)) (fi_access i) (fi_eeprom i)
  end.
(** Persisted are the writable fields marked [eeprom]. *)
Definition persisted (p : Z * FieldInfo) : bool :=
  bool_decide (fi_indirect p.2 = None) && fi_eeprom p.2 && bool_decide (fi_access p.2 = AccRW).
Definition facade_entry (p : Z * FieldInfo) : option MapEntry :=
  let '(addr, i) := p in
  '(dxl_addr, codec) ← fi_facade i;
  let size := u8 (Z.of_nat (fi_size i)) in
  Some (mkMapEntry (fi_name i) dxl_addr size addr size
          (match fi_access i with AccRO => ToFacade | _ => MapBoth end) codec).
Definition bank_spec (banks : Banks) (p : Z * FieldInfo) : option IndirectBankSpec :=
  match fi_indirect p.2 with
  | Some (bank, IkAddress, slots) =>
      match banks !! bank with
      | Some (_, Some (data_base, _)) => Some (mkBank bank p.1 data_base (u8 (Z.of_nat slots)))
      | _ => None
      end
  | _ => None
  end.

(** One byte of a persistent field, in the bitmap of its region. *)
Definition bitmap_byte (b : Z * Z) (a : Z) : option (Z * Z) :=
  if a <? 64 then Some (Z.lor b.1 (Z.shiftl 1 a), b.2)
  else if (512 <=? a) && (a <? 576) then Some (b.1, Z.lor b.2 (Z.shiftl 1 (a - 512)))
  else None.
Fixpoint bitmap_bytes (b : Z * Z) (addr : Z) (size : nat) : option (Z * Z) :=
  match size with O => Some b | S n => b ← bitmap_byte b addr; bitmap_bytes b (addr + 1) n end.
Fixpoint bitmaps (b : Z * Z) (ps : list (Z * FieldInfo)) : option (Z * Z) :=
  match ps with
  | [] => Some b
  | p :: ps' => b ← bitmap_bytes b p.1 (Z.to_nat (u8 (Z.of_nat (fi_size p.2)))); bitmaps b ps'
  end.

Record RegMapOut := mkRegMap {
  rm_addr : list (string * Z);
  rm_reg : list (string * (RegAccess * Prim * Z));
  rm_fields : list RegSpec;
  rm_eeprom : list RegSpec;
  rm_facade : list MapEntry;
  rm_banks : list IndirectBankSpec;
  rm_codec_ctx : list (string * Z * Z);
  rm_bitmaps : Z * Z }.

Definition codec_ctx_field (p : Z * FieldInfo) : option (string * Z * Z) :=
  if fi_codec_ctx p.2 then Some (fi_name p.2, p.1, Z.of_nat (fi_size p.2)) else None.

Definition impl_regmap (base : Z) (fields : list RegField) : option RegMapOut :=
  let is_vendor := 512 <=? base in
  let is_dxl := base <? 252 in
  infos ← mapM (field_info is_vendor is_dxl) fields;
  ps ← place base infos;
  let banks := foldl add_bank ∅ ps in
  if negb (forallb (fun e => bank_ok e.2) (map_to_list banks)) then None
  else
    let stored := List.filter persisted ps in
    bm ← (if is_dxl then bitmaps (0, 0) stored else Some (0, 0));
    Some (mkRegMap (omap addr_const ps) (omap reg_const ps) (field_spec <$> ps) (field_spec <$> stored)
            (if is_vendor then omap facade_entry ps else [])
            (if is_dxl then omap (bank_spec banks) ps else [])
            (if is_vendor then omap codec_ctx_field ps else []) bm).

End derive.

(** ** The two declarations (dxl.rs, vendor.rs) *)

Definition reg (a : RegAccess) (name : string) (p : Prim) : RegField :=
  mkRegField name (RtPrim p) (FaReg (mkRegAttr (Some a) false None None false)).
Definition eeprom (name : string) (p : Prim) : RegField :=
  mkRegField name (RtPrim p) (FaReg (mkRegAttr (Some AccRW) true None None false)).
Definition alias (a : RegAccess) (dxl_addr : Z) (codec : CodecKind) (name : string) (p : Prim) : RegField :=
  mkRegField name (RtPrim p) (FaReg (mkRegAttr (Some a) false (Some dxl_addr) (Some codec) false)).
Definition ctx (a : RegAccess) (name : string) (p : Prim) : RegField :=
  mkRegField name (RtPrim p) (FaReg (mkRegAttr (Some a) false None None true)).
Definition reserved (name : string) (n : nat) : RegField := mkRegField name (RtArray (RtPrim PrU8) n) FaNone.

Definition DxlRegs : list RegField := [
  reg AccRO "model_number" PrU16; reg AccRO "model_information" PrU32; reg AccRO "firmware_version" PrU8;
  eeprom "id" PrU8; eeprom "baud_rate" PrU8; eeprom "return_delay_time" PrU8; eeprom "drive_mode" PrU8;
  eeprom "operating_mode" PrU8; eeprom "secondary_id" PrU8; reg AccRO "protocol_type" PrU8;
  reserved "_reserved1" 6;
  eeprom "homing_offset" PrI32; eeprom "moving_threshold" PrU32;
  reserved "_reserved2" 3;
  eeprom "temperature_limit" PrU8; eeprom "max_voltage_limit" PrU16; eeprom "min_voltage_limit" PrU16;
  eeprom "pwm_limit" PrU16; eeprom "current_limit" PrU16;
  reserved "_reserved3" 4;
  eeprom "velocity_limit" PrU32; eeprom "max_position_limit" PrI32; eeprom "min_position_limit" PrI32;
  reserved "_reserved4" 4;
  eeprom "startup_configuration" PrU8; reserved "_reserved5" 1; eeprom "pwm_slope" PrU8; reserved "_reserved6" 1;
  reg AccFacade "torque_enable" PrBool; reg AccRW "led" PrU8; reserved "_reserved7" 2;
  reg AccRW "status_return_level" PrU8; reg AccRO "registered_instruction" PrU8; reg AccRO "hardware_error_status" PrU8;
  reserved "_reserved8" 5;
  reg AccRW "velocity_i_gain" PrU16; reg AccRW "velocity_p_gain" PrU16; reg AccRW "position_d_gain" PrU16;
  reg AccRW "position_i_gain" PrU16; reg AccRW "position_p_gain" PrU16; reserved "_reserved9" 2;
  reg AccRW "feedforward_2nd_gain" PrU16; reg AccRW "feedforward_1st_gain" PrU16;
  reserved "_reserved10" 6;
  reg AccRW "bus_watchdog" PrU8; reserved "_reserved11" 1; reg AccFacade "goal_pwm" PrI16; reg AccRW "goal_current" PrI16;
  reg AccRW "goal_velocity" PrI32; reg AccRW "profile_acceleration" PrU32; reg AccRW "profile_velocity" PrU32;
  reg AccFacade "goal_position" PrI32;
  reg AccRO "realtime_tick" PrU16; reg AccRO "moving" PrBool; reg AccRO "moving_status" PrU8; reg AccRO "present_pwm" PrI16;
  reg AccRO "present_current" PrI16; reg AccRO "present_velocity" PrI32; reg AccFacade "present_position" PrI32;
  reg AccRO "velocity_trajectory" PrI32; reg AccRO "position_trajectory" PrI32; reg AccRO "present_input_voltage" PrU16;
  reg AccRO "present_temperature" PrU8; reg AccRO "backup_ready" PrU8;
  reserved "_reserved12" 20;
  mkRegField "indirect_address_1" (RtArray (RtPrim PrU16) 28) (FaIndirect 1 IkAddress);
  mkRegField "indirect_data_1" (RtArray (RtPrim PrU8) 28) (FaIndirect 1 IkData)].

Section registry.
Context {H : NameHash}.

Definition empty_regmap : RegMapOut := mkRegMap [] [] [] [] [] [] [] (0, 0).
Definition assoc (name : string) (l : list (string * Z)) : Z :=
  default 0 (snd <$> List.find (fun e => String.eqb e.1 name) l).

(** The derive's output, evaluated. *)
Definition DXL : RegMapOut := Eval vm_compute in default empty_regmap (impl_regmap 0 DxlRegs).
(** A constant of the generated module [addr]. *)
Definition dxl_addr (name : string) : Z := assoc name (rm_addr DXL).

Definition VendorRegs : list RegField := [
  alias AccRW (dxl_addr "goal_position") CkPosition "goal_pos_cdeg" PrI32;
  alias AccRO (dxl_addr "present_position") CkPosition "present_pos_cdeg" PrI32;
  reg AccRW "goal_vel_dps10" PrI32; reg AccRO "present_temp_centic" PrI16; reg AccRO "present_voltage_mv" PrI16;
  reg AccRO "present_current_ma" PrI16; ctx AccRW "pos_min_limit_cdeg" PrI32; ctx AccRW "pos_max_limit_cdeg" PrI32;
  reg AccRO "control_flags" PrU16;
  reg AccRO "compliance_mode" PrU8; reg AccRO "compliance_limited" PrU8; reg AccRW "move_current_limit" PrU16;
  reg AccRW "hold_current_limit" PrU16; reg AccRW "compliance_hysteresis" PrU16; reg AccRW "compliance_deglitch" PrU8;
  reg AccRW "backoff_factor" PrU16; reg AccRW "recovery_rate" PrU16; reg AccRW "hold_enter_error" PrU16;
  reg AccRW "hold_exit_error" PrU16; reg AccRW "hold_enter_velocity" PrU16; reg AccRW "hold_exit_velocity" PrU16;
  reg AccRW "backdrive_velocity" PrU16;
  reg AccRO "control_loop_counter" PrU32; reg AccRO "control_output" PrI16; reg AccRO "integral_term" PrI16;
  reg AccRO "derivative_term" PrI16; reg AccRO "loop_time" PrU16; reg AccRO "fault_status" PrU8; reg AccRO "fault_count" PrU8;
  reg AccRO "fault_history" PrU32;
  alias AccRW (dxl_addr "torque_enable") CkIdentity "torque_enable" PrBool;
  ctx AccRW "operating_mode" PrU8;
  alias AccRW (dxl_addr "goal_pwm") CkIdentity "goal_pwm" PrI16;
  reg AccRO "engaged_mirror" PrBool; reg AccRO "mode_mirror" PrU8; reg AccRO "gate_reason" PrU8;
  reg AccRO "motor_temp_centic" PrI16; reg AccRO "motor_vplus_mv" PrI16; reg AccRO "motor_vminus_mv" PrI16;
  reg AccRO "motor_current_b_ma" PrI16; reg AccRO "motor_current_c_ma" PrI16; reg AccRO "motor_voltage_c_mv" PrI16;
  reg AccRO "position_raw" PrU16; reg AccRO "vrefint_raw" PrU16; reg AccRO "motor_current_a_raw" PrU16;
  reg AccRO "motor_current_b_raw" PrU16; reg AccRO "motor_current_c_raw" PrU16; reg AccRO "motor_voltage_a_raw" PrU16;
  reg AccRO "motor_voltage_b_raw" PrU16; reg AccRO "motor_voltage_c_raw" PrU16; reg AccRO "motor_temp_raw" PrU16;
  reg AccRO "ambient_temp_raw" PrU16;
  reg AccRO "sensor_caps" PrU32; reg AccRO "motor_type" PrU8; ctx AccRO "servo_pos_kind" PrU8;
  reg AccRO "servo_pos_min_cdeg" PrI16; reg AccRO "servo_pos_max_cdeg" PrI16;
  reg AccRO "persist_status" PrU8; reg AccRO "persist_gen" PrU16; reg AccRO "persist_pending" PrU8].

Definition VENDOR : RegMapOut := Eval vm_compute in default empty_regmap (impl_regmap 512 VendorRegs).
Definition vendor_addr (name : string) : Z := assoc name (rm_addr VENDOR).

Definition DXL_FIELDS : list RegSpec := rm_fields DXL.
Definition VENDOR_FIELDS : list RegSpec := rm_fields VENDOR.
Definition INDIRECT_BANKS : list IndirectBankSpec := rm_banks DXL.
Definition FACADE_MAPPINGS : list MapEntry := rm_facade VENDOR.
Definition EEPROM_FIELDS : list RegSpec := rm_eeprom DXL.
Definition EEPROM_COUNT : nat := length EEPROM_FIELDS.
Definition EEPROM_BITMAP_DXL : Z := (rm_bitmaps DXL).1.
Definition EEPROM_BITMAP_VENDOR : Z := (rm_bitmaps DXL).2.

(** ** Lookup (lib.rs, dxl.rs, vendor.rs) *)

Definition ascii_lower (c : Z) : Z := if (65 <=? c) && (c <=? 90) then c + 32 else c.
Definition name_bytes (s : string) : list Z := (fun a => Z.of_N (N_of_ascii a)) <$> list_ascii_of_string s.
Definition starts_with_ignore_case (haystack needle : string) : bool :=
  let h := name_bytes haystack in
  let n := name_bytes needle in
  if Nat.ltb (length h) (length n) then false
  else forallb (fun p => ascii_lower p.1 =? ascii_lower p.2) (zip h n).
Definition find_in (fields : list RegSpec) (name : string) : option RegSpec :=
  List.find (fun f => starts_with_ignore_case (rs_name f) name) fields.
Definition find (name : string) : option RegSpec :=
  match find_in DXL_FIELDS name with Some f => Some f | None => find_in VENDOR_FIELDS name end.
Definition find_by_address (address : Z) : option RegSpec :=
  match List.find (fun f => rs_address f =? address) VENDOR_FIELDS with
  | Some f => Some f
  | None => List.find (fun f => rs_address f =? address) DXL_FIELDS
  end.
Definition all_fields : list RegSpec := DXL_FIELDS ++ VENDOR_FIELDS.
Definition eeprom_fields : list RegSpec := List.filter RegSpec_is_eeprom all_fields.

(** ** Persistent ranges (lib.rs) *)

Definition EEPROM_BITMAP_WIDTH : Z := 64.
Definition DXL_EEPROM_END : Z := 64.
Definition VENDOR_EEPROM_START : Z := 512.
Definition VENDOR_EEPROM_END : Z := VENDOR_EEPROM_START + EEPROM_BITMAP_WIDTH.
Definition ones64 : Z := 18446744073709551615.
Definition range_mask (start end_ : Z) : Z :=
  if EEPROM_BITMAP_WIDTH <=? end_ then Z.land (Z.shiftl ones64 start) ones64
  else if end_ <=? start then 0
  else Z.land (Z.shiftl 1 end_ - 1) (Z.lxor ones64 (Z.shiftl 1 start - 1)).
Definition touches_eeprom (offset len : Z) : bool :=
  let end_ := saturating_add16 offset len in
  if (offset <? DXL_EEPROM_END)
     && negb (Z.land EEPROM_BITMAP_DXL (range_mask offset (Z.min end_ DXL_EEPROM_END)) =? 0) then true
  else
    (VENDOR_EEPROM_START <? end_) && (offset <? VENDOR_EEPROM_END)
    && negb (Z.land EEPROM_BITMAP_VENDOR
               (range_mask (saturating_sub offset VENDOR_EEPROM_START)
                  (Z.min (saturating_sub end_ VENDOR_EEPROM_START) EEPROM_BITMAP_WIDTH)) =? 0).

(** ** The index by hash (regmap.rs, lib.rs) *)

(** [heapless::FnvIndexMap]: an insertion into a full map is refused. *)
Definition index_insert (cap : nat) (m : gmap Z nat) (e : Z * nat) : gmap Z nat :=
  match m !! e.1 with
  | Some _ => <[e.1 := e.2]> m
  | None => if Nat.ltb (size m) cap then <[e.1 := e.2]> m else m
  end.
Definition EEPROM_CAPACITY : nat := Nat.pow 2 (Nat.log2_up EEPROM_COUNT).
Definition build_eeprom_hash_map : gmap Z nat :=
  foldl (index_insert EEPROM_CAPACITY) ∅ (zip (rs_name_hash <$> EEPROM_FIELDS) (seq 0 EEPROM_COUNT)).
(** The static map: built once. *)
Definition registry_init (st : option (gmap Z nat)) : option (gmap Z nat) :=
  match st with Some m => Some m | None => Some build_eeprom_hash_map end.
Definition eeprom_idx_by_hash (st : option (gmap Z nat)) (hash : Z) : option nat := m ← st; m !! hash.

(** ** Policies (policy.rs) and the persist trigger (runtime/src/shadow.rs) *)

Definition ServoAccessPolicy_can_read (addr : Z) (len : nat) : bool := true.
Definition ServoAccessPolicy_can_write (addr : Z) (len : nat) : bool := true.
Definition push_persist_keys_for_range (addr : Z) (len : Z) : bool * list Z :=
  if negb (touches_eeprom addr (u16 len)) then (false, [])
  else
    let end_ := saturating_add16 addr (u16 len) in
    let hit f := (addr <? saturating_add16 (rs_address f) (RegSpec_len f)) && (rs_address f <? end_) in
    let keys := rs_name_hash <$> List.filter hit EEPROM_FIELDS in
    (match keys with [] => false | _ => true end, keys).

End registry.

Record ServoPersistTrigger := mkTrigger { pt_signals : nat; pt_pending : list Z }.
Definition PENDING_CAP : nat := 8.
Definition trigger_push_key (t : ServoPersistTrigger) (key : Z) : ServoPersistTrigger :=
  if bool_decide (key ∈ pt_pending t) || negb (Nat.ltb (length (pt_pending t)) PENDING_CAP) then t
  else mkTrigger (pt_signals t) (pt_pending t ++ [key]).
Definition trigger_request_persist (t : ServoPersistTrigger) : ServoPersistTrigger :=
  match pt_pending t with [] => t | _ => mkTrigger (S (pt_signals t)) [] end.

(** Both declarations pass the derive's checks. *)
Lemma maps_derive `{NameHash} : impl_regmap 0 DxlRegs = Some DXL /\ impl_regmap 512 VendorRegs = Some VENDOR.
Proof. split; vm_compute; reflexivity. Qed.

(** ** The bitmap test is exact *)

(** A field and the range [addr, end_) share a byte. *)
Definition shares (addr end_ : Z) (f : RegSpec) : bool :=
  Z.max addr (rs_address f) <? Z.min end_ (rs_address f + RegSpec_len f).

Section exact.
Context {H : NameHash}.

Definition span (lo : nat) (n : nat) : list nat := seq lo n.
(** Every range inside the first region, by evaluation. *)
Lemma dxl_table :
  forallb (fun o => forallb (fun k =>
    Bool.eqb (negb (Z.land EEPROM_BITMAP_DXL (range_mask (Z.of_nat o) (Z.of_nat (o + k))) =? 0))
      (existsb (shares (Z.of_nat o) (Z.of_nat (o + k))) EEPROM_FIELDS)) (span 0 (65 - o))) (span 0 64) = true.
Proof. vm_compute. reflexivity. Qed.
Lemma fields_low : forallb (fun f => (0 <=? rs_address f) && (0 <? RegSpec_len f) && (rs_address f + RegSpec_len f <=? 64)) EEPROM_FIELDS = true.
Proof. vm_compute. reflexivity. Qed.
Lemma field_low f : In f EEPROM_FIELDS -> 0 <= rs_address f /\ 0 < RegSpec_len f /\ rs_address f + RegSpec_len f <= 64.
Proof. intros Hf. pose proof (proj1 (forallb_forall _ _) fields_low f Hf) as E. cbv beta in E. zbool. lia. Qed.
Lemma vendor_empty : EEPROM_BITMAP_VENDOR = 0.
Proof. vm_compute. reflexivity. Qed.

#[local] Opaque EEPROM_FIELDS EEPROM_BITMAP_DXL EEPROM_BITMAP_VENDOR.

Lemma dxl_exact o e : 0 <= o < 64 -> o <= e <= 64 ->
  negb (Z.land EEPROM_BITMAP_DXL (range_mask o e) =? 0) = existsb (shares o e) EEPROM_FIELDS.
Proof.
  intros Ho He. pose proof (proj1 (forallb_forall _ _) dxl_table (Z.to_nat o)) as E. cbv beta in E.
  assert (In (Z.to_nat o) (span 0 64)) as Hin by (apply in_seq; lia). specialize (E Hin).
  pose proof (proj1 (forallb_forall _ _) E (Z.to_nat (e - o))) as F. cbv beta in F.
  assert (In (Z.to_nat (e - o)) (span 0 (65 - Z.to_nat o))) as Hk by (apply in_seq; lia).
  specialize (F Hk). apply eqb_prop in F. replace (Z.of_nat (Z.to_nat o + Z.to_nat (e - o))) with e in F by lia.
  replace (Z.of_nat (Z.to_nat o)) with o in F by lia. exact F.
Qed.

Lemma existsb_ext_in {A} (p q : A -> bool) l : (forall x, In x l -> p x = q x) -> existsb p l = existsb q l.
Proof. induction l as [|a l IH]; intros E; simpl; [done|]. rewrite E, IH; [done| |left]; auto with datatypes. Qed.
Lemma filter_ext_all {A} (p q : A -> bool) l : (forall x, In x l -> p x = q x) -> List.filter p l = List.filter q l.
Proof. induction l as [|a l IH]; intros E; simpl; [done|]. rewrite E, IH; [done| |left]; auto with datatypes. Qed.

Lemma touches_exact o l : is_u16 o -> is_u16 l ->
  touches_eeprom o l = existsb (shares o (Z.min 65535 (o + l))) EEPROM_FIELDS.
Proof.
  intros Ho Hl. unfold touches_eeprom, saturating_add16, DXL_EEPROM_END. rewrite vendor_empty, Z.land_0_l, Z.eqb_refl.
  cbn [negb]. rewrite andb_false_r. destruct (Z.ltb_spec o 64) as [E|E]; cbn [andb].
  - rewrite dxl_exact by lia. destruct (existsb (shares o _) EEPROM_FIELDS) eqn:X.
    + symmetry. rewrite <- X. apply existsb_ext_in. intros f Hf. apply field_low in Hf. unfold shares. f_equal. lia.
    + symmetry. rewrite <- X. apply existsb_ext_in. intros f Hf. apply field_low in Hf. unfold shares. f_equal. lia.
  - symmetry. apply not_true_is_false. intros X. apply existsb_exists in X as (f & Hf & X).
    apply field_low in Hf. unfold shares in X. zbool. lia.
Qed.

Lemma no_hit {A} (p : A -> bool) l : existsb p l = false -> List.filter p l = [].
Proof. induction l as [|a l IH]; simpl; [done|]. intros E. apply orb_false_iff in E as [-> E]. auto. Qed.
Lemma filter_some {A} (p : A -> bool) l : existsb p l = true -> List.filter p l <> [].
Proof.
  intros E F. apply existsb_exists in E as (x & Hx & E).
  assert (In x (List.filter p l)) as Hin by (apply filter_In; done). by rewrite F in Hin.
Qed.

Lemma push_keeps_pending t keys : pt_pending t <> [] -> pt_pending (foldl trigger_push_key t keys) <> [].
Proof.
  revert t. induction keys as [|k keys IH]; intros t Ht; [done|]. simpl. apply IH. unfold trigger_push_key.
  case_goal; [done|]. simpl. by destruct (pt_pending t).
Qed.
Lemma push_keeps_signals t keys : pt_signals (foldl trigger_push_key t keys) = pt_signals t.
Proof. revert t. induction keys as [|k keys IH]; intros t; [done|]. simpl. rewrite IH. unfold trigger_push_key. by case_goal. Qed.
Lemma trigger_signals t keys : pt_pending t = [] ->
  pt_signals (trigger_request_persist (foldl trigger_push_key t keys)) = (pt_signals t + match keys with [] => 0 | _ => 1 end)%nat.
Proof.
  intros Ht. unfold trigger_request_persist. destruct keys as [|k keys]; simpl; [rewrite Ht; lia|].
  assert (pt_pending (trigger_push_key t k) = [k]) as Hk by (unfold trigger_push_key; rewrite Ht; reflexivity).
  destruct (pt_pending (foldl trigger_push_key (trigger_push_key t k) keys)) eqn:E.
  - exfalso. revert E. apply push_keeps_pending. by rewrite Hk.
  - simpl. rewrite push_keeps_signals. unfold trigger_push_key. case_goal; simpl; lia.
Qed.

(** Persistence is triggered by exactly the writes that need it.  For a write
    of [len] bytes at [addr] the keys handed to the trigger are the name hashes,
    in order, of the persistent fields that share a byte with it; the answer is
    yes when there is one; and an idle trigger, given the keys, signals the
    persist service once in that case and not otherwise. *)
Theorem persist_keys_exact addr len t : is_u16 addr -> is_u16 len -> pt_pending t = [] ->
  let '(any, keys) := push_persist_keys_for_range addr len in
  let hit := List.filter (shares addr (Z.min 65535 (addr + len))) EEPROM_FIELDS in
  keys = rs_name_hash <$> hit /\ any = existsb (shares addr (Z.min 65535 (addr + len))) EEPROM_FIELDS /\
  pt_signals (trigger_request_persist (foldl trigger_push_key t keys)) = (pt_signals t + if any then 1 else 0)%nat.
Proof.
  intros Ha Hl Ht. unfold push_persist_keys_for_range. rewrite u16_id by done. rewrite touches_exact by done.
  destruct (existsb _ EEPROM_FIELDS) eqn:X; cbn [negb].
  - rewrite (filter_ext_all _ (shares addr (Z.min 65535 (addr + len)))).
    + pose proof (filter_some _ _ X) as Hn. clear X. rewrite trigger_signals by exact Ht.
      revert Hn. generalize (List.filter (shares addr (Z.min 65535 (addr + len))) EEPROM_FIELDS) as hs.
      intros [|h hs] Hn; [done|]. by repeat split.
    + intros f Hf. apply field_low in Hf. apply existsb_exists in X as (g & _ & X).
      unfold shares, saturating_add16 in *. zbool.
      destruct (Z.ltb_spec addr (Z.min 65535 (rs_address f + RegSpec_len f))), (Z.ltb_spec (rs_address f) (Z.min 65535 (addr + len))),
        (Z.ltb_spec (Z.max addr (rs_address f)) (Z.min (Z.min 65535 (addr + len)) (rs_address f + RegSpec_len f))); simpl; lia.
  - rewrite no_hit by exact X. rewrite trigger_signals by exact Ht. clear X. by repeat split.
Qed.

#[local] Transparent EEPROM_FIELDS EEPROM_BITMAP_DXL EEPROM_BITMAP_VENDOR.

End exact.

(** ** The index by hash *)

(** Distinct keys inserted in order are found at their positions. *)
Lemma index_build cap (ks : list Z) : forall (n : nat) (m : gmap Z nat),
  base.NoDup ks -> (forall k, k ∈ ks -> m !! k = None) -> (size m + length ks <= cap)%nat ->
  let r := foldl (index_insert cap) m (zip ks (seq n (length ks))) in
  (forall i k, ks !! i = Some k -> r !! k = Some (n + i)%nat) /\ (forall k, k ∉ ks -> r !! k = m !! k).
Proof.
  induction ks as [|k ks IH]; intros n m Hnd Hm Hs r; [split; [done|done]|].
  apply list.NoDup_cons in Hnd as [Hk Hnd]. simpl in Hs. subst r. simpl.
  assert (m !! k = None) as Hmk by (apply Hm; set_solver).
  unfold index_insert at 2 4. simpl. rewrite Hmk, (proj2 (Nat.ltb_lt _ _)) by lia.
  destruct (IH (S n) (<[k := n]> m) Hnd) as [I1 I2].
  - intros k' Hk'. rewrite lookup_insert_ne by set_solver. apply Hm. set_solver.
  - rewrite map_size_insert_None by done. lia.
  - split.
    + intros [|i] k' E; simpl in E.
      * injection E as <-. rewrite I2 by done. rewrite lookup_insert_eq. f_equal. lia.
      * rewrite (I1 i k' E). f_equal. lia.
    + intros k' Hk'. apply not_elem_of_cons in Hk' as [? ?]. rewrite I2, lookup_insert_ne; done.
Qed.
Lemma capacity_enough `{NameHash} : (0 + length EEPROM_FIELDS <= EEPROM_CAPACITY)%nat.
Proof. apply Nat.leb_le. vm_compute. reflexivity. Qed.
(** With distinct name hashes every persistent field is found at its position. *)
Lemma eeprom_indexed `{NameHash} i f :
  base.NoDup (rs_name_hash <$> EEPROM_FIELDS) -> EEPROM_FIELDS !! i = Some f ->
  eeprom_idx_by_hash (registry_init None) (rs_name_hash f) = Some i.
Proof.
  intros Hnd Hi. unfold eeprom_idx_by_hash, registry_init. simpl. unfold build_eeprom_hash_map, EEPROM_COUNT.
  pose proof (index_build EEPROM_CAPACITY (rs_name_hash <$> EEPROM_FIELDS) 0 ∅ Hnd) as [E _].
  - intros. apply lookup_empty.
  - rewrite map_size_empty, length_fmap. exact capacity_enough.
  - rewrite length_fmap in E. apply E. rewrite list_lookup_fmap, Hi. done.
Qed.

(** The crate's FNV-1a, to evaluate with. *)
Definition demo_hash : NameHash :=
  fun s => foldl (fun h b => u32 (Z.lxor h b * 16777619)) 2166136261 (name_bytes s).
Lemma persist_keys_exact_witness :
  is_u16 7 /\ let H := demo_hash in
  push_persist_keys_for_range 7 2 = (true, [demo_hash "id"; demo_hash "baud_rate"]) /\
  (push_persist_keys_for_range 7 2).2 = rs_name_hash <$> List.filter (shares 7 9) EEPROM_FIELDS.
Proof.
  split; [lia|]. split; [vm_compute; reflexivity|].
  pose proof (@persist_keys_exact demo_hash 7 2 (mkTrigger 0 []) ltac:(lia) ltac:(lia) eq_refl) as E.
  destruct (push_persist_keys_for_range 7 2) as [any keys]. exact (proj1 E).
Defined.
