(* ===== verification/Shadow.v ===== *)
(** * The shadow table (crate embedded-shadow, as firmware-old uses it)

    Host and kernel share a table of 1024 bytes.  A host write marks what it wrote
    as dirty; the kernel reads and writes without marking, asks what is dirty and
    clears the marks.  The crate is not part of the repository: it is the class
    [Shadow], and what the code relies on the class [ShadowLaws].  [BlockShadow] is
    a table with a mark per block, the granularity the runtime configures
    (open-servo-runtime/src/shadow.rs), to evaluate with. *)

From S2P Require Import Prelude.
From stdpp Require Import list.
Open Scope Z_scope.

Definition SHADOW_TABLE_SIZE : nat := 1024.
Definition SHADOW_BLOCK_SIZE : nat := 64.
Definition SHADOW_BLOCK_COUNT : nat := (SHADOW_TABLE_SIZE / SHADOW_BLOCK_SIZE)%nat.

(** [None] is an error of the crate. *)
Class Shadow (S : Type) := {
  host_read : S -> Z -> nat -> option (list Z);
  host_write : S -> Z -> list Z -> option S;
  view_read : S -> Z -> nat -> option (list Z);
  view_write : S -> Z -> list Z -> option S;
  view_is_dirty : S -> Z -> nat -> option bool;
  view_any_dirty : S -> bool;
  view_clear_dirty : S -> S;
}.

Definition in_table (addr : Z) (n : nat) : Prop := 0 <= addr /\ (Z.to_nat addr + n <= SHADOW_TABLE_SIZE)%nat.
#[export] Instance in_table_dec addr n : Decision (in_table addr n).
Proof. unfold in_table. apply _. Defined.
Definition slice (mem : list Z) (addr : Z) (n : nat) : list Z := take n (drop (Z.to_nat addr) mem).

Class ShadowLaws (S : Type) `{Shadow S} := {
  sh_mem : S -> list Z;
  sh_len : forall s, length (sh_mem s) = SHADOW_TABLE_SIZE;
  sh_bytes : forall s, bytes_ok (sh_mem s);
  host_read_ok : forall s a n, in_table a n -> host_read s a n = Some (slice (sh_mem s) a n);
  view_read_ok : forall s a n, in_table a n -> view_read s a n = Some (slice (sh_mem s) a n);
  host_write_ok : forall s a d, in_table a (length d) -> bytes_ok d -> exists s',
    host_write s a d = Some s' /\ sh_mem s' = splice (Z.to_nat a) d (sh_mem s) /\
    ((0 < length d)%nat -> view_is_dirty s' a (length d) = Some true);
  view_write_ok : forall s a d, in_table a (length d) -> bytes_ok d -> exists s',
    view_write s a d = Some s' /\ sh_mem s' = splice (Z.to_nat a) d (sh_mem s) /\
    (forall a' n, view_is_dirty s' a' n = view_is_dirty s a' n) /\ view_any_dirty s' = view_any_dirty s;
  view_clear_ok : forall s, sh_mem (view_clear_dirty s) = sh_mem s /\ view_any_dirty (view_clear_dirty s) = false;
  view_clean_ok : forall s a n, in_table a n -> view_any_dirty s = false -> view_is_dirty s a n = Some false;
}.

(** ** Reading back *)

Lemma slice_length mem a n : length mem = SHADOW_TABLE_SIZE -> in_table a n -> length (slice mem a n) = n.
Proof. intros Hm [Ha Hn]. unfold slice. rewrite length_take, length_drop. lia. Qed.
Lemma slice_bytes mem a n : bytes_ok mem -> bytes_ok (slice mem a n).
Proof. intros Hm. unfold slice. apply bytes_ok_take, bytes_ok_drop, Hm. Qed.
Lemma slice_lookup mem a n i : (i < n)%nat -> slice mem a n !! i = mem !! (Z.to_nat a + i)%nat.
Proof. intros Hi. unfold slice. rewrite lookup_take_lt by done. by rewrite lookup_drop. Qed.
Lemma slice_splice_same mem a d : length mem = SHADOW_TABLE_SIZE -> in_table a (length d) ->
  slice (splice (Z.to_nat a) d mem) a (length d) = d.
Proof.
  intros Hm Ha. apply list_eq. intros i. destruct (decide (i < length d)%nat) as [Hi|Hi].
  - destruct Ha. rewrite slice_lookup, splice_lookup by lia.
    rewrite (proj2 (Nat.leb_le _ _)), (proj2 (Nat.ltb_lt _ _)) by lia. simpl. f_equal. lia.
  - rewrite !lookup_ge_None_2; [done|lia|]. rewrite slice_length; [lia| |done].
    destruct Ha. rewrite length_splice; lia.
Qed.
Lemma slice_splice_other mem a d a' n : length mem = SHADOW_TABLE_SIZE -> in_table a (length d) -> in_table a' n ->
  a' + Z.of_nat n <= a \/ a + Z.of_nat (length d) <= a' -> slice (splice (Z.to_nat a) d mem) a' n = slice mem a' n.
Proof.
  intros Hm [Ha Hd] [Ha' Hn] Hap. apply list_eq. intros i. destruct (decide (i < n)%nat) as [Hi|Hi].
  - rewrite !slice_lookup, splice_lookup by lia.
    destruct ((Z.to_nat a <=? Z.to_nat a' + i) && _)%nat eqn:E; [zbool; lia|done].
  - rewrite !lookup_ge_None_2; [done| |]; rewrite slice_length; try lia; try done; rewrite length_splice; lia.
Qed.

Section laws.
Context {S : Type} `{L : ShadowLaws S}.

(** Writes whose failure the code ignores. *)
Definition host_put (s : S) (a : Z) (d : list Z) : S := default s (host_write s a d).
Definition view_put (s : S) (a : Z) (d : list Z) : S := default s (view_write s a d).

Lemma host_put_mem s a d : in_table a (length d) -> bytes_ok d -> sh_mem (host_put s a d) = splice (Z.to_nat a) d (sh_mem s).
Proof using L. intros Ha Hd. destruct (host_write_ok s a d Ha Hd) as (s' & E & M & _). unfold host_put. by rewrite E. Qed.
Lemma view_put_mem s a d : in_table a (length d) -> bytes_ok d -> sh_mem (view_put s a d) = splice (Z.to_nat a) d (sh_mem s).
Proof using L. intros Ha Hd. destruct (view_write_ok s a d Ha Hd) as (s' & E & M & _). unfold view_put. by rewrite E. Qed.
Lemma view_put_dirty s a d a' n : in_table a (length d) -> bytes_ok d -> view_is_dirty (view_put s a d) a' n = view_is_dirty s a' n.
Proof using L. intros Ha Hd. destruct (view_write_ok s a d Ha Hd) as (s' & E & _ & D & _). unfold view_put. rewrite E. apply D. Qed.
Lemma host_put_read s a d a' n : in_table a (length d) -> bytes_ok d -> in_table a' n ->
  a' + Z.of_nat n <= a \/ a + Z.of_nat (length d) <= a' -> host_read (host_put s a d) a' n = host_read s a' n.
Proof using L.
  intros Ha Hd Ha' Hap. rewrite !host_read_ok, host_put_mem by done. f_equal. apply slice_splice_other; try done. apply sh_len.
Qed.
Lemma host_put_back s a d : in_table a (length d) -> bytes_ok d -> host_read (host_put s a d) a (length d) = Some d.
Proof using L. intros Ha Hd. rewrite host_read_ok, host_put_mem by done. f_equal. apply slice_splice_same; [apply sh_len|done]. Qed.

End laws.

(** ** A table with a mark per block *)

Record BlockShadow := mkBlockShadow { bs_bytes : list Z; bs_dirty : list nat }.
(** 1024 bytes, whatever the list. *)
Definition bs_mem (s : BlockShadow) : list Z := take SHADOW_TABLE_SIZE ((u8 <$> bs_bytes s) ++ replicate SHADOW_TABLE_SIZE 0).
Definition blocks_of (a : Z) (n : nat) : list nat :=
  match n with
  | O => []
  | _ => seq (Z.to_nat a / SHADOW_BLOCK_SIZE) (S ((Z.to_nat a + n - 1) / SHADOW_BLOCK_SIZE - Z.to_nat a / SHADOW_BLOCK_SIZE))
  end%nat.
#[export] Instance BlockShadow_ops : Shadow BlockShadow := {
  host_read s a n := if bool_decide (in_table a n) then Some (slice (bs_mem s) a n) else None;
  host_write s a d :=
    if bool_decide (in_table a (length d)) then Some (mkBlockShadow (splice (Z.to_nat a) d (bs_mem s)) (blocks_of a (length d) ++ bs_dirty s)) else None;
  view_read s a n := if bool_decide (in_table a n) then Some (slice (bs_mem s) a n) else None;
  view_write s a d :=
    if bool_decide (in_table a (length d)) then Some (mkBlockShadow (splice (Z.to_nat a) d (bs_mem s)) (bs_dirty s)) else None;
  view_is_dirty s a n := if bool_decide (in_table a n) then Some (existsb (fun b => bool_decide (b ∈ bs_dirty s)) (blocks_of a n)) else None;
  view_any_dirty s := match bs_dirty s with [] => false | _ => true end;
  view_clear_dirty s := mkBlockShadow (bs_bytes s) [];
}.

Lemma bs_mem_len s : length (bs_mem s) = SHADOW_TABLE_SIZE.
Proof. unfold bs_mem. rewrite length_take, length_app, length_replicate. lia. Qed.
Lemma bs_mem_bytes s : bytes_ok (bs_mem s).
Proof.
  unfold bs_mem. apply bytes_ok_take, bytes_ok_app. split; apply List.Forall_forall; intros x Hx.
  - apply list_elem_of_In, list_elem_of_fmap in Hx as (y & -> & _). apply u8_range.
  - apply list_elem_of_In, elem_of_replicate in Hx as [-> _]. lia.
Qed.
Lemma bs_mem_id l d : length l = SHADOW_TABLE_SIZE -> bytes_ok l -> bs_mem (mkBlockShadow l d) = l.
Proof.
  intros Hl Hb. unfold bs_mem. simpl. assert (u8 <$> l = l) as ->.
  { clear Hl. induction Hb as [|x l Hx _ IH]; [done|]. rewrite fmap_cons, IH, u8_id; done. }
  rewrite <- Hl. apply take_app_length.
Qed.
Lemma bs_splice s a d dd : in_table a (length d) -> bytes_ok d ->
  bs_mem (mkBlockShadow (splice (Z.to_nat a) d (bs_mem s)) dd) = splice (Z.to_nat a) d (bs_mem s).
Proof.
  intros [? ?] Hd. apply bs_mem_id; [rewrite length_splice; rewrite bs_mem_len; lia|].
  apply bytes_ok_splice; [done|apply bs_mem_bytes].
Qed.
#[export] Instance BlockShadow_laws : ShadowLaws BlockShadow.
Proof.
  refine {| sh_mem := bs_mem |}.
  - apply bs_mem_len.
  - apply bs_mem_bytes.
  - intros s a n Ha. simpl. by rewrite bool_decide_eq_true_2.
  - intros s a n Ha. simpl. by rewrite bool_decide_eq_true_2.
  - intros s a d Ha Hd. simpl. rewrite bool_decide_eq_true_2 by done. eexists. split; [reflexivity|].
    split; [by apply bs_splice|]. intros Hl. f_equal.
    unfold blocks_of. destruct (length d) eqn:E; [lia|]. cbn [seq existsb bs_dirty]. apply orb_true_iff. left.
    apply bool_decide_eq_true. apply elem_of_app. left. constructor.
  - intros s a d Ha Hd. simpl. rewrite bool_decide_eq_true_2 by done. eexists. split; [reflexivity|].
    split; [by apply bs_splice|]. done.
  - intros s. done.
  - intros s a n Ha Hc. simpl in *. rewrite bool_decide_eq_true_2 by done. f_equal.
    destruct (bs_dirty s); [|done]. induction (blocks_of a n) as [|b bs IH]; [done|]. exact IH.
Defined.
