(* ===== verification/FieldStore.v ===== *)
(** * The persist service of the previous generation
      (firmware-old/open-servo-services/src/persist.rs)

    Each persistent register is an item of a flash map (crate sequential-storage)
    under the hash of its name, with its length in front.  The service restores the
    items at boot, saves the ones that changed when it is signalled, and deletes
    them on a factory reset.  The flash map is the class [FlashMap], the table the
    class [Shadow].

    The theorem: a save that reports success survives a reboot. *)

From Stdlib Require Import String.
From S2P Require Import Prelude Registry Shadow.
From stdpp Require Import gmap.
Open Scope string_scope.
Open Scope list_scope.
Open Scope Z_scope.

(** ** Keys, values and the cache *)

Inductive ResetLevel := RlAll | RlExceptId | RlExceptIdBaud.
Definition MAX_FIELD_LEN : nat := 8.
Definition TORQUE_ENABLE_ADDR : Z := 64.

Inductive PersistResult := PrOk | PrBusy | PrWriteFailed | PrNoChange | PrFirstBoot | PrLengthMismatch.
#[export] Instance PersistResult_eq_dec : EqDecision PersistResult.
Proof. solve_decision. Defined.
Definition PersistResult_as_u8 (r : PersistResult) : Z :=
  match r with PrOk => 0 | PrBusy => 1 | PrWriteFailed => 2 | PrNoChange => 3 | PrFirstBoot => 4 | PrLengthMismatch => 5 end.

Record CacheEntry := mkCache { ce_data : list Z; ce_len : nat }.
Definition CacheEntry_empty : CacheEntry := mkCache (replicate MAX_FIELD_LEN 255) 0.
Definition CacheEntry_from_slice (data : list Z) : CacheEntry :=
  let len := Nat.min (length data) MAX_FIELD_LEN in
  mkCache (splice 0 (take len data) (ce_data CacheEntry_empty)) len.
Definition CacheEntry_as_slice (e : CacheEntry) : list Z := take (ce_len e) (ce_data e).
Definition CacheEntry_matches (e : CacheEntry) (other : list Z) : bool := bool_decide (CacheEntry_as_slice e = other).

Inductive SerializationError := SeBufferTooSmall | SeInvalidFormat.
(** What is written at the front of a buffer of [cap] bytes. *)
Definition FieldKey_serialize_into (cap : nat) (hash : Z) : result (list Z) SerializationError :=
  if Nat.ltb cap 4 then Err SeBufferTooSmall else Ok (to_le32 hash).
Definition FieldKey_deserialize_from (buffer : list Z) : result (Z * nat) SerializationError :=
  match buffer with
  | a :: b :: c :: d :: _ => Ok (from_le32 a b c d, 4%nat)
  | _ => Err SeBufferTooSmall
  end.

Record FieldValue := mkFieldValue { fv_data : list Z; fv_len : nat }.
Definition FieldValue_from_slice (data : list Z) : FieldValue :=
  let len := Nat.min (length data) MAX_FIELD_LEN in
  mkFieldValue (splice 0 (take len data) (replicate MAX_FIELD_LEN 0)) len.
Definition FieldValue_as_slice (v : FieldValue) : list Z := take (fv_len v) (fv_data v).
Definition FieldValue_serialize_into (cap : nat) (v : FieldValue) : result (list Z) SerializationError :=
  if Nat.ltb cap (1 + fv_len v) then Err SeBufferTooSmall
  else Ok (Z.of_nat (fv_len v) :: take (fv_len v) (fv_data v)).
Definition FieldValue_deserialize_from (buffer : list Z) : result FieldValue SerializationError :=
  match buffer with
  | [] => Err SeBufferTooSmall
  | len :: rest =>
      let len := Z.to_nat len in
      if Nat.ltb MAX_FIELD_LEN len then Err SeInvalidFormat
      else if Nat.ltb (length buffer) (1 + len) then Err SeBufferTooSmall
      else Ok (mkFieldValue (splice 0 (take len rest) (replicate MAX_FIELD_LEN 0)) len)
  end.

(** ** The flash map *)

Class FlashMap (F : Type) := {
  fetch_item : F -> Z -> result (option FieldValue) unit * F;
  store_item : F -> Z -> FieldValue -> result unit unit * F;
  remove_item : F -> Z -> result unit unit * F;
}.
(** Values have the shape their reader gives them; a fetch changes nothing and
    finds what is stored; a store or removal that succeeds changes its own key. *)
Definition value_ok (v : FieldValue) : Prop := length (fv_data v) = MAX_FIELD_LEN /\ (fv_len v <= MAX_FIELD_LEN)%nat /\ bytes_ok (fv_data v).
Class FlashMapLaws (F : Type) `{FlashMap F} := {
  fm_item : F -> Z -> option FieldValue;
  fm_shape : forall f k v, fm_item f k = Some v -> value_ok v;
  fetch_ok : forall f k, (forall k', fm_item (fetch_item f k).2 k' = fm_item f k') /\
    forall o, (fetch_item f k).1 = Ok o -> o = fm_item f k;
  store_ok : forall f k v, (forall k', k' <> k -> fm_item (store_item f k v).2 k' = fm_item f k') /\
    (value_ok v -> (store_item f k v).1 = Ok tt -> fm_item (store_item f k v).2 k = Some v);
  remove_ok : forall f k, (forall k', k' <> k -> fm_item (remove_item f k).2 k' = fm_item f k') /\
    ((remove_item f k).1 = Ok tt -> fm_item (remove_item f k).2 k = None);
}.

(** ** The service *)

Record PersistTask := mkPersistTask {
  pk_cache : list CacheEntry; pk_initialized : bool; pk_last_result : option PersistResult; pk_generation : Z }.

Section service.
Context {H : NameHash} {F S : Type} `{FM : FlashMap F} `{SH : Shadow S}.
(** The registry's static index. *)
Variable index : option (gmap Z nat).

(** The task with the flash it owns and the table it shares. *)
Record Store := mkStore { st_task : PersistTask; st_flash : F; st_shadow : S }.

Definition should_preserve (level : ResetLevel) (addr : Z) : bool :=
  match level with
  | RlAll => false
  | RlExceptId => addr =? dxl_addr "id"
  | RlExceptIdBaud => (addr =? dxl_addr "id") || (addr =? dxl_addr "baud_rate")
  end.
Definition PersistTask_new : PersistTask := mkPersistTask (replicate EEPROM_COUNT CacheEntry_empty) false None 0.

Definition set_cache (i : nat) (e : CacheEntry) (t : PersistTask) : PersistTask :=
  mkPersistTask (<[i := e]> (pk_cache t)) (pk_initialized t) (pk_last_result t) (pk_generation t).
(** The cache entry of a key, when the index knows it. *)
Definition cache_put (hash : Z) (e : CacheEntry) (t : PersistTask) : PersistTask :=
  match eeprom_idx_by_hash index hash with Some i => set_cache i e t | None => t end.

Definition write_telemetry (r : PersistResult) (pending : bool) (x : Store) : Store :=
  let s := host_put (st_shadow x) (vendor_addr "persist_status") [PersistResult_as_u8 r] in
  let s := host_put s (vendor_addr "persist_gen") (to_le16 (pk_generation (st_task x))) in
  let s := host_put s (vendor_addr "persist_pending") [if pending then 1 else 0] in
  mkStore (st_task x) (st_flash x) s.
Definition report (r : PersistResult) (x : Store) : Store :=
  let t := st_task x in
  write_telemetry r false (mkStore (mkPersistTask (pk_cache t) (pk_initialized t) (Some r) (pk_generation t)) (st_flash x) (st_shadow x)).

Definition restore_field (field : RegSpec) (x : Store) : result bool unit * Store :=
  let '(r, f) := fetch_item (st_flash x) (rs_name_hash field) in
  let x := mkStore (st_task x) f (st_shadow x) in
  match r with
  | Ok (Some value) =>
      if negb (Z.of_nat (fv_len value) =? RegSpec_len field) then (Ok false, x)
      else
        match host_write (st_shadow x) (rs_address field) (FieldValue_as_slice value) with
        | None => (Err tt, x)
        | Some s => (Ok true, mkStore (cache_put (rs_name_hash field) (CacheEntry_from_slice (FieldValue_as_slice value)) (st_task x)) f s)
        end
  | Ok None => (Ok false, x)
  | Err _ => (Err tt, x)
  end.

Definition save_field (field : RegSpec) (data : list Z) (x : Store) : result unit unit * Store :=
  match store_item (st_flash x) (rs_name_hash field) (FieldValue_from_slice data) with
  | (Ok _, f) => (Ok tt, mkStore (cache_put (rs_name_hash field) (CacheEntry_from_slice data) (st_task x)) f (st_shadow x))
  | (Err _, f) => (Err tt, mkStore (st_task x) f (st_shadow x))
  end.

(** The registers into [snapshot], counting those that could not be read. *)
Fixpoint snapshot_fields (s : S) (fields : list RegSpec) (snapshot : list CacheEntry) (errors : Z) : list CacheEntry * Z :=
  match fields with
  | [] => (snapshot, errors)
  | field :: rest =>
      let len := Z.to_nat (RegSpec_len field) in
      if Nat.ltb MAX_FIELD_LEN len then snapshot_fields s rest snapshot errors
      else
        match eeprom_idx_by_hash index (rs_name_hash field) with
        | None => snapshot_fields s rest snapshot errors
        | Some idx =>
            match host_read s (rs_address field) len with
            | Some data => snapshot_fields s rest (<[idx := CacheEntry_from_slice data]> snapshot) errors
            | None => snapshot_fields s rest snapshot (errors + 1)
            end
        end
  end.
Definition take_snapshot (s : S) : result (list CacheEntry * Z) PersistResult :=
  match host_read s TORQUE_ENABLE_ADDR 1 with
  | None => Err PrWriteFailed
  | Some torque =>
      if negb (hd 0 torque =? 0) then Err PrBusy
      else Ok (snapshot_fields s EEPROM_FIELDS (replicate EEPROM_COUNT CacheEntry_empty) 0)
  end.

Fixpoint save_changed_fields (snapshot : list CacheEntry) (idx : nat) (fields : list RegSpec) (saved errors : Z) (x : Store) : Z * Z * Store :=
  match fields with
  | [] => (saved, errors, x)
  | field :: rest =>
      let snap := nth idx snapshot CacheEntry_empty in
      if Nat.ltb MAX_FIELD_LEN (Z.to_nat (RegSpec_len field)) || Nat.eqb (ce_len snap) 0
         || CacheEntry_matches (nth idx (pk_cache (st_task x)) CacheEntry_empty) (CacheEntry_as_slice snap)
      then save_changed_fields snapshot (idx + 1) rest saved errors x
      else
        let x := if saved =? 0 then write_telemetry PrOk true x else x in
        match save_field field (CacheEntry_as_slice snap) x with
        | (Ok _, x) => save_changed_fields snapshot (idx + 1) rest (saved + 1) errors x
        | (Err _, x) => save_changed_fields snapshot (idx + 1) rest saved (errors + 1) x
        end
  end.

Definition bump_generation (x : Store) : Store :=
  let t := st_task x in
  mkStore (mkPersistTask (pk_cache t) (pk_initialized t) (pk_last_result t) (u16 (pk_generation t + 1))) (st_flash x) (st_shadow x).
Definition handle_save (x : Store) : Store :=
  match take_snapshot (st_shadow x) with
  | Err r => report r x
  | Ok (snapshot, read_errors) =>
      let '(saved, write_errors, x) := save_changed_fields snapshot 0 EEPROM_FIELDS 0 0 x in
      if 0 <? read_errors + write_errors then report PrWriteFailed x
      else if 0 <? saved then report PrOk (bump_generation x)
      else report PrNoChange x
  end.

Fixpoint reset_fields (level : ResetLevel) (fields : list RegSpec) (errors : Z) (x : Store) : Z * Store :=
  match fields with
  | [] => (errors, x)
  | field :: rest =>
      if should_preserve level (rs_address field) then reset_fields level rest errors x
      else
        match remove_item (st_flash x) (rs_name_hash field) with
        | (Ok _, f) => reset_fields level rest errors (mkStore (cache_put (rs_name_hash field) CacheEntry_empty (st_task x)) f (st_shadow x))
        | (Err _, f) => reset_fields level rest (errors + 1) (mkStore (st_task x) f (st_shadow x))
        end
  end.
Definition handle_factory_reset (level : ResetLevel) (x : Store) : Store :=
  let '(errors, x) := reset_fields level EEPROM_FIELDS 0 x in
  report (if 0 <? errors then PrWriteFailed else PrOk) x.

Fixpoint restore_fields (fields : list RegSpec) (restored mismatched errors : Z) (x : Store) : Z * Z * Z * Store :=
  match fields with
  | [] => (restored, mismatched, errors, x)
  | field :: rest =>
      match restore_field field x with
      | (Ok true, x) => restore_fields rest (restored + 1) mismatched errors x
      | (Ok false, x) => restore_fields rest restored (mismatched + 1) errors x
      | (Err _, x) => restore_fields rest restored mismatched (errors + 1) x
      end
  end.
Definition mark_initialized (x : Store) : Store :=
  let t := st_task x in
  mkStore (mkPersistTask (pk_cache t) true (pk_last_result t) (pk_generation t)) (st_flash x) (st_shadow x).
Definition PersistTask_init (x : Store) : Store :=
  let '(restored, mismatched, errors, x) := restore_fields EEPROM_FIELDS 0 0 0 x in
  if 0 <? errors then report PrWriteFailed x
  else if restored =? 0 then report PrFirstBoot (mark_initialized x)
  else if 0 <? mismatched then report PrLengthMismatch (mark_initialized x)
  else report PrOk (mark_initialized x).

(** One signal: a save, or a reset of a level. *)
Definition handle_once (op : option ResetLevel) (x : Store) : Store :=
  match op with None => handle_save x | Some level => handle_factory_reset level x end.

End service.

(** ** Serialization *)

Lemma as_from_cache d : (length d <= MAX_FIELD_LEN)%nat -> CacheEntry_as_slice (CacheEntry_from_slice d) = d.
Proof.
  intros Hd. unfold CacheEntry_as_slice, CacheEntry_from_slice, splice. simpl ce_len. simpl ce_data.
  rewrite Nat.min_l, (take_ge d) by done. simpl. by rewrite take_app_length.
Qed.
Lemma as_from_value d : (length d <= MAX_FIELD_LEN)%nat -> FieldValue_as_slice (FieldValue_from_slice d) = d.
Proof.
  intros Hd. unfold FieldValue_as_slice, FieldValue_from_slice, splice. simpl fv_len. simpl fv_data.
  rewrite Nat.min_l, (take_ge d) by done. simpl. by rewrite take_app_length.
Qed.
Lemma from_value_ok d : bytes_ok d -> value_ok (FieldValue_from_slice d).
Proof.
  intros Hd. unfold value_ok, FieldValue_from_slice. cbn [fv_data fv_len].
  assert (bytes_ok (replicate MAX_FIELD_LEN 0)) by (repeat constructor; lia).
  split; [|split; [lia|by apply bytes_ok_splice; [apply bytes_ok_take|]]].
  rewrite length_splice; rewrite ?length_take, ?length_replicate; lia.
Qed.
(** What a value writes reads back as the same value, whatever follows it. *)
Lemma value_round_trip d cap bs rest : (length d <= MAX_FIELD_LEN)%nat ->
  FieldValue_serialize_into cap (FieldValue_from_slice d) = Ok bs ->
  FieldValue_deserialize_from (bs ++ rest) = Ok (FieldValue_from_slice d).
Proof.
  intros Hd E. unfold FieldValue_serialize_into in E. destruct (Nat.ltb _ _); [discriminate|].
  assert (bs = Z.of_nat (length d) :: d) as ->.
  { injection E as <-. f_equal; [simpl; lia|]. by apply as_from_value. }
  change ((Z.of_nat (length d) :: d) ++ rest) with (Z.of_nat (length d) :: (d ++ rest)).
  unfold FieldValue_deserialize_from. cbv zeta.
  rewrite Nat2Z.id, (proj2 (Nat.ltb_ge _ _)) by done.
  rewrite (proj2 (Nat.ltb_ge _ _)) by (simpl; rewrite length_app; lia).
  rewrite take_app_length. unfold FieldValue_from_slice. by rewrite Nat.min_l, (take_ge d) by done.
Qed.
Lemma key_round_trip k cap bs rest : is_u32 k ->
  FieldKey_serialize_into cap k = Ok bs -> FieldKey_deserialize_from (bs ++ rest) = Ok (k, 4%nat).
Proof.
  intros Hk E. unfold FieldKey_serialize_into in E. destruct (Nat.ltb _ _); [discriminate|]. injection E as <-.
  simpl. f_equal. f_equal. by apply from_to_le32.
Qed.

(** ** The fields *)

Section fields.
Context {H : NameHash}.

Lemma fields_short : forallb (fun f => RegSpec_len f <=? 8) EEPROM_FIELDS = true.
Proof. vm_compute. reflexivity. Qed.
Lemma fields_sorted :
  forallb (fun i => forallb (fun j => match EEPROM_FIELDS !! i, EEPROM_FIELDS !! j with
    | Some f, Some g => negb (Nat.ltb i j) || (rs_address f + RegSpec_len f <=? rs_address g)
    | _, _ => true end) (seq 0 EEPROM_COUNT)) (seq 0 EEPROM_COUNT) = true.
Proof. vm_compute. reflexivity. Qed.
Lemma persist_addrs : vendor_addr "persist_status" = 630 /\ vendor_addr "persist_gen" = 631 /\ vendor_addr "persist_pending" = 633.
Proof. vm_compute. auto. Qed.

#[local] Opaque EEPROM_FIELDS.

Lemma field_shape i f : EEPROM_FIELDS !! i = Some f ->
  in_table (rs_address f) (Z.to_nat (RegSpec_len f)) /\ 0 < RegSpec_len f <= 8 /\ rs_address f + RegSpec_len f <= 64.
Proof.
  intros Hi. assert (In f EEPROM_FIELDS) as Hf by (apply list_elem_of_In; by eapply list_elem_of_lookup_2).
  pose proof (field_low f Hf). pose proof (proj1 (forallb_forall _ _) fields_short f Hf) as E. cbv beta in E. zbool.
  unfold in_table, SHADOW_TABLE_SIZE. lia.
Qed.
Lemma field_apart i j f g : EEPROM_FIELDS !! i = Some f -> EEPROM_FIELDS !! j = Some g -> (i < j)%nat ->
  rs_address f + RegSpec_len f <= rs_address g.
Proof.
  intros Hi Hj Hij. pose proof (proj1 (forallb_forall _ _) fields_sorted i) as E. cbv beta in E.
  assert (i < EEPROM_COUNT /\ j < EEPROM_COUNT)%nat as [Li Lj] by (split; eapply lookup_lt_Some; eassumption).
  specialize (E ltac:(apply in_seq; lia)).
  pose proof (proj1 (forallb_forall _ _) E j) as G. cbv beta in G. specialize (G ltac:(apply in_seq; lia)).
  rewrite Hi, Hj, (proj2 (Nat.ltb_lt _ _)) in G by done. simpl in G. zbool. done.
Qed.
Lemma hash_apart i j f g : base.NoDup (rs_name_hash <$> EEPROM_FIELDS) ->
  EEPROM_FIELDS !! i = Some f -> EEPROM_FIELDS !! j = Some g -> i <> j -> rs_name_hash f <> rs_name_hash g.
Proof.
  intros Hn Hi Hj Hij E. apply Hij. eapply NoDup_lookup; [exact Hn| |]; rewrite list_lookup_fmap.
  - by rewrite Hi.
  - rewrite Hj, E. done.
Qed.

End fields.

(** ** A save survives a reboot *)

Section durable.
Context {H : NameHash} {F S : Type} `{FL : FlashMapLaws F} `{SL : ShadowLaws S}.
(** Any list of fields laid out and indexed as the persistent ones are. *)
Variable FS : list RegSpec.
Variable index : option (gmap Z nat).
Hypothesis fs_shape : forall i f, FS !! i = Some f ->
  in_table (rs_address f) (Z.to_nat (RegSpec_len f)) /\ 0 < RegSpec_len f <= 8 /\ rs_address f + RegSpec_len f <= 64.
Hypothesis fs_apart : forall i j f g, FS !! i = Some f -> FS !! j = Some g -> (i < j)%nat ->
  rs_address f + RegSpec_len f <= rs_address g.
Hypothesis fs_hash : forall i j f g, FS !! i = Some f -> FS !! j = Some g -> i <> j -> rs_name_hash f <> rs_name_hash g.
Hypothesis fs_index : forall i f, FS !! i = Some f -> eeprom_idx_by_hash index (rs_name_hash f) = Some i.
Local Abbreviation Store := (@Store F S).

(** The bytes of a field in a table, and the item that stores them. *)
Definition field_bytes (s : S) (f : RegSpec) : list Z := slice (sh_mem s) (rs_address f) (Z.to_nat (RegSpec_len f)).
Definition item (x : Store) (f : RegSpec) : option FieldValue := fm_item (st_flash x) (rs_name_hash f).
Definition stores (x : Store) (f : RegSpec) (bs : list Z) : Prop :=
  exists v, item x f = Some v /\ FieldValue_as_slice v = bs /\ fv_len v = length bs.

(** What the cache holds is in the flash. *)
Record coherent (x : Store) : Prop := {
  co_len : length (pk_cache (st_task x)) = length FS;
  co_item : forall i f e, FS !! i = Some f -> pk_cache (st_task x) !! i = Some e -> CacheEntry_as_slice e <> [] ->
    stores x f (CacheEntry_as_slice e) }.

Lemma coherent_ext x y : st_task y = st_task x -> st_flash y = st_flash x -> coherent x -> coherent y.
Proof using. intros Ht Hf [C1 C2]. split; unfold stores, item in *; rewrite ?Ht, ?Hf; auto. Qed.

Lemma field_bytes_length i f s : FS !! i = Some f -> length (field_bytes s f) = Z.to_nat (RegSpec_len f).
Proof using All. intros Hi. apply fs_shape in Hi as (Ht & _). unfold field_bytes. apply slice_length; [apply sh_len|done]. Qed.
Lemma field_bytes_short i f s : FS !! i = Some f -> (length (field_bytes s f) <= MAX_FIELD_LEN)%nat /\ field_bytes s f <> [].
Proof using All.
  intros Hi. pose proof (field_bytes_length i f s Hi) as E. apply fs_shape in Hi as (_ & Hl & _). unfold MAX_FIELD_LEN.
  split; [lia|]. intros X. rewrite X in E. simpl in E. lia.
Qed.

(** *** The snapshot *)

Lemma snapshot_exact s fields : forall pre snap e,
  FS = pre ++ fields -> length snap = length FS ->
  exists snap', snapshot_fields index s fields snap e = (snap', e) /\ length snap' = length FS /\
    (forall i f, (length pre <= i)%nat -> FS !! i = Some f -> snap' !! i = Some (CacheEntry_from_slice (field_bytes s f))) /\
    (forall i, (i < length pre)%nat -> snap' !! i = snap !! i).
Proof using All.
  induction fields as [|f fields IH]; intros pre snap e Hsplit Hlen.
  - exists snap. split; [done|]. split; [done|]. split; [|done]. intros i f Hi Hf.
    apply lookup_lt_Some in Hf. rewrite Hsplit, app_nil_r in Hf. lia.
  - assert (FS !! length pre = Some f) as Hf by (rewrite Hsplit; by apply list_lookup_middle).
    destruct (fs_shape _ _ Hf) as (Ht & Hl & _). cbn [snapshot_fields].
    rewrite (proj2 (Nat.ltb_ge _ _)) by (unfold MAX_FIELD_LEN; lia).
    rewrite (fs_index _ _ Hf), host_read_ok by done.
    destruct (IH (pre ++ [f]) (<[length pre := CacheEntry_from_slice (field_bytes s f)]> snap) e) as (snap' & E & L & S1 & S2).
    + rewrite <- app_assoc. exact Hsplit.
    + by rewrite length_insert.
    + exists snap'. split; [exact E|]. split; [done|]. rewrite length_app in S1, S2. simpl in S1, S2.
      assert (length pre < length snap)%nat as Hlt by (rewrite Hlen; eapply lookup_lt_Some, Hf).
      split.
      * intros i g Hi Hg. destruct (decide (i = length pre)) as [->|Hne]; [|apply S1; [lia|done]].
        rewrite Hf in Hg. injection Hg as <-. rewrite S2 by lia. by apply list_lookup_insert_eq.
      * intros i Hi. rewrite S2 by lia. apply list_lookup_insert_ne. lia.
Qed.

Lemma telemetry_keeps r b (x : Store) : st_task (write_telemetry r b x) = st_task x /\ st_flash (write_telemetry r b x) = st_flash x.
Proof using. done. Qed.

(** *** The save *)

Lemma cache_at i f e t : FS !! i = Some f -> cache_put index (rs_name_hash f) e t = set_cache i e t.
Proof using fs_index. intros Hf. unfold cache_put. by rewrite (fs_index _ _ Hf). Qed.

Lemma save_field_ok i f d (x : Store) : FS !! i = Some f -> (length d <= MAX_FIELD_LEN)%nat -> bytes_ok d -> coherent x ->
  forall y, save_field index f d x = (Ok tt, y) ->
  coherent y /\ stores y f d /\ (forall j g, j <> i -> FS !! j = Some g -> item y g = item x g).
Proof using All.
  intros Hf Hd Hb [C1 C2] y E. unfold save_field in E.
  pose proof (store_ok (st_flash x) (rs_name_hash f) (FieldValue_from_slice d)) as [K1 K2].
  destruct (store_item _ _ _) as [[[]|] fl]; [|discriminate]. injection E as <-. simpl in K1, K2. specialize (K2 (from_value_ok d Hb) eq_refl).
  assert (forall j g, j <> i -> FS !! j = Some g -> fm_item fl (rs_name_hash g) = item x g) as Ho.
  { intros j g Hj Hg. apply K1. by eapply fs_hash. }
  assert (forall t s, stores (mkStore t fl s) f d) as Hsd.
  { intros. exists (FieldValue_from_slice d). split; [exact K2|]. split; [by apply as_from_value|simpl; lia]. }
  split; [|split; [apply Hsd|exact Ho]]. rewrite (cache_at i) by done. split; simpl.
  - by rewrite length_insert.
  - intros j g e Hg He Hn. destruct (decide (j = i)) as [->|Hj].
    + rewrite Hf in Hg. injection Hg as <-. rewrite list_lookup_insert_eq in He.
      2: { rewrite C1. eapply lookup_lt_Some, Hf. }
      injection He as <-. rewrite as_from_cache by done. apply Hsd.
    + rewrite list_lookup_insert_ne in He by done. unfold stores, item. simpl. rewrite (Ho j g Hj Hg). by apply (C2 j g e).
Qed.

Lemma save_mono snap fields : forall idx saved errors (x : Store),
  let '(_, errors', _) := save_changed_fields index snap idx fields saved errors x in errors <= errors'.
Proof using.
  induction fields as [|f fields IH]; intros idx saved errors x; cbn [save_changed_fields]; [lia|].
  case_goal; [apply IH|]. destruct (save_field _ _ _ _) as [[]  x2].
  - apply IH.
  - specialize (IH (idx + 1)%nat saved (errors + 1) x2). destruct (save_changed_fields _ _ _ _ _ _ _) as [[? ?] ?]. lia.
Qed.

Lemma save_exact s snap fields : forall pre saved errors (x : Store),
  FS = pre ++ fields ->
  (forall i f, FS !! i = Some f -> snap !! i = Some (CacheEntry_from_slice (field_bytes s f))) -> coherent x ->
  let '(saved', errors', y) := save_changed_fields index snap (length pre) fields saved errors x in
  errors <= errors' /\
  (errors' = errors -> coherent y /\
    (forall i f, (length pre <= i)%nat -> FS !! i = Some f -> stores y f (field_bytes s f)) /\
    (forall i f, (i < length pre)%nat -> FS !! i = Some f -> item y f = item x f)).
Proof using All.
  induction fields as [|f fields IH]; intros pre saved errors x Hsplit Hsnap Hc.
  - simpl. split; [lia|]. intros _. split; [done|]. split; [|done]. intros i f Hi Hf.
    apply lookup_lt_Some in Hf. rewrite Hsplit, app_nil_r in Hf. lia.
  - assert (FS !! length pre = Some f) as Hf by (rewrite Hsplit; by apply list_lookup_middle).
    destruct (fs_shape _ _ Hf) as (_ & Hl & _). destruct (field_bytes_short _ _ s Hf) as [Hs Hne].
    cbn [save_changed_fields]. rewrite (nth_lookup_Some _ _ _ _ (Hsnap _ _ Hf)), as_from_cache by done.
    rewrite (proj2 (Nat.ltb_ge MAX_FIELD_LEN _)) by (unfold MAX_FIELD_LEN; lia).
    assert (ce_len (CacheEntry_from_slice (field_bytes s f)) <> 0%nat) as Hz.
    { simpl. destruct (field_bytes s f); [done|]. simpl. unfold MAX_FIELD_LEN. lia. }
    rewrite (proj2 (Nat.eqb_neq _ _) Hz). cbn [orb].
    replace (length pre + 1)%nat with (length (pre ++ [f])) by (rewrite length_app; simpl; lia).
    assert (FS = (pre ++ [f]) ++ fields) as Hsplit' by (rewrite <- app_assoc; exact Hsplit).
    destruct (CacheEntry_matches _ _) eqn:Em.
    + specialize (IH (pre ++ [f]) saved errors x Hsplit' Hsnap Hc).
      destruct (save_changed_fields _ _ _ _ _ _ _) as [[saved' errors'] y]. destruct IH as [I1 I2]. split; [done|].
      intros He. specialize (I2 He) as (J1 & J2 & J3). rewrite length_app in J2, J3. simpl in J2, J3.
      split; [done|]. split; [|intros i g Hi Hg; apply (J3 i); [lia|done]].
      intros i g Hi Hg. destruct (decide (i = length pre)) as [->|Hn]; [|apply (J2 i); [lia|done]].
      rewrite Hf in Hg. injection Hg as <-. unfold stores. rewrite (J3 (length pre) f) by (lia || done).
      unfold CacheEntry_matches in Em. apply bool_decide_eq_true in Em.
      destruct (lookup_lt_is_Some_2 (pk_cache (st_task x)) (length pre)) as [e Hce].
      { rewrite (co_len x Hc). eapply lookup_lt_Some, Hf. }
      rewrite (nth_lookup_Some _ _ _ _ Hce) in Em. pose proof (co_item x Hc _ _ _ Hf Hce) as K. rewrite Em in K. by apply K.
    + set (x1 := if saved =? 0 then _ else x).
      assert (coherent x1) as Hc1 by (subst x1; destruct (saved =? 0); [by apply (coherent_ext x)|done]).
      assert (forall g, item x1 g = item x g) as Hi1 by (intros g; subst x1; by destruct (saved =? 0)).
      destruct (save_field _ _ _ x1) as [[[]|] x2] eqn:Es.
      * destruct (save_field_ok _ _ _ _ Hf Hs (slice_bytes _ _ _ (sh_bytes s)) Hc1 _ Es) as (D1 & D2 & D3).
        specialize (IH (pre ++ [f]) (saved + 1) errors x2 Hsplit' Hsnap D1).
        destruct (save_changed_fields _ _ _ _ _ _ _) as [[saved' errors'] y]. destruct IH as [I1 I2]. split; [done|].
        intros He. specialize (I2 He) as (J1 & J2 & J3). rewrite length_app in J2, J3. simpl in J2, J3.
        split; [done|]. split.
        -- intros i g Hi Hg. destruct (decide (i = length pre)) as [->|Hn]; [|apply (J2 i); [lia|done]].
           rewrite Hf in Hg. injection Hg as <-. unfold stores. rewrite (J3 (length pre) f) by (lia || done). exact D2.
        -- intros i g Hi Hg. rewrite (J3 i) by (lia || done). rewrite (D3 i) by (lia || done). apply Hi1.
      * pose proof (save_mono snap fields (length (pre ++ [f])) saved (errors + 1) x2) as M.
        destruct (save_changed_fields _ _ _ _ _ _ _) as [[saved' errors'] y]. split; [lia|]. intros He. lia.
Qed.

(** *** The boot *)

Lemma restore_mono fields : forall a b errors (x : Store),
  let '(_, _, errors', _) := restore_fields index fields a b errors x in errors <= errors'.
Proof using.
  induction fields as [|f fields IH]; intros a b errors x; cbn [restore_fields]; [lia|].
  destruct (restore_field _ _ _) as [[[]|] x2]; [apply IH|apply IH|].
  specialize (IH a b (errors + 1) x2). destruct (restore_fields _ _ _ _ _ _) as [[[? ?] ?] ?]. lia.
Qed.

(** A stored field is written to the table, or the flash reports an error. *)
Lemma restore_one i f bs (x : Store) : FS !! i = Some f -> length bs = Z.to_nat (RegSpec_len f) -> bytes_ok bs -> stores x f bs ->
  let '(r, y) := restore_field index f x in
  (forall g, item y g = item x g) /\ (r = Err tt \/ r = Ok true /\ st_shadow y = host_put (st_shadow x) (rs_address f) bs).
Proof using All.
  intros Hf Hlen Hbs Hst. destruct (fs_shape _ _ Hf) as (Ht & Hl & _). unfold restore_field.
  pose proof (fetch_ok (st_flash x) (rs_name_hash f)) as [K1 K2].
  destruct (fetch_item _ _) as [[o|[]] fl]; simpl in K1, K2; [|split; [intros g; apply K1|by left]].
  specialize (K2 o eq_refl). change (fm_item _ _) with (item x f) in K2. destruct Hst as (v & Hv & Has & Hvl). rewrite Hv in K2. subst o.
  assert ((Z.of_nat (fv_len v) =? RegSpec_len f) = true) as -> by (apply Z.eqb_eq; lia).
  rewrite Has. cbn [negb st_shadow]. rewrite <- Hlen in Ht.
  destruct (host_write_ok (st_shadow x) (rs_address f) bs Ht Hbs) as (s' & E & _).
  unfold host_put. rewrite E. split; [intros g; apply K1|]. right. done.
Qed.

Lemma restore_exact (val : RegSpec -> list Z) fields : forall n a b errors (x : Store),
  (forall i f, fields !! i = Some f -> FS !! (n + i)%nat = Some f) ->
  (forall i f, FS !! i = Some f -> length (val f) = Z.to_nat (RegSpec_len f) /\ bytes_ok (val f)) ->
  (forall i f, fields !! i = Some f -> stores x f (val f)) ->
  let '(_, _, errors', y) := restore_fields index fields a b errors x in
  errors' = errors ->
  (forall i f, fields !! i = Some f -> field_bytes (st_shadow y) f = val f) /\
  (forall a' k, in_table a' k -> (forall i f, fields !! i = Some f -> a' + Z.of_nat k <= rs_address f) ->
    slice (sh_mem (st_shadow y)) a' k = slice (sh_mem (st_shadow x)) a' k).
Proof using All.
  induction fields as [|f fields IH]; intros n a b errors x Hat Hval Hst; cbn [restore_fields]; [done|].
  assert (FS !! n = Some f) as Hf by (rewrite <- (Nat.add_0_r n); by apply Hat).
  destruct (Hval _ _ Hf) as [Hlen Hbs]. destruct (fs_shape _ _ Hf) as (Ht & Hl & _).
  pose proof (restore_one n f (val f) x Hf Hlen Hbs (Hst 0%nat f eq_refl)) as R.
  destruct (restore_field _ _ _) as [r x2]. destruct R as [Hit [->|[-> Hsh]]].
  - pose proof (restore_mono fields a b (errors + 1) x2) as M.
    destruct (restore_fields _ _ _ _ _ _) as [[[? ?] errors'] y]. intros ->. lia.
  - specialize (IH (n + 1)%nat (a + 1) b errors x2). destruct (restore_fields _ _ _ _ _ _) as [[[? ?] errors'] y].
    assert (length (val f) = Z.to_nat (RegSpec_len f) -> in_table (rs_address f) (length (val f))) as Ht' by (intros ->; done).
    intros He. destruct IH as [I1 I2]; [| done | |done|].
    + intros i g Hi. rewrite <- Nat.add_assoc. by apply (Hat (Datatypes.S i)).
    + intros i g Hi. unfold stores. rewrite Hit. by apply (Hst (Datatypes.S i)).
    + split.
      * intros [|i] g Hg; [|by apply (I1 i)]. injection Hg as <-. unfold field_bytes. rewrite I2, Hsh, host_put_mem; auto.
        -- rewrite <- Hlen. apply slice_splice_same; [apply sh_len|auto].
        -- intros i g Hi. pose proof (fs_apart n (n + Datatypes.S i) f g Hf (Hat (Datatypes.S i) g Hi) ltac:(lia)). lia.
      * intros a' k Hk Hbefore. rewrite I2; [|done|intros i g Hi; by apply (Hbefore (Datatypes.S i))].
        rewrite Hsh, host_put_mem by auto. apply slice_splice_other; auto; [apply sh_len|].
        left. exact (Hbefore 0%nat f eq_refl).
Qed.

(** *** Coherence *)

Lemma coherent_put i f e (x y : Store) : FS !! i = Some f -> coherent x ->
  st_task y = cache_put index (rs_name_hash f) e (st_task x) ->
  (forall j g, j <> i -> FS !! j = Some g -> item y g = item x g) ->
  (CacheEntry_as_slice e <> [] -> stores y f (CacheEntry_as_slice e)) -> coherent y.
Proof using All.
  intros Hf [C1 C2] Ht Hother Hself. rewrite (cache_at i) in Ht by done. split; rewrite Ht; simpl; [by rewrite length_insert|].
  intros j g e' Hg He Hn. destruct (decide (j = i)) as [->|Hj].
  - rewrite Hf in Hg. injection Hg as <-. rewrite list_lookup_insert_eq in He.
    2: { rewrite C1. eapply lookup_lt_Some, Hf. }
    injection He as <-. by apply Hself.
  - rewrite list_lookup_insert_ne in He by done. unfold stores. rewrite (Hother j g Hj Hg). by apply (C2 j g e').
Qed.

Lemma restore_field_coherent i f (x : Store) : FS !! i = Some f -> coherent x -> coherent (restore_field index f x).2.
Proof using All.
  intros Hf Hc. unfold restore_field. pose proof (fetch_ok (st_flash x) (rs_name_hash f)) as [K1 K2].
  destruct (fetch_item _ _) as [r fl]; simpl in K1, K2.
  assert (forall t s, t = st_task x -> coherent (mkStore t fl s)) as Hsame.
  { intros t s ->. destruct Hc as [C1 C2]. split; [done|]. intros j g e Hg He Hn.
    destruct (C2 j g e Hg He Hn) as (v & Hv & R). exists v. split; [|exact R]. unfold item in *. simpl. by rewrite K1. }
  destruct r as [[v|]|[]]; simpl; try (by apply Hsame).
  case_goal; [by apply Hsame|]. specialize (K2 (Some v) eq_refl). symmetry in K2.
  destruct (fm_shape _ _ _ K2) as (S1 & S2 & _).
  assert (length (FieldValue_as_slice v) = fv_len v) as Hv by (unfold FieldValue_as_slice; rewrite length_take; lia).
  destruct (host_write _ _ _); simpl; [|by apply Hsame].
  eapply (coherent_put i f); [exact Hf|exact Hc|reflexivity| |].
  - intros j g Hj Hg. unfold item. simpl. apply K1.
  - intros _. rewrite as_from_cache by lia. exists v. unfold item. simpl. rewrite K1. by repeat split.
Qed.
Lemma restore_coherent fields : forall n a b errors (x : Store),
  (forall i f, fields !! i = Some f -> FS !! (n + i)%nat = Some f) -> coherent x ->
  coherent (restore_fields index fields a b errors x).2.
Proof using All.
  induction fields as [|f fields IH]; intros n a b errors x Hat Hc; cbn [restore_fields]; [done|].
  assert (FS !! n = Some f) as Hf by (rewrite <- (Nat.add_0_r n); by apply Hat).
  pose proof (restore_field_coherent n f x Hf Hc) as Hc2.
  assert (forall i g, fields !! i = Some g -> FS !! (Datatypes.S n + i)%nat = Some g) as Hat'.
  { intros i g Hi. rewrite Nat.add_succ_comm. by apply (Hat (Datatypes.S i)). }
  destruct (restore_field _ _ _) as [[[]|] x2]; by apply (IH (Datatypes.S n)).
Qed.

Lemma reset_mono level fields : forall errors (x : Store), errors <= (reset_fields index level fields errors x).1.
Proof using.
  induction fields as [|f fields IH]; intros errors x; cbn [reset_fields]; [simpl; lia|].
  case_goal; [apply IH|]. destruct (remove_item _ _) as [[]?]; [apply IH|].
  etransitivity; [|apply IH]. lia.
Qed.
Lemma reset_coherent level fields : forall n errors (x : Store),
  (forall i f, fields !! i = Some f -> FS !! (n + i)%nat = Some f) -> coherent x ->
  (reset_fields index level fields errors x).1 = errors -> coherent (reset_fields index level fields errors x).2.
Proof using All.
  induction fields as [|f fields IH]; intros n errors x Hat Hc; cbn [reset_fields]; [done|].
  assert (FS !! n = Some f) as Hf by (rewrite <- (Nat.add_0_r n); by apply Hat).
  assert (forall i g, fields !! i = Some g -> FS !! (Datatypes.S n + i)%nat = Some g) as Hat'.
  { intros i g Hi. rewrite Nat.add_succ_comm. by apply (Hat (Datatypes.S i)). }
  case_goal; [by apply (IH (Datatypes.S n))|].
  pose proof (remove_ok (st_flash x) (rs_name_hash f)) as [K1 K2].
  destruct (remove_item _ _) as [[[]|[]] fl]; simpl in K1, K2.
  - apply (IH (Datatypes.S n)); [done|]. eapply (coherent_put n f); [exact Hf|exact Hc|reflexivity| |].
    + intros j g Hj Hg. unfold item. simpl. apply K1. by eapply fs_hash.
    + intros []. reflexivity.
  - intros He. exfalso. match type of He with ?a = _ => assert (errors + 1 <= a) by apply reset_mono end. lia.
Qed.

End durable.

(** ** Reports leave the persistent registers alone *)

Section reports.
Context {H : NameHash} {F S : Type} `{SL : ShadowLaws S}.

Lemma put_far i f (s : S) a d : EEPROM_FIELDS !! i = Some f -> 64 <= a -> a + Z.of_nat (length d) <= 1024 -> bytes_ok d ->
  field_bytes (host_put s a d) f = field_bytes s f.
Proof using SL.
  intros Hf Ha Hd Hb. apply field_shape in Hf as (Ht & Hl & H64). unfold field_bytes.
  assert (in_table a (length d)) as Hin by (unfold in_table, SHADOW_TABLE_SIZE; lia).
  rewrite host_put_mem by done. apply slice_splice_other; [apply sh_len|done|done|]. left. lia.
Qed.
Lemma telemetry_reads r b (x : @Store F S) f i : EEPROM_FIELDS !! i = Some f ->
  field_bytes (st_shadow (write_telemetry r b x)) f = field_bytes (st_shadow x) f.
Proof using SL.
  intros Hf. unfold write_telemetry. cbn [st_shadow]. destruct persist_addrs as (-> & -> & ->).
  rewrite !(put_far i f); try exact Hf; try (simpl; lia); try apply to_le16_ok; try reflexivity;
    apply bytes_ok_cons; (split; [destruct r, b; simpl; lia|constructor]).
Qed.

End reports.

(** ** Runs of the service *)

Section runs.
Context {H : NameHash} {F S : Type} `{FL : FlashMapLaws F} `{SL : ShadowLaws S}.
Local Abbreviation index := (registry_init None).

(** A boot, host writes, and signals served without a flash error. *)
Inductive run : @Store F S -> Prop :=
| run_boot fl s : run (PersistTask_init index (mkStore PersistTask_new fl s))
| run_host x s : run x -> run (mkStore (st_task x) (st_flash x) s)
| run_signal x op : run x -> pk_last_result (st_task (handle_once index op x)) <> Some PrWriteFailed -> run (handle_once index op x).

Hypothesis distinct_hashes : base.NoDup (rs_name_hash <$> EEPROM_FIELDS).
Local Abbreviation co := (coherent EEPROM_FIELDS).

Lemma at_zero : forall i f, EEPROM_FIELDS !! i = Some f -> EEPROM_FIELDS !! (0 + i)%nat = Some f.
Proof using. intros i f Hf. exact Hf. Qed.
Lemma idx_ok : forall i f, EEPROM_FIELDS !! i = Some f -> eeprom_idx_by_hash index (rs_name_hash f) = Some i.
Proof using distinct_hashes. intros i f Hf. exact (eeprom_indexed i f distinct_hashes Hf). Qed.
Lemma hash_ok : forall i j f g, EEPROM_FIELDS !! i = Some f -> EEPROM_FIELDS !! j = Some g -> i <> j -> rs_name_hash f <> rs_name_hash g.
Proof using distinct_hashes. intros i j f g Hf Hg. exact (hash_apart i j f g distinct_hashes Hf Hg). Qed.

Lemma coherent_new (fl : F) (s : S) : co (mkStore PersistTask_new fl s).
Proof using.
  split; [unfold PersistTask_new, EEPROM_COUNT; cbn [st_task pk_cache]; apply length_replicate|].
  intros i f e _ He Hn. unfold PersistTask_new in He. cbn [st_task pk_cache] in He.
  apply lookup_replicate_1 in He as [-> _]. exfalso. apply Hn. reflexivity.
Qed.
Lemma report_coherent r (x : @Store F S) : co x -> co (report r x).
Proof using. intros [C1 C2]. split; [exact C1|exact C2]. Qed.
Lemma boot_coherent (fl : F) (s : S) : co (PersistTask_init index (mkStore PersistTask_new fl s)).
Proof using All.
  unfold PersistTask_init.
  pose proof (restore_coherent EEPROM_FIELDS index field_shape field_apart hash_ok idx_ok EEPROM_FIELDS 0 0 0 0 _ at_zero (coherent_new fl s)) as C.
  destruct (restore_fields _ _ _ _ _ _) as [[[restored mismatched] errors] x]. cbn [snd] in C.
  assert (co (mark_initialized x)) as C' by (destruct C as [C1 C2]; split; [exact C1|exact C2]).
  destruct (0 <? errors); [exact (report_coherent _ _ C)|]. destruct (restored =? 0); [exact (report_coherent _ _ C')|].
  destruct (0 <? mismatched); exact (report_coherent _ _ C').
Qed.

Lemma split_nil : EEPROM_FIELDS = [] ++ EEPROM_FIELDS.
Proof using. reflexivity. Qed.

(** A save that reports no error leaves every field's item as the table had it. *)
Lemma handle_save_ok (x : @Store F S) : co x ->
  pk_last_result (st_task (handle_save index x)) <> Some PrWriteFailed ->
  co (handle_save index x) /\
  (pk_last_result (st_task (handle_save index x)) <> Some PrBusy ->
    host_read (st_shadow x) TORQUE_ENABLE_ADDR 1 = Some [0] /\
    forall i f, EEPROM_FIELDS !! i = Some f -> stores (handle_save index x) f (field_bytes (st_shadow x) f)).
Proof using All.
  intros C. unfold handle_save, take_snapshot.
  assert (in_table TORQUE_ENABLE_ADDR 1) as Ht by (unfold in_table, TORQUE_ENABLE_ADDR, SHADOW_TABLE_SIZE; lia).
  rewrite host_read_ok by exact Ht. pose proof (slice_length _ _ _ (sh_len (st_shadow x)) Ht) as Hl.
  destruct (slice _ TORQUE_ENABLE_ADDR 1) as [|t [|]] eqn:Et; [discriminate Hl| |discriminate Hl]. clear Hl. cbn [hd].
  destruct (Z.eqb_spec t 0) as [->|Hne]; cbn [negb].
  2: { intros _. split; [exact (report_coherent _ _ C)|]. intros Hb. exfalso. apply Hb. reflexivity. }
  destruct (snapshot_exact EEPROM_FIELDS index field_shape field_apart hash_ok idx_ok (st_shadow x) EEPROM_FIELDS [] (replicate EEPROM_COUNT CacheEntry_empty) 0 split_nil)
    as (snap & -> & _ & Hsnap & _); [apply length_replicate|].
  pose proof (save_exact EEPROM_FIELDS index field_shape field_apart hash_ok idx_ok (st_shadow x) snap EEPROM_FIELDS [] 0 0 x split_nil
    (fun i f => Hsnap i f (Nat.le_0_l _)) C) as E.
  change (length (@nil RegSpec)) with 0%nat in E. destruct (save_changed_fields _ _ _ _ _ _ _) as [[saved errors] y]. destruct E as [E1 E2].
  destruct (Z.ltb_spec 0 (0 + errors)) as [He|He]; [intros X; exfalso; apply X; reflexivity|]. intros _.
  assert (errors = 0) as H0' by lia. destruct (E2 H0') as (D1 & D2 & _).
  assert (forall i f, EEPROM_FIELDS !! i = Some f -> stores y f (field_bytes (st_shadow x) f)) as D3 by (intros i f; exact (D2 i f (Nat.le_0_l _))).
  destruct (0 <? saved).
  - assert (co (bump_generation y)) as C' by (destruct D1 as [C1 C2]; split; [exact C1|exact C2]).
    split; [exact (report_coherent _ _ C')|]. intros _. split; [reflexivity|exact D3].
  - split; [exact (report_coherent _ _ D1)|]. intros _. split; [reflexivity|exact D3].
Qed.

Lemma handle_reset_ok level (x : @Store F S) : co x ->
  pk_last_result (st_task (handle_factory_reset index level x)) <> Some PrWriteFailed -> co (handle_factory_reset index level x).
Proof using All.
  intros C. unfold handle_factory_reset.
  pose proof (reset_coherent EEPROM_FIELDS index field_shape field_apart hash_ok idx_ok level EEPROM_FIELDS 0 0 x at_zero C) as R.
  pose proof (reset_mono index level EEPROM_FIELDS 0 x) as M.
  destruct (reset_fields _ _ _ _ _) as [errors y]. cbn [fst snd] in R, M.
  destruct (Z.ltb_spec 0 errors) as [He|He]; intros X; [exfalso; apply X; reflexivity|].
  apply report_coherent. apply R. lia.
Qed.

#[local] Opaque handle_save handle_factory_reset.
Lemma run_coherent (x : @Store F S) : run x -> co x.
Proof using All.
  induction 1 as [fl s|x s _ [C1 C2]|x op _ C He]; [apply boot_coherent|split; [exact C1|exact C2]|].
  destruct op as [level|]; cbn [handle_once] in He |- *; [exact (handle_reset_ok level x C He)|exact (proj1 (handle_save_ok x C He))].
Qed.

(** A boot that reports no error has put every stored field in the table. *)
Lemma boot_restores (val : RegSpec -> list Z) fl (s : S) :
  (forall i f, EEPROM_FIELDS !! i = Some f -> length (val f) = Z.to_nat (RegSpec_len f) /\ bytes_ok (val f)) ->
  (forall i f, EEPROM_FIELDS !! i = Some f -> stores (mkStore PersistTask_new fl s) f (val f)) ->
  let z := PersistTask_init index (mkStore PersistTask_new fl s) in
  pk_last_result (st_task z) <> Some PrWriteFailed ->
  forall i f, EEPROM_FIELDS !! i = Some f -> field_bytes (st_shadow z) f = val f.
Proof using All.
  intros Hval Hst z. subst z. unfold PersistTask_init.
  pose proof (restore_exact EEPROM_FIELDS index field_shape field_apart hash_ok idx_ok val EEPROM_FIELDS 0 0 0 0 _ at_zero Hval Hst) as R.
  pose proof (restore_mono index EEPROM_FIELDS 0 0 0 (mkStore PersistTask_new fl s)) as M.
  destruct (restore_fields _ _ _ _ _ _) as [[[restored mismatched] errors] x].
  destruct (Z.ltb_spec 0 errors) as [He|He]; [intros X; exfalso; apply X; reflexivity|]. intros _ i f Hf.
  assert (errors = 0) as H0' by lia. specialize (R H0') as [R _]. specialize (R i f Hf).
  destruct (restored =? 0); [|destruct (0 <? mismatched)]; unfold report; rewrite (telemetry_reads _ _ _ f i Hf); exact R.
Qed.

End runs.

(** C37: a save that reports success survives a reboot.  Let the name hash give
    the persistent fields distinct keys, let the service have run in any way (a
    boot, host writes, saves and factory resets, none with a flash error), and
    save once more.  If it answers Ok or NoChange, the register the service checks
    first (address 64) read 0, and after any later boot from that flash which
    reports no error every persistent register holds the bytes it held when the
    save was served. *)
Theorem save_survives_boot {H : NameHash} {F S : Type} `{FL : FlashMapLaws F} `{SL : ShadowLaws S} (x : @Store F S) (s0 : S) :
  base.NoDup (rs_name_hash <$> EEPROM_FIELDS) -> run x ->
  let y := handle_once (registry_init None) None x in
  pk_last_result (st_task y) = Some PrOk \/ pk_last_result (st_task y) = Some PrNoChange ->
  let z := PersistTask_init (registry_init None) (mkStore PersistTask_new (st_flash y) s0) in
  pk_last_result (st_task z) <> Some PrWriteFailed ->
  host_read (st_shadow x) TORQUE_ENABLE_ADDR 1 = Some [0] /\
  forall f, In f EEPROM_FIELDS ->
    host_read (st_shadow z) (rs_address f) (Z.to_nat (RegSpec_len f)) = host_read (st_shadow x) (rs_address f) (Z.to_nat (RegSpec_len f)).
Proof.
  intros Hn Hx y Hy z Hz. pose proof (run_coherent Hn x Hx) as C. unfold handle_once in y.
  destruct (handle_save_ok Hn x C) as [_ K]; [intros E; subst y; rewrite E in Hy; destruct Hy; discriminate|].
  destruct K as [Kt Ks]; [intros E; subst y; rewrite E in Hy; destruct Hy; discriminate|].
  split; [exact Kt|]. intros f Hf. apply list_elem_of_In, list_elem_of_lookup_1 in Hf as [i Hf].
  pose proof (boot_restores Hn (field_bytes (st_shadow x)) (st_flash y) s0) as R.
  destruct (field_shape i f Hf) as (Ht & _). rewrite !host_read_ok by exact Ht. f_equal.
  refine (R _ _ Hz i f Hf).
  - intros j g Hg. destruct (field_shape j g Hg) as (Hg' & _).
    split; [exact (slice_length _ _ _ (sh_len _) Hg')|apply slice_bytes, sh_bytes].
  - exact Ks.
Qed.

#[local] Transparent handle_save handle_factory_reset.

(** ** A flash that never fails *)

Definition MapFlash : Type := gmap Z FieldValue.
Definition value_norm (v : FieldValue) : FieldValue :=
  mkFieldValue (take MAX_FIELD_LEN ((u8 <$> fv_data v) ++ replicate MAX_FIELD_LEN 0)) (Nat.min (fv_len v) MAX_FIELD_LEN).
#[export] Instance MapFlash_ops : FlashMap MapFlash := {
  fetch_item f k := (Ok (value_norm <$> f !! k), f);
  store_item f k v := (Ok tt, <[k := v]> f);
  remove_item f k := (Ok tt, delete k f);
}.
Lemma u8_bytes l : bytes_ok l -> u8 <$> l = l.
Proof. induction 1 as [|x l Hx _ IH]; [done|]. rewrite fmap_cons, IH, u8_id; done. Qed.
Lemma value_norm_id v : value_ok v -> value_norm v = v.
Proof.
  intros (Hl & Hn & Hb). destruct v as [d n]. unfold value_norm. cbn [fv_data fv_len] in *.
  rewrite u8_bytes by done. rewrite <- Hl at 1. rewrite take_app_length. f_equal. lia.
Qed.
#[export] Instance MapFlash_laws : FlashMapLaws MapFlash.
Proof.
  refine {| fm_item := fun (f : MapFlash) k => value_norm <$> (f !! k) |}.
  - intros f k v E. destruct (f !! k) as [w|]; [|done]. injection E as <-. unfold value_ok, value_norm. cbn [fv_data fv_len].
    split; [rewrite length_take, length_app, length_replicate; lia|]. split; [lia|].
    apply bytes_ok_take, bytes_ok_app. split; [|repeat constructor; lia].
    apply List.Forall_forall. intros y Hy. apply list_elem_of_In, list_elem_of_fmap in Hy as (z & -> & _). apply u8_range.
  - intros f k. simpl. split; [done|]. by intros o [= <-].
  - intros f k v. unfold MapFlash in f. split.
    + intros k' Hk. change (value_norm <$> (<[k := v]> f) !! k' = value_norm <$> f !! k'). by rewrite lookup_insert_ne.
    + intros Hv _. change (value_norm <$> (<[k := v]> f) !! k = Some v). rewrite lookup_insert_eq. cbn. f_equal. by apply value_norm_id.
  - intros f k. unfold MapFlash in f. split.
    + intros k' Hk. change (value_norm <$> (delete k f) !! k' = value_norm <$> f !! k'). by rewrite lookup_delete_ne.
    + intros _. change (value_norm <$> (delete k f) !! k = None). by rewrite lookup_delete_eq.
Defined.

Definition demo_nodup `{NameHash} : bool := bool_decide (base.NoDup (rs_name_hash <$> EEPROM_FIELDS)).
(** First boot, then the host changes the identity and it is saved. *)
Definition demo_boot : @Store MapFlash BlockShadow :=
  let H := demo_hash in PersistTask_init (registry_init None) (mkStore PersistTask_new ∅ (mkBlockShadow [] [])).
Definition demo_edited : @Store MapFlash BlockShadow :=
  mkStore (st_task demo_boot) (st_flash demo_boot) (host_put (st_shadow demo_boot) 7 [42]).
Definition demo_after : @Store MapFlash BlockShadow :=
  let H := demo_hash in
  PersistTask_init (registry_init None)
    (mkStore PersistTask_new (st_flash (handle_once (registry_init None) None demo_edited)) (mkBlockShadow [] [])).
Lemma save_survives_boot_witness :
  let H := demo_hash in
  pk_last_result (st_task (handle_once (registry_init None) None demo_edited)) = Some PrOk /\
  host_read (st_shadow demo_after) 7 1 = Some [42] /\
  forall f, In f EEPROM_FIELDS ->
    host_read (st_shadow demo_after) (rs_address f) (Z.to_nat (RegSpec_len f))
    = host_read (st_shadow demo_edited) (rs_address f) (Z.to_nat (RegSpec_len f)).
Proof.
  intros H. assert (pk_last_result (st_task (handle_once (registry_init None) None demo_edited)) = Some PrOk) as Hok
    by (vm_compute; reflexivity).
  split; [exact Hok|]. split; [vm_compute; reflexivity|].
  unfold demo_after. refine (proj2 (@save_survives_boot demo_hash MapFlash BlockShadow _ _ _ _ demo_edited (mkBlockShadow [] []) _ _ _ _)).
  - apply (bool_decide_eq_true_1 _). vm_compute. reflexivity.
  - apply run_host, run_boot.
  - left. exact Hok.
  - intros E. vm_compute in E. discriminate E.
Defined.

(** A field that is merely absent counts as a mismatched one: the boot after a
    factory reset that keeps the identity reports a changed registry. *)
Example reset_reports_mismatch :
  let H := demo_hash in
  let saved := handle_once (registry_init None) None demo_edited in
  let reset := handle_once (registry_init None) (Some RlExceptId) saved in
  let z := PersistTask_init (registry_init None) (mkStore PersistTask_new (st_flash reset) (mkBlockShadow [] [])) in
  pk_last_result (st_task reset) = Some PrOk /\ pk_last_result (st_task z) = Some PrLengthMismatch /\
  host_read (st_shadow z) 7 1 = Some [42].
Proof. vm_compute. auto. Qed.
