(* ===== verification/Kernel.v ===== *)
(** * The servo kernel of the previous generation
      (firmware-old/open-servo-kernel, open-servo-kernel-api, open-servo-hw/src/v2,
      open-servo-registry/src/facade.rs, open-servo-runtime/src/executor.rs)

    The executor runs the kernel from one interrupt: a fast tick per sample, every
    tenth one a medium tick at whose boundary the kernel takes what the host wrote
    to the shared table and publishes its state there, every fifth of those a slow
    tick with the queued operations.  Overflow wraps, as in CtlMath.v; [None] is a
    panic.

    The theorems: over every run the motor is driven only while torque is on and
    the driver is well, inside the configured limit; and torque off takes effect
    within a medium period.  The examples at the end show what the boundary does
    to the shared table. *)

From Stdlib Require Import String.
From S2P Require Import Prelude Registry Shadow CtlMath.
From stdpp Require Import gmap.
Open Scope string_scope.
Open Scope list_scope.
Open Scope Z_scope.

(** ** Samples and commands (hw/src/v2: samples.rs, io.rs, capability.rs) *)

Inductive Reading (T R : Type) := RdInvalid (raw : R) | RdValid (value : T) (raw : R).
Arguments RdInvalid {T R} raw.
Arguments RdValid {T R} value raw.
Definition Reading_value {T R} (r : Reading T R) : option T := match r with RdValid v _ => Some v | RdInvalid _ => None end.
Definition Reading_raw {T R} (r : Reading T R) : R := match r with RdValid _ raw | RdInvalid raw => raw end.

Inductive MotorCurrentRaw := McrBdc (a : Z) | McrBldc (a b c : Z).
Inductive MotorVoltageRaw := MvrBdc (a b : Z) | MvrBldc (a b c : Z).
Inductive MotorCurrent := McBdc (i : Z) | McBldcPhases (a b c : Z).
Inductive MotorVoltage := MvBdc (a b : Z) | MvBldcPhases (a b c : Z).

Record SensorFrame := mkFrame {
  sf_pos : Reading Z Z; sf_current : Reading MotorCurrent MotorCurrentRaw; sf_mcu_vdd : Reading Z Z;
  sf_vsys : option (Reading Z Z); sf_ambient_temp : Reading Z Z; sf_motor_temp : option (Reading Z Z);
  sf_motor_pos : option (Reading Z Z); sf_motor_v : option (Reading MotorVoltage MotorVoltageRaw); sf_driver_ok : bool }.
Definition SensorFrame_default : SensorFrame :=
  mkFrame (RdInvalid 0) (RdInvalid (McrBdc 0)) (RdInvalid 0) None (RdInvalid 0) None None None false.

Inductive DriveMode := DmCoast | DmBrake | DmDrive.
Inductive PwmStrategy := PsFastDecay | PsSlowDecay.
Record MotorHints := mkHints { mh_drive_pwm : option PwmStrategy; mh_brake_strength : option Z }.
Definition MotorHints_default : MotorHints := mkHints None None.
Record MotorCommand := mkCommand { mc_driver_en : bool; mc_mode : DriveMode; mc_effort : Z; mc_hints : MotorHints }.
Definition MotorCommand_safe : MotorCommand := mkCommand false DmCoast 0 (mkHints None None).

Inductive ServoPosKind := SpBounded (min max : Z) | SpWrap360.
Inductive MotorType := MtBdc | MtBldc.
Definition MotorType_as_u8 (m : MotorType) : Z := match m with MtBdc => 0 | MtBldc => 1 end.

(** ** The kernel's vocabulary (kernel-api) *)

Inductive OperatingMode := OmPosition | OmOpenLoop.
Definition OperatingMode_as_u8 (m : OperatingMode) : Z := match m with OmPosition => 0 | OmOpenLoop => 1 end.
Inductive ModeError := MeUnsupported | MeBusy | MeFaulted.
Inductive GateReason := GrOk | GrDisengaged | GrFaulted | GrDriverNotOk.
Definition GateReason_as_u8 (g : GateReason) : Z := match g with GrOk => 0 | GrDisengaged => 1 | GrFaulted => 2 | GrDriverNotOk => 3 end.
Inductive ResetScope := RsControl | RsAllState.
Inductive KernelOp := KoModeRequest (m : OperatingMode) | KoFaultAck (id : Z) | KoFaultAckAll | KoCommitShadow | KoSoftReset (s : ResetScope) | KoPing.
Inductive KernelResult := KrOk | KrBusy | KrInvalidMode | KrFaulted | KrFaultAckRefused.
Inductive CommitResult := CrOk | CrNothingToCommit | CrBusy | CrValidationError (offset : Z).
Inductive TickDomain := TdControlFast | TdControlMedium | TdControlSlow | TdSystem.
Record Tick := mkTick { tk_domain : TickDomain; tk_dt : Z; tk_seq : Z }.
Record KernelCtx := mkKernelCtx { kc_fast : Z; kc_medium : Z; kc_slow : Z; kc_system : Z }.
Definition KernelCtx_new : KernelCtx := mkKernelCtx 0 0 0 0.
Definition next_control_fast (dt : Z) (c : KernelCtx) : Tick * KernelCtx :=
  let n := u32 (kc_fast c + 1) in (mkTick TdControlFast dt n, mkKernelCtx n (kc_medium c) (kc_slow c) (kc_system c)).
Definition next_control_medium (dt : Z) (c : KernelCtx) : Tick * KernelCtx :=
  let n := u32 (kc_medium c + 1) in (mkTick TdControlMedium dt n, mkKernelCtx (kc_fast c) n (kc_slow c) (kc_system c)).
Definition next_control_slow (dt : Z) (c : KernelCtx) : Tick * KernelCtx :=
  let n := u32 (kc_slow c + 1) in (mkTick TdControlSlow dt n, mkKernelCtx (kc_fast c) (kc_medium c) n (kc_system c)).

(** The fault latch nodes raise into (faults.rs). *)
Inductive FaultKind := FkEncoderFault | FkOverCurrent | FkStall | FkPositionError | FkMcuOverTemp | FkMotorOverTemp.
Definition FaultKind_as_u32 (k : FaultKind) : Z :=
  match k with FkEncoderFault => 0 | FkOverCurrent => 1 | FkStall => 2 | FkPositionError => 3 | FkMcuOverTemp => 4 | FkMotorOverTemp => 5 end.
Definition FaultKind_mask (k : FaultKind) : Z := Z.shiftl 1 (FaultKind_as_u32 k).
Record FaultLatch := mkLatch { fl_mask : Z; fl_last : option FaultKind; fl_seq : Z }.
Definition FaultLatch_default : FaultLatch := mkLatch 0 None 0.
Definition FaultLatch_has (l : FaultLatch) (k : FaultKind) : bool := negb (Z.land (fl_mask l) (FaultKind_mask k) =? 0).
Definition FaultLatch_raise (k : FaultKind) (l : FaultLatch) : bool * FaultLatch :=
  let was_new := Z.land (fl_mask l) (FaultKind_mask k) =? 0 in
  (was_new, mkLatch (Z.lor (fl_mask l) (FaultKind_mask k)) (Some k) (if was_new then u32 (fl_seq l + 1) else fl_seq l)).
Definition FaultLatch_clear (k : FaultKind) (l : FaultLatch) : bool * FaultLatch :=
  let was_set := FaultLatch_has l k in
  (was_set, if was_set then mkLatch (Z.land (fl_mask l) (Z.lxor 4294967295 (FaultKind_mask k))) (fl_last l) (u32 (fl_seq l + 1)) else l).
Definition FaultLatch_clear_all (l : FaultLatch) : bool * FaultLatch :=
  let was_faulted := negb (fl_mask l =? 0) in
  (was_faulted, if was_faulted then mkLatch 0 (fl_last l) (u32 (fl_seq l + 1)) else l).

(** ** The kernel's state (kernel/src/state.rs) *)

Record PidGains := mkGains { pg_kp : Z; pg_ki : Z; pg_kd : Z }.
Record KernelConfig := mkKernelConfig {
  kf_pos_pid : PidGains; kf_hold_deadband_cdeg : Z; kf_effort_limit_raw : Z;
  kf_servo_pos_kind : ServoPosKind; kf_motor_type : MotorType; kf_sensor_caps : Z }.
Record KernelState := mkKernelState {
  ks_engaged : bool; ks_mode : OperatingMode; ks_fault_mask : Z; ks_pos_sp : Z; ks_open_loop_effort : Z;
  ks_frame : SensorFrame; ks_pos : Z; ks_last_cmd : MotorCommand; ks_last_gate : GateReason; ks_pos_pid : PidI16; ks_last_dt : Z }.
Definition KernelState_new (gains : PidGains) (effort_limit : Z) : KernelState :=
  let lim := i16 (Z.abs effort_limit) in
  mkKernelState false OmPosition 0 0 0 SensorFrame_default 0 MotorCommand_safe GrDisengaged
    (PidI16_new_auto_anti_windup (pg_kp gains) (pg_ki gains) (pg_kd gains) OnMeasurement (- lim) lim) 0.
Definition KernelState_update_frame (frame : SensorFrame) (k : KernelState) : KernelState :=
  mkKernelState (ks_engaged k) (ks_mode k) (ks_fault_mask k) (ks_pos_sp k) (ks_open_loop_effort k) frame
    (default (ks_pos k) (Reading_value (sf_pos frame))) (ks_last_cmd k) (ks_last_gate k) (ks_pos_pid k) (ks_last_dt k).

(** ** The kernel (kernel/src/kernel.rs) *)

Record ServoKernel := mkKernel { sk_cfg : KernelConfig; sk_st : KernelState; sk_pending_mode : option OperatingMode; sk_reset_req : option ResetScope }.
Definition ServoKernel_new (cfg : KernelConfig) : ServoKernel :=
  mkKernel cfg (KernelState_new (kf_pos_pid cfg) (kf_effort_limit_raw cfg)) None None.
Definition with_st (f : KernelState -> KernelState) (k : ServoKernel) : ServoKernel :=
  mkKernel (sk_cfg k) (f (sk_st k)) (sk_pending_mode k) (sk_reset_req k).
Definition ServoKernel_update_frame (frame : SensorFrame) (k : ServoKernel) : ServoKernel := with_st (KernelState_update_frame frame) k.

Definition set_out (cmd : MotorCommand) (g : GateReason) (k : KernelState) : KernelState :=
  mkKernelState (ks_engaged k) (ks_mode k) (ks_fault_mask k) (ks_pos_sp k) (ks_open_loop_effort k) (ks_frame k) (ks_pos k) cmd g (ks_pos_pid k) (ks_last_dt k).
Definition set_pid (p : PidI16) (dt : Z) (k : KernelState) : KernelState :=
  mkKernelState (ks_engaged k) (ks_mode k) (ks_fault_mask k) (ks_pos_sp k) (ks_open_loop_effort k) (ks_frame k) (ks_pos k) (ks_last_cmd k) (ks_last_gate k) p dt.
Definition reset_pid (k : KernelState) : KernelState := set_pid (PidI16_reset (ks_pos_pid k)) (ks_last_dt k) k.

Definition compute_gate_reason (k : KernelState) : GateReason :=
  if negb (ks_engaged k) then GrDisengaged
  else if negb (sf_driver_ok (ks_frame k)) then GrDriverNotOk
  else if negb (ks_fault_mask k =? 0) then GrFaulted
  else GrOk.
Definition position_pid (dt : Z) (k : KernelState) : Z * KernelState :=
  let '(output, p) := PidI16_step true true (ks_pos_sp k) (ks_pos k) (ks_pos_pid k) in
  (i16 (clamp output (-32768) 32767), set_pid p dt k).

(** Telemetry: an identifier and a value per sample. *)
Definition tid_POS_CDEG32 : Z := 1.
Definition tid_EFFORT_RAW : Z := 5.
Definition tid_MODE : Z := 20.
Definition tid_ENGAGED : Z := 21.
Definition tid_SATURATION_COUNT : Z := 40.
Definition Telem : Type := list (Z * Z).

(** Near the set point the motor coasts, else it is driven. *)
Definition near_setpoint (cfg : KernelConfig) (k : KernelState) : bool :=
  i32 (Z.abs (i32 (ks_pos_sp k - ks_pos k))) <=? kf_hold_deadband_cdeg cfg.
Definition tick_fast (dt : Z) (k : ServoKernel) : MotorCommand * Telem * ServoKernel :=
  let st := sk_st k in
  let gate := compute_gate_reason st in
  let telem := [(tid_MODE, OperatingMode_as_u8 (ks_mode st)); (tid_ENGAGED, if ks_engaged st then 1 else 0);
                (tid_POS_CDEG32, ks_pos st); (tid_EFFORT_RAW, mc_effort (ks_last_cmd st))] in
  match gate with
  | GrOk =>
      let '(effort, st) := match ks_mode st with OmOpenLoop => (ks_open_loop_effort st, st) | OmPosition => position_pid dt st end in
      let cmd := if near_setpoint (sk_cfg k) st then mkCommand true DmCoast 0 MotorHints_default
                 else mkCommand true DmDrive effort MotorHints_default in
      (cmd, telem, mkKernel (sk_cfg k) (set_out cmd gate st) (sk_pending_mode k) (sk_reset_req k))
  | _ =>
      (MotorCommand_safe, telem, mkKernel (sk_cfg k) (set_out MotorCommand_safe gate st) (sk_pending_mode k) (sk_reset_req k))
  end.
Definition tick_medium : Telem := [(tid_SATURATION_COUNT, 0)].

Definition apply_pending_reset (k : ServoKernel) : ServoKernel :=
  match sk_reset_req k with
  | None => k
  | Some (RsControl | RsAllState) => mkKernel (sk_cfg k) (reset_pid (sk_st k)) (sk_pending_mode k) None
  end.
Definition apply_mode (m : OperatingMode) (k : KernelState) : KernelState :=
  reset_pid (mkKernelState (ks_engaged k) m (ks_fault_mask k) (ks_pos_sp k) (ks_open_loop_effort k) (ks_frame k) (ks_pos k)
    (ks_last_cmd k) (ks_last_gate k) (ks_pos_pid k) (ks_last_dt k)).
Definition tick_system (k : ServoKernel) : ServoKernel :=
  let k := apply_pending_reset k in
  match sk_pending_mode k with
  | None => k
  | Some m =>
      if ks_engaged (sk_st k) then k
      else mkKernel (sk_cfg k) (apply_mode m (sk_st k)) None (sk_reset_req k)
  end.
Definition ServoKernel_tick (t : Tick) (k : ServoKernel) : MotorCommand * Telem * ServoKernel :=
  match tk_domain t with
  | TdControlFast => tick_fast (tk_dt t) k
  | TdControlMedium => (ks_last_cmd (sk_st k), tick_medium, k)
  | TdControlSlow => (ks_last_cmd (sk_st k), [], k)
  | TdSystem => let k := tick_system k in (ks_last_cmd (sk_st k), [], k)
  end.

Definition request_mode (m : OperatingMode) (k : ServoKernel) : result unit ModeError * ServoKernel :=
  if ks_engaged (sk_st k) then (Err MeBusy, k) else (Ok tt, mkKernel (sk_cfg k) (sk_st k) (Some m) (sk_reset_req k)).
Definition fault_bit (id : Z) : option Z := if id <? 32 then Some id else None.
Definition set_fault_mask (m : Z) (k : KernelState) : KernelState :=
  mkKernelState (ks_engaged k) (ks_mode k) m (ks_pos_sp k) (ks_open_loop_effort k) (ks_frame k) (ks_pos k) (ks_last_cmd k) (ks_last_gate k) (ks_pos_pid k) (ks_last_dt k).
Definition apply_op (op : KernelOp) (k : ServoKernel) : KernelResult * ServoKernel :=
  match op with
  | KoModeRequest m =>
      match request_mode m k with
      | (Ok _, k) => (KrOk, k)
      | (Err e, k) => (match e with MeUnsupported => KrInvalidMode | MeBusy => KrBusy | MeFaulted => KrFaulted end, k)
      end
  | KoFaultAck id =>
      match fault_bit id with
      | Some bit => (KrOk, with_st (fun st => set_fault_mask (Z.land (ks_fault_mask st) (Z.lxor 4294967295 (Z.shiftl 1 bit))) st) k)
      | None => (KrFaultAckRefused, k)
      end
  | KoFaultAckAll => (KrOk, with_st (set_fault_mask 0) k)
  | KoCommitShadow => (KrOk, k)
  | KoSoftReset scope => (KrOk, mkKernel (sk_cfg k) (sk_st k) (sk_pending_mode k) (Some scope))
  | KoPing => (KrOk, k)
  end.

(** ** The position codec (registry/src/facade.rs) *)

Definition MAX_MAP_LEN : nat := 4.
Definition pulses_to_cdeg (pulses : Z) : Z :=
  let sign := if 0 <=? pulses then 5 else -5 in Z.quot (i32 (i32 (pulses * 88) + sign)) 10.
Definition cdeg_to_pulses (cdeg : Z) : Z :=
  let sign := if 0 <=? cdeg then 44 else -44 in Z.quot (i32 (i32 (cdeg * 10) + sign)) 88.
Record CodecCtx := mkCodecCtx { cx_operating_mode : Z; cx_servo_pos_kind : Z; cx_pos_min_limit_cdeg : Z; cx_pos_max_limit_cdeg : Z }.
(** [i32::clamp] panics when its bounds are crossed. *)
Definition i32_clamp (x lo hi : Z) : option Z := if lo <=? hi then Some (clamp x lo hi) else None.
Definition decode_position (pulses : Z) (c : CodecCtx) : option Z :=
  let cdeg := pulses_to_cdeg pulses in
  if cx_servo_pos_kind c =? 0 then i32_clamp cdeg (cx_pos_min_limit_cdeg c) (cx_pos_max_limit_cdeg c) else Some cdeg.
Definition encode_position (cdeg : Z) (c : CodecCtx) : option Z :=
  clamped ← (if cx_servo_pos_kind c =? 0 then i32_clamp cdeg (cx_pos_min_limit_cdeg c) (cx_pos_max_limit_cdeg c) else Some cdeg);
  Some (cdeg_to_pulses clamped).
Definition le_i32 (bs : list Z) : option Z :=
  match bs with a :: b :: c :: d :: _ => Some (i32 (from_le32 a b c d)) | _ => None end.
Definition le_i16 (bs : list Z) : option Z := match bs with a :: b :: _ => Some (i16 (from_le16 a b)) | _ => None end.
(** [dst.copy_from_slice(src)]. *)
Definition copy_exact (src : list Z) (n : nat) : option (list Z) := if Nat.eqb (length src) n then Some src else None.
Definition apply_codec_encode (codec : CodecKind) (src : list Z) (dst_len : nat) (c : CodecCtx) : option (list Z) :=
  match codec with
  | CkIdentity => copy_exact src dst_len
  | CkPosition => cdeg ← le_i32 src; pulses ← encode_position cdeg c; copy_exact (to_le32 pulses) dst_len
  end.

Section tables.
Context {H : NameHash} {T : Type} `{SH : Shadow T}.

Definition CodecCtx_from_view (s : T) : option CodecCtx :=
  lo ← view_read s (vendor_addr "pos_min_limit_cdeg") 4; lo ← le_i32 lo;
  hi ← view_read s (vendor_addr "pos_max_limit_cdeg") 4; hi ← le_i32 hi;
  mode ← view_read s (vendor_addr "operating_mode") 1;
  kind ← view_read s (vendor_addr "servo_pos_kind") 1;
  Some (mkCodecCtx (hd 0 mode) (hd 0 kind) lo hi).

Definition dirty (s : T) (a : Z) (n : nat) : bool := default false (view_is_dirty s a n).

Definition publish_entry (c : CodecCtx) (e : MapEntry) (s : T) : option T :=
  match me_direction e with
  | ToVendor => Some s
  | ToFacade | MapBoth =>
      if dirty s (me_dxl_addr e) (Z.to_nat (me_dxl_len e)) then Some s
      else if (Z.of_nat MAX_MAP_LEN <? me_vendor_len e) || (Z.of_nat MAX_MAP_LEN <? me_dxl_len e) then None
      else
        match view_read s (me_vendor_addr e) (Z.to_nat (me_vendor_len e)) with
        | None => Some s
        | Some src => dst ← apply_codec_encode (me_codec e) src (Z.to_nat (me_dxl_len e)) c; Some (view_put s (me_dxl_addr e) dst)
        end
  end.
Fixpoint publish_entries (c : CodecCtx) (es : list MapEntry) (s : T) : option T :=
  match es with [] => Some s | e :: es' => s ← publish_entry c e s; publish_entries c es' s end.
Definition publish_vendor_to_facade (s : T) : option T :=
  c ← CodecCtx_from_view s; publish_entries c FACADE_MAPPINGS s.

(** ** Publishing (kernel.rs, publish_telemetry) *)

(** The registers in the order they are written. *)
Definition telemetry_writes (k : ServoKernel) : list (Z * list Z) :=
  let st := sk_st k in
  let f := ks_frame st in
  let cfg := sk_cfg k in
  let '(ia, ib, ic) := match Reading_value (sf_current f) with
                       | Some (McBdc ma) => (ma, 0, 0)
                       | Some (McBldcPhases a b c) => (a, b, c)
                       | None => (0, 0, 0)
                       end in
  let '(ra, rb, rc) := match Reading_raw (sf_current f) with McrBdc a => (a, 0, 0) | McrBldc a b c => (a, b, c) end in
  [(vendor_addr "present_pos_cdeg", to_le32 (ks_pos st));
   (vendor_addr "position_raw", to_le16 (Reading_raw (sf_pos f)));
   (vendor_addr "control_output", to_le16 (mc_effort (ks_last_cmd st)));
   (vendor_addr "engaged_mirror", [if ks_engaged st then 1 else 0]);
   (vendor_addr "mode_mirror", [OperatingMode_as_u8 (ks_mode st)]);
   (vendor_addr "fault_history", to_le32 (ks_fault_mask st));
   (vendor_addr "gate_reason", [GateReason_as_u8 (ks_last_gate st)]);
   (vendor_addr "present_temp_centic", to_le16 (default 0 (Reading_value (sf_ambient_temp f))));
   (vendor_addr "ambient_temp_raw", to_le16 (Reading_raw (sf_ambient_temp f)));
   (vendor_addr "present_voltage_mv", to_le16 (default 0 (Reading_value (sf_mcu_vdd f))));
   (vendor_addr "vrefint_raw", to_le16 (Reading_raw (sf_mcu_vdd f)));
   (vendor_addr "present_current_ma", to_le16 ia);
   (vendor_addr "motor_current_b_ma", to_le16 ib);
   (vendor_addr "motor_current_c_ma", to_le16 ic);
   (vendor_addr "motor_current_a_raw", to_le16 ra);
   (vendor_addr "motor_current_b_raw", to_le16 rb);
   (vendor_addr "motor_current_c_raw", to_le16 rc)]
  ++ match sf_motor_temp f with
     | None => []
     | Some r => match Reading_value r with Some t => [(vendor_addr "motor_temp_centic", to_le16 t)] | None => [] end
                 ++ [(vendor_addr "motor_temp_raw", to_le16 (Reading_raw r))]
     end
  ++ match sf_motor_v f with
     | None => []
     | Some r =>
         match Reading_value r with
         | Some (MvBdc a b) =>
             [(vendor_addr "motor_vplus_mv", to_le16 a); (vendor_addr "motor_vminus_mv", to_le16 b); (vendor_addr "motor_voltage_c_mv", to_le16 0)]
         | Some (MvBldcPhases a b c) =>
             [(vendor_addr "motor_vplus_mv", to_le16 a); (vendor_addr "motor_vminus_mv", to_le16 b); (vendor_addr "motor_voltage_c_mv", to_le16 c)]
         | None => []
         end
         ++ let '(a, b, c) := match Reading_raw r with MvrBdc a b => (a, b, 0) | MvrBldc a b c => (a, b, c) end in
            [(vendor_addr "motor_voltage_a_raw", to_le16 a); (vendor_addr "motor_voltage_b_raw", to_le16 b); (vendor_addr "motor_voltage_c_raw", to_le16 c)]
     end
  ++ [(vendor_addr "sensor_caps", to_le32 (kf_sensor_caps cfg)); (vendor_addr "motor_type", [MotorType_as_u8 (kf_motor_type cfg)])]
  ++ match kf_servo_pos_kind cfg with
     | SpBounded lo hi => [(vendor_addr "servo_pos_kind", [0]); (vendor_addr "servo_pos_min_cdeg", to_le16 lo); (vendor_addr "servo_pos_max_cdeg", to_le16 hi)]
     | SpWrap360 => [(vendor_addr "servo_pos_kind", [1]); (vendor_addr "servo_pos_min_cdeg", to_le16 0); (vendor_addr "servo_pos_max_cdeg", to_le16 0)]
     end.
Definition view_puts (ws : list (Z * list Z)) (s : T) : T := foldl (fun s w => view_put s w.1 w.2) s ws.
Definition publish_telemetry (k : ServoKernel) (s : T) : T := view_puts (telemetry_writes k) s.

(** ** Committing (kernel.rs, commit_shadow) *)

(** The facade's register when it is dirty, else the vendor's. *)
Definition dirty_field (s : T) (dxl vendor : Z) (n : nat) (of_dxl of_vendor : list Z -> option Z) : option Z :=
  if dirty s dxl n then bs ← view_read s dxl n; of_dxl bs
  else if dirty s vendor n then bs ← view_read s vendor n; of_vendor bs
  else None.
Definition byte_flag (bs : list Z) : option Z := Some (if hd 0 bs =? 0 then 0 else 1).
(** Phase 1: the requested mode; [None] at the top is an invalid one. *)
Definition commit_mode (s : T) : option (option OperatingMode) :=
  if dirty s (vendor_addr "operating_mode") 1 then
    match view_read s (vendor_addr "operating_mode") 1 with
    | Some bs => match hd 0 bs with 0 => Some (Some OmPosition) | 1 => Some (Some OmOpenLoop) | _ => None end
    | None => Some None
    end
  else Some None.
(** Phase 3. *)
Definition commit_apply (mode : option OperatingMode) (engaged goal effort : option Z) (k : ServoKernel) : ServoKernel :=
  let st := sk_st k in
  let on := match engaged with Some v => negb (v =? 0) | None => ks_engaged st end in
  let pid := if ks_engaged st && negb on then PidI16_reset (ks_pos_pid st) else ks_pos_pid st in
  mkKernel (sk_cfg k)
    (mkKernelState on (ks_mode st) (ks_fault_mask st) (default (ks_pos_sp st) goal) (default (ks_open_loop_effort st) effort)
       (ks_frame st) (ks_pos st) (ks_last_cmd st) (ks_last_gate st) pid (ks_last_dt st))
    (match mode with Some m => Some m | None => sk_pending_mode k end) (sk_reset_req k).
Definition commit_shadow (k : ServoKernel) (s : T) : CommitResult * ServoKernel * T :=
  if negb (view_any_dirty s) then (CrNothingToCommit, k, s)
  else
    match commit_mode s with
    | None => (CrValidationError (vendor_addr "operating_mode"), k, s)
    | Some mode =>
        let engaged := dirty_field s (dxl_addr "torque_enable") (vendor_addr "torque_enable") 1 byte_flag byte_flag in
        let goal := dirty_field s (dxl_addr "goal_position") (vendor_addr "goal_pos_cdeg") 4
                      (fun bs => pulses_to_cdeg <$> le_i32 bs) le_i32 in
        let effort := dirty_field s (dxl_addr "goal_pwm") (vendor_addr "goal_pwm") 2 le_i16 le_i16 in
        (CrOk, commit_apply mode engaged goal effort k, view_clear_dirty s)
    end.

(** ** The executor (runtime/src/executor.rs) *)

Definition MEDIUM_DECIMATE : Z := 10.
Definition SLOW_DECIMATE : Z := 5.
Definition MAX_OPS_PER_SLOW : nat := 4.

Record ControlExecutor := mkExecutor {
  ex_kernel : ServoKernel; ex_kctx : KernelCtx; ex_medium : Z; ex_slow : Z; ex_pending_result : option KernelResult }.
Definition ControlExecutor_new (k : ServoKernel) : ControlExecutor := mkExecutor k KernelCtx_new 0 0 None.
(** The two queues, the results' with room for [cap], and the table. *)
Record Plant := mkPlant { pl_ex : ControlExecutor; pl_ops : list KernelOp; pl_results : list KernelResult; pl_shadow : T }.

(** The boundary of a medium tick. *)
Definition medium_boundary (k : ServoKernel) (s : T) : option (ServoKernel * T) :=
  let '(_, k, s) := commit_shadow k s in
  let s := publish_telemetry k s in
  s ← publish_vendor_to_facade s; Some (k, s).

Variable cap : nat.
(** [Err] hands the value back. *)
Definition enqueue (r : KernelResult) (q : list KernelResult) : option (list KernelResult) :=
  if Nat.ltb (length q) cap then Some (q ++ [r]) else None.
Fixpoint apply_ops (n : nat) (k : ServoKernel) (ops : list KernelOp) (results : list KernelResult)
  : ServoKernel * list KernelOp * list KernelResult * option KernelResult :=
  match n, ops with
  | O, _ | _, [] => (k, ops, results, None)
  | Datatypes.S n', op :: ops' =>
      let '(r, k) := apply_op op k in
      match enqueue r results with
      | Some results => apply_ops n' k ops' results
      | None => (k, ops', results, Some r)
      end
  end.
Definition apply_pending_ops (e : ControlExecutor) (ops : list KernelOp) (results : list KernelResult)
  : ControlExecutor * list KernelOp * list KernelResult :=
  let go results :=
    let '(k, ops, results, pend) := apply_ops MAX_OPS_PER_SLOW (ex_kernel e) ops results in
    (mkExecutor k (ex_kctx e) (ex_medium e) (ex_slow e) pend, ops, results) in
  match ex_pending_result e with
  | None => go results
  | Some r => match enqueue r results with None => (e, ops, results) | Some results => go results end
  end.

Definition on_adc_complete (frame : SensorFrame) (fast_dt : Z) (p : Plant) : option (MotorCommand * Telem * Plant) :=
  let e := pl_ex p in
  let k := ServoKernel_update_frame frame (ex_kernel e) in
  let '(tick, kctx) := next_control_fast fast_dt (ex_kctx e) in
  let '(cmd, telem, k) := ServoKernel_tick tick k in
  let medium := u8 (ex_medium e + 1) in
  if medium <? MEDIUM_DECIMATE then
    Some (cmd, telem, mkPlant (mkExecutor k kctx medium (ex_slow e) (ex_pending_result e)) (pl_ops p) (pl_results p) (pl_shadow p))
  else
    let medium_dt := u32 (fast_dt * MEDIUM_DECIMATE) in
    let '(tick, kctx) := next_control_medium medium_dt kctx in
    let '(_, telem2, k) := ServoKernel_tick tick k in
    '(k, s) ← medium_boundary k (pl_shadow p);
    let slow := u8 (ex_slow e + 1) in
    if slow <? SLOW_DECIMATE then
      Some (cmd, telem ++ telem2, mkPlant (mkExecutor k kctx 0 slow (ex_pending_result e)) (pl_ops p) (pl_results p) s)
    else
      let '(tick, kctx) := next_control_slow (u32 (medium_dt * SLOW_DECIMATE)) kctx in
      let '(_, telem3, k) := ServoKernel_tick tick k in
      let '(e, ops, results) := apply_pending_ops (mkExecutor k kctx 0 0 (ex_pending_result e)) (pl_ops p) (pl_results p) in
      Some (cmd, telem ++ telem2 ++ telem3, mkPlant e ops results s).

(** ** Runs *)

(** The kernel boots; between interrupts the host fills and drains the queues and
    writes the table as it likes; an interrupt delivers a sample. *)
Inductive run (cfg : KernelConfig) : Plant -> Prop :=
  | run_boot ops results s : run cfg (mkPlant (ControlExecutor_new (ServoKernel_new cfg)) ops results s)
  | run_host p ops results s : run cfg p -> run cfg (mkPlant (pl_ex p) ops results s)
  | run_sample p frame dt cmd telem p' :
      run cfg p -> on_adc_complete frame dt p = Some (cmd, telem, p') -> run cfg p'.

Definition plant_kernel (p : Plant) : ServoKernel := ex_kernel (pl_ex p).

(** What no tick, commit or operation changes. *)
Record fixed (cfg : KernelConfig) (k : ServoKernel) : Prop := {
  fx_cfg : sk_cfg k = cfg;
  fx_mode : ks_mode (sk_st k) = OmPosition;
  fx_fault : ks_fault_mask (sk_st k) = 0;
  fx_min : pi_out_min (ks_pos_pid (sk_st k)) = - Z.abs (kf_effort_limit_raw cfg);
  fx_max : pi_out_max (ks_pos_pid (sk_st k)) = Z.abs (kf_effort_limit_raw cfg);
}.

Lemma fixed_same cfg k k' : fixed cfg k -> sk_cfg k' = sk_cfg k -> ks_mode (sk_st k') = ks_mode (sk_st k) ->
  ks_fault_mask (sk_st k') = ks_fault_mask (sk_st k) ->
  pi_out_min (ks_pos_pid (sk_st k')) = pi_out_min (ks_pos_pid (sk_st k)) ->
  pi_out_max (ks_pos_pid (sk_st k')) = pi_out_max (ks_pos_pid (sk_st k)) -> fixed cfg k'.
Proof using. intros [? ? ? ? ?] ? ? ? ? ?. split; congruence. Qed.
Lemma step_limits I D sp pv p : pi_out_min (PidI16_step I D sp pv p).2 = pi_out_min p /\ pi_out_max (PidI16_step I D sp pv p).2 = pi_out_max p.
Proof using. unfold PidI16_step. destruct I, D, (pi_mode p); done. Qed.
Lemma position_pid_keeps dt st : let st' := (position_pid dt st).2 in
  ks_mode st' = ks_mode st /\ ks_fault_mask st' = ks_fault_mask st /\
  pi_out_min (ks_pos_pid st') = pi_out_min (ks_pos_pid st) /\ pi_out_max (ks_pos_pid st') = pi_out_max (ks_pos_pid st).
Proof using.
  pose proof (step_limits true true (ks_pos_sp st) (ks_pos st) (ks_pos_pid st)) as L.
  unfold position_pid. by destruct (PidI16_step _ _ _ _ _).
Qed.

Lemma new_fixed cfg : -32767 <= kf_effort_limit_raw cfg <= 32767 -> fixed cfg (ServoKernel_new cfg).
Proof using.
  intros Hl. assert (i16 (Z.abs (kf_effort_limit_raw cfg)) = Z.abs (kf_effort_limit_raw cfg)) as E by (apply i16_id; lia).
  split; try done; cbn; unfold PidI16_new_auto_anti_windup, PidI16_new_with_integral_limits, ordered; rewrite E;
    rewrite (proj2 (Z.leb_le (- Z.abs _) _)) by lia; by destruct (_ <=? _).
Qed.
Lemma frame_fixed cfg f k : fixed cfg k -> fixed cfg (ServoKernel_update_frame f k).
Proof using. intros Hk. by apply (fixed_same _ _ _ Hk). Qed.
Lemma fast_fixed cfg dt k : fixed cfg k -> fixed cfg (tick_fast dt k).2.
Proof using.
  intros Hk. unfold tick_fast. rewrite (fx_mode _ _ Hk). pose proof (position_pid_keeps dt (sk_st k)) as (? & ? & ? & ?).
  destruct (compute_gate_reason (sk_st k)); [destruct (position_pid dt (sk_st k))|..]; by apply (fixed_same _ _ _ Hk).
Qed.
Lemma tick_fixed cfg t k : fixed cfg k -> tk_domain t <> TdSystem -> fixed cfg (ServoKernel_tick t k).2.
Proof using. intros Hk Ht. unfold ServoKernel_tick. destruct (tk_domain t); try done. by apply fast_fixed. Qed.
Lemma commit_fixed cfg k s : fixed cfg k -> fixed cfg (commit_shadow k s).1.2.
Proof using.
  intros Hk. unfold commit_shadow. destruct (negb _); [done|]. destruct (commit_mode s); [|done].
  apply (fixed_same _ _ _ Hk); try done; cbn; by destruct (ks_engaged _ && _).
Qed.
Lemma boundary_fixed cfg k s k' s' : fixed cfg k -> medium_boundary k s = Some (k', s') -> fixed cfg k'.
Proof using.
  intros Hk. pose proof (commit_fixed cfg k s Hk) as Hc. unfold medium_boundary.
  destruct (commit_shadow k s) as [[c k1] s1]. intros E. by simplify_option_eq.
Qed.
Lemma op_fixed cfg op k : fixed cfg k -> fixed cfg (apply_op op k).2.
Proof using.
  intros Hk. destruct op; cbn; try done.
  - unfold request_mode. destruct (ks_engaged _); [done|]. by apply (fixed_same _ _ _ Hk).
  - destruct (fault_bit id); [|done]. apply (fixed_same _ _ _ Hk); try done. cbn. by rewrite (fx_fault _ _ Hk).
  - apply (fixed_same _ _ _ Hk); try done. cbn. by rewrite (fx_fault _ _ Hk).
  - by apply (fixed_same _ _ _ Hk).
Qed.
Lemma op_engaged op k : ks_engaged (sk_st (apply_op op k).2) = ks_engaged (sk_st k) /\ sk_cfg (apply_op op k).2 = sk_cfg k.
Proof using.
  destruct op; cbn; try done; unfold request_mode;
    repeat match goal with |- context [if ?b then _ else _] => destruct b eqn:? | |- context [fault_bit ?i] => destruct (fault_bit i) end; done.
Qed.

(** What an operation keeps, the queue keeps. *)
Lemma apply_ops_keep (P : ServoKernel -> Prop) : (forall op k, P k -> P (apply_op op k).2) ->
  forall n k ops rs, P k -> P (apply_ops n k ops rs).1.1.1.
Proof using.
  intros HP n. induction n as [|n IH]; intros k ops rs Hk; destruct ops as [|op ops]; try done. cbn.
  specialize (HP op k Hk). destruct (apply_op op k) as [r k1]. destruct (enqueue r rs); [by apply IH|done].
Qed.
Lemma pending_keep (P : ServoKernel -> Prop) e ops rs : (forall op k, P k -> P (apply_op op k).2) ->
  P (ex_kernel e) -> P (ex_kernel (apply_pending_ops e ops rs).1.1).
Proof using.
  intros HP He. unfold apply_pending_ops.
  assert (forall rs, P (ex_kernel (let '(k, ops, results, pend) := apply_ops MAX_OPS_PER_SLOW (ex_kernel e) ops rs in
    (mkExecutor k (ex_kctx e) (ex_medium e) (ex_slow e) pend, ops, results)).1.1)) as Hgo.
  { intros rs'. pose proof (apply_ops_keep P HP MAX_OPS_PER_SLOW (ex_kernel e) ops rs' He) as Hk.
    by destruct (apply_ops _ _ _ _) as [[[? ?] ?] ?]. }
  destruct (ex_pending_result e); [|by apply Hgo]. destruct (enqueue _ _); [by apply Hgo|done].
Qed.

Lemma pending_medium e ops rs : ex_medium (apply_pending_ops e ops rs).1.1 = ex_medium e.
Proof using.
  unfold apply_pending_ops. destruct (ex_pending_result e) as [r|]; [destruct (enqueue r rs)|];
    try done; by destruct (apply_ops _ _ _ _) as [[[? ?] ?] ?].
Qed.

(** A sample: its fast tick, and at every tenth the boundary and the rest. *)
Lemma sample_split frame dt p :
  let f := tick_fast dt (ServoKernel_update_frame frame (plant_kernel p)) in
  let n := u8 (ex_medium (pl_ex p) + 1) in
  match on_adc_complete frame dt p with
  | None => 10 <= n /\ medium_boundary f.2 (pl_shadow p) = None
  | Some (cmd, _, p') =>
      cmd = f.1.1 /\
      ((n < 10 /\ plant_kernel p' = f.2 /\ pl_shadow p' = pl_shadow p /\ ex_medium (pl_ex p') = n) \/
       (10 <= n /\ exists k, medium_boundary f.2 (pl_shadow p) = Some (k, pl_shadow p') /\ ex_medium (pl_ex p') = 0 /\
          (plant_kernel p' = k \/ exists e ops rs, ex_kernel e = k /\ plant_kernel p' = ex_kernel (apply_pending_ops e ops rs).1.1)))
  end.
Proof using.
  unfold on_adc_complete, plant_kernel. cbn [next_control_fast next_control_medium next_control_slow ServoKernel_tick tk_domain tk_dt].
  destruct (tick_fast _ _) as [[cmd telem] k] eqn:E. cbn [fst snd]. unfold MEDIUM_DECIMATE. destruct (Z.ltb_spec (u8 (ex_medium (pl_ex p) + 1)) 10) as [Hn|Hn].
  - split; [done|]. left. done.
  - destruct (medium_boundary k (pl_shadow p)) as [[k1 s1]|] eqn:B; [|done]. cbn [mbind option_bind].
    destruct (_ <? SLOW_DECIMATE).
    + split; [done|]. right. split; [done|]. exists k1. cbn. eauto.
    + match goal with |- context [apply_pending_ops ?e ?o ?r] => pose proof (pending_medium e o r) as M; destruct (apply_pending_ops e o r) as [[e1 ops] rs] eqn:A end.
      split; [done|]. right. split; [done|]. exists k1. split; [done|]. split; [exact M|]. right. eexists _, _, _. split; [|by rewrite A]. done.
Qed.

Lemma run_fixed cfg p : -32767 <= kf_effort_limit_raw cfg <= 32767 -> run cfg p -> fixed cfg (plant_kernel p).
Proof using.
  intros Hl. induction 1 as [| |p frame dt cmd telem p' _ IH E]; [by apply new_fixed|done|].
  pose proof (fast_fixed cfg dt _ (frame_fixed cfg frame _ IH)) as Hf.
  pose proof (sample_split frame dt p) as Hs. rewrite E in Hs. destruct Hs as [_ [(_ & -> & _)|(_ & k & B & _ & HK)]]; [done|].
  pose proof (boundary_fixed _ _ _ _ _ Hf B) as Hb.
  destruct HK as [->|(e & ops & rs & <- & ->)]; [done|]. apply pending_keep; [|done]. intros op k'. apply op_fixed.
Qed.

(** The commands a servo with a limit of [lim] may give while engaged. *)
Definition command_ok (lim : Z) (near : bool) (c : MotorCommand) : Prop :=
  mc_driver_en c = true /\ if near then mc_mode c = DmCoast /\ mc_effort c = 0 else mc_mode c = DmDrive /\ Z.abs (mc_effort c) <= lim.

Lemma fast_command cfg dt k : -32767 <= kf_effort_limit_raw cfg <= 32767 -> fixed cfg k ->
  let st := sk_st k in let cmd := (tick_fast dt k).1.1 in
  if ks_engaged st && sf_driver_ok (ks_frame st) then command_ok (Z.abs (kf_effort_limit_raw cfg)) (near_setpoint cfg st) cmd
  else cmd = MotorCommand_safe.
Proof using.
  intros Hl [Hc Hm Hf Hmin Hmax]. cbn. unfold tick_fast, compute_gate_reason. rewrite Hf, Hm. cbn [Z.eqb negb].
  destruct (ks_engaged (sk_st k)); cbn [negb andb]; [|done].
  destruct (sf_driver_ok (ks_frame (sk_st k))); cbn [negb]; [|done].
  pose proof (step_bounded true true (ks_pos_sp (sk_st k)) (ks_pos (sk_st k)) (ks_pos_pid (sk_st k)) ltac:(lia)) as Hb.
  unfold position_pid. destruct (PidI16_step _ _ _ _ _) as [out pid]. cbn [fst snd] in *.
  assert (i16 (clamp out (-32768) 32767) = out) as -> by (unfold clamp; rewrite !(proj2 (Z.ltb_ge _ _)), i16_id; lia).
  rewrite Hc. change (near_setpoint cfg (set_pid pid dt (sk_st k))) with (near_setpoint cfg (sk_st k)).
  destruct (near_setpoint cfg (sk_st k)); split; cbn; try done. split; [done|lia].
Qed.

(** C36: whatever the host writes to the table and queues, over every run from power-on with
    an effort limit in -32767..32767, the command a sample yields is the safe one (driver
    off, coast, no effort) when torque is off or that sample reports the driver not well;
    otherwise the driver is enabled, and the motor coasts without effort inside the
    hold band around the set point and is driven by at most the limit outside. *)
Theorem motor_gated cfg p frame dt cmd telem p' :
  -32767 <= kf_effort_limit_raw cfg <= 32767 -> run cfg p -> on_adc_complete frame dt p = Some (cmd, telem, p') ->
  let st := KernelState_update_frame frame (sk_st (plant_kernel p)) in
  if ks_engaged st && sf_driver_ok frame then command_ok (Z.abs (kf_effort_limit_raw cfg)) (near_setpoint cfg st) cmd
  else cmd = MotorCommand_safe.
Proof using.
  intros Hl Hr E. pose proof (sample_split frame dt p) as Hs. rewrite E in Hs. destruct Hs as [-> _].
  exact (fast_command cfg dt _ Hl (frame_fixed cfg frame _ (run_fixed cfg p Hl Hr))).
Qed.

End tables.

(** ** Torque off *)

Section torque.
Context {H : NameHash} {T : Type} `{L : ShadowLaws T}.
Variable cap : nat.

Definition limit_min (s : T) : Z := default 0 (le_i32 (slice (sh_mem s) (vendor_addr "pos_min_limit_cdeg") 4)).
Definition limit_max (s : T) : Z := default 0 (le_i32 (slice (sh_mem s) (vendor_addr "pos_max_limit_cdeg") 4)).

Lemma in_tableb a n : (0 <=? a) && (a + Z.of_nat n <=? 1024) = true -> in_table a n.
Proof using. intros E. zbool. unfold in_table, SHADOW_TABLE_SIZE. lia. Qed.
Ltac reg_in := apply in_tableb; vm_compute; reflexivity.

(** A write inside the table that leaves the position limits alone. *)
Definition clear_of (lo hi a n : Z) : bool := (a + n <=? lo) || (hi <=? a).
Definition write_ok (a n : Z) : bool :=
  (0 <=? a) && (a + n <=? 1024) && clear_of (vendor_addr "pos_min_limit_cdeg") (vendor_addr "pos_min_limit_cdeg" + 4) a n
  && clear_of (vendor_addr "pos_max_limit_cdeg") (vendor_addr "pos_max_limit_cdeg" + 4) a n.
(** What such writes keep. *)
Definition same_limits (s s' : T) : Prop :=
  limit_min s' = limit_min s /\ limit_max s' = limit_max s /\ view_any_dirty s' = view_any_dirty s.

Lemma put_limits s a d : write_ok a (Z.of_nat (length d)) = true -> bytes_ok d -> same_limits s (view_put s a d).
Proof using.
  unfold write_ok, clear_of. intros Hw Hd. rewrite !andb_true_iff, !orb_true_iff, !Z.leb_le in Hw. destruct Hw as [[[? ?] ?] ?].
  assert (in_table a (length d)) as Ha by (unfold in_table, SHADOW_TABLE_SIZE; lia).
  pose proof (view_put_mem s a d Ha Hd) as M. destruct (view_write_ok s a d Ha Hd) as (s' & E & _ & _ & D).
  unfold same_limits, limit_min, limit_max. rewrite M. split; [|split].
  1,2: f_equal; f_equal; apply slice_splice_other; [apply sh_len|done|reg_in|lia].
  unfold view_put. rewrite E. exact D.
Qed.

Lemma same_refl s : same_limits s s.
Proof using. by split. Qed.
Lemma same_trans s1 s2 s3 : same_limits s1 s2 -> same_limits s2 s3 -> same_limits s1 s3.
Proof using. unfold same_limits. intros (? & ? & ?) (? & ? & ?). split; [|split]; congruence. Qed.
Definition writes_ok (ws : list (Z * list Z)) : Prop := Forall (fun w => write_ok w.1 (Z.of_nat (length w.2)) = true /\ bytes_ok w.2) ws.
Lemma puts_limits ws : writes_ok ws -> forall s, same_limits s (view_puts ws s).
Proof using.
  induction 1 as [|[a d] ws [Ha Hd] _ IH]; intros s; [apply same_refl|].
  eapply same_trans; [by apply put_limits|]. apply IH.
Qed.
Lemma telemetry_writes_ok k : writes_ok (telemetry_writes k).
Proof using.
  unfold telemetry_writes.
  destruct (match Reading_value (sf_current _) with Some (McBdc _) => _ | Some (McBldcPhases _ _ _) => _ | None => _ end) as [[ia ib] ic].
  destruct (match Reading_raw (sf_current _) with McrBdc _ => _ | McrBldc _ _ _ => _ end) as [[ra rb] rc].
  unfold writes_ok.
  repeat match goal with
  | |- Forall _ (_ ++ _) => apply Forall_app_2
  | |- Forall _ (_ :: _) => apply List.Forall_cons
  | |- Forall _ [] => apply List.Forall_nil
  | |- Forall _ (match ?x with _ => _ end) => destruct x
  | |- _ /\ _ => split; [vm_compute; reflexivity|]
  end; cbn [snd]; first [apply to_le16_ok | apply to_le32_ok | apply bytes_ok_cons; split; [|constructor]].
  all: unfold OperatingMode_as_u8, GateReason_as_u8, MotorType_as_u8;
    try match goal with |- context [match ?x with _ => _ end] => destruct x end; lia.
Qed.

(** An entry the publisher can carry out. *)
Definition entry_ok (e : MapEntry) : bool :=
  match me_direction e with
  | ToVendor => true
  | _ => (0 <=? me_vendor_addr e) && (0 <=? me_vendor_len e) && (me_vendor_addr e + me_vendor_len e <=? 1024) && (me_vendor_len e <=? 4)
         && (0 <=? me_dxl_len e) && (me_dxl_len e <=? 4) && write_ok (me_dxl_addr e) (me_dxl_len e)
         && match me_codec e with CkIdentity => me_vendor_len e =? me_dxl_len e | CkPosition => (me_vendor_len e =? 4) && (me_dxl_len e =? 4) end
  end.
Lemma mappings_ok : forallb entry_ok FACADE_MAPPINGS = true.
Proof using. vm_compute. reflexivity. Qed.

Lemma codec_ok codec src n c : cx_pos_min_limit_cdeg c <= cx_pos_max_limit_cdeg c -> bytes_ok src ->
  match codec with CkIdentity => length src = n | CkPosition => length src = 4%nat /\ n = 4%nat end ->
  exists dst, apply_codec_encode codec src n c = Some dst /\ length dst = n /\ bytes_ok dst.
Proof using.
  intros Hl Hs Hn. destruct codec; cbn.
  - exists src. unfold copy_exact. by rewrite Hn, Nat.eqb_refl.
  - destruct Hn as [Hn ->]. destruct src as [|b0 [|b1 [|b2 [|b3 [|]]]]]; try done. cbn [le_i32 mbind option_bind].
    unfold encode_position, i32_clamp. rewrite (proj2 (Z.leb_le _ _) Hl).
    destruct (cx_servo_pos_kind c =? 0); cbn [mbind option_bind]; (eexists; split; [reflexivity|split; [done|apply to_le32_ok]]).
Qed.
Lemma publish_entry_ok c e s : cx_pos_min_limit_cdeg c <= cx_pos_max_limit_cdeg c -> entry_ok e = true ->
  exists s', publish_entry c e s = Some s' /\ same_limits s s'.
Proof using L.
  intros Hl He. unfold publish_entry, entry_ok in *.
  destruct (me_direction e); [exists s; by split| |]; (destruct (dirty _ _ _); [exists s; by split|]); zbool;
    change (Z.of_nat MAX_MAP_LEN) with 4; rewrite !(proj2 (Z.ltb_ge 4 _)) by lia; cbn [orb];
    assert (in_table (me_vendor_addr e) (Z.to_nat (me_vendor_len e))) as Hv by (unfold in_table, SHADOW_TABLE_SIZE; lia);
    rewrite view_read_ok by done;
    (destruct (codec_ok (me_codec e) (slice (sh_mem s) (me_vendor_addr e) (Z.to_nat (me_vendor_len e))) (Z.to_nat (me_dxl_len e)) c Hl)
      as (dst & E & Hd & Hb);
     [apply slice_bytes, sh_bytes | rewrite slice_length by (apply sh_len || done); destruct (me_codec e); zbool; lia |]);
    rewrite E; (eexists; split; [reflexivity|]; apply put_limits; [|done]; rewrite Hd, Z2Nat.id by lia; done).
Qed.
Lemma publish_entries_ok c es : cx_pos_min_limit_cdeg c <= cx_pos_max_limit_cdeg c -> forallb entry_ok es = true ->
  forall s, exists s', publish_entries c es s = Some s' /\ same_limits s s'.
Proof using L.
  intros Hl. induction es as [|e es IH]; intros He s; [exists s; by split|]. cbn in *. zbool.
  destruct (publish_entry_ok c e s) as (s1 & -> & S1); [done..|]. destruct (IH ltac:(done) s1) as (s2 & E2 & S2).
  exists s2. split; [exact E2|]. by eapply same_trans.
Qed.
Lemma limit_read s a : in_table a 4 -> exists v, view_read s a 4 = Some (slice (sh_mem s) a 4) /\ le_i32 (slice (sh_mem s) a 4) = Some v.
Proof using.
  intros Ha. rewrite view_read_ok by done. pose proof (slice_length (sh_mem s) a 4 (sh_len s) Ha) as Hl.
  destruct (slice _ _ _) as [|b0 [|b1 [|b2 [|b3 [|]]]]]; try done. by eexists.
Qed.
Lemma facade_total s : limit_min s <= limit_max s -> exists s', publish_vendor_to_facade s = Some s' /\ same_limits s s'.
Proof using.
  intros Hl. unfold publish_vendor_to_facade, CodecCtx_from_view. unfold limit_min, limit_max in Hl.
  destruct (limit_read s (vendor_addr "pos_min_limit_cdeg")) as (lo & -> & Elo); [reg_in|].
  destruct (limit_read s (vendor_addr "pos_max_limit_cdeg")) as (hi & -> & Ehi); [reg_in|].
  rewrite Elo, Ehi in Hl. cbn [mbind option_bind default] in *. rewrite Elo. cbn [mbind option_bind]. rewrite Ehi. cbn [mbind option_bind].
  rewrite !view_read_ok by reg_in. cbn [mbind option_bind].
  apply publish_entries_ok; [done|apply mappings_ok].
Qed.

Lemma commit_table k s : limit_min (commit_shadow k s).2 = limit_min s /\ limit_max (commit_shadow k s).2 = limit_max s.
Proof using L.
  unfold commit_shadow. destruct (negb _); [done|]. destruct (commit_mode s); [|done].
  unfold limit_min, limit_max. cbn. destruct (view_clear_ok s) as [-> _]. done.
Qed.
(** With ordered limits the boundary completes; the kernel is the committed one. *)
Lemma boundary_total k s : limit_min s <= limit_max s ->
  exists s', medium_boundary k s = Some ((commit_shadow k s).1.2, s') /\ limit_min s' <= limit_max s' /\
    view_any_dirty s' = view_any_dirty (commit_shadow k s).2.
Proof using L.
  intros Hl. pose proof (commit_table k s) as [C1 C2]. unfold medium_boundary. destruct (commit_shadow k s) as [[r k1] s1]. cbn [fst snd] in *.
  destruct (puts_limits (telemetry_writes k1) (telemetry_writes_ok k1) s1) as (P1 & P2 & P3).
  unfold publish_telemetry. destruct (facade_total (view_puts (telemetry_writes k1) s1)) as (s2 & -> & F1 & F2 & F3); [congruence|].
  exists s2. split; [done|]. split; congruence.
Qed.

(** The torque the marks ask for: the DXL register's, or with that one unmarked the
    vendor's. *)
Definition torque_written (s : T) (v : Z) : Prop :=
  let marked a := dirty s a 1 = true /\ slice (sh_mem s) a 1 = [v] in
  marked (dxl_addr "torque_enable") \/ dirty s (dxl_addr "torque_enable") 1 = false /\ marked (vendor_addr "torque_enable").
Definition torque_off_written (s : T) : Prop := torque_written s 0.
Definition torque_not_on (s : T) : Prop := forall v, torque_written s v -> v = 0.

Lemma dirty_any s a n : in_table a n -> dirty s a n = true -> view_any_dirty s = true.
Proof using L. intros Ha. unfold dirty. destruct (view_any_dirty s) eqn:E; [done|]. by rewrite view_clean_ok. Qed.
Lemma torque_off_read s : torque_off_written s ->
  view_any_dirty s = true /\ dirty_field s (dxl_addr "torque_enable") (vendor_addr "torque_enable") 1 byte_flag byte_flag = Some 0.
Proof using L.
  unfold dirty_field. intros [[D B]|[E [D B]]].
  - split; [eapply dirty_any; [|exact D]; reg_in|]. rewrite D, view_read_ok by reg_in. rewrite B. done.
  - split; [eapply dirty_any; [|exact D]; reg_in|]. rewrite E, D, view_read_ok by reg_in. rewrite B. done.
Qed.
Lemma torque_off_commit k s : torque_off_written s -> commit_mode s <> None ->
  ks_engaged (sk_st (commit_shadow k s).1.2) = false /\ view_any_dirty (commit_shadow k s).2 = false.
Proof using L.
  intros Ht Hm. apply torque_off_read in Ht as [Ha Hd]. unfold commit_shadow. rewrite Ha. cbn [negb].
  destruct (commit_mode s); [|done]. rewrite Hd. split; [done|]. cbn. by destruct (view_clear_ok s).
Qed.

(** Without a request to switch on, a commit leaves a disengaged kernel so. *)
Lemma slice_one (s : T) a : in_table a 1 -> exists v, slice (sh_mem s) a 1 = [v].
Proof using.
  intros Ha. pose proof (slice_length (sh_mem s) a 1 (sh_len s) Ha) as Hl. destruct (slice _ _ _) as [|v [|]]; try done. by exists v.
Qed.
Lemma torque_not_on_commit k s : torque_not_on s -> commit_mode s <> None -> ks_engaged (sk_st k) = false ->
  ks_engaged (sk_st (commit_shadow k s).1.2) = false /\ view_any_dirty (commit_shadow k s).2 = false.
Proof using L.
  intros Ht Hm He. unfold commit_shadow. destruct (view_any_dirty s) eqn:Ed; cbn [negb]; [|done].
  destruct (commit_mode s); [|done]. split; [|cbn; by destruct (view_clear_ok s)].
  assert (dirty_field s (dxl_addr "torque_enable") (vendor_addr "torque_enable") 1 byte_flag byte_flag = None \/
    dirty_field s (dxl_addr "torque_enable") (vendor_addr "torque_enable") 1 byte_flag byte_flag = Some 0) as [-> | ->]; [|done|done].
  unfold dirty_field. rewrite !view_read_ok by reg_in.
  destruct (slice_one s (dxl_addr "torque_enable")) as [v Ev]; [reg_in|]. destruct (slice_one s (vendor_addr "torque_enable")) as [w Ew]; [reg_in|].
  destruct (dirty s (dxl_addr "torque_enable") 1) eqn:E1.
  - right. rewrite Ev, (Ht v) by (by left). done.
  - destruct (dirty s (vendor_addr "torque_enable") 1) eqn:E2; [|by left]. right. rewrite Ew, (Ht w) by (by right). done.
Qed.
Lemma clean_not_on s : view_any_dirty s = false -> torque_not_on s /\ commit_mode s <> None.
Proof using L.
  intros Hd. split.
  - intros v [[D _]|[_ [D _]]]; (apply dirty_any in D; [congruence|reg_in]).
  - unfold commit_mode. destruct (dirty s (vendor_addr "operating_mode") 1) eqn:D; [|done]. apply dirty_any in D; [congruence|reg_in].
Qed.

Lemma fast_engaged dt k : ks_engaged (sk_st (tick_fast dt k).2) = ks_engaged (sk_st k) /\
  (ks_engaged (sk_st k) = false -> (tick_fast dt k).1.1 = MotorCommand_safe).
Proof using.
  unfold tick_fast, compute_gate_reason. destruct (ks_engaged (sk_st k)) eqn:E; cbn [negb]; [|cbn; by rewrite E]. split; [|done].
  destruct (negb (sf_driver_ok _)); [done|]. destruct (negb (_ =? 0)); [done|].
  destruct (ks_mode (sk_st k)); [|by rewrite <- E]. unfold position_pid. destruct (PidI16_step _ _ _ _ _). by rewrite <- E.
Qed.
Lemma pending_engaged e ops rs b : ks_engaged (sk_st (ex_kernel e)) = b ->
  ks_engaged (sk_st (ex_kernel (apply_pending_ops cap e ops rs).1.1)) = b.
Proof using.
  intros He. apply (pending_keep cap (fun k => ks_engaged (sk_st k) = b)); [|done]. intros op k <-. apply op_engaged.
Qed.

(** A table the boundary can commit and publish. *)
Definition table_fit (s : T) : Prop := commit_mode s <> None /\ limit_min s <= limit_max s.
(** Torque off, and nobody asks for it. *)
Definition quiet (p : @Plant T) : Prop :=
  0 <= ex_medium (pl_ex p) < 10 /\ ks_engaged (sk_st (plant_kernel p)) = false /\ torque_not_on (pl_shadow p) /\ table_fit (pl_shadow p).
(** Torque off requested, the boundary still to come. *)
Definition stopping (p : @Plant T) : Prop :=
  0 <= ex_medium (pl_ex p) < 10 /\ torque_off_written (pl_shadow p) /\ table_fit (pl_shadow p).

(** A sample completes: inside the medium period it only ticks the kernel, at the
    end of it the commit decides. *)
Lemma sample_total p frame dt : 0 <= ex_medium (pl_ex p) < 10 -> limit_min (pl_shadow p) <= limit_max (pl_shadow p) ->
  let f := tick_fast dt (ServoKernel_update_frame frame (plant_kernel p)) in
  let c := commit_shadow f.2 (pl_shadow p) in
  exists telem p', on_adc_complete cap frame dt p = Some (f.1.1, telem, p') /\
    ((ex_medium (pl_ex p) < 9 /\ ex_medium (pl_ex p') = ex_medium (pl_ex p) + 1 /\ plant_kernel p' = f.2 /\ pl_shadow p' = pl_shadow p) \/
     (ex_medium (pl_ex p) = 9 /\ ex_medium (pl_ex p') = 0 /\ ks_engaged (sk_st (plant_kernel p')) = ks_engaged (sk_st c.1.2) /\
      view_any_dirty (pl_shadow p') = view_any_dirty c.2 /\ limit_min (pl_shadow p') <= limit_max (pl_shadow p'))).
Proof using L.
  intros Hm Hl f c. pose proof (sample_split cap frame dt p) as Hs. cbv zeta in Hs. fold f in Hs.
  rewrite (u8_id (ex_medium (pl_ex p) + 1)) in Hs by lia.
  destruct (boundary_total f.2 (pl_shadow p) Hl) as (s' & B & Hl' & Hd'). fold c in B, Hd'.
  destruct (on_adc_complete cap frame dt p) as [[[cmd telem] p']|]; [|destruct Hs as [_ Hs]; congruence].
  destruct Hs as [-> Hs]. exists telem, p'. split; [done|].
  destruct Hs as [(Hn & ? & ? & ?)|(Hn & k1 & B1 & Hz & HK)]; [left; repeat split; try done; lia|right].
  rewrite B in B1. injection B1 as <- <-. split; [lia|]. split; [done|]. split; [|done].
  destruct HK as [->|(e & ops & rs & Ek & ->)]; [done|]. apply pending_engaged. by rewrite Ek.
Qed.
Lemma quiet_sample p frame dt : quiet p ->
  exists telem p', on_adc_complete cap frame dt p = Some (MotorCommand_safe, telem, p') /\ quiet p'.
Proof using L.
  intros (Hm & He & Ht & Hc & Hl). destruct (sample_total p frame dt Hm Hl) as (telem & p' & E & Hs).
  destruct (fast_engaged dt (ServoKernel_update_frame frame (plant_kernel p))) as [E1 E2].
  rewrite E2 in E by done. exists telem, p'. split; [done|].
  destruct Hs as [(Hn & Hm' & Hk & Es)|(Hn & Hm' & Hk & Hd & Hl')].
  - unfold quiet. rewrite Hm', Hk, Es, E1. repeat split; try done; lia.
  - destruct (torque_not_on_commit (tick_fast dt (ServoKernel_update_frame frame (plant_kernel p))).2 (pl_shadow p) Ht Hc) as [Ee Ed]; [by rewrite E1|].
    rewrite Ed in Hd. destruct (clean_not_on _ Hd) as [Ht' Hc']. unfold quiet. rewrite Hm', Hk, Ee. repeat split; try done; lia.
Qed.
Lemma stopping_sample p frame dt : stopping p ->
  exists cmd telem p', on_adc_complete cap frame dt p = Some (cmd, telem, p') /\
    (ex_medium (pl_ex p) < 9 /\ ex_medium (pl_ex p') = ex_medium (pl_ex p) + 1 /\ stopping p' \/ ex_medium (pl_ex p) = 9 /\ quiet p').
Proof using L.
  intros (Hm & Ht & Hc & Hl). destruct (sample_total p frame dt Hm Hl) as (telem & p' & E & Hs).
  eexists _, telem, p'. split; [exact E|].
  destruct Hs as [(Hn & Hm' & _ & Es)|(Hn & Hm' & Hk & Hd & Hl')]; [left|right].
  - split; [done|]. split; [done|]. unfold stopping. rewrite Hm', Es. repeat split; try done; lia.
  - split; [done|]. destruct (torque_off_commit (tick_fast dt (ServoKernel_update_frame frame (plant_kernel p))).2 _ Ht Hc) as [Ee Ed].
    rewrite Ed in Hd. destruct (clean_not_on _ Hd) as [Ht' Hc']. unfold quiet. rewrite Hm', Hk, Ee. repeat split; try done; lia.
Qed.

(** The commands of a sequence of samples, no host write between. *)
Fixpoint samples (fs : list (SensorFrame * Z)) (p : @Plant T) : option (list MotorCommand * @Plant T) :=
  match fs with
  | [] => Some ([], p)
  | (frame, dt) :: fs =>
      '(cmd, _, p) ← on_adc_complete cap frame dt p;
      '(cmds, p) ← samples fs p;
      Some (cmd :: cmds, p)
  end.
Lemma samples_run cfg fs : forall p cmds p', run cap cfg p -> samples fs p = Some (cmds, p') -> run cap cfg p'.
Proof using.
  induction fs as [|[frame dt] fs IH]; intros p cmds p' Hr E; cbn [samples] in E; [by simplify_eq|].
  destruct (on_adc_complete cap frame dt p) as [[[cmd telem] p1]|] eqn:E1; [|done]. cbn [mbind option_bind] in E.
  destruct (samples fs p1) as [[cs p2]|] eqn:E2; [|done]. injection E as _ <-. eapply IH; [|exact E2]. by eapply run_sample.
Qed.

(** What the host may do between two samples: anything to the queues, and to the table
    what keeps a request to switch off, makes none to switch on, and leaves the mode
    known and the limits in order. *)
Record HostActs := mkTurn { ht_ops : list KernelOp -> list KernelOp; ht_results : list KernelResult -> list KernelResult; ht_table : T -> T }.
Definition host_acts (h : HostActs) (p : @Plant T) : @Plant T :=
  mkPlant (pl_ex p) (ht_ops h (pl_ops p)) (ht_results h (pl_results p)) (ht_table h (pl_shadow p)).
Definition keeps_off (h : HostActs) : Prop := forall s, table_fit s ->
  table_fit (ht_table h s) /\ (torque_off_written s -> torque_off_written (ht_table h s)) /\ (torque_not_on s -> torque_not_on (ht_table h s)).

(** Samples with the host in between. *)
Fixpoint shared_samples (fs : list (HostActs * SensorFrame * Z)) (p : @Plant T) : option (list MotorCommand * @Plant T) :=
  match fs with
  | [] => Some ([], p)
  | (h, frame, dt) :: fs =>
      '(cmd, _, p) ← on_adc_complete cap frame dt (host_acts h p);
      '(cmds, p) ← shared_samples fs p;
      Some (cmd :: cmds, p)
  end.

Lemma quiet_turn h p : keeps_off h -> quiet p -> quiet (host_acts h p).
Proof using. intros Hh (Hm & He & Ht & Hf). destruct (Hh _ Hf) as (Hf' & _ & Ht'). repeat split; try apply Hm; try apply Hf'; auto. Qed.
Lemma stopping_turn h p : keeps_off h -> stopping p -> stopping (host_acts h p).
Proof using. intros Hh (Hm & Ht & Hf). destruct (Hh _ Hf) as (Hf' & Ht' & _). repeat split; try apply Hm; try apply Hf'; auto. Qed.

Lemma quiet_samples fs : Forall (fun x => keeps_off x.1.1) fs -> forall p, quiet p ->
  exists cmds p', shared_samples fs p = Some (cmds, p') /\ length cmds = length fs /\ Forall (eq MotorCommand_safe) cmds.
Proof using L.
  induction 1 as [|[[h frame] dt] fs Hh _ IH]; intros p Hp; [by exists [], p|].
  destruct (quiet_sample _ frame dt (quiet_turn h p Hh Hp)) as (telem & p1 & E & Hp1). destruct (IH p1 Hp1) as (cmds & p2 & E2 & Hl & Hf).
  exists (MotorCommand_safe :: cmds), p2. cbn [shared_samples]. rewrite E. cbn [mbind option_bind]. rewrite E2.
  cbn [mbind option_bind length]. by rewrite Hl; auto.
Qed.

(** C35: torque off stops the motor.  Let the marks of the table ask for torque 0 (the
    DXL torque register is marked and holds 0, or it is unmarked and the vendor's is
    marked and holds 0), with the medium counter in its range, a known mode and ordered
    position limits.  Between samples the host may use the queues at will and write the
    table, as long as it does not withdraw that request, ask for torque again, request
    an unknown mode or cross the limits.  Then every later sample completes, and from
    the end of the running medium period on, at most ten samples away, every command is
    the safe one, whatever the sensors report and whatever operations are queued. *)
Theorem torque_off_stops fs : Forall (fun x => keeps_off x.1.1) fs -> forall p, stopping p ->
  exists cmds p', shared_samples fs p = Some (cmds, p') /\ length cmds = length fs /\
    Forall (eq MotorCommand_safe) (drop (Z.to_nat (10 - ex_medium (pl_ex p))) cmds).
Proof using L.
  induction 1 as [|[[h frame] dt] fs Hh Hfs IH]; intros p Hp; [exists [], p; by rewrite drop_nil|].
  destruct (stopping_sample _ frame dt (stopping_turn h p Hh Hp)) as (cmd & telem & p1 & E & HC). cbn [shared_samples]. rewrite E. cbn [mbind option_bind].
  cbn [host_acts pl_ex] in HC. destruct HC as [(Hn & Hm & Hp1)|(Hn & Hp1)].
  - destruct (IH p1 Hp1) as (cmds & p2 & E2 & Hl & Hf). exists (cmd :: cmds), p2. rewrite E2. cbn [mbind option_bind length]. split; [done|]. split; [by rewrite Hl|].
    replace (Z.to_nat (10 - ex_medium (pl_ex p))) with (Datatypes.S (Z.to_nat (10 - ex_medium (pl_ex p1)))) by (destruct Hp1; lia). done.
  - destruct (quiet_samples fs Hfs p1 Hp1) as (cmds & p2 & E2 & Hl & Hf). exists (cmd :: cmds), p2. rewrite E2. cbn [mbind option_bind length]. split; [done|].
    split; [by rewrite Hl|]. by rewrite Hn.
Qed.

End torque.

(** ** On a table with marks per block *)

#[local] Existing Instance demo_hash.
Definition demo_config : KernelConfig := mkKernelConfig (mkGains 256 0 0) 100 8000 (SpBounded (-15000) 15000) MtBdc 0.
Definition demo_frame (pos : Z) : SensorFrame :=
  mkFrame (RdValid pos 0) (RdInvalid (McrBdc 0)) (RdInvalid 0) None (RdInvalid 0) None None None true.
Definition blank : BlockShadow := mkBlockShadow [] [].
Definition host_writes (ws : list (Z * list Z)) (s : BlockShadow) : BlockShadow := foldl (fun s w => host_put s w.1 w.2) s ws.
Definition with_writes (ws : list (Z * list Z)) (p : @Plant BlockShadow) : @Plant BlockShadow :=
  mkPlant (pl_ex p) (pl_ops p) (pl_results p) (host_writes ws (pl_shadow p)).
Definition boot : @Plant BlockShadow := mkPlant (ControlExecutor_new (ServoKernel_new demo_config)) [] [] blank.
Definition after (n : nat) (p : @Plant BlockShadow) : @Plant BlockShadow :=
  match samples 4 (replicate n (demo_frame 0, 100)) p with Some (_, p) => p | None => p end.
(** Limits, goal and torque in one go, and one medium period. *)
Definition engaged_plant : @Plant BlockShadow :=
  after 10 (with_writes [(vendor_addr "pos_min_limit_cdeg", to_le32 (-9000)); (vendor_addr "pos_max_limit_cdeg", to_le32 9000);
    (vendor_addr "goal_pos_cdeg", to_le32 5000); (vendor_addr "torque_enable", [1])] boot).

(** A host that queues an operation and writes a byte of another block. *)
Lemma put_elsewhere (s : BlockShadow) a n v : in_table a n -> 64 <= a -> (0 < n)%nat ->
  dirty (host_put s 40 [u8 v]) a n = dirty s a n /\ slice (sh_mem (host_put s 40 [u8 v])) a n = slice (sh_mem s) a n.
Proof.
  intros Ha H64 Hn. assert (in_table 40 1) as H40 by (unfold in_table, SHADOW_TABLE_SIZE; lia). split.
  - unfold dirty. cbn. rewrite !bool_decide_eq_true_2 by done. cbn [default from_option id bs_dirty blocks_of app seq length].
    destruct n as [|n]; [lia|]. unfold blocks_of. change ((Z.to_nat 40) / SHADOW_BLOCK_SIZE)%nat with 0%nat.
    assert (1 <= Z.to_nat a / SHADOW_BLOCK_SIZE)%nat as Hb by (apply Nat.div_le_lower_bound; [done|unfold SHADOW_BLOCK_SIZE; lia]).
    generalize (S ((Z.to_nat a + S n - 1) / SHADOW_BLOCK_SIZE - Z.to_nat a / SHADOW_BLOCK_SIZE)). intros m. revert Hb.
    generalize (Z.to_nat a / SHADOW_BLOCK_SIZE)%nat. induction m as [|m IH]; intros b Hb; [done|]. cbn [seq existsb]. rewrite IH by lia. f_equal.
    apply bool_decide_ext. change (b ∈ 0%nat :: bs_dirty s <-> b ∈ bs_dirty s). rewrite elem_of_cons. split; [intros [?|?]; [lia|done]|by right].
  - rewrite host_put_mem by (done || (constructor; [apply u8_range|constructor])). apply slice_splice_other; [apply sh_len|done|done|]. cbn. lia.
Qed.
Definition busy_host : @HostActs BlockShadow := mkTurn (fun ops => KoSoftReset RsControl :: ops) (fun _ => []) (fun s => host_put s 40 [u8 7]).
Lemma elsewhere s a n : bool_decide (in_table a n) && (64 <=? a) && (0 <? n)%nat = true ->
  dirty (ht_table busy_host s) a n = dirty s a n /\ slice (sh_mem (ht_table busy_host s)) a n = slice (sh_mem s) a n /\
  view_read (ht_table busy_host s) a n = view_read s a n.
Proof.
  intros [[Ha%bool_decide_eq_true H64%Z.leb_le]%andb_prop Hn%Nat.ltb_lt]%andb_prop.
  destruct (put_elsewhere s a n 7 Ha H64 Hn) as [E1 E2]. split; [exact E1|]. split; [exact E2|].
  rewrite !view_read_ok by done. f_equal. exact E2.
Qed.
Lemma busy_host_keeps : keeps_off busy_host.
Proof.
  intros s Hf. destruct (elsewhere s (dxl_addr "torque_enable") 1 ltac:(reflexivity)) as (D1 & D2 & _).
  destruct (elsewhere s (vendor_addr "torque_enable") 1 ltac:(reflexivity)) as (V1 & V2 & _).
  destruct (elsewhere s (vendor_addr "operating_mode") 1 ltac:(reflexivity)) as (M1 & _ & M3).
  destruct (elsewhere s (vendor_addr "pos_min_limit_cdeg") 4 ltac:(reflexivity)) as (_ & L2 & _).
  destruct (elsewhere s (vendor_addr "pos_max_limit_cdeg") 4 ltac:(reflexivity)) as (_ & H2 & _).
  unfold table_fit, commit_mode, limit_min, limit_max, torque_not_on, torque_off_written, torque_written in *.
  rewrite D1, D2, V1, V2, M1, M3, L2, H2. done.
Qed.

Lemma torque_off_stops_witness :
  exists cmds p', shared_samples 4 (replicate 25 (busy_host, demo_frame 0, 100)) (with_writes [(dxl_addr "torque_enable", [0])] engaged_plant) = Some (cmds, p') /\
    length cmds = 25%nat /\ Forall (eq MotorCommand_safe) (drop 10 cmds).
Proof.
  apply (torque_off_stops 4 (replicate 25 (busy_host, demo_frame 0, 100))
    (Forall_replicate (fun x => keeps_off x.1.1) 25 (busy_host, demo_frame 0, 100) busy_host_keeps)
    (with_writes [(dxl_addr "torque_enable", [0])] engaged_plant)).
  split; [vm_compute; intuition congruence|]. split; [left; vm_compute; done|]. split; vm_compute; congruence.
Defined.

Lemma run_after n p : run 4 demo_config p -> run 4 demo_config (after n p).
Proof. intros Hr. unfold after. destruct (samples 4 _ p) as [[cmds p']|] eqn:E; [by eapply samples_run|done]. Qed.
Lemma engaged_run : run 4 demo_config engaged_plant.
Proof. apply run_after, run_host, run_boot. Qed.
Lemma engaged_sample : exists cmd telem p', on_adc_complete 4 (demo_frame 0) 100 engaged_plant = Some (cmd, telem, p').
Proof.
  destruct (sample_total 4 engaged_plant (demo_frame 0) 100) as (telem & p' & E & _); [vm_compute; split; congruence|vm_compute; congruence|].
  eauto.
Qed.
(** Engaged and 50 degrees from the set point, the motor is driven. *)
Lemma motor_gated_witness : exists cmd telem p',
  on_adc_complete 4 (demo_frame 0) 100 engaged_plant = Some (cmd, telem, p') /\ command_ok 8000 false cmd.
Proof.
  destruct engaged_sample as (cmd & telem & p' & E). exists cmd, telem, p'. split; [exact E|].
  pose proof (motor_gated 4 demo_config engaged_plant (demo_frame 0) 100 cmd telem p' ltac:(cbn; lia) engaged_run E) as G. cbv zeta in G.
  assert (ks_engaged (KernelState_update_frame (demo_frame 0) (sk_st (plant_kernel engaged_plant))) && sf_driver_ok (demo_frame 0) = true) as Hb
    by (vm_compute; reflexivity).
  assert (near_setpoint demo_config (KernelState_update_frame (demo_frame 0) (sk_st (plant_kernel engaged_plant))) = false) as Hn
    by (vm_compute; reflexivity).
  rewrite Hb, Hn in G. exact G.
Defined.

(** ** What the boundary does to the table *)

(** A torque request through the DXL register takes effect and is undone in the table
    within the same boundary: the vendor's register, not written, is published over it. *)
Example torque_request_reverted :
  let p := after 10 (with_writes [(dxl_addr "torque_enable", [1])] boot) in
  ks_engaged (sk_st (plant_kernel p)) = true /\ view_read (pl_shadow p) (dxl_addr "torque_enable") 1 = Some [0] /\
  view_read (pl_shadow p) (vendor_addr "engaged_mirror") 1 = Some [1].
Proof. vm_compute. repeat split. Qed.
(** A goal written in the block of the DXL torque register marks that register too:
    its reverted value drops the torque. *)
Example goal_write_drops_torque :
  let p := after 10 (with_writes [(dxl_addr "torque_enable", [1])] boot) in
  ks_engaged (sk_st (plant_kernel p)) = true /\
  ks_engaged (sk_st (plant_kernel (after 10 (with_writes [(dxl_addr "goal_position", to_le32 100)] p)))) = false.
Proof. vm_compute. repeat split. Qed.
(** Crossed limits: the boundary panics. *)
Example crossed_limits_panic :
  medium_boundary (ServoKernel_new demo_config) (host_writes [(vendor_addr "pos_min_limit_cdeg", to_le32 1)] blank) = None.
Proof. vm_compute. repeat split. Qed.
(** An unknown mode stays in the table with its mark: torque off does not get through. *)
Example bad_mode_blocks_torque_off :
  (fun r => ks_engaged (sk_st r.1)) <$>
    medium_boundary (with_st (fun st => sk_st (commit_apply None (Some 1) None None (mkKernel demo_config st None None))) (ServoKernel_new demo_config))
      (host_writes [(vendor_addr "operating_mode", [7]); (dxl_addr "torque_enable", [0])] blank)
  = Some true.
Proof. vm_compute. reflexivity. Qed.
(** A mode request is acknowledged, but the executor gives no system tick: over every
    run the mode is the position mode. *)
Lemma mode_request_never_applied p : run 4 demo_config p -> ks_mode (sk_st (plant_kernel p)) = OmPosition.
Proof. intros Hr. eapply fx_mode, run_fixed; [|exact Hr]. cbn. lia. Qed.
(** The position the DXL side shows is clamped to limits that are 0 until written. *)
Example present_position_clamped :
  let s := (samples 4 (replicate 10 (demo_frame 4000, 100)) boot) in
  (fun r => (view_read (pl_shadow r.2) (vendor_addr "present_pos_cdeg") 4, view_read (pl_shadow r.2) (dxl_addr "present_position") 4)) <$> s
  = Some (Some (to_le32 4000), Some (to_le32 0)).
Proof. vm_compute. repeat split. Qed.
